(* ===== verification/_CoqProject ===== *)
-Q . S2P
Prelude.v
GoLib.v
GoText.v
GoSort.v
External.v
Utils.v
ConcreteEnv.v
WireReader.v
ExecStream.v
FileStream.v
StreamConn.v
WssHandshake.v
GatewaySessions.v
StreamFrame.v
RelayTicket.v
RelayTicketKeys.v
RelayTicketFacts.v
RelayBearer.v
RelayControl.v
RelayAuthenticator.v
RelayRegistry.v
RelayRegistryFacts.v
RelayAgent.v
RelayDeployment.v
RemoteTask.v
StorageEngine.v
Netip.v
ConcreteNetip.v
NetworkSpec.v
NetworkSpecFacts.v
Tunnel.v
SessionStore.v
TaskStore.v
StorageFacts.v
TaskStoreFacts.v
TaskLifecycle.v
TaskAPI.v
StorageRuns.v
StoragePages.v
IdentityStore.v
OAuthClientStore.v
OAuthGrantStore.v
GoContext.v
AdminSessionService.v
StreamLease.v
OAuthStorage.v
LocalUsers.v
StorageCleanup.v
StorageTransactions.v
AuthFacts.v
StorageCleanupFacts.v
AuthGrants.v
AuthAccounts.v
AuthRuns.v
SessionRuntime.v
SessionRuntimeFacts.v
SessionRuntimeSteps.v
SessionRuntimeRuns.v
SessionAPI.v
SessionAPIFacts.v
TrafficBinding.v
KubeClient.v
TrafficBindingStatus.v
TrafficBindingReconciler.v
KubeLogic.v
TrafficBindingFacts.v
TrafficControl.v
ServiceBackends.v
TrafficBindingClient.v
TrafficBindingRuns.v
TrafficTasks.v
TrafficAPI.v
TrafficAPIFacts.v
GatewayServer.v
TicketIssue.v
Threads.v
TaskRelay.v
TrafficStream.v
PortForward.v
FileTransfer.v
