(* ===== verification/Prelude.v ===== *)
(** * KubeLoop: a verification library (root file)

    KubeLoop connects a workstation to a Kubernetes cluster.  A control plane
    keeps sessions and tasks in a database and hands out short-lived tickets; a
    data plane of gateways with relays carries the traffic; a desktop client and
    an operator use both.  This library models the parts of the Go program that
    carry its logic as Rocq functions and proves what makes them correct.

    ** The program and its model

    An identity logs in through OAuth; the grant that a login gives is what its
    codes, tokens, management sessions and streams depend on.  A Session belongs
    to an identity, a device and a namespace, and carries a snapshot of the
    cluster networks it may reach; in the process that serves it, it is a tree of
    tasks and streams with cancellation contexts.  A Task is a stream or an
    operation of a Session; its state lives in the database and is changed by
    compare-and-swap.  A relay registers with the control plane under a lease,
    keeps it alive with heartbeats and receives the keys that tickets are
    verified with; the registry assigns Sessions to relays.  A ticket names a
    Session, its generation, a relay and a target; the relay verifies it, consumes
    it once and refuses older generations.  A traffic task (an exchange, a mirror
    or a preview of a Service) has no row: its only record is a TrafficBinding in
    the cluster, which the control plane creates, a gateway claims, and the
    operator reconciles with the Service.

    The files, in the order they are compiled (sources under src/internal, but for
    the custom resource, which is src/api/v1alpha1):

    - [Prelude], [GoLib], [GoText], [GoSort], [GoContext]: errors and fallible
      computations, the parts of Go's standard library the program uses (bytes,
      words, strings, hex, base64, UTF-8, time, sorting, cancellation contexts)
      and their lemmas.
    - [External]: the packages that are not part of the repository (URL, UUID,
      SHA-256, Ed25519, PEM/X.509, JSON, files, case tables), as classes of operations;
      [Netip]: net/netip on numbers, its textual forms a class with laws;
      [ConcreteEnv], [ConcreteNetip]: small instances of these classes, with
      which properties are applied to concrete runs.
    - [Utils]: utils/ (complete writes, strict JSON, tokens, paths).
    - [StreamFrame]: protocol/streamframe, the frames of multiplexed streams.
    - [RelayTicket], [RelayTicketKeys], [RelayTicketFacts]: protocol/relayticket,
      signing and verifying tickets, key files.
    - [RelayBearer]: auth/relaybearer, the replay guard, the generation guard and
      the verifier of requests.
    - [RelayControl]: protocol/relaycontrol, the messages between relays and
      control plane, their validation and encoding.
    - [RelayAuthenticator]: the authenticator of gateway/relay/agent, which applies
      key sets and verifies requests.
    - [RelayRegistry], [RelayRegistryFacts]: controlplane/relayregistry, the
      registry of relays and assignments with its HTTP handlers.
    - [RelayAgent]: gateway/relay/agent, registration, heartbeats and the run loop;
      [RelayDeployment]: an agent and a registry together.
    - [RemoteTask]: protocol/remotetask, the states of tasks.
    - [NetworkSpec], [NetworkSpecFacts]: protocol/networkspec and protocol/dns,
      normalized cluster networks.
    - [StorageEngine]: the data of controlplane/storage, its tables, statements,
      transactions and failures; [SessionStore], [TaskStore]: its repositories of
      sessions, and of tasks with audit events and idempotency records;
      [StoragePages]: its listings; [IdentityStore], [OAuthClientStore],
      [OAuthGrantStore]: identities and credentials with management sessions, OAuth clients with consents, logins with codes and
      tokens; [StorageCleanup]: snapshots, the deletion of expired sessions, and
      controlplane/maintenance.  [StorageFacts], [StorageTransactions],
      [TaskStoreFacts], [StorageCleanupFacts]: program logics
      for statements and transactions, and what the repositories do to the tables.
    - [TaskAPI]: controlplane/taskapi, idempotent creation.
    - [TaskLifecycle]: controlplane/tasklifecycle, taskstream and
      sessionregistry/reconciler.go: stopping, deleting, finishing and recovering
      tasks.  The lifecycle is proved against an interface, the class
      [TaskRepositoryLaws]; the store's repository is an instance.
    - [StorageRuns]: a scripted engine and concrete runs.
    - [AdminSessionService], [StreamLease], [OAuthStorage], [LocalUsers]:
      controlplane/admin/session, streamlease, the storage behind the OAuth
      library in authn/oauthserver, admin/localuser with admin/bootstrap;
      [AuthFacts], [AuthGrants], [AuthAccounts], [AuthRuns]: their properties and
      runs.
    - [SessionRuntime], [SessionRuntimeFacts], [SessionRuntimeSteps],
      [SessionRuntimeRuns]: controlplane/sessionregistry, the tree of sessions,
      tasks and streams of a process.
    - [SessionAPI], [SessionAPIFacts]: controlplane/sessionapi.
    - [TrafficBinding], [KubeClient], [TrafficBindingStatus],
      [TrafficBindingReconciler]: the custom resource with its validation, and
      internal/controller, over a class of Kubernetes clients; [KubeLogic],
      [TrafficBindingFacts]: a program logic for the operator and the invariant
      that makes interception reversible.
    - [TrafficControl], [ServiceBackends], [TrafficBindingClient], [TrafficTasks],
      [TrafficAPI]: protocol/trafficcontrol and servicemodel,
      controlplane/servicebinding, trafficbindingclient, trafficsession,
      trafficapi, exchangeapi, mirrorapi, previewapi, trafficcontrolapi and
      kubernetes/service_resolver.go: traffic tasks on the side of the control
      plane; [TrafficAPIFacts]: their properties;
      [TrafficBindingRuns]: a small API server and runs.

    - [WireReader]: readers that deliver bytes in pieces and [io.ReadFull];
      [Tunnel]: protocol/tunnel and protocol/trojanws; [ExecStream],
      [FileStream]: protocol/execstream and protocol/filestream; [StreamConn]:
      transport/websocketmux/streamconn.go, streams with half-close.
    - [WssHandshake]: protocol/wss and the client's side of the handshake
      (client/websocketmux/session.go); [GatewaySessions]:
      gateway/websocketmux, the WebSocket sessions of a Gateway with their
      counters and generations; [GatewayServer]: gateway/gateway.go and
      traffic.go, the logical streams inside them.
    - [TicketIssue]: controlplane/ticketapi, and the use gateway/run.go makes of a
      verified ticket.
    - [Threads]: programs whose steps interleave, a scheduler for them and a
      rely-guarantee logic with tokens, and a logic of total correctness for a
      program that runs alone; [TaskRelay]: client/taskrelay, the manager of
      relayed tasks, with the start of an Exchange or a Mirror; [PortForward]:
      client/portforward, the manager of port forwards with its local listeners;
      [FileTransfer]: client/filetransfer, the manager of uploads and downloads with
      its state file.
    - [TrafficStream]: transport/trafficstream, the Noise handshake of a traffic
      stream with the pinned key of the Gateway, and its encrypted frames, over
      classes of WebSocket and Noise operations with laws; and the places in
      client/dataplane that choose the key.

    ** How the code is modelled

    A function that returns a value and an error is a function into [result]; a
    panic is a further outcome ([None], or [Panicked] in the storage layer).
    Structs are records.  A value guarded by a mutex is a record that operations
    take and return: each operation is one step, and clock readings that the code
    takes outside its mutex are separate arguments.  Integers that can wrap around
    are wrapped where the code's types do ([uint32], [int64], durations).  Times
    are nanoseconds since the zero time.  The relay agent runs in a state and
    error monad over an environment (clock, HTTP client, timers, context); the
    storage layer in a state and error monad over an engine, in which a statement
    or a commit may fail with or without having been applied, other clients act
    between any two transactions, and transactions are retried.  What a callback
    captures survives a retry, as it does in Go.  The runtime registry is a store
    of objects with their links, since its operations alias them.

    A handler of the Gateway that several connections run at once is a machine:
    an access to the shared tables under their mutex is a step ([next]), a
    connection is in a phase, and [reachable] states are those after any
    interleaving of steps and events.  A manager of the client is a program of
    [Threads] per caller and goroutine, which branches on the answers of the
    outside; objects behind pointers have addresses, and a pointer followed outside
    the mutex is a step of its own, which panics when it is nil.

    The operator and the control plane act on Kubernetes through the class
    [KubeClient]; the laws of its writes ([KubeWrites]) say what a create, update,
    merge patch, status patch or delete does to the stored objects, that a call may
    fail with or without effect, and that others act between two calls, within a
    relation that is a parameter.  That a read of a kind gives what is stored is a
    law of its own ([CurrentReads]).  The client of the control plane has no cache;
    that of the operator ([manager.GetClient()], internal/operator/runtime/run.go)
    has one, and the theorems about the operator assume that it is current for
    bindings and Services ([stale_read_loses_service] shows why), and nothing of
    its other reads.  Waiting for a state is a number of polls.

    ** What is shown

    - Frames: a frame decodes from exactly its own encoding.
    - Tickets: what is signed is verified, what is verified was signed, is
      current and bound to its audience; lifetimes are bounded, except where the
      check overflows; key files round trip.
    - Requests: a ticket is not replayed before it expires and older generations
      are fenced, when clock readings do not decrease; the guards stay within
      their capacity; the one race the code leaves is exhibited.
    - Registry: reservation counts are exact in every reachable state; a failed
      allocation changes nothing; the selected relay is least loaded among the
      eligible ones, whatever the iteration order of the map; generations and
      leases fence.
    - Agent and deployment: a ready agent has a live lease and an authenticator
      pinned to its identity; a registration leaves agent and registry in
      agreement; with the longest accepted lease it never succeeds.
    - Networks: normalized networks are those of the input, disjoint and
      canonical; which public addresses they may contain is exactly known.
    - Tasks: every committed change of a state is a valid transition with one
      audit event, whatever fails; claims, stops, deletions, recoveries and
      idempotent creations do what they promise under interference; two runs show
      where the code falls short.
    - Listings: a client that follows the cursors sees every row that stays
      exactly once.
    - Accounts and grants: codes and tokens are spent once, a revoked grant opens
      nothing and ends the streams opened under it, account changes end grants,
      the first administrator is created once, built-in clients stay, and a
      clean-up removes only what has expired.
    - Sessions: the rows of a session are its history, with a generation that
      counts its changes; disconnecting closes its streams; shutting down the
      runtime registry ends; a session counts as done exactly when it has no work.
    - Traffic: with current reads of bindings and Services, and resumptions only
      after complete pauses, an intercepted Service can be restored and a settled
      binding has left nothing in it, in any order of reconciliations and requests
      and whatever calls fail; the control plane keeps to the rights the operator
      relies on, under the conditions of [permitted]; nobody touches the task of
      somebody else; a repeated creation replaces nothing; the operator accepts
      whatever the control plane creates; a mirror serves the Service's own
      backends.  Runs show where the code falls short: a resumption before the
      pause is complete, which the handler accepts, leaves the Service without
      backends, and so does a pause that reads the Service from a cache that lags;
      a task can be claimed twice, and a resumption can panic.

    - Wire formats: every message is read as it was written, however the
      connection cuts the bytes and whatever part of them it takes at a time; a
      half-closed direction carries what was written and then its end, and takes
      nothing more; the passwords of two Session generations differ.
    - Issuing: only the owner of an active Session gets a ticket for it; a ticket
      does not outlive its Session; the relay it names accepts it and lets the
      client in with the rights of the Session.
    - Relayed tasks of the client: in every interleaving no pointer is nil where it
      is used and what is shown as running has its relay, as long as no caller
      gives up a wait; a single client that neither tracks tasks by hand nor gives
      up a wait loses no relay.  Runs show what happens otherwise: a pause that is
      given up panics, and two concurrent resumptions, as well as tracking a task
      whose relay runs, leave a relay that nobody can stop.
    - Port forwards: a single caller never deadlocks, and the local listeners that
      run are exactly those of the active entries, none after a shutdown, whatever
      the Gateway and the network answer.  Two runs show where the code falls
      short: a resumption after the shutdown listens, and one that meets a deletion
      leaves a listener that nobody can stop.
    - File transfers: in every interleaving no goroutine panics, a task is shown as
      under way exactly while a transfer of it is, and none is after a shutdown;
      when there is a state file that nobody is writing, a restart knows exactly
      the tasks of the manager, provided that the strings of requests are UTF-8 and
      their local paths are accepted again once they are clean.  Runs show a task
      that a restart forgets and one whose path it changes.
    - Encrypted traffic: a client and the Gateway of its ticket complete the
      handshake and every frame arrives; another Gateway is refused; on a network
      that cannot forge messages a reader gets a prefix of what was written.
    - Gateway: its counters are exact in every interleaving and nothing is left
      when all connections have ended; only the newest generation of a Session
      hands on streams; a handshake that the Gateway accepts succeeds at the
      client; a traffic stream passes its authorization only while a control stream
      of the same Session (or of one whose token collides under SHA-256) holds its
      network registered, though it may outlive that stream; what a client writes
      first is what the Gateway does, when its snapshot is of UTF-8 strings.

    ** Bounds and fuel

    Loops over data are structural.  [WriteAll_loop] takes one step per byte of
    the payload and more are never needed.  [strip_all] removes a byte at each
    step, and [map_printable] consumes at least one, with the length as fuel.  The
    loops of the agent are bounded by the configured attempts, its run loop by a
    number of iterations the theorems quantify over.  A transaction makes at most
    [transactionMaxRetries] retries and [Stop] eight attempts, as the code does.
    The check of a lease tolerates one error before it cancels, so two rounds
    describe it.  The theorems on the runtime registry assume fewer than 2^62
    attached streams, since its sequence numbers are 64 bits wide.  A wait on the
    cluster is a number of polls that its caller chooses, and the theorems
    quantify over it.

    ** Assumptions

    What third-party code does is stated in classes of laws.  The handshake of
    Noise completes for generated pairs of keys and seeds of 32 bytes ([genuine]),
    and decryption gives back what was encrypted; JSON keeps UTF-8 strings and
    replaces what is not UTF-8 ([spec_json], [json_task]); reads of a client
    without a cache are current.  A transaction of the store is one step towards
    all others ([withinTransaction]): of the databases, SQLite gives this to every
    statement, while on PostgreSQL a statement outside a transaction runs at READ
    COMMITTED and may miss rows that a concurrent transaction is about to commit.
    Consuming a code is shown of the statement outside a transaction; within one
    its effect is that of the transaction.  Namespaces of tasks are UTF-8.

    ** Not modelled

    Sockets, goroutine scheduling inside a step, the Kubernetes client itself, the
    sing-box library, the cryptography of Noise, the user interfaces and process
    management are left out: they are third-party code or input and output.  The
    APIs of pod exec, files and port forwards, most managers of the desktop client
    and the relays behind a traffic task are logic that the library does not
    cover. *)

From stdpp Require Export base option list gmap strings pretty.
From Stdlib Require Export ZArith Lia Bool.
From Stdlib Require Strings.Byte.

#[global] Open Scope string_scope.
#[global] Open Scope list_scope.
#[global] Open Scope Z_scope.

(** ** Go errors

    A Go [error] is modelled by how the code can tell it apart: by its message
    ([errors.New], [fmt.Errorf] without [%w]), by its identity when it is a
    package-level variable (tested with [errors.Is]), or by the error it wraps
    ([fmt.Errorf] with [%w]). *)

Inductive error : Type :=
| NewError (msg : string)
| VarError (name : string)
| WrapError (msg : string) (cause : error).

#[export] Instance error_eq_dec : EqDecision error.
Proof. solve_decision. Defined.

(** [errors.Is(err, v)] for a package-level variable [v]. *)
Fixpoint errors_Is (e : error) (v : string) : bool :=
  match e with
  | NewError _ => false
  | VarError name => bool_decide (name = v)
  | WrapError _ cause => errors_Is cause v
  end.

(** ** Fallible computations

    A function of the program that returns [(T, error)] returns either a value
    with a nil error, or a zero value with a non-nil error. *)

Inductive result (A : Type) : Type :=
| Ok (a : A)
| Err (e : error).
Arguments Ok {A} _.
Arguments Err {A} _.

#[export] Instance result_eq_dec `{EqDecision A} : EqDecision (result A).
Proof. solve_decision. Defined.

#[export] Instance result_ret : MRet result := @Ok.
#[export] Instance result_bind : MBind result :=
  fun A B f m => match m with Ok a => f a | Err e => Err e end.
#[export] Instance result_fmap : FMap result :=
  fun A B f m => match m with Ok a => Ok (f a) | Err e => Err e end.

Definition is_ok {A} (r : result A) : bool :=
  match r with Ok _ => true | Err _ => false end.

(** [if !cond { return e }] *)
Definition require (cond : bool) (e : error) : result unit :=
  if cond then Ok tt else Err e.

(** ** Automation *)

(** Case analysis on the scrutinee of a [match] or [if] of the goal or of a
    hypothesis, remembering the equation. *)
Ltac case_match_eqn :=
  match goal with
  | |- context [ match ?x with _ => _ end ] => destruct x eqn:?
  | H : context [ match ?x with _ => _ end ] |- _ => destruct x eqn:?
  end.

(** Turn boolean tests in hypotheses into propositions. *)
Ltac bool_hyps :=
  repeat match goal with
  | H : _ && _ = true |- _ => apply andb_true_iff in H as [? ?]
  | H : _ || _ = false |- _ => apply orb_false_iff in H as [? ?]
  | H : negb _ = true |- _ => apply negb_true_iff in H
  | H : negb _ = false |- _ => apply negb_false_iff in H
  | H : bool_decide _ = true |- _ => apply bool_decide_eq_true in H
  | H : bool_decide _ = false |- _ => apply bool_decide_eq_false in H
  | H : (_ =? _) = true |- _ => apply Z.eqb_eq in H
  | H : (_ =? _) = false |- _ => apply Z.eqb_neq in H
  | H : (_ <? _) = true |- _ => apply Z.ltb_lt in H
  | H : (_ <? _) = false |- _ => apply Z.ltb_ge in H
  | H : (_ <=? _) = true |- _ => apply Z.leb_le in H
  | H : (_ <=? _) = false |- _ => apply Z.leb_gt in H
  end.

Lemma Ok_inj {A} (a b : A) : Ok a = Ok b -> a = b.
Proof. congruence. Qed.

(** Conjunctions of equations between closed terms, one by one. *)
Ltac evaluate := repeat lazymatch goal with |- _ /\ _ => split end; vm_compute; first [reflexivity | left; reflexivity].

(** Invert a successful monadic computation in the hypotheses. *)
Ltac inv_ok :=
  repeat match goal with
  | H : Ok _ = Ok _ |- _ => apply Ok_inj in H; try subst
  | u : unit |- _ => destruct u
  | H : Err _ = Ok _ |- _ => discriminate H
  | H : Ok _ = Err _ |- _ => discriminate H
  | H : mbind _ ?m = Ok _ |- _ =>
      let E := fresh "E" in
      destruct m eqn:E; cbn [mbind result_bind] in H; [|discriminate H]
  | H : require ?b _ = Ok _ |- _ =>
      let E := fresh "E" in
      unfold require in H; destruct b eqn:E; [clear H|discriminate H]
  | H : (if ?b then Err _ else _) = Ok _ |- _ =>
      let E := fresh "E" in destruct b eqn:E; [discriminate H|]
  | H : (if ?b then _ else Err _) = Ok _ |- _ =>
      let E := fresh "E" in destruct b eqn:E; [|discriminate H]
  end.

Create HintDb kube.
Create Rewrite HintDb kube.

Lemma result_bind_ok {A B} (f : A -> result B) (m : result A) (b : B) :
  (x ← m; f x) = Ok b <-> exists a, m = Ok a /\ f a = Ok b.
Proof.
  destruct m as [a|e]; cbn; split.
  - eauto.
  - intros (a' & [= ->] & H); exact H.
  - discriminate.
  - intros (a' & H & _); discriminate H.
Qed.

Lemma require_ok (b : bool) (e : error) (u : unit) :
  require b e = Ok u <-> b = true.
Proof. destruct b, u; cbn; split; congruence. Qed.

(** A field of a computed value, as a computation. *)
Lemma some_field {A B} (d : B) (f : A -> B) (o : option A) (a : A) :
  o = Some a -> f a = match o with Some x => f x | None => d end.
Proof. by intros ->. Qed.

Lemma ok_field {A B} (d : B) (f : A -> B) (o : result A) (a : A) :
  o = Ok a -> f a = match o with Ok x => f x | Err _ => d end.
Proof. by intros ->. Qed.

(** ** Finite maps: how many entries satisfy a predicate *)

Section map_count.
Context {K : Type} `{Countable K} {V : Type}.
Implicit Types (m : gmap K V) (f : V -> bool).

Definition map_count f m : Z := Z.of_nat (size (filter (fun kv => f kv.2 = true) m)).

Lemma map_count_empty f : map_count f ∅ = 0.
Proof. unfold map_count. by rewrite map_filter_empty, map_size_empty. Qed.

Lemma map_count_insert_None f m k v :
  m !! k = None ->
  map_count f (<[k:=v]> m) = map_count f m + (if f v then 1 else 0).
Proof.
  intros Hk. unfold map_count.
  destruct (f v) eqn:Hf.
  - rewrite map_filter_insert_True by done.
    rewrite map_size_insert_None; [lia|].
    rewrite map_lookup_filter_None. by left.
  - rewrite map_filter_insert_False by (cbn; congruence).
    rewrite delete_id by done. lia.
Qed.

Lemma map_count_delete f m k v :
  m !! k = Some v ->
  map_count f (delete k m) = map_count f m - (if f v then 1 else 0).
Proof.
  intros Hk. rewrite <- (insert_id m k v) at 2 by done.
  rewrite <- insert_delete_eq.
  rewrite map_count_insert_None by apply lookup_delete_eq. lia.
Qed.

Lemma map_count_insert_Some f m k v w :
  m !! k = Some w ->
  map_count f (<[k:=v]> m) =
    map_count f m - (if f w then 1 else 0) + (if f v then 1 else 0).
Proof.
  intros Hk. rewrite <- insert_delete_eq.
  rewrite map_count_insert_None by apply lookup_delete_eq.
  by rewrite (map_count_delete f m k w).
Qed.

Lemma map_count_nonneg f m : 0 <= map_count f m.
Proof. unfold map_count. lia. Qed.

Lemma map_count_pos f m k v : m !! k = Some v -> f v = true -> 1 <= map_count f m.
Proof.
  intros Hk Hf. pose proof (map_count_delete f m k v Hk) as Hd.
  rewrite Hf in Hd. pose proof (map_count_nonneg f (delete k m)). lia.
Qed.

Lemma map_count_le_size f m : map_count f m <= Z.of_nat (size m).
Proof.
  unfold map_count. apply inj_le.
  apply map_subseteq_size, map_filter_subseteq.
Qed.
End map_count.

#[export] Hint Resolve map_count_nonneg map_count_le_size : kube.
