(* ===== verification/GoLib.v ===== *)
(** * The part of Go's standard library the modelled code relies on

    Bytes and big-endian words ([encoding/binary]), the byte-level functions of
    [strings], [encoding/hex], [encoding/base64] in its raw URL form, and
    [time].  A Go [string] is a [String.string], one [ascii] per byte; a
    [[]byte] is a [list byte]. *)

From S2P Require Import Prelude.
From Stdlib Require Export Strings.Byte.

Abbreviation bytes := (list byte) (only parsing).

#[export] Instance byte_eq_dec : EqDecision byte.
Proof. intros x y. exact (Byte.byte_eq_dec x y). Defined.

(** ** Machine words *)

Definition Z_of_byte (b : byte) : Z := Z.of_N (Byte.to_N b).

Definition byte_of_Z (z : Z) : byte :=
  match Byte.of_N (Z.to_N (z mod 256)) with Some b => b | None => x00 end.

(** Conversions to unsigned types wrap around. *)
Definition uint16 (z : Z) : Z := z mod 2 ^ 16.
Definition uint32 (z : Z) : Z := z mod 2 ^ 32.
Definition uint64 (z : Z) : Z := z mod 2 ^ 64.

Definition int32 (z : Z) : Z := (z + 2 ^ 31) mod 2 ^ 32 - 2 ^ 31.

(** Signed 64-bit arithmetic wraps around in two's complement. *)
Definition int64 (z : Z) : Z := (z + 2 ^ 63) mod 2 ^ 64 - 2 ^ 63.

Definition u8 (z : Z) : Prop := 0 <= z < 2 ^ 8.
Definition u16 (z : Z) : Prop := 0 <= z < 2 ^ 16.
Definition u32 (z : Z) : Prop := 0 <= z < 2 ^ 32.
Definition u64 (z : Z) : Prop := 0 <= z < 2 ^ 64.
Definition i64 (z : Z) : Prop := - 2 ^ 63 <= z < 2 ^ 63.

(** [len(value)] of a byte slice and of a string. *)
Definition len {A} (l : list A) : Z := Z.of_nat (List.length l).
Definition slen (s : string) : Z := Z.of_nat (String.length s).

(** [s[:n]] on a string, for [n <= len(s)]. *)
Definition string_take (n : Z) (s : string) : string := String.substring 0 (Z.to_nat n) s.

(** [binary.BigEndian.PutUintN] and [UintN], [n] the number of bytes. *)
Fixpoint be_put (n : nat) (z : Z) : bytes :=
  match n with
  | O => []
  | S n' => be_put n' (Z.shiftr z 8) ++ [byte_of_Z z]
  end.

Definition be_get (l : bytes) : Z :=
  fold_left (fun acc b => Z.lor (Z.shiftl acc 8) (Z_of_byte b)) l 0.

(** [l[i:j]] for [i <= j <= len(l)]. *)
Definition slice {A} (i j : nat) (l : list A) : list A := take (j - i) (drop i l).

(** ** Strings *)

Definition string_to_bytes (s : string) : bytes := String.list_byte_of_string s.
Definition bytes_to_string (l : bytes) : string := String.string_of_list_byte l.

Definition all_bytes (p : byte -> bool) (s : string) : bool :=
  forallb p (string_to_bytes s).

Fixpoint strip_prefix (p l : bytes) : option bytes :=
  match p, l with
  | [], _ => Some l
  | a :: p', b :: l' => if decide (a = b) then strip_prefix p' l' else None
  | _ :: _, [] => None
  end.

Definition HasPrefix (s prefix : string) : bool :=
  match strip_prefix (string_to_bytes prefix) (string_to_bytes s) with
  | Some _ => true | None => false end.

(** The UTF-8 encodings of the code points [unicode.IsSpace] accepts.  An
    encoding has exactly one leading byte, so decoding a rune from the start or
    from the end of a string finds one of them exactly when it is a prefix or a
    suffix of the string. *)
Definition space_encodings : list bytes :=
  [[x09]; [x0a]; [x0b]; [x0c]; [x0d]; [x20];
   [xc2; x85]; [xc2; xa0]; [xe1; x9a; x80];
   [xe2; x80; x80]; [xe2; x80; x81]; [xe2; x80; x82]; [xe2; x80; x83];
   [xe2; x80; x84]; [xe2; x80; x85]; [xe2; x80; x86]; [xe2; x80; x87];
   [xe2; x80; x88]; [xe2; x80; x89]; [xe2; x80; x8a];
   [xe2; x80; xa8]; [xe2; x80; xa9]; [xe2; x80; xaf];
   [xe2; x81; x9f]; [xe3; x80; x80]].

Fixpoint strip_any (ps : list bytes) (l : bytes) : option bytes :=
  match ps with
  | [] => None
  | p :: ps' =>
      match strip_prefix p l with Some r => Some r | None => strip_any ps' l end
  end.

(** Strip the patterns from the front until none matches; every step removes a
    byte, so [List.length l] steps are enough. *)
Fixpoint strip_all (fuel : nat) (ps : list bytes) (l : bytes) : bytes :=
  match fuel with
  | O => l
  | S fuel' =>
      match strip_any ps l with Some r => strip_all fuel' ps r | None => l end
  end.

Definition trim_left_space (l : bytes) : bytes :=
  strip_all (List.length l) space_encodings l.

Definition trim_right_space (l : bytes) : bytes :=
  rev (strip_all (List.length l) (map (@rev byte) space_encodings) (rev l)).

Definition TrimSpace (s : string) : string :=
  bytes_to_string (trim_right_space (trim_left_space (string_to_bytes s))).

(** [strings.Split(s, sep)] for a one-byte separator. *)
Fixpoint split_bytes (sep : byte) (l : bytes) : list bytes :=
  match l with
  | [] => [[]]
  | b :: l' =>
      if decide (b = sep) then [] :: split_bytes sep l'
      else match split_bytes sep l' with
           | [] => [[b]]
           | p :: ps => (b :: p) :: ps
           end
  end.

Definition Split (s : string) (sep : byte) : list string :=
  map bytes_to_string (split_bytes sep (string_to_bytes s)).

(** ASCII letters and digits. *)
Definition byte_in (lo hi : byte) (b : byte) : bool :=
  (Z_of_byte lo <=? Z_of_byte b) && (Z_of_byte b <=? Z_of_byte hi).

Definition is_lower (b : byte) : bool := byte_in x61 x7a b.
Definition is_upper (b : byte) : bool := byte_in x41 x5a b.
Definition is_digit (b : byte) : bool := byte_in x30 x39 b.
Definition is_alnum (b : byte) : bool := is_lower b || is_upper b || is_digit b.

(** [strconv.ParseUint(s, 10, 64)]: digits only, at most [2^64 - 1]. *)
Fixpoint parse_digits (l : bytes) (n : Z) : option Z :=
  match l with
  | [] => Some n
  | b :: l' =>
      if is_digit b then
        let n' := 10 * n + (Z_of_byte b - 48) in
        if 2 ^ 64 <=? n' then None else parse_digits l' n'
      else None
  end.
Definition ParseUint (l : bytes) : option Z := match l with [] => None | _ => parse_digits l 0 end.

(** A byte below 0x20 or 0x7f; the runes with these values are one byte long,
    and no byte of a longer encoding has such a value. *)
Definition is_control (b : byte) : bool :=
  (Z_of_byte b <? 32) || (Z_of_byte b =? 127).

(** [strings.ToLower] on ASCII strings. *)
Definition lower_byte (b : byte) : byte :=
  if is_upper b then byte_of_Z (Z_of_byte b + 32) else b.
Definition ToLower (s : string) : string :=
  bytes_to_string (map lower_byte (string_to_bytes s)).

(** [%q] of a string without characters that need escaping. *)
Definition double_quote : string := String.String (Ascii.ascii_of_nat 34) "".
Definition quoted (s : string) : string := double_quote +:+ s +:+ double_quote.

(** ** [encoding/hex] *)

Definition hex_digit (z : Z) : byte :=
  if z <? 10 then byte_of_Z (48 + z) else byte_of_Z (87 + z).

Definition hex_value (b : byte) : option Z :=
  let z := Z_of_byte b in
  if is_digit b then Some (z - 48)
  else if byte_in x61 x66 b then Some (z - 87)
  else if byte_in x41 x46 b then Some (z - 55)
  else None.

Fixpoint hex_encode_bytes (l : bytes) : bytes :=
  match l with
  | [] => []
  | b :: l' =>
      hex_digit (Z.shiftr (Z_of_byte b) 4) :: hex_digit (Z.land (Z_of_byte b) 15)
        :: hex_encode_bytes l'
  end.

Fixpoint hex_decode_bytes (l : bytes) : option bytes :=
  match l with
  | [] => Some []
  | [_] => None
  | a :: b :: l' =>
      x ← hex_value a; y ← hex_value b; r ← hex_decode_bytes l';
      Some (byte_of_Z (Z.lor (Z.shiftl x 4) y) :: r)
  end.

Definition hex_EncodeToString (l : bytes) : string := bytes_to_string (hex_encode_bytes l).
Definition hex_DecodeString (s : string) : option bytes := hex_decode_bytes (string_to_bytes s).

(** ** [encoding/base64], [RawURLEncoding.Strict()] *)

Definition b64_digit (z : Z) : byte :=
  if z <? 26 then byte_of_Z (65 + z)
  else if z <? 52 then byte_of_Z (71 + z)
  else if z <? 62 then byte_of_Z (z - 4)
  else if z =? 62 then x2d else x5f.

Definition b64_value (b : byte) : option Z :=
  let z := Z_of_byte b in
  if is_upper b then Some (z - 65)
  else if is_lower b then Some (z - 71)
  else if is_digit b then Some (z + 4)
  else if decide (b = x2d) then Some 62
  else if decide (b = x5f) then Some 63
  else None.

Fixpoint b64_encode_bytes (l : bytes) : bytes :=
  match l with
  | [] => []
  | [a] =>
      let a := Z_of_byte a in
      [b64_digit (a / 4); b64_digit (a mod 4 * 16)]
  | [a; b] =>
      let a := Z_of_byte a in let b := Z_of_byte b in
      [b64_digit (a / 4); b64_digit (a mod 4 * 16 + b / 16); b64_digit (b mod 16 * 4)]
  | a :: b :: c :: l' =>
      let a := Z_of_byte a in let b := Z_of_byte b in let c := Z_of_byte c in
      b64_digit (a / 4) :: b64_digit (a mod 4 * 16 + b / 16)
        :: b64_digit (b mod 16 * 4 + c / 64) :: b64_digit (c mod 64)
        :: b64_encode_bytes l'
  end.

(** Strict decoding: the bits left over in the last digit must be zero. *)
Fixpoint b64_decode_digits (l : list Z) : option bytes :=
  match l with
  | [] => Some []
  | [_] => None
  | [p; q] =>
      if q mod 16 =? 0 then Some [byte_of_Z (p * 4 + q / 16)] else None
  | [p; q; r] =>
      if r mod 4 =? 0
      then Some [byte_of_Z (p * 4 + q / 16); byte_of_Z (q mod 16 * 16 + r / 4)]
      else None
  | p :: q :: r :: s :: l' =>
      rest ← b64_decode_digits l';
      Some (byte_of_Z (p * 4 + q / 16) :: byte_of_Z (q mod 16 * 16 + r / 4)
              :: byte_of_Z (r mod 4 * 64 + s) :: rest)
  end.

(** Carriage returns and line feeds are skipped, even by the strict decoder. *)
Definition b64_skipped (b : byte) : bool := bool_decide (b = x0a) || bool_decide (b = x0d).

Definition b64_DecodeString (s : string) : option bytes :=
  digits ← mapM b64_value (List.filter (fun b => negb (b64_skipped b)) (string_to_bytes s));
  b64_decode_digits digits.

Definition b64_EncodeToString (l : bytes) : string := bytes_to_string (b64_encode_bytes l).

(** ** Time

    An instant is a number of nanoseconds since the zero [time.Time]; a
    [time.Duration] is a number of nanoseconds.  Locations do not matter to the
    comparisons the code makes, so [UTC()] is the identity. *)

Abbreviation time := Z (only parsing).
Abbreviation Duration := Z (only parsing).

Definition Second : Duration := 1000000000.
Definition Millisecond : Duration := 1000000.
Definition Minute : Duration := 60 * Second.
Definition Hour : Duration := 60 * Minute.

Definition IsZero (t : time) : bool := t =? 0.
Definition After (t u : time) : bool := u <? t.
Definition Before (t u : time) : bool := t <? u.

(** [t.Sub(u)] saturates at the extreme durations. *)
Definition time_Sub (t u : time) : Duration :=
  Z.max (- 2 ^ 63) (Z.min (2 ^ 63 - 1) (t - u)).

(** [t.Unix()] and [time.Unix(sec, 0)]; the zero time is 62135596800 seconds
    before the epoch. *)
Definition unix_epoch : Z := 62135596800.
Definition time_Unix (t : time) : Z := t / Second - unix_epoch.
Definition Unix_time (sec : Z) : time := (sec + unix_epoch) * Second.

(** ** Lemmas on bytes and words *)

Lemma int64_small z : i64 z -> int64 z = z.
Proof. unfold i64, int64. intros. rewrite Z.mod_small; lia. Qed.

Lemma uint32_small z : 0 <= z < 2 ^ 32 -> uint32 z = z.
Proof. apply Z.mod_small. Qed.

Lemma uint64_small z : 0 <= z < 2 ^ 64 -> uint64 z = z.
Proof. apply Z.mod_small. Qed.

Lemma Z_of_byte_range b : 0 <= Z_of_byte b < 256.
Proof.
  unfold Z_of_byte. pose proof (Byte.to_N_bounded b). lia.
Qed.

Lemma byte_of_Z_of_byte b : byte_of_Z (Z_of_byte b) = b.
Proof.
  unfold byte_of_Z. rewrite Z.mod_small by apply Z_of_byte_range.
  unfold Z_of_byte. by rewrite N2Z.id, Byte.of_to_N.
Qed.

Lemma Z_of_byte_of_Z z : Z_of_byte (byte_of_Z z) = z mod 256.
Proof.
  pose proof (Z.mod_pos_bound z 256 ltac:(lia)) as Hb.
  unfold byte_of_Z. destruct (Byte.of_N _) eqn:E.
  - apply Byte.to_of_N in E. unfold Z_of_byte. rewrite E. lia.
  - apply Byte.of_N_None_iff in E. lia.
Qed.

Lemma Z_of_byte_inj a b : Z_of_byte a = Z_of_byte b -> a = b.
Proof. intros H. by rewrite <- (byte_of_Z_of_byte a), H, byte_of_Z_of_byte. Qed.

Lemma byte_of_Z_small z : 0 <= z < 256 -> Z_of_byte (byte_of_Z z) = z.
Proof. intros. rewrite Z_of_byte_of_Z. by apply Z.mod_small. Qed.

Lemma be_put_length n z : List.length (be_put n z) = n.
Proof.
  revert z; induction n as [|n IH]; intros z; [done|].
  cbn. rewrite length_app, IH. cbn. lia.
Qed.

Lemma be_get_snoc l b : be_get (l ++ [b]) = Z.lor (Z.shiftl (be_get l) 8) (Z_of_byte b).
Proof. unfold be_get. by rewrite fold_left_app. Qed.

Lemma land_shiftl_low a b k : 0 <= k -> 0 <= b < 2 ^ k -> Z.land (Z.shiftl a k) b = 0.
Proof.
  intros Hk Hb. apply Z.bits_inj'. intros i Hi.
  rewrite Z.land_spec, Z.shiftl_spec, Z.bits_0 by lia.
  destruct (Z.ltb_spec i k); [by rewrite Z.testbit_neg_r by lia|].
  destruct (decide (b = 0)) as [->|]; [by rewrite Z.bits_0, andb_false_r|].
  rewrite (Z.bits_above_log2 b i); [by rewrite andb_false_r|lia|].
  apply Z.log2_lt_pow2; [lia|].
  apply Z.lt_le_trans with (2 ^ k); [lia|]. apply Z.pow_le_mono_r; lia.
Qed.

Lemma lor_shiftl_add a b k : 0 <= k -> 0 <= b < 2 ^ k -> Z.lor (Z.shiftl a k) b = a * 2 ^ k + b.
Proof.
  intros Hk Hb. rewrite <- Z.shiftl_mul_pow2 by done.
  pose proof (land_shiftl_low a b k Hk Hb) as H0.
  by rewrite <- Z.lxor_lor, <- Z.add_nocarry_lxor by done.
Qed.

Lemma be_get_snoc_arith l b : be_get (l ++ [b]) = be_get l * 256 + Z_of_byte b.
Proof.
  rewrite be_get_snoc. pose proof (Z_of_byte_range b).
  by rewrite lor_shiftl_add by (cbn; lia).
Qed.

Lemma be_get_put n z : be_get (be_put n z) = z mod 2 ^ (8 * Z.of_nat n).
Proof.
  revert z; induction n as [|n IH]; intros z.
  - cbn. by rewrite Z.mod_1_r.
  - cbn [be_put]. rewrite be_get_snoc_arith, IH, Z_of_byte_of_Z.
    rewrite Z.shiftr_div_pow2 by lia. change (2 ^ 8) with 256.
    replace (8 * Z.of_nat (S n)) with (8 + 8 * Z.of_nat n) by lia.
    rewrite Z.pow_add_r by lia. change (2 ^ 8) with 256.
    rewrite Z.rem_mul_r by (try apply Z.pow_pos_nonneg; lia). lia.
Qed.

Lemma be_get_range l : 0 <= be_get l < 2 ^ (8 * len l).
Proof.
  induction l as [|b l IH] using rev_ind; [change (0 <= 0 < 1); lia|].
  rewrite be_get_snoc_arith. pose proof (Z_of_byte_range b).
  unfold len in *. rewrite length_app. cbn [List.length].
  replace (8 * Z.of_nat (List.length l + 1)) with (8 + 8 * Z.of_nat (List.length l)) by lia.
  rewrite Z.pow_add_r by lia. change (2 ^ 8) with 256. nia.
Qed.

Lemma be_put_get l : be_put (List.length l) (be_get l) = l.
Proof.
  induction l as [|b l IH] using rev_ind; [done|].
  rewrite length_app, Nat.add_comm. cbn [List.length Nat.add be_put].
  rewrite be_get_snoc_arith. pose proof (Z_of_byte_range b) as Hb.
  rewrite Z.shiftr_div_pow2 by lia. change (2 ^ 8) with 256.
  replace ((be_get l * 256 + Z_of_byte b) / 256) with (be_get l)
    by (rewrite Z.div_add_l, Z.div_small by lia; lia).
  rewrite IH. f_equal. f_equal. apply Z_of_byte_inj.
  rewrite Z_of_byte_of_Z, Z.add_comm, Z.mod_add by lia. by apply Z.mod_small.
Qed.

Lemma len_nonneg {A} (l : list A) : 0 <= len l.
Proof. unfold len. lia. Qed.

Lemma len_app {A} (l k : list A) : len (l ++ k) = len l + len k.
Proof. unfold len. rewrite length_app. lia. Qed.

Lemma len_zero {A} (l : list A) : len l = 0 <-> l = [].
Proof. unfold len. destruct l; cbn; split; [done..| lia | done]. Qed.

#[export] Hint Resolve len_nonneg Z_of_byte_range be_get_range : kube.
#[export] Hint Rewrite @len_app be_put_length be_get_put Z_of_byte_of_Z byte_of_Z_of_byte : kube.

(** ** Lemmas on strings *)

Lemma string_to_of_bytes l : string_to_bytes (bytes_to_string l) = l.
Proof. apply String.list_byte_of_string_of_list_byte. Qed.

Lemma string_of_to_bytes s : bytes_to_string (string_to_bytes s) = s.
Proof. apply String.string_of_list_byte_of_string. Qed.

Lemma string_to_bytes_inj s t : string_to_bytes s = string_to_bytes t -> s = t.
Proof. intros H. by rewrite <- (string_of_to_bytes s), H, string_of_to_bytes. Qed.

Lemma slen_bytes s : slen s = len (string_to_bytes s).
Proof.
  unfold slen, len, string_to_bytes, String.list_byte_of_string. f_equal.
  rewrite List.length_map. induction s; cbn; congruence.
Qed.

Lemma slen_of_bytes l : slen (bytes_to_string l) = len l.
Proof. by rewrite slen_bytes, string_to_of_bytes. Qed.

#[export] Hint Rewrite string_to_of_bytes string_of_to_bytes slen_of_bytes : kube.
