(* ===== verification/GoText.v ===== *)
(** * Text: trimming, splitting, base64 and UTF-8

    Facts about the [strings] and [encoding/base64] functions of [GoLib] that
    the ticket, key and header code relies on, and the text functions only that
    code uses. *)

From S2P Require Import Prelude GoLib.

(** ** Printable ASCII and [TrimSpace] *)

(** A printable ASCII byte other than the space. *)
Definition visible (b : byte) : bool := (32 <? Z_of_byte b) && (Z_of_byte b <? 127).

(** No pattern of the list starts with a visible byte. *)
Definition invisible_heads (ps : list bytes) : bool :=
  forallb (fun p => match p with [] => false | b :: _ => negb (visible b) end) ps.

Lemma strip_any_visible ps b l :
  invisible_heads ps = true -> visible b = true -> strip_any ps (b :: l) = None.
Proof.
  intros Hps Hb. induction ps as [|p ps IH]; [done|].
  cbn in Hps. apply andb_true_iff in Hps as [Hp Hps]. cbn.
  destruct p as [|a p]; [done|]. cbn.
  destruct (decide (a = b)) as [->|]; [by rewrite Hb in Hp|auto].
Qed.

Lemma strip_any_nil ps : invisible_heads ps = true -> strip_any ps [] = None.
Proof.
  induction ps as [|p ps IH]; [done|]. cbn. destruct p; [done|].
  intros [_ ?]%andb_true_iff. cbn. auto.
Qed.

Lemma strip_all_visible fuel ps l :
  invisible_heads ps = true -> forallb visible l = true -> strip_all fuel ps l = l.
Proof.
  intros Hps Hl. destruct fuel; [done|]. cbn. destruct l as [|b l].
  - by rewrite strip_any_nil.
  - cbn in Hl. apply andb_true_iff in Hl as [Hb _]. by rewrite strip_any_visible.
Qed.

Lemma forallb_rev {A} (f : A -> bool) l : forallb f (rev l) = forallb f l.
Proof.
  induction l as [|x l IH]; [done|]. cbn. rewrite forallb_app, IH. cbn.
  by rewrite andb_true_r, andb_comm.
Qed.

Lemma TrimSpace_visible s : all_bytes visible s = true -> TrimSpace s = s.
Proof.
  unfold all_bytes, TrimSpace, trim_left_space, trim_right_space. intros Hs.
  rewrite (strip_all_visible _ space_encodings) by done.
  rewrite strip_all_visible by (done || by rewrite forallb_rev).
  by rewrite rev_involutive, string_of_to_bytes.
Qed.

(** *** Trimming what was trimmed *)

Lemma strip_prefix_spec p l r : strip_prefix p l = Some r <-> l = p ++ r.
Proof.
  revert l. induction p as [|a p IH]; intros l; cbn; [split; [by intros [= ->]|by intros ->]|].
  destruct l as [|b l]; [split; [done|discriminate]|]. destruct (decide (a = b)) as [->|Hne].
  - rewrite IH. split; [by intros ->|by intros [= ->]].
  - split; [done|]. by intros [= <- _].
Qed.

Lemma strip_any_none ps l : strip_any ps l = None <-> forall p, In p ps -> strip_prefix p l = None.
Proof.
  induction ps as [|p ps IH]; cbn; [split; [by intros _ ? []|done]|]. destruct (strip_prefix p l) as [r|] eqn:Ep.
  - split; [done|]. intros Hall. rewrite (Hall p) in Ep by by left. done.
  - rewrite IH. split; [intros Hall q [<-|Hq]; [done|by apply Hall]|]. intros Hall q Hq. apply Hall. by right.
Qed.

Lemma strip_any_app ps l k : strip_any ps (l ++ k) = None -> strip_any ps l = None.
Proof.
  rewrite !strip_any_none. intros Hall p Hp. destruct (strip_prefix p l) as [r|] eqn:Ep; [|done].
  apply strip_prefix_spec in Ep as ->. specialize (Hall p Hp). rewrite <- app_assoc in Hall.
  by rewrite (proj2 (strip_prefix_spec p _ _) eq_refl) in Hall.
Qed.

Lemma strip_all_id fuel ps l : strip_any ps l = None -> strip_all fuel ps l = l.
Proof. destruct fuel; cbn; [done|]. by intros ->. Qed.

Lemma strip_all_suffix ps fuel : forall l, exists q, l = q ++ strip_all fuel ps l.
Proof.
  induction fuel as [|fuel IH]; intros l; [by exists []|]. cbn. destruct (strip_any ps l) as [r|] eqn:Er; [|by exists []].
  assert (Hp : exists p, l = p ++ r).
  { clear IH. induction ps as [|p ps IH]; [done|]. cbn in Er. destruct (strip_prefix p l) as [r'|] eqn:Ep; [|by apply IH].
    injection Er as ->. apply strip_prefix_spec in Ep. by exists p. }
  destruct Hp as [p ->]. destruct (IH r) as [q Hq]. exists (p ++ q). rewrite <- app_assoc. by f_equal.
Qed.

Lemma strip_all_done ps : forallb (fun p => negb (bool_decide (p = []))) ps = true ->
  forall fuel l, (length l <= fuel)%nat -> strip_any ps (strip_all fuel ps l) = None.
Proof.
  intros Hps. rewrite forallb_forall in Hps. induction fuel as [|fuel IH]; intros l Hl; cbn.
  - destruct l; [|cbn in Hl; lia]. apply strip_any_none. intros p Hp. specialize (Hps p Hp). by destruct p.
  - destruct (strip_any ps l) as [r|] eqn:Er; [|done]. apply IH.
    assert (Hp : exists p, In p ps /\ l = p ++ r).
    { clear -Er. induction ps as [|p ps IH]; [done|]. cbn in Er. destruct (strip_prefix p l) as [r'|] eqn:Ep.
      - injection Er as ->. apply strip_prefix_spec in Ep. exists p. split; [by left|done].
      - destruct (IH Er) as (q & ? & ?). exists q. split; [by right|done]. }
    destruct Hp as (p & Hp & ->). specialize (Hps p Hp). destruct p as [|b p]; [done|]. cbn in Hl. rewrite length_app in Hl. lia.
Qed.

Lemma TrimSpace_idem s : TrimSpace (TrimSpace s) = TrimSpace s.
Proof.
  unfold TrimSpace. rewrite string_to_of_bytes. f_equal. set (l1 := trim_left_space (string_to_bytes s)).
  assert (H1 : strip_any space_encodings l1 = None) by (by apply strip_all_done).
  unfold trim_right_space at 2 3. set (ends := map (@rev byte) space_encodings). set (l2 := strip_all (length l1) ends (rev l1)).
  assert (H2 : strip_any ends l2 = None) by (apply strip_all_done; [done|by rewrite length_rev]).
  assert (Hl : exists q, l1 = rev l2 ++ q).
  { destruct (strip_all_suffix ends (length l1) (rev l1)) as [q Hq]. fold l2 in Hq. exists (rev q).
    rewrite <- rev_app_distr, <- Hq. by rewrite rev_involutive. }
  destruct Hl as [q Hq]. unfold trim_left_space. rewrite (strip_all_id _ space_encodings (rev l2)).
  - unfold trim_right_space. fold ends. by rewrite rev_involutive, strip_all_id.
  - apply (strip_any_app _ _ q). by rewrite <- Hq.
Qed.

Lemma all_bytes_impl (p q : byte -> bool) s :
  (forall b, p b = true -> q b = true) -> all_bytes p s = true -> all_bytes q s = true.
Proof.
  unfold all_bytes. rewrite !forallb_forall. intros Hpq Hs b Hb. auto.
Qed.

(** ** [strings.Split] *)

Lemma split_bytes_nosep sep l : (sep ∉ l) -> split_bytes sep l = [l].
Proof.
  induction l as [|b l IH]; intros Hl; [done|]. cbn.
  rewrite decide_False by set_solver. rewrite IH by set_solver. done.
Qed.

Lemma split_bytes_app sep p l :
  (sep ∉ p) -> split_bytes sep (p ++ sep :: l) = p :: split_bytes sep l.
Proof.
  induction p as [|b p IH]; intros Hp; cbn.
  - by rewrite decide_True.
  - rewrite decide_False by set_solver. rewrite IH by set_solver. done.
Qed.

Lemma split_bytes_not_nil sep l : split_bytes sep l <> [].
Proof.
  destruct l as [|b l]; cbn; [done|]. destruct (decide _); [done|]. by destruct split_bytes.
Qed.

Lemma split_bytes_cons_inv sep l p ps :
  split_bytes sep l = p :: ps ->
  (sep ∉ p) /\
  match ps with [] => l = p | _ => exists r, l = p ++ sep :: r /\ split_bytes sep r = ps end.
Proof.
  revert p ps. induction l as [|b l IH]; intros p ps; cbn.
  - intros [= <- <-]. split; [set_solver|done].
  - destruct (decide (b = sep)) as [->|Hb].
    + intros [= <- <-]. split; [set_solver|].
      pose proof (split_bytes_not_nil sep l). destruct (split_bytes sep l) eqn:E; [done|].
      by exists l.
    + destruct (split_bytes sep l) as [|q qs] eqn:E.
      { by apply split_bytes_not_nil in E. }
      intros [= <- <-]. destruct (IH q qs eq_refl) as [Hq Hr].
      split; [set_solver|]. destruct qs; [congruence|].
      destruct Hr as (r & -> & ?). by exists r.
Qed.

(** Three parts are three parts: [Split] of a text is exactly its parts. *)
Lemma split_bytes_three sep l a b c :
  split_bytes sep l = [a; b; c] <->
  l = a ++ sep :: (b ++ sep :: c) /\ (sep ∉ a) /\ (sep ∉ b) /\ (sep ∉ c).
Proof.
  split.
  - intros (Ha & r & -> & Hr)%split_bytes_cons_inv.
    apply split_bytes_cons_inv in Hr as (Hb & r' & -> & Hr).
    by apply split_bytes_cons_inv in Hr as [Hc ->].
  - intros (-> & Ha & Hb & Hc). by rewrite !split_bytes_app, split_bytes_nosep.
Qed.

Lemma bytes_to_string_inj l k : bytes_to_string l = bytes_to_string k -> l = k.
Proof. intros E. by rewrite <- (string_to_of_bytes l), E, string_to_of_bytes. Qed.

Lemma string_to_bytes_app s t : string_to_bytes (s +:+ t) = string_to_bytes s ++ string_to_bytes t.
Proof.
  unfold string_to_bytes, String.list_byte_of_string.
  change (s +:+ t) with (String.append s t). rewrite <- map_app.
  replace (String.list_ascii_of_string (String.append s t))
    with (String.list_ascii_of_string s ++ String.list_ascii_of_string t); [done|].
  induction s as [|x s IH]; [done|]. cbn. by rewrite IH.
Qed.

Lemma Split_three s sep a b c :
  Split s sep = [a; b; c] <->
  split_bytes sep (string_to_bytes s) = [string_to_bytes a; string_to_bytes b; string_to_bytes c].
Proof.
  unfold Split. split; intros E.
  - destruct (split_bytes sep (string_to_bytes s)) as [|x [|y [|z [|]]]]; try discriminate E.
    cbn in E. injection E as <- <- <-. by rewrite !string_to_of_bytes.
  - rewrite E. cbn. by rewrite !string_of_to_bytes.
Qed.

(** ** [base64.RawURLEncoding.Strict()] *)

Definition six_bits : list Z := map Z.of_nat (seq 0 64).

Lemma six_bits_forall (p : Z -> bool) z :
  forallb p six_bits = true -> 0 <= z < 64 -> p z = true.
Proof.
  rewrite forallb_forall. intros Hp Hz. apply Hp, in_map_iff.
  exists (Z.to_nat z). split; [lia|]. apply in_seq. lia.
Qed.

Definition digit_roundtrip (z : Z) : bool :=
  match b64_value (b64_digit z) with Some v => v =? z | None => false end.

Lemma b64_value_digit z : 0 <= z < 64 -> b64_value (b64_digit z) = Some z.
Proof.
  intros Hz. assert (E : digit_roundtrip z = true).
  { apply six_bits_forall; [by vm_compute|done]. }
  unfold digit_roundtrip in E. destruct b64_value; [|done]. bool_hyps. congruence.
Qed.

(** A base64 digit is neither a blank nor a separator of the token formats. *)
Definition b64_plain (b : byte) : bool := visible b && negb (bool_decide (b = x2e)).

Lemma b64_digit_plain z : 0 <= z < 64 -> b64_plain (b64_digit z) = true.
Proof. apply (six_bits_forall (fun z => b64_plain (b64_digit z))). by vm_compute. Qed.

(** The 6-bit groups of a byte string. *)
Fixpoint b64_groups (l : bytes) : list Z :=
  match l with
  | [] => []
  | [a] => let a := Z_of_byte a in [a / 4; a mod 4 * 16]
  | [a; b] =>
      let a := Z_of_byte a in let b := Z_of_byte b in
      [a / 4; a mod 4 * 16 + b / 16; b mod 16 * 4]
  | a :: b :: c :: l' =>
      let a := Z_of_byte a in let b := Z_of_byte b in let c := Z_of_byte c in
      a / 4 :: a mod 4 * 16 + b / 16 :: b mod 16 * 4 + c / 64 :: c mod 64 :: b64_groups l'
  end.

Lemma list_ind3 {A} (P : list A -> Prop) :
  P [] -> (forall a, P [a]) -> (forall a b, P [a; b]) ->
  (forall a b c l, P l -> P (a :: b :: c :: l)) -> forall l, P l.
Proof.
  intros H0 H1 H2 H3. fix IH 1. intros [|a [|b [|c l]]]; [done|auto..|].
  apply H3, IH.
Qed.

Lemma list_ind4 {A} (P : list A -> Prop) :
  P [] -> (forall a, P [a]) -> (forall a b, P [a; b]) -> (forall a b c, P [a; b; c]) ->
  (forall a b c d l, P l -> P (a :: b :: c :: d :: l)) -> forall l, P l.
Proof.
  intros H0 H1 H2 H3 H4. fix IH 1. intros [|a [|b [|c [|d l]]]]; [done|auto..|].
  apply H4, IH.
Qed.

Lemma b64_encode_groups l : b64_encode_bytes l = map b64_digit (b64_groups l).
Proof. induction l as [| | |a b c l IH] using list_ind3; cbn; by rewrite ?IH. Qed.

(** Linear arithmetic with division and remainder by constants. *)
Ltac div_lia := Z.to_euclidean_division_equations; lia.

Ltac byte_ranges :=
  repeat match goal with
  | b : byte |- _ =>
      lazymatch goal with
      | _ : 0 <= Z_of_byte b < 256 |- _ => fail
      | _ => pose proof (Z_of_byte_range b)
      end
  end.

Lemma b64_groups_range l : Forall (fun z => 0 <= z < 64) (b64_groups l).
Proof.
  induction l as [|a|a b|a b c l IH] using list_ind3; cbn [b64_groups]; byte_ranges;
    repeat apply Forall_cons_2; try apply Forall_nil_2; try assumption; div_lia.
Qed.

Lemma byte_of_Z_unique z b : z = Z_of_byte b -> byte_of_Z z = b.
Proof. intros ->. apply byte_of_Z_of_byte. Qed.

Lemma b64_decode_groups l : b64_decode_digits (b64_groups l) = Some l.
Proof.
  induction l as [|a|a b|a b c l IH] using list_ind3; cbn [b64_groups b64_decode_digits];
    [done|byte_ranges..].
  - replace (Z_of_byte a mod 4 * 16 mod 16) with 0 by div_lia. cbn [Z.eqb].
    repeat f_equal; apply byte_of_Z_unique; div_lia.
  - replace (Z_of_byte b mod 16 * 4 mod 4) with 0 by div_lia. cbn [Z.eqb].
    repeat f_equal; apply byte_of_Z_unique; div_lia.
  - rewrite IH. cbn. repeat f_equal; apply byte_of_Z_unique; div_lia.
Qed.

(** Every digit group that decodes is the group of what it decodes to: strict
    decoding is canonical. *)
Lemma b64_groups_decode ds l :
  Forall (fun z => 0 <= z < 64) ds -> b64_decode_digits ds = Some l -> b64_groups l = ds.
Proof.
  revert l. induction ds as [|p|p q|p q r|p q r s ds IH] using list_ind4; intros l Hr E;
    cbn in E; rewrite ?Forall_cons in Hr; destruct_and?; simplify_eq; [done|..].
  - destruct (_ =? _) eqn:Hm in E; [|done]. simplify_eq. bool_hyps. cbn.
    rewrite !Z_of_byte_of_Z. repeat f_equal; div_lia.
  - destruct (_ =? _) eqn:Hm in E; [|done]. simplify_eq. bool_hyps. cbn.
    rewrite !Z_of_byte_of_Z. repeat f_equal; div_lia.
  - destruct (b64_decode_digits ds) as [rest|] eqn:Ed; [|done]. cbn in E. simplify_eq.
    cbn [b64_groups]. rewrite (IH rest), !Z_of_byte_of_Z by done. repeat f_equal; div_lia.
Qed.

Lemma b64_plain_inv b :
  b64_plain b = true -> visible b = true /\ b <> x2e /\ b64_skipped b = false.
Proof.
  unfold b64_plain. intros Hb. bool_hyps. split; [done|split; [done|]].
  unfold b64_skipped, visible in *. bool_hyps.
  rewrite !bool_decide_eq_false_2; [done|intros ->; by cbn in *..].
Qed.

Lemma b64_encode_plain l : forallb b64_plain (b64_encode_bytes l) = true.
Proof.
  rewrite b64_encode_groups. apply forallb_forall. intros b (z & <- & Hz)%in_map_iff.
  apply b64_digit_plain. pose proof (b64_groups_range l) as Hr.
  rewrite Forall_forall in Hr. by apply Hr, list_elem_of_In.
Qed.

Lemma filter_all {A} (f : A -> bool) l : forallb f l = true -> List.filter f l = l.
Proof.
  induction l as [|x l IH]; [done|]. cbn. intros [-> ?]%andb_true_iff. by rewrite IH.
Qed.

Lemma b64_decode_encode l : b64_DecodeString (b64_EncodeToString l) = Some l.
Proof.
  unfold b64_DecodeString, b64_EncodeToString. rewrite string_to_of_bytes, filter_all.
  - rewrite b64_encode_groups.
    assert (E : mapM b64_value (map b64_digit (b64_groups l)) = Some (b64_groups l)).
    { pose proof (b64_groups_range l) as Hr. induction Hr as [|z ds Hz _ IH]; [done|].
      cbn. by rewrite b64_value_digit, IH. }
    rewrite E. apply b64_decode_groups.
  - apply forallb_forall. intros b Hb. pose proof (b64_encode_plain l) as Hp.
    rewrite forallb_forall in Hp. apply Hp, b64_plain_inv in Hb as (_ & _ & ->). done.
Qed.

Lemma b64_EncodeToString_inj l k : b64_EncodeToString l = b64_EncodeToString k -> l = k.
Proof.
  intros E. pose proof (b64_decode_encode l) as Hl. rewrite E, b64_decode_encode in Hl.
  by simplify_eq.
Qed.

Lemma b64_groups_length l : len l <= len (b64_groups l) <= 2 * len l.
Proof.
  unfold len. induction l as [| | |a b c l IH] using list_ind3; cbn -[Z.mul]; lia.
Qed.

Lemma b64_EncodeToString_length l : len l <= slen (b64_EncodeToString l).
Proof.
  unfold b64_EncodeToString. rewrite slen_of_bytes, b64_encode_groups.
  pose proof (b64_groups_length l). unfold len in *. rewrite length_map. lia.
Qed.

#[export] Hint Rewrite b64_decode_encode : kube.

(** ** UTF-8: [utf8.ValidString] *)

Definition continuation (b : byte) : bool := byte_in x80 xbf b.

Fixpoint utf8_valid_bytes (l : bytes) : bool :=
  match l with
  | [] => true
  | a :: l1 =>
      if byte_in x00 x7f a then utf8_valid_bytes l1
      else match l1 with
      | [] => false
      | b :: l2 =>
          if byte_in xc2 xdf a then continuation b && utf8_valid_bytes l2
          else match l2 with
          | [] => false
          | c :: l3 =>
              let second :=
                if decide (a = xe0) then byte_in xa0 xbf b
                else if decide (a = xed) then byte_in x80 x9f b
                else continuation b in
              if byte_in xe0 xef a then second && continuation c && utf8_valid_bytes l3
              else match l3 with
              | [] => false
              | d :: l4 =>
                  let second :=
                    if decide (a = xf0) then byte_in x90 xbf b
                    else if decide (a = xf4) then byte_in x80 x8f b
                    else continuation b in
                  byte_in xf0 xf4 a && second && continuation c && continuation d
                    && utf8_valid_bytes l4
              end
          end
      end
  end.

Definition utf8_ValidString (s : string) : bool := utf8_valid_bytes (string_to_bytes s).

Definition is_ascii (b : byte) : bool := byte_in x00 x7f b.

Lemma utf8_valid_ascii s : all_bytes is_ascii s = true -> utf8_ValidString s = true.
Proof.
  unfold all_bytes, utf8_ValidString. induction (string_to_bytes s) as [|b l IH]; [done|].
  cbn [forallb utf8_valid_bytes]. unfold is_ascii at 1. by intros [-> ?]%andb_true_iff; auto.
Qed.

(** A predicate on bytes that implies another, checked on all 256 of them. *)
Definition all_256 : list byte := map (fun n => byte_of_Z (Z.of_nat n)) (seq 0 256).

Lemma all_256_complete b : In b all_256.
Proof.
  apply in_map_iff. exists (Z.to_nat (Z_of_byte b)). pose proof (Z_of_byte_range b).
  rewrite Z2Nat.id by lia. rewrite byte_of_Z_of_byte. split; [done|]. apply in_seq. lia.
Qed.

Lemma byte_impl (p q : byte -> bool) :
  forallb (fun b => implb (p b) (q b)) all_256 = true -> forall b, p b = true -> q b = true.
Proof.
  rewrite forallb_forall. intros Hall b Hp. specialize (Hall b (all_256_complete b)).
  by rewrite Hp in Hall.
Qed.

(** ** [encoding/hex] *)

Definition hex_nibble_ok (z : Z) : bool :=
  match hex_value (hex_digit z) with Some v => v =? z | None => false end
  && is_ascii (hex_digit z).

Lemma hex_nibble z :
  0 <= z < 16 -> hex_value (hex_digit z) = Some z /\ is_ascii (hex_digit z) = true.
Proof.
  intros Hz. assert (E : implb (z <? 16) (hex_nibble_ok z) = true).
  { apply (six_bits_forall (fun z => implb (z <? 16) (hex_nibble_ok z))); [by vm_compute|lia]. }
  rewrite (proj2 (Z.ltb_lt z 16)) in E by lia. cbn in E. unfold hex_nibble_ok in E.
  destruct (hex_value _); bool_hyps; [|done]. by subst.
Qed.

Lemma byte_nibbles b :
  0 <= Z.shiftr (Z_of_byte b) 4 < 16 /\ 0 <= Z.land (Z_of_byte b) 15 < 16 /\
  Z.lor (Z.shiftl (Z.shiftr (Z_of_byte b) 4) 4) (Z.land (Z_of_byte b) 15) = Z_of_byte b.
Proof.
  pose proof (Z_of_byte_range b). change 15 with (Z.ones 4).
  rewrite Z.land_ones, lor_shiftl_add, Z.shiftr_div_pow2 by (try apply Z.mod_pos_bound; lia).
  change (2 ^ 4) with 16. split; [|split]; div_lia.
Qed.

Lemma hex_decode_encode l : hex_decode_bytes (hex_encode_bytes l) = Some l.
Proof.
  induction l as [|b l IH]; [done|]. destruct (byte_nibbles b) as (Hh & Hl & E).
  cbn [hex_encode_bytes hex_decode_bytes].
  destruct (hex_nibble _ Hh) as [-> _], (hex_nibble _ Hl) as [-> _].
  rewrite IH. unfold mbind, option_bind. by rewrite E, byte_of_Z_of_byte.
Qed.

Lemma hex_encode_ascii l : forallb is_ascii (hex_encode_bytes l) = true.
Proof.
  induction l as [|b l IH]; [done|]. destruct (byte_nibbles b) as (Hh & Hl & _).
  cbn [hex_encode_bytes forallb].
  destruct (hex_nibble _ Hh) as [_ ->], (hex_nibble _ Hl) as [_ ->]. done.
Qed.

(** ** Characters of UTF-8 *)

(** One character. *)
Definition utf8_rune (r : bytes) : bool :=
  match r with
  | [a] => byte_in x00 x7f a
  | [a; b] => byte_in xc2 xdf a && continuation b
  | [a; b; c] =>
      byte_in xe0 xef a && (if decide (a = xe0) then byte_in xa0 xbf b else if decide (a = xed) then byte_in x80 x9f b else continuation b)
      && continuation c
  | [a; b; c; d] =>
      byte_in xf0 xf4 a && (if decide (a = xf0) then byte_in x90 xbf b else if decide (a = xf4) then byte_in x80 x8f b else continuation b)
      && continuation c && continuation d
  | _ => false
  end.

Lemma utf8_uncons a l : utf8_valid_bytes (a :: l) = true ->
  exists r rest, a :: l = r ++ rest /\ utf8_rune r = true /\ utf8_valid_bytes rest = true.
Proof.
  cbn [utf8_valid_bytes]. destruct (byte_in x00 x7f a) eqn:E1; [intros Hl; by exists [a], l|].
  destruct l as [|b l2]; [done|]. destruct (byte_in xc2 xdf a) eqn:E2.
  { intros [Hb Hl]%andb_true_iff. exists [a; b], l2. split; [done|]. cbn. by rewrite E2, Hb. }
  destruct l2 as [|c l3]; [done|]. destruct (byte_in xe0 xef a) eqn:E3.
  { intros [[Hb Hc]%andb_true_iff Hl]%andb_true_iff. exists [a; b; c], l3. split; [done|]. cbn. by rewrite E3, Hb, Hc. }
  destruct l3 as [|d l4]; [done|]. intros [Hr Hl]%andb_true_iff. by exists [a; b; c; d], l4.
Qed.

Lemma utf8_rune_app r l : utf8_rune r = true -> utf8_valid_bytes (r ++ l) = utf8_valid_bytes l.
Proof.
  assert (forall p q, forallb (fun b => implb (p b) (negb (q b))) all_256 = true -> forall b, p b = true -> q b = false) as Hdisjoint.
  { intros p q Hall b Hp. apply negb_true_iff. by apply (byte_impl p (fun b => negb (q b))). }
  assert (forall a, byte_in xc2 xdf a = true -> byte_in x00 x7f a = false) as H12 by (by apply Hdisjoint; vm_compute).
  assert (forall a, byte_in xe0 xef a = true -> byte_in x00 x7f a = false) as H13 by (by apply Hdisjoint; vm_compute).
  assert (forall a, byte_in xe0 xef a = true -> byte_in xc2 xdf a = false) as H23 by (by apply Hdisjoint; vm_compute).
  assert (forall a, byte_in xf0 xf4 a = true -> byte_in x00 x7f a = false) as H14 by (by apply Hdisjoint; vm_compute).
  assert (forall a, byte_in xf0 xf4 a = true -> byte_in xc2 xdf a = false) as H24 by (by apply Hdisjoint; vm_compute).
  assert (forall a, byte_in xf0 xf4 a = true -> byte_in xe0 xef a = false) as H34 by (by apply Hdisjoint; vm_compute).
  destruct r as [|a [|b [|c [|d [|]]]]]; cbn [utf8_rune app]; try done; cbn [utf8_valid_bytes].
  - by intros ->.
  - intros [Ha Hb]%andb_true_iff. by rewrite (H12 a Ha), Ha, Hb.
  - intros [[Ha Hb]%andb_true_iff Hc]%andb_true_iff. by rewrite (H13 a Ha), (H23 a Ha), Ha, Hb, Hc.
  - intros [[[Ha Hb]%andb_true_iff Hc]%andb_true_iff Hd]%andb_true_iff. by rewrite (H14 a Ha), (H24 a Ha), (H34 a Ha), Ha, Hb, Hc, Hd.
Qed.

Lemma utf8_rune_cons r : utf8_rune r = true -> exists a l, r = a :: l.
Proof. destruct r as [|a l]; [done|]. by exists a, l. Qed.

(** Induction on the characters. *)
Lemma utf8_ind (P : bytes -> Prop) :
  P [] -> (forall r l, utf8_rune r = true -> utf8_valid_bytes l = true -> P l -> P (r ++ l)) -> forall l, utf8_valid_bytes l = true -> P l.
Proof.
  intros H0 Hs l. induction l as [l IH] using (induction_ltof1 _ (@List.length byte)); unfold ltof in IH. destruct l as [|a l]; [done|].
  intros (r & rest & E & Hr & Hrest)%utf8_uncons. rewrite E. apply Hs; [done|done|]. apply IH; [|done]. rewrite E, length_app.
  destruct (utf8_rune_cons r Hr) as (? & ? & ->). cbn. lia.
Qed.

Lemma utf8_valid_app k l : utf8_valid_bytes k = true -> utf8_valid_bytes (k ++ l) = utf8_valid_bytes l.
Proof. revert k. apply utf8_ind; [done|]. intros r k Hr _ IH. by rewrite <- app_assoc, utf8_rune_app. Qed.

(** The bytes of a character of several bytes are not ASCII. *)
Lemma utf8_rune_sep r b : utf8_rune r = true -> is_ascii b = true -> b ∈ r -> r = [b].
Proof.
  assert (forall p, forallb (fun b => implb (p b) (negb (is_ascii b))) all_256 = true -> forall x, p x = true -> is_ascii x = true -> False) as Hnot.
  { intros p Hall x Hp Hx. pose proof (byte_impl p (fun b => negb (is_ascii b)) Hall x Hp) as Hn. cbn in Hn. by rewrite Hx in Hn. }
  assert (forall x, continuation x = true -> is_ascii x = true -> False) as Hc by (apply (Hnot continuation); by vm_compute).
  assert (forall a x, (if decide (a = xe0) then byte_in xa0 xbf x else if decide (a = xed) then byte_in x80 x9f x else continuation x) = true -> is_ascii x = true -> False) as H3.
  { intros a x. destruct (decide _); [|destruct (decide _)]; [apply (Hnot (byte_in xa0 xbf))|apply (Hnot (byte_in x80 x9f))|apply Hc]; by vm_compute. }
  assert (forall a x, (if decide (a = xf0) then byte_in x90 xbf x else if decide (a = xf4) then byte_in x80 x8f x else continuation x) = true -> is_ascii x = true -> False) as H4.
  { intros a x. destruct (decide _); [|destruct (decide _)]; [apply (Hnot (byte_in x90 xbf))|apply (Hnot (byte_in x80 x8f))|apply Hc]; by vm_compute. }
  assert (forall x, byte_in xc2 xdf x = true -> is_ascii x = true -> False) as L2 by (apply (Hnot (byte_in xc2 xdf)); by vm_compute).
  assert (forall x, byte_in xe0 xef x = true -> is_ascii x = true -> False) as L3 by (apply (Hnot (byte_in xe0 xef)); by vm_compute).
  assert (forall x, byte_in xf0 xf4 x = true -> is_ascii x = true -> False) as L4 by (apply (Hnot (byte_in xf0 xf4)); by vm_compute).
  intros Hr Hb Hin. destruct r as [|a [|x [|c [|d [|]]]]]; cbn [utf8_rune] in Hr; try done; rewrite ?andb_true_iff in Hr.
  - by apply list_elem_of_singleton in Hin as ->.
  - destruct Hr as [Ha Hx]. rewrite !elem_of_cons in Hin. destruct Hin as [->|[->|Hin%elem_of_nil]]; [by destruct (L2 a)|by destruct (Hc x)|done].
  - destruct Hr as [[Ha Hx] Hy]. rewrite !elem_of_cons in Hin. destruct Hin as [->|[->|[->|Hin%elem_of_nil]]]; [by destruct (L3 a)|by destruct (H3 a x)|by destruct (Hc c)|done].
  - destruct Hr as [[[Ha Hx] Hy] Hz]. rewrite !elem_of_cons in Hin.
    destruct Hin as [->|[->|[->|[->|Hin%elem_of_nil]]]]; [by destruct (L4 a)|by destruct (H4 a x)|by destruct (Hc c)|by destruct (Hc d)|done].
Qed.

(** Text on both sides of an ASCII byte. *)
Lemma utf8_valid_sep b r : is_ascii b = true -> forall p, utf8_valid_bytes (p ++ b :: r) = true -> utf8_valid_bytes p = true /\ utf8_valid_bytes r = true.
Proof.
  intros Hb p Hv. remember (p ++ b :: r) as l eqn:El. revert p El. revert l Hv. apply (utf8_ind (fun l => forall p, l = p ++ b :: r -> _)).
  - by intros [].
  - intros x l Hx Hl IH p E. apply app_eq_inv in E as [(k & Hp & Hk)|(k & Hp & Hk)].
    + destruct k as [|y k]; cbn in Hk.
      * subst l. cbn in Hl |- *. rewrite app_nil_r in Hp. subst p. cbn [utf8_valid_bytes] in Hl. unfold is_ascii in Hb. rewrite Hb in Hl. split; [|done].
        rewrite <- (app_nil_r x). by rewrite utf8_rune_app.
      * injection Hk as <- ->. assert (b ∈ x) as Hin by (rewrite Hp; apply elem_of_app; right; left). pose proof (utf8_rune_sep x b Hx Hb Hin) as ->.
        destruct p as [|? [|]]; cbn in Hp; try done. injection Hp as <-. done.
    + subst p. destruct (IH k Hk) as [H1 H2]. split; [|done]. by rewrite utf8_rune_app.
Qed.

Lemma utf8_split sep l : is_ascii sep = true -> utf8_valid_bytes l = true -> Forall (fun p => utf8_valid_bytes p = true) (split_bytes sep l).
Proof.
  intros Hsep. induction l as [l IH] using (induction_ltof1 _ (@List.length byte)); unfold ltof in IH. intros Hl.
  destruct (split_bytes sep l) as [|p ps] eqn:E; [by constructor|]. apply split_bytes_cons_inv in E as [_ E]. destruct ps as [|q ps].
  - subst l. by constructor.
  - destruct E as (r & -> & E). apply utf8_valid_sep in Hl as [Hp Hr]; [|done]. constructor; [done|]. rewrite <- E. apply IH; [|done].
    rewrite length_app. cbn. lia.
Qed.

(** ** The strings of [encoding/json]

    A byte that starts no character becomes U+FFFD, when a string is written and
    when it is read. *)

Definition first_rune (l : bytes) : option nat := List.find (fun n => utf8_rune (take n l)) [1; 2; 3; 4]%nat.

Fixpoint json_utf8_bytes (fuel : nat) (l : bytes) : bytes :=
  match fuel, l with
  | S fuel, b :: rest =>
      match first_rune l with
      | Some n => take n l ++ json_utf8_bytes fuel (drop n l)
      | None => [xef; xbf; xbd]%byte ++ json_utf8_bytes fuel rest
      end
  | _, _ => []
  end.

(** Every step takes a byte off. *)
Definition json_utf8 (s : string) : string := let l := string_to_bytes s in bytes_to_string (json_utf8_bytes (List.length l) l).

#[global] Arguments json_utf8 : simpl never.

Lemma first_rune_Some l n : first_rune l = Some n -> utf8_rune (take n l) = true /\ (0 < n)%nat.
Proof. unfold first_rune. intros [Hin Hr]%find_some. split; [done|]. destruct Hin as [<-|[<-|[<-|[<-|[]]]]]; lia. Qed.

Lemma json_utf8_bytes_valid fuel : forall l, utf8_valid_bytes (json_utf8_bytes fuel l) = true.
Proof.
  induction fuel as [|fuel IH]; intros [|b l]; [done..|]. cbn [json_utf8_bytes]. destruct (first_rune (b :: l)) as [n|] eqn:E.
  - apply first_rune_Some in E as [Hr _]. rewrite utf8_rune_app by done. apply IH.
  - rewrite utf8_rune_app by done. apply IH.
Qed.

Lemma json_utf8_bytes_text fuel : forall l, utf8_valid_bytes l = true -> (List.length l <= fuel)%nat -> json_utf8_bytes fuel l = l.
Proof.
  induction fuel as [|fuel IH]; intros [|b l] Hl Hf; cbn [List.length] in Hf; [done|lia|done|]. cbn [json_utf8_bytes].
  destruct (first_rune (b :: l)) as [n|] eqn:E.
  - apply first_rune_Some in E as [Hr Hn]. rewrite IH; [apply take_drop| |].
    + rewrite <- (take_drop n (b :: l)), utf8_rune_app in Hl by done. done.
    + rewrite length_drop. cbn. lia.
  - apply utf8_uncons in Hl as (r & rest & Er & Hr & _). rewrite Er in E. assert (take (List.length r) (r ++ rest) = r) as Ht by (by rewrite take_app_length).
    assert (In (List.length r) [1; 2; 3; 4]%nat) as Hin by (destruct r as [|? [|? [|? [|? [|]]]]]; cbn in Hr |- *; done || tauto).
    pose proof (find_none _ _ E _ Hin) as Hnone. cbn beta in Hnone. by rewrite Ht, Hr in Hnone.
Qed.

Lemma json_utf8_valid s : utf8_ValidString (json_utf8 s) = true.
Proof. unfold utf8_ValidString, json_utf8. rewrite string_to_of_bytes. apply json_utf8_bytes_valid. Qed.

Lemma json_utf8_text s : utf8_ValidString s = true -> json_utf8 s = s.
Proof. intros Hs. unfold json_utf8. rewrite json_utf8_bytes_text by done. apply string_of_to_bytes. Qed.

Example json_utf8_replaces :
  json_utf8 (bytes_to_string [x2f; xff; xc3; xa9; xe2; x82]) = bytes_to_string [x2f; xef; xbf; xbd; xc3; xa9; xef; xbf; xbd; xef; xbf; xbd].
Proof. by vm_compute. Qed.
