(* ===== verification/GoSort.v ===== *)
(** * [slices.SortFunc] and comparison functions

    Sorting with a callback, the laws the callback must obey, and the ways the
    program builds callbacks: comparing strings, keys of elements, one key and
    then another. *)

From S2P Require Import Prelude GoLib.
From Stdlib Require Import Sorting.Sorted.

(** [slices.SortFunc], as insertion of each element before the first element it
    compares less than. *)
Fixpoint insert_sorted {A} (cmp : A -> A -> Z) (x : A) (l : list A) : list A :=
  match l with
  | [] => [x]
  | y :: l' => if cmp x y <? 0 then x :: l else y :: insert_sorted cmp x l'
  end.

Definition SortFunc {A} (cmp : A -> A -> Z) (l : list A) : list A :=
  foldr (insert_sorted cmp) [] l.

(** The comparison of two strings a [SortFunc] callback writes with [<]. *)
Definition compareString (left right : string) : Z :=
  if String.ltb left right then -1 else if String.ltb right left then 1 else 0.

(** What [slices.SortFunc] asks of its callback, on the elements that satisfy
    [P]: it is a total preorder given by its sign. *)
Record cmp_laws {A} (P : A -> Prop) (cmp : A -> A -> Z) : Prop := {
  cmp_anti : forall x y, P x -> P y -> cmp x y < 0 <-> 0 < cmp y x;
  cmp_trans : forall x y z, P x -> P y -> P z -> cmp x y <= 0 -> cmp y z <= 0 -> cmp x z <= 0
}.
Arguments cmp_anti {A P cmp} _ {x y}.
Arguments cmp_trans {A P cmp} _ {x y z}.

(** Comparing by one key and then by another. *)
Definition lex_cmp {A} (c1 c2 : A -> A -> Z) (x y : A) : Z :=
  if negb (c1 x y =? 0) then c1 x y else c2 x y.

(** ** Comparison functions *)

Section cmp.
Context {A : Type} {P : A -> Prop}.
Implicit Types (x y z : A) (cmp : A -> A -> Z).

Lemma cmp_lt_le cmp x y z :
  cmp_laws P cmp -> P x -> P y -> P z -> cmp x y < 0 -> cmp y z <= 0 -> cmp x z < 0.
Proof.
  intros L Px Py Pz Hxy Hyz. destruct (Z.lt_ge_cases (cmp x z) 0) as [|Hge]; [done|].
  exfalso. assert (cmp z x <= 0) as Hzx.
  { destruct (Z.lt_ge_cases 0 (cmp z x)) as [H0|]; [|lia].
    apply (cmp_anti L Px Pz) in H0. lia. }
  pose proof (cmp_trans L Py Pz Px Hyz Hzx) as Hyx.
  apply (cmp_anti L Px Py) in Hxy. lia.
Qed.

Lemma cmp_le_lt cmp x y z :
  cmp_laws P cmp -> P x -> P y -> P z -> cmp x y <= 0 -> cmp y z < 0 -> cmp x z < 0.
Proof.
  intros L Px Py Pz Hxy Hyz. destruct (Z.lt_ge_cases (cmp x z) 0) as [|Hge]; [done|].
  exfalso. assert (cmp z x <= 0) as Hzx.
  { destruct (Z.lt_ge_cases 0 (cmp z x)) as [H0|]; [|lia].
    apply (cmp_anti L Px Pz) in H0. lia. }
  pose proof (cmp_trans L Pz Px Py Hzx Hxy) as Hzy.
  apply (cmp_anti L Py Pz) in Hyz. lia.
Qed.

Lemma cmp_refl cmp x : cmp_laws P cmp -> P x -> cmp x x = 0.
Proof.
  intros L Px. pose proof (cmp_anti L Px Px) as [H1 H2].
  destruct (Z.lt_trichotomy (cmp x x) 0) as [H|[H|H]]; [|done|]; lia.
Qed.

Lemma lex_cmp_laws c1 c2 : cmp_laws P c1 -> cmp_laws P c2 -> cmp_laws P (lex_cmp c1 c2).
Proof.
  intros L1 L2. split.
  - intros x y Px Py. unfold lex_cmp.
    pose proof (cmp_anti L1 Px Py). pose proof (cmp_anti L1 Py Px).
    pose proof (cmp_anti L2 Px Py).
    destruct (Z.eqb_spec (c1 x y) 0), (Z.eqb_spec (c1 y x) 0); cbn; lia.
  - intros x y z Px Py Pz. unfold lex_cmp.
    pose proof (@cmp_trans _ _ _ L1 x y z Px Py Pz) as T1.
    pose proof (@cmp_trans _ _ _ L2 x y z Px Py Pz) as T2.
    pose proof (cmp_lt_le c1 x y z L1 Px Py Pz) as S1.
    pose proof (cmp_le_lt c1 x y z L1 Px Py Pz) as S2.
    destruct (Z.eqb_spec (c1 x y) 0), (Z.eqb_spec (c1 y z) 0), (Z.eqb_spec (c1 x z) 0);
      cbn; intros; try lia.
Qed.

(** Comparing by the image under a function. *)
Lemma map_cmp_laws {B} (f : A -> B) (Q : B -> Prop) (cmp : B -> B -> Z) :
  (forall x, P x -> Q (f x)) -> cmp_laws Q cmp -> cmp_laws P (fun x y => cmp (f x) (f y)).
Proof.
  intros HPQ L. split.
  - intros x y Px Py. apply (cmp_anti L); auto.
  - intros x y z Px Py Pz. apply (cmp_trans L); auto.
Qed.
End cmp.

Lemma ascii_cmp_laws : cmp_laws (fun _ => True)
  (fun a b : Ascii.ascii => Z.of_N (Ascii.N_of_ascii a) - Z.of_N (Ascii.N_of_ascii b)).
Proof. split; intros; lia. Qed.

Lemma ascii_compare_spec (a b : Ascii.ascii) :
  CompareSpec (a = b) (Ascii.N_of_ascii a < Ascii.N_of_ascii b)%N
    (Ascii.N_of_ascii b < Ascii.N_of_ascii a)%N (Ascii.compare a b).
Proof.
  unfold Ascii.compare. destruct (N.compare_spec (Ascii.N_of_ascii a) (Ascii.N_of_ascii b)).
  - constructor. rewrite <- (Ascii.ascii_N_embedding a), <- (Ascii.ascii_N_embedding b).
    congruence.
  - by constructor.
  - by constructor.
Qed.

Lemma string_compare_trans c s t u :
  String.compare s t = c -> String.compare t u = c -> String.compare s u = c.
Proof.
  revert t u; induction s as [|a s IH]; intros t u; destruct t as [|b t], u as [|d u]; cbn;
    try congruence.
  destruct (ascii_compare_spec a b), (ascii_compare_spec b d), (ascii_compare_spec a d);
    subst; try congruence; try lia; eauto.
Qed.

Lemma string_compare_refl s : String.compare s s = Eq.
Proof. induction s as [|a s IH]; [done|]. cbn. destruct (ascii_compare_spec a a); [done|lia..]. Qed.

Lemma compareString_compare s t :
  compareString s t = match String.compare s t with Lt => -1 | Eq => 0 | Gt => 1 end.
Proof.
  unfold compareString, String.ltb. rewrite (String.compare_antisym t s).
  by destruct (String.compare s t).
Qed.

Lemma compareString_laws : cmp_laws (fun _ => True) compareString.
Proof.
  split.
  - intros s t _ _. rewrite !compareString_compare, (String.compare_antisym t s).
    destruct (String.compare s t); cbn; lia.
  - intros s t u _ _ _. rewrite !compareString_compare.
    destruct (String.compare s t) eqn:E1, (String.compare t u) eqn:E2; try lia; intros _ _.
    + apply String.compare_eq_iff in E1 as ->. rewrite E2. lia.
    + apply String.compare_eq_iff in E1 as ->. rewrite E2. lia.
    + apply String.compare_eq_iff in E2 as <-. rewrite E1. lia.
    + rewrite (string_compare_trans _ _ _ _ E1 E2). lia.
Qed.

Lemma compareString_eq s t : compareString s t = 0 -> s = t.
Proof.
  rewrite compareString_compare. intros H. apply String.compare_eq_iff.
  by destruct (String.compare s t).
Qed.

(** ** Sorting *)

Section sort.
Context {A : Type} (cmp : A -> A -> Z).

Lemma insert_sorted_perm x l : Permutation (insert_sorted cmp x l) (x :: l).
Proof.
  induction l as [|y l IH]; cbn; [done|].
  destruct (cmp x y <? 0); [done|]. rewrite IH. constructor.
Qed.

Lemma SortFunc_perm l : Permutation (SortFunc cmp l) l.
Proof.
  induction l as [|x l IH]; cbn; [done|]. by rewrite insert_sorted_perm, IH.
Qed.

Context (P : A -> Prop) (L : cmp_laws P cmp).

Lemma insert_sorted_sorted x l :
  P x -> Forall P l -> StronglySorted (fun a b => cmp a b <= 0) l ->
  StronglySorted (fun a b => cmp a b <= 0) (insert_sorted cmp x l).
Proof.
  intros Px Pl S. induction S as [|y l S IH Hy]; cbn.
  - repeat constructor.
  - apply Forall_cons in Pl as [Py Pl]. destruct (Z.ltb_spec (cmp x y) 0) as [Hlt|Hge].
    + constructor; [by constructor|]. constructor; [lia|].
      rewrite Forall_forall in *. intros z Hz.
      apply (cmp_trans L Px Py); [by apply Pl|lia|by apply Hy].
    + constructor; [by apply IH|]. rewrite (insert_sorted_perm x l).
      constructor; [|done].
      destruct (Z.lt_ge_cases 0 (cmp y x)) as [H0|]; [|lia].
      apply (cmp_anti L Px Py) in H0. lia.
Qed.

Lemma SortFunc_sorted l :
  Forall P l -> StronglySorted (fun a b => cmp a b <= 0) (SortFunc cmp l).
Proof.
  induction 1 as [|x l Px Pl IH]; [constructor|].
  change (SortFunc cmp (x :: l)) with (insert_sorted cmp x (SortFunc cmp l)).
  apply insert_sorted_sorted; [done| |done].
  by rewrite SortFunc_perm.
Qed.

Lemma SortFunc_head_min l x rest y :
  Forall P l -> SortFunc cmp l = x :: rest -> y ∈ l -> cmp x y <= 0.
Proof.
  intros Pl E Hy. pose proof (SortFunc_sorted l Pl) as S.
  pose proof (SortFunc_perm l) as Hp. rewrite E in S, Hp.
  rewrite <- Hp in Hy, Pl. apply Forall_cons in Pl as [Px _].
  apply elem_of_cons in Hy as [->|Hy]; [by rewrite (cmp_refl (P:=P))|].
  inversion S as [|? ? _ Hall]; subst. rewrite Forall_forall in Hall. by apply Hall.
Qed.

(** When only equal elements compare equal, the sorted list does not depend on
    the order of the input. *)
Lemma SortFunc_head_unique l l' :
  (forall x y, P x -> P y -> cmp x y = 0 -> x = y) ->
  Forall P l -> Permutation l l' -> head (SortFunc cmp l) = head (SortFunc cmp l').
Proof.
  intros Huniq Pl Hp. assert (Forall P l') as Pl' by (by rewrite <- Hp).
  destruct (SortFunc cmp l) as [|x r] eqn:E, (SortFunc cmp l') as [|x' r'] eqn:E'; cbn.
  - done.
  - pose proof (SortFunc_perm l) as H1. pose proof (SortFunc_perm l') as H2.
    rewrite E in H1. rewrite E' in H2. rewrite <- Hp, <- H1 in H2.
    by apply Permutation_sym, Permutation_nil_cons in H2.
  - pose proof (SortFunc_perm l) as H1. pose proof (SortFunc_perm l') as H2.
    rewrite E in H1. rewrite E' in H2. rewrite <- Hp, <- H1 in H2.
    by apply Permutation_nil_cons in H2.
  - f_equal. assert (x ∈ l) as Hx.
    { rewrite <- (SortFunc_perm l), E. left. }
    assert (x' ∈ l') as Hx'.
    { rewrite <- (SortFunc_perm l'), E'. left. }
    assert (P x) as Px by (by eapply Forall_forall in Pl).
    assert (P x') as Px' by (by eapply Forall_forall in Pl').
    assert (cmp x x' <= 0) by (eapply SortFunc_head_min; [exact Pl|exact E|by rewrite Hp]).
    assert (cmp x' x <= 0) by (eapply SortFunc_head_min; [exact Pl'|exact E'|by rewrite <- Hp]).
    apply Huniq; [done..|]. pose proof (cmp_anti L Px Px'). lia.
Qed.
End sort.

(** When only equal elements compare equal, a list without duplicates is sorted
    strictly, and sorting it again changes nothing. *)
Lemma SortFunc_strict {A} (cmp : A -> A -> Z) (L : cmp_laws (fun _ => True) cmp) l :
  (forall x y, cmp x y = 0 -> x = y) -> NoDup l ->
  StronglySorted (fun a b => cmp a b < 0) (SortFunc cmp l).
Proof.
  intros Huniq Hnd. assert (Hall : Forall (fun _ : A => True) l) by (by apply Forall_true).
  pose proof (SortFunc_sorted cmp _ L l Hall) as S.
  rewrite <- (SortFunc_perm cmp l) in Hnd. revert Hnd. induction S as [|x k S IH Hx]; [constructor|].
  intros [Hni Hnd]%NoDup_cons. constructor; [by apply IH|].
  rewrite Forall_forall in *. intros y Hy. specialize (Hx y Hy).
  destruct (Z.eq_dec (cmp x y) 0) as [E|]; [|lia]. by apply Huniq in E as ->.
Qed.

Lemma SortFunc_id {A} (cmp : A -> A -> Z) l :
  StronglySorted (fun a b => cmp a b < 0) l -> SortFunc cmp l = l.
Proof.
  induction 1 as [|x l S IH Hx]; [done|]. change (insert_sorted cmp x (SortFunc cmp l) = x :: l).
  rewrite IH. destruct l as [|y l]; [done|]. cbn [insert_sorted].
  apply Forall_cons in Hx as [Hxy _]. apply Z.ltb_lt in Hxy. by rewrite Hxy.
Qed.

(** A list selected from a strictly sorted one is strictly sorted. *)
Lemma StronglySorted_app {A} (R : A -> A -> Prop) l x :
  StronglySorted R l -> Forall (fun y => R y x) l -> StronglySorted R (l ++ [x]).
Proof.
  induction 1 as [|y l S IH Hy]; cbn; [repeat constructor|].
  intros [Hyx Hall]%Forall_cons. constructor; [by apply IH|]. apply Forall_app. split; [done|by repeat constructor].
Qed.

Lemma compareString_strict l :
  NoDup l -> StronglySorted (fun a b => compareString a b < 0) (SortFunc compareString l).
Proof. apply SortFunc_strict; [apply compareString_laws|apply compareString_eq]. Qed.
