(* ===== verification/External.v ===== *)
(** * Code outside the repository

    Packages the program calls and whose source is not part of it: URL and UUID
    parsing, cryptography, key encodings and JSON.  Each is a type class of
    operations the definitions take as a parameter; a theorem that relies on
    their documented behaviour names it as a hypothesis. *)

From S2P Require Import Prelude GoLib.

(** [net/url]: the fields of [url.URL] the program reads. *)
Record URL := mkURL {
  url_Scheme : string;
  url_HasUser : bool;      (* [User != nil] *)
  url_Host : string;
  url_Path : string;
  url_RawQuery : string;
  url_Fragment : string;
  url_Hostname : string    (* [Hostname()] *)
}.

(** [url.Parse] returns a nil [*URL] with its error. *)
Class UrlPackage := { url_Parse : string -> option URL }.

(** [github.com/google/uuid]: [uuid.Parse] followed by [String()]. *)
Class UuidPackage := { uuid_Parse : string -> option string }.

(** [strings.ToLower], which needs the case tables of Unicode. *)
Class UnicodePackage := { strings_ToLower : string -> string }.

(** [crypto/sha256]. *)
Class HashPackage := { sha256_Sum256 : bytes -> bytes }.

(** [crypto/ed25519]; keys and signatures are byte strings. *)
Class Ed25519Package := {
  ed25519_Sign : bytes -> bytes -> bytes;
  ed25519_Verify : bytes -> bytes -> bytes -> bool
}.

Definition ed25519_PublicKeySize : Z := 32.
Definition ed25519_PrivateKeySize : Z := 64.
Definition ed25519_SignatureSize : Z := 64.

(** [encoding/pem] and [crypto/x509]: [pem.Decode] returns the block, if any,
    and the rest of the input; [x509.ParsePKIXPublicKey] and
    [x509.ParsePKCS8PrivateKey] return a key of some algorithm. *)
Record PemBlock := mkPemBlock { pem_Type : string; pem_Bytes : bytes }.

Inductive AnyKey :=
| Ed25519Key (key : bytes)
| OtherKey.

Class KeyEncodingPackage := {
  pem_Decode : string -> option PemBlock * bytes;
  pem_EncodeToMemory : PemBlock -> bytes;
  x509_ParsePKIXPublicKey : bytes -> option AnyKey;
  x509_MarshalPKIXPublicKey : bytes -> option bytes;
  x509_ParsePKCS8PrivateKey : bytes -> option AnyKey
}.

(** [encoding/json] at one Go type: [json.Marshal], which cannot fail on the
    structs of strings, numbers, booleans and slices the program marshals, and
    [Decoder.Decode] with [DisallowUnknownFields], which returns the value and
    the bytes it has not read. *)
Class JsonCodec (A : Type) := {
  json_Marshal : A -> bytes;
  json_Decode : bytes -> option (A * bytes)
}.

(** [os.Open] and reading to the end. *)
Class FileSystem := { os_ReadFile : string -> option bytes }.
