(* ===== verification/Utils.v ===== *)
(** * Shared helpers of [internal/utils]

    Text checks, strict JSON documents, random tokens and complete writes. *)

From S2P Require Import Prelude GoLib External.

(** The control runes are single bytes, and no other rune contains one. *)
Definition ContainsControl (value : string) : bool :=
  negb (all_bytes (fun b => negb (is_control b)) value).

Definition ContainsParentPathComponent (value : string) : bool :=
  existsb (fun component => bool_decide (component = "..")) (Split value x2f).

(** [rand] is the 32 bytes [crypto/rand] returned, [None] when it failed. *)
Definition randomHexBytes : Z := 32.
Definition RandomHexToken (rand : option bytes) : option string :=
  value ← rand; Some (hex_EncodeToString value).

(** The whitespace between JSON values. *)
Definition json_space (b : byte) : bool :=
  bool_decide (b = x20) || bool_decide (b = x09) || bool_decide (b = x0a) || bool_decide (b = x0d).

(** The second [Decode] returns [io.EOF] when only whitespace is left. *)
Definition DecodeStrictJSON `{JsonCodec A} (raw : bytes) : option A :=
  '(destination, rest) ← json_Decode raw;
  if forallb json_space rest then Some destination else None.

Lemma DecodeStrictJSON_whole `{JsonCodec A} raw (a : A) :
  json_Decode raw = Some (a, []) -> DecodeStrictJSON raw = Some a.
Proof. unfold DecodeStrictJSON. by intros ->. Qed.

(** ** [WriteAll]

    An [io.Writer] is a state and a [Write] that returns the new state, the
    number of bytes written and an error. *)

Definition ErrShortWrite : error := VarError "io.ErrShortWrite".

Section write_all.
Context {W : Type} (write : W -> bytes -> W * Z * option error).

(** Every iteration that goes on has written at least one byte, so
    [List.length payload] iterations are enough. *)
Fixpoint WriteAll_loop (fuel : nat) (w : W) (payload : bytes) : option (W * option error) :=
  match payload with
  | [] => Some (w, None)
  | _ =>
      match fuel with
      | O => None
      | S fuel' =>
          let '(w', written, err) := write w payload in
          match err with
          | Some e => Some (w', Some e)
          | None =>
              if written =? 0 then Some (w', Some ErrShortWrite)
              else WriteAll_loop fuel' w' (drop (Z.to_nat written) payload)
          end
      end
  end.

Definition WriteAll (w : W) (payload : bytes) : option (W * option error) :=
  WriteAll_loop (List.length payload) w payload.

(** What [io.Writer] asks of [Write]: it reports at most the length of its
    argument, and an error when it reports less than that. [sent] is what the
    writer has accepted so far; a short count without an error is allowed here,
    which is what [WriteAll] is for. *)
Definition writer_ok (sent : W -> bytes) : Prop :=
  forall w p w' n err, write w p = (w', n, err) ->
    0 <= n <= len p /\ sent w' = sent w ++ take (Z.to_nat n) p.

(** The loop ends, and when it reports no error the whole payload was sent. *)
Lemma WriteAll_loop_spec sent fuel w payload :
  writer_ok sent -> (List.length payload <= fuel)%nat ->
  exists w' err, WriteAll_loop fuel w payload = Some (w', err) /\
    exists n, sent w' = sent w ++ take n payload /\ (err = None -> take n payload = payload).
Proof.
  intros Hw. revert w payload. induction fuel as [|fuel IH]; intros w payload Hf.
  - destruct payload; [|cbn in Hf; lia]. exists w, None. split; [done|].
    exists 0%nat. by rewrite app_nil_r.
  - destruct payload as [|b payload].
    { exists w, None. split; [done|]. exists 0%nat. by rewrite app_nil_r. }
    cbn [WriteAll_loop]. destruct (write w (b :: payload)) as [[w' n] err] eqn:E.
    destruct (Hw _ _ _ _ _ E) as [Hn Hs]. destruct err as [e|].
    { exists w', (Some e). split; [done|]. by exists (Z.to_nat n). }
    destruct (Z.eqb_spec n 0) as [->|Hn0].
    { exists w', (Some ErrShortWrite). split; [done|]. by exists 0%nat. }
    destruct (IH w' (drop (Z.to_nat n) (b :: payload))) as (w2 & err & E2 & k & Hk & Hall).
    { rewrite length_drop. unfold len in Hn. cbn [List.length] in *. lia. }
    exists w2, err. split; [done|]. exists (Z.to_nat n + k)%nat.
    rewrite Hk, Hs, <- app_assoc. rewrite take_take_drop in *.
    split; [done|]. intros He. rewrite <- take_take_drop. rewrite Hall by done. apply take_drop.
Qed.

(** [WriteAll] always ends; it leaves the writer with a prefix
    of the payload appended to what it had been sent, and with the whole payload
    when it reports no error. *)
Theorem write_all_complete sent w payload (Hwriter : writer_ok sent) :
  exists w' err, WriteAll w payload = Some (w', err) /\
    exists n, sent w' = sent w ++ take n payload /\ (err = None -> take n payload = payload).
Proof. by apply WriteAll_loop_spec. Qed.
End write_all.

(** A writer that accepts one byte at a time, until it holds three. *)
Definition narrow_write (w p : bytes) : bytes * Z * option error :=
  if 3 <=? len w then (w, 0, None)
  else match p with [] => (w, 0, None) | b :: _ => (w ++ [b], 1, None) end.

Lemma narrow_writer : writer_ok narrow_write id.
Proof.
  intros w p w' n err. unfold narrow_write.
  destruct (3 <=? len w); [intros [= <- <- <-]; rewrite app_nil_r; split; [|done]; split; auto with kube; lia|].
  destruct p as [|b p]; intros [= <- <- <-]; cbn.
  - by rewrite app_nil_r.
  - split; [|done]. unfold len. cbn. lia.
Qed.

Example write_all_short :
  WriteAll narrow_write [] [x01; x02; x03; x04] = Some ([x01; x02; x03], Some ErrShortWrite).
Proof. reflexivity. Qed.

Lemma write_all_complete_witness :
  writer_ok narrow_write id /\
  exists w' err, WriteAll narrow_write [] [x01; x02] = Some (w', err) /\
    exists n, w' = [] ++ take n [x01; x02] /\ (err = None -> take n [x01; x02] = [x01; x02]).
Proof. split; [exact narrow_writer|]. apply (write_all_complete narrow_write id). exact narrow_writer. Defined.
