(* ===== verification/ConcreteEnv.v ===== *)
(** * Concrete stand-ins for the external packages

    Small executable instances of the classes of [External].  They behave as
    documented on the inputs used here and let the properties be applied to
    concrete runs of the program. *)

From S2P Require Import Prelude GoLib External.

Fixpoint span_byte (stop : byte) (l : bytes) : bytes * bytes :=
  match l with
  | [] => ([], [])
  | b :: l' =>
      if decide (b = stop) then ([], l)
      else let '(p, r) := span_byte stop l' in (b :: p, r)
  end.

(** URLs of the form [scheme://host/path]. *)
Definition simple_url_Parse (s : string) : option URL :=
  let '(scheme, rest) := span_byte x3a (string_to_bytes s) in
  match rest with
  | _ :: x2f :: x2f :: rest' =>
      let '(host, path) := span_byte x2f rest' in
      Some (mkURL (bytes_to_string scheme) false (bytes_to_string host)
              (bytes_to_string path) "" "" (bytes_to_string host))
  | _ => None
  end.

#[export] Instance simple_url : UrlPackage := { url_Parse := simple_url_Parse }.

(** Identifiers of 36 characters. *)
#[export] Instance simple_uuid : UuidPackage :=
  { uuid_Parse := fun s => if slen s =? 36 then Some s else None }.

(** A 32-byte digest: the last 32 bytes, padded. *)
#[export] Instance simple_hash : HashPackage :=
  { sha256_Sum256 := fun l => take 32 (rev l ++ repeat x00 32) }.

(** A signature is the message's digest under the key's first byte. *)
Definition simple_sign (key message : bytes) : bytes :=
  take 64 (nth 0 key x00 :: rev message ++ repeat x00 64).

#[export] Instance simple_ed25519 : Ed25519Package :=
  { ed25519_Sign := simple_sign;
    ed25519_Verify := fun key message signature =>
                        bool_decide (signature = simple_sign key message) }.

(** Keys encoded as their bytes. *)
#[export] Instance simple_keys : KeyEncodingPackage :=
  { pem_Decode := fun s => (Some (mkPemBlock "PUBLIC KEY" (string_to_bytes s)), []);
    pem_EncodeToMemory := pem_Bytes;
    x509_ParsePKIXPublicKey := fun l => Some (Ed25519Key l);
    x509_MarshalPKIXPublicKey := Some;
    x509_ParsePKCS8PrivateKey := fun l => Some (Ed25519Key l) }.

Definition simple_id (c : string) : string := "00000000-0000-4000-8000-00000000000" +:+ c.
Definition simple_key : string := "0123456789abcdef0123456789abcdef".
Definition simple_digest : string :=
  "0123456789abcdef0123456789abcdef0123456789abcdef0123456789abcdef".

(** * Concrete encodings for the JSON parameters

    Self-delimiting encodings of texts, numbers, booleans, options, lists and
    products, each with its round trip.  They instantiate [JsonCodec] where a
    property is applied to a concrete run. *)


Record Ser (A : Type) := mkSer {
  put : A -> bytes;
  get : bytes -> option (A * bytes);
  get_put : forall a rest, get (put a ++ rest) = Some (a, rest);
  get_nil : get [] = None
}.
Arguments put {A} _ _.
Arguments get {A} _ _.
Arguments get_put {A} _ _ _.
Arguments get_nil {A} _.

(** Texts: each byte is announced by [x01]. *)
Fixpoint put_bytes (l : bytes) : bytes :=
  match l with [] => [x00] | b :: l' => x01 :: b :: put_bytes l' end.

Fixpoint get_bytes (l : bytes) : option (bytes * bytes) :=
  match l with
  | x00 :: r => Some ([], r)
  | x01 :: b :: r => '(s, r') ← get_bytes r; Some (b :: s, r')
  | _ => None
  end.

Lemma get_put_bytes l rest : get_bytes (put_bytes l ++ rest) = Some (l, rest).
Proof. induction l as [|b l IH]; [done|]. cbn. by rewrite IH. Qed.

Definition put_string (s : string) : bytes := put_bytes (string_to_bytes s).
Definition get_string (l : bytes) : option (string * bytes) :=
  '(s, r) ← get_bytes l; Some (bytes_to_string s, r).

Lemma get_put_string s rest : get_string (put_string s ++ rest) = Some (s, rest).
Proof. unfold get_string, put_string. rewrite get_put_bytes. cbn. by rewrite string_of_to_bytes. Qed.

Definition ser_string : Ser string := mkSer _ put_string get_string get_put_string eq_refl.

(** Numbers: the bits of a positive from the lowest. *)
Fixpoint put_pos (p : positive) : bytes :=
  match p with xH => [x00] | xO q => x01 :: put_pos q | xI q => x02 :: put_pos q end.

Fixpoint get_pos (l : bytes) : option (positive * bytes) :=
  match l with
  | x00 :: r => Some (xH, r)
  | x01 :: r => '(p, r') ← get_pos r; Some (xO p, r')
  | x02 :: r => '(p, r') ← get_pos r; Some (xI p, r')
  | _ => None
  end.

Lemma get_put_pos p rest : get_pos (put_pos p ++ rest) = Some (p, rest).
Proof. induction p as [p IH|p IH|]; cbn; [by rewrite IH..|done]. Qed.

Definition put_Z (z : Z) : bytes :=
  match z with Z0 => [x00] | Zpos p => x01 :: put_pos p | Zneg p => x02 :: put_pos p end.
Definition get_Z (l : bytes) : option (Z * bytes) :=
  match l with
  | x00 :: r => Some (Z0, r)
  | x01 :: r => '(p, r') ← get_pos r; Some (Zpos p, r')
  | x02 :: r => '(p, r') ← get_pos r; Some (Zneg p, r')
  | _ => None
  end.

Lemma get_put_Z z rest : get_Z (put_Z z ++ rest) = Some (z, rest).
Proof. destruct z; cbn; [done|by rewrite get_put_pos..]. Qed.

Definition ser_Z : Ser Z := mkSer _ put_Z get_Z get_put_Z eq_refl.

(** Products and images. *)
Section combinators.
Context {A B : Type} (sa : Ser A) (sb : Ser B).

Definition put_pair (ab : A * B) : bytes := put sa ab.1 ++ put sb ab.2.
Definition get_pair (l : bytes) : option ((A * B) * bytes) :=
  '(a, r) ← get sa l; '(b, r') ← get sb r; Some ((a, b), r').

Lemma get_put_pair ab rest : get_pair (put_pair ab ++ rest) = Some (ab, rest).
Proof.
  destruct ab as [a b]. unfold get_pair, put_pair. rewrite <- app_assoc, get_put. cbn.
  by rewrite get_put.
Qed.
Lemma get_pair_nil : get_pair [] = None.
Proof. unfold get_pair. by rewrite get_nil. Qed.
Definition ser_pair : Ser (A * B) := mkSer _ put_pair get_pair get_put_pair get_pair_nil.

Context (to : B -> A) (back : A -> B) (back_to : forall b, back (to b) = b).
Definition get_image (l : bytes) : option (B * bytes) := '(a, r) ← get sa l; Some (back a, r).
Lemma get_put_image b rest : get_image (put sa (to b) ++ rest) = Some (b, rest).
Proof using back_to. unfold get_image. rewrite get_put. cbn. by rewrite back_to. Qed.
Lemma get_image_nil : get_image [] = None.
Proof. unfold get_image. by rewrite get_nil. Qed.
Definition ser_image : Ser B := mkSer _ (fun b => put sa (to b)) get_image get_put_image get_image_nil.
End combinators.

(** Lists: every element is announced by [x01]. *)
Section lists.
Context {A : Type} (sa : Ser A).

Fixpoint put_list (l : list A) : bytes :=
  match l with [] => [x00] | a :: l' => x01 :: put sa a ++ put_list l' end.

Fixpoint get_list (fuel : nat) (l : bytes) : option (list A * bytes) :=
  match fuel with
  | O => None
  | S fuel' =>
      match l with
      | x00 :: r => Some ([], r)
      | x01 :: r => '(a, r') ← get sa r; '(s, r'') ← get_list fuel' r'; Some (a :: s, r'')
      | _ => None
      end
  end.

Lemma get_put_list l fuel rest :
  (List.length l < fuel)%nat -> get_list fuel (put_list l ++ rest) = Some (l, rest).
Proof.
  revert fuel. induction l as [|a l IH]; intros [|fuel] Hf; cbn in Hf; try lia; [done|].
  cbn. rewrite <- app_assoc, get_put. cbn. by rewrite IH by lia.
Qed.

Lemma put_list_length l rest : (List.length l < List.length (put_list l ++ rest))%nat.
Proof.
  induction l as [|a l IH]; cbn; [lia|]. rewrite length_app in *. rewrite length_app. lia.
Qed.

Definition get_list_all (l : bytes) : option (list A * bytes) := get_list (List.length l) l.

Lemma get_put_list_all l rest : get_list_all (put_list l ++ rest) = Some (l, rest).
Proof. apply get_put_list, put_list_length. Qed.

Definition ser_list : Ser (list A) := mkSer _ put_list get_list_all get_put_list_all eq_refl.
End lists.

Definition ser_bool : Ser bool.
Proof. refine (ser_image ser_Z Z.b2z (fun z => 0 <? z) _). by intros []. Defined.

Definition ser_option {A} (sa : Ser A) : Ser (option A).
Proof.
  refine (ser_image (ser_list sa) (fun o => match o with Some a => [a] | None => [] end) head _).
  by intros [].
Defined.

(** An encoding as a [JsonCodec]. *)
Definition ser_codec {A} (s : Ser A) : JsonCodec A :=
  {| json_Marshal := put s; json_Decode := get s |}.

Lemma ser_codec_roundtrip {A} (s : Ser A) a :
  json_Decode (JsonCodec := ser_codec s) (json_Marshal (JsonCodec := ser_codec s) a) = Some (a, []).
Proof. cbn. pose proof (get_put s a []) as E. by rewrite app_nil_r in E. Qed.
