(* ===== verification/WireReader.v ===== *)
(** * Reading from a connection

    An [io.Reader] delivers the bytes of a connection in pieces of any length
    and then fails.  [io.ReadFull] gathers the pieces, so that what the wire
    protocols read does not depend on how the bytes were cut ([takes]). *)

From S2P Require Import Prelude GoLib External Utils.

Definition EOF : error := VarError "io.EOF".
Definition ErrUnexpectedEOF : error := VarError "io.ErrUnexpectedEOF".

(** The pieces the next calls of [Read] find, an empty one where [Read] returns
    0 and no error, and the error of every call after the last. *)
Record Reader := mkReader { chunks : list bytes; failure : error }.

(** What the reader is going to deliver. *)
Definition contents (r : Reader) : bytes := List.concat (chunks r).

(** [Read] with a buffer of [n] bytes. *)
Definition Read (n : nat) (r : Reader) : bytes * option error * Reader :=
  match chunks r with
  | [] => ([], Some (failure r), r)
  | c :: rest =>
      if (List.length c <=? n)%nat then (c, None, mkReader rest (failure r))
      else (take n c, None, mkReader (drop n c :: rest) (failure r))
  end.

(** [for n < min && err == nil { nn, err = r.Read(buf[n:]); n += nn }] in
    [io.ReadAtLeast]; a call of [Read] takes a piece, so one iteration more than
    there are pieces is enough. *)
Fixpoint ReadAtLeast_loop (fuel n : nat) (r : Reader) : bytes * option error * Reader :=
  match n, fuel with
  | O, _ | _, O => ([], None, r)
  | _, S fuel' =>
      let '(b, err, r1) := Read n r in
      match err with
      | Some e => (b, Some e, r1)
      | None =>
          let '(b', err', r2) := ReadAtLeast_loop fuel' (n - List.length b) r1 in
          (b ++ b', err', r2)
      end
  end.

(** [io.ReadFull]: the error is dropped when the buffer is full, and the end of
    the connection is unexpected when part of it was filled. *)
Definition ReadFull (n : nat) (r : Reader) : result bytes * Reader :=
  let '(b, err, r') := ReadAtLeast_loop (S (List.length (chunks r))) n r in
  if (n <=? List.length b)%nat then (Ok b, r')
  else match err with
       | Some e => (Err (if (0 <? List.length b)%nat && bool_decide (e = EOF) then ErrUnexpectedEOF else e), r')
       | None => (Err ErrUnexpectedEOF, r')
       end.

(** Functions that read: the state is the reader, an error ends the function. *)
Definition Reads (A : Type) : Type := Reader -> result A * Reader.

#[export] Instance reads_ret : MRet Reads := fun A a r => (Ok a, r).
#[export] Instance reads_bind : MBind Reads :=
  fun A B f m r => match m r with
                   | (Ok a, r') => f a r'
                   | (Err e, r') => (Err e, r')
                   end.
Definition returned {A} (x : result A) : Reads A := fun r => (x, r).

(** [f] reads exactly [b] and then returns [x], however [b] and what follows it
    arrive. *)
Definition takes {A} (f : Reads A) (b : bytes) (x : result A) : Prop :=
  forall r tail, contents r = b ++ tail ->
    exists r', f r = (x, r') /\ contents r' = tail /\ failure r' = failure r.

(** ** [ReadFull] depends on the bytes only *)

Lemma Read_contents n r b err r' :
  Read n r = (b, err, r') ->
  contents r = b ++ contents r' /\ failure r' = failure r /\ (List.length b <= n)%nat /\
  match err with
  | Some e => b = [] /\ r' = r /\ e = failure r /\ chunks r = []
  | None => (List.length b = n \/ S (List.length (chunks r')) = List.length (chunks r)) 
  end.
Proof.
  unfold Read, contents. destruct (chunks r) as [|c rest] eqn:E.
  { intros [= <- <- <-]. cbn. rewrite E. split_and!; auto with lia. }
  destruct (Nat.leb_spec (List.length c) n) as [H|H]; intros [= <- <- <-]; cbn.
  - split_and!; [done..|]. by right.
  - rewrite app_assoc, take_drop. split_and!; [done..| |].
    + rewrite length_take. lia.
    + left. rewrite length_take. lia.
Qed.

Lemma ReadAtLeast_spec fuel : forall n r b err r',
  (List.length (chunks r) < fuel)%nat ->
  ReadAtLeast_loop fuel n r = (b, err, r') ->
  contents r = b ++ contents r' /\ failure r' = failure r /\ (List.length b <= n)%nat /\
  ((List.length b = n /\ err = None) \/ (contents r' = [] /\ err = Some (failure r) /\ (List.length b < n)%nat)).
Proof.
  induction fuel as [|fuel IH]; intros n r b err r' Hf E; [lia|].
  destruct n as [|n]; cbn [ReadAtLeast_loop] in E.
  { injection E as <- <- <-. split_and!; auto. }
  destruct (Read (S n) r) as [[b1 err1] r1] eqn:ER. apply Read_contents in ER as (Hc & Hfail & Hl & Hr).
  destruct err1 as [e|].
  { destruct Hr as (-> & -> & -> & Hn). injection E as <- <- <-. split_and!; [done|done|cbn; lia|].
    right. split_and!; [unfold contents; by rewrite Hn|done|cbn; lia]. }
  destruct (ReadAtLeast_loop fuel (S n - List.length b1) r1) as [[b2 err2] r2] eqn:E2. injection E as <- <- <-.
  destruct Hr as [Hr|Hr].
  - rewrite Hr, Nat.sub_diag in E2. assert (b2 = [] /\ err2 = None /\ r2 = r1) as (-> & -> & ->)
      by (destruct fuel; cbn in E2; split_and!; congruence).
    rewrite app_nil_r. split_and!; [done|done|lia|]. left. by split.
  - apply IH in E2 as (Hc2 & Hf2 & Hl2 & Hor); [|lia]. rewrite length_app.
    split_and!; [by rewrite Hc, Hc2, app_assoc|congruence|lia|].
    destruct Hor as [[Hn ->]|(H1 & -> & H3)]; [left; by split; [lia|]|right; split_and!; [done|congruence|lia]].
Qed.

(** [io.ReadFull] in terms of what the reader delivers. *)
Definition full_result (n : nat) (b : bytes) (fail : error) : result bytes :=
  if (n <=? List.length b)%nat then Ok (take n b)
  else Err (if (0 <? List.length b)%nat && bool_decide (fail = EOF) then ErrUnexpectedEOF else fail).

Lemma ReadFull_spec n r :
  exists r', ReadFull n r = (full_result n (contents r) (failure r), r') /\
    contents r' = drop n (contents r) /\ failure r' = failure r.
Proof.
  unfold ReadFull, full_result. destruct (ReadAtLeast_loop _ n r) as [[b err] r'] eqn:E.
  apply ReadAtLeast_spec in E as (Hc & Hf & Hl & Hor); [|lia]. exists r'. rewrite Hc, length_app.
  destruct Hor as [[Hn ->]|(He & -> & Hn)].
  - rewrite (proj2 (Nat.leb_le n _)), (proj2 (Nat.leb_le n (_ + _))) by lia. subst n.
    rewrite take_app_length, drop_app_length. done.
  - rewrite He, Nat.add_0_r, app_nil_r, (proj2 (Nat.leb_gt n _)) by lia.
    rewrite drop_ge by lia. done.
Qed.

Lemma ReadFull_takes n b : List.length b = n -> takes (ReadFull n) b (Ok b).
Proof.
  intros <- r tail Hc. destruct (ReadFull_spec (List.length b) r) as (r' & -> & Hc' & Hf). exists r'.
  unfold full_result. rewrite Hc, length_app, (proj2 (Nat.leb_le _ _)), take_app_length by lia.
  by rewrite Hc', Hc, drop_app_length.
Qed.

Lemma ReadFull_inv n r b r' :
  ReadFull n r = (Ok b, r') -> contents r = b ++ contents r' /\ List.length b = n.
Proof.
  destruct (ReadFull_spec n r) as (r1 & -> & Hc & Hf). unfold full_result.
  destruct (Nat.leb_spec n (List.length (contents r))); intros [= <- <-].
  by rewrite Hc, take_drop, length_take_le.
Qed.

(** ** Composition *)

Lemma takes_ret {A} (a : A) : takes (mret a) [] (Ok a).
Proof. intros r tail Hc. by exists r. Qed.

Lemma takes_returned {A} (x : result A) : takes (returned x) [] x.
Proof. intros r tail Hc. by exists r. Qed.

Lemma takes_bind {A B} (f : A -> Reads B) (m : Reads A) b1 b2 a x :
  takes m b1 (Ok a) -> takes (f a) b2 x -> takes (m ≫= f) (b1 ++ b2) x.
Proof.
  intros Hm Hf r tail Hc. rewrite <- app_assoc in Hc. destruct (Hm _ _ Hc) as (r1 & E1 & Hc1 & F1).
  destruct (Hf _ _ Hc1) as (r2 & E2 & Hc2 & F2). exists r2. unfold mbind, reads_bind. rewrite E1.
  split_and!; [done|done|congruence].
Qed.

Lemma takes_bind_nil {A B} (f : A -> Reads B) (m : Reads A) b a x :
  takes m b (Ok a) -> takes (f a) [] x -> takes (m ≫= f) b x.
Proof. intros H1 H2. rewrite <- (app_nil_r b). by eapply takes_bind. Qed.

Lemma takes_bind_returned {A B} (f : A -> Reads B) (v : result A) b a x :
  v = Ok a -> takes (f a) b x -> takes (returned v ≫= f) b x.
Proof. intros -> H. change b with ([] ++ b). eapply takes_bind; [apply takes_returned|done]. Qed.

Lemma takes_bind_error {A B} (f : A -> Reads B) (m : Reads A) b e :
  takes m b (Err e) -> takes (m ≫= f) b (Err e).
Proof.
  intros Hm r tail Hc. destruct (Hm _ _ Hc) as (r1 & E1 & Hr). exists r1. unfold mbind, reads_bind. by rewrite E1.
Qed.

Lemma reads_bind_ok {A B} (f : A -> Reads B) (m : Reads A) r b r' :
  (m ≫= f) r = (Ok b, r') -> exists a r1, m r = (Ok a, r1) /\ f a r1 = (Ok b, r').
Proof. unfold mbind, reads_bind. destruct (m r) as [[a|e] r1]; [eauto|discriminate]. Qed.

(** Inverts a read that succeeded into its parts. *)
Ltac inv_reads :=
  repeat match goal with
  | H : (mbind _ _) _ = (Ok _, _) |- _ => apply reads_bind_ok in H as (? & ? & ? & H)
  | H : mret _ _ = (Ok _, _) |- _ => injection H as ? ?; try subst
  | H : returned _ _ = (Ok _, _) |- _ => unfold returned in H; injection H as ? ?; try subst
  | H : ReadFull _ _ = (Ok _, _) |- _ => apply ReadFull_inv in H as [? ?]
  | H : (if ?b then returned (Err _) else _) _ = (Ok _, _) |- _ =>
      let E := fresh "E" in destruct b eqn:E; [discriminate H|]
  end.

(** ** Readers of the same bytes

    Two readers are equivalent when they deliver the same bytes and then fail
    with the same error. *)

#[export] Instance reader_equiv : Equiv Reader := fun r1 r2 => contents r1 = contents r2 /\ failure r1 = failure r2.

#[export] Instance reader_equivalence : Equivalence (≡@{Reader}).
Proof. split; [by split|by intros ?? []|intros ??? [] []; split; congruence]. Qed.

(** The results of [f] are equal, errors included, and what is left is
    equivalent. *)
Class pieces_irrelevant {A} (f : Reads A) : Prop :=
  pieces : Proper ((≡) ==> (fun x y => x.1 = y.1 /\ x.2 ≡ y.2)) f.

#[export] Instance ReadFull_proper n : pieces_irrelevant (ReadFull n).
Proof.
  intros r1 r2 [Hc Hf]. destruct (ReadFull_spec n r1) as (r1' & -> & C1 & F1), (ReadFull_spec n r2) as (r2' & -> & C2 & F2).
  cbn. rewrite Hc, Hf in *. split; [done|]. split; congruence.
Qed.

#[export] Instance returned_proper {A} (x : result A) : pieces_irrelevant (returned x).
Proof. intros r1 r2 H. done. Qed.

#[export] Instance ret_proper {A} (a : A) : pieces_irrelevant (mret a).
Proof. intros r1 r2 H. done. Qed.

#[export] Instance bind_proper {A B} (f : A -> Reads B) (m : Reads A) :
  pieces_irrelevant m -> (forall a, pieces_irrelevant (f a)) -> pieces_irrelevant (m ≫= f).
Proof.
  intros Hm Hf r1 r2 H. unfold mbind, reads_bind. destruct (Hm _ _ H) as [E1 E2].
  destruct (m r1) as [x1 s1], (m r2) as [x2 s2]. cbn in E1, E2. subst x2. destruct x1; [by apply Hf|done].
Qed.

#[export] Instance if_proper {A} (b : bool) (f g : Reads A) :
  pieces_irrelevant f -> pieces_irrelevant g -> pieces_irrelevant (if b then f else g).
Proof. by destruct b. Qed.

(** ** Fields of a payload *)

(** The field of [List.length f] bytes at offset [i]. *)
Lemma slice_field {A} (i : nat) (p f l : list A) : List.length p = i -> slice i (i + List.length f) (p ++ f ++ l) = f.
Proof.
  intros <-. unfold slice. rewrite drop_app_length. replace (_ + _ - _)%nat with (List.length f) by lia.
  apply take_app_length.
Qed.

Lemma be_get_field (i j n : nat) (p l : bytes) z :
  j = (i + n)%nat -> List.length p = i -> 0 <= z < 2 ^ (8 * Z.of_nat n) -> be_get (slice i j (p ++ be_put n z ++ l)) = z.
Proof.
  intros -> Hp Hz. replace n with (List.length (be_put n z)) at 1 by apply be_put_length.
  rewrite slice_field by done. rewrite be_get_put. by apply Z.mod_small.
Qed.

Lemma be_get_head n l z : 0 <= z < 2 ^ (8 * Z.of_nat n) -> be_get (slice 0 n (be_put n z ++ l)) = z.
Proof. by apply (be_get_field 0 n n []). Qed.

Lemma slice_length {A} (i j : nat) (l : list A) : (i <= j <= List.length l)%nat -> List.length (slice i j l) = (j - i)%nat.
Proof. intros H. unfold slice. rewrite length_take, length_drop. lia. Qed.

Lemma slice_split {A} (i j : nat) (l : list A) : (i <= j)%nat -> slice i j l ++ drop j l = drop i l.
Proof.
  intros H. unfold slice. replace (drop j l) with (drop (j - i) (drop i l)) by (rewrite drop_drop; f_equal; lia).
  apply take_drop.
Qed.

Lemma be_put_slice (i j n : nat) (l : bytes) : j = (i + n)%nat -> (j <= List.length l)%nat -> be_put n (be_get (slice i j l)) = slice i j l.
Proof.
  intros -> H. pose proof (be_put_get (slice i (i + n) l)) as E. rewrite slice_length in E by lia.
  by replace (i + n - i)%nat with n in E by lia.
Qed.

Lemma be_get_slice_range (i n : nat) (l : bytes) : (i + n <= List.length l)%nat -> 0 <= be_get (slice i (i + n) l) < 2 ^ (8 * Z.of_nat n).
Proof.
  intros H. pose proof (be_get_range (slice i (i + n) l)) as R. unfold len in R. rewrite slice_length in R by lia.
  by replace (i + n - i)%nat with n in R by lia.
Qed.

(** *** Error texts cut to a maximum *)

Definition cut_text (maximum : Z) (s : string) : string := if maximum <? slen s then string_take maximum s else s.

Lemma string_take_length n s : 0 <= n <= slen s -> slen (string_take n s) = n.
Proof.
  intros Hn. unfold string_take, slen in *. assert (forall k t, (k <= String.length t)%nat -> String.length (String.substring 0 k t) = k) as H.
  { clear. intros k t. revert k. induction t as [|c t IH]; intros [|k] Hk; cbn in *; [done|lia|done|]. rewrite IH; lia. }
  rewrite H by lia. lia.
Qed.

Lemma cut_text_length n s : 0 <= n -> slen (cut_text n s) <= n.
Proof. intros Hn. unfold cut_text. destruct (Z.ltb_spec n (slen s)); [|done]. by rewrite string_take_length by lia. Qed.

Lemma cut_text_short n s : slen s <= n -> cut_text n s = s.
Proof. intros H. unfold cut_text. by rewrite (proj2 (Z.ltb_ge _ _)). Qed.

(** ** A concrete connection *)

(** A connection that takes at most three bytes in a call. *)
Definition trickle_write (w p : bytes) : bytes * Z * option error := (w ++ take 3 p, Z.min 3 (len p), None).

Lemma trickle_writer : writer_ok trickle_write id.
Proof.
  intros w p w' n err [= <- <- <-]. pose proof (len_nonneg p). split; [lia|]. unfold id. f_equal.
  destruct (Z.min_spec 3 (len p)) as [[? ->]|[? ->]]; [done|]. unfold len in *. rewrite !take_ge by lia. done.
Qed.
