(* ===== verification/ExecStream.v ===== *)
(** * Frames of an interactive command ([internal/protocol/execstream])

    The messages of the exec WebSocket: a type byte and a payload, with the
    terminal size and the exit status as two structured payloads. *)

From S2P Require Import Prelude GoLib GoText WireReader.

Definition Stdin : byte := x01.
Definition Stdout : byte := x02.
Definition Stderr : byte := x03.
Definition Resize : byte := x04.
Definition CloseStdin : byte := x05.
Definition Exit : byte := x06.

Definition MaximumPayload : Z := Z.shiftl 1 20.
Definition MaximumError : Z := 4096.

Record Frame := mkFrame { Type_ : byte; Payload : bytes }.
Record TerminalSize := mkTerminalSize { Width : Z; Height : Z }.   (* uint16 *)
Record ExitStatus := mkExitStatus { Code : Z; Cancelled : bool; Error : string }.   (* Code : uint32 *)

Definition TerminalSize_wf (size : TerminalSize) : Prop := u16 (Width size) /\ u16 (Height size).
Definition ExitStatus_wf (status : ExitStatus) : Prop := u32 (Code status).

Definition validate (frame : Frame) : result unit :=
  _ ← require (negb (MaximumPayload <? len (Payload frame))) (NewError "exec frame exceeds 1 MiB");
  let type := Type_ frame in
  if bool_decide (type = Stdin \/ type = Stdout \/ type = Stderr) then
    require (negb (len (Payload frame) =? 0)) (NewError "exec data frame is empty")
  else if bool_decide (type = Resize) then
    require (len (Payload frame) =? 4) (NewError "terminal resize payload must be four bytes")
  else if bool_decide (type = CloseStdin) then
    require (len (Payload frame) =? 0) (NewError "close-stdin frame must be empty")
  else if bool_decide (type = Exit) then
    require (negb (len (Payload frame) <? 5)) (NewError "exec exit payload is incomplete")
  else Err (NewError ("unsupported exec frame type " +:+ pretty (Z_of_byte type))).

Definition Encode (frame : Frame) : result bytes :=
  _ ← validate frame; Ok (Type_ frame :: Payload frame).

Definition Decode (encoded : bytes) : result Frame :=
  match encoded with
  | [] => Err (NewError "exec frame is empty")
  | type :: payload =>
      let frame := mkFrame type payload in
      _ ← validate frame; Ok frame
  end.

Definition size_required : error := NewError "terminal width and height are required".

Definition EncodeResize (size : TerminalSize) : result bytes :=
  _ ← require (negb ((Width size =? 0) || (Height size =? 0))) size_required;
  Encode (mkFrame Resize (be_put 2 (Width size) ++ be_put 2 (Height size))).

Definition DecodeResize (frame : Frame) : result TerminalSize :=
  _ ← require (negb (negb (bool_decide (Type_ frame = Resize)) || negb (len (Payload frame) =? 4)))
        (NewError "invalid terminal resize frame");
  let size := mkTerminalSize (be_get (slice 0 2 (Payload frame))) (be_get (slice 2 4 (Payload frame))) in
  _ ← require (negb ((Width size =? 0) || (Height size =? 0))) size_required;
  Ok size.

Definition EncodeExit (status : ExitStatus) : result bytes :=
  let error := cut_text MaximumError (Error status) in
  Encode (mkFrame Exit (be_put 4 (Code status) ++ [if Cancelled status then x01 else x00] ++ string_to_bytes error)).

Definition DecodeExit (frame : Frame) : result ExitStatus :=
  let payload := Payload frame in
  if negb (bool_decide (Type_ frame = Exit)) || (len payload <? 5) || (MaximumError <? len payload - 5)
     || (1 <? Z_of_byte (nth 4 payload x00))
  then Err (NewError "invalid exec exit frame")
  else Ok (mkExitStatus (be_get (slice 0 4 payload)) (bool_decide (nth 4 payload x00 = x01)) (bytes_to_string (drop 5 payload))).

(** ** Properties *)

Lemma exec_decode_encode encoded frame : Decode encoded = Ok frame <-> Encode frame = Ok encoded.
Proof.
  unfold Decode, Encode. split.
  - destruct encoded as [|t p]; [discriminate|]. cbv zeta. intros ([] & E & [= <-])%result_bind_ok. by rewrite E.
  - intros ([] & E & [= <-])%result_bind_ok. destruct frame as [t p]. cbn in *. by rewrite E.
Qed.

Lemma resize_decoded frame size :
  DecodeResize frame = Ok size -> TerminalSize_wf size /\ EncodeResize size = Encode frame.
Proof.
  unfold DecodeResize, EncodeResize. cbv zeta. intros E. inv_ok. bool_hyps. destruct frame as [t p]. cbn [Type_ Payload] in *. subst t.
  assert (List.length p = 4%nat) as Hp by (unfold len in *; lia). split.
  - split; [apply (be_get_slice_range 0 2)|apply (be_get_slice_range 2 2)]; lia.
  - cbn [Width Height require mbind result_bind].
    rewrite !be_put_slice by lia. f_equal. f_equal.
    rewrite <- (app_nil_r (slice 2 4 p)), <- (drop_ge p 4) by lia. rewrite slice_split by lia. by rewrite (slice_split 0 2) by lia.
Qed.

Lemma resize_encoded size encoded :
  TerminalSize_wf size -> EncodeResize size = Ok encoded -> exists frame, Decode encoded = Ok frame /\ DecodeResize frame = Ok size.
Proof.
  intros [Hw Hh]. unfold EncodeResize. intros E. inv_ok. bool_hyps. eexists. split; [by apply exec_decode_encode|].
  unfold DecodeResize. cbn [Type_ Payload Width Height]. rewrite bool_decide_true by done.
  replace (len _) with 4 by (unfold len; rewrite length_app, !be_put_length; done). cbn [negb orb require mbind result_bind Z.eqb Pos.eqb].
  rewrite be_get_head by done. rewrite <- (app_nil_r (be_put 2 (Height size))).
  rewrite be_get_field by (done || apply be_put_length).
  rewrite (proj2 (Z.eqb_neq _ _)), (proj2 (Z.eqb_neq _ _)) by done. by destruct size.
Qed.

Definition exit_read (status : ExitStatus) : ExitStatus :=
  mkExitStatus (Code status) (Cancelled status) (cut_text MaximumError (Error status)).

Lemma exit_encoded status :
  ExitStatus_wf status -> exists encoded frame, EncodeExit status = Ok encoded /\ Decode encoded = Ok frame /\ DecodeExit frame = Ok (exit_read status).
Proof.
  intros Hc. unfold EncodeExit, exit_read. cbv zeta.
  pose proof (cut_text_length MaximumError (Error status) ltac:(done)) as Hl. revert Hl. generalize (cut_text MaximumError (Error status)).
  intros text Hl. rewrite slen_bytes in Hl.
  set (payload := be_put 4 (Code status) ++ _). assert (len payload = 5 + len (string_to_bytes text)) as Hp.
  { unfold payload, len. rewrite !length_app, be_put_length. cbn [List.length]. lia. }
  pose proof (len_nonneg (string_to_bytes text)) as H0.
  assert (Encode (mkFrame Exit payload) = Ok (Exit :: payload)) as E.
  { unfold Encode, validate. cbn [Payload Type_]. rewrite Hp. unfold MaximumPayload, MaximumError in *. change (Z.shiftl 1 20) with 1048576.
    rewrite (proj2 (Z.ltb_ge _ _)) by lia. cbn [negb require mbind result_bind]. rewrite !bool_decide_false by (by intuition).
    rewrite bool_decide_true by done. rewrite (proj2 (Z.ltb_ge _ _)) by lia. done. }
  exists (Exit :: payload), (mkFrame Exit payload). split_and!; [done|by apply exec_decode_encode|].
  unfold DecodeExit. cbn [Type_ Payload]. rewrite bool_decide_true, Hp by done. unfold MaximumError in *.
  rewrite (proj2 (Z.ltb_ge _ 5)), (proj2 (Z.ltb_ge 4096 _)) by lia. cbn [negb orb].
  assert (nth 4 payload x00 = if Cancelled status then x01 else x00) as ->.
  { unfold payload. rewrite app_nth2; rewrite be_put_length; [|lia]. done. }
  unfold payload at 1. rewrite be_get_head by done.
  replace (drop 5 _) with (string_to_bytes text).
  - rewrite string_of_to_bytes. by destruct (Cancelled status).
  - unfold payload. rewrite app_assoc, drop_app_length'; [done|]. rewrite length_app, be_put_length. done.
Qed.

Lemma exit_decoded frame status encoded :
  Decode encoded = Ok frame -> DecodeExit frame = Ok status -> ExitStatus_wf status /\ EncodeExit status = Ok encoded.
Proof.
  intros HD%exec_decode_encode. unfold DecodeExit, EncodeExit. cbv zeta. intros E. inv_ok. bool_hyps.
  destruct frame as [t p]. cbn [Type_ Payload] in *. subst t. unfold len in *.
  assert (5 <= List.length p)%nat as Hp by lia. split; [apply (be_get_slice_range 0 4); lia|]. cbn [Error Code Cancelled].
  rewrite cut_text_short by (rewrite slen_of_bytes; unfold len; rewrite length_drop; lia). rewrite string_to_of_bytes, be_put_slice by lia.
  rewrite <- HD. f_equal. f_equal. do 5 (destruct p as [|? p]; [cbn in Hp; lia|]). cbn [nth drop slice take Nat.sub app] in *.
  do 5 f_equal. match goal with H : Z_of_byte ?c <= 1 |- _ => destruct c; (by vm_compute in H) || done end.
Qed.

(** An exec frame decodes from exactly its own encoding; so do
    terminal sizes and exit statuses, but for an error text longer than 4096
    bytes, which is cut; and every exit status can be encoded. *)
Theorem exec_stream_roundtrip :
  (forall encoded frame, Decode encoded = Ok frame <-> Encode frame = Ok encoded) /\
  (forall encoded size, TerminalSize_wf size /\ EncodeResize size = Ok encoded <->
     exists frame, Decode encoded = Ok frame /\ DecodeResize frame = Ok size) /\
  (forall status, ExitStatus_wf status -> exists encoded frame,
     EncodeExit status = Ok encoded /\ Decode encoded = Ok frame /\ DecodeExit frame = Ok (exit_read status)) /\
  (forall encoded frame status, Decode encoded = Ok frame -> DecodeExit frame = Ok status ->
     ExitStatus_wf status /\ EncodeExit status = Ok encoded).
Proof.
  split_and!; [exact exec_decode_encode| |exact exit_encoded|intros encoded frame status; by apply exit_decoded].
  intros encoded size. split; [intros [Hw He]; by apply resize_encoded|].
  intros (frame & HD%exec_decode_encode & [Hw He]%resize_decoded). split; congruence.
Qed.

Example exec_frames :
  Encode (mkFrame Stdout [x68; x69]) = Ok [x02; x68; x69] /\ EncodeResize (mkTerminalSize 80 24) = Ok [x04; x00; x50; x00; x18] /\
  EncodeExit (mkExitStatus 130 true "no") = Ok [x06; x00; x00; x00; x82; x01; x6e; x6f] /\
  is_ok (Encode (mkFrame Stdin [])) = false /\ is_ok (Decode [x07; x00]) = false /\ is_ok (DecodeExit (mkFrame Exit [x00; x00; x00; x00; x02])) = false.
Proof. evaluate. Qed.
