(* ===== verification/FileStream.v ===== *)
(** * Frames of a file transfer ([internal/protocol/filestream])

    The messages of the file-transfer WebSocket: a type byte and a payload, with
    the progress and the result of a transfer as two structured payloads. *)

From S2P Require Import Prelude GoLib GoText WireReader.

Definition Data : byte := x01.
Definition Complete : byte := x02.
Definition Progress : byte := x03.
Definition Result : byte := x04.
Definition Cancel : byte := x05.

Definition ResultSucceeded : byte := x00.
Definition ResultFailed : byte := x01.
Definition ResultCancelled : byte := x02.

Definition MaximumData : Z := Z.shiftl 256 10.
Definition MaximumError : Z := 4096.
Definition resultHeader : Z := 41.

Record Frame := mkFrame { Type_ : byte; Payload : bytes }.
Record ProgressStatus := mkProgressStatus { prg_Transferred : Z; Total : Z }.   (* uint64 *)

(** [Checksum] is [[32]byte]. *)
Record TransferResult := mkTransferResult {
  Status : byte;
  Transferred : Z;   (* uint64 *)
  Checksum : bytes;
  HasChecksum : bool;
  Error : string
}.

Definition checksumSize : nat := 32.
Definition zeroChecksum : bytes := repeat x00 checksumSize.

Definition ProgressStatus_wf (status : ProgressStatus) : Prop := u64 (prg_Transferred status) /\ u64 (Total status).
Definition TransferResult_wf (result : TransferResult) : Prop :=
  u64 (Transferred result) /\ List.length (Checksum result) = checksumSize.

Definition validate (frame : Frame) : result unit :=
  let type := Type_ frame in
  let size := len (Payload frame) in
  if bool_decide (type = Data) then
    require (negb ((size =? 0) || (MaximumData <? size)))
      (NewError ("file transfer data frame must contain 1 to " +:+ pretty MaximumData +:+ " bytes"))
  else if bool_decide (type = Complete \/ type = Cancel) then
    require (size =? 0) (NewError "file transfer control frame must be empty")
  else if bool_decide (type = Progress) then
    require (size =? 16) (NewError "file transfer progress payload must be 16 bytes")
  else if bool_decide (type = Result) then
    require (negb ((size <? resultHeader) || (MaximumError <? size - resultHeader)))
      (NewError "file transfer result payload is invalid")
  else Err (NewError ("unsupported file transfer frame type " +:+ pretty (Z_of_byte type))).

Definition Encode (frame : Frame) : result bytes :=
  _ ← validate frame; Ok (Type_ frame :: Payload frame).

Definition Decode (encoded : bytes) : result Frame :=
  match encoded with
  | [] => Err (NewError "file transfer frame is empty")
  | type :: payload =>
      let frame := mkFrame type payload in
      _ ← validate frame; Ok frame
  end.

Definition progress_invalid : error := NewError "file transfer progress is invalid".

Definition EncodeProgress (status : ProgressStatus) : result bytes :=
  if negb (Total status =? 0) && (Total status <? prg_Transferred status) then Err progress_invalid
  else Encode (mkFrame Progress (be_put 8 (prg_Transferred status) ++ be_put 8 (Total status))).

Definition DecodeProgress (frame : Frame) : result ProgressStatus :=
  if negb (bool_decide (Type_ frame = Progress)) || negb (len (Payload frame) =? 16)
  then Err (NewError "invalid file transfer progress frame")
  else
    let status := mkProgressStatus (be_get (slice 0 8 (Payload frame))) (be_get (slice 8 16 (Payload frame))) in
    if negb (Total status =? 0) && (Total status <? prg_Transferred status) then Err progress_invalid
    else Ok status.

Definition status_invalid : error := NewError "file transfer result status is invalid".

Definition EncodeResult (result : TransferResult) : Prelude.result bytes :=
  if Z_of_byte ResultCancelled <? Z_of_byte (Status result) then Err status_invalid
  else
    let error := cut_text MaximumError (Error result) in
    if bool_decide (Status result = ResultSucceeded) && negb (bool_decide (error = ""))
    then Err (NewError "successful file transfer result cannot contain an error")
    else Encode (mkFrame Result
           ([Status result] ++ be_put 8 (Transferred result) ++
            (if HasChecksum result then Checksum result else zeroChecksum) ++ string_to_bytes error)).

Definition DecodeResult (frame : Frame) : result TransferResult :=
  let payload := Payload frame in
  if negb (bool_decide (Type_ frame = Result)) || (len payload <? resultHeader) || (MaximumError <? len payload - resultHeader)
  then Err (NewError "invalid file transfer result frame")
  else
    let status := nth 0 payload x00 in
    let error := bytes_to_string (drop 41 payload) in
    if (Z_of_byte ResultCancelled <? Z_of_byte status) ||
       (bool_decide (status = ResultSucceeded) && negb (bool_decide (error = "")))
    then Err status_invalid
    else
      let checksum := slice 9 41 payload in
      Ok (mkTransferResult status (be_get (slice 1 9 payload)) checksum
            (existsb (fun value => negb (bool_decide (value = x00))) checksum) error).

Definition ParseChecksum (value : string) : result bytes :=
  match hex_DecodeString value with
  | Some decoded =>
      if Nat.eqb (List.length decoded) checksumSize then Ok decoded
      else Err (NewError "SHA-256 checksum must contain 64 hexadecimal characters")
  | None => Err (NewError "SHA-256 checksum must contain 64 hexadecimal characters")
  end.

Definition FormatChecksum (checksum : bytes) : string := hex_EncodeToString checksum.

(** ** Properties *)

Lemma file_decode_encode encoded frame : Decode encoded = Ok frame <-> Encode frame = Ok encoded.
Proof.
  unfold Decode, Encode. split.
  - destruct encoded as [|t p]; [discriminate|]. cbv zeta. intros ([] & E & [= <-])%result_bind_ok. by rewrite E.
  - intros ([] & E & [= <-])%result_bind_ok. destruct frame as [t p]. cbn in *. by rewrite E.
Qed.

Lemma progress_decoded frame status :
  DecodeProgress frame = Ok status -> ProgressStatus_wf status /\ EncodeProgress status = Encode frame.
Proof.
  unfold DecodeProgress, EncodeProgress. cbv zeta. intros E. inv_ok. bool_hyps. destruct frame as [t p]. cbn [Type_ Payload Total prg_Transferred] in *. subst t.
  assert (List.length p = 16%nat) as Hp by (unfold len in *; lia).
  match goal with H : _ && _ = false |- _ => rewrite H end. split.
  - split; [apply (be_get_slice_range 0 8)|apply (be_get_slice_range 8 8)]; lia.
  - rewrite !be_put_slice by lia. f_equal. f_equal.
    rewrite <- (app_nil_r (slice 8 16 p)), <- (drop_ge p 16) by lia. rewrite slice_split by lia. by rewrite (slice_split 0 8) by lia.
Qed.

Lemma progress_encoded status encoded :
  ProgressStatus_wf status -> EncodeProgress status = Ok encoded ->
  exists frame, Decode encoded = Ok frame /\ DecodeProgress frame = Ok status.
Proof.
  intros [Ht Hl]. unfold EncodeProgress. intros E. inv_ok. eexists. split; [by apply file_decode_encode|].
  unfold DecodeProgress. cbn [Type_ Payload]. rewrite bool_decide_true by done.
  replace (len _) with 16 by (unfold len; rewrite length_app, !be_put_length; done). cbn [negb orb Z.eqb Pos.eqb].
  rewrite be_get_head by done. rewrite <- (app_nil_r (be_put 8 (Total status))).
  rewrite be_get_field by (done || apply be_put_length). cbn [Total prg_Transferred].
  match goal with H : _ && _ = false |- _ => rewrite H end. by destruct status.
Qed.

(** ** Results *)

Lemma status_cases b : (Z_of_byte ResultCancelled <? Z_of_byte b) = false -> b = ResultSucceeded \/ b = ResultFailed \/ b = ResultCancelled.
Proof. destruct b; try discriminate; auto. Qed.

(** What is read of a result: the checksum is present when it is not all zero. *)
Definition result_read (r : TransferResult) : TransferResult :=
  let checksum := if HasChecksum r then Checksum r else zeroChecksum in
  mkTransferResult (Status r) (Transferred r) checksum
    (existsb (fun value => negb (bool_decide (value = x00))) checksum) (cut_text MaximumError (Error r)).

Lemma result_frame status transferred checksum text :
  List.length checksum = checksumSize -> slen text <= MaximumError -> u64 transferred ->
  let payload := [status] ++ be_put 8 transferred ++ checksum ++ string_to_bytes text in
  Encode (mkFrame Result payload) = Ok (Result :: payload) /\
  (len payload <? resultHeader) = false /\ (MaximumError <? len payload - resultHeader) = false /\
  nth 0 payload x00 = status /\ be_get (slice 1 9 payload) = transferred /\ slice 9 41 payload = checksum /\ bytes_to_string (drop 41 payload) = text.
Proof.
  intros Hc Ht Hu payload. unfold checksumSize in Hc. rewrite slen_bytes in Ht.
  assert (len payload = 41 + len (string_to_bytes text)) as Hp.
  { unfold payload, len. rewrite !length_app, be_put_length, Hc. cbn [List.length]. lia. }
  pose proof (len_nonneg (string_to_bytes text)) as H0. unfold resultHeader, MaximumError in *.
  assert ((len payload <? 41) = false) as E1 by (apply Z.ltb_ge; lia).
  assert ((4096 <? len payload - 41) = false) as E2 by (apply Z.ltb_ge; lia).
  split_and!; [|done..| | |].
  - unfold Encode, validate. cbn [Payload Type_]. rewrite !bool_decide_false by (by intuition). rewrite bool_decide_true by done.
    unfold resultHeader, MaximumError. by rewrite E1, E2.
  - apply be_get_field; done.
  - unfold payload. rewrite app_assoc. replace 41%nat with (9 + List.length checksum)%nat by (rewrite Hc; done).
    apply slice_field. rewrite length_app, be_put_length. done.
  - unfold payload. rewrite !app_assoc, drop_app_length'; [apply string_of_to_bytes|]. rewrite !length_app, be_put_length, Hc. done.
Qed.

Lemma result_encoded r encoded :
  TransferResult_wf r -> EncodeResult r = Ok encoded ->
  exists frame, Decode encoded = Ok frame /\ DecodeResult frame = Ok (result_read r).
Proof.
  intros [Hu Hc]. unfold EncodeResult, result_read. cbv zeta. intros E. inv_ok.
  pose proof (cut_text_length MaximumError (Error r) ltac:(done)) as Hl. revert E E0 E1 Hl. generalize (cut_text MaximumError (Error r)).
  intros text E E0 E1 Hl. set (checksum := if HasChecksum r then Checksum r else zeroChecksum) in *.
  assert (List.length checksum = checksumSize) as Hn by (unfold checksum; destruct (HasChecksum r); [done|reflexivity]).
  destruct (result_frame (Status r) (Transferred r) checksum text Hn Hl Hu) as (F & L1 & L2 & N & T & S & X).
  rewrite F in E. apply Ok_inj in E as <-. eexists. split; [by apply file_decode_encode|].
  unfold DecodeResult. cbn [Type_ Payload]. cbv zeta. rewrite bool_decide_true, L1, L2 by done. cbn [negb orb].
  rewrite N, T, S, X, E0. cbn [orb]. by rewrite E1.
Qed.

Lemma result_decoded encoded frame r :
  Decode encoded = Ok frame -> DecodeResult frame = Ok r -> TransferResult_wf r /\ EncodeResult r = Ok encoded.
Proof.
  intros HD%file_decode_encode. unfold DecodeResult, EncodeResult. cbv zeta. intros E. inv_ok. bool_hyps.
  destruct frame as [t p]. cbn [Type_ Payload] in *. subst t. unfold resultHeader, len in *.
  assert (41 <= List.length p)%nat as Hp by lia. split.
  { split; [apply (be_get_slice_range 1 8); lia|]. cbn [Checksum]. by rewrite slice_length by lia. }
  cbn [Error Status Transferred Checksum HasChecksum].
  rewrite cut_text_short by (rewrite slen_of_bytes; unfold len; rewrite length_drop; lia).
  match goal with H : bool_decide _ && _ = false |- _ => rewrite H end.
  rewrite (proj2 (Z.ltb_ge _ _)) by done. rewrite string_to_of_bytes, be_put_slice by lia.
  replace (if existsb _ _ then _ else _) with (slice 9 41 p).
  - rewrite (slice_split 9 41) by lia. rewrite (slice_split 1 9) by lia. rewrite <- HD. f_equal. f_equal.
    destruct p as [|b p]; [cbn in Hp; lia|done].
  - destruct (existsb _ _) eqn:Ex; [done|]. assert (List.length (slice 9 41 p) = 32%nat) as Hl by (rewrite slice_length by lia; done).
    revert Ex Hl. generalize (slice 9 41 p). unfold zeroChecksum, checksumSize. generalize 32%nat as k. clear.
    intros k l. revert k. induction l as [|b l IH]; intros [|k] E Hk; try discriminate Hk; [done|]. cbn [existsb] in E. bool_hyps.
    cbn [repeat]. f_equal; [done|]. apply IH; [done|]. by injection Hk.
Qed.

(** A file-transfer frame decodes from exactly its own encoding,
    and so does a progress report.  A result that can be encoded is read back
    with its error text cut to 4096 bytes, and with a checksum unless it is
    absent or all zero; and every result read is encoded to the bytes it was
    read from. *)
Theorem file_stream_roundtrip :
  (forall encoded frame, Decode encoded = Ok frame <-> Encode frame = Ok encoded) /\
  (forall encoded status, ProgressStatus_wf status /\ EncodeProgress status = Ok encoded <->
     exists frame, Decode encoded = Ok frame /\ DecodeProgress frame = Ok status) /\
  (forall r encoded, TransferResult_wf r -> EncodeResult r = Ok encoded ->
     exists frame, Decode encoded = Ok frame /\ DecodeResult frame = Ok (result_read r)) /\
  (forall encoded frame r, Decode encoded = Ok frame -> DecodeResult frame = Ok r ->
     TransferResult_wf r /\ EncodeResult r = Ok encoded).
Proof.
  split_and!; [exact file_decode_encode| |intros r encoded; by apply result_encoded|intros encoded frame r; by apply result_decoded].
  intros encoded status. split; [intros [Hw He]; by apply progress_encoded|].
  intros (frame & HD%file_decode_encode & [Hw He]%progress_decoded). split; congruence.
Qed.

Lemma checksum_text c : List.length c = checksumSize -> ParseChecksum (FormatChecksum c) = Ok c.
Proof.
  intros H. unfold ParseChecksum, FormatChecksum, hex_DecodeString, hex_EncodeToString.
  rewrite string_to_of_bytes, hex_decode_encode. by rewrite H.
Qed.

Example file_frames :
  Encode (mkFrame Complete []) = Ok [x02] /\ is_ok (Encode (mkFrame Data [])) = false /\
  is_ok (EncodeProgress (mkProgressStatus 2 1)) = false /\ is_ok (EncodeProgress (mkProgressStatus 2 0)) = true /\
  is_ok (EncodeResult (mkTransferResult ResultSucceeded 1 zeroChecksum true "no")) = false /\
  is_ok (ParseChecksum "00") = false.
Proof. evaluate. Qed.
