(* ===== verification/StreamConn.v ===== *)
(** * Logical streams with half-close ([internal/transport/websocketmux/streamconn.go])

    A stream of the multiplexer carries data frames and a frame that ends one
    direction.  What one end writes is what the other end reads, byte for byte,
    and then the end of the stream; nothing can be written after it.  Deadlines
    ([touch]) have no effect on the bytes. *)

From S2P Require Import Prelude GoLib Utils WireReader.

Definition streamFrameData : byte := x01.
Definition streamFrameFIN : byte := x02.
Definition MaximumStreamFrameBytes : Z := Z.shiftl 64 10.

Definition ErrClosedPipe : error := VarError "io.ErrClosedPipe".

(** ** Reading *)

(** [conn] is the underlying connection. *)
Record ReadSide := mkReadSide { conn : Reader; readData : bytes; readEOF : bool }.

(** [copy(destination, connection.readData)] with [n] bytes of destination. *)
Definition copy_out (n : nat) (data : bytes) (c : ReadSide) : bytes * option error * ReadSide :=
  (take n data, None, mkReadSide (conn c) (drop n data) (readEOF c)).

Definition set_conn (c : ReadSide) (r : Reader) : ReadSide := mkReadSide r (readData c) (readEOF c).

Definition Read (n : nat) (c : ReadSide) : bytes * option error * ReadSide :=
  if Nat.eqb n 0 then ([], None, c)
  else if negb (bool_decide (readData c = [])) then copy_out n (readData c) c
  else if readEOF c then ([], Some EOF, c)
  else
    let '(header, r) := ReadFull 5 (conn c) in
    match header with
    | Err e => ([], Some e, set_conn c r)
    | Ok header =>
        let length := be_get (drop 1 header) in
        let kind := nth 0 header x00 in
        if bool_decide (kind = streamFrameFIN) then
          if negb (length =? 0) then ([], Some (NewError "invalid WebSocket stream FIN frame"), set_conn c r)
          else ([], Some EOF, mkReadSide r [] true)
        else if bool_decide (kind = streamFrameData) then
          if (length =? 0) || (MaximumStreamFrameBytes <? length)
          then ([], Some (NewError ("invalid WebSocket stream data length " +:+ pretty length)), set_conn c r)
          else
            let '(data, r') := ReadFull (Z.to_nat length) r in
            match data with
            | Err e => ([], Some e, set_conn c r')
            | Ok data => copy_out n data (set_conn c r')
            end
        else ([], Some (NewError ("invalid WebSocket stream frame type " +:+ pretty (Z_of_byte kind))), set_conn c r)
    end.

(** ** Writing *)

Section writing.
Context {W : Type} (write : W -> bytes -> W * Z * option error).

Record WriteSide := mkWriteSide { out : W; writeEOF : bool }.

(** [None] when [WriteAll] does not end, which never happens. *)
Definition writeFrame (kind : byte) (payload : bytes) (w : W) : option (W * option error) :=
  '(w1, err) ← WriteAll write w (kind :: be_put 4 (uint32 (len payload)));
  match err with
  | Some e => Some (w1, Some e)
  | None => if 0 <? len payload then WriteAll write w1 payload else Some (w1, None)
  end.

(** Every iteration takes at least a byte off the payload. *)
Fixpoint Write_loop (fuel : nat) (payload : bytes) (written : Z) (w : W) : option (Z * option error * W) :=
  match payload, fuel with
  | [], _ => Some (written, None, w)
  | _, O => None
  | _, S fuel' =>
      let size := Z.min (len payload) MaximumStreamFrameBytes in
      '(w1, err) ← writeFrame streamFrameData (take (Z.to_nat size) payload) w;
      match err with
      | Some e => Some (written, Some e, w1)
      | None => Write_loop fuel' (drop (Z.to_nat size) payload) (written + size) w1
      end
  end.

Definition Write (payload : bytes) (c : WriteSide) : option (Z * option error * WriteSide) :=
  if writeEOF c then Some (0, Some ErrClosedPipe, c)
  else
    '(written, err, w) ← Write_loop (List.length payload) payload 0 (out c);
    Some (written, err, mkWriteSide w false).

Definition CloseWrite (c : WriteSide) : option (option error * WriteSide) :=
  if writeEOF c then Some (Some ErrClosedPipe, c)
  else
    '(w, err) ← writeFrame streamFrameFIN [] (out c);
    Some (err, mkWriteSide w true).

(** What a program does with the direction it writes to. *)
Inductive write_op := WriteOp (payload : bytes) | CloseWriteOp.

#[export] Instance write_op_eq_dec : EqDecision write_op.
Proof. solve_decision. Defined.

(** One of them: the bytes it reports as written, its error and the connection
    after it. *)
Definition write_step (op : write_op) (c : WriteSide) : option (Z * option error * WriteSide) :=
  match op with
  | WriteOp payload => Write payload c
  | CloseWriteOp => '(err, c1) ← CloseWrite c; Some (0, err, c1)
  end.

(** The operations in order, up to the first that reports an error. *)
Fixpoint run_writes (ops : list write_op) (c : WriteSide) : option (option error * WriteSide) :=
  match ops with
  | [] => Some (None, c)
  | op :: rest =>
      '(_, err, c1) ← write_step op c;
      match err with
      | Some e => Some (Some e, c1)
      | None => run_writes rest c1
      end
  end.

(** All the operations in order, those after an error too, and what each reports. *)
Fixpoint run_each (ops : list write_op) (c : WriteSide) : option (list (Z * option error) * WriteSide) :=
  match ops with
  | [] => Some ([], c)
  | op :: rest =>
      '(n, err, c1) ← write_step op c;
      '(reported, c2) ← run_each rest c1;
      Some ((n, err) :: reported, c2)
  end.
End writing.
Arguments WriteSide : clear implicits.

(** Reads with buffers of [n] bytes until one reports an error. *)
Fixpoint read_all (fuel n : nat) (c : ReadSide) : option (bytes * error * ReadSide) :=
  match fuel with
  | O => None
  | S fuel' =>
      match Read n c with
      | (b, Some e, c1) => Some (b, e, c1)
      | (b, None, c1) => '(b', e, c2) ← read_all fuel' n c1; Some (b ++ b', e, c2)
      end
  end.

(** ** What a direction carries *)

Definition payload_of (op : write_op) : bytes := match op with WriteOp p => p | CloseWriteOp => [] end.
Definition payloads (ops : list write_op) : bytes := List.concat (map payload_of ops).

Definition frame_bytes (kind : byte) (payload : bytes) : bytes := kind :: be_put 4 (len payload) ++ payload.
Definition data_frame (p : bytes) : Prop := 0 < len p <= MaximumStreamFrameBytes.
Definition frames_bytes (pieces : list bytes) : bytes := List.concat (map (frame_bytes streamFrameData) pieces).

(** The connection is still going to deliver [data]; [fin] says whether the end
    of the stream follows it. *)
Inductive delivers (c : ReadSide) (data : bytes) (fin : bool) (tail : bytes) : Prop :=
| delivers_open pieces :
    readEOF c = false -> Forall data_frame pieces -> data = readData c ++ List.concat pieces ->
    contents (conn c) = frames_bytes pieces ++ (if fin then frame_bytes streamFrameFIN [] else []) ++ tail -> delivers c data fin tail
| delivers_ended : readEOF c = true -> data = readData c -> contents (conn c) = tail -> fin = true -> delivers c data fin tail.

(** ** The writing end *)

Section writing_facts.
Context {W : Type} (write : W -> bytes -> W * Z * option error) (sent : W -> bytes) (Hwriter : writer_ok write sent).

Lemma WriteAll_done w payload w' : WriteAll write w payload = Some (w', None) -> sent w' = sent w ++ payload.
Proof.
  intros E. destruct (WriteAll_loop_spec write sent _ w payload Hwriter (le_n _)) as (w2 & err & E2 & k & Hk & Hall).
  unfold WriteAll in E. rewrite E in E2. injection E2 as <- <-. by rewrite Hk, Hall.
Qed.

Lemma WriteAll_some w payload : exists x, WriteAll write w payload = Some x.
Proof. destruct (WriteAll_loop_spec write sent _ w payload Hwriter (le_n _)) as (w2 & err & E2 & _). eauto. Qed.

Lemma writeFrame_done kind payload w w' :
  len payload <= MaximumStreamFrameBytes -> writeFrame write kind payload w = Some (w', None) -> sent w' = sent w ++ frame_bytes kind payload.
Proof.
  intros Hl. pose proof (len_nonneg payload). unfold writeFrame, frame_bytes. destruct (WriteAll write w _) as [[w1 [e|]]|] eqn:E1; [discriminate| |discriminate].
  cbn [mbind option_bind]. apply WriteAll_done in E1. rewrite uint32_small in E1.
  2:{ unfold MaximumStreamFrameBytes in Hl. change (Z.shiftl 64 10) with 65536 in Hl. lia. }
  destruct (Z.ltb_spec 0 (len payload)).
  - intros E2%WriteAll_done. by rewrite E2, E1, <- app_assoc.
  - intros [= <-]. assert (payload = []) as -> by (apply len_zero; lia). by rewrite E1, app_nil_r.
Qed.

Lemma writeFrame_some kind payload w : exists x, writeFrame write kind payload w = Some x.
Proof.
  unfold writeFrame. destruct (WriteAll_some w (kind :: be_put 4 (uint32 (len payload)))) as [[w1 [e|]] ->]; cbn [mbind option_bind]; [eauto|].
  destruct (_ <? _); [apply WriteAll_some|eauto].
Qed.

Lemma Write_loop_done fuel : forall payload n w k w',
  Write_loop write fuel payload n w = Some (k, None, w') ->
  exists pieces, Forall data_frame pieces /\ List.concat pieces = payload /\ sent w' = sent w ++ frames_bytes pieces /\ k = n + len payload.
Proof.
  induction fuel as [|fuel IH]; intros [|b payload] n w k w'; cbn [Write_loop]; [intros [= <- <-]| |intros [= <- <-]|].
  1,3: exists []; split_and!; [done|done|by rewrite app_nil_r|unfold len; cbn; lia].
  { discriminate. }
  set (p := b :: payload). set (size := Z.min (len p) MaximumStreamFrameBytes).
  assert (0 < len p) as Hp by (unfold p, len; cbn [List.length]; lia).
  assert (0 < size <= MaximumStreamFrameBytes) as Hs by (unfold size, MaximumStreamFrameBytes in *; change (Z.shiftl 64 10) with 65536 in *; lia).
  assert (len (take (Z.to_nat size) p) = size) as Ht by (unfold len in *; rewrite length_take; unfold size; lia).
  destruct (writeFrame write _ _ w) as [[w1 [e|]]|] eqn:E; [discriminate| |discriminate]. cbn [mbind option_bind].
  apply writeFrame_done in E; [|lia]. intros (pieces & HF & Hc & Hw & ->)%IH.
  exists (take (Z.to_nat size) p :: pieces). split_and!.
  - constructor; [|done]. unfold data_frame. lia.
  - cbn [List.concat]. rewrite Hc. apply take_drop.
  - rewrite Hw, E. unfold frames_bytes. cbn [map List.concat]. by rewrite <- app_assoc.
  - unfold len in *. rewrite length_drop. lia.
Qed.

Lemma Write_loop_some fuel : forall payload n w, (List.length payload <= fuel)%nat -> exists x, Write_loop write fuel payload n w = Some x.
Proof.
  induction fuel as [|fuel IH]; intros [|b payload] n w Hl; cbn [Write_loop List.length] in *; [eauto|lia|eauto|].
  destruct (writeFrame_some streamFrameData (take (Z.to_nat (Z.min (len (b :: payload)) MaximumStreamFrameBytes)) (b :: payload)) w)
    as [[w1 [e|]] ->]; cbn [mbind option_bind]; [eauto|].
  apply IH. rewrite length_drop. cbn [List.length]. unfold len, MaximumStreamFrameBytes. cbn [List.length]. change (Z.shiftl 64 10) with 65536. lia.
Qed.

Lemma write_step_some op c : exists x, write_step write op c = Some x.
Proof.
  destruct op as [payload|]; cbn [write_step].
  - unfold Write. destruct (writeEOF c); [eauto|].
    destruct (Write_loop_some _ payload 0 (out c) (le_n _)) as [[[k e] w] ->]; cbn [mbind option_bind]; eauto.
  - unfold CloseWrite. destruct (writeEOF c); cbn [mbind option_bind]; [eauto|].
    destruct (writeFrame_some streamFrameFIN [] (out c)) as [[w e] ->]; cbn [mbind option_bind]; eauto.
Qed.

Lemma run_each_some ops : forall c, exists x, run_each write ops c = Some x.
Proof.
  induction ops as [|op ops IH]; intros c; cbn [run_each]; [eauto|].
  destruct (write_step_some op c) as [[[n err] c1] ->]. cbn [mbind option_bind].
  destruct (IH c1) as [[reported c2] ->]. cbn [mbind option_bind]. eauto.
Qed.

(** A half-close leaves the direction closed, and has written its frame when it
    reports no error. *)
Lemma CloseWrite_closes c :
  exists err c1, CloseWrite write c = Some (err, c1) /\ writeEOF c1 = true /\
    (err = None -> sent (out c1) = sent (out c) ++ frame_bytes streamFrameFIN []).
Proof.
  unfold CloseWrite. destruct (writeEOF c) eqn:Hc; [exists (Some ErrClosedPipe), c; by split_and!|].
  destruct (writeFrame_some streamFrameFIN [] (out c)) as [[w e] E]. rewrite E. cbn [mbind option_bind].
  eexists _, _. split_and!; [done|done|]. intros ->. by apply (writeFrame_done _ []) in E.
Qed.

Lemma run_each_closed ops c :
  writeEOF c = true -> run_each write ops c = Some (replicate (List.length ops) (0, Some ErrClosedPipe), c).
Proof.
  intros Hc. induction ops as [|op ops IH]; [done|]. cbn [run_each List.length replicate].
  assert (write_step write op c = Some (0, Some ErrClosedPipe, c)) as ->.
  { destruct op; cbn [write_step]; unfold Write, CloseWrite; by rewrite Hc. }
  cbn [mbind option_bind]. by rewrite IH.
Qed.

(** A run without errors has closed the direction at most at its end. *)
Lemma run_writes_done ops c c' :
  run_writes write ops c = Some (None, c') -> writeEOF c = false ->
  exists pieces, Forall data_frame pieces /\ List.concat pieces = payloads ops /\ writeEOF c' = bool_decide (CloseWriteOp ∈ ops) /\
    sent (out c') = sent (out c) ++ frames_bytes pieces ++ (if writeEOF c' then frame_bytes streamFrameFIN [] else []).
Proof.
  revert c. induction ops as [|[payload|] ops IH]; intros c; cbn [run_writes].
  - intros [= <-] He. exists []. rewrite He, app_nil_r. by split_and!.
  - intros E He. cbn [write_step] in E. unfold Write in E. rewrite He in E. destruct (Write_loop write _ payload 0 (out c)) as [[[k [e|]] w]|] eqn:EL;
      cbn [mbind option_bind] in E; [discriminate| |discriminate].
    apply Write_loop_done in EL as (p1 & F1 & C1 & S1 & _). apply IH in E as (p2 & F2 & C2 & W2 & S2); [|done]. cbn [out] in S2.
    exists (p1 ++ p2). split_and!.
    + by apply Forall_app.
    + unfold payloads. cbn [map List.concat payload_of]. by rewrite List.concat_app, C1, C2.
    + rewrite W2. apply bool_decide_ext. rewrite elem_of_cons. split; [by right|by intros [[=]|?]].
    + rewrite S2, S1. unfold frames_bytes. by rewrite map_app, List.concat_app, <- !app_assoc.
  - intros E He. cbn [write_step] in E. unfold CloseWrite in E. rewrite He in E. destruct (writeFrame write streamFrameFIN [] (out c)) as [[w [e|]]|] eqn:EF;
      cbn [mbind option_bind] in E; [discriminate| |discriminate].
    apply writeFrame_done in EF; [|done]. destruct ops as [|op ops].
    + injection E as <-. exists []. cbn [writeEOF out]. by split_and!.
    + exfalso. destruct op as [payload|]; cbn in E; discriminate E.
Qed.
End writing_facts.

(** ** The reading end *)

Lemma frame_header kind payload tail r :
  len payload < 2 ^ 32 -> contents r = frame_bytes kind payload ++ tail ->
  exists r', ReadFull 5 r = (Ok (kind :: be_put 4 (len payload)), r') /\ contents r' = payload ++ tail /\
    be_get (drop 1 (kind :: be_put 4 (len payload))) = len payload.
Proof.
  intros Hl Hc. unfold frame_bytes in Hc.
  destruct (ReadFull_takes 5 (kind :: be_put 4 (len payload)) ltac:(cbn [List.length]; by rewrite be_put_length) r (payload ++ tail)) as (r' & E & Hr & _).
  { rewrite Hc. cbn [app]. by rewrite <- app_assoc. }
  exists r'. split_and!; [done|done|]. pose proof (len_nonneg payload). change (drop 1 _) with (be_put 4 (len payload)). rewrite be_get_put. apply Z.mod_small. lia.
Qed.

Definition ended (c : ReadSide) (tail : bytes) : Prop := readEOF c = true /\ readData c = [] /\ contents (conn c) = tail.

(** A read takes a non-empty piece off what is still to be delivered, or
    reports the end of the stream. *)
Lemma Read_delivers n c data tail :
  (0 < n)%nat -> delivers c data true tail ->
  (data = [] /\ exists c', Read n c = ([], Some EOF, c') /\ ended c' tail) \/
  (exists b rest c', data = b ++ rest /\ b <> [] /\ (List.length b <= n)%nat /\ Read n c = (b, None, c') /\ delivers c' rest true tail).
Proof.
  intros Hn Hd. unfold Read. rewrite (proj2 (Nat.eqb_neq n 0)) by lia.
  assert (forall d : bytes, d <> [] -> take n d <> [] /\ (List.length (take n d) <= n)%nat) as Htake.
  { intros d Hd'. rewrite length_take. destruct d; [done|]. destruct n; [lia|split; [done|lia]]. }
  destruct (decide (readData c = [])) as [E|E].
  2:{ rewrite bool_decide_false by done. right. cbn [negb copy_out]. destruct (Htake _ E) as [H1 H2]. unfold copy_out.
      destruct Hd as [pieces He HF -> Hc|He -> Hc _].
      - exists (take n (readData c)), (drop n (readData c) ++ List.concat pieces). eexists. split_and!; [|done|done|reflexivity|].
        + by rewrite app_assoc, take_drop.
        + by apply delivers_open with pieces.
      - exists (take n (readData c)), (drop n (readData c)). eexists. split_and!; [by rewrite take_drop|done|done|reflexivity|].
        by apply delivers_ended. }
  rewrite bool_decide_true by done. cbn [negb]. destruct Hd as [pieces He HF -> Hc|He -> Hc _].
  2:{ rewrite He. left. rewrite E. split; [done|]. by exists c. }
  rewrite He, E. cbn [app]. destruct pieces as [|p pieces].
  - left. split; [done|]. change (frames_bytes []) with (@nil byte) in Hc. cbn [app] in Hc.
    destruct (frame_header streamFrameFIN [] tail (conn c) ltac:(done) Hc) as (r & -> & Hr & ->). cbn [nth]. rewrite bool_decide_true by done.
    cbn. eexists. by split; [reflexivity|].
  - right. inversion_clear HF as [|? ? Hp HF']. destruct Hp as [Hp0 Hp]. unfold frames_bytes in Hc. cbn [map List.concat] in Hc. rewrite <- app_assoc in Hc.
    assert (len p < 2 ^ 32) as Hw by (unfold MaximumStreamFrameBytes in Hp; change (Z.shiftl 64 10) with 65536 in Hp; lia).
    destruct (frame_header _ _ _ _ Hw Hc) as (r & -> & Hr & ->). cbn [nth]. rewrite bool_decide_false, bool_decide_true by done.
    rewrite (proj2 (Z.eqb_neq _ _)), (proj2 (Z.ltb_ge _ _)) by lia. cbn [orb].
    destruct (ReadFull_takes (Z.to_nat (len p)) p ltac:(unfold len; by rewrite Nat2Z.id) r _ Hr) as (r' & -> & Hr' & _).
    assert (p <> []) as Hpn by (intros ->; done). destruct (Htake _ Hpn) as [H1 H2]. unfold copy_out.
    exists (take n p), (drop n p ++ List.concat pieces). eexists. split_and!; [|done|done|reflexivity|].
    + cbn [List.concat]. by rewrite app_assoc, take_drop.
    + by apply delivers_open with pieces.
Qed.

Lemma read_all_delivers n tail fuel : forall c data,
  (0 < n)%nat -> delivers c data true tail -> (List.length data < fuel)%nat ->
  exists c', read_all fuel n c = Some (data, EOF, c') /\ ended c' tail.
Proof.
  induction fuel as [|fuel IH]; intros c data Hn Hd Hf; [lia|]. cbn [read_all].
  destruct (Read_delivers n c data tail Hn Hd) as [(-> & c' & -> & Hd')|(b & rest & c' & -> & Hb & Hl & -> & Hd')]; [eauto|].
  rewrite length_app in Hf. destruct b as [|x b]; [done|]. cbn [List.length] in Hf.
  destruct (IH c' rest Hn Hd') as (c2 & -> & Hd2); [lia|]. cbn. eauto.
Qed.

(** C37 (roundtrip). A direction of a logical stream carries what was written and
    then its end: when the writes of one end and its half-close report no error,
    the other end, however the bytes are cut and whatever buffer it reads with,
    reads the same bytes and then [io.EOF], at every later read too, and leaves
    what follows on the connection. *)
Theorem half_close_roundtrip {W} (write : W -> bytes -> W * Z * option error) (sent : W -> bytes)
    (ops : list write_op) (w : W) (c' : WriteSide W) (r : Reader) (b tail : bytes) (n : nat)
    (Hwriter : writer_ok write sent) (Hrun : run_writes write (ops ++ [CloseWriteOp]) (mkWriteSide w false) = Some (None, c'))
    (Hsent : sent (out c') = sent w ++ b) (Hreader : contents r = b ++ tail) (Hn : (0 < n)%nat) :
  exists d, read_all (S (List.length (payloads ops))) n (mkReadSide r [] false) = Some (payloads ops, EOF, d) /\
    contents (conn d) = tail /\ forall m, (0 < m)%nat -> exists d', Read m d = ([], Some EOF, d').
Proof.
  destruct (run_writes_done write sent Hwriter _ _ _ Hrun eq_refl) as (pieces & HF & Hc & He & Hs). cbn [out] in Hs.
  rewrite bool_decide_true in He by (apply elem_of_app; right; apply list_elem_of_here). rewrite He, Hsent in Hs.
  apply app_inv_head in Hs. unfold payloads in Hc. rewrite map_app, List.concat_app in Hc. cbn [map List.concat payload_of] in Hc. rewrite !app_nil_r in Hc.
  assert (delivers (mkReadSide r [] false) (payloads ops) true tail) as Hd.
  { apply delivers_open with pieces; [done|done|by rewrite Hc|]. cbn [conn]. by rewrite Hreader, Hs, <- app_assoc. }
  destruct (read_all_delivers n tail _ _ _ Hn Hd (Nat.lt_succ_diag_r _)) as (d & E & He1 & He2 & He3). exists d.
  split_and!; [done|done|]. intros [|m] Hm; [lia|]. exists d. unfold Read. by rewrite He2, He1.
Qed.

(** C38 (safety). A half-close is final, whether its frame could be written or not:
    from any connection, after any writes and half-closes, a half-close ends; it
    sends the frame that ends the direction when it reports no error; and every
    later write or half-close takes no byte, reports [io.ErrClosedPipe] and leaves
    the connection as the half-close left it.  All of them end. *)
Theorem closed_direction {W} (write : W -> bytes -> W * Z * option error) (sent : W -> bytes)
    (ops later : list write_op) (c : WriteSide W) (Hwriter : writer_ok write sent) :
  exists before c0 err c1,
    run_each write ops c = Some (before, c0) /\ CloseWrite write c0 = Some (err, c1) /\
    (err = None -> sent (out c1) = sent (out c0) ++ frame_bytes streamFrameFIN []) /\
    run_each write later c1 = Some (replicate (List.length later) (0, Some ErrClosedPipe), c1).
Proof.
  destruct (run_each_some write sent Hwriter ops c) as ((before & c0) & E0).
  destruct (CloseWrite_closes write sent Hwriter c0) as (err & c1 & E1 & Hc & Hs).
  exists before, c0, err, c1. split_and!; [done|done|done|]. by apply run_each_closed.
Qed.

(** ** A concrete stream *)

Definition sample_ops : list write_op := [WriteOp [x61; x62]; WriteOp []; WriteOp [x63]].
Definition sample_stream : bytes := [x01; x00; x00; x00; x02; x61; x62; x01; x00; x00; x00; x01; x63; x02; x00; x00; x00; x00].

Lemma sample_written :
  run_writes trickle_write (sample_ops ++ [CloseWriteOp]) (mkWriteSide [] false) = Some (None, mkWriteSide sample_stream true).
Proof. by vm_compute. Qed.

Example frames_rejected :
  (Read 4 (mkReadSide (mkReader [[x02; x00; x00; x00; x01]] EOF) [] false)).1.2 = Some (NewError "invalid WebSocket stream FIN frame") /\
  (Read 4 (mkReadSide (mkReader [[x01; x00; x01; x00; x01]] EOF) [] false)).1.2 = Some (NewError "invalid WebSocket stream data length 65537") /\
  (Read 4 (mkReadSide (mkReader [[x01; x00; x00; x00; x02]; [x61]] EOF) [] false)).1.2 = Some ErrUnexpectedEOF.
Proof. evaluate. Qed.

Lemma half_close_roundtrip_witness :
  exists d, read_all 4 2 (mkReadSide (mkReader [take 6 sample_stream; []; drop 6 sample_stream; [x2a]] EOF) [] false)
      = Some ([x61; x62; x63], EOF, d) /\
    contents (conn d) = [x2a] /\ forall m, (0 < m)%nat -> exists d', Read m d = ([], Some EOF, d').
Proof.
  exact (half_close_roundtrip trickle_write id sample_ops [] (mkWriteSide sample_stream true)
    (mkReader [take 6 sample_stream; []; drop 6 sample_stream; [x2a]] EOF) sample_stream [x2a] 2
    trickle_writer sample_written eq_refl eq_refl (le_n_S _ _ (Nat.le_0_l 1))).
Defined.

Lemma closed_direction_witness :
  exists before c0 err c1,
    run_each trickle_write sample_ops (mkWriteSide [] false) = Some (before, c0) /\ CloseWrite trickle_write c0 = Some (err, c1) /\
    (err = None -> out c1 = out c0 ++ frame_bytes streamFrameFIN []) /\
    run_each trickle_write (CloseWriteOp :: sample_ops) c1 = Some (replicate 4 (0, Some ErrClosedPipe), c1).
Proof. exact (closed_direction trickle_write id sample_ops (CloseWriteOp :: sample_ops) (mkWriteSide [] false) trickle_writer). Defined.
