(* ===== verification/WssHandshake.v ===== *)
(** * The WebSocket handshake ([internal/protocol/wss])

    Before streams are multiplexed on a WebSocket, the client says what it
    speaks and the Gateway answers with what was chosen, or rejects.  The
    client's side is [internal/client/websocketmux/session.go]. *)

From S2P Require Import Prelude GoLib GoText External Utils ConcreteEnv.

(** ** The protocol ([protocol.go]) *)

Definition Version : string := "2.0".
Definition Subprotocol : string := "kubeloop-mux-v2".
Definition CapabilityTunnelControl : string := "tunnel.control.v2".
Definition CapabilityTrafficWebSocket : string := "traffic.websocket.v1".
Definition CapabilityTrafficEncryption : string := "traffic.noise.v1".
Definition MaximumHandshakeBytes : Z := Z.shiftl 8 10.
Definition DefaultHandshakeTimeout : Duration := 10 * Second.

Definition KindClientHello : string := "client_hello".
Definition KindServerHello : string := "server_hello".
Definition KindReject : string := "reject".

Definition CodeVersionMismatch : string := "VERSION_MISMATCH".
Definition CodeClientVersionUnsupported : string := "CLIENT_VERSION_UNSUPPORTED".
Definition CodeDeviceMismatch : string := "DEVICE_MISMATCH".
Definition CodeInvalidHandshake : string := "INVALID_HANDSHAKE".
Definition CodeEncryptionMismatch : string := "ENCRYPTION_MISMATCH".
Definition CodeUserCapacityExceeded : string := "USER_CAPACITY_EXCEEDED".

Definition ErrInvalidHandshake : error := VarError "wss.ErrInvalidHandshake".

Record ClientHello := mkClientHello {
  ch_Type : string;
  ProtocolVersions : list string;
  ClientVersion : string;
  ch_DeviceID : string;
  ch_Capabilities : list string
}.

Record Limits := mkLimits {
  MaximumFrameBytes : Z;             (* int64 *)
  MaximumStreamFrameBytes : Z;       (* int *)
  MaximumStreamsPerConnection : Z;   (* int *)
  MaximumPhysicalConnections : Z;    (* int *)
  MaximumConnectionsPerUser : Z;     (* int *)
  StreamIdleTimeoutMillis : Z        (* int64 *)
}.

Record ServerHello := mkServerHello {
  sh_Type : string;
  ProtocolVersion : string;
  ServerVersion : string;
  sh_Capabilities : list string;
  sh_Limits : Limits
}.

Record Reject := mkReject {
  rj_Type : string;
  rj_Code : string;
  rj_Message : string;
  SupportedVersions : list string
}.

Record Message := mkMessage {
  m_ClientHello : option ClientHello;
  m_ServerHello : option ServerHello;
  m_Reject : option Reject
}.

#[export] Instance ClientHello_eq_dec : EqDecision ClientHello. Proof. solve_decision. Defined.
#[export] Instance Limits_eq_dec : EqDecision Limits. Proof. solve_decision. Defined.
#[export] Instance ServerHello_eq_dec : EqDecision ServerHello. Proof. solve_decision. Defined.
#[export] Instance Reject_eq_dec : EqDecision Reject. Proof. solve_decision. Defined.
#[export] Instance Message_eq_dec : EqDecision Message. Proof. solve_decision. Defined.

Definition developmentVersion : string := "dev".

Definition all_capabilities : list string :=
  ["cancel"; "half-close"; "ping-pong"; "smux.v2"; CapabilityTrafficWebSocket; CapabilityTrafficEncryption; CapabilityTunnelControl].

Definition default_version (version : string) : string :=
  if bool_decide (TrimSpace version = "") then developmentVersion else version.

Definition NewClientHello (clientVersion deviceID : string) : ClientHello :=
  mkClientHello KindClientHello [Version] (default_version clientVersion) deviceID all_capabilities.

Definition NewServerHello (serverVersion : string) (limits : Limits) : ServerHello :=
  mkServerHello KindServerHello Version (default_version serverVersion) all_capabilities limits.

Definition NewReject (code message : string) (versions : list string) : Reject :=
  mkReject KindReject code message versions.

(** ** Validation ([validation.go]) *)

(** The loops over runes test for ASCII characters only, so they are loops over
    bytes. *)
Definition text_byte (b : byte) : bool := (32 <=? Z_of_byte b) && negb (bool_decide (b = x7f)).

Definition safeText (value : string) (maximum : Z) : bool :=
  negb (bool_decide (value = "")) && negb (maximum <? slen value) && bool_decide (TrimSpace value = value)
  && all_bytes text_byte value.

Definition identifier_byte (b : byte) : bool := is_alnum b || bool_decide (b ∈ string_to_bytes "-._").

Definition safeIdentifier (value : string) (maximum : Z) : bool := safeText value maximum && all_bytes identifier_byte value.

(** [for _, value := range values], with the values seen. *)
Fixpoint check_unique (seen : list string) (values : list string) (maximumLength : Z) : bool :=
  match values with
  | [] => true
  | value :: rest =>
      safeIdentifier value maximumLength && negb (bool_decide (value ∈ seen)) && check_unique (value :: seen) rest maximumLength
  end.

Definition validUniqueIdentifiers (values : list string) (maximumItems maximumLength : Z) : bool :=
  negb ((len values =? 0) || (maximumItems <? len values)) && check_unique [] values maximumLength.

Definition ClientHello_Validate (hello : ClientHello) : result unit :=
  if negb (bool_decide (ch_Type hello = KindClientHello)) || (len (ProtocolVersions hello) =? 0) || (8 <? len (ProtocolVersions hello))
     || negb (safeText (ClientVersion hello) 64) || negb (safeIdentifier (ch_DeviceID hello) 256)
     || negb (validUniqueIdentifiers (ch_Capabilities hello) 32 64)
  then Err ErrInvalidHandshake
  else require (validUniqueIdentifiers (ProtocolVersions hello) 8 16) ErrInvalidHandshake.

Definition valid_limits (l : Limits) : bool :=
  negb ((MaximumFrameBytes l <? MaximumHandshakeBytes) || (Z.shiftl 16 20 <? MaximumFrameBytes l) ||
        (MaximumStreamFrameBytes l <? 1) || (Z.shiftl 1 20 <? MaximumStreamFrameBytes l) ||
        (MaximumStreamsPerConnection l <? 1) || (Z.shiftl 1 20 <? MaximumStreamsPerConnection l) ||
        (MaximumPhysicalConnections l <? 1) || (Z.shiftl 1 20 <? MaximumPhysicalConnections l) ||
        negb ((1 <=? MaximumConnectionsPerUser l) && (MaximumConnectionsPerUser l <=? MaximumPhysicalConnections l)) ||
        (StreamIdleTimeoutMillis l <=? 0) || (24 * Hour / Millisecond <? StreamIdleTimeoutMillis l)).

Definition ServerHello_Validate (hello : ServerHello) : result unit :=
  require (bool_decide (sh_Type hello = KindServerHello) && safeIdentifier (ProtocolVersion hello) 16 &&
           safeText (ServerVersion hello) 64 && validUniqueIdentifiers (sh_Capabilities hello) 32 64 && valid_limits (sh_Limits hello))
    ErrInvalidHandshake.

Definition Reject_Validate (reject : Reject) : result unit :=
  require (bool_decide (rj_Type reject = KindReject) && safeIdentifier (rj_Code reject) 64 && safeText (rj_Message reject) 256 &&
           negb ((0 <? len (SupportedVersions reject)) && negb (validUniqueIdentifiers (SupportedVersions reject) 8 16)))
    ErrInvalidHandshake.

(** [for _, supported := range server] *)
Fixpoint first_supported (client server : list string) : option string :=
  match server with
  | [] => None
  | supported :: rest => if bool_decide (supported ∈ client) then Some supported else first_supported client rest
  end.

Definition Negotiate (client server : list string) : result string :=
  if negb (validUniqueIdentifiers client 8 16) || negb (validUniqueIdentifiers server 8 16) then Err ErrInvalidHandshake
  else match first_supported client server with
       | Some version => Ok version
       | None => Err (NewError CodeVersionMismatch)
       end.

(** [hashicorp/go-version]. *)
Class VersionPackage := {
  version_t : Type;
  version_NewVersion : string -> option version_t;
  version_LessThan : version_t -> version_t -> bool
}.

Definition TrimPrefix (s prefix : string) : string :=
  match strip_prefix (string_to_bytes prefix) (string_to_bytes s) with
  | Some rest => bytes_to_string rest
  | None => s
  end.

Definition CheckClientVersion `{VersionPackage} (current minimum : string) : result unit :=
  let current := TrimSpace current in
  let minimum := TrimSpace minimum in
  if bool_decide (minimum = "") || bool_decide (current = "dev") then Ok tt
  else match version_NewVersion (TrimPrefix current "v"), version_NewVersion (TrimPrefix minimum "v") with
       | Some c, Some m => require (negb (version_LessThan c m)) (NewError CodeClientVersionUnsupported)
       | _, _ => Err (NewError CodeClientVersionUnsupported)
       end.

(** ** Encoding ([codec.go]) *)

(** What [Encode] is given: a message, or a nil pointer or a value of another
    type. *)
Inductive outgoing :=
| OutClientHello (hello : ClientHello)
| OutServerHello (hello : ServerHello)
| OutReject (reject : Reject)
| OutOther.

Definition validateMessage (message : outgoing) : result unit :=
  match message with
  | OutClientHello hello => ClientHello_Validate hello
  | OutServerHello hello => ServerHello_Validate hello
  | OutReject reject => Reject_Validate reject
  | OutOther => Err ErrInvalidHandshake
  end.

(** [json.Unmarshal] into [struct { Type string }]. *)
Class EnvelopeCodec := { json_UnmarshalType : bytes -> option string }.

Section codec.
Context `{JC : JsonCodec ClientHello} `{JS : JsonCodec ServerHello} `{JR : JsonCodec Reject} `{EC : EnvelopeCodec}.

Definition marshal (message : outgoing) : bytes :=
  match message with
  | OutClientHello hello => json_Marshal hello
  | OutServerHello hello => json_Marshal hello
  | OutReject reject => json_Marshal reject
  | OutOther => []
  end.

Definition Encode (message : outgoing) : result bytes :=
  _ ← validateMessage message;
  let raw := marshal message in
  if MaximumHandshakeBytes <? len raw then Err ErrInvalidHandshake else Ok raw.

(** A document of one type that decodes strictly and is valid. *)
Definition decode_as {A} `{JsonCodec A} (validate : A -> result unit) (raw : bytes) : result A :=
  match DecodeStrictJSON raw with
  | Some hello => if is_ok (validate hello) then Ok hello else Err ErrInvalidHandshake
  | None => Err ErrInvalidHandshake
  end.

Definition Decode (raw : bytes) : result Message :=
  if (len raw =? 0) || (MaximumHandshakeBytes <? len raw) then Err ErrInvalidHandshake
  else match json_UnmarshalType raw with
       | None => Err ErrInvalidHandshake
       | Some kind =>
           if bool_decide (kind = KindClientHello) then
             hello ← decode_as ClientHello_Validate raw; Ok (mkMessage (Some hello) None None)
           else if bool_decide (kind = KindServerHello) then
             hello ← decode_as ServerHello_Validate raw; Ok (mkMessage None (Some hello) None)
           else if bool_decide (kind = KindReject) then
             reject ← decode_as Reject_Validate raw; Ok (mkMessage None None (Some reject))
           else Err ErrInvalidHandshake
       end.
End codec.

(** ** The client's side ([client/websocketmux/session.go]) *)

Record ClientConfig := mkClientConfig {
  cc_ClientVersion : string;
  cc_DeviceID : string;
  cc_SupportedVersions : list string;
  cc_MaxStreamsPerConn : Z;
  cc_TrafficEncryption : option bool
}.

Definition without (capability : string) (capabilities : list string) : list string :=
  filter (fun value => value <> capability) capabilities.

(** The hello of [dial]. *)
Definition client_hello (config : ClientConfig) : ClientHello :=
  let hello := NewClientHello (cc_ClientVersion config) (cc_DeviceID config) in
  let capabilities := match cc_TrafficEncryption config with
                      | Some false => without CapabilityTrafficEncryption (ch_Capabilities hello)
                      | _ => ch_Capabilities hello
                      end in
  mkClientHello (ch_Type hello) (cc_SupportedVersions config) (ClientVersion hello) (ch_DeviceID hello) capabilities.

Inductive client_verdict :=
| Rejected (reject : Reject)
| Incompatible
| Connected (maximumStreams maximumPerUser maximumFrameBytes : Z).

Definition encryption_enabled (config : ClientConfig) : bool := default true (cc_TrafficEncryption config).

(** What [dial] makes of the Gateway's answer. *)
Definition client_accept (config : ClientConfig) (message : Message) : client_verdict :=
  match m_Reject message with
  | Some reject => Rejected reject
  | None =>
      match m_ServerHello message with
      | None => Incompatible
      | Some hello =>
          if negb (bool_decide (ProtocolVersion hello ∈ ProtocolVersions (client_hello config))) ||
             negb (bool_decide ("smux.v2" ∈ sh_Capabilities hello)) ||
             negb (bool_decide (CapabilityTunnelControl ∈ sh_Capabilities hello)) ||
             negb (bool_decide (CapabilityTrafficWebSocket ∈ sh_Capabilities hello)) ||
             negb (bool_decide (bool_decide (CapabilityTrafficEncryption ∈ sh_Capabilities hello) = encryption_enabled config))
          then Incompatible
          else Connected (Z.min (cc_MaxStreamsPerConn config) (MaximumStreamsPerConnection (sh_Limits hello)))
                 (MaximumConnectionsPerUser (sh_Limits hello)) (MaximumFrameBytes (sh_Limits hello))
      end
  end.

(** ** Properties *)

Lemma first_supported_spec client server v :
  first_supported client server = Some v <->
  exists before after, server = before ++ v :: after /\ v ∈ client /\ Forall (fun u => u ∉ client) before.
Proof.
  induction server as [|u server IH]; cbn [first_supported].
  - split; [done|]. by intros ([|] & ? & ? & _).
  - case_bool_decide as Hu.
    + split; [intros [= <-]; by exists [], server|].
      intros ([|x before] & after & [= -> ->] & _ & HF); [done|]. by inversion_clear HF.
    + rewrite IH. split.
      * intros (before & after & -> & Hv & HF). exists (u :: before), after. split_and!; [done|done|by constructor].
      * intros ([|x before] & after & [= -> ->] & Hv & HF); [done|]. inversion_clear HF. eauto.
Qed.

Lemma first_supported_none client server : first_supported client server = None <-> Forall (fun u => u ∉ client) server.
Proof.
  induction server as [|u server IH]; cbn [first_supported]; [done|]. rewrite Forall_cons.
  case_bool_decide as Hu; [split; [done|by intros []]|]. rewrite IH. naive_solver.
Qed.

(** [Negotiate] answers for valid lists only, and then chooses
    the first of the server's versions that the client speaks; it reports a
    mismatch exactly when they share none. *)
Theorem negotiate_first_shared (client server : list string) :
  (forall v, Negotiate client server = Ok v <->
    validUniqueIdentifiers client 8 16 = true /\ validUniqueIdentifiers server 8 16 = true /\
    exists before after, server = before ++ v :: after /\ v ∈ client /\ Forall (fun u => u ∉ client) before) /\
  (Negotiate client server = Err (NewError CodeVersionMismatch) <->
    validUniqueIdentifiers client 8 16 = true /\ validUniqueIdentifiers server 8 16 = true /\ Forall (fun u => u ∉ client) server).
Proof.
  unfold Negotiate. destruct (validUniqueIdentifiers client 8 16), (validUniqueIdentifiers server 8 16); cbn [negb orb].
  2-4: split; try (intros v); split; try discriminate; intros (? & ? & _); discriminate.
  split.
  - intros v. rewrite <- first_supported_spec. destruct (first_supported client server); naive_solver.
  - rewrite <- first_supported_none. destruct (first_supported client server); naive_solver.
Qed.

Lemma negotiate_first_shared_version client server v :
  Negotiate client server = Ok v -> first_supported client server = Some v.
Proof. unfold Negotiate. destruct (_ || _); [discriminate|]. destruct (first_supported _ _); congruence. Qed.

Definition message_of (m : outgoing) : Message :=
  match m with
  | OutClientHello hello => mkMessage (Some hello) None None
  | OutServerHello hello => mkMessage None (Some hello) None
  | OutReject reject => mkMessage None None (Some reject)
  | OutOther => mkMessage None None None
  end.

Definition kind_of (m : outgoing) : string :=
  match m with
  | OutClientHello hello => ch_Type hello
  | OutServerHello hello => sh_Type hello
  | OutReject reject => rj_Type reject
  | OutOther => ""
  end.

Section roundtrip.
Context `{JC : JsonCodec ClientHello} `{JS : JsonCodec ServerHello} `{JR : JsonCodec Reject} `{EC : EnvelopeCodec}.

(** What [encoding/json] does with the document of a message: the type is found,
    and the document decodes to the message. *)
Definition document_of (m : outgoing) : Prop :=
  marshal m <> [] /\ json_UnmarshalType (marshal m) = Some (kind_of m) /\
  match m with
  | OutClientHello hello => json_Decode (marshal m) = Some (hello, [])
  | OutServerHello hello => json_Decode (marshal m) = Some (hello, [])
  | OutReject reject => json_Decode (marshal m) = Some (reject, [])
  | OutOther => True
  end.

Lemma valid_kind m :
  validateMessage m = Ok tt ->
  match m with
  | OutClientHello _ => kind_of m = KindClientHello
  | OutServerHello _ => kind_of m = KindServerHello
  | OutReject _ => kind_of m = KindReject
  | OutOther => False
  end.
Proof.
  destruct m as [hello|hello|reject|]; cbn [validateMessage kind_of]; [unfold ClientHello_Validate|unfold ServerHello_Validate|unfold Reject_Validate|done];
    intros E; inv_ok; by bool_hyps.
Qed.

Lemma decode_as_ok {A} `{JsonCodec A} (validate : A -> result unit) raw a :
  json_Decode raw = Some (a, []) -> validate a = Ok tt -> decode_as validate raw = Ok a.
Proof. intros Hd Hv. unfold decode_as. by rewrite (DecodeStrictJSON_whole _ _ Hd), Hv. Qed.

Lemma decode_encoded_message m raw : Encode m = Ok raw -> document_of m -> Decode raw = Ok (message_of m).
Proof.
  unfold Encode. intros E (Hne & Hk & Hd). inv_ok. bool_hyps. unfold Decode.
  rewrite (proj2 (Z.eqb_neq _ _)) by (by intros ?%len_zero). rewrite (proj2 (Z.ltb_ge _ _)) by done. cbn [orb]. rewrite Hk.
  pose proof (valid_kind m ltac:(eassumption)) as Hkind.
  destruct m as [hello|hello|reject|]; [| | |done]; rewrite Hkind; repeat (rewrite bool_decide_true by done || rewrite bool_decide_false by done);
    rewrite (decode_as_ok _ _ _ Hd) by done; done.
Qed.

Lemma decoded_valid raw m :
  Decode raw = Ok m -> exists out, m = message_of out /\ validateMessage out = Ok tt.
Proof.
  unfold Decode. intros E. inv_ok. destruct (json_UnmarshalType raw) as [kind|]; [|discriminate].
  assert (forall A `{JsonCodec A} (validate : A -> result unit) a, decode_as validate raw = Ok a -> validate a = Ok tt) as Hv.
  { intros A ? validate a. unfold decode_as. destruct (DecodeStrictJSON raw) as [b|]; [|discriminate].
    destruct (validate b) as [[]|] eqn:Eb; cbn [is_ok]; [|discriminate]. by intros [= <-]. }
  repeat case_bool_decide; [| | |discriminate E]; inv_ok; [eexists (OutClientHello _)|eexists (OutServerHello _)|eexists (OutReject _)]; (split; [reflexivity|]); cbn [validateMessage]; by eapply Hv.
Qed.

(** A message of the handshake that is sent is the message
    received: what [Encode] writes, [Decode] reads back; and every message that
    is decoded is valid and of exactly one kind, and both refuse documents above
    8 KiB. *)
Theorem handshake_roundtrip (m : outgoing) (raw : bytes) (Hencode : Encode m = Ok raw) (Hjson : document_of m) :
  Decode raw = Ok (message_of m) /\ len raw <= MaximumHandshakeBytes /\
  forall other m', Decode other = Ok m' -> len other <= MaximumHandshakeBytes /\ exists out, m' = message_of out /\ validateMessage out = Ok tt.
Proof.
  split; [by apply decode_encoded_message|]. split.
  - unfold Encode in Hencode. inv_ok. by bool_hyps.
  - intros other m' E. split; [|by eapply decoded_valid]. unfold Decode in E. inv_ok. by bool_hyps.
Qed.
End roundtrip.

(** ** A concrete message *)

Definition ser_client_hello : Ser ClientHello.
Proof.
  refine (ser_image (ser_pair (ser_pair ser_string (ser_list ser_string)) (ser_pair (ser_pair ser_string ser_string) (ser_list ser_string)))
    (fun h => ((ch_Type h, ProtocolVersions h), ((ClientVersion h, ch_DeviceID h), ch_Capabilities h)))
    (fun t => mkClientHello t.1.1 t.1.2 t.2.1.1 t.2.1.2 t.2.2) _).
  by intros [].
Defined.

#[export] Instance sample_client_codec : JsonCodec ClientHello := ser_codec ser_client_hello.
#[export] Instance no_server_codec : JsonCodec ServerHello := {| json_Marshal := fun _ => []; json_Decode := fun _ => None |}.
#[export] Instance no_reject_codec : JsonCodec Reject := {| json_Marshal := fun _ => []; json_Decode := fun _ => None |}.
#[export] Instance sample_envelope : EnvelopeCodec :=
  {| json_UnmarshalType := fun raw => match json_Decode (A := ClientHello) raw with Some (h, _) => Some (ch_Type h) | None => None end |}.

Definition sample_client_message : outgoing := OutClientHello (NewClientHello "" "device-1").

Lemma sample_encoded : Encode sample_client_message = Ok (marshal sample_client_message).
Proof. by vm_compute. Qed.

Lemma sample_document : document_of sample_client_message.
Proof. split_and!; [by vm_compute..|]. apply (ser_codec_roundtrip ser_client_hello). Qed.

Example invalid_handshakes :
  Encode OutOther = Err ErrInvalidHandshake /\ Encode (OutClientHello (NewClientHello "1.0.0" "")) = Err ErrInvalidHandshake /\
  Decode [] = Err ErrInvalidHandshake /\ Negotiate ["1.0"] ["2.0"] = Err (NewError "VERSION_MISMATCH") /\
  Negotiate ["2.0"; "2.0"] ["2.0"] = Err ErrInvalidHandshake /\ Negotiate ["1.0"; "2.0"; "3.0"] ["3.0"; "2.0"] = Ok "3.0".
Proof. evaluate. Qed.

Lemma handshake_roundtrip_witness :
  Decode (marshal sample_client_message) = Ok (message_of sample_client_message) /\ len (marshal sample_client_message) <= MaximumHandshakeBytes /\
  forall other m', Decode other = Ok m' -> len other <= MaximumHandshakeBytes /\ exists out, m' = message_of out /\ validateMessage out = Ok tt.
Proof. exact (handshake_roundtrip sample_client_message (marshal sample_client_message) sample_encoded sample_document). Defined.
