(* ===== verification/GatewaySessions.v ===== *)
(** * WebSocket sessions of the Gateway ([internal/gateway/websocketmux])

    Every WebSocket that a client opens is a goroutine that passes through
    admission (ticket, generation, session limit, handshake, per-user limit),
    serves logical streams, and gives back what it took.  The goroutines share
    the counters of the handler; each access is a step, and the steps of
    different connections interleave in any order. *)

From S2P Require Import Prelude GoLib GoText External Utils WssHandshake.

(** ** Data ([server.go], [config.go]) *)

Record Identity := mkIdentity {
  RequestID : string;
  IdentityID : string;
  Groups : list string;
  DeviceID : string;
  SessionID : string;
  SessionGeneration : Z;          (* uint64 *)
  TicketID : string;
  Namespace : string;
  NetworkSpecHash : string;
  ExpiresAt : time;
  TrafficEncryption : option bool;
  NoisePublicKey : string
}.

#[export] Instance Identity_eq_dec : EqDecision Identity. Proof. solve_decision. Defined.

(** The flags say whether [Authenticator] and [Handle] are set. *)
Record ServerConfig := mkServerConfig {
  cfg_HasAuthenticator : bool;
  MaxSessions : Z;
  MaxStreamsPerSession : Z;
  MaxSessionsPerUser : Z;
  MaxFrameBytes : Z;
  StreamIdleTimeout : Duration;
  HandshakeTimeout : Duration;
  cfg_ServerVersion : string;
  MinClientVersion : string;
  cfg_SupportedVersions : list string;
  cfg_TrafficEncryption : option bool;
  cfg_NoisePublicKey : string;
  cfg_HasHandle : bool
}.

Record activeGeneration := mkActiveGeneration { latest : Z; sessions : Z }.

(** [limit] is the number of values in the channel of capacity [MaxSessions]. *)
Record Handler := mkHandler {
  config : ServerConfig;
  limit : Z;
  draining : bool;
  generations : gmap string activeGeneration;
  userSessions : gmap string Z;
  legacyUnpinnedEncryption : bool
}.

Definition defaultMaxStreams : Z := 128.
Definition defaultStreamIdleTimeout : Duration := 30 * Minute.
Definition maxStreamIdleTimeout : Duration := 24 * Hour.

Definition or_default (value fallback : Z) : Z := if value <=? 0 then fallback else value.

Definition NewHandler (c : ServerConfig) : result Handler :=
  _ ← require (cfg_HasAuthenticator c) (NewError "gateway WebSocket authenticator is required");
  let legacy := bool_decide (cfg_TrafficEncryption c = None) in
  let encryption := default true (cfg_TrafficEncryption c) in
  _ ← (if encryption then
         require (negb (bool_decide (cfg_NoisePublicKey c = "") && negb legacy)) (NewError "gateway Noise public key is required")
       else require (bool_decide (cfg_NoisePublicKey c = "")) (NewError "gateway Noise public key requires traffic encryption"));
  _ ← require (cfg_HasHandle c) (NewError "gateway stream handler is required");
  let maxSessions := or_default (MaxSessions c) 256 in
  let maxStreams := or_default (MaxStreamsPerSession c) defaultMaxStreams in
  let maxPerUser := or_default (MaxSessionsPerUser c) 8 in
  _ ← require (negb (maxSessions <? maxPerUser)) (NewError "gateway per-user session limit exceeds the global limit");
  let maxFrame := if MaxFrameBytes c =? 0 then Z.shiftl 1 20 else MaxFrameBytes c in
  _ ← require (negb ((maxFrame <? MaximumHandshakeBytes) || (Z.shiftl 16 20 <? maxFrame)))
        (NewError "gateway WebSocket frame limit is invalid");
  let handshakeTimeout := or_default (HandshakeTimeout c) DefaultHandshakeTimeout in
  _ ← require (negb (Minute <? handshakeTimeout)) (NewError "gateway WSS handshake timeout must not exceed one minute");
  let versions := if len (cfg_SupportedVersions c) =? 0 then [Version] else cfg_SupportedVersions c in
  _ ← require (bool_decide (versions = [Version])) (NewError "gateway WSS protocol versions are invalid");
  let idle := or_default (StreamIdleTimeout c) defaultStreamIdleTimeout in
  _ ← require (negb (maxStreamIdleTimeout <? idle)) (NewError "gateway stream idle timeout must not exceed 24 hours");
  Ok (mkHandler
        (mkServerConfig true maxSessions maxStreams maxPerUser maxFrame idle handshakeTimeout (cfg_ServerVersion c) (MinClientVersion c)
           versions (Some encryption) (cfg_NoisePublicKey c) true)
        0 false ∅ ∅ legacy).

(** ** The shared counters ([admission.go]) *)

Definition set_generations (h : Handler) (m : gmap string activeGeneration) : Handler :=
  mkHandler (config h) (limit h) (draining h) m (userSessions h) (legacyUnpinnedEncryption h).
Definition set_userSessions (h : Handler) (m : gmap string Z) : Handler :=
  mkHandler (config h) (limit h) (draining h) (generations h) m (legacyUnpinnedEncryption h).
Definition set_limit (h : Handler) (n : Z) : Handler :=
  mkHandler (config h) n (draining h) (generations h) (userSessions h) (legacyUnpinnedEncryption h).

Definition BeginDrain (h : Handler) : Handler :=
  mkHandler (config h) (limit h) true (generations h) (userSessions h) (legacyUnpinnedEncryption h).
Definition Draining (h : Handler) : bool := draining h.
Definition ActiveSessions (h : Handler) : Z := limit h.

(** A missing entry reads as the zero value. *)
Definition generation_of (h : Handler) (session : string) : activeGeneration :=
  default (mkActiveGeneration 0 0) (generations h !! session).
Definition user_count (h : Handler) (user : string) : Z := default 0 (userSessions h !! user).

Definition acquireGeneration (h : Handler) (identity : Identity) : bool * Handler :=
  let current := generation_of h (SessionID identity) in
  if SessionGeneration identity <? latest current then (false, h)
  else
    let latest' := if latest current <? SessionGeneration identity then SessionGeneration identity else latest current in
    (true, set_generations h (<[SessionID identity := mkActiveGeneration latest' (sessions current + 1)]> (generations h))).

Definition releaseGeneration (h : Handler) (identity : Identity) : Handler :=
  let current := generation_of h (SessionID identity) in
  let left := sessions current - 1 in
  if left <=? 0 then set_generations h (delete (SessionID identity) (generations h))
  else set_generations h (<[SessionID identity := mkActiveGeneration (latest current) left]> (generations h)).

Definition generationCurrent (h : Handler) (identity : Identity) : bool :=
  latest (generation_of h (SessionID identity)) <=? SessionGeneration identity.

Definition acquireUser (h : Handler) (identity : Identity) : bool * Handler :=
  let key := IdentityID identity in
  if MaxSessionsPerUser (config h) <=? user_count h key then (false, h)
  else (true, set_userSessions h (<[key := user_count h key + 1]> (userSessions h))).

Definition releaseUser (h : Handler) (identity : Identity) : Handler :=
  let key := IdentityID identity in
  if user_count h key <=? 1 then set_userSessions h (delete key (userSessions h))
  else set_userSessions h (<[key := user_count h key - 1]> (userSessions h)).

(** [select { case h.limit <- struct{}{}: ... default: ... }] *)
Definition acquireSlot (h : Handler) : bool * Handler :=
  if limit h <? MaxSessions (config h) then (true, set_limit h (limit h + 1)) else (false, h).

(** ** Decisions of [ServeHTTP] ([handler.go]) *)

Definition StatusUnauthorized : Z := 401.
Definition StatusMethodNotAllowed : Z := 405.
Definition StatusServiceUnavailable : Z := 503.

(** [authenticated] is the authenticator's answer. *)
Definition admission (h : Handler) (method : string) (authenticated : result Identity) (now : time) : Z + Identity :=
  if draining h then inl StatusServiceUnavailable
  else if negb (bool_decide (method = "GET")) then inl StatusMethodNotAllowed
  else match authenticated with
       | Err _ => inl StatusUnauthorized
       | Ok identity =>
           if bool_decide (IdentityID identity = "") || bool_decide (DeviceID identity = "") || bool_decide (SessionID identity = "")
              || (SessionGeneration identity =? 0) || negb (After (ExpiresAt identity) now)
           then inl StatusUnauthorized else inr identity
       end.

Definition set_RequestID (identity : Identity) (requestID : string) : Identity :=
  mkIdentity requestID (IdentityID identity) (Groups identity) (DeviceID identity) (SessionID identity) (SessionGeneration identity)
    (TicketID identity) (Namespace identity) (NetworkSpecHash identity) (ExpiresAt identity) (TrafficEncryption identity)
    (NoisePublicKey identity).

Definition enabled (value : option bool) : bool := default false value.

Definition trafficEncryptionMatches (h : Handler) (identity : Identity) (capabilities : list string) : bool * bool :=
  let configured := enabled (cfg_TrafficEncryption (config h)) in
  let ticket := if legacyUnpinnedEncryption h && bool_decide (TrafficEncryption identity = None) then true
                else enabled (TrafficEncryption identity) in
  let client := bool_decide (CapabilityTrafficEncryption ∈ capabilities) in
  let keyMatches := negb configured || legacyUnpinnedEncryption h
                    || bool_decide (NoisePublicKey identity = cfg_NoisePublicKey (config h)) in
  (configured, Bool.eqb configured ticket && Bool.eqb client configured && keyMatches).

Definition requiredCapabilitiesPresent (capabilities : list string) : bool :=
  bool_decide ("smux.v2" ∈ capabilities) && bool_decide (CapabilityTunnelControl ∈ capabilities)
  && bool_decide (CapabilityTrafficWebSocket ∈ capabilities).

(** [shared.MaximumStreamFrameBytes]. *)
Definition streamFrameBytes : Z := Z.shiftl 64 10.

Definition server_hello (h : Handler) (selectedVersion : string) (configuredEncryption : bool) : ServerHello :=
  let c := config h in
  let hello := NewServerHello (cfg_ServerVersion c)
    (mkLimits (MaxFrameBytes c) streamFrameBytes (MaxStreamsPerSession c) (MaxSessions c) (MaxSessionsPerUser c)
       (Z.quot (StreamIdleTimeout c) Millisecond)) in
  mkServerHello (sh_Type hello) selectedVersion (ServerVersion hello)
    (if configuredEncryption then sh_Capabilities hello else without CapabilityTrafficEncryption (sh_Capabilities hello))
    (sh_Limits hello).

(** What the Gateway makes of the client's first message. *)
Definition handshake `{VersionPackage} (h : Handler) (identity : Identity) (message : result Message) : Reject + ServerHello :=
  match message with
  | Ok (mkMessage (Some hello) _ _) =>
      match Negotiate (ProtocolVersions hello) (cfg_SupportedVersions (config h)) with
      | Err _ => inl (NewReject CodeVersionMismatch "No compatible WSS protocol version" (cfg_SupportedVersions (config h)))
      | Ok selectedVersion =>
          match CheckClientVersion (ClientVersion hello) (MinClientVersion (config h)) with
          | Err _ => inl (NewReject CodeClientVersionUnsupported "Client version is not supported" [])
          | Ok _ =>
              if negb (bool_decide (ch_DeviceID hello = DeviceID identity))
              then inl (NewReject CodeDeviceMismatch "Device does not match RelayTicket" [])
              else
                let '(configuredEncryption, encryptionMatches) := trafficEncryptionMatches h identity (ch_Capabilities hello) in
                if negb encryptionMatches
                then inl (NewReject CodeEncryptionMismatch
                            "Traffic encryption negotiation does not match Control Plane and Gateway policy" [])
                else if negb (requiredCapabilitiesPresent (ch_Capabilities hello))
                then inl (NewReject CodeInvalidHandshake "Required capabilities are missing" [])
                else inr (server_hello h selectedVersion configuredEncryption)
          end
      end
  | _ => inl (NewReject CodeInvalidHandshake "ClientHello is invalid" [])
  end.

(** The calls of [SetReadLimit] until a connection serves streams: by
    [ServeHTTP], and by [NewWebSocketConn]; the last one is in force. *)
Definition gateway_read_limits (h : Handler) : list Z := [MaximumHandshakeBytes; MaxFrameBytes (config h); 0].
Definition client_read_limits (hello : ServerHello) : list Z := [MaximumHandshakeBytes; 0; MaximumFrameBytes (sh_Limits hello)].

(** ** A connection *)

(** What the deferred calls still have to give back, innermost first. *)
Inductive holding := HoldsUser | HoldsSlot | HoldsGeneration.

(** Where the goroutine of a connection is.  [slots] is the number of values in
    its channel of streams; [checking] says that one of them was just sent for a
    stream whose generation is not checked yet. *)
Inductive phase :=
| Arrived
| Authenticated (i : Identity)
| Counted (i : Identity)
| Upgrading (i : Identity)
| Accepted (i : Identity) (hello : ServerHello)
| Greeting (i : Identity) (hello : ServerHello)
| Serving (i : Identity) (slots : Z) (checking : bool)
| Closing (i : Identity) (slots : Z)
| Leaving (i : Identity) (held : holding)
| Finished.

(** What a connection meets: answers from outside, or [EvGo] when it goes on by
    itself. *)
Inductive event :=
| EvRequest (method : string) (authenticated : result Identity) (requestID : string) (now : time)
| EvUpgraded (ok : bool)              (* upgrade and subprotocol *)
| EvMessage (message : result Message)
| EvSent (ok : bool)                  (* the answer, and the multiplexer *)
| EvStream
| EvStreamEnds
| EvSessionEnds
| EvGo.

Section connections.
Context `{VersionPackage}.

(** One step of [ServeHTTP]; [None] when the connection does not wait for the
    event.  A stream that finds no slot, and one of an old generation, is
    closed. *)
Definition next (h : Handler) (p : phase) (e : event) : option (Handler * phase) :=
  match p, e with
  | Arrived, EvRequest method authenticated requestID now =>
      match admission h method authenticated now with
      | inl _ => Some (h, Finished)
      | inr who => Some (h, Authenticated (set_RequestID who requestID))
      end
  | Authenticated i, EvGo =>
      let '(acquired, h') := acquireGeneration h i in
      Some (h', if acquired : bool then Counted i else Finished)
  | Counted i, EvGo =>
      let '(acquired, h') := acquireSlot h in
      Some (h', if acquired : bool then Upgrading i else Leaving i HoldsGeneration)
  | Upgrading i, EvUpgraded false => Some (h, Leaving i HoldsSlot)
  | Upgrading i, EvMessage message =>
      match handshake h i message with
      | inl _ => Some (h, Leaving i HoldsSlot)
      | inr hello => Some (h, Accepted i hello)
      end
  | Accepted i hello, EvGo =>
      let '(acquired, h') := acquireUser h i in
      Some (h', if acquired : bool then Greeting i hello else Leaving i HoldsSlot)
  | Greeting i hello, EvSent ok => Some (h, if ok : bool then Serving i 0 false else Leaving i HoldsUser)
  | Serving i slots false, EvStream =>
      Some (h, if slots <? MaxStreamsPerSession (config h) then Serving i (slots + 1) true else Serving i slots false)
  | Serving i slots true, EvGo =>
      Some (h, Serving i (if generationCurrent h i then slots else slots - 1) false)
  | Serving i slots checking, EvStreamEnds =>
      if (if checking : bool then 1 else 0) <? slots then Some (h, Serving i (slots - 1) checking) else None
  | Serving i slots false, EvSessionEnds => Some (h, Closing i slots)
  | Closing i slots, EvStreamEnds => if 0 <? slots then Some (h, Closing i (slots - 1)) else None
  | Closing i slots, EvGo => if slots =? 0 then Some (h, Leaving i HoldsUser) else None
  | Leaving i HoldsUser, EvGo => Some (releaseUser h i, Leaving i HoldsSlot)
  | Leaving i HoldsSlot, EvGo => Some (set_limit h (limit h - 1), Leaving i HoldsGeneration)
  | Leaving i HoldsGeneration, EvGo => Some (releaseGeneration h i, Finished)
  | _, _ => None
  end.

(** ** The system *)

Record System := mkSystem { handler : Handler; connections : gmap nat phase }.

Inductive system_event :=
| Opens (id : nat)
| Meets (id : nat) (e : event)
| Drains.

Definition run_event (s : System) (e : system_event) : option System :=
  match e with
  | Opens id =>
      match connections s !! id with
      | None => Some (mkSystem (handler s) (<[id := Arrived]> (connections s)))
      | Some _ => None
      end
  | Meets id e =>
      p ← connections s !! id;
      '(h, p') ← next (handler s) p e;
      Some (mkSystem h (<[id := p']> (connections s)))
  | Drains => Some (mkSystem (BeginDrain (handler s)) (connections s))
  end.

Fixpoint run_events (s : System) (es : list system_event) : option System :=
  match es with
  | [] => Some s
  | e :: rest => s' ← run_event s e; run_events s' rest
  end.

(** A handler as it was created, and whatever happened since. *)
Inductive reachable (c : ServerConfig) : System -> Prop :=
| reachable_new h : NewHandler c = Ok h -> reachable c (mkSystem h ∅)
| reachable_step s e s' : reachable c s -> run_event s e = Some s' -> reachable c s'.

(** ** What a connection holds *)

Definition generation_held (p : phase) : option Identity :=
  match p with
  | Counted i | Upgrading i | Accepted i _ | Greeting i _ | Serving i _ _ | Closing i _ | Leaving i _ => Some i
  | _ => None
  end.
Definition slot_held (p : phase) : bool :=
  match p with
  | Upgrading _ | Accepted _ _ | Greeting _ _ | Serving _ _ _ | Closing _ _ | Leaving _ HoldsUser | Leaving _ HoldsSlot => true
  | _ => false
  end.
Definition user_held (p : phase) : option Identity :=
  match p with
  | Greeting i _ | Serving i _ _ | Closing i _ | Leaving i HoldsUser => Some i
  | _ => None
  end.
Definition in_session (session : string) (p : phase) : bool :=
  match generation_held p with Some i => bool_decide (SessionID i = session) | None => false end.
Definition of_user (user : string) (p : phase) : bool :=
  match user_held p with Some i => bool_decide (IdentityID i = user) | None => false end.

Definition streams_ok (maximum : Z) (p : phase) : Prop :=
  match p with
  | Serving _ slots checking => (if checking then 1 else 0) <= slots <= maximum
  | Closing _ slots => 0 <= slots <= maximum
  | _ => True
  end.

(** The counters of the handler are the numbers of connections that hold
    something, within the limits of the configuration; the latest generation of
    a session is at least that of every connection counted for it. *)
Record accounted (s : System) : Prop := {
  acc_slots : limit (handler s) = map_count slot_held (connections s) /\ limit (handler s) <= MaxSessions (config (handler s));
  acc_users : forall user, user_count (handler s) user = map_count (of_user user) (connections s) /\
    user_count (handler s) user <= MaxSessionsPerUser (config (handler s)) /\
    (forall n, userSessions (handler s) !! user = Some n -> 0 < n);
  acc_generations : forall session,
    sessions (generation_of (handler s) session) = map_count (in_session session) (connections s) /\
    (forall g, generations (handler s) !! session = Some g -> 0 < sessions g) /\
    (forall id p i, connections s !! id = Some p -> generation_held p = Some i -> SessionID i = session ->
       SessionGeneration i <= latest (generation_of (handler s) session));
  acc_streams : map_Forall (fun _ p => streams_ok (MaxStreamsPerSession (config (handler s))) p) (connections s);
  acc_config : 0 < MaxSessions (config (handler s)) /\ 0 < MaxSessionsPerUser (config (handler s)) /\ 0 < MaxStreamsPerSession (config (handler s))
}.
End connections.

(** ** The counters are exact *)

Definition one (b : bool) : Z := if b then 1 else 0.

Lemma acquireUser_ok h i h' :
  acquireUser h i = (true, h') ->
  config h' = config h /\ limit h' = limit h /\ generations h' = generations h /\
  (forall user, user_count h' user = user_count h user + one (bool_decide (IdentityID i = user))) /\
  user_count h (IdentityID i) < MaxSessionsPerUser (config h) /\
  (forall user n, userSessions h' !! user = Some n -> userSessions h !! user = Some n \/ user = IdentityID i /\ n = user_count h user + 1).
Proof.
  unfold acquireUser. destruct (Z.leb_spec (MaxSessionsPerUser (config h)) (user_count h (IdentityID i))); [discriminate|]. intros [= <-].
  split_and!; try done; cbn [set_userSessions userSessions].
  - intros user. unfold user_count, one. cbn [set_userSessions userSessions]. case_bool_decide as E.
    + subst user. by rewrite lookup_insert_eq.
    + rewrite lookup_insert_ne by done. lia.
  - intros user n. rewrite lookup_insert_Some. intros [[<- <-]|[_ ?]]; auto.
Qed.

Lemma releaseUser_spec h i :
  1 <= user_count h (IdentityID i) ->
  config (releaseUser h i) = config h /\ limit (releaseUser h i) = limit h /\ generations (releaseUser h i) = generations h /\
  (forall user, user_count (releaseUser h i) user = user_count h user - one (bool_decide (IdentityID i = user))) /\
  (forall user n, userSessions (releaseUser h i) !! user = Some n -> userSessions h !! user = Some n \/ user = IdentityID i /\ n = user_count h user - 1 /\ 0 < n).
Proof.
  intros Hc. unfold releaseUser. destruct (Z.leb_spec (user_count h (IdentityID i)) 1); (split_and!; [done..| |]).
  - intros user. unfold user_count, one in *. cbn [set_userSessions userSessions]. case_bool_decide as E.
    + subst user. rewrite lookup_delete_eq. cbn. lia.
    + rewrite lookup_delete_ne by done. lia.
  - intros user n. cbn [set_userSessions userSessions]. rewrite lookup_delete_Some. intros [_ ?]. by left.
  - intros user. unfold user_count, one in *. cbn [set_userSessions userSessions]. case_bool_decide as E.
    + subst user. by rewrite lookup_insert_eq.
    + rewrite lookup_insert_ne by done. lia.
  - intros user n. cbn [set_userSessions userSessions]. rewrite lookup_insert_Some. intros [[<- <-]|[_ ?]]; [right|by left]. split_and!; [done|done|lia].
Qed.

Lemma generation_of_insert h session g : generation_of (set_generations h (<[session := g]> (generations h))) session = g.
Proof. unfold generation_of. cbn [set_generations generations]. by rewrite lookup_insert_eq. Qed.

Lemma acquireGeneration_ok h i h' :
  acquireGeneration h i = (true, h') ->
  config h' = config h /\ limit h' = limit h /\ userSessions h' = userSessions h /\
  latest (generation_of h' (SessionID i)) = Z.max (latest (generation_of h (SessionID i))) (SessionGeneration i) /\
  latest (generation_of h (SessionID i)) <= SessionGeneration i /\
  (forall session, session <> SessionID i -> generations h' !! session = generations h !! session) /\
  generations h' !! SessionID i = Some (generation_of h' (SessionID i)) /\
  sessions (generation_of h' (SessionID i)) = sessions (generation_of h (SessionID i)) + 1.
Proof.
  unfold acquireGeneration. destruct (Z.ltb_spec (SessionGeneration i) (latest (generation_of h (SessionID i)))); [discriminate|]. intros [= <-].
  rewrite generation_of_insert. cbn [set_generations generations config limit userSessions latest sessions].
  split_and!; try done.
  - destruct (Z.ltb_spec (latest (generation_of h (SessionID i))) (SessionGeneration i)); lia.
  - intros session Hs. by rewrite lookup_insert_ne.
  - apply lookup_insert_eq.
Qed.

Lemma releaseGeneration_spec h i :
  config (releaseGeneration h i) = config h /\ limit (releaseGeneration h i) = limit h /\ userSessions (releaseGeneration h i) = userSessions h /\
  (forall session, session <> SessionID i -> generations (releaseGeneration h i) !! session = generations h !! session) /\
  ((sessions (generation_of h (SessionID i)) <= 1 /\ generations (releaseGeneration h i) !! SessionID i = None) \/
   (1 < sessions (generation_of h (SessionID i)) /\
    generations (releaseGeneration h i) !! SessionID i =
      Some (mkActiveGeneration (latest (generation_of h (SessionID i))) (sessions (generation_of h (SessionID i)) - 1)))).
Proof.
  unfold releaseGeneration. destruct (Z.leb_spec (sessions (generation_of h (SessionID i)) - 1) 0); (split_and!; [done..| |]).
  - intros session Hs. cbn. by rewrite lookup_delete_ne.
  - left. split; [lia|]. cbn. apply lookup_delete_eq.
  - intros session Hs. cbn. by rewrite lookup_insert_ne.
  - right. split; [lia|]. cbn. apply lookup_insert_eq.
Qed.

Section invariant.
Context `{VersionPackage}.

Lemma count_move f (conns : gmap nat phase) id p p' :
  conns !! id = Some p -> map_count f (<[id := p']> conns) = map_count f conns - one (f p) + one (f p').
Proof. intros Hp. by rewrite (map_count_insert_Some f conns id p' p Hp). Qed.

(** A step of one connection that changes the counters by what it takes or
    gives back keeps them exact. *)
Lemma accounted_move s id p h' p' :
  accounted s -> connections s !! id = Some p -> config h' = config (handler s) ->
  limit h' = limit (handler s) - one (slot_held p) + one (slot_held p') -> limit h' <= MaxSessions (config h') ->
  (forall user, user_count h' user = user_count (handler s) user - one (of_user user p) + one (of_user user p') /\
     user_count h' user <= MaxSessionsPerUser (config h') /\ (forall n, userSessions h' !! user = Some n -> 0 < n)) ->
  (forall session, sessions (generation_of h' session) = sessions (generation_of (handler s) session) - one (in_session session p) + one (in_session session p') /\
     (forall g, generations h' !! session = Some g -> 0 < sessions g) /\
     (latest (generation_of (handler s) session) <= latest (generation_of h' session) \/ sessions (generation_of h' session) = 0)) ->
  (forall i, generation_held p' = Some i -> SessionGeneration i <= latest (generation_of h' (SessionID i))) ->
  streams_ok (MaxStreamsPerSession (config h')) p' ->
  accounted (mkSystem h' (<[id := p']> (connections s))).
Proof.
  intros [[A1 A2] AU AG AS AC] Hp Hcfg Hl Hmax HU HG Hi HS. split; cbn [handler connections].
  - rewrite (count_move _ _ _ _ _ Hp). split; [lia|done].
  - intros user. rewrite (count_move _ _ _ _ _ Hp). destruct (HU user) as (E & Hm & Hn), (AU user) as (E' & _). split_and!; [lia|done|done].
  - intros session. destruct (HG session) as (E & Hn & Hlat), (AG session) as (E' & _ & Hold).
    assert (sessions (generation_of h' session) = map_count (in_session session) (<[id := p']> (connections s))) as Hcount
      by (rewrite (count_move _ _ _ _ _ Hp); lia).
    split_and!; [done|done|]. intros k q i Hq Hh Hs.
    destruct (decide (k = id)) as [->|Hne].
    { rewrite lookup_insert_eq in Hq. injection Hq as <-. subst session. by apply Hi. }
    assert (1 <= map_count (in_session session) (<[id := p']> (connections s))) as Hpos.
    { apply (map_count_pos _ _ k q Hq). unfold in_session. rewrite Hh. by apply bool_decide_eq_true. }
    rewrite lookup_insert_ne in Hq by done. pose proof (Hold k q i Hq Hh Hs). lia.
  - rewrite Hcfg in *. apply map_Forall_insert_2; done.
  - by rewrite Hcfg.
Qed.

Lemma users_same s p p' h' :
  accounted s -> userSessions h' = userSessions (handler s) -> config h' = config (handler s) -> user_held p' = user_held p ->
  forall user, user_count h' user = user_count (handler s) user - one (of_user user p) + one (of_user user p') /\
    user_count h' user <= MaxSessionsPerUser (config h') /\ (forall n, userSessions h' !! user = Some n -> 0 < n).
Proof.
  intros Ha Hu Hc Hp user. destruct (acc_users s Ha user) as (E & Hm & Hn). unfold user_count, of_user in *. rewrite Hu, Hc, Hp.
  split_and!; [lia|done|done].
Qed.

Lemma generations_same s p p' h' :
  accounted s -> generations h' = generations (handler s) -> generation_held p' = generation_held p ->
  forall session, sessions (generation_of h' session) = sessions (generation_of (handler s) session) - one (in_session session p) + one (in_session session p') /\
     (forall g, generations h' !! session = Some g -> 0 < sessions g) /\
     (latest (generation_of (handler s) session) <= latest (generation_of h' session) \/ sessions (generation_of h' session) = 0).
Proof.
  intros Ha Hg Hp session. destruct (acc_generations s Ha session) as (E & Hn & _). unfold generation_of, in_session in *. rewrite Hg, Hp.
  split_and!; [lia|done|by left].
Qed.

(** The generation is held before and after, and the sessions are not changed. *)
Lemma accounted_held s id p h' p' :
  accounted s -> connections s !! id = Some p -> config h' = config (handler s) -> generations h' = generations (handler s) ->
  generation_held p' = generation_held p ->
  limit h' = limit (handler s) - one (slot_held p) + one (slot_held p') -> limit h' <= MaxSessions (config h') ->
  (forall user, user_count h' user = user_count (handler s) user - one (of_user user p) + one (of_user user p') /\
     user_count h' user <= MaxSessionsPerUser (config h') /\ (forall n, userSessions h' !! user = Some n -> 0 < n)) ->
  streams_ok (MaxStreamsPerSession (config h')) p' -> accounted (mkSystem h' (<[id := p']> (connections s))).
Proof.
  intros Ha Hp Hc Hg Hh Hl Hm HU HS. apply (accounted_move s id p h' p'); try done.
  - by apply (generations_same s p p' h').
  - intros i Hi. rewrite Hh in Hi. destruct (acc_generations s Ha (SessionID i)) as (_ & _ & Hold).
    unfold generation_of. rewrite Hg. by apply (Hold id p i).
Qed.

Lemma accounted_quiet s id p p' :
  accounted s -> connections s !! id = Some p -> generation_held p' = generation_held p -> slot_held p' = slot_held p -> user_held p' = user_held p ->
  streams_ok (MaxStreamsPerSession (config (handler s))) p' -> accounted (mkSystem (handler s) (<[id := p']> (connections s))).
Proof.
  intros Ha Hp Hg Hl Hu HS. apply (accounted_held s id p); try done.
  - rewrite Hl. lia.
  - apply (acc_slots s Ha).
  - by apply (users_same s p p').
Qed.

Lemma slot_counted s id p : accounted s -> connections s !! id = Some p -> slot_held p = true -> 1 <= limit (handler s).
Proof. intros Ha Hp Hs. destruct (acc_slots s Ha) as [-> _]. by apply (map_count_pos _ _ id p). Qed.

Lemma user_counted s id p i : accounted s -> connections s !! id = Some p -> user_held p = Some i -> 1 <= user_count (handler s) (IdentityID i).
Proof.
  intros Ha Hp Hs. destruct (acc_users s Ha (IdentityID i)) as [-> _]. apply (map_count_pos _ _ id p); [done|].
  unfold of_user. rewrite Hs. by apply bool_decide_eq_true.
Qed.

Lemma session_counted s id p i : accounted s -> connections s !! id = Some p -> generation_held p = Some i -> 1 <= sessions (generation_of (handler s) (SessionID i)).
Proof.
  intros Ha Hp Hs. destruct (acc_generations s Ha (SessionID i)) as [-> _]. apply (map_count_pos _ _ id p); [done|].
  unfold in_session. rewrite Hs. by apply bool_decide_eq_true.
Qed.

Lemma accounted_slot_taken s id i h' :
  accounted s -> connections s !! id = Some (Counted i) -> acquireSlot (handler s) = (true, h') ->
  accounted (mkSystem h' (<[id := Upgrading i]> (connections s))).
Proof.
  intros Ha Hp. unfold acquireSlot. destruct (Z.ltb_spec (limit (handler s)) (MaxSessions (config (handler s)))) as [Hlt|]; [|discriminate].
  intros [= <-]. apply (accounted_held s id (Counted i)); try done.
  - cbn. lia.
  - cbn. lia.
  - by apply (users_same s (Counted i)).
Qed.

Lemma accounted_slot_returned s id i :
  accounted s -> connections s !! id = Some (Leaving i HoldsSlot) ->
  accounted (mkSystem (set_limit (handler s) (limit (handler s) - 1)) (<[id := Leaving i HoldsGeneration]> (connections s))).
Proof.
  intros Ha Hp. pose proof (acc_slots s Ha) as [_ Hm]. apply (accounted_held s id (Leaving i HoldsSlot)); try done.
  - cbn. lia.
  - cbn. lia.
  - by apply (users_same s (Leaving i HoldsSlot)).
Qed.

Lemma accounted_user_taken s id i hello h' :
  accounted s -> connections s !! id = Some (Accepted i hello) -> acquireUser (handler s) i = (true, h') ->
  accounted (mkSystem h' (<[id := Greeting i hello]> (connections s))).
Proof.
  intros Ha Hp E. apply acquireUser_ok in E as (Hc & Hl & Hg & Hu & Hlt & Hn). pose proof (acc_slots s Ha) as [_ Hm].
  apply (accounted_held s id (Accepted i hello)); try done; [cbn; lia|by rewrite Hl, Hc|].
  intros user. rewrite Hu, Hc. destruct (acc_users s Ha user) as (_ & Hmax & Hpos). cbn [of_user user_held]. split_and!; [cbn; lia| |].
  - unfold one. case_bool_decide as E; [subst user; lia|lia].
  - intros n [Hold|[-> ->]]%Hn; [by apply Hpos|]. destruct (acc_users s Ha (IdentityID i)) as (E & _). rewrite E. pose proof (map_count_nonneg (of_user (IdentityID i)) (connections s)). lia.
Qed.

Lemma accounted_user_returned s id i :
  accounted s -> connections s !! id = Some (Leaving i HoldsUser) ->
  accounted (mkSystem (releaseUser (handler s) i) (<[id := Leaving i HoldsSlot]> (connections s))).
Proof.
  intros Ha Hp. destruct (releaseUser_spec (handler s) i (user_counted s id _ i Ha Hp eq_refl)) as (Hc & Hl & Hg & Hu & Hn).
  pose proof (acc_slots s Ha) as [_ Hm]. apply (accounted_held s id (Leaving i HoldsUser)); try done; [cbn; lia|by rewrite Hl, Hc|].
  intros user. rewrite Hu, Hc. destruct (acc_users s Ha user) as (_ & Hmax & Hpos). cbn [of_user user_held]. split_and!; [cbn; lia| |].
  - unfold one. case_bool_decide; lia.
  - intros n [Hold|(-> & -> & ?)]%Hn; [by apply Hpos|done].
Qed.

Lemma accounted_generation_taken s id i h' :
  accounted s -> connections s !! id = Some (Authenticated i) -> acquireGeneration (handler s) i = (true, h') ->
  accounted (mkSystem h' (<[id := Counted i]> (connections s))).
Proof.
  intros Ha Hp E. apply acquireGeneration_ok in E as (Hc & Hl & Hu & Hlat & Hle & Hoth & Hsome & Hses). pose proof (acc_slots s Ha) as [_ Hm].
  apply (accounted_move s id (Authenticated i)); try done; [cbn; lia|by rewrite Hl, Hc|by apply (users_same s (Authenticated i))| |].
  - intros session. destruct (acc_generations s Ha session) as (E & Hpos & _). cbn [in_session generation_held one].
    destruct (decide (session = SessionID i)) as [->|Hne].
    + rewrite Hses, bool_decide_true by done. cbn. split_and!; [lia| |left; lia].
      intros g Hg. rewrite Hsome in Hg. injection Hg as <-. rewrite Hses, E.
      pose proof (map_count_nonneg (in_session (SessionID i)) (connections s)). lia.
    + rewrite bool_decide_false by congruence. unfold generation_of. rewrite (Hoth session Hne). cbn. split_and!; [lia|done|by left].
  - intros i' [= <-]. lia.
Qed.

Lemma accounted_generation_returned s id i :
  accounted s -> connections s !! id = Some (Leaving i HoldsGeneration) ->
  accounted (mkSystem (releaseGeneration (handler s) i) (<[id := Finished]> (connections s))).
Proof.
  intros Ha Hp. pose proof (session_counted s id _ i Ha Hp eq_refl) as Hone. pose proof (acc_slots s Ha) as [_ Hm].
  destruct (releaseGeneration_spec (handler s) i) as (Hc & Hl & Hu & Hoth & Hcase).
  apply (accounted_move s id (Leaving i HoldsGeneration)); try done; [cbn; lia|by rewrite Hl, Hc|by apply (users_same s (Leaving i HoldsGeneration))|].
  intros session. destruct (acc_generations s Ha session) as (E & Hpos & _). cbn [in_session generation_held one].
  destruct (decide (session = SessionID i)) as [->|Hne].
  - rewrite bool_decide_true by done. cbn. destruct Hcase as [[Hle Hnone]|[Hlt Hsome]].
    + unfold generation_of at 1 4 5. rewrite Hnone. cbn. split_and!; [lia|done|by right].
    + unfold generation_of at 1 4 5. rewrite Hsome. cbn. split_and!; [lia| |left; lia].
      intros g [= <-]. cbn. lia.
  - rewrite bool_decide_false by congruence. unfold generation_of. rewrite (Hoth session Hne). cbn. split_and!; [lia|done|by left].
Qed.
End invariant.

Section reached.
Context `{VersionPackage}.

Lemma acquire_failed h i h' : acquireGeneration h i = (false, h') -> h' = h.
Proof. unfold acquireGeneration. destruct (_ <? _); congruence. Qed.
Lemma acquireSlot_failed h h' : acquireSlot h = (false, h') -> h' = h.
Proof. unfold acquireSlot. destruct (_ <? _); congruence. Qed.
Lemma acquireUser_failed h i h' : acquireUser h i = (false, h') -> h' = h.
Proof. unfold acquireUser. destruct (_ <=? _); congruence. Qed.

Lemma next_config h p e h' p' : next h p e = Some (h', p') -> config h' = config h.
Proof.
  assert (forall i, config (releaseUser h i) = config h) as HU by (intros i; unfold releaseUser; by destruct (_ <=? _)).
  assert (forall i, config (releaseGeneration h i) = config h) as HG by (intros i; unfold releaseGeneration; by destruct (_ <=? _)).
  destruct p as [|i|i|i|i hello|i hello|i slots [|]|i slots|i [| |]|]; destruct e; cbn [next]; try discriminate;
    lazymatch goal with
    | |- context [acquireGeneration] => destruct (acquireGeneration h i) as [[|] h1] eqn:E; [apply acquireGeneration_ok in E as [E _]|apply acquire_failed in E]
    | |- context [acquireSlot] => unfold acquireSlot
    | |- context [acquireUser] => destruct (acquireUser h i) as [[|] h1] eqn:E; [apply acquireUser_ok in E as [E _]|apply acquireUser_failed in E]
    | _ => idtac
    end;
    repeat case_match; intros [= <- <-]; simplify_eq; auto.
Qed.

(** Every step of a connection keeps the counters exact. *)
Lemma accounted_next s id p e h' p' :
  accounted s -> connections s !! id = Some p -> next (handler s) p e = Some (h', p') ->
  accounted (mkSystem h' (<[id := p']> (connections s))).
Proof.
  intros Ha Hp. pose proof (acc_streams s Ha id p Hp) as Hs. pose proof (acc_config s Ha) as (_ & _ & HC).
  destruct p as [|i|i|i|i hello|i hello|i slots [|]|i slots|i [| |]|]; destruct e as [method authenticated requestID now|ok|message|ok| | | |]; cbn [next]; try discriminate.
  - destruct (admission _ _ _ _); intros [= <- <-]; by apply (accounted_quiet s id Arrived).
  - destruct (acquireGeneration (handler s) i) as [[|] h1] eqn:E; intros [= <- <-].
    + by apply (accounted_generation_taken s id i).
    + apply acquire_failed in E as ->. by apply (accounted_quiet s id (Authenticated i)).
  - destruct (acquireSlot (handler s)) as [[|] h1] eqn:E; intros [= <- <-].
    + by apply (accounted_slot_taken s id i).
    + apply acquireSlot_failed in E as ->. by apply (accounted_quiet s id (Counted i)).
  - destruct ok; intros [= <- <-]. by apply (accounted_quiet s id (Upgrading i)).
  - destruct (handshake _ _ _); intros [= <- <-]; by apply (accounted_quiet s id (Upgrading i)).
  - destruct (acquireUser (handler s) i) as [[|] h1] eqn:E; intros [= <- <-].
    + by apply (accounted_user_taken s id i hello).
    + apply acquireUser_failed in E as ->. by apply (accounted_quiet s id (Accepted i hello)).
  - destruct ok; intros [= <- <-]; apply (accounted_quiet s id (Greeting i hello)); try done. cbn. lia.
  - cbn [streams_ok] in Hs. destruct (Z.ltb_spec 1 slots); intros [= <- <-]. apply (accounted_quiet s id (Serving i slots true)); try done. cbn. lia.
  - cbn [streams_ok] in Hs. intros [= <- <-]. apply (accounted_quiet s id (Serving i slots true)); try done. cbn. destruct (generationCurrent _ _); lia.
  - cbn [streams_ok] in Hs. destruct (Z.ltb_spec slots (MaxStreamsPerSession (config (handler s)))); intros [= <- <-];
      apply (accounted_quiet s id (Serving i slots false)); try done. cbn. lia.
  - cbn [streams_ok] in Hs. destruct (Z.ltb_spec 0 slots); intros [= <- <-]. apply (accounted_quiet s id (Serving i slots false)); try done. cbn. lia.
  - intros [= <- <-]. by apply (accounted_quiet s id (Serving i slots false)).
  - cbn [streams_ok] in Hs. destruct (Z.ltb_spec 0 slots); intros [= <- <-]. apply (accounted_quiet s id (Closing i slots)); try done. cbn. lia.
  - destruct (Z.eqb_spec slots 0); intros [= <- <-]. by apply (accounted_quiet s id (Closing i slots)).
  - intros [= <- <-]. by apply (accounted_user_returned s id i).
  - intros [= <- <-]. by apply (accounted_slot_returned s id i).
  - intros [= <- <-]. by apply (accounted_generation_returned s id i).
Qed.

Lemma NewHandler_ok c h :
  NewHandler c = Ok h ->
  limit h = 0 /\ generations h = ∅ /\ userSessions h = ∅ /\ draining h = false /\
  0 < MaxSessions (config h) /\ 0 < MaxSessionsPerUser (config h) <= MaxSessions (config h) /\ 0 < MaxStreamsPerSession (config h) /\
  MaximumHandshakeBytes <= MaxFrameBytes (config h) <= Z.shiftl 16 20 /\ 0 < StreamIdleTimeout (config h) <= maxStreamIdleTimeout /\
  cfg_SupportedVersions (config h) = [Version].
Proof.
  assert (forall v d, 0 < d -> 0 < or_default v d) as Hor by (intros v d Hd; unfold or_default; destruct (Z.leb_spec v 0); lia).
  unfold NewHandler. cbv zeta. intros E. inv_ok. bool_hyps. cbn [config limit generations userSessions draining MaxSessions MaxSessionsPerUser
    MaxStreamsPerSession MaxFrameBytes StreamIdleTimeout cfg_SupportedVersions].
  split_and!; try done; apply Hor; done.
Qed.

Lemma reachable_accounted c s : reachable c s -> accounted s.
Proof.
  induction 1 as [h Hnew|s e s' Hr IH E].
  - destruct (NewHandler_ok c h Hnew) as (Hl & Hg & Hu & _ & H1 & [H2 _] & H3 & _). split; cbn [handler connections].
    + rewrite Hl, map_count_empty. lia.
    + intros user. unfold user_count. rewrite Hu, map_count_empty, lookup_empty. split_and!; [done|cbn; lia|done].
    + intros session. unfold generation_of. rewrite Hg, map_count_empty, lookup_empty. split_and!; [done|done|]. intros id p i Hp. by rewrite lookup_empty in Hp.
    + apply map_Forall_empty.
    + done.
  - destruct e as [id|id e|]; cbn [run_event] in E.
    + destruct (connections s !! id) eqn:Hid; [discriminate|]. injection E as <-. destruct IH as [A AU AG AS AC]. split; cbn [handler connections].
      * rewrite map_count_insert_None by done. cbn. lia.
      * intros user. rewrite map_count_insert_None by done. destruct (AU user) as (E & ? & ?). cbn. split_and!; [lia|done|done].
      * intros session. rewrite map_count_insert_None by done. destruct (AG session) as (E & ? & Hold). cbn. split_and!; [lia|done|].
        intros k p i. rewrite lookup_insert_Some. intros [[<- <-]|[_ Hp]] Hh; [discriminate Hh|]. exact (Hold k _ _ Hp Hh).
      * by apply map_Forall_insert_2.
      * done.
    + destruct (connections s !! id) as [p|] eqn:Hid; [|discriminate]. cbn [mbind option_bind] in E.
      destruct (next (handler s) p e) as [[h p']|] eqn:En; [|discriminate]. cbn in E. injection E as <-.
      by apply (accounted_next s id p e).
    + injection E as <-. destruct IH as [A AU AG AS AC]. by split.
Qed.

Lemma reachable_config c s : reachable c s -> exists h, NewHandler c = Ok h /\ config (handler s) = config h.
Proof.
  induction 1 as [h Hnew|s e s' Hr (h & Hnew & Hc) E]; [by exists h|]. exists h. split; [done|]. rewrite <- Hc.
  destruct e as [id|id e|]; cbn [run_event] in E.
  - destruct (connections s !! id); [discriminate|]. by injection E as <-.
  - destruct (connections s !! id) as [p|]; [|discriminate]. cbn [mbind option_bind] in E.
    destruct (next (handler s) p e) as [[h' p']|] eqn:En; [|discriminate]. cbn in E. injection E as <-. by apply next_config in En.
  - by injection E as <-.
Qed.

Lemma all_finished_count f (conns : gmap nat phase) :
  f Finished = false -> map_Forall (fun _ p => p = Finished) conns -> map_count f conns = 0.
Proof.
  intros Hf. induction conns as [|id p conns Hid IH] using map_ind; [intros _; apply map_count_empty|].
  intros [-> HF]%map_Forall_insert; [|done]. by rewrite map_count_insert_None, Hf, IH.
Qed.

(** C16 (invariant). In whatever order the connections of a handler take their
    steps, its counters are the numbers of connections that hold a slot, a place
    of a user and a generation; none exceeds its limit, nor do the streams of a
    connection; and when every connection has ended nothing is left: no slot is
    taken, and no user and no session is remembered. *)
Theorem gateway_accounting (c : ServerConfig) (s : System) (Hreach : reachable c s) :
  accounted s /\
  (map_Forall (fun _ p => p = Finished) (connections s) ->
   limit (handler s) = 0 /\ userSessions (handler s) = ∅ /\ generations (handler s) = ∅).
Proof.
  pose proof (reachable_accounted c s Hreach) as Ha. split; [done|]. intros HF. split_and!.
  - destruct (acc_slots s Ha) as [-> _]. by apply all_finished_count.
  - apply map_empty. intros user. destruct (userSessions (handler s) !! user) as [n|] eqn:E; [|done].
    destruct (acc_users s Ha user) as (Hc & _ & Hpos). unfold user_count in Hc. rewrite E, all_finished_count in Hc by done. specialize (Hpos n E). cbn in Hc. lia.
  - apply map_empty. intros session. destruct (generations (handler s) !! session) as [g|] eqn:E; [|done].
    destruct (acc_generations s Ha session) as (Hc & Hpos & _). unfold generation_of in Hc. rewrite E, all_finished_count in Hc by done. specialize (Hpos g E). cbn in Hc. lia.
Qed.

(** C13 (safety). A stream is handed on only by a connection of the newest
    generation: when a connection passes the check for a new stream, or is
    counted for its session, no connection that counts for the same session has
    a newer generation. *)
Theorem gateway_fences_streams (c : ServerConfig) (s : System) (id : nat) (p : phase) (i : Identity) (h' : Handler) (p' : phase)
    (Hreach : reachable c s) (Hat : connections s !! id = Some p) (Hnext : next (handler s) p EvGo = Some (h', p'))
    (Hpassed : (exists slots, p = Serving i slots true /\ p' = Serving i slots false) \/ (p = Authenticated i /\ p' = Counted i)) :
  forall id2 p2 i2, connections s !! id2 = Some p2 -> generation_held p2 = Some i2 -> SessionID i2 = SessionID i ->
    SessionGeneration i2 <= SessionGeneration i.
Proof.
  intros id2 p2 i2 H2 Hh Hs. pose proof (reachable_accounted c s Hreach) as Ha.
  destruct (acc_generations s Ha (SessionID i)) as (_ & _ & Hold). specialize (Hold id2 p2 i2 H2 Hh Hs).
  destruct Hpassed as [(slots & -> & ->)|[-> ->]]; cbn [next] in Hnext.
  - unfold generationCurrent in Hnext. destruct (Z.leb_spec (latest (generation_of (handler s) (SessionID i))) (SessionGeneration i)); [lia|].
    injection Hnext as _ E. lia.
  - destruct (acquireGeneration (handler s) i) as [[|] h1] eqn:E; [|discriminate]. apply acquireGeneration_ok in E as (_ & _ & _ & _ & Hle & _). lia.
Qed.
End reached.

(** ** Both ends of the handshake *)

Lemma elem_of_without x capability l : x ∈ without capability l <-> x <> capability /\ x ∈ l.
Proof. unfold without. by rewrite list_elem_of_filter. Qed.

Lemma client_capability cc x :
  x <> CapabilityTrafficEncryption -> x ∈ all_capabilities -> x ∈ ch_Capabilities (client_hello cc).
Proof. intros Hx Hin. unfold client_hello. cbn [ch_Capabilities NewClientHello]. destruct (cc_TrafficEncryption cc) as [[|]|]; [done|by apply elem_of_without|done]. Qed.

Lemma client_encryption cc : bool_decide (CapabilityTrafficEncryption ∈ ch_Capabilities (client_hello cc)) = encryption_enabled cc.
Proof. unfold client_hello, encryption_enabled. cbn [ch_Capabilities NewClientHello]. by destruct (cc_TrafficEncryption cc) as [[|]|]. Qed.

Lemma server_capability h v b x : x <> CapabilityTrafficEncryption -> x ∈ all_capabilities -> x ∈ sh_Capabilities (server_hello h v b).
Proof. intros Hx Hin. unfold server_hello. cbn [sh_Capabilities NewServerHello]. destruct b; [done|by apply elem_of_without]. Qed.

Lemma server_encryption h v b : bool_decide (CapabilityTrafficEncryption ∈ sh_Capabilities (server_hello h v b)) = b.
Proof. unfold server_hello. cbn [sh_Capabilities NewServerHello]. by destruct b. Qed.

Lemma handshake_ok `{VersionPackage} h identity message hello :
  handshake h identity (Ok message) = inr hello ->
  exists ch v, m_ClientHello message = Some ch /\ Negotiate (ProtocolVersions ch) (cfg_SupportedVersions (config h)) = Ok v /\
    CheckClientVersion (ClientVersion ch) (MinClientVersion (config h)) = Ok tt /\ ch_DeviceID ch = DeviceID identity /\
    (trafficEncryptionMatches h identity (ch_Capabilities ch)).2 = true /\ requiredCapabilitiesPresent (ch_Capabilities ch) = true /\
    hello = server_hello h v (enabled (cfg_TrafficEncryption (config h))).
Proof.
  unfold handshake. destruct message as [[ch|] sh rj]; [|discriminate]. destruct (Negotiate _ _) as [v|] eqn:EN; [|discriminate].
  destruct (CheckClientVersion _ _) as [[]|] eqn:EC; [|discriminate]. case_bool_decide as Hd; cbn [negb]; [|discriminate].
  unfold trafficEncryptionMatches. cbn [snd]. destruct (_ && _ && _) eqn:EE; cbn [negb]; [|discriminate].
  destruct (requiredCapabilitiesPresent _) eqn:ER; cbn [negb]; [|discriminate]. intros [= <-]. exists ch, v. by split_and!.
Qed.

Lemma server_hello_valid h b :
  let k := config h in
  0 < MaxSessions k <= Z.shiftl 1 20 -> 0 < MaxSessionsPerUser k <= MaxSessions k -> 0 < MaxStreamsPerSession k <= Z.shiftl 1 20 ->
  MaximumHandshakeBytes <= MaxFrameBytes k <= Z.shiftl 16 20 -> Millisecond <= StreamIdleTimeout k <= maxStreamIdleTimeout ->
  safeText (default_version (cfg_ServerVersion k)) 64 = true -> ServerHello_Validate (server_hello h Version b) = Ok tt.
Proof.
  cbv zeta. intros B1 B2 B3 B4 B5 Ht. unfold ServerHello_Validate.
  assert (validUniqueIdentifiers (sh_Capabilities (server_hello h Version b)) 32 64 = true) as -> by (destruct b; by vm_compute).
  assert (safeText (ServerVersion (server_hello h Version b)) 64 = true) as -> by exact Ht.
  assert (valid_limits (sh_Limits (server_hello h Version b)) = true) as ->; [|done].
  unfold valid_limits, server_hello. cbn [sh_Limits NewServerHello MaximumFrameBytes MaximumStreamFrameBytes MaximumStreamsPerConnection
    MaximumPhysicalConnections MaximumConnectionsPerUser StreamIdleTimeoutMillis]. unfold streamFrameBytes, MaximumHandshakeBytes, maxStreamIdleTimeout in *.
  change (Z.shiftl 1 20) with 1048576 in *. change (Z.shiftl 16 20) with 16777216 in *. change (Z.shiftl 8 10) with 8192 in *. change (Z.shiftl 64 10) with 65536.
  change (24 * Hour / Millisecond) with 86400000. change (24 * Hour) with 86400000000000 in *. change Millisecond with 1000000 in *.
  assert (0 < StreamIdleTimeout (config h) ÷ 1000000 <= 86400000) as Hq by (rewrite Z.quot_div_nonneg by lia; split; [apply Z.div_str_pos; lia|apply Z.div_le_upper_bound; lia]).
  repeat rewrite (proj2 (Z.ltb_ge _ _)) by lia. rewrite (proj2 (Z.leb_gt (_ ÷ _) 0)), !(proj2 (Z.leb_le _ _)) by lia. done.
Qed.

(** C39 (refinement). A handshake that the Gateway accepts succeeds at both ends: the
    client takes the answer, and both agree on the protocol version, the device,
    the use of traffic encryption and the limits; and the Gateway can send its
    answer when its limits are at most 2^20, its idle timeout at least a
    millisecond and its version a valid text. *)
Theorem handshake_agreement `{VersionPackage} (c : ServerConfig) (s : System) (identity : Identity) (cc : ClientConfig) (hello : ServerHello)
    (Hreach : reachable c s)
    (Haccept : handshake (handler s) identity (Ok (message_of (OutClientHello (client_hello cc)))) = inr hello) :
  let k := config (handler s) in
  client_accept cc (message_of (OutServerHello hello)) =
    Connected (Z.min (cc_MaxStreamsPerConn cc) (MaxStreamsPerSession k)) (MaxSessionsPerUser k) (MaxFrameBytes k) /\
  ProtocolVersion hello = Version /\ cc_DeviceID cc = DeviceID identity /\
  encryption_enabled cc = enabled (cfg_TrafficEncryption k) /\
  (MaxSessions k <= Z.shiftl 1 20 -> MaxStreamsPerSession k <= Z.shiftl 1 20 -> Millisecond <= StreamIdleTimeout k ->
   safeText (default_version (cfg_ServerVersion k)) 64 = true -> ServerHello_Validate hello = Ok tt).
Proof.
  cbv zeta. destruct (reachable_config c s Hreach) as (h0 & Hnew & Hcfg).
  apply NewHandler_ok in Hnew as (_ & _ & _ & _ & B1 & B2 & B3 & B4 & B5 & Hv). rewrite <- Hcfg in *. clear h0 Hcfg.
  apply handshake_ok in Haccept as (ch & v & [= <-] & HN & _ & Hdev & Henc & _ & ->). rewrite Hv in HN.
  apply negotiate_first_shared_version in HN. cbn [first_supported] in HN. case_bool_decide as Hin; [|discriminate HN]. injection HN as <-.
  unfold trafficEncryptionMatches in Henc. cbn [snd] in Henc. rewrite client_encryption in Henc.
  apply andb_true_iff in Henc as [[_ Henc%eqb_prop]%andb_true_iff _].
  set (hello := server_hello _ _ _). assert (ProtocolVersion hello = Version) as Hpv by done. split_and!; [|done|exact Hdev|done|].
  - unfold client_accept. cbn [message_of m_Reject m_ServerHello]. rewrite Hpv. unfold hello. rewrite server_encryption, Henc.
    rewrite !bool_decide_true; first [reflexivity | exact Hin | apply server_capability; [done|by apply (bool_decide_unpack _)]].
  - intros L1 L2 L3 L4. apply server_hello_valid; tauto.
Qed.

(** ** Concrete connections *)

Lemma reachable_run `{VersionPackage} c s es s' : reachable c s -> run_events s es = Some s' -> reachable c s'.
Proof.
  revert s. induction es as [|e es IH]; intros s Hr E; cbn [run_events] in E; [by injection E as <-|].
  destruct (run_event s e) as [s1|] eqn:E1; [|discriminate]. cbn [mbind option_bind] in E. apply (IH s1); [|done]. by apply (reachable_step c s e).
Qed.

(** Versions compared by their length. *)
#[export] Instance simple_version : VersionPackage :=
  {| version_t := Z; version_NewVersion := fun s => Some (slen s); version_LessThan := Z.ltb |}.

Definition sample_config : ServerConfig := mkServerConfig true 2 1 1 0 0 0 "1.0.0" "" [] (Some false) "" true.
Definition sample_client : ClientConfig := mkClientConfig "1.0.0" "device-1" [Version] 4 (Some false).
Definition sample_identity (generation : Z) : Identity :=
  mkIdentity "" "alice" [] "device-1" "session-1" generation "ticket" "shop" "" 100 None "".

Definition to_serving (id : nat) (generation : Z) : list system_event :=
  [Opens id; Meets id (EvRequest "GET" (Ok (sample_identity generation)) "request-1" 5); Meets id EvGo; Meets id EvGo;
   Meets id (EvMessage (Ok (message_of (OutClientHello (client_hello sample_client))))); Meets id EvGo; Meets id (EvSent true)].

Definition sample_start : System :=
  match NewHandler sample_config with Ok h => mkSystem h ∅ | Err _ => mkSystem (mkHandler sample_config 0 false ∅ ∅ false) ∅ end.
Definition after (es : list system_event) : System := default sample_start (run_events sample_start es).

Lemma sample_reachable_gateway es s : run_events sample_start es = Some s -> reachable sample_config s.
Proof. apply reachable_run. apply reachable_new. reflexivity. Qed.

Definition served : System := after (to_serving 0 1 ++ [Meets 0 EvStream]).

Lemma served_reachable : reachable sample_config served.
Proof. apply (sample_reachable_gateway (to_serving 0 1 ++ [Meets 0 EvStream])). by vm_compute. Qed.

Lemma served_phase : connections served !! 0%nat = Some (Serving (set_RequestID (sample_identity 1) "request-1") 1 true).
Proof. by vm_compute. Qed.

(** A second connection of the user is refused, and gives its slot back; a newer
    generation fences the streams of the older one, and an older one is not
    counted any more. *)
Definition refused : System := after (to_serving 0 1 ++ firstn 6 (to_serving 1 2) ++ [Meets 1 EvGo; Meets 0 EvStream; Meets 0 EvGo]).

Definition at_limit : System := after (to_serving 0 1 ++ firstn 6 (to_serving 1 2)).

Example second_connection :
  (connections at_limit !! 1%nat, limit (handler at_limit)) = (Some (Leaving (set_RequestID (sample_identity 2) "request-1") HoldsSlot), 2) /\
  (limit (handler refused), connections refused !! 0%nat) = (1, Some (Serving (set_RequestID (sample_identity 1) "request-1") 0 false)).
Proof. evaluate. Qed.

Lemma gateway_accounting_witness :
  accounted served /\ (map_Forall (fun _ p => p = Finished) (connections served) ->
    limit (handler served) = 0 /\ userSessions (handler served) = ∅ /\ generations (handler served) = ∅).
Proof. exact (gateway_accounting sample_config served served_reachable). Defined.

Lemma gateway_fences_streams_witness :
  exists p2 i2, connections served !! 0%nat = Some p2 /\ generation_held p2 = Some i2 /\ SessionGeneration i2 <= 1.
Proof.
  exists (Serving (set_RequestID (sample_identity 1) "request-1") 1 true), (set_RequestID (sample_identity 1) "request-1").
  split; [exact served_phase|]. split; [reflexivity|].
  refine (gateway_fences_streams sample_config served 0 _ (set_RequestID (sample_identity 1) "request-1") (handler served) _ served_reachable served_phase
    _ _ 0%nat _ _ served_phase eq_refl eq_refl).
  - by vm_compute.
  - left. by exists 1.
Defined.

Definition sample_hello : ServerHello := server_hello (handler served) Version false.

Lemma handshake_agreement_witness :
  client_accept sample_client (message_of (OutServerHello sample_hello)) = Connected 1 1 (Z.shiftl 1 20) /\ ServerHello_Validate sample_hello = Ok tt.
Proof.
  destruct (handshake_agreement sample_config served (sample_identity 1) sample_client sample_hello served_reachable) as (Hc & _ & _ & _ & Hv);
    [by vm_compute|].
  split; [rewrite Hc; by vm_compute|]. apply Hv; [by vm_compute..].
Defined.

(** The limit that the Gateway announces is not in force at its own end. *)
Example frame_limits :
  (gateway_read_limits (handler served), client_read_limits sample_hello) = ([8192; 1048576; 0], [8192; 0; 1048576]).
Proof. by vm_compute. Qed.
