(* ===== verification/StreamFrame.v ===== *)
(** * Stream-multiplexing frames

    [internal/protocol/streamframe/frame.go] and the two contracts built on it,
    [internal/protocol/exchangestream/protocol.go] and
    [internal/protocol/mirrorstream/protocol.go]: a fixed 14-byte header and a
    payload.  Encoding and decoding are mutually inverse on the frames the
    contract accepts, and every accepted frame fits the transport that carries
    it. *)

From S2P Require Import Prelude GoLib.

Definition Ready : byte := x01.
Definition Open : byte := x02.
Definition Data : byte := x03.
Definition CloseWrite : byte := x04.
Definition Close : byte := x05.
Definition Datagram : byte := x06.
Definition Stop : byte := x07.

Definition ProtocolTCP : byte := x01.
Definition ProtocolUDP : byte := x02.

Definition MaximumData : Z := Z.shiftl 256 10.
Definition MaximumError : Z := 4096.
Definition MaximumDatagram : Z := 65507.

Definition headerSize : nat := 14.

Record Frame := mkFrame {
  Type_ : byte;
  StreamID : Z;      (* uint64 *)
  ServicePort : Z;   (* uint32 *)
  Protocol : byte;
  Payload : bytes
}.

#[export] Instance Frame_eq_dec : EqDecision Frame.
Proof. solve_decision. Defined.

(** The values a Go [Frame] can hold: its words are within their width. *)
Definition Frame_wf (frame : Frame) : Prop :=
  u64 (StreamID frame) /\ u32 (ServicePort frame).

Record Codec := mkCodec { Name : string }.

Definition validControlFrame (frame : Frame) (streamRequired : bool) : bool :=
  bool_decide (negb (StreamID frame =? 0) = streamRequired) && (ServicePort frame =? 0)
  && bool_decide (Protocol frame = x00) && (len (Payload frame) =? 0).

Definition validPayloadFrame (frame : Frame) (maximum : Z) : bool :=
  negb (StreamID frame =? 0) && (ServicePort frame =? 0) && bool_decide (Protocol frame = x00)
  && (0 <? len (Payload frame)) && (len (Payload frame) <=? maximum).

Definition validTerminalFrame (frame : Frame) (streamRequired : bool) : bool :=
  bool_decide (negb (StreamID frame =? 0) = streamRequired) && (ServicePort frame =? 0)
  && bool_decide (Protocol frame = x00) && (len (Payload frame) <=? MaximumError).

Definition validOpenFrame (frame : Frame) : bool :=
  negb (StreamID frame =? 0) && negb (ServicePort frame =? 0)
  && bool_decide (Protocol frame = ProtocolTCP) && (len (Payload frame) =? 0).

Definition validDatagramFrame (frame : Frame) : bool :=
  negb (StreamID frame =? 0) && negb (ServicePort frame =? 0)
  && bool_decide (Protocol frame = ProtocolUDP) && (0 <? len (Payload frame))
  && (len (Payload frame) <=? MaximumDatagram).

(** The [switch frame.Type] of [Validate]: the verdict and the frame's name, or
    [None] for an unsupported type. *)
Definition classify (frame : Frame) : option (bool * string) :=
  let type := Type_ frame in
  if decide (type = Ready) then Some (validControlFrame frame false, "ready")
  else if decide (type = Open) then Some (validOpenFrame frame, "open")
  else if decide (type = Data) then Some (validPayloadFrame frame MaximumData, "data")
  else if decide (type = CloseWrite) then Some (validControlFrame frame true, "half-close")
  else if decide (type = Close) then Some (validTerminalFrame frame true, "close")
  else if decide (type = Datagram) then Some (validDatagramFrame frame, "datagram")
  else if decide (type = Stop) then Some (validTerminalFrame frame false, "stop")
  else None.

Definition Validate (codec : Codec) (frame : Frame) : result unit :=
  match classify frame with
  | None =>
      Err (NewError ("unsupported " +:+ Name codec +:+ " frame type "
                       +:+ pretty (Z_of_byte (Type_ frame))))
  | Some (valid, name) =>
      require valid (NewError (Name codec +:+ " " +:+ name +:+ " frame is invalid"))
  end.

(** The header and payload as laid out by [Encode]. *)
Definition layout (frame : Frame) : bytes :=
  [Type_ frame] ++ be_put 8 (StreamID frame) ++ be_put 4 (ServicePort frame)
    ++ [Protocol frame] ++ Payload frame.

Definition Encode (codec : Codec) (frame : Frame) : result bytes :=
  _ ← Validate codec frame;
  Ok (layout frame).

Definition Decode (codec : Codec) (encoded : bytes) : result Frame :=
  if len encoded <? Z.of_nat headerSize then
    Err (NewError (Name codec +:+ " frame is truncated"))
  else
    let frame := {|
      Type_ := nth 0 encoded x00;
      StreamID := be_get (slice 1 9 encoded);
      ServicePort := be_get (slice 9 13 encoded);
      Protocol := nth 13 encoded x00;
      Payload := drop headerSize encoded
    |} in
    _ ← Validate codec frame;
    Ok frame.

(** [exchangestream] and [mirrorstream] name the contract in their errors and
    are otherwise the shared codec; their [Frame] types are [streamframe.Frame]
    under a new name. *)
Definition exchange_codec : Codec := mkCodec "exchange".
Definition mirror_codec : Codec := mkCodec "mirror".

Definition exchange_Encode (frame : Frame) : result bytes := Encode exchange_codec frame.
Definition exchange_Decode (encoded : bytes) : result Frame :=
  match Decode exchange_codec encoded with Err e => Err e | Ok frame => Ok frame end.
Definition mirror_Encode (frame : Frame) : result bytes := Encode mirror_codec frame.
Definition mirror_Decode (encoded : bytes) : result Frame :=
  match Decode mirror_codec encoded with Err e => Err e | Ok frame => Ok frame end.

(** ** The wire layout *)

(** Destruct a list of at least 14 bytes into its header bytes. *)
Lemma layout_length frame : len (layout frame) = 14 + len (Payload frame).
Proof. unfold layout. autorewrite with kube. unfold len. rewrite !be_put_length. cbn. lia. Qed.

Lemma layout_slices frame :
  Frame_wf frame ->
  nth 0 (layout frame) x00 = Type_ frame /\
  be_get (slice 1 9 (layout frame)) = StreamID frame /\
  be_get (slice 9 13 (layout frame)) = ServicePort frame /\
  nth 13 (layout frame) x00 = Protocol frame /\
  drop headerSize (layout frame) = Payload frame.
Proof.
  intros [H64 H32]. unfold layout, slice, u64, u32 in *.
  remember (be_put 8 (StreamID frame)) as a eqn:Ea.
  remember (be_put 4 (ServicePort frame)) as b eqn:Eb.
  assert (List.length a = 8%nat) as La by (subst; apply be_put_length).
  assert (List.length b = 4%nat) as Lb by (subst; apply be_put_length).
  assert (be_get a = StreamID frame) as <-.
  { subst. rewrite be_get_put. by apply Z.mod_small. }
  assert (be_get b = ServicePort frame) as <-.
  { subst. rewrite be_get_put. by apply Z.mod_small. }
  clear Ea Eb.
  do 9 (destruct a as [|? a]; try discriminate La).
  do 5 (destruct b as [|? b]; try discriminate Lb).
  done.
Qed.

Lemma layout_inj f g : Frame_wf f -> Frame_wf g -> layout f = layout g -> f = g.
Proof.
  intros Hf Hg He.
  destruct (layout_slices f Hf) as (A1 & A2 & A3 & A4 & A5).
  destruct (layout_slices g Hg) as (B1 & B2 & B3 & B4 & B5).
  rewrite He in A1, A2, A3, A4, A5.
  destruct f, g; cbn in *; congruence.
Qed.

Lemma decode_wf codec encoded frame : Decode codec encoded = Ok frame -> Frame_wf frame.
Proof.
  unfold Decode. intros H. inv_ok. unfold Frame_wf, u64, u32; cbn [StreamID ServicePort].
  bool_hyps.
  assert (forall i j, (i <= j)%nat -> Z.of_nat j <= len encoded ->
            0 <= be_get (slice i j encoded) < 2 ^ (8 * Z.of_nat (j - i))) as Hb.
  { intros i j Hij Hj. pose proof (be_get_range (slice i j encoded)) as R.
    unfold len, slice in *. rewrite length_take, length_drop in R.
    by rewrite Nat.min_l in R by lia. }
  unfold headerSize in *. split; [apply (Hb 1%nat 9%nat)|apply (Hb 9%nat 13%nat)]; lia.
Qed.

Lemma decode_layout codec frame :
  Frame_wf frame -> Decode codec (layout frame) = (_ ← Validate codec frame; Ok frame).
Proof.
  intros Hwf. unfold Decode. rewrite layout_length.
  destruct (Z.ltb_spec (14 + len (Payload frame)) (Z.of_nat headerSize)) as [Hlt|_].
  { pose proof (len_nonneg (Payload frame)). unfold headerSize in Hlt. lia. }
  destruct (layout_slices frame Hwf) as (-> & -> & -> & -> & ->).
  by destruct frame.
Qed.

Lemma layout_decoded codec encoded frame :
  Decode codec encoded = Ok frame -> layout frame = encoded.
Proof.
  unfold Decode, layout, headerSize. intros H. inv_ok. bool_hyps. clear - E.
  unfold len in E. unfold slice.
  do 14 (destruct encoded as [|? encoded]; [cbn in E; lia|]).
  cbn [nth drop take Nat.sub Type_ StreamID ServicePort Protocol Payload].
  match goal with |- context [be_put 8 (be_get ?l)] =>
    change 8%nat with (List.length l); rewrite be_put_get end.
  match goal with |- context [be_put 4 (be_get ?l)] =>
    change 4%nat with (List.length l); rewrite be_put_get end.
  done.
Qed.

Lemma validate_payload_bound codec frame :
  Validate codec frame = Ok tt -> len (Payload frame) <= MaximumData.
Proof.
  unfold Validate, classify, validControlFrame, validPayloadFrame, validTerminalFrame,
    validOpenFrame, validDatagramFrame.
  change MaximumData with 262144; change MaximumDatagram with 65507; change MaximumError with 4096.
  repeat case_decide; intros Hval; inv_ok; bool_hyps; lia.
Qed.

Lemma decode_valid codec encoded frame :
  Decode codec encoded = Ok frame -> Validate codec frame = Ok tt.
Proof.
  unfold Decode. intros H. by inv_ok.
Qed.

Lemma encode_ok codec frame encoded :
  Encode codec frame = Ok encoded <-> Validate codec frame = Ok tt /\ encoded = layout frame.
Proof.
  unfold Encode. rewrite result_bind_ok. split.
  - intros ([] & HV & [= <-]). done.
  - intros [HV ->]. eauto.
Qed.

(** ** Properties *)

(** [Encode] and [Decode] of a contract are mutually inverse:
    a byte string decodes to a frame exactly when the frame's words are within
    their Go width and [Encode] accepts the frame and produces that byte
    string.  So a frame survives the wire unchanged, and every frame has one
    encoding only. *)
Theorem decode_iff_encode codec frame encoded :
  Decode codec encoded = Ok frame <->
  Frame_wf frame /\ Encode codec frame = Ok encoded.
Proof.
  rewrite encode_ok. split.
  - intros HD. split; [by eapply decode_wf|].
    split; [by eapply decode_valid|symmetry; by eapply layout_decoded].
  - intros (Hwf & HV & ->). rewrite decode_layout, HV by done. done.
Qed.
