(* ===== verification/RelayTicket.v ===== *)
(** * Relay tickets ([internal/protocol/relayticket])

    A ticket is [base64(header) "." base64(claims) "." base64(signature)].  The
    claims, their validation, the signer, the verifier and the key files.  The
    JSON encodings of the header, the claims and the key file are a parameter
    ([JsonCodec]), as are Ed25519, PEM and X.509; base64, splitting and
    trimming are [GoLib]'s. *)

From S2P Require Import Prelude GoLib GoText GoSort External Utils.

(** ** ticket.go *)

Definition Version : Z := 2.
Definition Type_ : string := "KubeLoop-RelayTicket".
Definition Algorithm : string := "EdDSA".
Definition MaximumLifetime : Duration := Minute.
Definition DefaultClockSkew : Duration := 15 * Second.
Definition MaximumTicketBytes : Z := Z.shiftl 8 10.

Definition ErrInvalid : error := VarError "relayticket.ErrInvalid".

Record Claims := mkClaims {
  cl_Version : Z;
  Issuer : string;
  Audience : string;
  IdentityID : string;
  Groups : list string;
  DeviceID : string;
  SessionID : string;
  SessionGeneration : Z;
  Namespace : string;
  Operations : list string;
  NetworkSpecHash : string;
  TicketID : string;
  IssuedAt : Z;
  cl_NotBefore : Z;
  ExpiresAt : Z;
  TrafficEncryption : option bool;
  cl_NoisePublicKey : string
}.

#[export] Instance Claims_eq_dec : EqDecision Claims.
Proof. solve_decision. Defined.

Record header := mkHeader {
  hd_Algorithm : string;
  hd_Type : string;
  hd_KeyID : string
}.

(** ** claims.go *)

Definition validText (value : string) (maximum : Z) : bool :=
  negb (bool_decide (value = "")) && (slen value <=? maximum)
  && bool_decide (TrimSpace value = value) && negb (ContainsControl value).

(** The identifier alphabet: letters, digits and ["-._:@/"]; all its characters
    are single bytes, and no byte of a longer rune is one of them. *)
Definition identifier_byte (b : byte) : bool :=
  is_alnum b || bool_decide (b ∈ string_to_bytes "-._:@/").

Definition ValidIdentifier (value : string) (maximum : Z) : bool :=
  validText value maximum && all_bytes identifier_byte value.

Definition validLowerHex (value : string) (length : Z) : bool :=
  (slen value =? length) && all_bytes (fun b => is_digit b || byte_in x61 x66 b) value.

(** A loop that checks the elements one by one and rejects repetitions. *)
Fixpoint check_distinct (valid : string -> bool) (invalid duplicated : string)
    (seen : gset string) (l : list string) : result unit :=
  match l with
  | [] => Ok tt
  | value :: l' =>
      if negb (valid value) then Err (NewError invalid)
      else if bool_decide (value ∈ seen) then Err (NewError duplicated)
      else check_distinct valid invalid duplicated ({[value]} ∪ seen) l'
  end.

Definition claims_shape (claims : Claims) : bool :=
  bool_decide (cl_Version claims = Version) && validText (Issuer claims) 512
  && ValidIdentifier (Audience claims) 128 && ValidIdentifier (IdentityID claims) 256
  && ValidIdentifier (DeviceID claims) 256 && ValidIdentifier (SessionID claims) 128
  && ValidIdentifier (Namespace claims) 253 && negb (SessionGeneration claims =? 0)
  && ValidIdentifier (TicketID claims) 128 && (len (Groups claims) <=? 128)
  && negb (len (Operations claims) =? 0) && (len (Operations claims) <=? 16).

(** [time.Duration(seconds) * time.Second] is computed in 64 bits. *)
Definition claims_lifetime (claims : Claims) : Duration :=
  int64 (int64 (ExpiresAt claims - IssuedAt claims) * Second).

Definition validateClaims (claims : Claims) : result unit :=
  _ ← require (claims_shape claims) (NewError "relay ticket claims are invalid");
  _ ← check_distinct (fun group => validText group 256) "relay ticket group is invalid"
        "relay ticket group is duplicated" ∅ (Groups claims);
  _ ← check_distinct (fun operation => ValidIdentifier operation 64)
        "relay ticket operation is invalid" "relay ticket operation is duplicated" ∅
        (Operations claims);
  _ ← require (validLowerHex (NetworkSpecHash claims) 64)
        (NewError "relay ticket network spec hash is invalid");
  require (negb ((IssuedAt claims <=? 0) || (cl_NotBefore claims <=? 0)
                 || (ExpiresAt claims <=? IssuedAt claims)
                 || (cl_NotBefore claims <? IssuedAt claims)
                 || (MaximumLifetime <? claims_lifetime claims)))
    (NewError "relay ticket lifetime is invalid").

(** An identifier is printable ASCII, so it is its own trimmed form. *)
Lemma identifier_byte_visible b : identifier_byte b = true -> visible b && is_ascii b = true.
Proof. apply (byte_impl identifier_byte (fun b => visible b && is_ascii b)). by vm_compute. Qed.

Lemma ValidIdentifier_inv value maximum :
  ValidIdentifier value maximum = true ->
  value <> "" /\ slen value <= maximum /\ TrimSpace value = value /\
  all_bytes identifier_byte value = true.
Proof. unfold ValidIdentifier, validText. intros Hv. bool_hyps. done. Qed.

Lemma ValidIdentifier_utf8 value maximum :
  ValidIdentifier value maximum = true -> utf8_ValidString value = true.
Proof.
  intros (_ & _ & _ & Hb)%ValidIdentifier_inv. apply utf8_valid_ascii.
  revert Hb. apply all_bytes_impl. intros b Hb%identifier_byte_visible. by bool_hyps.
Qed.

(** ** codec.go *)

Definition decodePart (value : string) (maximum : Z) : result bytes :=
  match b64_DecodeString value with
  | Some decoded =>
      if (len decoded =? 0) || (maximum <? len decoded) then Err ErrInvalid else Ok decoded
  | None => Err ErrInvalid
  end.

Section ticket.
Context `{Ed25519Package, JsonCodec header, JsonCodec Claims}.

(** ** signer.go *)

Record Signer := mkSigner { keyID : string; signer_key : bytes }.

Definition NewSigner (keyID : string) (key : bytes) : result Signer :=
  let keyID := TrimSpace keyID in
  if negb (ValidIdentifier keyID 128) || negb (len key =? ed25519_PrivateKeySize)
  then Err (NewError "relay ticket signer configuration is invalid")
  else Ok (mkSigner keyID key).

(** The signed part of a ticket. *)
Definition unsigned_ticket (keyID : string) (claims : Claims) : string :=
  b64_EncodeToString (json_Marshal (mkHeader Algorithm Type_ keyID)) +:+ "."
  +:+ b64_EncodeToString (json_Marshal claims).

Definition Sign (signer : Signer) (claims : Claims) : result string :=
  _ ← require (len (signer_key signer) =? ed25519_PrivateKeySize)
        (NewError "relay ticket signer is unavailable");
  _ ← validateClaims claims;
  let unsigned := unsigned_ticket (keyID signer) claims in
  let signature := ed25519_Sign (signer_key signer) (string_to_bytes unsigned) in
  let ticket := unsigned +:+ "." +:+ b64_EncodeToString signature in
  if MaximumTicketBytes <? slen ticket
  then Err (NewError "relay ticket exceeds size limit") else Ok ticket.

(** ** verifier.go *)

Record KeyValidity := mkKeyValidity { kv_NotBefore : time; kv_NotAfter : time }.

Record VerifierConfig := mkVerifierConfig {
  cfg_Keys : gmap string bytes;
  cfg_KeyValidity : gmap string KeyValidity;
  cfg_Issuer : string;
  cfg_Audience : string;
  cfg_RequiredOperation : string;
  cfg_ClockSkew : Duration
}.

(** The clock [now] is an argument of [Verify]. *)
Record Verifier := mkVerifier {
  keys : gmap string bytes;
  keyValidity : gmap string KeyValidity;
  issuer : string;
  audience : string;
  requiredOperation : string;
  clockSkew : Duration
}.

Definition valid_window (validity : KeyValidity) : bool :=
  negb (IsZero (kv_NotBefore validity)) && negb (IsZero (kv_NotAfter validity))
  && After (kv_NotAfter validity) (kv_NotBefore validity).

(** One iteration of the loop over [config.Keys]. *)
Definition add_key (validities : gmap string KeyValidity) (entry : string * bytes)
    (built : gmap string bytes * gmap string KeyValidity)
    : result (gmap string bytes * gmap string KeyValidity) :=
  let '(id, key) := entry in
  if negb (ValidIdentifier id 128) || negb (len key =? ed25519_PublicKeySize)
  then Err (NewError "relay ticket verification key is invalid")
  else match validities !! id with
       | Some validity =>
           if valid_window validity
           then Ok (<[id := key]> built.1, <[id := validity]> built.2)
           else Err (NewError "relay ticket verification key validity is invalid")
       | None => Ok (<[id := key]> built.1, built.2)
       end.

Fixpoint add_keys (validities : gmap string KeyValidity) (entries : list (string * bytes))
    (built : gmap string bytes * gmap string KeyValidity)
    : result (gmap string bytes * gmap string KeyValidity) :=
  match entries with
  | [] => Ok built
  | entry :: entries' => built' ← add_key validities entry built; add_keys validities entries' built'
  end.

(** Go iterates over the keys in an unspecified order; [order] is that order. *)
Definition NewVerifier_in (order : list (string * bytes)) (config : VerifierConfig) : result Verifier :=
  let iss := TrimSpace (cfg_Issuer config) in
  let aud := TrimSpace (cfg_Audience config) in
  let op := TrimSpace (cfg_RequiredOperation config) in
  _ ← require (validText iss 512 && ValidIdentifier aud 128 && ValidIdentifier op 64
               && negb (Z.of_nat (size (cfg_Keys config)) =? 0)
               && (Z.of_nat (size (cfg_Keys config)) <=? 8))
        (NewError "relay ticket verifier configuration is invalid");
  let skew := if cfg_ClockSkew config =? 0 then DefaultClockSkew else cfg_ClockSkew config in
  _ ← require ((0 <=? skew) && (skew <=? Minute))
        (NewError "relay ticket verifier clock skew is invalid");
  '(ks, vs) ← add_keys (cfg_KeyValidity config) order (∅, ∅);
  _ ← require (forallb (fun entry => bool_decide (is_Some (ks !! entry.1)))
                 (map_to_list (cfg_KeyValidity config)))
        (NewError "relay ticket verification key validity has no matching key");
  Ok (mkVerifier ks vs iss aud op skew).

Definition NewVerifier (config : VerifierConfig) : result Verifier :=
  NewVerifier_in (map_to_list (cfg_Keys config)) config.

(** The clock is outside the key's window, widened by the skew. *)
Definition outside_window (verifier : Verifier) (now : time) (keyID : string) : bool :=
  match keyValidity verifier !! keyID with
  | Some validity =>
      Before (now + clockSkew verifier) (kv_NotBefore validity)
      || negb (Before (now - clockSkew verifier) (kv_NotAfter validity))
  | None => false
  end.

(** The claims are bound to this verifier and are current. *)
Definition claims_accepted (verifier : Verifier) (nowTime : time) (claims : Claims) : bool :=
  let now := time_Unix nowTime in
  let skew := Z.quot (clockSkew verifier) Second in
  bool_decide (Issuer claims = issuer verifier)
  && bool_decide (Audience claims = audience verifier)
  && (cl_NotBefore claims <=? int64 (now + skew)) && (IssuedAt claims <=? int64 (now + skew))
  && (int64 (now - skew) <? ExpiresAt claims)
  && bool_decide (requiredOperation verifier ∈ Operations claims).

(** The header of a ticket names a key of the verifier. *)
Definition select_key (verifier : Verifier) (nowTime : time) (part : string) : option bytes :=
  match decodePart part 1024 with
  | Err _ => None
  | Ok headerJSON =>
      ticketHeader ← DecodeStrictJSON headerJSON;
      if bool_decide (hd_Algorithm ticketHeader = Algorithm)
         && bool_decide (hd_Type ticketHeader = Type_)
         && ValidIdentifier (hd_KeyID ticketHeader) 128
      then
        key ← keys verifier !! hd_KeyID ticketHeader;
        if outside_window verifier nowTime (hd_KeyID ticketHeader) then None else Some key
      else None
  end.

Definition signature_valid (key : bytes) (headerPart claimsPart signaturePart : string) : bool :=
  match b64_DecodeString signaturePart with
  | Some signature =>
      (len signature =? ed25519_SignatureSize)
      && ed25519_Verify key (string_to_bytes (headerPart +:+ "." +:+ claimsPart)) signature
  | None => false
  end.

Definition decode_claims (part : string) : option Claims :=
  match decodePart part MaximumTicketBytes with
  | Err _ => None
  | Ok claimsJSON =>
      claims ← DecodeStrictJSON claimsJSON;
      if is_ok (validateClaims claims) then Some claims else None
  end.

Definition verify_parts (verifier : Verifier) (nowTime : time) (headerPart claimsPart signaturePart : string)
    : option Claims :=
  key ← select_key verifier nowTime headerPart;
  if signature_valid key headerPart claimsPart signaturePart
  then claims ← decode_claims claimsPart;
       if claims_accepted verifier nowTime claims then Some claims else None
  else None.

Definition Verify (verifier : Verifier) (nowTime : time) (ticket : string) : result Claims :=
  if (slen ticket =? 0) || (MaximumTicketBytes <? slen ticket)
     || negb (bool_decide (TrimSpace ticket = ticket))
  then Err ErrInvalid
  else match Split ticket x2e with
       | [headerPart; claimsPart; signaturePart] =>
           if bool_decide (headerPart = "") || bool_decide (claimsPart = "")
              || bool_decide (signaturePart = "")
           then Err ErrInvalid
           else match verify_parts verifier nowTime headerPart claimsPart signaturePart with
                | Some claims => Ok claims
                | None => Err ErrInvalid
                end
       | _ => Err ErrInvalid
       end.
End ticket.
