(* ===== verification/RelayTicketKeys.v ===== *)
(** * Relay ticket key files ([internal/protocol/relayticket/keys.go])

    Loading the signing key, loading and marshalling the verification keys. *)

From S2P Require Import Prelude GoLib GoText GoSort External Utils RelayTicket.

Definition maximumKeyFileBytes : Z := Z.shiftl 256 10.
Definition privateKeyPEMType : string := "PRIVATE KEY".
Definition publicKeyPEMType : string := "PUBLIC KEY".

Record publicKeyEntry := mkPublicKeyEntry { pke_KeyID : string; pke_PublicKey : string }.
Record publicKeysFile := mkPublicKeysFile { pkf_Keys : list publicKeyEntry }.

Section keys.
Context `{FileSystem, KeyEncodingPackage, JsonCodec publicKeysFile}.

(** The reader stops one byte after the limit. *)
Definition readKeyFile (path : string) : result bytes :=
  let path := TrimSpace path in
  if bool_decide (path = "") then Err (NewError "key file path is required")
  else match os_ReadFile path with
  | None => Err (NewError "open key file")
  | Some contents =>
      let data := take (Z.to_nat (maximumKeyFileBytes + 1)) contents in
      if (len data =? 0) || (maximumKeyFileBytes <? len data)
      then Err (NewError "key file is invalid") else Ok data
  end.

(** Exactly one PEM block of a type and nothing but blanks after it. *)
Definition one_block (type : string) (data : bytes) : option bytes :=
  let '(decoded, rest) := pem_Decode (bytes_to_string data) in
  block ← decoded;
  if bool_decide (pem_Type block = type) && (slen (TrimSpace (bytes_to_string rest)) =? 0)
  then Some (pem_Bytes block) else None.

Definition LoadSigningKey (path : string) : result bytes :=
  match readKeyFile path with
  | Err _ => Err (NewError "read relay ticket signing key file")
  | Ok data =>
      match one_block privateKeyPEMType data with
      | None => Err (NewError "relay ticket signing key must be one PKCS#8 PEM private key")
      | Some block =>
          match x509_ParsePKCS8PrivateKey block with
          | None => Err (NewError "parse relay ticket signing key")
          | Some (Ed25519Key key) =>
              if len key =? ed25519_PrivateKeySize then Ok key
              else Err (NewError "relay ticket signing key must use Ed25519")
          | Some OtherKey => Err (NewError "relay ticket signing key must use Ed25519")
          end
      end
  end.

(** One entry of the document, added to the keys read so far. *)
Definition load_entry (keys : gmap string bytes) (entry : publicKeyEntry)
    : result (gmap string bytes) :=
  _ ← require (ValidIdentifier (pke_KeyID entry) 128)
        (NewError "relay ticket verification key ID is invalid");
  _ ← require (negb (bool_decide (is_Some (keys !! pke_KeyID entry))))
        (NewError "relay ticket verification key ID is duplicated");
  match one_block publicKeyPEMType (string_to_bytes (pke_PublicKey entry)) with
  | None => Err (NewError "relay ticket verification key must be one PKIX PEM public key")
  | Some block =>
      match x509_ParsePKIXPublicKey block with
      | None => Err (NewError "parse relay ticket verification key")
      | Some (Ed25519Key key) =>
          if len key =? ed25519_PublicKeySize then Ok (<[pke_KeyID entry := key]> keys)
          else Err (NewError "relay ticket verification key must use Ed25519")
      | Some OtherKey => Err (NewError "relay ticket verification key must use Ed25519")
      end
  end.

Fixpoint load_entries (keys : gmap string bytes) (entries : list publicKeyEntry)
    : result (gmap string bytes) :=
  match entries with
  | [] => Ok keys
  | entry :: entries' => keys' ← load_entry keys entry; load_entries keys' entries'
  end.

Definition LoadVerificationKeys (path : string) : result (gmap string bytes) :=
  match readKeyFile path with
  | Err _ => Err (NewError "read relay ticket verification keys file")
  | Ok data =>
      match DecodeStrictJSON data with
      | None => Err (NewError "parse relay ticket verification keys file")
      | Some document =>
          if (len (pkf_Keys document) =? 0) || (8 <? len (pkf_Keys document))
          then Err (NewError "parse relay ticket verification keys file")
          else load_entries ∅ (pkf_Keys document)
      end
  end.

Definition marshal_entry (entry : string * bytes) : result publicKeyEntry :=
  let '(id, key) := entry in
  if negb (ValidIdentifier id 128) || negb (len key =? ed25519_PublicKeySize)
  then Err (NewError "relay ticket verification key is invalid")
  else match x509_MarshalPKIXPublicKey key with
       | None => Err (NewError "encode relay ticket verification key")
       | Some encoded =>
           Ok (mkPublicKeyEntry id
                 (bytes_to_string (pem_EncodeToMemory (mkPemBlock publicKeyPEMType encoded))))
       end.

Fixpoint marshal_entries (entries : list (string * bytes)) : result (list publicKeyEntry) :=
  match entries with
  | [] => Ok []
  | entry :: entries' =>
      e ← marshal_entry entry; es ← marshal_entries entries'; Ok (e :: es)
  end.

(** The keys in the order of their identifiers ([slices.Sort]). *)
Definition sorted_keys (keys : gmap string bytes) : list (string * bytes) :=
  SortFunc (fun a b => compareString a.1 b.1) (map_to_list keys).

Definition MarshalVerificationKeys (keys : gmap string bytes) : result bytes :=
  if (Z.of_nat (size keys) =? 0) || (8 <? Z.of_nat (size keys))
  then Err (NewError "relay ticket verification keys are invalid")
  else entries ← marshal_entries (sorted_keys keys);
       Ok (json_Marshal (mkPublicKeysFile entries)).

(** ** Loading what was marshalled *)

(** What the encodings promise on the keys of a file: a PEM block is text,
    decodes to itself and leaves nothing, and a PKIX key of Ed25519 to itself;
    a document of valid UTF-8 strings decodes to itself. *)
Definition document_text (document : publicKeysFile) : Prop :=
  Forall (fun entry => utf8_ValidString (pke_KeyID entry) = true /\
                       utf8_ValidString (pke_PublicKey entry) = true) (pkf_Keys document).

Record encodings_roundtrip : Prop := {
  pem_text : forall encoded,
    utf8_ValidString (bytes_to_string (pem_EncodeToMemory (mkPemBlock publicKeyPEMType encoded))) = true;
  pem_roundtrip : forall encoded,
    pem_Decode (bytes_to_string (pem_EncodeToMemory (mkPemBlock publicKeyPEMType encoded)))
    = (Some (mkPemBlock publicKeyPEMType encoded), []);
  json_roundtrip : forall document, document_text document ->
    json_Decode (json_Marshal document) = Some (document, []);
  pkix_roundtrip : forall key, len key = ed25519_PublicKeySize ->
    exists encoded, x509_MarshalPKIXPublicKey key = Some encoded /\
      x509_ParsePKIXPublicKey encoded = Some (Ed25519Key key)
}.

Lemma one_block_marshalled encoded :
  encodings_roundtrip ->
  one_block publicKeyPEMType (pem_EncodeToMemory (mkPemBlock publicKeyPEMType encoded)) = Some encoded.
Proof.
  intros Henc. unfold one_block. rewrite pem_roundtrip by done. unfold mbind, option_bind.
  cbn [pem_Type pem_Bytes]. by rewrite bool_decide_eq_true_2.
Qed.

Lemma load_marshalled_entry keys entry e :
  encodings_roundtrip -> marshal_entry entry = Ok e -> keys !! entry.1 = None ->
  load_entry keys e = Ok (<[entry.1 := entry.2]> keys).
Proof.
  destruct entry as [id key]. intros Henc. unfold marshal_entry, load_entry. cbn [fst snd].
  destruct (ValidIdentifier id 128) eqn:Hid; [|discriminate]. cbn [negb orb].
  destruct (Z.eqb_spec (len key) ed25519_PublicKeySize) as [Hk|]; [|discriminate]. cbn [negb].
  destruct (pkix_roundtrip Henc key Hk) as (encoded & -> & Hparse).
  intros [= <-] Hnone. cbn [pke_KeyID pke_PublicKey]. rewrite Hid, Hnone.
  rewrite string_to_of_bytes, one_block_marshalled, Hparse by done. cbn.
  by destruct (Z.eqb_spec (len key) ed25519_PublicKeySize).
Qed.

Lemma load_marshalled_entries entries es keys :
  encodings_roundtrip -> marshal_entries entries = Ok es -> NoDup entries.*1 ->
  (forall id, id ∈ entries.*1 -> keys !! id = None) ->
  load_entries keys es = Ok (list_to_map (rev entries) ∪ keys).
Proof.
  intros Henc. revert es keys. induction entries as [|[id key] entries IH]; intros es keys Em Hnd Hk.
  - cbn in Em. inv_ok. cbn. by rewrite (left_id_L ∅ (∪)).
  - cbn [marshal_entries] in Em. inv_ok. cbn [load_entries].
    apply NoDup_cons in Hnd as [Hid Hnd].
    rewrite (load_marshalled_entry keys (id, key)) by (done || apply Hk; set_solver). cbn.
    rewrite (IH a0); [|done|done|].
    + f_equal. rewrite list_to_map_app. cbn. rewrite <- map_union_assoc. f_equal.
      by rewrite insert_empty, <- insert_union_singleton_l.
    + intros i Hi. rewrite lookup_insert_ne by set_solver. apply Hk. set_solver.
Qed.

Lemma marshalled_text entries es :
  encodings_roundtrip -> marshal_entries entries = Ok es -> document_text (mkPublicKeysFile es).
Proof.
  intros Henc. revert es. induction entries as [|[id key] entries IH]; intros es Em;
    cbn [marshal_entries] in Em; inv_ok.
  - by apply Forall_nil_2.
  - apply Forall_cons_2; [|by apply IH]. unfold marshal_entry in E.
    destruct (ValidIdentifier id 128) eqn:Hid; [|discriminate E]. cbn [negb orb] in E.
    destruct (len key =? _); [|discriminate E]. cbn [negb] in E.
    destruct (x509_MarshalPKIXPublicKey key); [|discriminate E]. inv_ok. cbn [pke_KeyID pke_PublicKey].
    split; [by eapply ValidIdentifier_utf8|by apply pem_text].
Qed.

Lemma marshal_entries_length entries es :
  marshal_entries entries = Ok es -> List.length es = List.length entries.
Proof.
  revert es. induction entries as [|x l IH]; intros es Em; cbn in Em; inv_ok; [done|].
  cbn. f_equal. by apply IH.
Qed.

Lemma sorted_keys_perm ks : Permutation (sorted_keys ks) (map_to_list ks).
Proof. apply SortFunc_perm. Qed.

(** A file that holds the document [MarshalVerificationKeys]
    writes loads back as exactly the same keys. *)
Theorem verification_keys_roundtrip (path : string) (ks : gmap string bytes) (data : bytes)
    (Hencodings : encodings_roundtrip)
    (Hmarshal : MarshalVerificationKeys ks = Ok data)
    (Hpath : TrimSpace path <> "")
    (Hfile : os_ReadFile (TrimSpace path) = Some data)
    (Hsize : 0 < len data <= maximumKeyFileBytes) :
  LoadVerificationKeys path = Ok ks.
Proof.
  unfold MarshalVerificationKeys in Hmarshal. inv_ok. bool_hyps.
  rename a into entries. pose proof (sorted_keys_perm ks) as Hperm.
  unfold LoadVerificationKeys, readKeyFile.
  rewrite bool_decide_eq_false_2, Hfile by done.
  rewrite take_ge by (unfold len in Hsize; lia).
  rewrite (proj2 (Z.eqb_neq _ _)), (proj2 (Z.ltb_ge _ _)) by lia. cbn [orb].
  rewrite (DecodeStrictJSON_whole _ (mkPublicKeysFile entries))
    by (apply json_roundtrip; [done|by eapply marshalled_text]).
  cbn [pkf_Keys].
  assert (Hlen : len entries = Z.of_nat (size ks)).
  { unfold len. f_equal. rewrite (marshal_entries_length (sorted_keys ks)) by done.
    by rewrite Hperm, length_map_to_list. }
  rewrite Hlen, (proj2 (Z.eqb_neq _ _)), (proj2 (Z.ltb_ge _ _)) by lia. cbn [orb].
  assert (Hnd : NoDup (sorted_keys ks).*1) by (rewrite Hperm; apply NoDup_fst_map_to_list).
  rewrite (load_marshalled_entries (sorted_keys ks)) by done.
  rewrite map_union_empty. f_equal. rewrite <- (list_to_map_to_list ks) at 2.
  apply list_to_map_proper; by rewrite <- Permutation_rev.
Qed.
End keys.
