(* ===== verification/RelayTicketFacts.v ===== *)
(** * Correctness of relay tickets

    What a signer issues its verifiers accept, what a verifier accepts was
    issued for it and is current, and how long a valid ticket can live. *)

From S2P Require Import Prelude GoLib GoText GoSort External ConcreteEnv Utils RelayTicket RelayTicketKeys.

(** All texts of the claims are valid UTF-8, which JSON preserves. *)
Definition claims_text (claims : Claims) : bool :=
  utf8_ValidString (Issuer claims) && utf8_ValidString (Audience claims)
  && utf8_ValidString (IdentityID claims) && forallb utf8_ValidString (Groups claims)
  && utf8_ValidString (DeviceID claims) && utf8_ValidString (SessionID claims)
  && utf8_ValidString (Namespace claims) && forallb utf8_ValidString (Operations claims)
  && utf8_ValidString (NetworkSpecHash claims) && utf8_ValidString (TicketID claims)
  && utf8_ValidString (cl_NoisePublicKey claims).

Section facts.
Context `{Ed25519Package, JsonCodec header, JsonCodec Claims}.

(** What the JSON encodings promise: an empty input is no value, valid texts
    decode to themselves, and a header takes at most six bytes for each byte of
    its texts. *)
Record json_laws : Prop := {
  json_header_empty : json_Decode (A := header) [] = None;
  json_claims_empty : json_Decode (A := Claims) [] = None;
  json_header : forall h : header,
    utf8_ValidString (hd_Algorithm h) = true -> utf8_ValidString (hd_Type h) = true ->
    utf8_ValidString (hd_KeyID h) = true -> json_Decode (json_Marshal h) = Some (h, []);
  json_header_size : forall h : header,
    len (json_Marshal h) <= 28 + 6 * (slen (hd_Algorithm h) + slen (hd_Type h) + slen (hd_KeyID h));
  json_claims : forall claims : Claims,
    claims_text claims = true -> json_Decode (json_Marshal claims) = Some (claims, [])
}.

(** A key pair of the signature scheme. *)
Definition key_pair (private public : bytes) : Prop :=
  forall message,
    len (ed25519_Sign private message) = ed25519_SignatureSize /\
    ed25519_Verify public message (ed25519_Sign private message) = true.

(** ** The text of a ticket *)

Definition dot : byte := x2e.

Lemma b64_bytes_plain l : all_bytes b64_plain (b64_EncodeToString l) = true.
Proof. unfold all_bytes, b64_EncodeToString. rewrite string_to_of_bytes. apply b64_encode_plain. Qed.

Lemma plain_no_dot s : all_bytes b64_plain s = true -> dot ∉ string_to_bytes s.
Proof.
  unfold all_bytes. rewrite forallb_forall. intros Hp Hin%list_elem_of_In.
  apply Hp, b64_plain_inv in Hin as (_ & Hin & _). done.
Qed.

Lemma plain_visible s : all_bytes b64_plain s = true -> all_bytes visible s = true.
Proof. apply all_bytes_impl. intros b Hb%b64_plain_inv. tauto. Qed.

Lemma all_bytes_append p s t : all_bytes p (s +:+ t) = all_bytes p s && all_bytes p t.
Proof. unfold all_bytes. by rewrite string_to_bytes_app, forallb_app. Qed.

Lemma joined_split a b c :
  all_bytes b64_plain a = true -> all_bytes b64_plain b = true -> all_bytes b64_plain c = true ->
  Split ((a +:+ "." +:+ b) +:+ "." +:+ c) dot = [a; b; c].
Proof.
  intros Ha Hb Hc. apply Split_three, split_bytes_three.
  rewrite !string_to_bytes_app. change (string_to_bytes ".") with [dot].
  split; [by rewrite <- !app_assoc|]. auto using plain_no_dot.
Qed.

(** The signed part determines its two components. *)
Lemma signed_part_inj a b c d :
  dot ∉ string_to_bytes a -> dot ∉ string_to_bytes c ->
  dot ∉ string_to_bytes b -> dot ∉ string_to_bytes d ->
  string_to_bytes (a +:+ "." +:+ b) = string_to_bytes (c +:+ "." +:+ d) -> a = c /\ b = d.
Proof.
  intros Ha Hc Hb Hd. rewrite !string_to_bytes_app. change (string_to_bytes ".") with [dot]. cbn.
  intros E. pose proof (split_bytes_app dot _ (string_to_bytes b) Ha) as E1.
  rewrite E, split_bytes_app, !split_bytes_nosep in E1 by done. injection E1 as E1 E2.
  split; by apply string_to_bytes_inj.
Qed.

(** ** What the verifier reads back *)

Lemma decodePart_encode l maximum :
  0 < len l <= maximum -> decodePart (b64_EncodeToString l) maximum = Ok l.
Proof.
  intros Hl. unfold decodePart. rewrite b64_decode_encode.
  by rewrite (proj2 (Z.eqb_neq _ _)), (proj2 (Z.ltb_ge _ _)) by lia.
Qed.

Lemma json_nonempty {A} `{JsonCodec A} (a : A) :
  json_Decode (A := A) [] = None -> json_Decode (json_Marshal a) = Some (a, []) ->
  0 < len (json_Marshal a).
Proof.
  intros Hnil Ha. pose proof (len_nonneg (json_Marshal a)).
  destruct (Z.eq_dec (len (json_Marshal a)) 0) as [E%len_zero|]; [|lia].
  rewrite E in Ha. congruence.
Qed.

Lemma select_signed_key verifier now kid key :
  json_laws -> ValidIdentifier kid 128 = true -> keys verifier !! kid = Some key ->
  outside_window verifier now kid = false ->
  select_key verifier now (b64_EncodeToString (json_Marshal (mkHeader Algorithm Type_ kid))) = Some key.
Proof.
  intros Hj Hkid Hkey Hwin. unfold select_key.
  assert (Hd : json_Decode (json_Marshal (mkHeader Algorithm Type_ kid))
               = Some (mkHeader Algorithm Type_ kid, [])).
  { apply json_header; [done|done|done|]. by eapply ValidIdentifier_utf8. }
  rewrite decodePart_encode.
  - rewrite (DecodeStrictJSON_whole _ _ Hd). cbn. by rewrite Hkid, Hkey, Hwin.
  - split; [apply json_nonempty; [by apply json_header_empty|done]|].
    pose proof (json_header_size Hj (mkHeader Algorithm Type_ kid)) as Hs. cbn [hd_Algorithm hd_Type hd_KeyID] in Hs.
    apply ValidIdentifier_inv in Hkid as (_ & Hkid & _).
    change (slen Algorithm) with 5 in Hs. change (slen Type_) with 20 in Hs. lia.
Qed.

Lemma decode_signed_claims claims :
  json_laws -> claims_text claims = true -> validateClaims claims = Ok tt ->
  slen (b64_EncodeToString (json_Marshal claims)) <= MaximumTicketBytes ->
  decode_claims (b64_EncodeToString (json_Marshal claims)) = Some claims.
Proof.
  intros Hj Htext Hvalid Hsize. unfold decode_claims.
  pose proof (json_claims Hj claims Htext) as Hd.
  rewrite decodePart_encode.
  - rewrite (DecodeStrictJSON_whole _ _ Hd). cbn. by rewrite Hvalid.
  - pose proof (b64_EncodeToString_length (json_Marshal claims)).
    split; [|lia]. apply json_nonempty; [by apply json_claims_empty|done].
Qed.

Lemma slen_append s t : slen (s +:+ t) = slen s + slen t.
Proof. by rewrite !slen_bytes, string_to_bytes_app, len_app. Qed.

Lemma string_ne_empty s : 0 < slen s -> bool_decide (s = "") = false.
Proof. intros Hs. apply bool_decide_eq_false_2. intros ->. done. Qed.

Lemma encoded_nonempty l : 0 < len l -> 0 < slen (b64_EncodeToString l).
Proof. pose proof (b64_EncodeToString_length l). lia. Qed.

(** What the signer issues is accepted. *)
Lemma signed_ticket_verifies (signer : Signer) (verifier : Verifier) (public : bytes) (now : time)
    (claims : Claims) (ticket : string)
    (Hjson : json_laws) (Hpair : key_pair (signer_key signer) public)
    (Hid : ValidIdentifier (keyID signer) 128 = true)
    (Hkey : keys verifier !! keyID signer = Some public)
    (Hwindow : outside_window verifier now (keyID signer) = false)
    (Htext : claims_text claims = true)
    (Haccepted : claims_accepted verifier now claims = true)
    (Hsign : Sign signer claims = Ok ticket) :
  Verify verifier now ticket = Ok claims.
Proof.
  unfold Sign in Hsign. inv_ok. rename E0 into Hvalid. bool_hyps.
  set (headerPart := b64_EncodeToString (json_Marshal (mkHeader Algorithm Type_ (keyID signer)))).
  set (claimsPart := b64_EncodeToString (json_Marshal claims)).
  set (signature := ed25519_Sign _ _) in *.
  set (signaturePart := b64_EncodeToString signature) in *.
  change (unsigned_ticket (keyID signer) claims) with (headerPart +:+ "." +:+ claimsPart) in *.
  destruct (Hpair (string_to_bytes (headerPart +:+ "." +:+ claimsPart))) as [Hlen Hver].
  fold signature in Hlen, Hver. change ed25519_SignatureSize with 64 in Hlen.
  assert (Hsig : 0 < slen signaturePart) by (apply encoded_nonempty; lia).
  assert (Hclaims : 0 < slen claimsPart).
  { apply encoded_nonempty, json_nonempty; [by apply json_claims_empty|by apply json_claims]. }
  assert (Hheader : 0 < slen headerPart).
  { apply encoded_nonempty, json_nonempty; [by apply json_header_empty|].
    apply json_header; [done|done|done|]. by eapply ValidIdentifier_utf8. }
  rewrite !slen_append in *. change (slen ".") with 1 in *.
  assert (Hplain : all_bytes b64_plain headerPart = true /\ all_bytes b64_plain claimsPart = true
                   /\ all_bytes b64_plain signaturePart = true) by (repeat split; apply b64_bytes_plain).
  destruct Hplain as (Hp1 & Hp2 & Hp3).
  unfold Verify. rewrite TrimSpace_visible
    by (by rewrite !all_bytes_append, (plain_visible headerPart), (plain_visible claimsPart),
          (plain_visible signaturePart)).
  rewrite !slen_append. change (slen ".") with 1.
  rewrite (proj2 (Z.eqb_neq _ _)), (proj2 (Z.ltb_ge _ _)), bool_decide_eq_true_2 by (done || lia).
  cbn [negb orb]. change x2e with dot. rewrite joined_split by done.
  rewrite !string_ne_empty by done. cbn [orb].
  assert (Hsel : select_key verifier now headerPart = Some public) by (by apply select_signed_key).
  assert (Hdec : decode_claims claimsPart = Some claims).
  { apply decode_signed_claims; try done. fold claimsPart. lia. }
  assert (Hcheck : signature_valid public headerPart claimsPart signaturePart = true).
  { unfold signature_valid, signaturePart. by rewrite b64_decode_encode, Hlen, Hver. }
  unfold verify_parts. rewrite Hsel. cbn [mbind option_bind].
  rewrite Hcheck, Hdec. cbn [mbind option_bind]. by rewrite Haccepted.
Qed.

(** A verifier that holds the signer's public key under the
    signer's key identifier, within that key's window, accepts every ticket the
    signer issues for claims bound to it and current, and returns exactly the
    claims that were signed. *)
Theorem sign_verify (signer : Signer) (verifier : Verifier) (public : bytes) (now : time)
    (claims : Claims) (ticket : string)
    (Hjson : json_laws) (Hpair : key_pair (signer_key signer) public)
    (Hid : ValidIdentifier (keyID signer) 128 = true)
    (Hkey : keys verifier !! keyID signer = Some public)
    (Hwindow : outside_window verifier now (keyID signer) = false)
    (Htext : claims_text claims = true)
    (Haccepted : claims_accepted verifier now claims = true)
    (Hsign : Sign signer claims = Ok ticket) :
  Verify verifier now ticket = Ok claims.
Proof. by apply (signed_ticket_verifies signer verifier public). Qed.

(** ** What an accepted ticket is *)

Lemma Split_no_sep t sep parts p :
  Split t sep = parts -> p ∈ parts -> sep ∉ string_to_bytes p.
Proof.
  intros <- Hp. unfold Split in Hp. apply list_elem_of_In, in_map_iff in Hp as (l & <- & Hl).
  rewrite string_to_of_bytes. revert l Hl.
  remember (split_bytes sep (string_to_bytes t)) as ps eqn:E. symmetry in E.
  revert E. generalize (string_to_bytes t) as k.
  induction ps as [|q ps IH]; intros k E l Hl; [done|].
  apply split_bytes_cons_inv in E as [Hq Hr]. destruct Hl as [->|Hl]; [done|].
  destruct ps as [|q' ps]; [done|]. destruct Hr as (r & _ & Hr). by apply (IH r).
Qed.

Lemma verify_inv verifier now ticket claims :
  Verify verifier now ticket = Ok claims ->
  exists headerPart claimsPart signaturePart,
    Split ticket dot = [headerPart; claimsPart; signaturePart] /\
    verify_parts verifier now headerPart claimsPart signaturePart = Some claims.
Proof.
  unfold Verify. intros Hv. inv_ok. change x2e with dot in Hv.
  destruct (Split ticket dot) as [|h [|c [|g [|]]]] eqn:Es; try discriminate Hv.
  inv_ok. destruct (verify_parts verifier now h c g) eqn:Ep; [|discriminate Hv].
  inv_ok. by exists h, c, g.
Qed.

Lemma verify_parts_inv verifier now h c g claims :
  verify_parts verifier now h c g = Some claims ->
  exists kid key signature,
    keys verifier !! kid = Some key /\ outside_window verifier now kid = false /\
    ed25519_Verify key (string_to_bytes (h +:+ "." +:+ c)) signature = true /\
    decode_claims c = Some claims /\ claims_accepted verifier now claims = true.
Proof.
  unfold verify_parts, select_key, signature_valid.
  destruct (decodePart h 1024) as [headerJSON|]; [|discriminate].
  destruct (DecodeStrictJSON headerJSON) as [hd|]; [|discriminate]. cbn [mbind option_bind].
  destruct (_ && _ && _); [|discriminate].
  destruct (keys verifier !! hd_KeyID hd) as [key|] eqn:Ek; [|discriminate]. cbn [mbind option_bind].
  destruct (outside_window _ _ _) eqn:Eo; [discriminate|].
  cbn [mbind option_bind]. destruct (b64_DecodeString g) as [signature|]; [|discriminate].
  destruct (ed25519_Verify key _ signature) eqn:Ev; [|by rewrite andb_false_r].
  rewrite andb_true_r. destruct (len signature =? _); [|discriminate].
  destruct (decode_claims c) as [cl|] eqn:Ed; [|discriminate]. cbn [mbind option_bind].
  destruct (claims_accepted _ _ _) eqn:Ea; [|discriminate]. intros [= ->].
  by exists (hd_KeyID hd), key, signature.
Qed.

Lemma decode_claims_inv part claims :
  decode_claims part = Some claims ->
  validateClaims claims = Ok tt /\
  exists raw, b64_DecodeString part = Some raw /\ DecodeStrictJSON raw = Some claims.
Proof.
  unfold decode_claims, decodePart. destruct (b64_DecodeString part) as [raw|]; [|discriminate].
  destruct (_ || _); [discriminate|]. destruct (DecodeStrictJSON raw) as [cl|] eqn:E; [|discriminate].
  cbn [mbind option_bind]. destruct (validateClaims cl) as [[]|] eqn:Ev; [|discriminate].
  intros [= ->]. eauto.
Qed.

(** The texts signed under the verifier's keys are tickets for the claims of
    [issued]: nobody else can sign. *)
Definition only_issued (verifier : Verifier) (issued : list Claims) : Prop :=
  forall kid key message signature,
    keys verifier !! kid = Some key -> ed25519_Verify key message signature = true ->
    exists id claims, claims ∈ issued /\ message = string_to_bytes (unsigned_ticket id claims).

(** C18 (safety). When only the issuer can sign, the claims a verifier returns
    are claims that were issued, they are valid, and they are bound to this
    verifier's issuer, audience and operation, under a key that is within its
    window at a time at which the ticket is current: no part of another ticket
    can be substituted. *)
Theorem verified_claims_were_issued (verifier : Verifier) (issued : list Claims) (now : time)
    (ticket : string) (claims : Claims)
    (Hjson : json_laws) (Htexts : Forall (fun c => claims_text c = true) issued)
    (Hsigned : only_issued verifier issued)
    (Hverify : Verify verifier now ticket = Ok claims) :
  claims ∈ issued /\ validateClaims claims = Ok tt /\
  Issuer claims = issuer verifier /\ Audience claims = audience verifier /\
  requiredOperation verifier ∈ Operations claims /\
  (exists kid key, keys verifier !! kid = Some key /\ outside_window verifier now kid = false) /\
  int64 (time_Unix now - Z.quot (clockSkew verifier) Second) < ExpiresAt claims /\
  cl_NotBefore claims <= int64 (time_Unix now + Z.quot (clockSkew verifier) Second).
Proof.
  apply verify_inv in Hverify as (h & c & g & Hsplit & Hparts).
  apply verify_parts_inv in Hparts as (kid & key & signature & Hkey & Hwin & Hver & Hdec & Hacc).
  apply decode_claims_inv in Hdec as (Hvalid & raw & Hraw & Hclaims).
  destruct (Hsigned _ _ _ _ Hkey Hver) as (id & cl & Hin & Hmessage).
  assert (claims = cl) as ->.
  { apply signed_part_inj in Hmessage as [_ ->].
    - rewrite b64_decode_encode in Hraw. simplify_eq. unfold DecodeStrictJSON in Hclaims.
      rewrite Forall_forall in Htexts. rewrite (json_claims Hjson cl) in Hclaims by auto.
      cbn in Hclaims. congruence.
    - apply (Split_no_sep _ _ _ h Hsplit). set_solver.
    - apply plain_no_dot, b64_bytes_plain.
    - apply (Split_no_sep _ _ _ c Hsplit). set_solver.
    - apply plain_no_dot, b64_bytes_plain. }
  unfold claims_accepted in Hacc. bool_hyps. split; [done|]. split; [done|]. eauto 10.
Qed.
End facts.

(** ** Lifetimes *)

Lemma validateClaims_times claims :
  validateClaims claims = Ok tt ->
  0 < IssuedAt claims < ExpiresAt claims /\ IssuedAt claims <= cl_NotBefore claims /\
  claims_lifetime claims <= MaximumLifetime.
Proof. unfold validateClaims. intros Hv. inv_ok. bool_hyps. lia. Qed.

(** The number of seconds a [time.Duration] can hold. *)
Definition duration_seconds : Z := 9223372036.

(** Valid claims whose lifetime in seconds fits a [time.Duration]
    live at most one minute. *)
Theorem ticket_lifetime (claims : Claims)
    (Hvalid : validateClaims claims = Ok tt)
    (Hfits : ExpiresAt claims - IssuedAt claims <= duration_seconds) :
  0 < ExpiresAt claims - IssuedAt claims <= 60.
Proof.
  apply validateClaims_times in Hvalid as (Ht & _ & Hl). unfold claims_lifetime, MaximumLifetime, Minute, Second, duration_seconds in *.
  rewrite !int64_small in Hl by (rewrite ?int64_small; unfold i64; lia). lia.
Qed.

(** ** Building a verifier *)

Section new_verifier.
Implicit Types (validities : gmap string KeyValidity) (entries : list (string * bytes)).

Definition entry_ok validities (entry : string * bytes) : Prop :=
  ValidIdentifier entry.1 128 = true /\ len entry.2 = ed25519_PublicKeySize /\
  forall validity, validities !! entry.1 = Some validity -> valid_window validity = true.

Lemma add_key_inv validities entry built built' :
  add_key validities entry built = Ok built' ->
  entry_ok validities entry /\ built'.1 = <[entry.1 := entry.2]> built.1 /\
  built'.2 = match validities !! entry.1 with
             | Some validity => <[entry.1 := validity]> built.2
             | None => built.2
             end.
Proof.
  destruct entry as [id key]. unfold add_key, entry_ok. cbn.
  destruct (ValidIdentifier id 128); [|discriminate].
  destruct (Z.eqb_spec (len key) ed25519_PublicKeySize); [|discriminate]. cbn.
  destruct (validities !! id) as [validity|]; [destruct (valid_window validity) eqn:E; [|discriminate]|];
    intros [= <-]; cbn; repeat split; try done; intros ? [= <-]; done.
Qed.

Lemma add_keys_inv validities entries built built' :
  add_keys validities entries built = Ok built' ->
  Forall (entry_ok validities) entries /\
  (forall id, built'.1 !! id = match (list_to_map (rev entries) : gmap string bytes) !! id with
                              | Some key => Some key | None => built.1 !! id end) /\
  (forall id, id ∈ entries.*1 -> built'.2 !! id = match validities !! id with
                                       | Some validity => Some validity | None => built.2 !! id end) /\
  (forall id, id ∉ entries.*1 -> built'.2 !! id = built.2 !! id).
Proof.
  revert built. induction entries as [|[i k] entries IH]; intros built; cbn [add_keys].
  - intros [= ->]. split; [by apply Forall_nil_2|]. split; [done|]. split; [set_solver|done].
  - intros Ha. inv_ok. apply add_key_inv in E as (Hok & E1 & E2). cbn [fst snd] in *.
    apply IH in Ha as (Hall & Hk & Hin & Hout). split; [by apply Forall_cons_2|]. split.
    { intros id. rewrite Hk. change (rev ((i, k) :: entries)) with (rev entries ++ [(i, k)]).
      rewrite list_to_map_app, lookup_union. destruct (_ !! id) as [x|]; [by destruct (_ !! id)|].
      rewrite E1. cbn. rewrite (left_id_L None (∪)). destruct (decide (i = id)) as [<-|].
      - by rewrite !lookup_insert_eq.
      - by rewrite !lookup_insert_ne. }
    split.
    + intros id Hid. destruct (decide (id ∈ entries.*1)) as [Hd|Hd].
      * rewrite Hin by done. destruct (validities !! id) eqn:Ev; [done|]. rewrite E2.
        destruct (validities !! i) eqn:Evi; [|done].
        rewrite lookup_insert_ne; [done|congruence].
      * assert (id = i) as -> by set_solver. rewrite Hout, E2 by done.
        destruct (validities !! i) eqn:Ev; [by rewrite lookup_insert_eq|done].
    + intros id Hid. rewrite Hout, E2 by set_solver.
      destruct (validities !! i); [|done]. rewrite lookup_insert_ne; [done|set_solver].
Qed.

Lemma NewVerifier_in_exact (order : list (string * bytes)) (config : VerifierConfig) (verifier : Verifier)
    (Horder : Permutation order (map_to_list (cfg_Keys config)))
    (Hnew : NewVerifier_in order config = Ok verifier) :
  keys verifier = cfg_Keys config /\ keyValidity verifier = cfg_KeyValidity config /\
  map_Forall (fun id key => ValidIdentifier id 128 = true /\ len key = ed25519_PublicKeySize)
    (keys verifier) /\
  map_Forall (fun id validity => is_Some (keys verifier !! id) /\
                kv_NotBefore validity < kv_NotAfter validity) (keyValidity verifier) /\
  0 < clockSkew verifier <= Minute.
Proof.
  unfold NewVerifier_in in Hnew. inv_ok.
  match goal with Ha : add_keys _ _ _ = Ok ?built |- _ => rename Ha into Hadd; destruct built as [ks vs] end.
  inv_ok. match goal with Hf : forallb _ _ = true |- _ => rename Hf into Hwindows end.
  bool_hyps. cbn [keys keyValidity clockSkew].
  apply add_keys_inv in Hadd as (Hall & Hk & Hin & Hout). cbn [fst snd] in *.
  assert (Hfst : NoDup order.*1) by (rewrite Horder; apply NoDup_fst_map_to_list).
  assert (ks = cfg_Keys config) as ->.
  { apply map_eq. intros id. rewrite Hk, lookup_empty.
    rewrite <- (list_to_map_to_list (cfg_Keys config)).
    rewrite (list_to_map_proper _ order); [|by rewrite <- Permutation_rev|by rewrite <- Permutation_rev].
    rewrite (list_to_map_proper _ (map_to_list (cfg_Keys config))) by done.
    by destruct (_ !! id). }
  assert (Hdom : forall id, id ∈ order.*1 <-> is_Some (cfg_Keys config !! id)).
  { intros id. rewrite Horder, list_elem_of_fmap. split.
    - intros ([i k] & -> & Hi%elem_of_map_to_list). by exists k.
    - intros [k Hi]. exists (id, k). split; [done|]. by apply elem_of_map_to_list. }
  rewrite forallb_forall in Hwindows.
  assert (Hkeyed : map_Forall (fun id _ => is_Some (cfg_Keys config !! id)) (cfg_KeyValidity config)).
  { intros id v Hv. specialize (Hwindows (id, v)). eapply bool_decide_eq_true, Hwindows.
    apply list_elem_of_In. by apply elem_of_map_to_list. }
  assert (vs = cfg_KeyValidity config) as ->.
  { apply map_eq. intros id. destruct (decide (id ∈ order.*1)) as [Hd|Hd].
    - rewrite Hin by done. rewrite lookup_empty. by destruct (_ !! id).
    - rewrite Hout, lookup_empty by done. destruct (cfg_KeyValidity config !! id) eqn:Ev; [|done].
      exfalso. apply Hd, Hdom. by eapply Hkeyed. }
  rewrite Forall_forall in Hall.
  assert (Hentry : forall id key, cfg_Keys config !! id = Some key ->
                     entry_ok (cfg_KeyValidity config) (id, key)).
  { intros id key Hi. apply Hall. rewrite Horder. by apply elem_of_map_to_list. }
  split; [done|]. split; [done|]. split; [|split].
  - intros id key Hi. destruct (Hentry _ _ Hi) as (? & ? & _). done.
  - intros id v Hv. destruct (Hkeyed _ _ Hv) as [key Hi].
    destruct (Hentry _ _ Hi) as (_ & _ & Hw). specialize (Hw v Hv).
    split; [by exists key|]. unfold valid_window, After in Hw. by bool_hyps.
  - destruct (cfg_ClockSkew config =? 0) eqn:Es; bool_hyps; [done|lia].
Qed.

(** In whatever order the keys are visited, a verifier is
    built only from well-formed keys and windows, and holds exactly the
    configured keys and exactly the configured windows. *)
Theorem new_verifier_exact (order : list (string * bytes)) (config : VerifierConfig) (verifier : Verifier)
    (Horder : Permutation order (map_to_list (cfg_Keys config)))
    (Hnew : NewVerifier_in order config = Ok verifier) :
  keys verifier = cfg_Keys config /\ keyValidity verifier = cfg_KeyValidity config /\
  map_Forall (fun id key => ValidIdentifier id 128 = true /\ len key = ed25519_PublicKeySize)
    (keys verifier) /\
  map_Forall (fun id validity => is_Some (keys verifier !! id) /\
                kv_NotBefore validity < kv_NotAfter validity) (keyValidity verifier) /\
  0 < clockSkew verifier <= Minute.
Proof. by apply (NewVerifier_in_exact order). Qed.
End new_verifier.

(** * Relay tickets on concrete runs

    A signer, a verifier, its keys and a ticket, with the concrete encodings,
    and the properties of tickets applied to them. *)


Definition ser_header : Ser header.
Proof.
  refine (ser_image (ser_pair ser_string (ser_pair ser_string ser_string))
            (fun h => (hd_Algorithm h, (hd_Type h, hd_KeyID h)))
            (fun t => let '(a, (b, c)) := t in mkHeader a b c) _).
  by intros [].
Defined.

Definition ser_claims : Ser Claims.
Proof.
  refine (ser_image
    (ser_pair ser_Z (ser_pair ser_string (ser_pair ser_string (ser_pair ser_string
      (ser_pair (ser_list ser_string) (ser_pair ser_string (ser_pair ser_string
      (ser_pair ser_Z (ser_pair ser_string (ser_pair (ser_list ser_string)
      (ser_pair ser_string (ser_pair ser_string (ser_pair ser_Z (ser_pair ser_Z
      (ser_pair ser_Z (ser_pair (ser_option ser_bool) ser_string))))))))))))))))
    (fun c => (cl_Version c, (Issuer c, (Audience c, (IdentityID c, (Groups c, (DeviceID c,
       (SessionID c, (SessionGeneration c, (Namespace c, (Operations c, (NetworkSpecHash c,
       (TicketID c, (IssuedAt c, (cl_NotBefore c, (ExpiresAt c, (TrafficEncryption c,
       cl_NoisePublicKey c)))))))))))))))))
    (fun t => let '(a, (b, (c, (d, (e, (f, (g, (h, (i, (j, (k, (l, (m, (n, (o, (p, q)))))))))))))))) := t
       in mkClaims a b c d e f g h i j k l m n o p q) _).
  by intros [].
Defined.

#[export] Instance codec_header : JsonCodec header := ser_codec ser_header.
#[export] Instance codec_claims : JsonCodec Claims := ser_codec ser_claims.

Lemma put_bytes_length l : len (put_bytes l) = 2 * len l + 1.
Proof. unfold len. induction l as [|b l IH]; [done|]. cbn [put_bytes List.length]. lia. Qed.

Lemma codec_laws : json_laws.
Proof.
  split; [done|done|intros; by apply ser_codec_roundtrip| |intros; by apply ser_codec_roundtrip].
  intros [a t k]. change (json_Marshal _) with (put_string a ++ put_string t ++ put_string k).
  unfold put_string. cbn [hd_Algorithm hd_Type hd_KeyID].
  rewrite !len_app, !put_bytes_length, !slen_bytes.
  pose proof (len_nonneg (string_to_bytes a)). pose proof (len_nonneg (string_to_bytes t)).
  pose proof (len_nonneg (string_to_bytes k)). lia.
Qed.

Definition sample_claims : Claims :=
  mkClaims 2 "https://cp.example" "relay-a" "identity-1" ["developers"] "device-1" "session-1" 7
    "development" ["tunnel"] simple_digest "ticket-1" 1000 1000 1060 (Some true) "".

Definition sample_private : bytes := x07 :: repeat x01 63.
Definition sample_public : bytes := x07 :: repeat x02 31.
Definition sample_signer : Signer := mkSigner "key-1" sample_private.
Definition sample_config : VerifierConfig :=
  mkVerifierConfig {["key-1" := sample_public]}
    {["key-1" := mkKeyValidity (Unix_time 900) (Unix_time 2000)]}
    "https://cp.example" "relay-a" "tunnel" 0.
Definition sample_verifier : Verifier :=
  mkVerifier {["key-1" := sample_public]}
    {["key-1" := mkKeyValidity (Unix_time 900) (Unix_time 2000)]}
    "https://cp.example" "relay-a" "tunnel" DefaultClockSkew.
Definition sample_now : time := Unix_time 1030.
Definition sample_ticket : string :=
  match Sign sample_signer sample_claims with Ok t => t | Err _ => "" end.

Example sample_signed : is_ok (Sign sample_signer sample_claims) = true.
Proof. by vm_compute. Qed.
Example sample_built : NewVerifier sample_config = Ok sample_verifier.
Proof. by vm_compute. Qed.

Lemma sample_key_pair : key_pair sample_private sample_public.
Proof.
  intros message. split; [|by cbn; apply bool_decide_eq_true].
  unfold ed25519_Sign, simple_ed25519, simple_sign, len, ed25519_SignatureSize.
  rewrite length_take. cbn [List.length]. rewrite length_app, repeat_length. lia.
Qed.

Lemma sample_sign : Sign sample_signer sample_claims = Ok sample_ticket.
Proof. by vm_compute. Qed.

Lemma sign_verify_witness : Verify sample_verifier sample_now sample_ticket = Ok sample_claims.
Proof.
  apply (sign_verify sample_signer sample_verifier sample_public sample_now sample_claims sample_ticket).
  - exact codec_laws.
  - exact sample_key_pair.
  - by vm_compute.
  - by vm_compute.
  - by vm_compute.
  - by vm_compute.
  - by vm_compute.
  - exact sample_sign.
Defined.

(** A scheme under which only the sample claims are signed. *)
Definition sealed_ed25519 : Ed25519Package :=
  {| ed25519_Sign := simple_sign;
     ed25519_Verify := fun _ message _ =>
       bool_decide (message = string_to_bytes (unsigned_ticket "key-1" sample_claims)) |}.

Lemma sealed_issued : only_issued (H := sealed_ed25519) sample_verifier [sample_claims].
Proof.
  intros kid key message signature _ E. exists "key-1", sample_claims.
  split; [by apply list_elem_of_singleton|]. by apply bool_decide_eq_true in E.
Qed.

Lemma verified_claims_were_issued_witness :
  sample_claims ∈ [sample_claims] /\ requiredOperation sample_verifier ∈ Operations sample_claims.
Proof.
  destruct (verified_claims_were_issued (H := sealed_ed25519) sample_verifier [sample_claims] sample_now
    sample_ticket sample_claims codec_laws) as (Hin & _ & _ & _ & Hop & _).
  - by apply Forall_singleton.
  - exact sealed_issued.
  - by vm_compute.
  - exact (conj Hin Hop).
Defined.

Lemma ticket_lifetime_witness : 0 < ExpiresAt sample_claims - IssuedAt sample_claims <= 60.
Proof. apply (ticket_lifetime sample_claims); [by vm_compute|by vm_compute]. Defined.

Lemma new_verifier_exact_witness :
  keys sample_verifier = cfg_Keys sample_config /\ 0 < clockSkew sample_verifier <= Minute.
Proof.
  destruct (new_verifier_exact (map_to_list (cfg_Keys sample_config)) sample_config sample_verifier)
    as (E & _ & _ & _ & Hs).
  - reflexivity.
  - by vm_compute.
  - exact (conj E Hs).
Defined.

(** ** Key files *)

(** PEM as hexadecimal text. *)
Definition hex_keys : KeyEncodingPackage :=
  {| pem_Decode := fun s => (b ← hex_DecodeString s; Some (mkPemBlock "PUBLIC KEY" b), []);
     pem_EncodeToMemory := fun b => hex_encode_bytes (pem_Bytes b);
     x509_ParsePKIXPublicKey := fun l => Some (Ed25519Key l);
     x509_MarshalPKIXPublicKey := Some;
     x509_ParsePKCS8PrivateKey := fun l => Some (Ed25519Key l) |}.

Definition ser_document : Ser publicKeysFile.
Proof.
  refine (ser_image (ser_list (ser_pair ser_string ser_string))
    (fun d => map (fun e => (pke_KeyID e, pke_PublicKey e)) (pkf_Keys d))
    (fun l => mkPublicKeysFile (map (fun t => mkPublicKeyEntry t.1 t.2) l)) _).
  intros [l]. f_equal. cbn. induction l as [|[] l IH]; cbn; by rewrite ?IH.
Defined.
Definition codec_document : JsonCodec publicKeysFile := ser_codec ser_document.

Lemma hex_roundtrip : encodings_roundtrip (H0 := hex_keys) (H1 := codec_document).
Proof.
  split.
  - intros encoded. apply utf8_valid_ascii. unfold all_bytes. rewrite string_to_of_bytes.
    apply hex_encode_ascii.
  - intros encoded. change (pem_EncodeToMemory _) with (hex_encode_bytes encoded).
    unfold pem_Decode, hex_keys, hex_DecodeString. by rewrite string_to_of_bytes, hex_decode_encode.
  - intros document _. apply ser_codec_roundtrip.
  - intros key _. by exists key.
Qed.

Definition sample_keys : gmap string bytes := {["key-1" := sample_public; "key-0" := repeat x05 32]}.
Definition sample_document : bytes :=
  match MarshalVerificationKeys (H0 := hex_keys) (H1 := codec_document) sample_keys with
  | Ok data => data | Err _ => [] end.
Definition sample_files : FileSystem :=
  {| os_ReadFile := fun path => if bool_decide (path = "/keys.json") then Some sample_document else None |}.

Lemma verification_keys_roundtrip_witness :
  LoadVerificationKeys (H := sample_files) (H0 := hex_keys) (H1 := codec_document) " /keys.json"
  = Ok sample_keys.
Proof.
  apply (verification_keys_roundtrip (H := sample_files) (H0 := hex_keys) (H1 := codec_document)
           " /keys.json" sample_keys sample_document).
  - exact hex_roundtrip.
  - by vm_compute.
  - by vm_compute.
  - by vm_compute.
  - by vm_compute.
Defined.

(** ** Lifetimes that overflow *)

(** The lifetime check multiplies seconds by [time.Second] in 64
    bits: claims that live [2 ^ 55] seconds are valid, although they exceed the
    maximum lifetime. *)
Theorem overlong_ticket_valid :
  exists claims, validateClaims claims = Ok tt /\ ExpiresAt claims - IssuedAt claims = 2 ^ 55 /\
    MaximumLifetime < (ExpiresAt claims - IssuedAt claims) * Second.
Proof.
  exists (mkClaims 2 "https://cp.example" "relay-a" "identity-1" [] "device-1" "session-1" 7
    "development" ["tunnel"] simple_digest "ticket-1" 1000 1000 (1000 + 2 ^ 55) None "").
  by vm_compute.
Qed.
