(* ===== verification/RelayBearer.v ===== *)
(** * Relay bearer tickets ([internal/auth/relaybearer])

    The replay guard, the Session generation guard and the request verifier
    built on them and on the ticket verifier of [RelayTicket].  Each guard is
    guarded by a mutex, so an operation is one step on its map.  A guard reads
    the clock before it takes its mutex: a reading is an argument of the step,
    and the readings of successive steps need not increase. *)

From S2P Require Import Prelude GoLib GoText External Utils RelayTicket.
From S2P Require Import ConcreteEnv RelayTicketKeys RelayTicketFacts.

Definition DefaultReplayEntries : Z := 65536.

(** [if maxEntries == 0 { ... }; if maxEntries < 1 || maxEntries > 1_000_000] *)
Definition guard_entries (maxEntries : Z) (msg : string) : result Z :=
  let maxEntries := if maxEntries =? 0 then DefaultReplayEntries else maxEntries in
  if (maxEntries <? 1) || (1000000 <? maxEntries) then Err (NewError msg) else Ok maxEntries.

(** ** [ReplayGuard] *)

Module Replay.

Record ReplayGuard := mkReplayGuard {
  expires : gmap string Z;
  maxEntries : Z
}.

Definition NewReplayGuard (maxEntries : Z) : result ReplayGuard :=
  max ← guard_entries maxEntries "RelayTicket replay cache size is invalid";
  Ok (mkReplayGuard ∅ max).

(** [for existingID, existingExpiry := range guard.expires { ... delete ... }] *)
Definition purge (now : Z) (entries : gmap string Z) : gmap string Z :=
  filter (fun entry => now < entry.2) entries.

Definition set_expires (guard : ReplayGuard) (entries : gmap string Z) : ReplayGuard :=
  mkReplayGuard entries (maxEntries guard).

Definition full (max : Z) {V} (entries : gmap string V) : bool := max <=? Z.of_nat (size entries).

Definition Consume (guard : ReplayGuard) (nowTime : time) (ticketID : string) (expiresAt : time)
    : bool * ReplayGuard :=
  if negb (ValidIdentifier ticketID 128) then (false, guard)
  else
    let now := time_Unix nowTime in
    let exp := time_Unix expiresAt in
    if exp <=? now then (false, guard)
    else match expires guard !! ticketID with
    | Some _ => (false, guard)
    | None =>
        let entries := if full (maxEntries guard) (expires guard)
                       then purge now (expires guard) else expires guard in
        if full (maxEntries guard) entries then (false, set_expires guard entries)
        else (true, set_expires guard (<[ticketID := exp]> entries))
    end.
End Replay.

(** ** [SessionGenerationGuard] *)

Module Generations.

Record sessionGenerationEntry := mkEntry { generation : Z; expiresAt : Z }.

Record SessionGenerationGuard := mkGuard {
  entries : gmap string sessionGenerationEntry;
  maxEntries : Z
}.

Definition NewSessionGenerationGuard (maxEntries : Z) : result SessionGenerationGuard :=
  max ← guard_entries maxEntries "RelayTicket Session generation cache size is invalid";
  Ok (mkGuard ∅ max).

Definition set_entries (guard : SessionGenerationGuard) (m : gmap string sessionGenerationEntry)
    : SessionGenerationGuard := mkGuard m (maxEntries guard).

Definition purge (now : Z) (m : gmap string sessionGenerationEntry)
    : gmap string sessionGenerationEntry :=
  filter (fun entry => now < expiresAt entry.2) m.

(** The entry of a Session that is still live when a newer ticket arrives. *)
Definition advance (current : sessionGenerationEntry) (gen expires : Z) : sessionGenerationEntry :=
  mkEntry (if generation current <? gen then gen else generation current)
    (if expiresAt current <? expires then expires else expiresAt current).

(** A Session without a live entry is added when there is room. *)
Definition admit_session (guard : SessionGenerationGuard) (m : gmap string sessionGenerationEntry)
    (now : Z) (sessionID : string) (gen expires : Z) : bool * SessionGenerationGuard :=
  let m := if Replay.full (maxEntries guard) m then purge now m else m in
  if Replay.full (maxEntries guard) m then (false, set_entries guard m)
  else (true, set_entries guard (<[sessionID := mkEntry gen expires]> m)).

Definition Accept (guard : SessionGenerationGuard) (nowTime : time) (sessionID : string)
    (gen : Z) (expiresAtTime : time) : bool * SessionGenerationGuard :=
  if negb (ValidIdentifier sessionID 128) || (gen =? 0) then (false, guard)
  else
    let now := time_Unix nowTime in
    let expires := time_Unix expiresAtTime in
    if expires <=? now then (false, guard)
    else match entries guard !! sessionID with
    | Some current =>
        if expiresAt current <=? now
        then admit_session guard (delete sessionID (entries guard)) now sessionID gen expires
        else if gen <? generation current then (false, guard)
        else (true, set_entries guard (<[sessionID := advance current gen expires]> (entries guard)))
    | None => admit_session guard (entries guard) now sessionID gen expires
    end.
End Generations.

Import Replay Generations.

(** ** [RequestVerifier] *)

Record RequestVerifier := mkRequestVerifier {
  verifier : Verifier;
  replay : ReplayGuard;
  generations : SessionGenerationGuard;
  revocations : option (Claims -> time -> bool)
}.

Definition NewRequestVerifier (v : Verifier) (replay : ReplayGuard) : result RequestVerifier :=
  generations ← NewSessionGenerationGuard (Replay.maxEntries replay);
  Ok (mkRequestVerifier v replay generations None).

Definition Update (rv : RequestVerifier) (next : Verifier) (revocations : option (Claims -> time -> bool))
    : RequestVerifier :=
  mkRequestVerifier next (replay rv) (generations rv) revocations.

(** The clock readings one request makes. *)
Record readings := mkReadings {
  at_verify : time; at_revocation : time; at_consume : time; at_accept : time
}.

(** [strings.Fields]: the runs between the encodings of white space. *)
Definition add_byte (b : byte) (ps : list bytes) : list bytes :=
  match ps with [] => [[b]] | p :: ps' => (b :: p) :: ps' end.

Fixpoint fields_bytes (fuel : nat) (l : bytes) : list bytes :=
  match fuel with
  | O => [[]]
  | S fuel' =>
      match l with
      | [] => [[]]
      | b :: l' =>
          match strip_any space_encodings l with
          | Some r => [] :: fields_bytes fuel' r
          | None => add_byte b (fields_bytes fuel' l')
          end
      end
  end.

Definition Fields (s : string) : list string :=
  map bytes_to_string
    (List.filter (fun p => negb (bool_decide (p = [])))
      (fields_bytes (S (List.length (string_to_bytes s))) (string_to_bytes s))).

(** [strings.EqualFold] against ["Bearer"], whose letters have no fold outside
    ASCII. *)
Definition is_bearer (scheme : string) : bool := bool_decide (ToLower scheme = "bearer").

(** The ticket of the one [Authorization] header. *)
Definition bearer_ticket (headers : list string) : option string :=
  match headers with
  | [value] =>
      match Fields value with
      | [scheme; ticket] => if is_bearer scheme then Some ticket else None
      | _ => None
      end
  | _ => None
  end.

Section verify.
Context `{Ed25519Package, JsonCodec header, JsonCodec Claims}.

(** The two guards, after the ticket and its revocation were checked; a ticket
    the second guard refuses has been consumed. *)
Definition admit_claims (rv : RequestVerifier) (clock : readings) (consumeReplay : bool) (claims : Claims)
    : bool * RequestVerifier :=
  let expiresAt := Unix_time (ExpiresAt claims) in
  let '(fresh, replay') :=
    if consumeReplay then Consume (replay rv) (at_consume clock) (TicketID claims) expiresAt
    else (true, replay rv) in
  if fresh then
    let '(accepted, generations') :=
      Accept (generations rv) (at_accept clock) (SessionID claims) (SessionGeneration claims) expiresAt in
    (accepted, mkRequestVerifier (verifier rv) replay' generations' (revocations rv))
  else (false, mkRequestVerifier (verifier rv) replay' (generations rv) (revocations rv)).

Definition revoked (rv : RequestVerifier) (claims : Claims) (now : time) : bool :=
  match revocations rv with Some check => check claims now | None => false end.

Definition verify (rv : RequestVerifier) (clock : readings) (headers : list string) (consumeReplay : bool)
    : result Claims * RequestVerifier :=
  match bearer_ticket headers with
  | None => (Err ErrInvalid, rv)
  | Some ticket =>
      match RelayTicket.Verify (verifier rv) (at_verify clock) ticket with
      | Err _ => (Err ErrInvalid, rv)
      | Ok claims =>
          if revoked rv claims (at_revocation clock) then (Err ErrInvalid, rv)
          else let '(accepted, rv') := admit_claims rv clock consumeReplay claims in
               (if accepted then Ok claims else Err ErrInvalid, rv')
      end
  end.

Definition Verify (rv : RequestVerifier) (clock : readings) (headers : list string) := verify rv clock headers true.
Definition VerifyReusable (rv : RequestVerifier) (clock : readings) (headers : list string) := verify rv clock headers false.

(** ** Runs *)

Inductive event :=
| EvUpdate (next : Verifier) (revocations : option (Claims -> time -> bool))
| EvVerify (clock : readings) (headers : list string) (consumeReplay : bool).

Definition step (rv : RequestVerifier) (ev : event) : option (result Claims) * RequestVerifier :=
  match ev with
  | EvUpdate next revocations => (None, Update rv next revocations)
  | EvVerify clock headers consumeReplay =>
      let '(answer, rv') := verify rv clock headers consumeReplay in (Some answer, rv')
  end.

Fixpoint run (rv : RequestVerifier) (evs : list event) : RequestVerifier :=
  match evs with [] => rv | ev :: evs' => run (step rv ev).2 evs' end.
End verify.

(** * Correctness of the bearer ticket guards

    Tickets are not replayed, Session generations are fenced, live entries are
    never evicted, and what happens when the clock readings are out of order. *)

Import Replay Generations.

Lemma time_Unix_of s : time_Unix (Unix_time s) = s.
Proof. unfold time_Unix, Unix_time. rewrite Z.div_mul by (unfold Second; lia). lia. Qed.

Lemma time_Unix_mono t u : t <= u -> time_Unix t <= time_Unix u.
Proof. intros Htu. unfold time_Unix, Second. apply Z.sub_le_mono_r, Z.div_le_mono; lia. Qed.

Lemma full_false {V} max (m : gmap string V) : full max m = false <-> Z.of_nat (size m) < max.
Proof. unfold full. by rewrite Z.leb_gt. Qed.

Lemma purge_size {V} (P : string * V -> Prop) `{forall x, Decision (P x)} (m : gmap string V) :
  (size (filter P m) <= size m)%nat.
Proof. apply map_subseteq_size, map_filter_subseteq. Qed.

(** ** One guard operation *)

(** What [Consume] does: it keeps every live entry, stays within its capacity,
    and accepts only a valid, unexpired identifier it does not hold, which it
    then holds until it expires. *)
Record consumed (guard : ReplayGuard) (now : Z) (id : string) (exp : Z) (answer : bool)
    (guard' : ReplayGuard) : Prop := {
  consumed_max : Replay.maxEntries guard' = Replay.maxEntries guard;
  consumed_live : forall i e, expires guard !! i = Some e -> now < e -> expires guard' !! i = Some e;
  consumed_bound : Z.of_nat (size (expires guard)) <= Replay.maxEntries guard ->
                   Z.of_nat (size (expires guard')) <= Replay.maxEntries guard';
  consumed_fresh : answer = true ->
    now < exp /\ expires guard !! id = None /\ expires guard' !! id = Some exp
}.

Lemma Consume_spec guard nowTime id expTime answer guard' :
  Consume guard nowTime id expTime = (answer, guard') ->
  consumed guard (time_Unix nowTime) id (time_Unix expTime) answer guard'.
Proof.
  unfold Consume. set (now := time_Unix nowTime). set (exp := time_Unix expTime). intros E.
  assert (Hsame : (false, guard) = (answer, guard') -> consumed guard now id exp answer guard').
  { intros [= <- <-]. split; [done|auto|done|discriminate]. }
  destruct (negb (ValidIdentifier id 128)); [by apply Hsame|].
  destruct (exp <=? now) eqn:Eexp; [by apply Hsame|].
  destruct (expires guard !! id) as [e|] eqn:Eid; [by apply Hsame|].
  bool_hyps. set (kept := if full (Replay.maxEntries guard) (expires guard) then _ else _) in E.
  assert (Hkept : forall i e, expires guard !! i = Some e -> now < e -> kept !! i = Some e).
  { intros i e Hi He. unfold kept. destruct (full _ _); [|done].
    unfold Replay.purge. by rewrite map_lookup_filter_Some. }
  assert (Hnone : kept !! id = None).
  { unfold kept. destruct (full _ _); [|done]. unfold Replay.purge.
    rewrite map_lookup_filter_None. by left. }
  assert (Hsize : (size kept <= size (expires guard))%nat).
  { unfold kept. destruct (full _ _); [apply purge_size|done]. }
  destruct (full (Replay.maxEntries guard) kept) eqn:Efull; simplify_eq.
  - split; [done|done|cbn; lia|discriminate].
  - apply full_false in Efull. split; [done| | |].
    + intros i e Hi He. cbn. rewrite lookup_insert_ne by congruence. auto.
    + intros _. cbn. rewrite map_size_insert_None by done. lia.
    + intros _. cbn. by rewrite lookup_insert_eq.
Qed.

(** What [Accept] does: it keeps every live entry, which only grows, and
    accepts only a generation that is not below the Session's live one. *)
Record accepted (guard : SessionGenerationGuard) (now : Z) (sid : string) (gen exp : Z)
    (answer : bool) (guard' : SessionGenerationGuard) : Prop := {
  accepted_max : Generations.maxEntries guard' = Generations.maxEntries guard;
  accepted_live : forall i e, entries guard !! i = Some e -> now < expiresAt e ->
    exists e', entries guard' !! i = Some e' /\ generation e <= generation e' /\
               expiresAt e <= expiresAt e';
  accepted_bound : Z.of_nat (size (entries guard)) <= Generations.maxEntries guard ->
                   Z.of_nat (size (entries guard')) <= Generations.maxEntries guard';
  accepted_fence : answer = true ->
    (forall e, entries guard !! sid = Some e -> now < expiresAt e -> generation e <= gen) /\
    exists e, entries guard' !! sid = Some e /\ gen <= generation e /\ exp <= expiresAt e
}.

Lemma admit_session_spec guard m now sid gen exp answer guard' :
  (forall i e, entries guard !! i = Some e -> now < expiresAt e -> m !! i = Some e) ->
  m !! sid = None -> (size m <= size (entries guard))%nat ->
  admit_session guard m now sid gen exp = (answer, guard') ->
  accepted guard now sid gen exp answer guard'.
Proof.
  intros Hm Hsid Hsize. unfold admit_session. set (kept := if full (Generations.maxEntries guard) m then _ else _).
  assert (Hkept : forall i e, m !! i = Some e -> now < expiresAt e -> kept !! i = Some e).
  { intros i e Hi He. unfold kept. destruct (full _ _); [|done].
    unfold Generations.purge. by rewrite map_lookup_filter_Some. }
  assert (Hnone : kept !! sid = None).
  { unfold kept. destruct (full _ _); [|done]. unfold Generations.purge.
    rewrite map_lookup_filter_None. by left. }
  assert (Hk : (size kept <= size m)%nat).
  { unfold kept. destruct (full _ _); [apply purge_size|done]. }
  destruct (full _ kept) eqn:Efull; intros [= <- <-].
  - split; [done| |cbn; lia|discriminate].
    intros i e Hi He. exists e. cbn. split; [by apply Hkept; auto|lia].
  - apply full_false in Efull. split; [done| | |].
    + intros i e Hi He. exists e. cbn.
      rewrite lookup_insert_ne by (intros <-; specialize (Hm _ _ Hi He); congruence).
      split; [by apply Hkept; auto|lia].
    + intros _. cbn. rewrite map_size_insert_None by done. lia.
    + intros _. split.
      * intros e He Hlive. specialize (Hm _ _ He Hlive). congruence.
      * exists (mkEntry gen exp). cbn. rewrite lookup_insert_eq. split; [done|lia].
Qed.

Lemma Accept_spec guard nowTime sid gen expTime answer guard' :
  Accept guard nowTime sid gen expTime = (answer, guard') ->
  accepted guard (time_Unix nowTime) sid gen (time_Unix expTime) answer guard'.
Proof.
  unfold Accept. set (now := time_Unix nowTime). set (exp := time_Unix expTime). intros E.
  assert (Hsame : (false, guard) = (answer, guard') -> accepted guard now sid gen exp answer guard').
  { intros [= <- <-]. split; [done| |done|discriminate]. intros i e Hi _. exists e. split; [done|lia]. }
  destruct (_ || _); [by apply Hsame|]. destruct (exp <=? now); [by apply Hsame|].
  destruct (entries guard !! sid) as [cur|] eqn:Ecur.
  - destruct (expiresAt cur <=? now) eqn:Elive; bool_hyps.
    + apply admit_session_spec in E; [done| |apply lookup_delete_eq|].
      * intros i e Hi He. rewrite lookup_delete_ne; [done|]. intros <-. simplify_eq. lia.
      * apply map_subseteq_size, delete_subseteq.
    + destruct (gen <? generation cur) eqn:Egen; [by apply Hsame|]. bool_hyps. simplify_eq.
      assert (Hadv : generation cur <= generation (advance cur gen exp) /\ gen <= generation (advance cur gen exp) /\
                     expiresAt cur <= expiresAt (advance cur gen exp) /\ exp <= expiresAt (advance cur gen exp)).
      { unfold advance. cbn. repeat case_match_eqn; bool_hyps; lia. }
      split; [done| | |].
      * intros i e Hi He. cbn [entries set_entries]. destruct (decide (i = sid)) as [->|Hne].
        -- assert (e = cur) as -> by congruence. exists (advance cur gen exp). rewrite lookup_insert_eq. split; [done|lia].
        -- exists e. rewrite lookup_insert_ne by done. split; [done|lia].
      * intros Hb. cbn [entries set_entries]. by rewrite map_size_insert_Some by done.
      * intros _. split; [intros e He _; by assert (e = cur) as -> by congruence|].
        exists (advance cur gen exp). cbn [entries set_entries]. rewrite lookup_insert_eq. split; [done|lia].
  - by apply admit_session_spec in E.
Qed.

(** ** Runs of requests *)

(** The clock readings a guard makes in a run, [reading] telling which, do not
    decrease; they are all between [t] and [t']. *)
Fixpoint clocked (reading : readings -> time) (t : time) (evs : list event) (t' : time) : Prop :=
  match evs with
  | [] => t <= t'
  | EvUpdate _ _ :: evs' => clocked reading t evs' t'
  | EvVerify clock _ _ :: evs' => t <= reading clock /\ clocked reading (reading clock) evs' t'
  end.

Section runs.
Context `{Ed25519Package, JsonCodec header, JsonCodec Claims}.
Implicit Types (rv : RequestVerifier).

(** The steps one request takes on the guards. *)
Lemma verify_steps rv clock headers consume answer rv' :
  verify rv clock headers consume = (answer, rv') ->
  (replay rv' = replay rv \/
   exists id exp b, Consume (replay rv) (at_consume clock) id exp = (b, replay rv')) /\
  (generations rv' = generations rv \/
   exists sid gen exp b, Accept (generations rv) (at_accept clock) sid gen exp = (b, generations rv')).
Proof.
  unfold verify, admit_claims. destruct (bearer_ticket headers); [|intros [= <- <-]; auto].
  destruct (RelayTicket.Verify _ _ _) as [claims|]; [|intros [= <- <-]; auto].
  destruct (revoked _ _ _); [intros [= <- <-]; auto|].
  set (exp := Unix_time (ExpiresAt claims)).
  destruct consume; [destruct (Consume _ _ _ exp) as [[] replay'] eqn:Ec|];
    [destruct (Accept _ _ _ _ exp) as [ok generations'] eqn:Ea| |
     destruct (Accept _ _ _ _ exp) as [ok generations'] eqn:Ea];
    intros [= <- <-]; cbn [replay generations]; (split; [|]);
    first [by left|right; do 3 eexists; exact Ec|right; do 4 eexists; exact Ea].
Qed.

Lemma verify_consumed rv clock headers claims rv' :
  verify rv clock headers true = (Ok claims, rv') ->
  Consume (replay rv) (at_consume clock) (TicketID claims) (Unix_time (ExpiresAt claims))
  = (true, replay rv').
Proof.
  unfold verify, admit_claims. destruct (bearer_ticket headers); [|discriminate].
  destruct (RelayTicket.Verify _ _ _) as [cl|]; [|discriminate].
  destruct (revoked _ _ _); [discriminate|].
  destruct (Consume _ _ _ _) as [[] replay'] eqn:Ec; [|discriminate].
  destruct (Accept _ _ _ _ _) as [[] generations']; [|discriminate]. by intros [= <- <-].
Qed.

Lemma verify_accepted rv clock headers consume claims rv' :
  verify rv clock headers consume = (Ok claims, rv') ->
  Accept (generations rv) (at_accept clock) (SessionID claims) (SessionGeneration claims)
    (Unix_time (ExpiresAt claims)) = (true, generations rv').
Proof.
  unfold verify, admit_claims. destruct (bearer_ticket headers); [|discriminate].
  destruct (RelayTicket.Verify _ _ _) as [cl|]; [|discriminate].
  destruct (revoked _ _ _); [discriminate|].
  destruct (if consume then _ else _) as [[] replay']; [|discriminate].
  destruct (Accept _ _ _ _ _) as [[] generations'] eqn:Ea; [|discriminate]. by intros [= <- <-].
Qed.

(** Once accepted, an identifier is held until it expires. *)
Definition held (id : string) (exp : Z) (t : time) rv : Prop :=
  expires (replay rv) !! id = Some exp \/ exp <= time_Unix t.

Lemma held_step id exp t rv clock headers consume :
  t <= at_consume clock -> held id exp t rv ->
  held id exp (at_consume clock) (verify rv clock headers consume).2.
Proof.
  intros Ht Hheld. destruct (verify _ _ _ _) as [answer rv'] eqn:E. cbn.
  pose proof (time_Unix_mono _ _ Ht). apply verify_steps in E as [Hr _].
  destruct Hheld as [Hin|Hexp]; [|right; lia].
  destruct Hr as [Hr|(i & e & b & Hc)]; [left; by rewrite Hr|].
  apply Consume_spec in Hc. destruct (Z.le_gt_cases exp (time_Unix (at_consume clock))); [by right|].
  left. by eapply consumed_live.
Qed.

Lemma held_run id exp t rv evs t' :
  clocked at_consume t evs t' -> held id exp t rv -> held id exp t' (run rv evs).
Proof.
  revert t rv. induction evs as [|[next rev|clock headers consume] evs IH]; intros t rv Hc Hheld; cbn in *.
  - destruct Hheld as [?|Hexp]; [by left|right]. apply time_Unix_mono in Hc. lia.
  - by apply (IH t).
  - destruct Hc as [Ht Hc]. apply (IH (at_consume clock)); [done|].
    pose proof (held_step id exp t rv clock headers consume Ht Hheld) as Hs.
    by destruct (verify rv clock headers consume).
Qed.

(** C31 (safety). Whatever requests and updates come between, as long as the
    replay guard's clock readings do not decrease, a ticket identifier that a
    request consumed is only accepted again after the first ticket has expired
    and for a ticket that expires later: no ticket is accepted twice. *)
Theorem ticket_not_replayed rv rv1 rv3 clock1 clock2 headers1 headers2 claims1 claims2 evs
    (Hfirst : verify rv clock1 headers1 true = (Ok claims1, rv1))
    (Hclock : clocked at_consume (at_consume clock1) evs (at_consume clock2))
    (Hsecond : verify (run rv1 evs) clock2 headers2 true = (Ok claims2, rv3))
    (Hsame : TicketID claims2 = TicketID claims1) :
  ExpiresAt claims1 <= time_Unix (at_consume clock2) < ExpiresAt claims2.
Proof.
  apply verify_consumed, Consume_spec in Hfirst, Hsecond.
  destruct (consumed_fresh _ _ _ _ _ _ Hfirst eq_refl) as (_ & _ & Hin).
  destruct (consumed_fresh _ _ _ _ _ _ Hsecond eq_refl) as (Hlive & Hout & _).
  rewrite time_Unix_of in *. rewrite Hsame in Hout.
  destruct (held_run (TicketID claims1) (ExpiresAt claims1) _ rv1 evs _ Hclock) as [Hheld|Hexp];
    [by left|congruence|lia].
Qed.

(** Once accepted, a generation fences the older ones until it expires. *)
Definition fenced (sid : string) (gen exp : Z) (t : time) rv : Prop :=
  exp <= time_Unix t \/
  exists e, entries (generations rv) !! sid = Some e /\ gen <= generation e /\ exp <= expiresAt e.

Lemma fenced_step sid gen exp t rv clock headers consume :
  t <= at_accept clock -> fenced sid gen exp t rv ->
  fenced sid gen exp (at_accept clock) (verify rv clock headers consume).2.
Proof.
  intros Ht Hf. destruct (verify _ _ _ _) as [answer rv'] eqn:E. cbn.
  pose proof (time_Unix_mono _ _ Ht). apply verify_steps in E as [_ Hg].
  destruct Hf as [Hexp|(e & He & Hgen & Hexp)]; [left; lia|].
  destruct Hg as [Hg|(s & g & x & b & Ha)]; [right; exists e; by rewrite Hg|].
  apply Accept_spec in Ha. destruct (Z.le_gt_cases exp (time_Unix (at_accept clock))); [by left|].
  destruct (accepted_live _ _ _ _ _ _ _ Ha sid e He) as (e' & He' & ? & ?); [lia|].
  right. exists e'. split; [done|lia].
Qed.

Lemma fenced_run sid gen exp t rv evs t' :
  clocked at_accept t evs t' -> fenced sid gen exp t rv -> fenced sid gen exp t' (run rv evs).
Proof.
  revert t rv. induction evs as [|[next rev|clock headers consume] evs IH]; intros t rv Hc Hf; cbn in *.
  - destruct Hf as [Hexp|?]; [left|by right]. apply time_Unix_mono in Hc. lia.
  - by apply (IH t).
  - destruct Hc as [Ht Hc]. apply (IH (at_accept clock)); [done|].
    pose proof (fenced_step sid gen exp t rv clock headers consume Ht Hf) as Hs.
    by destruct (verify rv clock headers consume).
Qed.

(** After a request for a generation of a Session was accepted,
    with either kind of verification, no ticket of an older generation of that
    Session is accepted until the accepted ticket has expired. *)
Theorem older_generation_fenced rv rv1 rv3 clock1 clock2 headers1 headers2 consume1 consume2 claims1 claims2 evs
    (Hfirst : verify rv clock1 headers1 consume1 = (Ok claims1, rv1))
    (Hclock : clocked at_accept (at_accept clock1) evs (at_accept clock2))
    (Hsecond : verify (run rv1 evs) clock2 headers2 consume2 = (Ok claims2, rv3))
    (Hsession : SessionID claims2 = SessionID claims1)
    (Holder : SessionGeneration claims2 < SessionGeneration claims1) :
  ExpiresAt claims1 <= time_Unix (at_accept clock2).
Proof.
  apply verify_accepted, Accept_spec in Hfirst, Hsecond.
  destruct (accepted_fence _ _ _ _ _ _ _ Hfirst eq_refl) as (_ & e & He & Hgen & Hexp).
  destruct (accepted_fence _ _ _ _ _ _ _ Hsecond eq_refl) as (Hfence & _).
  rewrite time_Unix_of in *. rewrite Hsession in Hfence.
  destruct (fenced_run (SessionID claims1) (SessionGeneration claims1) (ExpiresAt claims1) _ rv1 evs _ Hclock)
    as [?|(e2 & He2 & Hg2 & Hx2)]; [right; by exists e|done|].
  destruct (Z.le_gt_cases (ExpiresAt claims1) (time_Unix (at_accept clock2))); [done|].
  specialize (Hfence e2 He2). lia.
Qed.

(** Both guards are within their capacity. *)
Definition guards_bounded rv : Prop :=
  Z.of_nat (size (expires (replay rv))) <= Replay.maxEntries (replay rv) /\
  Z.of_nat (size (entries (generations rv))) <= Generations.maxEntries (generations rv).

Lemma guards_bounded_verify rv clock headers consume :
  guards_bounded rv -> guards_bounded (verify rv clock headers consume).2.
Proof.
  intros [Hr Hg]. destruct (verify _ _ _ _) as [answer rv'] eqn:E.
  apply verify_steps in E as [[Er|(i & e & b & Hc)] [Eg|(s & g & x & b' & Ha)]];
    unfold guards_bounded; cbn; rewrite ?Er, ?Eg; split; try done;
    first [by eapply consumed_bound; [eapply Consume_spec|]|by eapply accepted_bound; [eapply Accept_spec|]].
Qed.

Lemma guards_bounded_run rv evs : guards_bounded rv -> guards_bounded (run rv evs).
Proof.
  revert rv. induction evs as [|[next rev|clock headers consume] evs IH]; intros rv Hb; cbn; [done|by apply IH|].
  apply IH. pose proof (guards_bounded_verify rv clock headers consume Hb).
  by destruct (verify rv clock headers consume).
Qed.

Lemma new_guards_bounded n v guard rv :
  NewReplayGuard n = Ok guard -> NewRequestVerifier v guard = Ok rv -> guards_bounded rv.
Proof.
  unfold NewReplayGuard, NewRequestVerifier, NewSessionGenerationGuard, guard_entries, guards_bounded.
  intros Hg Hv. inv_ok. cbn in *. rewrite !map_size_empty. bool_hyps. lia.
Qed.

(** From a verifier that was just built, after any requests
    and updates and at any clock readings, both guards are within their
    capacity, and one more request keeps every live entry: a consumed ticket
    stays consumed and a Session's generation never decreases. *)
Theorem live_entries_kept n v guard rv evs clock headers consume
    (Hguard : NewReplayGuard n = Ok guard) (Hnew : NewRequestVerifier v guard = Ok rv) :
  let before := run rv evs in
  let after := (verify before clock headers consume).2 in
  guards_bounded after /\
  (forall id e, expires (replay before) !! id = Some e -> time_Unix (at_consume clock) < e ->
     expires (replay after) !! id = Some e) /\
  (forall sid e, entries (generations before) !! sid = Some e ->
     time_Unix (at_accept clock) < expiresAt e ->
     exists e', entries (generations after) !! sid = Some e' /\
       generation e <= generation e' /\ expiresAt e <= expiresAt e').
Proof.
  intros before after. split; [by eapply guards_bounded_verify, guards_bounded_run, new_guards_bounded|].
  unfold after. destruct (verify before clock headers consume) as [answer rv'] eqn:E. cbn.
  apply verify_steps in E as [Hr Hg]. split.
  - destruct Hr as [->|(i & x & b & Hc)]; [done|]. intros id e He Hlive.
    by eapply consumed_live; [eapply Consume_spec| |].
  - destruct Hg as [->|(s & g & x & b & Ha)]; [intros sid e He _; exists e; split; [done|lia]|].
    intros sid e He Hlive. by eapply accepted_live; [eapply Accept_spec| |].
Qed.
End runs.

(** The live entries of a replay guard at a reading. *)
Definition live_tickets (guard : ReplayGuard) (now : Z) : Z :=
  Z.of_nat (size (Replay.purge now (expires guard))).

(** A ticket identifier is consumed exactly when it is valid
    and unexpired, the guard does not hold it, and fewer live tickets than the
    capacity are held: nothing else makes the guard refuse a fresh ticket. *)
Theorem consume_accepts_iff (guard : ReplayGuard) (nowTime expTime : time) (id : string) :
  (Consume guard nowTime id expTime).1 = true <->
  ValidIdentifier id 128 = true /\ time_Unix nowTime < time_Unix expTime /\
  expires guard !! id = None /\
  live_tickets guard (time_Unix nowTime) < Replay.maxEntries guard.
Proof.
  unfold Consume, live_tickets. set (now := time_Unix nowTime). set (exp := time_Unix expTime).
  destruct (ValidIdentifier id 128); cbn [negb]; [|cbn; split; [done|by intros (? & _)]].
  destruct (Z.leb_spec exp now); [cbn; split; [done|lia]|].
  destruct (expires guard !! id) eqn:Eid; [cbn; split; [done|by intros (_ & _ & ? & _)]|].
  assert (Hle : (size (Replay.purge now (expires guard)) <= size (expires guard))%nat) by apply purge_size.
  destruct (full (Replay.maxEntries guard) (expires guard)) eqn:Ef.
  - destruct (full (Replay.maxEntries guard) (Replay.purge now (expires guard))) eqn:Ep; cbn.
    + unfold full in Ep. bool_hyps. split; [done|lia].
    + apply full_false in Ep. done.
  - rewrite Ef. apply full_false in Ef. cbn. split; [intros _; repeat split; lia|done].
Qed.

(** A guard reads its clock before it takes its mutex.  When a
    request that read its clock first takes the mutex last, a ticket that is
    unexpired at its reading can be consumed a second time: the request in
    between purged it. *)
Theorem delayed_reading_replays :
  exists guard0 guard1 guard2 guard3 first delayed later,
    first <= delayed < later /\
    Consume guard0 first "ticket" (Unix_time 10) = (true, guard1) /\
    Consume guard1 later "other" (Unix_time 20) = (true, guard2) /\
    Consume guard2 delayed "ticket" (Unix_time 10) = (true, guard3).
Proof.
  exists (mkReplayGuard {["old" := 10]} 2), (mkReplayGuard {["old" := 10; "ticket" := 10]} 2),
    (mkReplayGuard {["other" := 20]} 2), (mkReplayGuard {["other" := 20; "ticket" := 10]} 2),
    (Unix_time 5), (Unix_time 6), (Unix_time 11).
  split; [by vm_compute|]. split; [by vm_compute|]. split; by vm_compute.
Qed.

(** ** Concrete runs *)

Definition sample_replay : ReplayGuard := mkReplayGuard ∅ 2.
Definition sample_rv : RequestVerifier := mkRequestVerifier sample_verifier sample_replay (mkGuard ∅ 2) None.
Definition sample_headers : list string := ["Bearer " +:+ sample_ticket].
Definition clock_at (s : Z) : readings :=
  mkReadings (Unix_time s) (Unix_time s) (Unix_time s) (Unix_time s).

Definition later_claims : Claims :=
  mkClaims 2 "https://cp.example" "relay-a" "identity-1" [] "device-1" "session-1" 6
    "development" ["tunnel"] simple_digest "ticket-1" 1055 1055 1100 None "".
Definition later_headers : list string :=
  ["bearer  " +:+ match Sign sample_signer later_claims with Ok t => t | Err _ => "" end].
Definition other_claims : Claims :=
  mkClaims 2 "https://cp.example" "relay-a" "identity-1" [] "device-1" "session-2" 1
    "development" ["tunnel"] simple_digest "ticket-2" 1020 1020 1070 None "".
Definition other_headers : list string :=
  ["Bearer " +:+ match Sign sample_signer other_claims with Ok t => t | Err _ => "" end].
Definition third_headers : list string :=
  ["Bearer " +:+ match Sign sample_signer (mkClaims 2 "https://cp.example" "relay-a" "identity-1" []
     "device-1" "session-3" 1 "development" ["tunnel"] simple_digest "ticket-3" 1030 1030 1090 None "")
   with Ok t => t | Err _ => "" end].

(** Two tickets fill the guards; once they expired a third and then a ticket
    with the first identifier are accepted. *)
Definition sample_events : list event :=
  [EvVerify (clock_at 1032) other_headers true; EvVerify (clock_at 1071) third_headers true].

Definition first_rv : RequestVerifier := (verify sample_rv (clock_at 1030) sample_headers true).2.
Definition last_rv : RequestVerifier :=
  (verify (run first_rv sample_events) (clock_at 1072) later_headers true).2.

Lemma ticket_not_replayed_witness :
  ExpiresAt sample_claims <= time_Unix (at_consume (clock_at 1072)) < ExpiresAt later_claims.
Proof.
  apply (ticket_not_replayed sample_rv first_rv last_rv (clock_at 1030) (clock_at 1072)
           sample_headers later_headers sample_claims later_claims sample_events).
  - by vm_compute.
  - by vm_compute.
  - by vm_compute.
  - reflexivity.
Defined.

Lemma older_generation_fenced_witness :
  ExpiresAt sample_claims <= time_Unix (at_accept (clock_at 1072)).
Proof.
  apply (older_generation_fenced sample_rv first_rv last_rv (clock_at 1030) (clock_at 1072)
           sample_headers later_headers true true sample_claims later_claims sample_events).
  - by vm_compute.
  - by vm_compute.
  - by vm_compute.
  - reflexivity.
  - by vm_compute.
Defined.

Lemma live_entries_kept_witness :
  guards_bounded (verify (run sample_rv sample_events) (clock_at 1030) sample_headers true).2.
Proof.
  destruct (live_entries_kept 2 sample_verifier sample_replay sample_rv sample_events (clock_at 1030)
              sample_headers true) as [Hb _]; [reflexivity|reflexivity|exact Hb].
Defined.
