(* ===== verification/RelayControl.v ===== *)
(** * The relay control protocol

    [internal/protocol/relaycontrol]: the messages between a Data Plane (relay)
    and the Control Plane ([types.go]), their validation ([validate.go]), the
    protocol version negotiation ([version.go]), the authenticated identity of
    a relay ([identity.go]) and the verification key set ([keys.go]). *)

From S2P Require Import Prelude GoLib External.
From S2P Require Import Utils.

(** ** Constants and messages ([types.go]) *)

Definition APIVersionV1 : string := "relay.kubeloop.io/v1".
Definition APIVersionV2 : string := "relay.kubeloop.io/v2".
Definition APIVersion : string := APIVersionV1.
Definition MaximumBodyBytes : Z := Z.shiftl 64 10.

Definition KindRegistrationRequest : string := "RelayRegistration".
Definition KindRegistrationResponse : string := "RelayRegistrationResult".
Definition KindHeartbeatRequest : string := "RelayHeartbeat".
Definition KindHeartbeatResponse : string := "RelayHeartbeatResult".
Definition KindAllocationRequest : string := "SessionAllocation".
Definition KindAllocationResponse : string := "SessionAssignment".

(** [State] is a string type: a document can hold any value of it. *)
Abbreviation State := string (only parsing).
Definition StateReady : State := "ready".
Definition StateDraining : State := "draining".

Record Envelope := mkEnvelope { env_APIVersion : string; env_Kind : string }.

Record Capacity := mkCapacity {
  MaximumPhysicalConnections : Z;  (* uint32 *)
  MaximumLogicalStreams : Z;
  ActivePhysicalConnections : Z;
  ActiveLogicalStreams : Z
}.

Record VerificationKey := mkVerificationKey {
  vk_ID : string; vk_Algorithm : string; vk_PublicKey : string;
  vk_NotBefore : time; vk_NotAfter : time
}.

Record VerificationKeySet := mkVerificationKeySet {
  ks_Generation : Z;  (* uint64 *)
  ks_Keys : list VerificationKey
}.

Record RegistrationRequest := mkRegistrationRequest {
  rr_Envelope : Envelope;
  rr_SupportedVersions : list string;
  rr_Endpoint : string;
  rr_State : State;
  rr_Capacity : Capacity
}.

Record RegistrationResponse := mkRegistrationResponse {
  rp_Envelope : Envelope;
  rp_SelectedVersion : string;
  rp_TicketIssuer : string;
  rp_RelayID : string;
  rp_LeaseID : string;
  rp_LeaseExpiresAt : time;
  rp_HeartbeatAfter : Duration;
  rp_Keys : VerificationKeySet
}.

Record HeartbeatRequest := mkHeartbeatRequest {
  hb_Envelope : Envelope;
  hb_LeaseID : string;
  hb_State : State;
  hb_Capacity : Capacity;
  hb_AppliedKeyGeneration : Z;
  hb_TrafficEncryption : option bool;  (* [*bool] *)
  hb_NoisePublicKey : string
}.

Record HeartbeatResponse := mkHeartbeatResponse {
  hp_Envelope : Envelope;
  hp_LeaseExpiresAt : time;
  hp_HeartbeatAfter : Duration
}.

Record AllocationRequest := mkAllocationRequest {
  al_Envelope : Envelope;
  al_SessionID : string;
  al_Generation : Z;
  al_NetworkSpecHash : string;
  al_Topology : gmap string string;
  al_TrafficEncryption : option bool
}.

Record AllocationResponse := mkAllocationResponse {
  ap_Envelope : Envelope;
  ap_RelayID : string;
  ap_LeaseID : string;
  ap_Endpoint : string;
  ap_AssignedAt : time;
  ap_TrafficEncryption : bool;
  ap_NoisePublicKey : string
}.

#[export] Instance Envelope_eq_dec : EqDecision Envelope.
Proof. solve_decision. Defined.
#[export] Instance Capacity_eq_dec : EqDecision Capacity.
Proof. solve_decision. Defined.
#[export] Instance AllocationResponse_eq_dec : EqDecision AllocationResponse.
Proof. solve_decision. Defined.

(** ** Helpers *)

(** The three identifier alphabets of the protocol packages differ in the
    punctuation they allow.  The loops over runes accept ASCII only, so they are
    loops over bytes. *)
Definition identity_punctuation : bytes := string_to_bytes "-._:/".

Definition safeIdentityValue (value : string) (maximum : Z) : bool :=
  negb (bool_decide (value = "")) && (slen value <=? maximum)
  && bool_decide (TrimSpace value = value)
  && all_bytes (fun b => is_alnum b || bool_decide (b ∈ identity_punctuation)) value.

Definition validTopology (topology : gmap string string) : bool :=
  (Z.of_nat (size topology) <=? 16)
  && forallb (fun kv => safeIdentityValue kv.1 128 && safeIdentityValue kv.2 128)
       (map_to_list topology).

(** [slices.Contains]. *)
Definition Contains (values : list string) (value : string) : bool :=
  bool_decide (value ∈ values).

(** The loop of [validVersionList], [seen] the versions met so far. *)
Fixpoint versions_unique (seen : gset string) (versions : list string) : bool :=
  match versions with
  | [] => true
  | version :: rest =>
      if bool_decide (version = "") || (64 <? slen version)
         || negb (bool_decide (TrimSpace version = version))
         || negb (HasPrefix version "relay.kubeloop.io/v")
      then false
      else if decide (version ∈ seen) then false
      else versions_unique ({[version]} ∪ seen) rest
  end.

Definition validVersionList (versions : list string) : bool :=
  negb (len versions =? 0) && (len versions <=? 8) && versions_unique ∅ versions.

Definition NegotiateVersion (localPreference peerSupported : list string) : result string :=
  if negb (validVersionList localPreference) || negb (validVersionList peerSupported) then
    Err (NewError "relay protocol version list is invalid")
  else
    match List.find (Contains peerSupported) localPreference with
    | Some version => Ok version
    | None => Err (NewError "relay protocol versions are incompatible")
    end.

Definition validateVersions (envelope : Envelope) (kind : string) (versions : list string)
  : result unit :=
  _ ← require (Contains versions (env_APIVersion envelope))
        (NewError ("unsupported relay control API version " +:+ quoted (env_APIVersion envelope)));
  require (bool_decide (env_Kind envelope = kind))
    (NewError ("relay control kind must be " +:+ quoted kind)).

Definition validNoisePublicKey (value : string) : bool :=
  match b64_DecodeString value with
  | Some decoded => len decoded =? 32
  | None => false
  end.

Definition capacity_validate (capacity : Capacity) : result unit :=
  require
    (negb ((MaximumPhysicalConnections capacity =? 0)
           || (Z.shiftl 1 20 <? MaximumPhysicalConnections capacity)
           || (MaximumLogicalStreams capacity =? 0)
           || (Z.shiftl 1 24 <? MaximumLogicalStreams capacity)
           || (MaximumPhysicalConnections capacity <? ActivePhysicalConnections capacity)
           || (MaximumLogicalStreams capacity <? ActiveLogicalStreams capacity)))
    (NewError "relay capacity is invalid").

Definition validState (state : State) : bool :=
  bool_decide (state = StateReady) || bool_decide (state = StateDraining).

Definition sha256HexLength : Z := 64.

Definition string_drop (n : nat) (s : string) : string :=
  bytes_to_string (drop n (string_to_bytes s)).

Definition validRelayID (value : string) : bool :=
  if negb (HasPrefix value "relay-") || negb (slen value =? slen "relay-" + sha256HexLength)
  then false
  else match hex_DecodeString (string_drop 6 value) with Some _ => true | None => false end.

Definition minimumHeartbeat : Duration := Second.
Definition maximumHeartbeat : Duration := Minute.
Definition maximumLease : Duration := 5 * Minute.

Definition validateLeaseTiming (expiresAt : time) (heartbeat : Duration) (now : time)
  : result unit :=
  require
    (negb (IsZero expiresAt || negb (After expiresAt now)
           || After expiresAt (now + maximumLease) || (heartbeat <? minimumHeartbeat)
           || (maximumHeartbeat <? heartbeat)
           || (time_Sub expiresAt now <=? heartbeat)))
    (NewError "relay lease is invalid").

(** ** Peer identity ([identity.go]) *)

Record PeerIdentity := mkPeerIdentity {
  TrustDomain : string;
  Namespace : string;
  ServiceAccount : string;
  PodUID : string;
  Topology : gmap string string
}.

Definition PeerIdentity_Validate (identity : PeerIdentity) : result unit :=
  _ ← require (safeIdentityValue (TrustDomain identity) 253)
        (NewError "relay peer trust domain is invalid");
  _ ← require (safeIdentityValue (Namespace identity) 63)
        (NewError "relay peer namespace is invalid");
  _ ← require (safeIdentityValue (ServiceAccount identity) 63)
        (NewError "relay peer service account is invalid");
  _ ← require (safeIdentityValue (PodUID identity) 128)
        (NewError "relay peer Pod UID is invalid");
  require (validTopology (Topology identity)) (NewError "relay peer topology is invalid").

(** The bytes that are hashed: the four fields, separated by NUL.  The trust
    domain is ASCII once validated, so [strings.ToLower] folds ASCII letters. *)
Definition canonical_identity (identity : PeerIdentity) : bytes :=
  string_to_bytes (ToLower (TrustDomain identity)) ++ [x00]
  ++ string_to_bytes (Namespace identity) ++ [x00]
  ++ string_to_bytes (ServiceAccount identity) ++ [x00]
  ++ string_to_bytes (PodUID identity).

(** ** Validation of the messages ([validate.go]) *)

Section validation.
Context `{UrlPackage, UuidPackage, HashPackage, KeyEncodingPackage}.

Definition RelayID (identity : PeerIdentity) : result string :=
  _ ← PeerIdentity_Validate identity;
  Ok ("relay-" +:+ hex_EncodeToString (sha256_Sum256 (canonical_identity identity))).

Definition uuid_valid (value : string) : bool :=
  match uuid_Parse value with Some _ => true | None => false end.

(** [strings.TrimRight(s, "/")]. *)
Definition TrimRightSlash (s : string) : string :=
  bytes_to_string
    (rev (strip_all (String.length s) [[x2f]] (rev (string_to_bytes s)))).

Definition validateEndpoint (value : string) : result unit :=
  let invalid :=
    Err (NewError "relay endpoint must be an absolute WS or WSS URL with a fixed path") in
  match url_Parse (TrimSpace value) with
  | None => invalid
  | Some parsed =>
      if (negb (bool_decide (url_Scheme parsed = "ws"))
            && negb (bool_decide (url_Scheme parsed = "wss")))
         || bool_decide (url_Host parsed = "") || url_HasUser parsed
         || negb (bool_decide (url_RawQuery parsed = ""))
         || negb (bool_decide (url_Fragment parsed = ""))
         || bool_decide (url_Path parsed = "")
         || negb (bool_decide (TrimRightSlash (url_Path parsed) = url_Path parsed))
      then invalid
      else Ok tt
  end.

(** The fields of [parsed] are read before its error is looked at: with a URL
    [url.Parse] rejects, [parsed] is nil and the read panics ([None]). *)
Definition validTicketIssuer (value : string) : option bool :=
  parsed ← url_Parse value;
  Some ((bool_decide (url_Scheme parsed = "http") || bool_decide (url_Scheme parsed = "https"))
        && negb (bool_decide (url_Host parsed = "")) && negb (url_HasUser parsed)
        && bool_decide (url_RawQuery parsed = "") && bool_decide (url_Fragment parsed = "")).

Definition RegistrationRequest_Validate (request : RegistrationRequest) : result unit :=
  let envelope := rr_Envelope request in
  _ ← validateVersions envelope KindRegistrationRequest [APIVersionV1];
  _ ← require (Contains (rr_SupportedVersions request) (env_APIVersion envelope)
               && validVersionList (rr_SupportedVersions request))
        (NewError "relay supported protocol versions are invalid");
  _ ← validateEndpoint (rr_Endpoint request);
  _ ← require (validState (rr_State request)) (NewError "relay registration state is invalid");
  capacity_validate (rr_Capacity request).

Definition validVerificationPublicKey (encoded : string) : option bytes :=
  match pem_Decode encoded with
  | (Some block, rest) =>
      if negb (bool_decide (pem_Type block = "PUBLIC KEY")) || negb (len rest =? 0) then None
      else match x509_ParsePKIXPublicKey (pem_Bytes block) with
           | Some (Ed25519Key key) =>
               if len key =? ed25519_PublicKeySize then Some key else None
           | _ => None
           end
  | (None, _) => None
  end.

(** The loop of [VerificationKeySet.validate]: the keys met so far and whether
    one of them is usable now. *)
Fixpoint validate_keys (now : time) (seen : gset string) (usable : bool)
    (keys : list VerificationKey) : result bool :=
  match keys with
  | [] => Ok usable
  | key :: rest =>
      _ ← require (safeIdentityValue (vk_ID key) 128 && bool_decide (vk_Algorithm key = "EdDSA")
                   && negb (IsZero (vk_NotBefore key)) && negb (IsZero (vk_NotAfter key))
                   && After (vk_NotAfter key) (vk_NotBefore key))
            (NewError "RelayTicket verification key is invalid");
      _ ← require (negb (bool_decide (vk_ID key ∈ seen)))
            (NewError "RelayTicket verification key ID is duplicated");
      match validVerificationPublicKey (vk_PublicKey key) with
      | None => Err (NewError "RelayTicket verification public key is invalid")
      | Some _ =>
          validate_keys now ({[vk_ID key]} ∪ seen)
            (usable || (negb (Before now (vk_NotBefore key)) && Before now (vk_NotAfter key)))
            rest
      end
  end.

Definition VerificationKeySet_Validate (keys : VerificationKeySet) (now : time) : result unit :=
  _ ← require (negb ((ks_Generation keys =? 0) || (len (ks_Keys keys) =? 0)
                     || (8 <? len (ks_Keys keys))))
        (NewError "RelayTicket verification key set is invalid");
  usable ← validate_keys now ∅ false (ks_Keys keys);
  require usable (NewError "RelayTicket verification key set has no currently usable key").

Definition validateLease (id : string) (expiresAt : time) (heartbeat : Duration) (now : time)
  : result unit :=
  _ ← require (uuid_valid id) (NewError "relay lease is invalid");
  validateLeaseTiming expiresAt heartbeat now.

(** [None] when the validation panics. *)
Definition RegistrationResponse_Validate (response : RegistrationResponse) (now : time)
  : option (result unit) :=
  match validateVersions (rp_Envelope response) KindRegistrationResponse [APIVersionV1] with
  | Err e => Some (Err e)
  | Ok _ =>
    if negb (bool_decide (rp_SelectedVersion response = APIVersionV1))
       && negb (bool_decide (rp_SelectedVersion response = APIVersionV2))
    then Some (Err (NewError "relay selected protocol version is invalid"))
    else
      valid ← validTicketIssuer (rp_TicketIssuer response);
      Some (
        _ ← require valid (NewError "relay registration Ticket issuer is invalid");
        _ ← require (validRelayID (rp_RelayID response))
              (NewError "relay registration response ID is invalid");
        _ ← validateLease (rp_LeaseID response) (rp_LeaseExpiresAt response)
              (rp_HeartbeatAfter response) now;
        VerificationKeySet_Validate (rp_Keys response) now)
  end.

Definition HeartbeatRequest_Validate (request : HeartbeatRequest) : result unit :=
  let envelope := hb_Envelope request in
  _ ← validateVersions envelope KindHeartbeatRequest [APIVersionV1; APIVersionV2];
  _ ← require (uuid_valid (hb_LeaseID request)) (NewError "relay heartbeat lease ID is invalid");
  _ ← require (validState (hb_State request)) (NewError "relay heartbeat state is invalid");
  _ ← (if decide (env_APIVersion envelope = APIVersionV1) then
         require (match hb_TrafficEncryption request with None => true | Some _ => false end
                  && bool_decide (hb_NoisePublicKey request = ""))
           (NewError "relay v1 heartbeat cannot advertise traffic encryption")
       else match hb_TrafficEncryption request with
            | None => Err (NewError "relay v2 heartbeat must advertise traffic encryption")
            | Some true => require (validNoisePublicKey (hb_NoisePublicKey request))
                             (NewError "relay Noise public key is invalid")
            | Some false => require (bool_decide (hb_NoisePublicKey request = ""))
                              (NewError "relay Noise public key requires traffic encryption")
            end);
  capacity_validate (hb_Capacity request).

Definition HeartbeatResponse_Validate (response : HeartbeatResponse) (now : time) : result unit :=
  _ ← validateVersions (hp_Envelope response) KindHeartbeatResponse [APIVersionV1; APIVersionV2];
  validateLeaseTiming (hp_LeaseExpiresAt response) (hp_HeartbeatAfter response) now.

Definition AllocationRequest_Validate (request : AllocationRequest) : result unit :=
  _ ← validateVersions (al_Envelope request) KindAllocationRequest [APIVersion];
  _ ← require (uuid_valid (al_SessionID request) && negb (al_Generation request =? 0))
        (NewError "session allocation identity is invalid");
  _ ← require (slen (al_NetworkSpecHash request) =? sha256HexLength)
        (NewError "session allocation NetworkSpec hash is invalid");
  _ ← require (match hex_DecodeString (al_NetworkSpecHash request) with
               | Some _ => true | None => false end)
        (NewError "session allocation NetworkSpec hash is invalid");
  require (validTopology (al_Topology request))
    (NewError "session allocation topology is invalid").

Definition AllocationResponse_Validate (response : AllocationResponse) (now : time) : result unit :=
  _ ← validateVersions (ap_Envelope response) KindAllocationResponse [APIVersion];
  _ ← require (validRelayID (ap_RelayID response))
        (NewError "session assignment Relay ID is invalid");
  _ ← require (uuid_valid (ap_LeaseID response))
        (NewError "session assignment lease ID is invalid");
  _ ← validateEndpoint (ap_Endpoint response);
  _ ← require (negb (IsZero (ap_AssignedAt response)
                     || After (ap_AssignedAt response) (now + Minute)))
        (NewError "session assignment time is invalid");
  if ap_TrafficEncryption response then
    require (validNoisePublicKey (ap_NoisePublicKey response))
      (NewError "session assignment Noise public key is invalid")
  else
    require (bool_decide (ap_NoisePublicKey response = ""))
      (NewError "session assignment Noise public key requires traffic encryption").

(** ** Parsed keys ([keys.go]) *)

Record ParsedVerificationKey := mkParsedVerificationKey {
  pk_PublicKey : bytes; pk_NotBefore : time; pk_NotAfter : time
}.

(** The loop of [Parse], over keys that were validated before. *)
Fixpoint parse_keys (keys : list VerificationKey) (parsed : gmap string ParsedVerificationKey)
  : result (gmap string ParsedVerificationKey) :=
  match keys with
  | [] => Ok parsed
  | document :: rest =>
      match (pem_Decode (vk_PublicKey document)).1 with
      | Some block =>
          match x509_ParsePKIXPublicKey (pem_Bytes block) with
          | Some (Ed25519Key key) =>
              parse_keys rest
                (<[vk_ID document :=
                    mkParsedVerificationKey key (vk_NotBefore document) (vk_NotAfter document)]>
                   parsed)
          | _ => Err (NewError "parse RelayTicket verification key")
          end
      | None => Err (NewError "parse RelayTicket verification key")
      end
  end.

Definition VerificationKeySet_Parse (keys : VerificationKeySet) (now : time)
  : result (gmap string ParsedVerificationKey) :=
  _ ← VerificationKeySet_Validate keys now;
  parse_keys (ks_Keys keys) ∅.
End validation.

(** The constructors of [types.go]. *)
Definition NewRegistrationRequest : RegistrationRequest :=
  mkRegistrationRequest (mkEnvelope APIVersion KindRegistrationRequest) [APIVersionV1]
    "" "" (mkCapacity 0 0 0 0).
Definition NewRegistrationRequestWithNegotiation : RegistrationRequest :=
  mkRegistrationRequest (mkEnvelope APIVersion KindRegistrationRequest)
    [APIVersionV2; APIVersionV1] "" "" (mkCapacity 0 0 0 0).
Definition NewHeartbeatRequestForVersion (version : string) : HeartbeatRequest :=
  mkHeartbeatRequest (mkEnvelope version KindHeartbeatRequest) "" "" (mkCapacity 0 0 0 0) 0 None "".
Definition NewHeartbeatResponseForVersion (version : string) : Envelope :=
  mkEnvelope version KindHeartbeatResponse.
Definition NewRegistrationResponseEnvelope : Envelope :=
  mkEnvelope APIVersion KindRegistrationResponse.
Definition NewAllocationResponseEnvelope : Envelope :=
  mkEnvelope APIVersion KindAllocationResponse.

(** * Encoding relay control messages ([internal/protocol/relaycontrol/codec.go])

    The interface [validMessage] of the messages, and the generic encoder and
    decoder over it. *)


(** [interface{ Validate(time.Time) error }]; [None] when validation panics. *)
Class ValidMessage (A : Type) := Validate : A -> time -> option (result unit).

Section instances.
Context `{UrlPackage, UuidPackage, HashPackage, KeyEncodingPackage}.
#[export] Instance valid_registration_request : ValidMessage RegistrationRequest :=
  fun m _ => Some (RegistrationRequest_Validate m).
#[export] Instance valid_registration_response : ValidMessage RegistrationResponse :=
  RegistrationResponse_Validate.
#[export] Instance valid_heartbeat_request : ValidMessage HeartbeatRequest :=
  fun m _ => Some (HeartbeatRequest_Validate m).
#[export] Instance valid_heartbeat_response : ValidMessage HeartbeatResponse :=
  fun m now => Some (HeartbeatResponse_Validate m now).
#[export] Instance valid_allocation_request : ValidMessage AllocationRequest :=
  fun m _ => Some (AllocationRequest_Validate m).
#[export] Instance valid_allocation_response : ValidMessage AllocationResponse :=
  fun m now => Some (AllocationResponse_Validate m now).
End instances.

Section codec.
Context `{JsonCodec A, ValidMessage A}.

Definition Encode (message : A) (now : time) : option (result bytes) :=
  validated ← Validate message now;
  Some (_ ← validated;
        let encoded := json_Marshal message in
        if MaximumBodyBytes <? len encoded
        then Err (NewError "relay control message exceeds 64 KiB") else Ok encoded).

Definition decode (raw : bytes) (now : time) : option (result A) :=
  if (len raw =? 0) || (MaximumBodyBytes <? len raw)
  then Some (Err (NewError "relay control message size is invalid"))
  else match json_Decode raw with
  | None => Some (Err (NewError "decode relay control message"))
  | Some (message, rest) =>
      if negb (forallb json_space rest)
      then Some (Err (NewError "relay control message must contain one JSON document"))
      else validated ← Validate message now; Some (_ ← validated; Ok message)
  end.

Lemma Encode_inv message now raw :
  Encode message now = Some (Ok raw) ->
  raw = json_Marshal message /\ Validate message now = Some (Ok tt) /\ len raw <= MaximumBodyBytes.
Proof.
  unfold Encode. destruct (Validate message now) as [v|] eqn:Ev; [|discriminate].
  unfold mbind at 1, option_bind. intros [= E]. inv_ok. bool_hyps. done.
Qed.

Lemma decoded_message_valid raw now message :
  decode raw now = Some (Ok message) -> Validate message now = Some (Ok tt).
Proof.
  unfold decode. destruct (_ || _); [discriminate|].
  destruct (json_Decode raw) as [[m rest]|]; [|discriminate]. destruct (negb _); [discriminate|].
  destruct (Validate m now) as [v|] eqn:Ev; [|discriminate].
  unfold mbind at 1, option_bind. intros [= E]. inv_ok. done.
Qed.

Lemma decode_encoded message now now' raw :
  Encode message now = Some (Ok raw) ->
  json_Decode (A := A) [] = None -> json_Decode raw = Some (message, []) ->
  decode raw now' = (v ← Validate message now'; Some (_ ← v; Ok message)).
Proof.
  intros (-> & Hv & Hl)%Encode_inv Hnil Hj. unfold decode.
  destruct (Z.eqb_spec (len (json_Marshal message)) 0) as [E%len_zero|]; [rewrite E in Hj; congruence|].
  rewrite (proj2 (Z.ltb_ge _ _)) by done. cbn [orb]. by rewrite Hj.
Qed.
End codec.
