(* ===== verification/RelayAuthenticator.v ===== *)
(** * The ticket authenticator of a relay
    ([internal/gateway/relay/agent/authenticator.go])

    The control plane's key sets are applied to a request verifier that lives as
    long as the process: the relay's identity and the ticket issuer are fixed by
    the first set, key generations never move backwards, and the guards of the
    request verifier survive every update. *)

From S2P Require Import Prelude GoLib GoText External Utils RelayControl RelayTicket RelayBearer.
From S2P Require Import ConcreteEnv RelayTicketKeys RelayTicketFacts.

Record TicketAuthenticatorConfig := mkAuthenticatorConfig {
  RequiredOperation : string;
  ReplayEntries : Z;
  ClockSkew : Duration
}.

Record TicketAuthenticator := mkAuthenticator {
  au_config : TicketAuthenticatorConfig;
  requestVerifier : option RequestVerifier;
  au_relayID : string;
  au_issuer : string;
  au_keyGeneration : Z
}.

Section authenticator.
Context `{KeyEncodingPackage}.

Definition NewTicketAuthenticator (config : TicketAuthenticatorConfig) : result TicketAuthenticator :=
  _ ← require (negb (bool_decide (RequiredOperation config = "")))
        (NewError "dynamic RelayTicket authenticator configuration is invalid");
  _ ← Replay.NewReplayGuard (ReplayEntries config);
  Ok (mkAuthenticator config None "" "" 0).

(** The verifier built from a key set that was parsed. *)
Definition applied_config (config : TicketAuthenticatorConfig) (issuer relayID : string)
    (parsed : gmap string ParsedVerificationKey) : VerifierConfig :=
  mkVerifierConfig (pk_PublicKey <$> parsed)
    ((fun key => mkKeyValidity (pk_NotBefore key) (pk_NotAfter key)) <$> parsed)
    issuer relayID (RequiredOperation config) (ClockSkew config).

(** An error leaves the authenticator as it was. *)
Definition Apply (authenticator : TicketAuthenticator) (now : time) (issuer relayID : string)
    (keys : VerificationKeySet) : result TicketAuthenticator :=
  let config := au_config authenticator in
  parsed ← VerificationKeySet_Parse keys now;
  verifier ← NewVerifier (applied_config config issuer relayID parsed);
  _ ← require (bool_decide (au_relayID authenticator = "") || bool_decide (au_relayID authenticator = relayID))
        (NewError "relay identity changed within one Data Plane process");
  _ ← require (bool_decide (au_issuer authenticator = "") || bool_decide (au_issuer authenticator = issuer))
        (NewError "RelayTicket issuer changed within one Data Plane process");
  _ ← require (negb (ks_Generation keys <? au_keyGeneration authenticator))
        (NewError "relay control generation moved backwards");
  rv ← match requestVerifier authenticator with
       | None =>
           replay ← Replay.NewReplayGuard (ReplayEntries config);
           rv ← NewRequestVerifier verifier replay;
           Ok (Update rv verifier None)
       | Some rv => Ok (Update rv verifier None)
       end;
  Ok (mkAuthenticator config (Some rv) relayID issuer (ks_Generation keys)).

Context `{Ed25519Package, JsonCodec header, JsonCodec Claims}.

Definition authenticate (authenticator : TicketAuthenticator) (clock : readings)
    (headers : list string) (consumeReplay : bool) : result Claims * TicketAuthenticator :=
  match requestVerifier authenticator with
  | None => (Err ErrInvalid, authenticator)
  | Some rv =>
      let '(answer, rv') := verify rv clock headers consumeReplay in
      (answer, mkAuthenticator (au_config authenticator) (Some rv') (au_relayID authenticator)
                 (au_issuer authenticator) (au_keyGeneration authenticator))
  end.

Definition Verify (authenticator : TicketAuthenticator) (clock : readings) (headers : list string) :=
  authenticate authenticator clock headers true.
Definition VerifyReusable (authenticator : TicketAuthenticator) (clock : readings) (headers : list string) :=
  authenticate authenticator clock headers false.

Definition AppliedKeyGeneration (authenticator : TicketAuthenticator) : Z := au_keyGeneration authenticator.

(** ** Runs *)

Inductive event :=
| EvApply (now : time) (issuer relayID : string) (keys : VerificationKeySet)
| EvAuthenticate (clock : readings) (headers : list string) (consumeReplay : bool).

Definition step (authenticator : TicketAuthenticator) (ev : event) : TicketAuthenticator :=
  match ev with
  | EvApply now issuer relayID keys =>
      match Apply authenticator now issuer relayID keys with
      | Ok authenticator' => authenticator' | Err _ => authenticator
      end
  | EvAuthenticate clock headers consumeReplay =>
      (authenticate authenticator clock headers consumeReplay).2
  end.

Definition run (authenticator : TicketAuthenticator) (evs : list event) : TicketAuthenticator :=
  fold_left step evs authenticator.
End authenticator.

(** * Correctness of the relay's ticket authenticator

    The identity and the issuer are fixed once, key generations never move
    backwards, and admitted tickets are bound to the current key set. *)


Section facts.
Context `{KeyEncodingPackage, Ed25519Package, JsonCodec header, JsonCodec Claims}.
Implicit Types (a : TicketAuthenticator) (ev : event).

(** The verifier in use was built from a key set of the current generation. *)
Definition verifier_applied a (v : Verifier) : Prop :=
  audience v = TrimSpace (au_relayID a) /\ issuer v = TrimSpace (au_issuer a) /\
  requiredOperation v = TrimSpace (RequiredOperation (au_config a)) /\
  exists ks now parsed,
    VerificationKeySet_Parse ks now = Ok parsed /\ ks_Generation ks = au_keyGeneration a /\
    keys v = pk_PublicKey <$> parsed /\
    keyValidity v = (fun key => mkKeyValidity (pk_NotBefore key) (pk_NotAfter key)) <$> parsed.

Definition authenticator_inv a : Prop :=
  match requestVerifier a with
  | None => au_relayID a = "" /\ au_issuer a = "" /\ au_keyGeneration a = 0
  | Some rv => au_relayID a <> "" /\ au_issuer a <> "" /\ verifier_applied a (verifier rv)
  end.

Lemma NewVerifier_binding config v :
  NewVerifier config = Ok v ->
  audience v = TrimSpace (cfg_Audience config) /\ issuer v = TrimSpace (cfg_Issuer config) /\
  requiredOperation v = TrimSpace (cfg_RequiredOperation config) /\
  TrimSpace (cfg_Audience config) <> "" /\ TrimSpace (cfg_Issuer config) <> "".
Proof.
  unfold NewVerifier, NewVerifier_in. intros Hv. inv_ok.
  match goal with Ha : add_keys _ _ _ = Ok ?built |- _ => destruct built as [ks vs] end. inv_ok.
  unfold ValidIdentifier, validText in *. bool_hyps. done.
Qed.

Lemma trimmed_nonempty s : TrimSpace s <> "" -> s <> "".
Proof. intros Hs ->. by apply Hs. Qed.

(** What a successful [Apply] does. *)
Lemma Apply_ok a now iss id ks a' :
  Apply a now iss id ks = Ok a' ->
  au_config a' = au_config a /\ au_relayID a' = id /\ au_issuer a' = iss /\
  au_keyGeneration a' = ks_Generation ks /\
  (au_relayID a = "" \/ au_relayID a = id) /\ (au_issuer a = "" \/ au_issuer a = iss) /\
  au_keyGeneration a <= ks_Generation ks /\
  exists rv', requestVerifier a' = Some rv' /\ id <> "" /\ iss <> "" /\ verifier_applied a' (verifier rv') /\
    (forall rv, requestVerifier a = Some rv -> replay rv' = replay rv /\ generations rv' = generations rv).
Proof.
  unfold Apply. intros Ha. inv_ok.
  match goal with Hp : VerificationKeySet_Parse _ _ = Ok ?p |- _ => rename p into parsed end.
  match goal with Hv : NewVerifier _ = Ok ?p |- _ => rename p into v, Hv into E0 end.
  pose proof (NewVerifier_binding _ _ E0) as (Hau & His & Hop & Hne1 & Hne2).
  cbn [applied_config cfg_Audience cfg_Issuer cfg_RequiredOperation] in *.
  unfold NewVerifier in E0. apply NewVerifier_in_exact in E0 as (Hk & Hw & _); [|done].
  cbn [applied_config cfg_Keys cfg_KeyValidity] in *.
  repeat match goal with Ho : _ || _ = true |- _ =>
    apply orb_true_iff in Ho; rewrite !bool_decide_eq_true in Ho end.
  bool_hyps. cbn.
  do 4 (split; [done|]). split; [done|]. split; [done|]. split; [done|].
  match goal with Hrv : match requestVerifier a with _ => _ end = Ok ?x |- _ =>
    rename Hrv into Erv; rename x into rv' end.
  exists rv'. split; [done|]. split; [by apply trimmed_nonempty|]. split; [by apply trimmed_nonempty|].
  assert (Hv : verifier rv' = v /\
    forall rv, requestVerifier a = Some rv -> replay rv' = replay rv /\ generations rv' = generations rv).
  { destruct (requestVerifier a) as [rv|]; inv_ok; cbn; (split; [done|]); [by intros ? [= ->]|done]. }
  destruct Hv as [-> Hkeep]. split; [|done]. unfold verifier_applied. cbn.
  split; [done|]. split; [done|]. split; [done|]. by exists ks, now, parsed.
Qed.

Lemma authenticate_keeps a clock headers b answer a' :
  authenticate a clock headers b = (answer, a') ->
  au_config a' = au_config a /\ au_relayID a' = au_relayID a /\ au_issuer a' = au_issuer a /\
  au_keyGeneration a' = au_keyGeneration a /\
  (verifier <$> requestVerifier a') = (verifier <$> requestVerifier a).
Proof.
  unfold authenticate. destruct (requestVerifier a) as [rv|] eqn:Erv; [|intros [= <- <-]; by rewrite Erv].
  destruct (verify rv clock headers b) as [answer' rv'] eqn:Ev. intros [= <- <-]. cbn.
  do 4 (split; [done|]). f_equal. revert Ev. unfold verify, admit_claims.
  repeat case_match; intros; simplify_eq; done.
Qed.

Lemma step_inv a ev : authenticator_inv a -> authenticator_inv (step a ev).
Proof.
  intros Hinv. destruct ev as [now iss id ks|clock headers b]; cbn.
  - destruct (Apply a now iss id ks) as [a'|] eqn:Ea; [|done].
    apply Apply_ok in Ea as (_ & <- & <- & _ & _ & _ & _ & rv' & Erv & ? & ? & ? & _).
    unfold authenticator_inv. by rewrite Erv.
  - destruct (authenticate a clock headers b) as [answer a'] eqn:Ea. cbn.
    apply authenticate_keeps in Ea as (Ec & Er & Ei & Eg & Ev).
    unfold authenticator_inv, verifier_applied in *. rewrite Ec, Er, Ei, Eg.
    destruct (requestVerifier a) as [rv|], (requestVerifier a') as [rv'|]; cbn in Ev; try discriminate Ev; [|done].
    by injection Ev as ->.
Qed.

Lemma run_inv evs a : authenticator_inv a -> authenticator_inv (run a evs).
Proof.
  revert a. induction evs as [|ev evs IH]; intros a Ha; [done|]. apply IH. by apply step_inv.
Qed.

Lemma new_inv config a : NewTicketAuthenticator config = Ok a -> authenticator_inv a.
Proof. unfold NewTicketAuthenticator. intros Ha. inv_ok. done. Qed.

(** The identity of [a] persists in [a']. *)
Definition extends a a' : Prop :=
  (au_relayID a <> "" -> au_relayID a' = au_relayID a /\ au_issuer a' = au_issuer a) /\
  au_keyGeneration a <= au_keyGeneration a'.

Lemma step_extends a ev : authenticator_inv a -> extends a (step a ev).
Proof.
  intros Hinv. unfold extends. destruct ev as [now iss id ks|clock headers b]; cbn.
  - destruct (Apply a now iss id ks) as [a'|] eqn:Ea; [|split; [done|lia]].
    apply Apply_ok in Ea as (_ & -> & -> & -> & Hid & Hiss & Hgen & _). split; [|done].
    intros Hne. unfold authenticator_inv in Hinv. destruct (requestVerifier a); [|naive_solver].
    destruct Hinv as (_ & Hi & _). naive_solver.
  - destruct (authenticate a clock headers b) as [answer a'] eqn:Ea. cbn.
    apply authenticate_keeps in Ea as (_ & -> & -> & -> & _). split; [done|lia].
Qed.

Lemma run_extends evs a : authenticator_inv a -> extends a (run a evs).
Proof.
  revert a. induction evs as [|ev evs IH]; intros a Ha; [split; [done|cbn; lia]|].
  destruct (step_extends a ev Ha) as [Hid Hgen].
  destruct (IH (step a ev)) as [Hid' Hgen']; [by apply step_inv|].
  change (run a (ev :: evs)) with (run (step a ev) evs). split; [|lia].
  intros Hne. destruct (Hid Hne) as [E1 E2]. rewrite <- E1, <- E2. apply Hid'. by rewrite E1.
Qed.

(** Whatever key sets are applied and requests verified, once
    a key set was accepted the relay's identity and the ticket issuer never
    change again and the key generation never decreases; the verifier in use is
    bound to that identity and issuer and holds the keys and windows of a key
    set of exactly the current generation. *)
Theorem identity_pinned (config : TicketAuthenticatorConfig) (a0 : TicketAuthenticator) (evs evs' : list event)
    (Hnew : NewTicketAuthenticator config = Ok a0) :
  let a := run a0 evs in
  let a' := run a evs' in
  (au_relayID a <> "" -> au_relayID a' = au_relayID a /\ au_issuer a' = au_issuer a) /\
  au_keyGeneration a <= au_keyGeneration a' /\
  match requestVerifier a' with
  | None => au_relayID a' = ""
  | Some rv => verifier_applied a' (verifier rv)
  end.
Proof.
  intros a a'. assert (Ha : authenticator_inv a) by (by apply run_inv, (new_inv config)).
  destruct (run_extends evs' a Ha) as [Hid Hgen]. fold a' in Hid, Hgen.
  pose proof (run_inv evs' a Ha) as Ha'. fold a' in Ha'. unfold authenticator_inv in Ha'.
  split; [done|]. split; [done|]. destruct (requestVerifier a'); tauto.
Qed.

(** A request is admitted only with a ticket for this relay from
    this issuer that allows the required operation, signed under a key of the
    current generation's set that is within its window. *)
Theorem admitted_by_current_keys (config : TicketAuthenticatorConfig) (a0 a' : TicketAuthenticator)
    (evs : list event) (clock : readings) (headers : list string) (b : bool) (claims : Claims)
    (Hnew : NewTicketAuthenticator config = Ok a0)
    (Hadmit : authenticate (run a0 evs) clock headers b = (Ok claims, a')) :
  let a := run a0 evs in
  Audience claims = TrimSpace (au_relayID a) /\ Issuer claims = TrimSpace (au_issuer a) /\
  TrimSpace (RequiredOperation (au_config a)) ∈ Operations claims /\
  validateClaims claims = Ok tt /\
  exists ks now parsed kid key message signature,
    VerificationKeySet_Parse ks now = Ok parsed /\ ks_Generation ks = au_keyGeneration a /\
    parsed !! kid = Some key /\
    ed25519_Verify (pk_PublicKey key) message signature = true.
Proof.
  intros a. assert (Ha : authenticator_inv a) by (by apply run_inv, (new_inv config)).
  fold a in Hadmit. unfold authenticate in Hadmit. unfold authenticator_inv in Ha.
  destruct (requestVerifier a) as [rv|]; [|discriminate Hadmit].
  destruct Ha as (_ & _ & Hau & His & Hop & ks & now & parsed & Hparse & Hgen & Hkeys & _).
  unfold verify in Hadmit. destruct (bearer_ticket headers) as [ticket|]; [|discriminate Hadmit].
  destruct (RelayTicket.Verify (verifier rv) (at_verify clock) ticket) as [cl|] eqn:Ev; [|discriminate Hadmit].
  destruct (revoked _ _ _); [discriminate Hadmit|].
  destruct (admit_claims rv clock b cl) as [[] rv'']; [|discriminate Hadmit]. injection Hadmit as -> _.
  apply verify_inv in Ev as (h & c & g & _ & Hparts).
  apply verify_parts_inv in Hparts as (kid & key & signature & Hkey & _ & Hver & Hdec & Hacc).
  apply decode_claims_inv in Hdec as (Hvalid & _).
  unfold claims_accepted in Hacc. bool_hyps.
  rewrite Hkeys, lookup_fmap in Hkey. destruct (parsed !! kid) as [pk|] eqn:Epk; [|discriminate Hkey].
  cbn in Hkey. injection Hkey as <-.
  split; [congruence|]. split; [congruence|]. split; [by rewrite <- Hop|]. split; [done|].
  by exists ks, now, parsed, kid, pk, (string_to_bytes (h +:+ "." +:+ c)), signature.
Qed.
End facts.

(** ** A concrete run *)

Definition sample_key_set (generation : Z) : VerificationKeySet :=
  mkVerificationKeySet generation
    [mkVerificationKey "key-1" "EdDSA" (bytes_to_string sample_public) (Unix_time 900) (Unix_time 2000)].

Definition sample_authenticator : TicketAuthenticator :=
  mkAuthenticator (mkAuthenticatorConfig "tunnel" 16 0) None "" "" 0.

Definition sample_applies : list event :=
  [EvApply (Unix_time 1000) "https://cp.example" "relay-a" (sample_key_set 3);
   EvApply (Unix_time 1001) "https://cp.example" "relay-b" (sample_key_set 4);
   EvApply (Unix_time 1002) "https://cp.example" "relay-a" (sample_key_set 2)].

Example sample_applied :
  let a := run sample_authenticator sample_applies in
  au_relayID a = "relay-a" /\ au_keyGeneration a = 3.
Proof. by vm_compute. Qed.

Lemma identity_pinned_witness :
  NewTicketAuthenticator (mkAuthenticatorConfig "tunnel" 16 0) = Ok sample_authenticator /\
  au_keyGeneration (run sample_authenticator sample_applies)
  <= au_keyGeneration (run (run sample_authenticator sample_applies) []).
Proof.
  split; [reflexivity|].
  destruct (identity_pinned (mkAuthenticatorConfig "tunnel" 16 0) sample_authenticator sample_applies []
              eq_refl) as (_ & Hg & _).
  exact Hg.
Defined.

Definition sample_admitted : TicketAuthenticator :=
  (authenticate (run sample_authenticator sample_applies) (clock_at 1030) sample_headers true).2.

Lemma admitted_by_current_keys_witness : Audience sample_claims = "relay-a".
Proof.
  destruct (admitted_by_current_keys (mkAuthenticatorConfig "tunnel" 16 0) sample_authenticator sample_admitted
    sample_applies (clock_at 1030) sample_headers true sample_claims) as [E _].
  - reflexivity.
  - by vm_compute.
  - exact E.
Defined.
