(* ===== verification/RelayRegistry.v ===== *)
(** * The relay registry

    [internal/controlplane/relayregistry]: the Control Plane's table of Data
    Planes (relays) and of the Sessions assigned to them.  A relay registers,
    keeps a lease alive with heartbeats, and is allocated to Sessions; a Session
    keeps its relay until a newer generation of the Session moves it.

    The state is the two maps of [Registry] under its mutex; every operation is
    a function from the clock reading and the state.  Records reached through a
    pointer of [relays] are written back under their key. *)

From S2P Require Import Prelude GoLib GoSort External RelayControl.
From S2P Require Import Utils.

Definition ErrNotFound : error := VarError "relayregistry.ErrNotFound".
Definition ErrConflict : error := VarError "relayregistry.ErrConflict".
Definition ErrUnavailable : error := VarError "relayregistry.ErrUnavailable".
Definition ErrAssignedRelayUnavailable : error :=
  VarError "relayregistry.ErrAssignedRelayUnavailable".

Record Config := mkConfig {
  TicketIssuer : string;
  LeaseDuration : Duration;
  HeartbeatAfter : Duration;
  SupportedVersions : list string;
  VerificationKeys : VerificationKeySet;
  EndpointPolicy : option (PeerIdentity -> string -> result unit)
}.

Record relayRecord := mkRelay {
  identity : PeerIdentity;
  relayID : string;
  leaseID : string;
  endpoint : string;
  state : State;
  capacity : Capacity;
  appliedKeyGeneration : Z;   (* uint64 *)
  leaseExpiresAt : time;
  lastHeartbeatAt : time;
  reservations : Z;           (* uint32 *)
  selectedVersion : string;
  trafficEncryption : bool;
  noisePublicKey : string
}.

Record assignmentRecord := mkAssignment {
  response : AllocationResponse;
  generation : Z;             (* uint64 *)
  networkSpecHash : string
}.

Record Registry := mkRegistry {
  config : Config;
  relays : gmap string relayRecord;
  assignments : gmap string assignmentRecord
}.

Record RelayStatus := mkRelayStatus {
  st_RelayID : string; st_Endpoint : string; st_State : State; st_Capacity : Capacity;
  st_AppliedKeyGeneration : Z; st_LeaseExpiresAt : time; st_LastHeartbeatAt : time;
  st_Reservations : Z; st_Online : bool; st_Topology : gmap string string
}.

Definition set_relays (registry : Registry) (m : gmap string relayRecord) : Registry :=
  mkRegistry (config registry) m (assignments registry).
Definition set_assignments (registry : Registry) (m : gmap string assignmentRecord) : Registry :=
  mkRegistry (config registry) (relays registry) m.
Definition set_reservations (relay : relayRecord) (n : Z) : relayRecord :=
  mkRelay (identity relay) (relayID relay) (leaseID relay) (endpoint relay) (state relay)
    (capacity relay) (appliedKeyGeneration relay) (leaseExpiresAt relay)
    (lastHeartbeatAt relay) n (selectedVersion relay) (trafficEncryption relay)
    (noisePublicKey relay).

(** ** Creation ([registry_core.go]) *)

Section operations.
Context `{UrlPackage, UuidPackage, HashPackage, KeyEncodingPackage}.

(** [New]; a zero duration and an empty version list take their defaults. *)
Definition New (now : time) (cfg : Config) : result Registry :=
  let issuer := TrimRightSlash (TrimSpace (TicketIssuer cfg)) in
  let bad_issuer :=
    Err (NewError "relay registry Ticket issuer must be an absolute HTTP or HTTPS URL") in
  match url_Parse issuer with
  | None => bad_issuer
  | Some parsed =>
    if (negb (bool_decide (url_Scheme parsed = "http"))
          && negb (bool_decide (url_Scheme parsed = "https")))
       || bool_decide (url_Host parsed = "") || url_HasUser parsed
       || negb (bool_decide (url_RawQuery parsed = ""))
       || negb (bool_decide (url_Fragment parsed = ""))
    then bad_issuer
    else
      let lease := if LeaseDuration cfg =? 0 then 45 * Second else LeaseDuration cfg in
      let heartbeat := if HeartbeatAfter cfg =? 0 then 10 * Second else HeartbeatAfter cfg in
      let versions :=
        if len (SupportedVersions cfg) =? 0 then [APIVersionV2; APIVersionV1]
        else SupportedVersions cfg in
      _ ← require (negb ((lease <? 5 * Second) || (5 * Minute <? lease)
                         || (heartbeat <? Second) || (Minute <? heartbeat)
                         || (lease <=? heartbeat)))
            (NewError "relay registry lease configuration is invalid");
      _ ← NegotiateVersion versions [APIVersionV2; APIVersionV1];
      _ ← VerificationKeySet_Validate (VerificationKeys cfg) now;
      Ok (mkRegistry
            (mkConfig issuer lease heartbeat versions (VerificationKeys cfg) (EndpointPolicy cfg))
            ∅ ∅)
  end.

(** ** Helpers ([registry_internal.go]) *)

Definition availableLocked (registry : Registry) (relay : relayRecord) (now : time) : bool :=
  if negb (bool_decide (state relay = StateReady)) || negb (After (leaseExpiresAt relay) now)
     || (appliedKeyGeneration relay <? ks_Generation (VerificationKeys (config registry)))
  then false
  else
    let logical := uint64 (ActiveLogicalStreams (capacity relay) + reservations relay) in
    (logical <? MaximumLogicalStreams (capacity relay))
    && (ActivePhysicalConnections (capacity relay) <? MaximumPhysicalConnections (capacity relay)).

Definition assigned_to (relay_id : string) (a : assignmentRecord) : bool :=
  bool_decide (ap_RelayID (response a) = relay_id).

Definition assignmentCountLocked (registry : Registry) (relay_id : string) : Z :=
  uint32 (map_count (assigned_to relay_id) (assignments registry)).

Definition registrationResponseLocked (registry : Registry) (relay : relayRecord)
    (selected : string) : RegistrationResponse :=
  {| rp_Envelope := NewRegistrationResponseEnvelope;
     rp_SelectedVersion := selected;
     rp_TicketIssuer := TicketIssuer (config registry);
     rp_RelayID := relayID relay; rp_LeaseID := leaseID relay;
     rp_LeaseExpiresAt := leaseExpiresAt relay;
     rp_HeartbeatAfter := HeartbeatAfter (config registry);
     rp_Keys := VerificationKeys (config registry) |}.

(** How many wanted labels a topology has; reading a missing key of a Go map
    gives the empty string. *)
Definition topology_matches (topology wanted : gmap string string) : Z :=
  map_fold (fun key value n =>
              if decide (default "" (topology !! key) = value) then n + 1 else n)
    0 wanted.

Definition compareTopology (left right wanted : gmap string string) : Z :=
  let leftMatches := topology_matches left wanted in
  let rightMatches := topology_matches right wanted in
  if rightMatches <? leftMatches then -1
  else if leftMatches <? rightMatches then 1
  else 0.

Definition compareRatio (leftValue leftMaximum rightValue rightMaximum : Z) : Z :=
  let left := uint64 (leftValue * rightMaximum) in
  let right := uint64 (rightValue * leftMaximum) in
  if left <? right then -1 else if right <? left then 1 else 0.

(** ** Registration and heartbeats ([registry_registration.go]) *)

(** [Register]; [new_lease] is the identifier [uuid.NewString] returns. *)
Definition Register (now : time) (new_lease : string) (peer : PeerIdentity)
    (request : RegistrationRequest) (registry : Registry)
  : result (RegistrationResponse * Registry) :=
  _ ← PeerIdentity_Validate peer;
  _ ← RegistrationRequest_Validate request;
  selected ← NegotiateVersion (SupportedVersions (config registry))
               (rr_SupportedVersions request);
  _ ← match EndpointPolicy (config registry) with
      | Some policy => policy peer (rr_Endpoint request)
      | None => Ok tt
      end;
  relay_id ← RelayID peer;
  let relay := {|
    identity := peer; relayID := relay_id; leaseID := new_lease;
    endpoint := rr_Endpoint request; state := rr_State request;
    capacity := rr_Capacity request; appliedKeyGeneration := 0;
    leaseExpiresAt := now + LeaseDuration (config registry);
    lastHeartbeatAt := now;
    reservations := assignmentCountLocked registry relay_id;
    selectedVersion := selected; trafficEncryption := false; noisePublicKey := ""
  |} in
  Ok (registrationResponseLocked registry relay selected,
      set_relays registry (<[relay_id := relay]> (relays registry))).

Definition Heartbeat (now : time) (peer : PeerIdentity) (request : HeartbeatRequest)
    (registry : Registry) : result (HeartbeatResponse * Registry) :=
  _ ← PeerIdentity_Validate peer;
  _ ← HeartbeatRequest_Validate request;
  relay_id ← RelayID peer;
  match relays registry !! relay_id with
  | None => Err ErrNotFound
  | Some relay =>
    _ ← require (bool_decide (leaseID relay = hb_LeaseID request)) ErrConflict;
    _ ← require (bool_decide (selectedVersion relay = env_APIVersion (hb_Envelope request)))
          ErrConflict;
    _ ← require (After (leaseExpiresAt relay) now) ErrNotFound;
    _ ← require (hb_AppliedKeyGeneration request
                   <=? ks_Generation (VerificationKeys (config registry)))
          (NewError "relay reports an unknown control-plane generation");
    let relay' := {|
      identity := identity relay; relayID := relayID relay; leaseID := leaseID relay;
      endpoint := endpoint relay; state := hb_State request; capacity := hb_Capacity request;
      appliedKeyGeneration := hb_AppliedKeyGeneration request;
      leaseExpiresAt := now + LeaseDuration (config registry);
      lastHeartbeatAt := now; reservations := reservations relay;
      selectedVersion := selectedVersion relay;
      trafficEncryption := bool_decide (hb_TrafficEncryption request = Some true);
      noisePublicKey := hb_NoisePublicKey request
    |} in
    Ok ({| hp_Envelope := NewHeartbeatResponseForVersion (selectedVersion relay);
           hp_LeaseExpiresAt := leaseExpiresAt relay';
           hp_HeartbeatAfter := HeartbeatAfter (config registry) |},
        set_relays registry (<[relay_id := relay']> (relays registry)))
  end.

(** ** Allocation ([registry_allocation.go]) *)

Definition relaySupportsEncryption (relay : relayRecord) (wanted : bool) : bool :=
  if negb (Bool.eqb (trafficEncryption relay) wanted) then false
  else if negb wanted then true
  else bool_decide (selectedVersion relay = APIVersionV2)
       && negb (bool_decide (noisePublicKey relay = "")).

Definition eligible (registry : Registry) (now : time) (wanted : bool) (relay : relayRecord)
  : bool :=
  availableLocked registry relay now && relaySupportsEncryption relay wanted.

(** The comparison [slices.SortFunc] is given; the sum is of two [uint32]. *)
Definition compareCandidates (wanted : gmap string string) (left right : relayRecord) : Z :=
  let topology := compareTopology (Topology (identity left)) (Topology (identity right)) wanted in
  if negb (topology =? 0) then topology
  else
    let logical := compareRatio
      (uint32 (ActiveLogicalStreams (capacity left) + reservations left))
      (MaximumLogicalStreams (capacity left))
      (uint32 (ActiveLogicalStreams (capacity right) + reservations right))
      (MaximumLogicalStreams (capacity right)) in
    if negb (logical =? 0) then logical
    else
      let physical := compareRatio
        (ActivePhysicalConnections (capacity left)) (MaximumPhysicalConnections (capacity left))
        (ActivePhysicalConnections (capacity right)) (MaximumPhysicalConnections (capacity right)) in
      if negb (physical =? 0) then physical
      else compareString (relayID left) (relayID right).

(** The candidates in the order the map is iterated. *)
Definition candidates (registry : Registry) (now : time) (wanted : bool) : list relayRecord :=
  List.filter (eligible registry now wanted) (map snd (map_to_list (relays registry))).

Definition wantedEncryption (request : AllocationRequest) : bool :=
  bool_decide (al_TrafficEncryption request = Some true).

(** The tail of [Allocate]: choose a candidate for a Session that has no
    assignment, or [None] when there is no candidate. *)
Definition allocate_new (now : time) (request : AllocationRequest) (registry : Registry)
  : option (AllocationResponse * Registry) :=
  match SortFunc (compareCandidates (al_Topology request))
          (candidates registry now (wantedEncryption request)) with
  | [] => None
  | selected :: _ =>
    let selected' := set_reservations selected (uint32 (reservations selected + 1)) in
    let assignment := {|
      ap_Envelope := NewAllocationResponseEnvelope;
      ap_RelayID := relayID selected; ap_LeaseID := leaseID selected;
      ap_Endpoint := endpoint selected; ap_AssignedAt := now;
      ap_TrafficEncryption := trafficEncryption selected;
      ap_NoisePublicKey := noisePublicKey selected
    |} in
    Some (assignment,
      mkRegistry (config registry)
        (<[relayID selected := selected']> (relays registry))
        (<[al_SessionID request :=
             mkAssignment assignment (al_Generation request) (al_NetworkSpecHash request)]>
           (assignments registry)))
  end.

(** Take the assignment away from a Session that moves, and give its
    reservation back to the relay, if the relay is still known. *)
Definition displace (session : string) (existing : assignmentRecord) (registry : Registry)
  : Registry * bool :=
  let registry := set_assignments registry (delete session (assignments registry)) in
  match relays registry !! ap_RelayID (response existing) with
  | Some relay =>
      if 0 <? reservations relay then
        (set_relays registry
           (<[ap_RelayID (response existing) :=
                set_reservations relay (reservations relay - 1)]> (relays registry)), true)
      else (registry, false)
  | None => (registry, false)
  end.

(** Undo [displace] when no candidate is left. *)
Definition restore (session : string) (displaced : assignmentRecord)
    (reservationReleased : bool) (registry : Registry) : Registry :=
  let registry := set_assignments registry (<[session := displaced]> (assignments registry)) in
  match reservationReleased, relays registry !! ap_RelayID (response displaced) with
  | true, Some relay =>
      set_relays registry
        (<[ap_RelayID (response displaced) :=
             set_reservations relay (uint32 (reservations relay + 1))]> (relays registry))
  | _, _ => registry
  end.

(** Whether the relay of an assignment may keep serving it. *)
Definition assignment_usable (registry : Registry) (now : time) (wanted : bool)
    (existing : assignmentRecord) : bool :=
  match relays registry !! ap_RelayID (response existing) with
  | Some relay =>
      bool_decide (leaseID relay = ap_LeaseID (response existing))
      && eligible registry now wanted relay
  | None => false
  end.

(** [Allocate] returns its error together with the state it leaves: the code
    changes the maps before it knows whether there is a candidate. *)
Definition Allocate (now : time) (request : AllocationRequest) (registry : Registry)
  : result AllocationResponse * Registry :=
  match AllocationRequest_Validate request with
  | Err e => (Err e, registry)
  | Ok _ =>
    let session := al_SessionID request in
    match assignments registry !! session with
    | Some existing =>
      if (al_Generation request <? generation existing)
         || ((al_Generation request =? generation existing)
             && negb (bool_decide (al_NetworkSpecHash request = networkSpecHash existing)))
      then (Err ErrConflict, registry)
      else if negb (assignment_usable registry now (wantedEncryption request) existing) then
        if al_Generation request =? generation existing
        then (Err ErrAssignedRelayUnavailable, registry)
        else
          let '(registry', released) := displace session existing registry in
          match allocate_new now request registry' with
          | Some (assignment, registry'') => (Ok assignment, registry'')
          | None => (Err ErrAssignedRelayUnavailable, restore session existing released registry')
          end
      else
        (Ok (response existing),
         set_assignments registry
           (<[session := mkAssignment (response existing) (al_Generation request)
                           (al_NetworkSpecHash request)]> (assignments registry)))
    | None =>
      match allocate_new now request registry with
      | Some (assignment, registry') => (Ok assignment, registry')
      | None => (Err ErrUnavailable, registry)
      end
    end
  end.

Definition Release (session : string) (gen : Z) (registry : Registry) : bool * Registry :=
  match assignments registry !! session with
  | None => (false, registry)
  | Some assignment =>
    if negb (generation assignment =? gen) then (false, registry)
    else
      let registry' := set_assignments registry (delete session (assignments registry)) in
      let id := ap_RelayID (response assignment) in
      match relays registry' !! id with
      | Some relay =>
          if 0 <? reservations relay then
            (true, set_relays registry'
                     (<[id := set_reservations relay (reservations relay - 1)]>
                        (relays registry')))
          else (true, registry')
      | None => (true, registry')
      end
  end.

(** ** Status ([registry_state.go]) *)

Definition relay_status (now : time) (relay : relayRecord) : RelayStatus :=
  {| st_RelayID := relayID relay; st_Endpoint := endpoint relay; st_State := state relay;
     st_Capacity := capacity relay; st_AppliedKeyGeneration := appliedKeyGeneration relay;
     st_LeaseExpiresAt := leaseExpiresAt relay; st_LastHeartbeatAt := lastHeartbeatAt relay;
     st_Reservations := reservations relay; st_Online := After (leaseExpiresAt relay) now;
     st_Topology := Topology (identity relay) |}.

Definition compareStatus (left right : RelayStatus) : Z :=
  compareString (st_RelayID left) (st_RelayID right).

Definition Snapshot (now : time) (registry : Registry) : list RelayStatus :=
  SortFunc compareStatus (map (relay_status now) (map snd (map_to_list (relays registry)))).

(** ** The registry as a transition system *)

Inductive event :=
| EvRegister (now : time) (new_lease : string) (peer : PeerIdentity) (request : RegistrationRequest)
| EvHeartbeat (now : time) (peer : PeerIdentity) (request : HeartbeatRequest)
| EvAllocate (now : time) (request : AllocationRequest)
| EvRelease (session : string) (gen : Z).

(** The state after an event; a failed registration or heartbeat changes
    nothing. *)
Definition run_event (ev : event) (registry : Registry) : Registry :=
  match ev with
  | EvRegister now new_lease peer request =>
      match Register now new_lease peer request registry with
      | Ok (_, registry') => registry' | Err _ => registry end
  | EvHeartbeat now peer request =>
      match Heartbeat now peer request registry with
      | Ok (_, registry') => registry' | Err _ => registry end
  | EvAllocate now request => (Allocate now request registry).2
  | EvRelease session gen => (Release session gen registry).2
  end.

Definition run_events (evs : list event) (registry : Registry) : Registry :=
  foldl (fun r ev => run_event ev r) registry evs.
End operations.

(** * The internal HTTP API of the relay registry
    ([internal/controlplane/relayregistry/http.go, http_protocol.go, policy.go])

    An authenticated request carries a relay control message; the handler
    decodes it, runs the registry operation and encodes the response.  The
    authentication of the peer is a parameter, as is the routing of paths. *)


Record HttpRequest := mkHttpRequest {
  rq_Method : string;
  rq_Path : string;
  rq_ContentType : string;
  rq_Body : bytes
}.

Record HttpResponse := mkHttpResponse { rs_Status : Z; rs_Body : bytes }.

(** The JSON of an error response and the code a client reads from it. *)
Class ErrorDocuments := {
  error_document : string -> string -> bytes;
  error_code : bytes -> string
}.

Definition StatusOK : Z := 200.
Definition StatusCreated : Z := 201.
Definition StatusBadRequest : Z := 400.
Definition StatusUnauthorized : Z := 401.
Definition StatusNotFound : Z := 404.
Definition StatusConflict : Z := 409.
Definition StatusTooManyRequests : Z := 429.
Definition StatusInternalServerError : Z := 500.
Definition StatusServiceUnavailable : Z := 503.

Section api.
Context `{ErrorDocuments}.

Definition writeInternalError (status : Z) (code message : string) : HttpResponse :=
  mkHttpResponse status (error_document code message).

Definition writeRegistryError (err : error) : HttpResponse :=
  if errors_Is err "relayregistry.ErrNotFound"
  then writeInternalError StatusNotFound "not_found" "Relay lease was not found"
  else if errors_Is err "relayregistry.ErrConflict"
  then writeInternalError StatusConflict "conflict" "Relay lease does not match"
  else if errors_Is err "relayregistry.ErrUnavailable"
          || errors_Is err "relayregistry.ErrAssignedRelayUnavailable"
  then writeInternalError StatusServiceUnavailable "unavailable" "Relay is unavailable"
  else writeInternalError StatusBadRequest "invalid_argument" "Relay control request is invalid".

(** The reader stops one byte after the limit. *)
Definition readInternalBody (request : HttpRequest) : result bytes :=
  if negb (bool_decide (rq_ContentType request = "application/json"))
  then Err (NewError "content type must be application/json")
  else
    let raw := take (Z.to_nat (MaximumBodyBytes + 1)) (rq_Body request) in
    if (len raw =? 0) || (MaximumBodyBytes <? len raw)
    then Err (NewError "relay control body size is invalid") else Ok raw.

(** [None] when a validation panics. *)
Definition writeInternalDocument {A} `{JsonCodec A, ValidMessage A} (status : Z) (document : A) (now : time)
    : option HttpResponse :=
  encoded ← Encode document now;
  Some (match encoded with
        | Err _ => writeInternalError StatusInternalServerError "internal" "Relay control response failed"
        | Ok raw => mkHttpResponse status raw
        end).

(** [now] is the clock reading of the handler; the operation reads its own. *)
Definition handleInternalRequest {Req Resp} `{JsonCodec Req, ValidMessage Req, JsonCodec Resp, ValidMessage Resp}
    (peer : option PeerIdentity) (request : HttpRequest) (now : time)
    (invalidBodyMessage invalidDocumentMessage : string) (status : Z)
    (mutate : PeerIdentity -> Req -> Registry -> result (Resp * Registry)) (registry : Registry)
    : option (HttpResponse * Registry) :=
  match peer with
  | None => Some (writeInternalError StatusUnauthorized "unauthenticated" "Relay workload identity is invalid",
                  registry)
  | Some identity =>
      match readInternalBody request with
      | Err _ => Some (writeInternalError StatusBadRequest "invalid_argument" invalidBodyMessage, registry)
      | Ok raw =>
          decoded ← decode raw now;
          match decoded with
          | Err _ => Some (writeInternalError StatusBadRequest "invalid_argument" invalidDocumentMessage, registry)
          | Ok document =>
              match mutate identity document registry with
              | Err err => Some (writeRegistryError err, registry)
              | Ok (response, registry') =>
                  written ← writeInternalDocument status response now; Some (written, registry')
              end
          end
      end
  end.

Context `{UrlPackage, UuidPackage, HashPackage, KeyEncodingPackage}.
Context `{JsonCodec RegistrationRequest, JsonCodec RegistrationResponse,
          JsonCodec HeartbeatRequest, JsonCodec HeartbeatResponse}.

Definition handle_register (peer : option PeerIdentity) (request : HttpRequest) (now now_registry : time)
    (new_lease : string) (registry : Registry) : option (HttpResponse * Registry) :=
  handleInternalRequest peer request now "Relay registration body is invalid"
    "Relay registration is invalid" StatusCreated (Register now_registry new_lease) registry.

Definition handle_heartbeat (peer : option PeerIdentity) (request : HttpRequest) (now now_registry : time)
    (registry : Registry) : option (HttpResponse * Registry) :=
  handleInternalRequest peer request now "Relay heartbeat body is invalid"
    "Relay heartbeat is invalid" StatusOK (Heartbeat now_registry) registry.

(** ** [EndpointHostPolicy] ([policy.go]) *)

Definition contains_dots (l : bytes) : bool :=
  (fix go (l : bytes) : bool :=
     match l with
     | a :: (b :: _) as l' => (bool_decide (a = x2e) && bool_decide (b = x2e)) || go l'
     | _ => false
     end) l.

Definition HasSuffix (s suffix : string) : bool :=
  bool_decide (Some (string_to_bytes suffix) =
    (if slen suffix <=? slen s
     then Some (drop (Z.to_nat (slen s - slen suffix)) (string_to_bytes s)) else None)).

Definition policy_byte_ok (b : byte) : bool := negb (bool_decide (b ∈ string_to_bytes "/:@[]")).

(** Hosts are compared without case, in ASCII. *)
Definition valid_policy_host (candidate : string) : bool :=
  negb (bool_decide (candidate = "")) && all_bytes policy_byte_ok candidate
  && negb (HasSuffix candidate ".") && negb (bool_decide (candidate = "."))
  && negb (contains_dots (string_to_bytes candidate)).

Definition host_allowed (allowed : list string) (host : string) : bool :=
  existsb (fun allowedHost =>
             if HasPrefix allowedHost "."
             then HasSuffix host allowedHost && (slen allowedHost <? slen host)
             else bool_decide (host = allowedHost)) allowed.

Definition EndpointHostPolicy (allowed : list string)
    : result (PeerIdentity -> string -> result unit) :=
  let normalized := map (fun candidate => ToLower (TrimSpace candidate)) allowed in
  if negb (forallb valid_policy_host normalized)
  then Err (NewError "relay endpoint host policy is invalid")
  else if len normalized =? 0
  then Err (NewError "at least one Relay endpoint host is required")
  else Ok (fun _ endpoint =>
    match url_Parse endpoint with
    | None => Err (NewError "relay endpoint is invalid")
    | Some parsed =>
        if host_allowed normalized (ToLower (url_Hostname parsed)) then Ok tt
        else Err (NewError "relay endpoint host is not allowed")
    end).
End api.
