(* ===== verification/RelayRegistryFacts.v ===== *)
(** * A concrete relay registry

    A Control Plane with two relays, used to apply the properties of
    [RelayRegistryFacts] to a run. *)

From S2P Require Import Prelude GoLib External ConcreteEnv RelayControl RelayRegistry.
From S2P Require Import GoSort.

Definition t0 : time := 63900000000 * Second.

Definition sample_keys : VerificationKeySet :=
  mkVerificationKeySet 3
    [mkVerificationKey "key-1" "EdDSA" simple_key (t0 - Hour) (t0 + Hour)].

Definition sample_config : Config :=
  mkConfig "https://control.example/" 0 0 [] sample_keys None.

Definition sample_peer (pod : string) : PeerIdentity :=
  mkPeerIdentity "Cluster.Local" "kubeloop-system" "gateway" pod
    {["topology.kubernetes.io/zone" := "zone-a"]}.

Definition sample_registration (host : string) : RegistrationRequest :=
  mkRegistrationRequest (mkEnvelope APIVersion KindRegistrationRequest)
    [APIVersionV2; APIVersionV1] ("wss://" +:+ host +:+ "/relay") StateReady
    (mkCapacity 100 1000 0 0).

Definition sample_heartbeat (lease : string) (logical : Z) : HeartbeatRequest :=
  mkHeartbeatRequest (mkEnvelope APIVersionV2 KindHeartbeatRequest) lease StateReady
    (mkCapacity 100 1000 1 logical) 3 (Some false) "".

Definition sample_allocation (session : string) (gen : Z) : AllocationRequest :=
  mkAllocationRequest (mkEnvelope APIVersion KindAllocationRequest) (simple_id session) gen
    simple_digest {["topology.kubernetes.io/zone" := "zone-a"]} None.

Definition sample_events : list event :=
  [EvRegister t0 (simple_id "a") (sample_peer "pod-a") (sample_registration "a.example");
   EvHeartbeat t0 (sample_peer "pod-a") (sample_heartbeat (simple_id "a") 10);
   EvRegister t0 (simple_id "b") (sample_peer "pod-b") (sample_registration "b.example");
   EvHeartbeat t0 (sample_peer "pod-b") (sample_heartbeat (simple_id "b") 5);
   EvAllocate t0 (sample_allocation "1" 1)].

Definition sample_registry : Registry :=
  match New t0 sample_config with
  | Ok r => run_events sample_events r
  | Err _ => mkRegistry sample_config ∅ ∅
  end.

(** The second relay is the less loaded one, and Session 1 goes there. *)
Example sample_allocated :
  option_map (fun a => ap_Endpoint (response a))
    (assignments sample_registry !! simple_id "1") = Some "wss://b.example/relay".
Proof. vm_compute. reflexivity. Qed.

(** * Correctness of the relay registry

    The accounting invariant of [RelayRegistry], the selection of a relay, and
    the fencing of a Session's generation. *)


Section facts.
Context `{UrlPackage, UuidPackage, HashPackage, KeyEncodingPackage}.
Implicit Types (r : Registry) (relay : relayRecord) (a : assignmentRecord).

(** The words of a decoded capacity are within their Go width. *)
Definition capacity_wf (c : Capacity) : Prop :=
  u32 (MaximumPhysicalConnections c) /\ u32 (MaximumLogicalStreams c) /\
  u32 (ActivePhysicalConnections c) /\ u32 (ActiveLogicalStreams c).

Definition event_wf (ev : event) : Prop :=
  match ev with
  | EvRegister _ _ _ request => capacity_wf (rr_Capacity request)
  | EvHeartbeat _ _ request => capacity_wf (hb_Capacity request)
  | _ => True
  end.

Inductive reachable : Registry -> Prop :=
| reachable_new now cfg r :
    u64 (ks_Generation (VerificationKeys cfg)) -> New now cfg = Ok r -> reachable r
| reachable_step ev r : reachable r -> event_wf ev -> reachable (run_event ev r).

Definition capacity_bounded (c : Capacity) : Prop :=
  0 < MaximumPhysicalConnections c <= 2 ^ 20 /\ 0 < MaximumLogicalStreams c <= 2 ^ 24 /\
  0 <= ActivePhysicalConnections c <= MaximumPhysicalConnections c /\
  0 <= ActiveLogicalStreams c <= MaximumLogicalStreams c.

Definition assigned_count r (id : string) : Z := map_count (assigned_to id) (assignments r).

(** What holds of one relay record, [n] the number of Sessions assigned to it. *)
Record relay_ok (cfg : Config) (id : string) (n : Z) relay : Prop := {
  ok_id : relayID relay = id;
  ok_capacity : capacity_bounded (capacity relay);
  ok_reservations : reservations relay = n;
  ok_generation : appliedKeyGeneration relay <= ks_Generation (VerificationKeys cfg);
  ok_lease : leaseExpiresAt relay = lastHeartbeatAt relay + LeaseDuration cfg
}.

Record registry_inv r : Prop := {
  inv_relay : map_Forall (fun id relay => relay_ok (config r) id (assigned_count r id) relay)
                (relays r);
  inv_bound : forall id, assigned_count r id <= 2 ^ 24;
  inv_assigned : map_Forall (fun _ a => is_Some (relays r !! ap_RelayID (response a)))
                   (assignments r);
  inv_generation : 0 <= ks_Generation (VerificationKeys (config r))
}.

(** The keys [compareCandidates] compares by, in order. *)
Definition by_topology (wanted : gmap string string) (x y : relayRecord) : Z :=
  compareTopology (Topology (identity x)) (Topology (identity y)) wanted.
Definition logical_ratio relay : Z * Z :=
  (uint32 (ActiveLogicalStreams (capacity relay) + reservations relay),
   MaximumLogicalStreams (capacity relay)).
Definition physical_ratio relay : Z * Z :=
  (ActivePhysicalConnections (capacity relay), MaximumPhysicalConnections (capacity relay)).
Definition by_ratio (f : relayRecord -> Z * Z) (x y : relayRecord) : Z :=
  compareRatio (f x).1 (f x).2 (f y).1 (f y).2.
Definition by_id (x y : relayRecord) : Z := compareString (relayID x) (relayID y).

(** ** Helpers *)

Lemma capacity_validate_bounded c :
  capacity_wf c -> capacity_validate c = Ok tt -> capacity_bounded c.
Proof.
  unfold capacity_wf, u32, capacity_validate, capacity_bounded. intros Hwf Hv. inv_ok.
  bool_hyps. change (Z.shiftl 1 20) with (2 ^ 20) in *. change (Z.shiftl 1 24) with (2 ^ 24) in *.
  lia.
Qed.

Lemma assigned_count_range r id : registry_inv r -> 0 <= assigned_count r id <= 2 ^ 24.
Proof. intros I. split; [apply map_count_nonneg|by apply inv_bound]. Qed.

Lemma assignmentCount_exact r id :
  registry_inv r -> assignmentCountLocked r id = assigned_count r id.
Proof.
  intros I. unfold assignmentCountLocked. apply uint32_small.
  pose proof (assigned_count_range r id I). unfold assigned_count in *. lia.
Qed.

Lemma assigned_to_self a : assigned_to (ap_RelayID (response a)) a = true.
Proof. by apply bool_decide_eq_true. Qed.

Lemma assigned_to_other id a : id <> ap_RelayID (response a) -> assigned_to id a = false.
Proof. intros Hne. apply bool_decide_eq_false. congruence. Qed.

(** Replacing one relay record preserves the invariant if the new record is as
    it must be. *)
Lemma inv_set_relay r id relay :
  registry_inv r -> relay_ok (config r) id (assigned_count r id) relay ->
  registry_inv (set_relays r (<[id := relay]> (relays r))).
Proof.
  intros [I1 I2 I3 I4] Hok. split; cbn; [| | |done].
  - apply map_Forall_insert_2; done.
  - done.
  - intros s a Ha. destruct (I3 s a Ha) as [x Hx]. rewrite lookup_insert.
    case_decide; [eauto|]. rewrite Hx. eauto.
Qed.

Lemma registry_eq r r' :
  config r = config r' -> relays r = relays r' -> assignments r = assignments r' -> r = r'.
Proof. destruct r, r'; cbn; congruence. Qed.

(** ** The operations preserve the invariant *)

Lemma New_inv now cfg r :
  u64 (ks_Generation (VerificationKeys cfg)) -> New now cfg = Ok r -> registry_inv r.
Proof.
  unfold New. intros Hgen HN. destruct (url_Parse _); [|done]. inv_ok.
  split; cbn; [| | |unfold u64 in Hgen; lia].
  - apply map_Forall_empty.
  - intros id. unfold assigned_count. cbn. rewrite map_count_empty. lia.
  - apply map_Forall_empty.
Qed.

Lemma RegistrationRequest_capacity request :
  RegistrationRequest_Validate request = Ok tt -> capacity_validate (rr_Capacity request) = Ok tt.
Proof. unfold RegistrationRequest_Validate. intros HV. by inv_ok. Qed.

Lemma HeartbeatRequest_capacity request :
  HeartbeatRequest_Validate request = Ok tt -> capacity_validate (hb_Capacity request) = Ok tt.
Proof. unfold HeartbeatRequest_Validate. intros HV. by inv_ok. Qed.

Lemma Register_inv now lease peer request r resp r' :
  capacity_wf (rr_Capacity request) -> registry_inv r ->
  Register now lease peer request r = Ok (resp, r') -> registry_inv r'.
Proof.
  intros Hwf I HR. unfold Register in HR. inv_ok.
  injection HR as <- <-. apply inv_set_relay; [done|].
  split; cbn; try done.
  - by apply capacity_validate_bounded, RegistrationRequest_capacity.
  - by apply assignmentCount_exact.
  - exact (inv_generation r I).
Qed.

Lemma Heartbeat_inv now peer request r resp r' :
  capacity_wf (hb_Capacity request) -> registry_inv r ->
  Heartbeat now peer request r = Ok (resp, r') -> registry_inv r'.
Proof.
  intros Hwf I HR. unfold Heartbeat in HR. inv_ok.
  destruct (relays r !! _) as [relay|] eqn:Hrelay; [|done]. inv_ok. bool_hyps.
  injection HR as <- <-. destruct (inv_relay r I _ _ Hrelay). apply inv_set_relay; [done|].
  split; cbn; try done.
  by apply capacity_validate_bounded, HeartbeatRequest_capacity.
Qed.

(** Releasing an assignment: the Session's entry goes and its relay gets its
    reservation back. *)
Definition unassign r (session : string) a relay : Registry :=
  mkRegistry (config r)
    (<[ap_RelayID (response a) := set_reservations relay (reservations relay - 1)]> (relays r))
    (delete session (assignments r)).

Lemma assigned_count_unassign r session a relay id :
  assignments r !! session = Some a ->
  assigned_count (unassign r session a relay) id =
    assigned_count r id - (if decide (id = ap_RelayID (response a)) then 1 else 0).
Proof.
  intros Ha. unfold assigned_count. cbn. rewrite (map_count_delete _ _ _ _ Ha).
  case_decide; subst.
  - by rewrite assigned_to_self.
  - by rewrite assigned_to_other.
Qed.

Lemma assignment_relay r session a :
  registry_inv r -> assignments r !! session = Some a ->
  exists relay, relays r !! ap_RelayID (response a) = Some relay /\
    relay_ok (config r) (ap_RelayID (response a)) (assigned_count r (ap_RelayID (response a))) relay /\
    0 < reservations relay.
Proof.
  intros I Ha. destruct (inv_assigned r I _ _ Ha) as [relay Hrelay]. exists relay.
  pose proof (inv_relay r I _ _ Hrelay) as Hok. split_and!; [done..|].
  rewrite (ok_reservations _ _ _ _ Hok). unfold assigned_count.
  pose proof (map_count_pos (assigned_to (ap_RelayID (response a))) _ _ _ Ha (assigned_to_self a)).
  lia.
Qed.

Lemma unassign_inv r session a relay :
  registry_inv r -> assignments r !! session = Some a ->
  relays r !! ap_RelayID (response a) = Some relay -> registry_inv (unassign r session a relay).
Proof.
  intros I Ha Hrelay. split.
  - intros id x Hx. rewrite assigned_count_unassign by done. cbn in Hx.
    rewrite lookup_insert in Hx. case_decide; subst.
    + injection Hx as <-. destruct (inv_relay r I _ _ Hrelay).
      rewrite decide_True by done. split; cbn; try done. lia.
    + rewrite decide_False by done. rewrite Z.sub_0_r. exact (inv_relay r I id x Hx).
  - intros id. rewrite assigned_count_unassign by done.
    pose proof (inv_bound r I id). case_decide; lia.
  - intros s x Hx. cbn in *. apply lookup_delete_Some in Hx as [_ Hx].
    destruct (inv_assigned r I _ _ Hx) as [y Hy]. rewrite lookup_insert. case_decide; eauto.
  - exact (inv_generation r I).
Qed.

Lemma displace_unassign r session a :
  registry_inv r -> assignments r !! session = Some a ->
  exists relay, relays r !! ap_RelayID (response a) = Some relay /\
    displace session a r = (unassign r session a relay, true).
Proof.
  intros I Ha. destruct (assignment_relay r session a I Ha) as (relay & Hrelay & _ & Hpos).
  exists relay. split; [done|]. unfold displace. cbn. rewrite Hrelay.
  destruct (Z.ltb_spec 0 (reservations relay)); [done|lia].
Qed.

(** Undoing a displacement gives the registry back exactly. *)
Lemma restore_displace r session a r' released :
  registry_inv r -> assignments r !! session = Some a ->
  displace session a r = (r', released) -> restore session a released r' = r.
Proof.
  intros I Ha HD. destruct (displace_unassign r session a I Ha) as (relay & Hrelay & HD').
  rewrite HD' in HD. injection HD as <- <-. unfold restore, unassign. cbn.
  rewrite lookup_insert_eq. apply registry_eq; cbn; [done| |].
  - rewrite insert_insert_eq. destruct (inv_relay r I _ _ Hrelay).
    pose proof (assigned_count_range r (ap_RelayID (response a)) I).
    rewrite uint32_small by lia. apply insert_id. rewrite Hrelay. f_equal.
    destruct relay; cbn in *. unfold set_reservations; cbn. f_equal. lia.
  - rewrite insert_delete_eq. by apply insert_id.
Qed.

Lemma Release_inv session gen r : registry_inv r -> registry_inv (Release session gen r).2.
Proof.
  intros I. unfold Release. destruct (assignments r !! session) as [a|] eqn:Ha; [|done].
  destruct (negb _); [done|]. cbn.
  destruct (assignment_relay r session a I Ha) as (relay & Hrelay & _ & Hpos).
  rewrite Hrelay. destruct (Z.ltb_spec 0 (reservations relay)); [|lia].
  by apply (unassign_inv r session a relay).
Qed.

(** ** Allocation *)

Lemma candidates_spec r now wanted relay :
  relay ∈ candidates r now wanted <->
  (exists id, relays r !! id = Some relay) /\ eligible r now wanted relay = true.
Proof.
  unfold candidates. rewrite list_elem_of_In, filter_In, <- list_elem_of_In, list_elem_of_fmap.
  split.
  - intros [([id x] & -> & Hin) He]. apply elem_of_map_to_list in Hin. eauto.
  - intros [(id & Hid) He]. split; [|done]. exists (id, relay).
    by rewrite elem_of_map_to_list.
Qed.

Lemma availableLocked_spec r relay now :
  registry_inv r -> (exists id, relays r !! id = Some relay) ->
  availableLocked r relay now = true ->
  state relay = StateReady /\ now < leaseExpiresAt relay /\
  ks_Generation (VerificationKeys (config r)) <= appliedKeyGeneration relay /\
  ActiveLogicalStreams (capacity relay) + reservations relay
    < MaximumLogicalStreams (capacity relay) /\
  ActivePhysicalConnections (capacity relay) < MaximumPhysicalConnections (capacity relay).
Proof.
  intros I [id Hid] HA. destruct (inv_relay r I _ _ Hid) as [? [? [? ?]] ? ? ?].
  pose proof (assigned_count_range r id I).
  unfold availableLocked, After in HA. destruct (_ || _) eqn:E; [done|]. bool_hyps.
  rewrite uint64_small in * by lia. done.
Qed.

Lemma allocate_new_selected now request r resp r' :
  allocate_new now request r = Some (resp, r') ->
  exists selected rest,
    SortFunc (compareCandidates (al_Topology request))
      (candidates r now (wantedEncryption request)) = selected :: rest /\
    selected ∈ candidates r now (wantedEncryption request) /\
    resp = {| ap_Envelope := NewAllocationResponseEnvelope;
              ap_RelayID := relayID selected; ap_LeaseID := leaseID selected;
              ap_Endpoint := endpoint selected; ap_AssignedAt := now;
              ap_TrafficEncryption := trafficEncryption selected;
              ap_NoisePublicKey := noisePublicKey selected |} /\
    r' = mkRegistry (config r)
           (<[relayID selected :=
                set_reservations selected (uint32 (reservations selected + 1))]> (relays r))
           (<[al_SessionID request :=
                mkAssignment resp (al_Generation request) (al_NetworkSpecHash request)]>
              (assignments r)).
Proof.
  unfold allocate_new. destruct (SortFunc _ _) as [|selected rest] eqn:E; [done|].
  intros [= <- <-]. exists selected, rest. split_and!; try done.
  rewrite <- (SortFunc_perm (compareCandidates (al_Topology request))), E. left.
Qed.

Lemma allocate_new_inv now request r resp r' :
  registry_inv r -> assignments r !! al_SessionID request = None ->
  allocate_new now request r = Some (resp, r') -> registry_inv r'.
Proof.
  intros I Hnone HA.
  destruct (allocate_new_selected _ _ _ _ _ HA) as (sel & rest & _ & Hin & Hresp & ->).
  apply candidates_spec in Hin as [[id Hid] He].
  pose proof (inv_relay r I _ _ Hid) as Hok. pose proof Hok as [-> Hcap Hres Hgen Hlease].
  unfold eligible in He. bool_hyps.
  destruct (availableLocked_spec r sel now I) as (_ & _ & _ & Hroom & _); [by eauto|done|].
  destruct Hcap as (_ & ? & _ & ?). pose proof (assigned_count_range r id I).
  assert (ap_RelayID resp = id) as Hrid by (rewrite Hresp; apply Hok).
  assert (forall id', assigned_count (mkRegistry (config r)
             (<[id := set_reservations sel (uint32 (reservations sel + 1))]> (relays r))
             (<[al_SessionID request :=
                mkAssignment resp (al_Generation request) (al_NetworkSpecHash request)]>
                (assignments r))) id' =
           assigned_count r id' + (if decide (id' = id) then 1 else 0)) as Hcount.
  { intros id'. unfold assigned_count. cbn. rewrite map_count_insert_None by done.
    unfold assigned_to at 2. cbn. rewrite Hrid.
    case_decide; [by rewrite bool_decide_eq_true_2|by rewrite bool_decide_eq_false_2]. }
  split.
  - intros id' x. rewrite Hcount. cbn. rewrite lookup_insert. case_decide as Hd; [subst id'|].
    + intros [= <-]. rewrite decide_True by done. rewrite uint32_small by lia.
      split; cbn; try done; [by destruct Hok..|lia].
    + intros Hx. rewrite decide_False by done. rewrite Z.add_0_r. exact (inv_relay r I id' x Hx).
  - intros id'. rewrite Hcount. pose proof (inv_bound r I id'). case_decide; subst; lia.
  - intros s x Hx. cbn in *. rewrite lookup_insert_Some in Hx. rewrite lookup_insert.
    destruct Hx as [[_ <-]|[_ Hx]].
    + cbn. rewrite Hrid, decide_True by done. eauto.
    + destruct (inv_assigned r I _ _ Hx) as [y Hy]. case_decide; eauto.
  - exact (inv_generation r I).
Qed.

Lemma Allocate_inv now request r : registry_inv r -> registry_inv (Allocate now request r).2.
Proof.
  intros I. unfold Allocate. destruct (AllocationRequest_Validate request) as [[]|]; [|done].
  destruct (assignments r !! al_SessionID request) as [a|] eqn:Ha.
  - destruct (_ || _); [done|]. destruct (negb (assignment_usable _ _ _ _)) eqn:Hu.
    + destruct (_ =? _); [done|].
      destruct (displace _ a r) as [r1 released] eqn:HD.
      destruct (displace_unassign _ _ _ I Ha) as (relay & Hrelay & HD').
      rewrite HD in HD'. injection HD' as -> ->.
      destruct (allocate_new _ _ _) as [[resp r2]|] eqn:HN; cbn [snd].
      * eapply allocate_new_inv; [by eapply unassign_inv| |exact HN]. cbn. apply lookup_delete_eq.
      * by rewrite (restore_displace r _ a _ true I Ha HD).
    + cbn. destruct I as [I1 I2 I3 I4].
      assert (forall id, assigned_count (set_assignments r
                (<[al_SessionID request := mkAssignment (response a) (al_Generation request)
                     (al_NetworkSpecHash request)]> (assignments r))) id =
              assigned_count r id) as Hc.
      { intros id. unfold assigned_count. cbn. rewrite (map_count_insert_Some _ _ _ _ a) by done.
        unfold assigned_to. cbn. lia. }
      split; [intros id x; rewrite Hc; apply I1|intros id; rewrite Hc; apply I2| |done].
      apply map_Forall_insert_2; [cbn|done]. exact (I3 _ _ Ha).
  - destruct (allocate_new _ _ _) as [[resp r2]|] eqn:HN; cbn; [|done].
    by eapply allocate_new_inv.
Qed.

Lemma run_event_inv ev r : event_wf ev -> registry_inv r -> registry_inv (run_event ev r).
Proof.
  intros Hwf I. destruct ev as [now lease peer req|now peer req|now req|session gen]; cbn in *.
  - destruct (Register _ _ _ _ _) as [[]|] eqn:E; [by eapply Register_inv|done].
  - destruct (Heartbeat _ _ _ _) as [[]|] eqn:E; [by eapply Heartbeat_inv|done].
  - by apply Allocate_inv.
  - by apply Release_inv.
Qed.

Lemma reachable_registry_inv r : reachable r -> registry_inv r.
Proof. induction 1; [by eapply New_inv|by apply run_event_inv]. Qed.

(** ** The order of the candidates *)

Definition ratio_ok (vm : Z * Z) : Prop := 0 <= vm.1 < 2 ^ 32 /\ 0 < vm.2 < 2 ^ 32.

Lemma compareRatio_laws :
  cmp_laws ratio_ok (fun x y => compareRatio x.1 x.2 y.1 y.2).
Proof.
  assert (forall x y, ratio_ok x -> ratio_ok y -> uint64 (x.1 * y.2) = x.1 * y.2) as Hu.
  { intros x y [Hx1 Hx2] [Hy1 Hy2]. apply uint64_small. nia. }
  split.
  - intros x y Px Py. unfold compareRatio. rewrite !Hu by done.
    destruct (Z.ltb_spec (x.1 * y.2) (y.1 * x.2)), (Z.ltb_spec (y.1 * x.2) (x.1 * y.2)); lia.
  - intros x y z Px Py Pz. unfold compareRatio. rewrite !Hu by done.
    destruct Px as [Hx1 Hx2], Py as [Hy1 Hy2], Pz as [Hz1 Hz2].
    destruct (Z.ltb_spec (y.1 * x.2) (x.1 * y.2)), (Z.ltb_spec (z.1 * y.2) (y.1 * z.2)),
      (Z.ltb_spec (z.1 * x.2) (x.1 * z.2)), (Z.ltb_spec (x.1 * y.2) (y.1 * x.2)),
      (Z.ltb_spec (y.1 * z.2) (z.1 * y.2)), (Z.ltb_spec (x.1 * z.2) (z.1 * x.2));
      intros; try lia.
    all: exfalso; assert (x.1 * y.2 * z.2 <= z.1 * y.2 * x.2) by nia; nia.
Qed.

Lemma compareTopology_laws wanted :
  cmp_laws (fun _ => True) (fun left right => compareTopology left right wanted).
Proof.
  split.
  - intros x y _ _. unfold compareTopology.
    destruct (Z.ltb_spec (topology_matches y wanted) (topology_matches x wanted)),
      (Z.ltb_spec (topology_matches x wanted) (topology_matches y wanted)); lia.
  - intros x y z _ _ _. unfold compareTopology.
    destruct (Z.ltb_spec (topology_matches y wanted) (topology_matches x wanted)),
      (Z.ltb_spec (topology_matches x wanted) (topology_matches y wanted)),
      (Z.ltb_spec (topology_matches z wanted) (topology_matches y wanted)),
      (Z.ltb_spec (topology_matches y wanted) (topology_matches z wanted)),
      (Z.ltb_spec (topology_matches z wanted) (topology_matches x wanted)),
      (Z.ltb_spec (topology_matches x wanted) (topology_matches z wanted)); lia.
Qed.

(** A relay of a registry that satisfies the invariant. *)
Definition known_relay r relay : Prop := exists id, relays r !! id = Some relay.

Lemma known_relay_bounds r relay :
  registry_inv r -> known_relay r relay ->
  capacity_bounded (capacity relay) /\ 0 <= reservations relay <= 2 ^ 24.
Proof.
  intros I [id Hid]. destruct (inv_relay r I _ _ Hid).
  pose proof (assigned_count_range r id I). split; [done|lia].
Qed.

Lemma compareCandidates_lex wanted x y :
  compareCandidates wanted x y =
    lex_cmp (by_topology wanted)
      (lex_cmp (by_ratio logical_ratio) (lex_cmp (by_ratio physical_ratio) by_id)) x y.
Proof. reflexivity. Qed.

Lemma compareCandidates_laws r wanted :
  registry_inv r -> cmp_laws (known_relay r) (compareCandidates wanted).
Proof.
  intros I.
  assert (forall x, known_relay r x -> ratio_ok (logical_ratio x) /\ ratio_ok (physical_ratio x))
    as Hr.
  { intros x Hk. destruct (known_relay_bounds r x I Hk) as [(?&?&?&?) ?].
    unfold ratio_ok, logical_ratio, physical_ratio; cbn. rewrite uint32_small by lia. lia. }
  refine (lex_cmp_laws _ _ _ (lex_cmp_laws _ _ _ (lex_cmp_laws _ _ _ _))).
  - exact (map_cmp_laws _ _ _ (fun _ _ => Logic.I) (compareTopology_laws wanted)).
  - exact (map_cmp_laws _ _ _ (fun x Hx => proj1 (Hr x Hx)) compareRatio_laws).
  - exact (map_cmp_laws _ _ _ (fun x Hx => proj2 (Hr x Hx)) compareRatio_laws).
  - exact (map_cmp_laws _ _ _ (fun _ _ => Logic.I) compareString_laws).
Qed.

Lemma lex_cmp_zero {A} (c1 c2 : A -> A -> Z) x y :
  lex_cmp c1 c2 x y = 0 -> c1 x y = 0 /\ c2 x y = 0.
Proof. unfold lex_cmp. destruct (Z.eqb_spec (c1 x y) 0); cbn; intros; split; lia. Qed.

Lemma compareCandidates_eq r wanted x y :
  registry_inv r -> known_relay r x -> known_relay r y ->
  compareCandidates wanted x y = 0 -> x = y.
Proof.
  intros I [i Hi] [j Hj]. rewrite compareCandidates_lex.
  intros [_ [_ [_ Hc%compareString_eq]%lex_cmp_zero]%lex_cmp_zero]%lex_cmp_zero.
  rewrite (ok_id _ _ _ _ (inv_relay r I _ _ Hi)), (ok_id _ _ _ _ (inv_relay r I _ _ Hj)) in Hc.
  congruence.
Qed.

Lemma candidates_known r now wanted : Forall (known_relay r) (candidates r now wanted).
Proof. apply Forall_forall. intros x Hx. by apply candidates_spec in Hx as [? _]. Qed.

Lemma Allocate_error_unchanged now request r e r' :
  registry_inv r -> Allocate now request r = (Err e, r') -> r' = r.
Proof.
  intros I. unfold Allocate. destruct (AllocationRequest_Validate request) as [[]|]; [|by intros [= _ <-]].
  destruct (assignments r !! al_SessionID request) as [a|] eqn:Ha.
  - destruct (_ || _); [by intros [= _ <-]|].
    destruct (negb (assignment_usable _ _ _ _)) eqn:Hu; [|done].
    destruct (_ =? _); [by intros [= _ <-]|].
    destruct (displace _ a r) as [r1 released] eqn:HD.
    destruct (allocate_new _ _ _) as [[resp r2]|] eqn:HN; [done|].
    intros [= _ <-]. by eapply restore_displace.
  - destruct (allocate_new _ _ _) as [[resp r2]|]; [done|by intros [= _ <-]].
Qed.

(** The registry an allocation chooses from: the Session's old assignment, if
    any, has been taken away. *)
Definition without_session (session : string) r : Registry :=
  match assignments r !! session with
  | Some a => (displace session a r).1
  | None => r
  end.

Lemma without_session_inv session r : registry_inv r -> registry_inv (without_session session r).
Proof.
  intros I. unfold without_session. destruct (assignments r !! session) as [a|] eqn:Ha; [|done].
  destruct (displace_unassign _ _ _ I Ha) as (relay & Hrelay & ->).
  by eapply unassign_inv.
Qed.

(** The two ways an allocation succeeds. *)
Lemma Allocate_ok_cases now request r resp r' :
  registry_inv r -> Allocate now request r = (Ok resp, r') ->
  (exists a, assignments r !! al_SessionID request = Some a /\ response a = resp /\
     generation a <= al_Generation request /\
     assignment_usable r now (wantedEncryption request) a = true /\
     r' = set_assignments r
            (<[al_SessionID request := mkAssignment resp (al_Generation request)
                  (al_NetworkSpecHash request)]> (assignments r))) \/
  ((forall a, assignments r !! al_SessionID request = Some a ->
      generation a < al_Generation request /\
      assignment_usable r now (wantedEncryption request) a = false) /\
   allocate_new now request (without_session (al_SessionID request) r) = Some (resp, r')).
Proof.
  intros I. unfold Allocate, without_session.
  destruct (AllocationRequest_Validate request) as [[]|]; [|done].
  destruct (assignments r !! al_SessionID request) as [a|] eqn:Ha.
  - destruct (_ || _) eqn:Hc; [done|]. apply orb_false_iff in Hc as [Hc _]. bool_hyps.
    destruct (negb (assignment_usable _ _ _ _)) eqn:Hu; bool_hyps.
    + destruct (Z.eqb_spec (al_Generation request) (generation a)); [done|].
      destruct (displace _ a r) as [r1 released] eqn:HD.
      destruct (allocate_new _ _ _) as [[resp2 r2]|] eqn:HN; [|done].
      intros [= -> ->]. right. split; [|done]. intros a' [= <-]. split; [lia|done].
    + intros [= <- <-]. left. exists a. split_and!; done.
  - destruct (allocate_new _ _ _) as [[resp2 r2]|] eqn:HN; [|done].
    intros [= -> ->]. right. split; [done|done].
Qed.

(** Room is left for the Session that was just given to the relay. *)
Lemma selected_capacity r now wanted selected :
  registry_inv r -> selected ∈ candidates r now wanted ->
  ActiveLogicalStreams (capacity selected) + uint32 (reservations selected + 1)
    <= MaximumLogicalStreams (capacity selected).
Proof.
  intros I [Hk He]%candidates_spec. unfold eligible in He. bool_hyps.
  destruct (availableLocked_spec r selected now I Hk) as (_&_&_&Hroom&_); [done|].
  destruct (known_relay_bounds r selected I Hk) as [_ ?]. rewrite uint32_small; lia.
Qed.

(** ** Fencing *)

Definition not_release (session : string) (ev : event) : Prop :=
  match ev with EvRelease s _ => s <> session | _ => True end.

(** Session [s] was given [resp] at generation [g] or has moved past it. *)
Definition fenced (s : string) (g : Z) (resp : AllocationResponse) r : Prop :=
  exists a, assignments r !! s = Some a /\
    (g < generation a \/ generation a = g /\ response a = resp).

Lemma fenced_insert_other s g resp r m s' a :
  s' <> s -> assignments r = <[s' := a]> m -> (exists a, m !! s = Some a /\
    (g < generation a \/ generation a = g /\ response a = resp)) -> fenced s g resp r.
Proof. intros Hne Hm (b & Hb & Hg). exists b. by rewrite Hm, lookup_insert_ne. Qed.

Lemma displace_other s s' a r :
  s' <> s -> assignments (displace s' a r).1 !! s = assignments r !! s.
Proof.
  intros Hne. unfold displace. cbn.
  repeat case_match; cbn; by rewrite lookup_delete_ne.
Qed.

Lemma restore_assignments s a released r :
  assignments (restore s a released r) = <[s := a]> (assignments r).
Proof. unfold restore. cbn. by repeat case_match. Qed.

Lemma Allocate_fenced now request s g resp r :
  fenced s g resp r -> fenced s g resp (Allocate now request r).2.
Proof.
  intros F. pose proof F as (b & Hb & Hg). unfold Allocate.
  destruct (AllocationRequest_Validate request) as [[]|]; [|done].
  destruct (decide (al_SessionID request = s)) as [Hs|Hne].
  - rewrite Hs, Hb. destruct (_ || _) eqn:Hc; [done|].
    apply orb_false_iff in Hc as [Hc _]. bool_hyps.
    destruct (negb (assignment_usable _ _ _ _)).
    + destruct (Z.eqb_spec (al_Generation request) (generation b)); [done|].
      destruct (displace s b r) as [r1 released] eqn:HD.
      destruct (allocate_new _ _ _) as [[resp2 r2]|] eqn:HN; cbn [snd].
      * destruct (allocate_new_selected _ _ _ _ _ HN) as (sel & rest & _ & _ & _ & ->).
        eexists. cbn. rewrite Hs, lookup_insert_eq. split; [done|]. left. cbn. lia.
      * exists b. by rewrite restore_assignments, lookup_insert_eq.
    + eexists. cbn. rewrite lookup_insert_eq. split; [done|]. cbn.
      destruct Hg as [?|[? ?]]; [left; lia|].
      destruct (Z.eq_dec (al_Generation request) g); [by right|left; lia].
  - destruct (assignments r !! al_SessionID request) as [a|] eqn:Ha.
    + destruct (_ || _); [done|]. destruct (negb (assignment_usable _ _ _ _)).
      * destruct (_ =? _); [done|].
        pose proof (displace_other s _ a r Hne) as Ho.
        destruct (displace _ a r) as [r1 released] eqn:HD. cbn [fst] in Ho.
        destruct (allocate_new _ _ _) as [[resp2 r2]|] eqn:HN; cbn [snd].
        -- destruct (allocate_new_selected _ _ _ _ _ HN) as (sel & rest & _ & _ & _ & ->).
           eapply fenced_insert_other; [exact Hne|done|]. exists b. by rewrite Ho.
        -- eapply fenced_insert_other; [exact Hne|apply restore_assignments|].
           exists b. by rewrite Ho.
      * eapply fenced_insert_other; [exact Hne|done|]. by exists b.
    + destruct (allocate_new _ _ _) as [[resp2 r2]|] eqn:HN; cbn [snd]; [|done].
      destruct (allocate_new_selected _ _ _ _ _ HN) as (sel & rest & _ & _ & _ & ->).
      eapply fenced_insert_other; [exact Hne|done|]. by exists b.
Qed.

Lemma run_event_fenced ev s g resp r :
  not_release s ev -> fenced s g resp r -> fenced s g resp (run_event ev r).
Proof.
  intros Hn F. destruct ev as [now lease peer req|now peer req|now req|session gen]; cbn in *.
  - unfold Register. destruct (_ ≫= _) as [[? r']|] eqn:HR; [|done]. inv_ok.
    by injection HR as <- <-.
  - unfold Heartbeat. destruct (_ ≫= _) as [[? r']|] eqn:HR; [|done]. inv_ok.
    destruct (relays r !! _); [|done]. inv_ok. by injection HR as <- <-.
  - by apply Allocate_fenced.
  - destruct F as (b & Hb & Hg). unfold Release.
    destruct (assignments r !! session) as [a|] eqn:Ha; [|by exists b].
    destruct (negb _); [by exists b|]. exists b. split; [|done]. cbn.
    repeat case_match; cbn; by rewrite lookup_delete_ne.
Qed.

Lemma run_events_fenced evs s g resp r :
  Forall (not_release s) evs -> fenced s g resp r -> fenced s g resp (run_events evs r).
Proof.
  unfold run_events. intros Hevs. revert r. induction Hevs as [|ev evs Hev Hevs IH]; intros r F; cbn.
  - done.
  - by apply IH, run_event_fenced.
Qed.

Lemma Allocate_ok_fenced now request r resp r' :
  Allocate now request r = (Ok resp, r') ->
  fenced (al_SessionID request) (al_Generation request) resp r'.
Proof.
  unfold Allocate. destruct (AllocationRequest_Validate request) as [[]|]; [|done].
  destruct (assignments r !! al_SessionID request) as [a|] eqn:Ha.
  - destruct (_ || _); [done|]. destruct (negb (assignment_usable _ _ _ _)).
    + destruct (_ =? _); [done|]. destruct (displace _ a r) as [r1 released].
      destruct (allocate_new _ _ _) as [[resp2 r2]|] eqn:HN; [|done]. intros [= -> ->].
      destruct (allocate_new_selected _ _ _ _ _ HN) as (sel & rest & _ & _ & _ & ->).
      eexists. cbn. rewrite lookup_insert_eq. split; [done|]. by right.
    + intros [= <- <-]. eexists. cbn. rewrite lookup_insert_eq. split; [done|]. by right.
  - destruct (allocate_new _ _ _) as [[resp2 r2]|] eqn:HN; [|done]. intros [= -> ->].
    destruct (allocate_new_selected _ _ _ _ _ HN) as (sel & rest & _ & _ & _ & ->).
    eexists. cbn. rewrite lookup_insert_eq. split; [done|]. by right.
Qed.

Lemma fenced_allocate now request resp resp' r r' :
  fenced (al_SessionID request) (al_Generation request) resp r ->
  Allocate now request r = (Ok resp', r') -> resp' = resp.
Proof.
  intros (b & Hb & Hg). unfold Allocate.
  destruct (AllocationRequest_Validate request) as [[]|]; [|done]. rewrite Hb.
  destruct (_ || _) eqn:Hc; [done|]. apply orb_false_iff in Hc as [Hc _]. bool_hyps.
  destruct (negb (assignment_usable _ _ _ _)).
  - destruct (Z.eqb_spec (al_Generation request) (generation b)); [done|]. lia.
  - intros [= <- <-]. destruct Hg as [?|[_ Hg]]; [lia|done].
Qed.

(** ** Properties *)

(** C17 (invariant). In every registry reachable from [New] by registrations,
    heartbeats, allocations and releases, in any order and at any times: each
    relay is stored under its own ID, its reservation count is exactly the
    number of Sessions assigned to it, its capacity is within the protocol's
    bounds, it never claims a key generation the Control Plane does not have,
    its lease ends one lease duration after its last heartbeat, and every
    assignment names a known relay. *)
Theorem reachable_accounting r : reachable r -> registry_inv r.
Proof. apply reachable_registry_inv. Qed.

(** C36 (error). [Allocate] is atomic: when it fails, the registry is exactly as
    it was, although the code deletes the old assignment and gives its
    reservation back before it looks for a candidate. *)
Theorem failed_allocation_unchanged now request r e r' :
  reachable r -> Allocate now request r = (Err e, r') -> r' = r.
Proof. intros HR. by apply Allocate_error_unchanged, reachable_registry_inv. Qed.

(** A successful [Allocate] either keeps the Session's current
    assignment, whose relay still holds the same lease, is available and has
    the wanted encryption mode; or returns the data of a relay that is
    available, has the wanted mode and is minimal in the candidate order once
    the old assignment is taken away, and the Session still fits that relay's
    stream capacity. *)
Theorem allocation_selects now request r resp r' :
  reachable r -> Allocate now request r = (Ok resp, r') ->
  (exists a, assignments r !! al_SessionID request = Some a /\ response a = resp /\
     assignment_usable r now (wantedEncryption request) a = true) \/
  (exists selected,
     let r0 := without_session (al_SessionID request) r in
     selected ∈ candidates r0 now (wantedEncryption request) /\
     (forall other, other ∈ candidates r0 now (wantedEncryption request) ->
        compareCandidates (al_Topology request) selected other <= 0) /\
     ActiveLogicalStreams (capacity selected) + uint32 (reservations selected + 1)
       <= MaximumLogicalStreams (capacity selected) /\
     ap_RelayID resp = relayID selected /\ ap_LeaseID resp = leaseID selected /\
     ap_Endpoint resp = endpoint selected /\ ap_AssignedAt resp = now /\
     ap_TrafficEncryption resp = wantedEncryption request /\
     ap_NoisePublicKey resp = noisePublicKey selected).
Proof.
  intros HR%reachable_registry_inv HA.
  destruct (Allocate_ok_cases _ _ _ _ _ HR HA) as [(a & ? & ? & _ & ? & _)|[_ HN]]; [left; eauto|].
  right. pose proof (without_session_inv (al_SessionID request) r HR) as I0.
  destruct (allocate_new_selected _ _ _ _ _ HN) as (sel & rest & HS & Hin & -> & _).
  exists sel. split_and!; try done.
  - intros other Ho. eapply SortFunc_head_min; [by apply compareCandidates_laws| |exact HS|done].
    apply candidates_known.
  - by eapply selected_capacity.
  - apply candidates_spec in Hin as [_ He]. unfold eligible, relaySupportsEncryption in He.
    cbn. bool_hyps. destruct (Bool.eqb _ _) eqn:Hb; [|done]. by apply Bool.eqb_prop in Hb.
Qed.

(** The relay [Allocate] picks does not depend on the order in
    which Go iterates over the relay map: sorting any permutation of the
    candidates puts the same relay first. *)
Theorem selection_order_irrelevant now wanted topology r l :
  reachable r -> Permutation l (candidates r now wanted) ->
  head (SortFunc (compareCandidates topology) l) =
  head (SortFunc (compareCandidates topology) (candidates r now wanted)).
Proof.
  intros HR%reachable_registry_inv Hp.
  eapply SortFunc_head_unique; [by apply compareCandidates_laws| | |done].
  - intros x y. by apply compareCandidates_eq.
  - rewrite Hp. apply candidates_known.
Qed.

(** Fencing: unless the Session is released in between, two
    successful allocations of a Session at the same generation return the same
    assignment, whatever else happens to the registry between them.  So no two
    relays ever hold assignments for one Session generation. *)
Theorem allocation_fenced now1 now2 request1 request2 evs r r1 r2 resp1 resp2 :
  Allocate now1 request1 r = (Ok resp1, r1) ->
  Forall (not_release (al_SessionID request1)) evs ->
  al_SessionID request2 = al_SessionID request1 ->
  al_Generation request2 = al_Generation request1 ->
  Allocate now2 request2 (run_events evs r1) = (Ok resp2, r2) ->
  resp2 = resp1.
Proof.
  intros HA1 Hevs Hs Hg HA2. eapply fenced_allocate; [|exact HA2].
  rewrite Hs, Hg. apply run_events_fenced; [done|]. by eapply Allocate_ok_fenced.
Qed.

(** A relay that registers again under a new lease loses the
    Sessions assigned under its old one: such a Session cannot be allocated
    again at its generation, and the registry keeps its assignment. *)
Theorem reregistration_fences now now' lease peer request1 request2 r resp r' a :
  Register now lease peer request1 r = Ok (resp, r') ->
  assignments r !! al_SessionID request2 = Some a ->
  ap_RelayID (response a) = rp_RelayID resp -> ap_LeaseID (response a) <> lease ->
  AllocationRequest_Validate request2 = Ok tt ->
  al_Generation request2 = generation a -> al_NetworkSpecHash request2 = networkSpecHash a ->
  Allocate now' request2 r' = (Err ErrAssignedRelayUnavailable, r').
Proof.
  intros HR Ha Hid Hlease HV Hgen Hhash. unfold Register in HR. inv_ok.
  injection HR as <- <-. cbn in Hid. unfold Allocate. rewrite HV. cbn. rewrite Ha.
  rewrite Hgen, Hhash, Z.ltb_irrefl, Z.eqb_refl. cbn.
  rewrite bool_decide_eq_true_2 by done. cbn.
  unfold assignment_usable. cbn. rewrite Hid, lookup_insert_eq. cbn.
  by rewrite bool_decide_eq_false_2.
Qed.
End facts.

(** ** Witnesses *)

Lemma sample_capacity_wf logical :
  u32 logical -> capacity_wf (mkCapacity 100 1000 1 logical) /\
                 capacity_wf (mkCapacity 100 1000 0 logical).
Proof. unfold capacity_wf, u32. cbn. lia. Qed.

Lemma sample_reachable : reachable sample_registry.
Proof.
  unfold sample_registry. destruct (New t0 sample_config) as [r|] eqn:E.
  2:{ vm_compute in E. discriminate E. }
  unfold run_events, sample_events. cbn [foldl].
  repeat apply reachable_step.
  - eapply reachable_new; [|exact E]. unfold u64. cbn. lia.
  - apply sample_capacity_wf. unfold u32. lia.
  - apply sample_capacity_wf. unfold u32. lia.
  - apply sample_capacity_wf. unfold u32. lia.
  - apply sample_capacity_wf. unfold u32. lia.
  - exact I.
Defined.

Example reachable_accounting_witness : registry_inv sample_registry.
Proof. apply reachable_accounting. exact sample_reachable. Defined.

Example failed_allocation_unchanged_witness :
  (Allocate (t0 + Minute) (sample_allocation "1" 2) sample_registry).2 = sample_registry.
Proof.
  apply (failed_allocation_unchanged (t0 + Minute) (sample_allocation "1" 2) sample_registry
           ErrAssignedRelayUnavailable); [exact sample_reachable|].
  destruct (Allocate _ _ _) as [x y] eqn:E. cbn. f_equal.
  change x with (x, y).1. rewrite <- E. by vm_compute.
Defined.

Example allocation_selects_witness :
  exists resp r',
    Allocate t0 (sample_allocation "2" 1) sample_registry = (Ok resp, r') /\
    ((exists a, assignments sample_registry !! simple_id "2" = Some a) \/ ap_AssignedAt resp = t0).
Proof.
  destruct (Allocate t0 (sample_allocation "2" 1) sample_registry) as [[resp|e] r'] eqn:E.
  2:{ apply (f_equal (fun p => is_ok p.1)) in E. vm_compute in E. discriminate E. }
  exists resp, r'. split; [reflexivity|].
  destruct (allocation_selects _ _ _ _ _ sample_reachable E) as
    [(a & Ha & _)|(sel & _ & _ & _ & _ & _ & _ & Ht & _)].
  - left. exists a. exact Ha.
  - right. exact Ht.
Defined.

Example selection_order_irrelevant_witness :
  head (SortFunc (compareCandidates ∅) (rev (candidates sample_registry t0 false))) =
  head (SortFunc (compareCandidates ∅) (candidates sample_registry t0 false)).
Proof.
  apply (selection_order_irrelevant t0 false ∅ sample_registry); [exact sample_reachable|].
  symmetry. apply Permutation_rev.
Defined.

Example allocation_fenced_witness :
  exists resp1 resp2 r1 r2,
    Allocate t0 (sample_allocation "2" 1) sample_registry = (Ok resp1, r1) /\
    Allocate (t0 + Second) (sample_allocation "2" 1)
      (run_events [EvRelease (simple_id "1") 1] r1) = (Ok resp2, r2) /\ resp2 = resp1.
Proof.
  destruct (Allocate t0 (sample_allocation "2" 1) sample_registry) as [[resp1|e] r1] eqn:E1.
  2:{ apply (f_equal (fun p => is_ok p.1)) in E1. vm_compute in E1. discriminate E1. }
  destruct (Allocate (t0 + Second) (sample_allocation "2" 1)
              (run_events [EvRelease (simple_id "1") 1] r1)) as [[resp2|e] r2] eqn:E2.
  2:{ assert (r1 = (Allocate t0 (sample_allocation "2" 1) sample_registry).2) as Hr by (by rewrite E1).
      rewrite Hr in E2. apply (f_equal (fun p => is_ok p.1)) in E2. vm_compute in E2.
      discriminate E2. }
  exists resp1, resp2, r1, r2. split; [reflexivity|]. split; [exact E2|].
  refine (allocation_fenced _ _ _ _ _ _ _ _ _ _ E1 _ eq_refl eq_refl E2).
  constructor; [|constructor]. vm_compute. intros Heq. discriminate Heq.
Defined.

Example reregistration_fences_witness :
  exists resp r' a,
    Register t0 (simple_id "c") (sample_peer "pod-b") (sample_registration "b.example")
      sample_registry = Ok (resp, r') /\
    assignments sample_registry !! simple_id "1" = Some a /\
    Allocate t0 (sample_allocation "1" 1) r' = (Err ErrAssignedRelayUnavailable, r').
Proof.
  destruct (Register t0 (simple_id "c") (sample_peer "pod-b") (sample_registration "b.example")
              sample_registry) as [[resp r']|e] eqn:E.
  2:{ apply (f_equal is_ok) in E. vm_compute in E. discriminate E. }
  destruct (assignments sample_registry !! simple_id "1") as [a|] eqn:Ha.
  2:{ vm_compute in Ha. discriminate Ha. }
  exists resp, r', a. split; [reflexivity|]. split; [reflexivity|].
  refine (reregistration_fences t0 t0 (simple_id "c") (sample_peer "pod-b")
            (sample_registration "b.example") (sample_allocation "1" 1) sample_registry
            resp r' a E Ha _ _ _ _ _).
  - rewrite (some_field "" (fun a => ap_RelayID (response a)) _ _ Ha).
    change (rp_RelayID resp) with (rp_RelayID (resp, r').1).
    rewrite (ok_field "" (fun p => rp_RelayID p.1) _ _ E). vm_compute. reflexivity.
  - rewrite (some_field "" (fun a => ap_LeaseID (response a)) _ _ Ha). vm_compute. discriminate.
  - vm_compute. reflexivity.
  - rewrite (some_field 0 generation _ _ Ha). vm_compute. reflexivity.
  - rewrite (some_field "" networkSpecHash _ _ Ha). vm_compute. reflexivity.
Defined.
