(* ===== verification/RelayAgent.v ===== *)
(** * The relay agent ([internal/gateway/relay/agent])

    The agent registers a relay with the control plane, applies the key set it
    receives to the ticket authenticator, keeps the lease alive with heartbeats
    and registers again when the lease is lost.

    The agent runs against an [Environment]: the clock, the runtime reporter,
    the HTTP client, the timers and the context.  A call may fail ([inl]) or the
    process may panic ([None]). *)

From S2P Require Import Prelude GoLib External Utils RelayControl RelayTicket RelayBearer.
From S2P Require Import RelayAuthenticator RelayRegistry.
From S2P Require Import GoText.

(** ** Configuration and state ([agent_core.go]) *)

Record AgentConfig := mkAgentConfig {
  ControlPlaneURL : string;
  Endpoint : string;
  BearerTokenFile : string;
  RegistrationAttempts : Z;
  RegistrationRetryDelay : Duration;
  cfg_TrafficEncryption : bool;
  NoisePublicKey : string
}.

Definition defaultRegistrationAttempts : Z := 10.
Definition defaultRegistrationRetryDelay : Duration := 500 * Millisecond.

Inductive lifecycleState :=
| lifecycleIdle
| lifecycleStarting
| lifecycleRunning
| lifecycleStopped.

#[export] Instance lifecycleState_eq_dec : EqDecision lifecycleState.
Proof. solve_decision. Defined.

(** The errors the agent tells apart: a failed [HTTPClient.Do] (a [*url.Error]),
    an [HTTPError], the context's error, and the others. *)
Inductive agentError :=
| TransportError
| HTTPError (Status : Z) (Code : string)
| ContextError
| PlainError (e : error).

Record Agent := mkAgent {
  ag_relayID : string;
  ag_ticketIssuer : string;
  ag_leaseID : string;
  ag_leaseExpiresAt : time;
  ag_heartbeatAfter : Duration;
  ag_selectedVersion : string;
  lastError : option agentError;
  lifecycle : lifecycleState;
  applier : TicketAuthenticator
}.

(** What the agent calls: readings of the clock, [Reporter.Snapshot],
    [HTTPClient.Do] with the bearer token (a status and a body, [None] for a
    read error), a wait that ends early when the context is done, and the
    context's error. *)
Class Environment (W : Type) := {
  env_Now : W -> time * W;
  env_Snapshot : W -> (State * Capacity) * W;
  env_Do : HttpRequest -> option string -> W -> option (option (Z * option bytes) * W);
  env_Wait : Duration -> W -> bool * W;
  env_Err : W -> bool * W;
  env_BeginDrain : W -> W
}.

(** ** A state and error monad *)

Section agent.
Context {W : Type} `{Environment W}.

Definition M (A : Type) : Type := Agent * W -> option ((agentError + A) * (Agent * W)).

#[export] Instance M_ret : MRet M := fun A a s => Some (inr a, s).
#[export] Instance M_bind : MBind M := fun A B f m s =>
  match m s with
  | None => None
  | Some (inl e, s') => Some (inl e, s')
  | Some (inr a, s') => f a s'
  end.

Definition throw {A} (e : agentError) : M A := fun s => Some (inl e, s).
(** The error of a call as a value. *)
Definition attempt {A} (m : M A) : M (agentError + A) := fun s =>
  match m s with None => None | Some (r, s') => Some (inr r, s') end.
Definition get : M Agent := fun s => Some (inr s.1, s).
Definition modify (f : Agent -> Agent) : M unit := fun s => Some (inr tt, (f s.1, s.2)).
Definition env {A} (f : W -> A * W) : M A := fun s => let '(a, w) := f s.2 in Some (inr a, (s.1, w)).
Definition do_request (request : HttpRequest) (token : option string) : M (option (Z * option bytes)) :=
  fun s => match env_Do request token s.2 with
           | None => None | Some (reply, w) => Some (inr reply, (s.1, w)) end.
(** An error of the called function is the agent's error; a panic is a panic. *)
Definition lift {A} (r : option (result A)) : M A := fun s =>
  match r with
  | None => None
  | Some (Ok a) => Some (inr a, s)
  | Some (Err e) => Some (inl (PlainError e), s)
  end.

Definition fail {A} (msg : string) : M A := throw (PlainError (NewError msg)).

Definition with_lastError (e : option agentError) (a : Agent) : Agent :=
  mkAgent (ag_relayID a) (ag_ticketIssuer a) (ag_leaseID a) (ag_leaseExpiresAt a) (ag_heartbeatAfter a)
    (ag_selectedVersion a) e (lifecycle a) (applier a).
Definition with_lifecycle (l : lifecycleState) (a : Agent) : Agent :=
  mkAgent (ag_relayID a) (ag_ticketIssuer a) (ag_leaseID a) (ag_leaseExpiresAt a) (ag_heartbeatAfter a)
    (ag_selectedVersion a) (lastError a) l (applier a).
Definition with_applier (au : TicketAuthenticator) (a : Agent) : Agent :=
  mkAgent (ag_relayID a) (ag_ticketIssuer a) (ag_leaseID a) (ag_leaseExpiresAt a) (ag_heartbeatAfter a)
    (ag_selectedVersion a) (lastError a) (lifecycle a) au.
(** The fields a registration and a heartbeat set. *)
Definition with_registration (response : RegistrationResponse) (a : Agent) : Agent :=
  mkAgent (rp_RelayID response) (rp_TicketIssuer response) (rp_LeaseID response)
    (rp_LeaseExpiresAt response) (rp_HeartbeatAfter response) (rp_SelectedVersion response)
    None (lifecycle a) (applier a).
Definition with_heartbeat (response : HeartbeatResponse) (a : Agent) : Agent :=
  mkAgent (ag_relayID a) (ag_ticketIssuer a) (ag_leaseID a) (hp_LeaseExpiresAt response)
    (hp_HeartbeatAfter response) (ag_selectedVersion a) None (lifecycle a) (applier a).

Context `{UrlPackage, UuidPackage, HashPackage, KeyEncodingPackage, FileSystem, ErrorDocuments}.
Context `{JsonCodec RegistrationRequest, JsonCodec RegistrationResponse,
          JsonCodec HeartbeatRequest, JsonCodec HeartbeatResponse}.

(** [New]; the HTTP client, the reporter and the applier are given. *)
Definition New (config : AgentConfig) (au : TicketAuthenticator) : result (AgentConfig * Agent) :=
  let control := TrimRightSlash (TrimSpace (ControlPlaneURL config)) in
  let endpoint := TrimSpace (Endpoint config) in
  _ ← require (match url_Parse control with
               | None => false
               | Some u =>
                   bool_decide (url_Scheme u = "https") && negb (bool_decide (url_Host u = ""))
                   && negb (url_HasUser u) && bool_decide (url_RawQuery u = "")
                   && bool_decide (url_Fragment u = "")
                   && (bool_decide (url_Path u = "") || bool_decide (url_Path u = "/"))
               end) (NewError "relay registry ControlPlane URL must be an HTTPS origin");
  _ ← require (match url_Parse endpoint with
               | None => false
               | Some u =>
                   (bool_decide (url_Scheme u = "ws") || bool_decide (url_Scheme u = "wss"))
                   && negb (bool_decide (url_Host u = "")) && negb (bool_decide (url_Path u = ""))
                   && negb (url_HasUser u) && bool_decide (url_RawQuery u = "")
                   && bool_decide (url_Fragment u = "")
               end) (NewError "data plane advertised endpoint must be an absolute WS or WSS URL");
  let attempts := if RegistrationAttempts config =? 0 then defaultRegistrationAttempts
                  else RegistrationAttempts config in
  let delay := if RegistrationRetryDelay config =? 0 then defaultRegistrationRetryDelay
               else RegistrationRetryDelay config in
  _ ← require ((1 <=? attempts) && (attempts <=? 100)
               && (10 * Millisecond <=? delay) && (delay <=? 30 * Second))
        (NewError "relay agent registration retry policy is invalid");
  _ ← (if cfg_TrafficEncryption config then
         let probe := mkHeartbeatRequest (mkEnvelope APIVersionV2 KindHeartbeatRequest)
                        "00000000-0000-0000-0000-000000000000" StateReady (mkCapacity 1 1 0 0) 0
                        (Some true) (NoisePublicKey config) in
         require (is_ok (HeartbeatRequest_Validate probe))
           (NewError "relay agent Noise public key is invalid")
       else require (bool_decide (NoisePublicKey config = ""))
              (NewError "relay agent Noise public key requires traffic encryption"));
  Ok (mkAgentConfig control endpoint (TrimSpace (BearerTokenFile config)) attempts delay
        (cfg_TrafficEncryption config) (NoisePublicKey config),
      mkAgent "" "" "" 0 0 "" None lifecycleIdle au).

(** ** One exchange ([agent_http.go]) *)

Definition maximumTokenBytes : Z := Z.shiftl 16 10.

(** [readBearerToken] ([agent_tls.go]). *)
Definition readBearerToken (path : string) : result string :=
  match os_ReadFile path with
  | None => Err (NewError "read Relay Agent bearer token")
  | Some contents =>
      let raw := take (Z.to_nat (maximumTokenBytes + 1)) contents in
      let token := TrimSpace (bytes_to_string raw) in
      if (len raw =? 0) || (maximumTokenBytes <? len raw) || bool_decide (token = "")
         || negb (all_bytes (fun b => negb (bool_decide (b ∈ [x0d; x0a; x20; x09]))) token)
      then Err (NewError "relay agent bearer token is invalid") else Ok token
  end.

Definition success_status (status : Z) : bool := (200 <=? status) && (status <? 300).

Definition call {T R} `{JsonCodec T, ValidMessage T, JsonCodec R, ValidMessage R}
    (config : AgentConfig) (method path : string) (request : T) : M R :=
  now ← env env_Now;
  raw ← lift (Encode request now);
  _ ← (match url_Parse (ControlPlaneURL config +:+ path) with
       | Some _ => mret tt
       | None => fail "create Relay control request"
       end : M unit);
  token ← (if bool_decide (BearerTokenFile config = "") then mret None
           else t ← lift (Some (readBearerToken (BearerTokenFile config))); mret (Some t) : M (option string));
  reply ← do_request (mkHttpRequest method path "application/json" raw) token;
  match reply with
  | None => throw TransportError
  | Some (status, body) =>
      match body with
      | None => fail "read Relay control response"
      | Some body =>
          let responseRaw := take (Z.to_nat (MaximumBodyBytes + 1)) body in
          if MaximumBodyBytes <? len responseRaw then fail "read Relay control response"
          else if negb (success_status status) then throw (HTTPError status (error_code responseRaw))
          else now ← env env_Now; lift (decode responseRaw now)
      end
  end.

Definition isLeaseError (e : agentError) : bool :=
  match e with
  | HTTPError status _ => (status =? StatusNotFound) || (status =? StatusConflict)
  | _ => false
  end.

Definition retryableRegistrationError (e : agentError) : bool :=
  match e with
  | HTTPError status _ => (status =? StatusTooManyRequests) || (StatusInternalServerError <=? status)
  | TransportError => true
  | _ => false
  end.

(** ** Registration and heartbeats ([agent_control.go]) *)

Definition heartbeat (config : AgentConfig) : M unit :=
  a ← get;
  if bool_decide (ag_leaseID a = "") then fail "relay agent has no lease"
  else
    let selectedVersion := ag_selectedVersion a in
    '(state, capacity) ← env env_Snapshot;
    let v2 := bool_decide (selectedVersion = APIVersionV2) in
    let request := mkHeartbeatRequest (mkEnvelope selectedVersion KindHeartbeatRequest) (ag_leaseID a)
      state capacity (AppliedKeyGeneration (applier a))
      (if v2 then Some (cfg_TrafficEncryption config) else None)
      (if v2 && cfg_TrafficEncryption config then NoisePublicKey config else "") in
    response ← call (R := HeartbeatResponse) config "PUT" "/internal/v1/relays/heartbeat" request;
    modify (with_heartbeat response).

Definition register (config : AgentConfig) : M unit :=
  '(state, capacity) ← env env_Snapshot;
  let request := mkRegistrationRequest (mkEnvelope APIVersion KindRegistrationRequest)
    [APIVersionV2; APIVersionV1] (Endpoint config) state capacity in
  response ← call (R := RegistrationResponse) config "POST" "/internal/v1/relays/register" request;
  a ← get;
  now ← env env_Now;
  match Apply (applier a) now (rp_TicketIssuer response) (rp_RelayID response) (rp_Keys response) with
  | Err e => throw (PlainError (WrapError "apply Relay registration control state" e))
  | Ok au =>
      _ ← modify (with_applier au);
      if cfg_TrafficEncryption config && negb (bool_decide (rp_SelectedVersion response = APIVersionV2))
      then fail "control plane does not support encrypted Relay traffic"
      else _ ← modify (with_registration response); heartbeat config
  end.

(** ** The lifecycle ([agent_run.go]) *)

(** [remaining] attempts are left; [RegistrationAttempts] is at least one. *)
Fixpoint register_attempts (config : AgentConfig) (remaining : nat) : M unit :=
  match remaining with
  | O => mret tt
  | S remaining' =>
      outcome ← attempt (register config);
      match outcome with
      | inr _ => mret tt
      | inl e =>
          if negb (retryableRegistrationError e) || (Nat.eqb remaining' 0) then throw e
          else waited ← env (env_Wait (RegistrationRetryDelay config));
               if (waited : bool) then register_attempts config remaining' else throw ContextError
      end
  end.

Definition Start (config : AgentConfig) : M unit :=
  a ← get;
  if negb (bool_decide (lifecycle a = lifecycleIdle)) then fail "relay agent is already starting or started"
  else
    _ ← modify (with_lifecycle lifecycleStarting);
    outcome ← attempt (_ ← register_attempts config (Z.to_nat (RegistrationAttempts config));
                       done ← env env_Err;
                       if (done : bool) then throw ContextError else mret tt);
    match outcome with
    | inl e => _ ← modify (with_lifecycle lifecycleIdle); throw e
    | inr _ => modify (with_lifecycle lifecycleRunning)
    end.

(** One iteration of the loop of [run]; [false] when the loop returns. *)
Definition run_iteration (config : AgentConfig) : M bool :=
  a ← get;
  fired ← env (env_Wait (ag_heartbeatAfter a));
  if negb fired then mret false
  else
    outcome ← attempt (heartbeat config);
    match outcome with
    | inr _ => mret true
    | inl e =>
        _ ← modify (with_lastError (Some e));
        again ← (if isLeaseError e then
                   registered ← attempt (register config);
                   match registered with
                   | inr _ => mret true
                   | inl e' => _ ← modify (with_lastError (Some e')); mret false
                   end
                 else mret false);
        if (again : bool) then mret true else env (env_Wait Second)
    end.

(** The loop, for at most [fuel] iterations, with its deferred function. *)
Fixpoint run (config : AgentConfig) (fuel : nat) : M unit :=
  match fuel with
  | O => mret tt
  | S fuel' =>
      continue ← run_iteration config;
      if (continue : bool) then run config fuel'
      else modify (with_lifecycle lifecycleStopped)
  end.

(** ** State ([agent_state.go]) *)

Definition Ready (a : Agent) (now : time) : bool :=
  bool_decide (lifecycle a = lifecycleRunning)
  && match lastError a with None => true | Some _ => false end
  && negb (bool_decide (ag_relayID a = "")) && After (ag_leaseExpiresAt a) now.

Definition Drain (config : AgentConfig) : M unit :=
  _ ← env (fun w => (tt, env_BeginDrain w)); heartbeat config.
End agent.

(** * Correctness of the relay agent

    A small program logic for the agent's monad, the invariant of its state,
    and the outcome of its lifecycle operations, against any environment. *)


Section logic.
Context {W : Type} `{Environment W}.
Local Abbreviation M A := (RelayAgent.M (W := W) A).
Implicit Types (P : Agent -> Prop).

(** From an agent satisfying [P], [m] ends in [Q] on success and [E] on error. *)
Definition triple {A} P (m : M A) (Q : A -> Agent -> Prop) (E : agentError -> Agent -> Prop) : Prop :=
  forall a w r a' w', m (a, w) = Some (r, (a', w')) -> P a ->
    match r with inr x => Q x a' | inl e => E e a' end.

Lemma triple_ret {A} P (x : A) (Q : A -> Agent -> Prop) E :
  (forall a, P a -> Q x a) -> triple P (mret x) Q E.
Proof. intros HQ a w r a' w' [= <- <- <-] HP. by apply HQ. Qed.

Lemma triple_throw {A} P e (Q : A -> Agent -> Prop) (E : agentError -> Agent -> Prop) :
  (forall a, P a -> E e a) -> triple P (throw e) Q E.
Proof. intros HE a w r a' w' [= <- <- <-] HP. by apply HE. Qed.

Lemma triple_bind {A B} P (m : M A) (f : A -> M B) R Q E :
  triple P m R E -> (forall x, triple (R x) (f x) Q E) -> triple P (m ≫= f) Q E.
Proof.
  intros Hm Hf a w r a' w' Hr HP. unfold mbind, M_bind in Hr.
  destruct (m (a, w)) as [[[e|x] [a1 w1]]|] eqn:Em; [|eapply Hf; [exact Hr|]|discriminate Hr].
  - injection Hr as <- <- <-. apply (Hm _ _ _ _ _ Em HP).
  - apply (Hm _ _ _ _ _ Em HP).
Qed.

Lemma triple_attempt {A} P (m : M A) Q E E' :
  triple P m Q E ->
  triple P (attempt m) (fun r a => match r with inr x => Q x a | inl e => E e a end) E'.
Proof.
  intros Hm a w r a' w' Hr HP. unfold attempt in Hr.
  destruct (m (a, w)) as [[r1 [a1 w1]]|] eqn:Em; [|discriminate Hr]. injection Hr as <- <- <-.
  apply (Hm _ _ _ _ _ Em HP).
Qed.

Lemma triple_get P E : triple P get (fun x a => x = a /\ P a) E.
Proof. intros a w r a' w' [= <- <- <-] HP. done. Qed.

Lemma triple_modify P f (Q : Agent -> Prop) E :
  (forall a, P a -> Q (f a)) -> triple P (modify f) (fun _ a => Q a) E.
Proof. intros Hf a w r a' w' [= <- <- <-] HP. by apply Hf. Qed.

Lemma triple_env {A} P (f : W -> A * W) E : triple P (env f) (fun _ a => P a) E.
Proof.
  intros a w r a' w' Hr HP. unfold env in Hr. cbn in Hr. destruct (f w) as [x w1].
  by injection Hr as <- <- <-.
Qed.

Lemma triple_do P request token E : triple P (do_request request token) (fun _ a => P a) E.
Proof.
  intros a w r a' w' Hr HP. unfold do_request in Hr. cbn in Hr.
  destruct (env_Do request token w) as [[reply w1]|]; [|discriminate]. by injection Hr as <- <- <-.
Qed.

Lemma triple_lift {A} P (r : option (result A)) :
  triple P (lift r) (fun x a => r = Some (Ok x) /\ P a) (fun _ a => P a).
Proof.
  intros a w o a' w' Hr HP. unfold lift in Hr. destruct r as [[x|e]|]; [..|discriminate Hr];
    by injection Hr as <- <- <-.
Qed.

Lemma triple_weaken {A} P P' (m : M A) Q Q' E E' :
  triple P' m Q' E' -> (forall a, P a -> P' a) -> (forall x a, Q' x a -> Q x a) ->
  (forall e a, E' e a -> E e a) -> triple P m Q E.
Proof.
  intros Hm HP HQ HE a w r a' w' Hr Ha. specialize (Hm _ _ _ _ _ Hr (HP _ Ha)).
  destruct r; auto.
Qed.

Lemma triple_pure {A} P (F : Prop) (m : M A) Q E :
  (F -> triple P m Q E) -> triple (fun a => F /\ P a) m Q E.
Proof. intros Hm a w r a' w' Hr [HF HP]. by apply (Hm HF _ _ _ _ _ Hr). Qed.

(** The state an operation starts from. *)
Lemma triple_state {A} P (m : M A) Q E :
  (forall b, P b -> triple (fun a => a = b) m Q E) -> triple P m Q E.
Proof. intros Hm a w r a' w' Hr HP. by apply (Hm a HP _ _ _ _ _ Hr). Qed.

(** ** The exchange with the control plane *)

Context `{UrlPackage, UuidPackage, HashPackage, KeyEncodingPackage, FileSystem, ErrorDocuments}.
Context `{JsonCodec RegistrationRequest, JsonCodec RegistrationResponse,
          JsonCodec HeartbeatRequest, JsonCodec HeartbeatResponse}.

(** A call leaves the agent alone and returns a response that was validated. *)
Lemma triple_call {T R} `{JsonCodec T, ValidMessage T, JsonCodec R, ValidMessage R} P
    config method path (request : T) :
  triple P (call (R := R) config method path request)
    (fun response a => (exists now, Validate response now = Some (Ok tt)) /\ P a) (fun _ a => P a).
Proof.
  unfold call.
  eapply triple_bind; [apply triple_env|intros now]. cbn beta.
  eapply triple_bind; [apply triple_lift|intros raw]. apply triple_pure. intros _.
  eapply (triple_bind _ _ _ (fun _ => P)).
  { destruct (url_Parse _); [by apply triple_ret|by apply triple_throw]. }
  intros _. eapply (triple_bind _ _ _ (fun _ => P)).
  { destruct (bool_decide _); [by apply triple_ret|].
    eapply triple_bind; [apply triple_lift|intros t]. apply triple_pure. intros _. by apply triple_ret. }
  intros token. eapply triple_bind; [apply triple_do|intros reply]. cbn beta.
  assert (Hthrow : forall e, triple P (throw e : M R)
    (fun response a => (exists now, Validate response now = Some (Ok tt)) /\ P a) (fun _ a => P a)).
  { intros e. by apply triple_throw. }
  destruct reply as [[status [body|]]|]; [|apply Hthrow..].
  destruct (_ <? _); [apply Hthrow|]. destruct (negb _); [apply Hthrow|].
  eapply triple_bind; [apply triple_env|intros now2]. cbn beta.
  eapply triple_weaken; [apply triple_lift|done| |done].
  intros response a [Hd HP]. split; [|done]. exists now2. by eapply decoded_message_valid.
Qed.

(** ** The invariant *)

(** Once registered, the agent's identity and issuer are those its authenticator
    is pinned to, encrypted traffic implies protocol version 2, and heartbeats
    are between a second and a minute apart. *)
Definition registered_ok (config : AgentConfig) (a : Agent) : Prop :=
  au_relayID (applier a) = ag_relayID a /\ au_issuer (applier a) = ag_ticketIssuer a /\
  (cfg_TrafficEncryption config = true -> ag_selectedVersion a = APIVersionV2) /\
  Second <= ag_heartbeatAfter a <= Minute.

Definition agent_ok (config : AgentConfig) (a : Agent) : Prop :=
  authenticator_inv (applier a) /\ (ag_relayID a <> "" -> registered_ok config a) /\
  (lifecycle a = lifecycleRunning -> ag_relayID a <> "").

Lemma agent_ok_lifecycle config l a :
  agent_ok config a -> (l = lifecycleRunning -> ag_relayID a <> "") ->
  agent_ok config (with_lifecycle l a).
Proof. intros (Hau & Hreg & _) Hl. exact (conj Hau (conj Hreg Hl)). Qed.

Lemma agent_ok_lastError config e a : agent_ok config a -> agent_ok config (with_lastError e a).
Proof. intros (Hau & Hreg & Hrun). exact (conj Hau (conj Hreg Hrun)). Qed.

Lemma lease_timing_bounds expires after now u :
  validateLeaseTiming expires after now = Ok u ->
  now < expires <= now + maximumLease /\ Second <= after <= Minute.
Proof.
  unfold validateLeaseTiming, minimumHeartbeat, maximumHeartbeat. intros Hv. inv_ok.
  unfold After in *. bool_hyps. lia.
Qed.

Lemma response_bounds (r : RegistrationResponse) now :
  Validate r now = Some (Ok tt) -> rp_RelayID r <> "" /\ Second <= rp_HeartbeatAfter r <= Minute.
Proof.
  unfold Validate, valid_registration_response, RegistrationResponse_Validate.
  destruct (validateVersions _ _ _); [|discriminate]. destruct (_ && _); [discriminate|].
  destruct (validTicketIssuer _) as [valid|]; [|discriminate]. cbn [mbind option_bind].
  intros [= Hv]. inv_ok. split.
  { intros E'. match goal with Hi : validRelayID _ = true |- _ => rewrite E' in Hi; discriminate Hi end. }
  match goal with Hl : validateLease _ _ _ _ = Ok _ |- _ => unfold validateLease in Hl; inv_ok end.
  by eapply lease_timing_bounds.
Qed.

(** The agent as it was before an operation, to relate it to the one after. *)
Definition same_identity (a0 a : Agent) : Prop :=
  lifecycle a = lifecycle a0 /\ (ag_relayID a0 <> "" -> ag_relayID a <> "").

(** An agent in the invariant with a given lifecycle and relay. *)
Definition agent_at (config : AgentConfig) (l : lifecycleState) (rid : string) (a : Agent) : Prop :=
  agent_ok config a /\ lifecycle a = l /\ ag_relayID a = rid.

Lemma heartbeat_triple config l rid :
  triple (agent_at config l rid) (heartbeat config)
    (fun _ a => agent_at config l rid a /\ lastError a = None) (fun _ a => agent_at config l rid a).
Proof.
  unfold heartbeat. eapply triple_bind; [apply triple_get|intros b].
  destruct (bool_decide _); [apply triple_throw; tauto|].
  eapply triple_bind; [apply triple_env|intros [st cap]]. cbn beta.
  eapply triple_bind.
  { eapply triple_weaken; [apply triple_call|intros ? Hp; exact Hp|intros ? ? Hr; exact Hr|].
    cbn beta. tauto. }
  intros r. apply triple_modify. intros a ((now & Hv) & _ & (Hau & Hreg & Hrun) & Hl & Hid).
  unfold agent_at, agent_ok, registered_ok, with_heartbeat. cbn. split; [|done].
  split; [|done]. split; [done|]. split; [|done]. intros Hne. destruct (Hreg Hne) as (? & ? & ? & _).
  split; [done|]. split; [done|]. split; [done|].
  unfold Validate, valid_heartbeat_response, HeartbeatResponse_Validate in Hv. injection Hv as Hv. inv_ok.
  by eapply lease_timing_bounds.
Qed.

(** An agent to which the key set of a response was applied. *)
Definition applied_ok (config : AgentConfig) (r : RegistrationResponse) (a : Agent) : Prop :=
  agent_ok config a /\ au_relayID (applier a) = rp_RelayID r /\ au_issuer (applier a) = rp_TicketIssuer r.

Lemma apply_keeps config r a now au :
  agent_ok config a -> Apply (applier a) now (rp_TicketIssuer r) (rp_RelayID r) (rp_Keys r) = Ok au ->
  applied_ok config r (with_applier au a).
Proof.
  intros (Hinv & Hreg & Hrun) Ea. pose proof Ea as Ea'.
  apply Apply_ok in Ea as (_ & Eid & Eiss & _ & Hid & Hiss & _ & rv & Erv & Hne & Hne2 & Hv & _).
  unfold applied_ok, agent_ok, registered_ok, authenticator_inv, with_applier in *. cbn.
  split; [|done]. split; [by rewrite Erv, Eid, Eiss|]. split; [|done].
  intros Hn. destruct (Hreg Hn) as (E1 & E2 & Hrest).
  assert (Hne3 : au_relayID (applier a) <> "") by congruence.
  assert (Hne4 : au_issuer (applier a) <> "") by (destruct (requestVerifier (applier a)); tauto).
  split; [destruct Hid; congruence|]. split; [destruct Hiss; congruence|done].
Qed.

Lemma register_triple config a0 :
  triple (fun a => agent_ok config a /\ same_identity a0 a) (register config)
    (fun _ a => agent_ok config a /\ lifecycle a = lifecycle a0 /\ lastError a = None /\ ag_relayID a <> "")
    (fun _ a => agent_ok config a /\ same_identity a0 a).
Proof.
  unfold register. eapply triple_bind; [apply triple_env|intros [st cap]]. cbn beta.
  eapply triple_bind; [eapply triple_call|intros r]. apply triple_pure. intros (now & Hv).
  apply response_bounds in Hv as [Hrid Hafter].
  eapply triple_bind; [apply triple_get|intros b].
  eapply triple_bind; [apply triple_env|intros t]. cbn beta.
  destruct (Apply (applier b) t _ _ _) as [au|e] eqn:Ea; [|apply triple_throw; tauto].
  eapply (triple_bind _ _ _ (fun _ a => applied_ok config r a /\ same_identity a0 a)).
  { apply triple_modify. intros a [-> [Hok Hsame]]. split; [|exact Hsame]. by eapply apply_keeps. }
  intros _. destruct (cfg_TrafficEncryption config && _) eqn:Eenc.
  { apply triple_throw. intros a [[Hok _] Hsame]. done. }
  eapply (triple_bind _ _ _ (fun _ a => agent_ok config a /\ same_identity a0 a /\ ag_relayID a <> "")).
  { apply triple_modify. intros a [[Hok Hpin] [Hl Hid]].
    unfold agent_ok, registered_ok, same_identity, with_registration in *. cbn.
    split; [|done]. split; [by apply Hok|]. split; [|done]. intros _.
    destruct Hpin as [Hp1 Hp2]. split; [done|]. split; [done|]. split; [|done].
    intros He. rewrite He in Eenc. cbn in Eenc. by bool_hyps. }
  intros _. apply triple_state. intros b' (Hok & [Hl Hid] & Hne).
  eapply triple_weaken; [apply (heartbeat_triple config (lifecycle a0) (ag_relayID b'))| | |].
  - by intros a ->.
  - intros _ a ((Hok' & Hl' & Hid') & He). rewrite Hid'. done.
  - intros _ a (Hok' & Hl' & Hid'). split; [done|]. split; [done|]. by rewrite Hid'.
Qed.

(** ** The lifecycle *)

Lemma same_identity_refl a : same_identity a a.
Proof. done. Qed.

Lemma attempts_triple config a0 n :
  (0 < n)%nat ->
  triple (fun a => agent_ok config a /\ same_identity a0 a) (register_attempts config n)
    (fun _ a => agent_ok config a /\ lifecycle a = lifecycle a0 /\ lastError a = None /\ ag_relayID a <> "")
    (fun _ a => agent_ok config a /\ same_identity a0 a).
Proof.
  intros Hn. induction n as [|n IH]; [lia|]. cbn [register_attempts].
  eapply triple_bind; [eapply triple_attempt, (register_triple config a0)|].
  { intros [e|[]]; cbn beta iota; [|by apply triple_ret].
    destruct (negb _ || _) eqn:Estop; [by apply triple_throw|].
    eapply triple_bind; [apply triple_env|intros [|]]; cbn beta; [|by apply triple_throw].
    apply IH. destruct n; [|lia]. by rewrite orb_true_r in Estop. }
Qed.

(** The agent after [Start], from an idle one. *)
Lemma start_triple config :
  1 <= RegistrationAttempts config ->
  triple (fun a => agent_ok config a /\ lifecycle a = lifecycleIdle) (Start config)
    (fun _ a => agent_ok config a /\ lifecycle a = lifecycleRunning /\ lastError a = None)
    (fun _ a => agent_ok config a /\ lifecycle a = lifecycleIdle).
Proof.
  intros Hn. unfold Start. eapply triple_bind; [apply triple_get|intros b].
  destruct (negb _); [apply triple_throw; tauto|].
  apply triple_state. intros b' (-> & Hok & Hl).
  assert (Hstart : agent_ok config (with_lifecycle lifecycleStarting b')).
  { by apply agent_ok_lifecycle. }
  eapply (triple_bind _ _ _ (fun _ a => a = with_lifecycle lifecycleStarting b')).
  { apply triple_modify. by intros a ->. }
  intros _. set (started := with_lifecycle lifecycleStarting b') in *.
  eapply triple_bind.
  { apply (triple_attempt _ _ (fun _ a => agent_ok config a /\ lastError a = None /\ ag_relayID a <> "")
             (fun _ a => agent_ok config a)).
    eapply triple_bind.
    - eapply triple_weaken; [apply (attempts_triple config started); lia| | |].
      + intros a ->. done.
      + intros ? ? Hq; exact Hq.
      + cbn beta. tauto.
    - intros u. eapply triple_bind; [apply triple_env|intros [|]]; cbn beta.
      + apply triple_throw. tauto.
      + apply triple_ret. tauto. }
  intros [e|[]]; cbn beta iota.
  - eapply (triple_bind _ _ _ (fun _ a => agent_ok config a /\ lifecycle a = lifecycleIdle)).
    { apply triple_modify. intros a Ha. split; [by apply agent_ok_lifecycle|done]. }
    intros _. by apply triple_throw.
  - apply triple_modify. intros a (Ha & He & Hne). split; [by apply agent_ok_lifecycle|done].
Qed.

Lemma iteration_triple config rid :
  rid <> "" ->
  triple (fun a => agent_at config lifecycleRunning rid a) (run_iteration config)
    (fun _ a => agent_ok config a /\ lifecycle a = lifecycleRunning) (fun _ _ => False).
Proof.
  intros Hrid. unfold run_iteration. eapply triple_bind; [apply triple_get|intros b].
  eapply triple_bind; [apply triple_env|intros fired]. cbn beta.
  destruct (negb fired).
  { apply triple_ret. intros a (_ & ? & ? & _). done. }
  eapply triple_bind.
  { eapply triple_weaken; [eapply triple_attempt, (heartbeat_triple config lifecycleRunning rid)| | |].
    - cbn beta. tauto.
    - intros ? ? Hq; exact Hq.
    - intros ? ? He; exact He. }
  intros [e|[]]; cbn beta iota.
  2:{ apply triple_ret. intros a ((? & ? & _) & _). done. }
  eapply (triple_bind _ _ _ (fun _ a => agent_ok config a /\ lifecycle a = lifecycleRunning)).
  { apply triple_modify. intros a (Ha & Hl & _). split; [by apply agent_ok_lastError|done]. }
  intros _. eapply (triple_bind _ _ _ (fun _ a => agent_ok config a /\ lifecycle a = lifecycleRunning)).
  { destruct (isLeaseError e); [|by apply triple_ret].
    apply triple_state. intros b' [Hok' Hl'].
    eapply triple_bind.
    { eapply triple_weaken; [eapply triple_attempt, (register_triple config b')| | |].
      - intros a ->. done.
      - intros ? ? Hq; exact Hq.
      - intros ? ? He; exact He. }
    intros [e'|[]]; cbn beta iota.
    - eapply (triple_bind _ _ _ (fun _ a => agent_ok config a /\ lifecycle a = lifecycleRunning)).
      { apply triple_modify. intros a (Ha & Hl & _). split; [by apply agent_ok_lastError|cbn; congruence]. }
      intros _. by apply triple_ret.
    - apply triple_ret. intros a (? & Hl & _). split; [done|congruence]. }
  intros [|]; [by apply triple_ret|apply triple_env].
Qed.

Lemma run_triple config n :
  triple (fun a => agent_ok config a /\ lifecycle a = lifecycleRunning) (run config n)
    (fun _ a => agent_ok config a /\ (lifecycle a = lifecycleRunning \/ lifecycle a = lifecycleStopped))
    (fun _ _ => False).
Proof.
  induction n as [|n IH]; cbn [run]; [apply triple_ret; tauto|].
  apply triple_state. intros b [Hok Hl].
  eapply triple_bind.
  { eapply triple_weaken; [apply (iteration_triple config (ag_relayID b))| | |].
    - by apply Hok.
    - by intros a ->.
    - intros ? ? Hq; exact Hq.
    - done. }
  intros [|]; cbn beta iota; [exact IH|].
  apply triple_modify. intros a [Ha _]. split; [by apply agent_ok_lifecycle|by right].
Qed.

(** ** Reachable agents *)

Inductive reachable : AgentConfig -> Agent -> Prop :=
| reachable_new given aucfg au config a :
    NewTicketAuthenticator aucfg = Ok au -> New given au = Ok (config, a) -> reachable config a
| reachable_start config a (w : W) r a' w' :
    reachable config a -> Start config (a, w) = Some (r, (a', w')) -> reachable config a'
| reachable_run config a n (w : W) r a' w' :
    reachable config a -> lifecycle a = lifecycleRunning ->
    run config n (a, w) = Some (r, (a', w')) -> reachable config a'
| reachable_drain config a (w : W) r a' w' :
    reachable config a -> Drain config (a, w) = Some (r, (a', w')) -> reachable config a'.

Lemma new_attempts given au config a : New given au = Ok (config, a) -> 1 <= RegistrationAttempts config.
Proof.
  unfold New. intros Hn. inv_ok. injection Hn as <- <-. cbn. bool_hyps.
  match goal with Ha : _ && _ && _ && _ = true |- _ => bool_hyps; done | _ => done end.
Qed.

Lemma new_agent_ok given aucfg au config a :
  NewTicketAuthenticator aucfg = Ok au -> New given au = Ok (config, a) -> agent_ok config a.
Proof.
  intros Hau Hn. unfold New in Hn. inv_ok. injection Hn as <- <-.
  split; [by eapply new_inv|]. split; [done|discriminate].
Qed.

Lemma drain_triple config l rid :
  triple (agent_at config l rid) (Drain config)
    (fun _ a => agent_at config l rid a /\ lastError a = None) (fun _ a => agent_at config l rid a).
Proof. eapply triple_bind; [apply triple_env|intros u]. apply heartbeat_triple. Qed.

Lemma start_not_idle config a (w : W) :
  lifecycle a <> lifecycleIdle ->
  Start config (a, w)
  = Some (inl (PlainError (NewError "relay agent is already starting or started")), (a, w)).
Proof. intros Hl. unfold Start, mbind, M_bind, get. cbn. by rewrite bool_decide_eq_false_2. Qed.

Lemma reachable_ok config a :
  reachable config a -> agent_ok config a /\ 1 <= RegistrationAttempts config.
Proof.
  induction 1 as [given aucfg au config a Hau Hn|config a w r a' w' _ [Hok Hatt] Hs
    |config a n w r a' w' _ [Hok Hatt] Hl Hr|config a w r a' w' _ [Hok Hatt] Hd].
  - split; [by eapply new_agent_ok|by eapply new_attempts].
  - split; [|done]. destruct (decide (lifecycle a = lifecycleIdle)) as [Hl|Hl].
    + pose proof (start_triple config Hatt _ _ _ _ _ Hs (conj Hok Hl)) as Hp. destruct r; tauto.
    + rewrite start_not_idle in Hs by done. by injection Hs as _ <- _.
  - split; [|done]. pose proof (run_triple config n _ _ _ _ _ Hr (conj Hok Hl)) as Hp. destruct r; tauto.
  - split; [|done]. pose proof (drain_triple config (lifecycle a) (ag_relayID a) _ _ _ _ _ Hd) as Hp.
    unfold agent_at in Hp. destruct r; tauto.
Qed.

(** Against any environment, an agent that reports itself ready
    is running with a lease that is still live and no pending error; the ticket
    authenticator is pinned to the relay and issuer the agent is registered
    under, with a verifier built from the key set of its current generation;
    and an agent that encrypts its traffic speaks protocol version 2. *)
Theorem ready_agent (config : AgentConfig) (a : Agent) (now : time)
    (Hreachable : reachable config a) (Hready : Ready a now = true) :
  lifecycle a = lifecycleRunning /\ lastError a = None /\ now < ag_leaseExpiresAt a /\
  au_relayID (applier a) = ag_relayID a /\ au_issuer (applier a) = ag_ticketIssuer a /\
  (cfg_TrafficEncryption config = true -> ag_selectedVersion a = APIVersionV2) /\
  Second <= ag_heartbeatAfter a <= Minute /\
  exists rv, requestVerifier (applier a) = Some rv /\ verifier_applied (applier a) (verifier rv).
Proof.
  apply reachable_ok in Hreachable as [(Hau & Hreg & _) _]. unfold Ready, After in Hready. bool_hyps.
  destruct (lastError a); [done|]. destruct Hreg as (E1 & E2 & E3 & E4); [done|].
  do 7 (split; [done|]). unfold authenticator_inv in Hau.
  destruct (requestVerifier (applier a)) as [rv|]; [exists rv; tauto|].
  exfalso. destruct Hau as (E & _). congruence.
Qed.

(** Starting an idle agent either leaves it running,
    registered and without an error, or fails and leaves it idle, to be started
    again; starting any other agent fails and changes nothing. *)
Theorem start_outcome (config : AgentConfig) (a : Agent) (w : W) r a' w'
    (Hreachable : reachable config a) (Hstart : Start config (a, w) = Some (r, (a', w'))) :
  (lifecycle a = lifecycleIdle ->
   match r with
   | inr _ => lifecycle a' = lifecycleRunning /\ lastError a' = None /\ ag_relayID a' <> "" /\
              au_relayID (applier a') = ag_relayID a'
   | inl _ => lifecycle a' = lifecycleIdle
   end) /\
  (lifecycle a <> lifecycleIdle -> (exists e, r = inl e) /\ a' = a /\ w' = w).
Proof.
  apply reachable_ok in Hreachable as [Hok Hatt]. split; intros Hl.
  - pose proof (start_triple config Hatt _ _ _ _ _ Hstart (conj Hok Hl)) as Hp.
    destruct r; [tauto|]. destruct Hp as ((_ & Hreg & Hrun) & Hl' & He).
    specialize (Hrun Hl'). destruct (Hreg Hrun) as (E1 & _). done.
  - rewrite start_not_idle in Hstart by done. injection Hstart as <- <- <-. eauto.
Qed.
End logic.
