(* ===== verification/RelayDeployment.v ===== *)
(** * A relay agent against the relay registry

    The environment of the agent is the control plane itself: its HTTP client
    reaches the handlers of [RelayRegistry] over the registry.  When the
    agent's registration succeeds, the registry and the agent agree. *)

From S2P Require Import Prelude GoLib GoText External ConcreteEnv Utils RelayControl.
From S2P Require Import RelayTicket RelayBearer RelayAuthenticator.
From S2P Require Import RelayRegistry RelayRegistryFacts RelayAgent.

(** The messages whose JSON decodes to themselves: texts are valid UTF-8 and
    words are within their Go width. *)
Definition capacity_words (c : Capacity) : Prop :=
  u32 (MaximumPhysicalConnections c) /\ u32 (MaximumLogicalStreams c) /\
  u32 (ActivePhysicalConnections c) /\ u32 (ActiveLogicalStreams c).

Definition texts (l : list string) : Prop := Forall (fun s => utf8_ValidString s = true) l.

Definition key_set_words (ks : VerificationKeySet) : Prop :=
  u64 (ks_Generation ks) /\
  Forall (fun k => texts [vk_ID k; vk_Algorithm k; vk_PublicKey k]) (ks_Keys ks).

Definition registration_words (m : RegistrationRequest) : Prop :=
  texts [env_APIVersion (rr_Envelope m); env_Kind (rr_Envelope m); rr_Endpoint m; rr_State m] /\
  texts (rr_SupportedVersions m) /\ capacity_words (rr_Capacity m).

Definition registered_words (m : RegistrationResponse) : Prop :=
  texts [env_APIVersion (rp_Envelope m); env_Kind (rp_Envelope m); rp_SelectedVersion m;
         rp_TicketIssuer m; rp_RelayID m; rp_LeaseID m] /\
  i64 (rp_HeartbeatAfter m) /\ key_set_words (rp_Keys m).

Definition heartbeat_words (m : HeartbeatRequest) : Prop :=
  texts [env_APIVersion (hb_Envelope m); env_Kind (hb_Envelope m); hb_LeaseID m; hb_State m;
         hb_NoisePublicKey m] /\
  u64 (hb_AppliedKeyGeneration m) /\ capacity_words (hb_Capacity m).

Definition renewed_words (m : HeartbeatResponse) : Prop :=
  texts [env_APIVersion (hp_Envelope m); env_Kind (hp_Envelope m)] /\ i64 (hp_HeartbeatAfter m).

Record World := mkWorld {
  registry : Registry;
  peer : option PeerIdentity;   (* what the authenticator of the API finds *)
  tick : nat                    (* readings and calls made so far *)
}.

Section deployment.
Context `{UrlPackage, UuidPackage, HashPackage, KeyEncodingPackage, FileSystem, ErrorDocuments}.
Context `{JsonCodec RegistrationRequest, JsonCodec RegistrationResponse,
          JsonCodec HeartbeatRequest, JsonCodec HeartbeatResponse}.
(** The clock, the fresh identifiers, the runtime reports, the timers and the
    context, by the number of the call. *)
Context (clock : nat -> time) (uuid : nat -> string) (report : nat -> State * Capacity)
        (fires : nat -> bool) (done_at : nat -> bool).

Definition next (w : World) : World := mkWorld (registry w) (peer w) (S (tick w)).

(** The three readings of one exchange: the handler's and the registry's clock,
    and the fresh lease identifier. *)
Definition serve (request : HttpRequest) (w : World) : option (HttpResponse * Registry) :=
  if bool_decide (rq_Method request = "POST")
     && bool_decide (rq_Path request = "/internal/v1/relays/register")
  then handle_register (peer w) request (clock (tick w)) (clock (S (tick w))) (uuid (tick w)) (registry w)
  else if bool_decide (rq_Method request = "PUT")
          && bool_decide (rq_Path request = "/internal/v1/relays/heartbeat")
  then handle_heartbeat (peer w) request (clock (tick w)) (clock (S (tick w))) (registry w)
  else Some (mkHttpResponse StatusNotFound [], registry w).

#[export] Instance control_plane : Environment World := {
  env_Now w := (clock (tick w), next w);
  env_Snapshot w := (report (tick w), next w);
  env_Do request _ w :=
    '(reply, registry') ← serve request w;
    Some (Some (rs_Status reply, Some (rs_Body reply)), mkWorld registry' (peer w) (S (S (tick w))));
  env_Wait _ w := (fires (tick w), next w);
  env_Err w := (done_at (tick w), next w);
  env_BeginDrain w := w
}.

Local Abbreviation M A := (RelayAgent.M (W := World) A).

(** ** One successful exchange *)

(** A body read up to the limit and one byte more, when it is within the limit. *)
Lemma bounded_take (l : bytes) :
  (MaximumBodyBytes <? len (take (Z.to_nat (MaximumBodyBytes + 1)) l)) = false ->
  take (Z.to_nat (MaximumBodyBytes + 1)) l = l /\ len l <= MaximumBodyBytes.
Proof.
  unfold len. rewrite length_take. intros Hl. bool_hyps.
  assert (Z.of_nat (List.length l) <= MaximumBodyBytes) by lia. split; [apply take_ge|]; lia.
Qed.

Lemma registry_error_status err : success_status (rs_Status (writeRegistryError err)) = false.
Proof. unfold writeRegistryError. repeat (case_match; [done|]). done. Qed.

(** What a successful call means, whatever the handler. *)
Lemma call_success {T R} `{JsonCodec T, ValidMessage T, JsonCodec R, ValidMessage R}
    config method path (request : T) (response : R) a w a' w' :
  call (R := R) config method path request (a, w) = Some (inr response, (a', w')) ->
  a' = a /\ exists now raw w1 reply registry' now',
    registry w1 = registry w /\ peer w1 = peer w /\
    Encode request now = Some (Ok raw) /\
    serve (mkHttpRequest method path "application/json" raw) w1 = Some (reply, registry') /\
    success_status (rs_Status reply) = true /\ len (rs_Body reply) <= MaximumBodyBytes /\
    decode (rs_Body reply) now' = Some (Ok response) /\ registry w' = registry' /\ peer w' = peer w.
Proof.
  unfold call, mbind, M_bind, env, lift. cbn [fst snd env_Now control_plane].
  destruct (Encode request (clock (tick w))) as [[raw|]|] eqn:Eenc; [|done..].
  destruct (url_Parse _); cbn [mret M_ret fail throw]; [|done].
  destruct (bool_decide (BearerTokenFile config = "")); [|destruct (readBearerToken _); [|done]];
    cbn [mret M_ret fst snd]; unfold do_request; cbn [fst snd env_Do control_plane];
    (destruct (serve _ (next w)) as [[reply registry']|] eqn:Es; [|done]);
    cbn [mbind option_bind];
    (destruct (MaximumBodyBytes <? len (take _ _)) eqn:Elen; [done|]);
    (destruct (success_status (rs_Status reply)) eqn:Est; [|done]); cbn [negb fst snd];
    (destruct (decode _ _) as [[m|]|] eqn:Ed; [|done..]);
    intros [= <- <- <-]; (split; [done|]);
    exists (clock (tick w)), raw, (next w), reply, registry'; eexists;
    (assert (Htake : take (Z.to_nat (MaximumBodyBytes + 1)) (rs_Body reply) = rs_Body reply
       /\ len (rs_Body reply) <= MaximumBodyBytes) by (by apply bounded_take)); destruct Htake as [Ht Hl];
    rewrite Ht in Ed; (split; [done|]); (split; [done|]); (split; [done|]); (split; [exact Es|]);
    (split; [done|]); (split; [done|]); (split; [exact Ed|]); done.
Qed.

(** What a successful answer of a handler means. *)
Lemma handler_success {Req Resp} `{JsonCodec Req, ValidMessage Req, JsonCodec Resp, ValidMessage Resp}
    who method path raw now m1 m2 status
    (mutate : PeerIdentity -> Req -> Registry -> result (Resp * Registry)) r reply r' :
  handleInternalRequest who (mkHttpRequest method path "application/json" raw) now m1 m2 status mutate r
  = Some (reply, r') ->
  success_status (rs_Status reply) = true ->
  exists identity document response,
    who = Some identity /\
    decode (take (Z.to_nat (MaximumBodyBytes + 1)) raw) now = Some (Ok document) /\
    mutate identity document r = Ok (response, r') /\ Encode response now = Some (Ok (rs_Body reply)).
Proof.
  unfold handleInternalRequest, readInternalBody. cbn [rq_ContentType rq_Body].
  destruct who as [identity|]; [|intros [= <- <-]; done].
  rewrite bool_decide_eq_true_2 by done. cbn [negb].
  destruct (_ || _); [intros [= <- <-]; done|].
  destruct (decode _ now) as [[document|]|] eqn:Ed; [|intros [= <- <-]; done|done].
  cbn [mbind option_bind].
  destruct (mutate identity document r) as [[response r1]|err] eqn:Em;
    [|intros [= <- <-]; by rewrite registry_error_status].
  unfold writeInternalDocument. destruct (Encode response now) as [[body|]|] eqn:Ee;
    cbn [mbind option_bind]; intros [= <- <-] Hs; [|done].
  exists identity, document, response. done.
Qed.

(** The JSON of the four messages decodes to what was encoded. *)
Record control_json : Prop := {
  json_registration : forall m : RegistrationRequest,
    registration_words m -> json_Decode (json_Marshal m) = Some (m, []);
  json_registered : forall m : RegistrationResponse,
    registered_words m -> json_Decode (json_Marshal m) = Some (m, []);
  json_heartbeat : forall m : HeartbeatRequest,
    heartbeat_words m -> json_Decode (json_Marshal m) = Some (m, []);
  json_renewed : forall m : HeartbeatResponse,
    renewed_words m -> json_Decode (json_Marshal m) = Some (m, [])
}.

Lemma decode_marshalled {T} `{JsonCodec T, ValidMessage T} (m m' : T) now :
  json_Decode (json_Marshal m) = Some (m, []) ->
  decode (json_Marshal m) now = Some (Ok m') -> m' = m.
Proof.
  intros Hj. unfold decode. destruct (_ || _); [discriminate|]. rewrite Hj.
  cbn [forallb negb]. destruct (Validate m now) as [[[]|]|]; cbn; congruence.
Qed.

(** One exchange in which both sides understand each other. *)
Lemma exchange_agrees {T R} `{JsonCodec T, ValidMessage T, JsonCodec R, ValidMessage R}
    (request document : T) (answer response : R) raw body now now1 now2 :
  json_Decode (json_Marshal request) = Some (request, []) ->
  json_Decode (json_Marshal answer) = Some (answer, []) ->
  Encode request now = Some (Ok raw) ->
  decode (take (Z.to_nat (MaximumBodyBytes + 1)) raw) now1 = Some (Ok document) ->
  Encode answer now1 = Some (Ok body) -> decode body now2 = Some (Ok response) ->
  document = request /\ response = answer.
Proof.
  intros Hq Ha (-> & _ & Hl)%Encode_inv Hd (-> & _ & _)%Encode_inv Hr.
  unfold len in Hl. rewrite take_ge in Hd by lia.
  split; [by apply (decode_marshalled _ _ now1)|by apply (decode_marshalled _ _ now2)].
Qed.

(** ** Texts and words of a deployment *)

Record deployment_words (config : AgentConfig) (c : Config) : Prop := {
  words_endpoint : utf8_ValidString (Endpoint config) = true;
  words_noise : utf8_ValidString (NoisePublicKey config) = true;
  words_report : forall n, utf8_ValidString (report n).1 = true /\ capacity_words (report n).2;
  words_uuid : forall n, utf8_ValidString (uuid n) = true;
  words_issuer : utf8_ValidString (TicketIssuer c) = true;
  words_keys : key_set_words (VerificationKeys c)
}.

Lemma relay_id_text who id : RelayID who = Ok id -> utf8_ValidString id = true.
Proof.
  unfold RelayID. intros Hid. inv_ok. apply utf8_valid_ascii.
  unfold all_bytes. rewrite string_to_bytes_app, forallb_app. apply andb_true_iff. split; [by vm_compute|].
  unfold hex_EncodeToString. rewrite string_to_of_bytes. apply hex_encode_ascii.
Qed.

Lemma known_version_text v :
  v = APIVersionV1 \/ v = APIVersionV2 -> utf8_ValidString v = true.
Proof. intros [-> | ->]; by vm_compute. Qed.

Lemma text_list l : (forall s, s ∈ l -> utf8_ValidString s = true) -> texts l.
Proof. intros Hl. unfold texts. by rewrite Forall_forall. Qed.

Lemma Contains_two v a b : Contains [a; b] v = true -> v = a \/ v = b.
Proof.
  unfold Contains. rewrite bool_decide_eq_true, !elem_of_cons, elem_of_nil. tauto.
Qed.

Lemma validateVersions_text e kind vs :
  validateVersions e kind vs = Ok tt -> utf8_ValidString kind = true ->
  (forall v, Contains vs v = true -> utf8_ValidString v = true) ->
  utf8_ValidString (env_APIVersion e) = true /\ utf8_ValidString (env_Kind e) = true.
Proof. unfold validateVersions. intros Hv Hk Hvs. inv_ok. bool_hyps. split; [by apply Hvs|by subst]. Qed.

Lemma minute_i64 d : Second <= d <= Minute -> i64 d.
Proof. unfold i64, Minute, Second. lia. Qed.

(** The answer to a registration can be read by the agent. *)
Lemma registered_response_words config c now lease who request r response r' now' :
  deployment_words config c -> RelayRegistry.config r = c -> utf8_ValidString lease = true ->
  Register now lease who request r = Ok (response, r') ->
  Validate response now' = Some (Ok tt) -> registered_words response.
Proof.
  intros Hw <- Hlease Hreg Hval. pose proof Hval as Hb. apply response_bounds in Hb as [_ Hb].
  unfold Register in Hreg. inv_ok.
  match goal with Hr : RelayID who = Ok ?i |- _ => pose proof (relay_id_text _ _ Hr) end.
  injection Hreg as <- <-. unfold registrationResponseLocked in *. cbn in Hb.
  unfold Validate, valid_registration_response, RegistrationResponse_Validate in Hval. cbn in Hval.
  match type of Hval with context [negb (bool_decide (?v = APIVersionV1))] =>
    assert (Hsel : v = APIVersionV1 \/ v = APIVersionV2) end.
  { destruct (negb (bool_decide _) && negb (bool_decide _)) eqn:E'; [discriminate Hval|].
    apply andb_false_iff in E' as [E'|E']; apply negb_false_iff, bool_decide_eq_true in E'; auto. }
  unfold registered_words. cbn. split; [|split; [by apply minute_i64|by apply Hw]].
  apply text_list. intros s Hs. rewrite !elem_of_cons, elem_of_nil in Hs.
  destruct Hs as [->|[->|[->|[->|[->|[->|[]]]]]]]; [by vm_compute|by vm_compute|by apply known_version_text| |done|done].
  by apply Hw.
Qed.

Lemma register_call config c request a w response a' w' :
  control_json -> deployment_words config c -> RelayRegistry.config (registry w) = c ->
  registration_words request ->
  call (R := RegistrationResponse) config "POST" "/internal/v1/relays/register" request (a, w)
  = Some (inr response, (a', w')) ->
  a' = a /\ peer w' = peer w /\ exists identity now n,
    peer w = Some identity /\
    Register now (uuid n) identity request (registry w) = Ok (response, registry w') /\
    registered_words response.
Proof.
  intros Hj Hw Hc Hreq Hcall.
  apply call_success in Hcall as (-> & now & raw & w1 & reply & r' & now' & Er & Ep & Henc & Hserve & Hst & _ & Hdec & <- & Ep').
  split; [done|]. split; [done|].
  unfold serve in Hserve. cbn [rq_Method rq_Path] in Hserve. rewrite !bool_decide_eq_true_2 in Hserve by done.
  cbn [andb] in Hserve. apply handler_success in Hserve as (identity & document & answer & Hpeer & Hdoc & Hmut & Hans); [|done].
  pose proof Hans as (_ & Hval & _)%Encode_inv. rewrite Er in Hmut.
  assert (Hwords : registered_words answer).
  { eapply registered_response_words; [exact Hw|exact Hc| |exact Hmut|exact Hval]. by eapply words_uuid. }
  edestruct (exchange_agrees request document answer response) as [-> ->];
    [by apply Hj|by apply Hj|exact Henc|exact Hdoc|exact Hans|exact Hdec|].
  exists identity, (clock (S (tick w1))), (tick w1). by rewrite <- Ep.
Qed.

Lemma heartbeat_call config c request a w response a' w' :
  control_json -> deployment_words config c -> RelayRegistry.config (registry w) = c ->
  heartbeat_words request ->
  call (R := HeartbeatResponse) config "PUT" "/internal/v1/relays/heartbeat" request (a, w)
  = Some (inr response, (a', w')) ->
  a' = a /\ peer w' = peer w /\ exists identity now,
    peer w = Some identity /\ Heartbeat now identity request (registry w) = Ok (response, registry w').
Proof.
  intros Hj Hw Hc Hreq Hcall.
  apply call_success in Hcall as (-> & now & raw & w1 & reply & r' & now' & Er & Ep & Henc & Hserve & Hst & _ & Hdec & <- & Ep').
  split; [done|]. split; [done|].
  unfold serve in Hserve. cbn [rq_Method rq_Path] in Hserve.
  rewrite bool_decide_eq_false_2 in Hserve by done. cbn [andb] in Hserve.
  rewrite !bool_decide_eq_true_2 in Hserve by done.
  cbn [andb] in Hserve. apply handler_success in Hserve as (identity & document & answer & Hpeer & Hdoc & Hmut & Hans); [|done].
  pose proof Hans as (_ & Hval & _)%Encode_inv. rewrite Er in Hmut.
  assert (Hwords : renewed_words answer).
  { unfold Validate, valid_heartbeat_response, HeartbeatResponse_Validate in Hval. injection Hval as Hval. inv_ok.
    match goal with Hv : validateVersions _ _ _ = Ok _ |- _ =>
      apply validateVersions_text in Hv as [? ?];
        [|by vm_compute|by intros v Hv2%Contains_two; apply known_version_text] end.
    apply lease_timing_bounds in Hval as [_ Hb]. split; [|by apply minute_i64].
    apply text_list. intros s Hs. rewrite !elem_of_cons, elem_of_nil in Hs. naive_solver. }
  edestruct (exchange_agrees request document answer response) as [-> ->];
    [by apply Hj|by apply Hj|exact Henc|exact Hdoc|exact Hans|exact Hdec|].
  exists identity, (clock (S (tick w1))). by rewrite <- Ep.
Qed.

(** ** Agreement *)

Lemma bind_success {A B} (m : M A) (f : A -> M B) s b s' :
  (m ≫= f) s = Some (inr b, s') -> exists x s1, m s = Some (inr x, s1) /\ f x s1 = Some (inr b, s').
Proof.
  unfold mbind, M_bind. destruct (m s) as [[[e|x] s1]|]; [discriminate| |discriminate]. eauto.
Qed.

Lemma env_success {A} (f : World -> A * World) a w x s1 :
  env f (a, w) = Some (inr x, s1) -> f w = (x, s1.2) /\ s1.1 = a.
Proof. unfold env. cbn. destruct (f w) as [y w1]. by intros [= <- <-]. Qed.

(** A heartbeat the registry accepted. *)
Lemma Heartbeat_ok now who request r response r' :
  Heartbeat now who request r = Ok (response, r') ->
  exists id relay, RelayID who = Ok id /\ relays r !! id = Some relay /\
    leaseID relay = hb_LeaseID request /\ selectedVersion relay = env_APIVersion (hb_Envelope request) /\
    r' = set_relays r (<[id := mkRelay (identity relay) (relayID relay) (leaseID relay) (endpoint relay)
           (hb_State request) (hb_Capacity request) (hb_AppliedKeyGeneration request)
           (now + LeaseDuration (RelayRegistry.config r)) now (reservations relay) (selectedVersion relay)
           (bool_decide (hb_TrafficEncryption request = Some true)) (hb_NoisePublicKey request)]> (relays r)) /\
    hp_LeaseExpiresAt response = now + LeaseDuration (RelayRegistry.config r).
Proof.
  unfold Heartbeat. intros Hh. inv_ok.
  match goal with Hr : RelayID who = Ok ?i |- _ => rename i into id end.
  destruct (relays r !! id) as [relay|] eqn:Er; [|discriminate Hh]. inv_ok. bool_hyps. injection Hh as <- <-.
  by exists id, relay.
Qed.

(** A registration the registry accepted. *)
Lemma Register_ok now lease who request r response r' :
  Register now lease who request r = Ok (response, r') ->
  exists id relay, RelayID who = Ok id /\ r' = set_relays r (<[id := relay]> (relays r)) /\
    relayID relay = id /\ leaseID relay = lease /\ endpoint relay = rr_Endpoint request /\
    selectedVersion relay = rp_SelectedVersion response /\
    rp_RelayID response = id /\ rp_LeaseID response = lease /\
    rp_TicketIssuer response = TicketIssuer (RelayRegistry.config r) /\
    rp_Keys response = VerificationKeys (RelayRegistry.config r).
Proof.
  unfold Register. intros Hr. inv_ok.
  match goal with Hi : RelayID who = Ok ?i |- _ => rename i into id end.
  injection Hr as <- <-. exists id. eexists. split; [done|]. split; [done|]. done.
Qed.

(** What a successful heartbeat leaves. *)
Lemma heartbeat_success config c a w a' w' :
  control_json -> deployment_words config c -> RelayRegistry.config (registry w) = c ->
  utf8_ValidString (ag_selectedVersion a) = true -> utf8_ValidString (ag_leaseID a) = true ->
  u64 (AppliedKeyGeneration (applier a)) ->
  heartbeat config (a, w) = Some (inr tt, (a', w')) ->
  exists identity id relay relay' response,
    peer w = Some identity /\ RelayID identity = Ok id /\ relays (registry w) !! id = Some relay /\
    registry w' = set_relays (registry w) (<[id := relay']> (relays (registry w))) /\
    a' = with_heartbeat response a /\
    leaseID relay = ag_leaseID a /\ selectedVersion relay = ag_selectedVersion a /\
    leaseID relay' = leaseID relay /\ selectedVersion relay' = selectedVersion relay /\
    endpoint relay' = endpoint relay /\
    appliedKeyGeneration relay' = AppliedKeyGeneration (applier a) /\
    leaseExpiresAt relay' = ag_leaseExpiresAt a' /\
    trafficEncryption relay' = bool_decide (ag_selectedVersion a = APIVersionV2) && cfg_TrafficEncryption config.
Proof.
  intros Hj Hw Hc Hver Hlease Hgen Hh. unfold heartbeat in Hh.
  apply bind_success in Hh as (b & s1 & [= <- <-] & Hh).
  destruct (bool_decide (ag_leaseID a = "")); [discriminate Hh|].
  apply bind_success in Hh as ([st cap] & [a1 w1] & He & Hh).
  apply env_success in He as [He <-]. cbn [snd fst] in He, Hh.
  assert (Hrep : report (tick w) = (st, cap) /\ registry w1 = registry w /\ peer w1 = peer w).
  { cbn [env_Snapshot control_plane] in He. by injection He as <- <-. }
  destruct Hrep as (Hrep & Hr1 & Hp1).
  apply bind_success in Hh as (response & [a2 w2] & Hcall & Hmod).
  destruct (words_report _ _ Hw (tick w)) as [Hst Hcap]. rewrite Hrep in Hst, Hcap. cbn [fst snd] in Hst, Hcap.
  eapply heartbeat_call in Hcall as (-> & Hp2 & identity & now & Hpeer & Hbeat);
    [|exact Hj|exact Hw|by rewrite Hr1|].
  - apply Heartbeat_ok in Hbeat as (id & relay & Hid & Hrel & El & Ev & Ereg & Eexp).
    cbn [hb_LeaseID hb_Envelope env_APIVersion] in El, Ev. rewrite Hr1 in *. rewrite Hp1 in Hpeer.
    injection Hmod as <- <-. do 2 eexists. exists relay. do 2 eexists.
    split; [exact Hpeer|]. split; [exact Hid|]. split; [exact Hrel|]. split; [exact Ereg|].
    split; [reflexivity|]. cbn. split; [done|]. split; [done|]. do 4 (split; [done|]). split; [by rewrite Eexp|].
    destruct (bool_decide _); cbn; [|done]. by destruct (cfg_TrafficEncryption config).
  - split; [|split; [exact Hgen|exact Hcap]]. apply text_list. intros s Hs.
    rewrite !elem_of_cons, elem_of_nil in Hs.
    destruct Hs as [->|[->|[->|[->|[->|[]]]]]]; cbn; [done|by vm_compute|done|done|].
    destruct (_ && _); [by apply Hw|by vm_compute].
Qed.

(** C33 (refinement). When an agent's registration against the registry
    succeeds, both sides agree: the registry holds a relay under the agent's
    identity with the agent's lease, endpoint, protocol version and encryption,
    whose lease ends when the agent believes it does, and which has acknowledged
    exactly the registry's current key generation, the one the agent's
    authenticator applied; so the relay is available for Sessions as soon as it
    reports itself ready with room, until that lease ends. *)
Theorem registration_agrees (config : AgentConfig) (c : Config) (a a' : Agent) (w w' : World)
    (Hjson : control_json) (Hwords : deployment_words config c)
    (Hconfig : RelayRegistry.config (registry w) = c)
    (Hregister : register config (a, w) = Some (inr tt, (a', w'))) :
  exists relay, relays (registry w') !! ag_relayID a' = Some relay /\
    leaseID relay = ag_leaseID a' /\ endpoint relay = Endpoint config /\
    selectedVersion relay = ag_selectedVersion a' /\ leaseExpiresAt relay = ag_leaseExpiresAt a' /\
    trafficEncryption relay = cfg_TrafficEncryption config /\
    appliedKeyGeneration relay = ks_Generation (VerificationKeys c) /\
    au_keyGeneration (applier a') = ks_Generation (VerificationKeys c) /\
    au_relayID (applier a') = ag_relayID a' /\ lastError a' = None /\
    forall now, now < ag_leaseExpiresAt a' -> state relay = StateReady ->
      uint64 (ActiveLogicalStreams (capacity relay) + reservations relay) < MaximumLogicalStreams (capacity relay) ->
      ActivePhysicalConnections (capacity relay) < MaximumPhysicalConnections (capacity relay) ->
      availableLocked (registry w') relay now = true.
Proof.
  unfold register in Hregister.
  apply bind_success in Hregister as ([st cap] & [a1 w1] & He & Hregister).
  apply env_success in He as [He <-]. cbn [snd fst] in He, Hregister.
  assert (Hrep : report (tick w) = (st, cap) /\ registry w1 = registry w /\ peer w1 = peer w).
  { cbn [env_Snapshot control_plane] in He. by injection He as <- <-. }
  destruct Hrep as (Hrep & Hr1 & Hp1).
  destruct (words_report _ _ Hwords (tick w)) as [Hst Hcap]. rewrite Hrep in Hst, Hcap. cbn [fst snd] in Hst, Hcap.
  apply bind_success in Hregister as (response & [a2 w2] & Hcall & Hregister).
  eapply register_call in Hcall as (-> & Hp2 & identity & now & n & Hpeer & Hreg & Hresp);
    [|exact Hjson|exact Hwords|by rewrite Hr1|].
  2:{ split; [|split; [|exact Hcap]]; apply text_list; intros s Hs;
      cbn [rr_SupportedVersions rr_Envelope rr_Endpoint rr_State env_APIVersion env_Kind] in Hs;
      rewrite !elem_of_cons, elem_of_nil in Hs.
      - destruct Hs as [->|[->|[->|[->|[]]]]]; [by vm_compute|by vm_compute|by apply Hwords|done].
      - destruct Hs as [->|[->|[]]]; by vm_compute. }
  apply Register_ok in Hreg as (id & relay & Hid & Ereg & Erid & Elease & Eend & Esel & Rid & Rlease & Riss & Rkeys).
  rewrite Hr1 in Ereg, Riss, Rkeys.
  apply bind_success in Hregister as (b & s1 & [= <- <-] & Hregister).
  apply bind_success in Hregister as (t & [a3 w3] & He2 & Hregister).
  apply env_success in He2 as [He2 <-]. cbn [snd fst] in He2, Hregister.
  assert (Hw3 : registry w3 = registry w2 /\ peer w3 = peer w2) by (by injection He2 as _ <-).
  destruct Hw3 as [Hr3 Hp3].
  destruct (Apply _ t _ _ _) as [au|] eqn:Ea; [|discriminate Hregister].
  apply Apply_ok in Ea as (_ & Eauid & _ & Eaugen & _).
  apply bind_success in Hregister as ([] & s2 & [= <-] & Hregister). cbn [fst snd] in Hregister.
  destruct (cfg_TrafficEncryption config && _) eqn:Eenc; [discriminate Hregister|].
  apply bind_success in Hregister as ([] & s3 & [= <-] & Hbeat). cbn [fst snd] in Hbeat.
  destruct Hresp as (Htexts & _ & Hgen & _). unfold texts in Htexts. rewrite !Forall_cons in Htexts.
  destruct Htexts as (_ & _ & Hver & _ & _ & Hlid & _).
  assert (Hc3 : RelayRegistry.config (registry w3) = c) by (by rewrite Hr3, Ereg).
  eapply heartbeat_success in Hbeat
    as (identity' & id' & relay0 & relay' & hr & Hpeer' & Hid' & Hrel0 & Ereg' & -> & El & Ev & El' & Ev' & Een & Egen & Eexp & Etr);
    [|exact Hjson|exact Hwords|exact Hc3|exact Hver|exact Hlid|].
  2:{ unfold AppliedKeyGeneration. cbn [applier with_registration with_applier]. rewrite Eaugen. exact Hgen. }
  unfold AppliedKeyGeneration in Egen. cbn in El, Ev, Egen, Etr. rewrite Hp3, Hp2, Hpeer in Hpeer'. simplify_eq.
  assert (id' = relayID relay) as -> by congruence. rewrite Hr3, Ereg in Hrel0, Ereg'. cbn in Hrel0, Ereg'.
  rewrite lookup_insert_eq in Hrel0. injection Hrel0 as <-. rewrite insert_insert_eq in Ereg'.
  exists relay'. rewrite Ereg'. cbn in *. rewrite Rid, lookup_insert_eq.
  split; [done|]. split; [congruence|]. split; [congruence|]. split; [congruence|].
  split; [done|]. split.
  { rewrite Etr. destruct (bool_decide _); [done|]. cbn in Eenc. by rewrite andb_true_r in Eenc. }
  split; [congruence|]. split; [congruence|]. split; [congruence|]. split; [done|].
  intros t' Hlive Hready Hlog Hphys. unfold availableLocked, After. cbn.
  rewrite Hready, Eexp, Egen, Eaugen, Rkeys. rewrite bool_decide_eq_true_2 by done. cbn.
  rewrite (proj2 (Z.ltb_lt _ _) Hlive), Z.ltb_irrefl. cbn.
  by rewrite (proj2 (Z.ltb_lt _ _) Hlog), (proj2 (Z.ltb_lt _ _) Hphys).
Qed.

(** The longest lease a registry can be configured with is refused
    by its own API: when the clock advances between the handler's reading and
    the registry's, a registration is never answered with a success, although
    the registry has recorded it. *)
Theorem longest_lease_refused (who : option PeerIdentity) (method path : string) (raw : bytes)
    (now now_registry : time) (lease : string) (r r' : Registry) (reply : HttpResponse)
    (Hlongest : LeaseDuration (RelayRegistry.config r) = 5 * Minute) (Hlater : now < now_registry)
    (Hreply : handle_register who (mkHttpRequest method path "application/json" raw) now now_registry lease r
              = Some (reply, r')) :
  success_status (rs_Status reply) = false.
Proof.
  destruct (success_status _) eqn:Est; [|done]. exfalso.
  apply handler_success in Hreply as (identity & document & response & _ & _ & Hmut & Henc); [|done].
  apply Encode_inv in Henc as (_ & Hval & _). unfold Register in Hmut. inv_ok. injection Hmut as <- _.
  unfold Validate, valid_registration_response, RegistrationResponse_Validate in Hval.
  destruct (validateVersions _ _ _); [|done]. destruct (_ && _); [done|].
  destruct (validTicketIssuer _); [|done]. cbn [mbind option_bind] in Hval. injection Hval as Hval. inv_ok.
  match goal with Hl : validateLease _ _ _ _ = Ok _ |- _ => unfold validateLease in Hl; inv_ok;
    apply lease_timing_bounds in Hl as [Hl _] end.
  unfold registrationResponseLocked, maximumLease, Minute in *. cbn in *. lia.
Qed.
End deployment.

(** ** A concrete deployment *)

Definition ser_capacity : Ser Capacity.
Proof.
  refine (ser_image (ser_pair ser_Z (ser_pair ser_Z (ser_pair ser_Z ser_Z)))
    (fun c => (MaximumPhysicalConnections c, (MaximumLogicalStreams c,
                (ActivePhysicalConnections c, ActiveLogicalStreams c))))
    (fun t => let '(x, (y, (z, u))) := t in mkCapacity x y z u) _).
  by intros [].
Defined.

Definition ser_envelope : Ser Envelope.
Proof.
  refine (ser_image (ser_pair ser_string ser_string) (fun e => (env_APIVersion e, env_Kind e))
            (fun t => mkEnvelope t.1 t.2) _).
  by intros [].
Defined.

Definition ser_key : Ser VerificationKey.
Proof.
  refine (ser_image (ser_pair ser_string (ser_pair ser_string (ser_pair ser_string (ser_pair ser_Z ser_Z))))
    (fun k => (vk_ID k, (vk_Algorithm k, (vk_PublicKey k, (vk_NotBefore k, vk_NotAfter k)))))
    (fun t => let '(a, (b, (c, (d, e)))) := t in mkVerificationKey a b c d e) _).
  by intros [].
Defined.

Definition ser_keys : Ser VerificationKeySet.
Proof.
  refine (ser_image (ser_pair ser_Z (ser_list ser_key)) (fun k => (ks_Generation k, ks_Keys k))
            (fun t => mkVerificationKeySet t.1 t.2) _).
  by intros [].
Defined.

Definition ser_registration : Ser RegistrationRequest.
Proof.
  refine (ser_image (ser_pair ser_envelope (ser_pair (ser_list ser_string)
                      (ser_pair ser_string (ser_pair ser_string ser_capacity))))
    (fun m => (rr_Envelope m, (rr_SupportedVersions m, (rr_Endpoint m, (rr_State m, rr_Capacity m)))))
    (fun t => let '(a, (b, (c, (d, e)))) := t in mkRegistrationRequest a b c d e) _).
  by intros [].
Defined.

Definition ser_registered : Ser RegistrationResponse.
Proof.
  refine (ser_image (ser_pair ser_envelope (ser_pair ser_string (ser_pair ser_string (ser_pair ser_string
                      (ser_pair ser_string (ser_pair ser_Z (ser_pair ser_Z ser_keys)))))))
    (fun m => (rp_Envelope m, (rp_SelectedVersion m, (rp_TicketIssuer m, (rp_RelayID m,
               (rp_LeaseID m, (rp_LeaseExpiresAt m, (rp_HeartbeatAfter m, rp_Keys m))))))))
    (fun t => let '(a, (b, (c, (d, (e, (f, (g, h))))))) := t in mkRegistrationResponse a b c d e f g h) _).
  by intros [].
Defined.

Definition ser_heartbeat : Ser HeartbeatRequest.
Proof.
  refine (ser_image (ser_pair ser_envelope (ser_pair ser_string (ser_pair ser_string (ser_pair ser_capacity
                      (ser_pair ser_Z (ser_pair (ser_option ser_bool) ser_string))))))
    (fun m => (hb_Envelope m, (hb_LeaseID m, (hb_State m, (hb_Capacity m, (hb_AppliedKeyGeneration m,
               (hb_TrafficEncryption m, hb_NoisePublicKey m)))))))
    (fun t => let '(a, (b, (c, (d, (e, (f, g)))))) := t in mkHeartbeatRequest a b c d e f g) _).
  by intros [].
Defined.

Definition ser_renewed : Ser HeartbeatResponse.
Proof.
  refine (ser_image (ser_pair ser_envelope (ser_pair ser_Z ser_Z))
    (fun m => (hp_Envelope m, (hp_LeaseExpiresAt m, hp_HeartbeatAfter m)))
    (fun t => let '(a, (b, c)) := t in mkHeartbeatResponse a b c) _).
  by intros [].
Defined.

#[export] Instance codec_registration : JsonCodec RegistrationRequest := ser_codec ser_registration.
#[export] Instance codec_registered : JsonCodec RegistrationResponse := ser_codec ser_registered.
#[export] Instance codec_heartbeat : JsonCodec HeartbeatRequest := ser_codec ser_heartbeat.
#[export] Instance codec_renewed : JsonCodec HeartbeatResponse := ser_codec ser_renewed.
#[export] Instance no_files : FileSystem := {| os_ReadFile := fun _ => None |}.
#[export] Instance plain_errors : ErrorDocuments :=
  {| error_document := fun code message => string_to_bytes code; error_code := bytes_to_string |}.

Lemma sample_control_json : control_json.
Proof. split; intros m _; apply ser_codec_roundtrip. Qed.

Definition sample_clock (n : nat) : time := t0 + Z.of_nat n * Millisecond.
Definition sample_uuid (n : nat) : string := simple_id "7".
Definition sample_report (n : nat) : State * Capacity := (StateReady, mkCapacity 100 1000 0 0).
#[export] Instance sample_environment : Environment World :=
  control_plane sample_clock sample_uuid sample_report (fun _ => true) (fun _ => false).

Definition sample_agent_config : AgentConfig :=
  mkAgentConfig "https://control.example" "wss://a.example/relay" "" 10 (500 * Millisecond) true
    (b64_EncodeToString (repeat x05 32)).
Definition sample_agent : Agent :=
  mkAgent "" "" "" 0 0 "" None lifecycleIdle (mkAuthenticator (mkAuthenticatorConfig "tunnel" 16 0) None "" "" 0).
Definition sample_world : World :=
  mkWorld (match RelayRegistry.New t0 sample_config with Ok r => r | Err _ => mkRegistry sample_config ∅ ∅ end)
    (Some (sample_peer "pod-a")) 0.

Definition sample_outcome : option (bool * Agent * World) :=
  match register sample_agent_config (sample_agent, sample_world) with
  | Some (r, (a, w)) => Some (match r with inr _ => true | inl _ => false end, a, w)
  | None => None
  end.

Example sample_registers :
  option_map (fun o => (o.1.1, lifecycle o.1.2, ag_selectedVersion o.1.2)) sample_outcome
  = Some (true, lifecycleIdle, APIVersionV2).
Proof. vm_compute. reflexivity. Qed.

Definition sample_registered : Agent * World :=
  match sample_outcome with Some (_, a, w) => (a, w) | None => (sample_agent, sample_world) end.

Lemma sample_words :
  deployment_words sample_uuid sample_report sample_agent_config (RelayRegistry.config (registry sample_world)).
Proof.
  split; [by vm_compute|by vm_compute| |by intros n; vm_compute|by vm_compute|].
  - intros n. split; [by vm_compute|]. unfold capacity_words, u32. cbn. lia.
  - split; [by vm_compute|]. apply Forall_singleton. apply text_list. intros s Hs.
    rewrite !elem_of_cons, elem_of_nil in Hs. by destruct Hs as [->|[->|[->|[]]]]; vm_compute.
Qed.

Lemma registration_agrees_witness :
  exists relay, relays (registry sample_registered.2) !! ag_relayID sample_registered.1 = Some relay /\
    leaseID relay = ag_leaseID sample_registered.1.
Proof.
  destruct (registration_agrees sample_clock sample_uuid sample_report (fun _ => true) (fun _ => false)
    sample_agent_config (RelayRegistry.config (registry sample_world)) sample_agent sample_registered.1
    sample_world sample_registered.2 sample_control_json sample_words eq_refl)
    as (relay & Hr & Hl & _).
  - evaluate.
  - exact (ex_intro _ relay (conj Hr Hl)).
Defined.

Definition longest_config : Config :=
  mkConfig "https://control.example" (5 * Minute) (10 * Second) [APIVersionV2; APIVersionV1] sample_keys None.
Definition longest_registry : Registry := mkRegistry longest_config ∅ ∅.
Definition sample_body : bytes := json_Marshal (sample_registration "a.example").
Definition refused : option (HttpResponse * Registry) :=
  handle_register (Some (sample_peer "pod-a"))
    (mkHttpRequest "POST" "/internal/v1/relays/register" "application/json" sample_body)
    t0 (t0 + 1) (simple_id "7") longest_registry.
Definition refused_reply : HttpResponse * Registry :=
  match refused with Some p => p | None => (mkHttpResponse 0 [], longest_registry) end.

(** The longest lease is a valid configuration, the answer is an internal error
    and the relay is registered. *)
Example refused_registered :
  is_ok (RelayRegistry.New t0 longest_config) = true /\
  rs_Status refused_reply.1 = StatusInternalServerError /\ size (relays refused_reply.2) = 1%nat.
Proof. split; [|split]; vm_compute; reflexivity. Qed.

Lemma longest_lease_refused_witness : success_status (rs_Status refused_reply.1) = false.
Proof.
  apply (longest_lease_refused (Some (sample_peer "pod-a")) "POST" "/internal/v1/relays/register" sample_body
           t0 (t0 + 1) (simple_id "7") longest_registry refused_reply.2 refused_reply.1).
  - evaluate.
  - evaluate.
  - evaluate.
Defined.

(** ** Starting the agent *)

Definition started : option (bool * Agent * World) :=
  match Start sample_agent_config (sample_agent, sample_world) with
  | Some (r, (a, w)) => Some (match r with inr _ => true | inl _ => false end, a, w)
  | None => None
  end.
Definition started_agent : Agent := match started with Some (_, a, _) => a | None => sample_agent end.
Definition started_world : World := match started with Some (_, _, w) => w | None => sample_world end.

Lemma sample_started :
  Start sample_agent_config (sample_agent, sample_world) = Some (inr tt, (started_agent, started_world)).
Proof. evaluate. Qed.

Lemma deployment_reachable : reachable (W := World) sample_agent_config sample_agent.
Proof.
  apply (reachable_new sample_agent_config (mkAuthenticatorConfig "tunnel" 16 0)
    (mkAuthenticator (mkAuthenticatorConfig "tunnel" 16 0) None "" "" 0)); by vm_compute.
Qed.

Lemma ready_agent_witness : t0 + Second < ag_leaseExpiresAt started_agent.
Proof.
  destruct (ready_agent (W := World) sample_agent_config started_agent (t0 + Second)) as (_ & _ & Hl & _).
  - apply (reachable_start sample_agent_config sample_agent sample_world (inr tt) started_agent started_world
             deployment_reachable sample_started).
  - evaluate.
  - exact Hl.
Defined.

Lemma start_outcome_witness : lifecycle started_agent = lifecycleRunning.
Proof.
  destruct (start_outcome (W := World) sample_agent_config sample_agent sample_world (inr tt) started_agent
    started_world deployment_reachable sample_started) as [Hidle _].
  exact (proj1 (Hidle eq_refl)).
Defined.
