(* ===== verification/RemoteTask.v ===== *)
(** * Remote task states ([internal/protocol/remotetask])

    The states a task stored by the control plane goes through and the
    transitions between them. *)

From S2P Require Import Prelude GoLib.

(** [State] is a string type: a row or a document can hold any value of it. *)
Abbreviation State := string (only parsing).

Definition Pending : State := "pending".
Definition Starting : State := "starting".
Definition Running : State := "running".
Definition Recovering : State := "recovering".
Definition Failed : State := "failed".
Definition Stopping : State := "stopping".
Definition Stopped : State := "stopped".
Definition Deleted : State := "deleted".

Definition orderedStates : list State :=
  [Pending; Starting; Running; Recovering; Failed; Stopping; Stopped; Deleted].

Definition one_of (states : list State) (state : State) : bool :=
  existsb (fun s => bool_decide (state = s)) states.

Definition Valid (state : State) : bool :=
  one_of [Pending; Starting; Running; Recovering; Failed; Stopping; Stopped; Deleted] state.

Definition Terminal (state : State) : bool :=
  bool_decide (state = Failed) || bool_decide (state = Deleted).

Definition Owned (state : State) : bool := one_of [Starting; Running; Recovering; Stopping] state.

Definition States : list State := orderedStates.

Definition allowed_next (current : State) : list State :=
  if bool_decide (current = Pending) then [Starting; Running; Stopping; Stopped; Failed; Deleted]
  else if bool_decide (current = Starting) then [Running; Stopping; Stopped; Failed; Recovering; Deleted]
  else if bool_decide (current = Running) then [Stopping; Stopped; Failed; Recovering; Deleted]
  else if bool_decide (current = Stopping) then [Stopped; Failed; Recovering; Deleted]
  else if bool_decide (current = Recovering) then [Stopping; Stopped; Failed; Deleted]
  else if bool_decide (current = Stopped) then [Pending; Deleted]
  else if bool_decide (current = Failed) then [Stopped; Deleted]
  else [].

Definition transitionAllowed (current next : State) : bool := one_of (allowed_next current) next.

Definition ValidateTransition (current next : State) : result unit :=
  if negb (Valid current) || negb (Valid next)
  then Err (NewError "remote Task transition contains an invalid state")
  else if bool_decide (current = next) then
    if Terminal current || bool_decide (current = Pending) || bool_decide (current = Stopped)
    then Err (NewError ("remote Task state " +:+ quoted current +:+ " cannot heartbeat"))
    else Ok tt
  else if negb (transitionAllowed current next)
  then Err (NewError ("remote Task transition " +:+ quoted current +:+ " -> " +:+ quoted next +:+ " is not allowed"))
  else Ok tt.

(** ** Facts about the transitions *)

Lemma one_of_elem states s : one_of states s = true <-> s ∈ states.
Proof.
  unfold one_of. rewrite existsb_exists. split.
  - intros (x & Hx%list_elem_of_In & ->%bool_decide_eq_true). done.
  - intros Hs%list_elem_of_In. exists s. by rewrite bool_decide_eq_true.
Qed.

(** A fact about valid states, checked on all of them. *)
Definition all_states (p : State -> bool) : bool := forallb p orderedStates.

Lemma all_states_spec p s : all_states p = true -> Valid s = true -> p s = true.
Proof.
  unfold all_states, Valid. rewrite forallb_forall, one_of_elem. intros Hp Hs.
  by apply Hp, list_elem_of_In.
Qed.

Definition transition (current next : State) : bool := is_ok (ValidateTransition current next).

Lemma transition_valid current next :
  transition current next = true -> Valid current = true /\ Valid next = true.
Proof.
  unfold transition, ValidateTransition. destruct (Valid current), (Valid next); cbn; done.
Qed.

Lemma transition_ok current next u : ValidateTransition current next = Ok u -> transition current next = true.
Proof. unfold transition. by intros ->. Qed.

(** A fact about transitions, checked on all pairs of valid states. *)
Lemma transitions_spec (p : State -> State -> bool) :
  all_states (fun s => all_states (fun t => implb (transition s t) (p s t))) = true ->
  forall s t, transition s t = true -> p s t = true.
Proof.
  intros Hall s t Hst. pose proof (transition_valid s t Hst) as [Hs Ht].
  pose proof (all_states_spec _ t (all_states_spec _ s Hall Hs) Ht) as Hp. cbn beta in Hp.
  by rewrite Hst in Hp.
Qed.

(** States a task can be in after it was stopped or failed, before it is
    started again. *)
Definition ended (s : State) : bool := one_of [Stopped; Failed; Deleted] s.

Lemma ended_step s t : transition s t = true -> ended s = true -> ended t = true \/ (s = Stopped /\ t = Pending).
Proof.
  intros Hst Hs.
  pose proof (transitions_spec (fun s t => implb (ended s) (ended t || (bool_decide (s = Stopped) && bool_decide (t = Pending))))
    eq_refl s t Hst) as Hp. cbn beta in Hp. rewrite Hs in Hp. cbn [implb] in Hp.
  apply orb_true_iff in Hp as [Hp|Hp]; [by left|]. bool_hyps. by right.
Qed.

Lemma deleted_step t : transition Deleted t = false.
Proof.
  destruct (transition Deleted t) eqn:E; [|done].
  by pose proof (transitions_spec (fun s _ => negb (bool_decide (s = Deleted))) eq_refl _ _ E).
Qed.

(** Histories: consecutive states are related by a transition. *)
Fixpoint history (s : State) (rest : list State) : Prop :=
  match rest with [] => True | t :: rest' => transition s t = true /\ history t rest' end.

(** However a task's state changes by valid transitions, once it
    is deleted it never changes again, and once it is stopped or failed it can
    only become owned by a worker again by first being stopped and then going
    back to pending. *)
Theorem resumes_through_pending (s : State) (rest : list State) (Hhistory : history s rest) :
  (s = Deleted -> rest = []) /\
  (ended s = true -> forall before t after, rest = before ++ t :: after -> Owned t = true ->
     Pending ∈ before /\ Stopped ∈ s :: before).
Proof.
  split.
  - intros ->. destruct rest as [|t rest]; [done|]. destruct Hhistory as [Hd _]. by rewrite deleted_step in Hd.
  - revert s Hhistory. induction rest as [|u rest IH]; intros s Hh Hs before t after Eb Ht;
      [by destruct before|]. destruct Hh as [Hsu Hrest].
    destruct (ended_step s u Hsu Hs) as [Hu|[-> ->]].
    + destruct before as [|v before]; cbn [app] in Eb.
      * assert (u = t) as -> by congruence.
        exfalso. assert (Hx : Valid t = true) by apply (transition_valid s t Hsu).
        pose proof (all_states_spec (fun t => negb (ended t && Owned t)) t eq_refl Hx) as Hn.
        cbn beta in Hn. by rewrite Hu, Ht in Hn.
      * assert (u = v /\ rest = before ++ t :: after) as [-> Er] by (split; congruence).
        destruct (IH v Hrest Hu before t after Er Ht) as [Hp Hst]. split; [by apply elem_of_cons; right|].
        by apply elem_of_cons; right.
    + destruct before as [|v before]; cbn [app] in Eb.
      * assert (t = Pending) as -> by congruence. done.
      * assert (v = Pending) as -> by congruence. split; by apply elem_of_cons; left.
Qed.

Definition sample_history : list State := [Stopped; Pending; Starting; Running].

Lemma resumes_through_pending_witness : Pending ∈ [Stopped; Pending] /\ Stopped ∈ [Failed; Stopped; Pending].
Proof.
  destruct (resumes_through_pending Failed sample_history) as [_ Hp].
  - by vm_compute.
  - exact (Hp eq_refl [Stopped; Pending] Starting [Running] eq_refl eq_refl).
Defined.
