(* ===== verification/StorageEngine.v ===== *)
(** * Identities and grants: data ([storage/model.go], [model_oauth.go])

    The rows of the tables that say who may use the system: identities and their
    passwords, OAuth clients, the requests, tokens and consents of logins, and the
    sessions of the management interface.  The empty string and the empty byte
    string stand for SQL NULL where a column may be NULL. *)

From S2P Require Import Prelude GoLib.
From S2P Require Import GoText External RemoteTask.

#[export] Instance byte_countable : Countable byte.
Proof.
  refine (inj_countable Byte.to_N Byte.of_N _). intros b. apply Byte.of_to_N.
Defined.

(** [Identity] of [model.go]. *)
Record StoredIdentity := mkStoredIdentity {
  id_ID : string;
  id_Type : string;
  id_DisplayName : string;
  id_PrimaryEmail : string;
  id_Status : string;
  id_CreatedAt : time;
  id_UpdatedAt : time
}.

Record PasswordCredential := mkPasswordCredential {
  pw_IdentityID : string;
  pw_Username : string;
  pw_PasswordHash : string;
  pw_Enabled : bool;
  pw_CreatedAt : time;
  pw_UpdatedAt : time
}.

Record BootstrapToken := mkBootstrapToken {
  bt_TokenHash : bytes;
  bt_CreatedAt : time;
  bt_ExpiresAt : time;
  bt_ConsumedAt : option time
}.

Record AdminSession := mkAdminSession {
  ad_IDHash : bytes;
  ad_IdentityID : string;
  ad_AuthorizationID : string;
  ad_AuthenticationType : string;
  ad_CSRFTokenHash : bytes;
  ad_AuthenticatedAt : time;
  ad_CreatedAt : time;
  ad_LastSeenAt : time;
  ad_IdleExpiresAt : time;
  ad_AbsoluteExpiresAt : time;
  ad_RevokedAt : option time
}.

Record OAuthClient := mkOAuthClient {
  oc_ID : string;
  oc_Name : string;
  oc_Public : bool;
  oc_RedirectURIs : list string;
  oc_GrantTypes : list string;
  oc_Scopes : list string;
  oc_Trusted : bool;
  oc_Enabled : bool;
  oc_Builtin : bool;
  oc_MachineIdentityID : string;
  oc_CreatedAt : time;
  oc_UpdatedAt : time
}.

Record OAuthClientSecret := mkOAuthClientSecret {
  os_ClientID : string;
  os_SecretHash : bytes;
  os_CreatedAt : time;
  os_UpdatedAt : time
}.

Record OAuthSession := mkOAuthSession {
  o_Kind : string;
  o_SignatureHash : bytes;
  o_RequestID : string;
  o_IdentityID : string;
  o_ClientID : string;
  o_DeviceID : string;
  o_RequestJSON : bytes;
  o_Status : string;
  o_CreatedAt : time;
  o_ExpiresAt : time;
  o_RevokedAt : option time
}.

Record OAuthAuthorizationRequest := mkOAuthAuthorizationRequest {
  ar_ChallengeHash : bytes;
  ar_UpstreamStateHash : bytes;
  ar_RequestID : string;
  ar_RequestJSON : bytes;
  ar_CSRFHash : bytes;
  ar_IdentityID : string;
  ar_ProviderID : string;
  ar_Status : string;
  ar_CreatedAt : time;
  ar_ExpiresAt : time
}.

Record OAuthConsent := mkOAuthConsent {
  co_IdentityID : string;
  co_ClientID : string;
  co_ScopeHash : bytes;
  co_Scopes : list string;
  co_CreatedAt : time;
  co_UpdatedAt : time
}.

Record OAuthBrowserSession := mkOAuthBrowserSession {
  br_IDHash : bytes;
  br_IdentityID : string;
  br_ProviderID : string;
  br_AuthTime : time;
  br_CreatedAt : time;
  br_ExpiresAt : time;
  br_RevokedAt : option time
}.

Record ResourceSnapshot := mkResourceSnapshot {
  rs_ID : string;
  rs_TaskID : string;
  rs_Kind : string;
  rs_Namespace : string;
  rs_Name : string;
  rs_Data : bytes;
  rs_CreatedAt : time
}.

#[export] Instance OAuthSession_eq_dec : EqDecision OAuthSession.
Proof. solve_decision. Defined.

(** ** The tables, by primary key ([schema.sqlite.sql]) *)

Record Directory := mkDirectory {
  password_credentials : gmap string PasswordCredential;
  bootstrap_token : option BootstrapToken;
  admin_sessions : gmap bytes AdminSession;
  oauth_clients : gmap string OAuthClient;
  oauth_client_secrets : gmap string OAuthClientSecret;
  oauth_authorization_requests : gmap bytes OAuthAuthorizationRequest;
  oauth_sessions : gmap (string * bytes) OAuthSession;
  oauth_consents : gmap (string * string * bytes) OAuthConsent;
  oauth_browser_sessions : gmap bytes OAuthBrowserSession;
  resource_snapshots : gmap (string * string * string * string) ResourceSnapshot
}.

Definition empty_directory : Directory := mkDirectory ∅ None ∅ ∅ ∅ ∅ ∅ ∅ ∅ ∅.

Definition set_credentials (m : gmap string PasswordCredential) (d : Directory) : Directory :=
  mkDirectory m (bootstrap_token d) (admin_sessions d) (oauth_clients d) (oauth_client_secrets d)
    (oauth_authorization_requests d) (oauth_sessions d) (oauth_consents d) (oauth_browser_sessions d) (resource_snapshots d).
Definition set_bootstrap_token (t : option BootstrapToken) (d : Directory) : Directory :=
  mkDirectory (password_credentials d) t (admin_sessions d) (oauth_clients d) (oauth_client_secrets d)
    (oauth_authorization_requests d) (oauth_sessions d) (oauth_consents d) (oauth_browser_sessions d) (resource_snapshots d).
Definition set_admin_sessions (m : gmap bytes AdminSession) (d : Directory) : Directory :=
  mkDirectory (password_credentials d) (bootstrap_token d) m (oauth_clients d) (oauth_client_secrets d)
    (oauth_authorization_requests d) (oauth_sessions d) (oauth_consents d) (oauth_browser_sessions d) (resource_snapshots d).
Definition set_oauth_clients (m : gmap string OAuthClient) (d : Directory) : Directory :=
  mkDirectory (password_credentials d) (bootstrap_token d) (admin_sessions d) m (oauth_client_secrets d)
    (oauth_authorization_requests d) (oauth_sessions d) (oauth_consents d) (oauth_browser_sessions d) (resource_snapshots d).
Definition set_client_secrets (m : gmap string OAuthClientSecret) (d : Directory) : Directory :=
  mkDirectory (password_credentials d) (bootstrap_token d) (admin_sessions d) (oauth_clients d) m
    (oauth_authorization_requests d) (oauth_sessions d) (oauth_consents d) (oauth_browser_sessions d) (resource_snapshots d).
Definition set_authorization_requests (m : gmap bytes OAuthAuthorizationRequest) (d : Directory) : Directory :=
  mkDirectory (password_credentials d) (bootstrap_token d) (admin_sessions d) (oauth_clients d) (oauth_client_secrets d)
    m (oauth_sessions d) (oauth_consents d) (oauth_browser_sessions d) (resource_snapshots d).
Definition set_oauth_sessions (m : gmap (string * bytes) OAuthSession) (d : Directory) : Directory :=
  mkDirectory (password_credentials d) (bootstrap_token d) (admin_sessions d) (oauth_clients d) (oauth_client_secrets d)
    (oauth_authorization_requests d) m (oauth_consents d) (oauth_browser_sessions d) (resource_snapshots d).
Definition set_consents (m : gmap (string * string * bytes) OAuthConsent) (d : Directory) : Directory :=
  mkDirectory (password_credentials d) (bootstrap_token d) (admin_sessions d) (oauth_clients d) (oauth_client_secrets d)
    (oauth_authorization_requests d) (oauth_sessions d) m (oauth_browser_sessions d) (resource_snapshots d).
Definition set_browser_sessions (m : gmap bytes OAuthBrowserSession) (d : Directory) : Directory :=
  mkDirectory (password_credentials d) (bootstrap_token d) (admin_sessions d) (oauth_clients d) (oauth_client_secrets d)
    (oauth_authorization_requests d) (oauth_sessions d) (oauth_consents d) m (resource_snapshots d).
Definition set_snapshots (m : gmap (string * string * string * string) ResourceSnapshot) (d : Directory) : Directory :=
  mkDirectory (password_credentials d) (bootstrap_token d) (admin_sessions d) (oauth_clients d) (oauth_client_secrets d)
    (oauth_authorization_requests d) (oauth_sessions d) (oauth_consents d) (oauth_browser_sessions d) m.

(** * The storage engine under the control plane ([internal/controlplane/storage])

    The data the repositories keep, the tables they keep it in, and how SQL
    statements and transactions run: a statement or a commit may fail, with or
    without having been applied; other clients of the database change it between
    two statements that are not in one transaction. *)


(** ** Data ([model.go], [model_runtime.go])

    JSON documents are bytes; the empty document stands for SQL NULL. *)

Record Task := mkTask {
  t_ID : string;
  t_IdentityID : string;
  t_SessionID : string;
  t_Type : string;
  t_State : State;
  t_Spec : bytes;
  t_Result : bytes;
  t_IdempotencyKey : string;
  t_CreatedAt : time;
  t_UpdatedAt : time;
  t_ExpiresAt : option time
}.

Record Session := mkSession {
  s_ID : string;
  s_IdentityID : string;
  s_DeviceID : string;
  s_ClusterID : string;
  s_Namespace : string;
  s_State : string;
  s_Generation : Z;
  s_NetworkSpec : bytes;
  s_NetworkSpecHash : string;
  s_CreatedAt : time;
  s_UpdatedAt : time;
  s_LastHeartbeatAt : time;
  s_ExpiresAt : time
}.

Record IdempotencyRecord := mkIdempotencyRecord {
  i_Scope : string;
  i_Key : string;
  i_RequestHash : string;
  i_ResourceType : string;
  i_ResourceID : string;
  i_Response : bytes;
  i_CreatedAt : time;
  i_ExpiresAt : time
}.

Record AuditEvent := mkAuditEvent {
  a_ID : string;
  a_IdentityID : string;
  a_Action : string;
  a_ResourceType : string;
  a_ResourceID : string;
  a_Outcome : string;
  a_RequestID : string;
  a_Metadata : bytes;
  a_CreatedAt : time
}.

(** [repository.go] *)
Definition ErrNotFound : error := VarError "storage.ErrNotFound".
Definition ErrConflict : error := VarError "storage.ErrConflict".
Definition ErrIdempotencyMismatch : error := VarError "storage.ErrIdempotencyMismatch".

(** ** Errors ([sql_repository.go]) *)

(** What a database driver reports: a PostgreSQL or MySQL error with its code, or
    an error known by its message only. *)
Inductive driver_error :=
| PgError (Code : string)
| MySQLError (Number : Z)
| OtherDriverError (message : string).

(** The errors of the repositories.  [Panicked] is a panic on its way up. *)
Inductive storage_error :=
| StorageError (e : error)
| databaseOperationError (message : string) (cause : driver_error)
| Panicked.

(** [errors.Is(err, v)] for an error variable. *)
Definition storage_Is (e : storage_error) (v : error) : bool :=
  match e with StorageError e => bool_decide (e = v) | _ => false end.

(** [strings.Contains] *)
Fixpoint contains_bytes (sub l : bytes) : bool :=
  match strip_prefix sub l with
  | Some _ => true
  | None => match l with [] => false | _ :: l' => contains_bytes sub l' end
  end.
Definition Contains (s sub : string) : bool := contains_bytes (string_to_bytes sub) (string_to_bytes s).

Definition isConstraintError (err : driver_error) : bool :=
  match err with
  | PgError code => HasPrefix code "23"
  | MySQLError number => (number =? 1062) || (number =? 1451) || (number =? 1452) || (number =? 3819)
  | OtherDriverError message =>
      let message := ToLower message in
      Contains message "unique constraint" || Contains message "duplicate key" || Contains message "constraint failed"
  end.

Definition isRetryableTransactionError (err : storage_error) : bool :=
  match err with
  | databaseOperationError _ (PgError code) => bool_decide (code = "40001") || bool_decide (code = "40P01")
  | databaseOperationError _ (MySQLError number) => (number =? 1205) || (number =? 1213)
  | _ => false
  end.

Definition databaseError (message : string) (cause : driver_error) : storage_error := databaseOperationError message cause.

Definition mapWriteError (err : driver_error) : storage_error :=
  if isConstraintError err then StorageError ErrConflict else databaseError "storage write failed" err.

(** ** Tables *)

Inductive Backend := BackendSQLite | BackendPostgreSQL | BackendMySQL.

#[export] Instance Backend_eq_dec : EqDecision Backend.
Proof. solve_decision. Defined.

(** Rows hold the fields of the values; times are stored as fixed-width text in
    UTC, whose order is the order of the instants.  Audit events are in the order
    they were inserted. *)
Record Database := mkDatabase {
  identities : gmap string StoredIdentity;
  sessions : gmap string Session;
  tasks : gmap string Task;
  idempotency_records : gmap (string * string) IdempotencyRecord;
  audit_events : list AuditEvent;
  directory : Directory
}.

Definition set_tasks (db : Database) (t : gmap string Task) : Database :=
  mkDatabase (identities db) (sessions db) t (idempotency_records db) (audit_events db) (directory db).
Definition set_sessions (db : Database) (s : gmap string Session) : Database :=
  mkDatabase (identities db) s (tasks db) (idempotency_records db) (audit_events db)
    (directory db).
Definition set_idempotency (db : Database) (i : gmap (string * string) IdempotencyRecord) : Database :=
  mkDatabase (identities db) (sessions db) (tasks db) i (audit_events db) (directory db).
Definition set_audit (db : Database) (a : list AuditEvent) : Database :=
  mkDatabase (identities db) (sessions db) (tasks db) (idempotency_records db) a (directory db).
Definition set_identities (db : Database) (i : gmap string StoredIdentity) : Database :=
  mkDatabase i (sessions db) (tasks db) (idempotency_records db) (audit_events db) (directory db).
Definition set_directory (db : Database) (d : Directory) : Database :=
  mkDatabase (identities db) (sessions db) (tasks db) (idempotency_records db) (audit_events db) d.

(** ** The engine *)

(** A failure, and whether the work was done nevertheless. *)
Record fault := mkFault { fault_applied : bool; fault_error : driver_error }.

Class Engine (E : Type) := {
  engine_backend : Backend;
  engine_jsonb : bytes -> bytes;                       (* PostgreSQL's form of a document *)
  engine_Statement : E -> option fault * E;            (* whether the next statement fails *)
  engine_Begin : E -> option driver_error * E;
  engine_Commit : E -> option fault * E;
  engine_Others : Database -> E -> Database * E;       (* what other clients do *)
  engine_Wait : Duration -> E -> bool * E;             (* whether the context ended the wait *)
  engine_Err : E -> bool * E;                          (* whether the context has ended *)
  engine_NewUUID : E -> string * E;
  engine_Now : E -> time * E
}.

Record World (E : Type) := mkWorld { w_db : Database; w_engine : E; w_tx : bool }.
Arguments mkWorld {E} _ _ _.
Arguments w_db {E} _.
Arguments w_engine {E} _.
Arguments w_tx {E} _.

(** The parts of [Store] that transactions use. *)
Record Store := mkStore { transactionMaxRetries : Z; transactionRetryBackoff : Duration }.

Section engine.
Context {E : Type} `{Engine E}.

(** ** The monad of the repositories *)

Definition M (A : Type) : Type := World E -> (storage_error + A) * World E.

#[export] Instance M_ret : MRet M := fun A a w => (inr a, w).
#[export] Instance M_bind : MBind M := fun A B f m w =>
  match m w with (inl e, w') => (inl e, w') | (inr a, w') => f a w' end.

Definition fail {A} (e : storage_error) : M A := fun w => (inl e, w).
Definition of_sum {A} (r : storage_error + A) : M A := fun w => (r, w).
Definition lift {A} (r : result A) : M A := fun w =>
  match r with Ok a => (inr a, w) | Err e => (inl (StorageError e), w) end.

(** The outcome of a computation as a value, for code that looks at the error. *)
Definition try {A} (m : M A) : M (storage_error + A) := fun w => let '(r, w') := m w in (inr r, w').

Definition uuid_NewString : M string := fun w =>
  let '(id, e) := engine_NewUUID (w_engine w) in (inr id, mkWorld (w_db w) e (w_tx w)).
Definition time_Now : M time := fun w =>
  let '(t, e) := engine_Now (w_engine w) in (inr t, mkWorld (w_db w) e (w_tx w)).

Definition ctx_Err : M bool := fun w =>
  let '(ended, e) := engine_Err (w_engine w) in (inr ended, mkWorld (w_db w) e (w_tx w)).

(** Other clients act before a statement that is not in a transaction. *)
Definition interfere (w : World E) : World E :=
  if w_tx w then w else let '(db, e) := engine_Others (w_db w) (w_engine w) in mkWorld db e false.

(** One statement: its effect on the tables, or the constraint it violates. *)
Definition statement {A} (wrap : driver_error -> storage_error) (f : Database -> driver_error + A * Database) : M A := fun w =>
  let w := interfere w in
  let '(failure, e) := engine_Statement (w_engine w) in
  match failure, f (w_db w) with
  | None, inl d => (inl (wrap d), mkWorld (w_db w) e (w_tx w))
  | None, inr (a, db) => (inr a, mkWorld db e (w_tx w))
  | Some failed, inr (_, db) =>
      (inl (wrap (fault_error failed)), mkWorld (if fault_applied failed then db else w_db w) e (w_tx w))
  | Some failed, inl _ => (inl (wrap (fault_error failed)), mkWorld (w_db w) e (w_tx w))
  end.

(** A violated UNIQUE or foreign key constraint, as the driver reports it. *)
Definition constraint_error : driver_error :=
  match engine_backend with
  | BackendSQLite => OtherDriverError "UNIQUE constraint failed"
  | BackendPostgreSQL => PgError "23505"
  | BackendMySQL => MySQLError 1062
  end.

(** A row that refers to another one; MySQL ignores inline REFERENCES. *)
Definition references {K V} `{Countable K} (m : gmap K V) (k : K) : bool :=
  bool_decide (engine_backend = BackendMySQL) || bool_decide (is_Some (m !! k)).
Definition references_identity (db : Database) (id : string) : bool :=
  bool_decide (engine_backend = BackendMySQL) || bool_decide (is_Some (identities db !! id)).

Definition stored_json (value : bytes) : bytes :=
  if bool_decide (engine_backend = BackendPostgreSQL) && negb (len value =? 0) then engine_jsonb value else value.

(** ** Transactions ([store_transaction.go])

    SQLite transactions begin with BEGIN IMMEDIATE and the others are
    serializable, so a transaction is one step; one that does not commit leaves
    no trace in the tables.  The variables that the callback captures are not
    part of the database: what it assigns to them in an attempt that fails is
    still there in the next attempt. *)

Definition Closure (C : Type) : Type := C -> World E -> (option storage_error * C) * World E.

Definition withinTransactionAttempt {C} (function : Closure C) : Closure C := fun c w =>
  let w := interfere w in
  match engine_Begin (w_engine w) with
  | (Some d, e) => ((Some (databaseError "begin storage transaction" d), c), mkWorld (w_db w) e (w_tx w))
  | (None, e) =>
      match function c (mkWorld (w_db w) e true) with
      | ((Some err, c'), w') => ((Some err, c'), mkWorld (w_db w) (w_engine w') (w_tx w))
      | ((None, c'), w') =>
          match engine_Commit (w_engine w') with
          | (None, e) => ((None, c'), mkWorld (w_db w') e (w_tx w))
          | (Some failed, e) =>
              ((Some (databaseError "commit storage transaction" (fault_error failed)), c'),
               mkWorld (if fault_applied failed then w_db w' else w_db w) e (w_tx w))
          end
      end
  end.

(** [context.Canceled] or [context.DeadlineExceeded]. *)
Definition ctxErr : storage_error := StorageError (VarError "ctx.Err()").

Definition waitForTransactionRetry (base : Duration) (attempt : Z) : M unit := fun w =>
  let '(ended, e) := engine_Wait (Z.min (int64 (base * Z.shiftl 1 attempt)) Second) (w_engine w) in
  ((if ended : bool then inl ctxErr else inr tt), mkWorld (w_db w) e (w_tx w)).

(** The loop, with the number of retries that are left. *)
Fixpoint transaction_attempts {C} (store : Store) (left_over : nat) (attempt : Z) (function : Closure C) : Closure C :=
  fun c w =>
  match withinTransactionAttempt function c w with
  | ((None, c'), w') => ((None, c'), w')
  | ((Some err, c'), w') =>
      if bool_decide (engine_backend = BackendSQLite) || negb (isRetryableTransactionError err) ||
         (transactionMaxRetries store <=? attempt)
      then ((Some err, c'), w')
      else match left_over with
           | O => ((Some err, c'), w')
           | S left_over' =>
               match waitForTransactionRetry (transactionRetryBackoff store) attempt w' with
               | (inl err', w'') => ((Some err', c'), w'')
               | (inr _, w'') => transaction_attempts store left_over' (attempt + 1) function c' w''
               end
           end
  end.

(** At most [transactionMaxRetries] retries are made, so that many are enough. *)
Definition WithinTransaction {C} (store : Store) (function : Closure C) : Closure C :=
  transaction_attempts store (Z.to_nat (transactionMaxRetries store)) 0 function.

(** A transaction, and the error and the captured variables it ends with. *)
Definition run_transaction {C} (store : Store) (function : Closure C) (c : C) : M (option storage_error * C) := fun w =>
  let '(r, w') := WithinTransaction store function c w in (inr r, w').

(** A callback that captures no variable. *)
Definition closure (function : M unit) : Closure unit := fun _ w =>
  match function w with (inl e, w') => ((Some e, tt), w') | (inr _, w') => ((None, tt), w') end.

Definition in_transaction (store : Store) (function : M unit) : M unit :=
  r ← run_transaction store (closure function) tt;
  match r with (Some e, _) => fail e | (None, _) => mret tt end.
End engine.
