(* ===== verification/Netip.v ===== *)
(** * [net/netip]: IP addresses and prefixes

    Addresses are numbers of 32 or 128 bits, so membership in a prefix is a
    comparison of quotients.  The textual forms ([ParseAddr], [ParsePrefix] and
    [String]) are operations of a class; what is relied on is that parsing reads
    back what printing wrote. *)

From S2P Require Import Prelude GoLib GoText GoSort.

(** The zero [Addr] has bit length 0 and is not valid. *)
Record Addr := mkAddr { addr_BitLen : Z; addr_value : Z; addr_zone : string }.
Record Prefix := mkPrefix { pfx_Addr : Addr; pfx_Bits : Z }.

#[export] Instance Addr_eq_dec : EqDecision Addr.
Proof. solve_decision. Defined.
#[export] Instance Prefix_eq_dec : EqDecision Prefix.
Proof. solve_decision. Defined.

Class NetipPackage := {
  netip_ParseAddr : string -> option Addr;
  netip_ParsePrefix : string -> option Prefix;
  Addr_String : Addr -> string;
  Prefix_String : Prefix -> string
}.

Definition v4 (a b c d : Z) : Addr := mkAddr 32 (((a * 256 + b) * 256 + c) * 256 + d) "".

Definition addr_IsValid (a : Addr) : bool := negb (addr_BitLen a =? 0).
Definition addr_Is4 (a : Addr) : bool := addr_BitLen a =? 32.
Definition addr_Is6 (a : Addr) : bool := addr_BitLen a =? 128.
Definition addr_Is4In6 (a : Addr) : bool := addr_Is6 a && (addr_value a / 2 ^ 32 =? 65535).
Definition addr_Unmap (a : Addr) : Addr :=
  if addr_Is4In6 a then mkAddr 32 (addr_value a mod 2 ^ 32) "" else a.

(** The first [n] bits of an address. *)
Definition top_bits (n : Z) (a : Addr) : Z := addr_value a / 2 ^ (addr_BitLen a - n).

(** The address is an IPv4 address ([n], [t4]) or an IPv6 address ([m], [t6])
    with these leading bits. *)
Definition starts (n t4 m t6 : Z) (a : Addr) : bool :=
  (addr_Is4 a && (top_bits n a =? t4)) || (addr_Is6 a && (top_bits m a =? t6)).

Definition addr_IsUnspecified (a : Addr) : bool :=
  bool_decide (a = v4 0 0 0 0) || bool_decide (a = mkAddr 128 0 "").
Definition addr_IsLoopback (a : Addr) : bool := starts 8 127 128 1 (addr_Unmap a).
(** 169.254.0.0/16 and fe80::/10 *)
Definition addr_IsLinkLocalUnicast (a : Addr) : bool := starts 16 43518 10 1018 (addr_Unmap a).
(** 224.0.0.0/4 and ff00::/8 *)
Definition addr_IsMulticast (a : Addr) : bool := starts 4 14 8 255 (addr_Unmap a).
(** 10.0.0.0/8, 172.16.0.0/12, 192.168.0.0/16 and fc00::/7 *)
Definition addr_IsPrivate (a : Addr) : bool :=
  let u := addr_Unmap a in
  (addr_Is4 u && ((top_bits 8 u =? 10) || (top_bits 12 u =? 2753) || (top_bits 16 u =? 49320)))
  || (addr_Is6 u && (top_bits 7 u =? 126)).

Definition addr_Compare (a b : Addr) : Z :=
  if addr_BitLen a <? addr_BitLen b then -1 else if addr_BitLen b <? addr_BitLen a then 1
  else if addr_value a <? addr_value b then -1 else if addr_value b <? addr_value a then 1
  else compareString (addr_zone a) (addr_zone b).

Definition pfx_Masked (p : Prefix) : Prefix :=
  let a := pfx_Addr p in
  let unit := 2 ^ (addr_BitLen a - pfx_Bits p) in
  mkPrefix (mkAddr (addr_BitLen a) (addr_value a / unit * unit) "") (pfx_Bits p).

Definition pfx_Contains (p : Prefix) (a : Addr) : bool :=
  bool_decide (addr_zone a = "") && (addr_BitLen (pfx_Addr p) =? addr_BitLen a) &&
  negb (addr_BitLen a =? 0) && (top_bits (pfx_Bits p) (pfx_Addr p) =? top_bits (pfx_Bits p) a).

(** ** Well-formed addresses and prefixes *)

Definition addr_wf (a : Addr) : Prop :=
  (addr_BitLen a = 32 \/ addr_BitLen a = 128) /\ 0 <= addr_value a < 2 ^ addr_BitLen a.
Definition pfx_wf (p : Prefix) : Prop :=
  addr_wf (pfx_Addr p) /\ addr_zone (pfx_Addr p) = "" /\ 0 <= pfx_Bits p <= addr_BitLen (pfx_Addr p).
Definition pfx_masked (p : Prefix) : Prop := pfx_Masked p = p.

(** Addresses that have a textual form: those without a zone and those that were
    read. *)
Definition readable `{NetipPackage} (a : Addr) : Prop :=
  addr_wf a /\ (addr_zone a = "" \/ exists raw, netip_ParseAddr (TrimSpace raw) = Some a).

(** What the documentation of [net/netip] says of the textual forms. *)
Class NetipLaws `{NetipPackage} : Prop := {
  parse_addr_wf : forall s a, netip_ParseAddr s = Some a -> addr_wf a;
  parse_prefix_wf : forall s p, netip_ParsePrefix s = Some p -> pfx_wf p;
  parse_addr_string : forall a, readable a -> netip_ParseAddr (Addr_String a) = Some a;
  parse_prefix_string : forall p, pfx_wf p -> netip_ParsePrefix (Prefix_String p) = Some p;
  addr_string_trimmed : forall a, readable a -> TrimSpace (Addr_String a) = Addr_String a;
  prefix_string_trimmed : forall p, pfx_wf p -> TrimSpace (Prefix_String p) = Prefix_String p;
  parse_addr_empty : netip_ParseAddr "" = None
}.

(** ** Lemmas *)

Lemma addr_eq a b :
  addr_BitLen a = addr_BitLen b -> addr_value a = addr_value b -> addr_zone a = addr_zone b -> a = b.
Proof. destruct a, b; cbn; congruence. Qed.

Lemma pow2_pos n : 0 <= n -> 0 < 2 ^ n.
Proof. apply Z.pow_pos_nonneg; lia. Qed.

Lemma div_pow_le x m n : 0 <= m <= n -> x / 2 ^ n = x / 2 ^ m / 2 ^ (n - m).
Proof.
  intros Hm. rewrite Z.div_div by (apply Z.pow_nonzero || apply pow2_pos; lia).
  rewrite <- Z.pow_add_r by lia. do 2 f_equal. lia.
Qed.

Lemma pfx_Masked_wf p : pfx_wf p -> pfx_wf (pfx_Masked p) /\ pfx_masked (pfx_Masked p).
Proof.
  unfold pfx_wf, pfx_masked, pfx_Masked, addr_wf. destruct p as [[l v z] b]; cbn [pfx_Addr pfx_Bits addr_BitLen addr_value addr_zone].
  intros ((Hl & Hv) & _ & Hb). pose proof (pow2_pos (l - b) ltac:(lia)) as Hu.
  set (u := 2 ^ (l - b)) in *. split; [|].
  - split; [|split; [done|done]]. split; [done|].
    pose proof (Z.mul_div_le v u Hu). pose proof (Z.div_pos v u ltac:(lia) Hu). nia.
  - f_equal. f_equal. by rewrite Z.div_mul by lia.
Qed.

(** Containment of an address is decided by its quotient. *)
Lemma pfx_Contains_spec p a :
  pfx_wf p -> addr_zone a = "" ->
  pfx_Contains p a = true <->
  addr_BitLen a = addr_BitLen (pfx_Addr p) /\ top_bits (pfx_Bits p) (pfx_Addr p) = top_bits (pfx_Bits p) a.
Proof.
  unfold pfx_Contains. intros ((Hl & _) & _) Hz.
  rewrite !andb_true_iff, bool_decide_eq_true, negb_true_iff, Z.eqb_neq, !Z.eqb_eq.
  split; [intros (((_ & ->) & _) & ->); done|]. intros [Hb ->]. repeat split; lia || done.
Qed.

Lemma pfx_Contains_Masked p a : pfx_wf p -> pfx_Contains (pfx_Masked p) a = pfx_Contains p a.
Proof.
  intros ((Hl & _) & _ & Hb). unfold pfx_Contains, pfx_Masked, top_bits. cbn [pfx_Addr pfx_Bits addr_BitLen addr_value].
  rewrite Z.div_mul; [done|]. pose proof (pow2_pos (addr_BitLen (pfx_Addr p) - pfx_Bits p) ltac:(lia)). lia.
Qed.

Lemma pfx_Contains_self p : pfx_wf p -> pfx_Contains p (pfx_Addr p) = true.
Proof. intros W. by apply pfx_Contains_spec; [|destruct W as (_ & ? & _)|]. Qed.

(** Two prefixes that share an address: one contains the other's. *)
Lemma pfx_nested p q a :
  pfx_wf p -> pfx_wf q -> addr_zone a = "" -> pfx_Bits p <= pfx_Bits q ->
  pfx_Contains p a = true -> pfx_Contains q a = true -> pfx_Contains p (pfx_Addr q) = true.
Proof.
  intros Wp Wq Hz Hb Hp Hq. assert (Hzq : addr_zone (pfx_Addr q) = "") by (by destruct Wq as (_ & ? & _)).
  apply pfx_Contains_spec in Hp as [Lp Tp]; [|done..]. apply pfx_Contains_spec in Hq as [Lq Tq]; [|done..].
  apply pfx_Contains_spec; [done..|]. split; [congruence|]. rewrite Tp. unfold top_bits in *.
  destruct Wp as (_ & _ & Bp), Wq as (_ & _ & Bq). rewrite <- Lq in *. rewrite <- Lp in *.
  rewrite (div_pow_le (addr_value a) (addr_BitLen a - pfx_Bits q)) by lia.
  rewrite (div_pow_le (addr_value (pfx_Addr q)) (addr_BitLen a - pfx_Bits q)) by lia. by rewrite Tq.
Qed.

(** A prefix that contains another's address and is not longer contains every
    address of the other. *)
Lemma pfx_covers p q a :
  pfx_wf p -> pfx_wf q -> addr_zone a = "" -> pfx_Bits p <= pfx_Bits q ->
  pfx_Contains p (pfx_Addr q) = true -> pfx_Contains q a = true -> pfx_Contains p a = true.
Proof.
  intros Wp Wq Hz Hb Hp Hq. assert (Hzq : addr_zone (pfx_Addr q) = "") by (by destruct Wq as (_ & ? & _)).
  apply pfx_Contains_spec in Hp as [Lp Tp]; [|done..]. apply pfx_Contains_spec in Hq as [Lq Tq]; [|done..].
  apply pfx_Contains_spec; [done..|]. split; [congruence|]. rewrite Tp. unfold top_bits in *.
  destruct Wp as (_ & _ & Bp), Wq as (_ & _ & Bq). rewrite Lq in *. rewrite Lp in *.
  rewrite (div_pow_le (addr_value a) (addr_BitLen (pfx_Addr p) - pfx_Bits q)) by lia.
  rewrite (div_pow_le (addr_value (pfx_Addr q)) (addr_BitLen (pfx_Addr p) - pfx_Bits q)) by lia. by rewrite Tq.
Qed.

(** The comparison of addresses is a total order. *)
Lemma addr_Compare_laws : cmp_laws (fun _ => True) addr_Compare.
Proof.
  split.
  - intros x y _ _. unfold addr_Compare.
    pose proof (cmp_anti compareString_laws (x:=addr_zone x) (y:=addr_zone y) I I).
    repeat case_match_eqn; bool_hyps; lia.
  - intros x y z _ _ _. unfold addr_Compare.
    pose proof (cmp_trans compareString_laws (x:=addr_zone x) (y:=addr_zone y) (z:=addr_zone z) I I I).
    repeat case_match_eqn; bool_hyps; lia.
Qed.

Lemma addr_Compare_eq x y : addr_Compare x y = 0 -> x = y.
Proof.
  unfold addr_Compare. repeat case_match_eqn; try done. bool_hyps. intros Hz%compareString_eq.
  apply addr_eq; lia || done.
Qed.

Lemma addr_Unmap_wf a : addr_wf a -> addr_wf (addr_Unmap a).
Proof.
  unfold addr_Unmap. intros W. destruct (addr_Is4In6 a); [|done]. split; cbn [addr_BitLen addr_value]; [by left|].
  apply Z.mod_pos_bound. lia.
Qed.

Lemma addr_Unmap_idem a : addr_Unmap (addr_Unmap a) = addr_Unmap a.
Proof. unfold addr_Unmap. destruct (addr_Is4In6 a) eqn:E; [done|]. by rewrite E. Qed.
