(* ===== verification/ConcreteNetip.v ===== *)
(** * A concrete [net/netip]

    Addresses in dotted decimal form (IPv4) or as a colon and 32 hexadecimal
    digits (IPv6), without zones; prefixes as an address, a slash and a decimal
    number of bits.  The instance satisfies [NetipLaws]. *)

From S2P Require Import Prelude GoLib GoText Netip.

(** ** Decimal bytes *)

Definition dec_digit (z : Z) : byte := byte_of_Z (48 + z).
Definition dec (b : byte) : bytes :=
  let z := Z_of_byte b in
  if z <? 10 then [dec_digit z] else if z <? 100 then [dec_digit (z / 10); dec_digit (z mod 10)]
  else [dec_digit (z / 100); dec_digit (z / 10 mod 10); dec_digit (z mod 10)].

Definition undec (l : bytes) : option byte := List.find (fun b => bool_decide (dec b = l)) all_256.

Definition dec_ok (b : byte) : bool :=
  bool_decide (undec (dec b) = Some b) && forallb (fun c => is_digit c) (dec b).

Lemma dec_all b : dec_ok b = true.
Proof.
  assert (Hall : forallb dec_ok all_256 = true) by by vm_compute.
  rewrite forallb_forall in Hall. apply Hall, all_256_complete.
Qed.

Lemma undec_dec b : undec (dec b) = Some b.
Proof. pose proof (dec_all b) as H. apply andb_true_iff in H as [H _]. by apply bool_decide_eq_true in H. Qed.

Lemma dec_digits b : forallb is_digit (dec b) = true.
Proof. pose proof (dec_all b) as H. by apply andb_true_iff in H as [_ H]. Qed.

Definition hex_byte (b : byte) : bool := is_digit b || byte_in x61 x66 b.

Lemma hex_encode_hex l : forallb hex_byte (hex_encode_bytes l) = true.
Proof.
  induction l as [|b l IH]; [done|]. cbn [hex_encode_bytes forallb]. rewrite IH, andb_true_r.
  destruct b; by vm_compute.
Qed.

(** ** Addresses *)

Definition addr_bytes (a : Addr) : bytes :=
  if addr_BitLen a =? 32 then
    match be_put 4 (addr_value a) with
    | [x; y; z; t] => dec x ++ x2e :: dec y ++ x2e :: dec z ++ x2e :: dec t
    | _ => []
    end
  else x3a :: hex_encode_bytes (be_put 16 (addr_value a)).

Definition parse_addr_bytes (l : bytes) : option Addr :=
  match l with
  | x3a :: rest =>
      d ← hex_decode_bytes rest;
      if bool_decide (List.length d = 16%nat) then Some (mkAddr 128 (be_get d) "") else None
  | _ =>
      match split_bytes x2e l with
      | [a; b; c; d] =>
          a ← undec a; b ← undec b; c ← undec c; d ← undec d; Some (mkAddr 32 (be_get [a; b; c; d]) "")
      | _ => None
      end
  end.

Definition prefix_bytes (p : Prefix) : bytes := addr_bytes (pfx_Addr p) ++ x2f :: dec (byte_of_Z (pfx_Bits p)).

Definition parse_prefix_bytes (l : bytes) : option Prefix :=
  match split_bytes x2f l with
  | [a; b] =>
      a ← parse_addr_bytes a; b ← undec b;
      if Z_of_byte b <=? addr_BitLen a then Some (mkPrefix a (Z_of_byte b)) else None
  | _ => None
  end.

#[export] Instance simple_netip : NetipPackage := {
  netip_ParseAddr := fun s => parse_addr_bytes (string_to_bytes s);
  netip_ParsePrefix := fun s => parse_prefix_bytes (string_to_bytes s);
  Addr_String := fun a => bytes_to_string (addr_bytes a);
  Prefix_String := fun p => bytes_to_string (prefix_bytes p)
}.

(** ** The laws *)

Lemma digits_not (b : byte) l : is_digit b = false -> forallb is_digit l = true -> b ∉ l.
Proof.
  intros Hb Hl Hin%list_elem_of_In. rewrite forallb_forall in Hl. rewrite Hl in Hb; done.
Qed.

Definition addr_text_byte (b : byte) : bool := hex_byte b || bool_decide (b = x2e) || bool_decide (b = x3a).

Lemma forallb_weaken {A} (p q : A -> bool) l : (forall x, p x = true -> q x = true) -> forallb p l = true -> forallb q l = true.
Proof. intros Hpq. rewrite !forallb_forall. eauto. Qed.

Lemma dec_text b : forallb addr_text_byte (dec b) = true.
Proof. eapply forallb_weaken; [|apply dec_digits]. intros c Hc. unfold addr_text_byte, hex_byte. by rewrite Hc. Qed.

Lemma addr_bytes_text a : forallb addr_text_byte (addr_bytes a) = true.
Proof.
  unfold addr_bytes. destruct (addr_BitLen a =? 32).
  - destruct (be_put 4 (addr_value a)) as [|x [|y [|z [|t [|? ?]]]]]; try done.
    rewrite !forallb_app. cbn [forallb]. rewrite !forallb_app. cbn [forallb]. rewrite !forallb_app. cbn [forallb].
    by rewrite !dec_text.
  - cbn [forallb]. change (addr_text_byte x3a) with true. cbn [andb].
    eapply forallb_weaken; [|apply hex_encode_hex]. intros c Hc. unfold addr_text_byte. by rewrite Hc.
Qed.

Lemma parse_addr_bytes_wf l a : parse_addr_bytes l = Some a -> addr_wf a /\ addr_zone a = "".
Proof.
  assert (H4 : match split_bytes x2e l with
      | [a; b; c; d] =>
          a ← undec a; b ← undec b; c ← undec c; d ← undec d; Some (mkAddr 32 (be_get [a; b; c; d]) "")
      | _ => None
      end = Some a -> addr_wf a /\ addr_zone a = "").
  { destruct (split_bytes x2e l) as [|x [|y [|z [|t [|? ?]]]]]; try done.
    destruct (undec x) as [x'|], (undec y) as [y'|], (undec z) as [z'|], (undec t) as [t'|]; try done.
    intros [= <-]. split; [|done]. split; [by left|]. apply (be_get_range [x'; y'; z'; t']). }
  unfold parse_addr_bytes. destruct l as [|b rest]; [done|]. destruct b; try exact H4.
  clear H4. destruct (hex_decode_bytes rest) as [d|]; [|done]. cbn [mbind option_bind].
  case_bool_decide as Hd; [|done]. intros [= <-]. split; [|done]. split; [by right|]. cbn [addr_value addr_BitLen].
  pose proof (be_get_range d) as Hr. unfold len in Hr. by rewrite Hd in Hr.
Qed.

Lemma parse_addr_bytes_print a : addr_wf a -> addr_zone a = "" -> parse_addr_bytes (addr_bytes a) = Some a.
Proof.
  intros (Hl & Hv) Hz. unfold addr_bytes. destruct Hl as [Hl|Hl]; rewrite Hl in *.
  - change (32 =? 32) with true. cbn iota. pose proof (be_put_length 4 (addr_value a)) as Hlen.
    pose proof (be_get_put 4 (addr_value a)) as Hget. rewrite Z.mod_small in Hget by exact Hv.
    destruct (be_put 4 (addr_value a)) as [|x [|y [|z [|t [|? ?]]]]]; try discriminate Hlen.
    assert (Hs : split_bytes x2e (dec x ++ x2e :: dec y ++ x2e :: dec z ++ x2e :: dec t) = [dec x; dec y; dec z; dec t]).
    { rewrite !split_bytes_app, split_bytes_nosep; try done; apply digits_not; try done; apply dec_digits. }
    assert (Hd : exists c r, dec x = c :: r /\ is_digit c = true).
    { pose proof (dec_digits x) as Hx. destruct (dec x) as [|c r] eqn:E; [by destruct x|].
      exists c, r. split; [done|]. by apply andb_true_iff in Hx as [? _]. }
    destruct Hd as (c & r & Hc & Hdig). unfold parse_addr_bytes. rewrite Hc in Hs |- *. cbn [app] in Hs |- *.
    rewrite Hs. rewrite <- Hc, !undec_dec. cbn [mbind option_bind]. rewrite Hget.
    destruct c; try discriminate Hdig; f_equal; apply addr_eq; cbn [addr_BitLen addr_value addr_zone]; congruence.
  - change (128 =? 32) with false. cbn iota. unfold parse_addr_bytes. rewrite hex_decode_encode. cbn [mbind option_bind].
    rewrite bool_decide_eq_true_2 by apply be_put_length. rewrite be_get_put, Z.mod_small by exact Hv.
    f_equal. apply addr_eq; cbn [addr_BitLen addr_value addr_zone]; congruence.
Qed.

#[export] Instance simple_netip_laws : NetipLaws.
Proof.
  assert (Hr : forall a, readable a -> addr_wf a /\ addr_zone a = "").
  { intros a (W & [Hz|(raw & Hp)]); [done|]. by apply parse_addr_bytes_wf in Hp. }
  split.
  - intros s a Hp. by apply parse_addr_bytes_wf in Hp as [? _].
  - intros s p Hp. cbn [netip_ParsePrefix simple_netip] in Hp. unfold parse_prefix_bytes in Hp.
    destruct (split_bytes x2f _) as [|x [|y [|? ?]]]; try done.
    destruct (parse_addr_bytes x) as [a|] eqn:Ea; [|done]. destruct (undec y) as [b|]; [|done]. cbn [mbind option_bind] in Hp.
    destruct (Z.leb_spec (Z_of_byte b) (addr_BitLen a)); [|done]. injection Hp as <-.
    apply parse_addr_bytes_wf in Ea as [W Hz]. pose proof (Z_of_byte_range b). split; [done|]. split; [done|cbn; lia].
  - intros a R. cbn [netip_ParseAddr Addr_String simple_netip]. rewrite string_to_of_bytes.
    destruct (Hr a R). by apply parse_addr_bytes_print.
  - intros p (W & Hz & Hb). cbn [netip_ParsePrefix Prefix_String simple_netip]. rewrite string_to_of_bytes.
    unfold parse_prefix_bytes, prefix_bytes. rewrite split_bytes_app.
    + rewrite split_bytes_nosep by (apply digits_not; [done|apply dec_digits]).
      rewrite parse_addr_bytes_print, undec_dec by done. cbn [mbind option_bind].
      rewrite byte_of_Z_small by (destruct W as ([Hl|Hl] & _); lia).
      replace (pfx_Bits p <=? _) with true by (symmetry; apply Z.leb_le; lia). by destruct p.
    + intros Hin%list_elem_of_In. pose proof (addr_bytes_text (pfx_Addr p)) as Ht. rewrite forallb_forall in Ht.
      by specialize (Ht _ Hin).
  - intros a R. cbn [Addr_String simple_netip]. apply TrimSpace_visible. unfold all_bytes. rewrite string_to_of_bytes.
    eapply forallb_weaken; [|apply addr_bytes_text]. intros c. by destruct c.
  - intros p _. cbn [Prefix_String simple_netip]. apply TrimSpace_visible. unfold all_bytes. rewrite string_to_of_bytes.
    unfold prefix_bytes. rewrite forallb_app. cbn [forallb]. apply andb_true_iff. split.
    + eapply forallb_weaken; [|apply addr_bytes_text]. intros c. by destruct c.
    + apply andb_true_iff. split; [done|]. eapply forallb_weaken; [|apply dec_digits]. intros c. by destruct c.
  - done.
Qed.
