(* ===== verification/NetworkSpec.v ===== *)
(** * Cluster networks ([internal/protocol/networkspec], [internal/protocol/dns])

    The network snapshot of a Session: which Pod and Service networks it may
    reach.  [Normalize] validates untrusted discovery output and makes it
    canonical. *)

From S2P Require Import Prelude GoLib GoText GoSort External Netip.

(** ** Cluster domains ([dns/cluster.go]) *)

Definition DefaultClusterDomain : string := "cluster.local".

Definition asciiLowerAlphaNumeric (value : byte) : bool := is_lower value || is_digit value.

(** [value[0]], [value[len(value)-1]] and the bytes in between. *)
Definition ValidLabel (value : string) : bool :=
  match string_to_bytes value with
  | [] => false
  | first :: rest =>
      negb (63 <? slen value) && asciiLowerAlphaNumeric first &&
      asciiLowerAlphaNumeric (List.last rest first) &&
      forallb (fun b => bool_decide (b = x2d) || asciiLowerAlphaNumeric b) (List.removelast rest)
  end.

Definition ValidClusterDomain (value : string) : bool :=
  negb (bool_decide (value = "")) && negb (253 <? slen value) && forallb ValidLabel (Split value x2e).

(** [strings.ToLower] up to the bytes of characters outside ASCII: the only ones
    whose lower case is in ASCII are U+212A (k) and U+0130 (i). *)
Fixpoint lower_bytes (l : bytes) : bytes :=
  match l with
  | xe2 :: x84 :: xaa :: l' => x6b :: lower_bytes l'
  | xc4 :: xb0 :: l' => x69 :: lower_bytes l'
  | b :: l' => lower_byte b :: lower_bytes l'
  | [] => []
  end.

(** [strings.TrimSuffix(s, ".")] *)
Definition trim_dot (l : bytes) : bytes :=
  match rev l with x2e :: r => rev r | _ => l end.

Definition domain_name (raw : string) : string :=
  bytes_to_string (trim_dot (lower_bytes (string_to_bytes (TrimSpace raw)))).

(** The closure [add]; the set [seen] holds exactly the domains of [out]. *)
Definition add_domain (out : list string) (raw : string) : result (list string) :=
  let domain := domain_name raw in
  if bool_decide (domain = "") then Ok out
  else if negb (ValidClusterDomain domain) then Err (NewError ("invalid cluster domain " +:+ quoted raw))
  else if bool_decide (domain ∈ out) then Ok out
  else Ok (out ++ [domain]).

Fixpoint add_domains (out domains : list string) : result (list string) :=
  match domains with
  | [] => Ok out
  | raw :: rest => out' ← add_domain out raw; add_domains out' rest
  end.

(** [if len(out) > 1 && out[0] != DefaultClusterDomain] *)
Definition default_first (out : list string) : list string :=
  match out with
  | d :: _ :: _ =>
      if bool_decide (d = DefaultClusterDomain) then out
      else DefaultClusterDomain :: List.filter (fun x => negb (bool_decide (x = DefaultClusterDomain))) out
  | _ => out
  end.

Definition NormalizeClusterDomains (domains : list string) : result (list string) :=
  out ← add_domains [] domains; out ← add_domain out DefaultClusterDomain; Ok (default_first out).

(** ** Addresses and prefixes ([networkspec/spec.go]) *)

(** [netip.MustParsePrefix("100.64.0.0/10")] *)
Definition carrierGrade : Prefix := mkPrefix (v4 100 64 0 0) 10.

Definition AllowedAddress (address : Addr) : bool :=
  if negb (addr_IsValid address) || addr_IsUnspecified address || addr_IsLoopback address ||
     addr_IsLinkLocalUnicast address || addr_IsMulticast address
  then false
  else if addr_IsPrivate address then true
  else addr_Is4 address && pfx_Contains carrierGrade address.

Definition prefixesOverlap (left right : Prefix) : bool :=
  (addr_BitLen (pfx_Addr left) =? addr_BitLen (pfx_Addr right)) &&
  (pfx_Contains left (pfx_Addr right) || pfx_Contains right (pfx_Addr left)).

Definition unsafePrefixes : list Prefix :=
  [mkPrefix (v4 0 0 0 0) 8; mkPrefix (v4 127 0 0 0) 8; mkPrefix (v4 169 254 0 0) 16;
   mkPrefix (v4 224 0 0 0) 4; mkPrefix (mkAddr 128 0 "") 128; mkPrefix (mkAddr 128 1 "") 128;
   mkPrefix (mkAddr 128 (Z.shiftl 65152 112) "") 10; mkPrefix (mkAddr 128 (Z.shiftl 65280 112) "") 8].

Definition allowedPrefix (prefix : Prefix) : bool :=
  AllowedAddress (pfx_Addr prefix) && forallb (fun unsafe => negb (prefixesOverlap prefix unsafe)) unsafePrefixes.

(** The sort callback of [normalizeCIDRs]. *)
Definition comparePrefix (left right : Prefix) : Z :=
  if negb (addr_BitLen (pfx_Addr left) =? addr_BitLen (pfx_Addr right))
  then addr_BitLen (pfx_Addr left) - addr_BitLen (pfx_Addr right)
  else if negb (pfx_Bits left =? pfx_Bits right) then pfx_Bits left - pfx_Bits right
  else addr_Compare (pfx_Addr left) (pfx_Addr right).

Definition covers (candidate existing : Prefix) : bool :=
  prefixesOverlap existing candidate && (pfx_Bits existing <=? pfx_Bits candidate).

Fixpoint keep_uncovered (kept prefixes : list Prefix) : list Prefix :=
  match prefixes with
  | [] => kept
  | candidate :: rest =>
      if existsb (covers candidate) kept then keep_uncovered kept rest
      else keep_uncovered (kept ++ [candidate]) rest
  end.

Record Spec := mkSpec {
  spec_Version : Z;
  PodCIDRs : list string;
  PodIPs : list string;
  ServiceCIDRs : list string;
  ServiceIPs : list string;
  DNSServer : string;
  ClusterDomains : list string
}.

#[export] Instance Spec_eq_dec : EqDecision Spec.
Proof. solve_decision. Defined.

Definition Version : Z := 2.
Definition MaximumItems : Z := 4096.
Definition MaximumJSONSize : Z := Z.shiftl 256 10.

Section networkspec.
Context `{NetipPackage, JsonCodec Spec, JsonCodec unit, HashPackage}.

(** The first loop of [normalizeCIDRs]; the set [seen] holds exactly [prefixes]. *)
Fixpoint parse_cidrs (kind : string) (prefixes : list Prefix) (values : list string) : result (list Prefix) :=
  match values with
  | [] => Ok prefixes
  | raw :: rest =>
      match netip_ParsePrefix (TrimSpace raw) with
      | None => Err (NewError ("NetworkSpec " +:+ kind +:+ " CIDR is invalid"))
      | Some prefix =>
          let prefix := pfx_Masked prefix in
          let minimumBits := if addr_Is4 (pfx_Addr prefix) then 8 else 32 in
          if (pfx_Bits prefix <? minimumBits) || negb (allowedPrefix prefix)
          then Err (NewError ("NetworkSpec " +:+ kind +:+ " CIDR is unsafe"))
          else if bool_decide (prefix ∈ prefixes) then parse_cidrs kind prefixes rest
          else parse_cidrs kind (prefixes ++ [prefix]) rest
      end
  end.

Definition normalizeCIDRs (values : list string) (kind : string) : result (list string) :=
  prefixes ← parse_cidrs kind [] values;
  Ok (map Prefix_String (keep_uncovered [] (SortFunc comparePrefix prefixes))).

(** The loop of [normalizeAddresses]; the set [seen] holds exactly [result]. *)
Fixpoint parse_addresses (kind : string) (result : list string) (values : list string)
    : Prelude.result (list string) :=
  match values with
  | [] => Ok result
  | raw :: rest =>
      match netip_ParseAddr (TrimSpace raw) with
      | None => Err (NewError ("NetworkSpec " +:+ kind +:+ " IP is invalid"))
      | Some address =>
          if negb (AllowedAddress (addr_Unmap address))
          then Err (NewError ("NetworkSpec " +:+ kind +:+ " IP is invalid"))
          else
            let value := Addr_String (addr_Unmap address) in
            if bool_decide (value ∈ result) then parse_addresses kind result rest
            else parse_addresses kind (result ++ [value]) rest
      end
  end.

Definition normalizeAddresses (values : list string) (kind : string) : Prelude.result (list string) :=
  result ← parse_addresses kind [] values; Ok (SortFunc compareString result).

(** The DNS server and the Service addresses with it. *)
Definition normalize_dns (server : string) (serviceIPs : list string) : result (string * list string) :=
  if bool_decide (TrimSpace server = "") then Ok ("", serviceIPs)
  else match netip_ParseAddr (TrimSpace server) with
       | None => Err (NewError "NetworkSpec DNS server is invalid")
       | Some address =>
           if negb (AllowedAddress (addr_Unmap address)) then Err (NewError "NetworkSpec DNS server is invalid")
           else
             let dnsServer := Addr_String (addr_Unmap address) in
             Ok (dnsServer, if bool_decide (dnsServer ∈ serviceIPs) then serviceIPs
                            else SortFunc compareString (serviceIPs ++ [dnsServer]))
       end.

(** The overlap check; [MustParsePrefix] panics ([None]) on a text that is not a
    prefix. *)
Fixpoint service_overlaps (pod : Prefix) (services : list string) : option bool :=
  match services with
  | [] => Some false
  | serviceRaw :: rest =>
      service ← netip_ParsePrefix serviceRaw;
      if prefixesOverlap pod service then Some true else service_overlaps pod rest
  end.

Fixpoint pod_overlaps (pods services : list string) : option bool :=
  match pods with
  | [] => Some false
  | podRaw :: rest =>
      pod ← netip_ParsePrefix podRaw;
      overlap ← service_overlaps pod services;
      if overlap : bool then Some true else pod_overlaps rest services
  end.

Definition item_count (s : Spec) : Z :=
  len (PodCIDRs s) + len (PodIPs s) + len (ServiceCIDRs s) + len (ServiceIPs s) + len (ClusterDomains s).

(** [Normalize] up to the overlap check. *)
Definition normalize_fields (input : Spec) : result Spec :=
  let version := if spec_Version input =? 0 then Version else spec_Version input in
  _ ← require (version =? Version) (NewError ("unsupported NetworkSpec version " +:+ pretty version));
  _ ← require (negb (MaximumItems <? item_count input)) (NewError "NetworkSpec contains too many items");
  podCIDRs ← normalizeCIDRs (PodCIDRs input) "Pod";
  podIPs ← normalizeAddresses (PodIPs input) "Pod";
  serviceCIDRs ← normalizeCIDRs (ServiceCIDRs input) "Service";
  serviceIPs ← normalizeAddresses (ServiceIPs input) "Service";
  '(dnsServer, serviceIPs) ← normalize_dns (DNSServer input) serviceIPs;
  domains ← NormalizeClusterDomains (ClusterDomains input);
  _ ← require (negb (len podCIDRs + len podIPs + len serviceCIDRs + len serviceIPs =? 0))
        (NewError "NetworkSpec contains no routable cluster network");
  Ok (mkSpec Version podCIDRs podIPs serviceCIDRs serviceIPs dnsServer domains).

Definition Normalize (input : Spec) : option (result Spec) :=
  match normalize_fields input with
  | Err e => Some (Err e)
  | Ok result =>
      overlap ← pod_overlaps (PodCIDRs result) (ServiceCIDRs result);
      Some (if overlap : bool then Err (NewError "NetworkSpec Pod and Service CIDRs overlap")
            else if MaximumJSONSize <? len (json_Marshal result) then Err (NewError "NetworkSpec is too large")
            else Ok result)
  end.

Definition CanonicalJSON (input : Spec) : option (result bytes) :=
  normalized ← Normalize input; Some (normalized ← normalized; Ok (json_Marshal normalized)).

Definition Hash (input : Spec) : option (result string) :=
  contents ← CanonicalJSON input; Some (contents ← contents; Ok (hex_EncodeToString (sha256_Sum256 contents))).

(** [decoder.Decode(&struct{}{}) == nil] decodes the rest of the input into an
    empty struct. *)
Definition Decode (contents : bytes) : option (result Spec) :=
  if (len contents =? 0) || (MaximumJSONSize <? len contents)
  then Some (Err (NewError "stored NetworkSpec is invalid"))
  else match json_Decode (A:=Spec) contents with
       | None => Some (Err (NewError "decode stored NetworkSpec"))
       | Some (spec, rest) =>
           match json_Decode (A:=unit) rest with
           | Some _ => Some (Err (NewError "stored NetworkSpec contains trailing JSON"))
           | None => Normalize spec
           end
       end.

End networkspec.
