(* ===== verification/NetworkSpecFacts.v ===== *)
(** * Correctness of cluster networks

    What [Normalize] guarantees of its result: the networks are those of the
    input, disjoint, private and canonical. *)

From S2P Require Import Prelude GoLib GoText GoSort External Netip NetworkSpec.
From S2P Require Import ConcreteEnv ConcreteNetip.
From Stdlib Require Import Sorting.Sorted.

(** ** Prefixes *)

Definition pfx_good (p : Prefix) : Prop :=
  pfx_wf p /\ pfx_masked p /\ (if addr_Is4 (pfx_Addr p) then 8 else 32) <= pfx_Bits p /\ allowedPrefix p = true.

(** An address of some prefix. *)
Definition in_prefixes (ps : list Prefix) (a : Addr) : Prop := exists p, p ∈ ps /\ pfx_Contains p a = true.

Definition disjoint_prefixes (ps : list Prefix) : Prop :=
  forall p q, p ∈ ps -> q ∈ ps -> prefixesOverlap p q = true -> p = q.

Lemma prefixesOverlap_sym p q : prefixesOverlap p q = prefixesOverlap q p.
Proof. unfold prefixesOverlap. by rewrite Z.eqb_sym, orb_comm. Qed.

Lemma prefixesOverlap_refl p : pfx_wf p -> prefixesOverlap p p = true.
Proof. intros W. unfold prefixesOverlap. by rewrite Z.eqb_refl, (pfx_Contains_self p W). Qed.

(** Two prefixes overlap when they share an address. *)
Lemma prefixesOverlap_spec p q :
  pfx_wf p -> pfx_wf q ->
  prefixesOverlap p q = true <->
  exists a, addr_zone a = "" /\ pfx_Contains p a = true /\ pfx_Contains q a = true.
Proof.
  intros Wp Wq. unfold prefixesOverlap. rewrite andb_true_iff, orb_true_iff, Z.eqb_eq. split.
  - intros (_ & [Hc|Hc]).
    + exists (pfx_Addr q). split; [by destruct Wq as (_ & ? & _)|]. split; [done|by apply pfx_Contains_self].
    + exists (pfx_Addr p). split; [by destruct Wp as (_ & ? & _)|]. split; [by apply pfx_Contains_self|done].
  - intros (a & Hz & Hp & Hq). split.
    + apply pfx_Contains_spec in Hp as [Hp _]; [|done..]. apply pfx_Contains_spec in Hq as [Hq _]; [|done..]. congruence.
    + destruct (Z.le_ge_cases (pfx_Bits p) (pfx_Bits q)); [left|right].
      * by apply (pfx_nested p q a).
      * by apply (pfx_nested q p a).
Qed.

Lemma covers_covers p q a :
  pfx_wf p -> pfx_wf q -> addr_zone a = "" -> covers q p = true -> pfx_Contains q a = true -> pfx_Contains p a = true.
Proof.
  unfold covers. intros Wp Wq Hz [Ho Hb]%andb_true_iff Hq. apply Z.leb_le in Hb.
  apply (prefixesOverlap_spec p q Wp Wq) in Ho as (x & Hzx & Hpx & Hqx).
  apply (pfx_covers p q a); [done..| |done]. by apply (pfx_nested p q x).
Qed.

Lemma comparePrefix_laws : cmp_laws (fun _ => True) comparePrefix.
Proof.
  split.
  - intros x y _ _. unfold comparePrefix.
    pose proof (cmp_anti addr_Compare_laws (x:=pfx_Addr x) (y:=pfx_Addr y) I I).
    repeat case_match_eqn; bool_hyps; lia.
  - intros x y z _ _ _. unfold comparePrefix.
    pose proof (cmp_trans addr_Compare_laws (x:=pfx_Addr x) (y:=pfx_Addr y) (z:=pfx_Addr z) I I I).
    repeat case_match_eqn; bool_hyps; lia.
Qed.

Lemma comparePrefix_eq p q : comparePrefix p q = 0 -> p = q.
Proof.
  unfold comparePrefix. destruct p as [a b], q as [a' b']. cbn [pfx_Addr pfx_Bits].
  repeat case_match_eqn; bool_hyps; intros Hc; [lia..|]. apply addr_Compare_eq in Hc. by subst.
Qed.

(** Prefixes sorted as [normalizeCIDRs] sorts them. *)
Abbreviation prefix_sorted := (StronglySorted (fun p q => comparePrefix p q < 0)).

Lemma comparePrefix_bits p q :
  comparePrefix p q < 0 -> addr_BitLen (pfx_Addr p) = addr_BitLen (pfx_Addr q) -> pfx_Bits p <= pfx_Bits q.
Proof. unfold comparePrefix. intros Hc He. rewrite He, Z.eqb_refl in Hc. cbn [negb] in Hc. case_match_eqn; bool_hyps; lia. Qed.

Lemma overlap_covers p q : comparePrefix p q < 0 -> prefixesOverlap p q = true -> covers q p = true.
Proof.
  unfold covers. intros Hc Ho. rewrite Ho. apply andb_true_iff in Ho as [Hl _]. apply Z.eqb_eq in Hl.
  apply Z.leb_le. by apply comparePrefix_bits.
Qed.

(** ** The kept prefixes *)

Record kept_ok (kept : list Prefix) : Prop := {
  kept_wf : Forall pfx_good kept;
  kept_sorted : prefix_sorted kept;
  kept_disjoint : disjoint_prefixes kept
}.

Lemma kept_ok_snoc kept c :
  kept_ok kept -> pfx_good c -> Forall (fun p => comparePrefix p c < 0) kept ->
  existsb (covers c) kept = false -> kept_ok (kept ++ [c]).
Proof.
  intros [Kw Ks Kd] Hc Hlt Hn. split.
  - apply Forall_app. by split; [|constructor].
  - by apply StronglySorted_app.
  - assert (Hno : forall p, p ∈ kept -> prefixesOverlap p c = false).
    { intros p Hp. destruct (prefixesOverlap p c) eqn:E; [|done]. rewrite Forall_forall in Hlt.
      assert (covers c p = true) as Hcov by (by apply overlap_covers; [apply Hlt|]).
      assert (existsb (covers c) kept = true); [|congruence].
      apply existsb_exists. exists p. by split; [apply list_elem_of_In|]. }
    intros p q [Hp|Hp%list_elem_of_singleton]%elem_of_app [Hq|Hq%list_elem_of_singleton]%elem_of_app Ho.
    + by apply Kd.
    + subst q. by rewrite Hno in Ho.
    + subst p. rewrite prefixesOverlap_sym, Hno in Ho; done.
    + by subst.
Qed.

Lemma keep_uncovered_spec prefixes : forall kept,
  kept_ok kept -> Forall pfx_good prefixes -> prefix_sorted prefixes ->
  Forall (fun p => Forall (fun c => comparePrefix p c < 0) prefixes) kept ->
  kept_ok (keep_uncovered kept prefixes) /\
  (forall a, addr_zone a = "" ->
     in_prefixes (keep_uncovered kept prefixes) a <-> in_prefixes kept a \/ in_prefixes prefixes a).
Proof.
  induction prefixes as [|c rest IH]; intros kept K G S Hlt.
  { split; [done|]. intros a _. cbn [keep_uncovered]. split; [by left|]. intros [Ha|(p & Hp & _)]; [done|].
    by apply elem_of_nil in Hp. }
  apply Forall_cons in G as [Gc Gr]. inversion S as [|? ? Sr Hc]; subst.
  assert (Hlt' : Forall (fun p => Forall (fun c => comparePrefix p c < 0) rest) kept).
  { eapply Forall_impl; [exact Hlt|]. cbn beta. by intros p [_ ?]%Forall_cons. }
  assert (Hltc : Forall (fun p => comparePrefix p c < 0) kept).
  { eapply Forall_impl; [exact Hlt|]. cbn beta. by intros p [? _]%Forall_cons. }
  assert (Hin : forall a, in_prefixes (c :: rest) a <-> pfx_Contains c a = true \/ in_prefixes rest a).
  { intros a. unfold in_prefixes. setoid_rewrite elem_of_cons. split.
    - intros (p & [->|Hp] & Ha); [by left|right; by exists p].
    - intros [Ha|(p & Hp & Ha)]; [exists c|exists p]; tauto. }
  cbn [keep_uncovered]. destruct (existsb (covers c) kept) eqn:E.
  - destruct (IH kept K Gr Sr Hlt') as [K' Hc']. split; [done|]. intros a Ha. rewrite Hc' by done. rewrite Hin.
    apply existsb_exists in E as (p & Hp%list_elem_of_In & Hcov).
    assert (pfx_Contains c a = true -> in_prefixes kept a); [|tauto].
    intros Hca. exists p. split; [done|]. destruct K as [Kw _ _]. rewrite Forall_forall in Kw.
    apply (covers_covers p c a); [by apply Kw|by apply Gc|done..].
  - destruct (IH (kept ++ [c])) as [K' Hc']; [by apply kept_ok_snoc|done..| |].
    { apply Forall_app. split; [done|by repeat constructor]. }
    split; [done|]. intros a Ha. rewrite Hc' by done. rewrite Hin.
    assert (in_prefixes (kept ++ [c]) a <-> in_prefixes kept a \/ pfx_Contains c a = true); [|tauto].
    unfold in_prefixes. setoid_rewrite elem_of_app. setoid_rewrite list_elem_of_singleton. split.
    + intros (p & [Hp| ->] & Hpa); [left; by exists p|by right].
    + intros [(p & Hp & Hpa)|Hca]; [exists p|exists c]; tauto.
Qed.

(** Prefixes that are kept are kept again. *)
Lemma keep_uncovered_id prefixes : forall kept,
  NoDup (kept ++ prefixes) -> disjoint_prefixes (kept ++ prefixes) -> keep_uncovered kept prefixes = kept ++ prefixes.
Proof.
  induction prefixes as [|c rest IH]; intros kept Hnd Hd; cbn [keep_uncovered]; [by rewrite app_nil_r|].
  destruct (existsb (covers c) kept) eqn:E.
  - exfalso. apply existsb_exists in E as (p & Hp%list_elem_of_In & Hcov). apply andb_true_iff in Hcov as [Ho _].
    assert (p = c) as -> by (apply Hd; [..|done]; apply elem_of_app; [by left|right; left]).
    apply NoDup_app in Hnd as (_ & Hn & _). apply (Hn c Hp). left.
  - rewrite IH; rewrite <- app_assoc; done.
Qed.

(** ** The loops of [Normalize] *)

Section facts.
Context `{NP : NetipPackage} {NL : NetipLaws}.

(** The address is of one of the networks the texts denote. *)
Definition in_cidrs (values : list string) (a : Addr) : Prop :=
  exists raw p, raw ∈ values /\ netip_ParsePrefix (TrimSpace raw) = Some p /\ pfx_Contains p a = true.

Lemma in_cidrs_cons raw rest a p :
  netip_ParsePrefix (TrimSpace raw) = Some p ->
  in_cidrs (raw :: rest) a <-> pfx_Contains p a = true \/ in_cidrs rest a.
Proof.
  intros Hp. unfold in_cidrs. setoid_rewrite elem_of_cons. split.
  - intros (raw' & q & [->|Hr] & Hq & Ha); [left; congruence|right; by exists raw', q].
  - intros [Ha|(raw' & q & Hr & Hq & Ha)]; [exists raw, p|exists raw', q]; tauto.
Qed.

Lemma in_prefixes_app l k a : in_prefixes (l ++ k) a <-> in_prefixes l a \/ in_prefixes k a.
Proof.
  unfold in_prefixes. setoid_rewrite elem_of_app. split.
  - intros (p & [Hp|Hp] & Ha); [left|right]; by exists p.
  - intros [(p & Hp & Ha)|(p & Hp & Ha)]; exists p; tauto.
Qed.

Lemma in_prefixes_one p a : in_prefixes [p] a <-> pfx_Contains p a = true.
Proof.
  unfold in_prefixes. setoid_rewrite list_elem_of_singleton. split; [by intros (q & -> & ?)|intros Ha; by exists p].
Qed.

Lemma in_prefixes_perm l k a : Permutation l k -> in_prefixes l a <-> in_prefixes k a.
Proof.
  intros Hp. split; intros (p & Hin & Ha); exists p; (split; [|done]); [by rewrite <- Hp|by rewrite Hp].
Qed.

Lemma parse_cidrs_spec kind values : forall acc out,
  parse_cidrs kind acc values = Ok out -> Forall pfx_good acc -> NoDup acc ->
  Forall pfx_good out /\ NoDup out /\
  (forall a, in_prefixes out a <-> in_prefixes acc a \/ in_cidrs values a).
Proof.
  induction values as [|raw rest IH]; intros acc out E Ga Na; cbn [parse_cidrs] in E.
  { inv_ok. split; [done|]. split; [done|]. intros a. split; [by left|]. intros [Ha|(r & p & Hr & _)]; [done|].
    by apply elem_of_nil in Hr. }
  destruct (netip_ParsePrefix (TrimSpace raw)) as [p|] eqn:Ep; [|discriminate E].
  pose proof (parse_prefix_wf _ _ Ep) as Wp. pose proof (pfx_Masked_wf p Wp) as [Wm Mm].
  set (m := pfx_Masked p) in *. cbn zeta in E. inv_ok. bool_hyps.
  assert (Gm : pfx_good m) by (split; [done|split; [done|split; [lia|done]]]).
  destruct (bool_decide (m ∈ acc)) eqn:Em.
  - apply bool_decide_eq_true in Em. destruct (IH _ _ E Ga Na) as (G & N & Hin). split; [done|]. split; [done|].
    intros a. rewrite Hin, (in_cidrs_cons raw rest a p Ep). rewrite <- (pfx_Contains_Masked p a Wp). fold m.
    assert (pfx_Contains m a = true -> in_prefixes acc a) by (intros; by exists m). tauto.
  - apply bool_decide_eq_false in Em. destruct (IH _ _ E) as (G & N & Hin).
    + apply Forall_app. by split; [|constructor].
    + apply NoDup_app. split; [done|]. split; [|apply NoDup_singleton]. intros x Hx ->%list_elem_of_singleton. done.
    + split; [done|]. split; [done|]. intros a.
      rewrite Hin, (in_cidrs_cons raw rest a p Ep), in_prefixes_app, in_prefixes_one, <- (pfx_Contains_Masked p a Wp).
      tauto.
Qed.

(** Good prefixes are read back as they are. *)
Lemma parse_cidrs_strings kind ps : forall acc,
  Forall pfx_good ps -> NoDup (acc ++ ps) -> parse_cidrs kind acc (map Prefix_String ps) = Ok (acc ++ ps).
Proof.
  induction ps as [|p ps IH]; intros acc G N; cbn [map parse_cidrs]; [by rewrite app_nil_r|].
  apply Forall_cons in G as [(Wp & Mp & Bp & Ap) G]. unfold pfx_masked in Mp.
  rewrite prefix_string_trimmed, parse_prefix_string, Mp, Ap by done. cbn zeta.
  replace (pfx_Bits p <? _) with false by (symmetry; apply Z.ltb_ge; lia). cbn [orb negb].
  rewrite bool_decide_eq_false_2.
  - rewrite IH; rewrite <- ?app_assoc; done.
  - intros Hp. apply NoDup_app in N as (_ & Hn & _). apply (Hn p Hp). left.
Qed.

Record cidrs_ok (values out : list string) (ps : list Prefix) : Prop := {
  co_out : out = map Prefix_String ps;
  co_kept : kept_ok ps;
  co_cover : forall a, addr_zone a = "" -> in_prefixes ps a <-> in_cidrs values a
}.

Lemma prefix_sorted_NoDup ps : prefix_sorted ps -> NoDup ps.
Proof.
  induction 1 as [|p ps S IH Hp]; constructor; [|done]. intros Hin. rewrite Forall_forall in Hp.
  specialize (Hp p Hin). rewrite (cmp_refl (P:=fun _ => True) _ p comparePrefix_laws I) in Hp. lia.
Qed.

Lemma normalizeCIDRs_ok values kind out : normalizeCIDRs values kind = Ok out -> exists ps, cidrs_ok values out ps.
Proof.
  unfold normalizeCIDRs. intros E. inv_ok. rename a into prefixes.
  destruct (parse_cidrs_spec kind values [] prefixes) as (G & N & Hin); [done|by constructor|constructor|].
  pose proof (SortFunc_perm comparePrefix prefixes) as Hp.
  destruct (keep_uncovered_spec (SortFunc comparePrefix prefixes) []) as [K Hc].
  - split; [constructor|constructor|]. by intros p q ?%elem_of_nil.
  - by rewrite Hp.
  - apply SortFunc_strict; [apply comparePrefix_laws|apply comparePrefix_eq|done].
  - constructor.
  - eexists. split; [done|done|]. intros a Ha. rewrite Hc by done.
    rewrite (in_prefixes_perm _ _ a Hp), Hin. split; [|intros Hv; right; by right].
    intros [(p & ?%elem_of_nil & _)|[(p & ?%elem_of_nil & _)|Hv]]; done.
Qed.

(** Normalizing a second time changes nothing. *)
Lemma normalizeCIDRs_again values kind out ps :
  cidrs_ok values out ps -> normalizeCIDRs out kind = Ok out.
Proof.
  intros [-> [G S D] _]. pose proof (prefix_sorted_NoDup ps S) as N. unfold normalizeCIDRs.
  rewrite parse_cidrs_strings by done. cbn [app mbind result_bind]. rewrite SortFunc_id by done.
  by rewrite keep_uncovered_id.
Qed.

(** ** Addresses *)

(** A text of a normalized address list. *)
Definition addr_text (s : string) : Prop :=
  exists u, s = Addr_String u /\ readable u /\ addr_Unmap u = u /\ AllowedAddress u = true.

Lemma addr_Unmap_readable raw a : netip_ParseAddr (TrimSpace raw) = Some a -> readable (addr_Unmap a).
Proof.
  intros E. pose proof (parse_addr_wf _ _ E) as W. split; [by apply addr_Unmap_wf|].
  unfold addr_Unmap. destruct (addr_Is4In6 a); [by left|]. right. by exists raw.
Qed.

Lemma addr_text_parse s : addr_text s -> exists u,
  netip_ParseAddr (TrimSpace s) = Some u /\ addr_Unmap u = u /\ AllowedAddress u = true /\ s = Addr_String u.
Proof. intros (u & -> & R & Hu & Ha). exists u. by rewrite addr_string_trimmed, parse_addr_string. Qed.

Lemma parse_addresses_spec kind values : forall acc out,
  parse_addresses kind acc values = Ok out -> Forall addr_text acc -> NoDup acc -> Forall addr_text out /\ NoDup out.
Proof.
  induction values as [|raw rest IH]; intros acc out E Ga Na; cbn [parse_addresses] in E; [by inv_ok|].
  destruct (netip_ParseAddr (TrimSpace raw)) as [a|] eqn:Ea; [|discriminate E]. cbn zeta in E. inv_ok. bool_hyps.
  destruct (bool_decide (Addr_String (addr_Unmap a) ∈ acc)) eqn:Em; [by apply (IH acc)|]. apply bool_decide_eq_false in Em.
  apply (IH _ _ E).
  - apply Forall_app. split; [done|]. constructor; [|done]. exists (addr_Unmap a).
    split; [done|]. split; [by apply (addr_Unmap_readable raw)|]. by rewrite addr_Unmap_idem.
  - apply NoDup_app. split; [done|]. split; [|apply NoDup_singleton]. by intros x Hx ->%list_elem_of_singleton.
Qed.

Lemma parse_addresses_texts kind texts : forall acc,
  Forall addr_text texts -> NoDup (acc ++ texts) -> parse_addresses kind acc texts = Ok (acc ++ texts).
Proof.
  induction texts as [|s texts IH]; intros acc G N; cbn [parse_addresses]; [by rewrite app_nil_r|].
  apply Forall_cons in G as [Gs G]. destruct (addr_text_parse s Gs) as (u & -> & -> & -> & <-). cbn [negb]. cbn zeta.
  rewrite bool_decide_eq_false_2.
  - rewrite IH; rewrite <- ?app_assoc; done.
  - intros Hs. apply NoDup_app in N as (_ & Hn & _). apply (Hn s Hs). left.
Qed.

Definition addresses_ok (out : list string) : Prop :=
  Forall addr_text out /\ NoDup out /\ StronglySorted (fun a b => compareString a b < 0) out.

Lemma sorted_texts l : Forall addr_text l -> NoDup l -> addresses_ok (SortFunc compareString l).
Proof.
  intros G N. split; [by rewrite SortFunc_perm|]. split; [by rewrite SortFunc_perm|]. by apply compareString_strict.
Qed.

Lemma normalizeAddresses_ok values kind out : normalizeAddresses values kind = Ok out -> addresses_ok out.
Proof.
  unfold normalizeAddresses. intros E. inv_ok.
  match goal with Hp : parse_addresses _ _ _ = Ok _ |- _ =>
    destruct (parse_addresses_spec _ _ _ _ Hp) as [G N]; [constructor..|] end.
  by apply sorted_texts.
Qed.

Lemma normalizeAddresses_again kind out : addresses_ok out -> normalizeAddresses out kind = Ok out.
Proof.
  intros (G & N & S). unfold normalizeAddresses. rewrite parse_addresses_texts by done. cbn [app mbind result_bind].
  by rewrite SortFunc_id.
Qed.

Lemma addr_text_nonempty s : addr_text s -> s <> "".
Proof.
  intros (u & -> & R & _) E. pose proof (parse_addr_string u R) as Hp. rewrite E, parse_addr_empty in Hp. done.
Qed.

Lemma normalize_dns_ok server ips d ips' :
  normalize_dns server ips = Ok (d, ips') -> addresses_ok ips ->
  addresses_ok ips' /\ normalize_dns d ips' = Ok (d, ips') /\ (d = "" \/ d ∈ ips') /\ incl ips ips'.
Proof.
  unfold normalize_dns at 1. intros E Hok. destruct (bool_decide _).
  { assert (d = "" /\ ips' = ips) as [-> ->] by (split; congruence). split; [done|]. split; [done|].
    split; [by left|apply incl_refl]. }
  destruct (netip_ParseAddr (TrimSpace server)) as [a|] eqn:Ea; [|discriminate E].
  destruct (AllowedAddress (addr_Unmap a)) eqn:Eall; [|discriminate E]. cbn zeta in E. cbn [negb] in E.
  assert (Ht : addr_text (Addr_String (addr_Unmap a))).
  { exists (addr_Unmap a). split; [done|]. split; [by apply (addr_Unmap_readable server)|]. by rewrite addr_Unmap_idem. }
  set (t := Addr_String (addr_Unmap a)) in *.
  assert (d = t) as -> by congruence.
  assert (Hips : addresses_ok ips' /\ t ∈ ips' /\ incl ips ips').
  { destruct (bool_decide (t ∈ ips)) eqn:Et.
    - assert (ips' = ips) as -> by congruence. apply bool_decide_eq_true in Et. split; [done|]. split; [done|apply incl_refl].
    - assert (ips' = SortFunc compareString (ips ++ [t])) as -> by congruence. apply bool_decide_eq_false in Et.
      destruct Hok as (G & N & S). split; [|split].
      + apply sorted_texts.
        * apply Forall_app. by split; [|constructor].
        * apply NoDup_app. split; [done|]. split; [|apply NoDup_singleton]. by intros x Hx ->%list_elem_of_singleton.
      + rewrite SortFunc_perm. apply elem_of_app. right. left.
      + intros x Hx. apply list_elem_of_In. rewrite SortFunc_perm. apply elem_of_app. left. by apply list_elem_of_In. }
  destruct Hips as (Hok' & Hin & Hincl). split; [done|]. split; [|split; [by right|done]].
  destruct (addr_text_parse t Ht) as (u & Hp & Hu & Hall & Es). unfold normalize_dns.
  rewrite bool_decide_eq_false_2, Hp, Hu, Hall; cbn [negb]; cbn zeta.
  - rewrite <- Es. by rewrite bool_decide_eq_true_2.
  - destruct Ht as (v & -> & R & _). rewrite addr_string_trimmed by done. intros E'.
    pose proof (parse_addr_string v R) as Hv. by rewrite E', parse_addr_empty in Hv.
Qed.
End facts.

(** * The guarantees of [Normalize]

    Cluster domains, and the theorems on normalized network snapshots. *)


(** ** Domains *)

Definition label_byte (b : byte) : bool := bool_decide (b = x2d) || asciiLowerAlphaNumeric b.
Definition domain_byte (b : byte) : bool := label_byte b || bool_decide (b = x2e).

Lemma removelast_last (rest : bytes) (x : byte) :
  rest <> [] -> rest = List.removelast rest ++ [List.last rest x].
Proof. apply List.app_removelast_last. Qed.

Lemma ValidLabel_bytes value : ValidLabel value = true ->
  string_to_bytes value <> [] /\ forallb label_byte (string_to_bytes value) = true.
Proof.
  unfold ValidLabel. destruct (string_to_bytes value) as [|first rest]; [done|]. intros Hv. split; [done|]. bool_hyps.
  assert (forall b, asciiLowerAlphaNumeric b = true -> label_byte b = true) as Hl.
  { intros b Hb. unfold label_byte. by rewrite Hb, orb_true_r. }
  cbn [forallb]. rewrite Hl by done. destruct rest as [|r rest]; [done|].
  rewrite (removelast_last (r :: rest) first), forallb_app by done. cbn [forallb andb].
  rewrite (Hl (List.last _ _)) by done. rewrite andb_true_r. done.
Qed.

Lemma split_bytes_forall (p : byte -> bool) sep l :
  forallb (forallb p) (split_bytes sep l) = true -> forallb (fun b => p b || bool_decide (b = sep)) l = true.
Proof.
  induction l as [|b l IH]; cbn [split_bytes forallb]; [done|]. destruct (decide (b = sep)) as [->|Hne].
  - cbn [forallb andb]. intros Hl. by rewrite bool_decide_eq_true_2, orb_true_r, IH.
  - destruct (split_bytes sep l) as [|q qs]; cbn [forallb] in *; intros Hl; bool_hyps.
    + by replace (p b) with true; rewrite ?IH.
    + replace (p b) with true by done. cbn [orb andb]. apply IH. by apply andb_true_iff.
Qed.

Lemma split_bytes_snoc_sep sep l : split_bytes sep (l ++ [sep]) = split_bytes sep l ++ [[]].
Proof.
  induction l as [|b l IH]; cbn [split_bytes app]; [by destruct (decide _)|].
  destruct (decide (b = sep)); [by rewrite IH|]. rewrite IH.
  destruct (split_bytes sep l) as [|q qs] eqn:E; [by apply split_bytes_not_nil in E|done].
Qed.

Lemma trim_dot_id l : (forall r, l <> r ++ [x2e]) -> trim_dot l = l.
Proof.
  intros Hl. unfold trim_dot. destruct (rev l) as [|b r] eqn:E; [done|].
  assert (Hb : b <> x2e).
  { intros ->. apply (Hl (rev r)). by rewrite <- (rev_involutive l), E. }
  destruct b; try done.
Qed.

Lemma lower_bytes_domain l : forallb domain_byte l = true -> lower_bytes l = l.
Proof.
  induction l as [|b l IH]; [done|]. cbn [forallb]. intros [Hb Hl]%andb_true_iff. specialize (IH Hl).
  destruct b; try discriminate Hb; cbn [lower_bytes]; rewrite IH; done.
Qed.

Lemma ValidClusterDomain_name d : ValidClusterDomain d = true -> d <> "" /\ domain_name d = d.
Proof.
  unfold ValidClusterDomain, Split. intros Hv. bool_hyps. split; [done|].
  assert (Hs : forall q, q ∈ split_bytes x2e (string_to_bytes d) -> q <> [] /\ forallb label_byte q = true).
  { intros q Hq. match goal with Hf : forallb ValidLabel _ = true |- _ => rewrite forallb_forall in Hf;
      specialize (Hf (bytes_to_string q)); rewrite <- (string_to_of_bytes q); apply ValidLabel_bytes, Hf end.
    by apply in_map, list_elem_of_In. }
  assert (Hall : forallb domain_byte (string_to_bytes d) = true).
  { apply (split_bytes_forall label_byte). apply forallb_forall. intros q Hq%list_elem_of_In. by apply Hs. }
  unfold domain_name. rewrite TrimSpace_visible.
  - rewrite lower_bytes_domain, trim_dot_id by done || (intros r E; rewrite E, split_bytes_snoc_sep in Hs;
      destruct (Hs []) as [Hn _]; [by apply elem_of_app; right; left|done]). apply string_of_to_bytes.
  - unfold all_bytes. revert Hall. rewrite !forallb_forall. intros Hall b Hb. specialize (Hall b Hb).
    by destruct b.
Qed.

Definition domains_ok (out : list string) : Prop := Forall (fun d => ValidClusterDomain d = true) out /\ NoDup out.

Lemma add_domain_ok out raw out' :
  add_domain out raw = Ok out' -> domains_ok out ->
  domains_ok out' /\ (domain_name raw = "" \/ domain_name raw ∈ out') /\ incl out out'.
Proof.
  unfold add_domain. cbn zeta. intros E [G N]. destruct (bool_decide (_ = "")) eqn:E0.
  { inv_ok. bool_hyps. split; [done|]. split; [by left|apply incl_refl]. }
  inv_ok. bool_hyps. destruct (bool_decide (_ ∈ out)) eqn:Em; inv_ok; bool_hyps.
  - split; [done|]. split; [by right|apply incl_refl].
  - split; [split|split].
    + apply Forall_app. by split; [|constructor].
    + apply NoDup_app. split; [done|]. split; [|apply NoDup_singleton]. by intros x Hx ->%list_elem_of_singleton.
    + right. apply elem_of_app. right. left.
    + by apply incl_appl, incl_refl.
Qed.

Lemma add_domains_ok domains : forall out out', add_domains out domains = Ok out' -> domains_ok out -> domains_ok out'.
Proof.
  induction domains as [|raw rest IH]; intros out out' E Hok; cbn [add_domains] in E; [by inv_ok|]. inv_ok.
  eapply IH; [exact E|]. eapply add_domain_ok; done.
Qed.

Lemma add_domains_again domains : forall out,
  domains_ok (out ++ domains) -> add_domains out domains = Ok (out ++ domains).
Proof.
  induction domains as [|d rest IH]; intros out [G N]; cbn [add_domains]; [by rewrite app_nil_r|].
  apply Forall_app in G as [Go Gr]. apply Forall_cons in Gr as [Gd Gr].
  destruct (ValidClusterDomain_name d Gd) as [Hne Hname]. unfold add_domain. cbn zeta. rewrite Hname.
  rewrite bool_decide_eq_false_2, Gd by done. cbn [negb]. rewrite bool_decide_eq_false_2.
  - cbn [mbind result_bind]. rewrite IH; rewrite <- app_assoc; [done|]. split; [|done]. apply Forall_app. by split; [|constructor].
  - intros Hd. apply NoDup_app in N as (_ & Hn & _). apply (Hn d Hd). left.
Qed.

Lemma default_domain_ok : domain_name DefaultClusterDomain = DefaultClusterDomain /\ DefaultClusterDomain <> "" /\
  ValidClusterDomain DefaultClusterDomain = true.
Proof. by vm_compute. Qed.

(** Normalized domains: the default domain, then distinct valid names. *)
Lemma NormalizeClusterDomains_ok domains out :
  NormalizeClusterDomains domains = Ok out -> domains_ok out /\ exists rest, out = DefaultClusterDomain :: rest.
Proof.
  unfold NormalizeClusterDomains. intros E. inv_ok.
  match goal with H1 : add_domains [] _ = Ok ?l, H2 : add_domain ?l _ = Ok ?k |- _ =>
    pose proof (add_domains_ok _ _ _ H1 (conj (Forall_nil_2 _) (NoDup_nil_2))) as Hok;
    pose proof (add_domain_ok _ _ _ H2 Hok) as (Hok' & Hin & _); clear H1 H2 Hok; rename k into out; rename Hok' into Hok end.
  destruct default_domain_ok as (Hname & Hne & Hv). rewrite Hname in Hin. destruct Hin as [Hin|Hin]; [done|].
  destruct Hok as [G N]. destruct out as [|d [|e out]]; cbn [default_first].
  - by apply elem_of_nil in Hin.
  - apply list_elem_of_singleton in Hin as <-. split; [by split|by exists []].
  - destruct (bool_decide_reflect (d = DefaultClusterDomain)) as [->|Hd]; [split; [by split|by eexists]|].
    split; [|by eexists].
    set (f := fun x => negb (bool_decide (x = DefaultClusterDomain))). split.
    + constructor; [done|]. rewrite Forall_forall in *. intros x [Hx _]%list_elem_of_In%filter_In.
      by apply G, list_elem_of_In.
    + apply NoDup_cons. split.
      * intros [_ Hx]%list_elem_of_In%filter_In. unfold f in Hx. by rewrite bool_decide_eq_true_2 in Hx.
      * apply NoDup_ListNoDup, List.NoDup_filter, NoDup_ListNoDup. done.
Qed.

Lemma NormalizeClusterDomains_again out rest :
  domains_ok out -> out = DefaultClusterDomain :: rest -> NormalizeClusterDomains out = Ok out.
Proof.
  intros Hok ->. unfold NormalizeClusterDomains. rewrite add_domains_again by done. cbn [app mbind result_bind].
  destruct default_domain_ok as (Hname & Hne & Hv). unfold add_domain. cbn zeta.
  rewrite Hname, Hv, bool_decide_eq_false_2 by done. cbn [negb]. rewrite bool_decide_eq_true_2 by left.
  cbn [mbind result_bind default_first]. destruct rest; [done|]. by rewrite bool_decide_eq_true_2.
Qed.

(** ** [Normalize] *)

Lemma AllowedAddress_private a :
  AllowedAddress a = true -> addr_IsPrivate a = true \/ (addr_Is4 a = true /\ pfx_Contains carrierGrade a = true).
Proof.
  unfold AllowedAddress. destruct (negb _ || _ || _ || _ || _); [done|]. destruct (addr_IsPrivate a); [by left|].
  intros [H4 Hc]%andb_true_iff. by right.
Qed.

(** An address with the leading bits of a private range is allowed. *)
Lemma AllowedAddress_v4 a :
  addr_BitLen a = 32 ->
  top_bits 8 a = 10 \/ top_bits 12 a = 2753 \/ top_bits 16 a = 49320 \/ top_bits 10 a = 401 ->
  addr_zone a = "" -> AllowedAddress a = true.
Proof.
  intros Hl Ht Hz. unfold AllowedAddress, addr_IsUnspecified, addr_IsLoopback, addr_IsLinkLocalUnicast, addr_IsMulticast,
    addr_IsPrivate, addr_IsValid, addr_Unmap, addr_Is4In6, starts, addr_Is4, addr_Is6, pfx_Contains.
  rewrite Hl, Hz. change (32 =? 0) with false. change (32 =? 32) with true. change (32 =? 128) with false. cbn [andb orb negb].
  rewrite Hl. change (32 =? 32) with true. change (32 =? 128) with false. cbn [andb orb negb].
  rewrite !orb_false_r. change (top_bits (pfx_Bits carrierGrade) (pfx_Addr carrierGrade)) with 401.
  change (addr_BitLen (pfx_Addr carrierGrade) =? 32) with true. change (pfx_Bits carrierGrade) with 10.
  rewrite (bool_decide_eq_true_2 ("" = "")) by done. cbn [andb].
  unfold top_bits in *. rewrite Hl in *.
  change (2 ^ (32 - 8)) with 16777216 in *. change (2 ^ (32 - 12)) with 1048576 in *.
  change (2 ^ (32 - 16)) with 65536 in *. change (2 ^ (32 - 10)) with 4194304 in *. change (2 ^ (32 - 4)) with 268435456 in *.
  assert (Hu : bool_decide (a = v4 0 0 0 0) || bool_decide (a = mkAddr 128 0 "") = false).
  { apply orb_false_iff. split; apply bool_decide_eq_false_2; intros ->; first [discriminate Hl|vm_compute in Ht; lia]. }
  rewrite Hu. set (v := addr_value a) in *. clear Hu.
  replace (v / 16777216 =? 127) with false by (symmetry; apply Z.eqb_neq; div_lia).
  replace (v / 65536 =? 43518) with false by (symmetry; apply Z.eqb_neq; div_lia).
  replace (v / 268435456 =? 14) with false by (symmetry; apply Z.eqb_neq; div_lia). cbn [orb].
  destruct Ht as [->|[->|[->| ->]]]; rewrite ?Z.eqb_refl, ?orb_true_r; try done.
  cbn [orb]. by destruct (_ || _).
Qed.

Lemma AllowedAddress_v6 a : addr_BitLen a = 128 -> top_bits 7 a = 126 -> 0 <= addr_value a -> AllowedAddress a = true.
Proof.
  intros Hl Ht Hv. unfold top_bits in Ht. rewrite Hl in Ht.
  assert (Hm : addr_Unmap a = a).
  { unfold addr_Unmap, addr_Is4In6, addr_Is6. rewrite Hl. change (128 =? 128) with true. cbn [andb].
    replace (addr_value a / 2 ^ 32 =? 65535) with false; [done|]. symmetry. apply Z.eqb_neq.
    change (2 ^ (128 - 7)) with (2 ^ 121) in Ht. change (2 ^ 121) with 2658455991569831745807614120560689152 in Ht.
    change (2 ^ 32) with 4294967296. div_lia. }
  unfold AllowedAddress, addr_IsUnspecified, addr_IsLoopback, addr_IsLinkLocalUnicast, addr_IsMulticast,
    addr_IsPrivate, addr_IsValid, starts, addr_Is4, addr_Is6, top_bits. rewrite Hm, Hl.
  change (128 =? 0) with false. change (128 =? 32) with false. change (128 =? 128) with true. cbn [andb orb negb].
  rewrite Ht. change (126 =? 126) with true.
  change (2 ^ (128 - 7)) with 2658455991569831745807614120560689152 in Ht.
  change (2 ^ (128 - 128)) with 1. change (2 ^ (128 - 10)) with 332306998946228968225951765070086144.
  change (2 ^ (128 - 8)) with 1329227995784915872903807060280344576.
  assert (Hu : bool_decide (a = v4 0 0 0 0) || bool_decide (a = mkAddr 128 0 "") = false).
  { apply orb_false_iff. split; apply bool_decide_eq_false_2; intros ->; first [discriminate Hl|vm_compute in Ht; lia]. }
  rewrite Hu. set (v := addr_value a) in *.
  replace (v / 1 =? 1) with false by (symmetry; apply Z.eqb_neq; div_lia).
  replace (v / 332306998946228968225951765070086144 =? 1018) with false by (symmetry; apply Z.eqb_neq; div_lia).
  by replace (v / 1329227995784915872903807060280344576 =? 255) with false by (symmetry; apply Z.eqb_neq; div_lia).
Qed.

(** The prefix 192.168.0.0 with 13, 14 or 15 bits, the only accepted IPv4
    prefixes that reach out of the private ranges. *)
Definition wide_private (p : Prefix) : Prop := pfx_Addr p = v4 192 168 0 0 /\ 13 <= pfx_Bits p <= 15.

Lemma masked_multiple p : pfx_wf p -> pfx_masked p ->
  exists k, addr_value (pfx_Addr p) = k * 2 ^ (addr_BitLen (pfx_Addr p) - pfx_Bits p).
Proof.
  unfold pfx_masked, pfx_Masked. intros _ Hm. exists (top_bits (pfx_Bits p) (pfx_Addr p)).
  apply (f_equal (fun q => addr_value (pfx_Addr q))) in Hm. cbn [pfx_Addr addr_value] in Hm. by rewrite <- Hm.
Qed.

(** The leading bits of the addresses of a prefix. *)
Lemma contained_top p a n :
  pfx_wf p -> addr_zone a = "" -> pfx_Contains p a = true -> 0 <= n <= pfx_Bits p ->
  top_bits n a = top_bits n (pfx_Addr p) /\ addr_BitLen a = addr_BitLen (pfx_Addr p).
Proof.
  intros W Hz Hc Hn. apply pfx_Contains_spec in Hc as [Hl Ht]; [|done..]. split; [|done].
  destruct W as (_ & _ & Hb). unfold top_bits in *. rewrite Hl in *.
  rewrite !(div_pow_le _ (addr_BitLen (pfx_Addr p) - pfx_Bits p) (addr_BitLen (pfx_Addr p) - n)) by lia. congruence.
Qed.

Lemma good_prefix_v4 p : pfx_good p -> addr_BitLen (pfx_Addr p) = 32 ->
  (8 <= pfx_Bits p /\ top_bits 8 (pfx_Addr p) = 10) \/ (12 <= pfx_Bits p /\ top_bits 12 (pfx_Addr p) = 2753) \/
  (16 <= pfx_Bits p /\ top_bits 16 (pfx_Addr p) = 49320) \/ (10 <= pfx_Bits p /\ top_bits 10 (pfx_Addr p) = 401) \/
  wide_private p.
Proof.
  intros (W & M & Hb & Ha) Hl. destruct (masked_multiple p W M) as [k Hk]. destruct W as (_ & Hz & Hbits).
  apply andb_true_iff in Ha as [Ha _]. apply AllowedAddress_private in Ha.
  unfold addr_Is4 in Hb. rewrite Hl in *. change (32 =? 32) with true in Hb. cbn iota in Hb.
  assert (Ht : top_bits 8 (pfx_Addr p) = 10 \/ top_bits 12 (pfx_Addr p) = 2753 \/ top_bits 16 (pfx_Addr p) = 49320 \/
               top_bits 10 (pfx_Addr p) = 401).
  { destruct Ha as [Ha|[_ Ha]].
    - unfold addr_IsPrivate, addr_Unmap, addr_Is4In6, addr_Is6, addr_Is4 in Ha. rewrite Hl in Ha.
      change (32 =? 128) with false in Ha. change (32 =? 32) with true in Ha. cbn [andb orb] in Ha. cbn zeta in Ha.
      rewrite Hl in Ha. change (32 =? 128) with false in Ha. change (32 =? 32) with true in Ha. cbn [andb] in Ha.
      rewrite orb_false_r, !orb_true_iff, !Z.eqb_eq in Ha. tauto.
    - unfold pfx_Contains in Ha. bool_hyps. right. right. right. symmetry.
      change 401 with (top_bits (pfx_Bits carrierGrade) (pfx_Addr carrierGrade)). done. }
  unfold wide_private. unfold top_bits in *. rewrite Hl in *.
  change (2 ^ (32 - 8)) with 16777216 in *. change (2 ^ (32 - 12)) with 1048576 in *.
  change (2 ^ (32 - 16)) with 65536 in *. change (2 ^ (32 - 10)) with 4194304 in *.
  destruct (Z_le_gt_dec 16 (pfx_Bits p)) as [|Hlt]; [destruct Ht as [?|[?|[?|?]]]; lia|].
  assert (Hcases : pfx_Bits p = 8 \/ pfx_Bits p = 9 \/ pfx_Bits p = 10 \/ pfx_Bits p = 11 \/ pfx_Bits p = 12 \/
    pfx_Bits p = 13 \/ pfx_Bits p = 14 \/ pfx_Bits p = 15) by lia.
  assert (Hwide : addr_value (pfx_Addr p) = 3232235520 -> pfx_Addr p = v4 192 168 0 0).
  { intros Hv. by apply addr_eq. }
  destruct Hcases as [Hc|[Hc|[Hc|[Hc|[Hc|[Hc|[Hc|Hc]]]]]]]; rewrite Hc in *; vm_compute (2 ^ _) in Hk;
    destruct Ht as [Ht|[Ht|[Ht|Ht]]]; first [left; split; [lia|exact Ht] | right; left; split; [lia|exact Ht]
      | do 3 right; left; split; [lia|exact Ht] | do 4 right; split; [apply Hwide; div_lia|lia] | exfalso; div_lia].
Qed.

(** Every address of an accepted prefix may be dialled. *)
Lemma good_prefix_private p a :
  pfx_good p -> addr_Is4In6 (pfx_Addr p) = false -> addr_wf a -> addr_zone a = "" -> pfx_Contains p a = true ->
  AllowedAddress a = true \/ wide_private p.
Proof.
  intros G H46 Wa Hz Hc. pose proof G as (W & M & Hb & Ha).
  destruct W as ((Hl & Hv) & Hzp & Hbits). destruct Hl as [Hl|Hl].
  - destruct (good_prefix_v4 p G Hl) as [[Hn Ht]|[[Hn Ht]|[[Hn Ht]|[[Hn Ht]|Hw]]]]; [left..|by right];
      (match type of Ht with top_bits ?n _ = _ => destruct (contained_top p a n) as [Ht' Hl']; [by split; [split; [by rewrite Hl; left|]|]|done|done|lia|] end;
       apply AllowedAddress_v4; [congruence|rewrite Ht'; tauto|done]).
  - left. destruct (contained_top p a 7) as [Ht Hl']; [by split; [split; [by rewrite Hl; right|]|]|done|done| |].
    + unfold addr_Is4 in Hb. rewrite Hl in Hb. change (128 =? 32) with false in Hb. cbn iota in Hb. lia.
    + apply AllowedAddress_v6; [congruence| |by destruct Wa as [_ [? _]]]. rewrite Ht.
      apply andb_true_iff in Ha as [Ha _]. apply AllowedAddress_private in Ha as [Ha|[Ha _]].
      * unfold addr_IsPrivate, addr_Unmap in Ha. rewrite H46 in Ha. unfold addr_Is4, addr_Is6 in Ha. rewrite Hl in Ha.
        change (128 =? 32) with false in Ha. cbn [andb orb] in Ha. bool_hyps. done.
      * unfold addr_Is4 in Ha. rewrite Hl in Ha. done.
Qed.

Section normalize.
Context `{NP : NetipPackage} `{JS : JsonCodec Spec} `{JU : JsonCodec unit} `{HP : HashPackage} {NL : NetipLaws}.

(** What is known of the parts of a normalized snapshot. *)
Record spec_ok (input spec : Spec) (pods services : list Prefix) : Prop := {
  so_version : spec_Version spec = Version;
  so_pods : cidrs_ok (PodCIDRs input) (PodCIDRs spec) pods;
  so_services : cidrs_ok (ServiceCIDRs input) (ServiceCIDRs spec) services;
  so_podIPs : addresses_ok (PodIPs spec);
  so_serviceIPs : addresses_ok (ServiceIPs spec);
  so_dns : (DNSServer spec = "" \/ DNSServer spec ∈ ServiceIPs spec) /\
           normalize_dns (DNSServer spec) (ServiceIPs spec) = Ok (DNSServer spec, ServiceIPs spec);
  so_domains : domains_ok (ClusterDomains spec) /\ exists rest, ClusterDomains spec = DefaultClusterDomain :: rest;
  so_routable : len (PodCIDRs spec) + len (PodIPs spec) + len (ServiceCIDRs spec) + len (ServiceIPs spec) <> 0
}.

Lemma normalize_fields_ok input spec :
  normalize_fields input = Ok spec -> exists pods services, spec_ok input spec pods services.
Proof.
  unfold normalize_fields. cbn zeta. intros E. inv_ok.
  repeat match goal with x : (string * list string)%type |- _ => destruct x as [dns ips] end. inv_ok. bool_hyps.
  match goal with
  | Hp : normalizeCIDRs _ "Pod" = Ok _, Hs : normalizeCIDRs _ "Service" = Ok _,
    Ap : normalizeAddresses _ "Pod" = Ok _, As : normalizeAddresses _ "Service" = Ok _,
    Hd : normalize_dns _ _ = Ok _, Hc : NormalizeClusterDomains _ = Ok _ |- _ =>
      apply normalizeCIDRs_ok in Hp as [pods Hp]; apply normalizeCIDRs_ok in Hs as [services Hs];
      apply normalizeAddresses_ok in Ap; apply normalizeAddresses_ok in As;
      destruct (normalize_dns_ok _ _ _ _ Hd As) as (As' & Hdns & Hin & _);
      apply NormalizeClusterDomains_ok in Hc
  end.
  eexists _, _. split; cbn [spec_Version PodCIDRs PodIPs ServiceCIDRs ServiceIPs DNSServer ClusterDomains]; try done.
Qed.

Lemma service_overlaps_strings pod services :
  Forall pfx_good services ->
  service_overlaps pod (map Prefix_String services) = Some (existsb (prefixesOverlap pod) services).
Proof.
  induction 1 as [|s services [W _] _ IH]; [done|]. cbn [map service_overlaps existsb].
  rewrite parse_prefix_string by done. cbn [mbind option_bind]. by destruct (prefixesOverlap pod s).
Qed.

Lemma pod_overlaps_strings pods services :
  Forall pfx_good pods -> Forall pfx_good services ->
  pod_overlaps (map Prefix_String pods) (map Prefix_String services) =
    Some (existsb (fun pod => existsb (prefixesOverlap pod) services) pods).
Proof.
  intros Gp Gs. induction Gp as [|p pods [W _] _ IH]; [done|]. cbn [map pod_overlaps existsb].
  rewrite parse_prefix_string by done. cbn [mbind option_bind]. rewrite service_overlaps_strings by done.
  cbn [mbind option_bind]. by destruct (existsb (prefixesOverlap p) services).
Qed.

Lemma existsb_false {A} (f : A -> bool) l x : existsb f l = false -> x ∈ l -> f x = false.
Proof.
  intros E Hx. destruct (f x) eqn:Ef; [|done]. assert (existsb f l = true); [|congruence].
  apply existsb_exists. exists x. by split; [apply list_elem_of_In|].
Qed.

(** The result of [Normalize], its panics included. *)
Lemma Normalize_cases input :
  (exists e, Normalize input = Some (Err e)) \/
  (exists spec pods services, Normalize input = Some (Ok spec) /\ spec_ok input spec pods services /\
     (forall p q, p ∈ pods -> q ∈ services -> prefixesOverlap p q = false) /\
     len (json_Marshal spec) <= MaximumJSONSize).
Proof.
  unfold Normalize. destruct (normalize_fields input) as [spec|e] eqn:E; [|left; by exists e].
  destruct (normalize_fields_ok input spec E) as (pods & services & S).
  pose proof (so_pods _ _ _ _ S) as [-> Kp _]. pose proof (so_services _ _ _ _ S) as [-> Ks _].
  rewrite pod_overlaps_strings; [|by destruct Kp|by destruct Ks]. cbn [mbind option_bind].
  destruct (existsb _ pods) eqn:Eo; [left; by eexists|].
  destruct (Z.ltb_spec MaximumJSONSize (len (json_Marshal spec))); [left; by eexists|].
  right. exists spec, pods, services. split; [done|]. split; [done|]. split; [|done]. intros p q Hp Hq.
  pose proof (existsb_false _ _ p Eo Hp) as Hp'. cbn beta in Hp'. by apply (existsb_false _ _ q Hp').
Qed.

Lemma Normalize_Ok input spec :
  Normalize input = Some (Ok spec) -> exists pods services, spec_ok input spec pods services /\
    (forall p q, p ∈ pods -> q ∈ services -> prefixesOverlap p q = false) /\
    len (json_Marshal spec) <= MaximumJSONSize.
Proof.
  intros E. destruct (Normalize_cases input) as [(e & E')|(spec' & pods & services & E' & S & Ho & Hl)].
  - congruence.
  - assert (spec' = spec) as -> by congruence. by exists pods, services.
Qed.

(** [Normalize] never panics, and the networks of the snapshot
    it returns are those of the input: an address without a zone is in a
    normalized Pod (Service) network exactly when it is in one of the input's;
    no address is in two of the normalized networks, Pod or Service; every one
    of them is masked and allowed; the DNS server, if any, is one of the Service
    addresses; and the first cluster domain is the default one. *)
Theorem normalized_networks (input : Spec) :
  exists r, Normalize input = Some r /\ forall spec, r = Ok spec ->
  exists pods services : list Prefix,
    PodCIDRs spec = map Prefix_String pods /\ ServiceCIDRs spec = map Prefix_String services /\
    (forall a, addr_zone a = "" ->
       (in_prefixes pods a <-> in_cidrs (PodCIDRs input) a) /\
       (in_prefixes services a <-> in_cidrs (ServiceCIDRs input) a)) /\
    (forall p q a, p ∈ pods ++ services -> q ∈ pods ++ services -> addr_zone a = "" ->
       pfx_Contains p a = true -> pfx_Contains q a = true -> p = q) /\
    NoDup (pods ++ services) /\ Forall pfx_good (pods ++ services) /\
    (DNSServer spec = "" \/ DNSServer spec ∈ ServiceIPs spec) /\ head (ClusterDomains spec) = Some DefaultClusterDomain.
Proof.
  destruct (Normalize_cases input) as [(e & E)|(spec & pods & services & E & S & Ho & _)]; (eexists; split; [exact E|]).
  { intros spec Hr. discriminate Hr. }
  intros spec' [= <-]. exists pods, services.
  destruct (so_pods _ _ _ _ S) as [Ep [Gp Sp Dp] Cp], (so_services _ _ _ _ S) as [Es [Gs Ss Ds] Cs].
  split; [done|]. split; [done|]. split; [intros a Ha; split; [by apply Cp|by apply Cs]|].
  rewrite Forall_forall in Gp, Gs. split; [|split; [|split; [|split]]].
  - intros p q a Hp Hq Hz Hpa Hqa.
    assert (Hov : pfx_good p -> pfx_good q -> prefixesOverlap p q = true).
    { intros [Wp _] [Wq _]. apply prefixesOverlap_spec; [done..|]. by exists a. }
    apply elem_of_app in Hp as [Hp|Hp], Hq as [Hq|Hq].
    + by apply Dp; [..|apply Hov; apply Gp].
    + rewrite (Ho p q Hp Hq) in Hov. discriminate Hov; [by apply Gp|by apply Gs].
    + rewrite prefixesOverlap_sym, (Ho q p Hq Hp) in Hov. discriminate Hov; [by apply Gs|by apply Gp].
    + by apply Ds; [..|apply Hov; apply Gs].
  - apply NoDup_app. split; [by apply prefix_sorted_NoDup|]. split; [|by apply prefix_sorted_NoDup].
    intros p Hp Hs. pose proof (Ho p p Hp Hs) as Hf. destruct (Gp p Hp) as [W _]. by rewrite prefixesOverlap_refl in Hf.
  - apply Forall_app. by rewrite !Forall_forall.
  - by destruct (so_dns _ _ _ _ S).
  - by destruct (so_domains _ _ _ _ S) as (_ & rest & ->).
Qed.

(** Normalizing a normalized snapshot changes nothing, as long as it does not
    have too many items. *)
Lemma Normalize_again input spec :
  Normalize input = Some (Ok spec) -> item_count spec <= MaximumItems -> Normalize spec = Some (Ok spec).
Proof.
  intros E Hcount. destruct (Normalize_Ok input spec E) as (pods & services & S & Ho & Hl).
  destruct S as [Hv Sp Ss Ap As [_ Hd] [Hdom (rest & Hrest)] Hr].
  assert (Hf : normalize_fields spec = Ok spec).
  { unfold normalize_fields. cbn zeta. rewrite Hv. change (Version =? 0) with false. cbn iota.
    rewrite Z.eqb_refl. replace (MaximumItems <? item_count spec) with false by (symmetry; apply Z.ltb_ge; lia).
    cbn [negb require mbind result_bind].
    rewrite (normalizeCIDRs_again _ "Pod" _ _ Sp), (normalizeAddresses_again "Pod" _ Ap). cbn [mbind result_bind].
    rewrite (normalizeCIDRs_again _ "Service" _ _ Ss), (normalizeAddresses_again "Service" _ As). cbn [mbind result_bind].
    rewrite Hd. cbn [mbind result_bind]. rewrite (NormalizeClusterDomains_again _ rest Hdom Hrest). cbn [mbind result_bind].
    rewrite (proj2 (Z.eqb_neq _ _) Hr). cbn [negb require mbind result_bind]. rewrite <- Hv. by destruct spec. }
  unfold Normalize. rewrite Hf. destruct Sp as [Ep [Gp _ _] _], Ss as [Es [Gs _ _] _]. rewrite Ep, Es.
  rewrite pod_overlaps_strings by done. cbn [mbind option_bind].
  replace (existsb _ pods) with false.
  - replace (MaximumJSONSize <? _) with false by (symmetry; by apply Z.ltb_ge). done.
  - symmetry. apply not_true_iff_false. intros (p & Hp%list_elem_of_In & Hq)%existsb_exists.
    apply existsb_exists in Hq as (q & Hq%list_elem_of_In & Hov). by rewrite Ho in Hov.
Qed.

(** The strings of a snapshot are UTF-8 and its version is an [int]. *)
Definition spec_text (s : Spec) : bool :=
  forallb utf8_ValidString (PodCIDRs s) && forallb utf8_ValidString (PodIPs s) && forallb utf8_ValidString (ServiceCIDRs s)
  && forallb utf8_ValidString (ServiceIPs s) && utf8_ValidString (DNSServer s) && forallb utf8_ValidString (ClusterDomains s)
  && (- 2 ^ 63 <=? spec_Version s) && (spec_Version s <? 2 ^ 63).

(** [encoding/json] gives such a snapshot back; in any other string it replaces the
    bytes that are not UTF-8. *)
Definition spec_json : Prop := forall s : Spec, spec_text s = true -> json_Decode (json_Marshal s) = Some (s, []).

Lemma canonical_decodes (input spec : Spec) (contents : bytes)
    (Hroundtrip : spec_json) (Htext : spec_text spec = true)
    (Hempty : json_Decode (A:=unit) [] = None) (Hsome : json_Marshal spec <> [])
    (Hnormal : Normalize input = Some (Ok spec)) (Hcount : item_count spec <= MaximumItems)
    (Hcontents : CanonicalJSON input = Some (Ok contents)) :
  Decode contents = Some (Ok spec) /\ CanonicalJSON spec = Some (Ok contents) /\ Hash spec = Hash input.
Proof.
  destruct (Normalize_Ok input spec Hnormal) as (_ & _ & _ & _ & Hl).
  pose proof (Normalize_again input spec Hnormal Hcount) as Hagain.
  unfold Hash, CanonicalJSON in *. rewrite Hnormal in *. rewrite Hagain. cbn [mbind option_bind result_bind] in *.
  assert (contents = json_Marshal spec) as -> by congruence. split; [|done].
  unfold Decode. rewrite Hroundtrip, Hempty by done.
  replace (len (json_Marshal spec) =? 0) with false; [|symmetry; apply Z.eqb_neq; by intros ?%len_zero].
  replace (MaximumJSONSize <? _) with false by (symmetry; by apply Z.ltb_ge). done.
Qed.

(** The canonical form is canonical: when [Normalize] accepts a
    snapshot and the result is UTF-8 and does not have more items than an input may have,
    decoding the canonical JSON gives the normalized snapshot, which has the same
    canonical JSON and the same hash as the input. *)
Theorem canonical_roundtrip (input spec : Spec) (contents : bytes)
    (Hroundtrip : spec_json) (Htext : spec_text spec = true)
    (Hempty : json_Decode (A:=unit) [] = None) (Hsome : json_Marshal spec <> [])
    (Hnormal : Normalize input = Some (Ok spec)) (Hcount : item_count spec <= MaximumItems)
    (Hcontents : CanonicalJSON input = Some (Ok contents)) :
  Decode contents = Some (Ok spec) /\ CanonicalJSON spec = Some (Ok contents) /\ Hash spec = Hash input.
Proof. by eapply canonical_decodes. Qed.

(** Every address of an accepted Pod network may be dialled, if the
    network is not an IPv4-mapped one, except in a network 192.168.0.0 of 13, 14
    or 15 bits. *)
Theorem accepted_networks_private (input spec : Spec) (raw : string) (p : Prefix) (a : Addr)
    (Hnormal : Normalize input = Some (Ok spec)) (Hraw : raw ∈ PodCIDRs input)
    (Hparse : netip_ParsePrefix (TrimSpace raw) = Some p) (Hnative : addr_Is4In6 (pfx_Addr (pfx_Masked p)) = false)
    (Haddr : addr_wf a) (Hzone : addr_zone a = "") (Hin : pfx_Contains p a = true) :
  AllowedAddress a = true \/ wide_private (pfx_Masked p).
Proof.
  pose proof (parse_prefix_wf _ _ Hparse) as W. rewrite <- (pfx_Contains_Masked p a W) in Hin.
  apply good_prefix_private; [|done..]. clear Hin Hnative.
  unfold Normalize in Hnormal. destruct (normalize_fields input) as [s|] eqn:E; [|discriminate Hnormal]. clear Hnormal.
  unfold normalize_fields in E. cbn zeta in E. inv_ok.
  match goal with Hp : normalizeCIDRs (PodCIDRs input) "Pod" = Ok _ |- _ => unfold normalizeCIDRs in Hp; rename Hp into Hn end.
  inv_ok. match goal with Hp : parse_cidrs "Pod" [] _ = Ok _ |- _ => revert Hp end.
  generalize (@nil Prefix). clear -Hraw Hparse W.
  induction (PodCIDRs input) as [|r rest IH]; intros acc E; [by apply elem_of_nil in Hraw|]. cbn [parse_cidrs] in E.
  apply elem_of_cons in Hraw as [->|Hraw].
  - rewrite Hparse in E. cbn zeta in E. inv_ok. bool_hyps. pose proof (pfx_Masked_wf p W) as [Wm Mm].
    split; [done|]. split; [done|]. split; [lia|done].
  - destruct (netip_ParsePrefix (TrimSpace r)) as [q|]; [|discriminate E]. cbn zeta in E. inv_ok.
    destruct (bool_decide _); by apply (IH Hraw _ E).
Qed.

(** Trailing bytes that do not decode into an empty struct are
    ignored by [Decode]. *)
Theorem trailing_bytes_accepted (contents rest : bytes) (input spec : Spec)
    (Hlen : 0 < len contents <= MaximumJSONSize) (Hdecode : json_Decode contents = Some (input, rest))
    (Hrest : json_Decode (A:=unit) rest = None) (Hnormal : Normalize input = Some (Ok spec)) :
  Decode contents = Some (Ok spec).
Proof.
  unfold Decode. rewrite Hdecode, Hrest.
  replace (len contents =? 0) with false by (symmetry; apply Z.eqb_neq; lia).
  by replace (MaximumJSONSize <? _) with false by (symmetry; apply Z.ltb_ge; lia).
Qed.
End normalize.

(** ** Concrete snapshots *)

(** Snapshots as JSON stand-ins, and the empty struct [{}]. *)
Definition ser_spec : Ser Spec.
Proof.
  refine (ser_image (ser_pair (ser_pair ser_Z (ser_pair (ser_list ser_string) (ser_list ser_string)))
                    (ser_pair (ser_pair (ser_list ser_string) (ser_list ser_string)) (ser_pair ser_string (ser_list ser_string))))
    (fun s => ((spec_Version s, (PodCIDRs s, PodIPs s)), ((ServiceCIDRs s, ServiceIPs s), (DNSServer s, ClusterDomains s))))
    (fun t => mkSpec t.1.1 t.1.2.1 t.1.2.2 t.2.1.1 t.2.1.2 t.2.2.1 t.2.2.2) _).
  by intros [].
Defined.
#[export] Instance simple_spec_codec : JsonCodec Spec := ser_codec ser_spec.
#[export] Instance simple_unit_codec : JsonCodec unit :=
  {| json_Marshal := fun _ => string_to_bytes "{}";
     json_Decode := fun l => match strip_prefix (string_to_bytes "{}") l with Some r => Some (tt, r) | None => None end |}.

Definition sample_network : Spec :=
  mkSpec 0 ["10.2.1.0/24"; " 10.2.0.0/16"; "192.168.0.0/16"] ["10.2.1.9"; "10.2.1.9"] ["10.96.0.0/12"] ["10.96.0.10"]
    "10.96.0.11" ["Corp.Internal."].
Definition sample_normalized : Spec :=
  mkSpec 2 ["10.2.0.0/16"; "192.168.0.0/16"] ["10.2.1.9"] ["10.96.0.0/12"] ["10.96.0.10"; "10.96.0.11"]
    "10.96.0.11" ["cluster.local"; "corp.internal"].

Example normalize_sample : Normalize sample_network = Some (Ok sample_normalized).
Proof. by vm_compute. Qed.

Lemma normalized_networks_witness :
  exists pods services : list Prefix, PodCIDRs sample_normalized = map Prefix_String pods /\
    in_prefixes pods (v4 10 2 1 200) /\ NoDup (pods ++ services).
Proof.
  destruct (normalized_networks (NL := simple_netip_laws) sample_network) as (r & E & Hr).
  assert (r = Ok sample_normalized) as -> by (rewrite normalize_sample in E; congruence).
  destruct (Hr _ eq_refl) as (pods & services & Hp & _ & Hc & _ & Hnd & _). exists pods, services.
  split; [exact Hp|]. split; [|exact Hnd]. apply Hc; [reflexivity|].
  exists " 10.2.0.0/16", (mkPrefix (v4 10 2 0 0) 16). split; [right; left|]. by split; vm_compute.
Defined.

Lemma canonical_roundtrip_witness :
  Decode (json_Marshal sample_normalized) = Some (Ok sample_normalized) /\
  CanonicalJSON sample_normalized = Some (Ok (json_Marshal sample_normalized)) /\ Hash sample_normalized = Hash sample_network.
Proof.
  apply (canonical_roundtrip (NL := simple_netip_laws) sample_network sample_normalized).
  - intros s _. exact (ser_codec_roundtrip ser_spec s).
  - by vm_compute.
  - reflexivity.
  - by vm_compute.
  - exact normalize_sample.
  - by vm_compute.
  - by vm_compute.
Defined.

Lemma accepted_networks_private_witness : AllowedAddress (v4 10 2 77 8) = true \/ wide_private (mkPrefix (v4 10 2 0 0) 16).
Proof.
  apply (accepted_networks_private (NL := simple_netip_laws) sample_network sample_normalized " 10.2.0.0/16"
           (mkPrefix (v4 10 2 0 0) 16)).
  - exact normalize_sample.
  - right; left.
  - by vm_compute.
  - by vm_compute.
  - split; [left; reflexivity|by vm_compute].
  - reflexivity.
  - by vm_compute.
Defined.

(** The exception: a network that starts at 192.168.0.0 and goes on into public
    addresses is accepted. *)
Definition wide_network : Spec := mkSpec 2 ["192.168.0.0/13"] [] [] [] "" [].

(** A Pod network 192.168.0.0/13 is accepted although it contains
    the public address 192.170.0.1, which may not be dialled. *)
Theorem public_network_accepted :
  Normalize wide_network = Some (Ok (mkSpec 2 ["192.168.0.0/13"] [] [] [] "" ["cluster.local"])) /\
  pfx_Contains (mkPrefix (v4 192 168 0 0) 13) (v4 192 170 0 1) = true /\ AllowedAddress (v4 192 170 0 1) = false.
Proof. by vm_compute. Qed.

Lemma trailing_bytes_accepted_witness :
  Decode (json_Marshal sample_network ++ string_to_bytes " garbage") = Some (Ok sample_normalized).
Proof.
  apply (trailing_bytes_accepted _ (string_to_bytes " garbage") sample_network).
  - by vm_compute.
  - cbn [json_Decode json_Marshal simple_spec_codec ser_codec]. apply get_put.
  - by vm_compute.
  - exact normalize_sample.
Defined.
