(* ===== verification/Tunnel.v ===== *)
(** * The tunnel protocol ([internal/protocol/tunnel], [internal/protocol/trojanws])

    The first bytes of a logical stream between a client and the Gateway: a
    header with the tenant's session token and a command, then the selector of a
    traffic task or the snapshot of the cluster network, and the status that
    answers it.  Every message is read as it was written however the connection
    cuts it; the credentials of two Session generations differ. *)

From S2P Require Import Prelude GoLib GoText External Utils RelayTicket Netip NetworkSpec WireReader.
From S2P Require Import NetworkSpecFacts ConcreteEnv ConcreteNetip.

(** ** The protocol ([protocol.go]) *)

Definition CommandControl : byte := x03.
Definition CommandTraffic : byte := x04.
Definition StatusOK : byte := x00.
Definition StatusError : byte := x01.

Definition maxErrorSize : Z := 4096.

Definition trafficModeExchange : byte := x01.
Definition trafficModeMirror : byte := x02.
Definition trafficModePreview : byte := x03.
Definition trafficTaskIDSize : nat := 36.
Definition trafficOpenBodySize : nat := 1 + trafficTaskIDSize.

Definition TrafficModeExchange : string := "exchange".
Definition TrafficModeMirror : string := "mirror".
Definition TrafficModePreview : string := "preview".

Definition magic : bytes := [x4b; x43; x47; x02].

(** ** Session headers ([session.go]) *)

(** [SessionToken] is [[32]byte]. *)
Definition SessionToken : Type := bytes.
Definition tokenSize : nat := 32.
Definition zeroToken : SessionToken := repeat x00 tokenSize.

Record SessionHeader := mkSessionHeader { Command : byte; Token : SessionToken }.

(** [rand] is what [crypto/rand] returned, [None] when it failed. *)
Definition NewSessionToken (rand : result bytes) : result SessionToken :=
  match rand with
  | Ok token => Ok token
  | Err e => Err (WrapError "generate Gateway session token" e)
  end.

Definition token_required : error := NewError "gateway session token is required".

Definition ReadSessionHeader : Reads SessionHeader :=
  header ← ReadFull (5 + tokenSize);
  if negb (bool_decide (take 4 header = magic)) then returned (Err (NewError "invalid tunnel protocol magic"))
  else
    let token := drop 5 header in
    if bool_decide (token = zeroToken) then returned (Err token_required)
    else mret (mkSessionHeader (nth 4 header x00) token).

Definition appendSessionHeader (value : bytes) (command : byte) (token : SessionToken) : result bytes :=
  if bool_decide (token = zeroToken) then Err token_required
  else Ok (value ++ magic ++ [command] ++ token).

Section credentials.
Context `{UuidPackage, HashPackage}.

(** A canonical UUID is its own [String()]. *)
Definition canonicalUUID (value : string) : bool := bool_decide (uuid_Parse value = Some value).

Definition session_contents (sessionID : string) (generation : Z) : bytes :=
  string_to_bytes "kubeloop-relay-session-v2" ++ [x00] ++ string_to_bytes sessionID ++ [x00]
    ++ string_to_bytes (pretty generation).

Definition RelaySessionToken (sessionID : string) (generation : Z) : result SessionToken :=
  let sessionID := TrimSpace sessionID in
  _ ← require (canonicalUUID sessionID) (NewError "relay session ID must be a canonical UUID");
  _ ← require (negb (generation =? 0)) (NewError "relay session generation is required");
  Ok (sha256_Sum256 (session_contents sessionID generation)).

(** ** Trojan credentials ([trojanws/credential.go]) *)

Definition passwordDomain : bytes := string_to_bytes "kubeloop/trojan-wss/v3/password" ++ [x00].
Definition sessionPasswordDomain : bytes := string_to_bytes "kubeloop/trojan-wss/v3/session-password" ++ [x00].
Definition DefaultPath : string := "/tunnel".

Definition DerivePassword (ticket : string) : result string :=
  if bool_decide (ticket = "") || (MaximumTicketBytes <? slen ticket)
     || negb (bool_decide (TrimSpace ticket = ticket)) || ContainsControl ticket
  then Err (NewError "invalid RelayTicket for Trojan credential")
  else Ok (hex_EncodeToString (sha256_Sum256 (passwordDomain ++ string_to_bytes ticket))).

Definition session_password_contents (token : SessionToken) : bytes :=
  sessionPasswordDomain ++ string_to_bytes (hex_EncodeToString token).

Definition DeriveSessionPassword (sessionID : string) (generation : Z) : result string :=
  token ← RelaySessionToken sessionID generation;
  Ok (hex_EncodeToString (sha256_Sum256 (session_password_contents token))).
End credentials.

(** ** Opening a traffic task ([open.go]) *)

Record TrafficOpenRequest := mkTrafficOpenRequest { Mode : string; TaskID : string }.

Definition mode_invalid : error := NewError "traffic mode is invalid".

Definition encodeTrafficMode (mode : string) : result byte :=
  if bool_decide (mode = TrafficModeExchange) then Ok trafficModeExchange
  else if bool_decide (mode = TrafficModeMirror) then Ok trafficModeMirror
  else if bool_decide (mode = TrafficModePreview) then Ok trafficModePreview
  else Err mode_invalid.

Definition decodeTrafficMode (mode : byte) : result string :=
  if bool_decide (mode = trafficModeExchange) then Ok TrafficModeExchange
  else if bool_decide (mode = trafficModeMirror) then Ok TrafficModeMirror
  else if bool_decide (mode = trafficModePreview) then Ok TrafficModePreview
  else Err mode_invalid.

Section open.
Context `{UuidPackage}.

Definition validateCanonicalTaskID (taskID : string) : result unit :=
  require (canonicalUUID taskID) (NewError "traffic Task ID must be a canonical UUID").

(** The bytes of the message, or the error before anything is written. *)
Definition traffic_open_message (request : TrafficOpenRequest) (token : SessionToken) : result bytes :=
  mode ← encodeTrafficMode (Mode request);
  _ ← validateCanonicalTaskID (TaskID request);
  value ← appendSessionHeader [] CommandTraffic token;
  Ok ((value ++ [mode]) ++ string_to_bytes (TaskID request)).

Definition ReadTrafficOpenBody : Reads TrafficOpenRequest :=
  body ← ReadFull trafficOpenBodySize;
  mode ← returned (decodeTrafficMode (nth 0 body x00));
  let taskID := bytes_to_string (drop 1 body) in
  _ ← returned (validateCanonicalTaskID taskID);
  mret (mkTrafficOpenRequest mode taskID).

Definition ReadTrafficOpen : Reads TrafficOpenRequest :=
  header ← ReadSessionHeader;
  if negb (bool_decide (Command header = CommandTraffic))
  then returned (Err (NewError ("unsupported command " +:+ pretty (Z_of_byte (Command header)))))
  else ReadTrafficOpenBody.
End open.

(** ** Status ([status.go]) *)

(** [err] is the text of the error, [None] for a nil error. *)
Definition status_message (err : option string) : bytes :=
  match err with
  | None => [StatusOK]
  | Some message =>
      let message := cut_text maxErrorSize message in
      [StatusError] ++ be_put 2 (uint16 (slen message)) ++ string_to_bytes message
  end.

Definition ReadStatus : Reads unit :=
  status ← ReadFull 1;
  if bool_decide (nth 0 status x00 = StatusOK) then mret tt
  else if bool_decide (nth 0 status x00 = StatusError) then
    size ← ReadFull 2;
    let messageSize := be_get size in
    if maxErrorSize <? messageSize then returned (Err (NewError "gateway error message is too large"))
    else
      message ← ReadFull (Z.to_nat messageSize);
      returned (Err (NewError (bytes_to_string message)))
  else returned (Err (NewError ("invalid gateway status " +:+ pretty (Z_of_byte (nth 0 status x00))))).

(** ** Registering the cluster network ([control.go]) *)

Section control.
Context `{NetipPackage, JsonCodec Spec, JsonCodec unit}.

Definition control_message (token : SessionToken) (spec : Spec) : option (result bytes) :=
  encoded ← CanonicalJSON spec;
  Some (contents ← encoded;
        value ← appendSessionHeader [] CommandControl token;
        Ok (value ++ be_put 4 (uint32 (len contents)) ++ contents)).

(** The outer option is a panic while the snapshot is decoded. *)
Definition ReadAuthorizedControlSpec : Reads (option (result Spec)) :=
  sizeRaw ← ReadFull 4;
  let size := be_get sizeRaw in
  if (size =? 0) || (NetworkSpec.MaximumJSONSize <? size)
  then returned (Err (NewError "authorized NetworkSpec size is invalid"))
  else
    contents ← ReadFull (Z.to_nat size);
    mret (NetworkSpec.Decode contents).
End control.

(** ** Writing a message

    Each writer checks its argument and gives the message to [utils.WriteAll]. *)

Section writers.
Context {W : Type} (write : W -> bytes -> W * Z * option error).

Definition send (message : result bytes) (w : W) : option (W * option error) :=
  match message with
  | Err e => Some (w, Some e)
  | Ok value => WriteAll write w value
  end.

Definition WriteTrafficOpen `{UuidPackage} (request : TrafficOpenRequest) (token : SessionToken) : W -> option (W * option error) :=
  send (traffic_open_message request token).

Definition WriteStatus (err : option string) : W -> option (W * option error) :=
  send (Ok (status_message err)).

Definition WriteAuthorizedControlSession `{NetipPackage, JsonCodec Spec} (token : SessionToken) (spec : Spec) (w : W)
    : option (W * option error) :=
  message ← control_message token spec; send message w.
End writers.

(** * Properties of the tunnel protocol

    Messages are read as they were written, whatever the pieces they arrive in,
    and the credentials derived from two Session generations differ. *)


(** [String()] of a UUID has 36 characters. *)
Class UuidText `{UuidPackage} : Prop := uuid_text_length s u : uuid_Parse s = Some u -> slen u = 36.

(** ** Writers *)

Lemma send_complete {W} (write : W -> bytes -> W * Z * option error) sent message w w' :
  writer_ok write sent -> send write message w = Some (w', None) ->
  exists value, message = Ok value /\ sent w' = sent w ++ value.
Proof.
  intros Hw. unfold send. destruct message as [value|e]; [|discriminate]. intros E. exists value. split; [done|].
  destruct (WriteAll_loop_spec write sent (List.length value) w value Hw (le_n _)) as (w2 & err & E2 & k & Hk & Hall).
  unfold WriteAll in E. rewrite E in E2. injection E2 as <- <-. by rewrite Hk, Hall.
Qed.

(** ** Headers *)

Definition header_bytes (command : byte) (token : SessionToken) : bytes := magic ++ [command] ++ token.

Lemma appendSessionHeader_ok value command token v :
  appendSessionHeader value command token = Ok v <-> token <> zeroToken /\ v = value ++ header_bytes command token.
Proof.
  unfold appendSessionHeader, header_bytes. case_bool_decide; split; [discriminate|by intros []| |].
  - by intros [= <-].
  - by intros [_ ->].
Qed.

Lemma header_takes command token :
  List.length token = tokenSize -> token <> zeroToken ->
  takes ReadSessionHeader (header_bytes command token) (Ok (mkSessionHeader command token)).
Proof.
  intros Hl Hz. unfold ReadSessionHeader. eapply takes_bind_nil.
  - apply ReadFull_takes. unfold header_bytes. cbn [app List.length magic]. by rewrite Hl.
  - unfold header_bytes. cbn [app magic take drop nth]. rewrite bool_decide_true by done. cbn [negb].
    rewrite bool_decide_false by done. apply takes_ret.
Qed.

Lemma header_read r header r' :
  ReadSessionHeader r = (Ok header, r') ->
  contents r = header_bytes (Command header) (Token header) ++ contents r' /\
  List.length (Token header) = tokenSize /\ Token header <> zeroToken.
Proof.
  unfold ReadSessionHeader. intros E. inv_reads. bool_hyps.
  match goal with H : contents r = ?l ++ _, Hl : List.length ?l = _ |- _ => rename H into Hc, Hl into Hn; rename l into b end.
  do 5 (destruct b as [|? b]; [discriminate Hn|]). cbn [take drop nth] in *. rewrite Hc. unfold header_bytes. cbn [Command Token].
  match goal with H : [_; _; _; _] = magic |- _ => injection H as -> -> -> -> end.
  split_and!; [done|by injection Hn|done].
Qed.

(** ** Traffic tasks *)

Lemma mode_roundtrip m b : encodeTrafficMode m = Ok b <-> decodeTrafficMode b = Ok m.
Proof.
  unfold encodeTrafficMode, decodeTrafficMode. split; intros E; repeat case_bool_decide; inv_ok; simplify_eq/=; done.
Qed.

Section open.
Context `{UP : UuidPackage} {UT : UuidText}.

Lemma canonical_length id : canonicalUUID id = true -> List.length (string_to_bytes id) = trafficTaskIDSize.
Proof. unfold canonicalUUID. intros ?%bool_decide_eq_true%uuid_text_length. rewrite slen_bytes in *. unfold len in *. unfold trafficTaskIDSize. lia. Qed.

Lemma traffic_open_message_ok request token value :
  traffic_open_message request token = Ok value <->
  exists mode, encodeTrafficMode (Mode request) = Ok mode /\ canonicalUUID (TaskID request) = true /\ token <> zeroToken /\
    value = header_bytes CommandTraffic token ++ mode :: string_to_bytes (TaskID request).
Proof.
  unfold traffic_open_message, validateCanonicalTaskID. split.
  - intros E. inv_ok. match goal with H : appendSessionHeader _ _ _ = _ |- _ => apply appendSessionHeader_ok in H as [? ->] end.
    eexists. split_and!; [done..|]. by rewrite <- app_assoc.
  - intros (mode & -> & Hid & Ht & ->). cbn [mbind result_bind]. rewrite Hid. cbn [require mbind result_bind].
    rewrite (proj2 (appendSessionHeader_ok [] CommandTraffic token _) (conj Ht eq_refl)). cbn [mbind result_bind].
    by rewrite <- app_assoc.
Qed.

Lemma traffic_open_takes request token value :
  List.length token = tokenSize -> traffic_open_message request token = Ok value ->
  takes ReadTrafficOpen value (Ok request).
Proof.
  intros Hl (mode & Hm & Hid & Ht & ->)%traffic_open_message_ok. unfold ReadTrafficOpen.
  eapply takes_bind; [by apply header_takes|]. cbn [Command]. rewrite bool_decide_true by done. cbn [negb].
  unfold ReadTrafficOpenBody. eapply takes_bind_nil.
  { apply ReadFull_takes. unfold trafficOpenBodySize. cbn [List.length]. by rewrite canonical_length. }
  cbn [nth drop]. eapply takes_bind_returned; [by apply mode_roundtrip|]. cbv beta zeta. rewrite drop_0.
  rewrite string_of_to_bytes.
  eapply takes_bind_returned; [unfold validateCanonicalTaskID; by rewrite Hid|]. destruct request. apply takes_ret.
Qed.

Lemma traffic_open_read r request r' :
  ReadTrafficOpen r = (Ok request, r') ->
  exists token value, List.length token = tokenSize /\ traffic_open_message request token = Ok value /\
    contents r = value ++ contents r'.
Proof.
  unfold ReadTrafficOpen, ReadTrafficOpenBody. intros E. inv_reads.
  match goal with H : ReadSessionHeader _ = _ |- _ => apply header_read in H as (Hc & Hl & Hz) end.
  bool_hyps. match goal with H : Command _ = _ |- _ => rewrite H in Hc end.
  match goal with H : validateCanonicalTaskID _ = Ok _ |- _ => unfold validateCanonicalTaskID in H end. inv_ok.
  match goal with H : decodeTrafficMode _ = Ok _ |- _ => apply mode_roundtrip in H as Hm end.
  match goal with H : contents _ = ?l ++ contents r', Hn : List.length ?l = _ |- _ => rename H into Hb, Hn into Hln; rename l into b end.
  destruct b as [|m b]; [discriminate Hln|]. cbn [nth drop] in *. eexists (Token _), _. split; [exact Hl|].
  split.
  - apply traffic_open_message_ok. exists m. split_and!; [done..|reflexivity].
  - cbn [TaskID]. rewrite string_to_of_bytes, Hc, Hb. by rewrite <- app_assoc.
Qed.
End open.

(** Opening a traffic task survives the wire: when a complete
    writer accepts the message, a reader of the bytes sent, however they arrive
    and whatever follows, returns the same request and has consumed exactly the
    message; and a request is only ever read from the bytes that some session
    token writes for it. *)
Theorem traffic_open_roundtrip {W} `{UP : UuidPackage} {UT : UuidText} (write : W -> bytes -> W * Z * option error) (sent : W -> bytes)
    (request : TrafficOpenRequest) (token : SessionToken) (w w' : W)
    (Hwriter : writer_ok write sent) (Htoken : List.length token = tokenSize)
    (Hwrite : WriteTrafficOpen write request token w = Some (w', None)) :
  (exists value, sent w' = sent w ++ value /\ takes ReadTrafficOpen value (Ok request)) /\
  forall r other r', ReadTrafficOpen r = (Ok other, r') ->
    exists token' value, List.length token' = tokenSize /\ token' <> zeroToken /\ traffic_open_message other token' = Ok value /\
      contents r = value ++ contents r'.
Proof.
  split.
  - destruct (send_complete _ _ _ _ _ Hwriter Hwrite) as (value & Hm & Hs). exists value. split; [done|].
    by eapply traffic_open_takes.
  - intros r other r' (token' & value & Hl & Hv & Hc)%traffic_open_read. exists token', value. split_and!; [done| |done..].
    by apply traffic_open_message_ok in Hv as (_ & _ & _ & ? & _).
Qed.

(** ** Status *)

Lemma status_takes err :
  takes ReadStatus (status_message err)
    match err with
    | None => Ok tt
    | Some m => Err (NewError (cut_text maxErrorSize m))
    end.
Proof.
  unfold ReadStatus, status_message. destruct err as [m|].
  2:{ eapply takes_bind_nil; [by apply ReadFull_takes|]. cbn [nth]. rewrite bool_decide_true by done. apply takes_ret. }
  pose proof (cut_text_length maxErrorSize m ltac:(done)) as Hm. revert Hm. generalize (cut_text maxErrorSize m).
  intros s Hs. pose proof Hs as Hs'. rewrite slen_bytes in *. unfold maxErrorSize in *.
  eapply takes_bind; [by apply ReadFull_takes|]. cbn [nth]. rewrite bool_decide_false, bool_decide_true by done.
  eapply takes_bind; [apply ReadFull_takes; apply be_put_length|]. rewrite be_get_put. unfold uint16.
  pose proof (len_nonneg (string_to_bytes s)). change (8 * Z.of_nat 2) with 16. rewrite Z.mod_mod, Z.mod_small by lia.
  rewrite (proj2 (Z.ltb_ge _ _)) by lia. eapply takes_bind_nil.
  { apply ReadFull_takes. unfold len. by rewrite Nat2Z.id. }
  rewrite string_of_to_bytes. apply takes_returned.
Qed.

(** ** The cluster network *)

Section control.
Context `{NP : NetipPackage} `{JS : JsonCodec Spec} `{JU : JsonCodec unit} `{HP : HashPackage} {NL : NetipLaws}.

(** What the Gateway reads of a control stream ([acceptControl]). *)
Definition read_control : Reads (SessionHeader * option (result Spec)) :=
  header ← ReadSessionHeader; spec ← ReadAuthorizedControlSpec; mret (header, spec).

Lemma control_takes token spec spec' value :
  spec_json -> spec_text spec' = true -> json_Decode (A:=unit) [] = None ->
  json_Marshal spec' <> [] -> List.length token = tokenSize -> Normalize spec = Some (Ok spec') -> item_count spec' <= MaximumItems ->
  control_message token spec = Some (Ok value) ->
  takes read_control value (Ok (mkSessionHeader CommandControl token, Some (Ok spec'))) /\ Hash spec' = Hash spec.
Proof.
  intros Hrt Htext He Hs Hl Hn Hcount Hm. unfold control_message in Hm.
  destruct (CanonicalJSON spec) as [[enc|?]|] eqn:Hc; [|discriminate..]. cbn [mbind option_bind] in Hm. apply (inj Some) in Hm. cbn [result_bind] in Hm. inv_ok.
  destruct (canonical_decodes spec spec' enc Hrt Htext He Hs Hn Hcount Hc) as (Hd & _ & Hh). split; [|done].
  match goal with H : appendSessionHeader _ _ _ = _ |- _ => apply appendSessionHeader_ok in H as [Hz ->] end.
  unfold CanonicalJSON in Hc. rewrite Hn in Hc. cbn in Hc. assert (enc = json_Marshal spec') as -> by congruence.
  destruct (Normalize_Ok spec spec' Hn) as (_ & _ & _ & _ & Hlen). pose proof (len_nonneg (json_Marshal spec')) as H0.
  assert (len (json_Marshal spec') <> 0) by (by intros ?%len_zero). unfold NetworkSpec.MaximumJSONSize in *.
  change (Z.shiftl 256 10) with 262144 in *. unfold read_control.
  cbn [app]. eapply takes_bind; [by apply header_takes|]. eapply takes_bind_nil; [|apply takes_ret].
  unfold ReadAuthorizedControlSpec. eapply takes_bind; [apply ReadFull_takes, be_put_length|].
  rewrite be_get_put. unfold uint32, NetworkSpec.MaximumJSONSize. change (8 * Z.of_nat 4) with 32. change (Z.shiftl 256 10) with 262144.
  rewrite Z.mod_mod, Z.mod_small by lia. rewrite (proj2 (Z.eqb_neq _ _)), (proj2 (Z.ltb_ge _ _)) by done. cbn [orb].
  eapply takes_bind_nil; [apply ReadFull_takes; unfold len; by rewrite Nat2Z.id|]. rewrite Hd. apply takes_ret.
Qed.
End control.

(** A registered network arrives: when a complete writer accepts
    the control message of a snapshot, the Gateway reads back the command and
    token of the header and the normalized snapshot, whose hash is the hash of
    the snapshot sent. *)
Theorem control_spec_roundtrip {W} `{NP : NetipPackage} `{JS : JsonCodec Spec} `{JU : JsonCodec unit} `{HP : HashPackage} {NL : NetipLaws}
    (write : W -> bytes -> W * Z * option error) (sent : W -> bytes) (token : SessionToken) (spec spec' : Spec) (w w' : W)
    (Hroundtrip : spec_json) (Htext : spec_text spec' = true)
    (Hempty : json_Decode (A:=unit) [] = None) (Hsome : json_Marshal spec' <> [])
    (Hwriter : writer_ok write sent) (Htoken : List.length token = tokenSize)
    (Hnormal : Normalize spec = Some (Ok spec')) (Hcount : item_count spec' <= MaximumItems)
    (Hwrite : WriteAuthorizedControlSession write token spec w = Some (w', None)) :
  exists value, sent w' = sent w ++ value /\
    takes read_control value (Ok (mkSessionHeader CommandControl token, Some (Ok spec'))) /\ Hash spec' = Hash spec.
Proof.
  unfold WriteAuthorizedControlSession in Hwrite. destruct (control_message token spec) as [m|] eqn:Hm; [|discriminate].
  cbn [mbind option_bind] in Hwrite. destruct (send_complete _ _ _ _ _ Hwriter Hwrite) as (value & -> & Hs).
  exists value. split; [done|]. by eapply control_takes.
Qed.

(** ** Readers *)

(** How a connection cuts the bytes is irrelevant: on two
    readers that deliver the same bytes and end in the same way, the readers of
    the tunnel protocol return the same value or the same error, and leave
    readers that deliver the same bytes. *)
Theorem reading_ignores_pieces `{UP : UuidPackage} `{NP : NetipPackage} `{JS : JsonCodec Spec} `{JU : JsonCodec unit} :
  pieces_irrelevant ReadSessionHeader /\ pieces_irrelevant ReadTrafficOpen /\
  pieces_irrelevant ReadStatus /\ pieces_irrelevant ReadAuthorizedControlSpec.
Proof.
  unfold ReadStatus, ReadAuthorizedControlSpec, ReadTrafficOpen, ReadTrafficOpenBody, ReadSessionHeader.
  split_and!; repeat (apply _ || (apply bind_proper; [|intros ?]) || apply if_proper).
Qed.

(** ** Credentials *)

Lemma hex_EncodeToString_inj l k : hex_EncodeToString l = hex_EncodeToString k -> l = k.
Proof.
  unfold hex_EncodeToString. intros E%bytes_to_string_inj. pose proof (hex_decode_encode l) as H.
  rewrite E, hex_decode_encode in H. congruence.
Qed.

(** Two different inputs with the same digest. *)
Definition collides `{HashPackage} (a b : bytes) : Prop := a <> b /\ sha256_Sum256 a = sha256_Sum256 b.

Section credentials.
Context `{UP : UuidPackage} `{HP : HashPackage} {UT : UuidText}.

Lemma RelaySessionToken_ok sessionID generation token :
  RelaySessionToken sessionID generation = Ok token ->
  canonicalUUID (TrimSpace sessionID) = true /\ generation <> 0 /\ token = sha256_Sum256 (session_contents (TrimSpace sessionID) generation).
Proof. unfold RelaySessionToken. intros E. inv_ok. bool_hyps. done. Qed.

Lemma session_contents_inj s g s' g' :
  List.length (string_to_bytes s) = List.length (string_to_bytes s') -> session_contents s g = session_contents s' g' -> s = s' /\ g = g'.
Proof.
  unfold session_contents. intros Hl E. apply app_inv_head in E. cbn [app] in E. injection E as E.
  apply app_inj_1 in E as [E1%string_to_bytes_inj E2]; [|done]. injection E2 as E2%string_to_bytes_inj. split; [done|]. by apply (inj pretty).
Qed.

(** The framing password of a Session generation is that of no
    other: when two Session generations have the same password, they are the
    same Session and generation, or one of the two digests in the derivation has
    a collision between the inputs of this derivation. *)
Theorem session_passwords_distinct sessionID generation sessionID' generation' password
    (H1 : DeriveSessionPassword sessionID generation = Ok password)
    (H2 : DeriveSessionPassword sessionID' generation' = Ok password) :
  let c1 := session_contents (TrimSpace sessionID) generation in
  let c2 := session_contents (TrimSpace sessionID') generation' in
  (TrimSpace sessionID = TrimSpace sessionID' /\ generation = generation') \/ collides c1 c2 \/
  collides (session_password_contents (sha256_Sum256 c1)) (session_password_contents (sha256_Sum256 c2)).
Proof.
  cbv zeta. unfold DeriveSessionPassword in *. inv_ok.
  repeat match goal with H : RelaySessionToken _ _ = Ok _ |- _ => apply RelaySessionToken_ok in H as (? & ? & ->) end.
  match goal with H : hex_EncodeToString _ = hex_EncodeToString _ |- _ => apply hex_EncodeToString_inj in H as Hd end.
  set (c1 := session_contents (TrimSpace sessionID) generation) in *. set (c2 := session_contents (TrimSpace sessionID') generation') in *.
  destruct (decide (session_password_contents (sha256_Sum256 c1) = session_password_contents (sha256_Sum256 c2))) as [E|E].
  2:{ right. right. by split. }
  unfold session_password_contents in E. apply app_inv_head, string_to_bytes_inj, hex_EncodeToString_inj in E.
  destruct (decide (c1 = c2)) as [Ec|]; [|right; left; by split]. left. apply session_contents_inj; [|done].
  by rewrite !canonical_length.
Qed.
End credentials.

(** ** Concrete messages *)

#[export] Instance simple_uuid_text : UuidText.
Proof. intros s u. cbn [uuid_Parse simple_uuid]. destruct (slen s =? 36) eqn:E; [|done]. intros [= <-]. by bool_hyps. Qed.

Definition sample_token : SessionToken := x01 :: x02 :: x03 :: x04 :: repeat x00 28.
Definition sample_open : TrafficOpenRequest := mkTrafficOpenRequest "mirror" (simple_id "1").
Definition sample_open_bytes : bytes :=
  [x4b; x43; x47; x02; x04] ++ sample_token ++ x02 :: string_to_bytes (simple_id "1").

Example sample_open_sent : WriteTrafficOpen trickle_write sample_open sample_token [] = Some (sample_open_bytes, None).
Proof. by vm_compute. Qed.

Example sample_open_read :
  (ReadTrafficOpen (mkReader [take 3 sample_open_bytes; []; drop 3 sample_open_bytes ++ [x00]] EOF)).1 = Ok sample_open.
Proof. by vm_compute. Qed.

Example open_rejected :
  (ReadTrafficOpen (mkReader [take 73 sample_open_bytes] EOF)).1 = Err ErrUnexpectedEOF /\
  (ReadTrafficOpen (mkReader [take 37 sample_open_bytes; xff :: drop 38 sample_open_bytes] EOF)).1 = Err mode_invalid /\
  (ReadTrafficOpen (mkReader [take 5 sample_open_bytes ++ repeat x00 69] EOF)).1 = Err token_required /\
  traffic_open_message (mkTrafficOpenRequest "capture" (simple_id "1")) sample_token = Err mode_invalid.
Proof. evaluate. Qed.

Example status_bytes :
  status_message None = [x00] /\ status_message (Some "bad") = [x01; x00; x03; x62; x61; x64].
Proof. evaluate. Qed.

Lemma traffic_open_roundtrip_witness :
  (exists value, sample_open_bytes = [] ++ value /\ takes ReadTrafficOpen value (Ok sample_open)) /\
  forall r other r', ReadTrafficOpen r = (Ok other, r') ->
    exists token' value, List.length token' = tokenSize /\ token' <> zeroToken /\ traffic_open_message other token' = Ok value /\
      contents r = value ++ contents r'.
Proof. exact (traffic_open_roundtrip trickle_write id sample_open sample_token [] sample_open_bytes trickle_writer eq_refl sample_open_sent). Defined.

Definition sample_control : bytes := header_bytes CommandControl sample_token ++
  be_put 4 (len (json_Marshal sample_normalized)) ++ json_Marshal sample_normalized.

Lemma sample_control_sent :
  WriteAuthorizedControlSession trickle_write sample_token sample_network [] = Some (sample_control, None).
Proof. by vm_compute. Qed.

Lemma control_spec_roundtrip_witness :
  exists value, sample_control = [] ++ value /\
    takes read_control value (Ok (mkSessionHeader CommandControl sample_token, Some (Ok sample_normalized))) /\
    Hash sample_normalized = Hash sample_network.
Proof.
  apply (control_spec_roundtrip (NL := simple_netip_laws) trickle_write id sample_token sample_network sample_normalized [] sample_control).
  - intros s _. exact (ser_codec_roundtrip ser_spec s).
  - by vm_compute.
  - reflexivity.
  - by vm_compute.
  - exact trickle_writer.
  - reflexivity.
  - exact normalize_sample.
  - by vm_compute.
  - exact sample_control_sent.
Defined.

Definition session_password : result string := DeriveSessionPassword (simple_id "1") 7.

Lemma session_passwords_distinct_witness :
  let c := session_contents (simple_id "1") 7 in
  (TrimSpace (" " +:+ simple_id "1") = TrimSpace (simple_id "1") /\ 7 = 7) \/ collides c c \/
  collides (session_password_contents (sha256_Sum256 c)) (session_password_contents (sha256_Sum256 c)).
Proof.
  destruct session_password as [password|e] eqn:E; [|by vm_compute in E].
  apply (session_passwords_distinct (" " +:+ simple_id "1") 7 (simple_id "1") 7 password); [|exact E].
  rewrite <- E. by vm_compute.
Defined.
