(* ===== verification/SessionStore.v ===== *)
(** * Sessions in the database ([storage/sessions.go], [session_state.go], [session_codec.go]) *)

From S2P Require Import Prelude GoLib GoText External RemoteTask StorageEngine Netip NetworkSpec.

(** [math.MaxInt64] *)
Definition MaxInt64 : Z := 2 ^ 63 - 1.
Definition statusActive : string := "active".

Section sessions.
Context {E : Type} `{Engine E} `{UuidPackage} `{NetipPackage} `{JsonCodec Spec} `{JsonCodec unit} `{HashPackage}.

Definition validateUUID (id field : string) : result unit :=
  match uuid_Parse id with Some _ => Ok tt | None => Err (NewError (field +:+ " must be a UUID")) end.

(** A call of the [networkspec] package, which may panic. *)
Definition network {A} (call : option (result A)) : storage_error + A :=
  match call with Some (Ok a) => inr a | Some (Err e) => inl (StorageError e) | None => inl Panicked end.

(** The error of a call is replaced by another. *)
Definition or_error {A} (r : storage_error + A) (message : string) : storage_error + A :=
  match r with inl Panicked => inl Panicked | inl _ => inl (StorageError (NewError message)) | inr a => inr a end.

Definition normalizeSession (s : Session) : M (E:=E) Session :=
  _ ← lift (validateUUID (s_ID s) "session ID");
  _ ← lift (validateUUID (s_IdentityID s) "identity ID");
  let device := TrimSpace (s_DeviceID s) in
  let cluster := TrimSpace (s_ClusterID s) in
  let namespace := TrimSpace (s_Namespace s) in
  let state := TrimSpace (s_State s) in
  _ ← lift (require (negb (bool_decide (device = "") || bool_decide (cluster = "") ||
                           bool_decide (namespace = "") || bool_decide (state = "")))
              (NewError "session device, cluster, namespace and state are required"));
  let generation := if s_Generation s =? 0 then 1 else s_Generation s in
  _ ← lift (require (negb (MaxInt64 <=? generation)) (NewError "session generation is too large"));
  spec ← of_sum (network (Decode (s_NetworkSpec s)));
  contents ← of_sum (network (CanonicalJSON spec));
  hash ← of_sum (or_error (network (Hash spec)) "session NetworkSpec hash is invalid");
  _ ← lift (require (bool_decide (s_NetworkSpecHash s = hash)) (NewError "session NetworkSpec hash is invalid"));
  _ ← lift (require (negb (IsZero (s_CreatedAt s) || IsZero (s_ExpiresAt s) || negb (After (s_ExpiresAt s) (s_CreatedAt s))))
              (NewError "session expiry must be after creation"));
  mret (mkSession (s_ID s) (s_IdentityID s) device cluster namespace state generation contents (s_NetworkSpecHash s)
          (s_CreatedAt s) (if IsZero (s_UpdatedAt s) then s_CreatedAt s else s_UpdatedAt s)
          (if IsZero (s_LastHeartbeatAt s) then s_CreatedAt s else s_LastHeartbeatAt s) (s_ExpiresAt s)).

(** The row of a session: its generation is a signed column. *)
Definition rowFromSession (s : Session) : Session :=
  mkSession (s_ID s) (s_IdentityID s) (s_DeviceID s) (s_ClusterID s) (s_Namespace s) (s_State s) (int64 (s_Generation s))
    (stored_json (s_NetworkSpec s)) (s_NetworkSpecHash s) (s_CreatedAt s) (s_UpdatedAt s) (s_LastHeartbeatAt s)
    (s_ExpiresAt s).

Definition sessionFromRow (row : Session) : storage_error + Session :=
  if s_Generation row <? 1 then inl (StorageError (NewError "decode session generation"))
  else match or_error (network (Decode (s_NetworkSpec row))) "decode session NetworkSpec" with
  | inl e => inl e
  | inr spec =>
      match or_error (network (CanonicalJSON spec)) "canonicalize session NetworkSpec" with
      | inl e => inl e
      | inr canonical =>
          match or_error (network (Hash spec)) "decode session NetworkSpec hash" with
          | inl e => inl e
          | inr hash =>
              if negb (bool_decide (hash = s_NetworkSpecHash row))
              then inl (StorageError (NewError "decode session NetworkSpec hash"))
              else inr (mkSession (s_ID row) (s_IdentityID row) (s_DeviceID row) (s_ClusterID row) (s_Namespace row)
                     (s_State row) (uint64 (s_Generation row)) canonical (s_NetworkSpecHash row) (s_CreatedAt row)
                     (s_UpdatedAt row) (s_LastHeartbeatAt row) (s_ExpiresAt row))
          end
      end
  end.

Definition insert_session (row : Session) (db : Database) : driver_error + unit * Database :=
  if bool_decide (is_Some (sessions db !! s_ID row)) || negb (references_identity db (s_IdentityID row)) ||
     (s_Generation row <? 1) || negb (slen (s_NetworkSpecHash row) =? 64)
  then inl constraint_error
  else inr (tt, set_sessions db (<[s_ID row := row]> (sessions db))).

Definition Session_Create (session : Session) : M (E:=E) unit :=
  session ← normalizeSession session;
  statement mapWriteError (insert_session (rowFromSession session)).

(** [SELECT ... WHERE s.id = ?] *)
Definition Session_GetByID (id : string) : M (E:=E) Session :=
  _ ← lift (validateUUID id "session ID");
  row ← statement (databaseError "read session") (fun db => inr (sessions db !! id, db));
  match row with
  | None => fail (StorageError ErrNotFound)
  | Some row => of_sum (sessionFromRow row)
  end.

(** [UPDATE sessions SET ... WHERE id = ? AND ...]: the number of rows. *)
Definition update_session (id : string) (p : Session -> bool) (f : Session -> Session) (db : Database)
    : driver_error + Z * Database :=
  match sessions db !! id with
  | Some row => if p row then inr (1, set_sessions db (<[id := f row]> (sessions db))) else inr (0, db)
  | None => inr (0, db)
  end.

(** After an update that matched no row: the row is missing or different. *)
Definition session_missing (id : string) : M (E:=E) unit :=
  found ← try (Session_GetByID id);
  match found with
  | inl e => if storage_Is e ErrNotFound then fail (StorageError ErrNotFound)
             else match e with Panicked => fail Panicked | _ => fail (StorageError ErrConflict) end
  | inr _ => fail (StorageError ErrConflict)
  end.

Definition heartbeat_row (updatedAt expiresAt : time) (spec : bytes) (hash : string) (row : Session) : Session :=
  mkSession (s_ID row) (s_IdentityID row) (s_DeviceID row) (s_ClusterID row) (s_Namespace row) (s_State row)
    (s_Generation row + 1) (stored_json spec) hash (s_CreatedAt row) updatedAt updatedAt expiresAt.

Definition Session_Heartbeat (id : string) (generation : Z) (networkSpec : bytes) (networkSpecHash : string)
    (updatedAt expiresAt : time) : M (E:=E) unit :=
  _ ← lift (validateUUID id "session ID");
  _ ← lift (require (negb ((generation =? 0) || (MaxInt64 <=? generation) || IsZero updatedAt ||
                           negb (After expiresAt updatedAt)))
              (NewError "session generation, heartbeat time and future expiry are required"));
  normalizedSpec ← of_sum (or_error (network (Decode networkSpec)) "session heartbeat NetworkSpec is invalid");
  canonicalSpec ← of_sum (or_error (network (CanonicalJSON normalizedSpec)) "session heartbeat NetworkSpec is invalid");
  canonicalHash ← of_sum (or_error (network (Hash normalizedSpec)) "session heartbeat NetworkSpec hash is invalid");
  _ ← lift (require (bool_decide (canonicalHash = networkSpecHash)) (NewError "session heartbeat NetworkSpec hash is invalid"));
  count ← statement mapWriteError (update_session id
            (fun row => (s_Generation row =? int64 generation) && bool_decide (s_State row = statusActive))
            (heartbeat_row updatedAt expiresAt canonicalSpec canonicalHash));
  if (count : Z) =? 1 then mret tt else session_missing id.

Definition state_row (state : string) (updatedAt : time) (row : Session) : Session :=
  mkSession (s_ID row) (s_IdentityID row) (s_DeviceID row) (s_ClusterID row) (s_Namespace row) state (s_Generation row + 1)
    (s_NetworkSpec row) (s_NetworkSpecHash row) (s_CreatedAt row) updatedAt (s_LastHeartbeatAt row) (s_ExpiresAt row).

Definition Session_UpdateState (id : string) (generation : Z) (state : string) (updatedAt : time) : M (E:=E) unit :=
  _ ← lift (validateUUID id "session ID");
  let state := TrimSpace state in
  _ ← lift (require (negb (bool_decide (state = "") || (generation =? 0) || (MaxInt64 <=? generation) || IsZero updatedAt))
              (NewError "session state, current generation and update time are required"));
  count ← statement mapWriteError (update_session id (fun row => s_Generation row =? int64 generation)
            (state_row state updatedAt));
  if (count : Z) =? 1 then mret tt else session_missing id.
End sessions.
