(* ===== verification/TaskStore.v ===== *)
(** * Tasks in the database ([storage/tasks.go], [task_state.go], [task_audit.go],
    [task_queries.go], [task_codec.go], [audit.go])

    Every change of a task's state compares the stored state with the one the
    caller saw and is recorded by an audit event in the same transaction. *)

From S2P Require Import Prelude GoLib GoText GoSort External RemoteTask StorageEngine SessionStore Netip NetworkSpec.

(** [json.Valid] *)
Class JsonValidity := { json_Valid : bytes -> bool }.

Definition TaskTransitionAuditAction : string := "task.transition".
Definition auditSourceAPI : string := "api".
Definition outcomeSuccess : string := "success".

(** The metadata of a transition event. *)
Record transitionMetadata := mkTransitionMetadata {
  tm_SessionID : string;
  tm_Namespace : string;
  tm_PreviousState : State;
  tm_NextState : State;
  tm_Source : string
}.

Section tasks.
Context {E : Type} `{Engine E} `{UuidPackage} `{NetipPackage} `{JsonCodec Spec} `{JsonCodec unit} `{HashPackage}.
Context `{JsonValidity} `{JsonCodec transitionMetadata} (store : Store).

(** [sql_values.go] *)
Definition normalizeJSON (value : bytes) (required : bool) (field : string) : result bytes :=
  if len value =? 0
  then if required then Err (NewError (field +:+ " is required")) else Ok []
  else if negb (json_Valid value) then Err (NewError (field +:+ " must contain valid JSON"))
  else Ok value.

(** ** The repository ([tasks.go], [task_state.go]) *)

Definition normalizeTask (t : Task) : result Task :=
  _ ← validateUUID (t_ID t) "task ID";
  _ ← validateUUID (t_IdentityID t) "identity ID";
  _ ← validateUUID (t_SessionID t) "session ID";
  let type := TrimSpace (t_Type t) in
  let key := TrimSpace (t_IdempotencyKey t) in
  _ ← require (negb (bool_decide (type = "") || negb (Valid (t_State t)) || bool_decide (key = "")))
        (NewError "task type, state and idempotency key are required");
  spec ← normalizeJSON (t_Spec t) true "task spec";
  result ← normalizeJSON (t_Result t) false "task result";
  _ ← require (negb (IsZero (t_CreatedAt t))) (NewError "task creation time is required");
  Ok (mkTask (t_ID t) (t_IdentityID t) (t_SessionID t) type (t_State t) spec result key (t_CreatedAt t)
        (if IsZero (t_UpdatedAt t) then t_CreatedAt t else t_UpdatedAt t) (t_ExpiresAt t)).

(** [UNIQUE (identity_id, idempotency_key)] *)
Definition same_request (t u : Task) : bool :=
  bool_decide (t_IdentityID t = t_IdentityID u) && bool_decide (t_IdempotencyKey t = t_IdempotencyKey u).

Definition task_row (t : Task) : Task :=
  mkTask (t_ID t) (t_IdentityID t) (t_SessionID t) (t_Type t) (t_State t) (stored_json (t_Spec t))
    (stored_json (t_Result t)) (t_IdempotencyKey t) (t_CreatedAt t) (t_UpdatedAt t) (t_ExpiresAt t).

Definition insert_task (t : Task) (db : Database) : driver_error + unit * Database :=
  if bool_decide (is_Some (tasks db !! t_ID t)) || existsb (fun kv => same_request t kv.2) (map_to_list (tasks db)) ||
     negb (references_identity db (t_IdentityID t)) || negb (references (sessions db) (t_SessionID t))
  then inl constraint_error
  else inr (tt, set_tasks db (<[t_ID t := task_row t]> (tasks db))).

Definition Task_Create (task : Task) : M (E:=E) unit :=
  task ← lift (normalizeTask task); statement mapWriteError (insert_task task).

Definition Task_GetByID (id : string) : M (E:=E) Task :=
  _ ← lift (validateUUID id "task ID");
  row ← statement (databaseError "read task") (fun db => inr (tasks db !! id, db));
  match row with None => fail (StorageError ErrNotFound) | Some task => mret task end.

(** [UPDATE tasks SET state = ?, result_json = ?, updated_at = ? WHERE id = ? AND ...] *)
Definition moved (next : State) (result : bytes) (updatedAt : time) (t : Task) : Task :=
  mkTask (t_ID t) (t_IdentityID t) (t_SessionID t) (t_Type t) next (t_Spec t) (stored_json result) (t_IdempotencyKey t)
    (t_CreatedAt t) updatedAt (t_ExpiresAt t).

Definition update_task (id : string) (p : Task -> bool) (next : State) (result : bytes) (updatedAt : time) (db : Database)
    : driver_error + Z * Database :=
  match tasks db !! id with
  | Some row => if p row then inr (1, set_tasks db (<[id := moved next result updatedAt row]> (tasks db))) else inr (0, db)
  | None => inr (0, db)
  end.

Definition task_missing (id : string) : M (E:=E) unit :=
  found ← try (Task_GetByID id);
  match found with
  | inl e => if storage_Is e ErrNotFound then fail (StorageError ErrNotFound) else fail (StorageError ErrConflict)
  | inr _ => fail (StorageError ErrConflict)
  end.

Definition Task_UpdateState (id : string) (expectedState nextState : State) (result : bytes) (updatedAt : time)
    : M (E:=E) unit :=
  _ ← lift (validateUUID id "task ID");
  _ ← lift (ValidateTransition expectedState nextState);
  _ ← lift (require (negb (IsZero updatedAt)) (NewError "expected state, next state and update time are required"));
  result ← lift (normalizeJSON result false "task result");
  count ← statement mapWriteError
            (update_task id (fun row => bool_decide (t_State row = expectedState)) nextState result updatedAt);
  if (count : Z) =? 1 then mret tt else task_missing id.

Definition Task_ClaimStale (id : string) (expectedState : State) (observedUpdatedAt : time) (nextState : State)
    (result : bytes) (updatedAt : time) : M (E:=E) unit :=
  _ ← lift (validateUUID id "task ID");
  _ ← lift (ValidateTransition expectedState nextState);
  _ ← lift (require (negb (IsZero observedUpdatedAt || IsZero updatedAt))
              (NewError "expected state, observed time, next state and update time are required"));
  result ← lift (normalizeJSON result false "task result");
  count ← statement mapWriteError
            (update_task id (fun row => bool_decide (t_State row = expectedState) && (t_UpdatedAt row =? observedUpdatedAt))
               nextState result updatedAt);
  if (count : Z) =? 1 then mret tt else task_missing id.

(** ** Audit events ([audit.go]) *)

Definition normalizeAuditEvent (event : AuditEvent) : M (E:=E) AuditEvent :=
  _ ← lift (validateUUID (a_ID event) "audit event ID");
  _ ← lift (if bool_decide (a_IdentityID event = "") then Ok tt else validateUUID (a_IdentityID event) "identity ID");
  let action := TrimSpace (a_Action event) in
  let outcome := TrimSpace (a_Outcome event) in
  let requestID := TrimSpace (a_RequestID event) in
  _ ← lift (require (negb (bool_decide (action = "") || bool_decide (outcome = "") || bool_decide (requestID = "")))
              (NewError "audit action, outcome and request ID are required"));
  metadata ← lift (normalizeJSON (a_Metadata event) false "audit metadata");
  createdAt ← (if IsZero (a_CreatedAt event) then time_Now else mret (a_CreatedAt event));
  mret (mkAuditEvent (a_ID event) (a_IdentityID event) action (TrimSpace (a_ResourceType event))
          (TrimSpace (a_ResourceID event)) outcome requestID metadata createdAt).

Definition insert_audit (event : AuditEvent) (db : Database) : driver_error + unit * Database :=
  if existsb (fun e => bool_decide (a_ID e = a_ID event)) (audit_events db) ||
     negb (bool_decide (a_IdentityID event = "") || references_identity db (a_IdentityID event))
  then inl constraint_error
  else inr (tt, set_audit db (audit_events db ++
         [mkAuditEvent (a_ID event) (a_IdentityID event) (a_Action event) (a_ResourceType event) (a_ResourceID event)
            (a_Outcome event) (a_RequestID event) (stored_json (a_Metadata event)) (a_CreatedAt event)])).

Definition Audit_Append (event : AuditEvent) : M (E:=E) unit :=
  event ← normalizeAuditEvent event; statement mapWriteError (insert_audit event).

(** ** Audited tasks ([task_audit.go])

    [requestID] is the correlation identifier of the context, or empty. *)

Definition appendTransition (requestID taskID : string) (previousState nextState : State) (createdAt : time) : M (E:=E) unit :=
  task ← Task_GetByID taskID;
  session ← Session_GetByID (t_SessionID task);
  '(requestID, source) ←
    (if bool_decide (TrimSpace requestID = "") then
       id ← uuid_NewString; mret ("background-" +:+ id, "background")
     else mret (TrimSpace requestID, auditSourceAPI));
  let metadata := mkTransitionMetadata (t_SessionID task) (s_Namespace session) previousState nextState source in
  eventID ← uuid_NewString;
  Audit_Append (mkAuditEvent eventID (t_IdentityID task) TaskTransitionAuditAction (t_Type task) (t_ID task) outcomeSuccess
    requestID (json_Marshal metadata) createdAt).

(** The repository inside a transaction, and the one of the store, which begins
    a transaction for each change. *)
Definition tx_UpdateState (requestID id : string) (expectedState nextState : State) (result : bytes) (updatedAt : time)
    : M (E:=E) unit :=
  _ ← Task_UpdateState id expectedState nextState result updatedAt;
  appendTransition requestID id expectedState nextState updatedAt.

Definition tx_ClaimStale (requestID id : string) (expectedState : State) (observedUpdatedAt : time) (nextState : State)
    (result : bytes) (updatedAt : time) : M (E:=E) unit :=
  _ ← Task_ClaimStale id expectedState observedUpdatedAt nextState result updatedAt;
  appendTransition requestID id expectedState nextState updatedAt.

Definition UpdateState (requestID id : string) (expectedState nextState : State) (result : bytes) (updatedAt : time)
    : M (E:=E) unit :=
  in_transaction store (tx_UpdateState requestID id expectedState nextState result updatedAt).

Definition ClaimStale (requestID id : string) (expectedState : State) (observedUpdatedAt : time) (nextState : State)
    (result : bytes) (updatedAt : time) : M (E:=E) unit :=
  in_transaction store (tx_ClaimStale requestID id expectedState observedUpdatedAt nextState result updatedAt).

(** ** Queries ([task_queries.go]) *)

Definition older_first (t u : Task) : Z :=
  if t_UpdatedAt t <? t_UpdatedAt u then -1 else if t_UpdatedAt u <? t_UpdatedAt t then 1
  else compareString (t_ID t) (t_ID u).

Definition select_stale (taskType : string) (states : list State) (before : time) (limit : Z) (db : Database) : list Task :=
  take (Z.to_nat limit)
    (SortFunc older_first
       (List.filter (fun t => bool_decide (t_Type t = taskType) && bool_decide (t_State t ∈ states) && (t_UpdatedAt t <? before))
          (map snd (map_to_list (tasks db))))).

Definition ListStaleByTypeStates (taskType : string) (states : list State) (before : time) (limit : Z)
    : M (E:=E) (list Task) :=
  let taskType := TrimSpace taskType in
  _ ← lift (require (negb (bool_decide (taskType = "") || (len states =? 0) || (16 <? len states) || IsZero before))
              (NewError "task type, states and stale boundary are required"));
  _ ← lift (require (negb ((limit <=? 0) || (1000 <? limit))) (NewError "task list limit must be between 1 and 1000"));
  _ ← lift (require (forallb Valid states) (NewError "task states cannot be empty"));
  statement (databaseError "list stale tasks") (fun db => inr (select_stale taskType states before limit db, db)).
End tasks.

(** * Idempotency records ([storage/idempotency.go]) *)


Section idempotency.
Context {E : Type} `{Engine E} `{JsonValidity}.

Definition normalizeIdempotencyRecord (r : IdempotencyRecord) : result IdempotencyRecord :=
  let scope := TrimSpace (i_Scope r) in
  let key := TrimSpace (i_Key r) in
  let hash := TrimSpace (i_RequestHash r) in
  let type := TrimSpace (i_ResourceType r) in
  let id := TrimSpace (i_ResourceID r) in
  _ ← require (negb (bool_decide (scope = "") || bool_decide (key = "") || bool_decide (hash = "") ||
                     bool_decide (type = "") || bool_decide (id = "")))
        (NewError "idempotency scope, key, request hash and resource identity are required");
  response ← normalizeJSON (i_Response r) false "idempotency response";
  _ ← require (negb (IsZero (i_CreatedAt r) || IsZero (i_ExpiresAt r) || negb (After (i_ExpiresAt r) (i_CreatedAt r))))
        (NewError "idempotency expiry must be after creation");
  Ok (mkIdempotencyRecord scope key hash type id response (i_CreatedAt r) (i_ExpiresAt r)).

(** [INSERT ... ON CONFLICT(scope, key) DO NOTHING]: the number of rows. *)
Definition insert_idempotency (r : IdempotencyRecord) (db : Database) : driver_error + Z * Database :=
  match idempotency_records db !! (i_Scope r, i_Key r) with
  | Some _ => inr (0, db)
  | None => inr (1, set_idempotency db (<[(i_Scope r, i_Key r) :=
      mkIdempotencyRecord (i_Scope r) (i_Key r) (i_RequestHash r) (i_ResourceType r) (i_ResourceID r)
        (stored_json (i_Response r)) (i_CreatedAt r) (i_ExpiresAt r)]> (idempotency_records db)))
  end.

Definition Idempotency_Get (scope key : string) : M (E:=E) IdempotencyRecord :=
  let scope := TrimSpace scope in
  let key := TrimSpace key in
  _ ← lift (require (negb (bool_decide (scope = "") || bool_decide (key = ""))) (NewError "idempotency scope and key are required"));
  row ← statement (databaseError "read idempotency record") (fun db => inr (idempotency_records db !! (scope, key), db));
  match row with None => fail (StorageError ErrNotFound) | Some record => mret record end.

Definition Idempotency_Reserve (record : IdempotencyRecord) : M (E:=E) (IdempotencyRecord * bool) :=
  record ← lift (normalizeIdempotencyRecord record);
  count ← statement mapWriteError (insert_idempotency record);
  if (count : Z) =? 1 then mret (record, true)
  else
    existing ← Idempotency_Get (i_Scope record) (i_Key record);
    if bool_decide (i_RequestHash existing = i_RequestHash record) then mret (existing, false)
    else fail (StorageError ErrIdempotencyMismatch).

(** [sql_repository.go] *)
Definition boundedLimit (limit : Z) : result Z :=
  if limit <=? 0 then Err (NewError "cleanup limit must be positive")
  else if 1000 <? limit then Err (NewError "cleanup limit must not exceed 1000")
  else Ok limit.

Definition expired_first (a b : IdempotencyRecord) : Z :=
  if i_ExpiresAt a <? i_ExpiresAt b then -1 else if i_ExpiresAt b <? i_ExpiresAt a then 1 else 0.

Definition delete_expired (before : time) (limit : Z) (db : Database) : driver_error + Z * Database :=
  let expired := take (Z.to_nat limit)
    (SortFunc expired_first (List.filter (fun r => i_ExpiresAt r <? before) (map snd (map_to_list (idempotency_records db))))) in
  inr (len expired,
       set_idempotency db (foldr (fun r m => delete (i_Scope r, i_Key r) m) (idempotency_records db) expired)).

Definition Idempotency_DeleteExpired (before : time) (limit : Z) : M (E:=E) Z :=
  limit ← lift (boundedLimit limit);
  statement (databaseError "delete expired idempotency records") (delete_expired before limit).
End idempotency.
