(* ===== verification/StorageFacts.v ===== *)
(** * Runs of statements and transactions

    What a statement, a transaction and the operations of the task repository
    can do to the tables, whatever the engine and the other clients do. *)

From S2P Require Import Prelude GoLib GoText External RemoteTask StorageEngine Netip NetworkSpec SessionStore TaskStore.

Section runs.
Context {E : Type} `{EN : Engine E}.
Implicit Types (w : World E) (db : Database).

Definition others_step (db db' : Database) : Prop := exists e : E, (engine_Others db e).1 = db'.

(** The tables before the next statement of a world. *)
Definition before_statement (w : World E) (db : Database) : Prop :=
  if w_tx w then db = w_db w else others_step (w_db w) db.

(** ** The monad *)

Lemma bind_inr {A B} (m : M (E:=E) A) (f : A -> M B) w b w' :
  (x ← m; f x) w = (inr b, w') <-> exists a w1, m w = (inr a, w1) /\ f a w1 = (inr b, w').
Proof.
  unfold mbind, M_bind. destruct (m w) as [[e|a] w1]; split.
  - discriminate.
  - by intros (a & w2 & ? & _).
  - intros Hf. by exists a, w1.
  - intros (a' & w2 & [= <- <-] & Hf). exact Hf.
Qed.

Lemma lift_inr {A} (r : result A) w a w' : lift (E:=E) r w = (inr a, w') <-> r = Ok a /\ w' = w.
Proof. unfold lift. destruct r; split; [intros [= -> ->]|intros [[= ->] ->]|discriminate|intros [? _]]; done. Qed.

Lemma mret_inr {A} (a b : A) w w' : (mret a : M (E:=E) A) w = (inr b, w') <-> b = a /\ w' = w.
Proof. unfold mret, M_ret. split; [by intros [= -> ->]|by intros [-> ->]]. Qed.

(** A computation does not leave a transaction and does not begin one. *)
Definition keeps_tx {A} (m : M (E:=E) A) : Prop := forall w, w_tx (m w).2 = w_tx w.

Lemma keeps_bind {A B} (m : M (E:=E) A) (f : A -> M B) : keeps_tx m -> (forall a, keeps_tx (f a)) -> keeps_tx (x ← m; f x).
Proof.
  intros Hm Hf w. unfold mbind, M_bind. specialize (Hm w). destruct (m w) as [[e|a] w1]; cbn [snd] in *; [done|].
  by rewrite Hf.
Qed.

Lemma keeps_of_sum {A} (r : storage_error + A) : keeps_tx (of_sum r).
Proof. by intros w. Qed.
Lemma keeps_ret {A} (a : A) : keeps_tx (mret a).
Proof. by intros w. Qed.
Lemma keeps_fail {A} e : keeps_tx (fail (A:=A) e).
Proof. by intros w. Qed.
Lemma keeps_lift {A} (r : result A) : keeps_tx (lift r).
Proof. intros w. unfold lift. by destruct r. Qed.
Lemma keeps_try {A} (m : M (E:=E) A) : keeps_tx m -> keeps_tx (try m).
Proof. intros Hm w. unfold try. specialize (Hm w). by destruct (m w). Qed.
Lemma keeps_uuid : keeps_tx uuid_NewString.
Proof. intros w. unfold uuid_NewString. by destruct (engine_NewUUID _). Qed.
Lemma keeps_now : keeps_tx time_Now.
Proof. intros w. unfold time_Now. by destruct (engine_Now _). Qed.

Lemma keeps_err : keeps_tx ctx_Err.
Proof. intros w. unfold ctx_Err. by destruct (engine_Err _). Qed.

(** ** Statements *)

Lemma interfere_spec w : before_statement w (w_db (interfere w)) /\ w_tx (interfere w) = w_tx w.
Proof.
  unfold interfere, before_statement. destruct (w_tx w) eqn:Et; [by rewrite Et|].
  destruct (engine_Others (w_db w) (w_engine w)) as [db e] eqn:Eo. split; [|done].
  exists (w_engine w). by rewrite Eo.
Qed.

Lemma statement_spec {A} wrap (f : Database -> driver_error + A * Database) w r w' :
  statement wrap f w = (r, w') ->
  w_tx w' = w_tx w /\ exists db, before_statement w db /\
  match r with
  | inr a => f db = inr (a, w_db w')
  | inl err => w_db w' = db \/ exists a, f db = inr (a, w_db w')
  end.
Proof.
  unfold statement. cbn zeta. pose proof (interfere_spec w) as [Hb Ht]. rewrite <- Ht in *.
  destruct (engine_Statement _) as [failure e]. intros E'.
  destruct failure as [failed|], (f (w_db (interfere w))) as [d|[a db]] eqn:Ef; injection E' as <- <-;
    (split; [done|]); exists (w_db (interfere w)); (split; [done|]); cbn [w_db]; try by left.
  - destruct (fault_applied failed); [right; by exists a|by left].
  - done.
Qed.

Lemma keeps_statement {A} wrap (f : Database -> driver_error + A * Database) : keeps_tx (statement wrap f).
Proof. intros w. destruct (statement wrap f w) as [r w'] eqn:Es. by destruct (statement_spec _ _ _ _ _ Es). Qed.

(** In a transaction a successful statement acts on the tables as they are. *)
Lemma statement_tx {A} wrap (f : Database -> driver_error + A * Database) w a w' :
  w_tx w = true -> statement wrap f w = (inr a, w') -> f (w_db w) = inr (a, w_db w') /\ w_tx w' = true.
Proof.
  intros Ht Es. destruct (statement_spec _ _ _ _ _ Es) as (Ht' & db & Hb & Hf). unfold before_statement in Hb.
  rewrite Ht in *. by subst db.
Qed.

(** ** Transactions *)

Section joint.
Context {C : Type} (J : C -> Database -> Prop) (function : Closure (E:=E) C).
Context (HJ : forall c db e, J c db -> J c (engine_Others (E:=E) db e).1).
Context (Hf : forall c w, w_tx w = true -> J c (w_db w) ->
  w_tx (function c w).2 = true /\ J (function c w).1.2 (w_db w) /\
  ((function c w).1.1 = None -> J (function c w).1.2 (w_db (function c w).2))).

(** The callback commits, with variables and in tables that satisfy [J]. *)
Definition commits_in (c c' : C) (db db' : Database) : Prop :=
  J c db /\ exists e e', function c (mkWorld db e true) = ((None, c'), mkWorld db' e' true).

Definition joint_step (db db' : Database) : Prop := others_step db db' \/ exists c c', commits_in c c' db db'.

Lemma joint_attempt c w r c' w' :
  withinTransactionAttempt function c w = ((r, c'), w') -> w_tx w = false -> J c (w_db w) ->
  w_tx w' = false /\ J c' (w_db w') /\ exists db, rtc joint_step (w_db w) db /\
  match r with None => commits_in c c' db (w_db w') | Some _ => w_db w' = db end.
Proof.
  unfold withinTransactionAttempt. cbn zeta. intros Ea Hw Hc. pose proof (interfere_spec w) as [Hb Ht].
  unfold before_statement in Hb. rewrite Hw in Hb, Ht. set (wi := interfere w) in *.
  assert (Hs : rtc joint_step (w_db w) (w_db wi)) by (apply rtc_once; by left).
  assert (Hii : J c (w_db wi)) by (destruct Hb as [e <-]; by apply HJ).
  destruct (engine_Begin (w_engine wi)) as [[d|] e].
  { injection Ea as <- <- <-. split; [done|]. split; [done|]. by exists (w_db wi). }
  destruct (Hf c (mkWorld (w_db wi) e true) eq_refl Hii) as (Htx & HP & HI').
  destruct (function c (mkWorld (w_db wi) e true)) as [[[err|] c1] w1] eqn:Ef; cbn [fst snd] in Htx, HP, HI'.
  { injection Ea as <- <- <-. split; [done|]. split; [done|]. by exists (w_db wi). }
  assert (Hcom : commits_in c c1 (w_db wi) (w_db w1)).
  { split; [done|]. exists e, (w_engine w1). rewrite Ef. by destruct w1; cbn in *; subst. }
  specialize (HI' eq_refl).
  destruct (engine_Commit (w_engine w1)) as [[failed|] e1]; injection Ea as <- <- <-; (split; [done|]); cbn [w_db].
  - split; [by destruct (fault_applied failed)|]. eexists. split; [|done]. destruct (fault_applied failed); [|done].
    eapply rtc_r; [exact Hs|]. right. by exists c, c1.
  - split; [done|]. by exists (w_db wi).
Qed.

Lemma joint_attempts store n : forall attempt c w r c' w',
  transaction_attempts store n attempt function c w = ((r, c'), w') -> w_tx w = false -> J c (w_db w) ->
  w_tx w' = false /\ J c' (w_db w') /\ exists db c0, rtc joint_step (w_db w) db /\
  match r with None => commits_in c0 c' db (w_db w') | Some _ => w_db w' = db end.
Proof.
  induction n as [|n IH]; intros attempt c w r c' w' Ea Hw Hc; cbn [transaction_attempts] in Ea;
    destruct (withinTransactionAttempt function c w) as [[[err|] c1] w1] eqn:E1;
    destruct (joint_attempt _ _ _ _ _ E1 Hw Hc) as (Hw1 & Hc1 & db & Hdb & Hr).
  - assert ((r, c', w') = (Some err, c1, w1)) as [= -> -> ->] by (destruct (_ || _); congruence).
    split; [done|]. split; [done|]. by exists db, c1.
  - injection Ea as <- <- <-. split; [done|]. split; [done|]. by exists db, c.
  - destruct (bool_decide _ || negb _ || _).
    { injection Ea as <- <- <-. split; [done|]. split; [done|]. by exists db, c1. }
    unfold waitForTransactionRetry in Ea. destruct (engine_Wait _ _) as [ended e]. destruct ended.
    { injection Ea as <- <- <-. split; [done|]. split; [done|]. by exists db, c1. }
    destruct (IH _ _ _ _ _ _ Ea Hw1 Hc1) as (Hw' & Hc' & db' & c0 & Hdb' & Hr').
    split; [done|]. split; [done|]. exists db', c0. split; [|done]. cbn [w_db] in Hdb'. rewrite Hr in Hdb'.
    by transitivity db.
  - injection Ea as <- <- <-. split; [done|]. split; [done|]. by exists db, c.
Qed.

(** A transaction is the steps of others and commits of its callback, the last
    one its own when it returns no error. *)
Lemma joint_transaction store c w r c' w' :
  WithinTransaction store function c w = ((r, c'), w') -> w_tx w = false -> J c (w_db w) ->
  w_tx w' = false /\ J c' (w_db w') /\ exists db c0, rtc joint_step (w_db w) db /\
  match r with None => commits_in c0 c' db (w_db w') | Some _ => w_db w' = db end.
Proof. apply joint_attempts. Qed.
End joint.

(** The same when the tables and the variables are looked at separately. *)
Section transaction.
Context {C : Type} (I : Database -> Prop) (P : C -> Prop) (function : Closure (E:=E) C).
Context (HI : forall db e, I db -> I (engine_Others (E:=E) db e).1).
Context (Hf : forall c w, w_tx w = true -> I (w_db w) -> P c ->
  w_tx (function c w).2 = true /\ P (function c w).1.2 /\ ((function c w).1.1 = None -> I (w_db (function c w).2))).

Definition commits (c c' : C) (db db' : Database) : Prop :=
  I db /\ P c /\ exists e e', function c (mkWorld db e true) = ((None, c'), mkWorld db' e' true).

Definition tx_step (db db' : Database) : Prop := others_step db db' \/ exists c c', commits c c' db db'.

Lemma transaction_spec store c w r c' w' :
  WithinTransaction store function c w = ((r, c'), w') -> w_tx w = false -> P c -> I (w_db w) ->
  w_tx w' = false /\ P c' /\ I (w_db w') /\ exists db c0, rtc tx_step (w_db w) db /\
  match r with None => commits c0 c' db (w_db w') | Some _ => w_db w' = db end.
Proof.
  intros Ht Hw Hc Hi.
  destruct (joint_transaction (fun c db => I db /\ P c) function) with (store := store) (c := c) (w := w) (r := r) (c' := c') (w' := w')
    as (Hw' & [Hi' Hc'] & db & c0 & Hs & Hr); try done.
  - intros c1 db e [? ?]. split; [by apply HI|done].
  - intros c1 w1 Hw1 [Hi1 Hc1]. destruct (Hf c1 w1 Hw1 Hi1 Hc1) as (? & ? & Hn). split; [done|]. split; [done|]. split; [by apply Hn|done].
  - split; [done|]. split; [done|]. split; [done|]. exists db, c0. split.
    + revert Hs. apply rtc_subrel. intros x y [?|(c1 & c2 & [[? ?] ?])]; [by left|right]. by exists c1, c2.
    + destruct r; [done|]. destruct Hr as [[? ?] ?]. by split.
Qed.
End transaction.

(** The same for a callback without captured variables. *)
Definition commit_step (m : M (E:=E) unit) (db db' : Database) : Prop :=
  exists e e', m (mkWorld db e true) = (inr tt, mkWorld db' e' true).

Definition run_step (m : M (E:=E) unit) (db db' : Database) : Prop := others_step db db' \/ commit_step m db db'.

Lemma in_transaction_spec store (m : M (E:=E) unit) w r w' :
  keeps_tx m -> in_transaction store m w = (r, w') -> w_tx w = false ->
  w_tx w' = false /\ exists db, rtc (run_step m) (w_db w) db /\
  match r with inr _ => commit_step m db (w_db w') | inl _ => w_db w' = db end.
Proof.
  intros Hm Ei Hw. unfold in_transaction, run_transaction, mbind, M_bind in Ei.
  destruct (WithinTransaction store (closure m) tt w) as [[err c] w1] eqn:Et.
  assert (Hcl : forall c db db', (exists c', commits (fun _ => True) (fun _ => True) (closure m) c c' db db') -> commit_step m db db').
  { intros ? db db' (c' & _ & _ & e & e' & Ec). exists e, e'. unfold closure in Ec.
    destruct (m (mkWorld db e true)) as [[?|[]] w2]; congruence. }
  destruct (transaction_spec (fun _ => True) (fun _ => True) (closure m)) with (store:=store) (c:=tt) (w:=w) (r:=err) (c':=c) (w':=w1)
    as (Hw1 & _ & _ & db & c0 & Hdb & Hr); try done.
  { intros ? w2 Hw2 _ _. split; [|done]. unfold closure. specialize (Hm w2). destruct (m w2) as [[?|?] w3]; cbn [snd] in *; congruence. }
  assert (Hsteps : rtc (run_step m) (w_db w) db).
  { clear -Hdb Hcl. induction Hdb as [|x y z [Hs|(c1 & c2 & Hs)] _ IH]; [done|..].
    - eapply rtc_l; [by left|done].
    - eapply rtc_l; [right; apply (Hcl c1); by exists c2|done]. }
  destruct err as [e|]; unfold fail, mret, M_ret in Ei; injection Ei as <- <-; (split; [done|]); exists db; (split; [done|]).
  - done.
  - apply (Hcl c0). by exists c.
Qed.
End runs.

#[export] Hint Resolve keeps_bind keeps_of_sum keeps_ret keeps_fail keeps_lift keeps_try keeps_uuid keeps_now keeps_err keeps_statement : kube.

(** * A program logic for the storage layer

    Triples over the tables: from tables that satisfy the precondition a
    computation leads, by steps of a given relation, to tables and a value that
    satisfy the postcondition, whatever the engine does and with other clients
    acting in between.  Assertions that the steps preserve are stable. *)


(** What all clients of the database keep to: the steps they make, and an
    invariant of the tables. *)
Record Protocol {E : Type} `{EN : Engine E} := mkProtocol {
  p_step : Database -> Database -> Prop;
  p_inv : Database -> Prop;
  others_steps : forall db (e : E), p_inv db -> rtc p_step db (engine_Others db e).1;
  step_inv : forall db db', p_inv db -> p_step db db' -> p_inv db'
}.
Arguments Protocol E {EN}.

Section logic.
Context {E : Type} `{EN : Engine E} (p : Protocol E).
Implicit Types (w : World E) (db : Database) (P F : Database -> Prop).

#[local] Abbreviation R := (p_step p).
#[local] Abbreviation inv := (p_inv p).

Lemma steps_inv db db' : rtc R db db' -> inv db -> inv db'.
Proof. induction 1 as [|x y z Hxy _ IH]; [done|]. intros Hi. by apply IH, (step_inv p x). Qed.

Definition triple {A} P (m : M (E:=E) A) (Q : A -> Database -> Prop) : Prop :=
  forall w r w', m w = (r, w') -> w_tx w = false -> inv (w_db w) -> P (w_db w) ->
  w_tx w' = false /\ rtc R (w_db w) (w_db w') /\ forall a, r = inr a -> Q a (w_db w').

Definition stable P : Prop := forall db db', inv db -> R db db' -> P db -> P db'.

Lemma stable_steps P db db' : stable P -> rtc R db db' -> inv db -> P db -> P db'.
Proof. intros Hs. induction 1 as [|x y z Hxy _ IH]; [done|]. intros Hi HP. apply IH; [by apply (step_inv p x)|by apply (Hs x)]. Qed.

Lemma stable_true : stable (fun _ => True).
Proof. done. Qed.

Lemma stable_and P F : stable P -> stable F -> stable (fun db => P db /\ F db).
Proof. intros HP HF db db' Hi Hr [? ?]. split; [by apply (HP db)|by apply (HF db)]. Qed.

(** ** Rules *)

Lemma proves_conseq {A} P P' (m : M (E:=E) A) (Q Q' : A -> Database -> Prop) :
  triple P' m Q' -> (forall db, inv db -> P db -> P' db) -> (forall a db, inv db -> Q' a db -> Q a db) -> triple P m Q.
Proof.
  intros Hm HP HQ w r w' Hr Hw Hi Hp. destruct (Hm w r w' Hr Hw Hi (HP _ Hi Hp)) as (Hw' & Hs & Hq).
  split; [done|]. split; [done|]. intros a Ha. apply HQ; [by apply (steps_inv (w_db w))|by apply Hq].
Qed.

Lemma proves_post {A} P (m : M (E:=E) A) (Q Q' : A -> Database -> Prop) :
  triple P m Q' -> (forall a db, inv db -> Q' a db -> Q a db) -> triple P m Q.
Proof. intros Hm HQ. by apply (proves_conseq P P m Q Q'). Qed.

Lemma proves_frame {A} P F (m : M (E:=E) A) (Q : A -> Database -> Prop) :
  stable F -> triple P m Q -> triple (fun db => P db /\ F db) m (fun a db => Q a db /\ F db).
Proof.
  intros HF Hm w r w' Hr Hw Hi [Hp Hf]. destruct (Hm w r w' Hr Hw Hi Hp) as (Hw' & Hs & Hq). split; [done|]. split; [done|].
  intros a Ha. split; [by apply Hq|by apply (stable_steps F (w_db w))].
Qed.

(** A pure fact of the precondition. *)
Lemma proves_pure {A} (phi : Prop) P (m : M (E:=E) A) Q : (phi -> triple P m Q) -> triple (fun db => P db /\ phi) m Q.
Proof. intros Hm w r w' Hr Hw Hi [Hp Hphi]. by apply (Hm Hphi w r w'). Qed.

Lemma proves_exists {A X} (P : X -> Database -> Prop) (m : M (E:=E) A) Q :
  (forall x, triple (P x) m Q) -> triple (fun db => exists x, P x db) m Q.
Proof. intros Hm w r w' Hr Hw Hi [x Hp]. by apply (Hm x w r w'). Qed.

Lemma proves_ret {A} (a : A) (Q : A -> Database -> Prop) : triple (Q a) (mret a) Q.
Proof. intros w r w' [= <- <-] Hw Hi Hp. split; [done|]. split; [done|]. by intros ? [= <-]. Qed.

Lemma proves_fail {A} P e (Q : A -> Database -> Prop) : triple P (fail e) Q.
Proof. intros w r w' [= <- <-] Hw Hi Hp. split; [done|]. split; [done|]. done. Qed.

Lemma proves_bind {A B} P (m : M (E:=E) A) (f : A -> M B) (Q : A -> Database -> Prop) (S : B -> Database -> Prop) :
  triple P m Q -> (forall a, triple (Q a) (f a) S) -> triple P (x ← m; f x) S.
Proof.
  intros Hm Hf w r w' Hr Hw Hi Hp. unfold mbind, M_bind in Hr. destruct (m w) as [[e|a] w1] eqn:Em;
    destruct (Hm w _ w1 Em Hw Hi Hp) as (Hw1 & Hs1 & Hq).
  - injection Hr as <- <-. split; [done|]. split; [done|]. done.
  - destruct (Hf a w1 r w' Hr Hw1 (steps_inv _ _ Hs1 Hi) (Hq a eq_refl)) as (Hw' & Hs' & Hq'). split; [done|].
    split; [by etransitivity|done].
Qed.

Lemma proves_of_sum {A} P (r : storage_error + A) (Q : A -> Database -> Prop) :
  (forall a db, r = inr a -> P db -> Q a db) -> triple P (of_sum r) Q.
Proof. intros HQ w r' w' [= <- <-] Hw Hi Hp. split; [done|]. split; [done|]. intros a Ha. by apply HQ. Qed.

Lemma proves_lift {A} P (r : result A) (Q : A -> Database -> Prop) :
  (forall a db, r = Ok a -> P db -> Q a db) -> triple P (lift r) Q.
Proof.
  intros HQ w r' w' Hr Hw Hi Hp. unfold lift in Hr. destruct r as [a|e]; injection Hr as <- <-; (split; [done|]; split; [done|]).
  - intros a' [= <-]. by apply HQ.
  - done.
Qed.

(** Checks, whose values do not matter. *)
Lemma proves_check {A} P (r : result A) : triple P (lift r) (fun _ => P).
Proof. apply proves_lift. by intros a db _ Hp. Qed.

Lemma proves_value {A} P (r : storage_error + A) : triple P (of_sum r) (fun _ => P).
Proof. apply proves_of_sum. by intros a db _ Hp. Qed.

Lemma proves_try {A} P (m : M (E:=E) A) (Q : A -> Database -> Prop) :
  triple P m Q -> triple P (try m) (fun r db => forall a, r = inr a -> Q a db).
Proof.
  intros Hm w r w' Hr Hw Hi Hp. unfold try in Hr. destruct (m w) as [r1 w1] eqn:Em.
  destruct (Hm w r1 w1 Em Hw Hi Hp) as (Hw1 & Hs & Hq). injection Hr as <- <-. split; [done|]. split; [done|].
  intros r' [= <-]. exact Hq.
Qed.

(** After an error a stable precondition still holds. *)
Lemma proves_try_stable {A} P (m : M (E:=E) A) (Q : A -> Database -> Prop) :
  stable P -> triple P m Q -> triple P (try m) (fun r db => match r with inl _ => P db | inr a => Q a db end).
Proof.
  intros Hst Hm w r w' Hr Hw Hi Hp. unfold try in Hr. destruct (m w) as [r1 w1] eqn:Em.
  destruct (Hm w r1 w1 Em Hw Hi Hp) as (Hw1 & Hs & Hq). injection Hr as <- <-. split; [done|]. split; [done|].
  intros r' [= <-]. destruct r1 as [e|a]; [by apply (stable_steps P (w_db w))|by apply Hq].
Qed.

Lemma proves_uuid P : triple P uuid_NewString (fun _ => P).
Proof. intros w r w' Hr Hw Hi Hp. unfold uuid_NewString in Hr. destruct (engine_NewUUID _). injection Hr as <- <-. split; [done|]. split; [done|]. intros a _. exact Hp. Qed.

(** The clock of the engine may show this reading. *)
Definition reading (t : Z) : Prop := exists e : E, (engine_Now e).1 = t.

Lemma proves_now P : triple P time_Now (fun t db => P db /\ reading t).
Proof.
  intros w r w' Hr Hw Hi Hp. unfold time_Now in Hr. destruct (engine_Now _) as [t e] eqn:En. injection Hr as <- <-.
  split; [done|]. split; [done|]. intros a [= <-]. split; [done|]. exists (w_engine w). by rewrite En.
Qed.

Lemma before_steps w db : w_tx w = false -> inv (w_db w) -> before_statement w db -> rtc R (w_db w) db.
Proof. intros Hw Hi Hb. unfold before_statement in Hb. rewrite Hw in Hb. destruct Hb as [e <-]. by apply others_steps. Qed.

Lemma proves_statement {A} P wrap (f : Database -> driver_error + A * Database) (Q : A -> Database -> Prop) :
  stable P -> (forall db, inv db -> P db -> match f db with inr (a, db') => rtc R db db' /\ Q a db' | inl _ => True end) ->
  triple P (statement wrap f) Q.
Proof.
  intros Hst Hf w r w' Hr Hw Hi Hp. destruct (statement_spec _ _ _ _ _ Hr) as (Hw' & db & Hb & Hres). rewrite Hw in Hw'.
  pose proof (before_steps w db Hw Hi Hb) as Hs. pose proof (steps_inv _ _ Hs Hi) as Hidb.
  specialize (Hf db Hidb (stable_steps P _ _ Hst Hs Hi Hp)). split; [done|]. destruct r as [err|a].
  - split; [|done]. destruct Hres as [->|(a & Ha)]; [done|]. rewrite Ha in Hf. destruct Hf. by transitivity db.
  - rewrite Hres in Hf. destruct Hf. split; [by transitivity db|]. by intros a' [= <-].
Qed.

(** A statement that reads. *)
Lemma proves_read {A} P wrap (f : Database -> A) (Q : A -> Database -> Prop) :
  stable P -> (forall db, inv db -> P db -> Q (f db) db) -> triple P (statement wrap (fun db => inr (f db, db))) Q.
Proof. intros Hst Hf. apply proves_statement; [done|]. intros db Hi Hp. split; [done|]. by apply Hf. Qed.

Lemma proves_in_transaction P store (m : M (E:=E) unit) (Q : Database -> Prop) :
  stable P -> keeps_tx m ->
  (forall db db', inv db -> P db -> commit_step m db db' -> rtc R db db' /\ Q db') ->
  triple P (in_transaction store m) (fun _ => Q).
Proof.
  intros Hst Hm Hc w r w' Hr Hw Hi Hp. destruct (in_transaction_spec _ _ _ _ _ Hm Hr Hw) as (Hw' & db & Hs & Hlast).
  assert (Hsteps : forall x y, rtc (run_step m) x y -> inv x -> P x -> rtc R x y).
  { induction 1 as [|x y z Hxy _ IH]; [done|]. intros Hx HPx. assert (Hr1 : rtc R x y).
    { destruct Hxy as [[e <-]|Hxy]; [by apply others_steps|]. by destruct (Hc x y Hx HPx Hxy). }
    transitivity y; [done|]. apply IH; [by apply (steps_inv x)|by apply (stable_steps P x)]. }
  pose proof (Hsteps _ _ Hs Hi Hp) as Hdb. split; [done|]. destruct r as [err|u].
  - rewrite Hlast. split; [done|]. discriminate.
  - destruct (Hc db (w_db w')) as [Hs' Hq]; [by apply (steps_inv (w_db w))|by apply (stable_steps P (w_db w))|done|].
    split; [by transitivity db|]. done.
Qed.

(** A transaction with captured variables: they and the tables satisfy [J]
    between attempts, and a commit is steps. *)
Lemma proves_run_transaction {C} P store (function : Closure (E:=E) C) (c : C) (J : C -> Database -> Prop) (Q : C -> Database -> Prop) :
  (forall c, stable (J c)) -> (forall db, inv db -> P db -> J c db) ->
  (forall c w, w_tx w = true -> inv (w_db w) -> J c (w_db w) ->
     w_tx (function c w).2 = true /\ J (function c w).1.2 (w_db w) /\
     ((function c w).1.1 = None -> rtc R (w_db w) (w_db (function c w).2) /\ Q (function c w).1.2 (w_db (function c w).2) /\
        J (function c w).1.2 (w_db (function c w).2))) ->
  triple P (run_transaction store function c) (fun r db => r.1 = None -> Q r.2 db).
Proof.
  intros Hst HJ Hf w r w' Hr Hw Hi Hp. unfold run_transaction in Hr.
  destruct (WithinTransaction store function c w) as [[err c'] w1] eqn:Et. injection Hr as <- <-.
  destruct (joint_transaction (fun c db => inv db /\ J c db) function) with (store := store) (c := c) (w := w) (r := err) (c' := c') (w' := w1)
    as (Hw' & [_ _] & db & c0 & Hs & Hlast); try done.
  - intros c1 db1 e [Hi1 HJ1]. pose proof (others_steps p db1 e Hi1) as Hs1. split; [by apply (steps_inv db1)|by apply (stable_steps _ db1)].
  - intros c1 w2 Hw2 [Hi2 HJ2]. destruct (Hf c1 w2 Hw2 Hi2 HJ2) as (Htx & HJ' & Hn). split; [done|]. split; [done|].
    intros Hnone. destruct (Hn Hnone) as (Hs2 & _ & HJ3). split; [by apply (steps_inv (w_db w2))|done].
  - split; [done|by apply HJ].
  - assert (Hcommit : forall c1 c2 x y, commits_in (fun c db => inv db /\ J c db) function c1 c2 x y -> rtc R x y /\ Q c2 y).
    { intros c1 c2 x y ([Hx HJx] & e & e' & Hc). destruct (Hf c1 (mkWorld x e true) eq_refl Hx HJx) as (_ & _ & Hn).
      rewrite Hc in Hn. destruct (Hn eq_refl) as (? & ? & _). done. }
    assert (Hdb : rtc R (w_db w) db /\ inv db).
    { clear Hlast Et. revert Hi Hs. generalize (w_db w). intros x Hx Hs. induction Hs as [|x y z Hxy _ IH]; [done|].
      assert (Hr1 : rtc R x y).
      { destruct Hxy as [[e <-]|(c1 & c2 & Hxy)]; [by apply others_steps|]. by destruct (Hcommit _ _ _ _ Hxy). }
      destruct (IH (steps_inv _ _ Hr1 Hx)) as [Hyz Hz]. split; [by transitivity y|done]. }
    destruct Hdb as [Hdb Hidb]. split; [done|]. destruct err as [err|].
    + rewrite Hlast. split; [done|]. intros [a1 a2] [= <- <-]. done.
    + destruct (Hcommit _ _ _ _ Hlast) as [Hs' Hq]. split; [by transitivity db|]. intros [a1 a2] [= <- <-] _. exact Hq.
Qed.
End logic.

Arguments proves_bind {E EN p A B P m f} Q {S} _ _.
Arguments proves_conseq {E EN p A P} P' {m Q} Q' _ _ _.
Arguments proves_post {E EN p A P m Q} Q' _ _.
