(* ===== verification/TaskStoreFacts.v ===== *)
(** * Correctness of the task repository

    Every change of a task's state that is committed is one of the changes
    below, so the audit trail of a task is the history of its state. *)

From S2P Require Import Prelude GoLib GoText External RemoteTask StorageEngine Netip NetworkSpec SessionStore TaskStore.
From S2P Require Import StorageFacts.

(** [uuid.Parse] accepts no leading or trailing space. *)
Class UuidLaws `{UuidPackage} : Prop := { uuid_trimmed : forall s u, uuid_Parse s = Some u -> TrimSpace s = s }.

Section facts.
Context {E : Type} `{EN : Engine E} `{UP : UuidPackage} `{NP : NetipPackage} `{JS : JsonCodec Spec} `{JU : JsonCodec unit}
  `{HP : HashPackage} `{JV : JsonValidity} `{JT : JsonCodec transitionMetadata} {UL : UuidLaws} (store : Store).
Implicit Types (db : Database) (w : World E).

(** What the engine gives back of the metadata that was stored. *)
Class MetadataStored : Prop := {
  metadata_roundtrip : forall m : transitionMetadata, json_Decode (stored_json (json_Marshal m)) = Some (m, [])
}.
Context {MS : MetadataStored}.

(** ** The trail of a task *)

Definition event_transition (id : string) (ev : AuditEvent) : option (State * State) :=
  if bool_decide (a_Action ev = TaskTransitionAuditAction) && bool_decide (a_ResourceID ev = id)
  then '(m, _) ← json_Decode (A:=transitionMetadata) (a_Metadata ev); Some (tm_PreviousState m, tm_NextState m)
  else None.

Definition trail (id : string) (db : Database) : list (State * State) := omap (event_transition id) (audit_events db).

(** The transitions lead from one state to the other. *)
Fixpoint leads (s : State) (steps : list (State * State)) (t : State) : Prop :=
  match steps with
  | [] => s = t
  | (a, b) :: rest => s = a /\ transition a b = true /\ leads b rest t
  end.

Lemma leads_snoc s steps t u : leads s steps t -> transition t u = true -> leads s (steps ++ [(t, u)]) u.
Proof.
  revert s. induction steps as [|[a b] steps IH]; intros s Hl Ht; cbn [leads app] in *; [by subst|].
  destruct Hl as (-> & Hab & Hl). split; [done|]. split; [done|]. by apply IH.
Qed.

(** A trail is a history of states. *)
Lemma leads_history s steps t : leads s steps t -> history s (map snd steps) /\ last (s :: map snd steps) = Some t.
Proof.
  revert s. induction steps as [|[a b] steps IH]; intros s Hl; cbn [leads map] in *; [by subst|].
  destruct Hl as (-> & Hab & Hl). destruct (IH b Hl) as [Hh Hlast]. split; [by split|].
  cbn [snd]. change (last (a :: b :: map snd steps)) with (last (b :: map snd steps)). done.
Qed.

(** ** The changes that are committed *)

Inductive change (db : Database) : Database -> Prop :=
| change_create (t : Task) (db' : Database) :
    (exists t0, normalizeTask t0 = Ok t) -> insert_task t db = inr (tt, db') -> trail (t_ID t) db = [] -> change db db'
| change_move (id : string) (row : Task) (next : State) (result : bytes) (updatedAt : time) (ev : AuditEvent) :
    tasks db !! id = Some row -> transition (t_State row) next = true ->
    event_transition id ev = Some (t_State row, next) ->
    (forall id', id' <> id -> event_transition id' ev = None) ->
    change db (set_audit (set_tasks db (<[id := moved next result updatedAt row]> (tasks db))) (audit_events db ++ [ev]))
| change_delete (id : string) : change db (set_tasks db (delete id (tasks db)))
| change_audit (ev : AuditEvent) :
    a_Action ev <> TaskTransitionAuditAction -> change db (set_audit db (audit_events db ++ [ev]))
| change_sessions (s : gmap string Session) : change db (set_sessions db s)
| change_idempotency (i : gmap (string * string) IdempotencyRecord) : change db (set_idempotency db i)
| change_identities (i : gmap string StoredIdentity) : change db (set_identities db i)
| change_directory (d : Directory) : change db (set_directory db d).

(** Rows are stored under their identifier, and their trail leads to their state. *)
Record trails_ok (db : Database) : Prop := {
  row_id : map_Forall (fun id row => t_ID row = id /\ is_Some (uuid_Parse id)) (tasks db);
  row_trail : map_Forall (fun id row => exists s, leads s (trail id db) (t_State row)) (tasks db)
}.

Lemma trail_snoc id db ev tasks' :
  trail id (set_audit (set_tasks db tasks') (audit_events db ++ [ev])) =
    trail id db ++ match event_transition id ev with Some st => [st] | None => [] end.
Proof. unfold trail. cbn [audit_events set_audit]. rewrite omap_app. cbn [omap list_omap]. by destruct (event_transition id ev). Qed.

Lemma normalizeTask_uuid t0 t : normalizeTask t0 = Ok t -> is_Some (uuid_Parse (t_ID t)).
Proof.
  unfold normalizeTask. cbn zeta. intros Hn. inv_ok. cbn [t_ID].
  match goal with Hv : validateUUID (t_ID t0) _ = Ok _ |- _ => unfold validateUUID in Hv; by destruct (uuid_Parse (t_ID t0)) end.
Qed.

Lemma change_trails db db' : change db db' -> trails_ok db -> trails_ok db'.
Proof.
  intros Hc [Hid Htr]. destruct Hc as [t db' [t0 Hn] Hi Hfresh|id row next result updatedAt ev Hrow Ht Hev Hother|id|ev Hev|s|i|i|d];
    [| | | |by split..].
  - unfold insert_task in Hi. destruct (_ || _); [discriminate Hi|]. injection Hi as <-.
    split; cbn [tasks set_tasks]; intros id row Hr; rewrite lookup_insert in Hr; case_decide as Hd;
      [injection Hr as <-; subst id|by apply Hid|injection Hr as <-; subst id|by apply Htr].
    + split; [done|]. by apply (normalizeTask_uuid t0).
    + exists (t_State t). change (leads (t_State t) (trail (t_ID t) db) (t_State t)). by rewrite Hfresh.
  - split; cbn [tasks set_tasks set_audit]; intros id' row' Hr; rewrite lookup_insert in Hr; case_decide as Hd;
      [injection Hr as <-; subst id'|by apply Hid|injection Hr as <-; subst id'|].
    + by apply (Hid id row).
    + destruct (Htr id row Hrow) as (s & Hl). exists s. rewrite trail_snoc, Hev. by apply leads_snoc.
    + destruct (Htr id' row' Hr) as (s & Hl). exists s. by rewrite trail_snoc, Hother, app_nil_r.
  - split; cbn [tasks set_tasks]; intros id' row' [_ Hr]%lookup_delete_Some; [by apply Hid|by apply Htr].
  - split; [done|]. cbn [tasks set_audit]. intros id row Hr. destruct (Htr id row Hr) as (s & Hl). exists s.
    unfold trail. cbn [audit_events set_audit]. rewrite omap_app. cbn [omap list_omap].
    assert (event_transition id ev = None) as ->; [|by rewrite app_nil_r].
    unfold event_transition. by rewrite bool_decide_eq_false_2.
Qed.

Lemma changes_trails db db' : rtc change db db' -> trails_ok db -> trails_ok db'.
Proof. induction 1 as [|x y z Hc _ IH]; [done|]. intros Hok. by apply IH, (change_trails x). Qed.

(** ** Reads *)

Lemma statement_read_tx {A} wrap (f : Database -> A) w a w' :
  w_tx w = true -> statement wrap (fun db => inr (f db, db)) w = (inr a, w') -> a = f (w_db w) /\ w_db w' = w_db w /\ w_tx w' = true.
Proof. intros Ht Es. destruct (statement_tx _ _ _ _ _ Ht Es) as [[= -> ->] ?]. done. Qed.

Lemma Task_GetByID_tx id w task w' :
  w_tx w = true -> Task_GetByID id w = (inr task, w') ->
  is_Some (uuid_Parse id) /\ tasks (w_db w) !! id = Some task /\ w_db w' = w_db w /\ w_tx w' = true.
Proof.
  unfold Task_GetByID. intros Ht (u & w1 & [Hu ->]%lift_inr & (row & w2 & Hs & Hr)%bind_inr)%bind_inr.
  destruct (statement_read_tx _ _ _ _ _ Ht Hs) as (-> & Hdb & Ht2). unfold validateUUID in Hu.
  destruct (uuid_Parse id) eqn:Eu; [|discriminate Hu].
  destruct (tasks (w_db w) !! id) as [row|] eqn:El; [|discriminate Hr]. apply mret_inr in Hr as [-> ->]. by split; [eexists|].
Qed.

Lemma Session_GetByID_tx id w session w' :
  w_tx w = true -> Session_GetByID id w = (inr session, w') -> w_db w' = w_db w /\ w_tx w' = true.
Proof.
  unfold Session_GetByID. intros Ht (u & w1 & [Hu ->]%lift_inr & (row & w2 & Hs & Hr)%bind_inr)%bind_inr.
  destruct (statement_read_tx _ _ _ _ _ Ht Hs) as (-> & Hdb & Ht2).
  destruct (sessions (w_db w) !! id) as [row|] eqn:El; [|discriminate Hr]. unfold of_sum in Hr. by injection Hr as _ <-.
Qed.

(** ** The writes *)

Lemma keeps_GetByID id : keeps_tx (Task_GetByID id).
Proof. unfold Task_GetByID. apply keeps_bind; [auto with kube|]. intros _. apply keeps_bind; [auto with kube|]. intros [?|]; auto with kube. Qed.

Lemma keeps_task_missing id : keeps_tx (task_missing id).
Proof.
  unfold task_missing. apply keeps_bind; [apply keeps_try, keeps_GetByID|]. intros [e|t]; [destruct (storage_Is e _)|]; auto with kube.
Qed.

(** The statement of both updates, and what follows it. *)
Lemma update_tx id p next result updatedAt w w' :
  w_tx w = true ->
  (count ← statement mapWriteError (update_task id p next result updatedAt);
   if (count : Z) =? 1 then mret tt else task_missing id) w = (inr tt, w') ->
  w_tx w' = true /\ exists row, tasks (w_db w) !! id = Some row /\ p row = true /\
  w_db w' = set_tasks (w_db w) (<[id := moved next result updatedAt row]> (tasks (w_db w))).
Proof.
  intros Ht (count & w1 & Hs & Hr)%bind_inr. destruct (statement_tx _ _ _ _ _ Ht Hs) as [Hf Ht1].
  unfold update_task in Hf. destruct (tasks (w_db w) !! id) as [row|] eqn:El.
  - destruct (p row) eqn:Ep.
    + injection Hf as <- Hdb. cbn [Z.eqb Pos.eqb] in Hr. apply mret_inr in Hr as [_ ->]. split; [done|]. by exists row.
    + injection Hf as <- Hdb. cbn [Z.eqb] in Hr. exfalso. unfold task_missing in Hr.
      apply bind_inr in Hr as (found & w2 & _ & Hr). by destruct found as [e|t]; [destruct (storage_Is e _)|].
  - injection Hf as <- Hdb. cbn [Z.eqb] in Hr. exfalso. unfold task_missing in Hr.
    apply bind_inr in Hr as (found & w2 & _ & Hr). by destruct found as [e|t]; [destruct (storage_Is e _)|].
Qed.

Lemma Task_UpdateState_tx id expected next result updatedAt w w' :
  w_tx w = true -> Task_UpdateState id expected next result updatedAt w = (inr tt, w') ->
  w_tx w' = true /\ transition expected next = true /\ updatedAt <> 0 /\
  exists row, tasks (w_db w) !! id = Some row /\ t_State row = expected /\
  w_db w' = set_tasks (w_db w) (<[id := moved next result updatedAt row]> (tasks (w_db w))).
Proof.
  unfold Task_UpdateState. intros Ht (u1 & ? & [_ ->]%lift_inr & Hr)%bind_inr.
  apply bind_inr in Hr as (u2 & ? & [Htr ->]%lift_inr & Hr). apply bind_inr in Hr as (u3 & ? & [Hz ->]%lift_inr & Hr).
  apply bind_inr in Hr as (r & ? & [Hj ->]%lift_inr & Hr).
  destruct (update_tx _ _ _ _ _ _ _ Ht Hr) as (Ht' & row & Hrow & Hp & Hdb). apply bool_decide_eq_true in Hp.
  split; [done|]. split; [by apply (transition_ok _ _ u2)|]. split; [intros ->; discriminate Hz|]. exists row. split; [done|].
  split; [done|]. rewrite Hdb. unfold normalizeJSON in Hj. destruct (Z.eqb_spec (len result) 0) as [El|_].
  - injection Hj as <-. apply len_zero in El as ->. done.
  - destruct (json_Valid result); [|discriminate Hj]. by injection Hj as <-.
Qed.

Lemma Task_ClaimStale_tx id expected observed next result updatedAt w w' :
  w_tx w = true -> Task_ClaimStale id expected observed next result updatedAt w = (inr tt, w') ->
  w_tx w' = true /\ transition expected next = true /\ updatedAt <> 0 /\
  exists row, tasks (w_db w) !! id = Some row /\ t_State row = expected /\ t_UpdatedAt row = observed /\
  w_db w' = set_tasks (w_db w) (<[id := moved next result updatedAt row]> (tasks (w_db w))).
Proof.
  unfold Task_ClaimStale. intros Ht (u1 & ? & [_ ->]%lift_inr & Hr)%bind_inr.
  apply bind_inr in Hr as (u2 & ? & [Htr ->]%lift_inr & Hr). apply bind_inr in Hr as (u3 & ? & [Hz ->]%lift_inr & Hr).
  apply bind_inr in Hr as (r & ? & [Hj ->]%lift_inr & Hr).
  destruct (update_tx _ _ _ _ _ _ _ Ht Hr) as (Ht' & row & Hrow & Hp & Hdb). bool_hyps.
  split; [done|]. split; [by apply (transition_ok _ _ u2)|].
  split; [intros ->; unfold require in Hz; by rewrite orb_true_r in Hz|]. exists row. split; [done|].
  split; [done|]. split; [done|]. rewrite Hdb. unfold normalizeJSON in Hj. destruct (Z.eqb_spec (len result) 0) as [El|_].
  - injection Hj as <-. apply len_zero in El as ->. done.
  - destruct (json_Valid result); [|discriminate Hj]. by injection Hj as <-.
Qed.

Lemma normalizeJSON_same value required field r : normalizeJSON value required field = Ok r -> r = value.
Proof.
  unfold normalizeJSON. destruct (Z.eqb_spec (len value) 0) as [->%len_zero|_]; [by destruct required; intros [= <-]|].
  by destruct (json_Valid value); intros [= <-].
Qed.

Lemma Audit_Append_tx ev w w' :
  w_tx w = true -> Audit_Append ev w = (inr tt, w') ->
  w_tx w' = true /\ exists createdAt, w_db w' = set_audit (w_db w) (audit_events (w_db w) ++
    [mkAuditEvent (a_ID ev) (a_IdentityID ev) (TrimSpace (a_Action ev)) (TrimSpace (a_ResourceType ev))
       (TrimSpace (a_ResourceID ev)) (TrimSpace (a_Outcome ev)) (TrimSpace (a_RequestID ev)) (stored_json (a_Metadata ev))
       createdAt]).
Proof.
  unfold Audit_Append. intros Ht (ev' & w1 & Hn & Hs)%bind_inr. unfold normalizeAuditEvent in Hn.
  apply bind_inr in Hn as (u1 & ? & [_ ->]%lift_inr & Hn). apply bind_inr in Hn as (u2 & ? & [_ ->]%lift_inr & Hn).
  cbn zeta in Hn. apply bind_inr in Hn as (u3 & ? & [_ ->]%lift_inr & Hn).
  apply bind_inr in Hn as (md & ? & [Hmd ->]%lift_inr & Hn). apply normalizeJSON_same in Hmd as ->.
  apply bind_inr in Hn as (at_ & w2 & Hat & [-> ->]%mret_inr).
  assert (Hw2 : w_db w2 = w_db w /\ w_tx w2 = true).
  { destruct (IsZero (a_CreatedAt ev)); [|by apply mret_inr in Hat as [_ ->]].
    unfold time_Now in Hat. destruct (engine_Now _). by injection Hat as _ <-. }
  destruct Hw2 as [Hdb Ht2]. destruct (statement_tx _ _ _ _ _ Ht2 Hs) as [Hf Ht']. split; [done|]. exists at_.
  unfold insert_audit in Hf. destruct (_ || _); [discriminate Hf|]. injection Hf as <-. by rewrite Hdb.
Qed.

Lemma uuid_tx w id w' : uuid_NewString w = (inr id, w') -> w_db w' = w_db w /\ w_tx w' = w_tx w.
Proof. unfold uuid_NewString. destruct (engine_NewUUID _). by intros [= _ <-]. Qed.

Lemma appendTransition_tx rid id prev next at_ w w' :
  w_tx w = true -> appendTransition rid id prev next at_ w = (inr tt, w') ->
  exists row ev m, tasks (w_db w) !! id = Some row /\ is_Some (uuid_Parse id) /\
  w_db w' = set_audit (w_db w) (audit_events (w_db w) ++ [ev]) /\
  a_Action ev = TaskTransitionAuditAction /\ a_ResourceID ev = TrimSpace (t_ID row) /\
  a_Metadata ev = stored_json (json_Marshal m) /\ tm_PreviousState m = prev /\ tm_NextState m = next.
Proof.
  unfold appendTransition. intros Ht (row & w1 & Hg & Hr)%bind_inr.
  destruct (Task_GetByID_tx _ _ _ _ Ht Hg) as (Hu & Hrow & Hdb1 & Ht1).
  apply bind_inr in Hr as (session & w2 & Hs & Hr). destruct (Session_GetByID_tx _ _ _ _ Ht1 Hs) as [Hdb2 Ht2].
  apply bind_inr in Hr as ([rid' source] & w3 & Hrid & Hr).
  assert (H3 : w_db w3 = w_db w2 /\ w_tx w3 = true).
  { destruct (bool_decide _).
    - apply bind_inr in Hrid as (u & w4 & Hu4 & [_ ->]%mret_inr). apply uuid_tx in Hu4 as [-> ->]. done.
    - by apply mret_inr in Hrid as [_ ->]. }
  destruct H3 as [Hdb3 Ht3]. apply bind_inr in Hr as (eid & w4 & Hu4 & Hr). apply uuid_tx in Hu4 as [Hdb4 Ht4].
  rewrite Ht3 in Ht4. destruct (Audit_Append_tx _ _ _ Ht4 Hr) as (_ & createdAt & Hdb). rewrite Hdb4, Hdb3, Hdb2, Hdb1 in Hdb.
  eexists row, _, _. split; [done|]. split; [done|]. split; [exact Hdb|]. cbn [a_Action a_ResourceID a_Metadata].
  split; [by vm_compute|]. split; [done|]. split; [reflexivity|]. done.
Qed.

(** ** A committed update is a change *)

Lemma moved_change db id row next result updatedAt rid w w' :
  trails_ok db -> tasks db !! id = Some row -> transition (t_State row) next = true -> w_tx w = true ->
  w_db w = set_tasks db (<[id := moved next result updatedAt row]> (tasks db)) ->
  appendTransition rid id (t_State row) next updatedAt w = (inr tt, w') ->
  change db (w_db w') /\ tasks (w_db w') = <[id := moved next result updatedAt row]> (tasks db) /\
  trail id (w_db w') = trail id db ++ [(t_State row, next)].
Proof.
  intros [Hid _] Hrow Htr Ht Hdb Ha. destruct (appendTransition_tx _ _ _ _ _ _ _ Ht Ha) as
    (row' & ev & m & Hr' & [u Hu] & Hdb' & Hact & Hres & Hmeta & Hprev & Hnext).
  destruct (Hid id row Hrow) as [Hrid _]. rewrite Hdb in Hr'. cbn [tasks set_tasks] in Hr'. rewrite lookup_insert_eq in Hr'.
  injection Hr' as <-. cbn [t_ID moved] in Hres. rewrite Hrid, (uuid_trimmed id u Hu) in Hres.
  assert (Hev : event_transition id ev = Some (t_State row, next)).
  { unfold event_transition. rewrite !bool_decide_eq_true_2 by done. cbn [andb]. rewrite Hmeta, metadata_roundtrip.
    cbn [mbind option_bind]. congruence. }
  rewrite Hdb', Hdb. change (audit_events (set_tasks db _)) with (audit_events db). split; [|split; [done|]].
  - apply change_move; [done..|]. intros id' Hne. unfold event_transition. rewrite Hres, (bool_decide_eq_false_2 (id = id')) by done.
    by rewrite andb_false_r.
  - by rewrite trail_snoc, Hev.
Qed.

Lemma tx_UpdateState_change rid id expected next result updatedAt db db' :
  trails_ok db -> commit_step (tx_UpdateState rid id expected next result updatedAt) db db' ->
  change db db' /\ exists row, tasks db !! id = Some row /\ t_State row = expected /\ transition expected next = true /\
  tasks db' = <[id := moved next result updatedAt row]> (tasks db) /\ trail id db' = trail id db ++ [(expected, next)].
Proof.
  intros Hok (e & e' & (u & w1 & Hu & Ha)%bind_inr). destruct u.
  destruct (Task_UpdateState_tx _ _ _ _ _ (mkWorld db e true) w1 eq_refl Hu) as (Ht1 & Htr & _ & row & Hrow & <- & Hdb).
  destruct (moved_change db id row next result updatedAt rid w1 (mkWorld db' e' true)) as (Hc & Htasks & Htrail); try done.
  split; [done|]. by exists row.
Qed.

Lemma tx_ClaimStale_change rid id expected observed next result updatedAt db db' :
  trails_ok db -> commit_step (tx_ClaimStale rid id expected observed next result updatedAt) db db' ->
  change db db' /\ exists row, tasks db !! id = Some row /\ t_State row = expected /\ t_UpdatedAt row = observed /\
  transition expected next = true /\
  tasks db' = <[id := moved next result updatedAt row]> (tasks db) /\ trail id db' = trail id db ++ [(expected, next)].
Proof.
  intros Hok (e & e' & (u & w1 & Hu & Ha)%bind_inr). destruct u.
  destruct (Task_ClaimStale_tx _ _ _ _ _ _ (mkWorld db e true) w1 eq_refl Hu) as (Ht1 & Htr & _ & row & Hrow & <- & <- & Hdb).
  destruct (moved_change db id row next result updatedAt rid w1 (mkWorld db' e' true)) as (Hc & Htasks & Htrail); try done.
  split; [done|]. by exists row.
Qed.

Lemma keeps_Session_GetByID id : keeps_tx (Session_GetByID id).
Proof.
  unfold Session_GetByID. apply keeps_bind; [auto with kube|]. intros _. apply keeps_bind; [auto with kube|]. intros [?|]; auto with kube.
Qed.

Lemma keeps_appendTransition rid id prev next at_ : keeps_tx (appendTransition rid id prev next at_).
Proof.
  unfold appendTransition. apply keeps_bind; [apply keeps_GetByID|]. intros t. apply keeps_bind; [apply keeps_Session_GetByID|].
  intros s. apply keeps_bind; [destruct (bool_decide _); [apply keeps_bind|]; auto with kube|]. intros [r source].
  apply keeps_bind; [auto with kube|]. intros eid. unfold Audit_Append, normalizeAuditEvent.
  apply keeps_bind; [|auto with kube]. do 2 (apply keeps_bind; [auto with kube|]; intros _). cbn zeta.
  apply keeps_bind; [auto with kube|]. intros _. apply keeps_bind; [auto with kube|]. intros md.
  apply keeps_bind; [destruct (IsZero _)|]; auto with kube.
Qed.

Lemma keeps_tx_UpdateState rid id expected next result updatedAt : keeps_tx (tx_UpdateState rid id expected next result updatedAt).
Proof.
  apply keeps_bind; [|intros _; apply keeps_appendTransition]. unfold Task_UpdateState.
  do 3 (apply keeps_bind; [auto with kube|]; intros _). apply keeps_bind; [auto with kube|]. intros r.
  apply keeps_bind; [auto with kube|]. intros count. destruct (_ =? _); [auto with kube|apply keeps_task_missing].
Qed.

Lemma keeps_tx_ClaimStale rid id expected observed next result updatedAt :
  keeps_tx (tx_ClaimStale rid id expected observed next result updatedAt).
Proof.
  apply keeps_bind; [|intros _; apply keeps_appendTransition]. unfold Task_ClaimStale.
  do 3 (apply keeps_bind; [auto with kube|]; intros _). apply keeps_bind; [auto with kube|]. intros r.
  apply keeps_bind; [auto with kube|]. intros count. destruct (_ =? _); [auto with kube|apply keeps_task_missing].
Qed.

(** ** Runs

    The other clients change the tables through the same repositories. *)

Definition others_change : Prop := forall db (e : E), rtc change db (engine_Others db e).1.

Lemma run_steps_change (m : M (E:=E) unit) db db' :
  others_change -> (forall db1 db2, trails_ok db1 -> commit_step m db1 db2 -> change db1 db2) ->
  rtc (run_step m) db db' -> trails_ok db -> rtc change db db' /\ trails_ok db'.
Proof.
  intros Ho Hm Hs Hok. induction Hs as [x|x y z [[e <-]|Hc] _ IH]; [done|..].
  - pose proof (Ho x e) as Hxy. destruct (IH (changes_trails _ _ Hxy Hok)) as [Hyz Hz]. split; [by etransitivity|done].
  - pose proof (Hm x y Hok Hc) as Hxy. destruct (IH (change_trails _ _ Hxy Hok)) as [Hyz Hz]. split; [by eapply rtc_l|done].
Qed.

(** What an update does, from the tables just before it to those just after. *)
Definition applied (id : string) (expected next : State) (result : bytes) (updatedAt : time) (db db' : Database) : Prop :=
  exists row, tasks db !! id = Some row /\ t_State row = expected /\ transition expected next = true /\
  tasks db' = <[id := moved next result updatedAt row]> (tasks db) /\ trail id db' = trail id db ++ [(expected, next)].

Lemma UpdateState_run rid id expected next result updatedAt w r w' :
  others_change -> trails_ok (w_db w) -> w_tx w = false ->
  UpdateState store rid id expected next result updatedAt w = (r, w') ->
  w_tx w' = false /\ rtc change (w_db w) (w_db w') /\ trails_ok (w_db w') /\
  (r = inr tt -> exists db, rtc change (w_db w) db /\ trails_ok db /\ applied id expected next result updatedAt db (w_db w')).
Proof.
  intros Ho Hok Hw Hr. destruct (in_transaction_spec _ _ _ _ _ (keeps_tx_UpdateState _ _ _ _ _ _) Hr Hw) as (Hw' & db & Hs & Hlast).
  destruct (run_steps_change _ _ _ Ho (fun db1 db2 H1 H2 => proj1 (tx_UpdateState_change _ _ _ _ _ _ _ _ H1 H2)) Hs Hok) as [Hc Hok'].
  split; [done|]. destruct r as [err|u].
  - rewrite Hlast. split; [done|]. split; [done|]. discriminate.
  - destruct (tx_UpdateState_change _ _ _ _ _ _ _ _ Hok' Hlast) as (Hch & Happ).
    split; [by eapply rtc_r|]. split; [by apply (change_trails db)|]. intros _. by exists db.
Qed.

Lemma ClaimStale_run rid id expected observed next result updatedAt w r w' :
  others_change -> trails_ok (w_db w) -> w_tx w = false ->
  ClaimStale store rid id expected observed next result updatedAt w = (r, w') ->
  w_tx w' = false /\ rtc change (w_db w) (w_db w') /\ trails_ok (w_db w') /\
  (r = inr tt -> exists db, rtc change (w_db w) db /\ trails_ok db /\ applied id expected next result updatedAt db (w_db w')).
Proof.
  intros Ho Hok Hw Hr. destruct (in_transaction_spec _ _ _ _ _ (keeps_tx_ClaimStale _ _ _ _ _ _ _) Hr Hw) as (Hw' & db & Hs & Hlast).
  destruct (run_steps_change _ _ _ Ho (fun db1 db2 H1 H2 => proj1 (tx_ClaimStale_change _ _ _ _ _ _ _ _ _ H1 H2)) Hs Hok) as [Hc Hok'].
  split; [done|]. destruct r as [err|u].
  - rewrite Hlast. split; [done|]. split; [done|]. discriminate.
  - destruct (tx_ClaimStale_change _ _ _ _ _ _ _ _ _ Hok' Hlast) as (Hch & row & Hrow & Hst & _ & Htr & Htk & Htl).
    split; [by eapply rtc_r|]. split; [by apply (change_trails db)|]. intros _. exists db. split; [done|]. split; [done|].
    by exists row.
Qed.

Definition empty_database : Database := mkDatabase ∅ ∅ ∅ ∅ [] empty_directory.

Lemma empty_trails_ok : trails_ok empty_database.
Proof. split; intros id row Hr; cbn [tasks empty_database] in Hr; by rewrite lookup_empty in Hr. Qed.

(** C21 (refinement). Updates and claims implement an audited compare-and-swap,
    whatever fails and however often a transaction is retried: from tables reached
    by changes of the repositories they lead to such tables, in which the audit
    trail of every task is a history of valid transitions that ends in its state;
    and when they report success, the task was in the expected state, has been
    moved, and exactly this transition was added to its trail, in one step. *)
Theorem audited_updates (rid id : string) (expected next : State) (observed updatedAt : time) (result : bytes)
    (w w' : World E) (r : storage_error + unit)
    (Hothers : others_change) (Hreachable : rtc change empty_database (w_db w)) (Hw : w_tx w = false)
    (Hrun : UpdateState store rid id expected next result updatedAt w = (r, w') \/
            ClaimStale store rid id expected observed next result updatedAt w = (r, w')) :
  w_tx w' = false /\ rtc change (w_db w) (w_db w') /\
  (forall id' row, tasks (w_db w') !! id' = Some row -> exists s,
     leads s (trail id' (w_db w')) (t_State row) /\ history s (map snd (trail id' (w_db w'))) /\
     last (s :: map snd (trail id' (w_db w'))) = Some (t_State row)) /\
  (r = inr tt -> exists db, rtc change (w_db w) db /\ applied id expected next result updatedAt db (w_db w')).
Proof.
  pose proof (changes_trails _ _ Hreachable empty_trails_ok) as Hok.
  assert (Hspec : w_tx w' = false /\ rtc change (w_db w) (w_db w') /\ trails_ok (w_db w') /\
    (r = inr tt -> exists db, rtc change (w_db w) db /\ trails_ok db /\ applied id expected next result updatedAt db (w_db w'))).
  { destruct Hrun as [Hrun|Hrun]; [by apply (UpdateState_run rid)|by apply (ClaimStale_run rid _ _ observed)]. }
  destruct Hspec as (Hw' & Hc & [_ Htr] & Happ). split; [done|]. split; [done|]. split.
  - intros id' row Hrow. destruct (Htr id' row Hrow) as (s & Hl). exists s. split; [done|]. by apply leads_history.
  - intros Hr. destruct (Happ Hr) as (db & H1 & _ & H2). by exists db.
Qed.
End facts.
