(* ===== verification/TaskLifecycle.v ===== *)
(** * The life of a task ([internal/controlplane/tasklifecycle], [taskstream],
    [sessionregistry/reconciler.go])

    Stopping and deleting a task, finishing the stream of a task, and failing the
    tasks whose stream owner was lost. *)

From S2P Require Import Prelude GoLib GoText External RemoteTask StorageEngine Netip NetworkSpec SessionStore TaskStore.
From S2P Require Import GoSort StorageFacts TaskStoreFacts.

(** The interface both packages ask of their storage. *)
Class TaskRepository (E : Type) := {
  repo_GetByID : string -> M (E:=E) Task;
  repo_UpdateState : string -> State -> State -> bytes -> time -> M (E:=E) unit
}.

(** The errors a stream ends with, as [isFailure] tells them apart. *)
Inductive streamError :=
| ContextCanceled
| DeadlineExceeded
| WebSocketClose
| StreamFailure (name : string).

#[export] Instance streamError_eq_dec : EqDecision streamError.
Proof. solve_decision. Defined.

(** [map[string]any] values of [encoding/json]: members as documents.
    [object_Unmarshal] gives the map after decoding into an empty map, [None]
    when it has become nil, which the document null does. *)
Class JsonObjects := {
  object_Unmarshal : bytes -> option (gmap string bytes);
  object_Marshal : option (gmap string bytes) -> bytes;
  json_string : string -> bytes
}.

Section lifecycle.
Context {E : Type} `{Engine E} `{TaskRepository E}.

(** ** Stopping and deleting *)

Definition stopTransitionAttempts : nat := 8.

Definition with_state (state : State) (updatedAt : time) (t : Task) : Task :=
  mkTask (t_ID t) (t_IdentityID t) (t_SessionID t) (t_Type t) state (t_Spec t) (t_Result t) (t_IdempotencyKey t)
    (t_CreatedAt t) updatedAt (t_ExpiresAt t).

Definition zero_Task : Task := mkTask "" "" "" "" "" [] [] "" 0 0 None.

(** The loop, with the attempts that are left and the last error. *)
Fixpoint stop_attempts (attempts : nat) (lastErr : option storage_error) (taskID : string) : M (E:=E) Task :=
  match attempts with
  | O => match lastErr with Some e => fail e | None => mret zero_Task end
  | S attempts' =>
      task ← repo_GetByID taskID;
      if bool_decide (t_State task = Stopped) then mret task
      else
        updatedAt ← time_Now;
        outcome ← try (repo_UpdateState (t_ID task) (t_State task) Stopped (t_Result task) updatedAt);
        match outcome with
        | inr _ => mret (with_state Stopped updatedAt task)
        | inl err =>
            if negb (storage_Is err ErrConflict) then fail err
            else
              ended ← ctx_Err;
              if ended : bool then fail ctxErr else stop_attempts attempts' (Some err) taskID
        end
  end.

Definition Stop (taskID : string) : M (E:=E) Task := stop_attempts stopTransitionAttempts None taskID.

Definition Delete (taskID : string) : M (E:=E) Task :=
  current ← repo_GetByID taskID;
  if bool_decide (t_State current = Deleted) then mret current
  else
    task ← Stop taskID;
    updatedAt ← time_Now;
    _ ← repo_UpdateState (t_ID task) Stopped Deleted (t_Result task) updatedAt;
    mret (with_state Deleted updatedAt task).

(** ** Finishing a stream *)

Record FinishConfig := mkFinishConfig {
  fc_TaskID : string;
  fc_Cause : option streamError;
  fc_CleanupRequired : bool;
  fc_CleanupComplete : bool;
  fc_StopErrors : list streamError;
  fc_Result : Task -> State -> bool -> bytes
}.

Definition isFailure (err : option streamError) (stopErrors : list streamError) : bool :=
  match err with
  | None | Some ContextCanceled | Some DeadlineExceeded | Some WebSocketClose => false
  | Some e => negb (existsb (fun stopError => bool_decide (e = stopError)) stopErrors)
  end.

(** [contextErr] tells whether [runContext.Err()] is not nil. *)
Definition Failed_stream (contextErr : bool) (err : option streamError) (stopErrors : list streamError) : bool :=
  negb contextErr && isFailure err stopErrors.

Definition finish_next (config : FinishConfig) (task : Task) : State * bool :=
  let next := if negb (bool_decide (t_State task = Stopping)) && isFailure (fc_Cause config) (fc_StopErrors config)
              then Failed else Stopped in
  let cleanupPending := fc_CleanupRequired config && negb (fc_CleanupComplete config) in
  (if cleanupPending then Recovering else next, cleanupPending).

Definition Finish (config : FinishConfig) : M (E:=E) bool :=
  found ← try (repo_GetByID (fc_TaskID config));
  match found with
  | inl Panicked => fail Panicked
  | inl _ => mret false
  | inr task =>
      if bool_decide (t_State task = Stopped) || bool_decide (t_State task = Failed) then mret true
      else if bool_decide (t_State task = Recovering) then mret false
      else
        let '(next, cleanupPending) := finish_next config task in
        let result := fc_Result config task next cleanupPending in
        updatedAt ← time_Now;
        outcome ← try (repo_UpdateState (fc_TaskID config) (t_State task) next result updatedAt);
        match outcome with inl Panicked => fail Panicked | inl _ => mret false | inr _ => mret true end
  end.
End lifecycle.

(** ** Failing tasks whose owner was lost ([reconciler.go]) *)

Definition DefaultRecoveryInterval : Duration := 5 * Second.
Definition DefaultStaleAfter : Duration := 15 * Second.
Definition DefaultRecoveryBatch : Z := 100.

Record RecoveryConfig := mkRecoveryConfig {
  rc_Interval : Duration;
  rc_StaleAfter : Duration;
  rc_BatchSize : Z;
  rc_TaskTypes : list string
}.

Record Reconciler := mkReconciler {
  rec_interval : Duration;
  rec_staleAfter : Duration;
  rec_batchSize : Z;
  rec_taskTypes : list string
}.

Fixpoint distinct_types (taskTypes types : list string) : result (list string) :=
  match types with
  | [] => Ok taskTypes
  | raw :: rest =>
      let taskType := TrimSpace raw in
      if bool_decide (taskType = "") || (128 <? slen taskType)
      then Err (NewError "session runtime recovery Task type is invalid")
      else if bool_decide (taskType ∈ taskTypes) then distinct_types taskTypes rest
      else distinct_types (taskTypes ++ [taskType]) rest
  end.

Definition NewReconciler (config : RecoveryConfig) : result Reconciler :=
  let interval := if rc_Interval config =? 0 then DefaultRecoveryInterval else rc_Interval config in
  let staleAfter := if rc_StaleAfter config =? 0 then DefaultStaleAfter else rc_StaleAfter config in
  let batchSize := if rc_BatchSize config =? 0 then DefaultRecoveryBatch else rc_BatchSize config in
  let taskTypes := if len (rc_TaskTypes config) =? 0 then ["pod-exec"; "file-transfer"] else rc_TaskTypes config in
  _ ← require (negb ((interval <? 100 * Millisecond) || (24 * Hour <? interval) || (staleAfter <? interval) ||
                     (24 * Hour <? staleAfter))) (NewError "session runtime recovery intervals are invalid");
  _ ← require (negb ((batchSize <? 1) || (1000 <? batchSize) || (16 <? len taskTypes)))
        (NewError "session runtime recovery batch or Task types are invalid");
  types ← distinct_types [] taskTypes;
  Ok (mkReconciler interval staleAfter batchSize types).

Section recovery.
Context {E : Type} `{Engine E} `{UuidPackage} `{NetipPackage} `{JsonCodec Spec} `{JsonCodec unit} `{HashPackage}.
Context `{JsonValidity} `{JsonCodec transitionMetadata} `{JsonObjects} (store : Store) (reconciler : Reconciler).

(** Assigning to a member of a nil map panics. *)
Definition recoveryResult (previous : bytes) (message : string) : storage_error + bytes :=
  let result := object_Unmarshal previous in
  if bool_decide (message = "") then inr (object_Marshal (delete "error" <$> result))
  else match result with
       | None => inl Panicked
       | Some m => inr (object_Marshal (Some (<["error" := json_string message]> m)))
       end.

Definition recovery_states : list State := [Starting; Running; Stopping].

Definition recover_next (task : Task) : State * string :=
  if bool_decide (t_State task = Stopping) then (Stopped, "") else (Failed, "Control Plane stream owner was lost").

(** One task of the inner loop: whether it was recovered, or the error to join. *)
Definition recover_task (now : time) (task : Task) : M (E:=E) (bool * list storage_error) :=
  let '(next, message) := recover_next task in
  encoded ← of_sum (recoveryResult (t_Result task) message);
  outcome ← try (ClaimStale store "" (t_ID task) (t_State task) (t_UpdatedAt task) next encoded now);
  match outcome with
  | inr _ => mret (true, [])
  | inl Panicked => fail Panicked
  | inl err => mret (false, if storage_Is err ErrConflict || storage_Is err ErrNotFound then [] else [err])
  end.

Fixpoint recover_tasks (now : time) (tasks : list Task) (acc : Z * list storage_error) : M (E:=E) (Z * list storage_error) :=
  match tasks with
  | [] => mret acc
  | task :: rest =>
      r ← recover_task now task;
      recover_tasks now rest (if (r : bool * list storage_error).1 then acc.1 + 1 else acc.1, acc.2 ++ r.2)
  end.

Fixpoint recover_types (now : time) (types : list string) (acc : Z * list storage_error) : M (E:=E) (Z * list storage_error) :=
  match types with
  | [] => mret acc
  | taskType :: rest =>
      found ← try (ListStaleByTypeStates taskType recovery_states (now - rec_staleAfter reconciler) (rec_batchSize reconciler));
      match found with
      | inl Panicked => fail Panicked
      | inl err => recover_types now rest (acc.1, acc.2 ++ [err])
      | inr tasks => acc ← recover_tasks now tasks acc; recover_types now rest acc
      end
  end.

(** The number of recovered tasks and the joined errors. *)
Definition RunOnce : M (E:=E) (Z * list storage_error) :=
  now ← time_Now; recover_types now (rec_taskTypes reconciler) (0, []).
End recovery.

(** * Correctness of the life of a task

    Stopping and deleting against the interface of a task repository, the
    store's repository as an implementation of the interface, and the recovery of
    stale tasks. *)


Section interface.
Context {E : Type} `{EN : Engine E} `{JV : JsonValidity} `{UP : UuidPackage} `{JT : JsonCodec transitionMetadata}.
Implicit Types (db : Database) (w : World E).

(** What the lifecycle relies on: whatever happens, the tables change by the
    changes of the repositories; a task that is returned is the stored one, and
    an update that succeeds was applied to a task in the expected state. *)
Class TaskRepositoryLaws `{TaskRepository E} : Prop := {
  repo_get : forall id w r w', repo_GetByID id w = (r, w') -> w_tx w = false -> trails_ok (w_db w) ->
    w_tx w' = false /\ rtc change (w_db w) (w_db w') /\
    (forall t, r = inr t -> tasks (w_db w') !! id = Some t);
  repo_update : forall id expected next result updatedAt w r w',
    repo_UpdateState id expected next result updatedAt w = (r, w') -> w_tx w = false -> trails_ok (w_db w) ->
    w_tx w' = false /\ rtc change (w_db w) (w_db w') /\
    (r = inr tt -> exists db, rtc change (w_db w) db /\ trails_ok db /\ applied id expected next result updatedAt db (w_db w'))
}.
End interface.

Arguments TaskRepositoryLaws E {_ _ _ _ _}.

Section lifecycle.
Context {E : Type} `{EN : Engine E} `{JV : JsonValidity} `{UP : UuidPackage} `{JT : JsonCodec transitionMetadata}.
Context `{TR : TaskRepository E} {TL : TaskRepositoryLaws E}.
Implicit Types (db : Database) (w : World E).

(** The world after an operation: outside a transaction, by changes of the
    repositories. *)
Definition reached (w w' : World E) : Prop :=
  w_tx w' = false /\ rtc change (w_db w) (w_db w') /\ trails_ok (w_db w').

Lemma reached_step w w1 w' : w_tx w1 = false -> rtc change (w_db w) (w_db w1) -> reached w1 w' -> reached w w'.
Proof. intros _ H1 (Ht & H2 & Hok). split; [done|]. split; [by etransitivity|done]. Qed.

(** The stored task is in this state, updated at this instant. *)
Definition stored_as (id : string) (state : State) (updatedAt : time) (db : Database) : Prop :=
  exists row, tasks db !! id = Some row /\ t_State row = state /\ t_UpdatedAt row = updatedAt.

Lemma applied_stored id expected next result updatedAt db db' :
  applied id expected next result updatedAt db db' -> stored_as id next updatedAt db'.
Proof. intros (row & _ & _ & _ & Htasks & _). exists (moved next result updatedAt row). by rewrite Htasks, lookup_insert_eq. Qed.

Lemma time_Now_inr w t w' : time_Now w = (inr t, w') -> w_db w' = w_db w /\ w_tx w' = w_tx w.
Proof. unfold time_Now. destruct (engine_Now _). by intros [= _ <-]. Qed.

Lemma time_Now_inl w e w' : time_Now (E:=E) w <> (inl e, w').
Proof. unfold time_Now. by destruct (engine_Now _). Qed.

Lemma ctx_Err_eq w : exists b e, ctx_Err w = (inr b, mkWorld (w_db w) e (w_tx w)).
Proof. unfold ctx_Err. destruct (engine_Err _) as [b e]. by exists b, e. Qed.

Lemma stop_attempts_spec n : forall last id w r w',
  stop_attempts n last id w = (r, w') -> w_tx w = false -> trails_ok (w_db w) -> (n = O -> last <> None) ->
  reached w w' /\ forall task, r = inr task -> t_ID task = id /\ t_State task = Stopped /\
  stored_as id Stopped (t_UpdatedAt task) (w_db w').
Proof.
  induction n as [|n IH]; intros last id w r w' Hs Hw Hok Hn; cbn [stop_attempts] in Hs.
  { destruct last as [e|]; [|by specialize (Hn eq_refl)]. injection Hs as <- <-. split; [done|]. discriminate. }
  unfold mbind at 1, M_bind at 1 in Hs. destruct (repo_GetByID id w) as [[e|task] w1] eqn:Eg;
    destruct (repo_get _ _ _ _ Eg Hw Hok) as (Hw1 & Hc1 & Hrow); pose proof (changes_trails _ _ Hc1 Hok) as Hok1.
  { injection Hs as <- <-. split; [done|]. discriminate. }
  specialize (Hrow task eq_refl). assert (Hid : t_ID task = id) by (by destruct (row_id _ Hok1 id task Hrow)).
  destruct (bool_decide_reflect (t_State task = Stopped)) as [Est|Est].
  { injection Hs as <- <-. split; [done|]. intros t [= <-]. split; [done|]. split; [done|]. by exists task. }
  unfold mbind at 1, M_bind at 1 in Hs. destruct (time_Now w1) as [[e|updatedAt] w2] eqn:En; [by apply time_Now_inl in En|].
  apply time_Now_inr in En as [Hdb2 Hw2]. rewrite Hw1 in Hw2. rewrite <- Hdb2 in Hc1, Hok1.
  unfold mbind at 1, M_bind at 1, try in Hs. rewrite Hid in Hs.
  destruct (repo_UpdateState id (t_State task) Stopped (t_Result task) updatedAt w2) as [r3 w3] eqn:Eu.
  destruct (repo_update _ _ _ _ _ _ _ _ Eu Hw2 Hok1) as (Hw3 & Hc3 & Happ). pose proof (changes_trails _ _ Hc3 Hok1) as Hok3.
  assert (Hreach : reached w w3) by (split; [done|]; split; [by etransitivity|done]).
  destruct r3 as [err|[]].
  - destruct (negb _). { injection Hs as <- <-. split; [done|]. discriminate. }
    unfold mbind, M_bind in Hs. destruct (ctx_Err_eq w3) as (b & e & Ee). rewrite Ee in Hs.
    destruct b. { injection Hs as <- <-. split; [done|]. discriminate. }
    destruct (IH _ _ _ _ _ Hs Hw3 Hok3 ltac:(discriminate)) as [Hr Hres]. split; [|done].
    destruct Hreach as (_ & Hc & _). by apply (reached_step w (mkWorld (w_db w3) e (w_tx w3))).
  - injection Hs as <- <-. split; [done|]. intros t [= <-]. split; [done|]. split; [done|].
    destruct (Happ eq_refl) as (db & _ & _ & Ha). by apply applied_stored in Ha.
Qed.

Lemma Stop_spec id w r w' :
  Stop id w = (r, w') -> w_tx w = false -> trails_ok (w_db w) ->
  reached w w' /\ forall task, r = inr task -> t_ID task = id /\ t_State task = Stopped /\
  stored_as id Stopped (t_UpdatedAt task) (w_db w').
Proof. intros Hs Hw Hok. by apply (stop_attempts_spec stopTransitionAttempts None). Qed.

(** Once deleted, and with a trail, a task stays deleted. *)
Lemma deleted_change id db db' :
  change db db' -> trail id db <> [] -> (forall row, tasks db !! id = Some row -> t_State row = Deleted) ->
  trail id db' <> [] /\ (forall row, tasks db' !! id = Some row -> t_State row = Deleted).
Proof.
  intros Hc Htr Hdel. destruct Hc as [t db' [t0 Hn] Hi Hfresh|id' row next result updatedAt ev Hrow Ht Hev Hother|id'|ev Hev|s|i|i|d];
    [| | | |by split..].
  - unfold insert_task in Hi. destruct (_ || _); [discriminate Hi|]. injection Hi as <-. split; [done|]. cbn [tasks set_tasks].
    intros row Hr. rewrite lookup_insert in Hr. case_decide as Hd; [by subst id|by apply Hdel].
  - rewrite trail_snoc. cbn [tasks set_tasks set_audit]. split; [by destruct (trail id db)|]. intros row' Hr.
    rewrite lookup_insert in Hr. case_decide as Hd; [|by apply Hdel]. subst id'. rewrite (Hdel row Hrow), deleted_step in Ht. done.
  - split; [done|]. cbn [tasks set_tasks]. intros row [_ Hr]%lookup_delete_Some. by apply Hdel.
  - split; [|done]. unfold trail in *. cbn [audit_events set_audit]. rewrite omap_app. by destruct (omap _ _).
Qed.

(** Whatever the engine and the other clients do, when [Stop]
    ([Delete]) returns a task, that task is stopped (deleted) and so is the
    stored one, at the same instant; the tables have changed by changes of the
    repositories only; and a deleted task stays deleted however the tables change
    afterwards. *)
Theorem stop_and_delete (id : string) (w : World E) (Hw : w_tx w = false) (Hok : trails_ok (w_db w)) :
  (forall r w', Stop id w = (r, w') -> reached w w' /\ forall task, r = inr task ->
     t_State task = Stopped /\ stored_as id Stopped (t_UpdatedAt task) (w_db w')) /\
  (forall r w', Delete id w = (r, w') -> reached w w' /\ forall task, r = inr task ->
     t_State task = Deleted /\ stored_as id Deleted (t_UpdatedAt task) (w_db w') /\
     (trail id (w_db w') <> [] -> forall db row, rtc change (w_db w') db -> tasks db !! id = Some row -> t_State row = Deleted)).
Proof.
  assert (Hforever : forall db t, stored_as id Deleted t db -> trail id db <> [] ->
    forall db' row, rtc change db db' -> tasks db' !! id = Some row -> t_State row = Deleted).
  { intros db t (row0 & Hrow0 & Hst & _) Htr db' row Hc.
    assert (Hdel : forall row, tasks db !! id = Some row -> t_State row = Deleted) by (intros; congruence).
    clear Hrow0 Hst row0. revert row. induction Hc as [x|x y z Hxy _ IH]; [done|].
    destruct (deleted_change id x y Hxy Htr Hdel). by apply IH. }
  split.
  - intros r w' Hs. destruct (Stop_spec _ _ _ _ Hs Hw Hok) as [Hr Hres]. split; [done|]. intros task Ht.
    by destruct (Hres task Ht) as (_ & ? & ?).
  - intros r w' Hd. unfold Delete in Hd. unfold mbind at 1, M_bind at 1 in Hd.
    destruct (repo_GetByID id w) as [[e|current] w1] eqn:Eg;
      destruct (repo_get _ _ _ _ Eg Hw Hok) as (Hw1 & Hc1 & Hrow); pose proof (changes_trails _ _ Hc1 Hok) as Hok1.
    { injection Hd as <- <-. split; [done|]. discriminate. }
    destruct (bool_decide_reflect (t_State current = Deleted)) as [Ed|_].
    { injection Hd as <- <-. split; [done|]. intros task [= <-]. split; [done|].
      assert (Hst : stored_as id Deleted (t_UpdatedAt current) (w_db w1)) by (exists current; auto).
      split; [done|]. intros Htr db row. by eapply Hforever. }
    unfold mbind at 1, M_bind at 1 in Hd. destruct (Stop id w1) as [[e|task] w2] eqn:Es;
      destruct (Stop_spec _ _ _ _ Es Hw1 Hok1) as [(Hw2 & Hc2 & Hok2) Hres].
    { injection Hd as <- <-. split; [by apply (reached_step w w1)|]. discriminate. }
    destruct (Hres task eq_refl) as (Hid & _ & _). unfold mbind at 1, M_bind at 1 in Hd.
    destruct (time_Now w2) as [[e|updatedAt] w3] eqn:En; [by apply time_Now_inl in En|].
    apply time_Now_inr in En as [Hdb3 Hw3]. rewrite Hw2 in Hw3. rewrite <- Hdb3 in Hc2, Hok2. rewrite Hid in Hd.
    unfold mbind, M_bind in Hd.
    destruct (repo_UpdateState id Stopped Deleted (t_Result task) updatedAt w3) as [[e|[]] w4] eqn:Eu;
      destruct (repo_update _ _ _ _ _ _ _ _ Eu Hw3 Hok2) as (Hw4 & Hc4 & Happ); pose proof (changes_trails _ _ Hc4 Hok2) as Hok4;
      injection Hd as <- <-; (split; [split; [done|]; split; [do 2 (etransitivity; [eassumption|]); done|done]|]); [discriminate|].
    intros t [= <-]. split; [done|]. destruct (Happ eq_refl) as (db & _ & _ & Ha). cbn [t_UpdatedAt with_state].
    pose proof (applied_stored _ _ _ _ _ _ _ Ha) as Hst. split; [done|]. intros Htr db' row. by eapply Hforever.
Qed.
End lifecycle.

(** ** The repository of the store *)

Section store.
Context {E : Type} `{EN : Engine E} `{UP : UuidPackage} `{NP : NetipPackage} `{JS : JsonCodec Spec} `{JU : JsonCodec unit}
  `{HP : HashPackage} `{JV : JsonValidity} `{JT : JsonCodec transitionMetadata} {UL : UuidLaws} {MS : MetadataStored}.
Context (store : Store) (requestID : string).
Implicit Types (db : Database) (w : World E).

Definition store_repository : TaskRepository E :=
  {| repo_GetByID := Task_GetByID; repo_UpdateState := UpdateState store requestID |}.

Lemma statement_read {A} wrap (f : Database -> A) w r w' :
  statement wrap (fun db => inr (f db, db)) w = (r, w') -> w_tx w = false ->
  w_tx w' = false /\ others_step (E:=E) (w_db w) (w_db w') /\ (forall a, r = inr a -> a = f (w_db w')).
Proof.
  intros Hs Hw. destruct (statement_spec _ _ _ _ _ Hs) as (Ht & db & Hb & Hf). unfold before_statement in Hb. rewrite Hw in *.
  split; [done|]. destruct r as [err|a].
  - assert (w_db w' = db) as -> by (destruct Hf as [->|(a & Hf)]; [done|congruence]). split; [done|]. discriminate.
  - assert (db = w_db w' /\ a = f db) as [-> ->] by (split; congruence). split; [done|]. by intros b [= <-].
Qed.

Lemma store_repository_laws : others_change (E:=E) -> TaskRepositoryLaws E (H := store_repository).
Proof.
  intros Ho. split.
  - intros id w r w' Hg Hw Hok. cbn [repo_GetByID store_repository] in Hg. unfold Task_GetByID, mbind, M_bind, lift in Hg.
    destruct (validateUUID id "task ID"); [|injection Hg as <- <-; split; [done|]; by split].
    destruct (statement _ _ w) as [r1 w1] eqn:Es.
    destruct (statement_read _ _ _ _ _ Es Hw) as (Hw1 & [e He] & Hres).
    assert (Hc : rtc change (w_db w) (w_db w1)) by (rewrite <- He; apply Ho).
    destruct r1 as [err|row]; [injection Hg as <- <-; split; [done|]; by split|].
    specialize (Hres row eq_refl). destruct row as [row|]; unfold fail, mret, M_ret in Hg; injection Hg as <- <-;
      (split; [done|]; split; [done|]); [by intros t [= <-]|discriminate].
  - intros id expected next result updatedAt w r w' Hu Hw Hok. cbn [repo_UpdateState store_repository] in Hu.
    destruct (UpdateState_run store _ _ _ _ _ _ _ _ _ Ho Hok Hw Hu) as (Hw' & Hc & _ & Happ). by split.
Qed.

(** ** Claims *)

(** The row moves even when nothing is known of the trails. *)
Lemma tx_ClaimStale_tasks rid id expected observed next result updatedAt db db' :
  commit_step (E:=E) (tx_ClaimStale rid id expected observed next result updatedAt) db db' ->
  exists row, tasks db !! id = Some row /\ t_State row = expected /\ t_UpdatedAt row = observed /\
  transition expected next = true /\ tasks db' = <[id := moved next result updatedAt row]> (tasks db).
Proof.
  intros (e & e' & (u & w1 & Hu & Ha)%bind_inr). destruct u.
  destruct (Task_ClaimStale_tx _ _ _ _ _ _ (mkWorld db e true) w1 eq_refl Hu) as (Ht1 & Htr & _ & row & Hrow & Hst & Hobs & Hdb).
  destruct (appendTransition_tx _ _ _ _ _ _ _ Ht1 Ha) as (_ & ev & _ & _ & _ & Hdb' & _). cbn [w_db] in *.
  exists row. rewrite Hdb', Hdb. done.
Qed.

(** The stored task, if any, was updated after this instant. *)
Definition newer (id : string) (observed : time) (db : Database) : Prop :=
  forall row, tasks db !! id = Some row -> observed < t_UpdatedAt row.

(** A stale task is claimed at most once: when a worker has claimed
    the task it saw updated at [observed], and the other clients only stamp the
    task with later instants, a second claim that saw the same instant fails and
    changes nothing. *)
Theorem stale_task_claimed_once (rid1 rid2 id : string) (expected next1 next2 : State) (observed now1 now2 : time)
    (result1 result2 : bytes) (w w1 w2 : World E) (r : storage_error + unit)
    (Hothers : forall db e, newer id observed db -> newer id observed (engine_Others (E:=E) db e).1)
    (Hw : w_tx w = false) (Hlater : observed < now1)
    (Hfirst : ClaimStale store rid1 id expected observed next1 result1 now1 w = (inr tt, w1))
    (Hsecond : ClaimStale store rid2 id expected observed next2 result2 now2 w1 = (r, w2)) :
  (exists err, r = inl err) /\ rtc (others_step (E:=E)) (w_db w1) (w_db w2) /\ newer id observed (w_db w2).
Proof.
  destruct (in_transaction_spec _ _ _ _ _ (keeps_tx_ClaimStale _ _ _ _ _ _ _) Hfirst Hw) as (Hw1 & db0 & _ & Hlast).
  assert (Hn : newer id observed (w_db w1)).
  { destruct (tx_ClaimStale_tasks _ _ _ _ _ _ _ _ _ Hlast) as (row & _ & _ & _ & _ & Htasks). intros row' Hr.
    rewrite Htasks, lookup_insert_eq in Hr. by injection Hr as <-. }
  clear Hlast Hfirst. destruct (in_transaction_spec _ _ _ _ _ (keeps_tx_ClaimStale _ _ _ _ _ _ _) Hsecond Hw1) as (Hw2 & db & Hs & Hlast).
  assert (Hno : forall x y, newer id observed x ->
    commit_step (E:=E) (tx_ClaimStale rid2 id expected observed next2 result2 now2) x y -> False).
  { intros x y Hx Hc. destruct (tx_ClaimStale_tasks _ _ _ _ _ _ _ _ _ Hc) as (row & Hrow & _ & Hobs & _).
    specialize (Hx row Hrow). lia. }
  assert (Hdb : rtc (others_step (E:=E)) (w_db w1) db /\ newer id observed db).
  { clear Hlast Hsecond Hw1. induction Hs as [x|x y z [[e <-]|Hc] _ IH]; [done|..].
    - destruct (IH (Hothers _ _ Hn)) as [Ho Hz]. split; [|done]. eapply rtc_l; [by exists e|done].
    - by apply Hno in Hc. }
  destruct Hdb as [Ho Hz]. destruct r as [err|u]; [|by apply Hno in Hlast]. rewrite Hlast. by split; [exists err|].
Qed.

(** ** Recovery *)

Context `{JO : JsonObjects} (reconciler : Reconciler).

(** The commit of a recovered task. *)
Definition recovered (now : time) (db db' : Database) : Prop :=
  exists id row next result, tasks db !! id = Some row /\ t_State row ∈ recovery_states /\
  t_UpdatedAt row < now - rec_staleAfter reconciler /\ (next = Failed \/ next = Stopped) /\
  (next = Stopped <-> t_State row = Stopping) /\ tasks db' = <[id := moved next result now row]> (tasks db).

Definition recovery_step (now : time) (db db' : Database) : Prop := others_step (E:=E) db db' \/ recovered now db db'.

Lemma select_stale_spec taskType states before limit db t :
  t ∈ select_stale taskType states before limit db -> t_State t ∈ states /\ t_UpdatedAt t < before.
Proof.
  unfold select_stale. intros (i & Hi & _)%elem_of_take. apply list_elem_of_lookup_2 in Hi.
  rewrite (SortFunc_perm older_first) in Hi. apply list_elem_of_In, filter_In in Hi as [_ Hp]. bool_hyps. done.
Qed.

(** Outside a transaction, by steps of others and recoveries. *)
Definition recovers (now : time) (w w' : World E) : Prop := w_tx w' = false /\ rtc (recovery_step now) (w_db w) (w_db w').

Lemma recovers_trans now w w1 w' : recovers now w w1 -> recovers now w1 w' -> recovers now w w'.
Proof. intros [_ H1] [Ht H2]. split; [done|]. by etransitivity. Qed.

Definition is_stale (now : time) (t : Task) : Prop :=
  t_State t ∈ recovery_states /\ t_UpdatedAt t < now - rec_staleAfter reconciler.

Lemma recover_task_spec now task w r w' :
  recover_task store now task w = (r, w') -> w_tx w = false -> is_stale now task -> recovers now w w'.
Proof.
  unfold recover_task. intros Hr Hw [Hst Hup]. destruct (recover_next task) as [next message] eqn:En.
  unfold mbind, M_bind, of_sum in Hr. destruct (recoveryResult (t_Result task) message) as [e|encoded].
  { injection Hr as <- <-. by split. }
  unfold try in Hr.
  destruct (ClaimStale store "" (t_ID task) (t_State task) (t_UpdatedAt task) next encoded now w) as [r1 w1] eqn:Ec.
  assert (w' = w1) as -> by (destruct r1 as [[]|]; cbn in Hr; unfold fail, mret, M_ret in Hr; congruence).
  destruct (in_transaction_spec _ _ _ _ _ (keeps_tx_ClaimStale _ _ _ _ _ _ _) Ec Hw) as (Hw1 & db & Hs & Hlast).
  assert (Hcommit : forall x y, commit_step (E:=E) (tx_ClaimStale "" (t_ID task) (t_State task) (t_UpdatedAt task) next encoded now) x y ->
    recovered now x y).
  { intros x y Hc. destruct (tx_ClaimStale_tasks _ _ _ _ _ _ _ _ _ Hc) as (row & Hrow & Hs' & Hu' & _ & Htasks).
    exists (t_ID task), row, next, encoded. rewrite Hs', Hu'. split; [done|]. split; [done|]. split; [done|].
    unfold recover_next in En. destruct (bool_decide_reflect (t_State task = Stopping)) as [Es|Es]; injection En as <- _.
    - split; [by right|]. by split.
    - split; [by left|]. split; [split; [discriminate|done]|done]. }
  split; [done|]. assert (Hdb : rtc (recovery_step now) (w_db w) db).
  { clear -Hs Hcommit. induction Hs as [x|x y z [Ho|Hc] _ IH]; [done|..].
    - eapply rtc_l; [by left|done].
    - eapply rtc_l; [right; by apply Hcommit|done]. }
  destruct r1 as [err|u]; [by rewrite Hlast|]. destruct u. eapply rtc_r; [exact Hdb|]. right. by apply Hcommit.
Qed.

Lemma recover_tasks_spec now tasks : forall acc w r w',
  recover_tasks store now tasks acc w = (r, w') -> w_tx w = false -> Forall (is_stale now) tasks -> recovers now w w'.
Proof.
  induction tasks as [|task rest IH]; intros acc w r w' Hr Hw Hall; cbn [recover_tasks] in Hr.
  { injection Hr as <- <-. by split. }
  apply Forall_cons in Hall as [Hst Hall]. unfold mbind, M_bind in Hr.
  destruct (recover_task store now task w) as [[e|b] w1] eqn:E1;
    pose proof (recover_task_spec _ _ _ _ _ E1 Hw Hst) as H1; [by injection Hr as <- <-|].
  apply (recovers_trans now w w1); [done|]. destruct H1 as [Hw1 _]. by eapply IH.
Qed.

Lemma recover_types_spec now types : forall acc w r w',
  recover_types store reconciler now types acc w = (r, w') -> w_tx w = false -> recovers now w w'.
Proof.
  induction types as [|taskType rest IH]; intros acc w r w' Hr Hw; cbn [recover_types] in Hr.
  { injection Hr as <- <-. by split. }
  unfold mbind at 1, M_bind at 1, try in Hr.
  destruct (ListStaleByTypeStates taskType recovery_states (now - rec_staleAfter reconciler) (rec_batchSize reconciler) w)
    as [found w1] eqn:El.
  assert (Hl : recovers now w w1 /\ forall l, found = inr l -> Forall (is_stale now) l).
  { unfold ListStaleByTypeStates, mbind, M_bind, lift in El. cbn zeta in El.
    repeat (destruct (require _ _) in El; [|injection El as <- <-; by split; [|discriminate]]).
    destruct (statement_read _ _ _ _ _ El Hw) as (Hw1 & Ho & Hf). split.
    - split; [done|]. apply rtc_once. by left.
    - intros l ->. rewrite (Hf l eq_refl). apply Forall_forall. intros t Ht. by apply select_stale_spec in Ht. }
  destruct Hl as [Hl Hstale]. apply (recovers_trans now w w1); [done|]. destruct Hl as [Hw1 _].
  destruct found as [[e|m c|]|tasks].
  - by eapply IH.
  - by eapply IH.
  - unfold fail in Hr. injection Hr as <- <-. by split.
  - unfold mbind, M_bind in Hr. destruct (recover_tasks store now tasks acc w1) as [[e|acc'] w2] eqn:Et;
      pose proof (recover_tasks_spec _ _ _ _ _ _ Et Hw1 (Hstale tasks eq_refl)) as H2; [by injection Hr as <- <-|].
    apply (recovers_trans now w1 w2); [done|]. destruct H2 as [Hw2 _]. by eapply IH.
Qed.

(** A recovery pass changes only lost tasks: apart from what other
    clients do, every commit of the pass moves a stored task that is starting,
    running or stopping and was last updated more than the stale period before
    the pass began, to stopped if it was stopping and to failed otherwise; the
    pass always leaves the transactions it began. *)
Theorem recovery_fails_only_stale (w w' : World E) (r : storage_error + (Z * list storage_error))
    (Hw : w_tx w = false) (Hrun : RunOnce store reconciler w = (r, w')) :
  recovers (engine_Now (w_engine w)).1 w w'.
Proof.
  unfold RunOnce, mbind, M_bind, time_Now in Hrun. destruct (engine_Now (w_engine w)) as [now e]. cbn [fst].
  pose proof (recover_types_spec now _ _ _ _ _ Hrun Hw) as Hr. exact Hr.
Qed.
End store.
