(* ===== verification/TaskAPI.v ===== *)
(** * Idempotent creation of tasks ([internal/controlplane/taskapi])

    Pod exec, remote file operations and file transfers create their tasks in the
    same way: a request carries an idempotency key; the first one with a key
    creates the task, the following ones are answered with the same task. *)

From S2P Require Import Prelude GoLib GoText External RemoteTask StorageEngine Netip NetworkSpec SessionStore TaskStore.
From S2P Require Import GoSort StorageFacts TaskStoreFacts.

(** ** Errors ([errors.go], [controlplaneapi]) *)

Inductive ErrorCode :=
| CodeUnauthenticated
| CodeForbidden
| CodeNotFound
| CodeConflict
| CodeInvalidArgument
| CodeUnavailable
| CodeVersionMismatch
| CodeRateLimited
| CodeInternal.

(** The cause of an error is not part of the response. *)
Record apiError := mkApiError { ae_Code : ErrorCode; ae_Field : string; ae_Message : string }.

Definition NotFound : apiError := mkApiError CodeNotFound "" "resource not found".

Record Errors := mkErrors { er_Name : string; er_Conflict : string; er_IdempotencyMismatch : string }.

Definition Internal (reporter : Errors) : apiError := mkApiError CodeInternal "" (er_Name reporter +:+ " operation failed").

Definition Storage (reporter : Errors) (err : storage_error) : apiError :=
  if storage_Is err ErrNotFound then NotFound
  else if storage_Is err ErrIdempotencyMismatch && negb (bool_decide (er_IdempotencyMismatch reporter = ""))
  then mkApiError CodeConflict "" (er_IdempotencyMismatch reporter)
  else if storage_Is err ErrConflict || storage_Is err ErrIdempotencyMismatch
  then mkApiError CodeConflict ""
         (if bool_decide (er_Conflict reporter = "") then er_Name reporter +:+ " Task state changed; reload and retry"
          else er_Conflict reporter)
  else Internal reporter.

(** ** Keys and hashes ([idempotency.go]) *)

Definition MaximumIdempotencyKeyBytes : Z := 128.
Definition IdempotencyHeader : string := "Idempotency-Key".

Definition invalidKey (message : string) : apiError := mkApiError CodeInvalidArgument IdempotencyHeader message.

Definition key_byte (b : byte) : bool :=
  is_alnum b || bool_decide (b = x2d) || bool_decide (b = x2e) || bool_decide (b = x5f) || bool_decide (b = x3a).

(** [values] are the values of the header. *)
Definition IdempotencyKey (values : list string) : apiError + string :=
  match values with
  | [v] =>
      let value := TrimSpace v in
      if bool_decide (value = "") || (MaximumIdempotencyKeyBytes <? slen value)
      then inl (invalidKey "Idempotency-Key is invalid")
      else if negb (all_bytes key_byte value) then inl (invalidKey "Idempotency-Key contains unsupported characters")
      else inr value
  | _ => inl (invalidKey "Idempotency-Key must be provided once")
  end.

(** [controlplaneapi.Identity] and [sessionapi.ActiveSession]; the zero time of
    [AccessExpiresAt] stands for a login that does not expire by itself. *)
Record Identity := mkIdentity {
  Subject : string;
  Provider : string;
  DisplayName : string;
  Email : string;
  Groups : list string;
  DeviceID : string;
  AuthorizationID : string;
  AccessExpiresAt : time
}.

Record ActiveSession := mkActiveSession {
  as_ID : string;
  as_Namespace : string;
  as_Generation : Z;
  as_ExpiresAt : time;
  as_NetworkSpecHash : string
}.

Definition Owned (task : Task) (taskType : string) (identity : Identity) (session : ActiveSession) : bool :=
  bool_decide (t_Type task = taskType) && bool_decide (t_IdentityID task = Subject identity) &&
  bool_decide (t_SessionID task = as_ID session).

Definition Scope (taskType identityID : string) : string := "task:" +:+ taskType +:+ ":" +:+ identityID.

Section api.
Context {E : Type} `{Engine E} `{UuidPackage} `{HashPackage} `{JsonValidity} (store : Store).

Definition Hash (encoded : bytes) : string := hex_EncodeToString (sha256_Sum256 encoded).

(** ** The creator ([create.go])

    [S] is the specification of a task type and [D] its wire document. *)

Context {S D : Type} `{JsonCodec S} `{JsonCodec D}.

Definition RequestHash (sessionID namespace : string) (spec : S) : string :=
  Hash (string_to_bytes sessionID ++ [x0a] ++ string_to_bytes namespace ++ [x0a] ++ json_Marshal spec).

(** The callbacks of a task type; [cr_Document] fails with [None]. *)
Record Creator := mkCreator {
  cr_TaskType : string;
  cr_Errors : Errors;
  cr_Normalize : S -> apiError + S;
  cr_Prepare : option (S -> M (E:=E) (apiError + S));
  cr_Document : Task -> string -> option D;
  cr_Location : ActiveSession -> string -> string;
  cr_RecordResponse : bool;
  cr_AfterCreate : option (Task -> S -> M (E:=E) Task)
}.

Context (creator : Creator) (identity : Identity) (session : ActiveSession).

(** A storage error ends the request with an API error. *)
Definition or_api {A} (m : M (E:=E) A) : M (E:=E) (apiError + A) :=
  r ← try m;
  match r with
  | inl Panicked => fail Panicked
  | inl e => mret (inl (Storage (cr_Errors creator) e))
  | inr a => mret (inr a)
  end.

Definition replay (scope key requestHash : string) : M (E:=E) (apiError + option Task) :=
  record ← try (Idempotency_Get scope key);
  match record with
  | inl Panicked => fail Panicked
  | inl e => mret (if storage_Is e ErrNotFound then inr None else inl (Storage (cr_Errors creator) e))
  | inr record =>
      if negb (bool_decide (i_RequestHash record = requestHash))
      then mret (inl (Storage (cr_Errors creator) (StorageError ErrIdempotencyMismatch)))
      else
        task ← try (Task_GetByID (i_ResourceID record));
        match task with
        | inr task => mret (if Owned task (cr_TaskType creator) identity session then inr (Some task) else inl NotFound)
        | inl _ => mret (inl NotFound)
        end
  end.

(** The variables that the callback of [persist] captures. *)
Record captured := mkCaptured { c_task : Task; c_created : bool }.

Definition reserve_or_load (scope key requestHash : string) (response : bytes) (now : time) : Closure (E:=E) captured := fun c w =>
  match Idempotency_Reserve (mkIdempotencyRecord scope key requestHash (cr_TaskType creator) (t_ID (c_task c)) response
                               now (as_ExpiresAt session)) w with
  | (inl e, w) => ((Some e, c), w)
  | (inr (record, reserved), w) =>
      if negb reserved then
        match Task_GetByID (i_ResourceID record) w with
        | (inl _, w) => ((Some (StorageError ErrNotFound), c), w)
        | (inr existing, w) =>
            if Owned existing (cr_TaskType creator) identity session
            then ((None, mkCaptured existing (c_created c)), w)
            else ((Some (StorageError ErrNotFound), c), w)
        end
      else
        match Task_Create (c_task c) w with
        | (inl e, w) => ((Some e, c), w)
        | (inr _, w) => ((None, mkCaptured (c_task c) true), w)
        end
  end.

Definition persist (scope key requestHash : string) (spec : S) : M (E:=E) (apiError + (Task * bool)) :=
  now ← time_Now;
  id ← uuid_NewString;
  let task := mkTask id (Subject identity) (as_ID session) (cr_TaskType creator) Pending (json_Marshal spec) [] key now now
                (Some (as_ExpiresAt session)) in
  let response :=
    if cr_RecordResponse creator then
      match cr_Document creator task (as_Namespace session) with Some document => json_Marshal document | None => [] end
    else [] in
  r ← run_transaction store (reserve_or_load scope key requestHash response now) (mkCaptured task false);
  match r with
  | (Some Panicked, _) => fail Panicked
  | (Some e, _) => mret (inl (Storage (cr_Errors creator) e))
  | (None, c) => mret (inr (c_task c, c_created c))
  end.

(** What a request is answered with. *)
Inductive response :=
| Rejected (e : apiError)
| Responded (status : Z) (replayed : bool) (location : option string) (document : D).

Definition document_or_internal (task : Task) (k : D -> response) : response :=
  match cr_Document creator task (as_Namespace session) with Some d => k d | None => Rejected (Internal (cr_Errors creator)) end.

(** [AfterCreate] and the response, for a task that was just persisted. *)
Definition finish_create (spec : S) (task : Task) (created : bool) : M (E:=E) response :=
  performed ←
    match created, cr_AfterCreate creator with
    | true, Some after =>
        r ← try (after task spec);
        match r with inl Panicked => fail Panicked | inl _ => mret (inl (Internal (cr_Errors creator))) | inr t => mret (inr t) end
    | _, _ => mret (inr task)
    end;
  mret match performed with
       | inl e => Rejected e
       | inr task => document_or_internal task
           (Responded (if created then 201 else 200) (negb created) (Some (cr_Location creator session (t_ID task))))
       end.

(** [bound] is the outcome of binding the body, [keys] the values of the header. *)
Definition Create (bound : apiError + S) (keys : list string) : M (E:=E) response :=
  match bound with
  | inl e => mret (Rejected e)
  | inr spec =>
  match cr_Normalize creator spec with
  | inl e => mret (Rejected e)
  | inr spec =>
  match IdempotencyKey keys with
  | inl e => mret (Rejected e)
  | inr key =>
      let requestHash := RequestHash (as_ID session) (as_Namespace session) spec in
      let scope := Scope (cr_TaskType creator) (Subject identity) in
      replayed ← replay scope key requestHash;
      match replayed with
      | inl e => mret (Rejected e)
      | inr (Some task) => mret (document_or_internal task (Responded 200 true None))
      | inr None =>
          prepared ← match cr_Prepare creator with Some prepare => prepare spec | None => mret (inr spec) end;
          match prepared with
          | inl e => mret (Rejected e)
          | inr spec =>
              persisted ← persist scope key requestHash spec;
              match persisted with
              | inl e => mret (Rejected e)
              | inr (task, created) => finish_create spec task created
              end
          end
      end
  end
  end
  end.
End api.

(** * Correctness of idempotent creation

    A request with an idempotency key that was served before gets the task of the
    first request. *)


Section facts.
Context {E : Type} `{EN : Engine E} `{UP : UuidPackage} `{HP : HashPackage} `{JV : JsonValidity} {UL : UuidLaws} (store : Store).
Context {S D : Type} `{JS : JsonCodec S} `{JD : JsonCodec D}.
Context (creator : Creator (E := E) (S := S) (D := D)) (identity : Identity) (session : ActiveSession).
Context (scope key : string) (Hscope : TrimSpace scope = scope) (Hkey : TrimSpace key = key).
Implicit Types (db : Database) (w : World E).

Definition rows_keyed (db : Database) : Prop := map_Forall (fun id row => t_ID row = id) (tasks db).

(** The record of the key names this task. *)
Definition recorded (id : string) (db : Database) : Prop :=
  exists record, idempotency_records db !! (scope, key) = Some record /\ i_ResourceID record = id.

(** ** The repositories, in a transaction *)

Lemma keeps_Get s k : keeps_tx (Idempotency_Get s k).
Proof.
  unfold Idempotency_Get. cbn zeta. apply keeps_bind; [auto with kube|]. intros _. apply keeps_bind; [auto with kube|].
  intros [?|]; auto with kube.
Qed.

Lemma keeps_Reserve record : keeps_tx (Idempotency_Reserve record).
Proof.
  unfold Idempotency_Reserve. apply keeps_bind; [auto with kube|]. intros r. apply keeps_bind; [auto with kube|].
  intros count. destruct (_ =? _); [auto with kube|]. apply keeps_bind; [apply keeps_Get|]. intros existing.
  destruct (bool_decide _); auto with kube.
Qed.

Lemma keeps_Create task : keeps_tx (Task_Create task).
Proof. unfold Task_Create. apply keeps_bind; auto with kube. Qed.

Lemma Reserve_tx hash type id response now expires w record reserved w' :
  w_tx w = true ->
  Idempotency_Reserve (mkIdempotencyRecord scope key hash type id response now expires) w = (inr (record, reserved), w') ->
  w_tx w' = true /\
  if reserved then idempotency_records (w_db w) !! (scope, key) = None /\ tasks (w_db w') = tasks (w_db w) /\
    recorded (TrimSpace id) (w_db w')
  else idempotency_records (w_db w) !! (scope, key) = Some record /\ w_db w' = w_db w.
Proof.
  unfold Idempotency_Reserve. intros Ht (r & w1 & [Hn ->]%lift_inr & Hr)%bind_inr.
  unfold normalizeIdempotencyRecord in Hn. cbn [i_Scope i_Key i_RequestHash i_ResourceType i_ResourceID i_Response i_CreatedAt i_ExpiresAt] in Hn.
  cbn zeta in Hn. rewrite Hscope, Hkey in Hn. inv_ok.
  apply bind_inr in Hr as (count & w1 & Hs & Hr). destruct (statement_tx _ _ _ _ _ Ht Hs) as [Hf Ht1].
  unfold insert_idempotency in Hf. cbn [i_Scope i_Key] in Hf, Hr.
  destruct (idempotency_records (w_db w) !! (scope, key)) as [old|] eqn:El; injection Hf as <- Hdb; cbn [Z.eqb Pos.eqb] in Hr.
  - apply bind_inr in Hr as (existing & w2 & Hg & Hr). unfold Idempotency_Get in Hg. cbn zeta in Hg.
    apply bind_inr in Hg as (u & ? & [_ ->]%lift_inr & Hg). apply bind_inr in Hg as (row & w3 & Hrow & Hg).
    destruct (statement_read_tx _ _ _ _ _ Ht1 Hrow) as (-> & Hdb3 & Ht3). rewrite Hscope, Hkey, <- Hdb, El in Hg.
    apply mret_inr in Hg as [-> ->].
    cbn [i_RequestHash] in Hr. destruct (bool_decide (i_RequestHash old = _)); [|done].
    apply mret_inr in Hr as [[= -> ->] ->]. split; [done|]. split; [done|].
    by rewrite Hdb3.
  - apply mret_inr in Hr as [[= -> ->] ->]. split; [done|]. rewrite <- Hdb. split; [done|]. split; [done|].
    eexists. cbn [idempotency_records set_idempotency]. rewrite lookup_insert_eq. by split.
Qed.

Lemma Create_tx task w w' :
  w_tx w = true -> Task_Create task w = (inr tt, w') ->
  w_tx w' = true /\ TrimSpace (t_ID task) = t_ID task /\ idempotency_records (w_db w') = idempotency_records (w_db w) /\
  (rows_keyed (w_db w) -> rows_keyed (w_db w')).
Proof.
  unfold Task_Create. intros Ht (t & w1 & [Hn ->]%lift_inr & Hs)%bind_inr. destruct (statement_tx _ _ _ _ _ Ht Hs) as [Hf Ht'].
  unfold normalizeTask in Hn. cbn zeta in Hn. inv_ok.
  match goal with Hv : validateUUID (t_ID task) _ = Ok _ |- _ => unfold validateUUID in Hv;
    destruct (uuid_Parse (t_ID task)) as [u|] eqn:Eu; [|done] end.
  split; [done|]. split; [by apply (uuid_trimmed _ u)|]. unfold insert_task in Hf.
  match type of Hf with (if ?b then _ else _) = _ => destruct b; [discriminate Hf|] end.
  injection Hf as <-. split; [done|]. intros Hk id row Hr. cbn [tasks set_tasks t_ID] in Hr. rewrite lookup_insert in Hr.
  case_decide as Hd; [injection Hr as <-; exact Hd|by apply Hk].
Qed.

(** ** The callback of [persist] *)

Lemma callback_spec hash response now c w r c' w' :
  reserve_or_load creator identity session scope key hash response now c w = ((r, c'), w') ->
  w_tx w = true -> rows_keyed (w_db w) ->
  w_tx w' = true /\ (c_created c' = c_created c \/ idempotency_records (w_db w) !! (scope, key) = None) /\
  (r = None -> rows_keyed (w_db w') /\
     ((idempotency_records (w_db w) !! (scope, key) = None /\ recorded (t_ID (c_task c')) (w_db w')) \/
      (exists record, idempotency_records (w_db w) !! (scope, key) = Some record /\
         t_ID (c_task c') = i_ResourceID record /\ w_db w' = w_db w))).
Proof.
  unfold reserve_or_load. intros Hc Ht Hk.
  pose proof (keeps_Reserve (mkIdempotencyRecord scope key hash (cr_TaskType creator) (t_ID (c_task c)) response now
    (as_ExpiresAt session)) w) as Ht1.
  destruct (Idempotency_Reserve _ w) as [[e|[record reserved]] w1] eqn:Er; cbn [snd] in Ht1; rewrite Ht in Ht1.
  { injection Hc as <- <- <-. split; [done|]. split; [by left|discriminate]. }
  destruct (Reserve_tx _ _ _ _ _ _ _ _ _ _ Ht Er) as [_ Hres]. destruct reserved; cbn [negb] in Hc.
  - destruct Hres as (Hnone & Htasks & Hrec). pose proof (keeps_Create (c_task c) w1) as Ht2.
    destruct (Task_Create (c_task c) w1) as [[e|[]] w2] eqn:Ecr; cbn [snd] in Ht2; rewrite Ht1 in Ht2.
    { injection Hc as <- <- <-. split; [done|]. split; [by left|discriminate]. }
    injection Hc as <- <- <-. destruct (Create_tx _ _ _ Ht1 Ecr) as (_ & Htrim & Hidem & Hkeyed).
    split; [done|]. split; [by right|]. intros _. split.
    + apply Hkeyed. unfold rows_keyed. by rewrite Htasks.
    + left. split; [done|]. unfold recorded in *. cbn [c_task]. by rewrite Hidem, <- Htrim.
  - destruct Hres as [Hsome Hdb]. pose proof (keeps_GetByID (i_ResourceID record) w1) as Ht2.
    destruct (Task_GetByID (i_ResourceID record) w1) as [[e|existing] w2] eqn:Eg; cbn [snd] in Ht2; rewrite Ht1 in Ht2.
    { injection Hc as <- <- <-. split; [done|]. split; [by left|discriminate]. }
    destruct (Task_GetByID_tx _ _ _ _ Ht1 Eg) as (_ & Hrow & Hdb2 & _). rewrite Hdb in Hrow.
    destruct (Owned existing _ _ _); injection Hc as <- <- <-; (split; [done|]); (split; [by left|]); [|discriminate].
    intros _. rewrite Hdb2, Hdb. split; [done|]. right. exists record. split; [done|]. split; [|done]. by apply (Hk _ _ Hrow).
Qed.

(** ** The property *)

Definition kept_by_others : Prop :=
  (forall db e, rows_keyed db -> rows_keyed (engine_Others (E:=E) db e).1) /\
  (forall id db e, recorded id db -> recorded id (engine_Others (E:=E) db e).1).

Lemma persist_inr hash spec w task created w' :
  persist store creator identity session scope key hash spec w = (inr (inr (task, created)), w') ->
  exists c0 c response now w0, w_db w0 = w_db w /\ w_tx w0 = w_tx w /\ c_created c0 = false /\
  WithinTransaction store (reserve_or_load creator identity session scope key hash response now) c0 w0 = ((None, c), w') /\
  task = c_task c /\ created = c_created c.
Proof.
  unfold persist. intros (now & w1 & Hn & Hr)%bind_inr. apply bind_inr in Hr as (id & w2 & Hu & Hr).
  cbn zeta in Hr. apply bind_inr in Hr as ([err c] & w3 & Ht & Hr).
  unfold run_transaction in Ht. destruct (WithinTransaction _ _ _ w2) as [r w4] eqn:Ew.
  assert (r = (err, c) /\ w4 = w3) as [-> ->] by (split; congruence).
  destruct err as [[]|]; try discriminate Hr. apply mret_inr in Hr as [[= -> ->] ->].
  eexists _, c, _, now, w2. split; [|split; [|split; [|split; [exact Ew|done]]]].
  - unfold time_Now in Hn. destruct (engine_Now _). injection Hn as _ <-. apply uuid_tx in Hu as [-> _]. done.
  - unfold time_Now in Hn. destruct (engine_Now _). injection Hn as _ <-. apply uuid_tx in Hu as [_ ->]. done.
  - done.
Qed.

(** C30 (safety). A request is served once: after a request with a key has got its
    task, and as long as the other clients keep the record of the key, any later
    request with that key fails or gets a task with the same identifier, and is
    never told that it created it. *)
Theorem request_served_once (hash1 hash2 : string) (spec1 spec2 : S) (w w1 w2 : World E) (task1 task2 : Task) (created1 created2 : bool)
    (Hothers : kept_by_others) (Hw : w_tx w = false) (Hkeyed : rows_keyed (w_db w))
    (Hfirst : persist store creator identity session scope key hash1 spec1 w = (inr (inr (task1, created1)), w1))
    (Hsecond : persist store creator identity session scope key hash2 spec2 w1 = (inr (inr (task2, created2)), w2)) :
  t_ID task2 = t_ID task1 /\ created2 = false /\ recorded (t_ID task1) (w_db w2).
Proof.
  destruct Hothers as [Hok Hor].
  apply persist_inr in Hfirst as (c0 & c1 & resp & now & w0 & Hdb0 & Hw0 & _ & Ht & -> & _).
  rewrite Hw in Hw0. rewrite <- Hdb0 in Hkeyed.
  destruct (transaction_spec rows_keyed (fun _ => True) (reserve_or_load creator identity session scope key hash1 resp now) Hok)
    with (store := store) (c := c0) (w := w0) (r := @None storage_error) (c' := c1) (w' := w1)
    as (Hw1 & _ & Hk1 & db & cx & _ & Hlast); try done.
  { intros c w3 Ht3 Hk3 _. destruct (reserve_or_load _ _ _ _ _ _ _ _ c w3) as [[r c'] w4] eqn:Ec.
    destruct (callback_spec _ _ _ _ _ _ _ _ Ec Ht3 Hk3) as (? & _ & Hr). cbn [fst snd]. split; [done|]. split; [done|].
    intros Hn. by destruct (Hr Hn). }
  assert (Hrec : recorded (t_ID (c_task c1)) (w_db w1)).
  { destruct Hlast as (Hkdb & _ & e & e' & Hc). destruct (callback_spec _ _ _ _ _ _ _ _ Hc eq_refl Hkdb) as (_ & _ & Hr).
    destruct (Hr eq_refl) as [_ [[_ Hr']|(record & Hl & Hid & Hdb)]]; [done|]. cbn [w_db] in *. exists record. rewrite Hdb. done. }
  clear Ht Hlast. set (id := t_ID (c_task c1)) in *.
  apply persist_inr in Hsecond as (d0 & d1 & resp2 & now2 & w3 & Hdb3 & Hw3 & Hd0 & Ht & -> & ->).
  rewrite Hw1 in Hw3. rewrite <- Hdb3 in Hk1, Hrec.
  destruct (transaction_spec (fun db => rows_keyed db /\ recorded id db) (fun c => c_created c = false)
      (reserve_or_load creator identity session scope key hash2 resp2 now2))
    with (store := store) (c := d0) (w := w3) (r := @None storage_error) (c' := d1) (w' := w2)
    as (_ & Hcr & [Hk2 Hrec2] & db2 & dx & _ & Hlast); try done.
  { intros dbx e [Hkx Hrx]. split; [by apply Hok|by apply Hor]. }
  { intros c w4 Ht4 [Hk4 Hr4] Hc4. destruct (reserve_or_load _ _ _ _ _ _ _ _ c w4) as [[r c'] w5] eqn:Ec.
    destruct (callback_spec _ _ _ _ _ _ _ _ Ec Ht4 Hk4) as (Ht5 & Hcr & Hr). cbn [fst snd].
    destruct Hr4 as (record & Hl & Hid). split; [done|]. split.
    - destruct Hcr as [->|Hn]; [done|congruence].
    - intros Hn. destruct (Hr Hn) as [Hk5 [[Hno _]|(record' & _ & _ & ->)]]; [congruence|]. split; [done|]. by exists record. }
  destruct Hlast as ([Hkdb (record & Hl & Hid)] & _ & e & e' & Hc).
  destruct (callback_spec _ _ _ _ _ _ _ _ Hc eq_refl Hkdb) as (_ & _ & Hr). cbn [w_db] in *.
  destruct (Hr eq_refl) as [_ [[Hno _]|(record' & Hl' & Hid' & _)]]; [congruence|].
  assert (record' = record) as -> by congruence. by rewrite Hid', Hid.
Qed.
End facts.
