(* ===== verification/StorageRuns.v ===== *)
(** * A concrete storage engine and database

    An engine driven by a script: what other clients do before each statement or
    transaction, and which commits fail.  It lets the properties of the task
    repository be applied to concrete runs. *)

From S2P Require Import Prelude GoLib GoText GoSort External ConcreteEnv Netip ConcreteNetip.
From S2P Require Import NetworkSpec NetworkSpecFacts RemoteTask StorageEngine SessionStore TaskStore.
From S2P Require Import TaskAPI StorageFacts TaskStoreFacts TaskLifecycle.

Record Script := mkScript {
  sc_others : list (Database -> Database);
  sc_commits : list (option fault);
  sc_uuids : nat;
  sc_now : time
}.

Definition sample_id (n : nat) : string := "00000000-0000-4000-8000-0000000000" +:+ bytes_to_string (dec (byte_of_Z (10 + Z.of_nat n))).

(** The engine of a backend; clocks advance by a second at every reading. *)
Definition script_engine (b : Backend) : Engine Script := {|
  engine_backend := b;
  engine_jsonb := id;
  engine_Statement := fun e => (None, e);
  engine_Begin := fun e => (None, e);
  engine_Commit := fun e =>
    match sc_commits e with
    | [] => (None, e)
    | c :: rest => (c, mkScript (sc_others e) rest (sc_uuids e) (sc_now e))
    end;
  engine_Others := fun db e =>
    match sc_others e with
    | [] => (db, e)
    | f :: rest => (f db, mkScript rest (sc_commits e) (sc_uuids e) (sc_now e))
    end;
  engine_Wait := fun _ e => (false, e);
  engine_Err := fun e => (false, e);
  engine_NewUUID := fun e => (sample_id (sc_uuids e), mkScript (sc_others e) (sc_commits e) (S (sc_uuids e)) (sc_now e));
  engine_Now := fun e => (sc_now e, mkScript (sc_others e) (sc_commits e) (sc_uuids e) (sc_now e + Second))
|}.

(** No other clients. *)
Definition quiet_engine : Engine nat := {|
  engine_backend := BackendSQLite;
  engine_jsonb := id;
  engine_Statement := fun e => (None, e);
  engine_Begin := fun e => (None, e);
  engine_Commit := fun e => (None, e);
  engine_Others := fun db e => (db, e);
  engine_Wait := fun _ e => (false, e);
  engine_Err := fun e => (false, e);
  engine_NewUUID := fun e => (sample_id e, S e);
  engine_Now := fun e => (1000 * Second + Z.of_nat e, S e)
|}.

(** Identifiers of 36 characters without surrounding space. *)
Definition sample_uuid : UuidPackage :=
  {| uuid_Parse := fun s => if (slen s =? 36) && bool_decide (TrimSpace s = s) then Some s else None |}.

Definition sample_validity : JsonValidity := {| json_Valid := fun _ => true |}.

Definition ser_metadata : Ser transitionMetadata.
Proof.
  refine (ser_image (ser_pair (ser_pair ser_string ser_string) (ser_pair (ser_pair ser_string ser_string) ser_string))
    (fun m => ((tm_SessionID m, tm_Namespace m), ((tm_PreviousState m, tm_NextState m), tm_Source m)))
    (fun t => mkTransitionMetadata t.1.1 t.1.2 t.2.1.1 t.2.1.2 t.2.2) _).
  by intros [].
Defined.
Definition sample_metadata_codec : JsonCodec transitionMetadata := ser_codec ser_metadata.

Lemma sample_uuid_laws : UuidLaws (H := sample_uuid).
Proof.
  constructor. intros s u Hs. cbn [uuid_Parse sample_uuid] in Hs. destruct ((slen s =? 36) && bool_decide (TrimSpace s = s)) eqn:E; [|done].
  by apply andb_true_iff in E as [_ E%bool_decide_eq_true].
Qed.

#[export] Existing Instances sample_uuid sample_validity sample_metadata_codec sample_uuid_laws.

Lemma sample_metadata_stored {E} (en : Engine E) : engine_jsonb = id -> MetadataStored (EN := en).
Proof.
  intros Hj. constructor. intros m. unfold stored_json. rewrite Hj.
  case_match; apply (ser_codec_roundtrip ser_metadata).
Qed.

(** ** A database with one session and one running task *)

Definition identity_id : string := sample_id 1.
Definition session_id : string := sample_id 2.
Definition task_id : string := sample_id 3.

Definition sample_network : list byte := Eval vm_compute in json_Marshal sample_normalized.

Definition sample_hash : string := Eval vm_compute in hex_EncodeToString (sha256_Sum256 (json_Marshal sample_normalized)).

Definition sample_session : Session :=
  mkSession session_id identity_id "device" "cluster" "development" "active" 1 sample_network sample_hash
    1 1 1 (2000 * Second).

Definition sample_task : Task :=
  mkTask task_id identity_id session_id "pod-exec" Running (string_to_bytes "{}") (string_to_bytes "{old}") "key" 1 (500 * Second) None.

Definition sample_identity : StoredIdentity := mkStoredIdentity identity_id "human" "User" "user@example.com" "active" 1 1.

Definition sample_database : Database :=
  mkDatabase {[identity_id := sample_identity]} {[session_id := sample_session]} {[task_id := sample_task]} ∅ [] empty_directory.

Lemma sample_tables_reachable : rtc (change (EN := quiet_engine)) empty_database sample_database.
Proof.
  eapply rtc_l; [exact (change_identities empty_database {[identity_id := sample_identity]})|].
  eapply rtc_l; [exact (change_sessions _ {[session_id := sample_session]})|].
  apply rtc_once. apply (change_create (EN := quiet_engine) _ sample_task).
  - exists sample_task. by vm_compute.
  - by vm_compute.
  - by vm_compute.
Qed.

Definition sample_store : Store := mkStore 3 (10 * Millisecond).
Definition quiet_world : World nat := mkWorld sample_database 10%nat false.

Lemma quiet_others : others_change (EN := quiet_engine).
Proof. intros db e. apply rtc_refl. Qed.

(** * Concrete runs of the storage layer

    The properties of the task repository and of the life of a task applied to
    concrete engines, and two runs in which the code does not do what it means to
    do. *)


#[local] Existing Instance quiet_engine.

Lemma quiet_metadata : MetadataStored.
Proof. by apply sample_metadata_stored. Qed.

(** Without its panics a run has an outcome and a world. *)
Definition after {E A} (m : M (E:=E) A) {EN : Engine E} (w : World E) : World E := (m w).2.

Definition finish_run : M (E:=nat) unit := UpdateState sample_store "request" task_id Running Stopped (string_to_bytes "{done}") 600.

Lemma audited_updates_witness :
  trail task_id (w_db (after finish_run quiet_world)) = [(Running, Stopped)].
Proof.
  destruct (audited_updates (MS := quiet_metadata) sample_store "request" task_id Running Stopped 0 600 (string_to_bytes "{done}")
    quiet_world (after finish_run quiet_world) (inr tt) quiet_others sample_tables_reachable eq_refl) as (_ & _ & _ & Happ).
  - left. evaluate.
  - destruct (Happ eq_refl) as (db & _ & row & _ & _ & _ & _ & _). evaluate.
Defined.

Lemma quiet_repository_laws : TaskRepositoryLaws nat (H := store_repository sample_store "request").
Proof. apply (store_repository_laws (MS := quiet_metadata)), quiet_others. Qed.

Lemma sample_trails_ok : trails_ok (w_db quiet_world).
Proof. exact (changes_trails _ _ sample_tables_reachable empty_trails_ok). Qed.

Definition delete_run : M (E:=nat) Task := Delete (H0 := store_repository sample_store "request") task_id.

Lemma stop_and_delete_witness :
  exists task, (delete_run quiet_world).1 = inr task /\ stored_as task_id Deleted (t_UpdatedAt task) (w_db (after delete_run quiet_world)).
Proof.
  destruct (stop_and_delete (TL := quiet_repository_laws) task_id quiet_world eq_refl sample_trails_ok) as [_ Hd].
  assert (Hrun : delete_run quiet_world = ((delete_run quiet_world).1, after delete_run quiet_world)) by (unfold after; by destruct (delete_run quiet_world)).
  destruct (Hd _ _ Hrun) as [_ Hres].
  assert (Hok : exists task, (delete_run quiet_world).1 = inr task) by (eexists; evaluate).
  destruct Hok as [task Htask]. exists task. split; [exact Htask|]. by destruct (Hres task Htask) as (_ & ? & _).
Defined.

Definition claim_run (rid : string) (now : time) : M (E:=nat) unit :=
  ClaimStale sample_store rid task_id Running (500 * Second) Failed [] now.

Lemma stale_task_claimed_once_witness :
  exists err, (claim_run "second" (900 * Second) (after (claim_run "first" (800 * Second)) quiet_world)).1 = inl err.
Proof.
  destruct (stale_task_claimed_once sample_store "first" "second" task_id Running Failed Failed (500 * Second) (800 * Second)
    (900 * Second) [] [] quiet_world (after (claim_run "first" (800 * Second)) quiet_world)
    (claim_run "second" (900 * Second) (after (claim_run "first" (800 * Second)) quiet_world)).2
    (claim_run "second" (900 * Second) (after (claim_run "first" (800 * Second)) quiet_world)).1) as [He _].
  - intros db e Hn. exact Hn.
  - reflexivity.
  - evaluate.
  - evaluate.
  - unfold claim_run. by destruct (ClaimStale _ "second" _ _ _ _ _ _ _).
  - exact He.
Defined.

(** Objects as opaque documents: decoding gives an empty map, encoding a fixed
    document. *)
Definition sample_objects : JsonObjects :=
  {| object_Unmarshal := fun _ => Some ∅; object_Marshal := fun _ => string_to_bytes "{failed}"; json_string := string_to_bytes |}.
#[local] Existing Instance sample_objects.

Definition sample_reconciler : Reconciler := mkReconciler (5 * Second) (15 * Second) 100 ["pod-exec"; "file-transfer"].

Definition recovery_run : M (E:=nat) (Z * list storage_error) := RunOnce sample_store sample_reconciler.

Lemma recovery_fails_only_stale_witness :
  recovers sample_reconciler (engine_Now (w_engine quiet_world)).1 quiet_world (after recovery_run quiet_world) /\
  (recovery_run quiet_world).1 = inr (1, []).
Proof.
  split; [|by vm_compute].
  apply (recovery_fails_only_stale sample_store sample_reconciler quiet_world (after recovery_run quiet_world)
           (recovery_run quiet_world).1); [reflexivity|].
  unfold recovery_run, after. by destruct (RunOnce sample_store sample_reconciler quiet_world).
Defined.

(** ** A stale result written by [Stop]

    Another client records a new result of the running task, without changing its
    state, after [Stop] has read it. *)

Definition heartbeat_result (db : Database) : Database :=
  match tasks db !! task_id with
  | Some row => set_tasks db (<[task_id := moved (H := script_engine BackendSQLite) Running (string_to_bytes "{new}") (900 * Second) row]> (tasks db))
  | None => db
  end.

Definition racing_script : Script := mkScript [id; heartbeat_result] [] 10 (1000 * Second).
Definition racing_world : World Script := mkWorld sample_database racing_script false.

Definition stop_run : M (E:=Script) Task :=
  Stop (H := script_engine BackendSQLite) (H0 := store_repository (EN := script_engine BackendSQLite) sample_store "request") task_id.

(** [Stop] compares only the state: the result another client
    recorded for the task between the read and the update of [Stop] is
    overwritten by the one [Stop] read. *)
Theorem stop_overwrites_result :
  exists task row, (stop_run racing_world).1 = inr task /\ t_State task = Stopped /\
  t_Result <$> (tasks (heartbeat_result sample_database) !! task_id) = Some (string_to_bytes "{new}") /\
  tasks (w_db (stop_run racing_world).2) !! task_id = Some row /\ t_Result row = string_to_bytes "{old}".
Proof. eexists _, _. evaluate. Qed.

(** ** A replayed request that counts as created *)

Definition api_errors : Errors := mkErrors "Pod exec" "" "".

Definition exec_creator : Creator (E := Script) (S := string) (D := string) :=
  mkCreator "pod-exec" api_errors inr None (fun t _ => Some (t_ID t)) (fun _ id => id) false None.

#[local] Instance string_codec : JsonCodec string := ser_codec ser_string.

Definition api_identity : Identity := mkIdentity identity_id "oidc" "" "" [] "device" "" 0.
Definition api_session : ActiveSession := mkActiveSession session_id "development" 1 (2000 * Second) sample_hash.

Definition request_hash : string := Eval vm_compute in RequestHash session_id "development" "spec".
Definition request_scope : string := Scope "pod-exec" identity_id.

(** Another replica serves the same request. *)
Definition twin_id : string := sample_id 40.
Definition twin_request (db : Database) : Database :=
  set_tasks (set_idempotency db (<[(request_scope, "twin") :=
      mkIdempotencyRecord request_scope "twin" request_hash "pod-exec" twin_id [] 1 (2000 * Second)]> (idempotency_records db)))
    (<[twin_id := mkTask twin_id identity_id session_id "pod-exec" Pending (json_Marshal "spec") [] "twin" 1 1 None]> (tasks db)).

(** The first commit fails with a serialization failure and is not applied; the
    other replica commits before the retry. *)
Definition twin_script : Script :=
  mkScript [id; twin_request] [Some (mkFault false (PgError "40001"))] 10 (1000 * Second).

Definition persist_run : M (E:=Script) (apiError + (Task * bool)) :=
  persist (H := script_engine BackendPostgreSQL) sample_store exec_creator api_identity api_session request_scope "twin"
    request_hash "spec".

(** The variable [created] is not reset when a transaction is
    retried: a request whose transaction is retried after another replica has
    served the same request gets the other replica's task, and is told that it
    has created it. *)
Theorem retried_request_counts_as_created :
  exists task, (persist_run (mkWorld sample_database twin_script false)).1 = inr (inr (task, true)) /\
  t_ID task = twin_id /\ tasks (twin_request sample_database) !! twin_id = Some task /\
  tasks (w_db (persist_run (mkWorld sample_database twin_script false)).2) = tasks (twin_request sample_database).
Proof. eexists. evaluate. Qed.

(** ** A request that is repeated *)

Definition quiet_creator : Creator (E := nat) (S := string) (D := string) :=
  mkCreator "pod-exec" api_errors inr None (fun t _ => Some (t_ID t)) (fun _ id => id) true None.

Definition quiet_persist : M (E:=nat) (apiError + (Task * bool)) :=
  persist sample_store quiet_creator api_identity api_session request_scope "again" request_hash "spec".

Definition persisted (r : storage_error + (apiError + (Task * bool))) : Task * bool :=
  match r with inr (inr tc) => tc | _ => (sample_task, false) end.

Definition first_persist : World nat := after quiet_persist quiet_world.

Lemma request_served_once_witness :
  (persisted (quiet_persist quiet_world).1).2 = true /\
  t_ID (persisted (quiet_persist first_persist).1).1 = t_ID (persisted (quiet_persist quiet_world).1).1 /\
  (persisted (quiet_persist first_persist).1).2 = false.
Proof.
  split; [evaluate|].
  destruct (request_served_once sample_store quiet_creator api_identity api_session request_scope "again" eq_refl eq_refl
    request_hash request_hash "spec" "spec" quiet_world first_persist (after quiet_persist first_persist)
    (persisted (quiet_persist quiet_world).1).1 (persisted (quiet_persist first_persist).1).1
    (persisted (quiet_persist quiet_world).1).2 (persisted (quiet_persist first_persist).1).2) as (Hid & Hc & _).
  - split; [intros db e Hk; exact Hk|intros id db e Hr; exact Hr].
  - reflexivity.
  - intros id row. cbn [tasks sample_database quiet_world w_db]. rewrite lookup_singleton_Some. intros [<- <-]. reflexivity.
  - evaluate.
  - evaluate.
  - split; [exact Hid|exact Hc].
Defined.
