(* ===== verification/StoragePages.v ===== *)
(** * Listings of the storage layer ([storage/pagination.go] and the [List]
    operations of [tasks.go], [task_queries.go], [sessions.go], [audit.go])

    Management listings show the newest rows first, a page at a time.  A page
    continues after a row, not at an offset: its cursor is the creation time and
    the identifier of the last row seen. *)

From Stdlib Require Import Sorting.Sorted.
From S2P Require Import Prelude GoLib GoText GoSort External RemoteTask StorageEngine SessionStore TaskStore Netip NetworkSpec.
From S2P Require Import StorageFacts TaskLifecycle StorageRuns.

(** ** Pages ([pagination.go]) *)

Record PageCursor := mkPageCursor { pc_CreatedAt : time; pc_ID : string }.

#[export] Instance PageCursor_eq_dec : EqDecision PageCursor.
Proof. solve_decision. Defined.

Definition MaximumManagementPageFetch : Z := 101.

(** [AND (created_at < ? OR (created_at = ? AND id < ?))] *)
Definition appendPageBoundary (cursor : option PageCursor) (row : PageCursor) : bool :=
  match cursor with
  | None => true
  | Some c =>
      (pc_CreatedAt row <? pc_CreatedAt c) ||
      ((pc_CreatedAt row =? pc_CreatedAt c) && String.ltb (pc_ID row) (pc_ID c))
  end.

(** [ORDER BY created_at DESC, id DESC] *)
Definition descending (k l : PageCursor) : Z :=
  lex_cmp (fun k l => pc_CreatedAt l - pc_CreatedAt k) (fun k l => compareString (pc_ID l) (pc_ID k)) k l.

(** [SELECT ... WHERE keep AND boundary ORDER BY created_at DESC, id DESC LIMIT ?] *)
Definition select_page {A} (key : A -> PageCursor) (keep : A -> bool) (cursor : option PageCursor) (limit : Z)
    (rows : list A) : list A :=
  take (Z.to_nat limit)
    (SortFunc (fun a b => descending (key a) (key b))
       (List.filter (fun a => keep a && appendPageBoundary cursor (key a)) rows)).

(** [(column = ?)] for a filter that was given. *)
Definition matches (filter value : string) : bool := bool_decide (filter = "") || bool_decide (value = filter).

(** [dns1123Label] of [validation.go]: [^[a-z0-9](?:[-a-z0-9]{0,61}[a-z0-9])?$] *)
Definition dns1123Label (s : string) : bool :=
  match string_to_bytes s with
  | [] => false
  | first :: rest =>
      asciiLowerAlphaNumeric first &&
      ((len rest =? 0) ||
       ((len rest <=? 62) && asciiLowerAlphaNumeric (List.last rest first) &&
        forallb (fun b => bool_decide (b = x2d) || asciiLowerAlphaNumeric b) (List.removelast rest)))
  end.

(** [strings.ContainsAny(s, "\x00\r\n")] *)
Definition has_line_break (s : string) : bool :=
  negb (all_bytes (fun b => negb (bool_decide (b = x00) || bool_decide (b = x0d) || bool_decide (b = x0a))) s).

Record TaskListFilter := mkTaskListFilter {
  tf_IdentityID : string;
  tf_SessionID : string;
  tf_Namespace : string;
  tf_Type : string;
  tf_State : State;
  tf_Cursor : option PageCursor;
  tf_Limit : Z
}.

Record SessionListFilter := mkSessionListFilter {
  sf_IdentityID : string;
  sf_Namespace : string;
  sf_State : string;
  sf_Cursor : option PageCursor;
  sf_Limit : Z
}.

Record AuditFilter := mkAuditFilter {
  af_IdentityID : string;
  af_Action : string;
  af_After : time;
  af_Before : time;
  af_Cursor : option PageCursor;
  af_Limit : Z
}.

Section pages.
Context `{UuidPackage}.

Definition valid_uuid (id field : string) : bool := is_ok (validateUUID id field).

Definition normalizeCursor (cursor : option PageCursor) : result (option PageCursor) :=
  match cursor with
  | None => Ok None
  | Some c =>
      if IsZero (pc_CreatedAt c) || negb (valid_uuid (pc_ID c) "management page cursor ID")
      then Err (NewError "management page cursor is invalid")
      else Ok (Some (mkPageCursor (pc_CreatedAt c) (pc_ID c)))
  end.

Definition normalizePage (limit : Z) (cursor : option PageCursor) : result (Z * option PageCursor) :=
  if (limit <=? 0) || (MaximumManagementPageFetch <? limit)
  then Err (NewError "management list limit must be between 1 and 101")
  else cursor ← normalizeCursor cursor; Ok (limit, cursor).

(** A filter on identifiers, given or empty. *)
Definition uuid_filter (id field message : string) : result unit :=
  require (bool_decide (id = "") || valid_uuid id field) (NewError message).

(** ** Tasks ([tasks.go]) *)

Definition task_key (t : Task) : PageCursor := mkPageCursor (t_CreatedAt t) (t_ID t).

(** [FROM tasks AS t INNER JOIN sessions AS s ON s.id = t.session_id WHERE ...] *)
Definition task_matches (filter : TaskListFilter) (db : Database) (t : Task) : bool :=
  match sessions db !! t_SessionID t with
  | None => false
  | Some s =>
      matches (TrimSpace (tf_IdentityID filter)) (t_IdentityID t) &&
      matches (TrimSpace (tf_SessionID filter)) (t_SessionID t) &&
      matches (TrimSpace (tf_Namespace filter)) (s_Namespace s) &&
      matches (TrimSpace (tf_Type filter)) (t_Type t) &&
      matches (tf_State filter) (t_State t)
  end.

Definition task_rows (db : Database) : list Task := map snd (map_to_list (tasks db)).

Definition checkTaskFilter (filter : TaskListFilter) : result unit :=
  let namespace := TrimSpace (tf_Namespace filter) in
  let type := TrimSpace (tf_Type filter) in
  _ ← uuid_filter (TrimSpace (tf_IdentityID filter)) "task identity ID" "task identity filter is invalid";
  _ ← uuid_filter (TrimSpace (tf_SessionID filter)) "task session ID" "task session filter is invalid";
  _ ← require (bool_decide (namespace = "") || dns1123Label namespace) (NewError "task namespace filter is invalid");
  _ ← require (negb ((128 <? slen type) || has_line_break type)) (NewError "task type filter is invalid");
  require (bool_decide (tf_State filter = "") || Valid (tf_State filter)) (NewError "task state filter is invalid").

(** ** Sessions ([sessions.go]) *)

Definition session_key (s : Session) : PageCursor := mkPageCursor (s_CreatedAt s) (s_ID s).

Definition session_matches (filter : SessionListFilter) (s : Session) : bool :=
  matches (TrimSpace (sf_IdentityID filter)) (s_IdentityID s) &&
  matches (TrimSpace (sf_Namespace filter)) (s_Namespace s) &&
  matches (TrimSpace (sf_State filter)) (s_State s).

Definition session_rows (db : Database) : list Session := map snd (map_to_list (sessions db)).

Definition checkSessionFilter (filter : SessionListFilter) : result unit :=
  let namespace := TrimSpace (sf_Namespace filter) in
  let state := TrimSpace (sf_State filter) in
  _ ← uuid_filter (TrimSpace (sf_IdentityID filter)) "session identity ID" "session identity filter is invalid";
  _ ← require (bool_decide (namespace = "") || dns1123Label namespace) (NewError "session namespace filter is invalid");
  require (negb ((64 <? slen state) || has_line_break state)) (NewError "session state filter is invalid").

(** ** Audit events ([audit.go]) *)

Definition audit_key (ev : AuditEvent) : PageCursor := mkPageCursor (a_CreatedAt ev) (a_ID ev).

Definition audit_matches (filter : AuditFilter) (ev : AuditEvent) : bool :=
  matches (af_IdentityID filter) (a_IdentityID ev) &&
  (bool_decide (af_Action filter = "") || bool_decide (a_Action ev = TrimSpace (af_Action filter))) &&
  (IsZero (af_After filter) || (af_After filter <=? a_CreatedAt ev)) &&
  (IsZero (af_Before filter) || (a_CreatedAt ev <? af_Before filter)).

Context {E : Type} `{Engine E} `{NetipPackage} `{JsonCodec Spec} `{JsonCodec unit} `{HashPackage}.

Definition Task_List (filter : TaskListFilter) : M (E:=E) (list Task) :=
  '(limit, cursor) ← lift (normalizePage (tf_Limit filter) (tf_Cursor filter));
  _ ← lift (checkTaskFilter filter);
  statement (databaseError "list tasks")
    (fun db => inr (select_page task_key (task_matches filter db) cursor limit (task_rows db), db)).

(** The rows are decoded one by one. *)
Fixpoint scanSessions (rows : list Session) : storage_error + list Session :=
  match rows with
  | [] => inr []
  | row :: rest =>
      match sessionFromRow row with
      | inl e => inl e
      | inr session => match scanSessions rest with inl e => inl e | inr l => inr (session :: l) end
      end
  end.

Definition Session_List (filter : SessionListFilter) : M (E:=E) (list Session) :=
  '(limit, cursor) ← lift (normalizePage (sf_Limit filter) (sf_Cursor filter));
  _ ← lift (checkSessionFilter filter);
  rows ← statement (databaseError "list sessions")
    (fun db => inr (select_page session_key (session_matches filter) cursor limit (session_rows db), db));
  of_sum (scanSessions rows).

Definition Audit_List (filter : AuditFilter) : M (E:=E) (list AuditEvent) :=
  let limit := if af_Limit filter =? 0 then 100 else af_Limit filter in
  _ ← lift (require (negb ((limit <? 1) || (1000 <? limit))) (NewError "audit list limit must be between 1 and 1000"));
  cursor ← lift (normalizeCursor (af_Cursor filter));
  _ ← lift (if bool_decide (af_IdentityID filter = "") then Ok tt else validateUUID (af_IdentityID filter) "identity ID");
  statement (databaseError "list audit events")
    (fun db => inr (select_page audit_key (audit_matches filter) cursor limit (audit_events db), db)).

(** ** The tasks of a session ([task_queries.go]) *)

(** [ORDER BY updated_at DESC, id ASC] *)
Definition recent_first (t u : Task) : Z :=
  lex_cmp (fun t u => t_UpdatedAt u - t_UpdatedAt t) (fun t u => compareString (t_ID t) (t_ID u)) t u.

Definition select_session_tasks (sessionID : string) (limit : Z) (db : Database) : list Task :=
  take (Z.to_nat limit)
    (SortFunc recent_first (List.filter (fun t => bool_decide (t_SessionID t = sessionID)) (task_rows db))).

Definition ListBySession (sessionID : string) (limit : Z) : M (E:=E) (list Task) :=
  _ ← lift (validateUUID sessionID "session ID");
  _ ← lift (require (negb ((limit <=? 0) || (1000 <? limit))) (NewError "task list limit must be between 1 and 1000"));
  statement (databaseError "list session tasks") (fun db => inr (select_session_tasks sessionID limit db, db)).
End pages.

(** * Correctness of keyset pages

    A client that follows the cursors of a listing sees every row that is there
    all along exactly once, whatever happens to the other rows meanwhile; when
    nothing happens, it sees the sorted list. *)


(** ** The order of the listings *)

Lemma flip_cmp_laws {A} (P : A -> Prop) (cmp : A -> A -> Z) : cmp_laws P cmp -> cmp_laws P (fun x y => cmp y x).
Proof.
  intros L. split.
  - intros x y Px Py. apply (cmp_anti L Py Px).
  - intros x y z Px Py Pz Hxy Hyz. exact (cmp_trans L Pz Py Px Hyz Hxy).
Qed.

Lemma descending_laws : cmp_laws (fun _ => True) descending.
Proof.
  apply lex_cmp_laws.
  - split; intros; lia.
  - apply (flip_cmp_laws _ (fun k l => compareString (pc_ID k) (pc_ID l))).
    by apply (map_cmp_laws pc_ID (fun _ => True)); [|apply compareString_laws].
Qed.

Lemma descending_eq k l : descending k l = 0 -> k = l.
Proof.
  unfold descending, lex_cmp. destruct k as [t i], l as [u j]. cbn [pc_CreatedAt pc_ID].
  destruct (Z.eqb_spec (u - t) 0); cbn [negb]; [|done]. intros ->%compareString_eq. f_equal. lia.
Qed.

(** A page begins strictly after its cursor. *)
Lemma boundary_descending c k : appendPageBoundary (Some c) k = (descending c k <? 0).
Proof.
  destruct c as [t i], k as [u j]. unfold appendPageBoundary, descending, lex_cmp. cbn [pc_CreatedAt pc_ID].
  unfold compareString. destruct (Z.ltb_spec u t), (Z.eqb_spec u t), (Z.eqb_spec (u - t) 0); cbn [negb orb andb]; try lia.
  destruct (String.ltb j i); [done|]. by destruct (String.ltb i j).
Qed.

Definition before (k l : PageCursor) : Prop := descending k l < 0.

Lemma before_trans k l m : before k l -> before l m -> before k m.
Proof. intros H1 H2. apply (cmp_lt_le (P := fun _ => True) descending k l m descending_laws I I I H1). unfold before in H2. lia. Qed.

Lemma before_irrefl k : ~ before k k.
Proof. unfold before. rewrite (cmp_refl (P := fun _ => True)); [lia|apply descending_laws|done]. Qed.

(** ** Sorted lists with a key *)

Section keyed.
Context {A : Type} (key : A -> PageCursor).
Implicit Types (l p q : list A).

Definition newest_first l : Prop := StronglySorted before (map key l).

Lemma map_insert_sorted x l :
  map key (insert_sorted (fun a b => descending (key a) (key b)) x l) = insert_sorted descending (key x) (map key l).
Proof. induction l as [|y l IH]; [done|]. cbn. case_match; [done|]. cbn. by rewrite IH. Qed.

Lemma map_SortFunc l : map key (SortFunc (fun a b => descending (key a) (key b)) l) = SortFunc descending (map key l).
Proof.
  induction l as [|x l IH]; [done|].
  change (map key (insert_sorted (fun a b => descending (key a) (key b)) x (SortFunc (fun a b => descending (key a) (key b)) l)) =
          insert_sorted descending (key x) (SortFunc descending (map key l))).
  by rewrite map_insert_sorted, IH.
Qed.

Lemma sort_newest_first l : NoDup (map key l) -> newest_first (SortFunc (fun a b => descending (key a) (key b)) l).
Proof. intros Hn. unfold newest_first. rewrite map_SortFunc. apply SortFunc_strict; [apply descending_laws|apply descending_eq|done]. Qed.

Lemma newest_app p q : newest_first (p ++ q) -> newest_first p /\ newest_first q /\
  forall a b, a ∈ p -> b ∈ q -> before (key a) (key b).
Proof.
  unfold newest_first. rewrite map_app. induction p as [|x p IH]; cbn [map app]; intros Hs.
  - split; [constructor|]. split; [done|]. intros a b Ha. by apply elem_of_nil in Ha.
  - inversion Hs as [|? ? Hs' Hall]; subst. destruct (IH Hs') as (Hp & Hq & Hpq). rewrite Forall_app in Hall.
    destruct Hall as [Hx Hxq]. split; [by constructor|]. split; [done|]. intros a b [->|Ha]%elem_of_cons Hb; [|by apply Hpq].
    rewrite Forall_forall in Hxq. apply Hxq. by apply list_elem_of_fmap_2.
Qed.

Lemma newest_unique l1 l2 : newest_first l1 -> newest_first l2 -> Permutation l1 l2 -> l1 = l2.
Proof.
  revert l2. induction l1 as [|a l1 IH]; intros [|b l2] H1 H2 Hp; [done|by apply Permutation_nil_cons in Hp|
    by apply Permutation_sym, Permutation_nil_cons in Hp|].
  inversion H1 as [|? ? H1' Ha]; inversion H2 as [|? ? H2' Hb]; subst. rewrite Forall_forall in Ha, Hb.
  assert (a = b) as ->.
  { assert (Hab : a ∈ b :: l2) by (rewrite <- Hp; left). assert (Hba : b ∈ a :: l1) by (rewrite Hp; left).
    apply elem_of_cons in Hab as [|Hab]; [done|]. apply elem_of_cons in Hba as [|Hba]; [done|].
    destruct (before_irrefl (key a)). apply (before_trans _ (key b)); [apply Ha|apply Hb]; by apply list_elem_of_fmap_2. }
  f_equal. apply IH; [done..|]. by apply Permutation_cons_inv in Hp.
Qed.

Lemma newest_filter (P : A -> bool) l : newest_first l -> newest_first (List.filter P l).
Proof.
  induction l as [|a l IH]; [done|]. intros Hs. inversion Hs as [|? ? Hs' Ha]; subst. cbn. destruct (P a); [|by apply IH].
  constructor; [by apply IH|]. rewrite Forall_forall in *. intros k (b & -> & Hb)%list_elem_of_fmap. apply Ha, list_elem_of_fmap_2.
  apply list_elem_of_In in Hb. apply filter_In in Hb as [Hb _]. by apply list_elem_of_In.
Qed.

Lemma filter_perm (P : A -> bool) l1 l2 : Permutation l1 l2 -> Permutation (List.filter P l1) (List.filter P l2).
Proof.
  induction 1 as [|x l1 l2 _ IH|x y l|l1 l2 l3 _ IH1 _ IH2]; cbn; [done|by destruct (P x); [constructor|]| |by etransitivity].
  destruct (P x), (P y); [constructor|done..].
Qed.

Lemma NoDup_filter_keys (P : A -> bool) l : NoDup (map key l) -> NoDup (map key (List.filter P l)).
Proof.
  induction l as [|a l IH]; [done|]. cbn. intros [Ha Hl]%NoDup_cons. destruct (P a); [|by apply IH]. cbn. apply NoDup_cons.
  split; [|by apply IH]. intros (b & Hb & Hin)%list_elem_of_fmap. destruct Ha. rewrite Hb. apply list_elem_of_fmap_2.
  apply list_elem_of_In in Hin. apply filter_In in Hin as [Hin _]. by apply list_elem_of_In.
Qed.

(** All the matching rows, sorted; a page is a piece of this list. *)
Definition sorted_rows (keep : A -> bool) (rows : list A) : list A :=
  SortFunc (fun a b => descending (key a) (key b)) (List.filter keep rows).

Lemma select_page_sorted (keep : A -> bool) cursor limit rows :
  NoDup (map key rows) ->
  select_page key keep cursor limit rows =
    take (Z.to_nat limit) (List.filter (fun a => appendPageBoundary cursor (key a)) (sorted_rows keep rows)).
Proof.
  intros Hn. unfold select_page. f_equal. apply newest_unique.
  - by apply sort_newest_first, NoDup_filter_keys.
  - by apply newest_filter, sort_newest_first, NoDup_filter_keys.
  - rewrite SortFunc_perm. unfold sorted_rows.
    rewrite (filter_perm _ _ _ (SortFunc_perm (fun a b => descending (key a) (key b)) (List.filter keep rows))).
    assert (E : forall l, List.filter (fun a => keep a && appendPageBoundary cursor (key a)) l =
                     List.filter (fun a => appendPageBoundary cursor (key a)) (List.filter keep l)).
    { induction l as [|a l IH]; [done|]. cbn. destruct (keep a); cbn; by rewrite IH. }
    by rewrite E.
Qed.

Lemma sorted_rows_newest keep rows : NoDup (map key rows) -> newest_first (sorted_rows keep rows).
Proof. intros Hn. by apply sort_newest_first, NoDup_filter_keys. Qed.

Lemma elem_sorted_rows keep rows a : a ∈ sorted_rows keep rows <-> a ∈ rows /\ keep a = true.
Proof. unfold sorted_rows. rewrite SortFunc_perm, !list_elem_of_In. apply filter_In. Qed.
End keyed.

(** ** A client of a listing *)

Section client.
Context {E : Type} `{EN : Engine E} {A : Type} (key : A -> PageCursor).
Implicit Types (w : World E) (db : Database).

(** It asks for pages after the last row seen until one is empty; [None] when
    the number of pages it is willing to ask for is not enough. *)
Fixpoint list_all (pages : nat) (fetch : option PageCursor -> M (E:=E) (list A)) (cursor : option PageCursor)
    : M (E:=E) (option (list A)) :=
  match pages with
  | O => mret None
  | S pages' =>
      page ← fetch cursor;
      match last page with
      | None => mret (Some [])
      | Some a => rest ← list_all pages' fetch (Some (key a)); mret ((fun l => page ++ l) <$> rest)
      end
  end.

Context (fetch : option PageCursor -> M (E:=E) (list A)).
Context (rows : Database -> list A) (keep : Database -> A -> bool) (limit : Z) (Hlimit : 0 < limit).

(** *** While other clients act *)

Section interference.
Context (ok : Database -> Prop) (listed : A -> Prop).
Context (Hkeys : forall db, ok db -> NoDup (map key (rows db))).
Context (Hfetch : forall cursor w page w', fetch cursor w = (inr page, w') -> w_tx w = false -> ok (w_db w) ->
  w_tx w' = false /\ ok (w_db w') /\ Forall listed page /\
  map key page = map key (select_page key (keep (w_db w')) cursor limit (rows (w_db w')))).

(** A row with this key matches at all times. *)
Definition stays (k : PageCursor) : Prop := forall db, ok db -> exists a, a ∈ rows db /\ key a = k /\ keep db a = true.

Lemma last_app_split l (a : A) : last l = Some a -> exists l', l = l' ++ [a].
Proof. intros Hl. apply last_Some in Hl as [l' ->]. by exists l'. Qed.

Lemma page_bounds page cursor db :
  ok db -> map key page = map key (select_page key (keep db) cursor limit (rows db)) ->
  StronglySorted before (map key page) /\ Forall (fun k => appendPageBoundary cursor k = true) (map key page) /\
  forall k, stays k -> appendPageBoundary cursor k = true -> k ∈ map key page \/ exists a, last page = Some a /\ before (key a) k.
Proof.
  intros Hok Hp. pose proof (Hkeys db Hok) as Hn. rewrite (select_page_sorted key _ _ _ _ Hn) in Hp.
  set (S := List.filter (fun a => appendPageBoundary cursor (key a)) (sorted_rows key (keep db) (rows db))) in *.
  assert (HS : newest_first key S) by (by apply newest_filter, sorted_rows_newest).
  rewrite <- (take_drop (Z.to_nat limit) S) in HS. destruct (newest_app key _ _ HS) as (Ht & _ & Htd).
  rewrite Hp. split; [done|]. split.
  - rewrite Forall_forall. intros k (a & -> & Ha)%list_elem_of_fmap. apply elem_of_take in Ha as (i & Ha & _).
    apply list_elem_of_lookup_2, list_elem_of_In, filter_In in Ha as [_ Ha]. done.
  - intros k Hk Hb. destruct (Hk db Hok) as (a & Ha & <- & Hm).
    assert (HaS : a ∈ S).
    { apply list_elem_of_In, filter_In. split; [|done]. apply list_elem_of_In, elem_sorted_rows. done. }
    rewrite <- (take_drop (Z.to_nat limit) S) in HaS. apply elem_of_app in HaS as [HaS|HaS];
      [left; by apply list_elem_of_fmap_2|right].
    destruct (take (Z.to_nat limit) S) as [|x t] eqn:Et.
    { exfalso. destruct S as [|s S']; [by rewrite drop_nil in HaS; apply elem_of_nil in HaS|].
      destruct (Z.to_nat limit) eqn:El; [lia|done]. }
    destruct (last page) as [b|] eqn:El.
    + exists b. split; [done|]. assert (Hlast : last (map key page) = Some (key b)) by (by rewrite fmap_last, El).
      rewrite Hp in Hlast. rewrite fmap_last in Hlast. destruct (last (x :: t)) as [c|] eqn:Ec; [|done].
      injection Hlast as Hc. rewrite <- Hc. apply Htd; [|done]. apply last_Some in Ec as [l' ->]. apply elem_of_app. right. left.
    + apply last_None in El as ->. done.
Qed.

Lemma list_all_complete pages : forall cursor w l w',
  list_all pages fetch cursor w = (inr (Some l), w') -> w_tx w = false -> ok (w_db w) ->
  Forall listed l /\ StronglySorted before (map key l) /\ Forall (fun k => appendPageBoundary cursor k = true) (map key l) /\
  forall k, stays k -> appendPageBoundary cursor k = true -> k ∈ map key l.
Proof.
  induction pages as [|pages IH]; intros cursor w l w' Hl Hw Hok; [discriminate Hl|]. cbn [list_all] in Hl.
  apply bind_inr in Hl as (page & w1 & Hf & Hl). destruct (Hfetch _ _ _ _ Hf Hw Hok) as (Hw1 & Hok1 & Hlp & Hp).
  destruct (page_bounds page cursor _ Hok1 Hp) as (Hs & Hb & Hin). destruct (last page) as [a|] eqn:Ela.
  - apply bind_inr in Hl as (rest & w2 & Hr & [He _]%mret_inr). destruct rest as [rest|]; [|discriminate He]. injection He as ->.
    destruct (IH _ _ _ _ Hr Hw1 Hok1) as (Hlr & Hrs & Hrb & Hrin). rewrite map_app.
    assert (Hpa : forall k, k ∈ map key page -> k = key a \/ before k (key a)).
    { apply last_Some in Ela as [l' ->]. intros k Hk. rewrite map_app, elem_of_app in Hk. destruct Hk as [Hk|[->|Hk]%elem_of_cons].
      - right. apply list_elem_of_fmap in Hk as (b & -> & Hk). destruct (newest_app key l' [a] Hs) as (_ & _ & Hla).
        apply Hla; [done|left].
      - by left.
      - by apply elem_of_nil in Hk. }
    assert (Hra : forall k, k ∈ map key rest -> before (key a) k).
    { intros k Hk. rewrite Forall_forall in Hrb. specialize (Hrb k Hk). rewrite boundary_descending in Hrb. unfold before. lia. }
    assert (Hpr : forall k1 k2, k1 ∈ map key page -> k2 ∈ map key rest -> before k1 k2).
    { intros k1 k2 H1 H2. destruct (Hpa k1 H1) as [->|H1']; [by apply Hra|]. by apply (before_trans _ (key a)); [|apply Hra]. }
    assert (Ha : key a ∈ map key page) by (apply last_Some in Ela as [l' ->]; rewrite map_app; apply elem_of_app; right; left).
    split; [by apply Forall_app|]. split; [|split].
    + clear -Hs Hrs Hpr. induction Hs as [|k ks Hks IH Hk]; [done|]. cbn. constructor; [apply IH; intros; apply Hpr; [by right|done]|].
      apply Forall_app. split; [done|]. rewrite Forall_forall. intros k2 H2. apply Hpr; [left|done].
    + apply Forall_app. split; [done|]. rewrite Forall_forall. intros k Hk. destruct cursor as [c|]; [|done].
      rewrite Forall_forall in Hb. specialize (Hb _ Ha). rewrite boundary_descending in *. specialize (Hra k Hk).
      assert (before c k) by (apply (before_trans _ (key a)); [unfold before; lia|done]). unfold before in *. lia.
    + intros k Hk Hc. rewrite elem_of_app. destruct (Hin k Hk Hc) as [|(b & Hb' & Hbk)]; [by left|right].
      injection Hb' as <-. apply Hrin; [done|]. rewrite boundary_descending. unfold before in Hbk. lia.
  - apply mret_inr in Hl as [[= ->] ->]. apply last_None in Ela as ->. cbn. split; [constructor|]. split; [constructor|]. split; [done|].
    intros k Hk Hc. by destruct (Hin k Hk Hc) as [|(b & ? & _)].
Qed.
End interference.

(** *** Undisturbed *)

Section undisturbed.
Context (db : Database) (Hn : NoDup (map key (rows db))) (valid : PageCursor -> Prop).
Context (Hvalid : forall a, a ∈ rows db -> valid (key a)).
Context (Hfetch : forall cursor w, w_db w = db -> w_tx w = false -> (forall c, cursor = Some c -> valid c) ->
  exists w', fetch cursor w = (inr (select_page key (keep db) cursor limit (rows db)), w') /\ w_db w' = db /\ w_tx w' = false).

Lemma filter_after p q (a : A) :
  newest_first key (p ++ [a] ++ q) -> List.filter (fun b => appendPageBoundary (Some (key a)) (key b)) (p ++ [a] ++ q) = q.
Proof.
  intros Hs. destruct (newest_app key p ([a] ++ q) Hs) as (_ & Hs' & Hp). destruct (newest_app key [a] q Hs') as (_ & _ & Ha).
  rewrite !List.filter_app. cbn [List.filter]. rewrite boundary_descending, (cmp_refl (P := fun _ => True) descending (key a)) by (done || apply descending_laws).
  cbn. assert (Hnil : forall l, (forall b, b ∈ l -> before (key b) (key a)) ->
    List.filter (fun b => appendPageBoundary (Some (key a)) (key b)) l = []).
  { induction l as [|b l IH]; intros Hl; [done|]. cbn [List.filter]. rewrite boundary_descending.
    destruct (Z.ltb_spec (descending (key a) (key b)) 0) as [Hab|_]; [|by apply IH; intros; apply Hl; right].
    destruct (before_irrefl (key a)). apply (before_trans _ (key b)); [done|apply Hl; left]. }
  assert (Hall : forall l, (forall b, b ∈ l -> before (key a) (key b)) ->
    List.filter (fun b => appendPageBoundary (Some (key a)) (key b)) l = l).
  { induction l as [|b l IH]; intros Hl; [done|]. cbn [List.filter]. rewrite boundary_descending.
    assert (Hb : before (key a) (key b)) by (apply Hl; left). unfold before in Hb. apply Z.ltb_lt in Hb. rewrite Hb. f_equal.
    apply IH. intros; apply Hl; by right. }
  rewrite Hnil, Hall; [done| |].
  - intros b Hb. apply Ha; [left|done].
  - intros b Hb. apply Hp; [done|]. left.
Qed.

Lemma list_all_sorted pages : forall p q cursor w,
  sorted_rows key (keep db) (rows db) = p ++ q -> cursor = key <$> last p -> (List.length q < pages)%nat -> w_db w = db -> w_tx w = false ->
  exists w', list_all pages fetch cursor w = (inr (Some q), w') /\ w_db w' = db.
Proof.
  induction pages as [|pages IH]; intros p q cursor w HS Hc Hq Hdb Hw; [lia|]. cbn [list_all]. unfold mbind at 1, M_bind at 1.
  pose proof (sorted_rows_newest key (keep db) (rows db) Hn) as Hnew.
  destruct (Hfetch cursor w Hdb Hw) as (w1 & -> & Hdb1 & Hw1).
  { intros c ->. destruct (last p) as [a|] eqn:Ep; [|done]. injection Hc as ->. apply Hvalid.
    apply (proj1 (elem_sorted_rows key (keep db) (rows db) a)). rewrite HS. apply last_Some in Ep as [l' ->].
    apply elem_of_app. left. apply elem_of_app. right. left. }
  rewrite (select_page_sorted key _ _ _ _ Hn).
  assert (Hrest : List.filter (fun a => appendPageBoundary cursor (key a)) (sorted_rows key (keep db) (rows db)) = q).
  { rewrite HS in *. destruct (last p) as [a|] eqn:Ep; cbn in Hc; subst cursor.
    - apply last_Some in Ep as [l' ->]. rewrite <- app_assoc in *. by apply filter_after.
    - apply last_None in Ep as ->. cbn [app]. clear. induction q as [|a q IH]; [done|]. change (a :: List.filter (fun a => appendPageBoundary None (key a)) q = a :: q). by rewrite IH. }
  rewrite Hrest. destruct (last (take (Z.to_nat limit) q)) as [a|] eqn:El.
  - apply last_Some in El as [l' Et]. assert (Hlen : (List.length l' < List.length q)%nat).
    { assert (List.length (take (Z.to_nat limit) q) <= List.length q)%nat by (rewrite length_take; lia).
      rewrite Et, length_app in H. cbn in H. lia. }
    destruct (IH (p ++ take (Z.to_nat limit) q) (drop (Z.to_nat limit) q) (Some (key a)) w1) as (w2 & Hl & Hdb2); try done.
    + by rewrite <- app_assoc, take_drop.
    + by rewrite Et, app_assoc, last_snoc.
    + rewrite length_drop. assert (0 < Z.to_nat limit)%nat by lia. lia.
    + exists w2. unfold mbind, M_bind. rewrite Hl. unfold mret, M_ret. cbn [fmap option_fmap option_map]. by rewrite take_drop.
  - apply last_None in El. exists w1. split; [|done]. unfold mret, M_ret. destruct q as [|b q]; [done|].
    destruct (Z.to_nat limit) eqn:Ez; [lia|done].
Qed.

Lemma list_all_equiv pages w :
  w_db w = db -> w_tx w = false -> (List.length (rows db) < pages)%nat ->
  exists w', list_all pages fetch None w = (inr (Some (sorted_rows key (keep db) (rows db))), w') /\ w_db w' = db.
Proof.
  intros Hdb Hw Hp. apply (list_all_sorted pages [] _ None); [done..| |done|done]. unfold sorted_rows. rewrite SortFunc_perm.
  assert (List.length (List.filter (keep db) (rows db)) <= List.length (rows db))%nat; [|lia]. clear.
  induction (rows db) as [|a l IH]; cbn; [lia|]. destruct (keep db a); cbn; lia.
Qed.
End undisturbed.
End client.

(** ** The listing of tasks *)

Section tasks.
Context {E : Type} `{EN : Engine E} `{UP : UuidPackage}.
Implicit Types (w : World E) (db : Database) (filter : TaskListFilter).

Definition task_page filter (cursor : option PageCursor) : M (E:=E) (list Task) :=
  Task_List (mkTaskListFilter (tf_IdentityID filter) (tf_SessionID filter) (tf_Namespace filter) (tf_Type filter)
    (tf_State filter) cursor (tf_Limit filter)).

Lemma task_rows_keys db : map_Forall (fun id t => t_ID t = id) (tasks db) -> NoDup (map task_key (task_rows db)).
Proof.
  intros Hid. unfold task_rows. rewrite map_map. apply NoDup_fmap_2_strong; [|apply NoDup_map_to_list].
  intros [i t] [j u] Ht%elem_of_map_to_list Hu%elem_of_map_to_list [= _ Hij]. cbn [snd] in *.
  rewrite (Hid i t Ht), (Hid j u Hu) in Hij. subst j. congruence.
Qed.

Lemma elem_task_rows db t : map_Forall (fun id t => t_ID t = id) (tasks db) -> t ∈ task_rows db <-> tasks db !! t_ID t = Some t.
Proof.
  intros Hid. unfold task_rows. rewrite list_elem_of_fmap. split.
  - intros ([i u] & -> & Hu%elem_of_map_to_list). cbn [snd]. by rewrite (Hid i u Hu).
  - intros Ht. exists (t_ID t, t). split; [done|]. by apply elem_of_map_to_list.
Qed.

Lemma task_page_inr filter cursor w page w' :
  task_page filter cursor w = (inr page, w') -> w_tx w = false ->
  0 < tf_Limit filter /\ w_tx w' = false /\ (others_step (E:=E) (w_db w) (w_db w')) /\
  page = select_page task_key (task_matches filter (w_db w')) cursor (tf_Limit filter) (task_rows (w_db w')).
Proof.
  unfold task_page, Task_List. cbn [tf_Limit tf_Cursor]. intros ([limit c] & w1 & [Hn ->]%lift_inr & Hr)%bind_inr Hw.
  apply bind_inr in Hr as (u & w2 & [_ ->]%lift_inr & Hs).
  destruct (statement_read (databaseError "list tasks") _ _ _ _ Hs Hw) as (Hw' & Hst & Hp). specialize (Hp page eq_refl).
  unfold normalizePage in Hn. destruct (Z.leb_spec (tf_Limit filter) 0); [done|].
  destruct (MaximumManagementPageFetch <? tf_Limit filter); [done|]. cbn [orb] in Hn. unfold normalizeCursor in Hn.
  assert (c = cursor /\ limit = tf_Limit filter) as [-> ->].
  { destruct cursor as [[created id]|]; cbn [pc_CreatedAt pc_ID] in Hn; [|by injection Hn].
    destruct (IsZero created || _); [done|]. by injection Hn. }
  done.
Qed.

(** C25 (safety). Whatever other clients do between the pages of a listing of
    tasks, a client that follows the cursors until a page is empty gets the tasks
    newest first and none of them twice; every task it gets matched the filter
    when it was read; and a task that exists and matches all the time is
    listed exactly once. *)
Theorem task_pages_complete filter (pages : nat) w l w' (ok : Database -> Prop)
    (Hothers : forall db (e : E), ok db -> ok (engine_Others db e).1)
    (Hids : forall db, ok db -> map_Forall (fun id t => t_ID t = id) (tasks db))
    (Hw : w_tx w = false) (Hok : ok (w_db w))
    (Hrun : list_all task_key pages (task_page filter) None w = (inr (Some l), w')) :
  StronglySorted before (map task_key l) /\ NoDup l /\
  (forall t, t ∈ l -> exists db, ok db /\ tasks db !! t_ID t = Some t /\ task_matches filter db t = true) /\
  (forall id created,
     (forall db, ok db -> exists t, tasks db !! id = Some t /\ t_CreatedAt t = created /\ task_matches filter db t = true) ->
     exists t, t ∈ l /\ t_ID t = id /\ forall u, u ∈ l -> t_ID u = id -> u = t).
Proof.
  destruct (decide (0 < tf_Limit filter)) as [Hlimit|Hlimit].
  2: { destruct pages as [|pages]; [done|]. cbn [list_all] in Hrun. apply bind_inr in Hrun as (page & w1 & Hp & _).
       by destruct (task_page_inr _ _ _ _ _ Hp Hw). }
  set (listed := fun t => exists db, ok db /\ tasks db !! t_ID t = Some t /\ task_matches filter db t = true).
  destruct (list_all_complete task_key (task_page filter) task_rows (task_matches filter) (tf_Limit filter) Hlimit ok listed)
    with (pages := pages) (cursor := @None PageCursor) (w := w) (l := l) (w' := w') as (Hl & Hs & _ & Hin); try done.
  { intros db Hdb. by apply task_rows_keys, Hids. }
  { intros cursor w1 page w2 Hp Hw1 Hok1. destruct (task_page_inr _ _ _ _ _ Hp Hw1) as (_ & Hw2 & [e He] & ->).
    assert (Hok2 : ok (w_db w2)) by (rewrite <- He; by apply Hothers). split; [done|]. split; [done|]. split; [|done].
    rewrite Forall_forall. intros t Ht. exists (w_db w2). split; [done|].
    apply elem_of_take in Ht as (i & Ht%list_elem_of_lookup_2 & _). rewrite SortFunc_perm in Ht.
    apply list_elem_of_In, filter_In in Ht as [Ht [Hm _]%andb_true_iff]. split; [|done].
    apply elem_task_rows; [by apply Hids|by apply list_elem_of_In]. }
  rewrite Forall_forall in Hl.
  assert (Hnk : NoDup (map task_key l)).
  { clear -Hs. induction Hs as [|k ks _ IH Hk]; [constructor|]. apply NoDup_cons. split; [|done]. rewrite Forall_forall in Hk.
    intros Hin. by destruct (before_irrefl k); apply Hk. }
  split; [done|]. split; [by apply NoDup_fmap_1 in Hnk|]. split; [done|]. intros id created Hstay.
  destruct (list_elem_of_fmap_1 task_key l (mkPageCursor created id)) as (t & Hkey & Ht).
  { apply Hin; [|done]. intros db Hdb. destruct (Hstay db Hdb) as (t & Ht & Hc & Hm). exists t.
    assert (Hid : t_ID t = id) by exact (Hids db Hdb id t Ht). split; [apply elem_task_rows; [by apply Hids|by rewrite Hid]|].
    split; [|done]. unfold task_key. by rewrite Hc, Hid. }
  exists t. split; [done|]. injection Hkey as Hc Hid. split; [done|]. intros u Hu Hidu.
  assert (Hku : task_key u = task_key t).
  { unfold task_key. rewrite Hidu, <- Hid, <- Hc. f_equal. destruct (Hl u Hu) as (db & Hdb & Hlu & _).
    destruct (Hstay db Hdb) as (t' & Ht' & Hc' & _). rewrite Hidu in Hlu. congruence. }
  clear -Hnk Hu Ht Hku. induction l as [|x l IH]; [by apply elem_of_nil in Ht|]. cbn [map] in Hnk. apply NoDup_cons in Hnk as [Hx Hl].
  apply elem_of_cons in Hu as [->|Hu], Ht as [->|Ht]; [done| | |by apply IH].
  - destruct Hx. rewrite Hku. by apply list_elem_of_fmap_2.
  - destruct Hx. rewrite <- Hku. by apply list_elem_of_fmap_2.
Qed.

(** Rows the repository creates: under their identifier, a UUID, with a time. *)
Definition proper_rows db : Prop :=
  map_Forall (fun id t => t_ID t = id /\ t_CreatedAt t <> 0 /\ is_Some (uuid_Parse id)) (tasks db).

(** When nobody changes the tables and no statement fails,
    following the cursors is the same as sorting all matching tasks: one page
    more than there are tasks is enough, whatever the size of the pages. *)
Theorem task_pages_sorted filter w
    (Hothers : forall e : E, engine_Others (w_db w) e = (w_db w, e)) (Hsound : forall e : E, (engine_Statement e).1 = None)
    (Hrows : proper_rows (w_db w)) (Hw : w_tx w = false)
    (Hfilter : checkTaskFilter filter = Ok tt) (Hlimit : 0 < tf_Limit filter <= 101) :
  exists w', list_all task_key (S (size (tasks (w_db w)))) (task_page filter) None w =
    (inr (Some (SortFunc (fun t u => descending (task_key t) (task_key u))
                  (List.filter (task_matches filter (w_db w)) (task_rows (w_db w))))), w').
Proof.
  destruct (list_all_equiv task_key (task_page filter) task_rows (task_matches filter) (tf_Limit filter) ltac:(lia) (w_db w))
    with (valid := fun k => pc_CreatedAt k <> 0 /\ is_Some (uuid_Parse (pc_ID k))) (pages := S (size (tasks (w_db w)))) (w := w)
    as (w' & Hl & _); try done.
  - apply task_rows_keys. intros id t Ht. by destruct (Hrows id t Ht).
  - intros t Ht. apply elem_task_rows in Ht; [|intros i u Hu; by destruct (Hrows i u Hu)].
    destruct (Hrows (t_ID t) t Ht) as (_ & ? & ?). done.
  - intros cursor w1 Hdb1 Hw1 Hc. unfold task_page, Task_List. cbn [tf_Limit tf_Cursor].
    assert (Hn : normalizePage (tf_Limit filter) cursor = Ok (tf_Limit filter, cursor)).
    { unfold normalizePage. destruct (Z.leb_spec (tf_Limit filter) 0); [lia|].
      destruct (Z.ltb_spec MaximumManagementPageFetch (tf_Limit filter)); [unfold MaximumManagementPageFetch in *; lia|].
      cbn [orb]. destruct cursor as [[created id]|]; [|done]. destruct (Hc _ eq_refl) as [Hz [u Hu]]. cbn [pc_CreatedAt pc_ID] in *.
      unfold normalizeCursor, valid_uuid, validateUUID, IsZero. cbn [pc_CreatedAt pc_ID]. rewrite Hu.
      by destruct (Z.eqb_spec created 0). }
    rewrite Hn. unfold lift at 1. unfold mbind at 1, M_bind at 1.
    unfold checkTaskFilter in *. cbn [tf_IdentityID tf_SessionID tf_Namespace tf_Type tf_State]. rewrite Hfilter.
    unfold lift at 1, mbind, M_bind, statement, interfere. rewrite Hw1, Hdb1, Hothers. cbn [w_db w_engine].
    destruct (engine_Statement (w_engine w1)) as [failure e] eqn:Ef. specialize (Hsound (w_engine w1)). rewrite Ef in Hsound.
    cbn in Hsound. subst failure. by eexists.
  - unfold task_rows. rewrite length_map, length_map_to_list. lia.
  - by exists w'.
Qed.
End tasks.

(** ** Concrete listings *)

Definition listed_task (n : nat) (created : time) : Task :=
  mkTask (sample_id n) identity_id session_id "pod-exec" Running (string_to_bytes "{}") [] ("key-" +:+ sample_id n) created
    created None.

Definition listed_database : Database :=
  set_tasks sample_database {[sample_id 3 := listed_task 3 100; sample_id 4 := listed_task 4 300; sample_id 5 := listed_task 5 200]}.

Definition running_filter (limit : Z) : TaskListFilter := mkTaskListFilter "" session_id "development" " pod-exec" Running None limit.

(** Another client, which creates a task before every statement. *)
Definition creating_engine : Engine nat := {|
  engine_backend := BackendSQLite;
  engine_jsonb := id;
  engine_Statement := fun e => (None, e);
  engine_Begin := fun e => (None, e);
  engine_Commit := fun e => (None, e);
  engine_Others := fun db e => (set_tasks db (<[sample_id 6 := listed_task 6 250]> (tasks db)), e);
  engine_Wait := fun _ e => (false, e);
  engine_Err := fun e => (false, e);
  engine_NewUUID := fun e => (sample_id e, S e);
  engine_Now := fun e => (1000 * Second + Z.of_nat e, S e)
|}.

(** Tables that contain two of the tasks, under their identifiers. *)
Definition two_tasks (db : Database) : Prop :=
  sessions db !! session_id = Some sample_session /\
  map_Forall (fun id t => t_ID t = id) (tasks db) /\
  tasks db !! sample_id 3 = Some (listed_task 3 100) /\ tasks db !! sample_id 5 = Some (listed_task 5 200).

Lemma creating_others db e : two_tasks db -> two_tasks (engine_Others (Engine := creating_engine) db e).1.
Proof.
  intros (Hs & Hid & H3 & H5). cbn [engine_Others creating_engine fst]. split; [done|]. cbn [tasks set_tasks]. split.
  - by apply map_Forall_insert_2.
  - split; rewrite lookup_insert_ne; [done|by vm_compute|done|by vm_compute].
Qed.

Lemma listed_two_tasks : two_tasks listed_database.
Proof.
  split; [by vm_compute|]. cbn [tasks set_tasks listed_database]. split.
  - do 2 (apply map_Forall_insert_2; [done|]). by apply map_Forall_singleton.
  - split; by vm_compute.
Qed.

Definition listed_world : World nat := mkWorld listed_database 10%nat false.

Lemma task_pages_complete_witness :
  exists w', list_all task_key 4 (task_page (EN := creating_engine) (running_filter 2)) None listed_world =
    (inr (Some [listed_task 4 300; listed_task 6 250; listed_task 5 200; listed_task 3 100]), w') /\
  exists t, t ∈ [listed_task 4 300; listed_task 6 250; listed_task 5 200; listed_task 3 100] /\ t_ID t = sample_id 5.
Proof.
  destruct (list_all task_key 4 (task_page (EN := creating_engine) (running_filter 2)) None listed_world) as [r w'] eqn:Hrun.
  assert (Hr : r = inr (Some [listed_task 4 300; listed_task 6 250; listed_task 5 200; listed_task 3 100])).
  { transitivity (list_all task_key 4 (task_page (EN := creating_engine) (running_filter 2)) None listed_world).1;
      [by rewrite Hrun|by vm_compute]. }
  exists w'. split; [by rewrite Hr|]. rewrite Hr in Hrun.
  destruct (task_pages_complete (EN := creating_engine) (running_filter 2) 4 listed_world _ w' two_tasks
    creating_others (fun db H => proj1 (proj2 H)) eq_refl listed_two_tasks Hrun) as (_ & _ & _ & Honce).
  destruct (Honce (sample_id 5) 200) as (t & Ht & Hid & _).
  - intros db (Hs & Hid & _ & H5). exists (listed_task 5 200). split; [done|]. split; [done|]. unfold task_matches.
    cbn [t_SessionID listed_task]. rewrite Hs. by vm_compute.
  - exists t. exact (conj Ht Hid).
Defined.

Lemma task_pages_sorted_witness :
  exists w', list_all task_key 4 (task_page (EN := quiet_engine) (running_filter 2)) None listed_world =
    (inr (Some [listed_task 4 300; listed_task 5 200; listed_task 3 100]), w').
Proof.
  destruct (task_pages_sorted (EN := quiet_engine) (running_filter 2) listed_world (fun _ => eq_refl) (fun _ => eq_refl))
    as [w' Hw']; [|done|by vm_compute|by split|].
  - unfold proper_rows. cbn [tasks set_tasks listed_database listed_world w_db].
    do 2 (apply map_Forall_insert_2; [split; [done|]; split; [done|]; vm_compute; by eexists|]). apply map_Forall_singleton.
    split; [done|]. split; [done|]. vm_compute; by eexists.
  - exists w'. assert (Hn : S (size (tasks (w_db listed_world))) = 4%nat) by (by vm_compute). rewrite Hn in Hw'. rewrite Hw'.
    by vm_compute.
Defined.
