(* ===== verification/IdentityStore.v ===== *)
(** * Identities and their credentials ([storage/identities.go], [identity_list.go],
    [identity_codec.go], [credentials.go], [bootstrap_tokens.go]) *)

From S2P Require Import Prelude GoLib GoText GoSort External RemoteTask StorageEngine SessionStore TaskStore StoragePages.

(** [LOWER] and [LIKE] of the database. *)
Class SqlText := { sql_LOWER : string -> string; sql_LIKE : string -> string -> bool }.

(** ** Statements on a table that is a map *)

Section tables.
Context {K A : Type} `{Countable K}.
Implicit Types (p : A -> bool) (f : A -> A) (m : gmap K A).

(** [UPDATE ... SET f WHERE p] and [DELETE ... WHERE p]: the rows matched. *)
Definition rows_where p m : Z := len (List.filter p (map snd (map_to_list m))).
Definition update_where p f m : gmap K A := (fun a => if p a then f a else a) <$> m.
Definition delete_where p m : gmap K A := filter (fun kv : K * A => p kv.2 = false) m.
End tables.

Section identities.
Context {E : Type} `{Engine E} `{UuidPackage} `{UnicodePackage}.

(** A statement on the directory. *)
Definition on_directory {A} (f : Directory -> driver_error + A * Directory) (db : Database) : driver_error + A * Database :=
  match f (directory db) with inl d => inl d | inr (a, dir) => inr (a, set_directory db dir) end.

Definition read_directory {A} (message : string) (f : Directory -> A) : M (E:=E) A :=
  statement (databaseError message) (fun db => inr (f (directory db), db)).

Definition write_directory {A} (f : Directory -> driver_error + A * Directory) : M (E:=E) A :=
  statement mapWriteError (on_directory f).

(** [expectOne] and its copies. *)
Definition expect_one (count : Z) : M (E:=E) unit :=
  if count =? 1 then mret tt else fail (StorageError ErrNotFound).

Definition found {A} (row : option A) : M (E:=E) A :=
  match row with Some a => mret a | None => fail (StorageError ErrNotFound) end.

Definition checked (cond : bool) (message : string) : M (E:=E) unit := lift (require cond (NewError message)).

(** An identity that is referred to, or NULL. *)
Definition references_optional (db : Database) (id : string) : bool := bool_decide (id = "") || references_identity db id.

(** ** Identities *)

Definition validIdentityStatus (status : string) : bool :=
  bool_decide (status = "active") || bool_decide (status = "suspended") || bool_decide (status = "disabled").

Definition identityTypeHuman : string := "human".

Definition normalizeIdentity (i : StoredIdentity) : M (E:=E) StoredIdentity :=
  _ ← checked (valid_uuid (id_ID i) "identity ID") "identity ID must be a UUID";
  let type := TrimSpace (id_Type i) in
  let name := TrimSpace (id_DisplayName i) in
  let email := strings_ToLower (TrimSpace (id_PrimaryEmail i)) in
  let status := TrimSpace (id_Status i) in
  _ ← checked (bool_decide (type = identityTypeHuman) || bool_decide (type = "machine")) "identity type is invalid";
  _ ← checked (negb (bool_decide (name = "") || (256 <? slen name) || (320 <? slen email))) "identity profile is invalid";
  _ ← checked (validIdentityStatus status) "identity status is invalid";
  now ← time_Now;
  let createdAt := if IsZero (id_CreatedAt i) then now else id_CreatedAt i in
  let updatedAt := if IsZero (id_UpdatedAt i) then createdAt else id_UpdatedAt i in
  _ ← checked (negb (Before updatedAt createdAt)) "identity timestamps are invalid";
  mret (mkStoredIdentity (id_ID i) type name email status createdAt updatedAt).

Definition insert_identity (i : StoredIdentity) (db : Database) : driver_error + unit * Database :=
  match identities db !! id_ID i with
  | Some _ => inl constraint_error
  | None => inr (tt, set_identities db (<[id_ID i := i]> (identities db)))
  end.

Definition Identity_Create (identity : StoredIdentity) : M (E:=E) StoredIdentity :=
  identity ← normalizeIdentity identity; _ ← statement mapWriteError (insert_identity identity); mret identity.

Definition update_identity (i : StoredIdentity) (db : Database) : driver_error + Z * Database :=
  match identities db !! id_ID i with
  | Some row => inr (1, set_identities db (<[id_ID i := mkStoredIdentity (id_ID row) (id_Type i) (id_DisplayName i)
                  (id_PrimaryEmail i) (id_Status i) (id_CreatedAt row) (id_UpdatedAt i)]> (identities db)))
  | None => inr (0, db)
  end.

Definition Identity_Update (identity : StoredIdentity) : M (E:=E) unit :=
  identity ← normalizeIdentity identity;
  count ← statement mapWriteError (update_identity identity);
  expect_one count.

Definition Identity_GetByID (id : string) : M (E:=E) StoredIdentity :=
  _ ← lift (validateUUID id "identity ID");
  row ← statement (databaseError "read identity") (fun db => inr (identities db !! id, db));
  found row.

Record IdentityListFilter := mkIdentityListFilter {
  if_Type : string;
  if_Status : string;
  if_Search : string;
  if_Cursor : option PageCursor;
  if_Limit : Z
}.

Definition identity_key (i : StoredIdentity) : PageCursor := mkPageCursor (id_CreatedAt i) (id_ID i).

Definition identity_matches `{SqlText} (filter : IdentityListFilter) (i : StoredIdentity) : bool :=
  let search := TrimSpace (if_Search filter) in
  let pattern := "%" +:+ strings_ToLower search +:+ "%" in
  matches (TrimSpace (if_Type filter)) (id_Type i) && matches (TrimSpace (if_Status filter)) (id_Status i) &&
  (bool_decide (search = "") || sql_LIKE (sql_LOWER (id_DisplayName i)) pattern || sql_LIKE (sql_LOWER (id_PrimaryEmail i)) pattern).

Definition Identity_List `{SqlText} (filter : IdentityListFilter) : M (E:=E) (list StoredIdentity) :=
  '(limit, cursor) ← lift (normalizePage (if_Limit filter) (if_Cursor filter));
  let type := TrimSpace (if_Type filter) in
  let status := TrimSpace (if_Status filter) in
  let search := TrimSpace (if_Search filter) in
  _ ← checked (bool_decide (type = "") || bool_decide (type = identityTypeHuman) || bool_decide (type = "machine"))
        "identity type filter is invalid";
  _ ← checked (bool_decide (status = "") || validIdentityStatus status) "identity status filter is invalid";
  _ ← checked (negb ((256 <? slen search) || has_line_break search)) "identity search filter is invalid";
  statement (databaseError "list identities")
    (fun db => inr (select_page identity_key (identity_matches filter) cursor limit (map snd (map_to_list (identities db))), db)).

(** ** Passwords *)

(** [utils.NormalizeUsername] *)
Definition NormalizeUsername (value : string) : string := strings_ToLower (TrimSpace value).

(** [strings.ContainsAny(username, "\x00\r\n\t ")] *)
Definition has_blank (s : string) : bool :=
  negb (all_bytes (fun b => negb (bool_decide (b ∈ [x00; x0d; x0a; x09; x20]))) s).

Definition normalizePasswordCredential (c : PasswordCredential) : result PasswordCredential :=
  _ ← require (valid_uuid (pw_IdentityID c) "") (NewError "password credential identity ID must be a UUID");
  let username := NormalizeUsername (pw_Username c) in
  let hash := TrimSpace (pw_PasswordHash c) in
  _ ← require (negb (bool_decide (username = "") || (128 <? slen username) || has_blank username || bool_decide (hash = "")))
        (NewError "password credential is invalid");
  _ ← require (negb (IsZero (pw_CreatedAt c) || IsZero (pw_UpdatedAt c) || Before (pw_UpdatedAt c) (pw_CreatedAt c)))
        (NewError "password credential timestamps are invalid");
  Ok (mkPasswordCredential (pw_IdentityID c) username hash (pw_Enabled c) (pw_CreatedAt c) (pw_UpdatedAt c)).

(** [identity_id] is the primary key and [username] is unique. *)
Definition insert_password (c : PasswordCredential) (db : Database) : driver_error + unit * Database :=
  let table := password_credentials (directory db) in
  if bool_decide (is_Some (table !! pw_IdentityID c)) || negb (references_identity db (pw_IdentityID c)) ||
     existsb (fun row => bool_decide (pw_Username row = pw_Username c)) (map snd (map_to_list table))
  then inl constraint_error
  else inr (tt, set_directory db (set_credentials (<[pw_IdentityID c := c]> table) (directory db))).

Definition CreatePassword (credential : PasswordCredential) : M (E:=E) unit :=
  credential ← lift (normalizePasswordCredential credential); statement mapWriteError (insert_password credential).

Definition GetPasswordByIdentity (identityID : string) : M (E:=E) PasswordCredential :=
  _ ← checked (valid_uuid identityID "") "credential identity ID must be a UUID";
  row ← read_directory "read password credential" (fun d => password_credentials d !! identityID);
  found row.

Definition GetPasswordByUsername (username : string) : M (E:=E) PasswordCredential :=
  let username := NormalizeUsername username in
  _ ← checked (negb (bool_decide (username = ""))) "credential username is required";
  row ← read_directory "read password credential" (fun d =>
          head (List.filter (fun row => bool_decide (pw_Username row = username)) (map snd (map_to_list (password_credentials d)))));
  found row.

Definition updatePassword (identityID : string) (at_ : time) (set : PasswordCredential -> PasswordCredential) : M (E:=E) unit :=
  _ ← checked (valid_uuid identityID "" && negb (IsZero at_)) "password credential update is invalid";
  count ← write_directory (fun d =>
    match password_credentials d !! identityID with
    | Some row => inr (1, set_credentials (<[identityID := set row]> (password_credentials d)) d)
    | None => inr (0, d)
    end);
  expect_one count.

Definition UpdatePassword (identityID passwordHash : string) (at_ : time) : M (E:=E) unit :=
  updatePassword identityID at_ (fun row =>
    mkPasswordCredential (pw_IdentityID row) (pw_Username row) (TrimSpace passwordHash) (pw_Enabled row) (pw_CreatedAt row) at_).

Definition SetPasswordEnabled (identityID : string) (enabled : bool) (at_ : time) : M (E:=E) unit :=
  updatePassword identityID at_ (fun row =>
    mkPasswordCredential (pw_IdentityID row) (pw_Username row) (pw_PasswordHash row) enabled (pw_CreatedAt row) at_).

(** ** The bootstrap token: a table of at most one row *)

Definition insert_bootstrap (token : BootstrapToken) (d : Directory) : driver_error + unit * Directory :=
  match bootstrap_token d with
  | Some _ => inl constraint_error
  | None => inr (tt, set_bootstrap_token (Some (mkBootstrapToken (bt_TokenHash token) (bt_CreatedAt token) (bt_ExpiresAt token) None)) d)
  end.

Definition Bootstrap_Create (token : BootstrapToken) : M (E:=E) unit :=
  _ ← checked (negb (negb (len (bt_TokenHash token) =? 32) || IsZero (bt_CreatedAt token) ||
                     negb (After (bt_ExpiresAt token) (bt_CreatedAt token)))) "bootstrap token is invalid";
  write_directory (insert_bootstrap token).

Definition Bootstrap_Get : M (E:=E) BootstrapToken :=
  row ← read_directory "read bootstrap token" bootstrap_token; found row.

Definition consume_bootstrap (hash : bytes) (now : time) (d : Directory) : driver_error + Z * Directory :=
  match bootstrap_token d with
  | Some t =>
      if bool_decide (bt_TokenHash t = hash) && negb (bool_decide (is_Some (bt_ConsumedAt t))) && (now <? bt_ExpiresAt t)
      then inr (1, set_bootstrap_token (Some (mkBootstrapToken (bt_TokenHash t) (bt_CreatedAt t) (bt_ExpiresAt t) (Some now))) d)
      else inr (0, d)
  | None => inr (0, d)
  end.

Definition Bootstrap_Consume (hash : bytes) (now : time) : M (E:=E) unit :=
  _ ← checked ((len hash =? 32) && negb (IsZero now)) "bootstrap token is invalid";
  count ← write_directory (consume_bootstrap hash now);
  expect_one count.
End identities.

(** * Sessions of the management interface ([storage/admin_sessions.go],
    [admin_session_revocation.go], [admin_session_codec.go]) *)


Definition sha256Size : Z := 32.

Section admin.
Context {E : Type} `{Engine E} `{UuidPackage}.

Definition normalizeAdminSession (s : AdminSession) : result AdminSession :=
  let identity := TrimSpace (ad_IdentityID s) in
  let authorization := TrimSpace (ad_AuthorizationID s) in
  let type := TrimSpace (ad_AuthenticationType s) in
  _ ← require ((len (ad_IDHash s) =? sha256Size) && (len (ad_CSRFTokenHash s) =? sha256Size))
        (NewError "management Session and CSRF hashes must be SHA-256 values");
  _ ← require (bool_decide (type = "normal") || bool_decide (type = "bootstrap"))
        (NewError "management session authentication type is invalid");
  _ ← require (valid_uuid identity "" && valid_uuid authorization "")
        (NewError "authenticated management session identity is invalid");
  let authenticatedAt := if IsZero (ad_AuthenticatedAt s) then ad_CreatedAt s else ad_AuthenticatedAt s in
  _ ← require (negb (IsZero (ad_CreatedAt s) || IsZero (ad_LastSeenAt s) || IsZero (ad_IdleExpiresAt s) ||
                     IsZero (ad_AbsoluteExpiresAt s) || Before (ad_LastSeenAt s) (ad_CreatedAt s) ||
                     negb (After (ad_IdleExpiresAt s) (ad_LastSeenAt s)) || After (ad_IdleExpiresAt s) (ad_AbsoluteExpiresAt s)))
        (NewError "management session schema or lifetime is invalid");
  Ok (mkAdminSession (ad_IDHash s) identity authorization type (ad_CSRFTokenHash s) authenticatedAt (ad_CreatedAt s)
        (ad_LastSeenAt s) (ad_IdleExpiresAt s) (ad_AbsoluteExpiresAt s) (ad_RevokedAt s)).

(** The schema has [CHECK (authentication_type = 'normal')]. *)
Definition insert_admin_session (s : AdminSession) (db : Database) : driver_error + unit * Database :=
  let table := admin_sessions (directory db) in
  if bool_decide (is_Some (table !! ad_IDHash s)) || negb (references_optional db (ad_IdentityID s)) ||
     negb (bool_decide (ad_AuthenticationType s = "normal"))
  then inl constraint_error
  else inr (tt, set_directory db (set_admin_sessions (<[ad_IDHash s := s]> table) (directory db))).

Definition Admin_Create (session : AdminSession) : M (E:=E) unit :=
  session ← lift (normalizeAdminSession session); statement mapWriteError (insert_admin_session session).

Definition Admin_GetByHash (idHash : bytes) : M (E:=E) AdminSession :=
  _ ← checked (len idHash =? sha256Size) "management session hash must be a SHA-256 value";
  row ← read_directory "read management session" (fun d => admin_sessions d !! idHash);
  found row.

Definition touched (nextLastSeen nextIdleExpiry : time) (s : AdminSession) : AdminSession :=
  mkAdminSession (ad_IDHash s) (ad_IdentityID s) (ad_AuthorizationID s) (ad_AuthenticationType s) (ad_CSRFTokenHash s)
    (ad_AuthenticatedAt s) (ad_CreatedAt s) nextLastSeen nextIdleExpiry (ad_AbsoluteExpiresAt s) (ad_RevokedAt s).

Definition touchable (observedLastSeen now nextIdleExpiry : time) (s : AdminSession) : bool :=
  (ad_LastSeenAt s =? observedLastSeen) && negb (bool_decide (is_Some (ad_RevokedAt s))) && (now <? ad_IdleExpiresAt s) &&
  (now <? ad_AbsoluteExpiresAt s) && (nextIdleExpiry <=? ad_AbsoluteExpiresAt s).

(** [UPDATE ... WHERE id_hash = ? AND ...] *)
Definition update_admin (idHash : bytes) (p : AdminSession -> bool) (f : AdminSession -> AdminSession) (d : Directory)
    : driver_error + Z * Directory :=
  match admin_sessions d !! idHash with
  | Some row => if p row then inr (1, set_admin_sessions (<[idHash := f row]> (admin_sessions d)) d) else inr (0, d)
  | None => inr (0, d)
  end.

Definition Admin_Touch (idHash : bytes) (observedLastSeen now nextLastSeen nextIdleExpiry : time) : M (E:=E) unit :=
  _ ← checked (negb (negb (len idHash =? sha256Size) || IsZero observedLastSeen || IsZero now || IsZero nextLastSeen ||
                     IsZero nextIdleExpiry || Before nextLastSeen now || negb (After nextIdleExpiry nextLastSeen)))
        "management session touch values are invalid";
  count ← write_directory (update_admin idHash (touchable observedLastSeen now nextIdleExpiry) (touched nextLastSeen nextIdleExpiry));
  if (count : Z) =? 1 then mret tt else fail (StorageError ErrConflict).

(** [revoked_at = COALESCE(revoked_at, ?)] *)
Definition revoked_since (revokedAt : time) (s : AdminSession) : AdminSession :=
  mkAdminSession (ad_IDHash s) (ad_IdentityID s) (ad_AuthorizationID s) (ad_AuthenticationType s) (ad_CSRFTokenHash s)
    (ad_AuthenticatedAt s) (ad_CreatedAt s) (ad_LastSeenAt s) (ad_IdleExpiresAt s) (ad_AbsoluteExpiresAt s)
    (Some (default revokedAt (ad_RevokedAt s))).

Definition Admin_Revoke (idHash : bytes) (revokedAt : time) : M (E:=E) unit :=
  _ ← checked ((len idHash =? sha256Size) && negb (IsZero revokedAt)) "management session hash and revocation time are required";
  count ← write_directory (update_admin idHash (fun _ => true) (revoked_since revokedAt));
  if (count : Z) =? 0 then fail (StorageError ErrNotFound) else mret tt.

Definition revoke_authorization (authorizationID : string) (revokedAt : time) (d : Directory) : driver_error + unit * Directory :=
  inr (tt, set_admin_sessions (update_where (fun s => bool_decide (ad_AuthorizationID s = authorizationID)) (revoked_since revokedAt)
                                 (admin_sessions d)) d).

Definition Admin_RevokeAuthorization (authorizationID : string) (revokedAt : time) : M (E:=E) unit :=
  _ ← checked (negb (bool_decide (TrimSpace authorizationID = "") || IsZero revokedAt))
        "management authorization and revocation time are required";
  write_directory (revoke_authorization authorizationID revokedAt).

(** [ORDER BY absolute_expires_at LIMIT ?] *)
Definition ended_first (s t : AdminSession) : Z := ad_AbsoluteExpiresAt s - ad_AbsoluteExpiresAt t.

Definition admin_ended (before : time) (s : AdminSession) : bool :=
  (ad_IdleExpiresAt s <? before) || (ad_AbsoluteExpiresAt s <? before) ||
  match ad_RevokedAt s with Some t => t <? before | None => false end.

Definition delete_ended (before : time) (limit : Z) (d : Directory) : driver_error + Z * Directory :=
  let ended := take (Z.to_nat limit) (SortFunc ended_first (List.filter (admin_ended before) (map snd (map_to_list (admin_sessions d))))) in
  inr (len ended, set_admin_sessions (foldr (fun s m => delete (ad_IDHash s) m) (admin_sessions d) ended) d).

Definition Admin_DeleteExpired (before : time) (limit : Z) : M (E:=E) Z :=
  limit ← lift (boundedLimit limit);
  _ ← checked (negb (IsZero before)) "management session cleanup time is required";
  statement (databaseError "delete expired management sessions") (on_directory (delete_ended before limit)).
End admin.
