(* ===== verification/OAuthClientStore.v ===== *)
(** * OAuth clients, consents and browser sessions ([storage/oauth_clients.go],
    [oauth_client_codec.go], [oauth_builtin.go], [oauth_client_secrets.go],
    [oauth_consents.go], [oauth_browser_sessions.go])

    A list of strings in a row stands for the JSON array it is stored as. *)

From S2P Require Import Prelude GoLib GoText GoSort External RemoteTask StorageEngine SessionStore TaskStore.
From S2P Require Import StoragePages IdentityStore.

(** [slices.Compact]: runs of equal elements become one. *)
Fixpoint Compact (l : list string) : list string :=
  match l with
  | x :: (y :: _) as rest => if bool_decide (x = y) then Compact rest else x :: Compact rest
  | l => l
  end.

(** [slices.Contains] *)
Definition contains (l : list string) (x : string) : bool := bool_decide (x ∈ l).

(** [lint_constants.go], [internal/auth/oauth_clients.go] *)
Definition grantAuthorizationCode : string := "authorization_code".
Definition grantRefreshToken : string := "refresh_token".
Definition grantClientCredentials : string := "client_credentials".
Definition scopeOpenID : string := "openid".
Definition scopeProfile : string := "profile".
Definition emailField : string := "email".
Definition scopeOfflineAccess : string := "offline_access".
Definition scopeKubeLoopAPI : string := "kubeloop.api".

Definition DesktopClientID : string := "kubeloop-desktop".
Definition DesktopRedirectURI : string := "kubeloop://auth/callback".
Definition TUIClientID : string := "kubeloop-tui".
Definition TUIRedirectURI : string := "http://127.0.0.1/callback".
Definition ManagementOAuthClientID : string := "kubeloop-management".

Section clients.
Context {E : Type} `{Engine E} `{UuidPackage}.

(** ** Clients *)

(** The loop over the grant types and the scopes. *)
Fixpoint checkCapabilities (lists : list (list string)) : result unit :=
  match lists with
  | [] => Ok tt
  | values :: rest =>
      _ ← require (negb (bool_decide (values = []))) (NewError "oAuth client capabilities must not be empty");
      _ ← require (forallb (fun v => negb (bool_decide (TrimSpace v = ""))) values) (NewError "oAuth client capability is invalid");
      checkCapabilities rest
  end.

Definition supportedGrant (grant : string) : bool :=
  bool_decide (grant = grantAuthorizationCode) || bool_decide (grant = grantRefreshToken) ||
  bool_decide (grant = grantClientCredentials).

Definition sorted_set (l : list string) : list string := Compact (SortFunc compareString l).

Definition checkClient (c : OAuthClient) (redirects grants : list string) : result unit :=
  _ ← require (forallb supportedGrant grants) (NewError "oAuth client grant type is not supported");
  _ ← require (negb (oc_Public c && contains grants grantClientCredentials))
        (NewError "public OAuth clients cannot use client credentials");
  _ ← require (negb (contains grants grantAuthorizationCode && bool_decide (redirects = [])))
        (NewError "authorization code OAuth clients require a redirect URI");
  require (negb (contains grants grantClientCredentials &&
                 existsb (contains (oc_Scopes c)) [scopeOpenID; scopeProfile; emailField; scopeOfflineAccess]))
    (NewError "client credentials OAuth clients cannot use identity scopes").

Definition normalizeOAuthClient (c : OAuthClient) (create : bool) : M (E:=E) OAuthClient :=
  let id := TrimSpace (oc_ID c) in
  let name := TrimSpace (oc_Name c) in
  _ ← checked (negb (bool_decide (id = "") || (128 <? slen id) || bool_decide (name = "") || (128 <? slen name)))
        "oAuth client identity is invalid";
  _ ← lift (checkCapabilities [oc_GrantTypes c; oc_Scopes c]);
  let redirects := sorted_set (oc_RedirectURIs c) in
  let grants := sorted_set (oc_GrantTypes c) in
  _ ← lift (checkClient c redirects grants);
  now ← time_Now;
  let createdAt := if create && IsZero (oc_CreatedAt c) then now else oc_CreatedAt c in
  let updatedAt := if IsZero (oc_UpdatedAt c) then now else oc_UpdatedAt c in
  let createdAt := if IsZero createdAt then updatedAt else createdAt in
  mret (mkOAuthClient id name (oc_Public c) redirects grants (sorted_set (oc_Scopes c)) (oc_Trusted c) (oc_Enabled c)
          (oc_Builtin c) (oc_MachineIdentityID c) createdAt updatedAt).

Definition insert_client (c : OAuthClient) (db : Database) : driver_error + unit * Database :=
  let table := oauth_clients (directory db) in
  if bool_decide (is_Some (table !! oc_ID c)) || negb (references_optional db (oc_MachineIdentityID c))
  then inl constraint_error
  else inr (tt, set_directory db (set_oauth_clients (<[oc_ID c := c]> table) (directory db))).

Definition Client_Create (client : OAuthClient) : M (E:=E) unit :=
  client ← normalizeOAuthClient client true; statement mapWriteError (insert_client client).

Definition Client_Get (id : string) : M (E:=E) OAuthClient :=
  let id := TrimSpace id in
  _ ← checked (negb (bool_decide (id = ""))) "oAuth client ID is required";
  row ← read_directory "read OAuth client" (fun d => oauth_clients d !! id);
  found row.

(** [ORDER BY builtin DESC, name, id] *)
Definition client_order (a b : OAuthClient) : Z :=
  lex_cmp (fun a b => (if oc_Builtin b then 1 else 0) - (if oc_Builtin a then 1 else 0))
    (lex_cmp (fun a b => compareString (oc_Name a) (oc_Name b)) (fun a b => compareString (oc_ID a) (oc_ID b))) a b.

Definition Client_List : M (E:=E) (list OAuthClient) :=
  read_directory "list OAuth clients" (fun d => SortFunc client_order (map snd (map_to_list (oauth_clients d)))).

(** What [Update] keeps of a built-in client. *)
Definition protect (existing client : OAuthClient) : OAuthClient :=
  if oc_Builtin existing
  then mkOAuthClient (oc_ID client) (oc_Name client) true (oc_RedirectURIs client) [grantAuthorizationCode; grantRefreshToken]
         (oc_Scopes client) true true true (oc_MachineIdentityID client) (oc_CreatedAt client) (oc_UpdatedAt client)
  else client.

Definition updated_client (c row : OAuthClient) : OAuthClient :=
  mkOAuthClient (oc_ID row) (oc_Name c) (oc_Public c) (oc_RedirectURIs c) (oc_GrantTypes c) (oc_Scopes c) (oc_Trusted c)
    (oc_Enabled c) (oc_Builtin row) (oc_MachineIdentityID c) (oc_CreatedAt row) (oc_UpdatedAt c).

Definition update_client (c : OAuthClient) (db : Database) : driver_error + Z * Database :=
  match oauth_clients (directory db) !! oc_ID c with
  | None => inr (0, db)
  | Some row =>
      if negb (references_optional db (oc_MachineIdentityID c)) then inl constraint_error
      else inr (1, set_directory db (set_oauth_clients (<[oc_ID c := updated_client c row]> (oauth_clients (directory db))) (directory db)))
  end.

Definition Client_Update (client : OAuthClient) : M (E:=E) unit :=
  client ← normalizeOAuthClient client false;
  existing ← Client_Get (oc_ID client);
  count ← statement mapWriteError (update_client (protect existing client));
  expect_one count.

(** The secret and the consents of a client are deleted with it, except on MySQL. *)
Definition cascades : bool := negb (bool_decide (engine_backend = BackendMySQL)).

Definition delete_client (id : string) (d : Directory) : driver_error + Z * Directory :=
  match oauth_clients d !! id with
  | None => inr (0, d)
  | Some _ =>
      let d := set_oauth_clients (delete id (oauth_clients d)) d in
      inr (1, if cascades
              then set_client_secrets (delete id (oauth_client_secrets d))
                     (set_consents (delete_where (fun c => bool_decide (co_ClientID c = id)) (oauth_consents d)) d)
              else d)
  end.

Definition Client_Delete (id : string) : M (E:=E) unit :=
  client ← Client_Get id;
  _ ← checked (negb (oc_Builtin client)) "built-in OAuth clients cannot be deleted";
  count ← write_directory (delete_client id);
  expect_one count.

(** ** Built-in clients ([oauth_builtin.go]) *)

Definition builtin_client (now : time) (id name redirect : string) : OAuthClient :=
  mkOAuthClient id name true [redirect] [grantAuthorizationCode; grantRefreshToken]
    [scopeOpenID; scopeProfile; emailField; scopeOfflineAccess; scopeKubeLoopAPI] true true true "" now now.

Definition builtin_clients (now : time) (managementRedirectURI : string) : list OAuthClient :=
  [builtin_client now DesktopClientID "KubeLoop Desktop" DesktopRedirectURI;
   builtin_client now TUIClientID "KubeLoop TUI" TUIRedirectURI;
   builtin_client now ManagementOAuthClientID "KubeLoop Management" managementRedirectURI].

Definition created_at (createdAt : time) (c : OAuthClient) : OAuthClient :=
  mkOAuthClient (oc_ID c) (oc_Name c) (oc_Public c) (oc_RedirectURIs c) (oc_GrantTypes c) (oc_Scopes c) (oc_Trusted c)
    (oc_Enabled c) (oc_Builtin c) (oc_MachineIdentityID c) createdAt (oc_UpdatedAt c).

(** The body of the loop. *)
Definition ensure_client (client : OAuthClient) : M (E:=E) unit :=
  stored ← try (Client_Get (oc_ID client));
  match stored with
  | inl e => if storage_Is e ErrNotFound then Client_Create client else fail e
  | inr stored => Client_Update (created_at (oc_CreatedAt stored) client)
  end.

Fixpoint ensure_clients (clients : list OAuthClient) : M (E:=E) unit :=
  match clients with
  | [] => mret tt
  | client :: rest => _ ← ensure_client client; ensure_clients rest
  end.

Definition EnsureBuiltinOAuthClients (managementRedirectURI : string) : M (E:=E) unit :=
  now ← time_Now; ensure_clients (builtin_clients now managementRedirectURI).

(** ** Secrets ([oauth_client_secrets.go]) *)

Definition upsert_secret (s : OAuthClientSecret) (d : Directory) : driver_error + unit * Directory :=
  let row := match oauth_client_secrets d !! os_ClientID s with
             | Some row => mkOAuthClientSecret (os_ClientID row) (os_SecretHash s) (os_CreatedAt row) (os_UpdatedAt s)
             | None => s
             end in
  if negb (references (oauth_clients d) (os_ClientID s)) then inl constraint_error
  else inr (tt, set_client_secrets (<[os_ClientID s := row]> (oauth_client_secrets d)) d).

Definition SetSecret (s : OAuthClientSecret) : M (E:=E) unit :=
  _ ← checked (negb (bool_decide (TrimSpace (os_ClientID s) = "") || (len (os_SecretHash s) <? 32)))
        "oAuth client secret hash is invalid";
  createdAt ← (if IsZero (os_CreatedAt s) then time_Now else mret (os_CreatedAt s));
  let updatedAt := if IsZero (os_UpdatedAt s) then createdAt else os_UpdatedAt s in
  write_directory (upsert_secret (mkOAuthClientSecret (os_ClientID s) (os_SecretHash s) createdAt updatedAt)).

Definition GetSecret (clientID : string) : M (E:=E) OAuthClientSecret :=
  row ← read_directory "read OAuth client secret" (fun d => oauth_client_secrets d !! clientID); found row.

(** ** Consents ([oauth_consents.go]) *)

Definition upsert_consent (c : OAuthConsent) (db : Database) : driver_error + unit * Database :=
  let key := (co_IdentityID c, co_ClientID c, co_ScopeHash c) in
  let d := directory db in
  let row := match oauth_consents d !! key with
             | Some row => mkOAuthConsent (co_IdentityID row) (co_ClientID row) (co_ScopeHash row) (co_Scopes c)
                             (co_CreatedAt row) (co_UpdatedAt c)
             | None => c
             end in
  if negb (references_identity db (co_IdentityID c)) || negb (references (oauth_clients d) (co_ClientID c))
  then inl constraint_error
  else inr (tt, set_directory db (set_consents (<[key := row]> (oauth_consents d)) d)).

Definition Consent_Grant (c : OAuthConsent) : M (E:=E) unit :=
  _ ← checked (negb (negb (len (co_ScopeHash c) =? 32) || bool_decide (TrimSpace (co_IdentityID c) = "") ||
                     bool_decide (TrimSpace (co_ClientID c) = ""))) "oAuth consent is invalid";
  createdAt ← (if IsZero (co_CreatedAt c) then time_Now else mret (co_CreatedAt c));
  let updatedAt := if IsZero (co_UpdatedAt c) then createdAt else co_UpdatedAt c in
  statement mapWriteError (upsert_consent
    (mkOAuthConsent (co_IdentityID c) (co_ClientID c) (co_ScopeHash c) (co_Scopes c) createdAt updatedAt)).

Definition Consent_Has (identityID clientID : string) (scopeHash : bytes) : M (E:=E) bool :=
  read_directory "read OAuth consent" (fun d => bool_decide (is_Some (oauth_consents d !! (identityID, clientID, scopeHash)))).

Definition Consent_RevokeClient (identityID clientID : string) : M (E:=E) unit :=
  write_directory (fun d => inr (tt, set_consents
    (delete_where (fun c => bool_decide (co_IdentityID c = identityID) && bool_decide (co_ClientID c = clientID)) (oauth_consents d)) d)).

(** ** Sessions of browsers ([oauth_browser_sessions.go]) *)

Definition insert_browser (s : OAuthBrowserSession) (db : Database) : driver_error + unit * Database :=
  let table := oauth_browser_sessions (directory db) in
  if bool_decide (is_Some (table !! br_IDHash s)) || negb (references_identity db (br_IdentityID s)) then inl constraint_error
  else inr (tt, set_directory db (set_browser_sessions (<[br_IDHash s := s]> table) (directory db))).

Definition Browser_Create (s : OAuthBrowserSession) : M (E:=E) unit :=
  _ ← checked (negb (negb (len (br_IDHash s) =? sha256Size) || bool_decide (br_IdentityID s = "") || bool_decide (br_ProviderID s = "") ||
                     IsZero (br_AuthTime s) || IsZero (br_CreatedAt s) || negb (After (br_ExpiresAt s) (br_CreatedAt s))))
        "oAuth browser session is invalid";
  statement mapWriteError (insert_browser s).

Definition live_browser (now : time) (s : OAuthBrowserSession) : bool :=
  negb (bool_decide (is_Some (br_RevokedAt s))) && (now <? br_ExpiresAt s).

(** [WHERE key = ? AND ...] *)
Definition lookup_where {K A} `{Countable K} (k : K) (p : A -> bool) (m : gmap K A) : option A :=
  match m !! k with Some a => if p a then Some a else None | None => None end.

Definition Browser_Get (hash : bytes) (now : time) : M (E:=E) OAuthBrowserSession :=
  if negb (len hash =? sha256Size) || IsZero now then fail (StorageError ErrNotFound)
  else
    row ← read_directory "read OAuth browser session" (fun d => lookup_where hash (live_browser now) (oauth_browser_sessions d));
    found row.

Definition revoked_browser (now : time) (s : OAuthBrowserSession) : OAuthBrowserSession :=
  mkOAuthBrowserSession (br_IDHash s) (br_IdentityID s) (br_ProviderID s) (br_AuthTime s) (br_CreatedAt s) (br_ExpiresAt s)
    (Some (default now (br_RevokedAt s))).

Definition revoke_browser (hash : bytes) (now : time) (d : Directory) : driver_error + Z * Directory :=
  match oauth_browser_sessions d !! hash with
  | Some row => inr (1, set_browser_sessions (<[hash := revoked_browser now row]> (oauth_browser_sessions d)) d)
  | None => inr (0, d)
  end.

Definition Browser_Revoke (hash : bytes) (now : time) : M (E:=E) unit :=
  _ ← checked ((len hash =? sha256Size) && negb (IsZero now)) "oAuth browser session revocation is invalid";
  count ← write_directory (revoke_browser hash now);
  if (count : Z) =? 0 then fail (StorageError ErrNotFound) else mret tt.

(** The statement has no LIMIT. *)
Definition delete_browsers (now : time) (d : Directory) : driver_error + Z * Directory :=
  inr (rows_where (fun s => br_ExpiresAt s <=? now) (oauth_browser_sessions d),
       set_browser_sessions (delete_where (fun s => br_ExpiresAt s <=? now) (oauth_browser_sessions d)) d).

Definition Browser_DeleteExpired (now : time) (limit : Z) : M (E:=E) Z :=
  _ ← lift (boundedLimit limit); write_directory (delete_browsers now).
End clients.
