(* ===== verification/OAuthGrantStore.v ===== *)
(** * Logins and the tokens they grant ([storage/oauth_authorization_requests.go],
    [oauth_sessions.go], [oauth_session_mutation.go], [oauth_grant_state.go],
    [oauth_grants.go])

    A login is an authorization request; the codes and tokens it leads to are rows
    that share its request identifier: together they are a grant. *)

From S2P Require Import Prelude GoLib GoText GoSort External RemoteTask StorageEngine SessionStore TaskStore.
From S2P Require Import StoragePages IdentityStore OAuthClientStore.

(** The scopes in the stored form of a request: [requested_scopes] and
    [granted_scopes], or nothing when the document does not decode. *)
Class GrantDocuments := { grant_scopes : bytes -> option (list string * list string) }.

Definition statusPending : string := "pending".
Definition statusConsumed : string := "consumed".
Definition statusRevoked : string := "revoked".
Definition statusExpired : string := "expired".
Definition kindRefreshToken : string := "refresh_token".
Definition kindAccessToken : string := "access_token".

(** [OAuthGrant] of [model_oauth.go]. *)
Record OAuthGrant := mkOAuthGrant {
  g_RequestID : string;
  g_IdentityID : string;
  g_ClientID : string;
  g_DeviceID : string;
  g_Scopes : list string;
  g_Status : string;
  g_CreatedAt : time;
  g_ExpiresAt : time;
  g_RevokedAt : option time
}.

Record OAuthGrantListFilter := mkOAuthGrantListFilter {
  gf_IdentityID : string;
  gf_ClientID : string;
  gf_Status : string;
  gf_Cursor : option PageCursor;
  gf_Limit : Z;
  gf_Now : time
}.

Section grants.
Context {E : Type} `{Engine E} `{UuidPackage} `{JsonValidity}.

(** [UPDATE ... WHERE key = ? AND p]: the rows matched. *)
Definition update_row {K A} `{Countable K} (k : K) (p : A -> bool) (f : A -> A) (m : gmap K A) : Z * gmap K A :=
  match lookup_where k p m with Some a => (1, <[k := f a]> m) | None => (0, m) end.

(** ** Authorization requests *)

Definition live_request (status : string) (now : time) (r : OAuthAuthorizationRequest) : bool :=
  bool_decide (ar_Status r = status) && (now <? ar_ExpiresAt r).

Definition request_statuses : list string := [statusPending; "accepted"; "rejected"; statusConsumed].

(** The constraints of the table, but for the primary key. *)
Definition request_allowed (db : Database) (r : OAuthAuthorizationRequest) (others : list OAuthAuthorizationRequest) : bool :=
  forallb (fun o => negb (bool_decide (ar_RequestID o = ar_RequestID r)) &&
                    (bool_decide (ar_UpstreamStateHash r = []) || negb (bool_decide (ar_UpstreamStateHash o = ar_UpstreamStateHash r)))) others &&
  (bool_decide (ar_UpstreamStateHash r = []) || (len (ar_UpstreamStateHash r) =? 32)) && (len (ar_ChallengeHash r) =? 32) &&
  (len (ar_CSRFHash r) =? 32) && references_optional db (ar_IdentityID r) && contains request_statuses (ar_Status r).

(** The other rows. *)
Definition other_requests (k : bytes) (db : Database) : list OAuthAuthorizationRequest :=
  map snd (map_to_list (delete k (oauth_authorization_requests (directory db)))).

Definition put_requests (m : gmap bytes OAuthAuthorizationRequest) (db : Database) : Database :=
  set_directory db (set_authorization_requests m (directory db)).

Definition insert_request (r : OAuthAuthorizationRequest) (db : Database) : driver_error + unit * Database :=
  let table := oauth_authorization_requests (directory db) in
  if bool_decide (is_Some (table !! ar_ChallengeHash r)) || negb (request_allowed db r (other_requests (ar_ChallengeHash r) db))
  then inl constraint_error
  else inr (tt, put_requests (<[ar_ChallengeHash r := r]> table) db).

Definition Request_Create (r : OAuthAuthorizationRequest) : M (E:=E) unit :=
  _ ← checked (negb (negb (len (ar_ChallengeHash r) =? 32) || negb (len (ar_CSRFHash r) =? 32) || bool_decide (ar_RequestID r = "") ||
                     negb (json_Valid (ar_RequestJSON r)))) "oAuth authorization request is invalid";
  let status := if bool_decide (ar_Status r = "") then statusPending else ar_Status r in
  createdAt ← (if IsZero (ar_CreatedAt r) then time_Now else mret (ar_CreatedAt r));
  _ ← checked (After (ar_ExpiresAt r) createdAt) "oAuth authorization request expiry is invalid";
  statement mapWriteError (insert_request (mkOAuthAuthorizationRequest (ar_ChallengeHash r) (ar_UpstreamStateHash r) (ar_RequestID r)
    (stored_json (ar_RequestJSON r)) (ar_CSRFHash r) (ar_IdentityID r) (ar_ProviderID r) status createdAt (ar_ExpiresAt r))).

(** [UPDATE oauth_authorization_requests SET f WHERE challenge_hash = ? AND p], where
    [f] may change the key. *)
Definition update_request (hash : bytes) (p : OAuthAuthorizationRequest -> bool) (f : OAuthAuthorizationRequest -> OAuthAuthorizationRequest)
    (db : Database) : driver_error + Z * Database :=
  let table := oauth_authorization_requests (directory db) in
  match lookup_where hash p table with
  | None => inr (0, db)
  | Some row =>
      let row' := f row in
      if bool_decide (is_Some (delete hash table !! ar_ChallengeHash row')) || negb (request_allowed db row' (other_requests hash db))
      then inl constraint_error
      else inr (1, put_requests (<[ar_ChallengeHash row' := row']> (delete hash table)) db)
  end.

Definition with_upstream (stateHash raw : bytes) (providerID : string) (r : OAuthAuthorizationRequest) : OAuthAuthorizationRequest :=
  mkOAuthAuthorizationRequest (ar_ChallengeHash r) stateHash (ar_RequestID r) (stored_json raw) (ar_CSRFHash r) (ar_IdentityID r)
    providerID (ar_Status r) (ar_CreatedAt r) (ar_ExpiresAt r).

Definition Request_SetUpstream (challengeHash stateHash raw : bytes) (providerID : string) (now : time) : M (E:=E) unit :=
  _ ← checked (negb (negb (len challengeHash =? 32) || negb (len stateHash =? 32) || negb (json_Valid raw) ||
                     bool_decide (providerID = "") || IsZero now)) "oAuth upstream authorization request is invalid";
  count ← statement mapWriteError
            (update_request challengeHash (live_request statusPending now) (with_upstream stateHash raw providerID));
  expect_one count.

(** [get] *)
Definition request_get (hash : bytes) (now : time) (consumed : bool) : M (E:=E) OAuthAuthorizationRequest :=
  row ← read_directory "read OAuth authorization request"
          (fun d => lookup_where hash (live_request (if consumed then statusConsumed else statusPending) now) (oauth_authorization_requests d));
  found row.

Definition Request_Get (hash : bytes) (now : time) : M (E:=E) OAuthAuthorizationRequest := request_get hash now false.

Definition without_upstream (r : OAuthAuthorizationRequest) : OAuthAuthorizationRequest :=
  mkOAuthAuthorizationRequest (ar_ChallengeHash r) [] (ar_RequestID r) (ar_RequestJSON r) (ar_CSRFHash r) (ar_IdentityID r)
    (ar_ProviderID r) (ar_Status r) (ar_CreatedAt r) (ar_ExpiresAt r).

Definition request_of_upstream (stateHash : bytes) (now : time) (d : Directory) : option OAuthAuthorizationRequest :=
  head (List.filter (fun r => bool_decide (ar_UpstreamStateHash r = stateHash) && live_request statusPending now r)
          (map snd (map_to_list (oauth_authorization_requests d)))).

Definition Request_ConsumeUpstream (stateHash : bytes) (now : time) : M (E:=E) OAuthAuthorizationRequest :=
  if negb (len stateHash =? 32) || IsZero now then fail (StorageError ErrNotFound)
  else
    row ← read_directory "read OAuth upstream authorization request" (request_of_upstream stateHash now);
    request ← found row;
    count ← statement mapWriteError (update_request (ar_ChallengeHash request)
              (fun r => bool_decide (ar_UpstreamStateHash r = stateHash) && bool_decide (ar_Status r = statusPending)) without_upstream);
    _ ← expect_one count;
    request_get (ar_ChallengeHash request) now false.

Definition continued (nextHash csrfHash : bytes) (identityID : string) (r : OAuthAuthorizationRequest) : OAuthAuthorizationRequest :=
  mkOAuthAuthorizationRequest nextHash [] (ar_RequestID r) (ar_RequestJSON r) csrfHash identityID (ar_ProviderID r) (ar_Status r)
    (ar_CreatedAt r) (ar_ExpiresAt r).

Definition Request_Continue (oldHash nextHash csrfHash : bytes) (identityID : string) (now : time) : M (E:=E) unit :=
  _ ← checked (negb (negb (len oldHash =? 32) || negb (len nextHash =? 32) || negb (len csrfHash =? 32) || bool_decide (identityID = "") ||
                     IsZero now)) "oAuth authorization continuation is invalid";
  count ← statement mapWriteError (update_request oldHash (live_request statusPending now) (continued nextHash csrfHash identityID));
  expect_one count.

Definition consumed_request (r : OAuthAuthorizationRequest) : OAuthAuthorizationRequest :=
  mkOAuthAuthorizationRequest (ar_ChallengeHash r) (ar_UpstreamStateHash r) (ar_RequestID r) (ar_RequestJSON r) (ar_CSRFHash r)
    (ar_IdentityID r) (ar_ProviderID r) statusConsumed (ar_CreatedAt r) (ar_ExpiresAt r).

Definition Request_Consume (hash : bytes) (now : time) : M (E:=E) OAuthAuthorizationRequest :=
  count ← statement mapWriteError (update_request hash (live_request statusPending now) consumed_request);
  _ ← expect_one count;
  request_get hash now true.

(** Neither this statement nor the next clean-up has a LIMIT. *)
Definition delete_requests (now : time) (d : Directory) : driver_error + Z * Directory :=
  inr (rows_where (fun r => ar_ExpiresAt r <=? now) (oauth_authorization_requests d),
       set_authorization_requests (delete_where (fun r => ar_ExpiresAt r <=? now) (oauth_authorization_requests d)) d).

Definition Request_DeleteExpired (now : time) (limit : Z) : M (E:=E) Z :=
  _ ← lift (boundedLimit limit); write_directory (delete_requests now).

(** ** Codes and tokens *)

Definition session_kinds : list string := ["authorization_code"; "pkce"; "oidc"; kindAccessToken; kindRefreshToken].
Definition session_statuses : list string := [statusActive; statusConsumed; statusRevoked].

Definition insert_oauth_session (s : OAuthSession) (db : Database) : driver_error + unit * Database :=
  let table := oauth_sessions (directory db) in
  if bool_decide (is_Some (table !! (o_Kind s, o_SignatureHash s))) || negb (references_optional db (o_IdentityID s)) ||
     negb (contains session_kinds (o_Kind s)) || negb (contains session_statuses (o_Status s))
  then inl constraint_error
  else inr (tt, set_directory db (set_oauth_sessions (<[(o_Kind s, o_SignatureHash s) := s]> table) (directory db))).

Definition OAuth_Create (s : OAuthSession) : M (E:=E) unit :=
  _ ← checked (negb (negb (len (o_SignatureHash s) =? 32) || bool_decide (TrimSpace (o_Kind s) = "") ||
                     bool_decide (TrimSpace (o_RequestID s) = "") || negb (json_Valid (o_RequestJSON s)))) "oAuth session is invalid";
  let status := if bool_decide (o_Status s = "") then statusActive else o_Status s in
  createdAt ← (if IsZero (o_CreatedAt s) then time_Now else mret (o_CreatedAt s));
  _ ← checked (After (o_ExpiresAt s) createdAt) "oAuth session expiry is invalid";
  statement mapWriteError (insert_oauth_session (mkOAuthSession (o_Kind s) (o_SignatureHash s) (o_RequestID s) (o_IdentityID s)
    (o_ClientID s) (o_DeviceID s) (stored_json (o_RequestJSON s)) status createdAt (o_ExpiresAt s) (o_RevokedAt s))).

Definition OAuth_Get (kind : string) (hash : bytes) : M (E:=E) OAuthSession :=
  row ← read_directory "read OAuth session" (fun d => oauth_sessions d !! (kind, hash)); found row.

Definition with_status (status : string) (revokedAt : option time) (s : OAuthSession) : OAuthSession :=
  mkOAuthSession (o_Kind s) (o_SignatureHash s) (o_RequestID s) (o_IdentityID s) (o_ClientID s) (o_DeviceID s) (o_RequestJSON s)
    status (o_CreatedAt s) (o_ExpiresAt s) revokedAt.

Definition live_session (now : time) (s : OAuthSession) : bool :=
  bool_decide (o_Status s = statusActive) && (now <? o_ExpiresAt s).

Definition consumed_session (s : OAuthSession) : OAuthSession := with_status statusConsumed (o_RevokedAt s) s.

Definition consume_session (kind : string) (hash : bytes) (now : time) (d : Directory) : driver_error + Z * Directory :=
  let '(count, m) := update_row (kind, hash) (live_session now) consumed_session (oauth_sessions d) in
  inr (count, set_oauth_sessions m d).

Definition OAuth_Consume (kind : string) (hash : bytes) (now : time) : M (E:=E) OAuthSession :=
  count ← write_directory (consume_session kind hash now);
  _ ← expect_one count;
  OAuth_Get kind hash.

Definition OAuth_Delete (kind : string) (hash : bytes) : M (E:=E) unit :=
  write_directory (fun d => inr (tt, set_oauth_sessions (delete (kind, hash) (oauth_sessions d)) d)).

(** [SET status = 'revoked', revoked_at = ? WHERE ... AND status = 'active'] *)
Definition revoke_where (p : OAuthSession -> bool) (now : time) (m : gmap (string * bytes) OAuthSession)
    : gmap (string * bytes) OAuthSession :=
  update_where (fun s => p s && bool_decide (o_Status s = statusActive)) (with_status statusRevoked (Some now)) m.

Definition of_request (requestID : string) (s : OAuthSession) : bool := bool_decide (o_RequestID s = requestID).

Definition OAuth_RevokeRequest (requestID : string) (now : time) : M (E:=E) unit :=
  _ ← write_directory (fun d => inr (tt, set_oauth_sessions (revoke_where (of_request requestID) now (oauth_sessions d)) d));
  write_directory (revoke_authorization requestID now).

Definition of_identity (identityID : string) (s : OAuthSession) : bool := bool_decide (o_IdentityID s = identityID).

Definition OAuth_RevokeIdentity (identityID : string) (now : time) : M (E:=E) Z :=
  _ ← checked (negb (bool_decide (TrimSpace identityID = "") || IsZero now)) "oAuth identity revocation is invalid";
  write_directory (fun d =>
    inr (rows_where (fun s => of_identity identityID s && bool_decide (o_Status s = statusActive)) (oauth_sessions d),
         set_oauth_sessions (revoke_where (of_identity identityID) now (oauth_sessions d)) d)).

(** [ORDER BY CASE WHEN kind = 'refresh_token' THEN 0 ELSE 1 END LIMIT 1]; rows that
    compare equal come in the order of the table. *)
Definition refresh_first (s t : OAuthSession) : Z :=
  let rank s := if bool_decide (o_Kind s = kindRefreshToken) then 0 else 1 in rank s - rank t.

Definition first_of (rows : list OAuthSession) : option OAuthSession := head (SortFunc refresh_first rows).

Definition session_rows (d : Directory) : list OAuthSession := map snd (map_to_list (oauth_sessions d)).

Definition OAuth_RequestOwner (requestID : string) : M (E:=E) (string * string) :=
  row ← read_directory "read OAuth grant owner" (fun d =>
          first_of (List.filter (fun s => of_request requestID s && negb (bool_decide (o_IdentityID s = ""))) (session_rows d)));
  s ← found row;
  mret (o_IdentityID s, o_DeviceID s).

(** [kind IN ('access_token', 'refresh_token')] *)
Definition is_token (s : OAuthSession) : bool := bool_decide (o_Kind s = kindAccessToken) || bool_decide (o_Kind s = kindRefreshToken).

Definition OAuth_RequestActive (requestID : string) (now : time) : M (E:=E) bool :=
  count ← read_directory "read OAuth grant state" (fun d =>
            rows_where (fun s => of_request requestID s && live_session now s && is_token s) (oauth_sessions d));
  mret (0 <? count).

Definition delete_sessions (now : time) (d : Directory) : driver_error + Z * Directory :=
  inr (rows_where (fun s => o_ExpiresAt s <=? now) (oauth_sessions d),
       set_oauth_sessions (delete_where (fun s => o_ExpiresAt s <=? now) (oauth_sessions d)) d).

Definition OAuth_DeleteExpired (now : time) (limit : Z) : M (E:=E) Z :=
  _ ← lift (boundedLimit limit); write_directory (delete_sessions now).

(** ** Listing grants ([oauth_grants.go]) *)

(** [MAX] and [MIN] over the rows of a group; NULL is the empty string. *)
Definition max_string (l : list string) : string := foldr (fun s m => if String.ltb m s then s else m) "" l.
Definition max_time (l : list time) : option time :=
  match l with [] => None | t :: l => Some (foldr Z.max t l) end.
Definition min_time (l : list time) : option time :=
  match l with [] => None | t :: l => Some (foldr Z.min t l) end.

Definition grant_status (now : time) (rows : list OAuthSession) : string :=
  if existsb (live_session now) rows then statusActive
  else if existsb (fun s => bool_decide (o_Status s = statusRevoked) || bool_decide (is_Some (o_RevokedAt s))) rows then statusRevoked
  else statusExpired.

(** One row of the query: the grant, and the document its scopes are in. *)
Definition grant_row (d : Directory) (now : time) (requestID : string) : option (OAuthGrant * bytes) :=
  let rows := List.filter (fun s => of_request requestID s && is_token s) (session_rows d) in
  source ← first_of (List.filter (of_request requestID) (session_rows d));
  createdAt ← min_time (map o_CreatedAt rows);
  expiresAt ← max_time (map o_ExpiresAt rows);
  Some (mkOAuthGrant requestID (max_string (map o_IdentityID rows)) (max_string (map o_ClientID rows)) (max_string (map o_DeviceID rows)) []
          (grant_status now rows) createdAt expiresAt (max_time (omap o_RevokedAt rows)), o_RequestJSON source).

Definition grant_ids (d : Directory) : list string :=
  remove_dups (map o_RequestID (List.filter is_token (session_rows d))).

Definition grant_key (g : OAuthGrant * bytes) : PageCursor := mkPageCursor (g_CreatedAt g.1) (g_RequestID g.1).

Definition grant_matches (identityID clientID status : string) (g : OAuthGrant * bytes) : bool :=
  matches identityID (g_IdentityID g.1) && matches clientID (g_ClientID g.1) && matches status (g_Status g.1).

Definition list_grants (now : time) (identityID clientID status : string) (cursor : option PageCursor) (limit : Z) (d : Directory)
    : list (OAuthGrant * bytes) :=
  select_page grant_key (grant_matches identityID clientID status) cursor limit (omap (grant_row d now) (grant_ids d)).

Definition oauthGrantScopes `{GrantDocuments} (raw : bytes) : result (list string) :=
  match grant_scopes raw with
  | None => Err (NewError "decode OAuth grant scopes")
  | Some (requested, granted) => Ok (sorted_set (if bool_decide (granted = []) then requested else granted))
  end.

Definition with_scopes (g : OAuthGrant) (scopes : list string) : OAuthGrant :=
  mkOAuthGrant (g_RequestID g) (g_IdentityID g) (g_ClientID g) (g_DeviceID g) scopes (g_Status g) (g_CreatedAt g) (g_ExpiresAt g) (g_RevokedAt g).

Fixpoint decode_grants `{GrantDocuments} (rows : list (OAuthGrant * bytes)) : result (list OAuthGrant) :=
  match rows with
  | [] => Ok []
  | (g, raw) :: rest => scopes ← oauthGrantScopes raw; grants ← decode_grants rest; Ok (with_scopes g scopes :: grants)
  end.

Definition OAuth_ListGrants `{GrantDocuments} (filter : OAuthGrantListFilter) : M (E:=E) (list OAuthGrant) :=
  '(limit, cursor) ← lift (normalizePage (gf_Limit filter) (gf_Cursor filter));
  let identityID := TrimSpace (gf_IdentityID filter) in
  let clientID := TrimSpace (gf_ClientID filter) in
  let status := TrimSpace (gf_Status filter) in
  _ ← checked (bool_decide (identityID = "") || valid_uuid identityID "OAuth grant identity ID") "oAuth grant identity filter is invalid";
  _ ← checked (negb ((128 <? slen clientID) || has_line_break clientID)) "oAuth grant client filter is invalid";
  _ ← checked (bool_decide (status = "") || contains [statusActive; statusRevoked; statusExpired] status) "oAuth grant status filter is invalid";
  now ← (if IsZero (gf_Now filter) then time_Now else mret (gf_Now filter));
  rows ← read_directory "list OAuth grants" (list_grants now identityID clientID status cursor limit);
  lift (decode_grants rows).
End grants.
