(* ===== verification/GoContext.v ===== *)
(** * Cancellation contexts (Go's [context] package)

    Contexts that are cancelled with a cause.  A context is an index into a list
    that only grows; it remembers the contexts it was derived from, nearest first.
    Cancelling a context ends it and everything derived from it; the first cause
    wins. *)

From S2P Require Import Prelude.

Record Context := mkContext { ctx_ancestors : list nat; ctx_cause : option error }.

Abbreviation Contexts := (list Context).

(** [context.Canceled] *)
Definition Canceled : error := VarError "context.Canceled".

(** [context.Background()], as a new root. *)
Definition Background (cs : Contexts) : nat * Contexts := (length cs, cs ++ [mkContext [] None]).

(** [context.Cause(c)]: [None] while [c] is not done. *)
Definition Cause (cs : Contexts) (c : nat) : option error := x ← cs !! c; ctx_cause x.

(** [c.Err() != nil] *)
Definition ctx_done (cs : Contexts) (c : nat) : bool := bool_decide (is_Some (Cause cs c)).

Definition ancestors (cs : Contexts) (c : nat) : list nat :=
  match cs !! c with Some x => ctx_ancestors x | None => [] end.

(** [context.WithCancelCause(parent)]: a context derived from one that is done is
    done from the start. *)
Definition WithCancelCause (parent : nat) (cs : Contexts) : nat * Contexts :=
  (length cs, cs ++ [mkContext (parent :: ancestors cs parent) (Cause cs parent)]).

Definition below (c i : nat) (x : Context) : bool := bool_decide (i = c) || bool_decide (c ∈ ctx_ancestors x).

Definition cancel_one (c : nat) (cause : error) (i : nat) (x : Context) : Context :=
  if below c i x
  then mkContext (ctx_ancestors x) (Some (match ctx_cause x with Some e => e | None => cause end))
  else x.

(** The [CancelCauseFunc] of [c]. *)
Definition cancel (c : nat) (cause : error) (cs : Contexts) : Contexts := imap (cancel_one c cause) cs.

Fixpoint cancel_all (l : list nat) (cause : error) (cs : Contexts) : Contexts :=
  match l with [] => cs | c :: l => cancel_all l cause (cancel c cause cs) end.

(** ** Facts *)

(** [i] is [c] or derived from it. *)
Definition descends (cs : Contexts) (c i : nat) : Prop := i = c \/ c ∈ ancestors cs i.

#[export] Instance descends_dec cs c i : Decision (descends cs c i).
Proof. unfold descends. apply _. Defined.

Lemma ancestors_cancel c e cs i : ancestors (cancel c e cs) i = ancestors cs i.
Proof.
  unfold ancestors, cancel. rewrite list_lookup_imap. destruct (cs !! i) as [x|]; cbn; [|done].
  unfold cancel_one. by destruct (below c i x).
Qed.

Lemma length_cancel c e cs : length (cancel c e cs) = length cs.
Proof. apply length_imap. Qed.

Lemma below_descends cs c i x : cs !! i = Some x -> below c i x = bool_decide (descends cs c i).
Proof.
  intros Hx. apply eq_bool_prop_intro. unfold below.
  rewrite orb_True, !bool_decide_spec. unfold descends, ancestors. by rewrite Hx.
Qed.

Lemma Cause_cancel c e cs i : (i < length cs)%nat ->
  Cause (cancel c e cs) i =
  match Cause cs i with Some e' => Some e' | None => if decide (descends cs c i) then Some e else None end.
Proof.
  intros Hi. destruct (lookup_lt_is_Some_2 cs i) as [x Hx]; [lia|]. unfold Cause, cancel.
  rewrite list_lookup_imap, Hx. cbn. unfold cancel_one. rewrite (below_descends cs) by done.
  destruct (decide (descends cs c i)) as [Hd|Hd]; [rewrite bool_decide_true|rewrite bool_decide_false]; try done;
    by destruct (ctx_cause x).
Qed.

Lemma Cause_out cs i : (length cs <= i)%nat -> Cause cs i = None.
Proof. intros Hi. unfold Cause. by rewrite lookup_ge_None_2 by lia. Qed.

Lemma Cause_lt cs i e : Cause cs i = Some e -> (i < length cs)%nat.
Proof. unfold Cause. intros H. destruct (cs !! i) eqn:E; [|done]. by eapply lookup_lt_Some. Qed.

Lemma length_cancel_all l e cs : length (cancel_all l e cs) = length cs.
Proof. revert cs. induction l as [|c l IH]; intros cs; cbn; [done|]. by rewrite IH, length_cancel. Qed.

Lemma ancestors_cancel_all l e cs i : ancestors (cancel_all l e cs) i = ancestors cs i.
Proof. revert cs. induction l as [|c l IH]; intros cs; cbn; [done|]. by rewrite IH, ancestors_cancel. Qed.

(** Cancelling several contexts with one cause. *)
Lemma Cause_cancel_all l e cs i : (i < length cs)%nat ->
  Cause (cancel_all l e cs) i =
  match Cause cs i with
  | Some e' => Some e'
  | None => if decide (Exists (fun c => descends cs c i) l) then Some e else None
  end.
Proof.
  revert cs. induction l as [|c l IH]; intros cs Hi; cbn [cancel_all].
  - rewrite decide_False by (by intros ?%Exists_nil). by destruct (Cause cs i).
  - rewrite IH by (rewrite length_cancel; done). rewrite Cause_cancel by done.
    destruct (Cause cs i); [done|].
    assert (Hd : forall c', descends (cancel c e cs) c' i <-> descends cs c' i).
    { intros c'. unfold descends. by rewrite ancestors_cancel. }
    destruct (decide (descends cs c i)) as [Hc|Hc].
    + rewrite decide_True; [done|by apply Exists_cons_hd].
    + apply decide_ext. rewrite Exists_cons. rewrite !Exists_exists. setoid_rewrite Hd. naive_solver.
Qed.

(** ** Trees of contexts

    What the operations keep: a context is derived from older ones only, what it
    is derived from are all of theirs, and it is done once one of them is. *)

Record contexts_ok (cs : Contexts) : Prop := {
  older : forall i a, a ∈ ancestors cs i -> (a < i)%nat;
  ancestors_trans : forall i a b, a ∈ ancestors cs i -> b ∈ ancestors cs a -> b ∈ ancestors cs i;
  done_inherited : forall i a, a ∈ ancestors cs i -> is_Some (Cause cs a) -> is_Some (Cause cs i)
}.

Lemma ancestors_in cs i a : a ∈ ancestors cs i -> (i < length cs)%nat.
Proof.
  unfold ancestors. destruct (cs !! i) eqn:E; [|by intros ?%elem_of_nil]. intros _. by eapply lookup_lt_Some.
Qed.

Lemma contexts_ok_nil : contexts_ok [].
Proof. split; intros i a; [|intros b|]; by intros ?%elem_of_nil. Qed.

Lemma ancestors_new cs x i :
  ancestors (cs ++ [x]) i = if decide (i = length cs) then ctx_ancestors x else ancestors cs i.
Proof.
  unfold ancestors. destruct (decide (i = length cs)) as [->|Hi].
  - by rewrite list_lookup_middle.
  - destruct (decide (i < length cs)%nat) as [Hl|Hl].
    + by rewrite lookup_app_l.
    + rewrite !lookup_ge_None_2; [done|lia|rewrite length_app; cbn; lia].
Qed.

Lemma Cause_new cs x i :
  Cause (cs ++ [x]) i = if decide (i = length cs) then ctx_cause x else Cause cs i.
Proof.
  unfold Cause. destruct (decide (i = length cs)) as [->|Hi].
  - by rewrite list_lookup_middle.
  - destruct (decide (i < length cs)%nat) as [Hl|Hl].
    + by rewrite lookup_app_l.
    + rewrite !lookup_ge_None_2; [done|lia|rewrite length_app; cbn; lia].
Qed.

Lemma contexts_ok_derive cs p : contexts_ok cs -> (p < length cs)%nat -> contexts_ok (WithCancelCause p cs).2.
Proof.
  intros [Ho Ht Hd] Hp. cbn [WithCancelCause snd].
  assert (Hlt : forall a, a ∈ p :: ancestors cs p -> (a < length cs)%nat).
  { intros a [->|Ha]%elem_of_cons; [done|]. apply Ho in Ha. lia. }
  split; intros i a; rewrite ?ancestors_new, ?Cause_new; cbn [ctx_ancestors ctx_cause].
  - destruct (decide (i = length cs)) as [->|]; [by apply Hlt|by apply Ho].
  - intros b Ha Hb. destruct (decide (i = length cs)) as [->|Hi].
    + pose proof (Hlt _ Ha). rewrite decide_False in Hb by lia.
      apply elem_of_cons in Ha as [->|Ha]; apply elem_of_cons; right; [done|by eapply Ht].
    + pose proof (ancestors_in _ _ _ Ha). pose proof (Ho _ _ Ha). rewrite decide_False in Hb by lia. by eapply Ht.
  - destruct (decide (i = length cs)) as [->|Hi]; intros Ha Hc.
    + pose proof (Hlt _ Ha). rewrite decide_False in Hc by lia.
      apply elem_of_cons in Ha as [->|Ha]; [done|by eapply Hd].
    + pose proof (Ho _ _ Ha). pose proof (ancestors_in _ _ _ Ha). rewrite decide_False in Hc by lia. by eapply Hd.
Qed.

Lemma contexts_ok_background cs : contexts_ok cs -> contexts_ok (Background cs).2.
Proof.
  intros [Ho Ht Hd]. cbn [Background snd].
  split; intros i a; rewrite ?ancestors_new, ?Cause_new; cbn [ctx_ancestors ctx_cause];
    [|intros b|]; (destruct (decide (i = length cs)) as [->|Hi]; [by intros ?%elem_of_nil|]).
  - apply Ho.
  - intros Ha Hb. pose proof (Ho _ _ Ha). pose proof (ancestors_in _ _ _ Ha).
    rewrite decide_False in Hb by lia. by eapply Ht.
  - intros Ha Hc. pose proof (Ho _ _ Ha). pose proof (ancestors_in _ _ _ Ha). rewrite decide_False in Hc by lia. by eapply Hd.
Qed.

Lemma contexts_ok_cancel c e cs : contexts_ok cs -> contexts_ok (cancel c e cs).
Proof.
  intros [Ho Ht Hd]. split; intros i a; rewrite ?ancestors_cancel; [apply Ho| |].
  - intros b Ha. by eapply Ht.
  - intros Ha. pose proof (ancestors_in _ _ _ Ha) as Hi. pose proof (Ho _ _ Ha) as Hai.
    rewrite !Cause_cancel by lia. specialize (Hd _ _ Ha).
    destruct (Cause cs i); [done|]. destruct (Cause cs a) as [ea|]; [by destruct Hd|].
    destruct (decide (descends cs c a)) as [Hca|]; [|by intros [? [=]]]. intros _.
    rewrite decide_True; [done|]. right. destruct Hca as [->|Hca]; [done|by eapply Ht].
Qed.

Lemma contexts_ok_cancel_all l e cs : contexts_ok cs -> contexts_ok (cancel_all l e cs).
Proof. revert cs. induction l as [|c l IH]; intros cs Hok; cbn; [done|]. by apply IH, contexts_ok_cancel. Qed.

(** A cause is never replaced. *)
Lemma cause_kept c e cs i e' : Cause cs i = Some e' -> Cause (cancel c e cs) i = Some e'.
Proof. intros Hc. rewrite Cause_cancel by (apply Cause_lt in Hc; lia). by rewrite Hc. Qed.

Lemma cause_kept_all l e cs i e' : Cause cs i = Some e' -> Cause (cancel_all l e cs) i = Some e'.
Proof. intros Hc. rewrite Cause_cancel_all by (apply Cause_lt in Hc; lia). by rewrite Hc. Qed.

#[export] Hint Resolve contexts_ok_nil contexts_ok_derive contexts_ok_background contexts_ok_cancel contexts_ok_cancel_all : kube.
#[export] Hint Rewrite length_cancel length_cancel_all ancestors_cancel ancestors_cancel_all : kube.
