(* ===== verification/AdminSessionService.v ===== *)
(** * Sessions of the management interface: the service
    ([internal/controlplane/admin/session])

    A browser exchanges the identity of an access token for a session of its own.
    The session ends with the grant it came from. *)

From S2P Require Import Prelude GoLib GoText External RemoteTask StorageEngine SessionStore TaskStore.
From S2P Require Import StoragePages IdentityStore OAuthClientStore OAuthGrantStore.

Definition tokenEntropyBytes : Z := 32.
Definition normalSessionIdleTTL : Duration := 15 * Minute.
Definition normalSessionAbsoluteTTL : Duration := 8 * Hour.
Definition identityExchangeAudit : string := "admin.session.identity.exchange".
Definition sessionRevokeAudit : string := "admin.session.revoke".

Definition ErrAuthenticationFailed : error := NewError "management authentication failed".
Definition ErrSessionInvalid : error := NewError "management session is invalid".
Definition ErrCSRFInvalid : error := NewError "management CSRF token is invalid".

(** [Normal] of [admin/authentication]. *)
Definition Normal : string := "normal".

Record Credentials := mkCredentials { cd_SessionToken : string; cd_CSRFToken : string; cd_ExpiresAt : time }.

(** [authentication.Subject] *)
Record AdminSubject := mkAdminSubject { sub_ID : string; sub_Authentication : string }.

(** The documents of the audit events; a time is in RFC 3339. *)
Record exchangeMetadata := mkExchangeMetadata { em_authenticationType : string; em_expiresAt : time }.
Record revokeMetadata := mkRevokeMetadata { rm_authenticationType : string }.

Definition minTime (left right : time) : time := if Before left right then left else right.

(** [base64.RawURLEncoding], which ignores the bits left over in the last digit. *)
Fixpoint b64_lax_digits (l : list Z) : option bytes :=
  match l with
  | [] => Some []
  | [_] => None
  | [p; q] => Some [byte_of_Z (p * 4 + q / 16)]
  | [p; q; r] => Some [byte_of_Z (p * 4 + q / 16); byte_of_Z (q mod 16 * 16 + r / 4)]
  | p :: q :: r :: s :: l' =>
      rest ← b64_lax_digits l';
      Some (byte_of_Z (p * 4 + q / 16) :: byte_of_Z (q mod 16 * 16 + r / 4) :: byte_of_Z (r mod 4 * 64 + s) :: rest)
  end.

Definition b64_lax_DecodeString (s : string) : option bytes :=
  digits ← mapM b64_value (List.filter (fun b => negb (b64_skipped b)) (string_to_bytes s));
  b64_lax_digits digits.

(** [RawURLEncoding.EncodedLen] *)
Definition EncodedLen (n : Z) : Z := (n * 8 + 5) / 6.

Definition validOpaqueToken (token : string) : bool :=
  (slen token =? EncodedLen tokenEntropyBytes) &&
  match b64_lax_DecodeString token with Some decoded => len decoded =? tokenEntropyBytes | None => false end.

Section service.
Context {E : Type} `{Engine E} `{UuidPackage} `{HashPackage} `{JsonValidity}.
Context `{JsonCodec exchangeMetadata} `{JsonCodec revokeMetadata} (store : Store).

Definition digest (token : string) : bytes := sha256_Sum256 (string_to_bytes token).

(** Any error becomes this one. *)
Definition or_fail {A} (e : error) (m : M (E:=E) A) : M A :=
  r ← try m;
  match r with inl Panicked => fail Panicked | inl _ => fail (StorageError e) | inr a => mret a end.

Definition invalid {A} : M (E:=E) A := fail (StorageError ErrSessionInvalid).

Definition live_admin (now : time) (s : AdminSession) : bool :=
  negb (bool_decide (is_Some (ad_RevokedAt s))) && After (ad_IdleExpiresAt s) now && After (ad_AbsoluteExpiresAt s) now.

(** Touching a session that was last seen more than a minute ago.  Another
    request may have touched it meanwhile. *)
Definition refresh_session (now : time) (stored : AdminSession) : M (E:=E) AdminSession :=
  let nextIdleExpiry := minTime (ad_AbsoluteExpiresAt stored) (now + normalSessionIdleTTL) in
  r ← try (Admin_Touch (ad_IDHash stored) (ad_LastSeenAt stored) now now nextIdleExpiry);
  match r with
  | inr _ => mret (touched now nextIdleExpiry stored)
  | inl _ =>
      fresh ← or_fail ErrSessionInvalid (Admin_GetByHash (ad_IDHash stored));
      if negb (live_admin now fresh) || negb (After (ad_LastSeenAt fresh) (ad_LastSeenAt stored)) then invalid else mret fresh
  end.

Definition Authenticate (token : string) : M (E:=E) AdminSession :=
  if negb (validOpaqueToken token) then invalid
  else
    stored ← or_fail ErrSessionInvalid (Admin_GetByHash (digest token));
    now ← time_Now;
    if negb (live_admin now stored) then invalid
    else if negb (bool_decide (ad_AuthenticationType stored = Normal)) then invalid
    else
      active ← or_fail ErrSessionInvalid (OAuth_RequestActive (ad_AuthorizationID stored) now);
      if negb (active : bool) then invalid
      else if Minute <=? now - ad_LastSeenAt stored then refresh_session now stored
      else mret stored.

Definition AuthenticateSubject (token : string) : M (E:=E) (AdminSession * AdminSubject) :=
  stored ← Authenticate token;
  if negb (bool_decide (ad_AuthenticationType stored = Normal)) then invalid
  else
    identity ← or_fail ErrSessionInvalid (Identity_GetByID (ad_IdentityID stored));
    if negb (bool_decide (id_Status identity = statusActive)) then invalid
    else mret (stored, mkAdminSubject (id_ID identity) (ad_AuthenticationType stored)).

Definition VerifyCSRF (stored : AdminSession) (token : string) : result unit :=
  _ ← require (validOpaqueToken token) ErrCSRFInvalid;
  require (bool_decide (digest token = ad_CSRFTokenHash stored)) ErrCSRFInvalid.

(** What the random source gives to one call, or its failure. *)
Definition randomToken (raw : option bytes) : result bytes :=
  match raw with Some raw => Ok (b64_encode_bytes raw) | None => Err (NewError "randomToken") end.

(** The callback of the transaction; it assigns [expiresAt]. *)
Definition exchange (identityID authorizationID authentication requestID eventID : string) (now : time) (sessionHash csrfHash : bytes)
    : M (E:=E) time :=
  active ← or_fail ErrAuthenticationFailed (OAuth_RequestActive authorizationID now);
  if negb (active : bool) then fail (StorageError ErrAuthenticationFailed)
  else
    _ ← or_fail ErrAuthenticationFailed (Identity_GetByID identityID);
    let expiresAt := now + normalSessionAbsoluteTTL in
    let idleExpiresAt := minTime expiresAt (now + normalSessionIdleTTL) in
    if negb (After idleExpiresAt now) then fail (StorageError ErrAuthenticationFailed)
    else
      _ ← Admin_Create (mkAdminSession sessionHash identityID authorizationID authentication csrfHash 0 now now idleExpiresAt
                          expiresAt None);
      _ ← Audit_Append (mkAuditEvent eventID identityID identityExchangeAudit "admin-session" "" "success" requestID
                          (json_Marshal (mkExchangeMetadata authentication expiresAt)) now);
      mret expiresAt.

(** [expiresAt] is a variable the callback captures; it is read after the transaction
    has committed, so its value after an attempt that fails does not matter. *)
Definition exchange_closure (identityID authorizationID authentication requestID eventID : string) (now : time)
    (sessionHash csrfHash : bytes) : Closure (E:=E) time := fun expiresAt w =>
  match exchange identityID authorizationID authentication requestID eventID now sessionHash csrfHash w with
  | (inl e, w') => ((Some e, expiresAt), w')
  | (inr expiresAt', w') => ((None, expiresAt'), w')
  end.

(** [first] and [second] are what the random source gives. *)
Definition ExchangeIdentity (first second : option bytes) (identityID authorizationID authentication requestID : string)
    : M (E:=E) Credentials :=
  let identityID := TrimSpace identityID in
  let authorizationID := TrimSpace authorizationID in
  let requestID := TrimSpace requestID in
  let failed := StorageError ErrAuthenticationFailed in
  if negb (valid_uuid identityID "") then fail failed
  else if negb (valid_uuid authorizationID "") || bool_decide (requestID = "") || negb (bool_decide (authentication = Normal))
  then fail failed
  else match randomToken first, randomToken second with
  | Ok sessionToken, Ok csrfToken =>
      now ← time_Now;
      eventID ← uuid_NewString;
      r ← run_transaction store
            (exchange_closure identityID authorizationID authentication requestID eventID now (sha256_Sum256 sessionToken)
               (sha256_Sum256 csrfToken)) 0;
      match r with
      | (Some Panicked, _) => fail Panicked
      | (Some _, _) => fail failed
      | (None, expiresAt) => mret (mkCredentials (bytes_to_string sessionToken) (bytes_to_string csrfToken) expiresAt)
      end
  | _, _ => fail failed
  end.

Definition Revoke (stored : AdminSession) (requestID : string) : M (E:=E) unit :=
  let requestID := TrimSpace requestID in
  if negb (len (ad_IDHash stored) =? sha256Size) || bool_decide (requestID = "") then invalid
  else
    now ← time_Now;
    or_fail ErrSessionInvalid (in_transaction store
      (_ ← Admin_Revoke (ad_IDHash stored) now;
       eventID ← uuid_NewString;
       Audit_Append (mkAuditEvent eventID (ad_IdentityID stored) sessionRevokeAudit "admin-session" "" "success" requestID
                       (json_Marshal (mkRevokeMetadata (ad_AuthenticationType stored))) now))).
End service.
