(* ===== verification/StreamLease.v ===== *)
(** * Leases of streams ([internal/controlplane/streamlease/lease.go],
    [controlplane/periodic], [controlplane/authorization])

    A stream lives as long as the login, the session and the task it was opened
    under.  A goroutine checks them periodically and cancels the stream's context
    when they are gone, or when it cannot tell twice in a row. *)

From S2P Require Import Prelude GoLib GoText External RemoteTask StorageEngine Netip NetworkSpec SessionStore TaskStore TaskAPI.
From S2P Require Import IdentityStore OAuthClientStore OAuthGrantStore GoContext.

(** [authorization.go]; the namespace labels of a request are not modelled. *)
Record AuthzSubject := mkAuthzSubject { az_ID : string; az_Provider : string; az_Groups : list string }.
Record AuthzRequest := mkAuthzRequest { ar_Operation : string; ar_Namespace : string; ar_ResourceKind : string; ar_ResourceName : string }.

(** [Authorizer.Authorize(...).Allowed] *)
Definition Authorizer : Type := AuthzSubject -> AuthzRequest -> bool.

(** [Authenticated] *)
Definition Authenticated : Authorizer := fun subject _ => negb (bool_decide (TrimSpace (az_ID subject) = "")).

Record LeaseConfig := mkLeaseConfig {
  lc_CheckInterval : Duration;
  lc_Runtime : bool;                   (* [Runtime != nil] *)
  lc_TaskID : string;
  lc_HeartbeatTask : bool;
  lc_Authorizer : option Authorizer;
  lc_Authorization : AuthzRequest
}.

Definition validationErrorsBeforeCancellation : Z := 2.

(** ** One check *)

Section checker.
Context {E : Type} `{Engine E} `{UuidPackage} `{NetipPackage} `{JsonCodec Spec} `{JsonCodec unit} `{HashPackage}.
Context `{JsonValidity} `{JsonCodec transitionMetadata} (store : Store) (requestID : string).
Context (identity : Identity) (sessionID : string) (config : LeaseConfig).

Definition authorized : bool :=
  match lc_Authorizer config with
  | None => true
  | Some Authorize => Authorize (mkAuthzSubject (Subject identity) (Provider identity) (Groups identity)) (lc_Authorization config)
  end.

(** [ErrNotFound] means no; other errors are errors. *)
Definition unless_missing {A} (r : storage_error + A) (k : A -> M (E:=E) bool) : M bool :=
  match r with inl e => if storage_Is e ErrNotFound then mret false else fail e | inr a => k a end.

Definition grantActive : M (E:=E) bool :=
  if bool_decide (AuthorizationID identity = "") then mret true
  else
    owner ← try (OAuth_RequestOwner (AuthorizationID identity));
    unless_missing owner (fun '(identityID, deviceID) =>
      t ← time_Now;
      active ← OAuth_RequestActive (AuthorizationID identity) t;
      now ← time_Now;
      mret ((active : bool) && bool_decide (identityID = Subject identity) && bool_decide (deviceID = DeviceID identity) && negb (IsZero now))).

Definition sessionActive : M (E:=E) bool :=
  stored ← try (Session_GetByID sessionID);
  unless_missing stored (fun stored =>
    now ← time_Now;
    mret (bool_decide (s_IdentityID stored = Subject identity) && bool_decide (s_DeviceID stored = DeviceID identity) &&
          bool_decide (s_State stored = statusActive) && After (s_ExpiresAt stored) now)).

Definition taskOwned : M (E:=E) bool :=
  if negb (lc_HeartbeatTask config) then mret true
  else
    task ← try (Task_GetByID (lc_TaskID config));
    unless_missing task (fun task =>
      if negb (bool_decide (t_SessionID task = sessionID)) || negb (bool_decide (t_IdentityID task = Subject identity)) ||
         negb (RemoteTask.Owned (t_State task))
      then mret false
      else
        now ← time_Now;
        r ← try (UpdateState store requestID (t_ID task) (t_State task) (t_State task) (t_Result task) now);
        match r with
        | inr _ => mret true
        | inl e => if storage_Is e ErrConflict then mret true else fail e
        end).

Fixpoint all_valid (checks : list (M (E:=E) bool)) : M (E:=E) bool :=
  match checks with
  | [] => mret true
  | check :: rest => valid ← check; if negb (valid : bool) then mret false else all_valid rest
  end.

Definition valid : M (E:=E) bool :=
  if negb authorized then mret false else all_valid [grantActive; sessionActive; taskOwned].
End checker.

(** ** The loop ([watchValidation], [periodic.RunAfter])

    The loop waits for the interval, checks, and waits again until the context has
    ended.  Its state is the contexts and the variable [consecutiveErrors]. *)

Record Watch := mkWatch { wt_contexts : Contexts; wt_errors : Z }.

(** What the operation makes of the result of a check. *)
Definition judge (ctx : nat) (result : storage_error + bool) (w : Watch) : Watch :=
  match result with
  | inl _ =>
      let errors := wt_errors w + 1 in
      mkWatch (if validationErrorsBeforeCancellation <=? errors then cancel ctx Canceled (wt_contexts w) else wt_contexts w) errors
  | inr valid =>
      mkWatch (if negb valid then cancel ctx Canceled (wt_contexts w) else wt_contexts w) 0
  end.

Section watch.
Context {E : Type} `{Engine E} (validate : M (E:=E) bool) (ctx : nat).

(** One turn of the loop, with the contexts as they are when the timer fires. *)
Definition tick (w : Watch) (s : World E) : Watch * World E :=
  let '(result, s') := validate s in (judge ctx result w, s').

(** The first [fuel] turns; other contexts do not end meanwhile. *)
Fixpoint watchValidation (fuel : nat) (w : Watch) (s : World E) : Watch * World E :=
  match fuel with
  | O => (w, s)
  | S fuel' =>
      if ctx_done (wt_contexts w) ctx then (w, s)
      else let '(w', s') := tick w s in watchValidation fuel' w' s'
  end.
End watch.

(** ** Starting a lease *)

(** The deadline of the context, if any: a login that can be refreshed outlives the
    access token the stream was opened with. *)
Definition lease_deadline (identity : Identity) : option time :=
  if IsZero (AccessExpiresAt identity) || negb (bool_decide (AuthorizationID identity = "")) then None
  else Some (AccessExpiresAt identity).

(** The checks of [Start], and the configuration with its default. *)
Definition start_checks (identity : Identity) (session : ActiveSession) (config : LeaseConfig) (now : time) : result LeaseConfig :=
  let config := mkLeaseConfig (if lc_CheckInterval config =? 0 then 500 * Millisecond else lc_CheckInterval config)
    (lc_Runtime config) (lc_TaskID config) (lc_HeartbeatTask config) (lc_Authorizer config) (lc_Authorization config) in
  _ ← require (negb ((lc_CheckInterval config <? 10 * Millisecond) || (30 * Second <? lc_CheckInterval config)))
        (NewError "authorization lease check interval must be between 10ms and 30s");
  _ ← require (negb (lc_HeartbeatTask config && bool_decide (lc_TaskID config = "")))
        (NewError "task identity is required for owner heartbeat");
  _ ← require (negb (negb (After (as_ExpiresAt session) now) ||
                     (negb (IsZero (AccessExpiresAt identity)) && negb (After (AccessExpiresAt identity) now))))
        (NewError "authorization lease expired");
  Ok config.

(** [context.WithCancel]: cancelling it ends it with [context.Canceled]. *)
Definition WithCancel (parent : nat) (cs : Contexts) : nat * Contexts := WithCancelCause parent cs.

(** What a lease consists of: the context that is watched, the one the stream runs
    in, the deadline of the former and whether there is a runtime to release. *)
Record Lease := mkLease { ls_ctx : nat; ls_lease : nat; ls_deadline : option time; ls_release : bool }.

Section start.
(** [Runtime.AttachRuntime]: a context derived from the stream's, or an error. *)
Context (AttachRuntime : nat -> string -> string -> Contexts -> result nat * Contexts).

Definition Start (parent : nat) (identity : Identity) (session : ActiveSession) (config : LeaseConfig) (now : time) (cs : Contexts)
    : result Lease * Contexts :=
  match start_checks identity session config now with
  | Err e => (Err e, cs)
  | Ok config =>
      let '(ctx, cs) := WithCancel parent cs in
      if lc_Runtime config then
        match AttachRuntime ctx (as_ID session) (lc_TaskID config) cs with
        | (Ok runtime, cs) => (Ok (mkLease ctx runtime (lease_deadline identity) true), cs)
        | (Err e, cs) => (Err e, cancel ctx Canceled cs)
        end
      else (Ok (mkLease ctx ctx (lease_deadline identity) false), cs)
  end.
End start.
