(* ===== verification/OAuthStorage.v ===== *)
(** * The storage of the OAuth provider ([authn/oauthserver/storage_*.go],
    [session.go], [authorization_browser.go])

    The provider is fosite; this is the storage it is given: codes and tokens are
    kept under the hash of their signature, with the request they belong to. *)

From S2P Require Import Prelude GoLib GoText GoSort External Utils RemoteTask StorageEngine SessionStore TaskStore.
From S2P Require Import StoragePages IdentityStore OAuthClientStore OAuthGrantStore AdminSessionService.

(** Errors of fosite. *)
Definition fosite_ErrNotFound : error := VarError "fosite.ErrNotFound".
Definition ErrInvalidatedAuthorizeCode : error := VarError "fosite.ErrInvalidatedAuthorizeCode".
Definition ErrInactiveToken : error := VarError "fosite.ErrInactiveToken".
Definition ErrServerError : error := VarError "fosite.ErrServerError".

Definition kindAuthorizationCode : string := "authorization_code".
Definition kindPKCE : string := "pkce".
Definition kindOIDC : string := "oidc".
Definition providerLocal : string := "local".

Inductive TokenType := AccessToken | RefreshToken | AuthorizeCode.

(** [openid.DefaultSession], of which the code uses the expiry of a token. *)
Class FositeSession := { DefaultSession : Type; GetExpiresAt : DefaultSession -> TokenType -> time; NewDefaultSession : DefaultSession }.

Section data.
Context `{FositeSession}.

(** [Session] of [session.go]. *)
Record ProviderSession := mkProviderSession {
  ps_DefaultSession : DefaultSession;
  ps_IdentityID : string;
  ps_ProviderID : string;
  ps_DisplayName : string;
  ps_Email : string;
  ps_AuthorizationID : string;
  ps_Machine : bool;
  ps_DeviceID : string
}.

Definition NewSession : ProviderSession := mkProviderSession NewDefaultSession "" "" "" "" "" false "".

(** [fosite.DefaultOpenIDConnectClient] *)
Record FositeClient := mkFositeClient {
  fc_ID : string;
  fc_Secret : bytes;
  fc_RedirectURIs : list string;
  fc_GrantTypes : list string;
  fc_ResponseTypes : list string;
  fc_Scopes : list string;
  fc_Audience : list string;
  fc_Public : bool;
  fc_TokenEndpointAuthMethod : string
}.

(** [fosite.Request]; the session is a [*Session] of the package, or something
    else. *)
Record Requester := mkRequester {
  rq_ID : string;
  rq_RequestedAt : time;
  rq_Client : FositeClient;
  rq_RequestedScopes : list string;
  rq_GrantedScopes : list string;
  rq_RequestedAudience : list string;
  rq_GrantedAudience : list string;
  rq_Form : list (string * list string);
  rq_Session : option ProviderSession
}.

(** [requestDTO]; nil for an absent session. *)
Record requestDTO := mkRequestDTO {
  dto_ID : string;
  dto_RequestedAt : time;
  dto_ClientID : string;
  dto_RequestedScopes : list string;
  dto_GrantedScopes : list string;
  dto_RequestedAudience : list string;
  dto_GrantedAudience : list string;
  dto_Form : list (string * list string);
  dto_Session : option ProviderSession
}.
End data.

Section storage.
Context {E : Type} `{Engine E} `{UuidPackage} `{HashPackage} `{JsonValidity} `{FositeSession} `{JsonCodec requestDTO}.

Definition signatureHash (signature : string) : bytes := sha256_Sum256 (string_to_bytes signature).

(** ** Requests ([storage_request.go], [storage_core.go]) *)

Definition encodeRequester (request : Requester) : result bytes :=
  match rq_Session request with
  | None => Err (NewError "oauth request session has an invalid type")
  | Some session => Ok (json_Marshal (mkRequestDTO (rq_ID request) (rq_RequestedAt request) (fc_ID (rq_Client request))
      (rq_RequestedScopes request) (rq_GrantedScopes request) (rq_RequestedAudience request) (rq_GrantedAudience request)
      (rq_Form request) (Some session)))
  end.

(** A client that does not exist or is disabled is not found. *)
Definition GetClient (id : string) : M (E:=E) FositeClient :=
  r ← try (Client_Get id);
  match r with
  | inl e => if storage_Is e ErrNotFound then fail (StorageError fosite_ErrNotFound) else fail e
  | inr client =>
      if negb (oc_Enabled client) then fail (StorageError fosite_ErrNotFound)
      else
        secret ← (if oc_Public client then mret []
                  else
                    r ← try (GetSecret id);
                    match r with
                    | inl e => if storage_Is e ErrNotFound then fail (StorageError fosite_ErrNotFound) else fail e
                    | inr stored => mret (os_SecretHash stored)
                    end);
        mret (mkFositeClient (oc_ID client) secret (oc_RedirectURIs client) (oc_GrantTypes client) ["code"] (oc_Scopes client)
                [scopeKubeLoopAPI] (oc_Public client) (if oc_Public client then "none" else "client_secret_basic"))
  end.

(** [json.Unmarshal] wants the whole document to be one value. *)
Definition unmarshal_request (raw : bytes) : option requestDTO :=
  match json_Decode raw with Some (dto, rest) => if forallb json_space rest then Some dto else None | None => None end.

Definition decodeRequester (raw : bytes) : M (E:=E) Requester :=
  match unmarshal_request raw with
  | None => fail (StorageError (NewError "decode OAuth request"))
  | Some dto =>
      client ← GetClient (dto_ClientID dto);
      mret (mkRequester (dto_ID dto) (dto_RequestedAt dto) client (dto_RequestedScopes dto) (dto_GrantedScopes dto)
              (dto_RequestedAudience dto) (dto_GrantedAudience dto) (dto_Form dto)
              (Some (default NewSession (dto_Session dto))))
  end.

(** ** Codes and tokens ([storage_session.go], [storage_token.go],
    [storage_authorization.go], [storage_oidc.go]) *)

Definition storage_create (kind signature : string) (request : Requester) (tokenType : TokenType) : M (E:=E) unit :=
  raw ← lift (encodeRequester request);
  match rq_Session request with
  | None => fail Panicked
  | Some session =>
      let expires := GetExpiresAt (ps_DefaultSession session) tokenType in
      expires ← (if IsZero expires then now ← time_Now; mret (now + 10 * Minute) else mret expires);
      now ← time_Now;
      OAuth_Create (mkOAuthSession kind (signatureHash signature) (rq_ID request) (ps_IdentityID session) (fc_ID (rq_Client request))
                      (ps_DeviceID session) raw statusActive now expires None)
  end.

(** The request, and the error that goes with it when it is no longer active. *)
Definition storage_get (kind signature : string) (invalidatedError : option error) : M (E:=E) (Requester * option error) :=
  r ← try (OAuth_Get kind (signatureHash signature));
  match r with
  | inl e => if storage_Is e ErrNotFound then fail (StorageError fosite_ErrNotFound) else fail e
  | inr stored =>
      request ← decodeRequester (o_RequestJSON stored);
      inactive ← (if negb (bool_decide (o_Status stored = statusActive)) then mret true
                  else now ← time_Now; mret (negb (After (o_ExpiresAt stored) now)));
      if (inactive : bool) then
        match invalidatedError with Some e => mret (request, Some e) | None => fail (StorageError fosite_ErrNotFound) end
      else mret (request, None)
  end.

Definition storage_delete (kind signature : string) : M (E:=E) unit := OAuth_Delete kind (signatureHash signature).

Definition CreateAccessTokenSession (signature : string) (request : Requester) := storage_create kindAccessToken signature request AccessToken.
Definition GetAccessTokenSession (signature : string) := storage_get kindAccessToken signature None.
Definition DeleteAccessTokenSession (signature : string) := storage_delete kindAccessToken signature.
Definition CreateRefreshTokenSession (signature : string) (request : Requester) := storage_create kindRefreshToken signature request RefreshToken.
Definition GetRefreshTokenSession (signature : string) := storage_get kindRefreshToken signature (Some ErrInactiveToken).
Definition DeleteRefreshTokenSession (signature : string) := storage_delete kindRefreshToken signature.
Definition CreateAuthorizeCodeSession (code : string) (request : Requester) := storage_create kindAuthorizationCode code request AuthorizeCode.
Definition GetAuthorizeCodeSession (code : string) := storage_get kindAuthorizationCode code (Some ErrInvalidatedAuthorizeCode).
Definition CreatePKCERequestSession (signature : string) (request : Requester) := storage_create kindPKCE signature request AuthorizeCode.
Definition GetPKCERequestSession (signature : string) := storage_get kindPKCE signature None.
Definition DeletePKCERequestSession (signature : string) := storage_delete kindPKCE signature.
Definition CreateOpenIDConnectSession (code : string) (request : Requester) := storage_create kindOIDC code request AuthorizeCode.
Definition GetOpenIDConnectSession (code : string) := storage_get kindOIDC code None.
Definition DeleteOpenIDConnectSession (code : string) := storage_delete kindOIDC code.

(** Spending a code or a token: [ErrNotFound] becomes another error. *)
Definition spend (kind signature : string) (missing : M (E:=E) unit) : M (E:=E) unit :=
  now ← time_Now;
  r ← try (OAuth_Consume kind (signatureHash signature) now);
  match r with
  | inl e => if storage_Is e ErrNotFound then missing else fail e
  | inr _ => mret tt
  end.

Definition InvalidateAuthorizeCodeSession (code : string) : M (E:=E) unit :=
  spend kindAuthorizationCode code (fail (StorageError ErrInvalidatedAuthorizeCode)).

(** A refresh token that was spent before revokes the grant; an error of the
    revocation is dropped. *)
Definition RotateRefreshToken (requestID signature : string) : M (E:=E) unit :=
  spend kindRefreshToken signature
    (now ← time_Now;
     r ← try (OAuth_RevokeRequest requestID now);
     match r with inl Panicked => fail Panicked | _ => fail (StorageError ErrInactiveToken) end).

Definition RevokeRefreshToken (requestID : string) : M (E:=E) unit := now ← time_Now; OAuth_RevokeRequest requestID now.
Definition RevokeAccessToken (requestID : string) : M (E:=E) unit := now ← time_Now; OAuth_RevokeRequest requestID now.

(** ** Browser sessions ([authorization_browser.go]) *)

Record BrowserIdentity := mkBrowserIdentity { bi_Identity : StoredIdentity; bi_ProviderID : string; bi_AuthTime : time }.

(** [randomAuthorizationValue]; [raw] is what the random source gives. *)
Definition randomAuthorizationValue (raw : option bytes) : result string :=
  match raw with
  | Some raw => Ok (b64_EncodeToString raw)
  | None => Err (NewError "generate OAuth authorization value")
  end.

(** The token is returned even when the row was not created. *)
Definition CreateBrowserSession (raw : option bytes) (identity : BrowserIdentity) (ttl : Duration)
    : M (E:=E) (string * option storage_error) :=
  if bool_decide (id_ID (bi_Identity identity) = "") || negb (bool_decide (bi_ProviderID identity = providerLocal)) || (ttl <=? 0)
  then fail (StorageError ErrServerError)
  else
    token ← lift (randomAuthorizationValue raw);
    now ← time_Now;
    r ← try (Browser_Create (mkOAuthBrowserSession (signatureHash token) (id_ID (bi_Identity identity)) providerLocal now now
                               (now + ttl) None));
    mret (token, match r with inl e => Some e | inr _ => None end).

Definition browser_identity (token : string) : M (E:=E) BrowserIdentity :=
  now ← time_Now;
  stored ← Browser_Get (signatureHash token) now;
  if negb (bool_decide (br_ProviderID stored = providerLocal)) then fail (StorageError fosite_ErrNotFound)
  else
    identity ← or_fail fosite_ErrNotFound (Identity_GetByID (br_IdentityID stored));
    if negb (bool_decide (id_Status identity = statusActive)) then fail (StorageError fosite_ErrNotFound)
    else mret (mkBrowserIdentity identity providerLocal (br_AuthTime stored)).

Definition RevokeBrowserSession (token : string) : M (E:=E) unit :=
  if bool_decide (TrimSpace token = "") then mret tt
  else
    now ← time_Now;
    r ← try (Browser_Revoke (signatureHash token) now);
    match r with inl e => if storage_Is e ErrNotFound then mret tt else fail e | inr _ => mret tt end.

(** ** Scopes and consent ([authorization_deny.go], [authorization_begin.go]) *)

(** [strings.Join] of the sorted scopes with NUL between them. *)
Fixpoint join_nul (l : list string) : bytes :=
  match l with
  | [] => []
  | [x] => string_to_bytes x
  | x :: rest => string_to_bytes x ++ x00 :: join_nul rest
  end.

Definition exactScopeHash (scopes : list string) : bytes := sha256_Sum256 (join_nul (sorted_set scopes)).

(** [trusted], the client and the scopes are of the challenge. *)
Definition ConsentRequired (trusted : bool) (clientID : string) (scopes : list string) (identityID : string) : M (E:=E) bool :=
  if trusted then mret false
  else has ← Consent_Has identityID clientID (exactScopeHash scopes); mret (negb (has : bool)).
End storage.
