(* ===== verification/LocalUsers.v ===== *)
(** * Local accounts ([internal/controlplane/admin/localuser])

    Accounts with a password.  Passwords are kept as Argon2id hashes in the PHC
    text form. *)

From S2P Require Import Prelude GoLib GoText GoSort External RemoteTask StorageEngine SessionStore TaskStore.
From S2P Require Import StoragePages IdentityStore OAuthClientStore OAuthGrantStore AdminSessionService.

(** [golang.org/x/crypto/argon2]: [IDKey(password, salt, time, memory, threads, keyLen)]. *)
Class Argon2Package := { argon2_IDKey : bytes -> bytes -> Z -> Z -> Z -> Z -> bytes }.

Definition ErrLocalAuthenticationFailed : error := NewError "local account authentication failed".
Definition ErrInvalidInput : error := NewError "local account input is invalid".
Definition ErrDisabled : error := NewError "local account is disabled".

Definition minimumPasswordLen : Z := 12.
Definition maximumPasswordLen : Z := 1024.

(** ** [base64.RawStdEncoding] *)

Definition url_to_std (b : byte) : byte := if bool_decide (b = x2d) then x2b else if bool_decide (b = x5f) then x2f else b.

Definition std_value (b : byte) : option Z :=
  if bool_decide (b = x2b) then Some 62 else if bool_decide (b = x2f) then Some 63
  else if bool_decide (b = x2d) || bool_decide (b = x5f) then None else b64_value b.

Definition std_encode (l : bytes) : bytes := map url_to_std (b64_encode_bytes l).

Definition std_decode (l : bytes) : option bytes :=
  digits ← mapM std_value (List.filter (fun b => negb (b64_skipped b)) l); b64_lax_digits digits.

(** ** [fmt.Sscanf] with literals and unsigned numbers *)

(** Space in front of a number; a line feed is an error. *)
Definition scan_space (l : bytes) : option bytes :=
  let rest := trim_left_space l in
  if existsb (fun b => bool_decide (b = x0a)) (take (length l - length rest) l) then None else Some rest.

Fixpoint take_digits (l : bytes) : bytes * bytes :=
  match l with
  | b :: l' => if is_digit b then let '(ds, rest) := take_digits l' in (b :: ds, rest) else ([], l)
  | [] => ([], [])
  end.

Definition digits_value (l : bytes) : Z := foldl (fun n b => n * 10 + (Z_of_byte b - 48)) 0 l.

(** [%d] into an unsigned integer of that many bits. *)
Definition scan_uint (bits : Z) (l : bytes) : option (Z * bytes) :=
  l ← scan_space l;
  let '(ds, rest) := take_digits l in
  if bool_decide (ds = []) || (2 ^ bits <=? digits_value ds) then None else Some (digits_value ds, rest).

Definition scan_literal (literal l : bytes) : option bytes := strip_prefix literal l.

(** [fmt.Sscanf(s, "m=%d,t=%d,p=%d", &memory, &iterations, &parallelism)] *)
Definition scan_parameters (l : bytes) : option (Z * Z * Z) :=
  l ← scan_literal (string_to_bytes "m=") l;
  '(memory, l) ← scan_uint 32 l;
  l ← scan_literal (string_to_bytes ",t=") l;
  '(iterations, l) ← scan_uint 32 l;
  l ← scan_literal (string_to_bytes ",p=") l;
  '(parallelism, _) ← scan_uint 8 l;
  Some (memory, iterations, parallelism).

(** ** Passwords ([password.go]) *)

Section passwords.
Context `{Argon2Package}.

(** [salt] is what the random source gives. *)
Definition hashPassword (password : bytes) (salt : option bytes) : result string :=
  match salt with
  | None => Err (NewError "read salt")
  | Some salt =>
      let hash := argon2_IDKey password salt 3 (64 * 1024) 2 32 in
      Ok (bytes_to_string (string_to_bytes "$argon2id$v=19$m=65536,t=3,p=2$" ++ std_encode salt ++ [x24] ++ std_encode hash))
  end.

Definition verifyPassword (password : bytes) (encoded : string) : bool :=
  match split_bytes x24 (string_to_bytes encoded) with
  | [p0; p1; p2; p3; p4; p5] =>
      if negb (bool_decide (p0 = [])) || negb (bool_decide (p1 = string_to_bytes "argon2id")) ||
         negb (bool_decide (p2 = string_to_bytes "v=19")) then false
      else match scan_parameters p3 with
      | None => false
      | Some (memory, iterations, parallelism) =>
          match std_decode p4 with
          | None => false
          | Some salt =>
              if negb (len salt =? 16) || negb (memory =? 64 * 1024) || negb (iterations =? 3) || negb (parallelism =? 2) then false
              else match std_decode p5 with
              | None => false
              | Some expected =>
                  (len expected =? 32) && bool_decide (argon2_IDKey password salt iterations memory parallelism 32 = expected)
              end
          end
      end
  | _ => false
  end.

Definition username_byte (b : byte) : bool :=
  is_lower b || is_digit b || bool_decide (b ∈ [x2e; x5f; x2d; x40]).

Definition validUsername (value : string) : bool :=
  negb (bool_decide (value = "") || (128 <? slen value) || has_blank value) && all_bytes username_byte value.
End passwords.

(** ** The service *)

Record User := mkUser {
  us_IdentityID : string;
  us_Username : string;
  us_DisplayName : string;
  us_Email : string;
  us_Enabled : bool;
  us_CreatedAt : time;
  us_UpdatedAt : time
}.

Record CreateRequest := mkCreateRequest { cr_Username : string; cr_Password : bytes; cr_DisplayName : string; cr_Email : string }.

(** The document [{"authenticationType": "local"}]. *)
Record localMetadata := mkLocalMetadata { lm_authenticationType : string }.

Section users.
Context {E : Type} `{Engine E} `{UuidPackage} `{UnicodePackage} `{Argon2Package} `{JsonValidity} `{JsonCodec localMetadata}.
Context (store : Store).

Definition toUser (identity : StoredIdentity) (stored : PasswordCredential) : User :=
  mkUser (pw_IdentityID stored) (pw_Username stored) (id_DisplayName identity) (id_PrimaryEmail identity)
    (pw_Enabled stored && bool_decide (id_Status identity = "active")) (pw_CreatedAt stored) (pw_UpdatedAt stored).

Definition password_length_ok (password : bytes) : bool :=
  negb ((len password <? minimumPasswordLen) || (maximumPasswordLen <? len password)).

Definition CreateWithRepositories (salt : option bytes) (request : CreateRequest) : M (E:=E) User :=
  let username := NormalizeUsername (cr_Username request) in
  let name := TrimSpace (cr_DisplayName request) in
  let email := TrimSpace (cr_Email request) in
  if negb (validUsername username) || negb (password_length_ok (cr_Password request)) then fail (StorageError ErrInvalidInput)
  else
    passwordHash ← lift (hashPassword (cr_Password request) salt);
    now ← time_Now;
    identityID ← uuid_NewString;
    let name := if bool_decide (name = "") then username else name in
    _ ← Identity_Create (mkStoredIdentity identityID "human" name email "active" now now);
    _ ← CreatePassword (mkPasswordCredential identityID username passwordHash true now now);
    mret (mkUser identityID username name email true now now).

(** A callback that assigns its result to a captured variable, zero on an error.
    The random source gives each attempt something else: the number of attempts is
    counted along. *)
Definition zero_User : User := mkUser "" "" "" "" false 0 0.

Definition assigning {A} (zero : A) (m : nat -> M (E:=E) A) : Closure (E:=E) (nat * A) := fun c w =>
  match m (fst c) w with
  | (inl e, w') => ((Some e, (S (fst c), zero)), w')
  | (inr a, w') => ((None, (S (fst c), a)), w')
  end.

(** [salts n] is the salt of attempt [n]. *)
Definition users_Create (salts : nat -> option bytes) (request : CreateRequest) : M (E:=E) (User * option storage_error) :=
  r ← run_transaction store (assigning zero_User (fun n => CreateWithRepositories (salts n) request)) (O, zero_User);
  match r with (Some Panicked, _) => fail Panicked | (e, (_, user)) => mret (user, e) end.

Definition local_user (stored : PasswordCredential) : M (E:=E) User :=
  identity ← Identity_GetByID (pw_IdentityID stored); mret (toUser identity stored).

(** The deferred audit event of a login that failed. *)
Definition audit_failure (requestID identityID : string) : M (E:=E) unit :=
  if bool_decide (requestID = "") then mret tt
  else
    eventID ← uuid_NewString;
    now ← time_Now;
    r ← try (Audit_Append (mkAuditEvent eventID identityID "admin.session.local.exchange" "admin-session" "" "failure" requestID
               (json_Marshal (mkLocalMetadata "local")) now));
    match r with inl Panicked => fail Panicked | _ => mret tt end.

(** [dummyHash] is verified when there is no such account. *)
Definition users_Authenticate (dummyHash username : string) (password : bytes) (requestID : string) : M (E:=E) User :=
  let requestID := TrimSpace requestID in
  r ← try (GetPasswordByUsername (NormalizeUsername username));
  let rejected identityID e := _ ← audit_failure requestID identityID; fail e in
  match r with
  | inl Panicked => fail Panicked
  | inl _ =>
      let _ := verifyPassword password dummyHash in
      rejected "" (StorageError ErrLocalAuthenticationFailed)
  | inr stored =>
      if negb (verifyPassword password (pw_PasswordHash stored))
      then rejected (pw_IdentityID stored) (StorageError ErrLocalAuthenticationFailed)
      else if negb (pw_Enabled stored) then rejected (pw_IdentityID stored) (StorageError ErrDisabled)
      else
        user ← try (local_user stored);
        match user with inl Panicked => fail Panicked | inl e => rejected (pw_IdentityID stored) e | inr user => mret user end
  end.

Fixpoint list_users (identities : list StoredIdentity) : M (E:=E) (list User) :=
  match identities with
  | [] => mret []
  | identity :: rest =>
      r ← try (GetPasswordByIdentity (id_ID identity));
      match r with
      | inl e => if storage_Is e ErrNotFound then list_users rest else fail e
      | inr credential => users ← list_users rest; mret (toUser identity credential :: users)
      end
  end.

(** At most 100 accounts are listed. *)
Definition users_List `{SqlText} : M (E:=E) (list User) :=
  identities ← Identity_List (mkIdentityListFilter "human" "" "" None 100); list_users identities.

Definition users_Get (identityID : string) : M (E:=E) User :=
  stored ← GetPasswordByIdentity identityID; local_user stored.

(** [service_mutation.go] *)
Definition SetEnabled (identityID : string) (enabled : bool) : M (E:=E) unit :=
  now ← time_Now;
  in_transaction store
    (_ ← SetPasswordEnabled identityID enabled now;
     if negb enabled then _ ← OAuth_RevokeIdentity identityID now; mret tt else mret tt).

Definition SetPassword (salt : option bytes) (identityID : string) (password : bytes) : M (E:=E) unit :=
  if negb (password_length_ok password) then fail (StorageError ErrInvalidInput)
  else
    hash ← lift (hashPassword password salt);
    now ← time_Now;
    in_transaction store
      (_ ← UpdatePassword identityID hash now;
       _ ← OAuth_RevokeIdentity identityID now;
       mret tt).
End users.

(** * The first administrator ([internal/controlplane/admin/bootstrap])

    An empty system gets its first account either at start-up or from whoever
    presents the one bootstrap token. *)


Definition TokenLifetime : Duration := 24 * Hour.

Definition ErrAlreadyCompleted : error := NewError "iam bootstrap has already completed".
Definition ErrInvalidToken : error := NewError "iam bootstrap token is invalid or expired".
Definition ErrInvalidRequest : error := NewError "iam bootstrap request is invalid".

Record CompleteRequest := mkCompleteRequest {
  cm_Token : string;
  cm_Username : string;
  cm_Password : bytes;
  cm_DisplayName : string;
  cm_Email : string;
  cm_RequestID : string
}.

Section bootstrap.
Context {E : Type} `{Engine E} `{UuidPackage} `{UnicodePackage} `{SqlText} `{HashPackage} `{Argon2Package} `{JsonValidity}.
Context `{JsonCodec localMetadata} (store : Store).

(** The request's token is not used here. *)
Definition createInitialGraph (salt : option bytes) (request : CompleteRequest) (auditAction : string) (now : time) : M (E:=E) User :=
  identity ← CreateWithRepositories salt
    (mkCreateRequest (cm_Username request) (cm_Password request) (cm_DisplayName request) (cm_Email request));
  eventID ← uuid_NewString;
  _ ← Audit_Append (mkAuditEvent eventID (us_IdentityID identity) auditAction "identity" (us_IdentityID identity) "success"
                      (cm_RequestID request) (json_Marshal (mkLocalMetadata "local")) now);
  mret identity.

(** The token in the clear, empty unless this call created it, and when it expires.
    [value] is what the random source gives. *)
Definition EnsureToken (value : option bytes) : M (E:=E) (string * time) :=
  r ← try Bootstrap_Get;
  match r with
  | inr stored => mret ("", bt_ExpiresAt stored)
  | inl e =>
      if negb (storage_Is e ErrNotFound) then fail e
      else match value with
      | None => fail (StorageError (NewError "generate IAM bootstrap token"))
      | Some value =>
          let plain := b64_EncodeToString value in
          now ← time_Now;
          let token := mkBootstrapToken (digest plain) now (now + TokenLifetime) None in
          r ← try (Bootstrap_Create token);
          match r with
          | inr _ => mret (plain, bt_ExpiresAt token)
          | inl e => if storage_Is e ErrConflict then stored ← Bootstrap_Get; mret ("", bt_ExpiresAt stored) else fail e
          end
      end
  end.

Definition complete_callback (salts : nat -> option bytes) (request : CompleteRequest) (hash : bytes) (now : time)
    : Closure (E:=E) (nat * User) := fun c w =>
  match Bootstrap_Consume hash now w with
  | (inl e, w') => ((Some (if storage_Is e ErrNotFound then StorageError ErrInvalidToken else e), c), w')
  | (inr _, w') =>
      assigning zero_User (fun n => createInitialGraph (salts n) request "iam.bootstrap.complete" now) c w'
  end.

Definition Complete (salts : nat -> option bytes) (request : CompleteRequest) : M (E:=E) (User * option storage_error) :=
  let request := mkCompleteRequest (TrimSpace (cm_Token request)) (cm_Username request) (cm_Password request)
                   (cm_DisplayName request) (cm_Email request) (TrimSpace (cm_RequestID request)) in
  if bool_decide (cm_Token request = "") || negb (valid_uuid (cm_RequestID request) "") then fail (StorageError ErrInvalidRequest)
  else
    now ← time_Now;
    r ← run_transaction store (complete_callback salts request (digest (cm_Token request)) now) (O, zero_User);
    match r with (Some Panicked, _) => fail Panicked | (e, (_, user)) => mret (user, e) end.

(** ** At start-up *)

(** The variables the callback captures. *)
Record default_captured := mkDefaultCaptured { dc_attempt : nat; dc_result : User; dc_created : bool }.

(** Before the account is made: [inr false] when there is nothing to do. *)
Definition default_checks : M (E:=E) (time * bool) :=
  now ← time_Now;
  identities ← Identity_List (mkIdentityListFilter "" "" "" None 1);
  if negb (bool_decide (length identities = O)) then mret (now, false)
  else
    r ← try Bootstrap_Get;
    match r with
    | inr stored =>
        if bool_decide (is_Some (bt_ConsumedAt stored)) then fail (StorageError ErrAlreadyCompleted)
        else _ ← Bootstrap_Consume (bt_TokenHash stored) now; mret (now, true)
    | inl e => if storage_Is e ErrNotFound then mret (now, true) else fail e
    end.

Definition default_callback (salts : nat -> option bytes) (request : CompleteRequest) : Closure (E:=E) default_captured := fun c w =>
  match default_checks w with
  | (inl e, w1) => ((Some e, c), w1)
  | (inr (_, false), w1) => ((None, c), w1)
  | (inr (now, true), w1) =>
      match createInitialGraph (salts (dc_attempt c)) request "iam.bootstrap.default.complete" now w1 with
      | (inl e, w2) => ((Some e, mkDefaultCaptured (S (dc_attempt c)) zero_User false), w2)
      | (inr user, w2) => ((None, mkDefaultCaptured (S (dc_attempt c)) user true), w2)
      end
  end.

(** The account, its password if it was generated, and whether it was created.
    [passwordBytes] is what the random source gives for a password; the request's
    token is not used. *)
Definition CompleteDefault (passwordBytes : option bytes) (salts : nat -> option bytes) (request : CompleteRequest)
    : M (E:=E) (User * bytes * bool) :=
  let requestID := TrimSpace (cm_RequestID request) in
  if negb (valid_uuid requestID "") then fail (StorageError ErrInvalidRequest)
  else
    let generated := len (cm_Password request) =? 0 in
    password ← lift (if generated
                     then match passwordBytes with
                          | Some raw => Ok (b64_encode_bytes raw)
                          | None => Err (NewError "generate initial administrator password")
                          end
                     else Ok (cm_Password request));
    let request := mkCompleteRequest (cm_Token request) (cm_Username request) password (cm_DisplayName request)
                     (cm_Email request) requestID in
    r ← run_transaction store (default_callback salts request) (mkDefaultCaptured O zero_User false);
    match r with
    | (Some e, _) => fail e
    | (None, c) =>
        if negb (dc_created c) then mret (zero_User, [], false)
        else mret (dc_result c, (if generated then password else []), true)
    end.
End bootstrap.
