(* ===== verification/StorageCleanup.v ===== *)
(** * Resource snapshots and the clean-up of sessions
    ([storage/resource_snapshots.go], [session_cleanup.go])

    A snapshot keeps a resource of the cluster as it was before a task changed it;
    a session is not cleaned up while a task of it still has one. *)

From S2P Require Import Prelude GoLib GoText GoSort External RemoteTask StorageEngine SessionStore TaskStore.
From S2P Require Import IdentityStore OAuthClientStore.
From S2P Require Import OAuthGrantStore.

Section snapshots.
Context {E : Type} `{Engine E} `{UuidPackage} `{JsonValidity}.

Definition normalizeResourceSnapshot (s : ResourceSnapshot) : M (E:=E) ResourceSnapshot :=
  _ ← lift (validateUUID (rs_ID s) "resource snapshot ID");
  _ ← lift (validateUUID (rs_TaskID s) "task ID");
  let kind := TrimSpace (rs_Kind s) in
  let namespace := TrimSpace (rs_Namespace s) in
  let name := TrimSpace (rs_Name s) in
  _ ← checked (negb (bool_decide (kind = "") || bool_decide (name = ""))) "resource snapshot kind and name are required";
  data ← lift (normalizeJSON (rs_Data s) true "resource snapshot data");
  createdAt ← (if IsZero (rs_CreatedAt s) then time_Now else mret (rs_CreatedAt s));
  mret (mkResourceSnapshot (rs_ID s) (rs_TaskID s) kind namespace name data createdAt).

Definition snapshot_key (s : ResourceSnapshot) : string * string * string * string :=
  (rs_TaskID s, rs_Kind s, rs_Namespace s, rs_Name s).

Definition replaced_snapshot (s row : ResourceSnapshot) : ResourceSnapshot :=
  mkResourceSnapshot (rs_ID row) (rs_TaskID row) (rs_Kind row) (rs_Namespace row) (rs_Name row) (rs_Data s) (rs_CreatedAt s).

(** A resource of a task has one row.  An identifier that another row has is a
    conflict, except that MySQL takes the row with the identifier for the one to
    update. *)
Definition upsert_snapshot (s : ResourceSnapshot) (db : Database) : driver_error + unit * Database :=
  let d := directory db in
  let put row := inr (tt, set_directory db (set_snapshots (<[snapshot_key row := row]> (resource_snapshots d)) d)) in
  let same_id := head (List.filter (fun r => bool_decide (rs_ID r = rs_ID s)) (map snd (map_to_list (resource_snapshots d)))) in
  if negb (references (tasks db) (rs_TaskID s)) then inl constraint_error
  else match resource_snapshots d !! snapshot_key s, same_id with
       | Some row, None => put (replaced_snapshot s row)
       | Some row, Some row' => put (replaced_snapshot s (if bool_decide (engine_backend = BackendMySQL) then row' else row))
       | None, Some row' => if bool_decide (engine_backend = BackendMySQL) then put (replaced_snapshot s row') else inl constraint_error
       | None, None => put s
       end.

Definition Snapshot_Put (s : ResourceSnapshot) : M (E:=E) unit :=
  s ← normalizeResourceSnapshot s;
  statement mapWriteError (upsert_snapshot (mkResourceSnapshot (rs_ID s) (rs_TaskID s) (rs_Kind s) (rs_Namespace s) (rs_Name s)
    (stored_json (rs_Data s)) (rs_CreatedAt s))).

(** [ORDER BY kind, namespace, name] *)
Definition snapshot_order (a b : ResourceSnapshot) : Z :=
  lex_cmp (fun a b => compareString (rs_Kind a) (rs_Kind b))
    (lex_cmp (fun a b => compareString (rs_Namespace a) (rs_Namespace b)) (fun a b => compareString (rs_Name a) (rs_Name b))) a b.

Definition of_task (taskID : string) (s : ResourceSnapshot) : bool := bool_decide (rs_TaskID s = taskID).

Definition Snapshot_ListByTask (taskID : string) : M (E:=E) (list ResourceSnapshot) :=
  _ ← lift (validateUUID taskID "task ID");
  read_directory "list resource snapshots" (fun d =>
    SortFunc snapshot_order (List.filter (of_task taskID) (map snd (map_to_list (resource_snapshots d))))).

Definition Snapshot_DeleteByTask (taskID : string) : M (E:=E) Z :=
  _ ← lift (validateUUID taskID "task ID");
  statement (databaseError "delete resource snapshots") (on_directory (fun d =>
    inr (rows_where (of_task taskID) (resource_snapshots d), set_snapshots (delete_where (of_task taskID) (resource_snapshots d)) d))).

(** ** Sessions that have expired ([session_cleanup.go]) *)

(** [NOT EXISTS (SELECT 1 FROM tasks AS t INNER JOIN resource_snapshots AS r ...)]
    negated: a task of the session still has a snapshot. *)
Definition held (db : Database) (s : Session) : bool :=
  existsb (fun t => bool_decide (t_SessionID t = s_ID s) &&
                    existsb (fun r => bool_decide (rs_TaskID r = t_ID t)) (map snd (map_to_list (resource_snapshots (directory db)))))
    (map snd (map_to_list (tasks db))).

Definition ended_session (before : time) (db : Database) (s : Session) : bool := (s_ExpiresAt s <? before) && negb (held db s).

(** [ORDER BY s.expires_at], and by the identifier on MySQL. *)
Definition oldest_first (s t : Session) : Z :=
  lex_cmp (fun s t => s_ExpiresAt s - s_ExpiresAt t)
    (fun s t => if bool_decide (engine_backend = BackendMySQL) then compareString (s_ID s) (s_ID t) else 0) s t.

Definition ended_sessions (before : time) (limit : Z) (db : Database) : list Session :=
  take (Z.to_nat limit) (SortFunc oldest_first (List.filter (ended_session before db) (map snd (map_to_list (sessions db))))).

(** A session is deleted with its tasks, and these with their snapshots. *)
Definition delete_session (id : string) (db : Database) : Database :=
  let gone t := bool_decide (t_SessionID t = id) in
  let orphan r := match tasks db !! rs_TaskID r with Some t => gone t | None => false end in
  set_directory (set_tasks (set_sessions db (delete id (sessions db))) (delete_where gone (tasks db)))
    (set_snapshots (delete_where orphan (resource_snapshots (directory db))) (directory db)).

Definition delete_ended_sessions (before : time) (limit : Z) (db : Database) : driver_error + Z * Database :=
  let ended := ended_sessions before limit db in
  inr (len ended, foldl (fun db s => delete_session (s_ID s) db) db ended).

(** A transaction of its own, with no retries. *)
Definition own_transaction {A} (begin_message commit_message : string) (m : M (E:=E) A) : M A := fun w =>
  let w := interfere w in
  match engine_Begin (w_engine w) with
  | (Some d, e) => (inl (databaseError begin_message d), mkWorld (w_db w) e (w_tx w))
  | (None, e) =>
      match m (mkWorld (w_db w) e true) with
      | (inl err, w') => (inl err, mkWorld (w_db w) (w_engine w') (w_tx w))
      | (inr a, w') =>
          match engine_Commit (w_engine w') with
          | (None, e) => (inr a, mkWorld (w_db w') e (w_tx w))
          | (Some failed, e) =>
              (inl (databaseError commit_message (fault_error failed)),
               mkWorld (if fault_applied failed then w_db w' else w_db w) e (w_tx w))
          end
      end
  end.

Definition delete_tasks_of (id : string) (db : Database) : driver_error + unit * Database :=
  inr (tt, set_tasks db (delete_where (fun t => bool_decide (t_SessionID t = id)) (tasks db))).

Definition delete_session_row (id : string) (db : Database) : driver_error + Z * Database :=
  inr ((if bool_decide (is_Some (sessions db !! id)) then 1 else 0), set_sessions db (delete id (sessions db))).

Fixpoint delete_each (deleted : Z) (ids : list string) : M (E:=E) Z :=
  match ids with
  | [] => mret deleted
  | id :: rest =>
      _ ← statement (databaseError "delete expired Session Tasks") (delete_tasks_of id);
      count ← statement (databaseError "delete expired Session") (delete_session_row id);
      delete_each (deleted + (count : Z)) rest
  end.

Definition deleteExpiredMySQL (before : time) (limit : Z) : M (E:=E) Z :=
  own_transaction "begin expired Session cleanup" "commit expired Session cleanup"
    (ended ← statement (databaseError "select expired Sessions") (fun db => inr (ended_sessions before limit db, db));
     delete_each 0 (map s_ID ended)).

Definition Session_DeleteExpired (before : time) (limit : Z) : M (E:=E) Z :=
  limit ← lift (boundedLimit limit);
  if bool_decide (engine_backend = BackendMySQL) then deleteExpiredMySQL before limit
  else statement (databaseError "delete expired sessions") (delete_ended_sessions before limit).
End snapshots.

(** * Clean-up of expired records ([internal/controlplane/maintenance/worker.go]) *)


Definition DefaultInterval : Duration := Minute.
Definition DefaultTimeout : Duration := 10 * Second.
Definition DefaultBatchSize : Z := 100.

Record MaintenanceConfig := mkMaintenanceConfig { mc_Interval : Duration; mc_Timeout : Duration; mc_BatchSize : Z }.

Record Report := mkReport {
  rp_Sessions : Z;
  rp_AdminSessions : Z;
  rp_OAuthSessions : Z;
  rp_OAuthAuthorizations : Z;
  rp_OAuthBrowserSessions : Z;
  rp_Idempotency : Z
}.

Definition Total (r : Report) : Z :=
  rp_Sessions r + rp_AdminSessions r + rp_OAuthSessions r + rp_OAuthAuthorizations r + rp_OAuthBrowserSessions r + rp_Idempotency r.

(** [New]: the defaults and the checks. *)
Definition maintenance_New (c : MaintenanceConfig) : result MaintenanceConfig :=
  let interval := if mc_Interval c =? 0 then DefaultInterval else mc_Interval c in
  let timeout := if mc_Timeout c =? 0 then DefaultTimeout else mc_Timeout c in
  let batch := if mc_BatchSize c =? 0 then DefaultBatchSize else mc_BatchSize c in
  _ ← require (negb ((interval <? 10 * Millisecond) || (24 * Hour <? interval)))
        (NewError "control plane maintenance interval must be between 10ms and 24h");
  _ ← require (negb ((timeout <=? 0) || (Minute <? timeout)))
        (NewError "control plane maintenance timeout must be between 1ns and 1m");
  _ ← require (negb ((batch <=? 0) || (1000 <? batch)))
        (NewError "control plane maintenance batch size must be between 1 and 1000");
  Ok (mkMaintenanceConfig interval timeout batch).

Section worker.
Context {E : Type} `{Engine E} `{UuidPackage}.

(** One clean-up of the pass: its count, 0 after an error, and the errors so far. *)
Definition clean (what : string) (m : M (E:=E) Z) (errors : list (string * storage_error)) : M (E:=E) (Z * list (string * storage_error)) :=
  r ← try m;
  match r with
  | inl Panicked => fail Panicked
  | inl e => mret (0, errors ++ [(what, e)])
  | inr count => mret (count, errors)
  end.

(** A pass goes on after an error; the errors are joined. *)
Definition RunOnce (batchSize : Z) : M (E:=E) (Report * list (string * storage_error)) :=
  before ← time_Now;
  '(authorizations, errors) ← clean "clean expired OAuth authorization requests" (Request_DeleteExpired before batchSize) [];
  '(admin, errors) ← clean "clean expired Management Sessions" (Admin_DeleteExpired before batchSize) errors;
  '(idempotency, errors) ← clean "clean expired idempotency records" (Idempotency_DeleteExpired before batchSize) errors;
  '(sessions, errors) ← clean "clean expired Sessions and Tasks" (Session_DeleteExpired before batchSize) errors;
  '(oauth, errors) ← clean "clean expired OAuth sessions" (OAuth_DeleteExpired before batchSize) errors;
  '(browsers, errors) ← clean "clean expired OAuth browser sessions" (Browser_DeleteExpired before batchSize) errors;
  mret (mkReport sessions admin oauth authorizations browsers idempotency, errors).
End worker.
