(* ===== verification/StorageTransactions.v ===== *)
(** * Reasoning inside a transaction

    In a transaction nobody else acts, so a computation leads from the tables it
    finds to tables that can be described exactly: [within P m Q].  A transaction
    whose callback is so described is a step of the protocol. *)

From S2P Require Import Prelude GoLib StorageEngine StorageFacts.
From S2P Require Import External RemoteTask SessionStore TaskStore IdentityStore OAuthClientStore AdminSessionService TaskStoreFacts.

Section within.
Context {E : Type} `{EN : Engine E}.
Implicit Types (w : World E) (db : Database) (P : Database -> Prop).

Definition within {A} P (m : M (E:=E) A) (Q : A -> Database -> Prop) : Prop :=
  forall w r w', m w = (r, w') -> w_tx w = true -> P (w_db w) -> w_tx w' = true /\ forall a, r = inr a -> Q a (w_db w').

Lemma within_conseq {A} P P' (m : M (E:=E) A) (Q Q' : A -> Database -> Prop) :
  within P' m Q' -> (forall db, P db -> P' db) -> (forall a db, Q' a db -> Q a db) -> within P m Q.
Proof. intros Hm HP HQ w r w' Hr Hw Hp. destruct (Hm w r w' Hr Hw (HP _ Hp)) as [Hw' Hq]. split; [done|]. intros a Ha. by apply HQ, Hq. Qed.

Lemma within_ret {A} (a : A) (Q : A -> Database -> Prop) : within (Q a) (mret a) Q.
Proof. intros w r w' [= <- <-] Hw Hp. split; [done|]. by intros b [= <-]. Qed.

Lemma within_fail {A} P e (Q : A -> Database -> Prop) : within P (fail e) Q.
Proof. intros w r w' [= <- <-] Hw Hp. by split. Qed.

Lemma within_bind {A B} P (m : M (E:=E) A) (f : A -> M B) (Q : A -> Database -> Prop) (S : B -> Database -> Prop) :
  within P m Q -> (forall a, within (Q a) (f a) S) -> within P (x ← m; f x) S.
Proof.
  intros Hm Hf w r w' Hr Hw Hp. unfold mbind, M_bind in Hr. destruct (m w) as [[e|a] w1] eqn:Em;
    destruct (Hm w _ w1 Em Hw Hp) as (Hw1 & Hq).
  - injection Hr as <- <-. by split.
  - by apply (Hf a w1 r w' Hr Hw1 (Hq a eq_refl)).
Qed.

Lemma within_pure {A} (phi : Prop) P (m : M (E:=E) A) Q : (phi -> within P m Q) -> within (fun db => P db /\ phi) m Q.
Proof. intros Hm w r w' Hr Hw [Hp Hphi]. by apply (Hm Hphi w r w'). Qed.

(** What is not needed of the tables. *)
Lemma within_weaken {A} P (X : Database -> Prop) (m : M (E:=E) A) Q : within P m Q -> within (fun db => P db /\ X db) m Q.
Proof. intros Hm. apply (within_conseq _ P _ _ Q); [done| |done]. by intros db []. Qed.

Lemma within_lift {A} P (r : result A) : within P (lift r) (fun a db => P db /\ r = Ok a).
Proof. intros w r' w' Hr Hw Hp. unfold lift in Hr. destruct r as [a|e]; injection Hr as <- <-; (split; [done|]); [by intros b [= <-]|done]. Qed.

Lemma within_checked P cond message : within P (checked cond message) (fun _ db => P db /\ cond = true).
Proof. eapply within_conseq; [apply within_lift|done|]. intros u db [Hp Hr]. by apply require_ok in Hr. Qed.

(** The outcome of a computation as a value; after an error the tables are not
    known. *)
Lemma within_try {A} P (m : M (E:=E) A) (Q : A -> Database -> Prop) :
  within P m Q -> within P (try m) (fun r db => forall a, r = inr a -> Q a db).
Proof.
  intros Hm w r w' Hr Hw Hp. unfold try in Hr. destruct (m w) as [r1 w1] eqn:Em. destruct (Hm w r1 w1 Em Hw Hp) as (Hw1 & Hq).
  injection Hr as <- <-. split; [done|]. by intros r' [= <-].
Qed.

Lemma within_or_fail {A} P e (m : M (E:=E) A) Q : within P m Q -> within P (or_fail e m) Q.
Proof.
  intros Hm. unfold or_fail. eapply within_bind; [by apply within_try|]. intros [[]|a]; try apply within_fail.
  eapply within_conseq; [apply within_ret|intros db Hq; by apply Hq|done].
Qed.

Lemma within_uuid P : within P uuid_NewString (fun _ => P).
Proof. intros w r w' Hr Hw Hp. unfold uuid_NewString in Hr. destruct (engine_NewUUID _). injection Hr as <- <-. by split. Qed.

Lemma within_now P : within P time_Now (fun _ => P).
Proof. intros w r w' Hr Hw Hp. unfold time_Now in Hr. destruct (engine_Now _). injection Hr as <- <-. by split. Qed.

Lemma within_statement {A} P wrap (f : Database -> driver_error + A * Database) (Q : A -> Database -> Prop) :
  (forall db a db', P db -> f db = inr (a, db') -> Q a db') -> within P (statement wrap f) Q.
Proof.
  intros HQ w r w' Hs Hw Hp. destruct (statement_spec _ _ _ _ _ Hs) as (Hw' & db & Hb & Hf). unfold before_statement in Hb.
  rewrite Hw in *. subst db. split; [done|]. intros a ->. by apply (HQ (w_db w)).
Qed.

(** The error of a statement is what the driver reports, wrapped. *)
Lemma statement_error {A} wrap (f : Database -> driver_error + A * Database) w e w' :
  statement wrap f w = (inl e, w') -> exists d, e = wrap d.
Proof.
  unfold statement. cbv zeta. destruct (engine_Statement _) as [[failed|] en], (f _) as [d|[a db]]; intros [= <- _]; by eexists.
Qed.

Lemma within_directory {A} P wrap (f : Directory -> driver_error + A * Directory) (Q : A -> Database -> Prop) :
  (forall db a d, P db -> f (directory db) = inr (a, d) -> Q a (set_directory db d)) -> within P (statement wrap (on_directory f)) Q.
Proof.
  intros HQ. apply within_statement. intros db a db' Hp Hf. unfold on_directory in Hf.
  destruct (f (directory db)) as [e|[b d]] eqn:Ef; [discriminate|]. injection Hf as -> <-. by apply (HQ db).
Qed.

Lemma within_read {A} P message (f : Directory -> A) : within P (read_directory message f) (fun a db => P db /\ a = f (directory db)).
Proof. apply within_statement. intros db a db' Hp [= <- <-]. done. Qed.

Lemma within_read_eq {A} db message (f : Directory -> A) : within (eq db) (read_directory message f) (fun a db' => eq db db' /\ a = f (directory db)).
Proof. apply (within_conseq _ (eq db) _ _ _ (within_read (eq db) message f)); [done|]. by intros a db' [<- ->]. Qed.

Lemma within_found {A} P (row : option A) : within P (found row) (fun a db => P db /\ row = Some a).
Proof.
  destruct row as [a|]; [|apply within_fail].
  eapply within_conseq; [apply (within_ret a (fun b db => P db /\ Some a = Some b))|by intros db Hp|done].
Qed.

Lemma within_expect_one P count : within P (expect_one count) (fun _ db => P db /\ count = 1).
Proof.
  unfold expect_one. destruct (Z.eqb_spec count 1) as [->|_]; [|apply within_fail].
  eapply within_conseq; [apply (within_ret tt (fun _ db => P db /\ 1 = 1))|by intros db Hp|done].
Qed.

Lemma within_return {A} P (a : A) : within P (mret a) (fun b db => P db /\ b = a).
Proof. eapply within_conseq; [apply (within_ret a (fun b db => P db /\ b = a))|by intros db Hp|done]. Qed.

(** A value that does not matter. *)
Lemma within_value {A} P (a : A) : within P (mret a) (fun _ => P).
Proof. apply (within_ret a (fun _ => P)). Qed.

Lemma within_or_now P t : within P (if IsZero t then time_Now else mret t) (fun _ => P).
Proof. destruct (IsZero t); [apply within_now|]. apply within_value. Qed.

(** A computation that only reads. *)
Lemma within_Identity_GetByID `{UP : UuidPackage} P id :
  within P (Identity_GetByID id) (fun i db => P db /\ identities db !! id = Some i).
Proof.
  unfold Identity_GetByID. eapply within_bind; [apply within_lift|]. intros u. apply within_weaken. eapply within_bind.
  - apply (within_statement P _ _ (fun row db => P db /\ row = identities db !! id)). intros db a db' Hp [= <- <-]. done.
  - intros row. eapply within_conseq; [apply within_found|intros db Hp; exact Hp|]. cbn. intros i db [[Hp Hrow] ->]. by split.
Qed.

Lemma within_audit `{UP : UuidPackage} `{JV : JsonValidity} P ev :
  within P (Audit_Append ev) (fun _ db => exists db0 events, P db0 /\ db = set_audit db0 events).
Proof.
  unfold Audit_Append. eapply within_bind with (Q := fun _ => P).
  - unfold normalizeAuditEvent. do 2 (eapply within_bind; [apply within_lift|]; intros ?; apply within_weaken).
    cbn zeta. do 2 (eapply within_bind; [apply within_lift|]; intros ?; apply within_weaken).
    eapply within_bind; [apply within_or_now|]. intros at_. apply within_value.
  - intros ev'. apply within_statement. intros db a db' Hp Hf. unfold insert_audit in Hf. destruct (_ || _); [discriminate|].
    injection Hf as _ <-. by exists db; eexists.
Qed.
End within.

(** ** Transactions *)

Section transactions.
Context {E : Type} `{EN : Engine E} (p : Protocol E).

(** A callback that assigns captured variables, as a computation: it fails when the
    computation fails, with variables that still satisfy [J]. *)
Definition computes {C A} (J : C -> Prop) (function : Closure (E:=E) C) (m : C -> M (E:=E) A) (returns : C -> A -> C) : Prop :=
  forall c w, match m c w with
  | (inl e, w') => exists e' c', function c w = ((Some e', c'), w') /\ (J c -> J c')
  | (inr a, w') => function c w = ((None, returns c a), w')
  end.

Lemma proves_closure {C A} P store (function : Closure (E:=E) C) (m : C -> M (E:=E) A) (returns : C -> A -> C) (c : C) (J : C -> Prop)
    (Q : C -> Database -> Prop) :
  stable p P -> computes J function m returns -> J c ->
  (forall c db, p_inv p db -> P db -> J c ->
     within (eq db) (m c) (fun a db' => rtc (p_step p) db db' /\ Q (returns c a) db' /\ J (returns c a))) ->
  triple p P (run_transaction store function c) (fun r db => r.1 = None -> Q r.2 db).
Proof.
  intros Hst Hfun HJ Hm. apply (proves_run_transaction p P store function c (fun c db => P db /\ J c) Q).
  - intros c' db db' Hi Hs [Hp Hj]. split; [by apply (Hst db)|done].
  - by intros db _ Hp.
  - intros c' w Hw Hi [Hp Hj]. specialize (Hfun c' w). destruct (m c' w) as [[e|a] w'] eqn:Em;
      destruct (Hm c' (w_db w) Hi Hp Hj w _ w' Em Hw eq_refl) as [Hw' Hq].
    + destruct Hfun as (e' & c'' & -> & Hj'). cbn. split; [done|]. split; [split; [done|by apply Hj']|done].
    + rewrite Hfun. cbn. destruct (Hq a eq_refl) as (Hs & HQ & Hj'). split; [done|]. split; [by split|]. intros _. split; [done|].
      split; [done|]. split; [|done]. by apply (stable_steps p P (w_db w)).
Qed.

Lemma proves_transaction P store (m : M (E:=E) unit) (Q : Database -> Prop) :
  stable p P ->
  (forall db, p_inv p db -> P db -> within (eq db) m (fun _ db' => rtc (p_step p) db db' /\ Q db')) ->
  triple p P (in_transaction store m) (fun _ => Q).
Proof.
  intros Hst Hm. unfold in_transaction. apply (proves_bind (fun r db => r.1 = None -> Q db)).
  - apply (proves_closure P store (closure m) (fun _ => m) (fun c _ => c) tt (fun _ => True) (fun _ => Q)); try done.
    + intros [] w. unfold closure. destruct (m w) as [[e|[]] w']; [|done]. by exists e, tt.
    + intros [] db Hi Hp _. eapply within_conseq; [by apply Hm|done|]. by intros u db' [? ?].
  - intros [[e|] []]; [apply proves_fail|]. apply (proves_conseq Q (fun _ => Q)); [apply (proves_ret p tt (fun _ => Q))| |done].
    intros db _ Hq. by apply Hq.
Qed.
End transactions.
