(* ===== verification/AuthFacts.v ===== *)
(** * Grants and what depends on them

    What the clients of the database do to the codes and tokens of logins and to
    the sessions of the management interface, and what the operations on them
    establish: a code or token is spent once, and a grant that was revoked stays
    revoked and opens nothing. *)

From S2P Require Import Prelude GoLib GoText GoSort External RemoteTask StorageEngine Netip NetworkSpec SessionStore TaskStore.
From S2P Require Import StorageFacts TaskAPI StoragePages IdentityStore.
From S2P Require Import OAuthClientStore OAuthGrantStore AdminSessionService GoContext StreamLease.

Abbreviation tokens db := (oauth_sessions (directory db)).
Abbreviation admins db := (admin_sessions (directory db)).
Abbreviation Tokens := (gmap (string * bytes) OAuthSession).
Abbreviation Admins := (gmap bytes AdminSession).

(** ** Statements on tables *)

Section maps.
Context {K A : Type} `{Countable K}.
Implicit Types (m : gmap K A) (p : A -> bool) (f : A -> A).

Lemma lookup_where_Some k p m a : lookup_where k p m = Some a <-> m !! k = Some a /\ p a = true.
Proof.
  unfold lookup_where. destruct (m !! k) as [b|]; [|by split; [|intros [? _]]]. destruct (p b) eqn:Hp; split.
  - by intros [= ->].
  - by intros [[= ->] _].
  - done.
  - intros [[= ->] ?]. congruence.
Qed.

Lemma lookup_update_where p f m k : update_where p f m !! k = (fun a => if p a then f a else a) <$> m !! k.
Proof. apply lookup_fmap. Qed.

Lemma lookup_delete_where p m k a : delete_where p m !! k = Some a <-> m !! k = Some a /\ p a = false.
Proof. unfold delete_where. by rewrite map_lookup_filter_Some. Qed.

Lemma rows_where_pos p m : 0 < rows_where p m <-> exists k a, m !! k = Some a /\ p a = true.
Proof.
  unfold rows_where. split.
  - destruct (List.filter p _) as [|a l] eqn:El; [by cbn|]. intros _.
    assert (Ha : In a (List.filter p (map snd (map_to_list m)))) by (rewrite El; by left).
    apply filter_In in Ha as [Ha Hp]. apply in_map_iff in Ha as ([k b] & Hb & Hin). cbn in Hb. subst b. exists k, a.
    split; [|done]. apply elem_of_map_to_list. by apply list_elem_of_In.
  - intros (k & a & Hk & Hp). assert (Ha : In a (List.filter p (map snd (map_to_list m)))).
    { apply filter_In. split; [|done]. apply in_map_iff. exists (k, a). split; [done|]. apply list_elem_of_In.
      by apply elem_of_map_to_list. }
    destruct (List.filter p _) as [|b l]; [done|]. unfold len. cbn. lia.
Qed.

Lemma lookup_update_row k p f m k' a :
  (update_row k p f m).2 !! k' = Some a -> m !! k' = Some a \/ exists b, m !! k' = Some b /\ p b = true /\ a = f b /\ k' = k.
Proof.
  unfold update_row. destruct (lookup_where k p m) as [b|] eqn:Eb; cbn [snd]; [|by left].
  apply lookup_where_Some in Eb as [Hb Hp]. intros [[<- <-]|[Hne Hk]]%lookup_insert_Some; [|by left].
  right. by exists b.
Qed.
End maps.

(** ** What happens to the codes and tokens *)

Section steps.
Context (rid : string) (code : string * bytes).

(** A code or token of the grant can still be used. *)
Definition live_grant (m : Tokens) : Prop := exists k s, m !! k = Some s /\ o_RequestID s = rid /\ o_Status s = statusActive.

(** The statements of the repository that create nothing. *)
Inductive token_op (m : Tokens) : Tokens -> Prop :=
| op_consume k now : token_op m (update_row k (live_session now) consumed_session m).2
| op_delete k : token_op m (delete k m)
| op_revoke p now : token_op m (revoke_where p now m)
| op_expire now : token_op m (delete_where (fun s => o_ExpiresAt s <=? now) m).

(** A new row; no two codes or tokens have the same signature, so its key is not
    the one that is followed. *)
Inductive token_new (m : Tokens) : Tokens -> Prop :=
| new_token s : (o_Kind s, o_SignatureHash s) <> code -> m !! (o_Kind s, o_SignatureHash s) = None ->
    token_new m (<[(o_Kind s, o_SignatureHash s) := s]> m).

(** A login creates codes and tokens under a request identifier of its own.  The
    token endpoint creates tokens under that of a grant it finds live, in the same
    transaction. *)
Inductive tokens_change (m m' : Tokens) : Prop :=
| tokens_op : token_op m m' -> tokens_change m m'
| tokens_login s : o_RequestID s <> rid -> (o_Kind s, o_SignatureHash s) <> code -> m !! (o_Kind s, o_SignatureHash s) = None ->
    m' = <[(o_Kind s, o_SignatureHash s) := s]> m -> tokens_change m m'
| tokens_grant : live_grant m -> rtc (fun x y => token_op x y \/ token_new x y) m m' -> tokens_change m m'.

(** What happens to the management sessions: they are created in a transaction that
    finds the grant live. *)
Inductive admins_change (m : Tokens) (a : Admins) : Admins -> Prop :=
| admins_update k p f : (forall s, ad_AuthorizationID (f s) = ad_AuthorizationID s /\ (is_Some (ad_RevokedAt s) -> is_Some (ad_RevokedAt (f s)))) ->
    admins_change m a (match lookup_where k p a with Some s => <[k := f s]> a | None => a end)
| admins_revoke auth now : admins_change m a (update_where (fun s => bool_decide (ad_AuthorizationID s = auth)) (revoked_since now) a)
| admins_delete l : admins_change m a (foldr (fun s b => delete (ad_IDHash s) b) a l)
| admins_create s : (ad_AuthorizationID s = rid -> live_grant m) -> admins_change m a (<[ad_IDHash s := s]> a).

Inductive auth_step (db db' : Database) : Prop :=
| auth_tokens : tokens_change (tokens db) (tokens db') -> admins db' = admins db -> auth_step db db'
| auth_admins : tokens db' = tokens db -> admins_change (tokens db) (admins db) (admins db') -> auth_step db db'
| auth_rest : tokens db' = tokens db -> admins db' = admins db -> auth_step db db'.

(** *** What the steps preserve *)

Definition spent (m : Tokens) : Prop := forall s, m !! code = Some s -> o_Status s <> statusActive.

Definition all_revoked (a : Admins) : Prop := forall k s, a !! k = Some s -> ad_AuthorizationID s = rid -> is_Some (ad_RevokedAt s).

(** The grant is over, and so are the management sessions that came from it. *)
Definition over (db : Database) : Prop := ~ live_grant (tokens db) /\ all_revoked (admins db).

(** No statement makes a row active again or moves it to another request. *)
Lemma op_rows m m' k s : token_op m m' -> m' !! k = Some s ->
  exists s0, m !! k = Some s0 /\ o_RequestID s = o_RequestID s0 /\ (o_Status s = statusActive -> s = s0).
Proof.
  intros [k0 now|k0|p now|now] Hs.
  - apply lookup_update_row in Hs as [Hs|(b & Hb & _ & -> & _)]; [by exists s|]. by exists b.
  - apply lookup_delete_Some in Hs as [_ Hs]. by exists s.
  - unfold revoke_where in Hs. rewrite lookup_update_where in Hs. apply fmap_Some in Hs as (b & Hb & ->). exists b.
    split; [done|]. by destruct (p b && _).
  - apply lookup_delete_where in Hs as [Hs _]. by exists s.
Qed.

Lemma op_ended m m' : token_op m m' -> live_grant m' -> live_grant m.
Proof.
  intros Hop (k & s & Hs & Hr & Ha). destruct (op_rows _ _ _ _ Hop Hs) as (s0 & Hs0 & Hr0 & Heq). specialize (Heq Ha).
  subst s0. by exists k, s.
Qed.

Lemma op_spent m m' : token_op m m' -> spent m -> spent m'.
Proof.
  intros Hop Hsp s Hs Ha. destruct (op_rows _ _ _ _ Hop Hs) as (s0 & Hs0 & _ & Heq). specialize (Heq Ha). subst s0.
  by apply (Hsp s).
Qed.

Lemma new_spent m m' : token_new m m' -> spent m -> spent m'.
Proof. intros [s Hne _] Hsp s' Hs. rewrite lookup_insert_ne in Hs by done. by apply Hsp. Qed.

Lemma change_ended m m' : tokens_change m m' -> ~ live_grant m -> ~ live_grant m'.
Proof.
  intros [Hop|s Hr _ Hnone ->|Hlive _] Hn; [|intros (k & s' & Hs' & Hr' & Ha)|done].
  - intros Hl. by apply Hn, (op_ended m m').
  - apply lookup_insert_Some in Hs' as [[_ ->]|[_ Hs']]; [done|]. apply Hn. by exists k, s'.
Qed.

Lemma change_spent m m' : tokens_change m m' -> spent m -> spent m'.
Proof.
  intros [Hop|s _ Hne _ ->|_ Hs] Hsp.
  - by apply (op_spent m).
  - intros s' Hs'. rewrite lookup_insert_ne in Hs' by done. by apply Hsp.
  - revert Hsp. induction Hs as [|x y z [Hxy|Hxy] _ IH]; intros Hsp; [done| |]; apply IH.
    + by apply (op_spent x).
    + by apply (new_spent x).
Qed.

Lemma change_revoked m a a' : admins_change m a a' -> ~ live_grant m -> all_revoked a -> all_revoked a'.
Proof.
  intros Hch Hn Ha k s. destruct Hch as [k0 p f Hf|auth now|l|s0 Hlive].
  - destruct (lookup_where k0 p a) as [s1|] eqn:E1; [|apply Ha]. apply lookup_where_Some in E1 as [E1 _].
    intros [[<- <-]|[_ Hs]]%lookup_insert_Some; [|by apply (Ha k)]. destruct (Hf s1) as [-> Hrev]. intros Hr.
    by apply Hrev, (Ha k0).
  - rewrite lookup_update_where. intros (s1 & Hs1 & ->)%fmap_Some. destruct (bool_decide _); cbn; [by eexists|by apply (Ha k)].
  - intros Hs. apply (Ha k). revert Hs. induction l as [|s1 l IH]; [done|]. cbn. intros [_ Hs]%lookup_delete_Some. by apply IH.
  - intros [[_ <-]|[_ Hs]]%lookup_insert_Some; [|by apply (Ha k)]. intros Hr. by destruct Hn; apply Hlive.
Qed.

Lemma step_over db db' : auth_step db db' -> over db -> over db'.
Proof.
  intros [Ht Ha|Ht Ha|Ht Ha] [Hn Hr]; unfold over; rewrite ?Ht, ?Ha; try done.
  - split; [|done]. by apply (change_ended (tokens db)).
  - split; [done|]. by apply (change_revoked (tokens db) (admins db)).
Qed.

Lemma step_ended db db' : auth_step db db' -> ~ live_grant (tokens db) -> ~ live_grant (tokens db').
Proof. intros [Ht Ha|Ht Ha|Ht Ha] Hn; rewrite ?Ht; try done. by apply (change_ended (tokens db)). Qed.

Lemma step_spent db db' : auth_step db db' -> spent (tokens db) -> spent (tokens db').
Proof. intros [Ht Ha|Ht Ha|Ht Ha] Hs; rewrite ?Ht; try done. by apply (change_spent (tokens db)). Qed.
End steps.

(** ** Rules for the statements of the directory *)

Section rules.
Context {E : Type} `{EN : Engine E} (p : Protocol E).
Implicit Types (db : Database) (P : Database -> Prop).

Lemma proves_read_directory {A} P message (f : Directory -> A) (Q : A -> Database -> Prop) :
  stable p P -> (forall db, p_inv p db -> P db -> Q (f (directory db)) db) -> triple p P (read_directory message f) Q.
Proof. intros Hst Hf. by apply (proves_read p P _ (fun db => f (directory db))). Qed.

Lemma proves_on_directory {A} P wrap (f : Directory -> driver_error + A * Directory) (Q : A -> Database -> Prop) :
  stable p P ->
  (forall db, p_inv p db -> P db -> match f (directory db) with
     | inr (a, d) => rtc (p_step p) db (set_directory db d) /\ Q a (set_directory db d)
     | inl _ => True end) ->
  triple p P (statement wrap (on_directory f)) Q.
Proof.
  intros Hst Hf. apply proves_statement; [done|]. intros db Hi Hp. specialize (Hf db Hi Hp). unfold on_directory.
  by destruct (f (directory db)) as [d|[a d]].
Qed.

Lemma proves_checked P cond message : triple p P (checked cond message) (fun _ db => P db /\ cond = true).
Proof. apply proves_lift. intros u db Hr Hp. split; [done|]. by apply require_ok in Hr. Qed.

Lemma proves_found {A} P (row : option A) : triple p P (found row) (fun a db => P db /\ row = Some a).
Proof.
  destruct row as [a|]; [|apply proves_fail].
  apply (proves_conseq (fun db => P db /\ Some a = Some a) (fun b db => P db /\ Some a = Some b)); [|by intros db _ Hp|done].
  apply (proves_ret p a (fun b db => P db /\ Some a = Some b)).
Qed.

Lemma proves_expect_one P count : triple p P (expect_one count) (fun _ db => P db /\ count = 1).
Proof.
  unfold expect_one. destruct (Z.eqb_spec count 1) as [->|_]; [|apply proves_fail].
  apply (proves_conseq (fun db => P db /\ 1 = 1) (fun _ db => P db /\ 1 = 1)); [|by intros db _ Hp|done].
  apply (proves_ret p tt (fun _ db => P db /\ 1 = 1)).
Qed.

(** A value that was computed before. *)
Lemma proves_return {A} P (a : A) : triple p P (mret a) (fun b db => P db /\ b = a).
Proof. apply (proves_conseq (fun db => P db /\ a = a) (fun b db => P db /\ b = a)); [|by intros db _ Hp|done].
  apply (proves_ret p a (fun b db => P db /\ b = a)). Qed.

Lemma proves_pure_ret {A} P (a : A) (phi : A -> Prop) : phi a -> triple p P (mret a) (fun b _ => phi b).
Proof. intros Ha. apply (proves_post _ (proves_return P a)). by intros b db _ [_ ->]. Qed.

Lemma proves_or_fail {A} P e (m : M (E:=E) A) Q : triple p P m Q -> triple p P (or_fail e m) Q.
Proof.
  intros Hm. unfold or_fail. apply (proves_bind (fun r db => forall a, r = inr a -> Q a db)); [by apply proves_try|].
  intros [[]|a]; try apply proves_fail.
  apply (proves_conseq (Q a) Q); [apply proves_ret|by intros db _ Hq; apply Hq|done].
Qed.

(** What is stable still holds afterwards. *)
Lemma proves_keeps {A} P (X : A -> Prop) (m : M (E:=E) A) : stable p P -> triple p P m (fun a _ => X a) -> triple p P m (fun _ => P).
Proof.
  intros Hst Hm w r w' Hr Hw Hi Hp. destruct (Hm w r w' Hr Hw Hi Hp) as (Hw' & Hs & _). split; [done|]. split; [done|].
  intros a _. by apply (stable_steps p P (w_db w)).
Qed.

Lemma proves_absurd {A} (m : M (E:=E) A) P Q : (forall db, P db -> False) -> triple p P m Q.
Proof. intros HP w r w' _ _ _ Hp. by destruct (HP _ Hp). Qed.
End rules.

(** ** The operations *)

Section grants.
Context {E : Type} `{EN : Engine E} (rid : string) (code : string * bytes).

Definition others_auth : Prop := forall db (e : E), rtc (auth_step rid code) db (engine_Others db e).1.

Definition auth_protocol (Ho : others_auth) : Protocol E :=
  mkProtocol E EN (auth_step rid code) (fun _ => True) (fun db e _ => Ho db e) (fun _ _ _ _ => I).

Context (Hothers : others_auth).
Implicit Types (db : Database) (P : Database -> Prop).

#[local] Abbreviation auth := (auth_protocol Hothers).
#[local] Abbreviation proves := (triple auth).
#[local] Abbreviation ended db := (~ live_grant rid (tokens db)).

Lemma over_stable : stable auth (over rid).
Proof. intros db db' _. apply step_over. Qed.
Lemma ended_stable : stable auth (fun db => ended db).
Proof. intros db db' _. apply step_ended. Qed.
Lemma spent_stable : stable auth (fun db => spent code (tokens db)).
Proof. intros db db' _. apply step_spent. Qed.

Lemma token_step db m : tokens_change rid code (tokens db) m -> auth_step rid code db (set_directory db (set_oauth_sessions m (directory db))).
Proof. intros Hm. by apply auth_tokens. Qed.

Lemma admin_step db a : admins_change rid (tokens db) (admins db) a -> auth_step rid code db (set_directory db (set_admin_sessions a (directory db))).
Proof. intros Ha. by apply auth_admins. Qed.

(** *** Revocation *)

Lemma revoke_ends m now : ~ live_grant rid (revoke_where (of_request rid) now m).
Proof.
  intros (k & s & Hs & Hr & Ha). unfold revoke_where in Hs. rewrite lookup_update_where in Hs.
  apply fmap_Some in Hs as (s0 & _ & ->). destruct (of_request rid s0 && bool_decide (o_Status s0 = statusActive)) eqn:Ec; [done|].
  unfold of_request in Ec. rewrite Hr, Ha, !bool_decide_true in Ec by done. done.
Qed.

Lemma revoke_request_spec P now : stable auth P -> proves P (OAuth_RevokeRequest rid now) (fun _ db => over rid db).
Proof.
  intros Hst. unfold OAuth_RevokeRequest. apply (proves_bind (fun _ db => ended db)).
  - apply proves_on_directory; [done|]. intros db _ _. split; [|by apply revoke_ends].
    apply rtc_once, token_step, tokens_op, op_revoke.
  - intros _. apply proves_on_directory; [apply ended_stable|]. intros db _ Hn. cbn [revoke_authorization]. split.
    + apply rtc_once, admin_step, admins_revoke.
    + split; [done|]. intros k s. cbn. rewrite lookup_update_where. intros (s0 & _ & ->)%fmap_Some Hr.
      destruct (bool_decide (ad_AuthorizationID s0 = rid)) eqn:Eb; [by eexists|]. bool_hyps. congruence.
Qed.

(** *** A grant that is over opens nothing *)

Lemma request_inactive P now :
  stable auth P -> (forall db, P db -> ended db) -> proves P (OAuth_RequestActive rid now) (fun b db => P db /\ b = false).
Proof.
  intros Hst Hn. unfold OAuth_RequestActive. apply (proves_bind (fun count db => P db /\ ~ 0 < count)).
  - apply proves_read_directory; [done|]. intros db _ Hp. split; [done|]. intros (k & s & Hs & Hall)%rows_where_pos.
    apply (Hn db Hp). exists k, s. unfold of_request, live_session in Hall. bool_hyps. done.
  - intros count. apply (proves_pure auth (~ 0 < count) P). intros Hc. replace (0 <? count) with false by (symmetry; apply Z.ltb_ge; lia).
    apply proves_return.
Qed.

Lemma get_admin P hash :
  stable auth P -> proves P (Admin_GetByHash hash) (fun s db => P db /\ exists db0, P db0 /\ admins db0 !! hash = Some s).
Proof.
  intros Hst. unfold Admin_GetByHash. apply (proves_bind (fun _ => P)); [apply (proves_post _ (proves_checked _ _ _ _)); by intros ? ? _ []|].
  intros _. apply (proves_bind (fun row db => P db /\ forall s, row = Some s -> exists db0, P db0 /\ admins db0 !! hash = Some s)).
  - apply proves_read_directory; [done|]. intros db _ Hp. split; [done|]. intros s Hs. by exists db.
  - intros row. apply (proves_post _ (proves_found _ _ row)). intros s db _ [[Hp Hrow] Hs]. split; [done|by apply Hrow].
Qed.

Lemma set_same db : set_directory db (directory db) = db.
Proof. by destruct db. Qed.

(** Touching changes neither the grant nor the revocation of a session. *)
Lemma touch_keeps P hash seen now next expiry : stable auth P -> proves P (Admin_Touch hash seen now next expiry) (fun _ => P).
Proof.
  intros Hst. unfold Admin_Touch. apply (proves_bind (fun _ => P)); [apply (proves_post _ (proves_checked _ _ _ _)); by intros ? ? _ []|].
  intros _. apply (proves_bind (fun _ => P)).
  - apply proves_on_directory; [done|]. intros db Hi Hp. unfold update_admin.
    pose proof (admins_update rid (tokens db) (admins db) hash (touchable seen now expiry) (touched next expiry)) as Hu.
    unfold lookup_where in Hu. destruct (admins db !! hash) as [s|]; [|by rewrite set_same].
    destruct (touchable seen now expiry s); [|by rewrite set_same].
    assert (Hs : auth_step rid code db (set_directory db (set_admin_sessions (<[hash:=touched next expiry s]> (admins db)) (directory db)))).
    { apply admin_step, Hu. by intros []. }
    split; [by apply rtc_once|by apply (Hst db)].
  - intros count. destruct (Z.eqb_spec count 1); [|apply proves_fail]. apply (proves_ret _ tt (fun _ => P)).
Qed.

(** A management session that is handed out is not of the grant. *)
Definition elsewhere (s : AdminSession) : Prop := ad_AuthorizationID s <> rid.

Lemma live_elsewhere db now hash s : over rid db -> admins db !! hash = Some s -> live_admin now s = true -> elsewhere s.
Proof.
  intros [_ Ha] Hs Hl Hr. destruct (Ha _ _ Hs Hr) as [t Ht]. unfold live_admin in Hl. by rewrite Ht in Hl.
Qed.

Lemma refresh_refused now stored : elsewhere stored -> proves (over rid) (refresh_session now stored) (fun s _ => elsewhere s).
Proof.
  intros Hs. unfold refresh_session. cbv zeta. set (next := minTime _ _).
  apply (proves_bind (fun _ => over rid)).
  - apply (proves_post _ (proves_try_stable _ _ _ _ over_stable (touch_keeps _ _ _ _ _ _ over_stable))). by intros [] db _ Hr.
  - intros [e|u]; [|by apply proves_pure_ret].
    apply (proves_bind _ (proves_or_fail _ _ _ _ _ (get_admin _ (ad_IDHash stored) over_stable))). intros fresh.
    destruct (negb (live_admin now fresh) || _) eqn:Eb; [apply proves_fail|]. bool_hyps.
    apply (proves_conseq (fun _ => elsewhere fresh) (fun s _ => elsewhere s)); [|intros db _ [_ (db0 & Ho & Hf)]|done].
    + apply (proves_ret _ fresh (fun s _ => elsewhere s)).
    + by apply (live_elsewhere db0 now (ad_IDHash stored)).
Qed.

Context `{HP : HashPackage} `{UP : UuidPackage} `{JV : JsonValidity} `{JX : JsonCodec exchangeMetadata}.

Lemma authenticate_refused token : proves (over rid) (Authenticate token) (fun s _ => elsewhere s).
Proof.
  unfold Authenticate. destruct (negb (validOpaqueToken token)); [apply proves_fail|].
  apply (proves_bind _ (proves_or_fail _ _ _ _ _ (get_admin _ (digest token) over_stable))). intros stored.
  apply (proves_bind _ (proves_now _ _)). intros now. destruct (negb (live_admin now stored)) eqn:El; [apply proves_fail|]. bool_hyps.
  destruct (negb (bool_decide _)); [apply proves_fail|].
  apply (proves_conseq (fun db => over rid db /\ elsewhere stored) (fun s _ => elsewhere s)); [| |done].
  - apply (proves_pure auth (elsewhere stored) (over rid)). intros He. apply (proves_bind (fun _ => over rid)).
    + apply proves_or_fail. unfold OAuth_RequestActive. apply (proves_bind (fun _ => over rid)).
      * apply proves_read_directory; [apply over_stable|done].
      * intros count. apply (proves_post _ (proves_return _ (over rid) (0 <? count))). by intros b db _ [? _].
    + intros active. destruct (negb active); [apply proves_fail|]. destruct (Minute <=? _); [by apply refresh_refused|by apply proves_pure_ret].
  - intros db _ [[Ho (db0 & Ho0 & Hs)] _]. split; [done|]. by apply (live_elsewhere db0 now (digest token)).
Qed.

(** *** The lease of a stream *)

Context `{NP : NetipPackage} `{JS : JsonCodec Spec} `{JU : JsonCodec unit} `{JT : JsonCodec transitionMetadata}.
Context (store : Store) (requestID : string) (identity : Identity) (sessionID : string) (config : LeaseConfig) (ctx : nat).

Lemma proves_unless_missing {A} P (r : storage_error + A) (k : A -> M (E:=E) bool) Q :
  (forall db, P db -> Q false db) -> (forall a, r = inr a -> proves P (k a) Q) -> proves P (unless_missing r k) Q.
Proof.
  intros Hf Hk. destruct r as [e|a]; cbn; [|by apply Hk]. destruct (storage_Is e ErrNotFound); [|apply proves_fail].
  apply (proves_conseq (Q false) Q); [apply proves_ret|by intros db _; apply Hf|done].
Qed.

Lemma lease_refused :
  AuthorizationID identity = rid -> rid <> "" ->
  proves (fun db => ended db) (valid store requestID identity sessionID config) (fun b db => b = false).
Proof.
  intros Hid Hne. unfold valid. destruct (negb (authorized identity config)); [by apply proves_pure_ret|]. cbn [all_valid].
  apply (proves_bind (fun b db => b = false)).
  - unfold grantActive. rewrite Hid, bool_decide_false by done.
    apply (proves_bind (fun _ db => ended db)).
    + apply (proves_post (Q := fun _ db => ended db) (fun r db => match r with inl _ => ended db | inr _ => ended db end)); [|by intros [] ? ?].
      apply proves_try_stable; [apply ended_stable|]. unfold OAuth_RequestOwner. apply (proves_bind (fun _ db => ended db)).
      * apply proves_read_directory; [apply ended_stable|done].
      * intros row. apply (proves_bind (fun _ db => ended db)); [apply (proves_post _ (proves_found _ _ row)); by intros ? ? _ []|].
        intros s. apply (proves_post _ (proves_return _ _ _)). by intros ? ? _ [].
    + intros owner. apply proves_unless_missing; [done|]. intros [oid did] _.
      apply (proves_bind (fun _ db => ended db)); [apply (proves_post _ (proves_now _ _)); by intros ? ? _ []|]. intros t.
      apply (proves_bind (fun b db => ended db /\ b = false)); [apply request_inactive; [apply ended_stable|done]|]. intros active.
      apply (proves_pure auth (active = false) (fun db => ended db)). intros ->.
      apply (proves_bind (fun _ db => ended db)); [apply (proves_post _ (proves_now _ _)); by intros ? ? _ []|]. intros now.
      by apply proves_pure_ret.
  - intros b. apply (proves_conseq (fun db => True /\ b = false) (fun b _ => b = false)); [|by intros db _ ->|done].
    apply (proves_pure auth (b = false) (fun _ => True)). intros ->. by apply proves_pure_ret.
Qed.

Lemma cancel_ends cs e : (ctx < length cs)%nat -> ctx_done (cancel ctx e cs) ctx = true.
Proof.
  intros Hc. unfold ctx_done. rewrite Cause_cancel by done. apply bool_decide_eq_true_2.
  destruct (Cause cs ctx); [by eexists|]. rewrite decide_True by (by left). by eexists.
Qed.

Lemma judge_length r w : length (wt_contexts (judge ctx r w)) = length (wt_contexts w).
Proof. destruct r as [e|b]; cbn; case_match; cbn; rewrite ?length_cancel; done. Qed.

(** A check that is refused ends the context, or it is an error that counts. *)
Lemma judge_refused w r :
  (ctx < length (wt_contexts w))%nat -> 0 <= wt_errors w -> (forall b, r = inr b -> b = false) ->
  ctx_done (wt_contexts (judge ctx r w)) ctx = true \/
  wt_errors (judge ctx r w) = wt_errors w + 1 /\ wt_errors w = 0.
Proof.
  intros Hc He Hr. destruct r as [e|b]; cbn.
  - unfold validationErrorsBeforeCancellation. destruct (Z.leb_spec 2 (wt_errors w + 1)); [left; by apply cancel_ends|].
    right. split; [done|]. lia.
  - left. rewrite (Hr b eq_refl). by apply cancel_ends.
Qed.

Lemma tick_refused w s w' s' :
  AuthorizationID identity = rid -> rid <> "" -> w_tx s = false -> ended (w_db s) ->
  tick (valid store requestID identity sessionID config) ctx w s = (w', s') ->
  w_tx s' = false /\ ended (w_db s') /\ exists r, w' = judge ctx r w /\ forall b, r = inr b -> b = false.
Proof.
  intros Hid Hne Htx Hn Ht. unfold tick in Ht. destruct (valid _ _ _ _ _ s) as [r s1] eqn:Ev. injection Ht as <- <-.
  destruct (lease_refused Hid Hne s r s1 Ev Htx I Hn) as (Htx' & Hs & Hb). split; [done|]. split; [|by exists r].
  exact (stable_steps auth _ _ _ ended_stable Hs I Hn).
Qed.

(** Two turns of the loop end the context of a stream whose grant is over. *)
Lemma watch_ends w s w' s' :
  AuthorizationID identity = rid -> rid <> "" -> w_tx s = false -> ended (w_db s) ->
  (ctx < length (wt_contexts w))%nat -> 0 <= wt_errors w ->
  watchValidation (valid store requestID identity sessionID config) ctx 2 w s = (w', s') ->
  ctx_done (wt_contexts w') ctx = true.
Proof.
  intros Hid Hne Htx Hn Hc He. cbn [watchValidation]. destruct (ctx_done (wt_contexts w) ctx) eqn:Ed; [by intros [= <- <-]|].
  destruct (tick _ ctx w s) as [w1 s1] eqn:E1. destruct (tick_refused _ _ _ _ Hid Hne Htx Hn E1) as (Htx1 & Hn1 & r1 & -> & Hr1).
  destruct (ctx_done (wt_contexts (judge ctx r1 w)) ctx) eqn:Ed1; [by intros [= <- <-]|].
  destruct (judge_refused w r1 Hc He Hr1) as [Hd|[He1 He0]]; [congruence|].
  destruct (tick _ ctx (judge ctx r1 w) s1) as [w2 s2] eqn:E2.
  destruct (tick_refused _ _ _ _ Hid Hne Htx1 Hn1 E2) as (_ & _ & r2 & -> & Hr2). intros [= <- <-].
  destruct (judge_refused (judge ctx r1 w) r2) as [Hd|[_ ?]]; [by rewrite judge_length|lia|done|done|lia].
Qed.
End grants.
