(* ===== verification/StorageCleanupFacts.v ===== *)
(** * Clean-up: what it removes

    The clean-up of sessions on MySQL, statement by statement, does what the single
    cascading statement of the other databases does; and a maintenance pass removes
    only what has expired. *)

From S2P Require Import Prelude GoLib GoText GoSort External RemoteTask StorageEngine SessionStore TaskStore.
From S2P Require Import StorageFacts IdentityStore OAuthClientStore OAuthGrantStore StorageCleanup.
From S2P Require Import AdminSessionService TaskStoreFacts StorageTransactions AuthFacts.

Abbreviation snapshots db := (resource_snapshots (directory db)).

(** Rows are under their identifiers. *)
Definition tables_keyed (db : Database) : Prop :=
  (forall id s, sessions db !! id = Some s -> s_ID s = id) /\ (forall id t, tasks db !! id = Some t -> t_ID t = id).

(** No task of the session has a snapshot. *)
Definition unheld (db : Database) (id : string) : Prop :=
  forall k r t, snapshots db !! k = Some r -> tasks db !! rs_TaskID r = Some t -> t_SessionID t <> id.

Lemma held_spec db s : held db s = true <-> exists k t k' r, tasks db !! k = Some t /\ t_SessionID t = s_ID s /\
  snapshots db !! k' = Some r /\ rs_TaskID r = t_ID t.
Proof.
  unfold held. rewrite existsb_exists. split.
  - intros (t & Ht & Hb). apply andb_true_iff in Hb as [Hs He]. apply existsb_exists in He as (r & Hr & Hid). bool_hyps.
    apply in_map_iff in Ht as ([k t'] & Heq & Hin), Hr as ([k' r'] & Heq' & Hin'). cbn in *. subst t' r'.
    apply list_elem_of_In, elem_of_map_to_list in Hin, Hin'. by exists k, t, k', r.
  - intros (k & t & k' & r & Ht & Hs & Hr & Hid). exists t. split.
    + apply in_map_iff. exists (k, t). split; [done|]. by apply list_elem_of_In, elem_of_map_to_list.
    + rewrite Hs, bool_decide_true by done. cbn. apply existsb_exists. exists r. split; [|by apply bool_decide_true].
      apply in_map_iff. exists (k', r). split; [done|]. by apply list_elem_of_In, elem_of_map_to_list.
Qed.

Lemma not_held_unheld db s : tables_keyed db -> held db s = false -> unheld db (s_ID s).
Proof.
  intros [_ Hk] Hh k r t Hr Ht Hs. assert (Hc : held db s = true); [|congruence].
  apply held_spec. exists (rs_TaskID r), t, k, r. split; [done|]. split; [done|]. split; [done|]. symmetry. by apply Hk.
Qed.

(** ** The statements of MySQL *)

Definition delete_rows (id : string) (db : Database) : Database :=
  set_sessions (set_tasks db (delete_where (fun t => bool_decide (t_SessionID t = id)) (tasks db))) (delete id (sessions db)).

Lemma delete_where_none {K A} `{Countable K} (p : A -> bool) (m : gmap K A) :
  (forall k a, m !! k = Some a -> p a = false) -> delete_where p m = m.
Proof. intros Hp. unfold delete_where. apply map_filter_id. intros k a Ha. by apply (Hp k). Qed.

Lemma delete_session_rows id db : unheld db id -> delete_session id db = delete_rows id db.
Proof.
  intros Hu. unfold delete_session, delete_rows. rewrite (delete_where_none _ (snapshots db)).
  - by destruct db as [ids ss ts idem au []].
  - intros k r Hr. destruct (tasks db !! rs_TaskID r) as [t|] eqn:Ht; [|done]. apply bool_decide_eq_false. by apply (Hu k r t).
Qed.

Lemma unheld_delete id id' db : unheld db id -> unheld (delete_rows id' db) id.
Proof. intros Hu k r t Hr Ht. cbn in Ht. apply lookup_delete_where in Ht as [Ht _]. by apply (Hu k r t). Qed.

(** A list of sessions that are there, once each. *)
Lemma delete_each_within {E} `{EN : Engine E} (ids : list string) : forall n (db : Database),
  NoDup ids -> Forall (fun id => is_Some (sessions db !! id) /\ unheld db id) ids ->
  within (E:=E) (eq db) (delete_each n ids) (fun m db' => m = n + len ids /\ db' = foldl (fun d id => delete_session id d) db ids).
Proof.
  induction ids as [|id ids IH]; intros n db Hnd Hall.
  - cbn [delete_each foldl]. eapply within_conseq; [apply (within_return (eq db))|done|]. intros m db' [<- ->]. split; [unfold len; cbn; lia|done].
  - apply NoDup_cons in Hnd as [Hni Hnd]. apply Forall_cons in Hall as [[Hin Hun] Hall]. cbn [delete_each foldl].
    eapply within_bind with (Q := fun _ d => d = set_tasks db (delete_where (fun t => bool_decide (t_SessionID t = id)) (tasks db))).
    { apply within_statement. by intros d [] d' <- [= <-]. }
    intros u. cbn beta. eapply within_bind with (Q := fun count d => delete_rows id db = d /\ count = 1).
    { apply within_statement. intros d count d' -> [= <- <-]. split; [done|]. cbn. by rewrite bool_decide_true. }
    intros count. apply (within_pure (count = 1) (eq (delete_rows id db))). intros ->. rewrite delete_session_rows by done.
    assert (Hrest : Forall (fun x => is_Some (sessions (delete_rows id db) !! x) /\ unheld (delete_rows id db) x) ids).
    { rewrite Forall_forall in *. intros x Hx. destruct (Hall x Hx) as [Hin' Hu]. split; [|by apply unheld_delete]. cbn.
      rewrite lookup_delete_ne; [done|]. by intros ->. }
    eapply within_conseq; [apply (IH (n + 1) (delete_rows id db) Hnd Hrest)|done|].
    intros m db' [-> ->]. split; [|done]. unfold len. cbn. lia.
Qed.

(** The sessions that are cleaned up. *)
Lemma ended_sessions_spec `{EN : Engine E} before limit db :
  tables_keyed db -> NoDup (map s_ID (ended_sessions before limit db)) /\
  Forall (fun s => sessions db !! s_ID s = Some s /\ s_ExpiresAt s < before /\ held db s = false) (ended_sessions before limit db).
Proof.
  intros [Hk _]. unfold ended_sessions. set (rows := List.filter _ _).
  assert (Hrows : NoDup (map s_ID rows) /\ Forall (fun s => sessions db !! s_ID s = Some s /\ s_ExpiresAt s < before /\ held db s = false) rows).
  { assert (Hall : Forall (fun s => sessions db !! s_ID s = Some s) (map snd (map_to_list (sessions db)))).
    { apply Forall_map, Forall_forall. intros [id s] Hin%elem_of_map_to_list. cbn. by rewrite (Hk id s). }
    split.
    - unfold rows. assert (Hnd : NoDup (map s_ID (map snd (map_to_list (sessions db))))).
      { rewrite map_map. replace (map (fun x => s_ID x.2) (map_to_list (sessions db))) with (map fst (map_to_list (sessions db))).
        - apply NoDup_fst_map_to_list.
        - apply list_fmap_ext. intros i [id s] Hi. cbn. symmetry. apply Hk. apply elem_of_map_to_list. by eapply list_elem_of_lookup_2. }
      clear -Hnd. induction (map snd (map_to_list (sessions db))) as [|s l IH]; [done|]. cbn in *.
      apply NoDup_cons in Hnd as [Hni Hnd]. destruct (ended_session before db s); [|by apply IH]. cbn. apply NoDup_cons. split; [|by apply IH].
      intros (s' & Hs' & Hin)%list_elem_of_fmap. apply Hni, list_elem_of_fmap. exists s'. split; [done|].
      apply list_elem_of_In in Hin. apply filter_In in Hin as [Hin _]. by apply list_elem_of_In.
    - apply Forall_forall. intros s Hs. apply list_elem_of_In in Hs. apply filter_In in Hs as [Hs He].
      rewrite Forall_forall in Hall. split; [by apply Hall, list_elem_of_In|]. unfold ended_session in He. bool_hyps. split; [lia|done]. }
  destruct Hrows as [Hnd Hall]. set (sorted := SortFunc oldest_first rows).
  assert (Hp : Permutation sorted rows) by apply SortFunc_perm. split.
  - rewrite <- (take_drop (Z.to_nat limit) sorted) in Hp. rewrite <- Hp, map_app in Hnd. by apply NoDup_app in Hnd as [? _].
  - rewrite <- Hp in Hall. by apply Forall_take.
Qed.

(** A transaction that returns has committed what its callback did. *)
Lemma own_transaction_spec {E A} `{EN : Engine E} begin_message commit_message (m : M (E:=E) A) (I : Database -> Prop) (Q : Database -> A -> Database -> Prop) w a w' :
  (forall db, I db -> within (eq db) m (Q db)) -> w_tx w = false -> (forall db, before_statement w db -> I db) ->
  own_transaction begin_message commit_message m w = (inr a, w') -> exists db, before_statement w db /\ Q db a (w_db w').
Proof.
  intros Hm Hw HI Hr. unfold own_transaction in Hr. cbv zeta in Hr. pose proof (interfere_spec w) as [Hb Ht].
  set (wi := interfere w) in *. exists (w_db wi). split; [done|].
  destruct (engine_Begin (w_engine wi)) as [[d|] e]; [done|].
  destruct (m (mkWorld (w_db wi) e true)) as [[err|b] w1] eqn:Em; [done|].
  destruct (Hm (w_db wi) (HI _ Hb) _ _ _ Em eq_refl eq_refl) as [_ Hq].
  destruct (engine_Commit (w_engine w1)) as [[failed|] e1]; [done|]. injection Hr as <- <-. by apply Hq.
Qed.

Lemma foldl_sessions l : forall db,
  foldl (fun d id => delete_session id d) db (map s_ID l) = foldl (fun d s => delete_session (s_ID s) d) db l.
Proof. induction l as [|s l IH]; intros db; [done|]. apply IH. Qed.

(** On MySQL, which does not cascade, the clean-up deletes the tasks and the
    sessions one by one in a transaction; it leaves the tables, and returns the count,
    that the cascading statement of the other databases would. *)
Theorem mysql_cleanup_equivalent {E} `{EN : Engine E} before limit w n w' :
  w_tx w = false -> (forall db, before_statement w db -> tables_keyed db) ->
  deleteExpiredMySQL before limit w = (inr n, w') ->
  exists db, before_statement w db /\ delete_ended_sessions before limit db = inr (n, w_db w').
Proof.
  intros Hw Hk. unfold deleteExpiredMySQL.
  apply (own_transaction_spec _ _ _ tables_keyed (fun db n db' => delete_ended_sessions before limit db = inr (n, db'))); [|done..].
  intros db Hkeyed. destruct (ended_sessions_spec before limit db Hkeyed) as [Hnd Hall].
  eapply within_bind with (Q := fun l d => db = d /\ l = ended_sessions before limit db).
  { apply within_statement. by intros d l d' <- [= <- <-]. }
  intros l. apply (within_pure (l = _) (eq db)). intros ->. eapply within_conseq; [apply delete_each_within; [done|]|done|].
  - apply Forall_map, (Forall_impl _ _ _ Hall). intros s (Hs & _ & Hh). split; [by exists s|by apply not_held_unheld].
  - intros m db' [-> ->]. unfold delete_ended_sessions. rewrite foldl_sessions. unfold len. by rewrite length_map.
Qed.

(** ** A maintenance pass *)

Section pass.
Context (T : time).

(** What has not expired at [T] is untouched, and nothing is added. *)
Record kept (db db' : Database) : Prop := {
  kept_requests : forall k r, oauth_authorization_requests (directory db) !! k = Some r -> T < ar_ExpiresAt r ->
    oauth_authorization_requests (directory db') !! k = Some r;
  kept_tokens : forall k s, tokens db !! k = Some s -> T < o_ExpiresAt s -> tokens db' !! k = Some s;
  kept_browsers : forall k s, oauth_browser_sessions (directory db) !! k = Some s -> T < br_ExpiresAt s ->
    oauth_browser_sessions (directory db') !! k = Some s;
  kept_admins : forall k s, admins db !! k = Some s -> admin_ended T s = false -> admins db' !! k = Some s;
  kept_idempotency : forall k r, idempotency_records db !! k = Some r -> T <= i_ExpiresAt r -> idempotency_records db' !! k = Some r;
  kept_sessions : forall k s, sessions db !! k = Some s -> T <= s_ExpiresAt s \/ held db s = true -> sessions db' !! k = Some s;
  kept_tasks : forall k t s, tasks db !! k = Some t -> sessions db !! t_SessionID t = Some s ->
    T <= s_ExpiresAt s \/ held db s = true -> tasks db' !! k = Some t;
  kept_snapshots : snapshots db' = snapshots db
}.

(** The rows that are needed to find the others by their identifiers. *)
Record rows_keyed (db : Database) : Prop := {
  keyed_tables : tables_keyed db;
  keyed_admins : forall k s, admins db !! k = Some s -> ad_IDHash s = k;
  keyed_idempotency : forall k r, idempotency_records db !! k = Some r -> (i_Scope r, i_Key r) = k
}.

Definition pass_step (db db' : Database) : Prop := kept db db' /\ (rows_keyed db -> rows_keyed db').

Lemma kept_refl db : kept db db.
Proof. by constructor. Qed.

Lemma kept_held db db' s : rows_keyed db -> kept db db' -> sessions db !! s_ID s = Some s -> held db s = true -> held db' s = true.
Proof.
  intros Hk K Hs Hh. pose proof Hh as (k & t & k' & r & Ht & Hts & Hr & Hid)%held_spec. apply held_spec.
  exists k, t, k', r. split; [|by rewrite (kept_snapshots _ _ K)]. apply (kept_tasks _ _ K k t s); [done| |by right]. by rewrite Hts.
Qed.

Lemma kept_trans db1 db2 db3 : rows_keyed db1 -> kept db1 db2 -> kept db2 db3 -> kept db1 db3.
Proof.
  intros Hk K1 K2.
  assert (Hlive : forall k s, sessions db1 !! k = Some s -> T <= s_ExpiresAt s \/ held db1 s = true -> T <= s_ExpiresAt s \/ held db2 s = true).
  { intros k s Hs [?|Hh]; [by left|right]. apply (kept_held db1); try done. destruct (keyed_tables _ Hk) as [Hks _]. by rewrite (Hks k s Hs). }
  constructor.
  - intros k r Hr Ht. apply (kept_requests _ _ K2); [by apply (kept_requests _ _ K1)|done].
  - intros k r Hr Ht. apply (kept_tokens _ _ K2); [by apply (kept_tokens _ _ K1)|done].
  - intros k r Hr Ht. apply (kept_browsers _ _ K2); [by apply (kept_browsers _ _ K1)|done].
  - intros k r Hr Ht. apply (kept_admins _ _ K2); [by apply (kept_admins _ _ K1)|done].
  - intros k r Hr Ht. apply (kept_idempotency _ _ K2); [by apply (kept_idempotency _ _ K1)|done].
  - intros k s Hs Hl. apply (kept_sessions _ _ K2); [by apply (kept_sessions _ _ K1)|by apply (Hlive k)].
  - intros k t s Ht Hs Hl. apply (kept_tasks _ _ K2 k t s); [by apply (kept_tasks _ _ K1 k t s)|by apply (kept_sessions _ _ K1)|by apply (Hlive (t_SessionID t))].
  - by rewrite (kept_snapshots _ _ K2), (kept_snapshots _ _ K1).
Qed.

Lemma steps_kept db db' : rtc pass_step db db' -> rows_keyed db -> kept db db' /\ rows_keyed db'.
Proof.
  induction 1 as [db|db1 db2 db3 [K Hk] _ IH]; intros Hd; [by split; [apply kept_refl|]|].
  destruct (IH (Hk Hd)) as [K' Hd']. split; [by apply (kept_trans db1 db2)|done].
Qed.

(** *** Deleting sessions *)

Lemma foldl_delete l : forall db,
  Forall (fun s => unheld db (s_ID s)) l ->
  let db' := foldl (fun d s => delete_session (s_ID s) d) db l in
  (forall id s, sessions db' !! id = Some s <-> sessions db !! id = Some s /\ id ∉ map s_ID l) /\
  (forall k t, tasks db' !! k = Some t <-> tasks db !! k = Some t /\ t_SessionID t ∉ map s_ID l) /\
  idempotency_records db' = idempotency_records db /\ directory db' = directory db.
Proof.
  induction l as [|s l IH]; intros db Hall; cbn -[delete_session].
  - repeat split; try done; try by intros [? _]. all: try apply not_elem_of_nil.
  - apply Forall_cons in Hall as [Hu Hall]. rewrite delete_session_rows by done.
    destruct (IH (delete_rows (s_ID s) db)) as (Hs & Ht & Hi & Hd).
    { apply (Forall_impl _ _ _ Hall). intros s' Hu'. by apply unheld_delete. }
    split; [|split; [|by split]].
    + intros id s'. rewrite Hs. cbn. rewrite lookup_delete_Some, not_elem_of_cons. naive_solver.
    + intros k t. rewrite Ht. cbn. rewrite lookup_delete_where, bool_decide_eq_false, not_elem_of_cons. naive_solver.
Qed.

Lemma sessions_pass `{EN : Engine E} before limit db :
  before <= T -> rows_keyed db ->
  pass_step db (foldl (fun d s => delete_session (s_ID s) d) db (ended_sessions before limit db)).
Proof.
  intros Hb Hk. destruct (ended_sessions_spec before limit db (keyed_tables _ Hk)) as [_ Hall].
  destruct (foldl_delete (ended_sessions before limit db) db) as (Hs & Ht & Hi & Hd).
  { apply (Forall_impl _ _ _ Hall). intros s (_ & _ & Hh). by apply not_held_unheld; [apply keyed_tables|]. }
  set (db' := foldl _ _ _) in *.
  assert (Hlive : forall s, sessions db !! s_ID s = Some s -> T <= s_ExpiresAt s \/ held db s = true -> s_ID s ∉ map s_ID (ended_sessions before limit db)).
  { intros s Hse Hl (s' & Heq & Hin)%list_elem_of_fmap. rewrite Forall_forall in Hall. destruct (Hall s' Hin) as (Hs' & He & Hh).
    rewrite <- Heq, Hse in Hs'. injection Hs' as <-. destruct Hl; [lia|congruence]. }
  assert (Hids : forall k s, sessions db !! k = Some s -> s_ID s = k) by apply Hk.
  split.
  - constructor; rewrite ?Hd, ?Hi; try done.
    + intros k s Hse Hl. apply Hs. split; [done|]. rewrite <- (Hids k s Hse). apply Hlive; [by rewrite (Hids k s Hse)|done].
    + intros k t s Htk Hse Hl. apply Ht. split; [done|]. rewrite <- (Hids _ s Hse). apply Hlive; [by rewrite (Hids _ s Hse)|done].
  - intros _. constructor; rewrite ?Hd, ?Hi; try apply Hk. split.
    + intros k s [Hse _]%Hs. by apply Hk.
    + intros k t [Htk _]%Ht. by apply Hk.
Qed.

(** *** The other clean-ups *)

Lemma lookup_deleted {K A} `{Countable K} (key : A -> K) (l : list A) (m : gmap K A) k a :
  foldr (fun a m => delete (key a) m) m l !! k = Some a <-> m !! k = Some a /\ k ∉ map key l.
Proof.
  induction l as [|b l IH]; cbn [foldr map]; [split; [by split; [|apply not_elem_of_nil]|by intros [? _]]|].
  rewrite lookup_delete_Some, IH, not_elem_of_cons. naive_solver.
Qed.

(** A row under its key that is picked for deletion satisfies the condition. *)
Lemma picked {K A} `{Countable K} (key : A -> K) (m : gmap K A) (cmp : A -> A -> Z) (p : A -> bool) n k a :
  (forall k a, m !! k = Some a -> key a = k) -> m !! k = Some a ->
  k ∈ map key (take n (SortFunc cmp (List.filter p (map snd (map_to_list m))))) -> p a = true.
Proof.
  intros Hk Ha (b & -> & Hin)%list_elem_of_fmap. apply elem_of_take in Hin as (i & Hi & _). apply list_elem_of_lookup_2 in Hi.
  rewrite (SortFunc_perm cmp) in Hi. apply list_elem_of_In in Hi. apply filter_In in Hi as [Hb Hp]. apply list_elem_of_In in Hb.
  apply list_elem_of_fmap in Hb as ([k' b'] & -> & Hl%elem_of_map_to_list). cbn in *. rewrite (Hk k' b' Hl), Hl in Ha. by injection Ha as <-.
Qed.

Lemma admin_ended_mono before s : before <= T -> admin_ended before s = true -> admin_ended T s = true.
Proof. unfold admin_ended. intros Hb Hs. destruct (ad_RevokedAt s) as [t|]; repeat (apply orb_true_iff in Hs as [Hs|Hs]); rewrite ?orb_true_iff; lia. Qed.

#[local] Ltac directory_pass := split; [constructor; cbn; try done|intros Hk; constructor; cbn; try apply Hk; try done].

Lemma requests_pass before db : before <= T ->
  pass_step db (set_directory db (set_authorization_requests (delete_where (fun r => ar_ExpiresAt r <=? before) (oauth_authorization_requests (directory db))) (directory db))).
Proof. intros Hb. directory_pass. intros k r Hr Ht. apply lookup_delete_where. split; [done|lia]. Qed.

Lemma tokens_pass before db : before <= T ->
  pass_step db (set_directory db (set_oauth_sessions (delete_where (fun s => o_ExpiresAt s <=? before) (tokens db)) (directory db))).
Proof. intros Hb. directory_pass. intros k r Hr Ht. apply lookup_delete_where. split; [done|lia]. Qed.

Lemma browsers_pass before db : before <= T ->
  pass_step db (set_directory db (set_browser_sessions (delete_where (fun s => br_ExpiresAt s <=? before) (oauth_browser_sessions (directory db))) (directory db))).
Proof. intros Hb. directory_pass. intros k r Hr Ht. apply lookup_delete_where. split; [done|lia]. Qed.

Lemma admins_pass before limit db n d : before <= T -> rows_keyed db ->
  delete_ended before limit (directory db) = inr (n, d) -> pass_step db (set_directory db d).
Proof.
  intros Hb Hkeyed [= _ <-]. directory_pass.
  - intros k s Hs He. apply lookup_deleted. split; [done|]. intros Hin. eapply picked in Hin; [|apply Hkeyed|done].
    by rewrite (admin_ended_mono before) in He.
  - intros k s [Hs _]%lookup_deleted. by apply (keyed_admins _ Hk).
Qed.

Lemma idempotency_pass before limit db n db' : before <= T -> rows_keyed db ->
  delete_expired before limit db = inr (n, db') -> pass_step db db'.
Proof.
  intros Hb Hkeyed [= _ <-]. directory_pass.
  - intros k r Hr He. apply (lookup_deleted (fun r => (i_Scope r, i_Key r))). split; [done|]. intros Hin.
    eapply picked in Hin; [|apply Hkeyed|done]. cbn in Hin. lia.
  - intros k r [Hr _]%(lookup_deleted (fun r => (i_Scope r, i_Key r))). by apply (keyed_idempotency _ Hk).
Qed.
End pass.

Section worker.
Context {E : Type} `{EN : Engine E} (T : time).

(** Clients that touch nothing that has not expired, such as other workers. *)
Definition others_pass : Prop := forall db (e : E), rtc (pass_step T) db (engine_Others db e).1.

Lemma pass_inv db db' : rows_keyed db -> pass_step T db db' -> rows_keyed db'.
Proof. intros Hk [_ H]. by apply H. Qed.

Definition pass_protocol (Ho : others_pass) : Protocol E :=
  mkProtocol E EN (pass_step T) rows_keyed (fun db e _ => Ho db e) pass_inv.

Context (Hothers : others_pass) (Hclock : forall e : E, (engine_Now e).1 <= T).
#[local] Abbreviation pass := (pass_protocol Hothers).
#[local] Abbreviation anything := (fun _ : Database => True).

Lemma pass_true : stable pass anything.
Proof. done. Qed.

(** A statement that is a step. *)
Lemma pass_statement {A} wrap (f : Database -> driver_error + A * Database) :
  (forall db a db', rows_keyed db -> f db = inr (a, db') -> pass_step T db db') ->
  triple pass anything (statement wrap f) (fun _ => anything).
Proof.
  intros Hf. apply proves_statement; [done|]. intros db Hi _. destruct (f db) as [|[a db']] eqn:Ef; [done|].
  split; [|done]. by apply rtc_once, (Hf db a).
Qed.

Lemma pass_directory {A} wrap (f : Directory -> driver_error + A * Directory) :
  (forall db a d, rows_keyed db -> f (directory db) = inr (a, d) -> pass_step T db (set_directory db d)) ->
  triple pass anything (statement wrap (on_directory f)) (fun _ => anything).
Proof.
  intros Hf. apply pass_statement. intros db a db' Hk Hd. unfold on_directory in Hd.
  destruct (f (directory db)) as [|[b d]] eqn:Ef; [done|]. injection Hd as -> <-. by apply (Hf db a).
Qed.

Lemma pass_own_transaction {A} begin_message commit_message (m : M (E:=E) A) :
  (forall db, rows_keyed db -> within (eq db) m (fun _ db' => pass_step T db db')) ->
  triple pass anything (own_transaction begin_message commit_message m) (fun _ => anything).
Proof.
  intros Hm w r w' Hr Hw Hi _. unfold own_transaction in Hr. cbv zeta in Hr. pose proof (interfere_spec w) as [Hb Ht].
  rewrite Hw in Ht. set (wi := interfere w) in *. pose proof (before_steps pass w (w_db wi) Hw Hi Hb) as Hs.
  pose proof (steps_inv pass _ _ Hs Hi) as Hki.
  destruct (engine_Begin (w_engine wi)) as [[d|] e]; [by injection Hr as <- <-|].
  destruct (m (mkWorld (w_db wi) e true)) as [[err|b] w1] eqn:Em; [by injection Hr as <- <-|].
  destruct (Hm (w_db wi) Hki _ _ _ Em eq_refl eq_refl) as [_ Hq]. specialize (Hq b eq_refl).
  assert (Hs1 : rtc (p_step pass) (w_db w) (w_db w1)) by (transitivity (w_db wi); [done|by apply rtc_once]).
  destruct (engine_Commit (w_engine w1)) as [[failed|] e1]; injection Hr as <- <-; (split; [done|]); (split; [|done]); [|done].
  cbn. by destruct (fault_applied failed).
Qed.

Lemma pass_sessions before limit : before <= T -> triple pass anything (Session_DeleteExpired before limit) (fun _ => anything).
Proof.
  intros Hb. unfold Session_DeleteExpired. apply (proves_bind (fun _ => anything)); [apply proves_check|]. intros n.
  case_bool_decide.
  - apply pass_own_transaction. intros db Hk. eapply within_bind with (Q := fun l d => db = d /\ l = ended_sessions before n db).
    { apply within_statement. by intros d l d' <- [= <- <-]. }
    intros l. apply (within_pure (l = _) (eq db)). intros ->. destruct (ended_sessions_spec before n db (keyed_tables _ Hk)) as [Hnd Hall].
    eapply within_conseq; [apply delete_each_within; [done|]|done|].
    + apply Forall_map, (Forall_impl _ _ _ Hall). intros s (Hs & _ & Hh). split; [by exists s|by apply not_held_unheld; [apply keyed_tables|]].
    + intros m db' [_ ->]. rewrite foldl_sessions. by apply sessions_pass.
  - apply pass_statement. intros db a db' Hk [= _ <-]. by apply sessions_pass.
Qed.

Lemma pass_clean {A} what (m : M (E:=E) Z) errors (k : Z * list (string * storage_error) -> M (E:=E) A) :
  triple pass anything m (fun _ => anything) -> (forall r, triple pass anything (k r) (fun _ => anything)) ->
  triple pass anything (r ← clean what m errors; k r) (fun _ => anything).
Proof.
  intros Hm Hk. apply (proves_bind (fun _ => anything)); [|done]. unfold clean. apply (proves_bind (fun _ => anything)).
  - apply (proves_post _ (proves_try pass _ _ _ Hm)). done.
  - intros [[]|c]; [..|by apply (proves_ret pass _ (fun _ => anything))]; [by apply (proves_ret pass _ (fun _ => anything))..|apply proves_fail].
Qed.

Lemma run_once_pass batchSize : triple pass anything (RunOnce batchSize) (fun _ => anything).
Proof.
  unfold RunOnce. apply (proves_bind (fun t _ => t <= T)).
  { apply (proves_post _ (proves_now _ _)). intros t db _ [_ [e <-]]. apply Hclock. }
  intros before. apply (proves_conseq (fun db => True /\ before <= T) (fun _ => anything)); [|done|done].
  apply (proves_pure pass (before <= T) anything). intros Hb.
  apply pass_clean; [|intros [n1 e1]; apply pass_clean; [|intros [n2 e2]; apply pass_clean; [|intros [n3 e3]; apply pass_clean;
    [|intros [n4 e4]; apply pass_clean; [|intros [n5 e5]; apply pass_clean; [|intros [n6 e6]; by apply (proves_ret pass _ (fun _ => anything))]]]]]].
  - apply (proves_bind (fun _ => anything)); [apply proves_check|]. intros l. apply pass_directory. intros db a d _ [= _ <-]. by apply requests_pass.
  - apply (proves_bind (fun _ => anything)); [apply proves_check|]. intros l. apply (proves_bind (fun _ => anything)); [apply proves_check|].
    intros u. apply pass_directory. intros db a d Hk Hd. by apply (admins_pass T before l db a).
  - apply (proves_bind (fun _ => anything)); [apply proves_check|]. intros l. apply pass_statement. intros db a db' Hk Hd.
    by apply (idempotency_pass T before l db a).
  - by apply pass_sessions.
  - apply (proves_bind (fun _ => anything)); [apply proves_check|]. intros l. apply pass_directory. intros db a d _ [= _ <-]. by apply tokens_pass.
  - apply (proves_bind (fun _ => anything)); [apply proves_check|]. intros l. apply pass_directory. intros db a d _ [= _ <-]. by apply browsers_pass.
Qed.
End worker.

(** A maintenance pass, whatever fails in it, removes only what has expired by the
    end of the pass: codes, tokens, sessions and records that are still good stay as they
    were; so does a session whose tasks still have snapshots to be restored, with those
    tasks, and no snapshot is ever removed. *)
Theorem maintenance_keeps_live {E} `{EN : Engine E} T (Hothers : others_pass T) batchSize w r w' :
  (forall e : E, (engine_Now e).1 <= T) -> w_tx w = false -> rows_keyed (w_db w) ->
  RunOnce batchSize w = (r, w') -> kept T (w_db w) (w_db w') /\ rows_keyed (w_db w').
Proof.
  intros Hclock Hw Hk Hr. destruct (run_once_pass T Hothers Hclock batchSize w r w' Hr Hw Hk I) as (_ & Hs & _).
  by apply steps_kept.
Qed.
