(* ===== verification/AuthGrants.v ===== *)
(** * What a grant allows

    Codes and tokens are spent once; a grant that was revoked opens no management
    session, gives no new one and ends the streams that were opened under it; the
    credentials of a management session are the ones that were stored. *)

From S2P Require Import Prelude GoLib GoText GoSort External RemoteTask StorageEngine Netip NetworkSpec SessionStore TaskStore.
From S2P Require Import StorageFacts TaskAPI StoragePages IdentityStore OAuthClientStore.
From S2P Require Import OAuthGrantStore AdminSessionService GoContext StreamLease OAuthStorage TaskStoreFacts StorageTransactions LocalUsers AuthFacts.

(** ** Spending a code *)

Section spending.
Context {E : Type} `{EN : Engine E} (rid kind : string) (hash : bytes).
Context (Hothers : others_auth (E:=E) rid (kind, hash)).

#[local] Abbreviation auth := (auth_protocol rid (kind, hash) Hothers).
#[local] Abbreviation proves := (triple auth).
#[local] Abbreviation gone := (fun db => spent (kind, hash) (tokens db)).

Lemma consumed_spent m now : (update_row (kind, hash) (live_session now) consumed_session m).1 = 1 ->
  spent (kind, hash) (update_row (kind, hash) (live_session now) consumed_session m).2.
Proof.
  unfold update_row. destruct (lookup_where _ _ m) as [s|]; cbn; [|done]. intros _ s'. rewrite lookup_insert_eq. by intros [= <-].
Qed.

Lemma spent_count m now : spent (kind, hash) m -> (update_row (kind, hash) (live_session now) consumed_session m).1 = 0.
Proof.
  intros Hs. unfold update_row. destruct (lookup_where _ _ m) as [s|] eqn:El; [|done]. apply lookup_where_Some in El as [Hl Hp].
  unfold live_session in Hp. bool_hyps. by destruct (Hs s Hl).
Qed.

Lemma get_keeps P : stable auth P -> proves P (OAuth_Get kind hash) (fun _ => P).
Proof.
  intros Hst. unfold OAuth_Get. apply (proves_bind (fun _ => P)); [by apply proves_read_directory|]. intros row.
  apply (proves_post _ (proves_found _ _ row)). by intros ? ? _ [].
Qed.

Lemma consume_spec P now (Q : Z -> Database -> Prop) :
  stable auth P ->
  (forall db db', P db -> tokens db' = (update_row (kind, hash) (live_session now) consumed_session (tokens db)).2 ->
     Q (update_row (kind, hash) (live_session now) consumed_session (tokens db)).1 db') ->
  proves P (write_directory (consume_session kind hash now)) Q.
Proof.
  intros Hst HQ. apply proves_on_directory; [done|]. intros db _ Hp. unfold consume_session. specialize (HQ db).
  pose proof (token_step rid (kind, hash) db _ (tokens_op rid (kind, hash) _ _ (op_consume (tokens db) (kind, hash) now))) as Hs.
  destruct (update_row _ _ _ (tokens db)) as [count m]. split; [by apply rtc_once|].
  by apply (HQ (set_directory db (set_oauth_sessions m (directory db)))).
Qed.

Lemma consume_spends P now : stable auth P -> proves P (OAuth_Consume kind hash now) (fun _ => gone).
Proof.
  intros Hst. unfold OAuth_Consume. apply (proves_bind (fun count db => count = 1 -> gone db)).
  - apply consume_spec; [done|]. intros db db' _ ->. apply consumed_spent.
  - intros count. apply (proves_bind (fun _ => gone)).
    + apply (proves_post _ (proves_expect_one _ _ _)). intros ? db _ [Hs Hc]. by apply Hs.
    + intros u. apply get_keeps, spent_stable.
Qed.

Lemma consume_refused now : proves gone (OAuth_Consume kind hash now) (fun _ _ => False).
Proof.
  unfold OAuth_Consume. apply (proves_bind (fun count _ => count = 0)).
  - apply consume_spec; [apply spent_stable|]. intros db db' Hs _. by apply spent_count.
  - intros count. apply (proves_bind (fun _ _ => False)).
    + apply (proves_post _ (proves_expect_one _ _ _)). intros ? db _ [-> ?]. done.
    + intros u. by apply proves_absurd.
Qed.
End spending.

(** C27 (safety). A code or token that was spent is never spent again, however many
    clients try and whatever they do in between. *)
Theorem code_spent_once {E} `{EN : Engine E} rid kind hash (Hothers : others_auth (E:=E) rid (kind, hash)) now now' w s w1 w2 r w3 :
  w_tx w = false -> OAuth_Consume kind hash now w = (inr s, w1) ->
  w_tx w2 = false -> rtc (auth_step rid (kind, hash)) (w_db w1) (w_db w2) ->
  OAuth_Consume kind hash now' w2 = (r, w3) -> exists e, r = inl e.
Proof.
  intros Hw Hc Hw2 Hs Hc'. destruct (consume_spends rid kind hash Hothers (fun _ => True) now) with (w := w) (r := inr s : storage_error + OAuthSession) (w' := w1)
    as (_ & _ & Hq); try done.
  destruct (consume_refused rid kind hash Hothers now' w2 r w3 Hc' Hw2 I) as (_ & _ & Hf).
  - apply (stable_steps (auth_protocol rid (kind, hash) Hothers) _ _ _ (spent_stable rid (kind, hash) Hothers) Hs I). by apply (Hq s).
  - destruct r as [e|a]; [by exists e|]. destruct (Hf a eq_refl).
Qed.

(** ** Revocation *)

Section revocation.
Context {E : Type} `{EN : Engine E} (rid : string) (code : string * bytes) (Hothers : others_auth (E:=E) rid code).
Context `{HP : HashPackage} `{UP : UuidPackage} `{JV : JsonValidity} `{JX : JsonCodec exchangeMetadata}.

#[local] Abbreviation auth := (auth_protocol rid code Hothers).
#[local] Abbreviation proves := (triple auth).

(** What holds after a revocation, and after whatever happens next. *)
Lemma revoked_since_then now (w w1 w2 : World E) :
  w_tx w = false -> OAuth_RevokeRequest rid now w = (inr tt, w1) -> rtc (auth_step rid code) (w_db w1) (w_db w2) -> over rid (w_db w2).
Proof.
  intros Hw Hr Hs. destruct (revoke_request_spec rid code Hothers (fun _ => True) now) with (w := w) (r := inr tt : storage_error + unit) (w' := w1)
    as (_ & _ & Hq); try done.
  apply (stable_steps auth _ _ _ (over_stable rid code Hothers) Hs I). by apply (Hq tt).
Qed.

Context (store : Store).

Lemma request_active_within db now auth_id :
  within (eq db) (OAuth_RequestActive auth_id now) (fun b db' => eq db db' /\
    b = (0 <? rows_where (fun s => of_request auth_id s && live_session now s && is_token s) (tokens db))).
Proof.
  unfold OAuth_RequestActive. eapply within_bind; [apply within_read_eq|]. intros count. cbn beta. set (n := rows_where _ _).
  apply (within_pure (count = n) (eq db)). intros ->. apply within_return.
Qed.

Lemma ended_inactive m now : ~ live_grant rid m -> (0 <? rows_where (fun s => of_request rid s && live_session now s && is_token s) m) = false.
Proof.
  intros Hn. apply Z.ltb_ge. destruct (Z.le_gt_cases (rows_where (fun s => of_request rid s && live_session now s && is_token s) m) 0) as [|Hpos]; [done|].
  apply rows_where_pos in Hpos as (k & s & Hs & Hall). destruct Hn. exists k, s. unfold of_request, live_session in Hall. bool_hyps. done.
Qed.

(** The transaction of an exchange finds the grant ended. *)
Lemma exchange_within_refused iid authentication reqid eventID now sessionHash csrfHash db :
  over rid db -> within (eq db) (exchange iid rid authentication reqid eventID now sessionHash csrfHash) (fun _ _ => False).
Proof.
  intros [Hn _]. unfold exchange. eapply within_bind; [apply within_or_fail, request_active_within|]. intros active.
  rewrite ended_inactive by done. apply (within_pure (active = false) (eq db)). intros ->. apply within_fail.
Qed.

Lemma exchange_computes iid auth_id authentication reqid eventID now sessionHash csrfHash :
  computes (E:=E) (fun _ => True) (exchange_closure iid auth_id authentication reqid eventID now sessionHash csrfHash)
    (fun _ => exchange iid auth_id authentication reqid eventID now sessionHash csrfHash) (fun _ a => a).
Proof. intros c w. unfold exchange_closure. destruct (exchange _ _ _ _ _ _ _ _ w) as [[e|a] w']; [|done]. by exists e, c. Qed.

Lemma exchange_refused first second iid auth_id authentication reqid :
  TrimSpace auth_id = rid -> proves (over rid) (ExchangeIdentity store first second iid auth_id authentication reqid) (fun _ _ => False).
Proof.
  intros Hid. unfold ExchangeIdentity. cbv zeta. rewrite Hid. destruct (negb _); [apply proves_fail|].
  destruct (negb _ || _ || _); [apply proves_fail|]. destruct (randomToken first) as [t1|]; [|apply proves_fail].
  destruct (randomToken second) as [t2|]; [|apply proves_fail].
  apply (proves_bind _ (proves_now _ _)). intros now. apply (proves_conseq (over rid) (fun _ _ => False)); [|by intros db _ []|done].
  apply (proves_bind (fun _ => over rid)); [apply proves_uuid|]. intros eventID.
  apply (proves_bind (fun r _ => r.1 = None -> False)).
  - apply (proves_closure auth (over rid) store _
      (fun _ => exchange (TrimSpace iid) rid authentication (TrimSpace reqid) eventID now (sha256_Sum256 t1) (sha256_Sum256 t2))
      (fun _ a => a) 0 (fun _ => True) (fun _ _ => False)); [apply over_stable|apply exchange_computes|done|].
    intros c db _ Ho _. eapply within_conseq; [by apply exchange_within_refused|done|]. done.
  - intros [[e|] t]; [destruct e; apply proves_fail|]. apply proves_absurd. intros db Hf. by apply Hf.
Qed.

(** *** Its codes and tokens *)

(** No row that is found is an active one of the grant. *)
Definition not_live (s : OAuthSession) : Prop := o_RequestID s = rid -> o_Status s <> statusActive.

(** The row of a key, if there is one, is of another request; it stays so, since
    only a live grant gets rows. *)
Definition foreign (k : string * bytes) (db : Database) : Prop := forall s, tokens db !! k = Some s -> o_RequestID s <> rid.

(** The row that is followed, if there is one, is of the grant. *)
Definition followed (db : Database) : Prop := forall s, tokens db !! code = Some s -> o_RequestID s = rid.

Lemma over_not_live db k s : over rid db -> tokens db !! k = Some s -> not_live s.
Proof. intros [Hn _] Hs Hr Ha. apply Hn. by exists k, s. Qed.

Lemma foreign_stable k : stable auth (fun db => over rid db /\ foreign k db).
Proof.
  intros db db' _ Hstep [Ho Hf]. split; [by apply (step_over rid code db)|].
  destruct Hstep as [Ht _|Ht _|Ht _]; unfold foreign; rewrite ?Ht; [|done|done].
  destruct Ht as [Hop|s Hr _ _ ->|Hlive _]; [| |by destruct Ho].
  - intros s Hs. destruct (op_rows _ _ _ _ Hop Hs) as (s0 & Hs0 & -> & _). by apply Hf.
  - intros s' [[_ <-]|[_ Hs]]%lookup_insert_Some; [done|by apply Hf].
Qed.

Lemma followed_stable : stable auth followed.
Proof.
  assert (Hop : forall m m', token_op m m' -> (forall s, m !! code = Some s -> o_RequestID s = rid) -> forall s, m' !! code = Some s -> o_RequestID s = rid).
  { intros m m' Hop Hf s Hs. destruct (op_rows _ _ _ _ Hop Hs) as (s0 & Hs0 & -> & _). by apply Hf. }
  intros db db' _ [Ht _|Ht _|Ht _] Hf; unfold followed; rewrite ?Ht; [|done|done].
  destruct Ht as [Hm|s _ Hne _ ->|_ Hsteps].
  - by apply (Hop (tokens db)).
  - intros s'. rewrite lookup_insert_ne by done. by apply Hf.
  - unfold followed in Hf. revert Hf. induction Hsteps as [|x y z [Hxy|[s Hne _]] _ IH]; intros Hf; [by apply Hf| |]; apply IH.
    + by apply (Hop x).
    + intros s'. rewrite lookup_insert_ne by done. by apply Hf.
Qed.

Lemma get_row P kind hash (X : OAuthSession -> Prop) :
  stable auth P -> (forall db s, P db -> tokens db !! (kind, hash) = Some s -> X s) -> proves P (OAuth_Get kind hash) (fun s _ => X s).
Proof.
  intros Hst HX. unfold OAuth_Get. apply (proves_bind (fun row _ => forall s, row = Some s -> X s)).
  - apply proves_read_directory; [done|]. intros db _ Hp s Hs. by apply (HX db).
  - intros row. apply (proves_post _ (proves_found _ _ row)). intros s db _ [Hx Hs]. by apply Hx.
Qed.

Lemma get_not_live kind hash : proves (over rid) (OAuth_Get kind hash) (fun s _ => not_live s).
Proof. apply get_row; [apply over_stable|]. intros db s Ho. by apply over_not_live. Qed.

(** A row that can be spent is not of the grant. *)
Lemma consume_foreign kind hash now : proves (over rid) (OAuth_Consume kind hash now) (fun s _ => o_RequestID s <> rid).
Proof.
  unfold OAuth_Consume. apply (proves_bind (fun count db => over rid db /\ (count = 1 -> foreign (kind, hash) db))).
  - apply proves_on_directory; [apply over_stable|]. intros db _ Ho. unfold consume_session.
    pose proof (token_step rid code db _ (tokens_op rid code _ _ (op_consume (tokens db) (kind, hash) now))) as Hs.
    unfold update_row in *. destruct (lookup_where (kind, hash) (live_session now) (tokens db)) as [s0|] eqn:El; cbn [fst snd] in *.
    + split; [by apply rtc_once|]. split; [by apply (step_over rid code db)|]. intros _ s. cbn. rewrite lookup_insert_eq. intros [= <-].
      apply lookup_where_Some in El as [El Hl]. unfold live_session in Hl. bool_hyps. intros Hr. by apply (over_not_live db _ _ Ho El).
    + split; [by apply rtc_once|]. split; [by apply (step_over rid code db)|]. by intros [=].
  - intros count. apply (proves_bind (fun _ db => over rid db /\ foreign (kind, hash) db)).
    + apply (proves_post _ (proves_expect_one _ _ _)). intros ? db _ [[Ho Hf] Hc]. split; [done|by apply Hf].
    + intros u. apply get_row; [apply foreign_stable|]. intros db s [_ Hf] Hs. by apply Hf.
Qed.

(** The provider is told that the token is inactive. *)
Lemma get_refused `{FositeSession} `{JsonCodec requestDTO} kind signature invalidated w request refused w3 :
  code = (kind, signatureHash signature) -> w_tx w = false -> over rid (w_db w) -> followed (w_db w) ->
  storage_get kind signature invalidated w = (inr (request, refused), w3) -> is_Some refused.
Proof.
  intros Hcode Hw Ho Hf. unfold storage_get. intros (r & w1 & Ht & Hr)%bind_inr. unfold try in Ht.
  destruct (OAuth_Get kind (signatureHash signature) w) as [r0 w0] eqn:Eg. injection Ht as <- <-.
  destruct r0 as [e|stored]; [destruct (storage_Is e ErrNotFound); discriminate Hr|].
  assert (Hrow : proves (fun db => over rid db /\ followed db) (OAuth_Get kind (signatureHash signature)) (fun s _ => o_Status s <> statusActive)).
  { apply get_row; [apply stable_and; [apply over_stable|apply followed_stable]|]. intros db s [Hov Hfl] Hs.
    apply (over_not_live db _ _ Hov Hs), Hfl. by rewrite Hcode. }
  destruct (Hrow w _ _ Eg Hw I (conj Ho Hf)) as (_ & _ & Hq). specialize (Hq stored eq_refl).
  apply bind_inr in Hr as (request' & w2 & _ & Hr). rewrite bool_decide_false in Hr by done. cbn [negb] in Hr.
  apply bind_inr in Hr as (inactive & w4 & Hi & Hr). apply mret_inr in Hi as [-> ->]. destruct invalidated; [|discriminate Hr].
  apply mret_inr in Hr as [[= -> ->] _]. by eexists.
Qed.
End revocation.

(** C26 (safety). Once a grant was revoked, whatever happens afterwards: it is not
    active, and none of its codes and tokens is; none of them can be spent; the
    provider is told of each that it is inactive, or finds nothing; no management
    session that came from the grant is accepted, and none is issued from it. *)
Theorem revocation_is_final {E} `{EN : Engine E} `{HP : HashPackage} `{UP : UuidPackage} `{JV : JsonValidity} `{JX : JsonCodec exchangeMetadata}
    `{FositeSession} `{JsonCodec requestDTO} rid code (Hothers : others_auth (E:=E) rid code) store now w w1 w2 :
  w_tx w = false -> OAuth_RevokeRequest rid now w = (inr tt, w1) ->
  w_tx w2 = false -> rtc (auth_step rid code) (w_db w1) (w_db w2) ->
  (forall now' active w3, OAuth_RequestActive rid now' w2 = (inr active, w3) -> active = false) /\
  (forall kind hash s w3, OAuth_Get kind hash w2 = (inr s, w3) -> o_RequestID s = rid -> o_Status s <> statusActive) /\
  (forall kind hash now' s w3, OAuth_Consume kind hash now' w2 = (inr s, w3) -> o_RequestID s <> rid) /\
  (forall kind signature invalidated request refused w3,
     code = (kind, signatureHash signature) -> (forall s, tokens (w_db w) !! code = Some s -> o_RequestID s = rid) ->
     storage_get kind signature invalidated w2 = (inr (request, refused), w3) -> is_Some refused) /\
  (forall token s w3, Authenticate token w2 = (inr s, w3) -> ad_AuthorizationID s <> rid) /\
  (forall first second iid auth_id authentication reqid c w3,
     ExchangeIdentity store first second iid auth_id authentication reqid w2 = (inr c, w3) -> TrimSpace auth_id <> rid).
Proof.
  intros Hw Hr Hw2 Hs. pose proof (revoked_since_then rid code Hothers now w w1 w2 Hw Hr Hs) as Ho. split_and!.
  - intros now' active w3 Ha. destruct (request_inactive rid code Hothers _ now' (over_stable rid code Hothers) (fun db Ho => proj1 Ho) w2 _ w3 Ha Hw2 I Ho)
      as (_ & _ & Hq). by apply (Hq active).
  - intros kind hash s w3 Hg. destruct (get_not_live rid code Hothers kind hash w2 _ w3 Hg Hw2 I Ho) as (_ & _ & Hq). by apply Hq.
  - intros kind hash now' s w3 Hc. destruct (consume_foreign rid code Hothers kind hash now' w2 _ w3 Hc Hw2 I Ho) as (_ & _ & Hq). by apply Hq.
  - intros kind signature invalidated request refused w3 Hcode Hrow. apply (get_refused rid code Hothers _ _ _ _ _ _ _ Hcode Hw2 Ho).
    destruct (revoke_request_spec rid code Hothers (fun _ => True) now) with (w := w) (r := inr tt : storage_error + unit) (w' := w1) as (_ & Hs0 & _); try done.
    apply (stable_steps (auth_protocol rid code Hothers) _ _ _ (followed_stable rid code Hothers) Hs I).
    by apply (stable_steps (auth_protocol rid code Hothers) _ _ _ (followed_stable rid code Hothers) Hs0 I).
  - intros token s w3 Ha. destruct (authenticate_refused rid code Hothers token w2 _ w3 Ha Hw2 I Ho) as (_ & _ & Hq). by apply Hq.
  - intros first second iid auth_id authentication reqid c w3 Hx Hid.
    destruct (exchange_refused rid code Hothers store first second iid auth_id authentication reqid Hid w2 _ w3 Hx Hw2 I Ho) as (_ & _ & Hq).
    by apply (Hq c).
Qed.

(** C28 (liveness). A stream that was opened under a grant ends within two checks after
    the grant was revoked, even when the database cannot be read. *)
Theorem revoked_stream_ends {E} `{EN : Engine E} `{HP : HashPackage} `{UP : UuidPackage} `{NP : NetipPackage} `{JS : JsonCodec Spec}
    `{JU : JsonCodec unit} `{JV : JsonValidity} `{JT : JsonCodec transitionMetadata}
    code identity (Hothers : others_auth (E:=E) (AuthorizationID identity) code) store reqid sessionID config ctx now w w1 w2 watch watch' w3 :
  AuthorizationID identity <> "" ->
  w_tx w = false -> OAuth_RevokeRequest (AuthorizationID identity) now w = (inr tt, w1) ->
  w_tx w2 = false -> rtc (auth_step (AuthorizationID identity) code) (w_db w1) (w_db w2) ->
  (ctx < length (wt_contexts watch))%nat -> 0 <= wt_errors watch ->
  watchValidation (valid store reqid identity sessionID config) ctx 2 watch w2 = (watch', w3) ->
  ctx_done (wt_contexts watch') ctx = true.
Proof.
  intros Hne Hw Hr Hw2 Hs Hc He Hwatch. pose proof (revoked_since_then (AuthorizationID identity) code Hothers now w w1 w2 Hw Hr Hs) as [Hn _].
  by apply (watch_ends (AuthorizationID identity) code Hothers store reqid identity sessionID config ctx watch w2 watch' w3).
Qed.

(** ** Issuing a management session *)

(** Clients that do anything at all. *)
Definition anyone {E} `{EN : Engine E} : Protocol E :=
  mkProtocol E EN (fun _ _ => True) (fun _ => True) (fun _ _ _ => rtc_once _ _ I) (fun _ _ _ _ => I).

Section tokens.
Lemma lax_of_strict ds l : b64_decode_digits ds = Some l -> b64_lax_digits ds = Some l.
Proof.
  revert l. induction ds as [| | | |p q r s ds IH] using list_ind4; intros l Hd; cbn in *; try done.
  - by destruct (_ =? 0).
  - by destruct (_ =? 0).
  - destruct (b64_decode_digits ds) as [rest|]; [|done]. by rewrite (IH rest).
Qed.

Lemma lax_decode_encode l : b64_lax_DecodeString (b64_EncodeToString l) = Some l.
Proof.
  pose proof (b64_decode_encode l) as Hd. unfold b64_DecodeString, b64_lax_DecodeString in *.
  destruct (mapM _ _) as [ds|]; [|done]. cbn in *. by apply lax_of_strict.
Qed.

Lemma b64_groups_len l : len (b64_groups l) = EncodedLen (len l).
Proof.
  induction l as [|a|a b|a b c l IH] using list_ind3; try reflexivity. unfold EncodedLen, len in *. cbn [b64_groups length].
  rewrite !Nat2Z.inj_succ in *. rewrite IH. div_lia.
Qed.

Lemma encoded_len l : slen (b64_EncodeToString l) = EncodedLen (len l).
Proof. unfold b64_EncodeToString. rewrite slen_of_bytes, b64_encode_groups. unfold len. rewrite length_map. apply b64_groups_len. Qed.

Lemma random_token_valid raw : len raw = tokenEntropyBytes -> validOpaqueToken (b64_EncodeToString raw) = true.
Proof. intros Hl. unfold validOpaqueToken. by rewrite encoded_len, lax_decode_encode, Hl, !Z.eqb_refl. Qed.
End tokens.

Section issuing.
Context {E : Type} `{EN : Engine E} `{HP : HashPackage} `{UP : UuidPackage} `{JV : JsonValidity} `{JX : JsonCodec exchangeMetadata}.

Lemma insert_admin_within P s (Q : unit -> Database -> Prop) :
  (forall db, P db -> Q tt (set_directory db (set_admin_sessions (<[ad_IDHash s := s]> (admins db)) (directory db)))) ->
  within (E:=E) P (statement mapWriteError (insert_admin_session s)) Q.
Proof.
  intros HQ. apply within_statement. intros db [] db' Hp Hi. unfold insert_admin_session in Hi. destruct (_ || _); [discriminate|].
  injection Hi as <-. by apply HQ.
Qed.

(** The session that an exchange stores. *)
Definition issued (iid auth_id authentication : string) (now : time) (sessionHash csrfHash : bytes) : AdminSession :=
  mkAdminSession sessionHash (TrimSpace iid) (TrimSpace auth_id) (TrimSpace authentication) csrfHash now now now
    (now + normalSessionIdleTTL) (now + normalSessionAbsoluteTTL) None.

Lemma exchange_issues iid auth_id authentication reqid eventID now sessionHash csrfHash db :
  within (eq db) (exchange iid auth_id authentication reqid eventID now sessionHash csrfHash) (fun expiresAt db' =>
    expiresAt = now + normalSessionAbsoluteTTL /\ live_grant auth_id (tokens db) /\ is_Some (identities db !! iid) /\
    admins db' !! sessionHash = Some (issued iid auth_id authentication now sessionHash csrfHash)).
Proof.
  unfold exchange. eapply within_bind; [apply within_or_fail, request_active_within|]. intros active. cbn beta.
  set (count := rows_where _ _). apply (within_pure (active = (0 <? count)) (eq db)). intros ->.
  destruct (Z.ltb_spec 0 count) as [Hlive|_]; [|apply within_fail]. cbn [negb].
  apply rows_where_pos in Hlive as (k & s & Hs & Hall).
  assert (Hl : live_grant auth_id (tokens db)).
  { exists k, s. unfold of_request, live_session in Hall. bool_hyps. done. }
  eapply within_bind; [apply within_or_fail, within_Identity_GetByID|]. intros i. cbn beta zeta.
  destruct (negb (After _ _)); [apply within_fail|].
  eapply within_bind with (Q := fun _ db' => is_Some (identities db !! iid) /\
    admins db' !! sessionHash = Some (issued iid auth_id authentication now sessionHash csrfHash)).
  - unfold Admin_Create. eapply within_bind; [apply within_lift|]. intros s'. apply insert_admin_within.
    intros db0 [[<- Hi] Hn]. split; [by eexists|]. unfold normalizeAdminSession in Hn. inv_ok. cbn. rewrite lookup_insert_eq. unfold issued.
    destruct (IsZero 0) eqn:E0; [|done]. unfold minTime, Before, normalSessionIdleTTL, normalSessionAbsoluteTTL, Hour, Minute, Second in *.
    by destruct (Z.ltb_spec (now + 8 * (60 * (60 * 1000000000))) (now + 15 * (60 * 1000000000))); [lia|].
  - intros u. eapply within_bind; [apply within_audit|]. intros v. cbn beta.
    intros w r w' Hr Hw (db0 & events & [Hi Ha] & Hdb). injection Hr as <- <-. split; [done|]. intros a [= <-]. rewrite Hdb. done.
Qed.

(** What the credentials stand for. *)
Definition credentials_stored (iid auth_id : string) (c : Credentials) (db : Database) : Prop :=
  exists s, admins db !! digest (cd_SessionToken c) = Some s /\ ad_IdentityID s = iid /\ ad_AuthorizationID s = auth_id /\
    ad_RevokedAt s = None /\ ad_AbsoluteExpiresAt s = cd_ExpiresAt c /\ VerifyCSRF s (cd_CSRFToken c) = Ok tt.

Lemma valid_uuid_trimmed {UL : UuidLaws} s field : valid_uuid s field = true -> TrimSpace s = s.
Proof. unfold valid_uuid, validateUUID. destruct (uuid_Parse s) as [u|] eqn:Ep; [|done]. intros _. by apply (uuid_trimmed s u). Qed.

Lemma encoded_token raw : bytes_to_string (b64_encode_bytes raw) = b64_EncodeToString raw.
Proof. done. Qed.

Lemma exchange_stores {UL : UuidLaws} store raw1 raw2 iid auth_id authentication reqid :
  len raw1 = tokenEntropyBytes -> len raw2 = tokenEntropyBytes ->
  triple (anyone (E:=E)) (fun _ => True) (ExchangeIdentity store (Some raw1) (Some raw2) iid auth_id authentication reqid)
    (fun c db => credentials_stored (TrimSpace iid) (TrimSpace auth_id) c db /\ cd_SessionToken c = b64_EncodeToString raw1).
Proof.
  intros Hl1 Hl2. unfold ExchangeIdentity. cbv zeta. destruct (valid_uuid (TrimSpace iid) "") eqn:Hi; [|apply proves_fail].
  destruct (valid_uuid (TrimSpace auth_id) "") eqn:Ha; [|apply proves_fail]. cbn [negb orb].
  destruct (bool_decide _ || negb _); [apply proves_fail|]. cbn [randomToken].
  set (t1 := b64_encode_bytes raw1). set (t2 := b64_encode_bytes raw2).
  apply (proves_bind _ (proves_now _ _)). intros now. apply (proves_conseq (fun _ => True) (fun c db => credentials_stored (TrimSpace iid) (TrimSpace auth_id) c db /\ cd_SessionToken c = b64_EncodeToString raw1)); [|done|done].
  apply (proves_bind (fun _ _ => True)); [apply proves_uuid|]. intros eventID.
  set (Q := fun (c : time) db => c = now + normalSessionAbsoluteTTL /\
    admins db !! sha256_Sum256 t1 = Some (issued (TrimSpace iid) (TrimSpace auth_id) authentication now (sha256_Sum256 t1) (sha256_Sum256 t2))).
  apply (proves_bind (fun r db => r.1 = None -> Q r.2 db)).
  - apply (proves_closure anyone (fun _ => True) store _
      (fun _ => exchange (TrimSpace iid) (TrimSpace auth_id) authentication (TrimSpace reqid) eventID now (sha256_Sum256 t1) (sha256_Sum256 t2))
      (fun _ a => a) 0 (fun _ => True) Q); [done|apply exchange_computes|done|].
    intros c db _ _ _. eapply within_conseq; [apply exchange_issues|done|]. intros t db' (-> & _ & _ & Hs).
    split; [by apply rtc_once|]. by split.
  - intros [[e|] t]; [destruct e; apply proves_fail|]. cbn [fst snd].
    apply (proves_conseq (fun db => Q t db) (fun c db => credentials_stored (TrimSpace iid) (TrimSpace auth_id) c db /\ cd_SessionToken c = b64_EncodeToString raw1)); [|intros db _ Hq; by apply Hq|done].
    eapply proves_conseq; [apply (proves_return anyone (Q t))|by intros|]. intros c db _ [[Ht Hs] ->].
    split; [|done]. eexists. unfold digest. cbn [cd_SessionToken cd_CSRFToken cd_ExpiresAt]. rewrite string_to_of_bytes.
    split; [exact Hs|]. cbn. rewrite (valid_uuid_trimmed _ _ Hi), (valid_uuid_trimmed _ _ Ha). do 3 (split; [done|]).
    split; [done|]. unfold VerifyCSRF, digest. cbn [ad_CSRFTokenHash]. rewrite string_to_of_bytes, bool_decide_true by done.
    unfold t2. by rewrite encoded_token, random_token_valid.
Qed.
End issuing.

(** The tokens an exchange returns are well-formed; their hashes are those
    of the stored session, which belongs to the identity and the grant of the request
    and expires when the caller was told. *)
Theorem exchange_roundtrip {E} `{EN : Engine E} `{HP : HashPackage} `{UP : UuidPackage} `{JV : JsonValidity} `{JX : JsonCodec exchangeMetadata}
    {UL : UuidLaws} store raw1 raw2 iid auth_id authentication reqid w c w1 :
  len raw1 = tokenEntropyBytes -> len raw2 = tokenEntropyBytes -> w_tx w = false ->
  ExchangeIdentity store (Some raw1) (Some raw2) iid auth_id authentication reqid w = (inr c, w1) ->
  validOpaqueToken (cd_SessionToken c) = true /\ credentials_stored (TrimSpace iid) (TrimSpace auth_id) c (w_db w1).
Proof.
  intros H1 H2 Hw Hx.
  destruct (exchange_stores store raw1 raw2 iid auth_id authentication reqid H1 H2 w _ w1 Hx Hw I I) as (_ & _ & Hq).
  destruct (Hq c eq_refl) as [Hs ->]. split; [by apply random_token_valid|done].
Qed.
