(* ===== verification/AuthAccounts.v ===== *)
(** * Accounts: passwords, disabling and the first administrator *)

From S2P Require Import Prelude GoLib GoText GoSort External RemoteTask StorageEngine SessionStore TaskStore.
From S2P Require Import StorageFacts StoragePages IdentityStore OAuthClientStore.
From S2P Require Import OAuthGrantStore AdminSessionService TaskStoreFacts StorageTransactions LocalUsers AuthFacts AuthGrants.

(** ** Passwords *)

Definition std_digit_ok (z : Z) : bool :=
  let b := url_to_std (b64_digit z) in
  match std_value b with Some v => v =? z | None => false end && negb (b64_skipped b) && negb (bool_decide (b = x24)).

Lemma std_digit z : 0 <= z < 64 ->
  std_value (url_to_std (b64_digit z)) = Some z /\ b64_skipped (url_to_std (b64_digit z)) = false /\ url_to_std (b64_digit z) <> x24.
Proof.
  intros Hz. assert (Hd : std_digit_ok z = true) by (apply six_bits_forall; [by vm_compute|done]).
  unfold std_digit_ok in Hd. destruct (std_value _); bool_hyps; [|done]. split; [|done]. by f_equal.
Qed.

Lemma std_encode_groups l : std_encode l = map (fun z => url_to_std (b64_digit z)) (b64_groups l).
Proof. unfold std_encode. by rewrite b64_encode_groups, map_map. Qed.

Lemma std_roundtrip l : std_decode (std_encode l) = Some l.
Proof.
  unfold std_decode. rewrite std_encode_groups. pose proof (b64_groups_range l) as Hr.
  rewrite filter_all.
  - assert (E : mapM std_value (map (fun z => url_to_std (b64_digit z)) (b64_groups l)) = Some (b64_groups l)).
    { clear -Hr. induction Hr as [|z ds Hz _ IH]; [done|]. cbn. destruct (std_digit z Hz) as (-> & _). cbn. by rewrite IH. }
    rewrite E. cbn. apply lax_of_strict, b64_decode_groups.
  - apply forallb_forall. intros b (z & <- & Hz)%in_map_iff. rewrite Forall_forall in Hr. apply list_elem_of_In in Hz.
    by destruct (std_digit z (Hr z Hz)) as (_ & -> & _).
Qed.

Lemma std_no_dollar l : x24 ∉ std_encode l.
Proof.
  rewrite std_encode_groups. intros (z & Hz & Hin)%list_elem_of_fmap. pose proof (b64_groups_range l) as Hr.
  rewrite Forall_forall in Hr. by destruct (std_digit z (Hr z Hin)) as (_ & _ & ?).
Qed.

(** The fields of an encoded password. *)
Lemma encoded_fields salt hash :
  split_bytes x24 (string_to_bytes "$argon2id$v=19$m=65536,t=3,p=2$" ++ std_encode salt ++ [x24] ++ std_encode hash) =
  [[]; string_to_bytes "argon2id"; string_to_bytes "v=19"; string_to_bytes "m=65536,t=3,p=2"; std_encode salt; std_encode hash].
Proof.
  change (string_to_bytes "$argon2id$v=19$m=65536,t=3,p=2$" ++ std_encode salt ++ [x24] ++ std_encode hash) with
    ([] ++ x24 :: string_to_bytes "argon2id" ++ x24 :: string_to_bytes "v=19" ++ x24 :: string_to_bytes "m=65536,t=3,p=2" ++
     x24 :: std_encode salt ++ x24 :: std_encode hash).
  rewrite !split_bytes_app; [|first [apply std_no_dollar|apply (bool_decide_unpack _); by vm_compute]..]. by rewrite split_bytes_nosep by apply std_no_dollar.
Qed.

(** What [hashPassword] returns verifies the password it was made from,
    and exactly the passwords with the same Argon2 hash under its salt. *)
Theorem password_roundtrip `{Argon2Package} password salt encoded :
  (forall p s t m threads n, 0 <= n -> len (argon2_IDKey p s t m threads n) = n) ->
  len salt = 16 -> hashPassword password (Some salt) = Ok encoded ->
  forall password', verifyPassword password' encoded = true <->
    argon2_IDKey password' salt 3 (64 * 1024) 2 32 = argon2_IDKey password salt 3 (64 * 1024) 2 32.
Proof.
  intros Hlen Hs He password'. unfold hashPassword in He. cbv zeta in He. apply Ok_inj in He. subst encoded. unfold verifyPassword. rewrite string_to_of_bytes, encoded_fields, !bool_decide_true by done.
  cbn [negb orb]. replace (scan_parameters (string_to_bytes "m=65536,t=3,p=2")) with (Some (65536, 3, 2)) by by vm_compute.
  rewrite !std_roundtrip, Hs, Hlen by done. change (64 * 1024) with 65536. apply bool_decide_eq_true.
Qed.

(** A hash function of the right shape. *)
Definition sample_argon2 : Argon2Package :=
  {| argon2_IDKey := fun p s _ _ _ n => take (Z.to_nat n) (p ++ s ++ repeat x00 (Z.to_nat n)) |}.

Lemma sample_argon2_length p s t m threads n : 0 <= n -> len (argon2_IDKey (Argon2Package := sample_argon2) p s t m threads n) = n.
Proof. intros Hn. cbn. unfold len. rewrite length_take, !length_app, repeat_length. lia. Qed.

Definition sample_salt : bytes := repeat x07 16.

Lemma password_roundtrip_witness :
  exists encoded, hashPassword (H := sample_argon2) (string_to_bytes "correct-horse") (Some sample_salt) = Ok encoded /\
    verifyPassword (H := sample_argon2) (string_to_bytes "correct-horse") encoded = true /\
    verifyPassword (H := sample_argon2) (string_to_bytes "wrong-horse!!") encoded = false.
Proof.
  eexists. split; [reflexivity|]. split.
  - apply (password_roundtrip (H := sample_argon2) (string_to_bytes "correct-horse") sample_salt _ sample_argon2_length eq_refl eq_refl). reflexivity.
  - vm_compute. reflexivity.
Defined.

(** ** Disabling an account, changing its password *)

Section disabling.
Context {E : Type} `{EN : Engine E} `{UP : UuidPackage}.
Implicit Types (db : Database).

(** No code or token of the identity can be used. *)
Definition identity_ended (iid : string) db : Prop :=
  forall k s, tokens db !! k = Some s -> o_IdentityID s = iid -> o_Status s <> statusActive.

Abbreviation credentials db := (password_credentials (directory db)).

Lemma revoke_identity_ends iid m now k s :
  revoke_where (of_identity iid) now m !! k = Some s -> o_IdentityID s = iid -> o_Status s <> statusActive.
Proof.
  unfold revoke_where. rewrite lookup_update_where. intros (s0 & _ & ->)%fmap_Some Hi Ha.
  destruct (of_identity iid s0 && bool_decide (o_Status s0 = statusActive)) eqn:Ec; [done|].
  unfold of_identity in Ec. rewrite Hi, Ha, !bool_decide_true in Ec by done. done.
Qed.

Lemma within_update_password P iid at_ set :
  within (E:=E) P (updatePassword iid at_ set) (fun _ db => exists db0 row, P db0 /\
    db = set_directory db0 (set_credentials (<[iid := set row]> (credentials db0)) (directory db0))).
Proof.
  unfold updatePassword. eapply within_bind; [apply within_checked|]. intros u. apply within_weaken.
  eapply within_bind with (Q := fun count db => count = 1 -> exists db0 row, P db0 /\
    db = set_directory db0 (set_credentials (<[iid := set row]> (credentials db0)) (directory db0))).
  - apply within_directory. intros db count d Hp Hf. destruct (credentials db !! iid) as [row|]; injection Hf as <- <-; [|done].
    intros _. by exists db, row.
  - intros count. eapply within_conseq; [apply within_expect_one|intros db Hp; exact Hp|]. cbn. intros ? db [Hp Hc]. by apply Hp.
Qed.

Lemma within_revoke_identity P iid now :
  within (E:=E) P (OAuth_RevokeIdentity iid now) (fun _ db => exists db0, P db0 /\
    db = set_directory db0 (set_oauth_sessions (revoke_where (of_identity iid) now (tokens db0)) (directory db0))).
Proof.
  unfold OAuth_RevokeIdentity. eapply within_bind; [apply within_checked|]. intros u. apply within_weaken.
  apply within_directory. intros db count d Hp [= <- <-]. by exists db.
Qed.

(** The credential is what the operation makes it, and the grants are over. *)
Definition account_changed (iid : string) (ok : PasswordCredential -> Prop) db : Prop :=
  identity_ended iid db /\ exists row, credentials db !! iid = Some row /\ ok row.

Lemma change_account store iid at_ set (ok : PasswordCredential -> Prop) now :
  (forall row, ok (set row)) ->
  triple (anyone (E:=E)) (fun _ => True)
    (in_transaction store (_ ← updatePassword iid at_ set; _ ← OAuth_RevokeIdentity iid now; mret tt))
    (fun _ => account_changed iid ok).
Proof.
  intros Hok. apply proves_transaction; [done|]. intros db _ _.
  eapply within_conseq with (Q' := fun _ db' => account_changed iid ok db'); [|done|by intros u db' Hq; split; [by apply rtc_once|]].
  eapply within_bind; [apply within_update_password|]. intros u. eapply within_bind; [apply within_revoke_identity|].
  intros n. cbn beta. eapply within_conseq; [apply within_value|intros db' Hp; exact Hp|]. cbn beta.
  intros v db' (db1 & (db0 & row & _ & ->) & ->). split.
  - intros k s. cbn. apply revoke_identity_ends.
  - exists (set row). split; [by apply lookup_insert_eq|done].
Qed.
End disabling.

(** Disabling an account or changing its password ends every code and token
    of the identity in the same transaction. *)
Theorem account_change_ends_grants {E} `{EN : Engine E} `{UP : UuidPackage} `{AP : Argon2Package} store iid w w' :
  w_tx w = false ->
  (SetEnabled store iid false w = (inr tt, w') -> account_changed iid (fun row => pw_Enabled row = false) (w_db w')) /\
  (forall salt password, SetPassword store salt iid password w = (inr tt, w') -> identity_ended iid (w_db w')).
Proof.
  intros Hw. split.
  - intros Hs. assert (Ht : triple (anyone (E:=E)) (fun _ => True) (SetEnabled store iid false)
                              (fun _ => account_changed iid (fun row => pw_Enabled row = false))).
    { unfold SetEnabled. eapply proves_bind; [apply proves_now|]. intros now. cbn beta.
      apply (proves_conseq (fun _ => True) (fun _ => account_changed iid (fun row => pw_Enabled row = false))); [|done|done].
      by apply (change_account store iid now). }
    destruct (Ht w _ w' Hs Hw I I) as (_ & _ & Hq). by apply (Hq tt).
  - intros salt password Hs. assert (Ht : triple (anyone (E:=E)) (fun _ => True) (SetPassword store salt iid password)
                              (fun _ => account_changed iid (fun _ => True))).
    { unfold SetPassword. destruct (negb _); [apply proves_fail|]. eapply proves_bind; [apply proves_check|]. intros hash.
      eapply proves_bind; [apply proves_now|]. intros now. cbn beta.
      apply (proves_conseq (fun _ => True) (fun _ => account_changed iid (fun _ => True))); [|done|done].
      by apply (change_account store iid now). }
    destruct (Ht w _ w' Hs Hw I I) as (_ & _ & Hq). by apply (Hq tt).
Qed.

(** * The first administrator is created once *)


Abbreviation bootstrap db := (bootstrap_token (directory db)).

Definition consumed_token (now : time) (t : BootstrapToken) : BootstrapToken :=
  mkBootstrapToken (bt_TokenHash t) (bt_CreatedAt t) (bt_ExpiresAt t) (Some now).

(** What clients do to the token: they create it, spend it, and never delete it. *)
Inductive bootstrap_step (db db' : Database) : Prop :=
| bootstrap_same : bootstrap db' = bootstrap db -> bootstrap_step db db'
| bootstrap_create : bootstrap db = None -> bootstrap_step db db'
| bootstrap_spend t now : bootstrap db = Some t -> bootstrap db' = Some (consumed_token now t) -> bootstrap_step db db'.

(** The token was spent. *)
Definition completed (db : Database) : Prop := exists t now, bootstrap db = Some t /\ bt_ConsumedAt t = Some now.

Lemma step_completed db db' : bootstrap_step db db' -> completed db -> completed db'.
Proof.
  intros [Hs|Hn|t now Ht Ht'] (t0 & now0 & Ht0 & Hc); unfold completed.
  - rewrite Hs. by exists t0, now0.
  - congruence.
  - rewrite Ht'. eexists _, now. by split.
Qed.

Section once.
Context {E : Type} `{EN : Engine E} `{UP : UuidPackage} `{UC : UnicodePackage} `{ST : SqlText} `{HP : HashPackage} `{AP : Argon2Package}.
Context `{JV : JsonValidity} `{JL : JsonCodec localMetadata} (store : Store).
Implicit Types (db : Database) (P : Database -> Prop).

Definition others_bootstrap : Prop := forall db (e : E), rtc bootstrap_step db (engine_Others db e).1.

Definition bootstrap_protocol (Ho : others_bootstrap) : Protocol E :=
  mkProtocol E EN bootstrap_step (fun _ => True) (fun db e _ => Ho db e) (fun _ _ _ _ => I).

Context (Hothers : others_bootstrap).
#[local] Abbreviation boot := (bootstrap_protocol Hothers).

Lemma completed_stable : stable boot completed.
Proof. intros db db' _. apply step_completed. Qed.

(** The token of the tables. *)
Definition token_is (bt : option BootstrapToken) db : Prop := bootstrap db = bt.

Lemma within_consume bt hash now :
  within (E:=E) (token_is bt) (Bootstrap_Consume hash now) (fun _ db' => exists t, bt = Some t /\ bt_ConsumedAt t = None /\
    bt_TokenHash t = hash /\ now < bt_ExpiresAt t /\ token_is (Some (consumed_token now t)) db').
Proof.
  unfold Bootstrap_Consume. eapply within_bind; [apply within_checked|]. intros u. apply within_weaken.
  eapply within_bind with (Q := fun count db' => count = 1 -> exists t, bt = Some t /\ bt_ConsumedAt t = None /\
    bt_TokenHash t = hash /\ now < bt_ExpiresAt t /\ token_is (Some (consumed_token now t)) db').
  - apply within_directory. intros db count d Hp Hf. unfold token_is in Hp. unfold consume_bootstrap in Hf. rewrite Hp in Hf.
    destruct bt as [t|]; [|by injection Hf as <- <-]. destruct (_ && _ && _) eqn:Ec; injection Hf as <- <-; [|done].
    intros _. exists t. bool_hyps. split; [done|]. split; [|by repeat split].
    destruct (bt_ConsumedAt t) eqn:Et; [|done]. match goal with H : ~ is_Some _ |- _ => destruct H; by eexists end.
  - intros count. eapply within_conseq; [apply within_expect_one|intros db Hp; exact Hp|]. cbn. intros ? db [Hp Hc]. by apply Hp.
Qed.

(** Nothing else touches the token. *)
Lemma within_graph bt salt request action now :
  within (E:=E) (token_is bt) (createInitialGraph salt request action now) (fun _ => token_is bt).
Proof.
  unfold createInitialGraph, CreateWithRepositories. eapply within_bind with (Q := fun _ => token_is bt).
  - cbv zeta. destruct (negb _ || negb _); [apply within_fail|].
    eapply within_bind; [apply within_lift|]. intros hash. apply within_weaken.
    eapply within_bind; [apply within_now|]. intros t. eapply within_bind; [apply within_uuid|]. intros id.
    eapply within_bind with (Q := fun _ => token_is bt).
    { unfold Identity_Create, normalizeIdentity. cbv zeta. eapply within_bind with (Q := fun _ => token_is bt).
      - do 4 (eapply within_bind; [apply within_checked|]; intros ?; apply within_weaken).
        eapply within_bind; [apply within_now|]. intros t0. eapply within_bind; [apply within_checked|]. intros ?. apply within_weaken.
        apply within_value.
      - intros i. eapply within_bind with (Q := fun _ => token_is bt); [|intros ?; apply within_value].
        apply within_statement. intros db [] db' Hp Hi. unfold insert_identity in Hi. destruct (identities db !! _); [done|].
        injection Hi as <-. exact Hp. }
    intros i. eapply within_bind with (Q := fun _ => token_is bt); [|intros ?; apply within_value].
    unfold CreatePassword. eapply within_bind; [apply within_lift|]. intros c. apply within_weaken.
    apply within_statement. intros db [] db' Hp Hi. unfold insert_password in Hi. destruct (_ || _); [done|]. injection Hi as <-. exact Hp.
  - intros user. eapply within_bind; [apply within_uuid|]. intros eid. eapply within_bind; [apply within_audit|]. intros u.
    eapply within_conseq; [apply within_value|intros db Hp; exact Hp|]. cbn. by intros v db (db0 & events & Hp & ->).
Qed.

(** *** With the token *)

Definition complete_body (request : CompleteRequest) (hash : bytes) (now : time) (salts : nat -> option bytes) (c : nat * User) : M (E:=E) User :=
  _ ← Bootstrap_Consume hash now; createInitialGraph (salts (fst c)) request "iam.bootstrap.complete" now.

Lemma complete_computes request hash now salts :
  computes (E:=E) (fun _ => True) (complete_callback salts request hash now) (complete_body request hash now salts) (fun c a => (S (fst c), a)).
Proof.
  intros c w. unfold complete_callback, complete_body, assigning, mbind, M_bind.
  destruct (Bootstrap_Consume hash now w) as [[e|u] w1]; [by eexists _, c|].
  destruct (createInitialGraph _ _ _ _ w1) as [[e|a] w2]; [by eexists _, _|done].
Qed.

Lemma within_spending hash now db :
  within (E:=E) (eq db) (Bootstrap_Consume hash now) (fun _ db' => exists t, bootstrap db = Some t /\ bt_ConsumedAt t = None /\
    token_is (Some (consumed_token now t)) db').
Proof.
  eapply within_conseq; [apply (within_consume (bootstrap db) hash now)|by intros db' <-|].
  intros u db' (t & Ht & Hc & _ & _ & Htok). by exists t.
Qed.

Lemma within_complete request hash now salts c db :
  within (E:=E) (eq db) (complete_body request hash now salts c) (fun _ db' => exists t, bootstrap db = Some t /\ bt_ConsumedAt t = None /\
    bootstrap db' = Some (consumed_token now t)).
Proof.
  unfold complete_body. eapply within_bind; [apply within_spending|]. intros u. cbn beta.
  intros w r w' Hr Hw (t & Ht & Hc & Htok). destruct (within_graph _ _ _ _ _ _ _ _ Hr Hw Htok) as [Hw' Hq].
  split; [done|]. intros a Ha. exists t. split; [done|]. split; [done|]. by apply (Hq a).
Qed.

Lemma completes P request salts :
  stable boot P ->
  triple boot P (Complete store salts request) (fun r db => r.2 = None -> completed db) /\
  triple boot completed (Complete store salts request) (fun r _ => r.2 <> None).
Proof.
  intros Hst. unfold Complete. cbv zeta. set (req := mkCompleteRequest _ _ _ _ _ _).
  destruct (bool_decide _ || negb _); [split; apply proves_fail|]. split.
  - eapply proves_bind; [apply proves_now|]. intros now. cbn beta.
    apply (proves_conseq P (fun r db => r.2 = None -> completed db)); [|by intros db _ []|done].
    apply (proves_bind (fun r db => r.1 = None -> completed db)).
    + apply (proves_closure boot P store _ _ _ _ (fun _ => True) (fun _ => completed) Hst (complete_computes _ _ _ _) I).
      intros c db _ _ _. eapply within_conseq; [apply within_complete|done|]. cbn beta. intros a db' (t & Ht & Hc & Ht'). split; [|split; [|done]].
      * apply rtc_once. by apply (bootstrap_spend _ _ t now).
      * by eexists _, now.
    + intros [[[e|m e|]|] [n user]]; try apply proves_fail;
        exact (proves_ret boot (user, _) (fun r db => r.2 = None -> completed db)).
  - eapply proves_bind; [apply proves_now|]. intros now. cbn beta.
    apply (proves_conseq completed (fun r _ => r.2 <> None)); [|by intros db _ []|done].
    apply (proves_bind (fun r db => r.1 = None -> False)).
    + apply (proves_closure boot completed store _ _ _ _ (fun _ => True) (fun _ _ => False) completed_stable (complete_computes _ _ _ _) I).
      intros c db _ (t0 & now0 & Ht0 & Hc0) _. eapply within_conseq; [apply within_complete|done|]. cbn beta.
      intros a db' (t & Ht & Hc & _). congruence.
    + intros [[[e|m e|]|] [n user]]; try apply proves_fail.
      1,2: by apply proves_pure_ret.
      apply proves_absurd. intros db Hf. by apply Hf.
Qed.

(** *** At start-up *)

Definition default_body (salts : nat -> option bytes) (request : CompleteRequest) (c : default_captured) : M (E:=E) (option User) :=
  r ← default_checks;
  if negb (snd r : bool) then mret None
  else user ← createInitialGraph (salts (dc_attempt c)) request "iam.bootstrap.default.complete" (fst r); mret (Some user).

Definition default_returns (c : default_captured) (r : option User) : default_captured :=
  match r with Some user => mkDefaultCaptured (S (dc_attempt c)) user true | None => c end.

Lemma default_computes salts request :
  computes (E:=E) (fun c => dc_created c = false) (default_callback salts request) (default_body salts request) default_returns.
Proof.
  intros c w. unfold default_callback, default_body, mbind, M_bind.
  destruct (default_checks w) as [[e|[now [|]]] w1]; cbn; [by exists e, c| |done].
  destruct (createInitialGraph _ _ _ _ w1) as [[e|a] w2]; [by eexists _, _|done].
Qed.

(** A token that is there is found, unless the database fails. *)
Lemma within_try_get db t :
  bootstrap db = Some t -> within (E:=E) (eq db) (try Bootstrap_Get) (fun r _ => match r with inr s => s = t | inl e => storage_Is e ErrNotFound = false end).
Proof.
  intros Ht w r w' Hr Hw Hp. unfold try, Bootstrap_Get, mbind, M_bind in Hr.
  destruct (read_directory "read bootstrap token" bootstrap_token w) as [[e|row] w1] eqn:Es.
  - pose proof (keeps_statement (databaseError "read bootstrap token") (fun db => inr (bootstrap db, db)) w) as Hk.
    unfold read_directory in Es. rewrite Es in Hk. cbn in Hk. destruct (statement_error _ _ _ _ _ Es) as [d ->]. injection Hr as <- <-.
    split; [congruence|]. by intros ? [= <-].
  - destruct (within_read_eq db _ _ w _ w1 Es Hw Hp) as [Hw1 Hq]. destruct (Hq row eq_refl) as [_ ->]. rewrite Ht in Hr.
    injection Hr as <- <-. split; [done|]. by intros ? [= <-].
Qed.

(** Once the token was spent nothing is created, whether or not there are identities. *)
Lemma within_default salts request c db :
  completed db -> within (E:=E) (eq db) (default_body salts request c) (fun r db' => db = db' /\ r = None).
Proof.
  intros (t & now0 & Ht & Hc). unfold default_body. eapply within_bind with (Q := fun r db' => db = db' /\ snd r = false).
  - unfold default_checks. eapply within_bind; [apply within_now|]. intros now. cbn beta.
    eapply within_bind with (Q := fun _ => eq db).
    + unfold Identity_List. eapply within_bind; [apply within_lift|]. intros [limit cursor]. cbv zeta. apply within_weaken.
      do 3 (eapply within_bind; [apply within_checked|]; intros ?; apply within_weaken).
      apply within_statement. by intros db1 l db' Hp [= <- <-].
    + intros l. destruct (negb _).
      { eapply within_conseq; [apply (within_return (eq db))|done|]. by intros r db' [<- ->]. }
      eapply within_bind; [apply (within_try_get db t Ht)|]. intros [e|s].
      * apply (within_conseq _ (fun db' => True /\ storage_Is e ErrNotFound = false) _ _ (fun r db' => db = db' /\ snd r = false)); [|done|done].
        apply (within_pure (storage_Is e ErrNotFound = false) (fun _ => True)). intros ->. apply within_fail.
      * apply (within_conseq _ (fun db' => True /\ s = t) _ _ (fun r db' => db = db' /\ snd r = false)); [|done|done].
        apply (within_pure (s = t) (fun _ => True)). intros ->. rewrite Hc, bool_decide_true by by eexists. apply within_fail.
  - intros r. apply (within_pure (snd r = false) (eq db)). intros ->. apply (within_return (eq db)).
Qed.

Lemma default_refused passwordBytes salts request :
  triple boot completed (CompleteDefault store passwordBytes salts request) (fun r _ => snd r = false).
Proof.
  unfold CompleteDefault. cbv zeta. destruct (negb _); [apply proves_fail|].
  eapply proves_bind; [apply proves_check|]. intros password. cbn beta.
  apply (proves_bind (fun r db => r.1 = None -> dc_created r.2 = false)).
  - apply (proves_closure boot completed store _ _ _ (mkDefaultCaptured O zero_User false) (fun c => dc_created c = false) (fun c _ => dc_created c = false) completed_stable
      (default_computes _ _) eq_refl).
    intros c db _ Hdone Hj. eapply within_conseq; [by apply within_default|done|]. cbn beta. intros r db' [<- ->]. cbn. by split.
  - intros [[e|] c]; [apply proves_fail|]. cbn.
    apply (proves_conseq (fun _ => True /\ dc_created c = false) (fun r _ => snd r = false)); [|by intros db _ Hq; split; [|apply Hq]|done].
    apply (proves_pure boot (dc_created c = false) (fun _ => True)). intros ->. by apply proves_pure_ret.
Qed.
End once.

(** C29 (safety). Whoever completes the bootstrap with the token has spent it: from then on
    nobody completes it again, with the token or at start-up. *)
Theorem bootstrap_once {E} `{EN : Engine E} `{UP : UuidPackage} `{UC : UnicodePackage} `{ST : SqlText} `{HP : HashPackage} `{AP : Argon2Package}
    `{JV : JsonValidity} `{JL : JsonCodec localMetadata} store (Hothers : others_bootstrap (E:=E)) salts request w user w1 w2 :
  w_tx w = false -> Complete store salts request w = (inr (user, None), w1) ->
  w_tx w2 = false -> rtc bootstrap_step (w_db w1) (w_db w2) ->
  (forall salts' request' r w3, Complete store salts' request' w2 = (inr r, w3) -> snd r <> None) /\
  (forall raw salts' request' r w3, CompleteDefault store raw salts' request' w2 = (inr r, w3) -> snd r = false).
Proof.
  intros Hw Hc Hw2 Hs.
  destruct (proj1 (completes store Hothers (fun _ => True) request salts ltac:(done)) w _ w1 Hc Hw I I) as (_ & _ & Hq).
  pose proof (stable_steps (bootstrap_protocol Hothers) _ _ _ (completed_stable Hothers) Hs I (Hq (user, None) eq_refl eq_refl)) as Hd. split.
  - intros salts' request' r w3 Hc'. pose proof (completes store Hothers (fun _ => True) request' salts' ltac:(done)) as [_ Ht].
    destruct (Ht w2 _ w3 Hc' Hw2 I Hd) as (_ & _ & Hr). by apply Hr.
  - intros raw salts' request' r w3 Hc'. destruct (default_refused store Hothers raw salts' request' w2 _ w3 Hc' Hw2 I Hd) as (_ & _ & Hr). by apply Hr.
Qed.

(** * Built-in clients stay as they are *)


Abbreviation clients db := (oauth_clients (directory db)).

(** A first-party client: public, trusted, enabled and without risky grants. *)
Definition first_party (c : OAuthClient) : Prop :=
  oc_Builtin c = true /\ oc_Public c = true /\ oc_Trusted c = true /\ oc_Enabled c = true /\
  oc_GrantTypes c = [grantAuthorizationCode; grantRefreshToken].

Section clients.
Context (id : string).

(** What happens to the client: it is created, deleted unless it is built in, and
    updated the way [Update] does, with the record it read before. *)
Inductive client_step (db db' : Database) : Prop :=
| client_same : clients db' !! id = clients db !! id -> client_step db db'
| client_created : clients db !! id = None -> client_step db db'
| client_deleted c : clients db !! id = Some c -> oc_Builtin c = false -> client_step db db'
| client_updated c existing row : clients db !! id = Some row -> (oc_Builtin row = true -> oc_Builtin existing = true) ->
    clients db' !! id = Some (updated_client (protect existing c) row) -> client_step db db'.

Definition first_party_at (db : Database) : Prop := exists c, clients db !! id = Some c /\ first_party c.

Lemma protected_update existing c row : oc_Builtin existing = true -> oc_Builtin row = true -> first_party (updated_client (protect existing c) row).
Proof. intros He Hr. unfold protect, updated_client, first_party. rewrite He. cbn. by repeat split. Qed.

Lemma step_first_party db db' : client_step db db' -> first_party_at db -> first_party_at db'.
Proof.
  intros Hs (c0 & Hc0 & Hf). pose proof Hf as [Hb _]. destruct Hs as [Hs|Hs|c Hs Hn|c existing row Hs He Hs'].
  - exists c0. by rewrite Hs.
  - congruence.
  - congruence.
  - exists (updated_client (protect existing c) row). split; [done|]. assert (row = c0) as -> by congruence.
    apply protected_update; [by apply He|done].
Qed.

Context {E : Type} `{EN : Engine E}.

Definition others_client : Prop := forall db (e : E), rtc client_step db (engine_Others db e).1.

Definition client_protocol (Ho : others_client) : Protocol E :=
  mkProtocol E EN client_step (fun _ => True) (fun db e _ => Ho db e) (fun _ _ _ _ => I).

Context (Hothers : others_client).
#[local] Abbreviation cl := (client_protocol Hothers).
#[local] Abbreviation proves := (triple cl).
#[local] Abbreviation kept := (fun _ _ => True).
Implicit Types (P : Database -> Prop).

Lemma first_party_stable : stable cl first_party_at.
Proof. intros db db' _. apply step_first_party. Qed.

Lemma get_client P cid :
  stable cl P -> proves P (Client_Get cid) (fun c db => P db /\ exists db0, P db0 /\ clients db0 !! TrimSpace cid = Some c).
Proof.
  intros Hst. unfold Client_Get. cbv zeta. apply (proves_bind (fun _ => P)); [apply proves_check|]. intros u.
  apply (proves_bind (fun row db => P db /\ forall c, row = Some c -> exists db0, P db0 /\ clients db0 !! TrimSpace cid = Some c)).
  - apply proves_read_directory; [done|]. intros db _ Hp. split; [done|]. intros c Hc. by exists db.
  - intros row. apply (proves_post _ (proves_found _ _ row)). intros c db _ [[Hp Hr] Hc]. split; [done|by apply Hr].
Qed.

Lemma normalize_keeps P c create :
  stable cl P -> proves P (normalizeOAuthClient c create) (fun c' db => P db /\ oc_ID c' = TrimSpace (oc_ID c)).
Proof.
  intros Hst. unfold normalizeOAuthClient. cbv zeta. do 3 (apply (proves_bind (fun _ => P)); [apply proves_check|]; intros ?).
  apply (proves_bind (fun _ => P)); [apply (proves_post _ (proves_now _ _)); by intros ? ? _ []|]. intros now.
  apply (proves_post _ (proves_return _ _ _)). intros c' db _ [Hp ->]. by split.
Qed.

Lemma create_client P c : stable cl P -> proves P (Client_Create c) kept.
Proof.
  intros Hst. unfold Client_Create. apply (proves_bind _ (normalize_keeps P c true Hst)). intros c'.
  apply (proves_conseq P kept); [|by intros db _ []|done]. apply proves_statement; [done|]. intros db _ _. unfold insert_client.
  destruct (bool_decide (is_Some (clients db !! oc_ID c'))) eqn:Ei; [done|]. destruct (negb _); [done|]. cbn [orb]. split; [|done].
  apply rtc_once. destruct (decide (oc_ID c' = id)) as [Heq|Hne].
  - apply client_created. rewrite <- Heq. apply eq_None_not_Some. by apply bool_decide_eq_false in Ei.
  - apply client_same. cbn. by rewrite lookup_insert_ne.
Qed.

Lemma update_client_proof c : proves first_party_at (Client_Update c) kept.
Proof.
  unfold Client_Update. apply (proves_bind _ (normalize_keeps _ c false first_party_stable)). intros c'.
  apply (proves_conseq (fun db => first_party_at db /\ oc_ID c' = TrimSpace (oc_ID c)) kept); [|done|done].
  apply (proves_pure cl (oc_ID c' = TrimSpace (oc_ID c)) first_party_at). intros Hid.
  apply (proves_bind _ (get_client _ (oc_ID c') first_party_stable)). intros existing.
  set (found_first := oc_ID c' = id -> oc_Builtin existing = true).
  apply (proves_conseq (fun db => first_party_at db /\ found_first) kept); [| |done].
  - apply (proves_pure cl found_first first_party_at). intros Hb. apply (proves_bind (fun _ _ => True)).
    + apply proves_statement; [apply first_party_stable|]. intros db _ Hp. unfold update_client.
      assert (Hoc : oc_ID (protect existing c') = oc_ID c') by (unfold protect; by destruct (oc_Builtin existing)). rewrite Hoc.
      destruct (clients db !! oc_ID c') as [row|] eqn:Er; [|done]. destruct (negb _); [done|]. split; [|done]. apply rtc_once.
      destruct (decide (oc_ID c' = id)) as [Heq|Hne].
      * apply (client_updated _ _ c' existing row); [by rewrite <- Heq|by intros _; apply Hb|cbn; rewrite Heq; by rewrite lookup_insert_eq].
      * apply client_same. cbn. by rewrite lookup_insert_ne.
    + intros count. apply (proves_post _ (proves_expect_one _ _ _)). done.
  - intros db _ [Hp (db0 & (c0 & Hc0 & Hf) & Hget)]. split; [done|]. intros Heq. rewrite Hid, TrimSpace_idem, <- Hid, Heq in Hget.
    assert (existing = c0) as -> by congruence. apply Hf.
Qed.

Lemma delete_client_proof cid : TrimSpace id = id -> proves first_party_at (Client_Delete cid) kept.
Proof.
  intros Htrim. unfold Client_Delete. apply (proves_bind _ (get_client _ cid first_party_stable)). intros existing.
  apply (proves_bind (fun _ db => first_party_at db /\ (TrimSpace cid <> id))).
  - eapply proves_conseq; [apply proves_checked|intros db _ Hp; exact Hp|]. cbn. intros u db _ [[Hp (db0 & (c0 & Hc0 & Hf) & Hget)] Hb].
    split; [done|]. intros Heq. rewrite Heq in Hget. assert (existing = c0) as -> by congruence. destruct Hf as [Hf _]. by rewrite Hf in Hb.
  - intros u. apply (proves_pure cl (TrimSpace cid <> id) first_party_at). intros Hne. apply (proves_bind (fun _ _ => True)).
    + apply proves_on_directory; [apply first_party_stable|]. intros db _ (c0 & Hc0 & Hf). unfold delete_client.
      destruct (clients db !! cid) as [row|] eqn:Er; [|by rewrite set_same]. split; [|done]. apply rtc_once.
      destruct (decide (cid = id)) as [->|Hd].
      * by rewrite Htrim in Hne.
      * apply client_same. by destruct cascades; cbn; rewrite lookup_delete_ne.
    + intros count. apply (proves_post _ (proves_expect_one _ _ _)). done.
Qed.

Lemma ensure_client_proof c : proves first_party_at (ensure_client c) (fun _ => first_party_at).
Proof.
  unfold ensure_client. apply (proves_bind (fun _ => first_party_at)).
  - apply (proves_post _ (proves_try_stable _ _ _ _ first_party_stable (get_client _ (oc_ID c) first_party_stable))).
    by intros [e|x] db _; [|intros []].
  - intros [e|stored]; [destruct (storage_Is e ErrNotFound); [|apply proves_fail]|].
    + apply (proves_keeps _ _ (fun _ => True)); [apply first_party_stable|]. apply create_client, first_party_stable.
    + apply (proves_keeps _ _ (fun _ => True)); [apply first_party_stable|]. apply update_client_proof.
Qed.

Lemma ensure_clients_proof l : proves first_party_at (ensure_clients l) (fun _ => first_party_at).
Proof.
  induction l as [|c l IH]; cbn [ensure_clients]; [apply (proves_ret _ tt (fun _ => first_party_at))|].
  apply (proves_bind _ (ensure_client_proof c)). by intros [].
Qed.

(** The operations on clients. *)
Inductive client_operation :=
| CreateClient (c : OAuthClient)
| UpdateClient (c : OAuthClient)
| DeleteClient (id : string)
| EnsureBuiltin (managementRedirectURI : string).

Definition client_operate (op : client_operation) : M (E:=E) unit :=
  match op with
  | CreateClient c => Client_Create c
  | UpdateClient c => Client_Update c
  | DeleteClient cid => Client_Delete cid
  | EnsureBuiltin uri => EnsureBuiltinOAuthClients uri
  end.

Lemma operate_steps op : TrimSpace id = id -> proves first_party_at (client_operate op) kept.
Proof.
  intros Htrim. destruct op as [c|c|cid|uri]; cbn.
  - apply create_client, first_party_stable.
  - apply update_client_proof.
  - by apply delete_client_proof.
  - unfold EnsureBuiltinOAuthClients. apply (proves_bind (fun _ => first_party_at)); [apply (proves_post _ (proves_now _ _)); by intros ? ? _ []|].
    intros now. by apply (proves_post _ (ensure_clients_proof _)).
Qed.
End clients.

(** A first-party client stays public, trusted, enabled and without risky grants,
    whatever is done to the clients through the repository and whether or not it succeeds. *)
Theorem builtin_client_protected {E} `{EN : Engine E} id (Hothers : others_client (E:=E) id) op w r w' :
  TrimSpace id = id -> w_tx w = false -> first_party_at id (w_db w) ->
  client_operate op w = (r, w') -> first_party_at id (w_db w').
Proof.
  intros Ht Hw Hf Hr. destruct (operate_steps id Hothers op Ht w r w' Hr Hw I Hf) as (_ & Hs & _).
  exact (stable_steps (client_protocol id Hothers) _ _ _ (first_party_stable id Hothers) Hs I Hf).
Qed.
