(* ===== verification/AuthRuns.v ===== *)
(** * Identities and grants on concrete databases

    Witnesses of the properties, and runs that show what the code does where it does
    not do what it means to. *)

From S2P Require Import Prelude GoLib GoText GoSort External ConcreteEnv Netip ConcreteNetip NetworkSpec NetworkSpecFacts.
From S2P Require Import RemoteTask StorageEngine SessionStore TaskStore StorageFacts TaskAPI TaskStoreFacts.
From S2P Require Import StorageRuns StoragePages IdentityStore OAuthClientStore OAuthGrantStore StorageCleanup.
From S2P Require Import AdminSessionService GoContext StreamLease OAuthStorage LocalUsers.
From S2P Require Import StorageTransactions AuthFacts StorageCleanupFacts AuthGrants AuthAccounts.

(** ** What the environment provides *)

Definition sample_unicode : UnicodePackage := {| strings_ToLower := ToLower |}.
Definition sample_sql : SqlText := {| sql_LOWER := ToLower; sql_LIKE := fun _ _ => true |}.
Definition simple_codec {A} : JsonCodec A := {| json_Marshal := fun _ => string_to_bytes "{}"; json_Decode := fun _ => None |}.
#[export] Existing Instances sample_unicode sample_sql sample_argon2.
#[export] Instance sample_exchange_codec : JsonCodec exchangeMetadata := simple_codec.
#[export] Instance sample_revoke_codec : JsonCodec revokeMetadata := simple_codec.
#[export] Instance sample_request_codec `{FositeSession} : JsonCodec requestDTO := simple_codec.
#[export] Instance sample_fosite : FositeSession := {| DefaultSession := unit; GetExpiresAt := fun _ _ => 0; NewDefaultSession := tt |}.
#[export] Instance sample_local_codec : JsonCodec localMetadata := simple_codec.

(** ** A login *)

Definition grant_id : string := sample_id 4.
Definition token_hash : bytes := repeat x05 32.

Definition sample_token : OAuthSession :=
  mkOAuthSession kindRefreshToken token_hash grant_id identity_id DesktopClientID "device" (string_to_bytes "{}") statusActive 1
    (5000 * Second) None.

Definition login_database : Database :=
  set_directory sample_database (set_oauth_sessions {[(kindRefreshToken, token_hash) := sample_token]} empty_directory).

Definition login_world : World nat := mkWorld login_database 10%nat false.

#[local] Existing Instance quiet_engine.

Lemma quiet_auth rid code : others_auth rid code.
Proof. intros db e. apply rtc_refl. Qed.

Definition after {A} (r : (storage_error + A) * World nat) : World nat := r.2.

(** The token is spent; the second attempt fails. *)
Definition spent_world : World nat := after (OAuth_Consume kindRefreshToken token_hash (2000 * Second) login_world).

Lemma code_spent_once_witness :
  OAuth_Consume kindRefreshToken token_hash (2000 * Second) login_world = (inr (consumed_session sample_token), spent_world) /\
  exists e, (OAuth_Consume kindRefreshToken token_hash (2001 * Second) spent_world).1 = inl e.
Proof.
  split; [vm_compute; reflexivity|].
  apply (code_spent_once grant_id kindRefreshToken token_hash (quiet_auth _ _) (2000 * Second) (2001 * Second) login_world
    (consumed_session sample_token) spent_world spent_world _ (OAuth_Consume kindRefreshToken token_hash (2001 * Second) spent_world).2).
  - reflexivity.
  - vm_compute; reflexivity.
  - vm_compute; reflexivity.
  - apply rtc_refl.
  - apply surjective_pairing.
Defined.

(** ** A management session *)

Definition raw_token : bytes := repeat x2a 32.
Definition raw_csrf : bytes := repeat x2b 32.

Definition exchange_run := ExchangeIdentity sample_store (Some raw_token) (Some raw_csrf) identity_id grant_id Normal "request" login_world.
Definition exchanged_world : World nat := exchange_run.2.
Definition sample_credentials : Credentials :=
  mkCredentials (b64_EncodeToString raw_token) (b64_EncodeToString raw_csrf) (1000 * Second + 10 + normalSessionAbsoluteTTL).

Lemma exchange_roundtrip_witness :
  exchange_run = (inr sample_credentials, exchanged_world) /\
  credentials_stored (TrimSpace identity_id) (TrimSpace grant_id) sample_credentials (w_db exchanged_world).
Proof.
  assert (Hrun : exchange_run = (inr sample_credentials, exchanged_world)) by (vm_compute; reflexivity).
  split; [exact Hrun|].
  apply (exchange_roundtrip sample_store raw_token raw_csrf identity_id grant_id Normal "request" login_world sample_credentials
    exchanged_world); [reflexivity|reflexivity|reflexivity|exact Hrun].
Defined.

(** The session is accepted until its grant is revoked. *)
Definition sample_admin : AdminSession :=
  issued identity_id grant_id Normal (1000 * Second + 10) (sha256_Sum256 (b64_encode_bytes raw_token)) (sha256_Sum256 (b64_encode_bytes raw_csrf)).

Definition revoked_world : World nat := after (OAuth_RevokeRequest grant_id (1500 * Second) exchanged_world).

Lemma revocation_is_final_witness :
  (Authenticate (b64_EncodeToString raw_token) exchanged_world).1 = inr sample_admin /\
  (OAuth_RequestActive grant_id (1400 * Second) exchanged_world).1 = inr true /\
  OAuth_RevokeRequest grant_id (1500 * Second) exchanged_world = (inr tt, revoked_world) /\
  (forall now active w3, OAuth_RequestActive grant_id now revoked_world = (inr active, w3) -> active = false) /\
  (forall now s w3, OAuth_Consume kindRefreshToken token_hash now revoked_world = (inr s, w3) -> o_RequestID s <> grant_id) /\
  (forall token s w3, Authenticate token revoked_world = (inr s, w3) -> ad_AuthorizationID s <> grant_id).
Proof.
  split; [vm_compute; reflexivity|]. split; [vm_compute; reflexivity|]. split; [vm_compute; reflexivity|].
  destruct (revocation_is_final grant_id (kindRefreshToken, token_hash) (quiet_auth _ _) sample_store (1500 * Second) exchanged_world
    revoked_world revoked_world) as (Hactive & _ & Hspent & _ & Hadmin & _);
    [vm_compute; reflexivity|vm_compute; reflexivity|vm_compute; reflexivity|apply rtc_refl|].
  split; [exact Hactive|]. split; [exact (Hspent kindRefreshToken token_hash)|exact Hadmin].
Defined.

(** A stream of the login: it is left alone before the revocation and ends after it. *)
Definition stream_identity : Identity := mkIdentity identity_id "local" "User" "" [] "device" grant_id 0.
Definition stream_config : LeaseConfig := mkLeaseConfig 0 false "" false None (mkAuthzRequest "exec" "development" "pods" "web").
Definition stream_watch : Watch := mkWatch [mkContext [] None] 0.
Definition stream_validate : M (E:=nat) bool := valid sample_store "" stream_identity session_id stream_config.

Lemma revoked_stream_ends_witness :
  ctx_done (wt_contexts (watchValidation stream_validate 0 2 stream_watch exchanged_world).1) 0 = false /\
  ctx_done (wt_contexts (watchValidation stream_validate 0 2 stream_watch revoked_world).1) 0 = true.
Proof.
  split; [vm_compute; reflexivity|].
  apply (revoked_stream_ends (kindRefreshToken, token_hash) stream_identity (quiet_auth _ _) sample_store "" session_id stream_config 0%nat
    (1500 * Second) exchanged_world revoked_world revoked_world stream_watch
    (watchValidation stream_validate 0 2 stream_watch revoked_world).1 (watchValidation stream_validate 0 2 stream_watch revoked_world).2).
  - discriminate.
  - vm_compute; reflexivity.
  - vm_compute; reflexivity.
  - vm_compute; reflexivity.
  - apply rtc_refl.
  - cbn. lia.
  - cbn. lia.
  - apply surjective_pairing.
Defined.

(** ** An account is disabled *)

Definition account_password : bytes := string_to_bytes "correct-horse-battery".
Definition account_hash : string := Eval vm_compute in
  match hashPassword account_password (Some sample_salt) with Ok h => h | Err _ => "" end.
Definition sample_credential : PasswordCredential := mkPasswordCredential identity_id "user" account_hash true 1 1.

Definition account_database : Database :=
  set_directory login_database (set_credentials {[identity_id := sample_credential]} (directory login_database)).
Definition account_world : World nat := mkWorld account_database 10%nat false.

(** The browser the user logged in with. *)
Definition browser_run := CreateBrowserSession (Some raw_token) (mkBrowserIdentity sample_identity providerLocal 1) (12 * Hour) account_world.
Definition browser_world : World nat := after browser_run.
Definition disabled_world : World nat := after (SetEnabled sample_store identity_id false browser_world).

Lemma account_change_ends_grants_witness :
  SetEnabled sample_store identity_id false browser_world = (inr tt, disabled_world) /\
  account_changed identity_id (fun row => pw_Enabled row = false) (w_db disabled_world).
Proof.
  assert (Hrun : SetEnabled sample_store identity_id false browser_world = (inr tt, disabled_world)) by (vm_compute; reflexivity).
  split; [exact Hrun|]. apply (account_change_ends_grants sample_store identity_id browser_world disabled_world); [vm_compute; reflexivity|exact Hrun].
Defined.

(** The password is refused after the account was disabled, but the browser session
    is not: [BrowserIdentity] looks at the status of the identity, which disabling the
    account does not change, and [SetEnabled] leaves browser sessions alone. *)
Theorem disabled_account_keeps_browser :
  (users_Authenticate "" "user" account_password "" account_world).1 =
    inr (mkUser identity_id "user" "User" "user@example.com" true 1 1) /\
  (users_Authenticate "" "user" account_password "" disabled_world).1 = inl (StorageError ErrDisabled) /\
  exists token, (browser_run).1 = inr (token, None) /\
    (browser_identity token disabled_world).1 = inr (mkBrowserIdentity sample_identity providerLocal (1000 * Second + 10)).
Proof.
  split; [vm_compute; reflexivity|]. split; [vm_compute; reflexivity|]. exists (b64_EncodeToString raw_token).
  split; vm_compute; reflexivity.
Qed.

(** ** Bootstrap *)

Definition bootstrap_request : CompleteRequest :=
  mkCompleteRequest (b64_EncodeToString raw_token) "admin" account_password "Administrator" "" (sample_id 9).
Definition salts (n : nat) : option bytes := Some sample_salt.

Definition issued_world : World nat := after (EnsureToken (Some raw_token) (mkWorld empty_database 10%nat false)).
Definition complete_run := Complete sample_store salts bootstrap_request issued_world.
Definition complete_world : World nat := after complete_run.

Definition first_user : User :=
  mkUser (sample_id 13) "admin" "Administrator" "" true (1000 * Second + 12) (1000 * Second + 12).

Lemma quiet_bootstrap : others_bootstrap (E:=nat).
Proof. intros db e. apply rtc_refl. Qed.

Lemma bootstrap_once_witness :
  complete_run = (inr (first_user, None), complete_world) /\
  forall salts' request' r w3, Complete sample_store salts' request' complete_world = (inr r, w3) -> snd r <> None.
Proof.
  assert (Hrun : complete_run = (inr (first_user, None), complete_world)) by (vm_compute; reflexivity).
  split; [exact Hrun|].
  apply (bootstrap_once sample_store quiet_bootstrap salts bootstrap_request issued_world first_user complete_world complete_world);
    [vm_compute; reflexivity|exact Hrun|vm_compute; reflexivity|apply rtc_refl].
Defined.

(** Two processes start on an empty database.  The first attempt of one cannot be
    serialized and is rolled back; before the second attempt the other process has
    created its administrator.  The second attempt does nothing, but [created] and
    [result] are still what the first one assigned: the process reports an
    administrator, with a password, that does not exist. *)
Definition other_administrator (db : Database) : Database := set_identities db {[identity_id := sample_identity]}.
Definition race : World Script :=
  mkWorld empty_database (mkScript [id; other_administrator] [Some (mkFault false (PgError "40001"))] 10 (1000 * Second)) false.

Definition default_request : CompleteRequest := mkCompleteRequest "" "admin" [] "Administrator" "" (sample_id 9).

Theorem lost_bootstrap_counts_as_created :
  let r := CompleteDefault (H := script_engine BackendPostgreSQL) sample_store (Some (repeat x2a 24)) salts default_request race in
  exists user password, r.1 = inr (user, password, true) /\ identities (w_db r.2) !! us_IdentityID user = None /\
    password_credentials (directory (w_db r.2)) = ∅.
Proof. eexists _, _. split; [vm_compute; reflexivity|]. split; vm_compute; reflexivity. Qed.

(** ** Clean-up *)

Definition old_session : Session :=
  mkSession (sample_id 5) identity_id "device" "cluster" "development" "active" 1 sample_network sample_hash 1 1 1 (500 * Second).
Definition held_session : Session :=
  mkSession (sample_id 6) identity_id "device" "cluster" "development" "active" 1 sample_network sample_hash 1 1 1 (500 * Second).
Definition old_task : Task :=
  mkTask (sample_id 7) identity_id (sample_id 5) "pod-exec" Running (string_to_bytes "{}") [] "key-7" 1 1 None.
Definition held_task : Task :=
  mkTask (sample_id 8) identity_id (sample_id 6) "exchange" Running (string_to_bytes "{}") [] "key-8" 1 1 None.
Definition sample_snapshot : ResourceSnapshot :=
  mkResourceSnapshot (sample_id 9) (sample_id 8) "Deployment" "development" "web" (string_to_bytes "{}") 1.

Definition cluttered : Database :=
  set_directory
    (set_tasks (set_sessions sample_database
       (list_to_map [(session_id, sample_session); (sample_id 5, old_session); (sample_id 6, held_session)]))
       (list_to_map [(task_id, sample_task); (sample_id 7, old_task); (sample_id 8, held_task)]))
    (set_snapshots {[snapshot_key sample_snapshot := sample_snapshot]} (directory login_database)).

Definition mysql_engine : Engine nat := {|
  engine_backend := BackendMySQL;
  engine_jsonb := fun l => l;
  engine_Statement := fun e => (None, e);
  engine_Begin := fun e => (None, e);
  engine_Commit := fun e => (None, e);
  engine_Others := fun db e => (db, e);
  engine_Wait := fun _ e => (false, e);
  engine_Err := fun e => (false, e);
  engine_NewUUID := fun e => (sample_id e, S e);
  engine_Now := fun e => (1000 * Second, e)
|}.

Definition cluttered_world : World nat := mkWorld cluttered 10%nat false.

Ltac decide_keyed P := apply (bool_decide_unpack P); vm_compute; exact I.

Lemma cluttered_keyed : rows_keyed cluttered.
Proof.
  constructor; [split|..].
  - decide_keyed (map_Forall (fun id s => s_ID s = id) (sessions cluttered)).
  - decide_keyed (map_Forall (fun id t => t_ID t = id) (tasks cluttered)).
  - decide_keyed (map_Forall (fun k s => ad_IDHash s = k) (admins cluttered)).
  - decide_keyed (map_Forall (fun k r => (i_Scope r, i_Key r) = k) (idempotency_records cluttered)).
Qed.

(** One session has ended, with its task; another is held by the snapshot of its task. *)
Definition mysql_run := deleteExpiredMySQL (H := mysql_engine) (1000 * Second) 100 cluttered_world.

Lemma mysql_before db : before_statement (EN := mysql_engine) cluttered_world db -> db = cluttered.
Proof. by intros [e <-]. Qed.

Lemma mysql_run_result : mysql_run.1 = inr 1.
Proof. vm_compute. reflexivity. Qed.

Lemma mysql_run_pair : mysql_run = (inr 1, mysql_run.2).
Proof. rewrite <- mysql_run_result. apply surjective_pairing. Qed.

Lemma mysql_cleanup_equivalent_witness :
  mysql_run = (inr 1, mysql_run.2) /\
  exists db, before_statement (EN := mysql_engine) cluttered_world db /\
    delete_ended_sessions (H := mysql_engine) (1000 * Second) 100 db = inr (1, w_db mysql_run.2).
Proof.
  split; [exact mysql_run_pair|].
  apply (mysql_cleanup_equivalent (EN := mysql_engine) (1000 * Second) 100 cluttered_world 1 mysql_run.2); [reflexivity| |exact mysql_run_pair].
  intros db ->%mysql_before. exact (keyed_tables _ cluttered_keyed).
Defined.

Definition pass_run := RunOnce (H := mysql_engine) 100 cluttered_world.

Lemma pass_run_result : pass_run.1 = inr (mkReport 1 0 0 0 0 0, []).
Proof. vm_compute. reflexivity. Qed.

Lemma maintenance_keeps_live_witness :
  pass_run.1 = inr (mkReport 1 0 0 0 0 0, []) /\ kept (1000 * Second) cluttered (w_db pass_run.2).
Proof.
  split; [exact pass_run_result|].
  apply (maintenance_keeps_live (EN := mysql_engine) (1000 * Second) (fun db e => rtc_refl _ db) 100 cluttered_world pass_run.1 pass_run.2).
  - intros e. reflexivity.
  - reflexivity.
  - exact cluttered_keyed.
  - exact (surjective_pairing pass_run).
Defined.

(** ** Clients *)

Definition ensured_world : World nat := after (EnsureBuiltinOAuthClients "https://example.com/callback" (mkWorld empty_database 10%nat false)).

Lemma ensured_first_party : first_party_at DesktopClientID (w_db ensured_world).
Proof. eexists. split; [vm_compute; reflexivity|]. by vm_compute. Qed.

(** An attempt to disable a first-party client. *)
Definition disabling_update : OAuthClient :=
  mkOAuthClient DesktopClientID "Renamed" false ["https://evil.example"] [grantClientCredentials] ["scope"] false false false "" 1 1.

Lemma builtin_client_protected_witness :
  (client_operate (UpdateClient disabling_update) ensured_world).1 = inr tt /\
  first_party_at DesktopClientID (w_db (client_operate (UpdateClient disabling_update) ensured_world).2).
Proof.
  split; [vm_compute; reflexivity|].
  apply (builtin_client_protected (EN := quiet_engine) DesktopClientID (fun db e => rtc_refl _ db) (UpdateClient disabling_update) ensured_world
    (client_operate (UpdateClient disabling_update) ensured_world).1);
    [vm_compute; reflexivity|vm_compute; reflexivity|exact ensured_first_party|apply surjective_pairing].
Defined.

(** A record that was there before under the identifier of a first-party client does not
    become one: it can be disabled and deleted. *)
Definition squatter : OAuthClient :=
  mkOAuthClient DesktopClientID "Squatter" true ["https://example.org"] [grantAuthorizationCode] ["openid"] false true false "" 1 1.
Definition squatted_world : World nat :=
  mkWorld (set_directory empty_database (set_oauth_clients {[DesktopClientID := squatter]} empty_directory)) 10%nat false.

Theorem existing_client_stays_ordinary :
  let r := EnsureBuiltinOAuthClients "https://example.com/callback" squatted_world in
  r.1 = inr tt /\ (Client_Delete DesktopClientID r.2).1 = inr tt.
Proof. split; vm_compute; reflexivity. Qed.
