(* ===== verification/SessionRuntime.v ===== *)
(** * The runtime registry of sessions ([controlplane/sessionregistry])

    A registry keeps, for each Session that has work in this process, the tree of
    its tasks and streams, with a cancellation context at each node.  [Disconnect]
    and [Shutdown] cancel a subtree and wait until the streams under it have been
    released.  Sessions and streams are mutable objects that are referred to from
    several places, so they live in lists and are named by their position; a task
    is only reachable through its session.

    The operations run under the registry's mutex: each is one step.  What runs
    outside it is a step of its own: the two parts of a release function, the
    callback that follows the parent context of a stream, and waiting for the
    channel of a session.  [None] is a panic: a channel closed twice or a nil
    pointer. *)

From S2P Require Import Prelude GoLib GoSort GoContext.

(** How far the release function of a stream has run. *)
Inductive phase := Attached | Releasing | Released.

#[export] Instance phase_eq_dec : EqDecision phase.
Proof. solve_decision. Defined.

(** [st_session] and [st_task] are what the release function captures;
    [st_watching]: the callback on [st_parent] is registered. *)
Record streamNode := mkStream {
  st_session : string;
  st_task : string;
  st_sequence : Z;
  st_ctx : nat;
  st_parent : nat;
  st_watching : bool;
  st_phase : phase;
  st_done : bool
}.

Record taskNode := mkTaskNode {
  tk_id : string;
  tk_sequence : Z;
  tk_ctx : nat;
  tk_streams : gmap Z nat
}.

Record sessionNode := mkSessionNode {
  sn_id : string;
  sn_sequence : Z;
  sn_ctx : nat;
  sn_draining : bool;
  sn_tasks : gmap string taskNode;
  sn_done : bool
}.

(** [rg_contexts], [rg_nodes] and [rg_streams] are the objects in memory. *)
Record Registry := mkRegistry {
  rg_contexts : Contexts;
  rg_nodes : list sessionNode;
  rg_streams : list streamNode;
  rg_root : nat;
  rg_closed : bool;
  rg_sequence : Z;
  rg_sessions : gmap string nat
}.

Definition set_contexts (c : Contexts) (rg : Registry) : Registry :=
  mkRegistry c (rg_nodes rg) (rg_streams rg) (rg_root rg) (rg_closed rg) (rg_sequence rg) (rg_sessions rg).
Definition set_nodes (n : list sessionNode) (rg : Registry) : Registry :=
  mkRegistry (rg_contexts rg) n (rg_streams rg) (rg_root rg) (rg_closed rg) (rg_sequence rg) (rg_sessions rg).
Definition set_streams (s : list streamNode) (rg : Registry) : Registry :=
  mkRegistry (rg_contexts rg) (rg_nodes rg) s (rg_root rg) (rg_closed rg) (rg_sequence rg) (rg_sessions rg).
Definition set_closed (rg : Registry) : Registry :=
  mkRegistry (rg_contexts rg) (rg_nodes rg) (rg_streams rg) (rg_root rg) true (rg_sequence rg) (rg_sessions rg).
Definition set_sequence (z : Z) (rg : Registry) : Registry :=
  mkRegistry (rg_contexts rg) (rg_nodes rg) (rg_streams rg) (rg_root rg) (rg_closed rg) z (rg_sessions rg).
Definition set_sessions (m : gmap string nat) (rg : Registry) : Registry :=
  mkRegistry (rg_contexts rg) (rg_nodes rg) (rg_streams rg) (rg_root rg) (rg_closed rg) (rg_sequence rg) m.

Definition set_draining (n : sessionNode) : sessionNode :=
  mkSessionNode (sn_id n) (sn_sequence n) (sn_ctx n) true (sn_tasks n) (sn_done n).
Definition set_tasks (t : gmap string taskNode) (n : sessionNode) : sessionNode :=
  mkSessionNode (sn_id n) (sn_sequence n) (sn_ctx n) (sn_draining n) t (sn_done n).
Definition set_done (n : sessionNode) : sessionNode :=
  mkSessionNode (sn_id n) (sn_sequence n) (sn_ctx n) (sn_draining n) (sn_tasks n) true.
Definition set_task_streams (m : gmap Z nat) (t : taskNode) : taskNode :=
  mkTaskNode (tk_id t) (tk_sequence t) (tk_ctx t) m.
Definition stop_watching (st : streamNode) : streamNode :=
  mkStream (st_session st) (st_task st) (st_sequence st) (st_ctx st) (st_parent st) false (st_phase st) (st_done st).
Definition set_phase (p : phase) (st : streamNode) : streamNode :=
  mkStream (st_session st) (st_task st) (st_sequence st) (st_ctx st) (st_parent st) (st_watching st) p (st_done st).
Definition set_stream_done (st : streamNode) : streamNode :=
  mkStream (st_session st) (st_task st) (st_sequence st) (st_ctx st) (st_parent st) (st_watching st) (st_phase st) true.

Definition cancel_ctx (c : nat) (cause : error) (rg : Registry) : Registry :=
  set_contexts (cancel c cause (rg_contexts rg)) rg.

(** ** Errors *)

Definition ErrClosed : error := VarError "sessionregistry.ErrClosed".
Definition ErrDraining : error := NewError "session runtime is draining".
Definition ErrDisconnected : error := NewError "session disconnected".

Definition validID (value : string) : bool :=
  negb (bool_decide (value = "")) && (slen value <=? 256) && bool_decide (TrimSpace value = value).

Definition compareSequenceDescending (left right : Z) : Z :=
  if right <? left then -1 else if left <? right then 1 else 0.

(** ** Construction ([New]) *)

(** [parent] is a context of the caller, [None] the nil interface. *)
Definition New (parent : option nat) (cs : Contexts) : Registry :=
  let '(parent, cs) := match parent with Some p => (p, cs) | None => Background cs end in
  let '(root, cs) := WithCancelCause parent cs in
  mkRegistry cs [] [] root false 0 ∅.

(** ** Ending sessions ([registry_lifecycle.go]) *)

(** [close(session.done)] *)
Definition close_session (l : nat) (rg : Registry) : option Registry :=
  node ← rg_nodes rg !! l;
  if sn_done node then None else Some (set_nodes (alter set_done l (rg_nodes rg)) rg).

Definition finishSessionLocked (l : nat) (rg : Registry) : option Registry :=
  node ← rg_nodes rg !! l;
  if negb (sn_draining node) || negb (bool_decide (sn_tasks node = ∅)) then Some rg
  else if bool_decide (rg_sessions rg !! sn_id node = Some l)
  then close_session l (set_sessions (delete (sn_id node) (rg_sessions rg)) rg)
  else Some rg.

(** The streams under a session; the order of the maps does not matter, they are
    sorted by their sequence numbers. *)
Definition session_streams (node : sessionNode) : list nat :=
  concat (map (fun p => map snd (map_to_list (tk_streams p.2))) (map_to_list (sn_tasks node))).

Definition load_streams (rg : Registry) (l : list nat) : option (list streamNode) :=
  mapM (fun s => rg_streams rg !! s) l.

Definition sort_streams (l : list streamNode) : list streamNode :=
  SortFunc (fun left right => compareSequenceDescending (st_sequence left) (st_sequence right)) l.
Definition sort_tasks (l : list taskNode) : list taskNode :=
  SortFunc (fun left right => compareSequenceDescending (tk_sequence left) (tk_sequence right)) l.

(** The contexts that draining a session cancels, in this order. *)
Definition drain_order (node : sessionNode) (streams : list streamNode) : list nat :=
  map st_ctx (sort_streams streams) ++ map tk_ctx (sort_tasks (map snd (map_to_list (sn_tasks node)))) ++ [sn_ctx node].

Definition beginDrainLocked (l : nat) (cause : error) (rg : Registry) : option Registry :=
  node ← rg_nodes rg !! l;
  if sn_draining node then Some rg
  else
    streams ← load_streams rg (session_streams node);
    let rg := set_nodes (alter set_draining l (rg_nodes rg)) rg in
    let rg := set_contexts (cancel_all (drain_order node streams) cause (rg_contexts rg)) rg in
    finishSessionLocked l rg.

(** [Disconnect] up to its [select]: [Ok None] is a return without error,
    [Ok (Some l)] the session whose channel it waits for. *)
Definition Disconnect (ctx : option nat) (sessionID : string) (rg : Registry) : option (result (option nat) * Registry) :=
  match ctx with
  | None => Some (Err (NewError "session runtime identity and cleanup context are required"), rg)
  | Some _ =>
      if negb (validID sessionID) then Some (Err (NewError "session runtime identity and cleanup context are required"), rg)
      else match rg_sessions rg !! sessionID with
      | None => Some (Ok None, rg)
      | Some l => rg ← beginDrainLocked l ErrDisconnected rg; Some (Ok (Some l), rg)
      end
  end.

(** The [select] of [Disconnect] on the channel of [l] and the caller's context:
    what it may return; while it may return nothing, it waits. *)
Inductive select_returns (rg : Registry) (ctx l : nat) : result unit -> Prop :=
| select_done node : rg_nodes rg !! l = Some node -> sn_done node = true -> select_returns rg ctx l (Ok tt)
| select_ended : ctx_done (rg_contexts rg) ctx = true -> select_returns rg ctx l (Err (VarError "ctx.Err()")).

Fixpoint drain_all (order : list nat) (rg : Registry) : option Registry :=
  match order with
  | [] => Some rg
  | l :: order => rg ← beginDrainLocked l ErrClosed rg; drain_all order rg
  end.

(** [Shutdown] up to its waiting; [order] is the order in which Go's [range]
    visits the sessions.  The result is the sessions it waits for, in turn. *)
Definition Shutdown (order : list nat) (rg : Registry) : option (list nat * Registry) :=
  let rg := set_closed rg in
  rg ← drain_all order rg;
  let rg := cancel_ctx (rg_root rg) ErrClosed rg in
  nodes ← mapM (fun l => node ← rg_nodes rg !! l; Some (sn_sequence node, l)) order;
  Some (map snd (SortFunc (fun left right => compareSequenceDescending left.1 right.1) nodes), rg).

(** ** Attaching and releasing ([registry.go]) *)

Definition nextSequence (rg : Registry) : Z := uint64 (rg_sequence rg + 1).

Definition ensureSessionLocked (sessionID : string) (rg : Registry) : option (result nat * Registry) :=
  match rg_sessions rg !! sessionID with
  | Some l =>
      node ← rg_nodes rg !! l;
      Some (if sn_draining node then Err ErrDraining else Ok l, rg)
  | None =>
      let rg := set_sequence (nextSequence rg) rg in
      let '(ctx, cs) := WithCancelCause (rg_root rg) (rg_contexts rg) in
      let rg := set_contexts cs rg in
      let l := length (rg_nodes rg) in
      let rg := set_nodes (rg_nodes rg ++ [mkSessionNode sessionID (rg_sequence rg) ctx false ∅ false]) rg in
      Some (Ok l, set_sessions (<[sessionID := l]> (rg_sessions rg)) rg)
  end.

Definition is_closed (rg : Registry) : bool := rg_closed rg || ctx_done (rg_contexts rg) (rg_root rg).

Definition Ensure (sessionID : string) (rg : Registry) : option (result unit * Registry) :=
  if negb (validID sessionID) then Some (Err (NewError "session runtime ID is invalid"), rg)
  else if is_closed rg then Some (Err ErrClosed, rg)
  else '(r, rg) ← ensureSessionLocked sessionID rg;
       Some (match r with Ok _ => Ok tt | Err e => Err e end, rg).

(** The task of an attachment, created when the session does not have it. *)
Definition ensure_task (node : sessionNode) (taskID : string) (rg : Registry) : taskNode * Registry :=
  match sn_tasks node !! taskID with
  | Some task => (task, rg)
  | None =>
      let rg := set_sequence (nextSequence rg) rg in
      let '(ctx, cs) := WithCancelCause (sn_ctx node) (rg_contexts rg) in
      (mkTaskNode taskID (rg_sequence rg) ctx ∅, set_contexts cs rg)
  end.

(** The stream that [Attach] adds to a task of the session [l]; the result is the
    stream, whose context and release function are returned. *)
Definition attach_stream (parent : nat) (l : nat) (sessionID taskID : string) (task : taskNode) (rg : Registry)
    : nat * Registry :=
  let rg := set_sequence (nextSequence rg) rg in
  let streamID := rg_sequence rg in
  let '(ctx, cs) := WithCancelCause (tk_ctx task) (rg_contexts rg) in
  let rg := set_contexts cs rg in
  let s := length (rg_streams rg) in
  let rg := set_streams (rg_streams rg ++ [mkStream sessionID taskID streamID ctx parent true Attached false]) rg in
  let task := set_task_streams (<[streamID := s]> (tk_streams task)) task in
  (s, set_nodes (alter (fun node => set_tasks (<[taskID := task]> (sn_tasks node)) node) l (rg_nodes rg)) rg).

Definition Attach (parent : option nat) (sessionID taskID : string) (rg : Registry) : option (result nat * Registry) :=
  match parent with
  | None => Some (Err (NewError "session and Task runtime identities are required"), rg)
  | Some parent =>
      if negb (validID sessionID) || negb (validID taskID)
      then Some (Err (NewError "session and Task runtime identities are required"), rg)
      else if is_closed rg then Some (Err ErrClosed, rg)
      else
        '(session, rg) ← ensureSessionLocked sessionID rg;
        match session with
        | Err e => Some (Err e, rg)
        | Ok l =>
            node ← rg_nodes rg !! l;
            if sn_draining node then Some (Err ErrDraining, rg)
            else
              let '(task, rg) := ensure_task node taskID rg in
              let '(s, rg) := attach_stream parent l sessionID taskID task rg in
              Some (Ok s, rg)
        end
  end.

(** The callback that [context.AfterFunc] runs once the parent is done. *)
Definition parent_done (s : nat) (rg : Registry) : option Registry :=
  stream ← rg_streams rg !! s;
  match st_watching stream, Cause (rg_contexts rg) (st_parent stream) with
  | true, Some cause =>
      Some (cancel_ctx (st_ctx stream) cause (set_streams (alter stop_watching s (rg_streams rg)) rg))
  | _, _ => Some rg
  end.

(** The release function up to the registry's mutex; [sync.Once] lets it run
    once. *)
Definition begin_release (s : nat) (rg : Registry) : option Registry :=
  stream ← rg_streams rg !! s;
  match st_phase stream with
  | Attached =>
      let rg := set_streams (alter (fun st => set_phase Releasing (stop_watching st)) s (rg_streams rg)) rg in
      Some (cancel_ctx (st_ctx stream) Canceled rg)
  | _ => Some rg
  end.

(** [close(stream.done)] *)
Definition close_stream (s : nat) (rg : Registry) : option Registry :=
  stream ← rg_streams rg !! s;
  if st_done stream then None else Some (set_streams (alter set_stream_done s (rg_streams rg)) rg).

(** The streams of a task without one of them; a task without streams goes. *)
Definition remove_stream (l : nat) (taskID : string) (task : taskNode) (streamID : Z) (rg : Registry) : Registry :=
  let left_over := delete streamID (tk_streams task) in
  if bool_decide (left_over = ∅)
  then set_nodes (alter (fun node => set_tasks (delete taskID (sn_tasks node)) node) l (rg_nodes rg))
         (cancel_ctx (tk_ctx task) Canceled rg)
  else set_nodes (alter (fun node => set_tasks (<[taskID := set_task_streams left_over task]> (sn_tasks node)) node) l
         (rg_nodes rg)) rg.

(** [registry.release], the rest of the release function. *)
Definition release_locked (sessionID taskID : string) (streamID : Z) (s : nat) (rg : Registry) : option Registry :=
  match rg_sessions rg !! sessionID with
  | None => close_stream s rg
  | Some l =>
      node ← rg_nodes rg !! l;
      rg ← match sn_tasks node !! taskID with
           | Some task =>
               if bool_decide (tk_streams task !! streamID = Some s)
               then rg ← close_stream s rg; Some (remove_stream l taskID task streamID rg)
               else Some rg
           | None => Some rg
           end;
      finishSessionLocked l rg
  end.

Definition end_release (s : nat) (rg : Registry) : option Registry :=
  stream ← rg_streams rg !! s;
  match st_phase stream with
  | Releasing =>
      rg ← release_locked (st_session stream) (st_task stream) (st_sequence stream) s rg;
      Some (set_streams (alter (set_phase Released) s (rg_streams rg)) rg)
  | _ => Some rg
  end.

(** ** Runs

    The steps of a process that uses a registry.  The contexts that are not the
    registry's belong to its callers, who derive and cancel contexts as they like;
    the functions that cancel the registry's contexts are not handed out. *)

Definition owned (rg : Registry) (c : nat) : Prop :=
  c = rg_root rg \/
  (exists l node, rg_nodes rg !! l = Some node /\
     (c = sn_ctx node \/ exists taskID task, sn_tasks node !! taskID = Some task /\ c = tk_ctx task)) \/
  exists s stream, rg_streams rg !! s = Some stream /\ c = st_ctx stream.

Inductive step (rg : Registry) : Registry -> Prop :=
| step_ensure sessionID r rg' : Ensure sessionID rg = Some (r, rg') -> step rg rg'
| step_attach parent sessionID taskID r rg' :
    (forall p, parent = Some p -> (p < length (rg_contexts rg))%nat) ->
    Attach parent sessionID taskID rg = Some (r, rg') -> step rg rg'
| step_parent_done s rg' : parent_done s rg = Some rg' -> step rg rg'
| step_begin_release s rg' : begin_release s rg = Some rg' -> step rg rg'
| step_end_release s rg' : end_release s rg = Some rg' -> step rg rg'
| step_disconnect ctx sessionID r rg' : Disconnect ctx sessionID rg = Some (r, rg') -> step rg rg'
| step_shutdown order waited rg' :
    Permutation order (map snd (map_to_list (rg_sessions rg))) -> Shutdown order rg = Some (waited, rg') -> step rg rg'
| step_derive c : (c < length (rg_contexts rg))%nat -> step rg (set_contexts (WithCancelCause c (rg_contexts rg)).2 rg)
| step_background : step rg (set_contexts (Background (rg_contexts rg)).2 rg)
| step_cancel c cause : ~ owned rg c -> step rg (cancel_ctx c cause rg).

(** A run of [n] steps of a process from a new registry. *)
Inductive runs : nat -> Registry -> Prop :=
| runs_new parent cs : contexts_ok cs -> (forall p, parent = Some p -> (p < length cs)%nat) -> runs 0 (New parent cs)
| runs_step n rg rg' : runs n rg -> step rg rg' -> runs (S n) rg'.
