(* ===== verification/SessionRuntimeFacts.v ===== *)
(** * The tree of sessions, tasks and streams stays well formed

    Invariants of the registry of [SessionRuntime], in three parts: the tree, the
    sequence numbers, the contexts. *)

From S2P Require Import Prelude GoLib GoSort GoContext SessionRuntime.

(** ** Lists of objects *)

Section objects.
Context {A : Type}.
Implicit Types (l : list A) (x : A) (i j : nat).

Lemma lookup_snoc_decide l x i : (l ++ [x]) !! i = if decide (i = length l) then Some x else l !! i.
Proof.
  destruct (decide (i = length l)) as [->|Hi]; [by rewrite list_lookup_middle|].
  destruct (decide (i < length l)%nat); [by rewrite lookup_app_l|].
  rewrite !lookup_ge_None_2; [done|lia|rewrite length_app; cbn; lia].
Qed.

Lemma lookup_alter_decide (f : A -> A) l i j : alter f i l !! j = if decide (i = j) then f <$> l !! j else l !! j.
Proof.
  destruct (decide (i = j)) as [->|Hi]; [apply list_lookup_alter_eq|by apply list_lookup_alter_ne].
Qed.
End objects.

(** ** The tree *)

(** The session object [l] has a task [taskID] with the stream [s] under the
    number [q]. *)
Definition registered (rg : Registry) (l : nat) (taskID : string) (q : Z) (s : nat) : Prop :=
  exists node task, rg_nodes rg !! l = Some node /\ sn_tasks node !! taskID = Some task /\ tk_streams task !! q = Some s.

(** [x]: a session that may be drained and empty but not finished yet. *)
Record tree_ok (x : option nat) (rg : Registry) : Prop := {
  t_map : forall id l, rg_sessions rg !! id = Some l -> exists node, rg_nodes rg !! l = Some node /\ sn_id node = id /\
    sn_done node = false /\ (sn_draining node = true -> sn_tasks node = ∅ -> x = Some l);
  t_gone : forall l node, rg_nodes rg !! l = Some node -> sn_done node = false -> rg_sessions rg !! sn_id node = Some l;
  t_done : forall l node, rg_nodes rg !! l = Some node -> sn_done node = true -> sn_draining node = true /\ sn_tasks node = ∅;
  t_tasks : forall l node taskID task, rg_nodes rg !! l = Some node -> sn_tasks node !! taskID = Some task ->
    tk_id task = taskID /\ tk_streams task <> ∅;
  t_streams : forall l node taskID q s, rg_nodes rg !! l = Some node -> registered rg l taskID q s ->
    exists stream, rg_streams rg !! s = Some stream /\ st_session stream = sn_id node /\ st_task stream = taskID /\
    st_sequence stream = q /\ st_phase stream <> Released;
  t_live : forall s stream, rg_streams rg !! s = Some stream -> st_phase stream <> Released ->
    exists l, rg_sessions rg !! st_session stream = Some l /\ registered rg l (st_task stream) (st_sequence stream) s;
  t_stream_done : forall s stream, rg_streams rg !! s = Some stream -> st_done stream = bool_decide (st_phase stream = Released);
  t_watching : forall s stream, rg_streams rg !! s = Some stream -> st_watching stream = true -> st_phase stream = Attached
}.

Lemma load_streams_spec rg l : Forall (fun s => is_Some (rg_streams rg !! s)) l ->
  exists streams, load_streams rg l = Some streams /\ Forall2 (fun s st => rg_streams rg !! s = Some st) l streams.
Proof.
  intros Hl. unfold load_streams. destruct (mapM_is_Some_2 (fun s => rg_streams rg !! s) l Hl) as [streams Hs].
  exists streams. split; [done|]. by apply mapM_Some.
Qed.

Lemma elem_of_session_streams node s :
  s ∈ session_streams node <-> exists taskID task q, sn_tasks node !! taskID = Some task /\ tk_streams task !! q = Some s.
Proof.
  unfold session_streams. rewrite list_elem_of_In, in_concat. setoid_rewrite in_map_iff. split.
  - intros (k & ((tid & task) & <- & Hp) & Hs). apply list_elem_of_In, elem_of_map_to_list in Hp.
    apply in_map_iff in Hs as ((q & s') & <- & Hq). apply list_elem_of_In, elem_of_map_to_list in Hq. by exists tid, task, q.
  - intros (tid & task & q & Ht & Hq). eexists. split.
    + exists (tid, task). split; [done|]. by apply list_elem_of_In, elem_of_map_to_list.
    + apply in_map_iff. exists (q, s). split; [done|]. by apply list_elem_of_In, elem_of_map_to_list.
Qed.

Section tree.
Implicit Types (rg : Registry) (x : option nat).

(** Only the tree matters. *)
Lemma tree_ok_ext x rg rg' : rg_nodes rg' = rg_nodes rg -> rg_streams rg' = rg_streams rg ->
  rg_sessions rg' = rg_sessions rg -> tree_ok x rg -> tree_ok x rg'.
Proof.
  intros En Es Em [H1 H2 H3 H4 H5 H6 H7 H8]. unfold registered in *. split; rewrite ?En, ?Es, ?Em; try done;
    unfold registered; by rewrite ?En.
Qed.

Lemma tree_ok_weaken l rg : tree_ok None rg -> tree_ok (Some l) rg.
Proof.
  intros [H1 H2 H3 H4 H5 H6 H7 H8]. split; try done. intros id l' Hl. destruct (H1 _ _ Hl) as (node & ? & ? & ? & Hx).
  exists node. repeat split; [done..|]. intros Hd Ht. discriminate (Hx Hd Ht).
Qed.

Lemma node_unique x rg l l' node node' : tree_ok x rg ->
  rg_nodes rg !! l = Some node -> rg_nodes rg !! l' = Some node' -> sn_done node = false -> sn_done node' = false ->
  sn_id node = sn_id node' -> l = l'.
Proof. intros T Hl Hl' Hd Hd' He. apply (t_gone _ _ T) in Hl, Hl'; [|done..]. congruence. Qed.

(** [finishSessionLocked] never panics; it removes a session that is drained. *)
Lemma finish_ok l rg : tree_ok (Some l) rg -> is_Some (rg_nodes rg !! l) ->
  exists rg', finishSessionLocked l rg = Some rg' /\ tree_ok None rg' /\
    rg_contexts rg' = rg_contexts rg /\ rg_streams rg' = rg_streams rg /\ rg_root rg' = rg_root rg /\
    rg_closed rg' = rg_closed rg /\ rg_sequence rg' = rg_sequence rg /\
    (rg' = rg \/ exists node, rg_nodes rg !! l = Some node /\ sn_draining node = true /\ sn_tasks node = ∅ /\
       rg_sessions rg' = delete (sn_id node) (rg_sessions rg) /\ rg_nodes rg' = alter set_done l (rg_nodes rg)).
Proof.
  intros T [node Hn]. unfold finishSessionLocked. rewrite Hn. cbn [mbind option_bind].
  destruct (negb (sn_draining node) || negb (bool_decide (sn_tasks node = ∅))) eqn:Eb.
  { exists rg. split; [done|]. split; [|by repeat split; left]. destruct T as [H1 H2 H3 H4 H5 H6 H7 H8]. split; try done.
    intros id l' Hl'. destruct (H1 _ _ Hl') as (node' & Hn' & Hid & Hd & Hx). exists node'. repeat split; try done.
    intros Hdr Ht. specialize (Hx Hdr Ht) as [= <-]. rewrite Hn in Hn'. injection Hn' as <-.
    apply orb_true_iff in Eb as [Eb|Eb]; bool_hyps; congruence. }
  apply orb_false_iff in Eb as [Edr Et]. apply negb_false_iff in Edr, Et. apply bool_decide_eq_true in Et.
  case_bool_decide as Em.
  - unfold close_session. cbn [set_sessions rg_nodes]. rewrite Hn. cbn [mbind option_bind].
    destruct (t_map _ _ T _ _ Em) as (node' & Hn' & _ & Hdone & _). rewrite Hn in Hn'. injection Hn' as <-. rewrite Hdone.
    eexists. split; [done|]. split; [|repeat split; right; by exists node]. destruct T as [H1 H2 H3 H4 H5 H6 H7 H8].
    assert (Hreg : forall l' tid q s, registered (set_nodes (alter set_done l (rg_nodes rg)) (set_sessions (delete (sn_id node) (rg_sessions rg)) rg)) l' tid q s
              <-> registered rg l' tid q s).
    { intros l' tid q s. unfold registered. cbn [set_nodes rg_nodes]. rewrite lookup_alter_decide.
      case_decide as Hd; [subst l'|done]. rewrite Hn. cbn. split.
      - intros (? & task & [= <-] & ?). by exists node, task.
      - intros (? & task & [= <-] & ?). by exists (set_done node), task. }
    split; cbn [set_nodes set_sessions rg_nodes rg_sessions rg_streams].
    + intros id l' [Hne Hl']%lookup_delete_Some. destruct (H1 _ _ Hl') as (node' & Hn' & Hid & Hd' & Hx). exists node'.
      rewrite lookup_alter_decide. destruct (decide (l = l')) as [<-|].
      { rewrite Hn in Hn'. congruence. }
      repeat split; try done. intros Hdr Ht. specialize (Hx Hdr Ht). congruence.
    + intros l' node'. rewrite lookup_alter_decide. case_decide; [subst l'; rewrite Hn; by intros [= <-]|].
      intros Hn' Hd'. apply lookup_delete_Some. split; [|by apply H2]. intros He. specialize (H2 _ _ Hn' Hd'). congruence.
    + intros l' node'. rewrite lookup_alter_decide. case_decide; [subst l'; rewrite Hn; by intros [= <-]|]. apply H3.
    + intros l' node' tid task. rewrite lookup_alter_decide. case_decide; [subst l'; rewrite Hn; intros [= <-]; by apply (H4 l node)|by apply H4].
    + intros l' node' tid q s. rewrite lookup_alter_decide. rewrite Hreg.
      case_decide; [subst l'; rewrite Hn; intros [= <-]; by apply (H5 l node)|by apply H5].
    + intros s st Hs Hp. destruct (H6 _ _ Hs Hp) as (l' & Hl' & Hr). exists l'. rewrite Hreg. split; [|done].
      apply lookup_delete_Some. split; [|done]. intros He. rewrite <- He, Em in Hl'. injection Hl' as <-.
      destruct Hr as (? & ? & Hn2 & Ht2 & _). rewrite Hn in Hn2. injection Hn2 as <-. rewrite Et in Ht2.
      by rewrite lookup_empty in Ht2.
    + done.
    + done.
  - exists rg. split; [done|]. split; [|by repeat split; left]. destruct T as [H1 H2 H3 H4 H5 H6 H7 H8]. split; try done.
    intros id l' Hl'. destruct (H1 _ _ Hl') as (node' & Hn' & Hid & Hd & Hx). exists node'. repeat split; try done.
    intros Hdr Htt. specialize (Hx Hdr Htt) as [= <-]. rewrite Hn in Hn'. injection Hn' as <-. congruence.
Qed.
End tree.

(** ** Steps on the tree *)

Section tree_steps.
Implicit Types (rg : Registry) (x : option nat).

(** Changing a stream without releasing it. *)
Lemma tree_ok_alter_stream x rg s f :
  (forall st, st_session (f st) = st_session st /\ st_task (f st) = st_task st /\ st_sequence (f st) = st_sequence st /\
     st_done (f st) = st_done st /\ (st_watching (f st) = true -> st_watching st = true /\ st_phase (f st) = st_phase st)) ->
  (forall st, rg_streams rg !! s = Some st -> (st_phase (f st) = Released <-> st_phase st = Released)) ->
  tree_ok x rg -> tree_ok x (set_streams (alter f s (rg_streams rg)) rg).
Proof.
  intros Hf Hp [H1 H2 H3 H4 H5 H6 H7 H8]. split; try done; cbn [set_streams rg_streams rg_sessions rg_nodes].
  - intros l node tid q s' Hn Hr. destruct (H5 _ _ _ _ _ Hn Hr) as (st & Hs & Hid & Ht & Hq & Hne).
    destruct (decide (s = s')) as [<-|Hs'].
    + exists (f st). rewrite lookup_alter_decide, decide_True, Hs by done. destruct (Hf st) as (-> & -> & -> & _).
      rewrite Hp by done. done.
    + exists st. by rewrite lookup_alter_decide, decide_False.
  - intros s' st'. rewrite lookup_alter_decide. case_decide as Hd; [subst s'|apply H6].
    destruct (rg_streams rg !! s) as [st|] eqn:Hs; [|done]. intros [= <-]. destruct (Hf st) as (-> & -> & -> & _).
    rewrite Hp by done. by apply H6.
  - intros s' st'. rewrite lookup_alter_decide. case_decide as Hd; [subst s'|apply H7].
    destruct (rg_streams rg !! s) as [st|] eqn:Hs; [|done]. intros [= <-]. destruct (Hf st) as (_ & _ & _ & -> & _).
    rewrite (H7 _ _ Hs). apply bool_decide_ext. by rewrite Hp.
  - intros s' st'. rewrite lookup_alter_decide. case_decide as Hd; [subst s'|apply H8].
    destruct (rg_streams rg !! s) as [st|] eqn:Hs; [|done]. intros [= <-] Hw. destruct (Hf st) as (_ & _ & _ & _ & Hfw).
    destruct (Hfw Hw) as [Hw0 ->]. by eapply H8.
Qed.

(** Changing whether a session drains. *)
Lemma tree_ok_draining rg l node : rg_nodes rg !! l = Some node -> tree_ok None rg ->
  tree_ok (Some l) (set_nodes (alter set_draining l (rg_nodes rg)) rg).
Proof.
  intros Hn [H1 H2 H3 H4 H5 H6 H7 H8].
  assert (Hlk : forall l' node', alter set_draining l (rg_nodes rg) !! l' = Some node' -> exists node0,
            rg_nodes rg !! l' = Some node0 /\ sn_id node' = sn_id node0 /\ sn_tasks node' = sn_tasks node0 /\
            sn_done node' = sn_done node0 /\ (l' <> l -> node' = node0) /\ (l' = l -> sn_draining node' = true)).
  { intros l' node'. rewrite lookup_alter_decide. case_decide as Hd; [subst l'; rewrite Hn; intros [= <-]; by exists node|].
    intros Hn'. exists node'. split_and!; congruence. }
  assert (Hreg : forall l' tid q s, registered (set_nodes (alter set_draining l (rg_nodes rg)) rg) l' tid q s -> registered rg l' tid q s).
  { intros l' tid q s (node' & task & Hn' & Ht & Hq). destruct (Hlk _ _ Hn') as (node0 & ? & _ & Et & _). exists node0, task. by rewrite <- Et. }
  split; cbn [set_nodes rg_streams rg_sessions rg_nodes]; try done.
  - intros id l' Hl'. destruct (H1 _ _ Hl') as (node' & Hn' & Hid & Hd & Hx). rewrite lookup_alter_decide.
    case_decide as Hc.
    + subst l'. rewrite Hn' in *. by exists (set_draining node').
    + exists node'. repeat split; try done. intros Hdr Ht. discriminate (Hx Hdr Ht).
  - intros l' node' Hn'. destruct (Hlk _ _ Hn') as (node0 & Hn0 & -> & _ & -> & _). by apply H2.
  - intros l' node' Hn'. destruct (Hlk _ _ Hn') as (node0 & Hn0 & _ & -> & -> & Hne & Heq). intros Hd.
    destruct (H3 _ _ Hn0 Hd) as [Hdr Ht]. split; [|done]. destruct (decide (l' = l)); [by apply Heq|by rewrite Hne].
  - intros l' node' tid task Hn'. destruct (Hlk _ _ Hn') as (node0 & Hn0 & _ & -> & _). by apply (H4 l' node0).
  - intros l' node' tid q s Hn' Hr. destruct (Hlk _ _ Hn') as (node0 & Hn0 & -> & _). apply (H5 l'); [done|by apply Hreg].
  - intros s st Hs Hp. destruct (H6 _ _ Hs Hp) as (l' & Hl' & node' & task & Hn' & Ht & Hq). exists l'. split; [done|].
    unfold registered. cbn [set_nodes rg_nodes]. rewrite lookup_alter_decide, Hn'.
    case_decide; [by exists (set_draining node'), task|by exists node', task].
Qed.

(** Adding a session. *)
Definition add_node (node : sessionNode) rg : Registry :=
  set_sessions (<[sn_id node := length (rg_nodes rg)]> (rg_sessions rg)) (set_nodes (rg_nodes rg ++ [node]) rg).

Lemma tree_ok_add_node rg id sequence ctx : rg_sessions rg !! id = None -> tree_ok None rg ->
  tree_ok None (add_node (mkSessionNode id sequence ctx false ∅ false) rg).
Proof.
  intros Hnew [H1 H2 H3 H4 H5 H6 H7 H8]. set (new := mkSessionNode id sequence ctx false ∅ false).
  assert (Hold : forall l node, rg_nodes rg !! l = Some node -> l <> length (rg_nodes rg)).
  { intros l node Hn ->. apply lookup_lt_Some in Hn. lia. }
  assert (Hreg : forall l tid q s, registered (add_node new rg) l tid q s <-> registered rg l tid q s).
  { intros l tid q s. unfold registered, add_node. cbn [set_sessions set_nodes rg_nodes]. rewrite lookup_snoc_decide. split.
    - intros (node & task & Hn & Ht & Hq). case_decide; [|by exists node, task].
      injection Hn as <-. cbn in Ht. by rewrite lookup_empty in Ht.
    - intros (node & task & Hn & Ht & Hq). exists node, task. by rewrite decide_False by (by eapply Hold). }
  split; unfold add_node; cbn [set_sessions set_nodes rg_streams rg_sessions rg_nodes sn_id new]; try done.
  - intros id' l [[<- <-]|[Hne Hl]]%lookup_insert_Some.
    + exists new. by rewrite lookup_snoc_decide, decide_True.
    + destruct (H1 _ _ Hl) as (node & Hn & ?). exists node. by rewrite lookup_snoc_decide, decide_False by (by eapply Hold).
  - intros l node. rewrite lookup_snoc_decide. case_decide as Hd.
    + intros [= <-] _. subst l. cbn. by rewrite lookup_insert_eq.
    + intros Hn Hdn. specialize (H2 _ _ Hn Hdn). rewrite lookup_insert_ne; [done|]. congruence.
  - intros l node. rewrite lookup_snoc_decide. case_decide; [by intros [= <-]|apply H3].
  - intros l node tid task. rewrite lookup_snoc_decide. case_decide; [intros [= <-]; cbn; by rewrite lookup_empty|apply H4].
  - intros l node tid q s. rewrite lookup_snoc_decide. intros Hn Hr%Hreg. case_decide as Hd; [|by apply (H5 l)].
    destruct Hr as (? & ? & Hr & _). apply Hold in Hr. done.
  - intros s st Hs Hp. destruct (H6 _ _ Hs Hp) as (l & Hl & Hr). exists l. split; [|by apply Hreg].
    rewrite lookup_insert_ne; [done|]. congruence.
Qed.
End tree_steps.

(** ** Attaching and releasing on the tree *)

Section tree_streams.
Implicit Types (rg : Registry) (x : option nat).

(** A registered stream is in one place only, in a session of the map. *)
Lemma registered_home x rg l tid q s : tree_ok x rg -> registered rg l tid q s ->
  exists stream, rg_streams rg !! s = Some stream /\ rg_sessions rg !! st_session stream = Some l /\
    st_task stream = tid /\ st_sequence stream = q /\ st_phase stream <> Released.
Proof.
  intros T Hr. pose proof Hr as (node & task & Hn & Ht & Hq).
  destruct (t_streams _ _ T _ _ _ _ _ Hn Hr) as (stream & Hs & Hid & Htid & Hseq & Hp). exists stream.
  rewrite Hid. split; [done|]. split; [|done]. apply (t_gone _ _ T _ _ Hn).
  destruct (sn_done node) eqn:Hd; [|done]. destruct (t_done _ _ T _ _ Hn Hd) as [_ He]. rewrite He, lookup_empty in Ht. done.
Qed.

Lemma registered_inj x rg l l' tid tid' q q' s : tree_ok x rg ->
  registered rg l tid q s -> registered rg l' tid' q' s -> l = l' /\ tid = tid' /\ q = q'.
Proof.
  intros T Hr Hr'. destruct (registered_home _ _ _ _ _ _ T Hr) as (st & Hs & Hm & Ht & Hq & _).
  destruct (registered_home _ _ _ _ _ _ T Hr') as (st' & Hs' & Hm' & Ht' & Hq' & _). rewrite Hs in Hs'.
  injection Hs' as <-. rewrite Hm in Hm'. injection Hm' as <-. split; [done|]. by subst.
Qed.

Lemma tree_ok_attach rg parent l node tid task :
  rg_nodes rg !! l = Some node -> rg_sessions rg !! sn_id node = Some l -> sn_draining node = false -> tk_id task = tid ->
  (sn_tasks node !! tid = Some task \/ (sn_tasks node !! tid = None /\ tk_streams task = ∅)) ->
  tk_streams task !! nextSequence rg = None -> tree_ok None rg ->
  tree_ok None (attach_stream parent l (sn_id node) tid task rg).2 /\
  forall l' tid' q s, registered (attach_stream parent l (sn_id node) tid task rg).2 l' tid' q s <->
    registered rg l' tid' q s \/ (l' = l /\ tid' = tid /\ q = nextSequence rg /\ s = length (rg_streams rg)).
Proof.
  intros Hn Hm Hdr Hid Htask Hfresh [H1 H2 H3 H4 H5 H6 H7 H8]. set (rg' := (attach_stream parent l (sn_id node) tid task rg).2).
  set (task' := set_task_streams (<[nextSequence rg := length (rg_streams rg)]> (tk_streams task)) task).
  set (node' := set_tasks (<[tid := task']> (sn_tasks node)) node).
  assert (Hnodes : forall l', rg_nodes rg' !! l' = if decide (l' = l) then Some node' else rg_nodes rg !! l').
  { intros l'. unfold rg', attach_stream. cbn. rewrite lookup_alter_decide.
    destruct (decide (l' = l)) as [->|]; [rewrite decide_True, Hn by done|rewrite decide_False by done]; done. }
  assert (Hstreams : forall s, rg_streams rg' !! s = if decide (s = length (rg_streams rg))
      then Some (mkStream (sn_id node) tid (nextSequence rg) (length (rg_contexts rg)) parent true Attached false)
      else rg_streams rg !! s) by (intros s; apply lookup_snoc_decide).
  assert (Hold : forall s st, rg_streams rg !! s = Some st -> s <> length (rg_streams rg)).
  { intros s st Hs ->. apply lookup_lt_Some in Hs. lia. }
  assert (Hreg : forall l' tid' q s, registered rg' l' tid' q s <->
    registered rg l' tid' q s \/ (l' = l /\ tid' = tid /\ q = nextSequence rg /\ s = length (rg_streams rg))).
  { intros l' tid' q s. unfold registered. rewrite Hnodes. destruct (decide (l' = l)) as [->|]; [|naive_solver]. split.
    - intros (? & t & [= <-] & Ht & Hq). cbn in Ht.
      apply lookup_insert_Some in Ht as [[<- <-]|[Hne Ht]]; [|left; by exists node, t]. cbn in Hq.
      apply lookup_insert_Some in Hq as [[<- <-]|[Hneq Hq]]; [by right|]. left.
      destruct Htask as [Htask|[_ He]]; [by exists node, task|]. by rewrite He, lookup_empty in Hq.
    - intros [(n' & t & Hn' & Ht & Hq)|(_ & -> & -> & ->)].
      + rewrite Hn in Hn'. injection Hn' as <-. exists node'. cbn. destruct (decide (tid' = tid)) as [->|Hne].
        * exists task'. split; [done|]. rewrite lookup_insert_eq. split; [done|].
          destruct Htask as [Htask|[Htask _]]; [|congruence]. rewrite Htask in Ht. injection Ht as <-. cbn.
          rewrite lookup_insert_ne; [done|]. congruence.
        * exists t. by rewrite lookup_insert_ne by done.
      + exists node', task'. cbn. by rewrite !lookup_insert_eq. }
  split; [|exact Hreg]. split.
  - intros id l' Hl'. destruct (H1 id l' Hl') as (n' & Hn' & ? & ? & Hx). rewrite Hnodes.
    case_decide; [subst l'; rewrite Hn in Hn'; injection Hn' as <-; exists node'|by exists n']. repeat split; try done.
    cbn. congruence.
  - intros l' n'. rewrite Hnodes. case_decide; [subst l'; by intros [= <-]|apply H2].
  - intros l' n'. rewrite Hnodes. case_decide; [subst l'; intros [= <-]; cbn; intros Hd; destruct (H3 _ _ Hn Hd); congruence|apply H3].
  - intros l' n' tid' t'. rewrite Hnodes. case_decide; [subst l'; intros [= <-]|apply H4]. cbn.
    intros [[<- <-]|[_ Ht]]%lookup_insert_Some; [|by apply (H4 l node)]. split; [done|]. apply insert_non_empty.
  - intros l' n' tid' q s Hn' Hr. rewrite Hnodes in Hn'. rewrite Hstreams. apply Hreg in Hr as [Hr|(-> & -> & -> & ->)].
    + assert (Hn0 : exists n0, rg_nodes rg !! l' = Some n0 /\ sn_id n' = sn_id n0).
      { case_decide; [subst l'; injection Hn' as <-; by exists node|by exists n']. }
      destruct Hn0 as (n0 & Hn0 & ->). destruct (H5 _ _ _ _ _ Hn0 Hr) as (st & Hs & ?). exists st.
      by rewrite decide_False by (by eapply Hold).
    + rewrite decide_True in Hn' by done. injection Hn' as <-. rewrite decide_True by done. by eexists.
  - intros s st. rewrite Hstreams. case_decide as Hd.
    + intros [= <-] _. exists l. split; [done|]. apply Hreg. by right.
    + intros Hs Hp. destruct (H6 _ _ Hs Hp) as (l' & Hl' & Hr). exists l'. split; [done|]. apply Hreg. by left.
  - intros s st. rewrite Hstreams. case_decide; [by intros [= <-]|apply H7].
  - intros s st. rewrite Hstreams. case_decide; [by intros [= <-]|apply H8].
Qed.
End tree_streams.

Section tree_remove.
Context (rg : Registry) (l : nat) (node : sessionNode) (tid : string) (task : taskNode) (q : Z) (s : nat).
Context (T : tree_ok None rg) (Hn : rg_nodes rg !! l = Some node) (Ht : sn_tasks node !! tid = Some task)
  (Hq : tk_streams task !! q = Some s) (Hw : forall st, rg_streams rg !! s = Some st -> st_watching st = false).

(** The registry after the stream [s] has been closed, removed and released. *)
Definition without_stream : Registry :=
  set_streams (alter (fun st => set_phase Released (set_stream_done st)) s (rg_streams rg)) (remove_stream l tid task q rg).

Lemma without_stream_node l' node' : rg_nodes without_stream !! l' = Some node' -> exists node0,
  rg_nodes rg !! l' = Some node0 /\ sn_id node' = sn_id node0 /\ sn_done node' = sn_done node0 /\
  sn_draining node' = sn_draining node0 /\ (l' <> l -> node' = node0) /\
  (l' = l -> forall tid' t', sn_tasks node' !! tid' = Some t' -> tk_streams t' <> ∅ /\ exists t0, sn_tasks node !! tid' = Some t0 /\
     tk_id t' = tk_id t0 /\ tk_ctx t' = tk_ctx t0 /\ tk_sequence t' = tk_sequence t0 /\
     tk_streams t' = if decide (tid' = tid) then delete q (tk_streams t0) else tk_streams t0).
Proof.
  unfold without_stream, remove_stream. cbn [set_streams rg_nodes].
  assert (Hne : forall tid' t', sn_tasks node !! tid' = Some t' -> tk_streams t' <> ∅) by (intros tid' t' Ht'; by apply (t_tasks _ _ T l node tid')).
  case_bool_decide as He; cbn [set_nodes cancel_ctx set_contexts rg_nodes]; rewrite lookup_alter_decide;
    (destruct (decide (l = l')) as [<-|Hl]; [rewrite Hn; intros [= <-]; exists node; split_and!; try done; intros _ tid' t'; cbn|
     intros Hn'; exists node'; split_and!; congruence]).
  - intros [Hd Ht']%lookup_delete_Some. split; [by eapply Hne|]. exists t'. by rewrite decide_False by congruence.
  - intros [[<- <-]|[Hd Ht']]%lookup_insert_Some.
    + split; [done|]. exists task. by rewrite decide_True.
    + split; [by eapply Hne|]. exists t'. by rewrite decide_False by congruence.
Qed.

Lemma without_stream_registered l' tid' q' s' :
  registered without_stream l' tid' q' s' <-> registered rg l' tid' q' s' /\ s' <> s.
Proof.
  split.
  - intros (node' & t' & Hn' & Ht' & Hq').
    destruct (without_stream_node _ _ Hn') as (node0 & Hn0 & _ & _ & _ & Hne & Heq). destruct (decide (l' = l)) as [->|Hl].
    + rewrite Hn in Hn0. injection Hn0 as <-. destruct (Heq eq_refl _ _ Ht') as (_ & t0 & Ht0 & _ & _ & _ & Hs).
      assert (Hr : registered rg l tid' q' s' /\ (tid' = tid -> q' <> q)).
      { destruct (decide (tid' = tid)); rewrite Hs in Hq'; [apply lookup_delete_Some in Hq' as [Hqq Hq']|]; split; try (by exists node, t0);
          congruence. }
      destruct Hr as [Hr Hd]. split; [done|]. intros ->. destruct (registered_inj _ _ l l tid' tid q' q s T Hr) as (_ & -> & ->);
        [by exists node, task|by apply Hd].
    + rewrite (Hne Hl) in *. split; [by exists node0, t'|]. intros ->.
      destruct (registered_inj _ _ l' l tid' tid q' q s T) as (? & _); [by exists node0, t'|by exists node, task|done].
  - intros [(node' & t' & Hn' & Ht' & Hq') Hne]. unfold registered, without_stream, remove_stream. cbn [set_streams rg_nodes].
    destruct (decide (l' = l)) as [->|Hl].
    + rewrite Hn in Hn'. injection Hn' as <-. destruct (decide (tid' = tid)) as [->|Htid].
      * rewrite Ht in Ht'. injection Ht' as <-. assert (Hqq : delete q (tk_streams task) !! q' = Some s').
        { rewrite lookup_delete_ne; [done|]. intros ->. congruence. }
        rewrite bool_decide_false by (intros He; by rewrite He, lookup_empty in Hqq).
        cbn [set_nodes rg_nodes]. rewrite lookup_alter_decide, decide_True, Hn by done. cbn.
        eexists _, _. split; [done|]. cbn. by rewrite lookup_insert_eq.
      * case_bool_decide; cbn [set_nodes rg_nodes cancel_ctx set_contexts]; rewrite lookup_alter_decide, decide_True, Hn by done; cbn;
          eexists _, t'; (split; [done|]); cbn; [rewrite lookup_delete_ne by done|rewrite lookup_insert_ne by done]; done.
    + exists node', t'. split; [|done]. case_bool_decide; cbn [set_nodes rg_nodes cancel_ctx set_contexts]; by rewrite lookup_alter_decide, decide_False.
Qed.

Lemma without_stream_ok : tree_ok (Some l) without_stream.
Proof.
  assert (Hm : rg_sessions without_stream = rg_sessions rg) by (unfold without_stream, remove_stream; by case_bool_decide).
  assert (Hs : rg_streams without_stream = alter (fun st => set_phase Released (set_stream_done st)) s (rg_streams rg)).
  { unfold without_stream, remove_stream. by case_bool_decide. }
  assert (Hlk : forall l' node0, rg_nodes rg !! l' = Some node0 -> is_Some (rg_nodes without_stream !! l')).
  { intros l' node0 Hl'. unfold without_stream, remove_stream.
    case_bool_decide; cbn [set_streams set_nodes rg_nodes]; rewrite lookup_alter_decide; case_decide; rewrite Hl'; by eexists. }
  destruct T as [H1 H2 H3 H4 H5 H6 H7 H8]. split; rewrite ?Hm, ?Hs.
  - intros id l' Hl'. destruct (H1 _ _ Hl') as (node0 & Hn0 & Hid & Hd & Hx). destruct (Hlk _ _ Hn0) as [node' Hn'].
    destruct (without_stream_node _ _ Hn') as (n0 & Hn1 & Hid' & Hdn & Hdr & Hne & _). rewrite Hn0 in Hn1. injection Hn1 as <-.
    exists node'. split_and!; [done|congruence..|]. intros Hdr' Hte. destruct (decide (l' = l)) as [->|Hl]; [done|].
    rewrite (Hne Hl) in *. discriminate (Hx Hdr' Hte).
  - intros l' node' Hn'. destruct (without_stream_node _ _ Hn') as (n0 & Hn0 & -> & -> & _). by apply H2.
  - intros l' node' Hn'. destruct (without_stream_node _ _ Hn') as (n0 & Hn0 & _ & -> & -> & Hne & _). intros Hd.
    destruct (H3 _ _ Hn0 Hd) as [Hdr He]. split; [done|]. destruct (decide (l' = l)) as [->|Hl]; [|by rewrite (Hne Hl)].
    rewrite Hn in Hn0. injection Hn0 as <-. by rewrite He, lookup_empty in Ht.
  - intros l' node' tid' t' Hn' Ht'. destruct (without_stream_node _ _ Hn') as (n0 & Hn0 & _ & _ & _ & Hne & Heq).
    destruct (decide (l' = l)) as [->|Hl]; [|rewrite (Hne Hl) in Ht'; by apply (H4 l' n0)].
    destruct (Heq eq_refl _ _ Ht') as (Hse & t0 & Ht0 & -> & _). split; [|done]. by apply (H4 l node).
  - intros l' node' tid' q' s' Hn' [Hr Hns]%without_stream_registered. destruct (without_stream_node _ _ Hn') as (n0 & Hn0 & -> & _).
    destruct (H5 _ _ _ _ _ Hn0 Hr) as (st & Hst & ?). exists st. by rewrite lookup_alter_decide, decide_False by congruence.
  - intros s' st. rewrite lookup_alter_decide. case_decide as Hd.
    + destruct (rg_streams rg !! s'); [|done]. intros [= <-]. done.
    + intros Hst Hp. destruct (H6 _ _ Hst Hp) as (l' & Hl' & Hr). exists l'. split; [done|]. apply without_stream_registered.
      split; [done|congruence].
  - intros s' st. rewrite lookup_alter_decide. case_decide as Hd; [|apply H7].
    destruct (rg_streams rg !! s'); [|done]. by intros [= <-].
  - intros s' st. rewrite lookup_alter_decide. case_decide as Hd; [subst s'|apply H8].
    destruct (rg_streams rg !! s) as [st0|] eqn:Hst; [|done]. intros [= <-] Hw0. cbn in Hw0. by rewrite (Hw _ eq_refl) in Hw0.
Qed.
End tree_remove.

(** ** Contexts

    A place of the tree, and the contexts from it up to its session. *)

Inductive place := PSession (l : nat) | PTask (l : nat) (taskID : string) | PStream (l : nat) (taskID : string) (q : Z).

Definition place_session (p : place) : nat := match p with PSession l | PTask l _ | PStream l _ _ => l end.

Definition place_stream (rg : Registry) (p : place) : option nat :=
  match p with
  | PStream l tid q => node ← rg_nodes rg !! l; task ← sn_tasks node !! tid; tk_streams task !! q
  | _ => None
  end.

Definition chain (rg : Registry) (p : place) : option (list nat) :=
  node ← rg_nodes rg !! place_session p;
  match p with
  | PSession _ => Some [sn_ctx node]
  | PTask _ tid => task ← sn_tasks node !! tid; Some [tk_ctx task; sn_ctx node]
  | PStream _ tid q =>
      task ← sn_tasks node !! tid; s ← tk_streams task !! q; stream ← rg_streams rg !! s;
      Some [st_ctx stream; tk_ctx task; sn_ctx node]
  end.

(** Nothing has been cancelled on purpose at a place or above it. *)
Definition unspoiled (rg : Registry) (p : place) : Prop :=
  (forall node, rg_nodes rg !! place_session p = Some node -> sn_draining node = false) /\
  (forall s stream, place_stream rg p = Some s -> rg_streams rg !! s = Some stream -> st_watching stream = true).

(** [p'] is [p] or under it. *)
Definition under (p p' : place) : bool :=
  match p, p' with
  | PSession l, _ => bool_decide (l = place_session p')
  | PTask l tid, (PTask l' tid' | PStream l' tid' _) => bool_decide (l = l') && bool_decide (tid = tid')
  | PStream l tid q, PStream l' tid' q' => bool_decide (l = l') && bool_decide (tid = tid') && bool_decide (q = q')
  | _, _ => false
  end.

Record ctx_ok (rg : Registry) : Prop := {
  c_ok : contexts_ok (rg_contexts rg);
  c_root : (rg_root rg < length (rg_contexts rg))%nat;
  c_chain : forall p c up, chain rg p = Some (c :: up) -> (c < length (rg_contexts rg))%nat /\
    ancestors (rg_contexts rg) c = up ++ rg_root rg :: ancestors (rg_contexts rg) (rg_root rg);
  c_inj : forall p p' c up up', chain rg p = Some (c :: up) -> chain rg p' = Some (c :: up') -> p = p';
  c_live : forall p c up, chain rg p = Some (c :: up) -> unspoiled rg p -> Cause (rg_contexts rg) (rg_root rg) = None ->
    Cause (rg_contexts rg) c = None;
  c_drain : forall l node, rg_nodes rg !! l = Some node -> sn_draining node = true -> is_Some (Cause (rg_contexts rg) (sn_ctx node))
}.

(** Membership in a list that is written out. *)
Ltac in_list := rewrite ?elem_of_cons; tauto.

Section contexts.
Implicit Types (rg : Registry) (p : place).

Lemma chain_session rg p x : chain rg p = Some x -> exists node, rg_nodes rg !! place_session p = Some node /\ sn_ctx node ∈ x /\
  chain rg (PSession (place_session p)) = Some [sn_ctx node].
Proof.
  unfold chain. destruct (rg_nodes rg !! place_session p) as [node|] eqn:En; cbn [mbind option_bind]; [|done]. intros Hx.
  exists node. cbn [place_session]. rewrite En. split; [done|]. split; [|done].
  destruct p as [l|l tid|l tid q]; cbn in Hx; [injection Hx as <-; in_list|..];
    (destruct (sn_tasks node !! tid) as [task|]; [|done]); cbn in Hx; [injection Hx as <-; in_list|].
  destruct (tk_streams task !! q) as [s|]; [|done]. cbn in Hx. destruct (rg_streams rg !! s); [|done]. cbn in Hx.
  injection Hx as <-. in_list.
Qed.

(** The contexts of a chain are those of places above. *)
Lemma chain_above rg p x c : chain rg p = Some x -> c ∈ x -> exists p' up, chain rg p' = Some (c :: up) /\ under p' p = true.
Proof.
  unfold chain at 1. destruct (rg_nodes rg !! place_session p) as [node|] eqn:En; cbn [mbind option_bind]; [|done].
  assert (Hs : chain rg (PSession (place_session p)) = Some [sn_ctx node]) by (unfold chain; cbn [place_session]; by rewrite En).
  destruct p as [l|l tid|l tid q]; cbn [place_session] in *.
  - intros [= <-] ->%list_elem_of_singleton. exists (PSession l), []. split; [done|]. cbn. by rewrite bool_decide_true.
  - destruct (sn_tasks node !! tid) as [task|] eqn:Et; cbn [mbind option_bind]; [|done]. intros [= <-].
    intros [->|[->|[]%elem_of_nil]%elem_of_cons]%elem_of_cons.
    + exists (PTask l tid), [sn_ctx node]. unfold chain. cbn. rewrite En. cbn. rewrite Et. by rewrite !bool_decide_true.
    + exists (PSession l), []. cbn. by rewrite bool_decide_true.
  - destruct (sn_tasks node !! tid) as [task|] eqn:Et; cbn [mbind option_bind]; [|done].
    destruct (tk_streams task !! q) as [s|] eqn:Eq; cbn [mbind option_bind]; [|done].
    destruct (rg_streams rg !! s) as [st|] eqn:Es; cbn [mbind option_bind]; [|done]. intros [= <-].
    intros [->|[->|[->|[]%elem_of_nil]%elem_of_cons]%elem_of_cons]%elem_of_cons.
    + exists (PStream l tid q), [tk_ctx task; sn_ctx node]. unfold chain. cbn. rewrite En. cbn. rewrite Et. cbn. rewrite Eq. cbn.
      rewrite Es. by rewrite !bool_decide_true.
    + exists (PTask l tid), [sn_ctx node]. unfold chain. cbn. rewrite En. cbn. rewrite Et. by rewrite !bool_decide_true.
    + exists (PSession l), []. cbn. by rewrite bool_decide_true.
Qed.

(** Places under a place have its context in their chain. *)
Lemma chain_under rg p p' c up x : chain rg p = Some (c :: up) -> chain rg p' = Some x -> under p p' = true -> c ∈ x.
Proof.
  unfold chain. destruct p as [l|l tid|l tid q], p' as [l'|l' tid'|l' tid' q']; cbn [under place_session]; intros H1 H2 Hu;
    bool_hyps; try discriminate Hu; subst;
    repeat match goal with
    | H : context [ mbind _ ?m ] |- _ => destruct m eqn:?; cbn [mbind option_bind] in H; [|discriminate H]
    end; simplify_eq; in_list.
Qed.

Lemma head_not_root rg p c up : ctx_ok rg -> chain rg p = Some (c :: up) ->
  (c ∉ rg_root rg :: ancestors (rg_contexts rg) (rg_root rg)) /\ (rg_root rg < c)%nat.
Proof.
  intros C Hc. destruct (c_chain _ C _ _ _ Hc) as [Hl Ha].
  assert (Hlt : (rg_root rg < c)%nat) by (apply (older _ (c_ok _ C) c); rewrite Ha, elem_of_app; right; in_list).
  split; [|done]. intros [->|Hin]%elem_of_cons; [lia|]. apply (older _ (c_ok _ C)) in Hin. lia.
Qed.

(** Cancelling the context of a place reaches the places under it and no other. *)
Lemma descends_place rg p p' c c' up up' : ctx_ok rg -> chain rg p = Some (c :: up) -> chain rg p' = Some (c' :: up') ->
  descends (rg_contexts rg) c c' <-> under p p' = true.
Proof.
  intros C Hc Hc'. destruct (c_chain _ C _ _ _ Hc') as [_ Ha]. unfold descends. rewrite Ha.
  assert (Hiff : (c' = c \/ c ∈ up' ++ rg_root rg :: ancestors (rg_contexts rg) (rg_root rg)) <-> c ∈ c' :: up').
  { destruct (head_not_root _ _ _ _ C Hc) as [Hn _]. rewrite elem_of_app. split.
    - intros [->|[?|?]]; [by left|by right|done].
    - intros [->|?]%elem_of_cons; [by left|by right; left]. }
  rewrite Hiff. split.
  - intros Hin. destruct (chain_above _ _ _ _ Hc' Hin) as (p2 & up2 & Hp2 & Hu). by rewrite (c_inj _ C _ _ _ _ _ Hc Hp2).
  - intros Hu. by eapply chain_under.
Qed.
End contexts.

(** ** Steps on contexts *)

(** Nothing is added to the tree of [rg'], and what had been cancelled still is. *)
Record shrinks (rg rg' : Registry) : Prop := {
  sh_nodes : forall l node', rg_nodes rg' !! l = Some node' -> exists node, rg_nodes rg !! l = Some node /\
    sn_ctx node' = sn_ctx node /\ (sn_draining node = true -> sn_draining node' = true) /\
    forall tid task', sn_tasks node' !! tid = Some task' -> exists task, sn_tasks node !! tid = Some task /\
      tk_ctx task' = tk_ctx task /\ forall q s, tk_streams task' !! q = Some s -> tk_streams task !! q = Some s;
  sh_streams : forall s stream', rg_streams rg' !! s = Some stream' -> exists stream, rg_streams rg !! s = Some stream /\
    st_ctx stream' = st_ctx stream /\ (st_watching stream' = true -> st_watching stream = true)
}.

Section context_steps.
Implicit Types (rg : Registry) (p : place).

Lemma shrinks_refl rg : shrinks rg rg.
Proof. split; [intros l node Hn; exists node; split_and!; try done; intros tid t Ht; by exists t|intros s st Hs; by exists st]. Qed.

Lemma shrinks_chain rg rg' p x : shrinks rg rg' -> chain rg' p = Some x ->
  chain rg p = Some x /\ (unspoiled rg' p -> unspoiled rg p).
Proof.
  intros [Hno Hst]. unfold chain, unspoiled, place_stream. destruct (rg_nodes rg' !! place_session p) as [node'|] eqn:En'; [|done].
  destruct (Hno _ _ En') as (node & En & Ec & Edr & Ht). rewrite En. cbn [mbind option_bind]. rewrite Ec.
  assert (Hd : sn_draining node' = false -> sn_draining node = false).
  { destruct (sn_draining node); [|done]. intros E. by rewrite Edr in E. }
  destruct p as [l|l tid|l tid q]; cbn [place_session] in *.
  - intros Hx. split; [done|]. intros [Hu _]. split; [|done]. intros ? [= <-]. by apply Hd, Hu.
  - destruct (sn_tasks node' !! tid) as [task'|] eqn:Et'; [|done]. destruct (Ht _ _ Et') as (task & Et & Etc & Hq).
    rewrite Et. cbn. rewrite Etc. intros Hx. split; [done|]. intros [Hu _]. split; [|done]. intros ? [= <-]. by apply Hd, Hu.
  - destruct (sn_tasks node' !! tid) as [task'|] eqn:Et'; [|done]. destruct (Ht _ _ Et') as (task & Et & Etc & Hq).
    rewrite Et, En', En. cbn [mbind option_bind]. rewrite Et', Et. cbn [mbind option_bind].
    destruct (tk_streams task' !! q) as [s|] eqn:Es'; [|done]. rewrite (Hq _ _ Es'). cbn [mbind option_bind].
    destruct (rg_streams rg' !! s) as [st'|] eqn:Est'; [|done]. destruct (Hst _ _ Est') as (st & Est & Esc & Hw).
    rewrite Est. cbn. rewrite Etc, Esc. intros Hx. split; [done|]. intros [Hu1 Hu2]. split.
    + intros ? [= <-]. by apply Hd, Hu1.
    + intros ? ? [= <-]. rewrite Est. intros [= <-]. apply Hw. by apply (Hu2 s).
Qed.

(** Places are added with new contexts. *)
Lemma ctx_ok_extend rg rg' : ctx_ok rg -> contexts_ok (rg_contexts rg') ->
  (length (rg_contexts rg) <= length (rg_contexts rg'))%nat -> rg_root rg' = rg_root rg ->
  (forall i, (i < length (rg_contexts rg))%nat -> ancestors (rg_contexts rg') i = ancestors (rg_contexts rg) i /\
     Cause (rg_contexts rg') i = Cause (rg_contexts rg) i) ->
  (forall p c up, chain rg' p = Some (c :: up) ->
     chain rg p = Some (c :: up) /\ (unspoiled rg' p -> unspoiled rg p) \/
     (length (rg_contexts rg) <= c < length (rg_contexts rg'))%nat /\
     ancestors (rg_contexts rg') c = up ++ rg_root rg :: ancestors (rg_contexts rg) (rg_root rg) /\
     (Cause (rg_contexts rg) (rg_root rg) = None -> Cause (rg_contexts rg') c = None) /\
     forall p' up', chain rg' p' = Some (c :: up') -> p = p') ->
  (forall l node', rg_nodes rg' !! l = Some node' -> sn_draining node' = true ->
    exists node, rg_nodes rg !! l = Some node /\ sn_ctx node' = sn_ctx node /\ sn_draining node = true) ->
  ctx_ok rg'.
Proof.
  intros C Hok Hlen Hroot Hold Hch Hdr. pose proof (c_root _ C) as Hr. split; rewrite ?Hroot; try done.
  - lia.
  - intros p c up Hp. rewrite (proj1 (Hold _ Hr)). destruct (Hch _ _ _ Hp) as [[Hp0 _]|(Hc & Ha & _)].
    + destruct (c_chain _ C _ _ _ Hp0) as [Hc Ha]. rewrite (proj1 (Hold _ Hc)). split; [lia|done].
    + split; [lia|done].
  - intros p p' c up up' Hp Hp'. destruct (Hch _ _ _ Hp) as [[Hp0 _]|(Hc & _ & _ & Hi)]; [|by eapply Hi].
    destruct (Hch _ _ _ Hp') as [[Hp0' _]|(Hc & _ & _ & Hi)]; [by apply (c_inj _ C _ _ _ _ _ Hp0 Hp0')|].
    symmetry. by eapply Hi.
  - intros p c up Hp Hu. rewrite (proj2 (Hold _ Hr)). intros Hn. destruct (Hch _ _ _ Hp) as [[Hp0 Hu0]|(_ & _ & Hc & _)]; [|by apply Hc].
    rewrite (proj2 (Hold c (proj1 (c_chain _ C _ _ _ Hp0)))). apply (c_live _ C _ _ _ Hp0); [by apply Hu0|done].
  - intros l node' Hn' Hd'. destruct (Hdr _ _ Hn' Hd') as (node & Hn & -> & Hd). destruct (c_drain _ C _ _ Hn Hd) as [e He].
    exists e. by rewrite (proj2 (Hold _ (Cause_lt _ _ _ He))).
Qed.

(** Contexts are cancelled. *)
Lemma ctx_ok_cancel rg rg' l e : ctx_ok rg -> shrinks rg rg' -> rg_root rg' = rg_root rg ->
  rg_contexts rg' = cancel_all l e (rg_contexts rg) ->
  (forall p c up, chain rg' p = Some (c :: up) -> unspoiled rg' p -> Cause (rg_contexts rg') (rg_root rg) = None ->
     Forall (fun a => ~ descends (rg_contexts rg) a c) l) ->
  (forall i node', rg_nodes rg' !! i = Some node' -> sn_draining node' = true ->
    exists node, rg_nodes rg !! i = Some node /\ sn_ctx node' = sn_ctx node /\ (sn_draining node = true \/ sn_ctx node ∈ l)) ->
  ctx_ok rg'.
Proof.
  intros C Hsh Hroot Hcs Hfar Hdr. pose proof (c_root _ C) as Hr.
  assert (Hch : forall p x, chain rg' p = Some x -> chain rg p = Some x /\ (unspoiled rg' p -> unspoiled rg p)).
  { intros p x. by apply shrinks_chain. }
  split; rewrite ?Hroot, ?Hcs, ?length_cancel_all; try done.
  - apply contexts_ok_cancel_all, C.
  - intros p c up Hp. rewrite !ancestors_cancel_all. by apply (c_chain _ C p), Hch.
  - intros p p' c up up' Hp Hp'. exact (c_inj _ C p p' c up up' (proj1 (Hch _ _ Hp)) (proj1 (Hch _ _ Hp'))).
  - intros p c up Hp Hu Hrn. rewrite Hcs in Hfar. specialize (Hfar _ _ _ Hp Hu Hrn). destruct (Hch _ _ Hp) as [Hp0 Hu0].
    destruct (c_chain _ C _ _ _ Hp0) as [Hc _]. rewrite Cause_cancel_all by done.
    rewrite (c_live _ C _ _ _ Hp0); [|by apply Hu0|].
    + rewrite decide_False; [done|]. rewrite Exists_exists. intros (a & Ha & Hd). rewrite Forall_forall in Hfar. by apply (Hfar a).
    + rewrite Cause_cancel_all in Hrn by done. by destruct (Cause (rg_contexts rg) (rg_root rg)).
  - intros i node' Hn' Hd'. destruct (Hdr _ _ Hn' Hd') as (node & Hn & -> & [Hd|Hin]).
    + destruct (c_drain _ C _ _ Hn Hd) as [e' He]. exists e'. by apply cause_kept_all.
    + assert (Hs : chain rg (PSession i) = Some [sn_ctx node]) by (unfold chain; cbn [place_session]; by rewrite Hn).
      rewrite Cause_cancel_all by (apply (c_chain _ C _ _ _ Hs)). destruct (Cause (rg_contexts rg) (sn_ctx node)); [by eexists|].
      rewrite decide_True; [by eexists|]. apply Exists_exists. exists (sn_ctx node). split; [done|by left].
Qed.
End context_steps.
