(* ===== verification/SessionRuntimeSteps.v ===== *)
(** * The operations of the registry keep its invariants

    Each operation of [SessionRuntime] returns (there is no panic), keeps the tree,
    the contexts and the sequence numbers in order, and does what its callers
    rely on. *)

From S2P Require Import Prelude GoLib GoSort GoContext SessionRuntime SessionRuntimeFacts.

(** ** Sequence numbers *)

Record seq_ok (rg : Registry) : Prop := {
  q_range : 0 <= rg_sequence rg;
  q_streams : forall s st, rg_streams rg !! s = Some st -> st_sequence st <= rg_sequence rg;
  q_streams_inj : forall s s' st st', rg_streams rg !! s = Some st -> rg_streams rg !! s' = Some st' ->
    st_sequence st = st_sequence st' -> s = s';
  q_tasks : forall l node tid task, rg_nodes rg !! l = Some node -> sn_tasks node !! tid = Some task -> tk_sequence task <= rg_sequence rg;
  q_tasks_inj : forall l node tid tid' task task', rg_nodes rg !! l = Some node -> sn_tasks node !! tid = Some task ->
    sn_tasks node !! tid' = Some task' -> tk_sequence task = tk_sequence task' -> tid = tid';
  q_nodes : forall l node, rg_nodes rg !! l = Some node -> sn_sequence node <= rg_sequence rg;
  q_nodes_inj : forall l l' node node', rg_nodes rg !! l = Some node -> rg_nodes rg !! l' = Some node' ->
    sn_sequence node = sn_sequence node' -> l = l'
}.

(** Numbers for another session, task and stream are left. *)
Definition room (rg : Registry) : Prop := rg_sequence rg + 3 < 2 ^ 64.

Lemma nextSequence_room rg : seq_ok rg -> rg_sequence rg + 1 < 2 ^ 64 -> nextSequence rg = rg_sequence rg + 1.
Proof. intros Q Hr. pose proof (q_range _ Q). unfold nextSequence, uint64. by rewrite Z.mod_small by lia. Qed.

Record core (rg : Registry) : Prop := { core_tree : tree_ok None rg; core_ctx : ctx_ok rg; core_seq : seq_ok rg }.

(** After [Shutdown] everything is draining. *)
Definition closed_ok (rg : Registry) : Prop := rg_closed rg = true ->
  is_Some (Cause (rg_contexts rg) (rg_root rg)) /\ forall l node, rg_nodes rg !! l = Some node -> sn_draining node = true.

Record invariant (rg : Registry) : Prop := { inv_core : core rg; inv_closed : closed_ok rg }.

(** ** Sessions that change only by draining and finishing *)

Record same_node (D : Prop) (n n' : sessionNode) : Prop := {
  same_id : sn_id n' = sn_id n;
  same_sequence : sn_sequence n' = sn_sequence n;
  same_ctx : sn_ctx n' = sn_ctx n;
  same_tasks : sn_tasks n' = sn_tasks n;
  same_draining : sn_draining n' = true <-> sn_draining n = true \/ D
}.

(** The sessions of [rg'] are those of [rg]; those of [D] have begun to drain. *)
Definition same_nodes (D : nat -> Prop) (rg rg' : Registry) : Prop :=
  length (rg_nodes rg') = length (rg_nodes rg) /\
  forall l n', rg_nodes rg' !! l = Some n' -> exists n, rg_nodes rg !! l = Some n /\ same_node (D l) n n'.

Section same.
Implicit Types (rg : Registry) (D : nat -> Prop).

Lemma same_nodes_eq rg rg' : rg_nodes rg' = rg_nodes rg -> same_nodes (fun _ => False) rg rg'.
Proof.
  intros E. unfold same_nodes. rewrite E. split; [done|]. intros l n Hn. exists n. split; [done|]. split; try done. tauto.
Qed.

Lemma same_nodes_refl rg : same_nodes (fun _ => False) rg rg.
Proof. by apply same_nodes_eq. Qed.

Lemma same_nodes_trans D D' rg rg' rg'' : same_nodes D rg rg' -> same_nodes D' rg' rg'' ->
  same_nodes (fun l => D l \/ D' l) rg rg''.
Proof.
  intros [L1 H1] [L2 H2]. split; [congruence|]. intros l n'' Hn''. destruct (H2 _ _ Hn'') as (n' & Hn' & [E1 E2 E3 E4 E5]).
  destruct (H1 _ _ Hn') as (n & Hn & [F1 F2 F3 F4 F5]). exists n. split; [done|]. split; try congruence. tauto.
Qed.

Lemma same_nodes_iff D D' rg rg' : (forall l, D l <-> D' l) -> same_nodes D rg rg' -> same_nodes D' rg rg'.
Proof.
  intros He [L H]. split; [done|]. intros l n' Hn'. destruct (H _ _ Hn') as (n & Hn & [E1 E2 E3 E4 E5]). exists n.
  split; [done|]. split; try done. by rewrite E5, He.
Qed.

Lemma same_nodes_forward D rg rg' l n : same_nodes D rg rg' -> rg_nodes rg !! l = Some n ->
  exists n', rg_nodes rg' !! l = Some n' /\ same_node (D l) n n'.
Proof.
  intros [L H] Hn. pose proof (lookup_lt_Some _ _ _ Hn) as Hlt. rewrite <- L in Hlt.
  destruct (lookup_lt_is_Some_2 _ _ Hlt) as [n' Hn']. exists n'. split; [done|].
  destruct (H _ _ Hn') as (n0 & Hn0 & S). rewrite Hn in Hn0. by injection Hn0 as <-.
Qed.

Lemma same_nodes_shrinks D rg rg' : same_nodes D rg rg' -> rg_streams rg' = rg_streams rg -> shrinks rg rg'.
Proof.
  intros [_ H] Es. split; [|rewrite Es; intros s st Hs; by exists st]. intros l n' Hn'.
  destruct (H _ _ Hn') as (n & Hn & [E1 E2 E3 E4 E5]). exists n. split_and!; [done|done|tauto|].
  rewrite E4. intros tid task Ht. by exists task.
Qed.

Lemma seq_ok_same D rg rg' : same_nodes D rg rg' -> rg_streams rg' = rg_streams rg -> rg_sequence rg' = rg_sequence rg ->
  seq_ok rg -> seq_ok rg'.
Proof.
  intros [_ H] Es Eq [Q1 Q2 Q3 Q4 Q5 Q6 Q7]. split; rewrite ?Es, ?Eq; try done.
  - intros l n' tid task Hn'. destruct (H _ _ Hn') as (n & Hn & [_ _ _ -> _]). by apply (Q4 l n).
  - intros l n' tid tid' task task' Hn'. destruct (H _ _ Hn') as (n & Hn & [_ _ _ -> _]). by apply (Q5 l n).
  - intros l n' Hn'. destruct (H _ _ Hn') as (n & Hn & [_ -> _ _ _]). by apply (Q6 l n).
  - intros l l' n' n2' Hn' Hn2'. destruct (H _ _ Hn') as (n & Hn & [_ -> _ _ _]), (H _ _ Hn2') as (n2 & Hn2 & [_ -> _ _ _]).
    by apply (Q7 l l' n n2).
Qed.

(** A change that drains and cancels nothing. *)
Lemma ctx_ok_same rg rg' : same_nodes (fun _ => False) rg rg' -> rg_streams rg' = rg_streams rg ->
  rg_contexts rg' = rg_contexts rg -> rg_root rg' = rg_root rg -> ctx_ok rg -> ctx_ok rg'.
Proof.
  intros Hs Es Ec Er C. apply (ctx_ok_cancel rg rg' [] Canceled C); try done.
  - by eapply same_nodes_shrinks.
  - intros l n' Hn' Hd. destruct (proj2 Hs _ _ Hn') as (n & Hn & [_ _ E _ Ed]). exists n. split; [done|]. split; [done|].
    left. tauto.
Qed.
End same.

(** ** Finishing and draining a session *)

Section drain.
Implicit Types (rg : Registry).

(** What does not change while sessions drain and finish. *)
Record quiet_change (rg rg' : Registry) : Prop := {
  qc_streams : rg_streams rg' = rg_streams rg;
  qc_root : rg_root rg' = rg_root rg;
  qc_closed : rg_closed rg' = rg_closed rg;
  qc_sequence : rg_sequence rg' = rg_sequence rg
}.

Lemma quiet_change_refl rg : quiet_change rg rg.
Proof. done. Qed.

Lemma quiet_change_trans rg rg' rg'' : quiet_change rg rg' -> quiet_change rg' rg'' -> quiet_change rg rg''.
Proof. intros [A1 A2 A3 A4] [B1 B2 B3 B4]. split; congruence. Qed.

Lemma finish_core l rg : tree_ok (Some l) rg -> ctx_ok rg -> seq_ok rg -> is_Some (rg_nodes rg !! l) ->
  exists rg', finishSessionLocked l rg = Some rg' /\ core rg' /\ rg_contexts rg' = rg_contexts rg /\ quiet_change rg rg' /\
    same_nodes (fun _ => False) rg rg'.
Proof.
  intros T C Q Hn. destruct (finish_ok l rg T Hn) as (rg' & Hf & T' & Ec & Es & Er & Ecl & Eq & Hcase). exists rg'.
  assert (Hs : same_nodes (fun _ => False) rg rg').
  { destruct Hcase as [->|(node & Hnode & _ & _ & _ & En)]; [apply same_nodes_refl|]. unfold same_nodes. rewrite En.
    split; [apply length_alter|]. intros l' n'. rewrite lookup_alter_decide. case_decide as Hd.
    - subst l'. rewrite Hnode. intros [= <-]. exists node. split; [done|]. split; try done. cbn. tauto.
    - intros Hn'. exists n'. split; [done|]. split; try done. tauto. }
  split; [done|]. split; [|split; [done|split; [by split|done]]].
  split; [done|by eapply ctx_ok_same|by eapply seq_ok_same].
Qed.

Lemma drain_streams rg l node : core rg -> rg_nodes rg !! l = Some node ->
  exists streams, load_streams rg (session_streams node) = Some streams /\
    Forall (fun st => exists tid q up, chain rg (PStream l tid q) = Some (st_ctx st :: up)) streams.
Proof.
  intros [T C Q] Hn.
  assert (Hreg : forall s, s ∈ session_streams node -> exists tid q st up, rg_streams rg !! s = Some st /\
    chain rg (PStream l tid q) = Some (st_ctx st :: up)).
  { intros s (tid & task & q & Ht & Hq)%elem_of_session_streams.
    destruct (registered_home _ _ l tid q s T) as (st & Hs & _); [by exists node, task|]. exists tid, q, st, [tk_ctx task; sn_ctx node].
    split; [done|]. unfold chain. cbn [place_session]. rewrite Hn. cbn. rewrite Ht. cbn. rewrite Hq. cbn. by rewrite Hs. }
  destruct (load_streams_spec rg (session_streams node)) as (streams & Hl & Hf).
  { apply Forall_forall. intros s Hs. destruct (Hreg s Hs) as (_ & _ & st & _ & E & _). by exists st. }
  exists streams. split; [done|]. apply Forall_forall. intros st Hst. apply list_elem_of_lookup_1 in Hst as [i Hi].
  destruct (Forall2_lookup_r _ _ _ _ _ Hf Hi) as (s & Hsi & Hs). apply list_elem_of_lookup_2 in Hsi.
  destruct (Hreg s Hsi) as (tid & q & st' & up & Hs' & Hc). rewrite Hs in Hs'. injection Hs' as <-. by exists tid, q, up.
Qed.

(** The contexts that draining cancels are the session's and those of its tasks
    and streams. *)
Lemma drain_order_places rg l node streams a : rg_nodes rg !! l = Some node ->
  Forall (fun st => exists tid q up, chain rg (PStream l tid q) = Some (st_ctx st :: up)) streams ->
  a ∈ drain_order node streams -> exists p up, place_session p = l /\ chain rg p = Some (a :: up).
Proof.
  intros Hn Hf. unfold drain_order. rewrite !elem_of_app, list_elem_of_singleton. intros [Ha|[Ha| ->]].
  - apply list_elem_of_fmap in Ha as (st & -> & Hst). unfold sort_streams in Hst. rewrite SortFunc_perm in Hst.
    rewrite Forall_forall in Hf. destruct (Hf st Hst) as (tid & q & up & Hc). by exists (PStream l tid q), up.
  - apply list_elem_of_fmap in Ha as (task & -> & Ht). unfold sort_tasks in Ht. rewrite SortFunc_perm in Ht.
    apply list_elem_of_fmap in Ht as ([tid t] & -> & Ht). apply elem_of_map_to_list in Ht.
    exists (PTask l tid), [sn_ctx node]. split; [done|]. unfold chain. cbn. rewrite Hn. cbn. by rewrite Ht.
  - exists (PSession l), []. split; [done|]. unfold chain. cbn. by rewrite Hn.
Qed.

Lemma drain_order_session node streams : sn_ctx node ∈ drain_order node streams.
Proof. unfold drain_order. rewrite !elem_of_app, list_elem_of_singleton. tauto. Qed.

(** They all descend from the session's context, so it is as if that one alone had
    been cancelled. *)
Lemma drain_causes rg l node streams cause c : ctx_ok rg -> rg_nodes rg !! l = Some node ->
  Forall (fun st => exists tid q up, chain rg (PStream l tid q) = Some (st_ctx st :: up)) streams ->
  (c < length (rg_contexts rg))%nat ->
  Cause (cancel_all (drain_order node streams) cause (rg_contexts rg)) c = Cause (cancel (sn_ctx node) cause (rg_contexts rg)) c.
Proof.
  intros C Hn Hf Hc. rewrite Cause_cancel_all, Cause_cancel by done. destruct (Cause (rg_contexts rg) c); [done|].
  apply decide_ext. rewrite Exists_exists. split; [|intros Hd; exists (sn_ctx node); split; [apply drain_order_session|done]].
  intros (a & Ha & Hd). destruct (drain_order_places _ _ _ _ _ Hn Hf Ha) as (p & up & Hp & Hch).
  assert (Hs : chain rg (PSession l) = Some [sn_ctx node]) by (unfold chain; cbn; by rewrite Hn).
  assert (Hda : descends (rg_contexts rg) (sn_ctx node) a).
  { eapply descends_place; [done..|]. cbn. by rewrite bool_decide_true. }
  destruct Hd as [->|Hd]; [done|]. right. destruct Hda as [->|Hda]; [done|]. by eapply (ancestors_trans _ (c_ok _ C)).
Qed.
End drain.

Section drain_ok.
Implicit Types (rg : Registry).

(** The contexts after [beginDrainLocked]: nothing but the session's subtree is
    cancelled, and that once. *)
Definition drained_contexts (node : sessionNode) (cause : error) (cs : Contexts) (c : nat) : option error :=
  if sn_draining node then Cause cs c else Cause (cancel (sn_ctx node) cause cs) c.

Lemma drain_core rg l node streams cause : core rg -> rg_nodes rg !! l = Some node -> sn_draining node = false ->
  Forall (fun st => exists tid q up, chain rg (PStream l tid q) = Some (st_ctx st :: up)) streams ->
  let rg1 := set_contexts (cancel_all (drain_order node streams) cause (rg_contexts rg)) (set_nodes (alter set_draining l (rg_nodes rg)) rg) in
  tree_ok (Some l) rg1 /\ ctx_ok rg1 /\ seq_ok rg1 /\ same_nodes (fun i => i = l) rg rg1.
Proof.
  intros [T C Q] Hn Hd Hf rg1.
  assert (Hs : same_nodes (fun i => i = l) rg rg1).
  { split; [apply length_alter|]. intros i n'. cbn [rg1 set_contexts set_nodes rg_nodes]. rewrite lookup_alter_decide.
    case_decide as Hi; [subst i; rewrite Hn; intros [= <-]; exists node|intros Hn'; exists n'];
      (split; [done|]); split; try done; cbn; [tauto|]. split; [by left|intros [?|?]; congruence]. }
  split; [|split; [|split; [by eapply seq_ok_same|done]]].
  - apply (tree_ok_ext _ (set_nodes (alter set_draining l (rg_nodes rg)) rg)); [done..|]. by eapply tree_ok_draining.
  - apply (ctx_ok_cancel rg rg1 (drain_order node streams) cause C); try done.
    + by eapply same_nodes_shrinks.
    + intros p c up Hp [Hu _] _. apply Forall_forall. intros a Ha Hdesc.
      destruct (drain_order_places _ _ _ _ _ Hn Hf Ha) as (pa & upa & Hpa & Hca).
      destruct (shrinks_chain rg rg1 p _ (same_nodes_shrinks _ _ _ Hs eq_refl) Hp) as [Hp0 _].
      apply (descends_place _ _ _ _ _ _ _ C Hca Hp0) in Hdesc.
      assert (Hpl : place_session p = l) by (destruct pa, p; cbn in Hdesc; bool_hyps; cbn in *; congruence).
      assert (Hdr : sn_draining (set_draining node) = false); [|discriminate Hdr]. apply Hu.
      cbn [rg1 set_contexts set_nodes rg_nodes]. by rewrite lookup_alter_decide, decide_True, Hpl, Hn.
    + intros i n' Hn' Hdn. destruct (proj2 Hs _ _ Hn') as (n & Hni & [_ _ E _ Ed]). exists n. split; [done|]. split; [done|].
      destruct (proj1 Ed Hdn) as [Hdn0|Hil]; [by left|]. subst i. right. rewrite Hn in Hni. injection Hni as <-. apply drain_order_session.
Qed.

Lemma beginDrain_ok rg l node cause : core rg -> rg_nodes rg !! l = Some node ->
  exists rg', beginDrainLocked l cause rg = Some rg' /\ core rg' /\ quiet_change rg rg' /\ same_nodes (fun i => i = l) rg rg' /\
    length (rg_contexts rg') = length (rg_contexts rg) /\
    forall c, (c < length (rg_contexts rg))%nat -> ancestors (rg_contexts rg') c = ancestors (rg_contexts rg) c /\
      Cause (rg_contexts rg') c = drained_contexts node cause (rg_contexts rg) c.
Proof.
  intros I Hn. unfold beginDrainLocked, drained_contexts. rewrite Hn. cbn [mbind option_bind]. destruct (sn_draining node) eqn:Hd.
  { exists rg. split_and!; try done. split; [done|]. intros i n' Hn'. exists n'. split; [done|]. split; try done.
    split; [by left|intros [?| ->]; [done|congruence]]. }
  destruct (drain_streams rg l node I Hn) as (streams & Hl & Hf). rewrite Hl. cbn [mbind option_bind].
  destruct (drain_core rg l node streams cause I Hn Hd Hf) as (T1 & C1 & Q1 & S1).
  change (rg_contexts (set_nodes (alter set_draining l (rg_nodes rg)) rg)) with (rg_contexts rg).
  set (rg1 := set_contexts _ _) in *.
  destruct (finish_core l rg1 T1 C1 Q1) as (rg' & Hf' & I' & Ec & Hqc & Hs').
  { cbn [rg1 set_contexts set_nodes rg_nodes]. rewrite lookup_alter_decide, decide_True, Hn by done. by eexists. }
  exists rg'. split; [done|]. split; [done|]. split; [exact (quiet_change_trans rg rg1 rg' (Build_quiet_change rg rg1 eq_refl eq_refl eq_refl eq_refl) Hqc)|].
  split; [|rewrite Ec; split].
  - eapply same_nodes_iff; [|exact (same_nodes_trans _ _ _ _ _ S1 Hs')]. intros i. cbn. tauto.
  - apply length_cancel_all.
  - intros c Hc. split; [apply ancestors_cancel_all|]. cbn [rg1 set_contexts rg_contexts]. by eapply (drain_causes rg l); [apply I|..].
Qed.

(** Draining several sessions. *)
Lemma drain_all_ok order : forall rg, core rg -> Forall (fun l => is_Some (rg_nodes rg !! l)) order ->
  exists rg', drain_all order rg = Some rg' /\ core rg' /\ quiet_change rg rg' /\ same_nodes (fun i => i ∈ order) rg rg' /\
    length (rg_contexts rg') = length (rg_contexts rg).
Proof.
  induction order as [|l order IH]; intros rg I Hall; cbn [drain_all].
  - exists rg. split; [done|]. split; [done|]. split; [done|]. split; [|done].
    eapply same_nodes_iff; [|apply same_nodes_refl]. intros l. cbn. rewrite elem_of_nil. done.
  - apply Forall_cons in Hall as [[node Hn] Hall]. destruct (beginDrain_ok rg l node ErrClosed I Hn) as (rg1 & H1 & I1 & Q1 & S1 & L1 & _).
    rewrite H1. cbn [mbind option_bind]. destruct (IH rg1 I1) as (rg' & H' & I' & Q' & S' & L').
    { eapply Forall_impl; [exact Hall|]. intros i [n Hi]. destruct (same_nodes_forward _ _ _ _ _ S1 Hi) as (n' & Hn' & _). by exists n'. }
    exists rg'. split; [done|]. split; [done|]. split; [by eapply quiet_change_trans|]. split; [|congruence].
    eapply same_nodes_iff; [|exact (same_nodes_trans _ _ _ _ _ S1 S')]. intros i. cbn. by rewrite elem_of_cons.
Qed.
End drain_ok.

(** ** [Disconnect] and [Shutdown] *)

Section lifecycle.
Implicit Types (rg : Registry).

Lemma closed_ok_same D rg rg' : same_nodes D rg rg' -> quiet_change rg rg' ->
  (is_Some (Cause (rg_contexts rg) (rg_root rg)) -> is_Some (Cause (rg_contexts rg') (rg_root rg))) -> closed_ok rg -> closed_ok rg'.
Proof.
  intros [_ H] [_ Er Ecl _] Hc Hcl. unfold closed_ok. rewrite Ecl, Er. intros Hclosed. destruct (Hcl Hclosed) as [Hroot Hall].
  split; [by apply Hc|]. intros l n' Hn'. destruct (H _ _ Hn') as (n & Hn & [_ _ _ _ Ed]). apply Ed. left. by eapply Hall.
Qed.

Lemma drained_root rg l node cause : ctx_ok rg -> rg_nodes rg !! l = Some node ->
  drained_contexts node cause (rg_contexts rg) (rg_root rg) = Cause (rg_contexts rg) (rg_root rg).
Proof.
  intros C Hn. unfold drained_contexts. destruct (sn_draining node); [done|]. rewrite Cause_cancel by exact (c_root _ C).
  destruct (Cause (rg_contexts rg) (rg_root rg)); [done|]. rewrite decide_False; [done|].
  assert (Hs : chain rg (PSession l) = Some [sn_ctx node]) by (unfold chain; cbn; by rewrite Hn).
  destruct (head_not_root _ _ _ _ C Hs) as [Hni Hlt]. intros [He|Hin]; [lia|]. apply Hni. by right.
Qed.

Lemma drain_invariant rg l node cause : invariant rg -> rg_nodes rg !! l = Some node ->
  exists rg', beginDrainLocked l cause rg = Some rg' /\ invariant rg' /\ quiet_change rg rg' /\ same_nodes (fun i => i = l) rg rg' /\
    length (rg_contexts rg') = length (rg_contexts rg) /\
    forall c, (c < length (rg_contexts rg))%nat -> ancestors (rg_contexts rg') c = ancestors (rg_contexts rg) c /\
      Cause (rg_contexts rg') c = drained_contexts node cause (rg_contexts rg) c.
Proof.
  intros [I Hcl] Hn. destruct (beginDrain_ok rg l node cause I Hn) as (rg' & Hb & I' & Q & S & L & Hc). exists rg'.
  split; [done|]. split; [|done]. split; [done|]. eapply closed_ok_same; [done..| |done].
  by rewrite (proj2 (Hc _ (c_root _ (core_ctx _ I)))), (drained_root rg l node cause (core_ctx _ I) Hn).
Qed.

(** The sessions of the map, by their positions. *)
Lemma range_order x rg order l : tree_ok x rg -> Permutation order (map snd (map_to_list (rg_sessions rg))) ->
  l ∈ order <-> exists node, rg_nodes rg !! l = Some node /\ sn_done node = false.
Proof.
  intros T Hp. rewrite Hp. rewrite list_elem_of_fmap. split.
  - intros ([id l'] & -> & Hin). apply elem_of_map_to_list in Hin. destruct (t_map _ _ T _ _ Hin) as (node & Hn & _ & Hd & _).
    by exists node.
  - intros (node & Hn & Hd). exists (sn_id node, l). split; [done|]. apply elem_of_map_to_list. by eapply (t_gone _ _ T).
Qed.

Lemma cancel_root_core rg : core rg -> core (cancel_ctx (rg_root rg) ErrClosed rg) /\
  is_Some (Cause (rg_contexts (cancel_ctx (rg_root rg) ErrClosed rg)) (rg_root rg)).
Proof.
  intros [T C Q].
  assert (Hr : is_Some (Cause (rg_contexts (cancel_ctx (rg_root rg) ErrClosed rg)) (rg_root rg))).
  { cbn [cancel_ctx set_contexts rg_contexts]. rewrite Cause_cancel by exact (c_root _ C).
    destruct (Cause (rg_contexts rg) (rg_root rg)); [by eexists|]. rewrite decide_True; [by eexists|by left]. }
  split; [|done]. split.
  - by apply (tree_ok_ext _ rg).
  - apply (ctx_ok_cancel rg _ [rg_root rg] ErrClosed C); try done.
    + by apply (same_nodes_shrinks (fun _ => False)); [by apply same_nodes_eq|].
    + intros p c up _ _ Hn. destruct Hr as [e He]. congruence.
    + intros l n Hn Hd. exists n. tauto.
  - apply (seq_ok_same (fun _ => False) rg); [by apply same_nodes_eq|done..].
Qed.

Lemma mapM_nodes rg order : Forall (fun l => is_Some (rg_nodes rg !! l)) order ->
  exists nodes, mapM (fun l => node ← rg_nodes rg !! l; Some (sn_sequence node, l)) order = Some nodes /\ map snd nodes = order /\
    Forall (fun p => exists node, rg_nodes rg !! p.2 = Some node /\ p.1 = sn_sequence node) nodes.
Proof.
  induction 1 as [|l order [node Hn] Hall (nodes & H1 & H2 & H3)]; [by exists []|]. cbn. rewrite Hn. cbn. rewrite H1. cbn.
  exists ((sn_sequence node, l) :: nodes). split; [done|]. split; [by cbn; rewrite H2|]. constructor; [by exists node|done].
Qed.

Lemma Shutdown_ok order rg : invariant rg -> Permutation order (map snd (map_to_list (rg_sessions rg))) ->
  exists waited rg', Shutdown order rg = Some (waited, rg') /\ invariant rg' /\ rg_closed rg' = true /\
    rg_streams rg' = rg_streams rg /\ rg_root rg' = rg_root rg /\ Permutation waited order /\
    same_nodes (fun i => i ∈ order) rg rg' /\ length (rg_contexts rg') = length (rg_contexts rg).
Proof.
  intros [[T C Q] _] Hp. unfold Shutdown.
  assert (I0 : core (set_closed rg)).
  { split; [by apply (tree_ok_ext _ rg)| |by apply (seq_ok_same (fun _ => False) rg); [by apply same_nodes_eq|..]].
    by apply (ctx_ok_same rg); [by apply same_nodes_eq|..]. }
  destruct (drain_all_ok order (set_closed rg) I0) as (rg1 & H1 & I1 & Q1 & S1 & L1).
  { apply Forall_forall. intros l Hl. apply (range_order _ _ _ _ T Hp) in Hl as (node & Hn & _). by exists node. }
  rewrite H1. cbn [mbind option_bind]. destruct (cancel_root_core rg1 I1) as [I2 Hroot].
  destruct (mapM_nodes rg1 order) as (nodes & Hm & Hs & _).
  { apply Forall_forall. intros l Hl. apply (range_order _ _ _ _ T Hp) in Hl as (node & Hn & _).
    destruct (same_nodes_forward _ (set_closed rg) _ _ _ S1 Hn) as (n' & Hn' & _). by exists n'. }
  cbn [cancel_ctx set_contexts rg_nodes]. rewrite Hm. cbn [mbind option_bind]. eexists _, _. split; [done|].
  split_and!; try done; [|exact (qc_closed _ _ Q1)|exact (qc_streams _ _ Q1)|exact (qc_root _ _ Q1)| |].
  - split; [done|]. intros _. change (rg_root (cancel_ctx (rg_root rg1) ErrClosed rg1)) with (rg_root rg1). split; [done|].
    intros l n' Hn'. change (rg_nodes rg1 !! l = Some n') in Hn'. destruct (proj2 S1 _ _ Hn') as (n & Hn & [_ _ _ _ Ed]).
    apply Ed. destruct (sn_done n) eqn:Hd; [left; by apply (t_done _ _ T l)|right].
    apply (range_order _ _ _ _ T Hp). by exists n.
  - rewrite <- Hs. apply Permutation_map, SortFunc_perm.
  - cbn [cancel_ctx set_contexts rg_contexts]. by rewrite length_cancel.
Qed.

Lemma Disconnect_ok ctx id rg : invariant rg ->
  exists r rg', Disconnect ctx id rg = Some (r, rg') /\ invariant rg' /\ quiet_change rg rg' /\
    length (rg_contexts rg') = length (rg_contexts rg) /\
    match r with
    | Ok (Some l) => rg_sessions rg !! id = Some l /\ same_nodes (fun i => i = l) rg rg' /\ exists node, rg_nodes rg !! l = Some node /\
        forall c, (c < length (rg_contexts rg))%nat -> ancestors (rg_contexts rg') c = ancestors (rg_contexts rg) c /\
          Cause (rg_contexts rg') c = drained_contexts node ErrDisconnected (rg_contexts rg) c
    | Ok None => rg' = rg /\ validID id = true /\ rg_sessions rg !! id = None
    | Err _ => rg' = rg /\ (ctx = None \/ validID id = false)
    end.
Proof.
  intros I. unfold Disconnect. destruct ctx; [|eexists _, _; split; [done|]; split_and!; try done; by left].
  destruct (validID id) eqn:Ev; cbn [negb]; [|eexists _, _; split; [done|]; split_and!; try done; by right].
  destruct (rg_sessions rg !! id) as [l|] eqn:El; [|by eexists _, _; split; [done|]; split_and!].
  destruct (t_map _ _ (core_tree _ (inv_core _ I)) _ _ El) as (node & Hn & _).
  destruct (drain_invariant rg l node ErrDisconnected I Hn) as (rg' & H' & I' & Q & S & L & Hc). rewrite H'. cbn [mbind option_bind].
  eexists _, rg'. split; [done|]. split_and!; try done. by exists node.
Qed.
End lifecycle.

(** ** Streams that are cancelled and released *)

Section streams.
Implicit Types (rg : Registry).

(** Sequence numbers are not changed. *)
Lemma seq_ok_sub rg rg' : seq_ok rg -> rg_sequence rg' = rg_sequence rg ->
  (forall l n', rg_nodes rg' !! l = Some n' -> exists n, rg_nodes rg !! l = Some n /\ sn_sequence n' = sn_sequence n /\
     forall tid t', sn_tasks n' !! tid = Some t' -> exists t, sn_tasks n !! tid = Some t /\ tk_sequence t' = tk_sequence t) ->
  (forall s st', rg_streams rg' !! s = Some st' -> exists st, rg_streams rg !! s = Some st /\ st_sequence st' = st_sequence st) ->
  seq_ok rg'.
Proof.
  intros [Q1 Q2 Q3 Q4 Q5 Q6 Q7] Eq Hn Hs. split; rewrite ?Eq; [done|..].
  - intros s st' Hst. destruct (Hs _ _ Hst) as (st & Hst0 & ->). by eapply Q2.
  - intros s s' st st' Hst Hst'. destruct (Hs _ _ Hst) as (st0 & H0 & ->), (Hs _ _ Hst') as (st1 & H1 & ->). by apply (Q3 s s' st0 st1).
  - intros l n' tid t' Hl Ht. destruct (Hn _ _ Hl) as (n & H0 & _ & Htask). destruct (Htask _ _ Ht) as (t & H1 & ->). by apply (Q4 l n tid).
  - intros l n' tid tid' t t' Hl Ht Ht'. destruct (Hn _ _ Hl) as (n & H0 & _ & Htask).
    destruct (Htask _ _ Ht) as (t0 & H1 & ->), (Htask _ _ Ht') as (t1 & H2 & ->). by apply (Q5 l n tid tid').
  - intros l n' Hl. destruct (Hn _ _ Hl) as (n & H0 & -> & _). by apply (Q6 l).
  - intros l l' n n' Hl Hl'. destruct (Hn _ _ Hl) as (n0 & H0 & -> & _), (Hn _ _ Hl') as (n1 & H1 & -> & _). by apply (Q7 l l' n0 n1).
Qed.

Lemma live_chain rg s st : tree_ok None rg -> rg_streams rg !! s = Some st -> st_phase st <> Released ->
  exists l node task, rg_sessions rg !! st_session st = Some l /\ rg_nodes rg !! l = Some node /\ sn_id node = st_session st /\
    sn_tasks node !! st_task st = Some task /\ tk_streams task !! st_sequence st = Some s /\
    chain rg (PStream l (st_task st) (st_sequence st)) = Some [st_ctx st; tk_ctx task; sn_ctx node].
Proof.
  intros T Hs Hp. destruct (t_live _ _ T _ _ Hs Hp) as (l & Hm & node & task & Hn & Ht & Hq). exists l, node, task.
  split; [done|]. split; [done|]. split; [|split; [done|split; [done|]]].
  - destruct (t_map _ _ T _ _ Hm) as (n & Hn' & Hid & _). rewrite Hn in Hn'. by injection Hn' as <-.
  - unfold chain. cbn. rewrite Hn. cbn. rewrite Ht. cbn. rewrite Hq. cbn. by rewrite Hs.
Qed.

(** The context of an attached stream is cancelled, and the stream no longer
    follows its parent. *)
Lemma spoil_stream_core rg s st cause f : core rg -> rg_streams rg !! s = Some st -> st_phase st = Attached ->
  (forall x, st_session (f x) = st_session x /\ st_task (f x) = st_task x /\ st_sequence (f x) = st_sequence x /\
     st_done (f x) = st_done x /\ (st_watching (f x) = true -> st_watching x = true /\ st_phase (f x) = st_phase x)) ->
  st_phase (f st) <> Released -> st_watching (f st) = false -> st_ctx (f st) = st_ctx st ->
  core (cancel_ctx (st_ctx st) cause (set_streams (alter f s (rg_streams rg)) rg)).
Proof.
  intros [T C Q] Hs Hp Hf Hfp Hfw Hfc. set (rg1 := set_streams (alter f s (rg_streams rg)) rg).
  assert (Hlk : forall s' st', rg_streams rg1 !! s' = Some st' -> exists x, rg_streams rg !! s' = Some x /\ st_ctx st' = st_ctx x /\
             st_sequence st' = st_sequence x /\ (st_watching st' = true -> st_watching x = true)).
  { intros s' st'. cbn [rg1 set_streams rg_streams]. rewrite lookup_alter_decide. case_decide as Hd.
    - subst s'. rewrite Hs. intros [= <-]. exists st. destruct (Hf st) as (_ & _ & -> & _). rewrite Hfw. done.
    - intros Hst. by exists st'. }
  split.
  - apply (tree_ok_ext _ rg1); [done..|]. apply tree_ok_alter_stream; [exact Hf| |done].
    intros x. rewrite Hs. intros [= <-]. rewrite Hp. split; [done|discriminate].
  - apply (ctx_ok_cancel rg _ [st_ctx st] cause C); try done.
    + split; [intros l n Hn; exists n; split_and!; try done; intros tid t Ht; by exists t|].
      intros s' st' Hst. destruct (Hlk _ _ Hst) as (x & ? & ? & _ & ?). by exists x.
    + intros p c up Hc [_ Hu] _. apply Forall_singleton. intros Hd.
      assert (Hsh : shrinks rg (cancel_ctx (st_ctx st) cause rg1)).
      { split; [intros l n Hn; exists n; split_and!; try done; intros tid t Ht; by exists t|].
        intros s' st' Hst. destruct (Hlk _ _ Hst) as (x & ? & ? & _ & ?). by exists x. }
      destruct (live_chain rg s st T Hs) as (l & node & task & _ & Hn & _ & Ht & Hq & Hch); [congruence|].
      apply (descends_place _ _ _ _ _ _ _ C Hch (proj1 (shrinks_chain _ _ _ _ Hsh Hc))) in Hd.
      destruct p as [|?|l' tid' q']; cbn [under] in Hd; [done..|]. bool_hyps. subst l' tid' q'.
      specialize (Hu s (f st)). rewrite Hfw in Hu. discriminate Hu.
      * unfold place_stream. cbn [cancel_ctx set_contexts rg1 set_streams rg_nodes]. rewrite Hn. cbn. by rewrite Ht.
      * cbn [cancel_ctx set_contexts rg1 set_streams rg_streams]. by rewrite lookup_alter_decide, decide_True, Hs.
    + intros l n Hn Hd. exists n. tauto.
  - apply (seq_ok_sub rg); try done.
    + intros l n Hn. exists n. split; [done|]. split; [done|]. intros tid t Ht. by exists t.
    + intros s' st' Hst. destruct (Hlk _ _ Hst) as (x & ? & _ & ? & _). by exists x.
Qed.

Lemma spoil_stream rg s st cause f : invariant rg -> rg_streams rg !! s = Some st -> st_phase st = Attached ->
  (forall x, st_session (f x) = st_session x /\ st_task (f x) = st_task x /\ st_sequence (f x) = st_sequence x /\
     st_done (f x) = st_done x /\ (st_watching (f x) = true -> st_watching x = true /\ st_phase (f x) = st_phase x)) ->
  st_phase (f st) <> Released -> st_watching (f st) = false -> st_ctx (f st) = st_ctx st ->
  invariant (cancel_ctx (st_ctx st) cause (set_streams (alter f s (rg_streams rg)) rg)).
Proof.
  intros [I Hcl] Hs Hp Hf Hfp Hfw Hfc. split; [by apply spoil_stream_core|]. intros Hclosed. destruct (Hcl Hclosed) as [[e He] Hall].
  split; [|done]. exists e. by apply cause_kept.
Qed.

Lemma begin_release_ok rg s st : invariant rg -> rg_streams rg !! s = Some st ->
  exists rg', begin_release s rg = Some rg' /\ invariant rg' /\
    (st_phase st = Attached -> rg_streams rg' = alter (fun st => set_phase Releasing (stop_watching st)) s (rg_streams rg)) /\
    (st_phase st <> Attached -> rg' = rg) /\ rg_nodes rg' = rg_nodes rg /\ rg_sessions rg' = rg_sessions rg /\
    length (rg_contexts rg') = length (rg_contexts rg) /\ rg_closed rg' = rg_closed rg /\ rg_sequence rg' = rg_sequence rg.
Proof.
  intros I Hs. unfold begin_release. rewrite Hs. cbn [mbind option_bind]. destruct (st_phase st) eqn:Hp; [|by exists rg..].
  eexists. split; [done|]. split; [|split_and!; try done; apply length_cancel]. by apply spoil_stream.
Qed.

Lemma parent_done_ok rg s st : invariant rg -> rg_streams rg !! s = Some st ->
  exists rg', parent_done s rg = Some rg' /\ invariant rg' /\
    (rg' = rg \/ rg_streams rg' = alter stop_watching s (rg_streams rg)) /\ rg_nodes rg' = rg_nodes rg /\
    rg_sessions rg' = rg_sessions rg /\
    length (rg_contexts rg') = length (rg_contexts rg) /\ rg_closed rg' = rg_closed rg /\ rg_sequence rg' = rg_sequence rg.
Proof.
  intros I Hs. unfold parent_done. rewrite Hs. cbn [mbind option_bind].
  destruct (st_watching st) eqn:Hw; [|exists rg; split_and!; try done; by left].
  destruct (Cause (rg_contexts rg) (st_parent st)) as [cause|]; [|exists rg; split_and!; try done; by left].
  pose proof (t_watching _ _ (core_tree _ (inv_core _ I)) _ _ Hs Hw) as Hp.
  eexists. split; [done|]. split; [|split_and!; try done; [by right|apply length_cancel]].
  apply spoil_stream; try done; cbn; congruence.
Qed.
End streams.

(** ** The end of a release *)

Section release.
Implicit Types (rg : Registry).

Lemma finish_set_streams l x rg : finishSessionLocked l (set_streams x rg) = set_streams x <$> finishSessionLocked l rg.
Proof.
  unfold finishSessionLocked, close_session. cbn [set_streams rg_nodes rg_sessions set_sessions].
  destruct (rg_nodes rg !! l) as [node|]; [|done]. cbn [mbind option_bind]. destruct (negb _ || negb _); [done|].
  case_bool_decide; [|done]. cbn [mbind option_bind set_sessions rg_nodes set_streams].
  by destruct (sn_done node).
Qed.

Lemma without_stream_core rg l node tid task q s : core rg -> rg_nodes rg !! l = Some node -> sn_tasks node !! tid = Some task ->
  tk_streams task !! q = Some s -> (forall st, rg_streams rg !! s = Some st -> st_watching st = false) ->
  tree_ok (Some l) (without_stream rg l tid task q s) /\ ctx_ok (without_stream rg l tid task q s) /\
  seq_ok (without_stream rg l tid task q s).
Proof.
  intros [T C Q] Hn Ht Hq Hw. set (rg' := without_stream rg l tid task q s).
  pose proof (without_stream_node rg l node tid task q s T Hn Ht) as Hnode.
  assert (Hst : forall s' st', rg_streams rg' !! s' = Some st' -> exists st, rg_streams rg !! s' = Some st /\
            st_ctx st' = st_ctx st /\ st_sequence st' = st_sequence st /\ (st_watching st' = true -> st_watching st = true)).
  { intros s' st'. unfold rg', without_stream. cbn [set_streams rg_streams]. rewrite lookup_alter_decide. case_decide as Hd.
    - subst s'. destruct (rg_streams rg !! s) as [st|]; [|done]. intros [= <-]. by exists st.
    - intros Hs'. by exists st'. }
  assert (Hsh : shrinks rg rg').
  { split; [|intros s' st' Hs'; destruct (Hst _ _ Hs') as (st & ? & ? & _ & ?); by exists st].
    intros l' n' Hn'. destruct (Hnode _ _ Hn') as (n & Hn0 & _ & _ & Hdr & Hne & Heq). exists n. destruct (decide (l' = l)) as [->|Hl].
    - rewrite Hn in Hn0. injection Hn0 as <-. split; [done|]. split.
      { revert Hn'. unfold rg', without_stream, remove_stream. cbn [set_streams rg_nodes].
        case_bool_decide; cbn [set_nodes rg_nodes]; rewrite lookup_alter_decide, decide_True, Hn by done; by intros [= <-]. }
      split; [by rewrite Hdr|]. intros tid' t' Ht'. destruct (Heq eq_refl _ _ Ht') as (_ & t0 & Ht0 & _ & Hc & _ & Hs'). exists t0.
      split; [done|]. split; [done|]. rewrite Hs'. intros q' s0. case_decide; [|done]. by intros [_ ?]%lookup_delete_Some.
    - rewrite (Hne Hl). split_and!; try done. intros tid' t' Ht'. by exists t'. }
  assert (Hseq : seq_ok rg').
  { apply (seq_ok_sub rg); [done| | |intros s' st' Hs'; destruct (Hst _ _ Hs') as (st & ? & _ & ? & _); by exists st].
    - unfold rg', without_stream, remove_stream. by case_bool_decide.
    - intros l' n' Hn'. destruct (Hnode _ _ Hn') as (n & Hn0 & _ & _ & _ & Hne & Heq). exists n. destruct (decide (l' = l)) as [->|Hl].
      + rewrite Hn in Hn0. injection Hn0 as <-. split; [done|]. split.
        { revert Hn'. unfold rg', without_stream, remove_stream. cbn [set_streams rg_nodes].
          case_bool_decide; cbn [set_nodes rg_nodes]; rewrite lookup_alter_decide, decide_True, Hn by done; by intros [= <-]. }
        intros tid' t' Ht'. destruct (Heq eq_refl _ _ Ht') as (_ & t0 & Ht0 & _ & _ & E & _). by exists t0.
      + rewrite (Hne Hl). split_and!; try done. intros tid' t' Ht'. by exists t'. }
  split; [by eapply without_stream_ok|]. split; [|exact Hseq].
  assert (Hdrain : forall i n', rg_nodes rg' !! i = Some n' -> sn_draining n' = true -> exists n, rg_nodes rg !! i = Some n /\
             sn_ctx n' = sn_ctx n /\ sn_draining n = true).
  { intros i n' Hn' Hd. destruct (sh_nodes _ _ Hsh _ _ Hn') as (n & Hn0 & Hc & _). exists n. split; [done|]. split; [done|].
    destruct (Hnode _ _ Hn') as (n2 & Hn2 & _ & _ & Hdr & _). congruence. }
  assert (Hroot : rg_root rg' = rg_root rg) by (unfold rg', without_stream, remove_stream; by case_bool_decide).
  destruct (decide (delete q (tk_streams task) = ∅)) as [He|He].
  - apply (ctx_ok_cancel rg rg' [tk_ctx task] Canceled C); try done.
    + unfold rg', without_stream, remove_stream. by rewrite bool_decide_true.
    + intros p c up Hc _ _. apply Forall_singleton. intros Hd.
      assert (Hch : chain rg (PTask l tid) = Some [tk_ctx task; sn_ctx node]) by (unfold chain; cbn; rewrite Hn; cbn; by rewrite Ht).
      apply (descends_place _ _ _ _ _ _ _ C Hch (proj1 (shrinks_chain _ _ _ _ Hsh Hc))) in Hd.
      assert (Hgone : forall n', rg_nodes rg' !! l = Some n' -> sn_tasks n' !! tid = None).
      { intros n'. unfold rg', without_stream, remove_stream. rewrite bool_decide_true by done. cbn [set_streams set_nodes rg_nodes].
        rewrite lookup_alter_decide, decide_True, Hn by done. intros [= <-]. cbn. apply lookup_delete_eq. }
      unfold chain in Hc. destruct p as [?|l' tid'|l' tid' q']; cbn [under] in Hd; [done|..]; bool_hyps; subst l' tid'; cbn [place_session] in Hc;
        (destruct (rg_nodes rg' !! l) as [n'|]; [|done]); cbn in Hc; by rewrite (Hgone n' eq_refl) in Hc.
    + intros i n' Hn' Hd. destruct (Hdrain _ _ Hn' Hd) as (n & ? & ? & ?). exists n. tauto.
  - apply (ctx_ok_cancel rg rg' [] Canceled C); try done.
    + unfold rg', without_stream, remove_stream. by rewrite bool_decide_false.
    + intros i n' Hn' Hd. destruct (Hdrain _ _ Hn' Hd) as (n & ? & ? & ?). exists n. tauto.
Qed.

Lemma end_release_run rg s st : tree_ok None rg -> rg_streams rg !! s = Some st -> st_phase st = Releasing ->
  exists l node task, rg_sessions rg !! st_session st = Some l /\ rg_nodes rg !! l = Some node /\
    sn_tasks node !! st_task st = Some task /\ tk_streams task !! st_sequence st = Some s /\
    end_release s rg = finishSessionLocked l (without_stream rg l (st_task st) task (st_sequence st) s).
Proof.
  intros T Hs Hp. destruct (live_chain rg s st T Hs) as (l & node & task & Hm & Hn & _ & Ht & Hq & _); [congruence|].
  exists l, node, task. split_and!; try done. unfold end_release, release_locked. rewrite Hs. cbn [mbind option_bind]. rewrite Hp, Hm, Hn.
  cbn [mbind option_bind]. rewrite Ht, bool_decide_true by done. unfold close_stream. rewrite Hs. cbn [mbind option_bind].
  rewrite (t_stream_done _ _ T _ _ Hs), Hp. rewrite bool_decide_false by done. cbn [mbind option_bind].
  unfold without_stream. rewrite finish_set_streams.
  assert (Hr : forall x, remove_stream l (st_task st) task (st_sequence st) (set_streams x rg) =
                    set_streams x (remove_stream l (st_task st) task (st_sequence st) rg)).
  { intros x. unfold remove_stream. by case_bool_decide. }
  rewrite Hr, finish_set_streams.
  destruct (finishSessionLocked l (remove_stream l (st_task st) task (st_sequence st) rg)) as [rg2|]; [|done].
  cbn [fmap option_fmap option_map mbind option_bind]. unfold set_streams. cbn [rg_streams rg_contexts rg_nodes rg_root rg_closed rg_sequence rg_sessions].
  by rewrite list_alter_alter_eq.
Qed.

Lemma end_release_ok rg s st : invariant rg -> rg_streams rg !! s = Some st ->
  exists rg', end_release s rg = Some rg' /\ invariant rg' /\
    (st_phase st = Releasing -> rg_streams rg' = alter (fun st => set_phase Released (set_stream_done st)) s (rg_streams rg)) /\
    (st_phase st <> Releasing -> rg' = rg) /\
    length (rg_contexts rg') = length (rg_contexts rg) /\ rg_closed rg' = rg_closed rg /\ rg_sequence rg' = rg_sequence rg.
Proof.
  intros [I Hcl] Hs. destruct (decide (st_phase st = Releasing)) as [Hp|Hp].
  2:{ exists rg. unfold end_release. rewrite Hs. cbn [mbind option_bind]. split; [by destruct (st_phase st)|]. by split_and!. }
  destruct (end_release_run rg s st (core_tree _ I) Hs Hp) as (l & node & task & Hm & Hn & Ht & Hq & ->).
  assert (Hw : forall x, rg_streams rg !! s = Some x -> st_watching x = false).
  { intros x. rewrite Hs. intros [= <-]. destruct (st_watching st) eqn:Ew; [|done].
    pose proof (t_watching _ _ (core_tree _ I) _ _ Hs Ew). congruence. }
  destruct (without_stream_core rg l node _ _ _ _ I Hn Ht Hq Hw) as (T1 & C1 & Q1).
  set (rg1 := without_stream rg l (st_task st) task (st_sequence st) s) in *.
  assert (Hsame : length (rg_contexts rg1) = length (rg_contexts rg) /\ rg_root rg1 = rg_root rg /\ rg_closed rg1 = rg_closed rg /\
             rg_sequence rg1 = rg_sequence rg /\ (forall c e, Cause (rg_contexts rg) c = Some e -> Cause (rg_contexts rg1) c = Some e) /\
             is_Some (rg_nodes rg1 !! l)).
  { unfold rg1, without_stream, remove_stream. case_bool_decide; cbn [set_streams set_nodes cancel_ctx set_contexts rg_contexts rg_root rg_closed rg_sequence rg_nodes];
      split_and!; try done; [apply length_cancel|intros c e; apply cause_kept|..];
      rewrite lookup_alter_decide, decide_True, Hn by done; by eexists. }
  destruct Hsame as (L1 & R1 & E1 & Z1 & K1 & N1).
  destruct (finish_core l rg1 T1 C1 Q1 N1) as (rg' & Hf & I' & Ec & [Es Er Ecl Eq] & Hsn). exists rg'. split; [done|].
  split; [split; [done|]|split_and!; [intros _; rewrite Es; reflexivity|done|congruence..]].
  intros Hclosed. rewrite Ecl, E1 in Hclosed. destruct (Hcl Hclosed) as [[e He] Hall].
  rewrite Ec, Er, R1. split; [exists e; by apply K1|]. intros i n' Hn'.
  destruct (proj2 Hsn _ _ Hn') as (n1 & Hn1 & [_ _ _ _ Ed]). apply Ed. left.
  destruct (without_stream_node rg l node _ _ _ s (core_tree _ I) Hn Ht _ _ Hn1) as (n0 & Hn0 & _ & _ & -> & _). by apply (Hall i).
Qed.
End release.

(** ** New sessions, tasks and streams *)

Section attach.
Implicit Types (rg : Registry).

Lemma is_closed_false rg : is_closed rg = false -> rg_closed rg = false /\ Cause (rg_contexts rg) (rg_root rg) = None.
Proof.
  unfold is_closed, ctx_done. intros [H1 H2]%orb_false_iff. split; [done|]. apply bool_decide_eq_false in H2.
  destruct (Cause (rg_contexts rg) (rg_root rg)); [|done]. destruct H2. by eexists.
Qed.

Lemma derive_old p cs i : (i < length cs)%nat ->
  ancestors (WithCancelCause p cs).2 i = ancestors cs i /\ Cause (WithCancelCause p cs).2 i = Cause cs i.
Proof. intros Hi. cbn. rewrite ancestors_new, Cause_new, !decide_False by lia. done. Qed.

Lemma derive_new p cs : ancestors (WithCancelCause p cs).2 (length cs) = p :: ancestors cs p /\
  Cause (WithCancelCause p cs).2 (length cs) = Cause cs p.
Proof. cbn. rewrite ancestors_new, Cause_new, !decide_True by done. done. Qed.

Lemma length_derive p cs : length (WithCancelCause p cs).2 = S (length cs).
Proof. cbn. rewrite length_app. cbn. lia. Qed.

(** A new session. *)
Definition with_session (id : string) rg : Registry :=
  add_node (mkSessionNode id (nextSequence rg) (length (rg_contexts rg)) false ∅ false)
    (set_contexts (WithCancelCause (rg_root rg) (rg_contexts rg)).2 (set_sequence (nextSequence rg) rg)).

Lemma with_session_chain id rg p x : chain (with_session id rg) p = Some x ->
  chain rg p = Some x /\ (unspoiled (with_session id rg) p -> unspoiled rg p) \/
  p = PSession (length (rg_nodes rg)) /\ x = [length (rg_contexts rg)].
Proof.
  unfold chain, unspoiled, place_stream, with_session, add_node. cbn [set_sessions set_nodes set_contexts set_sequence rg_nodes rg_streams].
  rewrite !lookup_snoc_decide. destruct (decide (place_session p = length (rg_nodes rg))) as [He|He].
  - intros Hx. right. destruct p as [l|l tid|l tid q]; cbn in Hx, He; [by injection Hx as <-; subst l|..]; by rewrite lookup_empty in Hx.
  - intros Hx. left. split; [done|]. intros [H1 H2]. split; [done|]. intros s st Hs Hst. apply (H2 s); [|done].
    destruct p as [|?|l tid q]; [done..|]. cbn in He. by rewrite lookup_snoc_decide, decide_False.
Qed.

Lemma with_session_core id rg : core rg -> rg_sessions rg !! id = None -> rg_sequence rg + 1 < 2 ^ 64 -> core (with_session id rg).
Proof.
  intros [T C Q] Hnew Hroom. pose proof (nextSequence_room _ Q Hroom) as Hnext. pose proof (q_range _ Q) as Hge. split.
  - apply tree_ok_add_node; [done|]. by apply (tree_ok_ext _ rg).
  - apply (ctx_ok_extend rg); try done.
    + apply contexts_ok_derive; [apply C|exact (c_root _ C)].
    + cbn [with_session add_node set_sessions set_nodes set_contexts rg_contexts]. rewrite length_derive. lia.
    + intros i Hi. by apply derive_old.
    + intros p c up Hc. destruct (with_session_chain _ _ _ _ Hc) as [Hold|[Hp Hx]]; [by left|right]. injection Hx as -> ->.
      cbn [with_session add_node set_sessions set_nodes set_contexts rg_contexts rg_root set_sequence]. rewrite length_derive.
      split; [lia|]. split; [by rewrite (proj1 (derive_new _ _))|]. split; [by rewrite (proj2 (derive_new _ _))|].
      intros p' up' Hc'. destruct (with_session_chain _ _ _ _ Hc') as [[Hold _]|[Hp' _]]; [|congruence].
      destruct (c_chain _ C _ _ _ Hold). lia.
    + intros l n'. cbn [with_session add_node set_sessions set_nodes rg_nodes]. rewrite lookup_snoc_decide.
      case_decide; [by intros [= <-]|]. intros Hn Hd. by exists n'.
  - destruct Q as [Q1 Q2 Q3 Q4 Q5 Q6 Q7].
    split; unfold with_session, add_node; cbn [set_sessions set_nodes set_contexts set_sequence rg_sequence rg_nodes rg_streams]; rewrite ?Hnext.
    + lia.
    + intros s st Hs. specialize (Q2 _ _ Hs). lia.
    + done.
    + intros l n tid t. rewrite lookup_snoc_decide. case_decide; [intros [= <-]; cbn; by rewrite lookup_empty|].
      intros Hl Ht. specialize (Q4 _ _ _ _ Hl Ht). lia.
    + intros l n tid tid' t t'. rewrite lookup_snoc_decide. case_decide; [intros [= <-]; cbn; by rewrite lookup_empty|]. by apply Q5.
    + intros l n. rewrite lookup_snoc_decide. case_decide; [intros [= <-]; cbn; lia|]. intros Hl. specialize (Q6 _ _ Hl). lia.
    + intros l l' n n'. rewrite !lookup_snoc_decide. case_decide; case_decide; subst; [done|..].
      * intros [= <-] Hl' He. specialize (Q6 _ _ Hl'). cbn in He. lia.
      * intros Hl [= <-] He. specialize (Q6 _ _ Hl). cbn in He. lia.
      * apply Q7.
Qed.

Lemma ensureSession_ok id rg : invariant rg -> is_closed rg = false -> rg_sequence rg + 1 < 2 ^ 64 ->
  exists r rg', ensureSessionLocked id rg = Some (r, rg') /\ invariant rg' /\ rg_streams rg' = rg_streams rg /\
    rg_root rg' = rg_root rg /\ rg_closed rg' = rg_closed rg /\ is_closed rg' = false /\
    rg_sequence rg <= rg_sequence rg' <= rg_sequence rg + 1 /\ (length (rg_contexts rg) <= length (rg_contexts rg'))%nat /\
    (forall l n, rg_nodes rg !! l = Some n -> rg_nodes rg' !! l = Some n) /\
    (forall c, (c < length (rg_contexts rg))%nat -> ancestors (rg_contexts rg') c = ancestors (rg_contexts rg) c /\
        Cause (rg_contexts rg') c = Cause (rg_contexts rg) c) /\
    match r with
    | Ok l => rg_sessions rg' !! id = Some l /\ exists node, rg_nodes rg' !! l = Some node /\ sn_id node = id /\ sn_draining node = false
    | Err e => e = ErrDraining /\ rg' = rg /\ exists l node, rg_sessions rg !! id = Some l /\ rg_nodes rg !! l = Some node /\ sn_draining node = true
    end.
Proof.
  intros [I Hcl] Hopen Hroom. unfold ensureSessionLocked. destruct (rg_sessions rg !! id) as [l|] eqn:El.
  - destruct (t_map _ _ (core_tree _ I) _ _ El) as (node & Hn & Hid & _). rewrite Hn. cbn [mbind option_bind].
    eexists _, rg. split; [done|]. split_and!; try done; try lia.
    destruct (sn_draining node) eqn:Hd; [split_and!; try done; by exists l, node|]. split; [done|]. by exists node.
  - eexists (Ok (length (rg_nodes rg))), (with_session id rg). split; [done|]. destruct (is_closed_false _ Hopen) as [Hc Hr].
    pose proof (with_session_core id rg I El Hroom) as I'. pose proof (q_range _ (core_seq _ I)).
    assert (Hseq : rg_sequence (with_session id rg) = rg_sequence rg + 1) by (apply nextSequence_room; [apply I|done]).
    split_and!; try done; try lia.
    + split; [done|]. unfold closed_ok. cbn [with_session add_node set_sessions set_nodes set_contexts set_sequence rg_closed]. congruence.
    + unfold is_closed, ctx_done. cbn [with_session add_node set_sessions set_nodes set_contexts set_sequence rg_closed rg_contexts rg_root].
      rewrite (proj2 (derive_old _ _ _ (c_root _ (core_ctx _ I)))), Hc, Hr. done.
    + cbn [with_session add_node set_sessions set_nodes set_contexts rg_contexts]. rewrite length_derive. lia.
    + intros l n Hl. cbn [with_session add_node set_sessions set_nodes rg_nodes]. rewrite lookup_snoc_decide, decide_False; [done|].
      apply lookup_lt_Some in Hl. cbn. lia.
    + intros c Hlt. by apply derive_old.
    + cbn [with_session add_node set_sessions rg_sessions sn_id]. by rewrite lookup_insert_eq.
    + exists (mkSessionNode id (nextSequence rg) (length (rg_contexts rg)) false ∅ false).
      cbn [with_session add_node set_sessions set_nodes rg_nodes set_contexts set_sequence]. by rewrite lookup_snoc_decide, decide_True.
Qed.
End attach.

Section attach_stream.
Context (rg : Registry) (parent l : nat) (node : sessionNode) (tid : string).
Context (I : core rg) (Hn : rg_nodes rg !! l = Some node) (Hm : rg_sessions rg !! sn_id node = Some l)
  (Hdr : sn_draining node = false) (Hroot : Cause (rg_contexts rg) (rg_root rg) = None) (Hroom : rg_sequence rg + 2 < 2 ^ 64).

Definition the_task : taskNode := (ensure_task node tid rg).1.
Definition with_task : Registry := (ensure_task node tid rg).2.
Definition with_stream : Registry := (attach_stream parent l (sn_id node) tid the_task with_task).2.

(** The task is the one of the session, or a new one without streams. *)
Lemma with_task_spec :
  rg_nodes with_task = rg_nodes rg /\ rg_streams with_task = rg_streams rg /\ rg_sessions with_task = rg_sessions rg /\
  rg_root with_task = rg_root rg /\ rg_closed with_task = rg_closed rg /\ tk_id the_task = tid /\
  contexts_ok (rg_contexts with_task) /\
  (forall i, (i < length (rg_contexts rg))%nat -> ancestors (rg_contexts with_task) i = ancestors (rg_contexts rg) i /\
     Cause (rg_contexts with_task) i = Cause (rg_contexts rg) i) /\
  (tk_ctx the_task < length (rg_contexts with_task))%nat /\
  ancestors (rg_contexts with_task) (tk_ctx the_task) = sn_ctx node :: rg_root rg :: ancestors (rg_contexts rg) (rg_root rg) /\
  Cause (rg_contexts with_task) (tk_ctx the_task) = None /\ nextSequence with_task = rg_sequence with_task + 1 /\
  (sn_tasks node !! tid = Some the_task /\ with_task = rg \/
   sn_tasks node !! tid = None /\ tk_streams the_task = ∅ /\ tk_ctx the_task = length (rg_contexts rg) /\
   length (rg_contexts with_task) = S (length (rg_contexts rg)) /\ rg_sequence with_task = rg_sequence rg + 1 /\
   tk_sequence the_task = rg_sequence rg + 1).
Proof.
  destruct I as [T C Q]. pose proof (q_range _ Q) as Hge.
  assert (Hs : chain rg (PSession l) = Some [sn_ctx node]) by (unfold chain; cbn; by rewrite Hn).
  assert (Hu : forall p, place_session p = l -> place_stream rg p = None -> unspoiled rg p).
  { intros p <- Hp. split; [|by rewrite Hp]. intros n. rewrite Hn. by intros [= <-]. }
  unfold with_task, the_task, ensure_task. destruct (sn_tasks node !! tid) as [task|] eqn:Et; cbn [fst snd].
  - assert (Hc : chain rg (PTask l tid) = Some [tk_ctx task; sn_ctx node]) by (unfold chain; cbn; rewrite Hn; cbn; by rewrite Et).
    destruct (c_chain _ C _ _ _ Hc) as [Hlt Ha]. split_and!; try done.
    + by apply (t_tasks _ _ T l node tid task Hn Et).
    + apply C.
    + apply (c_live _ C _ _ _ Hc); [by apply Hu|done].
    + apply nextSequence_room; [done|lia].
    + by left.
  - cbn [WithCancelCause fst snd tk_streams tk_ctx tk_id tk_sequence set_contexts set_sequence rg_nodes rg_streams rg_sessions rg_root rg_closed rg_contexts rg_sequence].
    change (rg_contexts rg ++ [mkContext (sn_ctx node :: ancestors (rg_contexts rg) (sn_ctx node)) (Cause (rg_contexts rg) (sn_ctx node))])
      with (WithCancelCause (sn_ctx node) (rg_contexts rg)).2.
    destruct (c_chain _ C _ _ _ Hs) as [Hlt Ha].
    assert (Hnext : nextSequence rg = rg_sequence rg + 1) by (apply nextSequence_room; [done|lia]).
    split_and!; try done.
    + by apply contexts_ok_derive; [apply C|].
    + intros i Hi. by apply derive_old.
    + rewrite length_derive. lia.
    + by rewrite (proj1 (derive_new _ _)), Ha.
    + rewrite (proj2 (derive_new _ _)). apply (c_live _ C _ _ _ Hs); [by apply Hu|done].
    + unfold nextSequence at 1, uint64. cbn [rg_sequence set_contexts set_sequence]. rewrite Hnext, Z.mod_small by lia. done.
    + right. split_and!; try done. by rewrite length_derive.
Qed.

Lemma with_stream_nodes i : rg_nodes with_stream !! i =
  if decide (i = l)
  then Some (set_tasks (<[tid := set_task_streams (<[nextSequence with_task := length (rg_streams rg)]> (tk_streams the_task)) the_task]>
               (sn_tasks node)) node)
  else rg_nodes rg !! i.
Proof.
  destruct with_task_spec as (En & Es & _). unfold with_stream, attach_stream. cbn. rewrite lookup_alter_decide, En, Es.
  destruct (decide (i = l)) as [->|]; [rewrite decide_True, Hn by done|rewrite decide_False by done]; done.
Qed.

Lemma with_stream_streams s : rg_streams with_stream !! s =
  if decide (s = length (rg_streams rg))
  then Some (mkStream (sn_id node) tid (nextSequence with_task) (length (rg_contexts with_task)) parent true Attached false)
  else rg_streams rg !! s.
Proof. destruct with_task_spec as (_ & Es & _). unfold with_stream, attach_stream. cbn. rewrite <- Es. apply lookup_snoc_decide. Qed.

(** The number of the stream is new. *)
Lemma fresh_number q : (exists s, tk_streams the_task !! q = Some s) -> q <= rg_sequence rg.
Proof.
  destruct I as [T C Q]. intros [s Hq]. destruct with_task_spec as (_ & _ & _ & _ & _ & _ & _ & _ & _ & _ & _ & _ & [[Ht _]|(_ & He & _)]).
  - destruct (registered_home _ _ l tid q s T) as (st & Hs & _ & _ & <- & _); [by exists node, the_task|]. by eapply (q_streams _ Q).
  - by rewrite He, lookup_empty in Hq.
Qed.

Lemma with_task_sequence : rg_sequence rg <= rg_sequence with_task <= rg_sequence rg + 1.
Proof.
  destruct with_task_spec as (_ & _ & _ & _ & _ & _ & _ & _ & _ & _ & _ & _ & [[_ ->]|(_ & _ & _ & _ & -> & _)]); lia.
Qed.

Lemma with_stream_tree : tree_ok None with_stream /\
  forall l' tid' q s, registered with_stream l' tid' q s <->
    registered rg l' tid' q s \/ (l' = l /\ tid' = tid /\ q = nextSequence with_task /\ s = length (rg_streams rg)).
Proof.
  destruct I as [T C Q]. pose proof with_task_sequence as Hsq.
  destruct with_task_spec as (En & Es & Em & _ & _ & Hid & _ & _ & _ & _ & _ & Hnext & Hcase).
  assert (Hr : forall l' tid' q s, registered with_task l' tid' q s <-> registered rg l' tid' q s) by (intros; unfold registered; by rewrite En).
  destruct (tree_ok_attach with_task parent l node tid the_task) as [Ht Hreg]; try done.
  - by rewrite En.
  - by rewrite Em.
  - destruct Hcase as [[Ht _]|(Ht & He & _)]; [by left|by right].
  - destruct (tk_streams the_task !! nextSequence with_task) eqn:E; [|done].
    pose proof (fresh_number (nextSequence with_task) (ex_intro _ _ E)). lia.
  - by apply (tree_ok_ext _ rg).
  - split; [done|]. intros l' tid' q s. unfold with_stream. rewrite Hreg, Hr, Es. done.
Qed.

Lemma place_registered rg0 l' tid' q s : place_stream rg0 (PStream l' tid' q) = Some s <-> registered rg0 l' tid' q s.
Proof.
  unfold place_stream, registered. split.
  - destruct (rg_nodes rg0 !! l') as [n|]; [|done]. cbn. destruct (sn_tasks n !! tid') as [t|] eqn:Et; [|done]. cbn. intros Hq. by exists n, t.
  - intros (n & t & -> & Ht & Hq). cbn. by rewrite Ht.
Qed.

Lemma with_stream_unspoiled p : unspoiled with_stream p -> unspoiled rg p.
Proof.
  intros [H1 H2]. split.
  - intros n Hnp. specialize (H1 (if decide (place_session p = l) then set_tasks (<[tid := set_task_streams (<[nextSequence with_task :=
        length (rg_streams rg)]> (tk_streams the_task)) the_task]> (sn_tasks node)) node else n)).
    rewrite with_stream_nodes in H1. case_decide as Hp; [|exact (H1 Hnp)].
    rewrite Hp, Hn in Hnp. injection Hnp as <-. exact (H1 eq_refl).
  - intros s st Hp Hs. apply (H2 s).
    + destruct p as [|?|l' tid' q]; [done..|]. apply place_registered, with_stream_tree. left. by apply place_registered.
    + rewrite with_stream_streams, decide_False; [done|]. apply lookup_lt_Some in Hs. lia.
Qed.

Lemma with_stream_chain p x : chain with_stream p = Some x ->
  chain rg p = Some x \/
  p = PStream l tid (nextSequence with_task) /\ x = [length (rg_contexts with_task); tk_ctx the_task; sn_ctx node] \/
  p = PTask l tid /\ x = [tk_ctx the_task; sn_ctx node] /\ sn_tasks node !! tid = None.
Proof.
  destruct I as [T C Q].
  destruct with_task_spec as (_ & _ & _ & _ & _ & _ & _ & _ & _ & _ & _ & Hnext & Hcase).
  assert (Hout : forall l' tid' q s, registered rg l' tid' q s -> s <> length (rg_streams rg)).
  { intros l' tid' q s Hr. destruct (registered_home _ _ l' tid' q s T Hr) as (st & Hs & _). apply lookup_lt_Some in Hs. lia. }
  unfold chain. rewrite with_stream_nodes. destruct (decide (place_session p = l)) as [He|He].
  2:{ intros Hx. left. rewrite <- Hx. destruct (rg_nodes rg !! place_session p) as [n|] eqn:En; [|done]. cbn.
      destruct p as [?|?|l' tid' q]; try done. destruct (sn_tasks n !! tid') as [t|] eqn:Et; [|done]. cbn.
      destruct (tk_streams t !! q) as [s|] eqn:Eq; [|done]. cbn. rewrite with_stream_streams, decide_False; [done|].
      apply (Hout l' tid' q). by exists n, t. }
  rewrite He, Hn. cbn [mbind option_bind sn_ctx sn_tasks set_tasks]. destruct p as [l'|l' tid'|l' tid' q]; cbn in He; subst l'; [by left|..].
  - destruct (decide (tid' = tid)) as [->|Ht]; [|rewrite lookup_insert_ne by done; by left].
    rewrite lookup_insert_eq. cbn. intros [= <-]. destruct Hcase as [[Ht _]|(Ht & _)]; [left; by rewrite Ht|by right; right].
  - destruct (decide (tid' = tid)) as [->|Ht].
    + rewrite lookup_insert_eq. cbn. destruct (decide (q = nextSequence with_task)) as [->|Hq].
      * rewrite lookup_insert_eq. cbn. rewrite with_stream_streams, decide_True by done. cbn. intros [= <-]. right. by left.
      * rewrite lookup_insert_ne by done. destruct (tk_streams the_task !! q) as [s|] eqn:Eq; [|done]. cbn.
        destruct Hcase as [[Ht _]|(_ & E & _)]; [|by rewrite E, lookup_empty in Eq].
        rewrite with_stream_streams, decide_False by (apply (Hout l tid q); by exists node, the_task).
        intros Hx. left. rewrite Ht. cbn. by rewrite Eq.
    + rewrite lookup_insert_ne by done. destruct (sn_tasks node !! tid') as [t|] eqn:Ett; [|done]. cbn.
      destruct (tk_streams t !! q) as [s|] eqn:Eq; [|done]. cbn.
      rewrite with_stream_streams, decide_False by (apply (Hout l tid' q); by exists node, t). by left.
Qed.

Lemma with_stream_ctx : ctx_ok with_stream.
Proof.
  destruct I as [T C Q].
  destruct with_task_spec as (_ & _ & _ & Er & _ & _ & Hok & Hold & Htl & Hta & Htc & _ & Hcase).
  assert (Hcs : rg_contexts with_stream = (WithCancelCause (tk_ctx the_task) (rg_contexts with_task)).2) by done.
  assert (Hle : (length (rg_contexts rg) <= length (rg_contexts with_task))%nat) by (destruct Hcase as [[_ ->]|(_ & _ & _ & -> & _)]; lia).
  apply (ctx_ok_extend rg with_stream C); rewrite ?Hcs, ?length_derive.
  - by apply contexts_ok_derive.
  - lia.
  - exact Er.
  - intros i Hi. destruct (derive_old (tk_ctx the_task) (rg_contexts with_task) i) as [-> ->]; [lia|]. by apply Hold.
  - intros p c up Hc. destruct (with_stream_chain _ _ Hc) as [Hc0|Hnew]; [left; split; [done|apply with_stream_unspoiled]|right].
    assert (Hfar : (length (rg_contexts rg) <= c < S (length (rg_contexts with_task)))%nat /\
      ancestors (WithCancelCause (tk_ctx the_task) (rg_contexts with_task)).2 c = up ++ rg_root rg :: ancestors (rg_contexts rg) (rg_root rg) /\
      Cause (WithCancelCause (tk_ctx the_task) (rg_contexts with_task)).2 c = None).
    { destruct Hnew as [[_ [= -> ->]]|(_ & [= -> ->] & Hnone)].
      - destruct (derive_new (tk_ctx the_task) (rg_contexts with_task)) as [-> ->]. split; [lia|]. split; [by rewrite Hta|done].
      - destruct (derive_old (tk_ctx the_task) (rg_contexts with_task) (tk_ctx the_task) Htl) as [-> ->]. rewrite Hta.
        destruct Hcase as [[Ht _]|(_ & _ & E & _)]; [congruence|]. split; [lia|done]. }
    destruct Hfar as (Hf1 & Hf2 & Hf3). split_and!; [lia|lia|done|done|].
    intros p' up' Hc'. destruct (with_stream_chain _ _ Hc') as [Hc0|Hnew'].
    + destruct (c_chain _ C _ _ _ Hc0). lia.
    + destruct Hnew as [[-> [= -> _]]|(-> & [= -> _] & _)], Hnew' as [[-> [= ?]]|(-> & [= ?] & _)]; try done; lia.
  - intros i n'. rewrite with_stream_nodes. case_decide; [intros [= <-]; cbn; congruence|]. intros Hi Hd. by exists n'.
Qed.

Lemma with_stream_seq : seq_ok with_stream.
Proof.
  destruct I as [T C Q]. pose proof with_task_sequence as Hsq. pose proof (q_range _ Q) as Hge.
  destruct with_task_spec as (_ & _ & _ & _ & _ & _ & _ & _ & _ & _ & _ & Hnext & Hcase).
  assert (Hq : rg_sequence with_stream = rg_sequence with_task + 1) by (rewrite <- Hnext; done).
  assert (Htk : tk_sequence the_task <= rg_sequence with_task).
  { destruct Hcase as [[Ht ->]|(_ & _ & _ & _ & -> & ->)]; [by apply (q_tasks _ Q l node tid)|lia]. }
  assert (Htask : forall tid' t, tid' <> tid -> sn_tasks node !! tid' = Some t -> tk_sequence t <> tk_sequence the_task).
  { intros tid' t Hne Ht He. destruct Hcase as [[Ht0 _]|(_ & _ & _ & _ & _ & E)].
    - by apply Hne, (q_tasks_inj _ Q l node tid' tid t the_task).
    - pose proof (q_tasks _ Q l node tid' t Hn Ht). lia. }
  destruct Q as [Q1 Q2 Q3 Q4 Q5 Q6 Q7]. split; rewrite ?Hq.
  - lia.
  - intros s st. rewrite with_stream_streams. case_decide; [intros [= <-]; cbn; lia|]. intros Hs. specialize (Q2 _ _ Hs). lia.
  - intros s s' st st'. rewrite !with_stream_streams. case_decide; case_decide; subst; [done|..].
    + intros [= <-] Hs' He. cbn in He. specialize (Q2 _ _ Hs'). lia.
    + intros Hs [= <-] He. cbn in He. specialize (Q2 _ _ Hs). lia.
    + apply Q3.
  - intros i n' tid' t. rewrite with_stream_nodes. case_decide.
    + intros [= <-]. cbn. intros [[<- <-]|[_ Ht]]%lookup_insert_Some; [cbn; lia|]. specialize (Q4 l node tid' t Hn Ht). lia.
    + intros Hi Ht. specialize (Q4 _ _ _ _ Hi Ht). lia.
  - intros i n' tid1 tid2 t1 t2. rewrite with_stream_nodes. case_decide; [|apply Q5].
    intros [= <-]. cbn. intros [[<- <-]|[H1 Ht1]]%lookup_insert_Some [[<- <-]|[H2 Ht2]]%lookup_insert_Some; cbn; [done|..].
    + intros He. exfalso. by eapply (Htask tid2 t2).
    + intros He. exfalso. by eapply (Htask tid1 t1).
    + by eapply Q5.
  - intros i n'. rewrite with_stream_nodes. case_decide.
    + intros [= <-]. cbn. specialize (Q6 _ _ Hn). lia.
    + intros Hi. specialize (Q6 _ _ Hi). lia.
  - intros i i' n n'. rewrite !with_stream_nodes. case_decide; case_decide; subst; [done|..].
    + intros [= <-] Hi. cbn. intros He. by apply (Q7 l i' node n').
    + intros Hi [= <-]. cbn. intros He. by apply (Q7 i l n node).
    + apply Q7.
Qed.
End attach_stream.
