(* ===== verification/SessionRuntimeRuns.v ===== *)
(** * Runs of the session runtime registry

    What holds in every state that a process reaches, and how disconnecting and
    shutting down end. *)

From S2P Require Import Prelude GoLib GoText GoSort GoContext SessionRuntime SessionRuntimeFacts SessionRuntimeSteps.
From Stdlib Require Import Sorting.Sorted.

(** ** Attaching *)

Section attach.
Implicit Types (rg : Registry).

(** What a successful [Attach] adds. *)
Record attached (parent : nat) (sessionID taskID : string) (rg rg' : Registry) (s : nat) : Prop := {
  at_open : is_closed rg = false;
  at_stream : s = length (rg_streams rg);
  at_home : exists l node stream, rg_streams rg' = rg_streams rg ++ [stream] /\ rg_sessions rg' !! sessionID = Some l /\
    rg_nodes rg' !! l = Some node /\ sn_id node = sessionID /\ sn_draining node = false /\
    registered rg' l taskID (st_sequence stream) s /\ st_session stream = sessionID /\ st_task stream = taskID /\
    st_parent stream = parent /\ st_phase stream = Attached /\ st_watching stream = true /\
    Cause (rg_contexts rg') (st_ctx stream) = None /\ rg_sequence rg < st_sequence stream
}.

Lemma Attach_ok parent sessionID taskID rg : invariant rg -> room rg ->
  exists r rg', Attach parent sessionID taskID rg = Some (r, rg') /\ invariant rg' /\
    rg_sequence rg <= rg_sequence rg' <= rg_sequence rg + 3 /\
    match r with
    | Ok s => exists p, parent = Some p /\ attached p sessionID taskID rg rg' s
    | Err e => rg' = rg /\ (parent = None \/ validID sessionID = false \/ validID taskID = false \/ is_closed rg = true \/
        exists l node, rg_sessions rg !! sessionID = Some l /\ rg_nodes rg !! l = Some node /\ sn_draining node = true)
    end.
Proof.
  intros I Hroom. unfold room in Hroom. unfold Attach. destruct parent as [p|]; [|eexists _, rg; split; [done|]; split_and!; try done; [lia..|by left]].
  destruct (validID sessionID) eqn:V1; cbn [negb orb]; [|eexists _, rg; split; [done|]; split_and!; try done; [lia..|by right; left]].
  destruct (validID taskID) eqn:V2; cbn [negb]; [|eexists _, rg; split; [done|]; split_and!; try done; [lia..|by right; right; left]].
  destruct (is_closed rg) eqn:Hopen; [eexists _, rg; split; [done|]; split_and!; try done; [lia..|by right; right; right; left]|].
  destruct (ensureSession_ok sessionID rg I Hopen) as (r1 & rg1 & H1 & I1 & Es1 & Er1 & Ec1 & Ho1 & Hseq1 & _ & _ & _ & Hr1); [lia|].
  rewrite H1. cbn [mbind option_bind]. destruct r1 as [l|e].
  2:{ destruct Hr1 as (-> & -> & Hd). eexists _, rg. split; [done|]. split_and!; try done; [lia..|by right; right; right; right]. }
  destruct Hr1 as (Hm & node & Hn & Hid & Hd). rewrite Hn. cbn [mbind option_bind]. rewrite Hd. subst sessionID.
  destruct (is_closed_false _ Ho1) as [Hcl1 Hroot1]. destruct I1 as [I1 Hc1].
  assert (Hr2 : rg_sequence rg1 + 2 < 2 ^ 64) by lia.
  pose proof (with_task_sequence rg1 l node taskID I1 Hn Hm Hd Hroot1 Hr2) as Hsq.
  destruct (with_task_spec rg1 l node taskID I1 Hn Hm Hd Hroot1 Hr2) as (_ & Ets & _ & Etr & Etc & _ & _ & Hold & Htl & Hta & Htc & Hnext & _).
  destruct (ensure_task node taskID rg1) as [task rg2] eqn:E2.
  assert (Ht : task = the_task rg1 node taskID) by (unfold the_task; by rewrite E2).
  assert (Hg : rg2 = with_task rg1 node taskID) by (unfold with_task; by rewrite E2). rewrite Ht, Hg. clear E2 Ht Hg task rg2.
  change (attach_stream p l (sn_id node) taskID (the_task rg1 node taskID) (with_task rg1 node taskID)) with
    ((attach_stream p l (sn_id node) taskID (the_task rg1 node taskID) (with_task rg1 node taskID)).1, with_stream rg1 p l node taskID).
  destruct (with_stream_tree rg1 p l node taskID I1 Hn Hm Hd Hroot1 Hr2) as [T' Hreg].
  eexists _, _. split; [done|]. split; [|split].
  - split; [split; [done|by apply with_stream_ctx|by apply with_stream_seq]|].
    intros Hclosed. change (rg_closed (with_task rg1 node taskID) = true) in Hclosed. congruence.
  - change (rg_sequence (with_stream rg1 p l node taskID)) with (nextSequence (with_task rg1 node taskID)). lia.
  - exists p. split; [done|]. split; [done|cbn; congruence|].
    exists l, (set_tasks (<[taskID := set_task_streams (<[nextSequence (with_task rg1 node taskID) := length (rg_streams rg1)]>
        (tk_streams (the_task rg1 node taskID))) (the_task rg1 node taskID)]> (sn_tasks node)) node).
    exists (mkStream (sn_id node) taskID (nextSequence (with_task rg1 node taskID)) (length (rg_contexts (with_task rg1 node taskID))) p true Attached false).
    split_and!; try done.
    + rewrite <- Es1, <- Ets. done.
    + destruct (with_task_spec rg1 l node taskID I1 Hn Hm Hd Hroot1 Hr2) as (_ & _ & Etm & _). change (rg_sessions (with_task rg1 node taskID) !! sn_id node = Some l). by rewrite Etm.
    + rewrite with_stream_nodes by done. by rewrite decide_True.
    + apply Hreg. right. split_and!; try done. exact (f_equal length Ets).
    + change (Cause (WithCancelCause (tk_ctx (the_task rg1 node taskID)) (rg_contexts (with_task rg1 node taskID))).2
        (length (rg_contexts (with_task rg1 node taskID))) = None). by rewrite (proj2 (derive_new _ _)).
    + cbn [st_sequence]. lia.
Qed.

Lemma Ensure_ok sessionID rg : invariant rg -> room rg ->
  exists r rg', Ensure sessionID rg = Some (r, rg') /\ invariant rg' /\ rg_streams rg' = rg_streams rg /\
    rg_sequence rg <= rg_sequence rg' <= rg_sequence rg + 3.
Proof.
  intros I Hroom. unfold room in Hroom. unfold Ensure.
  destruct (validID sessionID); cbn [negb]; [|eexists _, rg; split_and!; try done; lia].
  destruct (is_closed rg) eqn:Hopen; [eexists _, rg; split_and!; try done; lia|].
  destruct (ensureSession_ok sessionID rg I Hopen) as (r1 & rg1 & H1 & I1 & Es1 & _ & _ & _ & Hseq & _); [lia|].
  rewrite H1. cbn [mbind option_bind]. eexists _, rg1. split; [done|]. split_and!; try done; lia.
Qed.
End attach.

(** ** The steps of callers *)

Section outside.
Implicit Types (rg : Registry).

Lemma chain_owned rg p x c : chain rg p = Some x -> c ∈ x -> owned rg c.
Proof.
  intros Hx Hc. destruct (chain_above _ _ _ _ Hx Hc) as (p' & up & Hp & _). right. unfold chain in Hp.
  destruct (rg_nodes rg !! place_session p') as [node|] eqn:En; [|done]. cbn in Hp. destruct p' as [l|l tid|l tid q].
  - injection Hp as <- <-. left. exists l, node. split; [done|by left].
  - destruct (sn_tasks node !! tid) as [t|] eqn:Et; [|done]. cbn in Hp. injection Hp as <- <-. left. exists l, node. split; [done|].
    right. by exists tid, t.
  - destruct (sn_tasks node !! tid) as [t|]; [|done]. cbn in Hp. destruct (tk_streams t !! q) as [s|]; [|done]. cbn in Hp.
    destruct (rg_streams rg !! s) as [st|] eqn:Es; [|done]. injection Hp as <- <-. right. by exists s, st.
Qed.

(** Contexts that are added outside the tree. *)
Lemma set_contexts_invariant rg cs : invariant rg -> contexts_ok cs -> (length (rg_contexts rg) <= length cs)%nat ->
  (forall i, (i < length (rg_contexts rg))%nat -> ancestors cs i = ancestors (rg_contexts rg) i /\ Cause cs i = Cause (rg_contexts rg) i) ->
  invariant (set_contexts cs rg).
Proof.
  intros [[T C Q] Hcl] Hok Hlen Hold. split; [split|].
  - by apply (tree_ok_ext _ rg).
  - apply (ctx_ok_extend rg); try done.
    + intros p c up Hc. by left.
    + intros l n Hn Hd. by exists n.
  - by apply (seq_ok_same (fun _ => False) rg); [apply same_nodes_eq|..].
  - intros Hclosed. destruct (Hcl Hclosed) as [Hr Hall]. split; [|done]. cbn [set_contexts rg_contexts rg_root].
    by rewrite (proj2 (Hold _ (c_root _ C))).
Qed.

Lemma cancel_outside_invariant rg c cause : invariant rg -> ~ owned rg c -> invariant (cancel_ctx c cause rg).
Proof.
  intros [[T C Q] Hcl] Hown. split; [split|].
  - by apply (tree_ok_ext _ rg).
  - apply (ctx_ok_cancel rg _ [c] cause C); try done.
    + by apply (same_nodes_shrinks (fun _ => False)); [apply same_nodes_eq|].
    + intros p c' up Hc _ Hroot. apply Forall_singleton. intros Hd.
      assert (Hch : chain rg p = Some (c' :: up)) by done. destruct (c_chain _ C _ _ _ Hch) as [_ Ha].
      assert (Hin : c ∈ c' :: up \/ c = rg_root rg \/ c ∈ ancestors (rg_contexts rg) (rg_root rg)).
      { destruct Hd as [->|Hd]; [left; by left|]. rewrite Ha, elem_of_app, elem_of_cons in Hd.
        destruct Hd as [?|[?|?]]; [left; by right|by right; left|by right; right]. }
      destruct Hin as [Hin|Hin]; [by eapply Hown, chain_owned|].
      cbn [cancel_ctx set_contexts rg_contexts] in Hroot. rewrite Cause_cancel in Hroot by exact (c_root _ C).
      destruct (Cause (rg_contexts rg) (rg_root rg)); [done|]. rewrite decide_True in Hroot; [done|].
      destruct Hin as [->|Hin]; [by left|by right].
    + intros l n Hn Hd. exists n. tauto.
  - by apply (seq_ok_same (fun _ => False) rg); [apply same_nodes_eq|..].
  - intros Hclosed. destruct (Hcl Hclosed) as [[e Hr] Hall]. split; [|done]. exists e. by apply cause_kept.
Qed.

Lemma New_invariant parent cs : contexts_ok cs -> (forall p, parent = Some p -> (p < length cs)%nat) -> invariant (New parent cs).
Proof.
  intros Hok Hp. unfold New.
  assert (Hgen : forall p cs, contexts_ok cs -> (p < length cs)%nat ->
    invariant (mkRegistry (WithCancelCause p cs).2 [] [] (length cs) false 0 ∅)).
  { intros p cs' Hok' Hp'. split; [split; split|]; cbn [rg_contexts rg_nodes rg_streams rg_root rg_closed rg_sequence rg_sessions];
      try (intros; discriminate); try done.
    - by apply contexts_ok_derive.
    - rewrite length_derive. lia. }
  destruct parent as [p|]; [apply Hgen; [done|by apply Hp]|]. apply (Hgen (length cs) (cs ++ [mkContext [] None])).
  - by apply (contexts_ok_background cs).
  - rewrite length_app. cbn. lia.
Qed.
End outside.

(** ** Every state of a run *)

Lemma step_invariant rg rg' : invariant rg -> room rg -> step rg rg' -> invariant rg' /\ rg_sequence rg' <= rg_sequence rg + 3.
Proof.
  intros I Hroom Hstep. pose proof (q_range _ (core_seq _ (inv_core _ I))) as Hge.
  assert (Hsame : forall x, invariant x -> rg_sequence x = rg_sequence rg -> invariant x /\ rg_sequence x <= rg_sequence rg + 3).
  { intros x Hx Ex. split; [done|lia]. }
  destruct Hstep.
  - destruct (Ensure_ok sessionID rg I Hroom) as (r' & rg2 & H2 & I2 & _ & Hs). rewrite H in H2. injection H2 as <- <-. split; [done|lia].
  - destruct (Attach_ok parent sessionID taskID rg I Hroom) as (r' & rg2 & H2 & I2 & Hs & _). rewrite H0 in H2. injection H2 as <- <-. split; [done|lia].
  - unfold parent_done in H. destruct (rg_streams rg !! s) as [st|] eqn:Es; [|done]. fold (parent_done s rg) in H.
    destruct (parent_done_ok rg s st I Es) as (rg2 & H2 & I2 & _ & _ & _ & _ & _ & Hs). unfold parent_done in H2. rewrite Es in H2. rewrite H in H2. injection H2 as <-. by apply Hsame.
  - unfold begin_release in H. destruct (rg_streams rg !! s) as [st|] eqn:Es; [|done].
    destruct (begin_release_ok rg s st I Es) as (rg2 & H2 & I2 & _ & _ & _ & _ & _ & _ & Hs). unfold begin_release in H2. rewrite Es in H2. rewrite H in H2. injection H2 as <-. by apply Hsame.
  - unfold end_release in H. destruct (rg_streams rg !! s) as [st|] eqn:Es; [|done].
    destruct (end_release_ok rg s st I Es) as (rg2 & H2 & I2 & _ & _ & _ & _ & Hs). unfold end_release in H2. rewrite Es in H2. rewrite H in H2. injection H2 as <-. by apply Hsame.
  - destruct (Disconnect_ok ctx sessionID rg I) as (r' & rg2 & H2 & I2 & [_ _ _ Hs] & _). rewrite H in H2. injection H2 as <- <-. by apply Hsame.
  - destruct (drain_all_ok order (set_closed rg)) as (rg1 & H1 & _ & Q1 & _).
    { destruct I as [[T C Q] _]. split; [by apply (tree_ok_ext _ rg)|by apply (ctx_ok_same rg); [apply same_nodes_eq|..]|].
      by apply (seq_ok_same (fun _ => False) rg); [apply same_nodes_eq|..]. }
    { apply Forall_forall. intros l Hl. destruct I as [[T C Q] _]. apply (range_order _ _ _ _ T H) in Hl as (node & Hn & _). by exists node. }
    destruct (Shutdown_ok order rg I H) as (w & rg2 & H2 & I2 & _). rewrite H0 in H2. injection H2 as <- <-. apply Hsame; [done|].
    unfold Shutdown in H0. rewrite H1 in H0. cbn [mbind option_bind] in H0.
    destruct (mapM _ order); [|done]. cbn [mbind option_bind] in H0. injection H0 as <- <-. exact (qc_sequence _ _ Q1).
  - apply Hsame; [|done]. apply set_contexts_invariant; [done|apply contexts_ok_derive; [apply I|done]|rewrite length_derive; lia|].
    intros i Hi. by apply derive_old.
  - apply Hsame; [|done]. apply set_contexts_invariant; [done|apply contexts_ok_background; apply I|cbn; rewrite length_app; lia|].
    intros i Hi. cbn. rewrite ancestors_new, Cause_new, !decide_False by lia. done.
  - apply Hsame; [|done]. by apply cancel_outside_invariant.
Qed.

Lemma run_invariant n rg : runs n rg -> Z.of_nat n < 2 ^ 62 -> invariant rg /\ rg_sequence rg <= 3 * Z.of_nat n.
Proof.
  induction 1 as [parent cs Hok Hp|n rg rg' _ IH Hstep]; intros Hn.
  - split; [by apply New_invariant|]. unfold New. by destruct parent.
  - destruct IH as [I Hs]; [lia|]. destruct (step_invariant rg rg' I) as [I' Hs']; [unfold room; lia|done|]. split; [done|lia].
Qed.

(** ** Sessions end *)

Section ending.
Implicit Types (rg : Registry).

Definition unreleased rg (s : nat) : Prop := exists stream, rg_streams rg !! s = Some stream /\ st_phase stream <> Released.

(** A stream whose context was derived from the one of a session. *)
Definition stream_of rg (node : sessionNode) (s : nat) : Prop :=
  exists stream, rg_streams rg !! s = Some stream /\ descends (rg_contexts rg) (sn_ctx node) (st_ctx stream).

Lemma stream_of_home rg l node s st : core rg -> rg_nodes rg !! l = Some node -> rg_streams rg !! s = Some st -> st_phase st <> Released ->
  stream_of rg node s <-> rg_sessions rg !! st_session st = Some l.
Proof.
  intros [T C Q] Hn Hs Hp. assert (Hch : chain rg (PSession l) = Some [sn_ctx node]) by (unfold chain; cbn; by rewrite Hn).
  destruct (live_chain rg s st T Hs Hp) as (l' & node' & task & Hm & Hn' & Hid & Ht & Hq & Hc).
  pose proof (descends_place _ _ _ _ _ _ _ C Hch Hc) as Hd. cbn [under place_session] in Hd. rewrite bool_decide_eq_true in Hd.
  split.
  - intros (st' & Hs' & Hdesc). rewrite Hs in Hs'. injection Hs' as <-. apply Hd in Hdesc as ->. done.
  - rewrite Hm. intros [= ->]. exists st. split; [done|]. by apply Hd.
Qed.

Lemma done_iff rg l node : core rg -> rg_nodes rg !! l = Some node ->
  sn_done node = true <-> sn_draining node = true /\ forall s, unreleased rg s -> ~ stream_of rg node s.
Proof.
  intros I Hn. pose proof I as [T C Q]. split.
  - intros Hd. destruct (t_done _ _ T _ _ Hn Hd) as [Hdr He]. split; [done|]. intros s (st & Hs & Hp) Hof.
    apply (stream_of_home rg l node s st I Hn Hs Hp) in Hof.
    destruct (live_chain rg s st T Hs Hp) as (l' & node' & task & Hm & Hn' & _ & Ht & _). rewrite Hm in Hof. injection Hof as ->.
    rewrite Hn in Hn'. injection Hn' as <-. by rewrite He, lookup_empty in Ht.
  - intros [Hdr Hall]. destruct (sn_done node) eqn:Hd; [done|]. exfalso.
    pose proof (t_gone _ _ T _ _ Hn Hd) as Hm. destruct (t_map _ _ T _ _ Hm) as (node' & Hn' & _ & _ & Hx).
    rewrite Hn in Hn'. injection Hn' as <-. destruct (map_choose (sn_tasks node)) as (tid & task & Ht).
    { intros He. discriminate (Hx Hdr He). }
    destruct (t_tasks _ _ T _ _ _ _ Hn Ht) as [_ Hne]. destruct (map_choose (tk_streams task) Hne) as (q & s & Hq).
    destruct (registered_home _ _ l tid q s T) as (st & Hs & Hms & _ & _ & Hp); [by exists node, task|].
    apply (Hall s); [by exists st|]. by apply (stream_of_home rg l node s st I Hn Hs Hp).
Qed.

(** Nothing is attached to a closed registry. *)
Lemma closed_step rg rg' : invariant rg -> rg_closed rg = true -> room rg -> step rg rg' ->
  rg_closed rg' = true /\ forall s, unreleased rg' s -> unreleased rg s.
Proof.
  intros I Hcl Hroom Hstep.
  assert (Hsame : forall x, rg_closed x = rg_closed rg -> rg_streams x = rg_streams rg ->
            rg_closed x = true /\ forall s, unreleased x s -> unreleased rg s).
  { intros x Ec Es. rewrite Ec. split; [done|]. unfold unreleased. by rewrite Es. }
  assert (Hclosed : is_closed rg = true) by (unfold is_closed; by rewrite Hcl).
  destruct Hstep.
  - unfold Ensure in H. rewrite Hclosed in H. destruct (negb (validID sessionID)); injection H as <- <-; by apply Hsame.
  - unfold Attach in H0. rewrite Hclosed in H0. destruct parent; [|injection H0 as <- <-; by apply Hsame].
    destruct (negb (validID sessionID) || negb (validID taskID)); injection H0 as <- <-; by apply Hsame.
  - destruct (rg_streams rg !! s) as [st|] eqn:Es; [|unfold parent_done in H; by rewrite Es in H].
    destruct (parent_done_ok rg s st I Es) as (rg2 & H2 & _ & Hst & _ & _ & _ & Ec & _). rewrite H in H2. injection H2 as <-.
    destruct Hst as [->|Hst]; [by apply Hsame|]. rewrite Ec. split; [done|]. intros s' (st' & Hs' & Hp). rewrite Hst, lookup_alter_decide in Hs'.
    case_decide; [subst s'; rewrite Es in Hs'; injection Hs' as <-; by exists st|by exists st'].
  - destruct (rg_streams rg !! s) as [st|] eqn:Es; [|unfold begin_release in H; by rewrite Es in H].
    destruct (begin_release_ok rg s st I Es) as (rg2 & H2 & _ & Ha & Hna & _ & _ & _ & Ec & _). rewrite H in H2. injection H2 as <-.
    destruct (decide (st_phase st = Attached)) as [Hp|Hp]; [|rewrite (Hna Hp) in *; by apply Hsame].
    rewrite Ec. split; [done|]. intros s' (st' & Hs' & Hp'). rewrite (Ha Hp), lookup_alter_decide in Hs'.
    case_decide; [subst s'; exists st; split; [done|congruence]|by exists st'].
  - destruct (rg_streams rg !! s) as [st|] eqn:Es; [|unfold end_release in H; by rewrite Es in H].
    destruct (end_release_ok rg s st I Es) as (rg2 & H2 & _ & Ha & Hna & _ & Ec & _). rewrite H in H2. injection H2 as <-.
    destruct (decide (st_phase st = Releasing)) as [Hp|Hp]; [|rewrite (Hna Hp) in *; by apply Hsame].
    rewrite Ec. split; [done|]. intros s' (st' & Hs' & Hp'). rewrite (Ha Hp), lookup_alter_decide in Hs'.
    case_decide; [subst s'; exists st; split; [done|congruence]|by exists st'].
  - destruct (Disconnect_ok ctx sessionID rg I) as (r' & rg2 & H2 & _ & [Es _ Ec _] & _). rewrite H in H2. injection H2 as <- <-. by apply Hsame.
  - destruct (Shutdown_ok order rg I H) as (w & rg2 & H2 & _ & Ec & Es & _). rewrite H0 in H2. injection H2 as <- <-.
    split; [done|]. unfold unreleased. by rewrite Es.
  - by apply Hsame.
  - by apply Hsame.
  - by apply Hsame.
Qed.

Lemma runs_nsteps m : forall n rg rg', runs n rg -> nsteps step m rg rg' -> runs (n + m) rg'.
Proof.
  induction m as [|m IH]; intros n rg rg' Hr Hs.
  - inversion Hs; subst. by rewrite Nat.add_0_r.
  - inversion Hs as [|? ? rg1 ? H1 H2]; subst. rewrite <- plus_n_Sm. apply (IH (S n) rg1); [by eapply runs_step|done].
Qed.

Lemma closed_steps m : forall n rg rg', runs n rg -> Z.of_nat (n + m) < 2 ^ 62 -> rg_closed rg = true -> nsteps step m rg rg' ->
  rg_closed rg' = true /\ forall s, unreleased rg' s -> unreleased rg s.
Proof.
  induction m as [|m IH]; intros n rg rg' Hr Hb Hcl Hs; [by inversion Hs; subst|].
  inversion Hs as [|? ? rg1 ? H1 H2]; subst. destruct (run_invariant n rg Hr) as [I Hq]; [lia|].
  destruct (closed_step rg rg1 I Hcl) as [Hcl1 Hu1]; [unfold room; lia|done|].
  destruct (IH (S n) rg1 rg') as [Hcl' Hu']; [by eapply runs_step|by rewrite Nat.add_succ_comm|done..|]. split; [done|]. intros s Hu. by apply Hu1, Hu'.
Qed.

(** A stream is released in at most two steps, and the others stay as they are. *)
Lemma release_steps rg s : invariant rg -> rg_closed rg = true ->
  exists m rg', (m <= 2)%nat /\ nsteps step m rg rg' /\ invariant rg' /\ rg_closed rg' = true /\
    length (rg_streams rg') = length (rg_streams rg) /\ ~ unreleased rg' s /\ forall s', unreleased rg' s' -> unreleased rg s'.
Proof.
  intros I Hcl. destruct (rg_streams rg !! s) as [st|] eqn:Es.
  2:{ exists 0%nat, rg. split_and!; try done; [lia|constructor|]. intros (st & Hs & _). congruence. }
  destruct (begin_release_ok rg s st I Es) as (rg1 & H1 & I1 & Ha & Hna & _ & _ & _ & Ec1 & _).
  assert (Hs1 : exists st1, rg_streams rg1 !! s = Some st1 /\ st_phase st1 <> Attached /\ (st_phase st = Released -> st_phase st1 = Released)).
  { destruct (decide (st_phase st = Attached)) as [Hp|Hp]; [|rewrite (Hna Hp); by exists st].
    rewrite (Ha Hp). eexists. rewrite lookup_alter_decide, decide_True, Es by done. split; [done|]. split; [done|]. rewrite Hp. done. }
  assert (Hl1 : length (rg_streams rg1) = length (rg_streams rg) /\ forall s', unreleased rg1 s' -> unreleased rg s').
  { destruct (decide (st_phase st = Attached)) as [Hp|Hp]; [|by rewrite (Hna Hp)]. rewrite (Ha Hp), length_alter. split; [done|].
    intros s' (st' & Hs' & Hp'). rewrite (Ha Hp), lookup_alter_decide in Hs'.
    case_decide; [subst s'; exists st; split; [done|congruence]|by exists st']. }
  destruct Hs1 as (st1 & Es1 & Hp1 & _), Hl1 as [Hl1 Hu1].
  destruct (end_release_ok rg1 s st1 I1 Es1) as (rg2 & H2 & I2 & Hb & Hnb & _ & Ec2 & _).
  exists 2%nat, rg2. split; [done|]. split; [eapply nsteps_l; [by apply step_begin_release with s|eapply nsteps_l; [by apply step_end_release with s|constructor]]|].
  split; [done|]. split; [congruence|]. destruct (decide (st_phase st1 = Releasing)) as [Hp|Hp].
  - split_and!.
    + by rewrite (Hb Hp), length_alter.
    + intros (st2 & Hs2 & Hp2). rewrite (Hb Hp), lookup_alter_decide, decide_True, Es1 in Hs2 by done. injection Hs2 as <-. done.
    + intros s' (st' & Hs' & Hp'). apply Hu1. rewrite (Hb Hp), lookup_alter_decide in Hs'.
      case_decide; [subst s'; exists st1; split; [done|congruence]|by exists st'].
  - rewrite (Hnb Hp). split_and!; [done| |done]. intros (st2 & Hs2 & Hp2). rewrite Es1 in Hs2. injection Hs2 as <-. by destruct (st_phase st1).
Qed.

Lemma release_all rg k : invariant rg -> rg_closed rg = true ->
  exists m rg', (m <= 2 * k)%nat /\ nsteps step m rg rg' /\ invariant rg' /\ rg_closed rg' = true /\
    length (rg_streams rg') = length (rg_streams rg) /\ (forall s, (s < k)%nat -> ~ unreleased rg' s).
Proof.
  intros I Hcl. induction k as [|k (m & rg1 & Hm & Hs & I1 & Hc1 & Hl1 & Hr1)].
  - exists 0%nat, rg. split_and!; try done; [constructor|lia].
  - destruct (release_steps rg1 k I1 Hc1) as (m2 & rg2 & Hm2 & Hs2 & I2 & Hc2 & Hl2 & Hr2 & Hu2). exists (m + m2)%nat, rg2.
    split_and!; try done; [lia|by eapply nsteps_trans|congruence|]. intros s Hlt Hu. destruct (decide (s = k)) as [->|]; [done|].
    apply (Hr1 s); [lia|by apply Hu2].
Qed.

(** Every session has ended and every wait for one returns. *)
Definition finished rg : Prop :=
  rg_sessions rg = ∅ /\ forall l node, rg_nodes rg !! l = Some node -> sn_done node = true /\ forall ctx, select_returns rg ctx l (Ok tt).

Lemma closed_finished rg : invariant rg -> rg_closed rg = true -> (forall s, ~ unreleased rg s) -> finished rg.
Proof.
  intros [I Hcl] Hc Hall. destruct (Hcl Hc) as [_ Hdr].
  assert (Hd : forall l node, rg_nodes rg !! l = Some node -> sn_done node = true).
  { intros l node Hn. apply (done_iff rg l node I Hn). split; [by eapply Hdr|]. intros s Hu. by destruct (Hall s). }
  split.
  - apply map_empty. intros id. destruct (rg_sessions rg !! id) as [l|] eqn:E; [|done].
    destruct (t_map _ _ (core_tree _ I) _ _ E) as (node & Hn & _ & Hnd & _). rewrite (Hd _ _ Hn) in Hnd. done.
  - intros l node Hn. split; [by eapply Hd|]. intros ctx. eapply select_done; [done|by eapply Hd].
Qed.
End ending.

(** ** The order in which contexts are cancelled *)

Section order.
Implicit Types (rg : Registry).

Lemma compareSequenceDescending_laws : cmp_laws (fun _ => True) compareSequenceDescending.
Proof.
  split; unfold compareSequenceDescending.
  - intros x y _ _. destruct (Z.ltb_spec y x), (Z.ltb_spec x y); lia.
  - intros x y z _ _ _. destruct (Z.ltb_spec y x), (Z.ltb_spec x y), (Z.ltb_spec z y), (Z.ltb_spec y z), (Z.ltb_spec z x), (Z.ltb_spec x z); lia.
Qed.

(** Elements with different sequence numbers are sorted strictly. *)
Lemma sort_descending {A} (key : A -> Z) (l : list A) : NoDup (map key l) ->
  StronglySorted (fun x y => y < x) (map key (SortFunc (fun left right => compareSequenceDescending (key left) (key right)) l)).
Proof.
  intros Hnd. pose proof (SortFunc_perm (fun left right => compareSequenceDescending (key left) (key right)) l) as Hp.
  assert (L : cmp_laws (fun _ : A => True) (fun left right => compareSequenceDescending (key left) (key right))).
  { apply (map_cmp_laws key (fun _ => True)); [done|apply compareSequenceDescending_laws]. }
  pose proof (SortFunc_sorted _ _ L l) as S. revert Hnd Hp. generalize (SortFunc (fun left right => compareSequenceDescending (key left) (key right)) l) as k, S.
  intros k Sk Hnd Hp. assert (Hk : NoDup (map key k)) by (by rewrite (Permutation_map key Hp)). clear Hnd Hp S.
  assert (Hs : StronglySorted (fun a b => compareSequenceDescending (key a) (key b) <= 0) k) by (by apply Sk, Forall_true).
  clear Sk. induction Hs as [|x k Hs IH Hx]; cbn in *; [constructor|]. apply NoDup_cons in Hk as [Hni Hk]. constructor; [by apply IH|].
  apply Forall_fmap. rewrite Forall_forall in *. intros y Hy. specialize (Hx y Hy). cbn. unfold compareSequenceDescending in Hx.
  assert (key x <> key y) by (intros He; apply Hni; rewrite He; by apply list_elem_of_fmap_2).
  destruct (Z.ltb_spec (key y) (key x)), (Z.ltb_spec (key x) (key y)); lia.
Qed.

Lemma concat_bind {A B} (f : A -> list B) (l : list A) : concat (map f l) = l ≫= f.
Proof. induction l as [|x l IH]; [done|]. cbn. by rewrite IH. Qed.

Lemma session_streams_nodup rg l node : core rg -> rg_nodes rg !! l = Some node -> NoDup (session_streams node).
Proof.
  intros [T _ _] Hn. unfold session_streams. rewrite concat_bind.
  assert (Hin : forall tid t s, (tid, t) ∈ map_to_list (sn_tasks node) -> s ∈ map snd (map_to_list (tk_streams t)) ->
            exists q, registered rg l tid q s).
  { intros tid t s Ht%elem_of_map_to_list Hs. apply list_elem_of_fmap in Hs as ((q & s') & -> & Hq%elem_of_map_to_list). by exists q, node, t. }
  apply NoDup_bind.
  - intros [tid1 t1] [tid2 t2] s H1 H2 Hs1 Hs2. destruct (Hin _ _ _ H1 Hs1) as [q1 R1], (Hin _ _ _ H2 Hs2) as [q2 R2].
    destruct (registered_inj _ _ _ _ _ _ _ _ _ T R1 R2) as (_ & -> & _). apply elem_of_map_to_list in H1, H2. congruence.
  - intros [tid t] Ht. apply elem_of_map_to_list in Ht. apply NoDup_fmap_2_strong; [|apply NoDup_map_to_list].
    intros [q1 s1] [q2 s2] H1%elem_of_map_to_list H2%elem_of_map_to_list Es. cbn in Es. subst s2.
    destruct (registered_inj _ rg l l tid tid q1 q2 s1 T) as (_ & _ & ->); [by exists node, t..|done].
  - apply NoDup_map_to_list.
Qed.

Lemma drain_sorted rg l node streams : core rg -> rg_nodes rg !! l = Some node ->
  load_streams rg (session_streams node) = Some streams ->
  StronglySorted (fun x y => y < x) (map st_sequence (sort_streams streams)) /\
  StronglySorted (fun x y => y < x) (map tk_sequence (sort_tasks (map snd (map_to_list (sn_tasks node))))).
Proof.
  intros I Hn Hl. pose proof I as [T C Q]. split; apply sort_descending.
  - apply mapM_Some in Hl. pose proof (session_streams_nodup rg l node I Hn) as Hnd. revert Hnd.
    induction Hl as [|s st ss sts Hs Hl IH]; intros Hnd; cbn; [constructor|]. apply NoDup_cons in Hnd as [Hni Hnd]. constructor; [|by apply IH].
    intros Hin. apply list_elem_of_fmap in Hin as (st' & He & Hst'). apply list_elem_of_lookup_1 in Hst' as [i Hi].
    destruct (Forall2_lookup_r _ _ _ _ _ Hl Hi) as (s' & Hi' & Hs'). apply Hni.
    rewrite (q_streams_inj _ Q s s' st st' Hs Hs' He). by eapply list_elem_of_lookup_2.
  - rewrite map_map. apply NoDup_fmap_2_strong; [|apply NoDup_map_to_list].
    intros [tid t] [tid' t'] H1%elem_of_map_to_list H2%elem_of_map_to_list He. cbn in He.
    assert (tid = tid') as -> by (by eapply (q_tasks_inj _ Q)). congruence.
Qed.

End order.

(** ** Properties *)

Section properties.
Context (n : nat) (rg : Registry) (Hrun : runs n rg) (Hn : Z.of_nat n < 2 ^ 62).

(** In every state of a run the tree is well formed (a session of
    the map is not done, a session that drains and is still there has tasks, a
    task has streams, a stream that is not released is registered in exactly one
    place), sequence numbers are distinct, contexts follow the tree and only what
    drains has been cancelled. *)
Theorem registry_wellformed : invariant rg.
Proof. by apply (run_invariant n). Qed.

(** No operation panics in any state of a run: no channel is closed
    twice and no missing session or stream is used. *)
Theorem registry_never_panics :
  (forall sessionID, is_Some (Ensure sessionID rg)) /\
  (forall parent sessionID taskID, is_Some (Attach parent sessionID taskID rg)) /\
  (forall s, (s < length (rg_streams rg))%nat -> is_Some (parent_done s rg) /\ is_Some (begin_release s rg) /\ is_Some (end_release s rg)) /\
  (forall ctx sessionID, is_Some (Disconnect ctx sessionID rg)) /\
  (forall order, Permutation order (map snd (map_to_list (rg_sessions rg))) -> is_Some (Shutdown order rg)).
Proof.
  destruct (run_invariant n rg Hrun Hn) as [I Hq]. assert (Hroom : room rg) by (unfold room; lia). split_and!.
  - intros id. destruct (Ensure_ok id rg I Hroom) as (r & rg' & -> & _). by eexists.
  - intros p id tid. destruct (Attach_ok p id tid rg I Hroom) as (r & rg' & -> & _). by eexists.
  - intros s [st Hs]%lookup_lt_is_Some_2. destruct (parent_done_ok rg s st I Hs) as (? & -> & _), (begin_release_ok rg s st I Hs) as (? & -> & _),
      (end_release_ok rg s st I Hs) as (? & -> & _). split_and!; by eexists.
  - intros ctx id. destruct (Disconnect_ok ctx id rg I) as (r & rg' & -> & _). by eexists.
  - intros order Hp. destruct (Shutdown_ok order rg I Hp) as (w & rg' & -> & _). by eexists.
Qed.

(** The channel of a session is closed, so that [Disconnect] and
    [Shutdown] stop waiting for it, exactly when it drains and every stream whose
    context was derived from the session's has been released. *)
Theorem session_done_iff l node : rg_nodes rg !! l = Some node ->
  sn_done node = true <-> sn_draining node = true /\ forall s, unreleased rg s -> ~ stream_of rg node s.
Proof. intros Hl. apply (done_iff rg l node); [|done]. apply (run_invariant n rg Hrun Hn). Qed.

(** A stream whose release function has not been called and whose
    parent's callback has not run is not cancelled unless its session drains or
    the registry's own context has ended; once its session drains it is. *)
Theorem stream_alive s stream : rg_streams rg !! s = Some stream -> st_phase stream <> Released ->
  exists l node, rg_sessions rg !! st_session stream = Some l /\ rg_nodes rg !! l = Some node /\
    (st_watching stream = true -> sn_draining node = false -> ctx_done (rg_contexts rg) (rg_root rg) = false ->
       Cause (rg_contexts rg) (st_ctx stream) = None) /\
    (sn_draining node = true -> is_Some (Cause (rg_contexts rg) (st_ctx stream))).
Proof.
  intros Hs Hp. destruct (run_invariant n rg Hrun Hn) as [[[T C Q] _] _].
  destruct (live_chain rg s stream T Hs Hp) as (l & node & task & Hm & Hnode & Hid & Ht & Hq & Hch). exists l, node.
  split; [done|]. split; [done|]. split.
  - intros Hw Hd Hr. apply (c_live _ C _ _ _ Hch).
    + split; [cbn; intros x; rewrite Hnode; by intros [= <-]|]. intros s' st'. cbn. rewrite Hnode. cbn. rewrite Ht. cbn. rewrite Hq.
      intros [= <-]. rewrite Hs. by intros [= <-].
    + unfold ctx_done in Hr. apply bool_decide_eq_false in Hr. destruct (Cause (rg_contexts rg) (rg_root rg)); [destruct Hr; by eexists|done].
  - intros Hd. apply (done_inherited _ (c_ok _ C) _ (sn_ctx node)); [|by eapply (c_drain _ C)].
    rewrite (proj2 (c_chain _ C _ _ _ Hch)). apply elem_of_app. left. in_list.
Qed.

(** [Disconnect] cancels the streams of its session that are not
    released and no other stream: every other stream keeps the state it had. *)
Theorem disconnect_isolated ctx sessionID l rg' : Disconnect ctx sessionID rg = Some (Ok (Some l), rg') ->
  rg_streams rg' = rg_streams rg /\
  forall s stream, rg_streams rg !! s = Some stream -> st_phase stream <> Released ->
    if decide (st_session stream = sessionID) then is_Some (Cause (rg_contexts rg') (st_ctx stream))
    else Cause (rg_contexts rg') (st_ctx stream) = Cause (rg_contexts rg) (st_ctx stream).
Proof.
  intros Hd. destruct (run_invariant n rg Hrun Hn) as [I _].
  destruct (Disconnect_ok ctx sessionID rg I) as (r & rg2 & H2 & I2 & [Es _ _ _] & _ & Hr). rewrite Hd in H2. injection H2 as <- <-.
  destruct Hr as (Hm & _ & node & Hnode & Hc). split; [done|]. intros s stream Hs Hp. destruct I as [I0 _]. pose proof I0 as [T C Q].
  destruct (live_chain rg s stream T Hs Hp) as (l' & node' & task & Hm' & Hnode' & _ & _ & _ & Hch).
  destruct (c_chain _ C _ _ _ Hch) as [Hlt Ha]. rewrite (proj2 (Hc _ Hlt)). unfold drained_contexts.
  pose proof (stream_of_home rg l node s stream I0 Hnode Hs Hp) as Hof. unfold stream_of in Hof.
  assert (Hiff : descends (rg_contexts rg) (sn_ctx node) (st_ctx stream) <-> st_session stream = sessionID).
  { transitivity (rg_sessions rg !! st_session stream = Some l).
    - rewrite <- Hof. split; [intros Hx; by exists stream|intros (st & Hst & Hx)]. rewrite Hs in Hst. by injection Hst as <-.
    - split; [|by intros ->]. intros Hx. destruct (t_map _ _ T _ _ Hm) as (n1 & Hn1 & <- & _), (t_map _ _ T _ _ Hx) as (n2 & Hn2 & Hid & _).
      rewrite Hn1 in Hn2. by injection Hn2 as <-. }
  destruct (sn_draining node) eqn:Edr.
  - destruct (decide (st_session stream = sessionID)) as [He|]; [|done]. apply Hiff in He as [He|He].
    + rewrite He. by apply (c_drain _ C l).
    + apply (done_inherited _ (c_ok _ C) _ _ He). by apply (c_drain _ C l).
  - rewrite Cause_cancel by done. destruct (Cause (rg_contexts rg) (st_ctx stream)) as [e|]; [by destruct (decide _); [eexists|]|].
    destruct (decide (descends _ _ _)) as [He|He]; (destruct (decide (st_session stream = sessionID)); [|try done]); try (by eexists); tauto.
Qed.

(** C35 (equivalence). Draining a session cancels its streams one by one, the
    latest first, then its tasks, the latest first, then the session; every
    context ends as if only the session's had been cancelled. *)
Theorem drain_equals_cancel l node cause rg' : rg_nodes rg !! l = Some node -> sn_draining node = false ->
  beginDrainLocked l cause rg = Some rg' ->
  (exists streams, load_streams rg (session_streams node) = Some streams /\
    drain_order node streams = map st_ctx (sort_streams streams) ++ map tk_ctx (sort_tasks (map snd (map_to_list (sn_tasks node)))) ++ [sn_ctx node] /\
    StronglySorted (fun x y => y < x) (map st_sequence (sort_streams streams)) /\
    StronglySorted (fun x y => y < x) (map tk_sequence (sort_tasks (map snd (map_to_list (sn_tasks node)))))) /\
  forall c, Cause (rg_contexts rg') c = Cause (cancel (sn_ctx node) cause (rg_contexts rg)) c.
Proof.
  intros Hl Hd Hb. destruct (run_invariant n rg Hrun Hn) as [[I _] _].
  destruct (beginDrain_ok rg l node cause I Hl) as (rg2 & H2 & _ & _ & _ & Hlen & Hc). rewrite Hb in H2. injection H2 as <-. split.
  - destruct (drain_streams rg l node I Hl) as (streams & Hs & _). exists streams. split; [done|]. split; [done|]. by apply (drain_sorted rg l node).
  - intros c. destruct (decide (c < length (rg_contexts rg))%nat) as [Hlt|Hge].
    + rewrite (proj2 (Hc c Hlt)). unfold drained_contexts. by rewrite Hd.
    + rewrite !Cause_out; [done|rewrite length_cancel; lia|lia].
Qed.

(** C24 (liveness). After [Shutdown] has begun, the registry can always be brought
    to its end by releasing its streams, and whatever else happens, once the
    streams that were left have been released every session has ended and every
    wait of [Disconnect] and [Shutdown] returns without error. *)
Theorem shutdown_completes : rg_closed rg = true ->
  (exists m rg', (m <= 2 * length (rg_streams rg))%nat /\ nsteps step m rg rg' /\ finished rg') /\
  forall m rg', nsteps step m rg rg' -> Z.of_nat (n + m) < 2 ^ 62 -> (forall s, unreleased rg s -> ~ unreleased rg' s) -> finished rg'.
Proof.
  intros Hcl. destruct (run_invariant n rg Hrun Hn) as [I _]. split.
  - destruct (release_all rg (length (rg_streams rg)) I Hcl) as (m & rg' & Hm & Hs & I' & Hcl' & Hl & Hr). exists m, rg'.
    split_and!; [done..|]. apply closed_finished; [done..|]. intros s Hu. apply (Hr s); [|done].
    destruct Hu as (st & Hst & _). apply lookup_lt_Some in Hst. lia.
  - intros m rg' Hs Hb Hall. destruct (closed_steps m n rg rg' Hrun Hb Hcl Hs) as [Hcl' Hu].
    destruct (run_invariant (n + m) rg') as [I' _]; [by eapply runs_nsteps|done|].
    apply closed_finished; [done..|]. intros s Hs'. by apply (Hall s); [apply Hu|].
Qed.

(** [Attach] succeeds exactly when the caller has a context and
    valid identifiers, the registry is open and the session does not drain; it
    then adds one stream, registered under its session and task, whose context is
    not cancelled; otherwise nothing changes. *)
Theorem attach_outcome parent sessionID taskID : exists r rg', Attach parent sessionID taskID rg = Some (r, rg') /\
  match r with
  | Ok s => exists p, parent = Some p /\ validID sessionID = true /\ validID taskID = true /\ attached p sessionID taskID rg rg' s
  | Err e => rg' = rg /\ (parent = None \/ validID sessionID = false \/ validID taskID = false \/ is_closed rg = true \/
      exists l node, rg_sessions rg !! sessionID = Some l /\ rg_nodes rg !! l = Some node /\ sn_draining node = true)
  end.
Proof.
  destruct (run_invariant n rg Hrun Hn) as [I Hq]. destruct (Attach_ok parent sessionID taskID rg I) as (r & rg' & Ha & _ & _ & Hr); [unfold room; lia|].
  exists r, rg'. split; [done|]. destruct r as [s|e]; [|done]. destruct Hr as (p & -> & Hat). exists p. split; [done|].
  unfold Attach in Ha. destruct (validID sessionID); [|done]. by destruct (validID taskID).
Qed.
End properties.

(** ** A run *)

Definition run_of {A} (r : option (A * Registry)) (rg : Registry) : Registry := match r with Some (_, rg') => rg' | None => rg end.
Definition run_to (r : option Registry) (rg : Registry) : Registry := match r with Some rg' => rg' | None => rg end.

(** Two sessions with a stream each, whose caller holds context 0. *)
Definition demo0 : Registry := New None [].
Definition demo1 : Registry := run_of (Attach (Some 0%nat) "alpha" "task" demo0) demo0.
Definition demo2 : Registry := run_of (Attach (Some 0%nat) "beta" "task" demo1) demo1.
(** The first is disconnected, then the registry shut down. *)
Definition demo3 : Registry := run_of (Disconnect (Some 0%nat) "alpha" demo2) demo2.
Definition demo_order : list nat := map snd (map_to_list (rg_sessions demo3)).
Definition demo4 : Registry := run_of (Shutdown demo_order demo3) demo3.

Lemma demo1_runs : runs 1 demo1.
Proof.
  eapply runs_step; [apply (runs_new None []); [apply contexts_ok_nil|done]|]. fold demo0.
  unfold demo1. destruct (Attach (Some 0%nat) "alpha" "task" demo0) as [[r rg']|] eqn:E; [|by vm_compute in E].
  eapply step_attach; [|exact E]. intros p [= <-]. cbn. lia.
Qed.

Lemma demo2_runs : runs 2 demo2.
Proof.
  eapply runs_step; [exact demo1_runs|].
  unfold demo2. destruct (Attach (Some 0%nat) "beta" "task" demo1) as [[r rg']|] eqn:E; [|by vm_compute in E].
  eapply step_attach; [|exact E]. intros p [= <-]. vm_compute. lia.
Qed.

Lemma demo3_runs : runs 3 demo3.
Proof.
  eapply runs_step; [exact demo2_runs|]. unfold demo3. destruct (Disconnect (Some 0%nat) "alpha" demo2) as [[r rg']|] eqn:E; [|by vm_compute in E].
  by apply (step_disconnect _ (Some 0%nat) "alpha" r).
Qed.

Lemma demo4_runs : runs 4 demo4.
Proof.
  eapply runs_step; [exact demo3_runs|]. unfold demo4. destruct (Shutdown demo_order demo3) as [[r rg']|] eqn:E; [|by vm_compute in E].
  by apply (step_shutdown _ demo_order r).
Qed.

Lemma small_enough : Z.of_nat 4 < 2 ^ 62.
Proof. vm_compute. reflexivity. Qed.

Lemma registry_wellformed_witness : invariant demo4.
Proof. exact (registry_wellformed 4 demo4 demo4_runs small_enough). Defined.

Lemma registry_never_panics_witness : is_Some (Attach None "alpha" "task" demo4).
Proof. destruct (registry_never_panics 4 demo4 demo4_runs small_enough) as (_ & H & _). apply H. Defined.

Definition demo_node : sessionNode := match rg_nodes demo3 !! 0%nat with Some n => n | None => mkSessionNode "" 0 0 false ∅ false end.

Lemma session_done_iff_witness : sn_done demo_node = false /\ ~ (sn_draining demo_node = true /\ forall s, unreleased demo3 s -> ~ stream_of demo3 demo_node s).
Proof.
  assert (Hd : sn_done demo_node = false) by (vm_compute; reflexivity). split; [exact Hd|]. intros H.
  apply (session_done_iff 3 demo3 demo3_runs ltac:(vm_compute; reflexivity) 0%nat demo_node ltac:(vm_compute; reflexivity)) in H. congruence.
Defined.

Definition demo_stream : streamNode :=
  match rg_streams demo3 !! 1%nat with Some s => s | None => mkStream "" "" 0 0 0 false Attached false end.

Lemma stream_alive_witness : st_session demo_stream = "beta" /\ Cause (rg_contexts demo3) (st_ctx demo_stream) = None.
Proof.
  split; [vm_compute; reflexivity|].
  destruct (stream_alive 3 demo3 demo3_runs ltac:(vm_compute; reflexivity) 1%nat demo_stream ltac:(vm_compute; reflexivity) ltac:(vm_compute; discriminate))
    as (l & node & Hm & Hn & Ha & _).
  vm_compute in Hm. injection Hm as <-. vm_compute in Hn. injection Hn as <-.
  apply Ha; vm_compute; reflexivity.
Defined.

Lemma disconnect_isolated_witness : Cause (rg_contexts demo3) (st_ctx demo_stream) = Cause (rg_contexts demo2) (st_ctx demo_stream).
Proof.
  destruct (disconnect_isolated 2 demo2 demo2_runs ltac:(vm_compute; reflexivity) (Some 0%nat) "alpha" 0%nat demo3 ltac:(vm_compute; reflexivity))
    as [_ H].
  exact (H 1%nat demo_stream ltac:(vm_compute; reflexivity) ltac:(vm_compute; discriminate)).
Defined.

Definition demo_node2 : sessionNode := match rg_nodes demo2 !! 0%nat with Some n => n | None => demo_node end.

Lemma drain_equals_cancel_witness : exists streams, load_streams demo2 (session_streams demo_node2) = Some streams.
Proof.
  destruct (drain_equals_cancel 2 demo2 demo2_runs ltac:(vm_compute; reflexivity) 0%nat demo_node2 ErrDisconnected demo3
    ltac:(vm_compute; reflexivity) ltac:(vm_compute; reflexivity) ltac:(vm_compute; reflexivity)) as [(streams & Hs & _) _]. exists streams. exact Hs.
Defined.

Lemma shutdown_completes_witness : exists m rg', nsteps step m demo4 rg' /\ finished rg'.
Proof.
  destruct (shutdown_completes 4 demo4 demo4_runs small_enough ltac:(vm_compute; reflexivity)) as [(m & rg' & _ & Hs & Hf) _].
  exists m, rg'. exact (conj Hs Hf).
Defined.

Lemma attach_outcome_witness : exists rg', Attach (Some 0%nat) "gamma" "task" demo2 = Some (Ok 2%nat, rg').
Proof.
  destruct (attach_outcome 2 demo2 demo2_runs ltac:(vm_compute; reflexivity) (Some 0%nat) "gamma" "task") as (r & rg' & Ha & _).
  exists rg'. rewrite Ha. vm_compute in Ha. injection Ha as <- _. reflexivity.
Defined.
