(* ===== verification/SessionAPI.v ===== *)
(** * The session API ([internal/controlplane/sessionapi])

    A client creates a session, keeps it alive with heartbeats, and disconnects
    it.  The service keeps the sessions in the database and their streams in the
    runtime registry, and takes networks and capabilities from the cluster. *)

From S2P Require Import Prelude GoLib GoText External RemoteTask StorageEngine Netip NetworkSpec SessionStore TaskStore.
From S2P Require Import StoragePages TaskAPI.

(** ** Data ([types.go], [dto.go], [protocol/capability]) *)

Record Snapshot := mkSnapshot {
  cap_SchemaVersion : Z;
  cap_IdentityID : string;
  cap_Namespace : string;
  cap_GatewayVersion : string;
  Capabilities : list string
}.

Record Document := mkDocument {
  d_ID : string;
  d_Namespace : string;
  d_State : string;
  d_Generation : Z;
  d_CreatedAt : time;
  d_UpdatedAt : time;
  d_LastHeartbeatAt : time;
  d_ExpiresAt : time;
  d_NetworkSpec : Spec;
  d_NetworkSpecHash : string;
  d_Capabilities : option Snapshot
}.

(** Heartbeats advance the stored generation before long-lived transports are
    replaced: an older generation is accepted, one that is ahead is not. *)
Definition AcceptsStreamGeneration (current stream : Z) : bool :=
  negb (current =? 0) && negb (stream =? 0) && (stream <=? current).

Definition DefaultSessionTTL : Duration := 2 * Minute.
Definition DefaultMaxLifetime : Duration := 8 * Hour.
Definition sessionStateActive : string := "active".
Definition ifMatchHeader : string := "If-Match".

(** ** What the service is made of ([service_core.go])

    [E] is everything outside the database: the engine, the runtime registry and
    the cluster.  [B] are the traffic bindings a lister returns. *)

(** The operations of [sessionregistry.Registry] that are called; [Disconnect]
    waits at most five seconds. *)
Record RuntimeRegistry (E : Type) := mkRuntimeRegistry {
  registry_Ensure : string -> E -> result unit * E;
  registry_Disconnect : string -> E -> result unit * E
}.
Arguments mkRuntimeRegistry {E} _ _.
Arguments registry_Ensure {E} _ _ _.
Arguments registry_Disconnect {E} _ _ _.

(** What a deletion of a traffic binding returns. *)
Inductive deletion := Deletion_done | Deletion_not_found | Deletion_failed.

Record Config (E B : Type) := mkConfig {
  cfg_ClusterID : string;
  cfg_SessionTTL : Duration;
  cfg_MaxLifetime : Duration;
  cfg_Networks : option (Identity -> string -> E -> result Spec * E);
  cfg_Capabilities : option (Identity -> string -> E -> (apiError + Snapshot) * E);
  cfg_Registry : option (RuntimeRegistry E);
  cfg_TrafficBindings : option (string -> string -> string -> Z -> time -> E -> result unit * E);
  cfg_TrafficBindingLister : option (string -> string -> E -> result (list B) * E);
  cfg_TrafficBindingDeleter : option (string -> string -> string -> E -> deletion * E)
}.
Arguments cfg_ClusterID {E B} _.
Arguments cfg_SessionTTL {E B} _.
Arguments cfg_MaxLifetime {E B} _.
Arguments cfg_Networks {E B} _.
Arguments cfg_Capabilities {E B} _.
Arguments cfg_Registry {E B} _.
Arguments cfg_TrafficBindings {E B} _.
Arguments cfg_TrafficBindingLister {E B} _.
Arguments cfg_TrafficBindingDeleter {E B} _.

Record Service (E B : Type) := mkService {
  clusterID : string;
  sessionTTL : Duration;
  maxLifetime : Duration;
  networks : Identity -> string -> E -> result Spec * E;
  capabilities : Identity -> string -> E -> (apiError + Snapshot) * E;
  registry : RuntimeRegistry E;
  trafficBindings : option (string -> string -> string -> Z -> time -> E -> result unit * E);
  trafficBindingLister : option (string -> string -> E -> result (list B) * E);
  trafficBindingDeleter : option (string -> string -> string -> E -> deletion * E)
}.
Arguments mkService {E B} _ _ _ _ _ _ _ _ _.
Arguments clusterID {E B} _.
Arguments sessionTTL {E B} _.
Arguments maxLifetime {E B} _.
Arguments networks {E B} _ _ _ _.
Arguments capabilities {E B} _ _ _ _.
Arguments registry {E B} _.
Arguments trafficBindings {E B} _.
Arguments trafficBindingLister {E B} _.
Arguments trafficBindingDeleter {E B} _.

(** [newRegistry] is [sessionregistry.New(context.Background())]. *)
Definition New {E B} (newRegistry : RuntimeRegistry E) (config : Config E B) : result (Service E B) :=
  match cfg_Networks config, cfg_Capabilities config with
  | Some networks, Some capabilities =>
      let clusterID := TrimSpace (cfg_ClusterID config) in
      _ ← require (negb (bool_decide (clusterID = "") || (256 <? slen clusterID))) (NewError "session cluster ID is required");
      let ttl := if cfg_SessionTTL config <=? 0 then DefaultSessionTTL else cfg_SessionTTL config in
      _ ← require (negb ((ttl <? 30 * Second) || (30 * Minute <? ttl)))
            (NewError "session TTL must be between 30 seconds and 30 minutes");
      let maximum := if cfg_MaxLifetime config <=? 0 then DefaultMaxLifetime else cfg_MaxLifetime config in
      _ ← require (negb ((maximum <? ttl) || (24 * Hour <? maximum)))
            (NewError "session maximum lifetime must be between the TTL and 24 hours");
      Ok (mkService clusterID ttl maximum networks capabilities (default newRegistry (cfg_Registry config))
            (cfg_TrafficBindings config) (cfg_TrafficBindingLister config) (cfg_TrafficBindingDeleter config))
  | _, _ => Err (NewError "session storage, NetworkSpec and capability discoverers are required")
  end.

(** ** Errors and headers ([service_http.go]) *)

Definition conflict (message : string) : apiError := mkApiError CodeConflict "" message.
Definition unavailable (message : string) : apiError := mkApiError CodeUnavailable "" message.
Definition internalError : apiError := mkApiError CodeInternal "" "Session operation failed".
Definition networkSpecValidationFailed : apiError := mkApiError CodeInternal "" "NetworkSpec validation failed".

Definition mapStorageError (err : storage_error) : apiError :=
  if storage_Is err ErrNotFound then NotFound
  else if storage_Is err ErrConflict then conflict "Session state changed; reload and retry"
  else if storage_Is err ErrIdempotencyMismatch
  then conflict "Idempotency-Key was already used for a different request"
  else internalError.

(** [values] are the values of the header. *)
Definition idempotencyKey (values : list string) : apiError + string :=
  match values with
  | [v] =>
      let key := TrimSpace v in
      if bool_decide (key = "") || (128 <? slen key) || negb (all_bytes key_byte key)
      then inl (mkApiError CodeInvalidArgument IdempotencyHeader "Idempotency-Key is invalid")
      else inr key
  | _ => inl (mkApiError CodeInvalidArgument IdempotencyHeader "Idempotency-Key must be provided once")
  end.

Definition invalidGeneration : apiError := mkApiError CodeInvalidArgument ifMatchHeader "If-Match generation is invalid".

(** [raw[1:len(raw)-1]] of a string that begins and ends with a quote. *)
Definition unquote (raw : string) : option bytes :=
  match string_to_bytes raw with
  | first :: rest =>
      if negb (slen raw <? 3) && bool_decide (first = x22) && bool_decide (List.last rest first = x22)
      then Some (List.removelast rest) else None
  | [] => None
  end.

Definition expectedGeneration (values : list string) : apiError + Z :=
  match values with
  | [v] =>
      match unquote (TrimSpace v) with
      | None => inl invalidGeneration
      | Some digits =>
          match ParseUint digits with
          | Some generation => if generation =? 0 then inl invalidGeneration else inr generation
          | None => inl invalidGeneration
          end
      end
  | _ => inl (mkApiError CodeInvalidArgument ifMatchHeader "If-Match generation is required")
  end.

(** [fmt.Sprintf("\"%d\"", generation)] *)
Definition etag (generation : Z) : string := quoted (pretty (Z.to_N generation)).

(** What a handler writes, and the headers it sets. *)
Inductive reply (B : Type) :=
| WroteDocument (status : Z) (ETag : string) (replayed : bool) (location : option string) (document : Document)
| WroteBindings (items : list B)
| WroteDeleted.
Arguments WroteDocument {B} _ _ _ _ _.
Arguments WroteBindings {B} _.
Arguments WroteDeleted {B}.

Definition ownedBy (session : Session) (identity : Identity) (namespace : string) : bool :=
  bool_decide (s_IdentityID session = Subject identity) && bool_decide (s_DeviceID session = DeviceID identity) &&
  bool_decide (s_Namespace session = namespace).

Section handlers.
Context {E : Type} `{Engine E} `{UuidPackage} `{NetipPackage} `{JsonCodec Spec} `{JsonCodec unit} `{HashPackage}.
Context `{JsonValidity} `{JsonCodec transitionMetadata} `{JsonCodec Document} (store : Store).
Context {B : Type} (handler : Service E B).

(** ** Handlers

    A handler ends with an API error or a value; [requestID] is the correlation
    identifier of the request's context. *)

#[local] Abbreviation handling A := (M (E:=E) (apiError + A)).

Definition api_bind {A C} (m : handling A) (k : A -> handling C) : handling C :=
  r ← m; match r with inl e => mret (inl e) | inr a => k a end.
Definition answer {A} (a : A) : handling A := mret (inr a).
Definition reject {A} (e : apiError) : handling A := mret (inl e).
Definition guard_api (cond : bool) (e : apiError) : handling unit := if cond then answer tt else reject e.

(** A storage error becomes an API error; a panic goes on. *)
Definition or_reject {A} (mapError : storage_error -> apiError) (m : M (E:=E) A) : handling A :=
  r ← try m;
  match r with inl Panicked => fail Panicked | inl e => reject (mapError e) | inr a => answer a end.

(** A call of something outside the database. *)
Definition outside {A} (f : E -> A * E) : M (E:=E) A := fun w =>
  let '(a, e) := f (w_engine w) in (inr a, mkWorld (w_db w) e (w_tx w)).

Definition outside_result {A} (f : E -> result A * E) (e : apiError) : handling A :=
  r ← outside f; match r with Ok a => answer a | Err _ => reject e end.

Notation "x ⟵ m ; k" := (api_bind m (fun x => k)) (at level 20, m at level 100, k at level 200, right associativity).
Notation "' x ⟵ m ; k" := (api_bind m (fun x : _ => k)) (at level 20, x pattern, m at level 100, k at level 200, only parsing).

(** *** The runtime of a session ([service_runtime.go]) *)

Definition settled (state : State) : bool := bool_decide (state = Stopped) || Terminal state.

Definition settle_next (state : State) : State :=
  if bool_decide (state = Pending) || bool_decide (state = Stopping) then Stopped else Failed.

(** The loop over the tasks of a session: the errors to join. *)
Fixpoint settle_tasks (requestID : string) (tasks : list Task) (errs : list storage_error) : M (E:=E) (list storage_error) :=
  match tasks with
  | [] => mret errs
  | task :: rest =>
      if settled (t_State task) then settle_tasks requestID rest errs
      else
        now ← time_Now;
        outcome ← try (UpdateState store requestID (t_ID task) (t_State task) (settle_next (t_State task)) (t_Result task) now);
        match outcome with
        | inl Panicked => fail Panicked
        | inl e => settle_tasks requestID rest
                     (if storage_Is e ErrConflict || storage_Is e ErrNotFound then errs else errs ++ [e])
        | inr _ => settle_tasks requestID rest errs
        end
  end.

Definition settleOwnedTasks (requestID sessionID : string) : M (E:=E) (list storage_error) :=
  tasks ← ListBySession sessionID 1000; settle_tasks requestID tasks [].

Definition disconnectRuntime (requestID sessionID : string) : handling unit :=
  _ ⟵ outside_result (registry_Disconnect (registry handler) sessionID) (unavailable "Session runtime cleanup is pending");
  errs ⟵ or_reject (fun _ => unavailable "Session Task cleanup is pending") (settleOwnedTasks requestID sessionID);
  guard_api (len errs =? 0) (unavailable "Session Task cleanup is pending").

(** *** Access ([service_access.go]) *)

(** A session that has expired is marked; another client may be quicker. *)
Definition expire_session (session : Session) (now : time) : handling Session :=
  outcome ← try (Session_UpdateState (s_ID session) (s_Generation session) "expired" now);
  match outcome with
  | inl Panicked => fail Panicked
  | inl e => if storage_Is e ErrConflict then or_reject mapStorageError (Session_GetByID (s_ID session))
             else reject (mapStorageError e)
  | inr _ => or_reject mapStorageError (Session_GetByID (s_ID session))
  end.

Definition loadOwned (requestID : string) (identity : Identity) (namespace id : string) : handling Session :=
  _ ⟵ guard_api (valid_uuid id "session ID") NotFound;
  session ⟵ or_reject (fun e => if storage_Is e ErrNotFound then NotFound else mapStorageError e) (Session_GetByID id);
  _ ⟵ guard_api (ownedBy session identity namespace) NotFound;
  now ← time_Now;
  session ⟵ (if bool_decide (s_State session = sessionStateActive) && negb (After (s_ExpiresAt session) now)
             then expire_session session now else answer session);
  _ ⟵ (if negb (bool_decide (s_State session = sessionStateActive)) then disconnectRuntime requestID (s_ID session)
        else answer tt);
  answer session.

Definition RequireActive (requestID : string) (identity : Identity) (namespace id : string) : handling ActiveSession :=
  session ⟵ loadOwned requestID identity namespace id;
  now ← time_Now;
  _ ⟵ guard_api (bool_decide (s_State session = sessionStateActive) && After (s_ExpiresAt session) now)
         (conflict "Session is not active");
  _ ⟵ guard_api (negb (bool_decide (s_NetworkSpecHash session = ""))) (conflict "Session has no NetworkSpec");
  _ ⟵ outside_result (registry_Ensure (registry handler) (s_ID session)) (unavailable "Session runtime is unavailable");
  answer (mkActiveSession (s_ID session) (s_Namespace session) (s_Generation session) (s_ExpiresAt session)
            (s_NetworkSpecHash session)).

(** *** Documents *)

Definition zero_Spec : Spec := mkSpec 0 [] [] [] [] "" [].

(** An error of [networkspec.Decode] is ignored. *)
Definition documentFromSession (session : Session) : M (E:=E) Document :=
  spec ← of_sum (match NetworkSpec.Decode (s_NetworkSpec session) with
                 | None => inl Panicked | Some (Ok spec) => inr spec | Some (Err _) => inr zero_Spec end);
  mret (mkDocument (s_ID session) (s_Namespace session) (s_State session) (s_Generation session) (s_CreatedAt session)
          (s_UpdatedAt session) (s_LastHeartbeatAt session) (s_ExpiresAt session) spec (s_NetworkSpecHash session) None).

Definition documentWithCapabilities (session : Session) (snapshot : Snapshot) : M (E:=E) Document :=
  d ← documentFromSession session;
  mret (mkDocument (d_ID d) (d_Namespace d) (d_State d) (d_Generation d) (d_CreatedAt d) (d_UpdatedAt d) (d_LastHeartbeatAt d)
          (d_ExpiresAt d) (d_NetworkSpec d) (d_NetworkSpecHash d) (Some snapshot)).

Definition writeDocument (status : Z) (replayed : bool) (location : option string) (document : Document) : handling (reply B) :=
  answer (WroteDocument status (etag (d_Generation document)) replayed location document).

Definition write_session (session : Session) : handling (reply B) :=
  document ← documentFromSession session; writeDocument 200 false None document.

(** [networkspec.CanonicalJSON] and [networkspec.Hash] of discovered networks. *)
Definition canonical_networks (spec : Spec) : handling (bytes * string) :=
  specJSON ⟵ or_reject (fun _ => networkSpecValidationFailed) (of_sum (network (CanonicalJSON spec)));
  specHash ⟵ or_reject (fun _ => networkSpecValidationFailed) (of_sum (network (NetworkSpec.Hash spec)));
  answer (specJSON, specHash).

(** *** Creation ([service_create.go]) *)

Record created_session := mkCreated { cs_session : Session; cs_created : bool }.

Definition create_scope (identity : Identity) : string := "session:create:" +:+ Subject identity.
Definition create_hash (namespace : string) : string :=
  hex_EncodeToString (sha256_Sum256 (string_to_bytes "session-create-v1" ++ [x0a] ++ string_to_bytes namespace)).

(** The callback of the transaction, with the variables it captures. *)
Definition create_or_load (identity : Identity) (namespace key : string) (response : bytes) (now : time)
    : Closure (E:=E) created_session := fun c w =>
  match Idempotency_Reserve (mkIdempotencyRecord (create_scope identity) key (create_hash namespace) "session"
          (s_ID (cs_session c)) response now (now + maxLifetime handler)) w with
  | (inl e, w) => ((Some e, c), w)
  | (inr (record, reserved), w) =>
      if negb reserved then
        if negb (bool_decide (i_ResourceType record = "session")) then ((Some (StorageError ErrConflict), c), w)
        else match Session_GetByID (i_ResourceID record) w with
             | (inl e, w) => ((Some e, c), w)
             | (inr existing, w) =>
                 if ownedBy existing identity namespace then ((None, mkCreated existing (cs_created c)), w)
                 else ((Some (StorageError ErrNotFound), c), w)
             end
      else match Session_Create (cs_session c) w with
           | (inl e, w) => ((Some e, c), w)
           | (inr _, w) => ((None, mkCreated (cs_session c) true), w)
           end
  end.

Definition session_location (namespace id : string) : string :=
  "/api/sessions/" +:+ id +:+ "?namespace=" +:+ namespace.

Definition create (identity : Identity) (namespace : string) (keys : list string) : handling (reply B) :=
  _ ⟵ guard_api (negb (bool_decide (TrimSpace (Subject identity) = "") || bool_decide (TrimSpace (DeviceID identity) = "")))
         (mkApiError CodeUnauthenticated "" "authenticated device identity is required");
  key ⟵ mret (idempotencyKey keys);
  now ← time_Now;
  snapshot ⟵ outside (capabilities handler identity namespace);
  spec ⟵ outside_result (networks handler identity namespace) (unavailable "Kubernetes NetworkSpec discovery failed");
  '(specJSON, specHash) ⟵ canonical_networks spec;
  id ← uuid_NewString;
  let session := mkSession id (Subject identity) (DeviceID identity) (clusterID handler) namespace sessionStateActive 1
                   specJSON specHash now now now (now + sessionTTL handler) in
  document ← documentWithCapabilities session snapshot;
  r ← run_transaction store (create_or_load identity namespace key (json_Marshal document) now) (mkCreated session false);
  match r with
  | (Some Panicked, _) => fail Panicked
  | (Some e, _) => reject (mapStorageError e)
  | (None, c) =>
      _ ⟵ outside_result (registry_Ensure (registry handler) (s_ID (cs_session c))) (unavailable "Session runtime is unavailable");
      document ← documentWithCapabilities (cs_session c) snapshot;
      writeDocument (if cs_created c then 201 else 200) (negb (cs_created c))
        (Some (session_location namespace (s_ID (cs_session c)))) document
  end.

(** *** Heartbeats ([service_heartbeat.go]) *)

Definition revoked (requestID : string) (session : Session) (generation : Z) (now : time) : handling (reply B) :=
  _ ⟵ or_reject mapStorageError (Session_UpdateState (s_ID session) generation "disconnected" now);
  _ ⟵ disconnectRuntime requestID (s_ID session);
  reject (mkApiError CodeForbidden "" "Session access was revoked").

Definition heartbeat (requestID : string) (identity : Identity) (namespace id : string) (ifMatch : list string)
    : handling (reply B) :=
  generation ⟵ mret (expectedGeneration ifMatch);
  session ⟵ loadOwned requestID identity namespace id;
  now ← time_Now;
  _ ⟵ guard_api (bool_decide (s_State session = sessionStateActive) && After (s_ExpiresAt session) now)
         (conflict "Session is not active");
  current ⟵ outside (capabilities handler identity namespace);
  if negb (bool_decide ("cluster.tunnel" ∈ Capabilities current)) then revoked requestID session generation now
  else
    let maximumExpiry := s_CreatedAt session + maxLifetime handler in
    let nextExpiry := if Before maximumExpiry (now + sessionTTL handler) then maximumExpiry else now + sessionTTL handler in
    _ ⟵ guard_api (After nextExpiry now) (conflict "Session maximum lifetime has elapsed");
    spec ⟵ outside_result (networks handler identity namespace) (unavailable "Kubernetes NetworkSpec refresh failed");
    '(specJSON, specHash) ⟵ canonical_networks spec;
    _ ⟵ or_reject mapStorageError (Session_Heartbeat (s_ID session) generation specJSON specHash now nextExpiry);
    session ⟵ or_reject mapStorageError (Session_GetByID (s_ID session));
    write_session session.

(** *** Reading and disconnecting ([service_lifecycle.go]) *)

Definition get (requestID : string) (identity : Identity) (namespace id : string) : handling (reply B) :=
  session ⟵ loadOwned requestID identity namespace id; write_session session.

Definition disconnect (requestID : string) (identity : Identity) (namespace id : string) (ifMatch : list string)
    : handling (reply B) :=
  generation ⟵ mret (expectedGeneration ifMatch);
  session ⟵ loadOwned requestID identity namespace id;
  if bool_decide (s_State session = "disconnected") || bool_decide (s_State session = "expired") then
    _ ⟵ disconnectRuntime requestID (s_ID session); write_session session
  else
    now ← time_Now;
    _ ⟵ or_reject mapStorageError (Session_UpdateState (s_ID session) generation "disconnected" now);
    _ ⟵ disconnectRuntime requestID (s_ID session);
    session ⟵ or_reject mapStorageError (Session_GetByID (s_ID session));
    write_session session.

(** *** Traffic bindings ([service_sync.go]) *)

Definition deleteTrafficBinding (requestID : string) (identity : Identity) (namespace id taskID : string) : handling (reply B) :=
  session ⟵ loadOwned requestID identity namespace id;
  match trafficBindingDeleter handler with
  | None => reject (unavailable "TrafficBinding Session deletion is unavailable")
  | Some delete =>
      outcome ← outside (delete namespace (Subject identity) taskID);
      match outcome with
      | Deletion_done => answer WroteDeleted
      | Deletion_not_found => reject (mkApiError CodeNotFound "" "TrafficBinding Session was not found")
      | Deletion_failed => reject (unavailable "TrafficBinding Session deletion failed")
      end
  end.

Definition listTrafficBindings (requestID : string) (identity : Identity) (namespace id : string) : handling (reply B) :=
  session ⟵ loadOwned requestID identity namespace id;
  match trafficBindingLister handler with
  | None => reject (unavailable "TrafficBinding Sessions are unavailable")
  | Some list =>
      items ⟵ outside_result (list namespace (Subject identity)) (unavailable "TrafficBinding Session listing failed");
      answer (WroteBindings items)
  end.

Definition syncTrafficBindings (requestID : string) (identity : Identity) (namespace id : string) : handling (reply B) :=
  session ⟵ loadOwned requestID identity namespace id;
  _ ⟵ match trafficBindings handler with
       | None => answer tt
       | Some synchronize =>
           outside_result (synchronize (Subject identity) (s_ID session) namespace (s_Generation session) (s_ExpiresAt session))
             (unavailable "TrafficBinding Session synchronization failed")
       end;
  write_session session.
(** *** Routes ([routes.go], [routequery])

    [ValidNamespace] is [validation.IsDNS1123Label] of Kubernetes. *)

Context (ValidNamespace : string -> bool).

(** The values of the query by parameter, in the order the map is walked. *)
Definition Query : Type := list (string * list string).

Fixpoint query_parameters (query : Query) : apiError + unit :=
  match query with
  | [] => inr tt
  | (key, values) :: rest =>
      if negb (bool_decide (key = "namespace")) then inl (mkApiError CodeInvalidArgument key "query parameter is not supported")
      else if negb (len values =? 1) then inl (mkApiError CodeInvalidArgument key "query parameter must be provided once")
      else query_parameters rest
  end.

(** [query.Get]: the first value, or the empty string. *)
Fixpoint query_Get (query : Query) (name : string) : string :=
  match query with
  | [] => ""
  | (key, values) :: rest => if bool_decide (key = name) then default "" (head values) else query_Get rest name
  end.

Definition Namespace (query : Query) : apiError + string :=
  match query_parameters query with
  | inl e => inl e
  | inr _ =>
      let namespace := query_Get query "namespace" in
      if ValidNamespace namespace then inr namespace
      else inl (mkApiError CodeInvalidArgument "namespace" "namespace is invalid")
  end.

(** [body] is what reading one byte of the body gives. *)
Definition RequireEmptyBody (body : option bytes) : apiError + unit :=
  match body with
  | None => inl (mkApiError CodeInvalidArgument "" "request body is invalid")
  | Some [] => inr tt
  | Some _ => inl (mkApiError CodeInvalidArgument "" "request body must be empty")
  end.

Record HttpRequest := mkHttpRequest {
  rq_Query : Query;
  rq_Body : option bytes;
  rq_SessionID : string;
  rq_TaskID : string;
  rq_IdempotencyKey : list string;
  rq_IfMatch : list string;
  rq_RequestID : string
}.

Definition withNamespace (next : Identity -> string -> handling (reply B)) (request : HttpRequest) (identity : Identity)
    : handling (reply B) :=
  namespace ⟵ mret (Namespace (rq_Query request));
  _ ⟵ mret (RequireEmptyBody (rq_Body request));
  next identity namespace.

Definition withSession (next : Identity -> string -> string -> handling (reply B)) (request : HttpRequest) (identity : Identity)
    : handling (reply B) :=
  withNamespace (fun identity namespace => next identity namespace (rq_SessionID request)) request identity.

Inductive endpoint := Create | Get | Heartbeat | Sync | ListTrafficBindings | DeleteTrafficBinding | Disconnect.

Definition Endpoints (e : endpoint) (request : HttpRequest) (identity : Identity) : handling (reply B) :=
  let rid := rq_RequestID request in
  match e with
  | Create => withNamespace (fun identity namespace => create identity namespace (rq_IdempotencyKey request)) request identity
  | Get => withSession (get rid) request identity
  | Heartbeat => withSession (fun identity namespace id => heartbeat rid identity namespace id (rq_IfMatch request)) request identity
  | Sync => withSession (syncTrafficBindings rid) request identity
  | ListTrafficBindings => withSession (listTrafficBindings rid) request identity
  | DeleteTrafficBinding =>
      withSession (fun identity namespace id => deleteTrafficBinding rid identity namespace id (rq_TaskID request)) request identity
  | Disconnect => withSession (fun identity namespace id => disconnect rid identity namespace id (rq_IfMatch request)) request identity
  end.
End handlers.
