(* ===== verification/SessionAPIFacts.v ===== *)
(** * Correctness of the session API

    What the handlers do to the sessions in the database, with other replicas
    acting in between: a session keeps its owner, its generation counts its
    changes, it never lives longer than configured, and once it is closed it
    stays closed. *)

From S2P Require Import ConcreteEnv ConcreteNetip NetworkSpecFacts TaskLifecycle StorageRuns.
From S2P Require Import Prelude GoLib GoText GoSort External RemoteTask StorageEngine Netip NetworkSpec SessionStore TaskStore.
From S2P Require Import StoragePages TaskAPI StorageFacts TaskStoreFacts SessionAPI.

(** ** The life of a session *)

Definition closed (state : string) : Prop := state = "disconnected" \/ state = "expired".

Section life.
Context {E : Type} `{EN : Engine E} (lifetime : Duration).

(** The changes of a row, for sessions that live at most [lifetime]. *)
Inductive session_step (row : Session) : Session -> Prop :=
| step_beat (updatedAt expiresAt : time) (spec : bytes) (hash : string) :
    s_State row = statusActive -> updatedAt < expiresAt <= s_CreatedAt row + lifetime ->
    1 <= s_Generation row < MaxInt64 ->
    session_step row (heartbeat_row updatedAt expiresAt spec hash row)
| step_close (state : string) (updatedAt : time) :
    closed state -> 1 <= s_Generation row < MaxInt64 -> session_step row (state_row state updatedAt row).

(** A row as it is inserted. *)
Definition fresh_session (row : Session) : Prop :=
  s_State row = statusActive /\ s_Generation row = 1 /\ s_CreatedAt row < s_ExpiresAt row <= s_CreatedAt row + lifetime.

Inductive sessions_change (db : Database) (db' : Database) : Prop :=
| sessions_same : sessions db' = sessions db -> sessions_change db db'
| sessions_created (row : Session) :
    sessions db !! s_ID row = None -> fresh_session row -> sessions db' = <[s_ID row := row]> (sessions db) ->
    sessions_change db db'
| sessions_moved (id : string) (row row' : Session) :
    sessions db !! id = Some row -> session_step row row' -> sessions db' = <[id := row']> (sessions db) ->
    sessions_change db db'.

(** What never changes. *)
Definition same_owner (row row' : Session) : Prop :=
  s_ID row' = s_ID row /\ s_IdentityID row' = s_IdentityID row /\ s_DeviceID row' = s_DeviceID row /\
  s_ClusterID row' = s_ClusterID row /\ s_Namespace row' = s_Namespace row /\ s_CreatedAt row' = s_CreatedAt row.

#[export] Instance same_owner_preorder : PreOrder same_owner.
Proof. split; [by intros row|]. intros r1 r2 r3 (? & ? & ? & ? & ? & ?) (? & ? & ? & ? & ? & ?). repeat split; congruence. Qed.

Lemma step_owner row row' : session_step row row' -> same_owner row row'.
Proof. by intros []. Qed.

Lemma step_generation row row' : session_step row row' -> s_Generation row' = s_Generation row + 1.
Proof. by intros []. Qed.

Lemma step_closed row row' : session_step row row' -> closed (s_State row) -> closed (s_State row').
Proof. intros [u e sp h Ha|st u Hc] Hcl; [|done]. rewrite Ha in Hcl. by destruct Hcl. Qed.

(** A sequence of changes of one row. *)
Definition history_of (row row' : Session) : Prop :=
  same_owner row row' /\ (row' = row \/ s_Generation row < s_Generation row') /\ (closed (s_State row) -> closed (s_State row')).

Lemma steps_history row row' : rtc session_step row row' -> history_of row row'.
Proof.
  induction 1 as [row|row r1 row' Hs _ (Ho & Hg & Hc)]; [by split; [|split; [left|]]|].
  pose proof (step_owner _ _ Hs) as Ho1. pose proof (step_generation _ _ Hs). split; [by etransitivity|]. split.
  - right. destruct Hg as [->|]; lia.
  - intros Hcl. by apply Hc, (step_closed row).
Qed.

Definition sessions_keyed (db : Database) : Prop := map_Forall (fun id row => s_ID row = id) (sessions db).

Lemma sessions_change_keyed db db' : sessions_change db db' -> sessions_keyed db -> sessions_keyed db'.
Proof.
  unfold sessions_keyed. intros [->|row _ _ ->|id row row' Hrow Hs ->] Hk; [done|by apply map_Forall_insert_2|].
  apply map_Forall_insert_2; [|done]. destruct (step_owner _ _ Hs) as [-> _]. by apply Hk.
Qed.

(** The row is there, changed since only by steps. *)
Definition since (row : Session) (db : Database) : Prop :=
  exists row', sessions db !! s_ID row = Some row' /\ rtc session_step row row'.

Lemma since_change row db db' : sessions_change db db' -> since row db -> since row db'.
Proof.
  intros Hc (row1 & Hl & Hs). unfold since. destruct Hc as [->|row2 Hnone _ ->|id r r' Hr Hst ->]; [by exists row1| |].
  - exists row1. split; [|done]. rewrite lookup_insert_ne; [done|congruence].
  - destruct (decide (id = s_ID row)) as [->|Hne].
    + rewrite Hl in Hr. injection Hr as ->. exists r'. rewrite lookup_insert_eq. split; [done|]. by eapply rtc_r.
    + exists row1. by rewrite lookup_insert_ne.
Qed.

(** *** Well-formed rows *)

Definition session_typed (id : string) (row : Session) : Prop :=
  s_ID row = id /\ (s_State row = statusActive \/ closed (s_State row)) /\ 1 <= s_Generation row <= MaxInt64 /\
  s_ExpiresAt row <= s_CreatedAt row + lifetime.

Definition sessions_typed (db : Database) : Prop := map_Forall session_typed (sessions db).

Lemma step_typed id row row' : session_step row row' -> session_typed id row -> session_typed id row'.
Proof.
  intros [u e sp h Ha [He1 He2] Hg|st u Hc Hg] (Hid & Hst & Hgen & Hexp); (split; [done|]).
  - split; [by left|]. split; [cbn; lia|]. exact He2.
  - split; [by right|]. split; [cbn; lia|]. exact Hexp.
Qed.

Lemma sessions_change_typed db db' : sessions_change db db' -> sessions_typed db -> sessions_typed db'.
Proof.
  unfold sessions_typed. intros [->|row Hnone (Ha & Hg & He1 & He2) ->|id row row' Hrow Hs ->] Ht; [done| |].
  - apply map_Forall_insert_2; [|done]. split; [done|]. split; [by left|]. split; [unfold MaxInt64; lia|done].
  - apply map_Forall_insert_2; [|done]. apply (step_typed id row row' Hs). by apply Ht.
Qed.

(** ** The steps of the whole storage *)

Context `{UP : UuidPackage} `{JV : JsonValidity} `{JT : JsonCodec transitionMetadata}.

(** A change of the repositories that treats sessions in this way. *)
Definition api_step (db db' : Database) : Prop := change (EN := EN) db db' /\ sessions_change db db'.

Definition api_inv (db : Database) : Prop := trails_ok (UP := UP) db /\ sessions_keyed db.

Definition others_api : Prop := forall db (e : E), rtc api_step db (engine_Others db e).1.

Lemma api_step_inv db db' : api_inv db -> api_step db db' -> api_inv db'.
Proof.
  intros [Ht Hk] [Hc Hs]. split; [by apply (change_trails (EN := EN) db)|by apply (sessions_change_keyed db)].
Qed.

Definition api_protocol (Ho : others_api) : Protocol E :=
  mkProtocol E EN api_step api_inv (fun db e _ => Ho db e) api_step_inv.

Lemma since_stable Ho row : stable (api_protocol Ho) (since row).
Proof. intros db db' _ [_ Hs]. by apply since_change. Qed.

Lemma same_sessions_step db db' : change (EN := EN) db db' -> sessions db' = sessions db -> api_step db db'.
Proof. intros Hc Hs. split; [done|by apply sessions_same]. Qed.

(** *** Consequences for the rows *)

Lemma steps_since db db' row : rtc api_step db db' -> sessions db !! s_ID row = Some row -> since row db'.
Proof.
  intros Hs Hrow. assert (H0 : since row db) by (by exists row). clear Hrow.
  induction Hs as [|x y z [_ Hxy] _ IH]; [done|]. apply IH. by apply (since_change row x).
Qed.

Lemma steps_row db db' id row :
  rtc api_step db db' -> sessions_keyed db -> sessions db !! id = Some row ->
  exists row', sessions db' !! id = Some row' /\ history_of row row'.
Proof.
  intros Hs Hk Hrow. assert (Hid : s_ID row = id) by exact (Hk id row Hrow). subst id.
  destruct (steps_since db db' row Hs Hrow) as (row' & Hrow' & Hst). exists row'. split; [done|by apply steps_history].
Qed.
End life.

(** ** The repositories *)

Section repositories.
Context {E : Type} `{EN : Engine E} `{UP : UuidPackage} `{NP : NetipPackage} `{JS : JsonCodec Spec} `{JU : JsonCodec unit}
  `{HP : HashPackage} `{JV : JsonValidity} `{JT : JsonCodec transitionMetadata} {UL : UuidLaws} {MS : MetadataStored} (store : Store).
Context (lifetime : Duration) (Hothers : others_api lifetime).
Implicit Types (db : Database) (P : Database -> Prop).

#[local] Abbreviation step := (api_step lifetime).
#[local] Abbreviation api := (api_protocol lifetime Hothers).
#[local] Abbreviation proves := (triple api).

Lemma sessionFromRow_fields row s :
  sessionFromRow row = inr s ->
  same_owner row s /\ s_State s = s_State row /\ s_Generation s = uint64 (s_Generation row) /\ 1 <= s_Generation row /\
  s_ExpiresAt s = s_ExpiresAt row /\ s_NetworkSpecHash s = s_NetworkSpecHash row.
Proof.
  unfold sessionFromRow. destruct (Z.ltb_spec (s_Generation row) 1); [done|].
  destruct (or_error _ _) as [|sp]; [done|]. destruct (or_error _ _) as [|can]; [done|]. destruct (or_error _ _) as [|h]; [done|].
  destruct (negb _); [done|]. intros [= <-]. cbn. repeat split; lia.
Qed.

(** A session that was read: the row it was read from, and the tables then. *)
Definition read_from P (id : string) (s : Session) (db : Database) : Prop :=
  exists db0 row, P db0 /\ sessions db0 !! id = Some row /\ s_ID row = id /\ sessionFromRow row = inr s /\ since lifetime row db.

Lemma get_session P id :
  stable api P -> proves P (Session_GetByID id) (fun s db => P db /\ read_from P id s db).
Proof.
  intros Hst. unfold Session_GetByID. apply (proves_bind (fun _ => P)); [apply proves_check|]. intros _.
  apply (proves_bind (fun row db => P db /\ forall r, row = Some r -> sessions db !! id = Some r /\ s_ID r = id)).
  - apply proves_read; [done|]. intros db [_ Hk] Hp. split; [done|]. intros r Hr. split; [done|]. by apply Hk.
  - intros [row|]; [|apply proves_fail]. apply proves_of_sum. intros s db Hs [Hp Hr]. destruct (Hr row eq_refl) as [Hrow Hid].
    split; [done|]. exists db, row. split; [done|]. split; [done|]. split; [done|]. split; [done|]. exists row. by rewrite Hid.
Qed.

Lemma read_stable P id s : stable api (read_from P id s).
Proof.
  intros db db' Hi Hs (db0 & row & Hp & Hrow & Hid & Hd & Hsince). exists db0, row. do 4 (split; [done|]).
  by apply (since_stable lifetime Hothers row db).
Qed.

Lemma missing_fails P id (Q : unit -> Database -> Prop) : stable api P -> proves P (session_missing id) Q.
Proof.
  intros Hst. unfold session_missing. apply (proves_bind (fun _ _ => True)).
  - apply (proves_post _ (proves_try _ P _ _ (get_session P id Hst))). done.
  - intros [e|s]; [|apply proves_fail]. destruct (storage_Is e ErrNotFound); [apply proves_fail|]. destruct e; apply proves_fail.
Qed.

Lemma updated_step id db row row' p f :
  sessions db !! id = Some row -> p row = true -> session_step lifetime row row' -> f row = row' ->
  match update_session id p f db with
  | inr (count, db') => rtc step db db' /\ count = 1 /\ sessions db' = <[id := row']> (sessions db)
  | inl _ => True
  end.
Proof.
  intros Hrow Hp Hs <-. unfold update_session. rewrite Hrow, Hp. split; [|done]. apply rtc_once. split.
  - apply change_sessions.
  - by apply (sessions_moved lifetime _ _ id row (f row)).
Qed.

(** An update of one row that is one of its steps. *)
Lemma update_spec P id p f (Q : Database -> Prop) :
  stable api P ->
  (forall db row, api_inv db -> P db -> sessions db !! id = Some row -> p row = true -> session_step lifetime row (f row)) ->
  (forall db db' row, api_inv db -> P db -> sessions db !! id = Some row -> p row = true ->
     sessions db' = <[id := f row]> (sessions db) -> Q db') ->
  proves P (count ← statement mapWriteError (update_session id p f);
            if (count : Z) =? 1 then mret tt else session_missing id) (fun _ => Q).
Proof.
  intros Hst Hstep HQ. apply (proves_bind (fun count db => count = 1 /\ Q db \/ count = 0 /\ P db)).
  - apply proves_statement; [done|]. intros db Hi Hp. destruct (sessions db !! id) as [row|] eqn:Hrow.
    + destruct (p row) eqn:Hpr.
      * pose proof (updated_step id db row (f row) p f Hrow Hpr (Hstep db row Hi Hp Hrow Hpr) eq_refl) as Hu.
        unfold update_session in *. rewrite Hrow, Hpr in *. destruct Hu as (? & _ & ?). split; [done|]. left. split; [done|].
        by apply (HQ db _ row).
      * unfold update_session. rewrite Hrow, Hpr. split; [done|]. by right.
    + unfold update_session. rewrite Hrow. split; [done|]. by right.
  - intros count. destruct (Z.eqb_spec count 1) as [->|Hne].
    + apply (proves_conseq (fun db => Q db) (fun _ db => Q db)); [apply (proves_ret _ tt (fun _ => Q))| |done].
      intros db _ [[_ Hq]|[? _]]; [exact Hq|lia].
    + apply (proves_conseq P (fun _ => Q)); [by apply missing_fails| |done]. intros db _ [[-> _]|[_ Hp]]; [done|exact Hp].
Qed.

Definition closed_row (id : string) (db : Database) : Prop :=
  exists row, sessions db !! id = Some row /\ closed (s_State row).

Lemma closed_stable id : stable api (closed_row id).
Proof.
  intros db db' [_ Hk] Hs (row & Hrow & Hcl). destruct (steps_row lifetime db db' id row) as (row' & Hrow' & _ & _ & Hc);
    [by apply rtc_once|done|done|]. exists row'. split; [done|by apply Hc].
Qed.

Lemma int64_bounds generation : 0 <= generation -> (MaxInt64 <=? generation) = false -> int64 generation = generation.
Proof. intros H0 H1. apply int64_small. unfold i64, MaxInt64 in *. lia. Qed.

Lemma close_session P id generation state updatedAt :
  stable api P -> closed state -> TrimSpace state = state -> 0 <= generation ->
  proves P (Session_UpdateState id generation state updatedAt) (fun _ db => closed_row id db).
Proof.
  intros Hst Hcl Htrim Hg. unfold Session_UpdateState. apply (proves_bind (fun _ => P)); [apply proves_check|]. intros _.
  cbn zeta. rewrite Htrim.
  apply (proves_bind (fun _ db => P db /\ generation <> 0 /\ int64 generation = generation /\ generation < MaxInt64)).
  { apply proves_lift. intros u db Hr Hp. split; [done|]. unfold require in Hr.
    destruct (bool_decide _ || _ || (MaxInt64 <=? generation) || _) eqn:Eb; [done|]. bool_hyps. split; [done|].
    split; [|unfold MaxInt64 in *; lia]. apply int64_bounds; [done|]. by apply Z.leb_gt. }
  intros _. apply proves_pure. intros (Hnz & Hint & Hmax). rewrite Hint. apply update_spec; [done| |].
  - intros db row [_ Hk] Hp Hrow Heq. apply Z.eqb_eq in Heq. apply step_close; [done|lia].
  - intros db db' row Hi Hp Hrow Heq Hs. exists (state_row state updatedAt row). rewrite Hs, lookup_insert_eq. by split.
Qed.

Lemma beat_session P row id generation spec hash updatedAt expiresAt :
  stable api P -> (forall db, P db -> since lifetime row db) -> s_ID row = id -> 0 <= generation ->
  expiresAt <= s_CreatedAt row + lifetime ->
  proves P (Session_Heartbeat id generation spec hash updatedAt expiresAt) (fun _ _ => True).
Proof.
  intros Hst Hsince Hid Hg Hexp. unfold Session_Heartbeat. apply (proves_bind (fun _ => P)); [apply proves_check|]. intros _.
  apply (proves_bind (fun _ db => P db /\ generation <> 0 /\ int64 generation = generation /\ generation < MaxInt64 /\ updatedAt < expiresAt)).
  { apply proves_lift. intros u db Hr Hp. split; [done|]. unfold require in Hr.
    destruct ((generation =? 0) || (MaxInt64 <=? generation) || IsZero updatedAt || negb (After expiresAt updatedAt)) eqn:Eb; [done|].
    bool_hyps. split; [done|]. split; [apply int64_bounds; [done|by apply Z.leb_gt]|]. split; [unfold MaxInt64 in *; lia|].
    unfold After in *. lia. }
  intros _. apply proves_pure. intros (Hnz & Hint & Hmax & Hfuture).
  do 3 (apply (proves_bind (fun _ => P)); [apply proves_value|]; intros ?).
  apply (proves_bind (fun _ => P)); [apply proves_check|]. intros _. rewrite Hint. apply update_spec; [done| |done].
  intros db row0 Hi Hp Hrow [Heq Hact]%andb_true_iff. apply Z.eqb_eq in Heq. apply bool_decide_eq_true in Hact.
  apply step_beat; [done| |lia]. destruct (Hsince db Hp) as (row1 & Hl & Hsteps). rewrite Hid in Hl.
  assert (row1 = row0) as -> by congruence. destruct (steps_history lifetime _ _ Hsteps) as [(_ & _ & _ & _ & _ & ->) _]. lia.
Qed.

(** *** Tasks *)

Lemma tx_UpdateState_sessions rid id expected next result updatedAt db db' :
  commit_step (tx_UpdateState rid id expected next result updatedAt) db db' -> sessions db' = sessions db.
Proof.
  intros (e & e' & (u & w1 & Hu & Ha)%bind_inr). destruct u.
  destruct (Task_UpdateState_tx _ _ _ _ _ (mkWorld db e true) w1 eq_refl Hu) as (Ht1 & _ & _ & row & _ & _ & Hdb).
  destruct (appendTransition_tx _ _ _ _ _ _ _ Ht1 Ha) as (_ & ev & _ & _ & _ & Hdb' & _). cbn [w_db] in *. by rewrite Hdb', Hdb.
Qed.

Lemma update_task_keeps P rid id expected next result updatedAt :
  stable api P -> proves P (UpdateState store rid id expected next result updatedAt) (fun _ => P).
Proof.
  intros Hst. apply proves_in_transaction; [done|apply keeps_tx_UpdateState|]. intros db db' Hi Hp Hc.
  assert (Hs : step db db').
  { split; [|by apply sessions_same, (tx_UpdateState_sessions rid id expected next result updatedAt)].
    by destruct (tx_UpdateState_change rid id expected next result updatedAt db db' (proj1 Hi) Hc). }
  split; [by apply rtc_once|]. by apply (Hst db).
Qed.
End repositories.

(** ** The handlers *)

Section handlers.
Context {E : Type} `{EN : Engine E} `{UP : UuidPackage} `{NP : NetipPackage} `{JS : JsonCodec Spec} `{JU : JsonCodec unit}
  `{HP : HashPackage} `{JV : JsonValidity} `{JT : JsonCodec transitionMetadata} `{JD : JsonCodec Document}
  {UL : UuidLaws} {MS : MetadataStored} (store : Store) {B : Type} (handler : Service E B).
Context (Httl : sessionTTL handler <= maxLifetime handler) (Hothers : others_api (maxLifetime handler)).
Implicit Types (db : Database) (P : Database -> Prop).

#[local] Abbreviation api := (api_protocol (maxLifetime handler) Hothers).
#[local] Abbreviation proves := (triple api).

(** A handler that answers ends in the postcondition. *)
Definition handles {A} P (m : M (E:=E) (apiError + A)) (Q : A -> Database -> Prop) : Prop :=
  proves P m (fun r db => forall a, r = inr a -> Q a db).

Lemma handles_bind {A C} P (m : M (E:=E) (apiError + A)) (k : A -> M (apiError + C)) Q S :
  handles P m Q -> (forall a, handles (Q a) (k a) S) -> handles P (api_bind m k) S.
Proof.
  intros Hm Hk. unfold handles, api_bind. apply (proves_bind _ Hm). intros [e|a].
  - apply (proves_conseq (fun _ => True) (fun r _ => r = inl e)); [|done|by intros ? ? _ ->].
    eapply proves_conseq; [apply (proves_ret _ (inl e) (fun r _ => r = inl e))|done|done].
  - eapply proves_conseq; [apply Hk| |done]. intros db _ HQ. by apply HQ.
Qed.

Lemma handles_answer {A} (a : A) (Q : A -> Database -> Prop) : handles (Q a) (answer a) Q.
Proof.
  unfold handles, answer. eapply proves_conseq; [apply (proves_ret _ (inr a) (fun r db => forall a, r = inr a -> Q a db))| |done].
  intros db _ Hq a' [= <-]. exact Hq.
Qed.

Lemma handles_reject {A} P e (Q : A -> Database -> Prop) : handles P (reject e) Q.
Proof.
  unfold handles, reject. eapply proves_conseq; [apply (proves_ret _ (inl e) (fun r db => forall a, r = inr a -> Q a db))|done|done].
Qed.

Lemma handles_guard P cond e : handles P (guard_api cond e) (fun _ db => P db /\ cond = true).
Proof.
  unfold guard_api. destruct cond; [|apply handles_reject].
  eapply proves_conseq; [apply (handles_answer tt (fun _ => P))|done|]. intros r db _ Hr a Ha. split; [exact (Hr a Ha)|done].
Qed.

Lemma handles_value {A} P (r : apiError + A) : handles P (mret r) (fun a db => P db /\ r = inr a).
Proof. unfold handles. intros w r' w' [= <- <-] Hw Hi Hp. split; [done|]. split; [done|]. intros ? [= <-] a Ha. by split. Qed.

Lemma handles_or_reject {A} P f (m : M (E:=E) A) Q : proves P m Q -> handles P (or_reject f m) Q.
Proof.
  intros Hm. unfold handles, or_reject. apply (proves_bind _ (proves_try _ _ _ _ Hm)). intros [[e|msg c|]|a].
  - apply handles_reject.
  - apply handles_reject.
  - apply proves_fail.
  - eapply proves_conseq; [apply (handles_answer a Q)| |done]. intros db _ Hq. by apply Hq.
Qed.

Lemma outside_spec {A} P (f : E -> A * E) : proves P (outside f) (fun a db => P db /\ exists e, (f e).1 = a).
Proof.
  intros w r w' Hr Hw Hi Hp. unfold outside in Hr. destruct (f (w_engine w)) as [a e] eqn:Ef. injection Hr as <- <-.
  split; [done|]. split; [done|]. intros a' [= <-]. split; [done|]. exists (w_engine w). by rewrite Ef.
Qed.

Lemma handles_outside {A} P (f : E -> (apiError + A) * E) : handles P (outside f) (fun a db => P db).
Proof. eapply proves_conseq; [apply outside_spec|done|]. by intros r db _ [Hp _] a _. Qed.

Lemma handles_outside_result {A} P (f : E -> result A * E) e :
  handles P (outside_result f e) (fun a db => P db /\ exists e, (f e).1 = Ok a).
Proof.
  unfold handles, outside_result. apply (proves_bind _ (outside_spec P f)). intros [a|err].
  - eapply proves_conseq; [apply (handles_answer a (fun a db => P db /\ exists e, (f e).1 = Ok a))|done|done].
  - apply handles_reject.
Qed.

Lemma handles_post {A} P (m : M (E:=E) (apiError + A)) Q' Q :
  handles P m Q' -> (forall a db, p_inv api db -> Q' a db -> Q a db) -> handles P m Q.
Proof. intros Hm HQ. eapply proves_conseq; [exact Hm|done|]. intros r db Hi Hr a Ha. apply HQ; [done|by apply Hr]. Qed.

Lemma handles_pre {A} P P' (m : M (E:=E) (apiError + A)) Q :
  handles P' m Q -> (forall db, p_inv api db -> P db -> P' db) -> handles P m Q.
Proof. intros Hm HP'. by eapply proves_conseq; [exact Hm|exact HP'|]. Qed.

Lemma handles_pure {A} (phi : Prop) P (m : M (E:=E) (apiError + A)) Q :
  (phi -> handles P m Q) -> handles (fun db => P db /\ phi) m Q.
Proof. intros Hm. by apply proves_pure. Qed.

Lemma handles_now {A} P (k : Z -> M (E:=E) (apiError + A)) Q :
  (forall now, reading (E:=E) now -> handles P (k now) Q) -> handles P (now ← time_Now; k now) Q.
Proof. intros Hk. apply (proves_bind _ (proves_now _ P)). intros now. apply proves_pure. intros Hr. by apply Hk. Qed.

(** *** The runtime and the tasks *)

Lemma settle_tasks_keeps P rid ts : stable api P -> forall errs, proves P (settle_tasks store rid ts errs) (fun _ => P).
Proof.
  intros Hst. induction ts as [|t ts IH]; intros errs; cbn [settle_tasks].
  - apply (proves_ret _ errs (fun _ => P)).
  - destruct (settled (t_State t)); [apply IH|]. apply (proves_bind _ (proves_now _ P)). intros now. apply proves_pure. intros _.
    apply (proves_bind (fun _ => P)).
    + intros w r w' Hr Hw Hi Hp. unfold try in Hr.
      destruct (UpdateState _ _ _ _ _ _ _ w) as [r1 w1] eqn:Eu. injection Hr as <- <-.
      destruct (update_task_keeps store _ Hothers P rid _ _ _ _ _ Hst w r1 w1 Eu Hw Hi Hp) as (Hw1 & Hs & _).
      split; [done|]. split; [done|]. intros _ _. by apply (stable_steps api P (w_db w)).
    + intros [[e|msg c|]|u]; [apply IH|apply IH|apply proves_fail|apply IH].
Qed.

Lemma settleOwnedTasks_keeps P rid id : stable api P -> proves P (settleOwnedTasks store rid id) (fun _ => P).
Proof.
  intros Hst. unfold settleOwnedTasks, ListBySession. apply (proves_bind (fun _ => P)).
  - do 2 (apply (proves_bind (fun _ => P)); [apply proves_check|]; intros ?). by apply proves_read.
  - intros ts. by apply settle_tasks_keeps.
Qed.

(** The registry has released the streams of the session. *)
Definition disconnected (id : string) : Prop := exists e, (registry_Disconnect (registry handler) id e).1 = Ok tt.

Lemma disconnectRuntime_spec P rid id :
  stable api P -> handles P (disconnectRuntime store handler rid id) (fun _ db => P db /\ disconnected id).
Proof.
  intros Hst. unfold disconnectRuntime. apply (handles_bind _ _ _ _ _ (handles_outside_result P _ _)). intros []. apply handles_pure.
  intros Hd. apply (handles_bind _ _ _ _ _ (handles_or_reject _ _ _ _ (settleOwnedTasks_keeps P rid id Hst))). intros errs.
  apply (handles_post _ _ _ _ (handles_guard P _ _)). by intros a db _ [Hp _].
Qed.
(** *** Sessions that were loaded *)

Lemma read_weaken P id s db : read_from (maxLifetime handler) P id s db -> read_from (maxLifetime handler) (fun _ => True) id s db.
Proof. intros (db0 & row & _ & Hrest). by exists db0, row. Qed.

Lemma read_id P id s db : read_from (maxLifetime handler) P id s db -> s_ID s = id.
Proof. intros (db0 & row & _ & _ & Hid & Hd & _). apply sessionFromRow_fields in Hd as [(-> & _) _]. exact Hid. Qed.

(** Reading it again gives a session of the same owner. *)
Lemma reread_owner id s s' db :
  read_from (maxLifetime handler) (read_from (maxLifetime handler) (fun _ => True) id s) id s' db -> same_owner s s'.
Proof.
  intros (db0 & row' & (db1 & row & _ & _ & Hid & Hd & Hsince) & Hrow' & Hid' & Hd' & _).
  destruct Hsince as (row2 & Hrow2 & Hs). rewrite Hid in Hrow2. assert (row2 = row') as -> by congruence.
  destruct (steps_history _ _ _ Hs) as [Ho _]. apply sessionFromRow_fields in Hd as [Hds _], Hd' as [Hds' _].
  destruct Ho as (? & ? & ? & ? & ? & ?), Hds as (? & ? & ? & ? & ? & ?), Hds' as (? & ? & ? & ? & ? & ?). repeat split; congruence.
Qed.

Lemma owned_same s s' identity namespace : same_owner s s' -> ownedBy s' identity namespace = ownedBy s identity namespace.
Proof. intros (_ & Hi & Hd & _ & Hn & _). unfold ownedBy. by rewrite Hi, Hd, Hn. Qed.

Definition loaded (identity : Identity) (namespace id : string) (s : Session) (db : Database) : Prop :=
  ownedBy s identity namespace = true /\ read_from (maxLifetime handler) (fun _ => True) id s db.

Lemma loaded_stable identity namespace id s : stable api (loaded identity namespace id s).
Proof. intros db db' Hi Hs [Ho Hr]. split; [done|]. exact (read_stable _ Hothers _ _ _ db db' Hi Hs Hr). Qed.

Lemma true_stable : stable api (fun _ => True).
Proof. done. Qed.

Lemma session_generation_nonneg P id s db : read_from (maxLifetime handler) P id s db -> 0 <= s_Generation s.
Proof.
  intros (_ & row & _ & _ & _ & Hd & _). apply sessionFromRow_fields in Hd as (_ & _ & -> & _). unfold uint64.
  by apply Z.mod_pos_bound.
Qed.

Lemma expire_session_spec identity namespace id s now :
  handles (loaded identity namespace id s) (expire_session s now) (loaded identity namespace id).
Proof.
  apply (handles_pre _ (fun db => loaded identity namespace id s db /\ (s_ID s = id /\ 0 <= s_Generation s))).
  2: { intros db _ [Ho Hr]. split; [by split|]. split; [exact (read_id _ _ _ _ Hr)|exact (session_generation_nonneg _ _ _ _ Hr)]. }
  apply handles_pure. intros [Hid Hg].
  assert (Hagain : handles (loaded identity namespace id s) (or_reject mapStorageError (Session_GetByID (s_ID s)))
                     (loaded identity namespace id)).
  { rewrite Hid. eapply handles_post; [apply handles_or_reject, (get_session _ Hothers), loaded_stable|].
    intros s' db _ [_ Hr']. assert (Hso : same_owner s s').
    { apply (reread_owner id s s' db). destruct Hr' as (db0 & row & [_ Hp] & Hrest). by exists db0, row. }
    assert (Hos : ownedBy s identity namespace = true) by (by destruct Hr' as (? & ? & [? _] & _)).
    split; [by rewrite (owned_same _ _ _ _ Hso)|by apply read_weaken in Hr']. }
  unfold handles, expire_session. rewrite Hid at 1.
  apply (proves_bind (fun _ => loaded identity namespace id s)).
  - intros w r w' Hr Hw Hi Hl. unfold try in Hr. destruct (Session_UpdateState _ _ _ _ w) as [r1 w1] eqn:Eu. injection Hr as <- <-.
    destruct (close_session _ Hothers _ id (s_Generation s) "expired" now (loaded_stable identity namespace id s)
      (or_intror eq_refl) eq_refl Hg w r1 w1 Eu Hw Hi Hl) as (Hw1 & Hs & _).
    split; [done|]. split; [done|]. intros _ _. by apply (stable_steps api _ (w_db w)); [apply loaded_stable|..].
  - intros [[e|msg c|]|u]; [|apply handles_reject|apply proves_fail|apply Hagain].
    destruct (storage_Is _ _); [apply Hagain|apply handles_reject].
Qed.

Lemma loadOwned_spec rid identity namespace id :
  handles (fun _ => True) (loadOwned store handler rid identity namespace id)
    (fun s db => loaded identity namespace id s db /\ (s_State s <> sessionStateActive -> disconnected id)).
Proof.
  unfold loadOwned. eapply handles_bind; [apply handles_guard|]. intros ?. apply (handles_pre _ (fun _ => True)); [|done].
  eapply handles_bind; [apply handles_or_reject, (get_session _ Hothers), true_stable|]. intros s.
  eapply handles_bind; [apply handles_guard|]. intros ?.
  apply (handles_pre _ (loaded identity namespace id s)).
  2: { intros db _ [[_ Hr] Ho]. by split. }
  apply handles_now. intros now _.
  apply (handles_bind _ _ _ (loaded identity namespace id)).
  - destruct (_ && _); [apply expire_session_spec|apply handles_answer].
  - intros s'. apply (handles_bind _ _ _ (fun _ db => loaded identity namespace id s' db /\
      (s_State s' <> sessionStateActive -> disconnected id))).
    + destruct (bool_decide_reflect (s_State s' = sessionStateActive)) as [Ha|Hna]; cbn [negb].
      * eapply handles_pre; [apply (handles_answer tt (fun _ db => loaded identity namespace id s' db /\
          (s_State s' <> sessionStateActive -> disconnected id)))|]. intros db _ Hl. by split.
      * intros w r w' Hr Hw Hi Hl. rewrite (read_id _ _ _ _ (proj2 Hl)) in Hr.
        destruct (disconnectRuntime_spec _ rid id (loaded_stable identity namespace id s') w r w' Hr Hw Hi Hl)
          as (Hw' & Hs & HQ). split; [done|]. split; [done|]. intros x Hx x' Hx'. destruct (HQ x Hx x' Hx') as [Hl' Hd]. by split.
    + intros _. apply (handles_answer s' (fun s db => loaded identity namespace id s db /\
        (s_State s <> sessionStateActive -> disconnected id))).
Qed.

Lemma RequireActive_spec rid identity namespace id :
  handles (fun _ => True) (RequireActive store handler rid identity namespace id)
    (fun a db => exists s now e, loaded identity namespace id s db /\ s_State s = sessionStateActive /\ reading (E:=E) now /\
       now < s_ExpiresAt s /\ (registry_Ensure (registry handler) (s_ID s) e).1 = Ok tt /\
       a = mkActiveSession (s_ID s) (s_Namespace s) (s_Generation s) (s_ExpiresAt s) (s_NetworkSpecHash s)).
Proof.
  unfold RequireActive. eapply handles_bind; [apply loadOwned_spec|]. intros s. apply handles_now. intros now Hnow.
  eapply handles_bind; [apply handles_guard|]. intros ?. apply handles_pure. intros [Hact Hexp]%andb_true_iff.
  apply bool_decide_eq_true in Hact. eapply handles_bind; [apply handles_guard|]. intros ?. apply handles_pure. intros _.
  eapply handles_bind; [apply handles_outside_result|]. intros []. apply handles_pure. intros [e He].
  eapply handles_pre; [apply handles_answer|]. intros db _ [Hl _]. exists s, now, e. do 3 (split; [done|]).
  split; [unfold After in Hexp; by apply Z.ltb_lt|]. done.
Qed.

(** What [RequireActive] returns is what the row of that session was at some
    time before the end; the row belongs to the identity, the device and the
    namespace; the session was active and had not expired at a reading of the
    clock; and the registry accepts its streams. *)
Theorem require_active (rid : string) (identity : Identity) (namespace id : string) (w w' : World E) (a : ActiveSession)
    (Hw : w_tx w = false) (Hok : api_inv (w_db w))
    (Hrun : RequireActive store handler rid identity namespace id w = (inr (inr a), w')) :
  exists row row' now e, rtc (api_step (maxLifetime handler)) (w_db w) (w_db w') /\
    sessions (w_db w') !! id = Some row' /\ rtc (session_step (maxLifetime handler)) row row' /\
    s_IdentityID row' = Subject identity /\ s_DeviceID row' = DeviceID identity /\ s_Namespace row' = namespace /\
    s_State row = "active" /\ reading (E:=E) now /\ now < s_ExpiresAt row /\
    a = mkActiveSession id namespace (uint64 (s_Generation row)) (s_ExpiresAt row) (s_NetworkSpecHash row) /\
    (registry_Ensure (registry handler) id e).1 = Ok tt.
Proof.
  destruct (RequireActive_spec rid identity namespace id w _ w' Hrun Hw Hok I) as (_ & Hs & HQ). destruct (HQ _ eq_refl _ eq_refl) as
    (s & now & e & [Ho Hread] & Hact & Hnow & Hexp & He & ->).
  pose proof (read_id _ _ _ _ Hread) as Hid. destruct Hread as (db0 & row & _ & Hrow & Hrid & Hd & row' & Hrow' & Hst).
  apply sessionFromRow_fields in Hd as ((_ & Hi & Hdev & _ & Hn & _) & Hstate & Hg & _ & Hex & Hh).
  destruct (steps_history _ _ _ Hst) as [(_ & Hi' & Hdev' & _ & Hn' & _) _].
  unfold ownedBy in Ho. bool_hyps. exists row, row', now, e. rewrite Hid in He. rewrite Hrid in Hrow'. rewrite Hid.
  repeat (split; [done || congruence|]). split; [unfold sessionStateActive in Hact; congruence|]. split; [done|]. split; [lia|].
  split; [|done]. congruence.
Qed.
(** *** Documents *)

Definition shows (s : Session) (d : Document) : Prop :=
  d_ID d = s_ID s /\ d_Namespace d = s_Namespace s /\ d_State d = s_State s /\ d_Generation d = s_Generation s /\
  d_ExpiresAt d = s_ExpiresAt s.

Lemma document_spec P s : proves P (documentFromSession s) (fun d db => P db /\ shows s d).
Proof.
  unfold documentFromSession. apply (proves_bind (fun _ => P)); [apply proves_value|]. intros spec.
  eapply proves_conseq; [apply (proves_ret _ _ (fun d db => P db /\ shows s d))|by split|done].
Qed.

Lemma document_capabilities_spec P s c : proves P (documentWithCapabilities s c) (fun d db => P db /\ shows s d).
Proof.
  unfold documentWithCapabilities. apply (proves_bind _ (document_spec P s)). intros d. apply proves_pure. intros Hd.
  eapply proves_conseq; [apply (proves_ret _ _ (fun d db => P db /\ shows s d))|by split|done].
Qed.

Lemma write_session_spec P s :
  handles P (write_session s) (fun rep db => P db /\ exists d, rep = WroteDocument (B := B) 200 (etag (s_Generation s)) false None d /\ shows s d).
Proof.
  unfold handles, write_session. apply (proves_bind _ (document_spec P s)). intros d. apply proves_pure. intros Hd.
  unfold writeDocument, answer. eapply proves_conseq; [apply proves_ret| |intros a db _ Hq; exact Hq].
  cbn beta. intros db _ Hp rep [= <-]. split; [done|]. exists d. split; [|done]. f_equal. f_equal. by destruct Hd as (_ & _ & _ & -> & _).
Qed.

Lemma parse_digits_nonneg l : forall n g, 0 <= n -> parse_digits l n = Some g -> 0 <= g.
Proof.
  induction l as [|b l IH]; intros n g Hn; cbn [parse_digits]; [by intros [= <-]|].
  unfold is_digit, byte_in. destruct (Z.leb_spec (Z_of_byte x30) (Z_of_byte b)) as [Hb|]; [|done].
  destruct (_ <=? _); [|done]. cbn [andb]. change (Z_of_byte x30) with 48 in Hb. destruct (2 ^ 64 <=? _); [done|]. apply IH. lia.
Qed.

Lemma expectedGeneration_pos values g : expectedGeneration values = inr g -> 0 < g.
Proof.
  unfold expectedGeneration. destruct values as [|v [|? ?]]; [done| |done]. destruct (unquote _) as [digits|]; [|done].
  destruct (ParseUint digits) as [g'|] eqn:Ep; [|done]. destruct (Z.eqb_spec g' 0); [done|]. intros [= <-].
  assert (0 <= g'); [|lia]. unfold ParseUint in Ep. destruct digits; [done|]. by apply (parse_digits_nonneg _ 0 g' ltac:(lia)) in Ep.
Qed.

(** *** Disconnecting *)

Lemma loaded_closed identity namespace id s db : loaded identity namespace id s db -> closed (s_State s) -> closed_row id db.
Proof.
  intros [_ (db0 & row & _ & _ & Hid & Hd & row' & Hrow' & Hs)] Hc. apply sessionFromRow_fields in Hd as (_ & Hst & _).
  exists row'. rewrite <- Hid. split; [done|]. destruct (steps_history _ _ _ Hs) as (_ & _ & H'). apply H'. by rewrite <- Hst.
Qed.

Lemma read_closed id s db : read_from (maxLifetime handler) (closed_row id) id s db -> closed (s_State s).
Proof.
  intros (db0 & row & (row' & Hrow' & Hc) & Hrow & _ & Hd & _). apply sessionFromRow_fields in Hd as (_ & -> & _). congruence.
Qed.

Lemma disconnectRuntime_loaded P rid s id :
  stable api P -> s_ID s = id -> handles P (disconnectRuntime store handler rid (s_ID s)) (fun _ db => P db /\ disconnected id).
Proof. intros Hst ->. by apply disconnectRuntime_spec. Qed.

Definition closed_reply (id : string) (rep : reply B) : Prop :=
  exists etag d, rep = WroteDocument 200 etag false None d /\ d_ID d = id /\ closed (d_State d).

Lemma disconnect_spec rid identity namespace id ifMatch :
  handles (fun _ => True) (disconnect store handler rid identity namespace id ifMatch)
    (fun rep db => closed_row id db /\ disconnected id /\ closed_reply id rep).
Proof.
  unfold disconnect. eapply handles_bind; [apply handles_value|]. intros g. apply handles_pure. intros Hg%expectedGeneration_pos.
  eapply handles_bind; [apply loadOwned_spec|]. intros s.
  apply (handles_pre _ (fun db => loaded identity namespace id s db /\ s_ID s = id)).
  2: { intros db _ [Hl _]. split; [done|]. exact (read_id _ _ _ _ (proj2 Hl)). }
  apply handles_pure. intros Hid. destruct (_ || _) eqn:Est.
  - assert (Hc : closed (s_State s)) by (apply orb_true_iff in Est as [?%bool_decide_eq_true|?%bool_decide_eq_true]; [by left|by right]).
    eapply handles_bind; [apply (disconnectRuntime_loaded _ rid s id); [apply loaded_stable|done]|]. intros []. apply handles_pure. intros Hd.
    eapply handles_post; [apply write_session_spec|]. intros rep db _ (Hl & d & -> & Hdid & _ & Hdst & _).
    split; [by apply (loaded_closed identity namespace id s)|]. split; [done|]. eexists _, d. split; [done|].
    split; [congruence|by rewrite Hdst].
  - apply handles_now. intros now _. rewrite Hid.
    apply (handles_bind _ _ _ (fun _ => closed_row id)).
    { apply handles_or_reject. apply close_session; [apply loaded_stable|by left|by vm_compute|lia]. }
    intros []. eapply handles_bind; [apply disconnectRuntime_spec, closed_stable|]. intros []. apply handles_pure. intros Hd.
    eapply handles_bind; [apply handles_or_reject, (get_session _ Hothers), closed_stable|]. intros s'.
    eapply handles_post; [apply write_session_spec|]. intros rep db _ ((Hc & Hr) & d & -> & Hdid & _ & Hdst & _).
    split; [done|]. split; [done|]. eexists _, d. split; [done|]. split; [by rewrite Hdid, (read_id _ _ _ _ Hr)|].
    rewrite Hdst. by apply (read_closed id s' db).
Qed.

(** When [disconnect] answers, the runtime registry has released the
    streams of the session, the answer shows the session closed, and it stays
    closed, with the same owner, however the tables change afterwards. *)
Theorem disconnect_closes (rid : string) (identity : Identity) (namespace id : string) (ifMatch : list string)
    (w w' : World E) (rep : reply B) (Hw : w_tx w = false) (Hok : api_inv (w_db w))
    (Hrun : disconnect store handler rid identity namespace id ifMatch w = (inr (inr rep), w')) :
  closed_reply id rep /\ disconnected id /\
  exists row, sessions (w_db w') !! id = Some row /\ closed (s_State row) /\
  forall db, rtc (api_step (maxLifetime handler)) (w_db w') db ->
    exists row', sessions db !! id = Some row' /\ closed (s_State row') /\ same_owner row row'.
Proof.
  destruct (disconnect_spec rid identity namespace id ifMatch w _ w' Hrun Hw Hok I) as (_ & Hs & HQ).
  destruct (HQ _ eq_refl _ eq_refl) as ((row & Hrow & Hc) & Hd & Hrep). split; [done|]. split; [done|]. exists row.
  split; [done|]. split; [done|]. intros db Hdb.
  destruct (steps_row _ _ _ id row Hdb (proj2 (steps_inv api _ _ Hs Hok)) Hrow) as (row' & Hrow' & Ho & _ & Hcl).
  exists row'. split; [done|]. split; [by apply Hcl|done].
Qed.
(** *** The other handlers *)

Definition any {A} : A -> Database -> Prop := fun _ _ => True.

Lemma handles_any {A} P (m : M (E:=E) (apiError + A)) Q : handles P m Q -> handles P m any.
Proof. intros Hm. by eapply handles_post; [exact Hm|]. Qed.

Lemma canonical_networks_spec P spec : handles P (canonical_networks spec) (fun _ => P).
Proof.
  unfold canonical_networks. eapply handles_bind; [apply handles_or_reject, (proves_value _ P)|]. intros j.
  eapply handles_bind; [apply handles_or_reject, (proves_value _ P)|]. intros h. apply (handles_answer (j, h) (fun _ => P)).
Qed.

(** The tail of a handler: a session is read and shown. *)
Lemma show_any P id : stable api P ->
  handles P (api_bind (or_reject mapStorageError (Session_GetByID id)) write_session) (any (A := reply B)).
Proof.
  intros Hst. eapply handles_bind; [apply handles_or_reject, (get_session _ Hothers), Hst|]. intros s.
  eapply handles_any, write_session_spec.
Qed.

Lemma get_any rid identity namespace id : handles (fun _ => True) (get store handler rid identity namespace id) any.
Proof.
  unfold get. eapply handles_bind; [apply loadOwned_spec|]. intros s. eapply handles_any, write_session_spec.
Qed.

Lemma revoked_any rid identity namespace id s g now :
  0 < g -> handles (loaded identity namespace id s) (revoked store handler rid s g now) any.
Proof.
  intros Hg. unfold revoked. apply (handles_bind _ _ _ any).
  { eapply handles_any, handles_or_reject, (close_session _ Hothers _ (s_ID s)); [apply loaded_stable|by left|by vm_compute|lia]. }
  intros []. apply (handles_pre _ (fun _ => True)); [|done].
  eapply handles_bind; [apply disconnectRuntime_spec, true_stable|]. intros []. apply handles_reject.
Qed.

Lemma heartbeat_any rid identity namespace id ifMatch :
  handles (fun _ => True) (heartbeat store handler rid identity namespace id ifMatch) any.
Proof.
  unfold heartbeat. eapply handles_bind; [apply handles_value|]. intros g. apply handles_pure. intros Hg%expectedGeneration_pos.
  eapply handles_bind; [apply loadOwned_spec|]. intros s. apply (handles_pre _ (loaded identity namespace id s)); [|by intros db _ [? _]].
  apply handles_now. intros now _. eapply handles_bind; [apply handles_guard|]. intros []. apply handles_pure. intros _.
  eapply handles_bind; [apply handles_outside|]. intros current. destruct (negb _); [by apply revoked_any|].
  eapply handles_bind; [apply handles_guard|]. intros []. apply handles_pure. intros _.
  eapply handles_bind; [apply handles_outside_result|]. intros spec. apply handles_pure. intros _.
  eapply handles_bind; [apply canonical_networks_spec|]. intros [j h].
  apply (handles_bind _ _ _ any); [|intros []; by apply (show_any (fun _ => True))].
  eapply handles_pre; [apply proves_exists; intros row|intros db _ [_ (db0 & row & Hr)]; exact (ex_intro _ row (conj (ex_intro _ db0 Hr) I))].
  cbn beta. apply (handles_pre _ (fun db => since (maxLifetime handler) row db /\ (s_ID row = s_ID s /\ s_CreatedAt row = s_CreatedAt s))).
  2: { intros db _ [(db0 & _ & _ & _ & Hd & Hsince) _]. apply sessionFromRow_fields in Hd as [(? & _ & _ & _ & _ & ?) _]. by split. }
  apply handles_pure. intros [Hid Hcreated]. apply handles_or_reject.
  apply (beat_session _ Hothers _ row); [apply since_stable|done|done|lia|]. rewrite Hcreated.
  destruct (Before _ _) eqn:Eb; [lia|]. unfold Before in Eb. lia.
Qed.

Lemma sync_any rid identity namespace id : handles (fun _ => True) (syncTrafficBindings store handler rid identity namespace id) any.
Proof.
  unfold syncTrafficBindings. eapply handles_bind; [apply loadOwned_spec|]. intros s. apply (handles_bind _ _ _ any).
  - destruct (trafficBindings handler); [eapply handles_any, handles_outside_result|]. by eapply handles_pre; [apply (handles_answer tt any)|].
  - intros []. eapply handles_any, write_session_spec.
Qed.

Lemma list_any rid identity namespace id : handles (fun _ => True) (listTrafficBindings store handler rid identity namespace id) any.
Proof.
  unfold listTrafficBindings. eapply handles_bind; [apply loadOwned_spec|]. intros s. destruct (trafficBindingLister handler); [|apply handles_reject].
  eapply handles_bind; [apply handles_outside_result|]. intros items. by eapply handles_pre; [apply (handles_answer _ any)|].
Qed.

Lemma delete_any rid identity namespace id task :
  handles (fun _ => True) (deleteTrafficBinding store handler rid identity namespace id task) any.
Proof.
  unfold deleteTrafficBinding. eapply handles_bind; [apply loadOwned_spec|]. intros s. destruct (trafficBindingDeleter handler); [|apply handles_reject].
  apply (proves_bind _ (outside_spec _ _)). intros [| |]; [|apply handles_reject..]. by eapply handles_pre; [apply (handles_answer _ any)|].
Qed.

(** *** Creating *)

Lemma keeps_Session_Create s : keeps_tx (E:=E) (Session_Create s).
Proof.
  unfold Session_Create, normalizeSession. cbn zeta. apply keeps_bind; [|auto with kube].
  repeat (apply keeps_bind; [auto with kube|]; intros ?). auto with kube.
Qed.

Lemma Reserve_sessions r w x w' :
  w_tx w = true -> Idempotency_Reserve r w = (inr x, w') ->
  w_tx w' = true /\ exists i, w_db w' = set_idempotency (w_db w) i.
Proof.
  intros Ht Hr. unfold Idempotency_Reserve in Hr. apply bind_inr in Hr as (r1 & w1 & [_ ->]%lift_inr & Hr).
  apply bind_inr in Hr as (count & w2 & Hs & Hr). destruct (statement_tx _ _ _ _ _ Ht Hs) as [Hf Ht2].
  assert (Hdb : exists i, w_db w2 = set_idempotency (w_db w) i).
  { unfold insert_idempotency in Hf. destruct (idempotency_records (w_db w) !! _) as [old|]; injection Hf as _ <-; [|by eexists].
    exists (idempotency_records (w_db w)). by destruct (w_db w). }
  destruct (_ =? 1); [by apply mret_inr in Hr as [_ ->]|]. apply bind_inr in Hr as (ex & w3 & Hg & Hr).
  unfold Idempotency_Get in Hg. cbn zeta in Hg. apply bind_inr in Hg as (u & w4 & [_ ->]%lift_inr & Hg).
  apply bind_inr in Hg as (row & w5 & Hrow & Hg). destruct (statement_read_tx _ _ _ _ _ Ht2 Hrow) as (_ & Hdb5 & Ht5).
  destruct row as [row|]; [|discriminate Hg]. apply mret_inr in Hg as [_ ->].
  destruct (bool_decide _); [|discriminate Hr]. apply mret_inr in Hr as [_ ->]. by rewrite Hdb5.
Qed.

Lemma normalizeSession_inr s w s' w' :
  normalizeSession (E:=E) s w = (inr s', w') ->
  w' = w /\ s_ID s' = s_ID s /\ s_State s' = TrimSpace (s_State s) /\ s_Generation s' = (if s_Generation s =? 0 then 1 else s_Generation s) /\
  s_CreatedAt s' = s_CreatedAt s /\ s_ExpiresAt s' = s_ExpiresAt s /\ s_CreatedAt s < s_ExpiresAt s.
Proof.
  unfold normalizeSession. cbn zeta. intros Hn. apply bind_inr in Hn as (u1 & w1 & [_ ->]%lift_inr & Hn).
  apply bind_inr in Hn as (u2 & w2 & [_ ->]%lift_inr & Hn). apply bind_inr in Hn as (u3 & w3 & [_ ->]%lift_inr & Hn).
  apply bind_inr in Hn as (u4 & w4 & [_ ->]%lift_inr & Hn). apply bind_inr in Hn as (sp & w5 & H5 & Hn). unfold of_sum in H5. injection H5 as _ <-.
  apply bind_inr in Hn as (c & w6 & H6 & Hn). unfold of_sum in H6. injection H6 as _ <-.
  apply bind_inr in Hn as (h & w7 & H7 & Hn). unfold of_sum in H7. injection H7 as _ <-.
  apply bind_inr in Hn as (u8 & w8 & [_ ->]%lift_inr & Hn). apply bind_inr in Hn as (u9 & w9 & [H9 ->]%lift_inr & Hn).
  apply mret_inr in Hn as [-> ->]. cbn. unfold require in H9. destruct (IsZero (s_CreatedAt s) || IsZero (s_ExpiresAt s) || negb _) eqn:Ex; [done|].
  bool_hyps. unfold After in *. repeat (split; [done|]). lia.
Qed.

Lemma Session_Create_tx s w w' :
  w_tx w = true -> Session_Create s w = (inr tt, w') ->
  w_tx w' = true /\ exists row, sessions (w_db w) !! s_ID s = None /\ s_ID row = s_ID s /\
  w_db w' = set_sessions (w_db w) (<[s_ID s := row]> (sessions (w_db w))) /\ s_State row = TrimSpace (s_State s) /\
  s_Generation row = int64 (if s_Generation s =? 0 then 1 else s_Generation s) /\ s_CreatedAt row = s_CreatedAt s /\
  s_ExpiresAt row = s_ExpiresAt s /\ s_CreatedAt s < s_ExpiresAt s.
Proof.
  unfold Session_Create. intros Ht (s' & w1 & (-> & Hid & Hst & Hg & Hc & He & Hce)%normalizeSession_inr & Hs)%bind_inr.
  destruct (statement_tx _ _ _ _ _ Ht Hs) as [Hf Ht']. split; [done|]. unfold insert_session in Hf. cbn [s_ID rowFromSession] in Hf. rewrite Hid in Hf.
  destruct (bool_decide_reflect (is_Some (sessions (w_db w) !! s_ID s))) as [|Hnone]; [done|]. cbn [orb] in Hf.
  destruct (_ || _ || _); [done|]. injection Hf as <-. eexists. split; [by apply eq_None_not_Some|].
  split; [|split; [reflexivity|]]; cbn; [done|]. by rewrite Hst, Hg, Hc, He.
Qed.

(** A session the callback works with: the one to create, or one that exists. *)
Definition create_inv (fresh : Session) (c : created_session) (db : Database) : Prop :=
  cs_session c = fresh \/ is_Some (sessions db !! s_ID (cs_session c)).

Lemma create_inv_stable fresh c : stable api (create_inv fresh c).
Proof.
  intros db db' [_ Hk] Hs [Hf|[row Hrow]]; [by left|right].
  destruct (steps_row _ db db' _ row (rtc_once _ _ Hs) Hk Hrow) as (row' & Hrow' & _). by exists row'.
Qed.

Lemma create_or_load_spec identity namespace key response now fresh c w :
  ownedBy fresh identity namespace = true -> s_State fresh = sessionStateActive -> s_Generation fresh = 1 ->
  s_ExpiresAt fresh <= s_CreatedAt fresh + maxLifetime handler ->
  w_tx w = true -> api_inv (w_db w) -> create_inv fresh c (w_db w) ->
  w_tx (create_or_load handler identity namespace key response now c w).2 = true /\
  create_inv fresh (create_or_load handler identity namespace key response now c w).1.2 (w_db w) /\
  ((create_or_load handler identity namespace key response now c w).1.1 = None ->
     let c' := (create_or_load handler identity namespace key response now c w).1.2 in
     let db' := w_db (create_or_load handler identity namespace key response now c w).2 in
     rtc (api_step (maxLifetime handler)) (w_db w) db' /\
     (ownedBy (cs_session c') identity namespace = true /\ is_Some (sessions db' !! s_ID (cs_session c'))) /\
     create_inv fresh c' db').
Proof.
  intros Hown Hact Hgen Hexp Ht [Htr Hk] Hc. unfold create_or_load.
  pose proof (keeps_Reserve (mkIdempotencyRecord (create_scope identity) key (create_hash namespace) "session"
          (s_ID (cs_session c)) response now (now + maxLifetime handler)) w) as Ht1.
  destruct (Idempotency_Reserve _ w) as [[e|[record reserved]] w1] eqn:Er; cbn [snd] in Ht1; rewrite Ht in Ht1; [done|].
  destruct (Reserve_sessions _ _ _ _ Ht Er) as (_ & i & Hdb1).
  assert (Hs1 : api_step (maxLifetime handler) (w_db w) (w_db w1)).
  { rewrite Hdb1. split; [apply change_idempotency|by apply sessions_same]. }
  destruct reserved; cbn [negb].
  - pose proof (keeps_Session_Create (cs_session c) w1) as Ht2.
    destruct (Session_Create (cs_session c) w1) as [[e|[]] w2] eqn:Ec; cbn [snd fst] in *; rewrite Ht1 in Ht2; [done|].
    destruct (Session_Create_tx _ _ _ Ht1 Ec) as (_ & row & Hnone & Hid & Hdb2 & Hst & Hg & Hcr & Hex & Hfut).
    assert (Hsess : sessions (w_db w1) = sessions (w_db w)) by (by rewrite Hdb1).
    assert (Hfresh : cs_session c = fresh).
    { destruct Hc as [Hc|[r Hr]]; [done|]. rewrite Hsess in Hnone. congruence. }
    split; [done|]. split; [by left|]. intros _. cbn [cs_session]. split; [|split; [split|]].
    + eapply rtc_l; [exact Hs1|]. apply rtc_once. split; [rewrite Hdb2; apply change_sessions|].
      apply (sessions_created _ _ _ row); [by rewrite Hid| |by rewrite Hdb2, Hid]. rewrite Hfresh, Hact in Hst. rewrite Hfresh, Hgen in Hg.
      rewrite Hfresh in *. split; [by rewrite Hst; vm_compute|]. split; [by rewrite Hg; vm_compute|]. lia.
    + by rewrite Hfresh.
    + rewrite Hdb2. cbn [sessions set_sessions]. rewrite lookup_insert_eq. by eexists.
    + by left.
  - destruct (negb _); [done|]. pose proof (keeps_Session_GetByID (i_ResourceID record) w1) as Ht2.
    destruct (Session_GetByID (i_ResourceID record) w1) as [[e|existing] w2] eqn:Eg; cbn [snd] in Ht2; rewrite Ht1 in Ht2; [done|].
    destruct (ownedBy existing identity namespace) eqn:Eo; [|done].
    destruct (Session_GetByID_tx _ _ _ _ Ht1 Eg) as [Hdb2 _].
    assert (Hex : is_Some (sessions (w_db w1) !! s_ID existing)).
    { unfold Session_GetByID in Eg. apply bind_inr in Eg as (u & w3 & [_ ->]%lift_inr & Eg). apply bind_inr in Eg as (row & w4 & Hs & Eg).
      destruct (statement_read_tx _ _ _ _ _ Ht1 Hs) as (-> & _ & _). destruct (sessions (w_db w1) !! i_ResourceID record) as [row|] eqn:El; [|done].
      unfold of_sum in Eg. injection Eg as Hd _. apply sessionFromRow_fields in Hd as [(-> & _) _].
      rewrite Hdb1 in El. cbn [sessions set_idempotency] in El. rewrite (Hk _ _ El), Hdb1. cbn [sessions set_idempotency]. rewrite El. by eexists. }
    cbn [fst snd cs_session]. split; [done|]. split; [right; by rewrite Hdb1 in Hex|]. intros _. rewrite Hdb2.
    split; [by apply rtc_once|]. split; [by split|]. by right.
Qed.

(** The answer shows a session of the identity and the namespace. *)
Definition created_reply (identity : Identity) (namespace : string) (rep : reply B) (db : Database) : Prop :=
  exists s created d, ownedBy s identity namespace = true /\ is_Some (sessions db !! s_ID s) /\ shows s d /\
  rep = WroteDocument (if created : bool then 201 else 200) (etag (d_Generation d)) (negb created)
          (Some (session_location namespace (s_ID s))) d.

Lemma create_spec identity namespace keys :
  handles (fun _ => True) (create store handler identity namespace keys) (created_reply identity namespace).
Proof.
  unfold create. eapply handles_bind; [apply handles_guard|]. intros []. apply handles_pure. intros _.
  eapply handles_bind; [apply handles_value|]. intros key. apply handles_pure. intros _. apply handles_now. intros now _.
  eapply handles_bind; [apply handles_outside|]. intros snapshot.
  eapply handles_bind; [apply handles_outside_result|]. intros spec. apply handles_pure. intros _.
  eapply handles_bind; [apply canonical_networks_spec|]. intros [j h].
  apply (proves_bind _ (proves_uuid _ _)). intros id. cbn zeta.
  match goal with |- context [documentWithCapabilities ?s snapshot] => set (fresh := s) end.
  assert (Hown : ownedBy fresh identity namespace = true) by (unfold ownedBy; cbn; by rewrite !bool_decide_eq_true_2).
  apply (proves_bind _ (document_capabilities_spec _ fresh snapshot)). intros d0. apply handles_pure. intros _.
  set (good := fun c db => ownedBy (cs_session c) identity namespace = true /\ is_Some (sessions db !! s_ID (cs_session c))).
  apply (proves_bind (fun r db => r.1 = None -> good r.2 db)).
  { apply (proves_run_transaction _ _ _ _ _ (create_inv fresh)); [intros c; apply create_inv_stable|by left|].
    intros c w Ht Hi Hc. destruct (create_or_load_spec identity namespace key (json_Marshal d0) now fresh c w) as (H1 & H2 & H3); try done.
    cbn. lia. }
  intros [[e|] c].
  { destruct e; [apply handles_reject|apply handles_reject|apply proves_fail]. }
  apply (handles_pre _ (good c)); [|intros db _ Hq; by apply Hq].
  eapply handles_bind; [apply handles_outside_result|]. intros []. apply handles_pure. intros _.
  apply (proves_bind _ (document_capabilities_spec _ _ _)). intros d. apply handles_pure. intros Hd.
  eapply handles_pre; [apply (handles_answer _ (created_reply identity namespace))|]. intros db _ [Ho Hs].
  exists (cs_session c), (cs_created c), d. done.
Qed.

(** ** Every endpoint *)

Lemma endpoint_spec (ValidNamespace : string -> bool) (e : endpoint) (request : HttpRequest) (identity : Identity) :
  handles (fun _ => True) (Endpoints store handler ValidNamespace e request identity) any.
Proof.
  assert (Hns : forall next, (forall identity namespace, handles (fun _ => True) (next identity namespace) any) ->
    handles (fun _ => True) (withNamespace ValidNamespace next request identity) (any (A := reply B))).
  { intros next Hnext. unfold withNamespace. eapply handles_bind; [apply handles_value|]. intros namespace. apply handles_pure. intros _.
    eapply handles_bind; [apply handles_value|]. intros []. apply handles_pure. intros _. apply Hnext. }
  destruct e; unfold Endpoints, withSession; apply Hns; intros identity' namespace.
  - eapply handles_any, create_spec.
  - apply get_any.
  - apply heartbeat_any.
  - apply sync_any.
  - apply list_any.
  - apply delete_any.
  - eapply handles_any, disconnect_spec.
Qed.

(** C2 (invariant). Whatever an endpoint answers and whatever fails, it changes the
    tables by steps of the protocol only: tasks by audited transitions, sessions
    by creations, heartbeats and closings.  Along any such steps a session that
    is stored keeps its owner, cluster and creation time, each change increases its
    generation, and once closed it stays closed. *)
Theorem session_history (ValidNamespace : string -> bool) (e : endpoint) (request : HttpRequest) (identity : Identity)
    (w w' : World E) (r : storage_error + (apiError + reply B)) (Hw : w_tx w = false) (Hok : api_inv (w_db w))
    (Hrun : Endpoints store handler ValidNamespace e request identity w = (r, w')) :
  w_tx w' = false /\ api_inv (w_db w') /\ rtc (api_step (maxLifetime handler)) (w_db w) (w_db w') /\
  forall id row, sessions (w_db w) !! id = Some row ->
    exists row', sessions (w_db w') !! id = Some row' /\ history_of row row'.
Proof.
  destruct (endpoint_spec ValidNamespace e request identity w r w' Hrun Hw Hok I) as (Hw' & Hs & _). split; [done|].
  split; [exact (steps_inv api _ _ Hs Hok)|]. split; [done|]. intros id row Hrow.
  by apply (steps_row _ _ _ id row Hs (proj2 Hok)).
Qed.
(** C34 (type). Every endpoint keeps the stored sessions well formed: each is stored
    under its identifier, active or closed, with a generation that fits its column,
    and expires at most the configured lifetime after its creation, however many
    heartbeats it has had. *)
Theorem session_rows_typed (ValidNamespace : string -> bool) (e : endpoint) (request : HttpRequest) (identity : Identity)
    (w w' : World E) (r : storage_error + (apiError + reply B)) (Hw : w_tx w = false) (Hok : api_inv (w_db w))
    (Htyped : sessions_typed (maxLifetime handler) (w_db w))
    (Hrun : Endpoints store handler ValidNamespace e request identity w = (r, w')) :
  sessions_typed (maxLifetime handler) (w_db w').
Proof.
  destruct (endpoint_spec ValidNamespace e request identity w r w' Hrun Hw Hok I) as (_ & Hs & _).
  clear Hrun Hok. induction Hs as [x|x y z [_ Hxy] _ IH]; [done|]. apply IH. by apply (sessions_change_typed _ x).
Qed.

(** When the creation of a session answers, the answer shows a
    stored session that belongs to the identity, the device and the namespace of
    the request, whether it was created or had been before. *)
Theorem create_answers (identity : Identity) (namespace : string) (keys : list string) (w w' : World E) (rep : reply B)
    (Hw : w_tx w = false) (Hok : api_inv (w_db w))
    (Hrun : create store handler identity namespace keys w = (inr (inr rep), w')) :
  created_reply identity namespace rep (w_db w') /\ rtc (api_step (maxLifetime handler)) (w_db w) (w_db w').
Proof.
  destruct (create_spec identity namespace keys w _ w' Hrun Hw Hok I) as (_ & Hs & HQ). split; [|done]. exact (HQ _ eq_refl _ eq_refl).
Qed.
End handlers.

(** ** Construction *)

(** A service that was built has lifetimes within the documented bounds. *)
Lemma New_lifetimes {E B} (newRegistry : RuntimeRegistry E) (config : Config E B) (handler : Service E B) :
  New newRegistry config = Ok handler ->
  30 * Second <= sessionTTL handler <= 30 * Minute /\ sessionTTL handler <= maxLifetime handler <= 24 * Hour.
Proof.
  unfold New. destruct (cfg_Networks config), (cfg_Capabilities config); [|done..]. cbn zeta. intros Hn.
  inv_ok. cbn [sessionTTL maxLifetime].
  repeat match goal with Hr : require _ _ = Ok _ |- _ => apply require_ok in Hr end. bool_hyps. lia.
Qed.

(** ** Generations in headers *)

(** The bytes of a decimal numeral. *)
Lemma numeral_digit (d : N) : (d < 10)%N ->
  exists b, string_to_bytes (String (pretty_N_char d) "") = [b] /\ is_digit b = true /\ Z_of_byte b - 48 = Z.of_N d.
Proof.
  intros Hd. assert (d = 0 \/ d = 1 \/ d = 2 \/ d = 3 \/ d = 4 \/ d = 5 \/ d = 6 \/ d = 7 \/ d = 8 \/ d = 9)%N as Hc by lia.
  repeat (destruct Hc as [->|Hc]; [eexists; by vm_compute|]). subst d. eexists. by vm_compute.
Qed.

Lemma parse_numeral (x : N) : forall s, (0 < x)%N -> Z.of_N x < 2 ^ 64 ->
  parse_digits (string_to_bytes (pretty_N_go x s)) 0 = parse_digits (string_to_bytes s) (Z.of_N x).
Proof.
  induction (N.lt_wf_0 x) as [x _ IH]; intros s Hx Hmax. rewrite pretty_N_go_step by done.
  pose proof (N.mod_lt x 10 ltac:(lia)) as Hmod. destruct (numeral_digit (x `mod` 10)%N Hmod) as (b & Hb & Hdig & Hval).
  assert (Hs : string_to_bytes (String (pretty_N_char (x `mod` 10)%N) s) = b :: string_to_bytes s) by (injection Hb as <-; reflexivity).
  assert (Hstep : forall n, Z.of_N x = 10 * n + Z.of_N (x `mod` 10)%N ->
    parse_digits (b :: string_to_bytes s) n = parse_digits (string_to_bytes s) (Z.of_N x)).
  { intros n Hn. cbn [parse_digits]. rewrite Hdig. cbn zeta. rewrite Hval, <- Hn. by destruct (Z.leb_spec (2 ^ 64) (Z.of_N x)); [lia|]. }
  pose proof (N.div_mod x 10 ltac:(lia)) as Hdm.
  destruct (decide (x `div` 10 = 0)%N) as [Hz|Hnz].
  - rewrite Hz, pretty_N_go_0, Hs. apply Hstep. rewrite Hz in Hdm. lia.
  - assert (0 < x `div` 10)%N by (by apply N.neq_0_lt_0). pose proof (N.div_lt x 10 Hx ltac:(lia)).
    rewrite IH, Hs; [apply Hstep|..]; lia.
Qed.

Lemma ParseUint_pretty (n : Z) : 0 < n < 2 ^ 64 -> ParseUint (string_to_bytes (pretty (Z.to_N n))) = Some n.
Proof.
  intros Hn. assert (Hp : pretty (Z.to_N n) = pretty_N_go (Z.to_N n) "").
  { unfold pretty, pretty_N. destruct (decide _); [lia|done]. }
  rewrite Hp. pose proof (parse_numeral (Z.to_N n) "" ltac:(lia) ltac:(lia)) as Hparse. rewrite Z2N.id in Hparse by lia.
  unfold ParseUint. destruct (string_to_bytes _); [|done]. cbn in Hparse. injection Hparse as Hparse. lia.
Qed.

Lemma parse_digits_all l : forall n m, parse_digits l n = Some m -> forallb is_digit l = true.
Proof.
  induction l as [|b l IH]; intros n m; cbn [parse_digits forallb]; [done|]. destruct (is_digit b); [|done]. cbn zeta.
  destruct (2 ^ 64 <=? _); [done|]. apply IH.
Qed.

(** The entity tag of a document is accepted as the value of an
    If-Match header and names the generation of the document. *)
Theorem etag_names_generation (generation : Z) (Hg : 0 < generation < 2 ^ 64) :
  expectedGeneration [etag generation] = inr generation.
Proof.
  pose proof (ParseUint_pretty generation Hg) as Hp. set (digits := pretty (Z.to_N generation)) in *.
  assert (Hbytes : string_to_bytes (etag generation) = x22 :: string_to_bytes digits ++ [x22]).
  { unfold etag, quoted. rewrite !string_to_bytes_app. reflexivity. }
  assert (Hdig : string_to_bytes digits <> [] /\ forallb is_digit (string_to_bytes digits) = true).
  { unfold ParseUint in Hp. destruct (string_to_bytes digits) eqn:Ed; [done|]. split; [done|]. by apply parse_digits_all in Hp. }
  assert (Hvis : all_bytes visible (etag generation) = true).
  { unfold all_bytes. rewrite Hbytes. cbn [forallb]. rewrite forallb_app. apply andb_true_iff. split; [by vm_compute|].
    apply andb_true_iff. split; [|by vm_compute]. destruct Hdig as [_ Hd]. rewrite forallb_forall in *. intros b Hb.
    specialize (Hd b Hb). revert Hd. by destruct b. }
  unfold expectedGeneration. rewrite (TrimSpace_visible _ Hvis).
  assert (Hu : unquote (etag generation) = Some (string_to_bytes digits)).
  { unfold unquote. rewrite Hbytes. assert (Hlen : (slen (etag generation) <? 3) = false).
    { apply Z.ltb_ge. rewrite slen_bytes. unfold len. rewrite Hbytes. cbn [List.length]. rewrite length_app. destruct Hdig as [Hne _].
      destruct (string_to_bytes digits); [done|]. cbn. lia. }
    rewrite Hlen, List.last_last, List.removelast_last. by rewrite !bool_decide_eq_true_2 by done. }
  rewrite Hu, Hp. by destruct (Z.eqb_spec generation 0); [lia|].
Qed.

Lemma etag_names_generation_witness : 0 < 41 < 2 ^ 64 /\ expectedGeneration [etag 41] = inr 41.
Proof. split; [lia|apply (etag_names_generation 41); lia]. Defined.

(** * Concrete runs of the session API

    The properties of the session API at concrete requests, and a creation that
    is retried after another replica has served it. *)


(** Responses are recorded, and never read back. *)
#[local] Instance document_codec : JsonCodec Document := {| json_Marshal := fun _ => string_to_bytes "{}"; json_Decode := fun _ => None |}.

Definition tunnel_snapshot : Snapshot := mkSnapshot 1 identity_id "development" "v1" ["cluster.tunnel"].

(** A cluster whose networks and permissions do not change, and a registry that
    has no streams. *)
Definition calm_config (E : Type) : Config E string := {|
  cfg_ClusterID := " cluster ";
  cfg_SessionTTL := 0;
  cfg_MaxLifetime := 0;
  cfg_Networks := Some (fun _ _ e => (Ok sample_normalized, e));
  cfg_Capabilities := Some (fun _ _ e => (inr tunnel_snapshot, e));
  cfg_Registry := None;
  cfg_TrafficBindings := None;
  cfg_TrafficBindingLister := None;
  cfg_TrafficBindingDeleter := None
|}.
Definition calm_registry (E : Type) : RuntimeRegistry E := mkRuntimeRegistry (fun _ e => (Ok tt, e)) (fun _ e => (Ok tt, e)).

Definition calm_service (E : Type) : Service E string :=
  mkService "cluster" (2 * Minute) (8 * Hour) (fun _ _ e => (Ok sample_normalized, e)) (fun _ _ e => (inr tunnel_snapshot, e))
    (calm_registry E) None None None.

Lemma calm_service_new E : New (calm_registry E) (calm_config E) = Ok (calm_service E).
Proof. reflexivity. Qed.

Definition api_user : Identity := mkIdentity identity_id "oidc" "" "" [] "device" "" 0.
Definition label_only (s : string) : bool := ValidLabel s.

Section quiet.
#[local] Existing Instance quiet_engine.

Lemma quiet_api lifetime : others_api (EN := quiet_engine) lifetime.
Proof. intros db e. apply rtc_refl. Qed.

Lemma sample_api_inv : api_inv sample_database.
Proof.
  split; [exact (changes_trails _ _ sample_tables_reachable empty_trails_ok)|].
  unfold sessions_keyed. cbn [sessions sample_database]. by apply map_Forall_singleton.
Qed.

Lemma api_metadata : MetadataStored (EN := quiet_engine).
Proof. by apply sample_metadata_stored. Qed.
#[local] Existing Instance api_metadata.

Definition calm_ttl : sessionTTL (calm_service nat) <= maxLifetime (calm_service nat) :=
  proj1 (proj2 (New_lifetimes _ _ _ (calm_service_new nat))).

Definition world_after {A} (m : M (E:=nat) A) (w : World nat) : World nat := (m w).2.

Definition require_run : M (E:=nat) (apiError + ActiveSession) :=
  RequireActive sample_store (calm_service nat) "request" api_user "development" session_id.

Lemma require_active_witness :
  exists a, require_run quiet_world = (inr (inr a), world_after require_run quiet_world) /\ as_Generation a = 1 /\
  exists now, now < as_ExpiresAt a /\ reading (E:=nat) now.
Proof.
  destruct (require_run quiet_world) as [r w'] eqn:Hrun.
  assert (Hr : r = inr (inr (mkActiveSession session_id "development" 1 (2000 * Second) sample_hash))).
  { transitivity (require_run quiet_world).1; [by rewrite Hrun|by vm_compute]. }
  subst r. eexists. split; [unfold world_after; rewrite Hrun; reflexivity|]. split; [reflexivity|].
  destruct (require_active sample_store (calm_service nat) (quiet_api _) "request" api_user "development" session_id quiet_world w' _
    eq_refl sample_api_inv Hrun) as (row & row' & now & e & _ & _ & _ & _ & _ & _ & _ & Hnow & Hexp & Ha & _).
  exists now. split; [|exact Hnow]. rewrite Ha. exact Hexp.
Defined.

Definition disconnect_run : M (E:=nat) (apiError + reply string) :=
  disconnect sample_store (calm_service nat) "request" api_user "development" session_id [etag 1].

Lemma disconnect_closes_witness :
  exists rep, disconnect_run quiet_world = (inr (inr rep), world_after disconnect_run quiet_world) /\
  closed_reply session_id rep /\ exists row, sessions (w_db (world_after disconnect_run quiet_world)) !! session_id = Some row /\ closed (s_State row).
Proof.
  destruct (disconnect_run quiet_world) as [r w'] eqn:Hrun.
  assert (Hr : match r with inr (inr _) => true | _ => false end = true).
  { transitivity (match (disconnect_run quiet_world).1 with inr (inr _) => true | _ => false end); [by rewrite Hrun|by vm_compute]. }
  destruct r as [|[|rep]]; [done..|]. exists rep. unfold world_after. rewrite Hrun. split; [reflexivity|].
  destruct (disconnect_closes sample_store (calm_service nat) (quiet_api _) "request" api_user "development" session_id [etag 1]
    quiet_world w' rep eq_refl sample_api_inv Hrun) as (Hrep & _ & row & Hrow & Hc & _).
  split; [exact Hrep|]. exists row. split; [exact Hrow|exact Hc].
Defined.

Definition create_run : M (E:=nat) (apiError + reply string) :=
  create sample_store (calm_service nat) api_user "development" ["create-1"].

Lemma create_answers_witness :
  exists rep, create_run quiet_world = (inr (inr rep), world_after create_run quiet_world) /\
  created_reply api_user "development" rep (w_db (world_after create_run quiet_world)).
Proof.
  destruct (create_run quiet_world) as [r w'] eqn:Hrun.
  assert (Hr : match r with inr (inr _) => true | _ => false end = true).
  { transitivity (match (create_run quiet_world).1 with inr (inr _) => true | _ => false end); [by rewrite Hrun|by vm_compute]. }
  destruct r as [|[|rep]]; [done..|]. exists rep. unfold world_after. rewrite Hrun. split; [reflexivity|].
  exact (proj1 (create_answers sample_store (calm_service nat) calm_ttl (quiet_api _) api_user "development" ["create-1"]
    quiet_world w' rep eq_refl sample_api_inv Hrun)).
Defined.

Definition beat_request : HttpRequest :=
  mkHttpRequest [("namespace", ["development"])] (Some []) session_id "" [] [etag 1] "request".

Definition beat_run : M (E:=nat) (apiError + reply string) :=
  Endpoints sample_store (calm_service nat) label_only Heartbeat beat_request api_user.

Lemma sample_typed : sessions_typed (maxLifetime (calm_service nat)) sample_database.
Proof.
  unfold sessions_typed. cbn [sessions sample_database]. apply map_Forall_singleton. split; [done|]. split; [by left|].
  split; [by vm_compute|]. by vm_compute.
Qed.

Lemma session_history_witness :
  exists row', sessions (w_db (world_after beat_run quiet_world)) !! session_id = Some row' /\
  s_Generation row' = 2 /\ history_of sample_session row'.
Proof.
  destruct (beat_run quiet_world) as [r w'] eqn:Hrun.
  destruct (session_history sample_store (calm_service nat) calm_ttl (quiet_api _) label_only Heartbeat beat_request api_user
    quiet_world w' r eq_refl sample_api_inv Hrun) as (_ & _ & _ & Hrows).
  destruct (Hrows session_id sample_session) as (row' & Hrow' & Hh); [by vm_compute|]. exists row'.
  unfold world_after. rewrite Hrun. split; [exact Hrow'|]. split; [|exact Hh].
  assert (Hg : s_Generation <$> (sessions (w_db (beat_run quiet_world).2) !! session_id) = Some 2) by (by vm_compute).
  rewrite Hrun in Hg. cbn [snd] in Hg. rewrite Hrow' in Hg. by injection Hg.
Defined.

Lemma session_rows_typed_witness : sessions_typed (maxLifetime (calm_service nat)) (w_db (world_after beat_run quiet_world)).
Proof.
  destruct (beat_run quiet_world) as [r w'] eqn:Hrun. unfold world_after. rewrite Hrun.
  exact (session_rows_typed sample_store (calm_service nat) calm_ttl (quiet_api _) label_only Heartbeat beat_request api_user
    quiet_world w' r eq_refl sample_api_inv sample_typed Hrun).
Defined.
End quiet.

(** ** A replayed creation that counts as created *)

(** Another replica creates the session for the same key. *)
Definition twin_session : Session :=
  mkSession (sample_id 40) identity_id "device" "cluster" "development" "active" 1 sample_network sample_hash
    (900 * Second) (900 * Second) (900 * Second) (1020 * Second).

Definition twin_creation (db : Database) : Database :=
  set_sessions (set_idempotency db (<[(create_scope api_user, "twin") :=
      mkIdempotencyRecord (create_scope api_user) "twin" (create_hash "development") "session" (s_ID twin_session) [] (900 * Second)
        (29700 * Second)]> (idempotency_records db)))
    (<[s_ID twin_session := twin_session]> (sessions db)).

(** The first commit fails with a serialization failure and is not applied; the
    other replica commits before the retry. *)
Definition twin_creation_script : Script :=
  mkScript [id; twin_creation] [Some (mkFault false (PgError "40001"))] 10 (1000 * Second).

Definition twin_create_run : M (E:=Script) (apiError + reply string) :=
  create (H := script_engine BackendPostgreSQL) sample_store (calm_service Script) api_user "development" ["twin"].

(** The creation of a session that is retried after another replica has served
    the same key answers 201 and is not marked as replayed, although it shows the
    session of the other replica. *)
Theorem retried_session_counts_as_created :
  exists etag location d, (twin_create_run (mkWorld sample_database twin_creation_script false)).1 =
    inr (inr (WroteDocument 201 etag false location d)) /\ d_ID d = s_ID twin_session /\
  sessions (twin_creation sample_database) !! s_ID twin_session = Some twin_session.
Proof. eexists _, _, _. split; [vm_compute; reflexivity|]. split; by vm_compute. Qed.
