(* ===== verification/TrafficBinding.v ===== *)
(** * Traffic bindings and the Kubernetes objects they concern
    ([api/v1alpha1/trafficbinding_types.go])

    A [TrafficBinding] asks the operator to expose, exchange or mirror a Service.
    The objects have the fields the operator reads or writes; what it only copies
    is kept as a document.  A Go map that may be nil is an option.  The types of
    the API are strings, as in the source: any other value may be stored. *)

From S2P Require Import Prelude GoLib.
From S2P Require Import External Netip IdentityStore.

Abbreviation StringMap := (gmap string string).

(** A nil or a non-nil map, reading it, and the form that is stored: an empty map is
    left out of the JSON of an object ([omitempty]). *)
Abbreviation GoMap := (option StringMap).
Definition entries (m : GoMap) : StringMap := default ∅ m.
Definition at_key (m : GoMap) (k : string) : string := default "" (entries m !! k).
Definition stored_map (m : StringMap) : GoMap := if bool_decide (m = ∅) then None else Some m.

(** ** Kubernetes objects *)

Record OwnerReference := mkOwnerReference {
  or_Kind : string;
  or_Name : string;
  or_UID : string;
  or_Controller : bool;
  or_BlockOwnerDeletion : bool
}.

(** [om_Deleting]: the deletion timestamp is set. *)
Record ObjectMeta := mkObjectMeta {
  om_Namespace : string;
  om_Name : string;
  om_UID : string;
  om_Generation : Z;
  om_Labels : GoMap;
  om_Annotations : GoMap;
  om_OwnerReferences : list OwnerReference;
  om_Finalizers : list string;
  om_Deleting : bool
}.

Record Pod := mkPod { pod_Meta : ObjectMeta }.

Inductive IntOrString := FromInt32 (value : Z) | FromString (value : string).

Record ServicePort := mkServicePort {
  sp_Name : string;
  sp_Protocol : string;
  sp_Port : Z;
  sp_TargetPort : IntOrString;
  sp_Rest : string
}.

Record Service := mkService {
  svc_Meta : ObjectMeta;
  svc_Type : string;
  svc_ClusterIP : string;
  svc_Selector : GoMap;
  svc_Ports : list ServicePort;
  svc_Rest : string
}.

Record Endpoint := mkEndpoint {
  ep_Addresses : list string;
  ep_Ready : option bool;
  ep_Terminating : option bool;
  ep_Rest : string
}.

Record EndpointPort := mkEndpointPort {
  epp_Name : option string;
  epp_Protocol : option string;
  epp_Port : option Z;
  epp_Rest : string
}.

Record EndpointSlice := mkEndpointSlice {
  es_Meta : ObjectMeta;
  es_AddressType : string;
  es_Endpoints : list Endpoint;
  es_Ports : list EndpointPort
}.

(** A subset of the legacy Endpoints: its ready addresses and its ports. *)
Record LegacyPort := mkLegacyPort { lp_Name : string; lp_Protocol : string; lp_Port : Z }.
Record EndpointSubset := mkEndpointSubset {
  subset_Addresses : list string;
  subset_Ports : list LegacyPort;
  subset_Rest : string
}.

Record Endpoints := mkEndpoints { eps_Meta : ObjectMeta; eps_Subsets : list EndpointSubset }.

(** ** The binding *)

Record TrafficTarget := mkTrafficTarget { tt_Kind : string; tt_Name : string }.

Record TrafficPort := mkTrafficPort {
  tp_Name : string;
  tp_TargetPort : Z;
  tp_RelayPort : option Z;
  tp_LocalHost : string;
  tp_LocalPort : option Z;
  tp_Protocol : string
}.

(** The relay is its address, the exposure of a preview the name of its Service. *)
Record TrafficBindingSpec := mkTrafficBindingSpec {
  ts_DesiredState : string;
  ts_Mode : string;
  ts_IdentityID : string;
  ts_SessionID : string;
  ts_TaskID : string;
  ts_SessionGeneration : Z;
  ts_ClusterIP : string;
  ts_DialAddress : string;
  ts_Target : option TrafficTarget;
  ts_Relay : option string;
  ts_Preview : option string;
  ts_Ports : list TrafficPort
}.

Record EndpointSliceSnapshot := mkEndpointSliceSnapshot {
  ess_Name : string;
  ess_AddressType : string;
  ess_Labels : GoMap;
  ess_Annotations : GoMap;
  ess_OwnerReferences : list OwnerReference;
  ess_Endpoints : list Endpoint;
  ess_Ports : list EndpointPort
}.

Record ServiceSnapshot := mkServiceSnapshot {
  ss_ServiceName : string;
  ss_ServiceUID : string;
  ss_Selector : GoMap;
  ss_EndpointSlices : list EndpointSliceSnapshot;
  ss_HadEndpointSlices : bool;
  ss_EndpointSubsets : list EndpointSubset;
  ss_HadEndpoints : bool
}.

(** [metav1.Condition] without the time of its last transition, which changes only
    together with its status. *)
Record Condition := mkCondition {
  cd_Type : string;
  cd_Status : string;
  cd_Reason : string;
  cd_Message : string;
  cd_ObservedGeneration : Z
}.

Record TrafficBindingStatus := mkTrafficBindingStatus {
  st_ObservedGeneration : Z;
  st_Phase : string;
  st_ServiceName : string;
  st_ServiceClusterIP : string;
  st_RelayOwnerID : string;
  st_RelayHeartbeatAt : option time;
  st_RelayError : string;
  st_Snapshot : option ServiceSnapshot;
  st_Conditions : list Condition
}.

Record TrafficBinding := mkTrafficBinding {
  tb_Meta : ObjectMeta;
  tb_Spec : TrafficBindingSpec;
  tb_Status : TrafficBindingStatus
}.

#[export] Instance OwnerReference_eq_dec : EqDecision OwnerReference.
Proof. solve_decision. Defined.
#[export] Instance IntOrString_eq_dec : EqDecision IntOrString.
Proof. solve_decision. Defined.
#[export] Instance ServicePort_eq_dec : EqDecision ServicePort.
Proof. solve_decision. Defined.
#[export] Instance Endpoint_eq_dec : EqDecision Endpoint.
Proof. solve_decision. Defined.
#[export] Instance EndpointPort_eq_dec : EqDecision EndpointPort.
Proof. solve_decision. Defined.
#[export] Instance LegacyPort_eq_dec : EqDecision LegacyPort.
Proof. solve_decision. Defined.
#[export] Instance EndpointSubset_eq_dec : EqDecision EndpointSubset.
Proof. solve_decision. Defined.
#[export] Instance TrafficPort_eq_dec : EqDecision TrafficPort.
Proof. solve_decision. Defined.
#[export] Instance TrafficTarget_eq_dec : EqDecision TrafficTarget.
Proof. solve_decision. Defined.
#[export] Instance TrafficBindingSpec_eq_dec : EqDecision TrafficBindingSpec.
Proof. solve_decision. Defined.
#[export] Instance EndpointSliceSnapshot_eq_dec : EqDecision EndpointSliceSnapshot.
Proof. solve_decision. Defined.
#[export] Instance ServiceSnapshot_eq_dec : EqDecision ServiceSnapshot.
Proof. solve_decision. Defined.
#[export] Instance Condition_eq_dec : EqDecision Condition.
Proof. solve_decision. Defined.
#[export] Instance TrafficBindingStatus_eq_dec : EqDecision TrafficBindingStatus.
Proof. solve_decision. Defined.

(** ** Constants *)

Definition ModePortForward : string := "PortForward".
Definition ModePreview : string := "Preview".
Definition ModeExchange : string := "Exchange".
Definition ModeMirror : string := "Mirror".

Definition DesiredStateActive : string := "Active".
Definition DesiredStatePaused : string := "Paused".

Definition TargetKindPod : string := "Pod".
Definition TargetKindService : string := "Service".

Definition TransportProtocolTCP : string := "TCP".
Definition TransportProtocolUDP : string := "UDP".

Definition PhasePending : string := "Pending".
Definition PhaseReconciling : string := "Reconciling".
Definition PhaseReady : string := "Ready".
Definition PhaseDegraded : string := "Degraded".
Definition PhasePausing : string := "Pausing".
Definition PhasePaused : string := "Paused".
Definition PhaseRestoring : string := "Restoring".
Definition PhaseRestored : string := "Restored".

Definition ConditionAccepted : string := "Accepted".
Definition ConditionProgressing : string := "Progressing".
Definition ConditionReady : string := "Ready".
Definition ConditionDegraded : string := "Degraded".
Definition ConditionPaused : string := "Paused".
Definition ConditionRestored : string := "Restored".

(** [metav1.ConditionTrue], [ConditionFalse] *)
Definition ConditionTrue : string := "True".
Definition ConditionFalse : string := "False".

(** ** Updates of the fields *)

Definition set_labels (labels : GoMap) (m : ObjectMeta) : ObjectMeta :=
  mkObjectMeta (om_Namespace m) (om_Name m) (om_UID m) (om_Generation m) labels (om_Annotations m) (om_OwnerReferences m)
    (om_Finalizers m) (om_Deleting m).
Definition set_annotations (annotations : GoMap) (m : ObjectMeta) : ObjectMeta :=
  mkObjectMeta (om_Namespace m) (om_Name m) (om_UID m) (om_Generation m) (om_Labels m) annotations (om_OwnerReferences m)
    (om_Finalizers m) (om_Deleting m).
Definition set_owner_references (references : list OwnerReference) (m : ObjectMeta) : ObjectMeta :=
  mkObjectMeta (om_Namespace m) (om_Name m) (om_UID m) (om_Generation m) (om_Labels m) (om_Annotations m) references
    (om_Finalizers m) (om_Deleting m).
Definition set_finalizers (finalizers : list string) (m : ObjectMeta) : ObjectMeta :=
  mkObjectMeta (om_Namespace m) (om_Name m) (om_UID m) (om_Generation m) (om_Labels m) (om_Annotations m)
    (om_OwnerReferences m) finalizers (om_Deleting m).

Definition set_service_meta (m : ObjectMeta) (s : Service) : Service :=
  mkService m (svc_Type s) (svc_ClusterIP s) (svc_Selector s) (svc_Ports s) (svc_Rest s).
Definition set_selector (selector : GoMap) (s : Service) : Service :=
  mkService (svc_Meta s) (svc_Type s) (svc_ClusterIP s) selector (svc_Ports s) (svc_Rest s).
Definition set_slice_meta (m : ObjectMeta) (s : EndpointSlice) : EndpointSlice :=
  mkEndpointSlice m (es_AddressType s) (es_Endpoints s) (es_Ports s).

Definition set_binding_meta (m : ObjectMeta) (b : TrafficBinding) : TrafficBinding :=
  mkTrafficBinding m (tb_Spec b) (tb_Status b).
Definition set_status (s : TrafficBindingStatus) (b : TrafficBinding) : TrafficBinding :=
  mkTrafficBinding (tb_Meta b) (tb_Spec b) s.

Definition set_phase (phase : string) (s : TrafficBindingStatus) : TrafficBindingStatus :=
  mkTrafficBindingStatus (st_ObservedGeneration s) phase (st_ServiceName s) (st_ServiceClusterIP s) (st_RelayOwnerID s)
    (st_RelayHeartbeatAt s) (st_RelayError s) (st_Snapshot s) (st_Conditions s).
Definition set_observed (generation : Z) (s : TrafficBindingStatus) : TrafficBindingStatus :=
  mkTrafficBindingStatus generation (st_Phase s) (st_ServiceName s) (st_ServiceClusterIP s) (st_RelayOwnerID s)
    (st_RelayHeartbeatAt s) (st_RelayError s) (st_Snapshot s) (st_Conditions s).
Definition set_service (name clusterIP : string) (s : TrafficBindingStatus) : TrafficBindingStatus :=
  mkTrafficBindingStatus (st_ObservedGeneration s) (st_Phase s) name clusterIP (st_RelayOwnerID s)
    (st_RelayHeartbeatAt s) (st_RelayError s) (st_Snapshot s) (st_Conditions s).
Definition set_relay_owner (owner : string) (heartbeat : option time) (failure : string) (s : TrafficBindingStatus)
    : TrafficBindingStatus :=
  mkTrafficBindingStatus (st_ObservedGeneration s) (st_Phase s) (st_ServiceName s) (st_ServiceClusterIP s) owner heartbeat failure
    (st_Snapshot s) (st_Conditions s).
Definition set_snapshot (snapshot : option ServiceSnapshot) (s : TrafficBindingStatus) : TrafficBindingStatus :=
  mkTrafficBindingStatus (st_ObservedGeneration s) (st_Phase s) (st_ServiceName s) (st_ServiceClusterIP s) (st_RelayOwnerID s)
    (st_RelayHeartbeatAt s) (st_RelayError s) snapshot (st_Conditions s).
Definition set_conditions (conditions : list Condition) (s : TrafficBindingStatus) : TrafficBindingStatus :=
  mkTrafficBindingStatus (st_ObservedGeneration s) (st_Phase s) (st_ServiceName s) (st_ServiceClusterIP s) (st_RelayOwnerID s)
    (st_RelayHeartbeatAt s) (st_RelayError s) (st_Snapshot s) conditions.

(** * Validation of traffic bindings and the metadata of what they own
    ([controller/trafficbinding_validation.go], [trafficbinding_target.go],
    [trafficbinding_metadata.go]) *)


(** ** Errors

    An error of the API server is known by its reason; [JoinedError] is
    [errors.Join] and the ["%w; %w"] of [errorsJoin]. *)

Inductive kube_error :=
| NotFound (message : string)
| AlreadyExists (message : string)
| Forbidden (message : string)
| ApiError (message : string)
| Permanent (message : string)
| JoinedError (separator : string) (left right : kube_error).

Fixpoint Error_text (e : kube_error) : string :=
  match e with
  | NotFound m | AlreadyExists m | Forbidden m | ApiError m | Permanent m => m
  | JoinedError separator l r => Error_text l +:+ separator +:+ Error_text r
  end.

Fixpoint isPermanent (e : kube_error) : bool :=
  match e with
  | Permanent _ => true
  | JoinedError _ l r => isPermanent l || isPermanent r
  | _ => false
  end.

(** [apierrors.ReasonForError]: the reason of the first API error in the tree. *)
Fixpoint api_error (e : kube_error) : option kube_error :=
  match e with
  | NotFound _ | AlreadyExists _ | Forbidden _ | ApiError _ => Some e
  | JoinedError _ l r => match api_error l with Some e => Some e | None => api_error r end
  | _ => None
  end.
Definition IsNotFound (e : kube_error) : bool := match api_error e with Some (NotFound _) => true | _ => false end.
Definition IsAlreadyExists (e : kube_error) : bool :=
  match api_error e with Some (AlreadyExists _) => true | _ => false end.

Definition IsForbidden (e : kube_error) : bool := match api_error e with Some (Forbidden _) => true | _ => false end.

Definition errorsJoin (left : option kube_error) (right : kube_error) : kube_error :=
  match left with None => right | Some l => JoinedError "; " l right end.

(** [fmt.Sprintf("%d")] *)
Definition number (z : Z) : string := pretty z.

(** ** Validation *)

(** [k8s.io/apimachinery/pkg/util/validation]: the problems of a name. *)
Class NameValidation := {
  IsDNS1123Label : string -> list string;
  IsDNS1123Subdomain : string -> list string
}.

Section validation.
Context `{NameValidation, NetipPackage, UnicodePackage}.

Abbreviation check := (sum kube_error unit).

Definition permanentf (message : string) : check := inl (Permanent message).
Definition and_then (first second : check) : check := match first with inl e => inl e | inr _ => second end.

(** [uuidPattern] *)
Definition hex_class (b : byte) : bool := is_digit b || byte_in "a"%byte "f"%byte b.
Definition byte_class (b : byte) (c : byte) : bool := bool_decide (c = b).
Definition uuid_classes : list (byte -> bool) :=
  replicate 8 hex_class ++ [byte_class "-"%byte] ++ replicate 4 hex_class ++ [byte_class "-"%byte]
  ++ (byte_in "1"%byte "5"%byte :: replicate 3 hex_class) ++ [byte_class "-"%byte]
  ++ ((fun c => bool_decide (c ∈ ["8"; "9"; "a"; "b"]%byte)) :: replicate 3 hex_class) ++ [byte_class "-"%byte]
  ++ replicate 12 hex_class.
Fixpoint matches_classes (classes : list (byte -> bool)) (l : bytes) : bool :=
  match classes, l with
  | [], [] => true
  | p :: classes, c :: l => p c && matches_classes classes l
  | _, _ => false
  end.
Definition uuidPattern (s : string) : bool := matches_classes uuid_classes (string_to_bytes s).

Definition validateDesiredState (state : string) : check :=
  if bool_decide (state ∈ [""; DesiredStateActive; DesiredStatePaused]) then inr tt
  else permanentf ("spec.desiredState " +:+ quoted state +:+ " is unsupported").

Definition validateBindingIdentity (b : TrafficBinding) : check :=
  let spec := tb_Spec b in
  if negb (uuidPattern (strings_ToLower (ts_SessionID spec))) then permanentf "spec.sessionID must be a UUID"
  else if negb (uuidPattern (strings_ToLower (ts_TaskID spec))) then permanentf "spec.taskID must be a UUID"
  else if bool_decide (TrimSpace (ts_IdentityID spec) = "") || (256 <? slen (ts_IdentityID spec))
  then permanentf "spec.identityID is required and must not exceed 256 bytes"
  else if ts_SessionGeneration spec <? 1 then permanentf "spec.sessionGeneration must be positive"
  else if (len (ts_Ports spec) <? 1) || (64 <? len (ts_Ports spec)) then permanentf "spec.ports must contain one to 64 mappings"
  else inr tt.

Definition validatePort (port : Z) (field : string) : check :=
  if (port <? 1) || (65535 <? port) then permanentf (field +:+ " must be between 1 and 65535") else inr tt.

Definition validateProtocol (protocol : string) : check :=
  if bool_decide (protocol ∈ [""; TransportProtocolTCP; TransportProtocolUDP]) then inr tt
  else permanentf ("protocol " +:+ quoted protocol +:+ " is unsupported").

Definition port_field (index : Z) (field : string) : string := "spec.ports[" +:+ number index +:+ "]." +:+ field.

Definition validate_optional_port (port : option Z) (field : string) : check :=
  match port with None => inr tt | Some p => validatePort p field end.

(** [fmt.Sprintf("%s/%d", port.Protocol, port.TargetPort)] *)
Definition port_target (p : TrafficPort) : string := tp_Protocol p +:+ "/" +:+ number (tp_TargetPort p).

Fixpoint validate_ports (index : Z) (ports : list TrafficPort) (seenPorts seenNames : gset string) : check :=
  match ports with
  | [] => inr tt
  | port :: rest =>
      and_then (validatePort (tp_TargetPort port) (port_field index "targetPort"))
      (and_then (validateProtocol (tp_Protocol port))
      (if bool_decide (tp_Protocol port = "") then permanentf (port_field index "protocol is required")
       else and_then (validate_optional_port (tp_RelayPort port) (port_field index "relayPort"))
      (and_then (validate_optional_port (tp_LocalPort port) (port_field index "localPort"))
      (and_then
        (if bool_decide (tp_Name port = "") then inr tt
         else match IsDNS1123Label (tp_Name port) with
              | problem :: _ => permanentf (port_field index "name is invalid: " +:+ problem)
              | [] => if bool_decide (tp_Name port ∈ seenNames)
                      then permanentf ("spec.ports contains duplicate name " +:+ quoted (tp_Name port)) else inr tt
              end)
      (let seenNames := if bool_decide (tp_Name port = "") then seenNames else {[tp_Name port]} ∪ seenNames in
       if bool_decide (port_target port ∈ seenPorts)
       then permanentf ("spec.ports contains duplicate target " +:+ port_target port)
       else validate_ports (index + 1) rest ({[port_target port]} ∪ seenPorts) seenNames)))))
  end.

Definition validateBindingPorts (b : TrafficBinding) : check := validate_ports 0 (ts_Ports (tb_Spec b)) ∅ ∅.

(** The first port, counted from [index], that fails. *)
Fixpoint check_ports (ok : TrafficPort -> bool) (message : Z -> string) (index : Z) (ports : list TrafficPort) : check :=
  match ports with
  | [] => inr tt
  | p :: rest => if ok p then check_ports ok message (index + 1) rest else permanentf (message index)
  end.

Definition has_relay_port (p : TrafficPort) : bool := bool_decide (is_Some (tp_RelayPort p)).

Definition validate_mode (spec : TrafficBindingSpec) : check :=
  if bool_decide (ts_Mode spec = ModePortForward) then
    if negb (bool_decide (is_Some (ts_Target spec))) || bool_decide (is_Some (ts_Relay spec))
       || bool_decide (is_Some (ts_Preview spec))
    then permanentf "PortForward requires spec.target and exactly one port"
    else match ts_Ports spec with
         | [p] => if has_relay_port p then permanentf "PortForward forbids spec.ports[0].relayPort" else inr tt
         | _ => permanentf "PortForward requires spec.target and exactly one port"
         end
  else if bool_decide (ts_Mode spec = ModePreview) then
    match ts_Target spec, ts_Preview spec with
    | None, Some serviceName =>
        match IsDNS1123Label serviceName with
        | problem :: _ => permanentf ("spec.preview.serviceName is invalid: " +:+ problem)
        | [] => inr tt
        end
    | _, _ => permanentf "Preview requires spec.preview"
    end
  else if bool_decide (ts_Mode spec ∈ [ModeExchange; ModeMirror]) then
    match ts_Target spec with
    | Some target =>
        if negb (bool_decide (tt_Kind target = TargetKindService)) || bool_decide (is_Some (ts_Preview spec))
        then permanentf (ts_Mode spec +:+ " requires a Service target") else inr tt
    | None => permanentf (ts_Mode spec +:+ " requires a Service target")
    end
  else permanentf ("spec.mode " +:+ quoted (ts_Mode spec) +:+ " is unsupported").

Definition validateBindingMode (b : TrafficBinding) : check :=
  let spec := tb_Spec b in
  and_then (validate_mode spec)
    (if bool_decide (ts_Mode spec = ModePortForward) then inr tt
     else match ts_Relay spec with
          | Some _ => check_ports has_relay_port
                        (fun i => port_field i "relayPort is required for " +:+ ts_Mode spec) 0 (ts_Ports spec)
          | None => check_ports (fun p => negb (has_relay_port p))
                        (fun i => port_field i "relayPort requires spec.relay") 0 (ts_Ports spec)
          end).

Definition validateBindingTarget (b : TrafficBinding) : check :=
  match ts_Target (tb_Spec b) with
  | None => inr tt
  | Some target =>
      if negb (bool_decide (tt_Kind target ∈ [TargetKindPod; TargetKindService]))
      then permanentf ("spec.target.kind " +:+ quoted (tt_Kind target) +:+ " is unsupported")
      else match IsDNS1123Subdomain (tt_Name target) with
           | problem :: _ => permanentf ("spec.target.name is invalid: " +:+ problem)
           | [] => inr tt
           end
  end.

(** [net.ParseIP] reads what [netip.ParseAddr] reads, without a zone. *)
Definition net_ParseIP (s : string) : option Addr :=
  match netip_ParseAddr s with Some a => if bool_decide (addr_zone a = "") then Some a else None | None => None end.

Definition validateBindingRelay (b : TrafficBinding) : check :=
  match ts_Relay (tb_Spec b) with
  | None => inr tt
  | Some address =>
      match net_ParseIP (TrimSpace address) with
      | None => permanentf "spec.relay.address must be an IP literal"
      | Some _ => inr tt
      end
  end.

Definition validateBinding (b : TrafficBinding) : check :=
  and_then (validateBindingIdentity b)
  (and_then (validateDesiredState (ts_DesiredState (tb_Spec b)))
  (and_then (validateBindingPorts b)
  (and_then (validateBindingMode b)
  (and_then (validateBindingTarget b) (validateBindingRelay b))))).

Definition normalizedProtocol (protocol : string) : string :=
  if bool_decide (protocol = "") then TransportProtocolTCP else protocol.

(** ** Ports of a Service ([trafficbinding_target.go]) *)

Definition ProtocolTCP : string := "TCP".
Definition ProtocolUDP : string := "UDP".

Definition coreProtocol (protocol : string) : string :=
  if bool_decide (protocol = TransportProtocolUDP) then ProtocolUDP else ProtocolTCP.

Definition serviceNameLabel : string := "kubernetes.io/service-name".
Definition maximumSliceCount : Z := 64.
Definition maximumEndpointCount : Z := 4096.

Definition object_name (m : ObjectMeta) : string := om_Namespace m +:+ "/" +:+ om_Name m.

Definition servicePort (service : Service) (port : Z) (protocol : string) : kube_error + ServicePort :=
  let wanted := coreProtocol protocol in
  match List.find (fun c => (sp_Port c =? port) && bool_decide (sp_Protocol c = wanted)) (svc_Ports service) with
  | Some candidate => inr candidate
  | None => inl (Permanent ("Service " +:+ object_name (svc_Meta service) +:+ " does not expose " +:+ wanted +:+ " port "
                            +:+ number port))
  end.

Definition with_port_name (name : string) (p : TrafficPort) : TrafficPort :=
  mkTrafficPort name (tp_TargetPort p) (tp_RelayPort p) (tp_LocalHost p) (tp_LocalPort p) (tp_Protocol p).

Fixpoint resolvedServicePorts (service : Service) (mappings : list TrafficPort) : kube_error + list TrafficPort :=
  match mappings with
  | [] => inr []
  | mapping :: rest =>
      match servicePort service (tp_TargetPort mapping) (normalizedProtocol (tp_Protocol mapping)) with
      | inl e => inl e
      | inr matched =>
          match resolvedServicePorts service rest with
          | inl e => inl e
          | inr result => inr (with_port_name (sp_Name matched) mapping :: result)
          end
      end
  end.

Definition servicePortName (port : TrafficPort) : string :=
  if negb (bool_decide (tp_Name port = "")) then tp_Name port
  else strings_ToLower (normalizedProtocol (tp_Protocol port)) +:+ "-" +:+ number (tp_TargetPort port).
End validation.

(** ** Metadata ([trafficbinding_metadata.go]) *)

Definition bindingFinalizer : string := "traffic.kubeloop.io/finalizer".
Definition bindingNameAnnotation : string := "traffic.kubeloop.io/binding-name".
Definition bindingUIDAnnotation : string := "traffic.kubeloop.io/binding-uid".
Definition bindingModeAnnotation : string := "traffic.kubeloop.io/mode".
Definition bindingNameLabel : string := "traffic.kubeloop.io/binding".
Definition managedByLabel : string := "app.kubernetes.io/managed-by".
Definition managedByValue : string := "kubeloop-operator".

Section metadata.
Context `{HashPackage}.

Definition bindingLabelValue (uid : string) : string :=
  hex_EncodeToString (take 16 (sha256_Sum256 (string_to_bytes uid))).

Definition managedEndpointSliceName (b : TrafficBinding) : string := "kubeloop-" +:+ bindingLabelValue (om_UID (tb_Meta b)).

Definition applyBindingAnnotations (b : TrafficBinding) (m : ObjectMeta) : ObjectMeta :=
  set_annotations (Some (<[bindingModeAnnotation := ts_Mode (tb_Spec b)]>
    (<[bindingUIDAnnotation := om_UID (tb_Meta b)]> (<[bindingNameAnnotation := om_Name (tb_Meta b)]>
      (entries (om_Annotations m)))))) m.

Definition applyBindingMetadata (b : TrafficBinding) (m : ObjectMeta) : ObjectMeta :=
  applyBindingAnnotations b
    (set_labels (Some (<[bindingNameLabel := bindingLabelValue (om_UID (tb_Meta b))]>
       (<[managedByLabel := managedByValue]> (entries (om_Labels m))))) m).

(** [delete] of a nil map does nothing. *)
Definition removeBindingMetadata (m : ObjectMeta) : ObjectMeta :=
  set_annotations (delete bindingModeAnnotation <$> (delete bindingUIDAnnotation <$>
      (delete bindingNameAnnotation <$> om_Annotations m)))
    (set_labels (delete bindingNameLabel <$> om_Labels m) m).

Definition ownedByBinding (m : ObjectMeta) (b : TrafficBinding) : bool :=
  bool_decide (at_key (om_Annotations m) bindingNameAnnotation = om_Name (tb_Meta b)) &&
  bool_decide (at_key (om_Annotations m) bindingUIDAnnotation = om_UID (tb_Meta b)).
End metadata.
