(* ===== verification/KubeClient.v ===== *)
(** * The Kubernetes API as its clients see it

    What the API server stores, by kind, namespace and name; JSON merge patches as
    [client.MergeFrom] makes them; the operations of controller-runtime's client as
    a class, and what its documentation says of them as laws.  The state of the
    client stands for the API server and everything else that acts on it.  That a
    read gives what is stored is a law of its own, which a client with a cache need
    not satisfy. *)

From S2P Require Import Prelude GoLib TrafficBinding.

Abbreviation NamespacedName := (string * string)%type.

Record Cluster := mkCluster {
  pods : gmap NamespacedName Pod;
  services : gmap NamespacedName Service;
  endpointslices : gmap NamespacedName EndpointSlice;
  endpoints : gmap NamespacedName Endpoints;
  trafficbindings : gmap NamespacedName TrafficBinding
}.

(** ** Merge patches

    A patch holds what differs between two versions of an object; a map is compared
    by key, a list as a whole, and a map that becomes empty is removed. *)

Definition merge_field {A} `{EqDecision A} (before after current : A) : A :=
  if bool_decide (before = after) then current else after.

Definition merge_entries (before after current : StringMap) : StringMap :=
  filter (fun kv => after !! kv.1 <> before !! kv.1) after ∪ filter (fun kv => after !! kv.1 = before !! kv.1) current.

Definition merge_map (before after current : GoMap) : GoMap :=
  stored_map (if bool_decide (entries after = ∅) && negb (bool_decide (entries before = ∅)) then ∅
              else merge_entries (entries before) (entries after) (entries current)).

Definition merge_meta (before after current : ObjectMeta) : ObjectMeta :=
  mkObjectMeta (om_Namespace current) (om_Name current) (om_UID current) (om_Generation current)
    (merge_map (om_Labels before) (om_Labels after) (om_Labels current))
    (merge_map (om_Annotations before) (om_Annotations after) (om_Annotations current))
    (merge_field (om_OwnerReferences before) (om_OwnerReferences after) (om_OwnerReferences current))
    (merge_field (om_Finalizers before) (om_Finalizers after) (om_Finalizers current))
    (om_Deleting current).

Definition merge_service (before after current : Service) : Service :=
  mkService (merge_meta (svc_Meta before) (svc_Meta after) (svc_Meta current))
    (merge_field (svc_Type before) (svc_Type after) (svc_Type current))
    (merge_field (svc_ClusterIP before) (svc_ClusterIP after) (svc_ClusterIP current))
    (merge_map (svc_Selector before) (svc_Selector after) (svc_Selector current))
    (merge_field (svc_Ports before) (svc_Ports after) (svc_Ports current))
    (merge_field (svc_Rest before) (svc_Rest after) (svc_Rest current)).

Definition merge_slice (before after current : EndpointSlice) : EndpointSlice :=
  mkEndpointSlice (merge_meta (es_Meta before) (es_Meta after) (es_Meta current))
    (merge_field (es_AddressType before) (es_AddressType after) (es_AddressType current))
    (merge_field (es_Endpoints before) (es_Endpoints after) (es_Endpoints current))
    (merge_field (es_Ports before) (es_Ports after) (es_Ports current)).

Definition merge_endpoints (before after current : Endpoints) : Endpoints :=
  mkEndpoints (merge_meta (eps_Meta before) (eps_Meta after) (eps_Meta current))
    (merge_field (eps_Subsets before) (eps_Subsets after) (eps_Subsets current)).

(** A patch of the main resource leaves the status alone, and one of the status the
    rest.  The operator never patches the spec; the control plane does, and a new
    spec is a new generation. *)
Definition merge_spec (before after current : TrafficBindingSpec) : TrafficBindingSpec :=
  mkTrafficBindingSpec
    (merge_field (ts_DesiredState before) (ts_DesiredState after) (ts_DesiredState current))
    (merge_field (ts_Mode before) (ts_Mode after) (ts_Mode current))
    (merge_field (ts_IdentityID before) (ts_IdentityID after) (ts_IdentityID current))
    (merge_field (ts_SessionID before) (ts_SessionID after) (ts_SessionID current))
    (merge_field (ts_TaskID before) (ts_TaskID after) (ts_TaskID current))
    (merge_field (ts_SessionGeneration before) (ts_SessionGeneration after) (ts_SessionGeneration current))
    (merge_field (ts_ClusterIP before) (ts_ClusterIP after) (ts_ClusterIP current))
    (merge_field (ts_DialAddress before) (ts_DialAddress after) (ts_DialAddress current))
    (merge_field (ts_Target before) (ts_Target after) (ts_Target current))
    (merge_field (ts_Relay before) (ts_Relay after) (ts_Relay current))
    (merge_field (ts_Preview before) (ts_Preview after) (ts_Preview current))
    (merge_field (ts_Ports before) (ts_Ports after) (ts_Ports current)).

Definition next_generation (changed : bool) (m : ObjectMeta) : ObjectMeta :=
  mkObjectMeta (om_Namespace m) (om_Name m) (om_UID m) (if changed then om_Generation m + 1 else om_Generation m) (om_Labels m)
    (om_Annotations m) (om_OwnerReferences m) (om_Finalizers m) (om_Deleting m).

Definition merge_binding (before after current : TrafficBinding) : TrafficBinding :=
  let spec := merge_spec (tb_Spec before) (tb_Spec after) (tb_Spec current) in
  mkTrafficBinding (next_generation (negb (bool_decide (spec = tb_Spec current)))
      (merge_meta (tb_Meta before) (tb_Meta after) (tb_Meta current))) spec (tb_Status current).

Definition no_snapshot : ServiceSnapshot := mkServiceSnapshot "" "" None [] false [] false.

(** The fields of a snapshot are merged one by one as well. *)
Definition merge_snapshot_fields (before after current : ServiceSnapshot) : ServiceSnapshot :=
  mkServiceSnapshot (merge_field (ss_ServiceName before) (ss_ServiceName after) (ss_ServiceName current))
    (merge_field (ss_ServiceUID before) (ss_ServiceUID after) (ss_ServiceUID current))
    (merge_map (ss_Selector before) (ss_Selector after) (ss_Selector current))
    (merge_field (ss_EndpointSlices before) (ss_EndpointSlices after) (ss_EndpointSlices current))
    (merge_field (ss_HadEndpointSlices before) (ss_HadEndpointSlices after) (ss_HadEndpointSlices current))
    (merge_field (ss_EndpointSubsets before) (ss_EndpointSubsets after) (ss_EndpointSubsets current))
    (merge_field (ss_HadEndpoints before) (ss_HadEndpoints after) (ss_HadEndpoints current)).

Definition merge_snapshot (before after current : option ServiceSnapshot) : option ServiceSnapshot :=
  if bool_decide (before = after) then current
  else match after with
       | None => None
       | Some a => Some (merge_snapshot_fields (default no_snapshot before) a (default no_snapshot current))
       end.

Definition merge_status (before after current : TrafficBindingStatus) : TrafficBindingStatus :=
  mkTrafficBindingStatus
    (merge_field (st_ObservedGeneration before) (st_ObservedGeneration after) (st_ObservedGeneration current))
    (merge_field (st_Phase before) (st_Phase after) (st_Phase current))
    (merge_field (st_ServiceName before) (st_ServiceName after) (st_ServiceName current))
    (merge_field (st_ServiceClusterIP before) (st_ServiceClusterIP after) (st_ServiceClusterIP current))
    (merge_field (st_RelayOwnerID before) (st_RelayOwnerID after) (st_RelayOwnerID current))
    (merge_field (st_RelayHeartbeatAt before) (st_RelayHeartbeatAt after) (st_RelayHeartbeatAt current))
    (merge_field (st_RelayError before) (st_RelayError after) (st_RelayError current))
    (merge_snapshot (st_Snapshot before) (st_Snapshot after) (st_Snapshot current))
    (merge_field (st_Conditions before) (st_Conditions after) (st_Conditions current)).

(** ** Kinds *)

(** A binding is created without a status. *)
Definition no_status : TrafficBindingStatus := mkTrafficBindingStatus 0 "" "" "" "" None "" None [].

Class Resource (A : Type) := {
  r_table : Cluster -> gmap NamespacedName A;
  r_set : gmap NamespacedName A -> Cluster -> Cluster;
  r_meta : A -> ObjectMeta;
  r_set_meta : ObjectMeta -> A -> A;
  r_merge : A -> A -> A -> A;
  r_new : A -> A    (* what a creation keeps *)
}.

#[export] Instance Pod_resource : Resource Pod := {|
  r_table := pods;
  r_set := fun t c => mkCluster t (services c) (endpointslices c) (endpoints c) (trafficbindings c);
  r_meta := pod_Meta;
  r_set_meta := fun m _ => mkPod m;
  r_merge := fun before after current => mkPod (merge_meta (pod_Meta before) (pod_Meta after) (pod_Meta current));
  r_new := fun p => p |}.
#[export] Instance Service_resource : Resource Service := {|
  r_table := services;
  r_set := fun t c => mkCluster (pods c) t (endpointslices c) (endpoints c) (trafficbindings c);
  r_meta := svc_Meta;
  r_set_meta := set_service_meta;
  r_merge := merge_service;
  r_new := fun s => s |}.
#[export] Instance EndpointSlice_resource : Resource EndpointSlice := {|
  r_table := endpointslices;
  r_set := fun t c => mkCluster (pods c) (services c) t (endpoints c) (trafficbindings c);
  r_meta := es_Meta;
  r_set_meta := set_slice_meta;
  r_merge := merge_slice;
  r_new := fun s => s |}.
#[export] Instance Endpoints_resource : Resource Endpoints := {|
  r_table := endpoints;
  r_set := fun t c => mkCluster (pods c) (services c) (endpointslices c) t (trafficbindings c);
  r_meta := eps_Meta;
  r_set_meta := fun m e => mkEndpoints m (eps_Subsets e);
  r_merge := merge_endpoints;
  r_new := fun e => e |}.
#[export] Instance TrafficBinding_resource : Resource TrafficBinding := {|
  r_table := trafficbindings;
  r_set := fun t c => mkCluster (pods c) (services c) (endpointslices c) (endpoints c) t;
  r_meta := tb_Meta;
  r_set_meta := set_binding_meta;
  r_merge := merge_binding;
  r_new := set_status no_status |}.

(** An object that is being deleted goes away with its last finalizer. *)
Definition gone (m : ObjectMeta) : bool := om_Deleting m && bool_decide (om_Finalizers m = []).

Definition object_key {A} `{Resource A} (a : A) : NamespacedName := (om_Namespace (r_meta a), om_Name (r_meta a)).

Definition put {A} `{Resource A} (k : NamespacedName) (a : A) (c : Cluster) : Cluster :=
  r_set (if gone (r_meta a) then delete k (r_table c) else <[k := a]> (r_table c)) c.

Definition marked_deleting (m : ObjectMeta) : ObjectMeta :=
  mkObjectMeta (om_Namespace m) (om_Name m) (om_UID m)
    (if negb (om_Deleting m) && (0 <? om_Generation m) then om_Generation m + 1 else om_Generation m) (om_Labels m)
    (om_Annotations m) (om_OwnerReferences m) (om_Finalizers m) true.

(** What a created object has of the request: all but its identity and the defaults
    of the kind.  The kinds the program creates are compared by their contents. *)
Class Creatable (A : Type) := { requested : A -> A -> Prop }.

Definition meta_requested (wanted stored : ObjectMeta) : Prop :=
  om_Namespace stored = om_Namespace wanted /\ om_Name stored = om_Name wanted /\
  entries (om_Labels stored) = entries (om_Labels wanted) /\ entries (om_Annotations stored) = entries (om_Annotations wanted) /\
  om_OwnerReferences stored = om_OwnerReferences wanted /\ om_Finalizers stored = om_Finalizers wanted /\
  om_Deleting stored = false.

(** The server gives a Service an address and completes its ports. *)
Definition port_requested (wanted stored : ServicePort) : Prop :=
  sp_Name stored = sp_Name wanted /\ sp_Protocol stored = sp_Protocol wanted /\ sp_Port stored = sp_Port wanted.

#[export] Instance Service_creatable : Creatable Service := {|
  requested := fun wanted stored =>
    meta_requested (svc_Meta wanted) (svc_Meta stored) /\ svc_Type stored = svc_Type wanted /\
    entries (svc_Selector stored) = entries (svc_Selector wanted) /\ Forall2 port_requested (svc_Ports wanted) (svc_Ports stored) |}.
#[export] Instance EndpointSlice_creatable : Creatable EndpointSlice := {|
  requested := fun wanted stored =>
    meta_requested (es_Meta wanted) (es_Meta stored) /\ es_AddressType stored = es_AddressType wanted /\
    es_Endpoints stored = es_Endpoints wanted /\ es_Ports stored = es_Ports wanted |}.
#[export] Instance TrafficBinding_creatable : Creatable TrafficBinding := {|
  requested := fun wanted stored =>
    meta_requested (tb_Meta wanted) (tb_Meta stored) /\ tb_Spec stored = tb_Spec wanted /\ tb_Status stored = no_status |}.
#[export] Instance Endpoints_creatable : Creatable Endpoints := {|
  requested := fun wanted stored =>
    meta_requested (eps_Meta wanted) (eps_Meta stored) /\ eps_Subsets stored = eps_Subsets wanted |}.

(** ** The client *)

Class KubeClient (W : Type) := {
  kc_cluster : W -> Cluster;
  kc_Get : forall {A} `{Resource A}, NamespacedName -> W -> (kube_error + A) * W;
  kc_List : forall {A} `{Resource A}, option string -> list (string * string) -> W -> (kube_error + list A) * W;
  kc_Create : forall {A} `{Resource A}, A -> W -> (kube_error + A) * W;
  kc_Update : forall {A} `{Resource A}, A -> W -> (kube_error + A) * W;
  kc_Patch : forall {A} `{Resource A}, A -> A -> W -> (kube_error + A) * W;
  kc_StatusPatch : TrafficBinding -> TrafficBinding -> W -> (kube_error + TrafficBinding) * W;
  kc_Delete : forall {A} `{Resource A}, A -> W -> (kube_error + unit) * W
}.

Section laws.
Context {W : Type} `{KubeClient W}.

(** A write: others act, then the server makes the change, or the call fails; a call
    that fails may have been carried out. *)
Definition writes {R : Type} (others : Cluster -> Cluster -> Prop) (call : W -> (kube_error + R) * W)
    (effect : Cluster -> R -> Cluster -> Prop) : Prop :=
  forall w r w', call w = (r, w') ->
  exists c, others (kc_cluster w) c /\
  match r with
  | inr a => effect c a (kc_cluster w')
  | inl _ => kc_cluster w' = c \/ exists a, effect c a (kc_cluster w')
  end.

(** A read, which may fail: what it gives is true of the state it leaves. *)
Definition reads {R : Type} (others : Cluster -> Cluster -> Prop) (call : W -> (kube_error + R) * W)
    (gives : kube_error + R -> Cluster -> Prop) : Prop :=
  forall w r w', call w = (r, w') -> others (kc_cluster w) (kc_cluster w') /\ gives r (kc_cluster w').

Definition found_as {A} `{Resource A} (k : NamespacedName) (r : kube_error + A) (c : Cluster) : Prop :=
  match r with
  | inr a => r_table c !! k = Some a
  | inl (NotFound _) => r_table c !! k = None
  | inl (Permanent _) | inl (JoinedError _ _ _) => False
  | inl _ => True
  end.

(** [client.InNamespace]: the empty name stands for every namespace. *)
Definition InNamespace (namespace : string) : option string := if bool_decide (namespace = "") then None else Some namespace.

(** The objects of the namespace, or of all of them, with those labels, in some order. *)
Definition selected {A} `{Resource A} (namespace : option string) (labels : list (string * string)) (a : A) : Prop :=
  match namespace with Some ns => om_Namespace (r_meta a) = ns | None => True end /\
  Forall (fun l => entries (om_Labels (r_meta a)) !! l.1 = Some l.2) labels.
#[export] Instance selected_dec {A} `{Resource A} namespace labels a : Decision (selected (A := A) namespace labels a).
Proof. unfold selected. destruct namespace; apply _. Defined.

Definition listed_as {A} `{Resource A} (namespace : option string) (labels : list (string * string)) (r : kube_error + list A)
    (c : Cluster) : Prop :=
  match r with
  | inr l => NoDup (map object_key l) /\
      forall a, a ∈ l <-> exists k, r_table c !! k = Some a /\ k = object_key a /\ selected namespace labels a
  | inl _ => True
  end.

Definition created {A} `{Resource A, Creatable A} (wanted : A) (c : Cluster) (a : A) (c' : Cluster) : Prop :=
  r_table c !! object_key wanted = None /\ requested wanted a /\ c' = put (object_key wanted) a c.

(** The object keeps its identity; the server may refuse an older version. *)
Definition updated {A} `{Resource A, Creatable A} (wanted : A) (c : Cluster) (a : A) (c' : Cluster) : Prop :=
  exists current, r_table c !! object_key wanted = Some current /\ requested wanted a /\
  om_UID (r_meta a) = om_UID (r_meta current) /\ c' = put (object_key wanted) a c.

Definition patched {A} `{Resource A} (before after : A) (c : Cluster) (a : A) (c' : Cluster) : Prop :=
  exists current, r_table c !! object_key after = Some current /\ a = r_merge before after current /\
  c' = put (object_key after) a c.

(** An object is stored under its own key. *)
Definition status_patched (before after : TrafficBinding) (c : Cluster) (b : TrafficBinding) (c' : Cluster) : Prop :=
  exists current, trafficbindings c !! object_key after = Some current /\ object_key current = object_key after /\
  b = set_status (merge_status (tb_Status before) (tb_Status after) (tb_Status current)) current /\
  c' = put (object_key after) b c.

Definition deleted {A} `{Resource A} (a : A) (c : Cluster) (_ : unit) (c' : Cluster) : Prop :=
  exists current, r_table c !! object_key a = Some current /\
  c' = put (object_key a) (r_set_meta (marked_deleting (r_meta current)) current) c.
End laws.

(** What the documentation of the client and of the API says of the writes, for the
    kinds the program uses; [others] is what else may happen to the objects.  A read
    may come from a cache: it changes nothing itself, and what it gives is open. *)
Class KubeWrites {W : Type} `{KubeClient W} (others : Cluster -> Cluster -> Prop) := {
  law_Get_quiet : forall A (R : Resource A) k, reads others (kc_Get (A := A) k) (fun _ _ => True);
  law_List_quiet : forall A (R : Resource A) ns labels, reads others (kc_List (A := A) ns labels) (fun _ _ => True);
  law_Create_slice : forall s : EndpointSlice, writes others (kc_Create s) (created s);
  law_Create_endpoints : forall e : Endpoints, writes others (kc_Create e) (created e);
  law_Create_service : forall s : Service, writes others (kc_Create s) (created s);
  law_Create_binding : forall b : TrafficBinding, writes others (kc_Create b) (created b);
  law_Update_slice : forall s : EndpointSlice, writes others (kc_Update s) (updated s);
  law_Update_endpoints : forall e : Endpoints, writes others (kc_Update e) (updated e);
  law_Patch : forall A (R : Resource A) before after, writes others (kc_Patch (A := A) before after) (patched before after);
  law_StatusPatch : forall before after, writes others (kc_StatusPatch before after) (status_patched before after);
  law_Delete : forall A (R : Resource A) a, writes others (kc_Delete (A := A) a) (deleted a)
}.

(** Reads of a kind that give what is stored.  Those of a client made with
    [client.New], which is what the control plane uses, are such reads; those of
    [manager.GetClient()], which is what the operator uses, come from a cache that
    follows the server, and are such reads only when it has caught up. *)
Class CurrentReads {W : Type} `{KubeClient W} (A : Type) `{Resource A} (others : Cluster -> Cluster -> Prop) := {
  law_Get : forall k, reads others (kc_Get (A := A) k) (found_as k);
  law_List : forall ns labels, reads others (kc_List (A := A) ns labels) (listed_as ns labels)
}.

(** A client without a cache. *)
Class KubeLaws {W : Type} `{KubeClient W} (others : Cluster -> Cluster -> Prop) := {
  laws_writes :: KubeWrites others;
  laws_reads :: forall A (R : Resource A), CurrentReads A others
}.
