(* ===== verification/TrafficBindingStatus.v ===== *)
(** * The operator: its computations and the status of a binding
    ([controller/trafficbinding_status.go])

    A reconciliation works on one binding, which it reads at the start and changes
    through a pointer; that binding, the events and the world are the state of a
    monad.  A patch that succeeds replaces the binding by what the server stored. *)

From S2P Require Import Prelude GoLib GoText TrafficBinding KubeClient.

(** [k8s.io/apimachinery/pkg/api/meta] *)
Class MetaPackage := {
  SetStatusCondition : Condition -> list Condition -> list Condition;
  FindStatusCondition : list Condition -> string -> option Condition
}.

Record Event := mkEvent { ev_Type : string; ev_Reason : string; ev_Message : string }.
Definition EventTypeNormal : string := "Normal".
Definition EventTypeWarning : string := "Warning".

(** A step fails with an error or panics. *)
Inductive stop := Failed (e : kube_error) | Panicked.

Record RState (W : Type) := mkRState { lc_binding : TrafficBinding; lc_events : list Event; lc_world : W }.
Arguments mkRState {W} _ _ _.
Arguments lc_binding {W} _.
Arguments lc_events {W} _.
Arguments lc_world {W} _.

Section monad.
Context {W : Type}.

Definition K (A : Type) : Type := RState W -> (stop + A) * RState W.

#[export] Instance K_ret : MRet K := fun A a s => (inr a, s).
#[export] Instance K_bind : MBind K := fun A B f m s =>
  match m s with (inl e, s') => (inl e, s') | (inr a, s') => f a s' end.

Definition failure {A} (e : kube_error) : K A := fun s => (inl (Failed e), s).
Definition of_check {A} (r : kube_error + A) : K A := match r with inl e => failure e | inr a => mret a end.

(** Dereferencing a pointer. *)
Definition non_nil {A} (p : option A) : K A := match p with Some a => mret a | None => fun s => (inl Panicked, s) end.

Definition the_binding : K TrafficBinding := fun s => (inr (lc_binding s), s).
Definition put_binding (b : TrafficBinding) : K unit := fun s => (inr tt, mkRState b (lc_events s) (lc_world s)).
Definition change (f : TrafficBinding -> TrafficBinding) : K unit := fun s =>
  (inr tt, mkRState (f (lc_binding s)) (lc_events s) (lc_world s)).
Definition change_status (f : TrafficBindingStatus -> TrafficBindingStatus) : K unit :=
  change (fun b => set_status (f (tb_Status b)) b).

Definition event (kind reason message : string) : K unit := fun s =>
  (inr tt, mkRState (lc_binding s) (lc_events s ++ [mkEvent kind reason message]) (lc_world s)).

(** A call of the client. *)
Definition call {A} (c : W -> (kube_error + A) * W) : K A := fun s =>
  let '(r, w) := c (lc_world s) in
  (match r with inl e => inl (Failed e) | inr a => inr a end, mkRState (lc_binding s) (lc_events s) w).

(** The error as a value; a panic goes on. *)
Definition attempt {A} (m : K A) : K (kube_error + A) := fun s =>
  match m s with
  | (inl (Failed e), s') => (inr (inl e), s')
  | (inl Panicked, s') => (inl Panicked, s')
  | (inr a, s') => (inr (inr a), s')
  end.
End monad.
Arguments K W A : clear implicits.

Section status.
Context {W : Type} `{KubeClient W, MetaPackage}.

(** [TrafficBinding(Status).Patch(ctx, binding, client.MergeFrom(before))] *)
Definition patch_binding (before : TrafficBinding) : K W unit :=
  b ← the_binding; stored ← call (kc_Patch before b); put_binding stored.
Definition patch_binding_status (before : TrafficBinding) : K W unit :=
  b ← the_binding; stored ← call (kc_StatusPatch before b); put_binding stored.

Definition setCondition (conditionType status reason message : string) (b : TrafficBinding) : TrafficBinding :=
  set_status (set_conditions
    (SetStatusCondition (mkCondition conditionType status reason message (om_Generation (tb_Meta b)))
       (st_Conditions (tb_Status b))) (tb_Status b)) b.

Definition setAccepted (status reason message : string) : TrafficBinding -> TrafficBinding :=
  setCondition ConditionAccepted status reason message.

Definition accepted : TrafficBinding -> TrafficBinding :=
  setAccepted ConditionTrue "Accepted" "TrafficBinding specification is valid".

(** [reflect.DeepEqual] *)
Definition equalityStatus (left right : TrafficBindingStatus) : bool := bool_decide (left = right).

Definition patchStatus (before : TrafficBinding) : K W unit :=
  b ← the_binding;
  if equalityStatus (tb_Status before) (tb_Status b) then mret tt else patch_binding_status before.

(** [binding.Status.ObservedGeneration = binding.Generation], and the phase. *)
Definition enter_phase (phase : string) : K W unit :=
  change (fun b => set_status (set_phase phase (set_observed (om_Generation (tb_Meta b)) (tb_Status b))) b).

Definition setLifecycleStatus (phase reason message progressing : string) : K W unit :=
  before ← the_binding;
  enter_phase phase;;
  change accepted;;
  change (setCondition ConditionProgressing progressing reason message);;
  change (setCondition ConditionReady ConditionFalse reason message);;
  change (setCondition ConditionDegraded ConditionFalse reason message);;
  change (setCondition ConditionPaused ConditionFalse reason message);;
  change (setCondition ConditionRestored ConditionFalse reason message);;
  patchStatus before.

Definition setPending : K W unit :=
  setLifecycleStatus PhasePending "WaitingForRelay" "TrafficBinding is waiting for a Gateway relay assignment" ConditionFalse.

Definition setReconciling : K W unit :=
  b ← the_binding;
  setLifecycleStatus PhaseReconciling (ts_Mode (tb_Spec b) +:+ "Reconciling") "TrafficBinding is reconciling its desired state"
    ConditionTrue.

Definition setRestoring : K W unit :=
  setLifecycleStatus PhaseRestoring "Restoring" "TrafficBinding resources are being restored" ConditionTrue.

Definition setPausing : K W unit :=
  setLifecycleStatus PhasePausing "Pausing" "TrafficBinding resources are being restored before pausing" ConditionTrue.

Definition persistSnapshot (snapshot : ServiceSnapshot) : K W unit :=
  before ← the_binding;
  change_status (set_snapshot (Some snapshot));;
  enter_phase PhaseReconciling;;
  change_status (fun st => set_service (ss_ServiceName snapshot) (st_ServiceClusterIP st) st);;
  change (setCondition ConditionReady ConditionFalse "SnapshotCaptured" "Rollback snapshot was persisted before mutation");;
  change (setCondition ConditionProgressing ConditionTrue "SnapshotCaptured" "Rollback snapshot was persisted before mutation");;
  patch_binding_status before.

Definition setReady (before : TrafficBinding) : K W unit :=
  b ← the_binding;
  enter_phase PhaseReady;;
  change accepted;;
  change (setCondition ConditionProgressing ConditionFalse "Reconciled" "TrafficBinding reached its desired state");;
  change (setCondition ConditionReady ConditionTrue (ts_Mode (tb_Spec b) +:+ "Ready") "TrafficBinding reached its desired state");;
  change (setCondition ConditionDegraded ConditionFalse "Reconciled" "No reconciliation error is active");;
  change (setCondition ConditionPaused ConditionFalse "Active" "TrafficBinding is active");;
  change (setCondition ConditionRestored ConditionFalse "Active" "TrafficBinding is active and has not been restored");;
  b ← the_binding;
  if equalityStatus (tb_Status before) (tb_Status b) then mret tt
  else
    patch_binding_status before;;
    event EventTypeNormal "Ready" "TrafficBinding reached its desired state".

(** [strings.Map] decodes its argument: a byte that starts no character becomes
    U+FFFD. *)
Definition character (l : bytes) : option nat :=
  List.find (fun n => bool_decide (n <= length l)%nat && utf8_valid_bytes (take n l)) [1; 2; 3; 4]%nat.
Fixpoint map_printable (fuel : nat) (l : bytes) : bytes :=
  match fuel, l with
  | S fuel, b :: rest =>
      match character l with
      | Some 1%nat => if is_control b then map_printable fuel rest else b :: map_printable fuel rest
      | Some n => take n l ++ map_printable fuel (drop n l)
      | None => [xef; xbf; xbd]%byte ++ map_printable fuel rest
      end
  | _, _ => []
  end.

Definition safeMessage (e : kube_error) : string :=
  let text := string_to_bytes (Error_text e) in
  let message := map_printable (length text) text in
  bytes_to_string (if 512 <? len message then take 512 message else message).

Definition setDegraded (reason : string) (cause : kube_error) : K W unit :=
  before ← the_binding;
  enter_phase PhaseDegraded;;
  (if bool_decide (reason = "InvalidSpec") then change (setAccepted ConditionFalse reason (safeMessage cause)) else change accepted);;
  change (setCondition ConditionProgressing ConditionFalse reason (safeMessage cause));;
  change (setCondition ConditionReady ConditionFalse reason (safeMessage cause));;
  change (setCondition ConditionDegraded ConditionTrue reason (safeMessage cause));;
  change (setCondition ConditionPaused ConditionFalse reason (safeMessage cause));;
  patchStatus before.

(** What a failed restoration before a pause or a deletion is recorded as. *)
Definition record_failure (phase reason : string) (cause : kube_error) : K W unit :=
  before ← the_binding;
  enter_phase phase;;
  let message := safeMessage cause in
  change accepted;;
  change (setCondition ConditionProgressing ConditionFalse reason message);;
  change (setCondition ConditionReady ConditionFalse reason message);;
  change (setCondition ConditionDegraded ConditionTrue reason message);;
  change (setCondition ConditionPaused ConditionFalse reason message);;
  change (setCondition ConditionRestored ConditionFalse reason message);;
  patchStatus before.

Definition setPauseFailed (cause : kube_error) : K W unit := record_failure PhasePausing "PauseFailed" cause.
Definition setRestoreFailed (cause : kube_error) : K W unit := record_failure PhaseRestoring "RestoreFailed" cause.

Definition setPaused : K W unit :=
  before ← the_binding;
  enter_phase PhasePaused;;
  change_status (fun st => set_snapshot None (set_service (st_ServiceName st) "" st));;
  change accepted;;
  change (setCondition ConditionProgressing ConditionFalse "Paused" "Pausing completed");;
  change (setCondition ConditionReady ConditionFalse "Paused" "TrafficBinding is paused");;
  change (setCondition ConditionDegraded ConditionFalse "Paused" "Pausing completed");;
  change (setCondition ConditionPaused ConditionTrue "Paused" "TrafficBinding resources were restored");;
  change (setCondition ConditionRestored ConditionFalse "Paused" "TrafficBinding is retained");;
  patchStatus before.

Definition setRestored : K W unit :=
  before ← the_binding;
  enter_phase PhaseRestored;;
  change accepted;;
  change (setCondition ConditionProgressing ConditionFalse "Restored" "Restoration completed");;
  change (setCondition ConditionReady ConditionFalse "Restored" "TrafficBinding is no longer active");;
  change (setCondition ConditionDegraded ConditionFalse "Restored" "Restoration completed");;
  change (setCondition ConditionRestored ConditionTrue "Restored" "TrafficBinding resources were restored");;
  change (setCondition ConditionPaused ConditionFalse "Restored" "TrafficBinding is being deleted");;
  patchStatus before.

Definition reasonFor (e : kube_error) : string :=
  if isPermanent e then "InvalidOrConflictingState" else if IsNotFound e then "TargetNotFound" else "ReconcileFailed".
End status.
