(* ===== verification/TrafficBindingReconciler.v ===== *)
(** * The operator: reconciliation of traffic bindings
    ([controller/trafficbinding_controller.go], [trafficbinding_intercept.go],
    [trafficbinding_relay.go], [trafficbinding_preview.go],
    [trafficbinding_restore.go], [trafficbinding_target.go]) *)

From S2P Require Import Prelude GoLib External Netip IdentityStore TrafficBinding KubeClient TrafficBindingStatus.

(** [controllerutil] and [metav1]: owner references, set with the scheme. *)
Class OwnerPackage := {
  SetControllerReference : TrafficBinding -> ObjectMeta -> kube_error + ObjectMeta;
  SetOwnerReference : ObjectMeta -> ObjectMeta -> kube_error + ObjectMeta;
  IsControlledBy : ObjectMeta -> TrafficBinding -> bool
}.

(** What [Reconcile] returns: [ctrl.Result] and an error. *)
Record Outcome := mkOutcome { RequeueAfter : Z; outcome_err : option kube_error }.

Definition retryAfter : Z := 5 * Second.
Definition targetRecheckAfter : Z := 30 * Second.

Definition done_ : Outcome := mkOutcome 0 None.
Definition requeue : Outcome := mkOutcome Millisecond None.
Definition failed (e : kube_error) : Outcome := mkOutcome 0 (Some e).

Definition desiredState (b : TrafficBinding) : string :=
  if bool_decide (ts_DesiredState (tb_Spec b) = "") then DesiredStateActive else ts_DesiredState (tb_Spec b).

Definition awaitingRelay (b : TrafficBinding) : bool :=
  negb (bool_decide (ts_Mode (tb_Spec b) = ModePortForward)) && negb (bool_decide (is_Some (ts_Relay (tb_Spec b)))).

Definition ContainsFinalizer (b : TrafficBinding) : bool := bool_decide (bindingFinalizer ∈ om_Finalizers (tb_Meta b)).
Definition AddFinalizer (b : TrafficBinding) : TrafficBinding :=
  if ContainsFinalizer b then b
  else set_binding_meta (set_finalizers (om_Finalizers (tb_Meta b) ++ [bindingFinalizer]) (tb_Meta b)) b.
Definition RemoveFinalizer (b : TrafficBinding) : TrafficBinding :=
  set_binding_meta (set_finalizers (filter (fun f => f <> bindingFinalizer) (om_Finalizers (tb_Meta b))) (tb_Meta b)) b.

Section reconciler.
Context {W : Type} `{KubeClient W, MetaPackage, OwnerPackage, HashPackage, NameValidation, NetipPackage, UnicodePackage}.

Definition permanent {A} (message : string) : K W A := failure (Permanent message).

(** [if err := m; err != nil && !apierrors.IsNotFound(err) { return err }] *)
Definition ignoring_missing (m : K W unit) : K W unit :=
  r ← attempt m;
  match r with inl e => if IsNotFound e then mret tt else failure e | inr _ => mret tt end.

Definition in_namespace (b : TrafficBinding) (name : string) : NamespacedName := (om_Namespace (tb_Meta b), name).
Definition key_name (k : NamespacedName) : string := k.1 +:+ "/" +:+ k.2.

(** The owner that the annotation of a Service names. *)
Definition owner_of (m : ObjectMeta) : string := at_key (om_Annotations m) bindingUIDAnnotation.
Definition owned_by_another (m : ObjectMeta) (b : TrafficBinding) : bool :=
  negb (bool_decide (owner_of m = "")) && negb (bool_decide (owner_of m = om_UID (tb_Meta b))).

(** ** Capturing a Service ([trafficbinding_intercept.go]) *)

Definition slice_snapshot (s : EndpointSlice) : EndpointSliceSnapshot :=
  mkEndpointSliceSnapshot (om_Name (es_Meta s)) (es_AddressType s) (om_Labels (es_Meta s)) (om_Annotations (es_Meta s))
    (om_OwnerReferences (es_Meta s)) (es_Endpoints s) (es_Ports s).

(** The loop over the slices, with the number of endpoints so far. *)
Fixpoint capture_slices (key : NamespacedName) (endpointCount : Z) (items : list EndpointSlice)
    : kube_error + list EndpointSliceSnapshot :=
  match items with
  | [] => inr []
  | item :: rest =>
      let endpointCount := endpointCount + len (es_Endpoints item) in
      if maximumEndpointCount <? endpointCount
      then inl (Permanent ("Service " +:+ key_name key +:+ " has more than " +:+ number maximumEndpointCount +:+ " endpoints"))
      else match capture_slices key endpointCount rest with
           | inl e => inl e
           | inr l => inr (slice_snapshot item :: l)
           end
  end.

Definition ClusterIPNone : string := "None".
Definition ServiceTypeClusterIP : string := "ClusterIP".
Definition ServiceTypeExternalName : string := "ExternalName".

Definition captureService : K W ServiceSnapshot :=
  b ← the_binding;
  target ← non_nil (ts_Target (tb_Spec b));
  let key := in_namespace b (tt_Name target) in
  service ← call (kc_Get (A := Service) key);
  if bool_decide (svc_ClusterIP service = ClusterIPNone) || bool_decide (svc_Type service = ServiceTypeExternalName)
  then permanent ("Service " +:+ key_name key +:+ " cannot be intercepted")
  else
  _ ← of_check (resolvedServicePorts service (ts_Ports (tb_Spec b)));
  if owned_by_another (svc_Meta service) b
  then permanent ("Service " +:+ key_name key +:+ " is already owned by another TrafficBinding")
  else
  items ← call (kc_List (A := EndpointSlice) (InNamespace (om_Namespace (tb_Meta b))) [(serviceNameLabel, tt_Name target)]);
  if maximumSliceCount <? len items
  then permanent ("Service " +:+ key_name key +:+ " has more than " +:+ number maximumSliceCount +:+ " EndpointSlices")
  else
  captured ← of_check (capture_slices key 0 items);
  legacy ← attempt (call (kc_Get (A := Endpoints) key));
  let snapshot subsets hadEndpoints :=
    mkServiceSnapshot (tt_Name target) (om_UID (svc_Meta service)) (svc_Selector service) captured (0 <? len items) subsets
      hadEndpoints in
  match legacy with
  | inr l => mret (snapshot (eps_Subsets l) true)
  | inl e => if IsNotFound e then mret (snapshot [] false) else failure e
  end.

(** ** The slice of the relay ([trafficbinding_relay.go]) *)

Fixpoint endpoint_ports (ports : list TrafficPort) : K W (list EndpointPort) :=
  match ports with
  | [] => mret []
  | mapping :: rest =>
      port ← non_nil (tp_RelayPort mapping);
      l ← endpoint_ports rest;
      mret (mkEndpointPort (if bool_decide (tp_Name mapping = "") then None else Some (tp_Name mapping))
              (Some (coreProtocol (normalizedProtocol (tp_Protocol mapping)))) (Some port) "" :: l)
  end.

Definition AddressTypeIPv4 : string := "IPv4".
Definition AddressTypeIPv6 : string := "IPv6".

Definition address_type (address : string) : string :=
  match net_ParseIP address with
  | Some a => if addr_Is4 a || addr_Is4In6 a then AddressTypeIPv4 else AddressTypeIPv6
  | None => AddressTypeIPv4
  end.

Definition new_meta (namespace name : string) : ObjectMeta := mkObjectMeta namespace name "" 0 None None [] [] false.

Definition desiredRelaySlice (serviceName : string) (ports : list TrafficPort) : K W EndpointSlice :=
  b ← the_binding;
  endpointPorts ← endpoint_ports ports;
  address ← non_nil (ts_Relay (tb_Spec b));
  mret (mkEndpointSlice
    (applyBindingMetadata b (set_labels (Some {[serviceNameLabel := serviceName]})
       (new_meta (om_Namespace (tb_Meta b)) (managedEndpointSliceName b))))
    (address_type address) [mkEndpoint [address] (Some true) None ""] endpointPorts).

(** The current slice with the desired contents; whether they differ. *)
Definition with_slice_contents (desired current : EndpointSlice) : EndpointSlice :=
  mkEndpointSlice
    (set_owner_references (om_OwnerReferences (es_Meta desired)) (set_annotations (om_Annotations (es_Meta desired))
       (set_labels (om_Labels (es_Meta desired)) (es_Meta current))))
    (es_AddressType desired) (es_Endpoints desired) (es_Ports desired).
Definition same_slice (before current : EndpointSlice) : bool :=
  bool_decide (om_Labels (es_Meta before) = om_Labels (es_Meta current)) &&
  bool_decide (om_Annotations (es_Meta before) = om_Annotations (es_Meta current)) &&
  bool_decide (om_OwnerReferences (es_Meta before) = om_OwnerReferences (es_Meta current)) &&
  bool_decide (es_AddressType before = es_AddressType current) &&
  bool_decide (es_Endpoints before = es_Endpoints current) && bool_decide (es_Ports before = es_Ports current).

(** Get the object, or create it; an object that appeared meanwhile is read again.
    [None] after it was created. *)
Definition get_or_create {A} `{Resource A} (key : NamespacedName) (desired : A) : K W (option A) :=
  r ← attempt (call (kc_Get key));
  match r with
  | inr current => mret (Some current)
  | inl e =>
      if IsNotFound e then
        c ← attempt (call (kc_Create desired));
        match c with
        | inr _ => mret None
        | inl e => if IsAlreadyExists e then current ← call (kc_Get key); mret (Some current) else failure e
        end
      else failure e
  end.

Definition reconcileRelaySlice (service : Service) (ports : list TrafficPort) : K W unit :=
  b ← the_binding;
  desired ← desiredRelaySlice (om_Name (svc_Meta service)) ports;
  meta ← of_check (SetControllerReference b (es_Meta desired));
  meta ← of_check (SetOwnerReference (svc_Meta service) meta);
  let desired := set_slice_meta meta desired in
  let key := in_namespace b (om_Name (es_Meta desired)) in
  current ← get_or_create key desired;
  match current with
  | None => mret tt
  | Some before =>
      if negb (ownedByBinding (es_Meta before) b) || negb (IsControlledBy (es_Meta before) b)
      then permanent ("EndpointSlice " +:+ key_name key +:+ " is not owned by this TrafficBinding")
      else
        let current := with_slice_contents desired before in
        if same_slice before current then mret tt else _ ← call (kc_Patch before current); mret tt
  end.

(** ** Interception *)

(** The slices of the Service, but for that of the relay. *)
Fixpoint delete_slices (b : TrafficBinding) (items : list EndpointSlice) : K W unit :=
  match items with
  | [] => mret tt
  | item :: rest =>
      (if bool_decide (om_Name (es_Meta item) = managedEndpointSliceName b) && ownedByBinding (es_Meta item) b then mret tt
       else ignoring_missing (call (kc_Delete item)));;
      delete_slices b rest
  end.

Definition intercepted (b : TrafficBinding) (service : Service) : Service :=
  set_selector (Some ∅) (set_service_meta (applyBindingAnnotations b (svc_Meta service)) service).

Definition reconcileIntercept : K W unit :=
  b ← the_binding;
  snapshot ← non_nil (st_Snapshot (tb_Status b));
  let key := in_namespace b (ss_ServiceName snapshot) in
  service ← call (kc_Get (A := Service) key);
  if negb (bool_decide (om_UID (svc_Meta service) = ss_ServiceUID snapshot))
  then permanent ("Service " +:+ key_name key +:+ " was replaced after rollback capture")
  else
  ports ← of_check (resolvedServicePorts service (ts_Ports (tb_Spec b)));
  if owned_by_another (svc_Meta service) b
  then permanent ("Service " +:+ key_name key +:+ " is owned by another TrafficBinding")
  else
  let changed := intercepted b service in
  service ← (if negb (bool_decide (svc_Selector service = svc_Selector changed))
                || negb (bool_decide (om_Annotations (svc_Meta service) = om_Annotations (svc_Meta changed)))
             then call (kc_Patch service changed) else mret changed);
  items ← call (kc_List (A := EndpointSlice) (InNamespace (om_Namespace (tb_Meta b))) [(serviceNameLabel, om_Name (svc_Meta service))]);
  delete_slices b items;;
  ignoring_missing (call (kc_Delete (mkEndpoints (new_meta (om_Namespace (tb_Meta b)) (om_Name (svc_Meta service))) [])));;
  reconcileRelaySlice service ports.

(** ** Restoration ([trafficbinding_restore.go]) *)

Definition deleteManagedSlice : K W unit :=
  b ← the_binding;
  let key := in_namespace b (managedEndpointSliceName b) in
  r ← attempt (call (kc_Get (A := EndpointSlice) key));
  match r with
  | inl e => if IsNotFound e then mret tt else failure e
  | inr slice =>
      if negb (ownedByBinding (es_Meta slice) b)
      then permanent ("EndpointSlice " +:+ key_name key +:+ " is no longer owned by this TrafficBinding")
      else ignoring_missing (call (kc_Delete slice))
  end.

Definition snapshot_slice (namespace : string) (snapshot : EndpointSliceSnapshot) : EndpointSlice :=
  mkEndpointSlice (mkObjectMeta namespace (ess_Name snapshot) "" 0 (ess_Labels snapshot) (ess_Annotations snapshot)
      (ess_OwnerReferences snapshot) [] false)
    (ess_AddressType snapshot) (ess_Endpoints snapshot) (ess_Ports snapshot).

Definition restoreEndpointSlice (namespace : string) (snapshot : EndpointSliceSnapshot) : K W unit :=
  let desired := snapshot_slice namespace snapshot in
  current ← get_or_create (namespace, ess_Name snapshot) desired;
  match current with
  | None => mret tt
  | Some current => _ ← call (kc_Update (with_slice_contents desired current)); mret tt
  end.

Fixpoint restore_slices (namespace : string) (snapshots : list EndpointSliceSnapshot) : K W unit :=
  match snapshots with
  | [] => mret tt
  | s :: rest => restoreEndpointSlice namespace s;; restore_slices namespace rest
  end.

Definition restoreEndpoints (snapshot : ServiceSnapshot) : K W unit :=
  b ← the_binding;
  let key := in_namespace b (ss_ServiceName snapshot) in
  r ← attempt (call (kc_Get (A := Endpoints) key));
  match r with
  | inl e =>
      if IsNotFound e
      then _ ← call (kc_Create (mkEndpoints (new_meta key.1 key.2) (ss_EndpointSubsets snapshot))); mret tt
      else failure e
  | inr current => _ ← call (kc_Update (mkEndpoints (eps_Meta current) (ss_EndpointSubsets snapshot))); mret tt
  end.

Definition restored (snapshot : ServiceSnapshot) (service : Service) : Service :=
  set_service_meta (removeBindingMetadata (svc_Meta service)) (set_selector (ss_Selector snapshot) service).

Definition restoreService : K W unit :=
  b ← the_binding;
  snapshot ← non_nil (st_Snapshot (tb_Status b));
  let key := in_namespace b (ss_ServiceName snapshot) in
  r ← attempt (call (kc_Get (A := Service) key));
  match r with
  | inl e => if IsNotFound e then deleteManagedSlice else failure e
  | inr service =>
      if negb (bool_decide (om_UID (svc_Meta service) = ss_ServiceUID snapshot))
      then permanent ("Service " +:+ key_name key +:+ " was replaced; refusing rollback")
      else if owned_by_another (svc_Meta service) b
      then permanent ("Service " +:+ key_name key +:+ " is owned by another TrafficBinding")
      else
        _ ← call (kc_Patch service (restored snapshot service));
        deleteManagedSlice;;
        (if ss_HadEndpointSlices snapshot then restore_slices (om_Namespace (tb_Meta b)) (ss_EndpointSlices snapshot) else mret tt);;
        (if ss_HadEndpoints snapshot then restoreEndpoints snapshot else mret tt)
  end.

Definition cleanupInterceptWithoutSnapshot : K W unit :=
  b ← the_binding;
  if bool_decide (st_ServiceName (tb_Status b) = "") then mret tt
  else
  let key := in_namespace b (st_ServiceName (tb_Status b)) in
  r ← attempt (call (kc_Get (A := Service) key));
  match r with
  | inl e => if IsNotFound e then deleteManagedSlice else failure e
  | inr service =>
      if bool_decide (at_key (om_Annotations (svc_Meta service)) bindingNameAnnotation = om_Name (tb_Meta b))
         || bool_decide (owner_of (svc_Meta service) = om_UID (tb_Meta b))
      then permanent ("rollback snapshot is missing while Service " +:+ key_name key +:+ " is still intercepted")
      else deleteManagedSlice
  end.

(** ** Previews ([trafficbinding_preview.go]) *)

Fixpoint preview_ports (ports : list TrafficPort) : K W (list ServicePort) :=
  match ports with
  | [] => mret []
  | mapping :: rest =>
      relayPort ← non_nil (tp_RelayPort mapping);
      l ← preview_ports rest;
      mret (mkServicePort (servicePortName mapping) (coreProtocol (normalizedProtocol (tp_Protocol mapping)))
              (tp_TargetPort mapping) (FromInt32 relayPort) "" :: l)
  end.

Definition desiredPreviewService : K W Service :=
  b ← the_binding;
  ports ← preview_ports (ts_Ports (tb_Spec b));
  name ← non_nil (ts_Preview (tb_Spec b));
  mret (mkService (applyBindingMetadata b (new_meta (om_Namespace (tb_Meta b)) name)) ServiceTypeClusterIP "" None ports "").

Definition preview_contents (b : TrafficBinding) (ports : list ServicePort) (service : Service) : Service :=
  mkService (applyBindingMetadata b (svc_Meta service)) ServiceTypeClusterIP (svc_ClusterIP service) None ports (svc_Rest service).

Definition preview_changed (before service : Service) : bool :=
  negb (bool_decide (om_Labels (svc_Meta before) = om_Labels (svc_Meta service))) ||
  negb (bool_decide (om_Annotations (svc_Meta before) = om_Annotations (svc_Meta service))) ||
  negb (bool_decide (svc_Ports before = svc_Ports service)) ||
  negb (bool_decide (svc_Type before = svc_Type service)) || bool_decide (is_Some (svc_Selector before)).

Definition reconcilePreview : K W Service :=
  b ← the_binding;
  name ← non_nil (ts_Preview (tb_Spec b));
  let key := in_namespace b name in
  r ← attempt (call (kc_Get (A := Service) key));
  service ←
    match r with
    | inl e =>
        if IsNotFound e then
          service ← desiredPreviewService;
          meta ← of_check (SetControllerReference b (svc_Meta service));
          c ← attempt (call (kc_Create (set_service_meta meta service)));
          match c with
          | inr created => mret created
          | inl e => if IsAlreadyExists e then permanent ("Service " +:+ key_name key +:+ " already exists") else failure e
          end
        else failure e
    | inr before =>
        if negb (IsControlledBy (svc_Meta before) b)
        then permanent ("Service " +:+ key_name key +:+ " is not owned by this TrafficBinding")
        else
          desired ← desiredPreviewService;
          let service := preview_contents b (svc_Ports desired) before in
          if preview_changed before service then call (kc_Patch before service) else mret service
    end;
  ports ← of_check (resolvedServicePorts service (ts_Ports (tb_Spec b)));
  reconcileRelaySlice service ports;;
  mret service.

(** One of the two objects of a preview: errors are collected. *)
Definition delete_owned {A} `{Resource A} (key : NamespacedName) (b : TrafficBinding) (result : option kube_error)
    : K W (option kube_error) :=
  r ← attempt (call (kc_Get (A := A) key));
  match r with
  | inr object =>
      if ownedByBinding (r_meta object) b && IsControlledBy (r_meta object) b then
        d ← attempt (call (kc_Delete object));
        match d with
        | inl e => mret (if IsNotFound e then result else Some (errorsJoin result e))
        | inr _ => mret result
        end
      else mret result
  | inl e => mret (if IsNotFound e then result else Some (errorsJoin result e))
  end.

Definition deletePreview : K W unit :=
  b ← the_binding;
  result ← delete_owned (A := EndpointSlice) (in_namespace b (managedEndpointSliceName b)) b None;
  name ← non_nil (ts_Preview (tb_Spec b));
  result ← delete_owned (A := Service) (in_namespace b name) b result;
  match result with None => mret tt | Some e => failure e end.

(** ** Targets of port forwards ([trafficbinding_target.go]) *)

Definition validateTarget : K W unit :=
  b ← the_binding;
  target ← non_nil (ts_Target (tb_Spec b));
  port ← non_nil (head (ts_Ports (tb_Spec b)));
  let key := in_namespace b (tt_Name target) in
  if bool_decide (tt_Kind target = TargetKindPod) then _ ← call (kc_Get (A := Pod) key); mret tt
  else if bool_decide (tt_Kind target = TargetKindService) then
    service ← call (kc_Get (A := Service) key);
    _ ← of_check (servicePort service (tp_TargetPort port) (normalizedProtocol (tp_Protocol port)));
    mret tt
  else permanent ("target kind " +:+ quoted (tt_Kind target) +:+ " is unsupported").

(** ** Reconciliation ([trafficbinding_controller.go]) *)

Definition unsupported_mode {A} (b : TrafficBinding) : K W A :=
  permanent ("spec.mode " +:+ quoted (ts_Mode (tb_Spec b)) +:+ " is unsupported").

(** The interval after which to look again, and whether the binding has reached its
    state. *)
Definition reconcileActive : K W (Z * bool) :=
  b ← the_binding;
  if bool_decide (ts_Mode (tb_Spec b) = ModePortForward) then validateTarget;; mret (targetRecheckAfter, true)
  else if bool_decide (ts_Mode (tb_Spec b) = ModePreview) then
    service ← reconcilePreview;
    change_status (set_service (om_Name (svc_Meta service)) (svc_ClusterIP service));;
    mret (0, true)
  else if bool_decide (ts_Mode (tb_Spec b) ∈ [ModeExchange; ModeMirror]) then
    match st_Snapshot (tb_Status b) with
    | None =>
        snapshot ← captureService;
        persistSnapshot snapshot;;
        mret (Millisecond, false)
    | Some _ =>
        target ← non_nil (ts_Target (tb_Spec b));
        change_status (set_service (tt_Name target) "");;
        reconcileIntercept;;
        mret (0, true)
    end
  else unsupported_mode b.

Definition cleanup : K W unit :=
  b ← the_binding;
  if bool_decide (ts_Mode (tb_Spec b) = ModePortForward) then mret tt
  else if bool_decide (ts_Mode (tb_Spec b) = ModePreview) then deletePreview
  else if bool_decide (ts_Mode (tb_Spec b) ∈ [ModeExchange; ModeMirror]) then
    match st_Snapshot (tb_Status b) with
    | None => cleanupInterceptWithoutSnapshot
    | Some _ => restoreService
    end
  else unsupported_mode b.

Definition cleanupForPause : K W unit := cleanup.
Definition cleanupForDeletion : K W unit :=
  b ← the_binding; if bool_decide (desiredState b = DesiredStatePaused) then cleanupForPause else cleanup.

(** [if err := m; err != nil { return ctrl.Result{}, err }; return next] *)
Definition then_return (m : K W unit) (next : Outcome) : K W Outcome :=
  r ← attempt m; mret (match r with inl e => failed e | inr _ => next end).

(** An error that has been recorded in the status, or both errors. *)
Definition errors_Join (e statusErr : kube_error) : kube_error := JoinedError (String (Ascii.ascii_of_nat 10) "") e statusErr.

Definition reconcilePaused : K W Outcome :=
  b ← the_binding;
  let phase := st_Phase (tb_Status b) in
  if bool_decide (phase = PhasePaused) && (st_ObservedGeneration (tb_Status b) =? om_Generation (tb_Meta b)) then mret done_
  else if bool_decide (phase = PhasePaused) then then_return setPaused done_
  else if bool_decide (phase ∈ [PhasePending; ""]) then then_return setPaused done_
  else if negb (bool_decide (phase = PhasePausing)) then then_return setPausing requeue
  else
    r ← attempt cleanupForPause;
    match r with
    | inl e =>
        s ← attempt (setPauseFailed e);
        match s with
        | inl statusErr => mret (failed (errors_Join e statusErr))
        | inr _ => event EventTypeWarning "PauseFailed" (safeMessage e);; mret (mkOutcome retryAfter (Some e))
        end
    | inr _ =>
        s ← attempt setPaused;
        match s with
        | inl e => mret (failed e)
        | inr _ => event EventTypeNormal "Paused" "TrafficBinding resources were restored and paused";; mret done_
        end
    end.

(** The binding is being deleted. *)
Definition reconcileDeleted : K W Outcome :=
  b ← the_binding;
  let phase := st_Phase (tb_Status b) in
  if negb (ContainsFinalizer b) then mret done_
  else if bool_decide (phase = PhaseRestored) then
    change RemoveFinalizer;;
    r ← attempt (patch_binding b);
    mret (match r with inl e => if IsNotFound e then done_ else failed e | inr _ => done_ end)
  else if bool_decide (phase = PhasePaused) then then_return setRestored requeue
  else if negb (bool_decide (phase = PhaseRestoring)) then then_return setRestoring requeue
  else
    r ← attempt cleanupForDeletion;
    match r with
    | inl e =>
        s ← attempt (setRestoreFailed e);
        match s with
        | inl statusErr => mret (failed (errors_Join e statusErr))
        | inr _ => event EventTypeWarning "RestoreFailed" (safeMessage e);; mret (failed e)
        end
    | inr _ =>
        s ← attempt setRestored;
        match s with
        | inl e => mret (failed e)
        | inr _ => event EventTypeNormal "Restored" "TrafficBinding resources were restored";; mret requeue
        end
    end.

Definition addFinalizer : K W Outcome :=
  b ← the_binding;
  change AddFinalizer;;
  r ← attempt (patch_binding b);
  match r with
  | inl e => mret (failed e)
  | inr _ => then_return setPending requeue
  end.

(** An active binding with a relay, in a phase from which it is reconciled. *)
Definition activate : K W Outcome :=
  statusBase ← the_binding;
  r ← attempt reconcileActive;
  match r with
  | inr (after, false) => mret (mkOutcome after None)
  | inr (after, true) => then_return (setReady statusBase) (mkOutcome after None)
  | inl e =>
      s ← attempt (setDegraded (reasonFor e) e);
      match s with
      | inl statusErr => mret (failed (errors_Join e statusErr))
      | inr _ =>
          event EventTypeWarning (reasonFor e) (safeMessage e);;
          mret (if isPermanent e then done_ else mkOutcome retryAfter (Some e))
      end
  end.

Definition reconcileLive : K W Outcome :=
  b ← the_binding;
  let phase := st_Phase (tb_Status b) in
  match validateBinding b with
  | inl e => _ ← attempt (setDegraded "InvalidSpec" e); mret done_
  | inr _ =>
      if negb (ContainsFinalizer b) then addFinalizer
      else if bool_decide (desiredState b = DesiredStatePaused) then reconcilePaused
      else if awaitingRelay b then
        if negb (bool_decide (phase = PhasePending)) || negb (st_ObservedGeneration (tb_Status b) =? om_Generation (tb_Meta b))
        then then_return setPending done_ else mret done_
      else if negb (bool_decide (phase ∈ [PhaseReady; PhaseReconciling])) then then_return setReconciling requeue
      else activate
  end.

Definition Reconcile (request : NamespacedName) : K W Outcome :=
  r ← attempt (call (kc_Get (A := TrafficBinding) request));
  match r with
  | inl e => mret (if IsNotFound e then done_ else failed e)
  | inr b => put_binding b;; if om_Deleting (tb_Meta b) then reconcileDeleted else reconcileLive
  end.
End reconciler.
