(* ===== verification/KubeLogic.v ===== *)
(** * A program logic for the operator

    Triples over the binding in hand and the objects of the cluster.  An invariant
    of the cluster and one of the binding in hand hold before and after every step,
    also of a step that fails, and whatever others do in between. *)

From S2P Require Import Prelude TrafficBinding KubeClient TrafficBindingStatus.

Abbreviation Assertion := (TrafficBinding -> Cluster -> Prop).

(** What everybody keeps to. *)
Record Discipline {W : Type} `{KubeClient W} := mkDiscipline {
  k_others : Cluster -> Cluster -> Prop;
  k_inv : Cluster -> Prop;
  k_local : TrafficBinding -> Prop;
  others_inv : forall c c', k_inv c -> k_others c c' -> k_inv c'
}.
Arguments Discipline W {_}.

Section logic.
Context {W : Type} `{KC : KubeClient W} (d : Discipline W).
Implicit Types (P R F : Assertion) (s : RState W).

#[local] Abbreviation cl s := (kc_cluster (lc_world s)).

Definition triple {A} P (m : K W A) (Q : A -> Assertion) : Prop :=
  forall s r s', m s = (r, s') -> k_inv d (cl s) -> k_local d (lc_binding s) -> P (lc_binding s) (cl s) ->
  k_inv d (cl s') /\ k_local d (lc_binding s') /\ forall a, r = inr a -> Q a (lc_binding s') (cl s').

Definition stable P : Prop := forall b c c', k_inv d c -> k_others d c c' -> P b c -> P b c'.

Lemma kube_stable_true : stable (fun _ _ => True).
Proof. by intros b c c' _ _ _. Qed.

Lemma stable_local (phi : TrafficBinding -> Prop) : stable (fun b _ => phi b).
Proof. by intros b c c' _ _ Hp. Qed.

Lemma kube_stable_and P R : stable P -> stable R -> stable (fun b c => P b c /\ R b c).
Proof. intros HP HR b c c' Hi Ho [? ?]. split; [by apply (HP b c)|by apply (HR b c)]. Qed.

(** ** Structure *)

Lemma triple_conseq {A} P P' (m : K W A) (Q Q' : A -> Assertion) :
  triple P' m Q' -> (forall b c, k_inv d c -> k_local d b -> P b c -> P' b c) ->
  (forall a b c, k_inv d c -> k_local d b -> Q' a b c -> Q a b c) -> triple P m Q.
Proof.
  intros Hm HP HQ s r s' Hr Hi Hl Hp. destruct (Hm s r s' Hr Hi Hl (HP _ _ Hi Hl Hp)) as (Hi' & Hl' & Hq).
  split; [done|]. split; [done|]. intros a Ha. apply HQ; [done|done|by apply Hq].
Qed.

Lemma triple_pre {A} P P' (m : K W A) Q :
  triple P' m Q -> (forall b c, k_inv d c -> k_local d b -> P b c -> P' b c) -> triple P m Q.
Proof. intros Hm HP. by apply (triple_conseq P P' m Q Q). Qed.

Lemma triple_post {A} P (m : K W A) (Q Q' : A -> Assertion) :
  triple P m Q' -> (forall a b c, k_inv d c -> k_local d b -> Q' a b c -> Q a b c) -> triple P m Q.
Proof. intros Hm HQ. by apply (triple_conseq P P m Q Q'). Qed.

(** The invariants alone. *)
Lemma triple_weak {A} P P' (m : K W A) Q : triple P' m Q -> (forall b c, k_inv d c -> k_local d b -> P b c -> P' b c) -> triple P m (fun _ _ _ => True).
Proof. intros Hm HP. by apply (triple_conseq P P' m _ Q). Qed.

Lemma kube_triple_pure {A} (phi : Prop) P (m : K W A) Q : (phi -> triple P m Q) -> triple (fun b c => P b c /\ phi) m Q.
Proof. intros Hm s r s' Hr Hi Hl [Hp Hphi]. by apply (Hm Hphi s r s'). Qed.

(** What the invariant and the precondition say. *)
Lemma triple_facts {A} (phi : Prop) P (m : K W A) Q :
  (forall b c, k_inv d c -> k_local d b -> P b c -> phi) -> (phi -> triple P m Q) -> triple P m Q.
Proof. intros Hphi Hm s r s' Hr Hi Hl Hp. by apply (Hm (Hphi _ _ Hi Hl Hp) s r s'). Qed.

Lemma kube_triple_ret {A} (a : A) (Q : A -> Assertion) : triple (Q a) (mret a) Q.
Proof. intros s r s' [= <- <-] Hi Hl Hp. split; [done|]. split; [done|]. by intros ? [= <-]. Qed.

Lemma triple_return {A} P (a : A) (Q : A -> Assertion) :
  (forall b c, k_inv d c -> k_local d b -> P b c -> Q a b c) -> triple P (mret a) Q.
Proof. intros HQ s r s' [= <- <-] Hi Hl Hp. split; [done|]. split; [done|]. intros ? [= <-]. by apply HQ. Qed.

Lemma triple_failure {A} P e (Q : A -> Assertion) : triple P (failure e) Q.
Proof. by intros s r s' [= <- <-] Hi Hl Hp. Qed.

Lemma kube_triple_bind {A B} P (m : K W A) (f : A -> K W B) (Q : A -> Assertion) (S : B -> Assertion) :
  triple P m Q -> (forall a, triple (Q a) (f a) S) -> triple P (x ← m; f x) S.
Proof.
  intros Hm Hf s r s' Hr Hi Hl Hp. unfold mbind, K_bind in Hr. destruct (m s) as [[e|a] s1] eqn:Em;
    destruct (Hm s _ s1 Em Hi Hl Hp) as (Hi1 & Hl1 & Hq).
  - injection Hr as <- <-. split; [done|]. split; [done|]. done.
  - exact (Hf a s1 r s' Hr Hi1 Hl1 (Hq a eq_refl)).
Qed.

Lemma triple_seq {A B} P R (m : K W A) (n : K W B) (S : B -> Assertion) :
  triple P m (fun _ => R) -> triple R n S -> triple P (m;; n) S.
Proof. intros Hm Hn. by apply (kube_triple_bind P m (fun _ => n) (fun _ => R)). Qed.

Lemma triple_of_check {A} P (r : kube_error + A) : triple P (of_check r) (fun a b c => P b c /\ r = inr a).
Proof. destruct r as [e|a]; [apply triple_failure|]. intros s r s' [= <- <-] Hi Hl Hp. split; [done|]. split; [done|]. by intros ? [= <-]. Qed.

Lemma triple_non_nil {A} P (p : option A) : triple P (non_nil p) (fun a b c => P b c /\ p = Some a).
Proof. destruct p as [a|]; intros s r s' [= <- <-] Hi Hl Hp; (split; [done|]; split; [done|]); [by intros ? [= <-]|done]. Qed.

Lemma triple_the_binding P : triple P the_binding (fun a b c => P b c /\ b = a).
Proof. intros s r s' [= <- <-] Hi Hl Hp. split; [done|]. split; [done|]. by intros ? [= <-]. Qed.

(** The value of the binding in hand. *)
Lemma triple_with_binding {A} P (f : TrafficBinding -> K W A) Q :
  (forall v, k_local d v -> triple (fun b c => P b c /\ b = v) (f v) Q) -> triple P (b ← the_binding; f b) Q.
Proof.
  intros Hf s r s' Hr Hi Hl Hp. unfold mbind, K_bind, the_binding in Hr.
  exact (Hf (lc_binding s) Hl s r s' Hr Hi Hl (conj Hp eq_refl)).
Qed.

Lemma triple_put_binding P v (Q : unit -> Assertion) :
  k_local d v -> (forall b c, k_inv d c -> P b c -> Q tt v c) -> triple P (put_binding v) Q.
Proof. intros Hv HQ s r s' [= <- <-] Hi Hl Hp. cbn. split; [done|]. split; [done|]. intros [] _. by apply (HQ (lc_binding s)). Qed.

Lemma triple_change P f (Q : unit -> Assertion) :
  (forall b, k_local d b -> k_local d (f b)) -> (forall b c, k_inv d c -> k_local d b -> P b c -> Q tt (f b) c) ->
  triple P (change f) Q.
Proof. intros Hf HQ s r s' [= <- <-] Hi Hl Hp. cbn. split; [done|]. split; [by apply Hf|]. intros [] _. by apply HQ. Qed.

Lemma triple_event P x y z : triple P (event x y z) (fun _ => P).
Proof. intros s r s' [= <- <-] Hi Hl Hp. cbn. by split. Qed.

Lemma kube_triple_attempt {A} P (m : K W A) (Q : A -> Assertion) :
  triple P m Q -> triple P (attempt m) (fun r b c => match r with inl _ => True | inr a => Q a b c end).
Proof.
  intros Hm s r s' Hr Hi Hl Hp. unfold attempt in Hr. destruct (m s) as [r1 s1] eqn:Em.
  destruct (Hm s r1 s1 Em Hi Hl Hp) as (Hi' & Hl' & Hq).
  destruct r1 as [[e|]|a]; injection Hr as <- <-; (split; [done|]; split; [done|]).
  - by intros ? [= <-].
  - done.
  - intros ? [= <-]. by apply Hq.
Qed.

(** ** Calls *)

Lemma triple_read {A} P (c : W -> (kube_error + A) * W) gives (Q : A -> Assertion) :
  reads (k_others d) c gives -> stable P ->
  (forall a b x, k_inv d x -> k_local d b -> gives (inr a) x -> P b x -> Q a b x) -> triple P (call c) Q.
Proof.
  intros Hc Hst HQ s r s' Hr Hi Hl Hp. unfold call in Hr. destruct (c (lc_world s)) as [r1 w1] eqn:Ec.
  destruct (Hc _ _ _ Ec) as [Ho Hg]. pose proof (others_inv d _ _ Hi Ho) as Hi'. injection Hr as <- <-. cbn.
  split; [done|]. split; [done|]. intros a Ha. destruct r1 as [e|a1]; [done|]. injection Ha as ->.
  apply HQ; [done|done|done|by apply (Hst _ _ _ Hi Ho)].
Qed.

Lemma triple_try_read {A} P (c : W -> (kube_error + A) * W) gives :
  reads (k_others d) c gives -> stable P -> triple P (attempt (call c)) (fun r b x => P b x /\ gives r x).
Proof.
  intros Hc Hst s r s' Hr Hi Hl Hp. unfold attempt, call in Hr. destruct (c (lc_world s)) as [r1 w1] eqn:Ec.
  destruct (Hc _ _ _ Ec) as [Ho Hg]. pose proof (others_inv d _ _ Hi Ho) as Hi'.
  destruct r1 as [e|a]; injection Hr as <- <-; cbn; (split; [done|]; split; [done|]); intros ? [= <-];
    (split; [by apply (Hst _ _ _ Hi Ho)|done]).
Qed.

Lemma triple_write {A} P (c : W -> (kube_error + A) * W) effect (Q : A -> Assertion) :
  writes (k_others d) c effect -> stable P ->
  (forall b x a x', k_inv d x -> k_local d b -> P b x -> effect x a x' -> k_inv d x' /\ Q a b x') -> triple P (call c) Q.
Proof.
  intros Hc Hst HQ s r s' Hr Hi Hl Hp. unfold call in Hr. destruct (c (lc_world s)) as [r1 w1] eqn:Ec.
  destruct (Hc _ _ _ Ec) as (x & Ho & Hg). pose proof (others_inv d _ _ Hi Ho) as Hi'. pose proof (Hst _ _ _ Hi Ho Hp) as Hp'.
  injection Hr as <- <-. cbn. destruct r1 as [e|a].
  - destruct Hg as [->|[a Ha]]; [done|]. by destruct (HQ _ _ _ _ Hi' Hl Hp' Ha).
  - destruct (HQ _ _ _ _ Hi' Hl Hp' Hg) as [? ?]. split; [done|]. split; [done|]. by intros ? [= <-].
Qed.

(** A write whose failure is looked at: [R] holds whether or not it took place. *)
Lemma triple_try_write {A} P R (c : W -> (kube_error + A) * W) effect :
  writes (k_others d) c effect -> stable P -> (forall b x, k_inv d x -> P b x -> R b x) ->
  (forall b x a x', k_inv d x -> k_local d b -> P b x -> effect x a x' -> k_inv d x' /\ R b x') ->
  triple P (attempt (call c)) (fun _ => R).
Proof.
  intros Hc Hst HPR HQ s r s' Hr Hi Hl Hp. unfold attempt, call in Hr. destruct (c (lc_world s)) as [r1 w1] eqn:Ec.
  destruct (Hc _ _ _ Ec) as (x & Ho & Hg). pose proof (others_inv d _ _ Hi Ho) as Hi'. pose proof (Hst _ _ _ Hi Ho Hp) as Hp'.
  assert (Hend : k_inv d (kc_cluster w1) /\ R (lc_binding s) (kc_cluster w1)).
  { destruct r1 as [e|a]; [|by apply (HQ _ x a)]. destruct Hg as [->|[a Ha]]; [split; [done|by apply HPR]|by apply (HQ _ x a)]. }
  destruct Hend. destruct r1 as [e|a]; injection Hr as <- <-; cbn; (split; [done|]; split; [done|]); by intros ? [= <-].
Qed.
End logic.

(** ** Computations that leave the binding in hand alone *)

Lemma attempt_call {W A} (c : W -> (kube_error + A) * W) s :
  attempt (call c) s = let '(r, w) := c (lc_world s) in (inr r, mkRState (lc_binding s) (lc_events s) w).
Proof. unfold attempt, call. by destruct (c (lc_world s)) as [[e|a] w]. Qed.

Section keeps.
Context {W : Type} `{KC : KubeClient W}.

Definition keeps {A} (m : K W A) : Prop := forall s r s', m s = (r, s') -> lc_binding s' = lc_binding s.

Lemma kube_keeps_ret {A} (a : A) : keeps (mret a).
Proof. by intros s r s' [= _ <-]. Qed.
Lemma keeps_failure {A} e : keeps (failure (A := A) e).
Proof. by intros s r s' [= _ <-]. Qed.
Lemma keeps_of_check {A} (r : kube_error + A) : keeps (of_check r).
Proof. destruct r; [apply keeps_failure|apply kube_keeps_ret]. Qed.
Lemma keeps_non_nil {A} (p : option A) : keeps (non_nil p).
Proof. destruct p; by intros s r s' [= _ <-]. Qed.
Lemma keeps_the_binding : keeps the_binding.
Proof. by intros s r s' [= _ <-]. Qed.
Lemma keeps_call {A} (c : W -> (kube_error + A) * W) : keeps (call c).
Proof. intros s r s' Hr. unfold call in Hr. destruct (c (lc_world s)). by injection Hr as _ <-. Qed.
Lemma kube_keeps_bind {A B} (m : K W A) (f : A -> K W B) : keeps m -> (forall a, keeps (f a)) -> keeps (x ← m; f x).
Proof.
  intros Hm Hf s r s' Hr. unfold mbind, K_bind in Hr. destruct (m s) as [[e|a] s1] eqn:Em.
  - injection Hr as _ <-. exact (Hm s _ s1 Em).
  - rewrite (Hf a s1 r s' Hr). exact (Hm s _ s1 Em).
Qed.
Lemma keeps_attempt {A} (m : K W A) : keeps m -> keeps (attempt m).
Proof.
  intros Hm s r s' Hr. unfold attempt in Hr. destruct (m s) as [[[e|]|a] s1] eqn:Em; injection Hr as _ <-; exact (Hm s _ s1 Em).
Qed.

(** What is known of the binding in hand is kept. *)
Lemma triple_keeps (d : Discipline W) {A} (phi : TrafficBinding -> Prop) P (m : K W A) (Q : A -> Assertion) :
  keeps m -> triple d P m Q -> triple d (fun b c => P b c /\ phi b) m (fun a b c => Q a b c /\ phi b).
Proof.
  intros Hk Hm s r s' Hr Hi Hl [Hp Hphi]. destruct (Hm s r s' Hr Hi Hl Hp) as (Hi' & Hl' & Hq).
  split; [done|]. split; [done|]. intros a Ha. split; [by apply Hq|]. by rewrite (Hk s r s' Hr).
Qed.
End keeps.

Create HintDb keeps.
#[export] Hint Resolve kube_keeps_ret keeps_failure keeps_of_check keeps_non_nil keeps_the_binding keeps_call keeps_attempt : keeps.
#[export] Hint Extern 1 (keeps (mbind _ _)) => apply kube_keeps_bind; [|intros ?] : keeps.
#[export] Hint Extern 2 (keeps (match ?x with _ => _ end)) => destruct x : keeps.

Arguments kube_triple_bind {W KC d A B P m f} Q {S} _ _.
Arguments triple_seq {W KC d A B P} R {m n S} _ _.
Arguments triple_conseq {W KC d A P} P' {m Q} Q' _ _ _.
Arguments triple_pre {W KC d A P} P' {m Q} _ _.
Arguments triple_post {W KC d A P m Q} Q' _ _.
