(* ===== verification/TrafficBindingFacts.v ===== *)
(** * Interception is reversible

    An exchange or a mirror empties the selector of a Service and marks it; before
    that the operator stores the selector in the status of the binding.  Whatever
    calls fail, and whatever others do within their rights, the Service has its own
    selector or the binding that holds it is there to restore it. *)

From S2P Require Import Prelude GoLib External Netip IdentityStore TrafficBinding KubeClient.
From S2P Require Import TrafficBindingStatus TrafficBindingReconciler KubeLogic.

(** ** Merge patches *)

Lemma entries_stored m : entries (stored_map m) = m.
Proof. unfold stored_map. by case_bool_decide as Hm; [rewrite Hm|]. Qed.

Lemma merge_field_same {A} `{EqDecision A} (x c : A) : merge_field x x c = c.
Proof. unfold merge_field. by rewrite bool_decide_true. Qed.

(** A field that the others keep has the new value. *)
Lemma merge_field_kept {A} `{EqDecision A} (x y : A) : merge_field x y x = y.
Proof. unfold merge_field. by case_bool_decide. Qed.

Lemma merge_entries_lookup before after current k :
  merge_entries before after current !! k = if decide (after !! k = before !! k) then current !! k else after !! k.
Proof.
  unfold merge_entries. rewrite lookup_union, !map_lookup_filter. destruct (decide (after !! k = before !! k)) as [He|He].
  - destruct (after !! k) as [x|] eqn:Ha; cbn; [rewrite option_guard_False by (cbn; congruence)|]; cbn;
      (destruct (current !! k) as [y|]; cbn; [rewrite option_guard_True by (cbn; congruence)|]; done).
  - destruct (after !! k) as [x|] eqn:Ha; cbn; [rewrite option_guard_True by (cbn; congruence)|]; cbn;
      (destruct (current !! k) as [y|]; cbn; [rewrite option_guard_False by (cbn; congruence)|]; done).
Qed.

Lemma merge_entries_same m c : merge_entries m m c = c.
Proof. apply map_eq. intros k. rewrite merge_entries_lookup. by rewrite decide_True. Qed.

Lemma merge_entries_kept x y : merge_entries x y x = y.
Proof. apply map_eq. intros k. rewrite merge_entries_lookup. by case_decide. Qed.

Lemma merge_map_entries before after current :
  entries (merge_map before after current) =
  if bool_decide (entries after = ∅) && negb (bool_decide (entries before = ∅)) then ∅
  else merge_entries (entries before) (entries after) (entries current).
Proof. unfold merge_map. by rewrite entries_stored. Qed.

Lemma merge_map_same before after current : entries before = entries after -> entries (merge_map before after current) = entries current.
Proof.
  intros He. rewrite merge_map_entries, He, merge_entries_same. by destruct (bool_decide (entries after = ∅)).
Qed.

(** A map that the others keep becomes the new one. *)
Lemma merge_map_kept before after current :
  entries current = entries before -> entries (merge_map before after current) = entries after.
Proof.
  intros He. rewrite merge_map_entries, He, merge_entries_kept. case_bool_decide as Ha; [|done]. by destruct (negb _).
Qed.

(** One key: it keeps its value or gets the new one; or the whole map goes. *)
Lemma merge_map_at before after current k :
  (at_key (merge_map before after current) k =
     if decide (entries after !! k = entries before !! k) then at_key current k else at_key after k) \/
  (entries after = ∅ /\ entries before <> ∅ /\ at_key (merge_map before after current) k = "").
Proof.
  unfold at_key. rewrite merge_map_entries. case_bool_decide as Ha; case_bool_decide as Hb; cbn; rewrite ?merge_entries_lookup.
  - left. by case_decide.
  - right. by rewrite lookup_empty.
  - left. by case_decide.
  - left. by case_decide.
Qed.

Lemma merge_meta_name before after current :
  om_Namespace (merge_meta before after current) = om_Namespace current /\ om_Name (merge_meta before after current) = om_Name current /\
  om_UID (merge_meta before after current) = om_UID current /\ om_Deleting (merge_meta before after current) = om_Deleting current.
Proof. done. Qed.

(** ** The metadata of bindings *)

Lemma uid_not_name : bindingUIDAnnotation <> bindingNameAnnotation.
Proof. by vm_compute. Qed.
Lemma uid_not_mode : bindingModeAnnotation <> bindingUIDAnnotation.
Proof. by vm_compute. Qed.

Section metadata.
Context `{HashPackage}.

Lemma applied_annotations b m :
  entries (om_Annotations (applyBindingAnnotations b m)) !! bindingUIDAnnotation = Some (om_UID (tb_Meta b)).
Proof.
  cbn. rewrite lookup_insert_ne by exact uid_not_mode. by rewrite lookup_insert_eq.
Qed.

Lemma owner_applied b m : owner_of (applyBindingAnnotations b m) = om_UID (tb_Meta b).
Proof. unfold owner_of, at_key. by rewrite applied_annotations. Qed.

Lemma removed_annotations m : entries (om_Annotations (removeBindingMetadata m)) !! bindingUIDAnnotation = None.
Proof.
  cbn. destruct (om_Annotations m) as [a|]; cbn; [|done]. rewrite lookup_delete_ne by exact uid_not_mode. by rewrite lookup_delete_eq.
Qed.

(** What a patch that marks a Service leaves on it. *)
Lemma marked_service b service current :
  entries (svc_Selector current) = entries (svc_Selector service) ->
  owner_of (svc_Meta current) = owner_of (svc_Meta service) ->
  let s := merge_service service (intercepted b service) current in
  owner_of (svc_Meta s) = om_UID (tb_Meta b) /\ entries (svc_Selector s) = ∅.
Proof.
  intros Hsel Hown. cbn zeta. unfold merge_service, intercepted. cbn [svc_Meta svc_Selector set_selector set_service_meta].
  split; [|by rewrite merge_map_kept].
  unfold owner_of in *. cbn [om_Annotations merge_meta].
  set (after := om_Annotations (applyBindingAnnotations b (svc_Meta service))).
  assert (Hafter : entries after !! bindingUIDAnnotation = Some (om_UID (tb_Meta b))) by apply applied_annotations.
  destruct (merge_map_at (om_Annotations (svc_Meta service)) after (om_Annotations (svc_Meta current)) bindingUIDAnnotation)
    as [->|(He & _ & _)].
  - unfold at_key in *. rewrite Hafter. case_decide as Hd; [|done]. rewrite Hown, <- Hd. done.
  - rewrite He, lookup_empty in Hafter. discriminate.
Qed.

(** What a patch that restores it leaves. *)
Lemma restored_service snapshot service current :
  entries (svc_Selector current) = entries (svc_Selector service) ->
  owner_of (svc_Meta current) = owner_of (svc_Meta service) ->
  let s := merge_service service (restored snapshot service) current in
  owner_of (svc_Meta s) = "" /\ entries (svc_Selector s) = entries (ss_Selector snapshot).
Proof.
  intros Hsel Hown. cbn zeta. unfold merge_service, restored. cbn [svc_Meta svc_Selector set_selector set_service_meta].
  split; [|by rewrite merge_map_kept].
  unfold owner_of in *. cbn [om_Annotations merge_meta].
  set (after := om_Annotations (removeBindingMetadata (svc_Meta service))).
  assert (Hafter : entries after !! bindingUIDAnnotation = None) by apply removed_annotations.
  destruct (merge_map_at (om_Annotations (svc_Meta service)) after (om_Annotations (svc_Meta current)) bindingUIDAnnotation)
    as [->|(_ & _ & ->)]; [|done].
  unfold at_key in *. rewrite Hafter. case_decide as Hd; [|done]. rewrite Hown, <- Hd. done.
Qed.
End metadata.

(** ** What leaves the binding in hand alone *)

Section keeps.
Context {W : Type} `{KC : KubeClient W} `{KM : MetaPackage} `{KO : OwnerPackage} `{KH : HashPackage} `{KN : NameValidation}
  `{KI : NetipPackage} `{KU : UnicodePackage}.

Lemma keeps_get_or_create {A} `{Resource A} key (desired : A) : keeps (W := W) (get_or_create key desired).
Proof. unfold get_or_create. auto 10 with keeps. Qed.
Lemma keeps_endpoint_ports l : keeps (W := W) (endpoint_ports l).
Proof. induction l; cbn; auto 10 with keeps. Qed.
Lemma keeps_ignoring_missing m : keeps (W := W) m -> keeps (ignoring_missing m).
Proof. intros Hm. unfold ignoring_missing. auto 10 with keeps. Qed.
Lemma keeps_delete_slices b items : keeps (W := W) (delete_slices b items).
Proof. induction items; cbn; [auto with keeps|]. apply kube_keeps_bind; [destruct (_ && _); auto using keeps_ignoring_missing with keeps|done]. Qed.
Lemma keeps_reconcileRelaySlice service ports : keeps (W := W) (reconcileRelaySlice service ports).
Proof.
  unfold reconcileRelaySlice, desiredRelaySlice, permanent. auto 20 using keeps_endpoint_ports, keeps_get_or_create with keeps.
Qed.
Lemma keeps_reconcileIntercept : keeps (W := W) reconcileIntercept.
Proof.
  unfold reconcileIntercept, permanent. auto 30 using keeps_delete_slices, keeps_ignoring_missing, keeps_reconcileRelaySlice with keeps.
Qed.
Lemma keeps_captureService : keeps (W := W) captureService.
Proof. unfold captureService, permanent. auto 30 with keeps. Qed.
End keeps.

(** ** The invariant

    One binding, at [bk] with the identifier [buid], that exchanges or mirrors the
    Service [sname]; the Service that has the identifier [suid] has the selector
    [selector]. *)

Section reversible.
Context {W : Type} `{KC : KubeClient W} `{KM : MetaPackage} `{KO : OwnerPackage} `{KH : HashPackage} `{KN : NameValidation}
  `{KI : NetipPackage} `{KU : UnicodePackage}.
Context (bk : NamespacedName) (buid sname suid : string) (selector : StringMap).

Definition sk : NamespacedName := (bk.1, sname).

Definition identified (b : TrafficBinding) : Prop :=
  object_key b = bk /\ om_UID (tb_Meta b) = buid /\ ts_Mode (tb_Spec b) ∈ [ModeExchange; ModeMirror] /\
  tt_Name <$> ts_Target (tb_Spec b) = Some sname.

Definition faithful_snapshot (snap : ServiceSnapshot) : Prop :=
  ss_ServiceName snap = sname /\ (ss_ServiceUID snap = suid -> entries (ss_Selector snap) = selector).

Definition binding_ok (b : TrafficBinding) : Prop :=
  identified b /\ forall snap, st_Snapshot (tb_Status b) = Some snap -> faithful_snapshot snap.

(** In the other phases the Service is not intercepted. *)
Definition active_phase (phase : string) : Prop := phase ∉ [PhasePending; ""; PhasePaused; PhaseRestored].

(** The binding that can restore the Service. *)
Definition armed_by (snap : ServiceSnapshot) (b : TrafficBinding) : Prop :=
  ContainsFinalizer b = true /\ active_phase (st_Phase (tb_Status b)) /\ is_Some (ts_Relay (tb_Spec b)) /\
  st_Snapshot (tb_Status b) = Some snap.

Definition armed (snap : ServiceSnapshot) (c : Cluster) : Prop :=
  exists b, trafficbindings c !! bk = Some b /\ armed_by snap b.

Definition service_ok (c : Cluster) (s : Service) : Prop :=
  (owner_of (svc_Meta s) = "" /\ entries (svc_Selector s) = selector) \/
  (owner_of (svc_Meta s) = buid /\ entries (svc_Selector s) = ∅ /\ exists snap, armed snap c /\ ss_ServiceUID snap = suid).

Definition reversible (c : Cluster) : Prop :=
  (forall b, trafficbindings c !! bk = Some b -> binding_ok b) /\
  (forall s, services c !! sk = Some s -> object_key s = sk /\ (om_UID (svc_Meta s) = suid -> service_ok c s)).

(** ** What others may do

    They keep the workload of the binding, the fields of its status that the
    operator owns and its finalizer, take its relay away only before it is active,
    and leave the mark and the selector of the Service alone. *)

Definition kept_binding (b b' : TrafficBinding) : Prop :=
  (identified b -> identified b') /\ st_Phase (tb_Status b') = st_Phase (tb_Status b) /\ st_Snapshot (tb_Status b') = st_Snapshot (tb_Status b) /\
  (ContainsFinalizer b = true -> ContainsFinalizer b' = true) /\
  (active_phase (st_Phase (tb_Status b)) -> is_Some (ts_Relay (tb_Spec b)) -> is_Some (ts_Relay (tb_Spec b'))).

Definition respectful (c c' : Cluster) : Prop :=
  (forall b', trafficbindings c' !! bk = Some b' -> exists b, trafficbindings c !! bk = Some b /\ kept_binding b b') /\
  (forall b, trafficbindings c !! bk = Some b -> ContainsFinalizer b = true -> is_Some (trafficbindings c' !! bk)) /\
  (forall s', services c' !! sk = Some s' -> (object_key s' = sk \/ services c !! sk = Some s') /\
     (om_UID (svc_Meta s') = suid ->
      exists s, services c !! sk = Some s /\ om_UID (svc_Meta s) = suid /\ owner_of (svc_Meta s') = owner_of (svc_Meta s) /\
        entries (svc_Selector s') = entries (svc_Selector s))).

Definition unmarked (c : Cluster) : Prop :=
  forall s, services c !! sk = Some s -> om_UID (svc_Meta s) = suid -> owner_of (svc_Meta s) = "".

Definition no_snapshot_stored (c : Cluster) : Prop :=
  forall b, trafficbindings c !! bk = Some b -> st_Snapshot (tb_Status b) = None.

Lemma armed_kept snap c c' : respectful c c' -> armed snap c -> armed snap c'.
Proof.
  intros (Hb & Hf & _) (b & Hk & Hfin & Hact & Hrel & Hsnap). destruct (Hf b Hk Hfin) as [b' Hb'].
  destruct (Hb b' Hb') as (b1 & Hk1 & Hid & Hph & Hs & Hf1 & Hr1). assert (b1 = b) as -> by congruence.
  exists b'. split; [done|]. split; [by apply Hf1|]. split; [by rewrite Hph|]. split; [by apply Hr1|congruence].
Qed.

Lemma unmarked_kept c c' : respectful c c' -> unmarked c -> unmarked c'.
Proof.
  intros (_ & _ & Hs) Hu s' Hs' Huid. destruct (Hs s' Hs') as [_ Hkept]. destruct (Hkept Huid) as (s & Hsk & Hsu & Ho & _).
  rewrite Ho. by apply Hu.
Qed.

Lemma no_snapshot_kept c c' : respectful c c' -> no_snapshot_stored c -> no_snapshot_stored c'.
Proof. intros (Hb & _) Hn b' Hb'. destruct (Hb b' Hb') as (b & Hk & _ & _ & Hs & _). rewrite Hs. by apply Hn. Qed.

Lemma reversible_kept c c' : reversible c -> respectful c c' -> reversible c'.
Proof.
  intros [Hok Hsvc] Hr. split.
  - intros b' Hb'. destruct Hr as [Hb _]. destruct (Hb b' Hb') as (b & Hk & Hid & _ & Hs & _). destruct (Hok b Hk) as [Hidb Hf].
    split; [by apply Hid|]. by rewrite Hs.
  - intros s' Hs'. pose proof Hr as (_ & _ & Hss). destruct (Hss s' Hs') as [Hkey Hkept].
    split; [destruct Hkey as [?|Hk]; [done|by apply (Hsvc s' Hk)]|]. intros Huid.
    destruct (Hkept Huid) as (s & Hsk & Hsu & Ho & Hsel). destruct (Hsvc s Hsk) as [_ Hold].
    destruct (Hold Hsu) as [[H1 H2]|(H1 & H2 & snap & Ha & Hu)].
    + left. split; congruence.
    + right. split; [congruence|]. split; [congruence|]. exists snap. split; [by apply (armed_kept snap c)|done].
Qed.

(** ** The operator *)

Context (others : Cluster -> Cluster -> Prop) `{KW : !KubeWrites others} `{KB : !CurrentReads TrafficBinding others}
  `{KS : !CurrentReads Service others}.
Hypothesis buid_given : buid <> "".
Hypothesis others_respect : forall c c', others c c' -> respectful c c'.

Definition discipline : Discipline W := {|
  k_others := others; k_inv := reversible; k_local := identified;
  others_inv := fun c c' Hi Ho => reversible_kept c c' Hi (others_respect c c' Ho) |}.

#[local] Abbreviation proves := (triple discipline).

(** Facts about the bindings and the Services that others keep. *)
Definition steady (P : Cluster -> Prop) : Prop :=
  (forall c c', others c c' -> P c -> P c') /\
  (forall c c', services c' = services c -> trafficbindings c' = trafficbindings c -> P c -> P c').

Lemma steady_stable P : steady P -> stable discipline (fun _ c => P c).
Proof. intros [Hs _] b c c' _ Ho Hp. by apply (Hs c). Qed.

Lemma steady_true : steady (fun _ => True).
Proof. done. Qed.

Lemma steady_unmarked : steady unmarked.
Proof.
  split; [intros c c' Ho; by apply unmarked_kept, others_respect|]. intros c c' Hs Hb Hu s Hk. rewrite Hs in Hk. by apply Hu.
Qed.

Lemma steady_armed snap : steady (armed snap).
Proof.
  split; [intros c c' Ho; by apply armed_kept, others_respect|]. intros c c' Hs Hb (b & Hk & Hrest). exists b. by rewrite Hb.
Qed.

Lemma steady_no_snapshot : steady no_snapshot_stored.
Proof.
  split; [intros c c' Ho; by apply no_snapshot_kept, others_respect|]. intros c c' Hs Hb Hn b Hk. rewrite Hb in Hk. by apply Hn.
Qed.

Lemma steady_and P R : steady P -> steady R -> steady (fun c => P c /\ R c).
Proof. intros [HP1 HP2] [HR1 HR2]. split; intros c c'; [intros Ho [? ?]|intros Hs Hb [? ?]]; (split; [eauto|eauto]). Qed.

Lemma reversible_same c c' : services c' = services c -> trafficbindings c' = trafficbindings c -> reversible c -> reversible c'.
Proof.
  intros Hs Hb [H1 H2]. split; [rewrite Hb; done|]. rewrite Hs. intros s Hk. destruct (H2 s Hk) as [Hkey Hok]. split; [done|].
  intros Hu. destruct (Hok Hu) as [?|(? & ? & snap & Ha & ?)]; [by left|right]. split; [done|]. split; [done|]. exists snap.
  split; [|done]. by apply (proj2 (steady_armed snap) c).
Qed.

(** Writes to the tables of slices and of endpoints. *)

Lemma proves_elsewhere {A} P (c : W -> (kube_error + A) * W) effect :
  writes others c effect -> (forall x a x', effect x a x' -> services x' = services x /\ trafficbindings x' = trafficbindings x) ->
  steady P -> proves (fun _ => P) (attempt (call c)) (fun _ _ => P).
Proof.
  intros Hc He HP. apply (triple_try_write discipline _ (fun _ => P) c effect); [done|by apply steady_stable|done|].
  intros b x a x' Hi Hl Hp Hx. destruct (He x a x' Hx) as [Hs Hb]. split; [by apply (reversible_same x)|by apply (proj2 HP x)].
Qed.

Lemma proves_elsewhere_call {A} P (c : W -> (kube_error + A) * W) effect :
  writes others c effect -> (forall x a x', effect x a x' -> services x' = services x /\ trafficbindings x' = trafficbindings x) ->
  steady P -> proves (fun _ => P) (call c) (fun _ _ => P).
Proof.
  intros Hc He HP. apply (triple_write discipline _ c effect); [done|by apply steady_stable|].
  intros b x a x' Hi Hl Hp Hx. destruct (He x a x' Hx) as [Hs Hb]. split; [by apply (reversible_same x)|by apply (proj2 HP x)].
Qed.

(** A read that may come from a cache. *)
Lemma proves_look {A} `{Resource A} P k : steady P -> proves (fun _ => P) (attempt (call (kc_Get (A := A) k))) (fun _ _ => P).
Proof.
  intros HP. eapply triple_post; [apply (triple_try_read discipline (fun _ => P) _ (fun _ _ => True)); [apply law_Get_quiet|by apply steady_stable]|].
  by intros a b c _ _ [].
Qed.

Lemma proves_look_call {A} `{Resource A} P k : steady P -> proves (fun _ => P) (call (kc_Get (A := A) k)) (fun _ _ => P).
Proof.
  intros HP. apply (triple_read discipline _ _ (fun _ _ => True)); [apply law_Get_quiet|by apply steady_stable|]. by intros a b x _ _ _ Hp.
Qed.

(** A read of what is stored. *)
Lemma proves_get {A} `{Resource A, !CurrentReads A others} P k : steady P ->
  proves (fun _ => P) (attempt (call (kc_Get (A := A) k))) (fun r _ c => P c /\ found_as k r c).
Proof.
  intros HP. apply (triple_conseq (fun _ c => P c) (fun r _ c => P c /\ found_as k r c)); [|done|done].
  apply (triple_try_read discipline (fun _ => P) _ (found_as k)); [apply law_Get|by apply steady_stable].
Qed.

Lemma proves_get_call {A} `{Resource A, !CurrentReads A others} P k : steady P ->
  proves (fun _ => P) (call (kc_Get (A := A) k)) (fun a _ c => P c /\ r_table c !! k = Some a).
Proof.
  intros HP. apply (triple_read discipline _ _ (found_as k)); [apply law_Get|by apply steady_stable|]. by intros a b x _ _ Hg Hp.
Qed.

Lemma proves_list {A} `{Resource A} P ns labels : steady P ->
  proves (fun _ => P) (call (kc_List (A := A) ns labels)) (fun _ _ => P).
Proof.
  intros HP. apply (triple_read discipline _ _ (fun _ _ => True)); [apply law_List_quiet|by apply steady_stable|]. by intros a b x _ _ _ Hp.
Qed.

(** [err], unless the object is missing. *)
Lemma proves_ignoring_missing P (m : K W unit) :
  proves P (attempt m) (fun _ => P) -> proves P (ignoring_missing m) (fun _ => P).
Proof.
  intros Hm. apply (kube_triple_bind (fun _ => P)); [done|]. intros [e|[]]; cbn; [destruct (IsNotFound e)|]; first [by apply triple_return|apply triple_failure].
Qed.

(** *** Slices and endpoints *)

#[local] Ltac elsewhere_step :=
  match goal with
  | |- forall x a x', created _ x a x' -> _ => intros x a x' (_ & _ & ->); done
  | |- forall x a x', updated _ x a x' -> _ => intros x a x' (? & _ & _ & _ & ->); done
  | |- forall x a x', patched _ _ x a x' -> _ => intros x a x' (? & _ & _ & ->); done
  | |- forall x a x', deleted _ x a x' -> _ => intros x a x' (? & _ & ->); done
  end.

Lemma proves_delete_slice P (s : EndpointSlice) : steady P -> proves (fun _ => P) (attempt (call (kc_Delete s))) (fun _ _ => P).
Proof. intros HP. apply (proves_elsewhere P _ (deleted s)); [apply law_Delete|elsewhere_step|done]. Qed.

Lemma proves_delete_endpoints P (e : Endpoints) : steady P -> proves (fun _ => P) (attempt (call (kc_Delete e))) (fun _ _ => P).
Proof. intros HP. apply (proves_elsewhere P _ (deleted e)); [apply law_Delete|elsewhere_step|done]. Qed.

Lemma proves_get_or_create P key (desired : EndpointSlice) : steady P ->
  proves (fun _ => P) (get_or_create key desired) (fun _ _ => P).
Proof.
  intros HP. apply (kube_triple_bind (fun _ _ => P)).
  { by apply proves_look. }
  intros [e|current]; cbn; [|by apply triple_return]. destruct (IsNotFound e); [|apply triple_failure].
  apply (kube_triple_bind (fun _ _ => P)).
  { apply (proves_elsewhere P _ (created desired)); [apply law_Create_slice|elsewhere_step|done]. }
  intros [e'|s]; cbn; [|by apply triple_return]. destruct (IsAlreadyExists e'); [|apply triple_failure].
  apply (kube_triple_bind (fun _ _ => P)); [|intros current; by apply triple_return].
  by apply proves_look_call.
Qed.

Lemma proves_deleteManagedSlice P : steady P -> proves (fun _ => P) deleteManagedSlice (fun _ _ => P).
Proof.
  intros HP. apply triple_with_binding. intros v _. apply (triple_pre (fun _ => P)); [|by intros b c _ _ []].
  apply (kube_triple_bind (fun _ _ => P)).
  { by apply proves_look. }
  intros [e|s]; cbn; [destruct (IsNotFound e); [by apply triple_return|apply triple_failure]|].
  destruct (negb _); [apply triple_failure|]. by apply proves_ignoring_missing, proves_delete_slice.
Qed.

Lemma proves_call_then {A} P (m : K W A) : proves P m (fun _ => P) -> proves P (_ ← m; mret tt) (fun _ => P).
Proof. intros Hm. apply (kube_triple_bind (fun _ => P)); [done|]. intros a. by apply triple_return. Qed.

Lemma proves_restoreEndpointSlice P ns snap : steady P -> proves (fun _ => P) (restoreEndpointSlice ns snap) (fun _ _ => P).
Proof.
  intros HP. apply (kube_triple_bind (fun _ _ => P)); [by apply proves_get_or_create|].
  intros [current|]; cbn; [|by apply triple_return]. apply proves_call_then.
  by apply (proves_elsewhere_call P _ _ (law_Update_slice _)); [elsewhere_step|].
Qed.

Lemma proves_restore_slices P ns l : steady P -> proves (fun _ => P) (restore_slices ns l) (fun _ _ => P).
Proof.
  intros HP. induction l as [|snap l IH]; cbn; [by apply triple_return|].
  apply (triple_seq (fun _ => P)); [by apply proves_restoreEndpointSlice|done].
Qed.

Lemma proves_restoreEndpoints P snap : steady P -> proves (fun _ => P) (restoreEndpoints snap) (fun _ _ => P).
Proof.
  intros HP. apply triple_with_binding. intros v _. apply (triple_pre (fun _ => P)); [|by intros b c _ _ []].
  apply (kube_triple_bind (fun _ _ => P)).
  { by apply proves_look. }
  intros [e|current]; cbn; [destruct (IsNotFound e); [|apply triple_failure]|]; apply proves_call_then.
  - by apply (proves_elsewhere_call P _ _ (law_Create_endpoints _)); [elsewhere_step|].
  - by apply (proves_elsewhere_call P _ _ (law_Update_endpoints _)); [elsewhere_step|].
Qed.

Lemma proves_delete_slices P b items : steady P -> proves (fun _ => P) (delete_slices b items) (fun _ _ => P).
Proof.
  intros HP. induction items as [|item rest IH]; cbn; [by apply triple_return|].
  apply (triple_seq (fun _ => P)); [|done]. destruct (_ && _); [by apply triple_return|].
  by apply proves_ignoring_missing, proves_delete_slice.
Qed.

Lemma proves_endpoint_ports P l : proves (fun _ => P) (endpoint_ports l) (fun _ _ => P).
Proof.
  induction l as [|p l IH]; cbn; [by apply triple_return|]. apply (kube_triple_bind (fun _ _ => P)).
  { apply (triple_post (fun a _ c => P c /\ tp_RelayPort p = Some a)); [apply triple_non_nil|]. by intros a b c _ _ []. }
  intros port. apply (kube_triple_bind (fun _ _ => P)); [done|]. intros l'. by apply triple_return.
Qed.

Lemma proves_reconcileRelaySlice P service ports : steady P -> proves (fun _ => P) (reconcileRelaySlice service ports) (fun _ _ => P).
Proof.
  intros HP. apply triple_with_binding. intros v _. apply (triple_pre (fun _ => P)); [|by intros b c _ _ []].
  apply (kube_triple_bind (fun _ _ => P)).
  { apply triple_with_binding. intros v' _. apply (triple_pre (fun _ => P)); [|by intros b c _ _ []].
    apply (kube_triple_bind (fun _ _ => P)); [apply proves_endpoint_ports|]. intros eps. apply (kube_triple_bind (fun _ _ => P)).
    - apply (triple_post (fun a _ c => P c /\ ts_Relay (tb_Spec v') = Some a)); [apply triple_non_nil|]. by intros a b c _ _ [].
    - intros address. by apply triple_return. }
  intros desired. apply (kube_triple_bind (fun _ _ => P)).
  { eapply triple_post; [apply triple_of_check|]. by intros a b c _ _ []. }
  intros m1. apply (kube_triple_bind (fun _ _ => P)).
  { eapply triple_post; [apply triple_of_check|]. by intros a b c _ _ []. }
  intros m2. cbn zeta. apply (kube_triple_bind (fun _ _ => P)); [by apply proves_get_or_create|].
  intros [before|]; cbn; [|by apply triple_return]. destruct (_ || _); [apply triple_failure|].
  destruct (same_slice _ _); [by apply triple_return|]. apply proves_call_then.
  by apply (proves_elsewhere_call P _ _ (law_Patch _ _ _ _)); [elsewhere_step|].
Qed.

(** *** The binding *)

Lemma put_binding_tables b c :
  services (put bk b c) = services c /\
  trafficbindings (put bk b c) !! bk = if gone (tb_Meta b) then None else Some b.
Proof. unfold put. cbn. destruct (gone _); cbn; by rewrite ?lookup_delete_eq, ?lookup_insert_eq. Qed.

(** A new version of the binding. *)
Lemma binding_written b b' c :
  reversible c -> trafficbindings c !! bk = Some b -> binding_ok b' ->
  unmarked c \/ (forall snap, armed_by snap b -> armed_by snap b') -> reversible (put bk b' c).
Proof.
  intros [Hb Hs] Hk Hok Hcase. destruct (put_binding_tables b' c) as [Hsv Hbk]. split.
  - intros x. rewrite Hbk. destruct (gone _); [done|]. by intros [= <-].
  - rewrite Hsv. intros s Hsk. destruct (Hs s Hsk) as [Hkey Hold]. split; [done|]. intros Hu.
    destruct (Hold Hu) as [?|(Ho & Hsel & snap & (b1 & Hk1 & Ha) & Hsu)]; [by left|].
    assert (b1 = b) as -> by congruence. destruct Hcase as [Hun|Harm].
    + exfalso. apply buid_given. rewrite <- Ho. exact (Hun s Hsk Hu).
    + right. split; [done|]. split; [done|]. exists snap. split; [|done]. pose proof (Harm snap Ha) as Ha'. exists b'.
      rewrite Hbk. replace (gone (tb_Meta b')) with false; [done|]. destruct Ha' as (Hf & _). unfold gone, ContainsFinalizer in *.
      symmetry. apply andb_false_iff. right. apply bool_decide_eq_true in Hf. apply bool_decide_eq_false. intros He.
      rewrite He in Hf. by apply not_elem_of_nil in Hf.
Qed.

Lemma unmarked_put b c : unmarked c -> unmarked (put bk b c).
Proof. intros Hu s. destruct (put_binding_tables b c) as [-> _]. by apply Hu. Qed.

(** The snapshot that a patch of the status leaves. *)
Lemma merged_snapshot before now current snap :
  (before = now -> forall x, current = Some x -> faithful_snapshot x) ->
  (forall a, now = Some a -> before <> now -> before = None /\ current = None /\ faithful_snapshot a) ->
  merge_snapshot before now current = Some snap -> faithful_snapshot snap.
Proof.
  intros Hsame Hnew Hm. unfold merge_snapshot in Hm. case_bool_decide as He; [by apply (Hsame He)|].
  destruct now as [a|]; [|done]. injection Hm as <-. destruct (Hnew a eq_refl He) as (-> & -> & Hname & Hsel). cbn.
  unfold faithful_snapshot, merge_snapshot_fields. cbn [ss_ServiceName ss_ServiceUID ss_Selector].
  rewrite !merge_field_kept, merge_map_kept by done. done.
Qed.

Lemma set_status_identified st b : identified b -> identified (set_status st b).
Proof. done. Qed.

(** A patch of the status. *)
Lemma proves_status_write P before (Q : unit -> Assertion) :
  stable discipline P ->
  (forall now c current, reversible c -> identified now -> P now c -> trafficbindings c !! bk = Some current ->
     let b' := set_status (merge_status (tb_Status before) (tb_Status now) (tb_Status current)) current in
     binding_ok b' /\ (unmarked c \/ (forall snap, armed_by snap current -> armed_by snap b')) /\ Q tt b' (put bk b' c)) ->
  proves P (patch_binding_status before) Q.
Proof.
  intros Hst Hw. apply triple_with_binding. intros now Hnow.
  apply (kube_triple_bind (fun b' _ c => identified b' /\ Q tt b' c)).
  - apply (triple_write discipline _ _ (status_patched before now)); [apply law_StatusPatch|apply (kube_stable_and discipline P (fun b _ => b = now)); [done|apply stable_local]|].
    intros b c a c' Hi Hl [Hp ->] (current & Hk & _ & -> & ->). destruct Hnow as [Hkey Hrest]. rewrite Hkey in *. cbn [k_inv discipline] in Hi.
    destruct (Hw now c current Hi (conj Hkey Hrest) Hp Hk) as (Hok & Hcase & HQ). split.
    + cbn [k_inv discipline]. by apply (binding_written current).
    + split; [apply Hok|done].
  - intros b'. eapply triple_facts; [intros b c _ _ [Hid _]; exact Hid|]. intros Hid.
    apply triple_put_binding; [done|]. by intros b c _ [_ HQ].
Qed.

Definition showing (phase : string) (snapshot : option ServiceSnapshot) (P : Cluster -> Prop) : Assertion :=
  fun b c => st_Phase (tb_Status b) = phase /\ st_Snapshot (tb_Status b) = snapshot /\ P c.

Lemma stable_showing phase snapshot P : steady P -> stable discipline (showing phase snapshot P).
Proof. intros HP b c c' Hi Ho (H1 & H2 & H3). split; [done|]. split; [done|]. by apply (proj1 HP c). Qed.

(** The status goes to an active phase and keeps its snapshot. *)
Lemma proves_status_active before phase : active_phase phase ->
  proves (showing phase (st_Snapshot (tb_Status before)) (fun _ => True)) (patch_binding_status before) (fun _ _ _ => True).
Proof.
  intros Hact. apply proves_status_write; [by apply stable_showing, steady_true|].
  intros now c current Hi Hid (Hph & Hsn & _) Hk. cbn zeta. destruct (proj1 Hi current Hk) as [Hcid Hcok]. split; [|split; [right|done]].
  - split; [by apply set_status_identified|]. intros snap Hs. cbn in Hs. rewrite Hsn in Hs.
    apply (merged_snapshot _ _ _ _ (fun _ => Hcok)) in Hs; done.
  - intros snap (Hf & Ha & Hr & Hs). split; [done|]. split; [|split; [done|]]; cbn.
    + unfold merge_field. rewrite Hph. by case_bool_decide.
    + unfold merge_snapshot. rewrite Hsn. by rewrite bool_decide_true.
Qed.

(** The Service is not intercepted: any phase will do, and the snapshot may go. *)
Lemma proves_status_clean before phase snapshot : snapshot = st_Snapshot (tb_Status before) \/ snapshot = None ->
  proves (showing phase snapshot unmarked) (patch_binding_status before) (fun _ _ c => unmarked c).
Proof.
  intros Hcase. apply proves_status_write; [by apply stable_showing, steady_unmarked|].
  intros now c current Hi Hid (Hph & Hsn & Hu) Hk. cbn zeta. destruct (proj1 Hi current Hk) as [Hcid Hcok].
  split; [|split; [by left|by apply unmarked_put]].
  split; [by apply set_status_identified|]. intros snap Hs. cbn in Hs. rewrite Hsn in Hs.
  apply (merged_snapshot _ _ _ _ (fun _ => Hcok)) in Hs; [done|]. intros a -> Hne. destruct Hcase as [Hc|Hc]; congruence.
Qed.

(** A snapshot is stored where there was none. *)
Lemma proves_status_capture before phase snap : st_Snapshot (tb_Status before) = None -> faithful_snapshot snap ->
  proves (showing phase (Some snap) (fun c => unmarked c /\ no_snapshot_stored c)) (patch_binding_status before) (fun _ _ _ => True).
Proof.
  intros Hbefore Hok. apply proves_status_write; [by apply stable_showing, steady_and; [apply steady_unmarked|apply steady_no_snapshot]|].
  intros now c current Hi Hid (Hph & Hsn & Hu & Hn) Hk. cbn zeta. destruct (proj1 Hi current Hk) as [Hcid Hcok].
  split; [|by split; [left|]].
  split; [by apply set_status_identified|]. intros x Hs. cbn in Hs. rewrite Hsn, Hbefore in Hs.
  apply (merged_snapshot _ _ _ _ (fun _ => Hcok)) in Hs; [done|]. intros a [= <-] _. split; [done|]. split; [by apply Hn|done].
Qed.

(** *** The phases *)

Lemma proves_condition phase snapshot P t status reason message :
  proves (showing phase snapshot P) (change (setCondition t status reason message)) (fun _ => showing phase snapshot P).
Proof. apply triple_change; [done|]. by intros b c _ _ Hs. Qed.

Lemma proves_accepted phase snapshot P :
  proves (showing phase snapshot P) (change accepted) (fun _ => showing phase snapshot P).
Proof. unfold accepted, setAccepted. apply proves_condition. Qed.

Lemma proves_enter_phase phase phase' snapshot P :
  proves (showing phase snapshot P) (enter_phase phase') (fun _ => showing phase' snapshot P).
Proof. apply triple_change; [done|]. by intros b c _ _ (_ & Hs & Hp). Qed.

(** Conditions do not matter to the phase and the snapshot. *)
#[local] Ltac condition :=
  lazymatch goal with
  | |- triple _ _ (mbind _ ?m) _ =>
      lazymatch m with
      | change (setCondition _ _ _ _) => apply (triple_seq _ (proves_condition _ _ _ _ _ _ _))
      | change accepted => apply (triple_seq _ (proves_accepted _ _ _))
      | enter_phase _ => apply (triple_seq _ (proves_enter_phase _ _ _ _))
      end
  end.
#[local] Ltac conditions := repeat condition.

(** The binding in hand before the change of the status. *)
#[local] Ltac from_binding :=
  apply triple_with_binding; let v := fresh "v" in intros v _;
  apply (triple_pre (showing (st_Phase (tb_Status v)) (st_Snapshot (tb_Status v)) (fun _ => True))); [|by intros b c _ _ [_ ->]].
#[local] Ltac from_clean_binding :=
  apply triple_with_binding; let v := fresh "v" in intros v _;
  apply (triple_pre (showing (st_Phase (tb_Status v)) (st_Snapshot (tb_Status v)) unmarked)); [|by intros b c _ _ [? ->]].

Lemma proves_patchStatus P before (Q : unit -> Assertion) :
  (forall b c, P b c -> Q tt b c) -> proves P (patch_binding_status before) Q -> proves P (patchStatus before) Q.
Proof.
  intros HQ Hm. apply triple_with_binding. intros v _. apply (triple_pre P); [|by intros b c _ _ []].
  destruct (equalityStatus _ _); [|done]. apply triple_return. intros b c _ _. apply HQ.
Qed.

Lemma proves_lifecycle_active phase reason message progressing : active_phase phase ->
  proves (fun _ _ => True) (setLifecycleStatus phase reason message progressing) (fun _ _ _ => True).
Proof. intros Ha. from_binding. conditions. apply proves_patchStatus; [done|]. by apply proves_status_active. Qed.

Lemma proves_lifecycle_clean phase reason message progressing :
  proves (fun _ => unmarked) (setLifecycleStatus phase reason message progressing) (fun _ _ => unmarked).
Proof.
  from_clean_binding. conditions. apply proves_patchStatus; [by intros b c (_ & _ & ?)|]. apply proves_status_clean. by left.
Qed.

Lemma proves_setRestoring : proves (fun _ _ => True) setRestoring (fun _ _ _ => True).
Proof. unfold setRestoring. apply proves_lifecycle_active. apply (bool_decide_unpack _). vm_compute. exact I. Qed.
Lemma proves_setPausing : proves (fun _ _ => True) setPausing (fun _ _ _ => True).
Proof. unfold setPausing. apply proves_lifecycle_active. apply (bool_decide_unpack _). vm_compute. exact I. Qed.
Lemma proves_setReconciling : proves (fun _ _ => True) setReconciling (fun _ _ _ => True).
Proof.
  apply triple_with_binding. intros v _. apply (triple_pre (fun _ _ => True)); [|done].
  apply proves_lifecycle_active. apply (bool_decide_unpack _). vm_compute. exact I.
Qed.
Lemma proves_setPending : proves (fun _ => unmarked) setPending (fun _ _ => unmarked).
Proof. unfold setPending. apply proves_lifecycle_clean. Qed.

Lemma proves_setDegraded reason cause : proves (fun _ _ => True) (setDegraded reason cause) (fun _ _ _ => True).
Proof.
  from_binding. apply (triple_seq _ (proves_enter_phase _ _ _ _)).
  apply (triple_seq (showing PhaseDegraded (st_Snapshot (tb_Status v)) (fun _ => True))).
  { destruct (bool_decide _); apply proves_condition. }
  conditions. apply proves_patchStatus; [done|]. by apply proves_status_active; apply (bool_decide_unpack _).
Qed.

Lemma proves_record_failure phase reason cause : active_phase phase ->
  proves (fun _ _ => True) (record_failure phase reason cause) (fun _ _ _ => True).
Proof.
  intros Ha. from_binding. apply (triple_seq _ (proves_enter_phase _ _ _ _)). cbn zeta. conditions.
  apply proves_patchStatus; [done|]. by apply proves_status_active.
Qed.

Lemma proves_setPaused : proves (fun _ => unmarked) setPaused (fun _ _ => unmarked).
Proof.
  from_clean_binding. apply (triple_seq _ (proves_enter_phase _ _ _ _)).
  apply (triple_seq (showing PhasePaused None unmarked)).
  { apply triple_change; [done|]. by intros b c _ _ (? & _ & Hp). }
  conditions. apply proves_patchStatus; [by intros b c (_ & _ & ?)|]. apply proves_status_clean. by right.
Qed.

Lemma proves_setRestored : proves (fun _ => unmarked) setRestored (fun _ _ => unmarked).
Proof.
  from_clean_binding. conditions. apply proves_patchStatus; [by intros b c (_ & _ & ?)|]. apply proves_status_clean. by left.
Qed.

Lemma proves_setReady before :
  proves (fun b _ => st_Snapshot (tb_Status b) = st_Snapshot (tb_Status before)) (setReady before) (fun _ _ _ => True).
Proof.
  apply triple_with_binding. intros v _.
  apply (triple_pre (showing (st_Phase (tb_Status v)) (st_Snapshot (tb_Status before)) (fun _ => True))); [|by intros b c _ _ [? ->]].
  conditions. apply triple_with_binding. intros v' _.
  apply (triple_pre (showing PhaseReady (st_Snapshot (tb_Status before)) (fun _ => True))); [|by intros b c _ _ []].
  destruct (equalityStatus _ _); [by apply triple_return|]. apply (triple_seq (fun _ _ => True)); [|apply triple_event].
  by apply proves_status_active; apply (bool_decide_unpack _).
Qed.

Lemma proves_persistSnapshot snap : faithful_snapshot snap ->
  proves (fun b c => st_Snapshot (tb_Status b) = None /\ unmarked c /\ no_snapshot_stored c) (persistSnapshot snap) (fun _ _ _ => True).
Proof.
  intros Hok. apply triple_with_binding. intros v _. eapply triple_facts; [intros b c _ _ [[Hn _] ->]; exact Hn|]. intros Hn.
  apply (triple_seq (showing (st_Phase (tb_Status v)) (Some snap) (fun c => unmarked c /\ no_snapshot_stored c))).
  { apply triple_change; [done|]. by intros b c _ _ [(_ & ? & ?) ->]. }
  apply (triple_seq _ (proves_enter_phase _ _ _ _)).
  apply (triple_seq (showing PhaseReconciling (Some snap) (fun c => unmarked c /\ no_snapshot_stored c))).
  { apply triple_change; [done|]. by intros b c _ _ (? & ? & ?). }
  conditions. by apply proves_status_capture.
Qed.

(** *** The Service *)

(** What is known of the Service after it has been read. *)
Definition seen (s : Service) (c : Cluster) : Prop :=
  forall x, services c !! sk = Some x -> om_UID (svc_Meta x) = suid ->
  om_UID (svc_Meta s) = suid /\ owner_of (svc_Meta x) = owner_of (svc_Meta s) /\ entries (svc_Selector x) = entries (svc_Selector s).

Lemma steady_seen s : steady (seen s).
Proof.
  split.
  - intros c c' Ho Hseen x Hx Hu. destruct (others_respect c c' Ho) as (_ & _ & Hs). destruct (Hs x Hx) as [_ Hk].
    destruct (Hk Hu) as (y & Hy & Hyu & Hyo & Hys). destruct (Hseen y Hy Hyu) as (? & ? & ?). split; [done|]. split; congruence.
  - intros c c' Hs _ Hseen x. rewrite Hs. apply Hseen.
Qed.

Lemma seen_read s c : services c !! sk = Some s -> seen s c.
Proof. intros Hs x Hx Hu. assert (x = s) as -> by congruence. done. Qed.

Lemma put_service_tables s c :
  trafficbindings (put sk s c) = trafficbindings c /\
  forall x, services (put sk s c) !! sk = Some x -> x = s.
Proof.
  unfold put. cbn. split; [done|]. intros x. destruct (gone _); cbn; [by rewrite lookup_delete_eq|]. rewrite lookup_insert_eq. by intros [= <-].
Qed.

(** A patch of the Service. *)
Lemma service_written before after c s c' :
  reversible c -> object_key after = sk -> patched before after c s c' ->
  (forall current, services c !! sk = Some current -> om_UID (svc_Meta current) = suid ->
     service_ok c (merge_service before after current)) ->
  reversible c' /\ object_key s = sk /\
  (forall x, services c' !! sk = Some x -> om_UID (svc_Meta x) = suid ->
     exists current, services c !! sk = Some current /\ om_UID (svc_Meta current) = suid /\ x = merge_service before after current).
Proof.
  intros [Hb Hs] Hkey (current & Hk & -> & ->) Hok. rewrite Hkey in *. cbn [r_table r_merge Service_resource] in *.
  destruct (Hs current Hk) as [Hck _]. destruct (put_service_tables (merge_service before after current) c) as [Ht Hp].
  split; [split|split].
  - rewrite Ht. done.
  - intros x Hx. apply Hp in Hx as ->. split; [exact Hck|]. intros Hu.
    destruct (Hok current Hk Hu) as [?|(? & ? & snap & (b & Hbk & Ha) & ?)]; [by left|right]. split; [done|]. split; [done|].
    exists snap. split; [|done]. exists b. by rewrite Ht.
  - exact Hck.
  - intros x Hx Hu. apply Hp in Hx as ->. exists current. done.
Qed.

Lemma proves_mark b service snap :
  om_UID (tb_Meta b) = buid -> object_key service = sk -> om_UID (svc_Meta service) = ss_ServiceUID snap ->
  proves (fun _ c => armed snap c /\ seen service c) (call (kc_Patch service (intercepted b service))) (fun _ _ c => armed snap c).
Proof.
  intros Hb Hkey Hsu. apply (triple_write discipline _ _ (patched service (intercepted b service))); [apply law_Patch| |].
  { apply steady_stable, steady_and; [apply steady_armed|apply steady_seen]. }
  intros _ c s c' Hi _ [Ha Hseen] Hp. destruct (service_written service (intercepted b service) c s c') as (Hi' & _ & _); try done.
  - intros current Hk Hu. destruct (Hseen current Hk Hu) as (Hu' & Ho & Hsel). right.
    destruct (marked_service b service current Hsel Ho) as [-> ->]. split; [done|]. split; [done|]. exists snap. split; [done|congruence].
  - split; [done|]. destruct Hp as (current & _ & _ & ->). replace (object_key (intercepted b service)) with sk by done.
    destruct Ha as (x & Hx & Ha). exists x. destruct (put_service_tables s c) as [-> _]. done.
Qed.

Lemma proves_unmark service snap :
  object_key service = sk -> om_UID (svc_Meta service) = ss_ServiceUID snap -> faithful_snapshot snap ->
  proves (fun _ c => seen service c) (call (kc_Patch service (restored snap service))) (fun _ _ => unmarked).
Proof.
  intros Hkey Hsu [_ Hsel]. apply (triple_write discipline _ _ (patched service (restored snap service))); [apply law_Patch| |].
  { apply steady_stable, steady_seen. }
  intros _ c s c' Hi _ Hseen Hp.
  assert (Hres : forall current, services c !! sk = Some current -> om_UID (svc_Meta current) = suid ->
    owner_of (svc_Meta (merge_service service (restored snap service) current)) = "" /\
    entries (svc_Selector (merge_service service (restored snap service) current)) = selector).
  { intros current Hk Hu. destruct (Hseen current Hk Hu) as (Hu' & Ho & Hs).
    destruct (restored_service snap service current Hs Ho) as [-> ->]. split; [done|]. apply Hsel. congruence. }
  destruct (service_written service (restored snap service) c s c') as (Hi' & _ & Hx); try done.
  - intros current Hk Hu. left. by apply Hres.
  - split; [done|]. intros x Hxk Hxu. destruct (Hx x Hxk Hxu) as (current & Hk & Hu & ->). by apply Hres.
Qed.

(** *** The handlers *)

(** What is known of the binding when it has been read. *)
Definition intact (v : TrafficBinding) : Prop :=
  active_phase (st_Phase (tb_Status v)) /\ is_Some (st_Snapshot (tb_Status v)) /\ ContainsFinalizer v = true /\
  is_Some (ts_Relay (tb_Spec v)).

Definition met (v : TrafficBinding) (c : Cluster) : Prop :=
  (~ intact v -> unmarked c) /\ (st_Snapshot (tb_Status v) = None -> no_snapshot_stored c) /\
  (forall snap, armed_by snap v -> armed snap c).

Lemma steady_if (phi : Prop) P : steady P -> steady (fun c => phi -> P c).
Proof. intros [H1 H2]. split; intros c c'; [intros Ho Hp Hphi; by apply (H1 c), Hp|intros Hs Hb Hp Hphi; by apply (H2 c), Hp]. Qed.

Lemma steady_met v : steady (met v).
Proof.
  apply steady_and; [apply steady_if, steady_unmarked|]. apply steady_and; [apply steady_if, steady_no_snapshot|]. split.
  - intros c c' Ho Ha snap Hs. by apply (proj1 (steady_armed snap) c), Ha.
  - intros c c' Hs Hb Ha snap Hsn. by apply (proj2 (steady_armed snap) c), Ha.
Qed.

Lemma met_read v c : reversible c -> trafficbindings c !! bk = Some v -> binding_ok v /\ met v c.
Proof.
  intros [Hb Hs] Hk. split; [by apply Hb|]. split; [|split].
  - intros Hn s Hsk Hu. destruct (Hs s Hsk) as [_ Hok]. destruct (Hok Hu) as [[? _]|(_ & _ & snap & (b & Hbk & Ha) & _)]; [done|].
    exfalso. apply Hn. assert (b = v) as -> by congruence. destruct Ha as (? & ? & ? & Hsnap). unfold intact. by rewrite Hsnap.
  - intros Hn b Hbk. congruence.
  - intros snap Ha. by exists v.
Qed.

(** The Service, when it has just been read. *)
Lemma proves_read_service P : steady P ->
  proves (fun _ => P) (attempt (call (kc_Get (A := Service) sk)))
    (fun r _ c => P c /\ match r with
                         | inr s => object_key s = sk /\ seen s c /\ (om_UID (svc_Meta s) = suid -> service_ok c s)
                         | inl e => IsNotFound e = true -> services c !! sk = None
                         end).
Proof.
  intros HP. eapply triple_post; [by apply proves_get|]. intros r b c [_ Hs] _ [Hp Hf]. split; [done|].
  destruct r as [e|s]; cbn in Hf.
  - destruct e; cbn; try done.
  - destruct (Hs s Hf) as [Hkey Hok]. split; [done|]. split; [by apply seen_read|done].
Qed.

Lemma unmarked_absent c : services c !! sk = None -> unmarked c.
Proof. intros Hn s Hs. congruence. Qed.

Lemma key_of v name : identified v -> name = sname -> in_namespace v name = sk.
Proof. intros (Hk & _) ->. unfold in_namespace, sk. by rewrite <- Hk. Qed.

Lemma proves_restoreService v snap :
  binding_ok v -> st_Snapshot (tb_Status v) = Some snap -> proves (fun b c => True /\ b = v) restoreService (fun _ _ => unmarked).
Proof.
  intros [Hid Hok] Hsnap. pose proof (Hok snap Hsnap) as Hf. apply triple_with_binding. intros v' _.
  apply (triple_facts discipline (v' = v)); [by intros b c _ _ [[_ <-] <-]|]. intros ->. rewrite Hsnap. cbn [non_nil].
  apply (kube_triple_bind (fun x _ _ => x = snap)); [by apply triple_return|]. intros x.
  eapply triple_facts; [intros b c _ _ Hx; exact Hx|]. intros ->. rewrite (key_of _ _ Hid (proj1 Hf)).
  apply (triple_pre (fun _ _ => True)); [|done]. eapply kube_triple_bind; [by apply proves_read_service, steady_true|].
  intros [e|s]; cbn.
  - destruct (IsNotFound e); [|apply triple_failure].
    apply (triple_pre (fun _ => unmarked)); [by apply proves_deleteManagedSlice, steady_unmarked|].
    intros b c _ _ [_ Hn]. by apply unmarked_absent, Hn.
  - eapply triple_facts; [intros b c _ _ (_ & Hk & _); exact Hk|]. intros Hkey.
    case_bool_decide as Hu; cbn; [|apply triple_failure]. destruct (owned_by_another _ _); [apply triple_failure|].
    apply (triple_pre (fun _ => seen s)); [|by intros b c _ _ (_ & _ & ? & _)].
    apply (kube_triple_bind (fun _ _ => unmarked)); [by apply proves_unmark|]. intros _.
    apply (triple_seq (fun _ => unmarked)); [apply proves_deleteManagedSlice, steady_unmarked|].
    apply (triple_seq (fun _ => unmarked)).
    + destruct (ss_HadEndpointSlices snap); [apply proves_restore_slices, steady_unmarked|by apply triple_return].
    + destruct (ss_HadEndpoints snap); [apply proves_restoreEndpoints, steady_unmarked|by apply triple_return].
Qed.

Lemma proves_cleanupWithoutSnapshot : proves (fun _ => unmarked) cleanupInterceptWithoutSnapshot (fun _ _ => unmarked).
Proof.
  apply triple_with_binding. intros v _. apply (triple_pre (fun _ => unmarked)); [|by intros b c _ _ []].
  destruct (bool_decide _); [by apply triple_return|]. cbn zeta. apply (kube_triple_bind (fun _ _ => unmarked)).
  { eapply triple_post; [apply proves_get, steady_unmarked|]. by intros a b c _ _ []. }
  intros [e|s]; cbn; [destruct (IsNotFound e)|destruct (_ || _)];
    first [apply triple_failure|apply proves_deleteManagedSlice, steady_unmarked].
Qed.

Lemma exchange_mode v : identified v ->
  ts_Mode (tb_Spec v) <> ModePortForward /\ ts_Mode (tb_Spec v) <> ModePreview /\ ts_Mode (tb_Spec v) ∈ [ModeExchange; ModeMirror].
Proof.
  intros (_ & _ & Hm & _). split; [|split; [|done]]; intros He; rewrite He in Hm; revert Hm; by apply (bool_decide_unpack _).
Qed.

Lemma proves_cleanup v : binding_ok v -> proves (fun b c => met v c /\ b = v) cleanup (fun _ _ => unmarked).
Proof.
  intros Hok. apply triple_with_binding. intros v' Hv.
  apply (triple_facts discipline (v' = v)); [by intros b c _ _ [[_ <-] <-]|]. intros ->.
  destruct (exchange_mode v Hv) as (H1 & H2 & H3). rewrite (bool_decide_eq_false_2 _ H1), (bool_decide_eq_false_2 _ H2), (bool_decide_eq_true_2 _ H3).
  destruct (st_Snapshot (tb_Status v)) as [snap|] eqn:Hsnap.
  - apply (triple_pre (fun b c => True /\ b = v)); [by apply (proves_restoreService v snap)|]. by intros b c _ _ [_ ->].
  - apply (triple_pre (fun _ => unmarked)); [apply proves_cleanupWithoutSnapshot|]. intros b c _ _ [[[Hu _] _] _]. apply Hu.
    intros (_ & Hs & _). rewrite Hsnap in Hs. by destruct Hs.
Qed.

Lemma proves_then_return P (m : K W unit) next Q : proves P m (fun _ => Q) -> proves P (then_return m next) (fun _ _ _ => True).
Proof. intros Hm. eapply kube_triple_bind; [by apply kube_triple_attempt|]. intros [e|[]]; by apply triple_return. Qed.

(** A failure that is recorded, and its outcome. *)
Lemma proves_recorded (m : K W unit) (k : kube_error + unit -> K W Outcome) P :
  proves (fun _ _ => True) m (fun _ _ _ => True) -> (forall r, proves (fun _ _ => True) (k r) (fun _ _ _ => True)) ->
  proves P (r ← attempt m; k r) (fun _ _ _ => True).
Proof.
  intros Hm Hk. apply (kube_triple_bind (fun _ _ _ => True)); [|done].
  apply (triple_pre (fun _ _ => True)); [|done]. eapply triple_post; [by apply kube_triple_attempt|]. done.
Qed.

#[local] Ltac record :=
  apply proves_recorded; [|intros [?|?]; first [by apply triple_return|apply (triple_seq (fun _ _ => True)); [apply triple_event|by apply triple_return]]].

(** *** Deletion and pausing *)

Lemma merge_spec_same x c : merge_spec x x c = c.
Proof. destruct c. unfold merge_spec. by rewrite !merge_field_same. Qed.

(** A patch of the finalizers, while the Service is not intercepted. *)
Lemma proves_finalizer_patch before :
  proves (fun b c => unmarked c /\ tb_Spec b = tb_Spec before) (patch_binding before) (fun _ _ => unmarked).
Proof.
  apply triple_with_binding. intros now Hnow. apply (kube_triple_bind (fun b' _ c => identified b' /\ unmarked c)).
  - eapply (triple_write discipline _ _ (patched before now)); [apply law_Patch| |].
    + intros b c c' Hi Ho [[Hu Hsp] ->]. split; [split; [by apply (proj1 steady_unmarked c)|done]|done].
    + intros b c a c' Hi Hl [[Hu Hsp] ->] (current & Hk & -> & ->). destruct Hnow as [Hkey Hrest]. rewrite Hkey in *.
      cbn [r_table r_merge TrafficBinding_resource] in *. destruct (proj1 Hi current Hk) as [Hcid Hcok].
      assert (Hid : identified (merge_binding before now current)).
      { destruct Hcid as (? & ? & Hm & Ht). unfold identified, merge_binding. cbn [tb_Spec]. rewrite Hsp, merge_spec_same. done. }
      split; [apply (binding_written current); [done|done|by split|by left]|]. split; [done|by apply unmarked_put].
  - intros b'. apply (triple_facts discipline (identified b')); [by intros b c _ _ []|]. intros Hid.
    apply triple_put_binding; [done|]. by intros b c _ [].
Qed.

(** The handlers start from a binding that has been read. *)
Abbreviation from v := (fun b c => met v c /\ b = v).

Lemma from_clean v {A} (m : K W A) Q : ~ intact v -> proves (fun _ => unmarked) m Q -> proves (from v) m Q.
Proof. intros Hn Hm. apply (triple_pre (fun _ => unmarked)); [done|]. intros b c _ _ [[Hu _] _]. by apply Hu. Qed.

Lemma from_any v {A} (m : K W A) Q : proves (fun _ _ => True) m Q -> proves (from v) m Q.
Proof. intros Hm. by apply (triple_pre (fun _ _ => True)). Qed.

(** A handler reads the binding in hand first. *)
Lemma from_reads v {A} (f : TrafficBinding -> K W A) Q : proves (from v) (f v) Q -> proves (from v) (b ← the_binding; f b) Q.
Proof.
  intros Hm. apply triple_with_binding. intros v' _. apply (triple_facts discipline (v' = v)); [by intros b c _ _ [[_ <-] <-]|].
  intros ->. apply (triple_pre (from v)); [done|]. by intros b c _ _ [].
Qed.

Lemma phase_not_intact v phase : st_Phase (tb_Status v) = phase -> phase ∈ [PhasePending; ""; PhasePaused; PhaseRestored] -> ~ intact v.
Proof. intros <- Hin [Hact _]. by apply Hact. Qed.

#[local] Ltac decided := apply (bool_decide_unpack _); vm_compute; exact I.

Lemma proves_reconcileDeleted v : binding_ok v -> proves (from v) reconcileDeleted (fun _ _ _ => True).
Proof.
  intros Hok. apply from_reads. cbn zeta. destruct (ContainsFinalizer v); cbn [negb]; [|by apply triple_return].
  case_bool_decide as H1; [|case_bool_decide as H2; [|case_bool_decide as H3; cbn [negb]]].
  - apply (triple_seq (fun b c => unmarked c /\ tb_Spec b = tb_Spec v)).
    { apply triple_change; [done|]. intros b c _ _ [[Hu _] ->]. split; [|done]. apply Hu, (phase_not_intact _ _ H1). decided. }
    eapply kube_triple_bind; [apply kube_triple_attempt, proves_finalizer_patch|]. intros r. by apply triple_return.
  - apply from_clean; [apply (phase_not_intact _ _ H2); decided|]. apply (proves_then_return _ setRestored requeue (fun _ => unmarked)), proves_setRestored.
  - apply (kube_triple_bind (fun r _ c => match r with inl _ => True | inr _ => unmarked c end)).
    { apply (triple_post (fun r _ c => match r with inl _ => True | inr _ => unmarked c end)); [|done].
      apply kube_triple_attempt. apply from_reads. destruct (bool_decide _); by apply proves_cleanup. }
    intros [e|[]]; cbn.
    + record. apply proves_record_failure. decided.
    + apply (kube_triple_bind (fun _ _ _ => True)).
      { eapply triple_post; [apply kube_triple_attempt, proves_setRestored|]. done. }
      intros [?|?]; [by apply triple_return|]. apply (triple_seq (fun _ _ => True)); [apply triple_event|by apply triple_return].
  - apply from_any. apply (proves_then_return _ setRestoring requeue (fun _ _ => True)), proves_setRestoring.
Qed.

Lemma proves_reconcilePaused v : binding_ok v -> proves (from v) reconcilePaused (fun _ _ _ => True).
Proof.
  intros Hok. apply from_reads. cbn zeta. destruct (_ && _); [by apply triple_return|].
  case_bool_decide as H1; [|case_bool_decide as H2; [|case_bool_decide as H3; cbn [negb]]].
  - apply from_clean; [apply (phase_not_intact _ _ H1); decided|]. apply (proves_then_return _ setPaused done_ (fun _ => unmarked)), proves_setPaused.
  - apply from_clean; [|apply (proves_then_return _ setPaused done_ (fun _ => unmarked)), proves_setPaused].
    apply (phase_not_intact _ _ eq_refl). revert H2. rewrite !elem_of_cons, elem_of_nil. tauto.
  - apply (kube_triple_bind (fun r _ c => match r with inl _ => True | inr _ => unmarked c end)).
    { apply kube_triple_attempt. by apply proves_cleanup. }
    intros [e|[]]; cbn.
    + record. apply proves_record_failure. decided.
    + apply (kube_triple_bind (fun _ _ _ => True)).
      { eapply triple_post; [apply kube_triple_attempt, proves_setPaused|]. done. }
      intros [?|?]; [by apply triple_return|]. apply (triple_seq (fun _ _ => True)); [apply triple_event|by apply triple_return].
  - apply from_any. apply (proves_then_return _ setPausing requeue (fun _ _ => True)), proves_setPausing.
Qed.

(** *** Activation *)

(** Capturing the Service, which is not intercepted. *)
Lemma proves_captureService v : identified v ->
  proves (fun b c => (unmarked c /\ no_snapshot_stored c) /\ b = v) captureService
    (fun snap _ c => (unmarked c /\ no_snapshot_stored c) /\ faithful_snapshot snap).
Proof.
  intros Hid. set (P c := unmarked c /\ no_snapshot_stored c).
  assert (HP : steady P) by (apply steady_and; [apply steady_unmarked|apply steady_no_snapshot]).
  apply triple_with_binding. intros v' _. apply (triple_facts discipline (v' = v)); [by intros b c _ _ [[_ <-] <-]|]. intros ->.
  apply (triple_pre (fun _ => P)); [|by intros b c _ _ [[]]].
  pose proof Hid as (_ & _ & _ & Ht). destruct (ts_Target (tb_Spec v)) as [target|] eqn:Etgt; [|discriminate].
  injection Ht as Hname. apply (kube_triple_bind (fun x _ c => P c /\ x = target)); [by apply triple_return|]. intros x.
  apply kube_triple_pure. intros ->. cbn zeta. rewrite (key_of v _ Hid Hname).
  apply (kube_triple_bind (fun s _ c => P c /\ (om_UID (svc_Meta s) = suid -> entries (svc_Selector s) = selector))).
  { eapply triple_post; [by apply proves_get_call|]. intros s b c [_ Hs] _ [Hp Hk]. split; [done|]. intros Hu.
    destruct (Hs s Hk) as [_ Hok]. destruct (Hok Hu) as [[_ ?]|(Ho & _)]; [done|]. exfalso. apply buid_given. rewrite <- Ho.
    by apply (proj1 Hp). }
  intros s. apply kube_triple_pure. intros Hsel. destruct (_ || _); [apply triple_failure|].
  apply (kube_triple_bind (fun _ _ => P)); [eapply triple_post; [apply triple_of_check|]; by intros a b c _ _ []|]. intros _.
  destruct (owned_by_another _ _); [apply triple_failure|].
  apply (kube_triple_bind (fun _ _ => P)); [by apply proves_list|]. intros items. destruct (_ <? _); [apply triple_failure|].
  apply (kube_triple_bind (fun _ _ => P)); [eapply triple_post; [apply triple_of_check|]; by intros a b c _ _ []|]. intros captured.
  apply (kube_triple_bind (fun _ _ => P)); [by apply proves_look|].
  intros [e|l]; cbn; [destruct (IsNotFound e); [|apply triple_failure]|]; by apply triple_return.
Qed.

(** Intercepting it, with the snapshot in the status of the binding. *)
Lemma proves_reconcileIntercept snap : faithful_snapshot snap ->
  proves (fun b c => armed snap c /\ st_Snapshot (tb_Status b) = Some snap) reconcileIntercept (fun _ _ _ => True).
Proof.
  intros Hf. apply triple_with_binding. intros v Hv.
  apply (triple_facts discipline (st_Snapshot (tb_Status v) = Some snap)); [by intros b c _ _ [[_ ?] <-]|]. intros Hsnap.
  apply (triple_pre (fun _ => armed snap)); [|by intros b c _ _ [[]]]. pose proof (steady_armed snap) as HP.
  rewrite Hsnap. apply (kube_triple_bind (fun x _ c => armed snap c /\ x = snap)); [by apply triple_return|]. intros x.
  apply kube_triple_pure. intros ->. cbn zeta. rewrite (key_of v _ Hv (proj1 Hf)).
  apply (kube_triple_bind (fun s _ c => (armed snap c /\ seen s c) /\ object_key s = sk)).
  { eapply triple_post; [by apply proves_get_call|]. intros s b c [_ Hs] _ [Hp Hk]. destruct (Hs s Hk) as [Hkey _].
    split; [split; [done|by apply seen_read]|done]. }
  intros s. apply kube_triple_pure. intros Hkey. case_bool_decide as Hu; cbn; [|apply triple_failure].
  apply (kube_triple_bind (fun _ _ c => armed snap c /\ seen s c)).
  { eapply triple_post; [apply triple_of_check|]. by intros a b c _ _ []. }
  intros ports. destruct (owned_by_another _ _); [apply triple_failure|].
  apply (kube_triple_bind (fun _ _ => armed snap)).
  { destruct (_ || _); [|apply triple_return; by intros b c _ _ []]. apply proves_mark; [apply Hv|done|done]. }
  intros s'. apply (kube_triple_bind (fun _ _ => armed snap)); [by apply proves_list|]. intros items.
  apply (triple_seq (fun _ => armed snap)); [by apply proves_delete_slices|].
  apply (triple_seq (fun _ => armed snap)); [by apply proves_ignoring_missing, proves_delete_endpoints|].
  eapply triple_weak; [by apply proves_reconcileRelaySlice|done].
Qed.


Lemma awaiting_exchange v : identified v -> awaitingRelay v = negb (bool_decide (is_Some (ts_Relay (tb_Spec v)))).
Proof. intros Hid. unfold awaitingRelay. by rewrite (bool_decide_eq_false_2 _ (proj1 (exchange_mode v Hid))). Qed.

Lemma proves_reconcileActive v : binding_ok v -> (forall snap, st_Snapshot (tb_Status v) = Some snap -> armed_by snap v) ->
  proves (from v) reconcileActive
    (fun r b _ => r.2 = true -> st_Snapshot (tb_Status b) = st_Snapshot (tb_Status v)).
Proof.
  intros [Hid Hok] Harm. apply from_reads. destruct (exchange_mode v Hid) as (H1 & H2 & H3).
  rewrite (bool_decide_eq_false_2 _ H1), (bool_decide_eq_false_2 _ H2), (bool_decide_eq_true_2 _ H3).
  destruct (st_Snapshot (tb_Status v)) as [snap|] eqn:Hsnap.
  - pose proof (Hok snap eq_refl) as Hf. apply (kube_triple_bind (fun _ b c => armed snap c /\ st_Snapshot (tb_Status b) = Some snap)).
    { eapply triple_post; [apply triple_non_nil|]. intros t b c _ _ [[(_ & _ & Ha) ->] _]. split; [|done]. by apply Ha, Harm. }
    intros target. apply (triple_seq (fun b c => armed snap c /\ st_Snapshot (tb_Status b) = Some snap)).
    { apply triple_change; [done|]. by intros b c _ _ [Ha Hs]. }
    apply (triple_seq (fun b c => st_Snapshot (tb_Status b) = Some snap)); [|by apply triple_return].
    apply (triple_conseq (fun b c => (armed snap c /\ st_Snapshot (tb_Status b) = Some snap) /\ st_Snapshot (tb_Status b) = Some snap)
             (fun _ b c => True /\ st_Snapshot (tb_Status b) = Some snap)); [|by intros b c _ _ []|by intros a b c _ _ []].
    apply (triple_keeps discipline (fun b => st_Snapshot (tb_Status b) = Some snap)); [apply keeps_reconcileIntercept|].
    by apply proves_reconcileIntercept.
  - assert (Hn : ~ intact v) by (intros (_ & Hs & _); rewrite Hsnap in Hs; by destruct Hs).
    apply (kube_triple_bind (fun snap b c => ((unmarked c /\ no_snapshot_stored c) /\ faithful_snapshot snap) /\ b = v)).
    { apply (triple_pre (fun b c => ((unmarked c /\ no_snapshot_stored c) /\ b = v) /\ b = v)).
      - apply (triple_keeps discipline (fun b => b = v)); [apply keeps_captureService|by apply proves_captureService].
      - intros b c _ _ [(Hu & Hns & _) ->]. split; [|done]. split; [|done]. split; [by apply Hu|by apply Hns]. }
    intros snap. apply (triple_facts discipline (faithful_snapshot snap)); [by intros b c _ _ [[_ ?] _]|]. intros Hf.
    apply (triple_seq (fun _ _ => True)); [|by apply triple_return].
    eapply triple_pre; [by apply proves_persistSnapshot|]. intros b c _ _ [[[Hu Hns] _] ->]. done.
Qed.

Lemma proves_addFinalizer v : ContainsFinalizer v = false -> proves (from v) addFinalizer (fun _ _ _ => True).
Proof.
  intros Hf. apply from_reads. apply (triple_seq (fun b c => unmarked c /\ tb_Spec b = tb_Spec v)).
  { apply triple_change.
    - intros b Hb. unfold AddFinalizer. by destruct (ContainsFinalizer b).
    - intros b c _ _ [[Hu _] ->]. split; [apply Hu; intros (_ & _ & Hc & _); congruence|]. unfold AddFinalizer.
      by destruct (ContainsFinalizer v). }
  apply (kube_triple_bind (fun r _ c => match r with inl _ => True | inr _ => unmarked c end)).
  { apply kube_triple_attempt, proves_finalizer_patch. }
  intros [e|[]]; [by apply triple_return|]. apply (proves_then_return _ setPending requeue (fun _ => unmarked)), proves_setPending.
Qed.

Lemma proves_activate v : binding_ok v -> (forall snap, st_Snapshot (tb_Status v) = Some snap -> armed_by snap v) ->
  proves (from v) activate (fun _ _ _ => True).
Proof.
  intros Hok Harm. apply from_reads. eapply kube_triple_bind; [apply kube_triple_attempt; by apply proves_reconcileActive|].
  intros [e|[after complete]]; cbn.
  - record. apply proves_setDegraded.
  - destruct complete; [|by apply triple_return]. apply (proves_then_return _ (setReady v) _ (fun _ _ => True)).
    eapply triple_pre; [apply proves_setReady|]. intros b c _ _ Hs. by apply Hs.
Qed.

Lemma proves_reconcileLive v : binding_ok v -> proves (from v) reconcileLive (fun _ _ _ => True).
Proof.
  intros Hok. apply from_reads. cbn zeta. destruct (validateBinding v) as [e|[]].
  { apply from_any. apply proves_recorded; [apply proves_setDegraded|]. intros r. by apply triple_return. }
  destruct (ContainsFinalizer v) eqn:Hfin; cbn [negb]; [|by apply proves_addFinalizer].
  destruct (bool_decide _); [by apply proves_reconcilePaused|]. rewrite (awaiting_exchange v (proj1 Hok)).
  case_bool_decide as Hrel; cbn [negb].
  - case_bool_decide as Hph; cbn [negb].
    + apply proves_activate; [done|]. intros snap Hs. split; [done|]. split; [|done].
      revert Hph. rewrite !elem_of_cons, elem_of_nil. intros [->|[->|[]]]; apply (bool_decide_unpack _); vm_compute; exact I.
    + apply from_any. apply (proves_then_return _ setReconciling requeue (fun _ _ => True)), proves_setReconciling.
  - destruct (_ || _); [|by apply triple_return]. apply from_clean; [by intros (_ & _ & _ & ?)|].
    apply (proves_then_return _ setPending done_ (fun _ => unmarked)), proves_setPending.
Qed.

(** One reconciliation of the binding, from any state that satisfies the invariant. *)
Lemma reconcile_reversible s r s' : Reconcile bk s = (r, s') ->
  reversible (kc_cluster (lc_world s)) -> reversible (kc_cluster (lc_world s')).
Proof.
  intros Hr Hi. unfold Reconcile, mbind, K_bind in Hr. rewrite attempt_call in Hr.
  destruct (kc_Get bk (lc_world s)) as [r1 w1] eqn:Eg. destruct (law_Get (A := TrafficBinding) bk _ _ _ Eg) as [Ho Hf].
  pose proof (reversible_kept _ _ Hi (others_respect _ _ Ho)) as Hi1. destruct r1 as [e|v].
  - by injection Hr as <- <-.
  - cbn [found_as r_table TrafficBinding_resource] in Hf. destruct (met_read v _ Hi1 Hf) as [Hok Hmet].
    cbn [put_binding lc_binding lc_events lc_world] in Hr.
    destruct (om_Deleting (tb_Meta v)).
    + by destruct (proves_reconcileDeleted v Hok _ _ _ Hr Hi1 (proj1 Hok) (conj Hmet eq_refl)).
    + by destruct (proves_reconcileLive v Hok _ _ _ Hr Hi1 (proj1 Hok) (conj Hmet eq_refl)).
Qed.
End reversible.

(** * What the invariant of the operator is worth

    Where it holds from the start, and what it says of a Service. *)


Section runs.
Context {W : Type} `{KC : KubeClient W} `{KM : MetaPackage} `{KO : OwnerPackage} `{KH : HashPackage} `{KN : NameValidation}
  `{KI : NetipPackage} `{KU : UnicodePackage}.

(** Before the binding intercepts anything. *)
Definition fresh (bk : NamespacedName) (buid sname suid : string) (selector : StringMap) (c : Cluster) : Prop :=
  (forall b, trafficbindings c !! bk = Some b -> identified bk buid sname b /\ st_Snapshot (tb_Status b) = None) /\
  (forall s, services c !! sk bk sname = Some s -> object_key s = sk bk sname /\
    (om_UID (svc_Meta s) = suid -> owner_of (svc_Meta s) = "" /\ entries (svc_Selector s) = selector)).

Lemma fresh_reversible bk buid sname suid selector c :
  fresh bk buid sname suid selector c -> reversible bk buid sname suid selector c.
Proof.
  intros [Hb Hs]. split.
  - intros b Hk. destruct (Hb b Hk) as [Hid Hn]. split; [done|]. by rewrite Hn.
  - intros s Hk. destruct (Hs s Hk) as [Hkey Hu]. split; [done|]. intros Huid. left. by apply Hu.
Qed.

(** What the invariant says of the Service. *)
Lemma reversible_service bk buid sname suid selector c s :
  reversible bk buid sname suid selector c -> services c !! sk bk sname = Some s -> om_UID (svc_Meta s) = suid ->
  (owner_of (svc_Meta s) = "" /\ entries (svc_Selector s) = selector) \/
  (owner_of (svc_Meta s) = buid /\ entries (svc_Selector s) = ∅ /\
   exists b snap, trafficbindings c !! bk = Some b /\ om_UID (tb_Meta b) = buid /\ ContainsFinalizer b = true /\
     st_Snapshot (tb_Status b) = Some snap /\ ss_ServiceUID snap = suid /\ entries (ss_Selector snap) = selector).
Proof.
  intros [Hb Hsv] Hs Hu.
  destruct (Hsv s Hs) as [_ Hok]. destruct (Hok Hu) as [Hown|(H1 & H2 & snap & (b & Hk & Hfin & _ & _ & Hsnap) & Huid)]; [by left|].
  right. split; [done|]. split; [done|]. destruct (Hb b Hk) as [(_ & Hid & _) Hfaith].
  exists b, snap. split_and!; try done. by apply (Hfaith snap Hsnap).
Qed.

Lemma reversible_settled bk buid sname suid selector c s :
  reversible bk buid sname suid selector c -> services c !! sk bk sname = Some s -> om_UID (svc_Meta s) = suid ->
  (forall b, trafficbindings c !! bk = Some b ->
     st_Phase (tb_Status b) ∈ [PhasePending; ""; PhasePaused; PhaseRestored] \/ ts_Relay (tb_Spec b) = None) ->
  owner_of (svc_Meta s) = "" /\ entries (svc_Selector s) = selector.
Proof.
  intros [_ Hsv] Hs Hu Hsettled. destruct (Hsv s Hs) as [_ Hok].
  destruct (Hok Hu) as [Hown|(_ & _ & snap & (b & Hk & _ & Hact & Hrel & _) & _)]; [done|].
  destruct (Hsettled b Hk) as [Hp|Hn]; [by destruct (Hact Hp)|]. rewrite Hn in Hrel. by destruct Hrel.
Qed.
End runs.
