(* ===== verification/TrafficControl.v ===== *)
(** * The requests of the gateway about traffic tasks
    ([protocol/trafficcontrol/model.go], [protocol/servicemodel/model.go]) *)

From S2P Require Import Prelude GoLib External Netip TrafficBinding.

(** ** Ports and local targets ([servicemodel]) *)

Module servicemodel.
Record Port := mkPort { Name : string; ServicePort : Z; Protocol : string }.
Record LocalTarget := mkLocalTarget { lt_Protocol : string; lt_ServicePort : Z; lt_LocalHost : string; lt_LocalPort : Z }.
Record ResolvedService := mkResolvedService { rs_Name : string; rs_ClusterIP : string; rs_Ports : list Port }.

#[export] Instance Port_eq_dec : EqDecision Port.
Proof. solve_decision. Defined.
#[export] Instance LocalTarget_eq_dec : EqDecision LocalTarget.
Proof. solve_decision. Defined.
End servicemodel.

(** ** Requests and responses ([trafficcontrol]) *)

Module trafficcontrol.

Definition ModeExchange : string := "exchange".
Definition ModeMirror : string := "mirror".
Definition ModePreview : string := "preview".

Record Identity := mkIdentity {
  ti_IdentityID : string;
  ti_Groups : list string;
  ti_DeviceID : string;
  ti_SessionID : string;
  ti_SessionGeneration : Z;
  ti_Namespace : string
}.

Record ClaimRequest := mkClaimRequest { cr_Mode : string; cr_TaskID : string; cr_Identity : Identity }.
Record ClaimResponse := mkClaimResponse {
  cl_Mode : string;
  cl_TaskID : string;
  cl_Service : string;
  cl_Ports : list servicemodel.Port
}.

Record ListenerPort := mkListenerPort { ls_Name : string; ls_ServicePort : Z; ls_ListenPort : Z; ls_Protocol : string }.

Record PrepareRequest := mkPrepareRequest {
  pr_Mode : string;
  pr_TaskID : string;
  pr_Identity : Identity;
  pr_RelayID : string;
  pr_GatewayIP : string;
  pr_Ports : list ListenerPort
}.

Record BackendTarget := mkBackendTarget { bt_Address : string; bt_Port : Z }.
Record BackendSet := mkBackendSet {
  bs_Name : string;
  bs_ServicePort : Z;
  bs_Protocol : string;
  bs_Targets : list BackendTarget
}.
Record PrepareResponse := mkPrepareResponse { pp_ClusterIP : string; pp_Backends : list BackendSet }.

Record HeartbeatRequest := mkHeartbeatRequest { hr_Mode : string; hr_TaskID : string; hr_RelayID : string }.
Record HeartbeatResponse := mkHeartbeatResponse { hb_Stop : bool }.

Record FinishRequest := mkFinishRequest {
  fr_Mode : string;
  fr_TaskID : string;
  fr_RelayID : string;
  fr_Failed : bool;
  fr_Reason : string
}.
Record FinishResponse := mkFinishResponse { fin_State : string }.

#[export] Instance BackendTarget_eq_dec : EqDecision BackendTarget.
Proof. solve_decision. Defined.

(** ** Validation *)

Section validation.
Context `{UuidPackage, NetipPackage}.

Definition validMode (mode : string) : bool := bool_decide (mode ∈ [ModeExchange; ModeMirror; ModePreview]).
Definition validTaskID (value : string) : bool := bool_decide (is_Some (uuid_Parse value)).
Definition validText (value : string) (maximum : Z) : bool :=
  negb (bool_decide (value = "")) && (slen value <=? maximum) && bool_decide (TrimSpace value = value).

Definition Identity_Validate (identity : Identity) : string + unit :=
  if negb (validText (ti_IdentityID identity) 256) || negb (validText (ti_DeviceID identity) 256)
     || negb (validTaskID (ti_SessionID identity)) || (ti_SessionGeneration identity =? 0)
     || negb (validText (ti_Namespace identity) 63) || (128 <? len (ti_Groups identity))
  then inl "traffic identity is invalid"
  else if negb (forallb (fun group => validText group 256) (ti_Groups identity)) then inl "traffic identity group is invalid"
  else inr tt.

Definition accepts (r : string + unit) : bool := match r with inr _ => true | inl _ => false end.

Definition ClaimRequest_Validate (request : ClaimRequest) : string + unit :=
  if negb (validMode (cr_Mode request)) || negb (validTaskID (cr_TaskID request)) || negb (accepts (Identity_Validate (cr_Identity request)))
  then inl "traffic claim request is invalid" else inr tt.

Definition listener_protocol (port : ListenerPort) : string := ToLower (TrimSpace (ls_Protocol port)).

Fixpoint validate_listeners (seen : gset string) (ports : list ListenerPort) : string + unit :=
  match ports with
  | [] => inr tt
  | port :: rest =>
      let protocol := listener_protocol port in
      if (ls_ServicePort port <? 1) || (65535 <? ls_ServicePort port) || (ls_ListenPort port <? 1) || (65535 <? ls_ListenPort port)
         || negb (bool_decide (protocol ∈ ["tcp"; "udp"]))
      then inl "traffic listener port is invalid"
      else
        let key := protocol +:+ "/" +:+ number (ls_ServicePort port) in
        if bool_decide (key ∈ seen) then inl "traffic listener port is duplicated"
        else validate_listeners ({[key]} ∪ seen) rest
  end.

Definition PrepareRequest_Validate (request : PrepareRequest) : string + unit :=
  if negb (validMode (pr_Mode request)) || negb (validTaskID (pr_TaskID request)) || negb (accepts (Identity_Validate (pr_Identity request)))
     || negb (validText (pr_RelayID request) 128) || bool_decide (net_ParseIP (TrimSpace (pr_GatewayIP request)) = None)
     || bool_decide (pr_Ports request = []) || (64 <? len (pr_Ports request))
  then inl "traffic prepare request is invalid"
  else validate_listeners ∅ (pr_Ports request).

Definition HeartbeatRequest_Validate (request : HeartbeatRequest) : string + unit :=
  if negb (validMode (hr_Mode request)) || negb (validTaskID (hr_TaskID request)) || negb (validText (hr_RelayID request) 128)
  then inl "traffic heartbeat request is invalid" else inr tt.

Definition FinishRequest_Validate (request : FinishRequest) : string + unit :=
  if negb (validMode (fr_Mode request)) || negb (validTaskID (fr_TaskID request)) || negb (validText (fr_RelayID request) 128)
     || (512 <? slen (fr_Reason request)) || negb (bool_decide (TrimSpace (fr_Reason request) = fr_Reason request))
  then inl "traffic finish request is invalid" else inr tt.
End validation.
End trafficcontrol.
