(* ===== verification/ServiceBackends.v ===== *)
(** * The backends of a Service before it is intercepted
    ([controlplane/servicebinding]) *)

From S2P Require Import Prelude GoLib GoSort Netip TrafficBinding KubeClient.

Definition interceptManagedLabel : string := "app.kubernetes.io/managed-by".
Definition interceptManagedValue : string := "kubeloop".
Definition ServiceNameLabel : string := "kubernetes.io/service-name".
Definition annotationInterceptID : string := "kubeloop.dev/intercept-id".

Record InterceptPort := mkInterceptPort {
  ip_Name : string;
  ip_Protocol : string;
  ip_ServicePort : Z;
  ip_ListenPort : Z
}.

Record ServiceInterceptSnapshot := mkServiceInterceptSnapshot {
  si_Namespace : string;
  si_Service : string;
  si_Selector : GoMap;
  si_Ports : list InterceptPort;
  si_GatewayIP : string;
  si_EndpointSlices : list EndpointSlice;
  si_HasEndpointSlices : bool;
  si_EndpointsSubsets : list EndpointSubset;
  si_HasEndpoints : bool
}.

Record PreviewServiceSnapshot := mkPreviewServiceSnapshot {
  ps_Namespace : string;
  ps_Service : string;
  ps_Ports : list InterceptPort;
  ps_GatewayIP : string
}.

(** ** Capture ([endpoints.go]) *)

(** What fails: a check, or a call of the API. *)
Inductive capture_error := CaptureRefused (message : string) | CaptureFailed (message : string) (e : kube_error).

Definition with_endpoints (slices : list EndpointSlice) (subsets : option (list EndpointSubset)) (s : ServiceInterceptSnapshot)
    : ServiceInterceptSnapshot :=
  mkServiceInterceptSnapshot (si_Namespace s) (si_Service s) (si_Selector s) (si_Ports s) (si_GatewayIP s) slices (0 <? len slices)
    (default [] subsets) (bool_decide (is_Some subsets)).
Definition with_captured_selector (selector : GoMap) (s : ServiceInterceptSnapshot) : ServiceInterceptSnapshot :=
  mkServiceInterceptSnapshot (si_Namespace s) (si_Service s) selector (si_Ports s) (si_GatewayIP s) (si_EndpointSlices s)
    (si_HasEndpointSlices s) (si_EndpointsSubsets s) (si_HasEndpoints s).

Section capture.
Context {W : Type} `{KubeClient W}.

Definition snapshotEndpoints (snapshot : ServiceInterceptSnapshot) (w : W) : (capture_error + ServiceInterceptSnapshot) * W :=
  let '(listed, w) := kc_List (A := EndpointSlice) (InNamespace (si_Namespace snapshot)) [(ServiceNameLabel, si_Service snapshot)] w in
  match listed with
  | inl e => (inl (CaptureFailed "list endpoint slices" e), w)
  | inr items =>
      let slices := filter (fun item => at_key (om_Labels (es_Meta item)) interceptManagedLabel <> interceptManagedValue) items in
      let '(legacy, w) := kc_Get (A := Endpoints) (si_Namespace snapshot, si_Service snapshot) w in
      match legacy with
      | inr l => (inr (with_endpoints slices (Some (eps_Subsets l)) snapshot), w)
      | inl e => if IsNotFound e then (inr (with_endpoints slices None snapshot), w) else (inl (CaptureFailed "get endpoints" e), w)
      end
  end.

Definition CaptureServiceIntercept (snapshot : ServiceInterceptSnapshot) (w : W) : (capture_error + ServiceInterceptSnapshot) * W :=
  if bool_decide (si_Namespace snapshot = "") || bool_decide (si_Service snapshot = "")
  then (inl (CaptureRefused "namespace and service are required"), w)
  else if bool_decide (si_GatewayIP snapshot = "") then (inl (CaptureRefused "gateway IP is required"), w)
  else if bool_decide (si_Ports snapshot = []) then (inl (CaptureRefused "at least one port mapping is required"), w)
  else
  let '(r, w) := kc_Get (A := Service) (si_Namespace snapshot, si_Service snapshot) w in
  match r with
  | inl e => (inl (CaptureFailed "get service" e), w)
  | inr service =>
      let name := si_Namespace snapshot +:+ "/" +:+ si_Service snapshot in
      if bool_decide (svc_ClusterIP service = "None") || bool_decide (svc_Type service = "ExternalName")
      then (inl (CaptureRefused ("service " +:+ name +:+ " cannot be intercepted")), w)
      else if negb (bool_decide (at_key (om_Annotations (svc_Meta service)) annotationInterceptID = ""))
      then (inl (CaptureRefused ("service " +:+ name +:+ " is already intercepted")), w)
      else snapshotEndpoints (with_captured_selector (svc_Selector service) snapshot) w
  end.
End capture.

(** ** Backends ([backends.go]) *)

Module backends.

Record BackendTarget := mkBackendTarget { Address : string; Port : Z }.
Record BackendSet := mkBackendSet { Name : string; ServicePort : Z; Protocol : string; Targets : list BackendTarget }.

#[export] Instance BackendTarget_eq_dec : EqDecision BackendTarget.
Proof. solve_decision. Defined.

Definition normalizedProtocol (protocol : string) : string := if bool_decide (protocol = "") then "TCP" else protocol.
Definition dereferenceProtocol (protocol : option string) : string := default "TCP" protocol.

(** A port of a slice or of a subset: its name, its protocol and its number. *)
Definition candidate : Type := string * string * Z.
Definition slice_candidate (port : EndpointPort) : option candidate :=
  (fun number => (default "" (epp_Name port), dereferenceProtocol (epp_Protocol port), number)) <$> epp_Port port.
Definition legacy_candidate (port : LegacyPort) : candidate := (lp_Name port, lp_Protocol port, lp_Port port).

Definition usable (protocol : string) (c : candidate) : bool :=
  let '(_, p, n) := c in (1 <=? n) && (n <=? 65535) && bool_decide (normalizedProtocol p = protocol).

(** The port with the selected name; without a name, the only nameless port, or the
    one with the number of the Service port. *)
Definition match_port (candidates : list candidate) (selected : InterceptPort) : option Z :=
  if negb (bool_decide (ip_Name selected = ""))
  then snd <$> List.find (fun c => bool_decide (c.1.1 = ip_Name selected)) candidates
  else match List.filter (fun c => bool_decide (c.1.1 = "")) candidates with
       | [c] => Some c.2
       | nameless => snd <$> List.find (fun c => c.2 =? ip_ServicePort selected) nameless
       end.

Definition matchSlicePort (ports : list EndpointPort) (selected : InterceptPort) (protocol : string) : option Z :=
  match_port (List.filter (usable protocol) (omap slice_candidate ports)) selected.
Definition matchLegacyPort (ports : list LegacyPort) (selected : InterceptPort) (protocol : string) : option Z :=
  match_port (List.filter (usable protocol) (map legacy_candidate ports)) selected.

Definition readyEndpoint (endpoint : Endpoint) : bool :=
  match ep_Ready endpoint with Some false => false | _ => match ep_Terminating endpoint with Some true => false | _ => true end end.

Section resolve.
Context `{NetipPackage}.

(** An address that can be dialed, in its canonical form, once for each port. *)
Definition appendBackend (targets : list BackendTarget) (raw : string) (port : Z) : list BackendTarget :=
  match netip_ParseAddr (TrimSpace raw) with
  | None => targets
  | Some a =>
      let address := addr_Unmap a in
      if addr_IsUnspecified address || addr_IsMulticast address then targets
      else
        let target := mkBackendTarget (Addr_String address) port in
        if bool_decide (target ∈ targets) then targets else targets ++ [target]
  end.

Definition append_all (targets : list BackendTarget) (addresses : list string) (port : Z) : list BackendTarget :=
  fold_left (fun targets raw => appendBackend targets raw port) addresses targets.

Definition slice_targets (selected : InterceptPort) (protocol : string) (targets : list BackendTarget) (s : EndpointSlice)
    : list BackendTarget :=
  match matchSlicePort (es_Ports s) selected protocol with
  | None => targets
  | Some port =>
      fold_left (fun targets endpoint => if readyEndpoint endpoint then append_all targets (ep_Addresses endpoint) port else targets)
        (es_Endpoints s) targets
  end.
Definition subset_targets (selected : InterceptPort) (protocol : string) (targets : list BackendTarget) (s : EndpointSubset)
    : list BackendTarget :=
  match matchLegacyPort (subset_Ports s) selected protocol with
  | None => targets
  | Some port => append_all targets (subset_Addresses s) port
  end.

Definition compareTargets (left right : BackendTarget) : Z :=
  lex_cmp (fun a b => compareString (Address a) (Address b)) (fun a b => int32 (Port a - Port b)) left right.
Definition compareSets (left right : BackendSet) : Z :=
  lex_cmp (fun a b => int32 (ServicePort a - ServicePort b)) (fun a b => compareString (Protocol a) (Protocol b)) left right.

Definition resolve_port (snapshot : ServiceInterceptSnapshot) (selected : InterceptPort) : string + BackendSet :=
  let protocol := normalizedProtocol (ip_Protocol selected) in
  let targets :=
    if si_HasEndpointSlices snapshot then fold_left (slice_targets selected protocol) (si_EndpointSlices snapshot) []
    else if si_HasEndpoints snapshot then fold_left (subset_targets selected protocol) (si_EndpointsSubsets snapshot) []
    else [] in
  if bool_decide (targets = [])
  then inl ("service port " +:+ ip_Name selected +:+ "/" +:+ number (ip_ServicePort selected) +:+ "/" +:+ ToLower protocol
            +:+ " has no ready original backend")
  else inr (mkBackendSet (ip_Name selected) (ip_ServicePort selected) protocol (SortFunc compareTargets targets)).

Fixpoint resolve_ports (snapshot : ServiceInterceptSnapshot) (ports : list InterceptPort) : string + list BackendSet :=
  match ports with
  | [] => inr []
  | selected :: rest =>
      match resolve_port snapshot selected with
      | inl e => inl e
      | inr set => match resolve_ports snapshot rest with inl e => inl e | inr sets => inr (set :: sets) end
      end
  end.

Definition ResolveSnapshotBackends (snapshot : ServiceInterceptSnapshot) : string + list BackendSet :=
  if bool_decide (si_Ports snapshot = []) then inl "service snapshot contains no selected ports"
  else match resolve_ports snapshot (si_Ports snapshot) with
       | inl e => inl e
       | inr sets => inr (SortFunc compareSets sets)
       end.
End resolve.
End backends.

(** * The backends that a mirror serves *)

Import backends.

Section facts.
Context `{NetipPackage}.

(** An address as it is dialed. *)
Definition dialable (raw : string) (t : BackendTarget) : Prop :=
  exists a, netip_ParseAddr (TrimSpace raw) = Some a /\ addr_IsUnspecified (addr_Unmap a) = false /\
  addr_IsMulticast (addr_Unmap a) = false /\ Address t = Addr_String (addr_Unmap a).

(** The captured ports give a selected port the number [n]: under its name, or, when
    it has no name, as a port without name. *)
Definition offers (candidates : list candidate) (selected : InterceptPort) (n : Z) : Prop :=
  1 <= n <= 65535 /\
  exists p, (ip_Name selected, p, n) ∈ candidates /\ normalizedProtocol p = normalizedProtocol (ip_Protocol selected).

(** Neither known not to be ready nor known to be terminating. *)
Definition serving (endpoint : Endpoint) : Prop := ep_Ready endpoint <> Some false /\ ep_Terminating endpoint <> Some true.

Lemma readyEndpoint_serving endpoint : readyEndpoint endpoint = true -> serving endpoint.
Proof. unfold readyEndpoint, serving. destruct (ep_Ready endpoint) as [[]|], (ep_Terminating endpoint) as [[]|]; done. Qed.

Lemma match_port_offers candidates selected n :
  match_port (List.filter (usable (normalizedProtocol (ip_Protocol selected))) candidates) selected = Some n ->
  offers candidates selected n.
Proof.
  assert (Hc : forall c, In c (List.filter (usable (normalizedProtocol (ip_Protocol selected))) candidates) ->
    c.1.1 = ip_Name selected -> offers candidates selected c.2).
  { intros [[name p] m] [Hin Hu]%filter_In Hname. unfold usable in Hu. apply andb_true_iff in Hu as [Hu Hp%bool_decide_eq_true].
    split; [cbn; lia|]. exists p. split; [|done]. cbn in *. subst. by apply list_elem_of_In. }
  unfold match_port. case_bool_decide as He; cbn [negb].
  - destruct (List.filter (fun c => _) _) as [|c rest] eqn:Ef; [done|].
    assert (Hn : forall d, In d (c :: rest) -> offers candidates selected d.2).
    { intros d Hd. rewrite <- Ef in Hd. apply filter_In in Hd as [Hd Hd'%bool_decide_eq_true]. apply Hc; [done|congruence]. }
    destruct rest as [|d rest]; [intros [= <-]; apply Hn; by left|].
    destruct (List.find _ _) as [x|] eqn:Ex; [|done]. intros [= <-]. apply Hn. by apply find_some in Ex as [].
  - destruct (List.find _ _) as [x|] eqn:Ex; [|done]. intros [= <-]. apply find_some in Ex as [Hin Hx%bool_decide_eq_true]. by apply Hc.
Qed.

(** A backend of the Service for a selected port, in the captured state. *)
Definition captured (snapshot : ServiceInterceptSnapshot) (selected : InterceptPort) (t : BackendTarget) : Prop :=
  (si_HasEndpointSlices snapshot = true /\
   exists s endpoint raw, s ∈ si_EndpointSlices snapshot /\ endpoint ∈ es_Endpoints s /\ raw ∈ ep_Addresses endpoint /\
     serving endpoint /\ offers (omap slice_candidate (es_Ports s)) selected (Port t) /\ dialable raw t) \/
  (si_HasEndpointSlices snapshot = false /\ si_HasEndpoints snapshot = true /\
   exists s raw, s ∈ si_EndpointsSubsets snapshot /\ raw ∈ subset_Addresses s /\
     offers (map legacy_candidate (subset_Ports s)) selected (Port t) /\ dialable raw t).

(** Targets without repetition that satisfy [P]. *)
Definition collected (P : BackendTarget -> Prop) (l : list BackendTarget) : Prop := NoDup l /\ Forall P l.

Lemma collected_fold {A} (P : BackendTarget -> Prop) (step : list BackendTarget -> A -> list BackendTarget) (items : list A) l :
  (forall l x, x ∈ items -> collected P l -> collected P (step l x)) -> collected P l -> collected P (fold_left step items l).
Proof.
  revert l. induction items as [|x items IH]; intros l Hstep Hl; [done|]. cbn. apply IH.
  - intros l' y Hy. apply Hstep. by right.
  - apply Hstep; [by left|done].
Qed.

Lemma collected_append P l raw port : (forall t, Port t = port -> dialable raw t -> P t) -> collected P l -> collected P (appendBackend l raw port).
Proof.
  intros HP [Hnd Hall]. unfold appendBackend. destruct (netip_ParseAddr (TrimSpace raw)) as [a|] eqn:Ea; [|done]. cbn zeta.
  destruct (addr_IsUnspecified _) eqn:Hu; [done|]. destruct (addr_IsMulticast _) eqn:Hm; [done|]. cbn [orb].
  case_bool_decide as Hin; [done|]. split.
  - apply NoDup_app. split; [done|]. split; [|apply NoDup_singleton]. intros x Hx ->%list_elem_of_singleton. done.
  - apply Forall_app. split; [done|]. apply Forall_singleton, HP; [done|]. by exists a.
Qed.

Lemma collected_slices snapshot selected : si_HasEndpointSlices snapshot = true ->
  collected (captured snapshot selected)
    (fold_left (slice_targets selected (normalizedProtocol (ip_Protocol selected))) (si_EndpointSlices snapshot) []).
Proof.
  intros Hh. apply collected_fold; [|split; [apply NoDup_nil_2|apply Forall_nil_2]].
  intros l s Hs Hl. unfold slice_targets. destruct (matchSlicePort _ _ _) as [port|] eqn:Hp; [|done].
  apply collected_fold; [|done]. intros l1 endpoint He Hl1. destruct (readyEndpoint endpoint) eqn:Hr; [|done].
  apply collected_fold; [|done]. intros l2 raw Hraw Hl2. apply collected_append; [|done].
  intros t Ht Hd. left. split; [done|]. exists s, endpoint, raw. rewrite Ht.
  split_and!; try done; [by apply readyEndpoint_serving|by apply match_port_offers].
Qed.

Lemma collected_subsets snapshot selected : si_HasEndpointSlices snapshot = false -> si_HasEndpoints snapshot = true ->
  collected (captured snapshot selected)
    (fold_left (subset_targets selected (normalizedProtocol (ip_Protocol selected))) (si_EndpointsSubsets snapshot) []).
Proof.
  intros Hh He. apply collected_fold; [|split; [apply NoDup_nil_2|apply Forall_nil_2]].
  intros l s Hs Hl. unfold subset_targets. destruct (matchLegacyPort _ _ _) as [port|] eqn:Hp; [|done].
  apply collected_fold; [|done]. intros l2 raw Hraw Hl2. apply collected_append; [|done].
  intros t Ht Hd. right. split; [done|]. split; [done|]. exists s, raw. rewrite Ht. split_and!; try done. by apply match_port_offers.
Qed.

(** What a set holds for its port. *)
Definition serves (snapshot : ServiceInterceptSnapshot) (selected : InterceptPort) (set : BackendSet) : Prop :=
  Name set = ip_Name selected /\ ServicePort set = ip_ServicePort selected /\
  Protocol set = normalizedProtocol (ip_Protocol selected) /\ Targets set <> [] /\ collected (captured snapshot selected) (Targets set).

Lemma collected_perm P l l' : Permutation l l' -> collected P l -> collected P l'.
Proof. intros Hp [Hn Ha]. split; by rewrite <- Hp. Qed.

Lemma resolve_port_serves snapshot selected set : resolve_port snapshot selected = inr set -> serves snapshot selected set.
Proof.
  unfold resolve_port. cbn zeta. set (targets := if si_HasEndpointSlices snapshot then _ else _).
  assert (Hc : collected (captured snapshot selected) targets).
  { unfold targets. destruct (si_HasEndpointSlices snapshot) eqn:Hh; [by apply collected_slices|].
    destruct (si_HasEndpoints snapshot) eqn:He; [by apply collected_subsets|]. split; [apply NoDup_nil_2|apply Forall_nil_2]. }
  case_bool_decide as Hn; [done|]. intros [= <-]. split; [done|]. split; [done|]. split; [done|]. cbn [Targets].
  pose proof (SortFunc_perm compareTargets targets) as Hp. split; [|by apply (collected_perm _ targets)].
  intros He. rewrite He in Hp. by apply Permutation_nil in Hp.
Qed.

Lemma resolve_ports_serve snapshot ports sets : resolve_ports snapshot ports = inr sets -> Forall2 (serves snapshot) ports sets.
Proof.
  revert sets. induction ports as [|p ports IH]; intros sets; cbn; [by intros [= <-]; constructor|].
  destruct (resolve_port snapshot p) as [e|set] eqn:Hp; [done|]. destruct (resolve_ports snapshot ports) as [e|rest]; [done|].
  intros [= <-]. constructor; [by apply resolve_port_serves|by apply IH].
Qed.

(** A mirror's gateway goes on serving the Service's own backends and
    nothing else: each selected port gets one set, in some order, with its name, its
    number and its protocol; the set is not empty and names no target twice; and
    each target is the address of an endpoint that the captured state does not call
    unready or terminating, in canonical form, neither unspecified nor multicast, at
    a port that the captured state offers under the name of the selected port. *)
Theorem backends_from_snapshot snapshot sets : ResolveSnapshotBackends snapshot = inr sets ->
  exists l, Permutation sets l /\ Forall2 (serves snapshot) (si_Ports snapshot) l.
Proof.
  unfold ResolveSnapshotBackends. case_bool_decide; [done|]. destruct (resolve_ports _ _) as [e|l] eqn:Hl; [done|]. intros [= <-].
  exists l. split; [apply SortFunc_perm|by apply resolve_ports_serve].
Qed.
End facts.
