(* ===== verification/TrafficBindingClient.v ===== *)
(** * The control plane's side of traffic bindings
    ([controlplane/trafficbindingclient])

    A binding is the durable record of a traffic task: the control plane creates it,
    hands it to a relay, pauses, resumes and deletes it, and the operator acts on it.
    Operations thread the world of the client and fail with a [client_error]. *)

From S2P Require Import Prelude GoLib GoSort External Netip IdentityStore TrafficBinding KubeClient TrafficBindingStatus.
From S2P Require Import TrafficControl ServiceBackends.
From S2P Require Import TrafficBindingReconciler KubeLogic TrafficBindingFacts.

(** [uuid.NewSHA1] and [strings.ToUpper]; [validation.IsValidLabelValue] *)
Class Sha1Uuids := { uuid_NewSHA1 : string -> bytes -> string }.
Class UpperPackage := { strings_ToUpper : string -> string }.
Class LabelValidation := { IsValidLabelValue : string -> list string }.

Inductive client_error :=
| ErrTrafficBindingNotFound
| ErrTrafficBindingConflict (message : string)
| Rejected (message : string)
| Wrapped (message : string) (e : kube_error)
| Returned (e : kube_error)
| ContextDone.

(** [err.Error()] *)
Definition client_error_text (e : client_error) : string :=
  match e with
  | ErrTrafficBindingNotFound => "traffic binding not found"
  | ErrTrafficBindingConflict m => "TrafficBinding Session conflicts with existing state: " +:+ m
  | Rejected m => m
  | Wrapped m e => m +:+ ": " +:+ Error_text e
  | Returned e => Error_text e
  | ContextDone => "context done"
  end.

(** ** Operations *)

Definition M (W E A : Type) : Type := W -> (E + A) * W.

#[export] Instance M_ret {W E} : MRet (M W E) := fun A a w => (inr a, w).
#[export] Instance M_bind {W E} : MBind (M W E) := fun A B f m w =>
  match m w with (inl e, w') => (inl e, w') | (inr a, w') => f a w' end.

Definition fails {W E A} (e : E) : M W E A := fun w => (inl e, w).
Definition checked {W E A} (r : E + A) : M W E A := fun w => (r, w).
(** The error of a call as a value, or wrapped. *)
Definition tried {W E A} (call : W -> (kube_error + A) * W) : M W E (kube_error + A) := fun w => let '(r, w') := call w in (inr r, w').
Definition wrapping {W E A} (wrap : kube_error -> E) (call : W -> (kube_error + A) * W) : M W E A := fun w =>
  let '(r, w') := call w in (match r with inl e => inl (wrap e) | inr a => inr a end, w').
(** An operation whose error another kind of error describes. *)
Definition failing_as {W E F A} (f : E -> F) (m : M W E A) : M W F A := fun w =>
  let '(r, w') := m w in (match r with inl e => inl (f e) | inr a => inr a end, w').

(** [wait.PollUntilContextCancel], which looks at once and then at each of the ticks
    that come before the context ends. *)
Fixpoint poll {W E A} (ended : E) (ticks : nat) (condition : M W E (option A)) : M W E A :=
  r ← condition;
  match r, ticks with
  | Some a, _ => mret a
  | None, O => fails ended
  | None, S ticks => poll ended ticks condition
  end.

(** ** The manager ([client.go]) *)

Definition bindingNamePrefix : string := "kubeloop-".
Definition managedByLabel : string := "app.kubernetes.io/managed-by".
Definition managedByValue : string := "kubeloop-control-plane".
Definition controlPlaneIDLabel : string := "traffic.kubeloop.io/control-plane-id".
Definition taskIDLabel : string := "traffic.kubeloop.io/task-id".
Definition sessionIDLabel : string := "traffic.kubeloop.io/session-id".
Definition userIDLabel : string := "traffic.kubeloop.io/user-id".
Definition defaultPoll : Z := 100 * Millisecond.

Record Config := mkConfig { cf_PollInterval : Z; cf_ControlPlaneID : string }.
Record Manager := mkManager { m_pollInterval : Z; m_controlPlaneID : string }.

Definition label (b : TrafficBinding) (name : string) : string := at_key (om_Labels (tb_Meta b)) name.
Definition with_labels (l : list (string * string)) (b : TrafficBinding) : TrafficBinding :=
  set_binding_meta (set_labels (Some (fold_left (fun m kv => <[kv.1 := kv.2]> m) l (entries (om_Labels (tb_Meta b))))) (tb_Meta b)) b.

Definition set_spec (spec : TrafficBindingSpec) (b : TrafficBinding) : TrafficBinding := mkTrafficBinding (tb_Meta b) spec (tb_Status b).
Definition set_desired (state : string) (s : TrafficBindingSpec) : TrafficBindingSpec :=
  mkTrafficBindingSpec state (ts_Mode s) (ts_IdentityID s) (ts_SessionID s) (ts_TaskID s) (ts_SessionGeneration s) (ts_ClusterIP s)
    (ts_DialAddress s) (ts_Target s) (ts_Relay s) (ts_Preview s) (ts_Ports s).
Definition set_relay (relay : option string) (ports : list TrafficPort) (s : TrafficBindingSpec) : TrafficBindingSpec :=
  mkTrafficBindingSpec (ts_DesiredState s) (ts_Mode s) (ts_IdentityID s) (ts_SessionID s) (ts_TaskID s) (ts_SessionGeneration s)
    (ts_ClusterIP s) (ts_DialAddress s) (ts_Target s) relay (ts_Preview s) ports.
Definition set_session (sessionID : string) (generation : Z) (s : TrafficBindingSpec) : TrafficBindingSpec :=
  mkTrafficBindingSpec (ts_DesiredState s) (ts_Mode s) (ts_IdentityID s) sessionID (ts_TaskID s) generation (ts_ClusterIP s)
    (ts_DialAddress s) (ts_Target s) (ts_Relay s) (ts_Preview s) (ts_Ports s).
Definition set_relay_port (port : option Z) (p : TrafficPort) : TrafficPort :=
  mkTrafficPort (tp_Name p) (tp_TargetPort p) port (tp_LocalHost p) (tp_LocalPort p) (tp_Protocol p).
Definition set_namespaced_name (namespace name : string) (b : TrafficBinding) : TrafficBinding :=
  let m := tb_Meta b in
  set_binding_meta (mkObjectMeta namespace name (om_UID m) (om_Generation m) (om_Labels m) (om_Annotations m) (om_OwnerReferences m)
    (om_Finalizers m) (om_Deleting m)) b.

Section client.
Context {W : Type} `{KubeClient W, HashPackage, UuidPackage, Sha1Uuids, UnicodePackage, UpperPackage, LabelValidation, MetaPackage}.

Definition controlPlaneID (value : string) : string :=
  let value := TrimSpace value in
  if bool_decide (value = "") then "kubeloop"
  else if bool_decide (IsValidLabelValue value = []) then value
  else "sha256-" +:+ hex_EncodeToString (take 8 (sha256_Sum256 (string_to_bytes value))).

Definition New (config : Config) : string + Manager :=
  let pollInterval := if cf_PollInterval config =? 0 then defaultPoll else cf_PollInterval config in
  if (pollInterval <? 10 * Millisecond) || (10 * Second <? pollInterval)
  then inl "traffic binding poll interval must be between 10ms and 10s"
  else inr (mkManager pollInterval (controlPlaneID (cf_ControlPlaneID config))).

Definition NameForTask (taskID : string) : client_error + string :=
  let taskID := strings_ToLower (TrimSpace taskID) in
  match uuid_Parse taskID with
  | None => inl (Rejected "invalid TrafficBinding Session ID")
  | Some parsed =>
      if negb (bool_decide (parsed = taskID)) then inl (Rejected "traffic binding Session ID must use canonical UUID format")
      else inr (bindingNamePrefix +:+ taskID)
  end.

(** [trafficSessionIDNamespace]; the parts are joined by zero bytes. *)
Definition trafficSessionIDNamespace : string := "86c6eb9e-85fa-4aac-8f46-b0f663d88acd".
Fixpoint join_zero (parts : list bytes) : bytes :=
  match parts with [] => [] | [p] => p | p :: rest => p ++ x00 :: join_zero rest end.
Definition TaskIDForIdempotency (sessionID taskType identityID key : string) : string :=
  uuid_NewSHA1 trafficSessionIDNamespace
    (join_zero (map (fun s => string_to_bytes (TrimSpace s)) [sessionID; taskType; identityID; key])).

(** ** Workloads ([client_activate.go]) *)

Definition same_workload_port (left right : TrafficPort) : bool :=
  bool_decide (tp_Name left = tp_Name right) && (tp_TargetPort left =? tp_TargetPort right) &&
  bool_decide (tp_Protocol left = tp_Protocol right) && bool_decide (tp_LocalHost left = tp_LocalHost right) &&
  bool_decide (tp_LocalPort left = tp_LocalPort right).

Definition sameBindingWorkload (left right : TrafficBindingSpec) : bool :=
  bool_decide (ts_Mode left = ts_Mode right) && bool_decide (ts_IdentityID left = ts_IdentityID right) &&
  bool_decide (ts_TaskID left = ts_TaskID right) && bool_decide (ts_ClusterIP left = ts_ClusterIP right) &&
  bool_decide (ts_DialAddress left = ts_DialAddress right) && bool_decide (ts_Target left = ts_Target right) &&
  bool_decide (ts_Preview left = ts_Preview right) && (len (ts_Ports left) =? len (ts_Ports right)) &&
  forallb (fun leftPort => existsb (same_workload_port leftPort) (ts_Ports right)) (ts_Ports left).

Section manager.
Context (manager : Manager).

Definition binding_title (namespace name : string) : string := namespace +:+ "/" +:+ name.

(** The labels of a session. *)
Definition session_labels (spec : TrafficBindingSpec) : list (string * string) :=
  [(managedByLabel, managedByValue); (controlPlaneIDLabel, m_controlPlaneID manager); (taskIDLabel, ts_TaskID spec);
   (sessionIDLabel, ts_SessionID spec); (userIDLabel, ts_IdentityID spec)].
Definition setLabels (b : TrafficBinding) : TrafficBinding := with_labels (session_labels (tb_Spec b)) b.

(** [manager.client.Patch(ctx, after, client.MergeFrom(before))] *)
Definition patch (message : string) (before after : TrafficBinding) : M W client_error TrafficBinding :=
  wrapping (Wrapped message) (kc_Patch before after).
Definition patch_status (message : string) (before after : TrafficBinding) : M W client_error TrafficBinding :=
  wrapping (Wrapped message) (kc_StatusPatch before after).

(** [return manager.client...] *)
Definition returning {A} (call : W -> (kube_error + A) * W) : M W client_error A := wrapping Returned call.

(** ** The session store ([session_store.go]) *)

Definition GetSession (namespace taskID : string) : M W client_error TrafficBinding :=
  name ← checked (NameForTask taskID);
  r ← tried (kc_Get (A := TrafficBinding) (TrimSpace namespace, name));
  match r with
  | inl e => if IsNotFound e then fails ErrTrafficBindingNotFound else fails (Wrapped "read TrafficBinding Session" e)
  | inr b =>
      if negb (bool_decide (ts_TaskID (tb_Spec b) = taskID)) || negb (bool_decide (label b controlPlaneIDLabel = m_controlPlaneID manager))
      then fails ErrTrafficBindingNotFound else mret b
  end.

Definition FindSession (taskID : string) : M W client_error TrafficBinding :=
  items ← wrapping (Wrapped "find TrafficBinding Session")
            (kc_List (A := TrafficBinding) None
               [(managedByLabel, managedByValue); (controlPlaneIDLabel, m_controlPlaneID manager); (taskIDLabel, taskID)]);
  match items with [b] => mret b | _ => fails ErrTrafficBindingNotFound end.

Definition ListSessions (namespace sessionID : string) : M W client_error (list TrafficBinding) :=
  wrapping (Wrapped "list TrafficBinding Sessions")
    (kc_List (A := TrafficBinding) (InNamespace namespace)
       [(managedByLabel, managedByValue); (controlPlaneIDLabel, m_controlPlaneID manager); (sessionIDLabel, sessionID)]).

(** The stored binding, and whether it is new. *)
Definition EnsureSession (binding : TrafficBinding) : M W client_error (TrafficBinding * bool) :=
  if bool_decide (TrimSpace (om_Namespace (tb_Meta binding)) = "") then fails (Rejected "TrafficBinding and namespace are required")
  else
  name ← checked (NameForTask (ts_TaskID (tb_Spec binding)));
  let namespace := TrimSpace (om_Namespace (tb_Meta binding)) in
  let desired := set_namespaced_name namespace name binding in
  let desired :=
    if bool_decide (ts_DesiredState (tb_Spec desired) = "")
    then set_spec (set_desired DesiredStateActive (tb_Spec desired)) desired else desired in
  let desired := setLabels desired in
  r ← tried (kc_Create desired);
  match r with
  | inr created => mret (created, true)
  | inl e =>
      if negb (IsAlreadyExists e) then fails (Wrapped ("create TrafficBinding Session " +:+ binding_title namespace name) e)
      else
      existing ← GetSession namespace (ts_TaskID (tb_Spec desired));
      if negb (sameBindingWorkload (tb_Spec existing) (tb_Spec desired))
         || negb (bool_decide (label existing controlPlaneIDLabel = m_controlPlaneID manager))
      then fails (ErrTrafficBindingConflict ("TrafficBinding Session " +:+ binding_title namespace name +:+ " belongs to another owner"))
      else if negb (bool_decide (label existing userIDLabel = ts_IdentityID (tb_Spec desired)))
      then
        stored ← patch ("label TrafficBinding Session " +:+ binding_title namespace name) existing
                   (with_labels [(userIDLabel, ts_IdentityID (tb_Spec desired))] existing);
        mret (stored, false)
      else mret (existing, false)
  end.

(** ** The relay of a session *)

Definition portKey (protocol : string) (port : Z) : string := strings_ToUpper protocol +:+ "/" +:+ number port.

Definition ClaimRelay (now : time) (binding : TrafficBinding) (relayID : string) : M W client_error TrafficBinding :=
  let owner := st_RelayOwnerID (tb_Status binding) in
  if negb (bool_decide (owner = "")) && negb (bool_decide (owner = relayID))
  then fails (Rejected "TrafficBinding Session is already claimed")
  else patch_status "claim TrafficBinding Session" binding (set_status (set_relay_owner relayID (Some now) "" (tb_Status binding)) binding).

(** The ports with the listeners of the gateway. *)
Fixpoint assign_relay_ports (assigned : gmap string Z) (ports : list TrafficPort) : client_error + list TrafficPort :=
  match ports with
  | [] => inr []
  | port :: rest =>
      match assigned !! portKey (tp_Protocol port) (tp_TargetPort port) with
      | None => inl (Rejected ("relay port is missing for " +:+ tp_Protocol port +:+ "/" +:+ number (tp_TargetPort port)))
      | Some listenPort =>
          match assign_relay_ports assigned rest with
          | inl e => inl e
          | inr l => inr (set_relay_port (Some listenPort) port :: l)
          end
      end
  end.

Definition not_owner : client_error := Rejected "TrafficBinding Session is owned by another relay".

Definition AttachRelay (binding : TrafficBinding) (relayID address : string) (assigned : gmap string Z) : M W client_error TrafficBinding :=
  if negb (bool_decide (st_RelayOwnerID (tb_Status binding) = relayID)) then fails not_owner
  else
  ports ← checked (assign_relay_ports assigned (ts_Ports (tb_Spec binding)));
  returning (kc_Patch binding (set_spec (set_desired DesiredStateActive (set_relay (Some address) ports (tb_Spec binding))) binding)).

Definition RelayHeartbeat (now : time) (binding : TrafficBinding) (relayID : string) : M W client_error TrafficBinding :=
  if negb (bool_decide (st_RelayOwnerID (tb_Status binding) = relayID)) then fails not_owner
  else returning (kc_StatusPatch binding
    (set_status (set_relay_owner (st_RelayOwnerID (tb_Status binding)) (Some now) (st_RelayError (tb_Status binding)) (tb_Status binding))
       binding)).

Definition FinishRelay (binding : TrafficBinding) (relayID reason : string) : M W client_error TrafficBinding :=
  if negb (bool_decide (st_RelayOwnerID (tb_Status binding) = relayID)) then fails not_owner
  else
  binding ← patch_status "finish TrafficBinding relay" binding (set_status (set_relay_owner "" None reason (tb_Status binding)) binding);
  patch "pause finished TrafficBinding Session" binding (set_spec (set_desired DesiredStatePaused (tb_Spec binding)) binding).

Definition ResetRelay (binding : TrafficBinding) : M W client_error TrafficBinding :=
  binding ← patch_status "reset TrafficBinding relay owner" binding (set_status (set_relay_owner "" None "" (tb_Status binding)) binding);
  patch "reset TrafficBinding relay assignment" binding
    (set_spec (set_desired DesiredStateActive
       (set_relay None (map (set_relay_port None) (ts_Ports (tb_Spec binding))) (tb_Spec binding))) binding).

(** ** Pausing ([client_stop.go]) and deletion ([client_delete.go]) *)

(** The key of the binding of a task. *)
Definition binding_key (namespace taskID : string) : client_error + NamespacedName :=
  match NameForTask taskID with
  | inl e => inl e
  | inr name =>
      if bool_decide (TrimSpace namespace = "") then inl (Rejected "traffic binding namespace is required")
      else inr (TrimSpace namespace, name)
  end.
Definition key_title (k : NamespacedName) : string := k.1 +:+ "/" +:+ k.2.

Definition owned_by_task (taskID : string) (b : TrafficBinding) : bool :=
  bool_decide (ts_TaskID (tb_Spec b) = taskID) && bool_decide (label b taskIDLabel = taskID) &&
  bool_decide (label b controlPlaneIDLabel = m_controlPlaneID manager).

Definition requestPause (namespace taskID : string) : M W client_error NamespacedName :=
  key ← checked (binding_key namespace taskID);
  r ← tried (kc_Get (A := TrafficBinding) key);
  match r with
  | inl e =>
      if IsNotFound e then fails ErrTrafficBindingNotFound
      else fails (Wrapped ("read TrafficBinding " +:+ key_title key +:+ " for pausing") e)
  | inr binding =>
      if negb (owned_by_task taskID binding)
      then fails (Rejected ("traffic binding " +:+ key_title key +:+ " is not owned by Task " +:+ taskID))
      else if om_Deleting (tb_Meta binding)
      then fails (Rejected ("traffic binding " +:+ key_title key +:+ " is being deleted"))
      else if negb (bool_decide (ts_DesiredState (tb_Spec binding) = DesiredStatePaused))
      then
        _ ← patch ("pause TrafficBinding " +:+ key_title key) binding (set_spec (set_desired DesiredStatePaused (tb_Spec binding)) binding);
        mret key
      else mret key
  end.

(** A binding that does not exist needs no pause. *)
Definition unless_missing {A} (default : A) (m : M W client_error A) : M W client_error A := fun w =>
  match m w with
  | (inl ErrTrafficBindingNotFound, w') => (inr default, w')
  | r => r
  end.

Definition RequestPause (namespace taskID : string) : M W client_error unit :=
  unless_missing tt (_ ← requestPause namespace taskID; mret tt).

Definition condition_true (b : TrafficBinding) (conditionType : string) : option Condition :=
  match FindStatusCondition (st_Conditions (tb_Status b)) conditionType with
  | Some c => if bool_decide (cd_Status c = ConditionTrue) then Some c else None
  | None => None
  end.
Definition observed (b : TrafficBinding) : bool := st_ObservedGeneration (tb_Status b) =? om_Generation (tb_Meta b).

Definition pause_seen (key : NamespacedName) : M W client_error (option unit) :=
  current ← returning (kc_Get (A := TrafficBinding) key);
  let failed := match condition_true current ConditionDegraded with
                | Some c => if bool_decide (cd_Reason c = "PauseFailed") then Some (cd_Message c) else None
                | None => None
                end in
  match observed current, failed with
  | true, Some message => fails (Rejected ("pause TrafficBinding " +:+ key_title key +:+ " failed: " +:+ message))
  | _, _ => mret (if bool_decide (is_Some (condition_true current ConditionPaused)) && observed current then Some tt else None)
  end.
Definition waitForPaused (ticks : nat) (key : NamespacedName) : M W client_error unit := poll ContextDone ticks (pause_seen key).

Definition Pause (ticks : nat) (namespace taskID : string) : M W client_error unit :=
  key ← unless_missing None (key ← requestPause namespace taskID; mret (Some key));
  match key with None => mret tt | Some key => waitForPaused ticks key end.

Definition deletion_seen (key : NamespacedName) : M W client_error (option unit) :=
  r ← tried (kc_Get (A := TrafficBinding) key);
  match r with
  | inl e => if IsNotFound e then mret (Some tt) else fails (Returned e)
  | inr _ => mret None
  end.

Definition Delete (ticks : nat) (namespace taskID : string) : M W client_error unit :=
  key ← checked (binding_key namespace taskID);
  r ← tried (kc_Get (A := TrafficBinding) key);
  match r with
  | inl e => if IsNotFound e then mret tt else fails (Wrapped ("read TrafficBinding " +:+ key_title key +:+ " for deletion") e)
  | inr binding =>
      if negb (owned_by_task taskID binding)
      then fails (Rejected ("traffic binding " +:+ key_title key +:+ " is not owned by Task " +:+ taskID))
      else
      d ← (if om_Deleting (tb_Meta binding) then mret (inr tt) else tried (kc_Delete binding));
      match d with
      | inl e =>
          if IsNotFound e then poll ContextDone ticks (deletion_seen key)
          else fails (Wrapped ("delete TrafficBinding " +:+ key_title key) e)
      | inr _ => poll ContextDone ticks (deletion_seen key)
      end
  end.
(** ** Activation ([client_activate.go]) *)

(** The object that is created: what the server owns is cleared. *)
Definition activation (binding : TrafficBinding) (namespace name : string) : TrafficBinding :=
  let m := tb_Meta binding in
  setLabels (mkTrafficBinding
    (mkObjectMeta namespace name "" 0 (om_Labels m) (om_Annotations m) (om_OwnerReferences m) (om_Finalizers m) false)
    (set_desired DesiredStateActive (tb_Spec binding)) (tb_Status binding)).

(** What waits for the operator: a binding that is ready for its generation. *)
Definition ready_seen (key : NamespacedName) : M W client_error (option TrafficBinding) :=
  r ← tried (kc_Get (A := TrafficBinding) key);
  match r with
  | inl e =>
      if IsNotFound e then fails (Rejected ("traffic binding " +:+ key_title key +:+ " disappeared before becoming ready"))
      else fails (Returned e)
  | inr candidate =>
      if om_Deleting (tb_Meta candidate) then fails (Rejected ("traffic binding " +:+ key_title key +:+ " is being deleted"))
      else match condition_true candidate ConditionDegraded with
           | Some c => fails (Rejected ("traffic binding " +:+ key_title key +:+ " is degraded (" +:+ cd_Reason c +:+ "): " +:+ cd_Message c))
           | None => mret (if bool_decide (is_Some (condition_true candidate ConditionReady)) && observed candidate
                           then Some candidate else None)
           end
  end.

(** Create the binding, or bring the existing one of the same workload up to date;
    the flag of an error tells whether the task owns the binding. *)
Definition record_activation (desired : TrafficBinding) : M W (bool * client_error) unit :=
  let title := binding_title (om_Namespace (tb_Meta desired)) (om_Name (tb_Meta desired)) in
  let spec := tb_Spec desired in
  r ← tried (kc_Create desired);
  match r with
  | inr _ => mret tt
  | inl e =>
      if negb (IsAlreadyExists e) then fails (false, Wrapped ("create TrafficBinding " +:+ title) e)
      else
      existing ← wrapping (fun e => (false, Wrapped ("read existing TrafficBinding " +:+ title) e))
                   (kc_Get (A := TrafficBinding) (object_key desired));
      if negb (sameBindingWorkload (tb_Spec existing) spec) || negb (bool_decide (label existing taskIDLabel = ts_TaskID spec))
         || negb (bool_decide (label existing controlPlaneIDLabel = m_controlPlaneID manager))
      then fails (false, ErrTrafficBindingConflict ("traffic binding " +:+ title +:+ " belongs to another Session"))
      else if negb (bool_decide (tb_Spec existing = spec)) || negb (bool_decide (label existing sessionIDLabel = ts_SessionID spec))
              || negb (bool_decide (label existing userIDLabel = ts_IdentityID spec))
      then
        _ ← wrapping (fun e => (true, Wrapped ("activate TrafficBinding " +:+ title) e))
              (kc_Patch existing (with_labels (session_labels spec) (set_spec spec existing)));
        mret tt
      else mret tt
  end.

Definition Activate (ticks : nat) (binding : TrafficBinding) : M W (bool * client_error) TrafficBinding :=
  let namespace := TrimSpace (om_Namespace (tb_Meta binding)) in
  if bool_decide (namespace = "") then fails (false, Rejected "traffic binding namespace is required")
  else
  name ← failing_as (pair false) (checked (NameForTask (ts_TaskID (tb_Spec binding))));
  let desired := activation binding namespace name in
  record_activation desired;;
  failing_as (pair true) (poll ContextDone ticks (ready_seen (object_key desired))).

(** ** Adoption by a session ([session_sync.go]) *)

Definition max_int64 : Z := 2 ^ 63 - 1.

(** The bindings of the user that are not being deleted. *)
Definition recoverable (identityID : string) (b : TrafficBinding) : bool :=
  bool_decide (ts_IdentityID (tb_Spec b) = identityID) && negb (om_Deleting (tb_Meta b)).

(** Give each the label of the user; the list holds what is then stored. *)
Fixpoint label_bindings (identityID : string) (items : list TrafficBinding) : M W client_error (list TrafficBinding) :=
  match items with
  | [] => mret []
  | b :: rest =>
      b ← (if negb (recoverable identityID b) || bool_decide (label b userIDLabel = identityID) then mret b
           else patch ("label TrafficBinding Session " +:+ ts_TaskID (tb_Spec b)) b (with_labels [(userIDLabel, identityID)] b));
      rest ← label_bindings identityID rest;
      mret (b :: rest)
  end.

Fixpoint adopt_bindings (identityID sessionID : string) (generation : Z) (items : list TrafficBinding) : M W client_error unit :=
  match items with
  | [] => mret tt
  | b :: rest =>
      (if negb (recoverable identityID b)
          || (bool_decide (ts_SessionID (tb_Spec b) = sessionID) && (ts_SessionGeneration (tb_Spec b) =? generation))
       then mret tt
       else
         current ← wrapping (Wrapped ("reload TrafficBinding Session " +:+ ts_TaskID (tb_Spec b)))
                     (kc_Get (A := TrafficBinding) (object_key b));
         _ ← patch ("adopt TrafficBinding Session " +:+ ts_TaskID (tb_Spec b)) current
               (with_labels [(sessionIDLabel, sessionID); (userIDLabel, identityID)]
                  (set_spec (set_session sessionID generation (tb_Spec current)) current));
         mret tt);;
      adopt_bindings identityID sessionID generation rest
  end.

Definition Synchronize (identityID sessionID namespace : string) (generation : Z) : M W client_error unit :=
  if (generation =? 0) || (max_int64 <? generation) then fails (Rejected "transport Session generation is invalid")
  else
  items ← wrapping (Wrapped "list TrafficBinding Sessions")
            (kc_List (A := TrafficBinding) (InNamespace namespace)
               [(managedByLabel, managedByValue); (controlPlaneIDLabel, m_controlPlaneID manager)]);
  items ← label_bindings identityID items;
  adopt_bindings identityID sessionID generation items.

Definition SessionSynchronizer_Delete (ticks : nat) (namespace userID taskID : string) : M W client_error unit :=
  binding ← GetSession namespace taskID;
  if negb (bool_decide (ts_IdentityID (tb_Spec binding) = userID)) || negb (bool_decide (label binding userIDLabel = userID))
  then fails ErrTrafficBindingNotFound
  else Delete ticks namespace taskID.
End manager.

(** ** New bindings ([builders.go], [owner.go]) *)

Record Owner := mkOwner { ow_IdentityID : string; ow_SessionID : string; ow_TaskID : string; ow_SessionGeneration : Z }.

Definition new_binding (namespace : string) (spec : TrafficBindingSpec) : TrafficBinding :=
  mkTrafficBinding (mkObjectMeta namespace "" "" 0 None None [] [] false) spec no_status.

Definition owned_spec (owner : Owner) (mode clusterIP : string) (target : option TrafficTarget) (relay preview : option string)
    (ports : list TrafficPort) : TrafficBindingSpec :=
  mkTrafficBindingSpec DesiredStateActive mode (ow_IdentityID owner) (ow_SessionID owner) (ow_TaskID owner)
    (ow_SessionGeneration owner) clusterIP "" target relay preview ports.

(** The local targets by protocol and port: the last one wins. *)
Definition target_map (localTargets : list servicemodel.LocalTarget) : gmap string servicemodel.LocalTarget :=
  fold_left (fun m t => <[portKey (servicemodel.lt_Protocol t) (servicemodel.lt_ServicePort t) := t]> m) localTargets ∅.

Definition pending_port (targets : gmap string servicemodel.LocalTarget) (port : servicemodel.Port) : TrafficPort :=
  let target := targets !! portKey (servicemodel.Protocol port) (servicemodel.ServicePort port) in
  mkTrafficPort (servicemodel.Name port) (servicemodel.ServicePort port) None (default "" (servicemodel.lt_LocalHost <$> target))
    (servicemodel.lt_LocalPort <$> target) (strings_ToUpper (servicemodel.Protocol port)).

Definition pendingBinding (mode : string) (owner : Owner) (namespace service clusterIP : string) (ports : list servicemodel.Port)
    (localTargets : list servicemodel.LocalTarget) : TrafficBinding :=
  new_binding namespace
    (owned_spec owner mode clusterIP (Some (mkTrafficTarget TargetKindService service)) None None
       (map (pending_port (target_map localTargets)) ports)).

Definition NewPendingInterceptBinding (mode : string) (owner : Owner) (namespace service clusterIP : string)
    (ports : list servicemodel.Port) (localTargets : list servicemodel.LocalTarget) : string + TrafficBinding :=
  if negb (bool_decide (mode ∈ [ModeExchange; ModeMirror]))
  then inl ("unsupported intercept TrafficBinding mode " +:+ quoted mode)
  else inr (pendingBinding mode owner namespace service clusterIP ports localTargets).

Definition NewPendingPreviewBinding (owner : Owner) (namespace service : string) (ports : list servicemodel.Port)
    (localTargets : list servicemodel.LocalTarget) : TrafficBinding :=
  new_binding namespace
    (owned_spec owner ModePreview "" None None (Some service) (map (pending_port (target_map localTargets)) ports)).

Definition relay_port (port : InterceptPort) : TrafficPort :=
  mkTrafficPort (ip_Name port) (ip_ServicePort port) (Some (ip_ListenPort port)) "" None (strings_ToUpper (ip_Protocol port)).

Definition NewInterceptBinding (mode : string) (owner : Owner) (snapshot : ServiceInterceptSnapshot) : string + TrafficBinding :=
  if negb (bool_decide (mode ∈ [ModeExchange; ModeMirror]))
  then inl ("unsupported intercept TrafficBinding mode " +:+ quoted mode)
  else inr (new_binding (si_Namespace snapshot)
    (owned_spec owner mode "" (Some (mkTrafficTarget TargetKindService (si_Service snapshot))) (Some (si_GatewayIP snapshot)) None
       (map relay_port (si_Ports snapshot)))).

Definition NewPreviewBinding (owner : Owner) (snapshot : PreviewServiceSnapshot) : TrafficBinding :=
  new_binding (ps_Namespace snapshot)
    (owned_spec owner ModePreview "" None (Some (ps_GatewayIP snapshot)) (Some (ps_Service snapshot))
       (map relay_port (ps_Ports snapshot))).

(** [strings.EqualFold(kind, "pod")]: the letters have no fold outside ASCII. *)
Definition NewPortForwardBinding (owner : Owner) (namespace kind name protocol : string) (port : Z) : TrafficBinding :=
  let targetKind := if bool_decide (ToLower kind = "pod") then TargetKindPod else TargetKindService in
  new_binding namespace
    (owned_spec owner ModePortForward "" (Some (mkTrafficTarget targetKind name)) None None
       [mkTrafficPort "" port None "" None (strings_ToUpper protocol)]).
End client.

(** * The control plane keeps to its rights

    What the operator relies on ([respectful]), shown of the operations of the
    control plane: their patches touch neither the workload, nor the finalizer, nor
    what the operator keeps in the status of a binding, and give it a relay but take
    none away. *)


Section rights.
Context {W : Type} `{KC : KubeClient W} `{KH : HashPackage} `{KI : UuidPackage} `{KS : Sha1Uuids} `{KU : UnicodePackage}
  `{KP : UpperPackage} `{KV : LabelValidation} `{KM : MetaPackage}.
Context (bk : NamespacedName) (buid sname suid : string).
Context (others : Cluster -> Cluster -> Prop) `{KW : !KubeWrites others}.
Context (manager : Manager).

#[local] Abbreviation respects := (respectful bk buid sname suid).
#[local] Abbreviation kept := (kept_binding bk buid sname).

Lemma object_kept_refl b : kept b b.
Proof. done. Qed.
Lemma object_kept_trans b1 b2 b3 : kept b1 b2 -> kept b2 b3 -> kept b1 b3.
Proof.
  intros (H1 & H2 & H3 & H4 & H5) (K1 & K2 & K3 & K4 & K5).
  split; [auto|]. split; [congruence|]. split; [congruence|]. split; [auto|]. rewrite H2 in K5. auto.
Qed.

#[export] Instance respectful_preorder : PreOrder respects.
Proof.
  split.
  - intros c. split; [intros b Hb; exists b; split; [done|apply object_kept_refl]|]. split; [intros b Hb _; by exists b|].
    intros s Hs. split; [by right|]. intros Hu. by exists s.
  - intros c1 c2 c3 (Hb1 & Hf1 & Hs1) (Hb2 & Hf2 & Hs2). split; [|split].
    + intros b3 Hb3. destruct (Hb2 b3 Hb3) as (b2 & Hk2 & Hkept2). destruct (Hb1 b2 Hk2) as (b1 & Hk1 & Hkept1).
      exists b1. split; [done|by apply (object_kept_trans b1 b2)].
    + intros b1 Hk1 Hfin. destruct (Hf1 b1 Hk1 Hfin) as [b2 Hk2]. apply (Hf2 b2 Hk2).
      destruct (Hb1 b2 Hk2) as (b1' & Hk1' & _ & _ & _ & Hff & _). assert (b1' = b1) as -> by congruence. by apply Hff.
    + intros s3 Hk3. destruct (Hs2 s3 Hk3) as [Hkey2 Hkept2]. split.
      * destruct Hkey2 as [?|Hk2]; [by left|]. by destruct (Hs1 s3 Hk2) as [[?|?] _]; [left|right].
      * intros Hu. destruct (Hkept2 Hu) as (s2 & Hk2 & Hu2 & Ho2 & Hsel2).
        destruct (proj2 (Hs1 s2 Hk2) Hu2) as (s1 & Hk1 & Hu1 & Ho1 & Hsel1). exists s1. split_and!; congruence.
Qed.

Hypothesis others_respect : forall c c', others c c' -> respects c c'.

(** ** Writes of bindings *)

(** Only the bindings differ, and the one at [k] is a version of what was stored. *)
Lemma put_binding_respects k b b' c :
  trafficbindings c !! k = Some b -> kept b b' -> respects c (put k b' c).
Proof.
  intros Hk Hkept. split; [|split].
  - intros x Hx. unfold put in Hx. cbn in Hx. destruct (decide (k = bk)) as [->|Hne].
    + destruct (gone _); [by rewrite lookup_delete_eq in Hx|]. rewrite lookup_insert_eq in Hx. injection Hx as <-. by exists b.
    + exists x. split; [|apply object_kept_refl].
      destruct (gone _); [by rewrite lookup_delete_ne in Hx|by rewrite lookup_insert_ne in Hx].
  - intros x Hx Hfin. unfold put. cbn. destruct (decide (k = bk)) as [->|Hne].
    + assert (x = b) as -> by congruence. destruct Hkept as (_ & _ & _ & Hf & _). specialize (Hf Hfin).
      unfold gone. unfold ContainsFinalizer in Hf. apply bool_decide_eq_true in Hf.
      rewrite (bool_decide_eq_false_2 (om_Finalizers _ = [])); [rewrite andb_false_r; rewrite lookup_insert_eq; by eexists|].
      cbn. intros He. rewrite He in Hf. by apply elem_of_nil in Hf.
    + destruct (gone _); [by rewrite lookup_delete_ne|by rewrite lookup_insert_ne].
  - intros s Hs. unfold put in Hs. cbn in Hs. split; [by right|]. intros Hu. by exists s.
Qed.

(** A patch of the main resource within the rights. *)
Definition harmless (before after : TrafficBinding) : Prop :=
  object_key after = object_key before /\ ts_Mode (tb_Spec after) = ts_Mode (tb_Spec before) /\
  ts_Target (tb_Spec after) = ts_Target (tb_Spec before) /\ om_Finalizers (tb_Meta after) = om_Finalizers (tb_Meta before) /\
  (ts_Relay (tb_Spec after) = ts_Relay (tb_Spec before) \/ is_Some (ts_Relay (tb_Spec after))).

Lemma merge_field_eq {A} `{EqDecision A} (x y c : A) : y = x -> merge_field x y c = c.
Proof. intros ->. apply merge_field_same. Qed.

Lemma harmless_kept before after current : harmless before after -> kept current (merge_binding before after current).
Proof.
  intros (Hkey & Hm & Ht & Hf & Hr). unfold kept_binding, merge_binding.
  split; [|split; [done|split; [done|split]]].
  - intros (Hid & Hu & Hmode & Htarget). unfold identified. cbn [tb_Spec tb_Meta merge_spec ts_Mode ts_Target].
    rewrite (merge_field_eq _ _ _ Hm), (merge_field_eq _ _ _ Ht). done.
  - unfold ContainsFinalizer. cbn. by rewrite (merge_field_eq _ _ _ Hf).
  - intros _ Hrel. cbn. unfold merge_field. case_bool_decide as He; [done|]. destruct Hr as [Hr|Hr]; [congruence|done].
Qed.

(** A patch of the status within the rights. *)
Definition harmless_status (before after : TrafficBinding) : Prop :=
  st_Phase (tb_Status after) = st_Phase (tb_Status before) /\ st_Snapshot (tb_Status after) = st_Snapshot (tb_Status before).

Lemma harmless_status_kept before after current : harmless_status before after ->
  kept current (set_status (merge_status (tb_Status before) (tb_Status after) (tb_Status current)) current).
Proof.
  intros [Hp Hs]. split; [done|]. split; [cbn; by rewrite (merge_field_eq _ _ _ Hp)|].
  split; [|done]. cbn. unfold merge_snapshot. by rewrite Hs, bool_decide_true.
Qed.

(** ** Operations *)

Definition rightful {E A} (m : M W E A) : Prop := forall w r w', m w = (r, w') -> respects (kc_cluster w) (kc_cluster w').

Lemma rightful_ret {E A} (a : A) : rightful (mret a : M W E A).
Proof. by intros w r w' [= <- <-]. Qed.
Lemma rightful_fails {E A} (e : E) : rightful (fails e : M W E A).
Proof. by intros w r w' [= <- <-]. Qed.
Lemma rightful_checked {E A} (x : E + A) : rightful (checked x : M W E A).
Proof. by intros w r w' [= <- <-]. Qed.

Lemma rightful_bind {E A B} (m : M W E A) (f : A -> M W E B) : rightful m -> (forall a, rightful (f a)) -> rightful (m ≫= f).
Proof.
  intros Hm Hf w r w' Hr. unfold mbind, M_bind in Hr. destruct (m w) as [[e|a] w1] eqn:Em.
  - injection Hr as <- <-. by apply (Hm _ _ _ Em).
  - transitivity (kc_cluster w1); [by apply (Hm _ _ _ Em)|by apply (Hf a _ _ _ Hr)].
Qed.

(** A value that was checked. *)
Lemma rightful_checked_bind {E A B} (x : E + A) (f : A -> M W E B) : (forall a, x = inr a -> rightful (f a)) -> rightful (checked x ≫= f).
Proof. intros Hf. destruct x as [e|a]; [by intros w r w' [= <- <-]|]. intros w r w' Hr. by apply (Hf a eq_refl w r w'). Qed.

(** The calls. *)
Definition rightful_call {A} (call : W -> (kube_error + A) * W) : Prop :=
  forall w r w', call w = (r, w') -> respects (kc_cluster w) (kc_cluster w').

Lemma rightful_tried {E A} (call : W -> (kube_error + A) * W) : rightful_call call -> rightful (tried call : M W E _).
Proof. intros Hc w r w' Hr. unfold tried in Hr. destruct (call w) as [x w1] eqn:Ec. injection Hr as <- <-. by apply (Hc _ _ _ Ec). Qed.
Lemma rightful_wrapping {E A} (f : kube_error -> E) (call : W -> (kube_error + A) * W) : rightful_call call -> rightful (wrapping f call).
Proof. intros Hc w r w' Hr. unfold wrapping in Hr. destruct (call w) as [x w1] eqn:Ec. injection Hr as <- <-. by apply (Hc _ _ _ Ec). Qed.
Lemma rightful_failing_as {E F A} (f : E -> F) (m : M W E A) : rightful m -> rightful (failing_as f m).
Proof. intros Hm w r w' Hr. unfold failing_as in Hr. destruct (m w) as [x w1] eqn:Em. injection Hr as <- <-. by apply (Hm _ _ _ Em). Qed.
Lemma rightful_unless_missing {A} (a : A) (m : M W client_error A) : rightful m -> rightful (unless_missing a m).
Proof.
  intros Hm w r w' Hr. unfold unless_missing in Hr. destruct (m w) as [[e|x] w1] eqn:Em; [|injection Hr as <- <-; by apply (Hm _ _ _ Em)].
  destruct e; injection Hr as <- <-; by apply (Hm _ _ _ Em).
Qed.
Lemma rightful_poll {E A} (ended : E) ticks (condition : M W E (option A)) : rightful condition -> rightful (poll ended ticks condition).
Proof.
  intros Hc. induction ticks as [|n IH]; (apply rightful_bind; [done|]); intros [a|]; auto using rightful_ret, rightful_fails.
Qed.

Lemma rightful_reads {A} (call : W -> (kube_error + A) * W) gives : reads others call gives -> rightful_call call.
Proof. intros Hc w r w' Hr. destruct (Hc _ _ _ Hr) as [Ho _]. by apply others_respect. Qed.

Lemma rightful_get {A} `{Resource A} k : rightful_call (kc_Get (A := A) k).
Proof. eapply rightful_reads, law_Get_quiet. Qed.
Lemma rightful_list {A} `{Resource A} ns labels : rightful_call (kc_List (A := A) ns labels).
Proof. eapply rightful_reads, law_List_quiet. Qed.

Lemma rightful_writes {A} (call : W -> (kube_error + A) * W) effect :
  writes others call effect -> (forall c a c', effect c a c' -> respects c c') -> rightful_call call.
Proof.
  intros Hc He w r w' Hr. destruct (Hc _ _ _ Hr) as (c & Ho & Hcase). transitivity c; [by apply others_respect|].
  destruct r as [e|a]; [destruct Hcase as [->|[a Ha]]|]; [done|by apply (He _ _ _ Ha)|by apply (He _ _ _ Hcase)].
Qed.

Lemma rightful_patch before after : harmless before after -> rightful_call (kc_Patch before after).
Proof.
  intros Hh. eapply rightful_writes; [apply law_Patch|]. intros c a c' (current & Hk & -> & ->).
  by apply (put_binding_respects _ current); [|apply harmless_kept].
Qed.
Lemma rightful_status_patch before after : harmless_status before after -> rightful_call (kc_StatusPatch before after).
Proof.
  intros Hh. eapply rightful_writes; [apply law_StatusPatch|]. intros c a c' (current & Hk & _ & -> & ->).
  by apply (put_binding_respects _ current); [|apply harmless_status_kept].
Qed.
Lemma rightful_delete (b : TrafficBinding) : rightful_call (kc_Delete b).
Proof.
  eapply rightful_writes; [apply law_Delete|]. intros c a c' (current & Hk & ->). by apply (put_binding_respects _ current).
Qed.
(** A creation: of another binding, or of one that is there and stays there. *)
Definition guarded (c : Cluster) : Prop := exists b, trafficbindings c !! bk = Some b /\ ContainsFinalizer b = true.

Lemma guarded_kept c c' : respects c c' -> guarded c -> guarded c'.
Proof.
  intros (Hb & Hf & _) (b & Hk & Hfin). destruct (Hf b Hk Hfin) as [b' Hk']. exists b'. split; [done|].
  destruct (Hb b' Hk') as (b0 & Hk0 & _ & _ & _ & Hff & _). assert (b0 = b) as -> by congruence. by apply Hff.
Qed.

Lemma create_respects b c a c' : object_key b <> bk \/ guarded c -> created b c a c' -> respects c c'.
Proof.
  intros Hwhere (Hn & Hreq & ->).
  assert (Hne : object_key b <> bk). { destruct Hwhere as [?|(x & Hk & _)]; [done|]. intros He. rewrite He in Hn. cbn in Hn. congruence. }
  assert (Hd : gone (r_meta a) = false). { unfold gone. destruct Hreq as [(_ & _ & _ & _ & _ & _ & Hd) _]. cbn. by rewrite Hd. }
  unfold put. rewrite Hd. split; [|split].
  - intros x Hx. cbn in Hx. rewrite lookup_insert_ne in Hx by done. by exists x.
  - intros x Hx _. cbn. rewrite lookup_insert_ne by done. by exists x.
  - intros s Hs. split; [by right|]. intros Hu. by exists s.
Qed.

Lemma create_call_respects (b : TrafficBinding) w r w' :
  object_key b <> bk \/ guarded (kc_cluster w) -> kc_Create b w = (r, w') -> respects (kc_cluster w) (kc_cluster w').
Proof.
  intros Hwhere Hr. destruct (law_Create_binding b _ _ _ Hr) as (c & Ho & Hcase). apply others_respect in Ho.
  transitivity c; [done|].
  assert (Hwhere' : object_key b <> bk \/ guarded c). { destruct Hwhere; [by left|right; by apply (guarded_kept (kc_cluster w))]. }
  destruct r as [e|a]; [destruct Hcase as [->|[a Ha]]|]; [done|by apply (create_respects b _ a)|by apply (create_respects b _ a)].
Qed.

Create HintDb rightful.
#[local] Hint Resolve rightful_ret rightful_fails rightful_checked rightful_bind rightful_tried rightful_wrapping rightful_failing_as
  rightful_unless_missing rightful_poll rightful_get rightful_list rightful_delete rightful_patch rightful_status_patch : rightful.

#[local] Ltac rightful_step :=
  lazymatch goal with
  | |- forall _, _ => intro
  | |- rightful (mbind _ _) => apply rightful_bind
  | |- rightful (match ?x with _ => _ end) => destruct x
  | |- _ => solve [eauto with rightful]
  end.
#[local] Ltac rightful := repeat rightful_step.

(** The patches of the control plane. *)

Lemma harmless_labels l before after : harmless before after -> harmless before (with_labels l after).
Proof. done. Qed.

Lemma harmless_desired state b : harmless b (set_spec (set_desired state (tb_Spec b)) b).
Proof. repeat split. by left. Qed.

Lemma harmless_relay state address ports b :
  harmless b (set_spec (set_desired state (set_relay (Some address) ports (tb_Spec b))) b).
Proof. repeat split. right. by eexists. Qed.

Lemma harmless_session sessionID generation b : harmless b (set_spec (set_session sessionID generation (tb_Spec b)) b).
Proof. repeat split. by left. Qed.

Lemma harmless_refl b : harmless b b.
Proof. repeat split. by left. Qed.

Lemma harmless_relay_owner owner heartbeat failure b :
  harmless_status b (set_status (set_relay_owner owner heartbeat failure (tb_Status b)) b).
Proof. done. Qed.

#[local] Hint Resolve harmless_labels harmless_desired harmless_relay harmless_session harmless_refl harmless_relay_owner : rightful.

(** The workload that an activation keeps. *)
Lemma same_workload_target left right : sameBindingWorkload left right = true ->
  ts_Mode right = ts_Mode left /\ ts_Target right = ts_Target left.
Proof.
  unfold sameBindingWorkload. rewrite !andb_true_iff, !bool_decide_eq_true. intros H. destruct_and! H. done.
Qed.

Lemma rightful_GetSession namespace taskID : rightful (GetSession manager namespace taskID).
Proof. unfold GetSession. rightful. Qed.
Lemma rightful_FindSession taskID : rightful (FindSession manager taskID).
Proof. unfold FindSession. rightful. Qed.
#[local] Hint Resolve rightful_GetSession rightful_FindSession : rightful.

Lemma rightful_ClaimRelay now b relayID : rightful (ClaimRelay now b relayID).
Proof. unfold ClaimRelay, patch_status. rightful. Qed.
Lemma rightful_AttachRelay b relayID address assigned : rightful (AttachRelay b relayID address assigned).
Proof. unfold AttachRelay, returning. rightful. Qed.
Lemma rightful_RelayHeartbeat now b relayID : rightful (RelayHeartbeat now b relayID).
Proof. unfold RelayHeartbeat, returning. rightful. Qed.
Lemma rightful_FinishRelay b relayID reason : rightful (FinishRelay b relayID reason).
Proof. unfold FinishRelay, patch_status, patch. rightful. Qed.

Lemma rightful_requestPause namespace taskID : rightful (requestPause manager namespace taskID).
Proof. unfold requestPause, patch. rightful. Qed.
#[local] Hint Resolve rightful_requestPause : rightful.

Lemma rightful_RequestPause namespace taskID : rightful (RequestPause manager namespace taskID).
Proof. unfold RequestPause. apply rightful_unless_missing. rightful. Qed.
Lemma rightful_Pause ticks namespace taskID : rightful (Pause manager ticks namespace taskID).
Proof.
  unfold Pause. apply rightful_bind; [apply rightful_unless_missing; rightful|]. intros [key|]; [|rightful].
  apply rightful_poll. unfold pause_seen, returning. rightful.
Qed.
Lemma rightful_Delete ticks namespace taskID : rightful (Delete manager ticks namespace taskID).
Proof. unfold Delete, deletion_seen. rightful; apply rightful_poll; rightful. Qed.

(** A binding that may be created. *)
Definition creatable (b : TrafficBinding) (c : Cluster) : Prop :=
  guarded c \/ forall name, NameForTask (ts_TaskID (tb_Spec b)) = inr name -> (TrimSpace (om_Namespace (tb_Meta b)), name) <> bk.

(** Operations that begin with a creation. *)
Definition rightful_at {E A} (w : W) (m : M W E A) : Prop := forall r w', m w = (r, w') -> respects (kc_cluster w) (kc_cluster w').

Lemma rightful_at_bind {E A B} w (m : M W E A) (f : A -> M W E B) : rightful_at w m -> (forall a, rightful (f a)) -> rightful_at w (m ≫= f).
Proof.
  intros Hm Hf r w' Hr. unfold mbind, M_bind in Hr. destruct (m w) as [[e|a] w1] eqn:Em.
  - injection Hr as <- <-. by apply (Hm _ _ Em).
  - transitivity (kc_cluster w1); [by apply (Hm _ _ Em)|by apply (Hf a _ _ _ Hr)].
Qed.
Lemma rightful_at_create {E} w b : object_key b <> bk \/ guarded (kc_cluster w) -> rightful_at w (tried (kc_Create b) : M W E _).
Proof.
  intros Hwhere r w' Hr. unfold tried in Hr. destruct (kc_Create b w) as [x w1] eqn:Ec. injection Hr as <- <-.
  by apply (create_call_respects b w x).
Qed.
Lemma rightful_at_every {E A} w (m : M W E A) : rightful m -> rightful_at w m.
Proof. intros Hm r w' Hr. by apply (Hm w r). Qed.

Lemma rightful_EnsureSession w b : creatable b (kc_cluster w) -> rightful_at w (EnsureSession manager b).
Proof.
  intros Hc. unfold EnsureSession, patch. case_bool_decide; [apply rightful_at_every, rightful_fails|].
  destruct (NameForTask _) as [e|name] eqn:En; [by intros r w' [= <- <-]|].
  refine (rightful_at_bind w (tried (kc_Create _)) _ _ _).
  - apply rightful_at_create. destruct Hc as [?|Hne]; [by right|left]. specialize (Hne name En).
    by destruct (bool_decide (ts_DesiredState _ = "")).
  - rightful.
Qed.

(** An activation has a relay to give. *)
Lemma harmless_activation before spec l :
  sameBindingWorkload (tb_Spec before) spec = true -> is_Some (ts_Relay spec) -> harmless before (with_labels l (set_spec spec before)).
Proof. intros [Hm Ht]%same_workload_target Hr. apply harmless_labels. repeat split; [done|done|by right]. Qed.

Lemma rightful_record_activation w b :
  object_key b <> bk \/ guarded (kc_cluster w) -> is_Some (ts_Relay (tb_Spec b)) -> rightful_at w (record_activation manager b).
Proof.
  intros Hwhere Hrel. unfold record_activation. apply rightful_at_bind; [by apply rightful_at_create|]. intros [e|x]; [|rightful].
  destruct (negb _); [rightful|]. apply rightful_bind; [rightful|]. intros existing.
  destruct (sameBindingWorkload _ _) eqn:Hsame; cbn [negb orb]; [|apply rightful_fails]. destruct (_ || _); [rightful|]. destruct (_ || _); [|rightful].
  apply rightful_bind; [|rightful]. by apply rightful_wrapping, rightful_patch, harmless_activation.
Qed.

Lemma rightful_Activate w ticks b :
  creatable b (kc_cluster w) -> is_Some (ts_Relay (tb_Spec b)) -> rightful_at w (Activate manager ticks b).
Proof.
  intros Hc Hrel. unfold Activate. case_bool_decide; [apply rightful_at_every, rightful_fails|].
  destruct (NameForTask _) as [e|name] eqn:En; [by intros r w' [= <- <-]|].
  refine (rightful_at_bind w (record_activation manager _) _ _ _).
  - apply rightful_record_activation; [|done]. destruct Hc as [?|Hne]; [by right|left]. by apply (Hne name).
  - intros _. apply rightful_failing_as, rightful_poll. unfold ready_seen. rightful.
Qed.

(** Taking the relay away: of another binding, or of one that intercepts nothing. *)
Definition at_rest (k : NamespacedName) (c : Cluster) : Prop :=
  k <> bk \/ forall b, trafficbindings c !! bk = Some b -> ~ active_phase (st_Phase (tb_Status b)).

Lemma at_rest_kept k c c' : respects c c' -> at_rest k c -> at_rest k c'.
Proof.
  intros (Hb & _) [Hne|Hrest]; [by left|right]. intros b' Hk'. destruct (Hb b' Hk') as (b & Hk & _ & Hphase & _).
  rewrite Hphase. by apply Hrest.
Qed.

(** A patch within the rights, but for the relay. *)
Definition harmless_but_relay (before after : TrafficBinding) : Prop :=
  ts_Mode (tb_Spec after) = ts_Mode (tb_Spec before) /\ ts_Target (tb_Spec after) = ts_Target (tb_Spec before) /\
  om_Finalizers (tb_Meta after) = om_Finalizers (tb_Meta before).

Lemma merge_at_rest_kept before after current : harmless_but_relay before after ->
  ~ active_phase (st_Phase (tb_Status current)) -> kept current (merge_binding before after current).
Proof.
  intros (Hm & Ht & Hf) Hrest. unfold kept_binding, merge_binding.
  split; [|split; [done|split; [done|split; [|done]]]].
  - intros (Hid & Hu & Hmode & Htarget). unfold identified. cbn [tb_Spec tb_Meta merge_spec ts_Mode ts_Target].
    rewrite (merge_field_eq _ _ _ Hm), (merge_field_eq _ _ _ Ht). done.
  - unfold ContainsFinalizer. cbn. by rewrite (merge_field_eq _ _ _ Hf).
Qed.

Lemma put_elsewhere_respects k b c : k <> bk -> respects c (put k b c).
Proof.
  intros Hne. split; [|split].
  - intros x Hx. exists x. split; [|apply object_kept_refl]. unfold put in Hx. cbn in Hx.
    destruct (gone _); [by rewrite lookup_delete_ne in Hx|by rewrite lookup_insert_ne in Hx].
  - intros x Hx _. unfold put. cbn. destruct (gone _); [by rewrite lookup_delete_ne|by rewrite lookup_insert_ne].
  - intros s Hs. unfold put in Hs. cbn in Hs. split; [by right|]. intros Hu. by exists s.
Qed.

Lemma patch_at_rest w before after r w' :
  harmless_but_relay before after -> at_rest (object_key after) (kc_cluster w) ->
  kc_Patch before after w = (r, w') -> respects (kc_cluster w) (kc_cluster w').
Proof.
  intros Hh Hrest Hr. destruct (law_Patch _ _ before after _ _ _ Hr) as (c & Ho & Hcase). apply others_respect in Ho.
  transitivity c; [done|]. apply (at_rest_kept _ _ c Ho) in Hrest.
  assert (He : forall a c', patched before after c a c' -> respects c c').
  { intros a c' (current & Hk & -> & ->). destruct (decide (object_key after = bk)) as [Heq|Hne]; [|by apply put_elsewhere_respects].
    destruct Hrest as [Hne|Hrest]; [done|]. apply (put_binding_respects _ current); [done|]. apply merge_at_rest_kept; [done|].
    rewrite Heq in Hk. by apply Hrest. }
  destruct r as [e|a]; [destruct Hcase as [->|[a Ha]]|]; [done|by apply (He a)|by apply (He a)].
Qed.

Lemma rightful_ResetRelay w b : at_rest (object_key b) (kc_cluster w) -> rightful_at w (ResetRelay b).
Proof.
  intros Hrest r w' Hr. unfold ResetRelay, patch_status, patch, wrapping, mbind, M_bind in Hr.
  destruct (kc_StatusPatch _ _ w) as [[e|stored] w1] eqn:Es.
  - injection Hr as <- <-. exact (rightful_status_patch _ _ (harmless_relay_owner _ _ _ _) _ _ _ Es).
  - pose proof (rightful_status_patch _ _ (harmless_relay_owner _ _ _ _) _ _ _ Es) as H1.
    assert (Hkey : object_key stored = object_key b).
    { destruct (law_StatusPatch _ _ _ _ _ Es) as (c & _ & current & _ & Hk & -> & _). exact Hk. }
    destruct (kc_Patch _ _ w1) as [x w2] eqn:Ep. injection Hr as <- <-. transitivity (kc_cluster w1); [done|].
    refine (patch_at_rest w1 _ _ _ _ _ _ Ep); [done|]. change (object_key (set_spec _ stored)) with (object_key stored). rewrite Hkey.
    by apply (at_rest_kept _ (kc_cluster w)).
Qed.

Lemma rightful_label_bindings identityID items : rightful (label_bindings identityID items).
Proof. induction items; cbn; unfold patch; rightful. Qed.
Lemma rightful_adopt_bindings identityID sessionID generation items : rightful (adopt_bindings identityID sessionID generation items).
Proof. induction items; cbn; unfold patch; rightful. Qed.
#[local] Hint Resolve rightful_label_bindings rightful_adopt_bindings : rightful.

Lemma rightful_Synchronize identityID sessionID namespace generation : rightful (Synchronize manager identityID sessionID namespace generation).
Proof. unfold Synchronize. rightful. Qed.
Lemma rightful_SessionSynchronizer_Delete ticks namespace userID taskID :
  rightful (SessionSynchronizer_Delete manager ticks namespace userID taskID).
Proof. unfold SessionSynchronizer_Delete. apply rightful_bind; [rightful|]. intros b. destruct (_ || _); [rightful|apply rightful_Delete]. Qed.

(** ** The requests of the control plane *)

Inductive request :=
| EnsureTask (b : TrafficBinding)
| ActivateTask (ticks : nat) (b : TrafficBinding)
| ClaimTask (now : time) (b : TrafficBinding) (relayID : string)
| AttachTask (b : TrafficBinding) (relayID address : string) (assigned : gmap string Z)
| HeartbeatTask (now : time) (b : TrafficBinding) (relayID : string)
| FinishTask (b : TrafficBinding) (relayID reason : string)
| RequestPauseTask (namespace taskID : string)
| PauseTask (ticks : nat) (namespace taskID : string)
| ResetTask (b : TrafficBinding)
| DeleteTask (ticks : nat) (namespace taskID : string)
| DeleteOwnTask (ticks : nat) (namespace userID taskID : string)
| SynchronizeTasks (identityID sessionID namespace : string) (generation : Z).

Definition perform (r : request) (w : W) : W :=
  match r with
  | EnsureTask b => (EnsureSession manager b w).2
  | ActivateTask ticks b => (Activate manager ticks b w).2
  | ClaimTask now b relayID => (ClaimRelay now b relayID w).2
  | AttachTask b relayID address assigned => (AttachRelay b relayID address assigned w).2
  | HeartbeatTask now b relayID => (RelayHeartbeat now b relayID w).2
  | FinishTask b relayID reason => (FinishRelay b relayID reason w).2
  | RequestPauseTask namespace taskID => (RequestPause manager namespace taskID w).2
  | PauseTask ticks namespace taskID => (Pause manager ticks namespace taskID w).2
  | ResetTask b => (ResetRelay b w).2
  | DeleteTask ticks namespace taskID => (Delete manager ticks namespace taskID w).2
  | DeleteOwnTask ticks namespace userID taskID => (SessionSynchronizer_Delete manager ticks namespace userID taskID w).2
  | SynchronizeTasks identityID sessionID namespace generation => (Synchronize manager identityID sessionID namespace generation w).2
  end.

(** A binding that is created is another one or is there already, one that is
    activated has a relay, and a relay is taken away once the pause is complete. *)
Definition permitted (r : request) (c : Cluster) : Prop :=
  match r with
  | EnsureTask b => creatable b c
  | ActivateTask _ b => creatable b c /\ is_Some (ts_Relay (tb_Spec b))
  | ResetTask b => at_rest (object_key b) c
  | _ => True
  end.

Lemma request_respects r w :
  permitted r (kc_cluster w) -> respects (kc_cluster w) (kc_cluster (perform r w)).
Proof.
  destruct r; cbn [permitted perform]; intros Hp;
    match goal with |- respects _ (kc_cluster (?m w).2) => destruct (m w) as [x w'] eqn:Hx; cbn [snd] end.
  - exact (rightful_EnsureSession w b Hp x w' Hx).
  - exact (rightful_Activate w ticks b (proj1 Hp) (proj2 Hp) x w' Hx).
  - exact (rightful_ClaimRelay now b relayID w x w' Hx).
  - exact (rightful_AttachRelay b relayID address assigned w x w' Hx).
  - exact (rightful_RelayHeartbeat now b relayID w x w' Hx).
  - exact (rightful_FinishRelay b relayID reason w x w' Hx).
  - exact (rightful_RequestPause namespace taskID w x w' Hx).
  - exact (rightful_Pause ticks namespace taskID w x w' Hx).
  - exact (rightful_ResetRelay w b Hp x w' Hx).
  - exact (rightful_Delete ticks namespace taskID w x w' Hx).
  - exact (rightful_SessionSynchronizer_Delete ticks namespace userID taskID w x w' Hx).
  - exact (rightful_Synchronize identityID sessionID namespace generation w x w' Hx).
Qed.

(** C22 (refinement). The control plane keeps the promises the operator's safety
    rests on: creating, claiming, attaching, finishing, pausing, resuming,
    activating, deleting and adopting bindings, with calls that fail, others at work
    in between and reads that may give anything, never changes the workload of a
    binding, its finalizer, its phase, its snapshot or the Service, nor takes a
    relay from an active binding.  This is so of a creation when the binding is
    another one or is there and kept by its finalizer, of an activation when the
    binding also has a relay, and of a resumption when the phase of the binding
    shows that its pause is complete, which the handler does not check: see the
    findings. *)
Theorem control_plane_respects_bindings r w :
  permitted r (kc_cluster w) -> respects (kc_cluster w) (kc_cluster (perform r w)).
Proof. apply request_respects. Qed.
End rights.

(** ** The operator and the control plane together *)

Section system.
Context {W : Type} `{KC : KubeClient W} `{KM : MetaPackage} `{KO : OwnerPackage} `{KH : HashPackage} `{KN : NameValidation}
  `{KI : NetipPackage} `{KU : UnicodePackage} `{KD : UuidPackage} `{KS : Sha1Uuids} `{KP : UpperPackage} `{KV : LabelValidation}.

(** A step of the operator on the binding, a request the control plane carries out,
    or something others do. *)
Inductive system_step (bk : NamespacedName) (manager : Manager) (others : Cluster -> Cluster -> Prop) : W -> W -> Prop :=
| operator_step s r s' : Reconcile bk s = (r, s') -> system_step bk manager others (lc_world s) (lc_world s')
| request_step r w : permitted bk r (kc_cluster w) -> system_step bk manager others w (perform manager r w)
| others_step w w' : others (kc_cluster w) (kc_cluster w') -> system_step bk manager others w w'.

Lemma system_reversible bk buid sname suid selector manager others
    `{!KubeWrites others, !CurrentReads TrafficBinding others, !CurrentReads Service others} w w' :
  buid <> "" -> (forall c c', others c c' -> respectful bk buid sname suid c c') ->
  rtc (system_step bk manager others) w w' ->
  reversible bk buid sname suid selector (kc_cluster w) -> reversible bk buid sname suid selector (kc_cluster w').
Proof.
  intros Hne Ho Hr. induction Hr as [|w1 w2 w3 Hstep _ IH]; [done|]. intros Hi. apply IH.
  destruct Hstep as [s r s' Hs|r w1 Hp|w1 w2 Hs].
  - by eapply reconcile_reversible.
  - eapply reversible_kept; [done|]. by eapply request_respects.
  - eapply reversible_kept; [done|by apply Ho].
Qed.

(** C1 (safety). The operator and the control plane never lose a Service, while the
    cache the operator reads bindings and Services from has caught up with the
    server.  Whatever the requests among those that are permitted (a binding is
    resumed only when its phase shows that its pause is complete, is created only
    when it is another one or is there already, and is activated with a relay), in
    whatever order they meet the reconciliations, whatever calls fail, carried out
    or not, whatever is read of other objects, and whatever others do within their
    rights: the Service has its own selector and no mark of the operator, or it is
    intercepted and its binding is there, kept by its finalizer, with a snapshot of
    that very Service that holds the selector.  Without the condition on
    resumptions, or with a cache that lags, the Service is lost: see
    [early_resume_loses_service] and [stale_read_loses_service]. *)
Theorem service_never_lost bk buid sname suid selector manager (others : Cluster -> Cluster -> Prop)
    `{KW : !KubeWrites others} `{Hbindings : !CurrentReads TrafficBinding others} `{Hservices : !CurrentReads Service others} w w' s :
  buid <> "" -> (forall c c', others c c' -> respectful bk buid sname suid c c') ->
  fresh bk buid sname suid selector (kc_cluster w) -> rtc (system_step bk manager others) w w' ->
  services (kc_cluster w') !! sk bk sname = Some s -> om_UID (svc_Meta s) = suid ->
  (owner_of (svc_Meta s) = "" /\ entries (svc_Selector s) = selector) \/
  (owner_of (svc_Meta s) = buid /\ entries (svc_Selector s) = ∅ /\
   exists b snap, trafficbindings (kc_cluster w') !! bk = Some b /\ om_UID (tb_Meta b) = buid /\ ContainsFinalizer b = true /\
     st_Snapshot (tb_Status b) = Some snap /\ ss_ServiceUID snap = suid /\ entries (ss_Selector snap) = selector).
Proof.
  intros Hne Ho Hf Hr Hs Hu. eapply reversible_service; [|exact Hs|exact Hu].
  by apply (system_reversible _ _ _ _ _ manager others w w' Hne Ho Hr), fresh_reversible.
Qed.

(** C19 (safety). In the same runs, with current reads of bindings and Services and
    resumptions only after complete pauses: a binding that reports that it is paused
    or restored, and a binding that waits for a relay, leaves no Service
    intercepted; and once the binding has gone, the Service is as it was. *)
Theorem settled_binding_left_nothing bk buid sname suid selector manager (others : Cluster -> Cluster -> Prop)
    `{KW : !KubeWrites others} `{Hbindings : !CurrentReads TrafficBinding others} `{Hservices : !CurrentReads Service others} w w' s :
  buid <> "" -> (forall c c', others c c' -> respectful bk buid sname suid c c') ->
  fresh bk buid sname suid selector (kc_cluster w) -> rtc (system_step bk manager others) w w' ->
  services (kc_cluster w') !! sk bk sname = Some s -> om_UID (svc_Meta s) = suid ->
  (forall b, trafficbindings (kc_cluster w') !! bk = Some b ->
     st_Phase (tb_Status b) ∈ [PhasePending; ""; PhasePaused; PhaseRestored] \/ ts_Relay (tb_Spec b) = None) ->
  owner_of (svc_Meta s) = "" /\ entries (svc_Selector s) = selector.
Proof.
  intros Hne Ho Hf Hr Hs Hu. apply (reversible_settled bk buid sname suid); [|done|done].
  by apply (system_reversible _ _ _ _ _ manager others w w' Hne Ho Hr), fresh_reversible.
Qed.
End system.
