(* ===== verification/TrafficBindingRuns.v ===== *)
(** * A small API server

    Objects in memory, a list of failures for the calls to come, and nobody else.
    It satisfies the laws of the client, and makes the operator run. *)

From S2P Require Import Prelude GoLib External ConcreteEnv Netip ConcreteNetip IdentityStore.
From S2P Require Import TrafficBinding KubeClient TrafficBindingStatus TrafficBindingReconciler.
From S2P Require Import GoText KubeLogic TrafficBindingFacts TrafficControl ServiceBackends TrafficBindingClient.

(** A call succeeds, fails, or fails after it was carried out. *)
Inductive fault := Works | Refused | Lost.

Record Server := mkServer { sv_cluster : Cluster; sv_faults : list fault }.

Definition server_error : kube_error := ApiError "internal error".

Definition next_fault (w : Server) : fault := match sv_faults w with f :: _ => f | [] => Works end.

Definition serve {R} (handle : Cluster -> kube_error + (R * Cluster)) (w : Server) : (kube_error + R) * Server :=
  let faults := tl (sv_faults w) in
  match next_fault w, handle (sv_cluster w) with
  | Refused, _ => (inl server_error, mkServer (sv_cluster w) faults)
  | _, inl e => (inl e, mkServer (sv_cluster w) faults)
  | Works, inr (a, c) => (inr a, mkServer c faults)
  | Lost, inr (_, c) => (inl server_error, mkServer c faults)
  end.

Section handlers.
Context {A : Type} `{Resource A}.

Definition handle_Get (k : NamespacedName) (c : Cluster) : kube_error + (A * Cluster) :=
  match r_table c !! k with Some a => inr (a, c) | None => inl (NotFound (k.2 +:+ " not found")) end.

Definition listed (namespace : option string) (labels : list (string * string)) (kv : NamespacedName * A) : Prop :=
  kv.1 = object_key kv.2 /\ selected namespace labels kv.2.
#[export] Instance listed_dec namespace labels kv : Decision (listed namespace labels kv).
Proof. unfold listed. apply _. Defined.
Definition handle_List (namespace : option string) (labels : list (string * string)) (c : Cluster) : kube_error + (list A * Cluster) :=
  inr ((filter (listed namespace labels) (map_to_list (r_table c))).*2, c).

Definition with_uid (uid : string) (generation : Z) (a : A) : A :=
  let m := r_meta a in
  r_set_meta (mkObjectMeta (om_Namespace m) (om_Name m) uid generation (om_Labels m) (om_Annotations m)
    (om_OwnerReferences m) (om_Finalizers m) false) a.
Definition handle_Create (a : A) (c : Cluster) : kube_error + (A * Cluster) :=
  match r_table c !! object_key a with
  | Some _ => inl (AlreadyExists "already exists")
  | None => let a' := with_uid ("uid-of-" +:+ (object_key a).2) 1 (r_new a) in inr (a', put (object_key a) a' c)
  end.
Definition handle_Update (a : A) (c : Cluster) : kube_error + (A * Cluster) :=
  match r_table c !! object_key a with
  | None => inl (NotFound "not found")
  | Some current => let a' := with_uid (om_UID (r_meta current)) (om_Generation (r_meta current)) a in inr (a', put (object_key a) a' c)
  end.
Definition handle_Patch (before after : A) (c : Cluster) : kube_error + (A * Cluster) :=
  match r_table c !! object_key after with
  | None => inl (NotFound "not found")
  | Some current => let a := r_merge before after current in inr (a, put (object_key after) a c)
  end.
Definition handle_Delete (a : A) (c : Cluster) : kube_error + (unit * Cluster) :=
  match r_table c !! object_key a with
  | None => inl (NotFound "not found")
  | Some current => inr (tt, put (object_key a) (r_set_meta (marked_deleting (r_meta current)) current) c)
  end.
End handlers.

Definition handle_StatusPatch (before after : TrafficBinding) (c : Cluster) : kube_error + (TrafficBinding * Cluster) :=
  match trafficbindings c !! object_key after with
  | None => inl (NotFound "not found")
  | Some current =>
      if negb (bool_decide (object_key current = object_key after)) then inl (NotFound "not found")
      else
      let b := set_status (merge_status (tb_Status before) (tb_Status after) (tb_Status current)) current in
      inr (b, put (object_key after) b c)
  end.

#[export] Instance sample_server : KubeClient Server := {|
  kc_cluster := sv_cluster;
  kc_Get := fun A _ k => serve (handle_Get k);
  kc_List := fun A _ namespace labels => serve (handle_List namespace labels);
  kc_Create := fun A _ a => serve (handle_Create a);
  kc_Update := fun A _ a => serve (handle_Update a);
  kc_Patch := fun A _ before after => serve (handle_Patch before after);
  kc_StatusPatch := fun before after => serve (handle_StatusPatch before after);
  kc_Delete := fun A _ a => serve (handle_Delete a)
|}.

(** Nothing happens between the calls, which every account of the others allows. *)
Section laws.
Context (others : Cluster -> Cluster -> Prop).
Hypothesis others_wait : forall c, others c c.

Lemma serve_writes {R} (handle : Cluster -> kube_error + (R * Cluster)) effect :
  (forall c a c', handle c = inr (a, c') -> effect c a c') -> writes others (serve handle) effect.
Proof.
  intros He w r w' Hr. exists (sv_cluster w). split; [apply others_wait|]. unfold serve in Hr.
  destruct (next_fault w), (handle (sv_cluster w)) as [e|[a c]] eqn:Eh; injection Hr as <- <-; cbn; eauto.
Qed.

Lemma serve_reads {R} (handle : Cluster -> kube_error + (R * Cluster)) (gives : kube_error + R -> Cluster -> Prop) :
  (forall c, match handle c with inl e => gives (inl e) c | inr (a, c') => c' = c /\ gives (inr a) c end) ->
  (forall c, gives (inl server_error) c) -> reads others (serve handle) gives.
Proof.
  intros Hh He w r w' Hr. specialize (Hh (sv_cluster w)). unfold serve in Hr.
  destruct (next_fault w), (handle (sv_cluster w)) as [e|[a c]] eqn:Eh; try destruct Hh as [-> Hh]; injection Hr as <- <-;
    (split; [apply others_wait|]); cbn; auto.
Qed.

Lemma listed_keys {A} `{Resource A} namespace labels (c : Cluster) :
  map object_key (filter (listed (A := A) namespace labels) (map_to_list (r_table c))).*2 =
  (filter (listed (A := A) namespace labels) (map_to_list (r_table c))).*1.
Proof.
  rewrite <- list_fmap_compose. apply list_fmap_ext. intros i kv Hi. apply list_elem_of_lookup_2, list_elem_of_filter in Hi as [[Hk _] _].
  by cbn.
Qed.

Lemma sample_Get A (R : Resource A) k : reads others (kc_Get (W := Server) (A := A) k) (found_as k).
Proof. apply serve_reads; [|done]. intros c. unfold handle_Get. destruct (r_table c !! k) eqn:Ek; by cbn. Qed.

Lemma sample_List A (R : Resource A) ns labels : reads others (kc_List (W := Server) (A := A) ns labels) (listed_as ns labels).
Proof.
  apply serve_reads; [|done]. intros c. cbn. split; [done|]. split.
  - rewrite listed_keys. eapply sublist_NoDup; [exact (NoDup_fst_map_to_list (r_table c))|]. apply fmap_sublist, sublist_filter.
  - intros a. rewrite list_elem_of_fmap. split.
    + intros (kv & -> & Hkv). apply list_elem_of_filter in Hkv as [[H1 H2] Hkv]. apply elem_of_map_to_list' in Hkv. eauto.
    + intros (k & Hk & H1 & H2). exists (k, a). split; [done|]. apply list_elem_of_filter. split; [done|].
      by apply elem_of_map_to_list.
Qed.

Lemma reads_quiet {W R} `{KubeClient W} (call : W -> (kube_error + R) * W) gives : reads others call gives -> reads others call (fun _ _ => True).
Proof. intros Hc w r w' Hr. destruct (Hc _ _ _ Hr) as [Ho _]. done. Qed.

Lemma sample_writes : KubeWrites (W := Server) others.
Proof.
  split.
  - intros A R k. eapply reads_quiet, sample_Get.
  - intros A R ns labels. eapply reads_quiet, sample_List.
  - intros s. apply serve_writes. intros c a c'. unfold handle_Create. destruct (r_table c !! object_key s) eqn:Ek; [done|]. intros [= <- <-]. done.
  - intros s. apply serve_writes. intros c a c'. unfold handle_Create. destruct (r_table c !! object_key s) eqn:Ek; [done|]. intros [= <- <-]. done.
  - intros s. apply serve_writes. intros c a c'. unfold handle_Create. destruct (r_table c !! object_key s) eqn:Ek; [done|]. intros [= <- <-].
    split; [done|]. split; [|done]. cbn. split; [done|]. split; [done|]. split; [done|]. by apply Forall_Forall2_diag, Forall_true.
  - intros b. apply serve_writes. intros c a c'. unfold handle_Create. destruct (r_table c !! object_key b) eqn:Ek; [done|]. intros [= <- <-]. done.
  - intros s. apply serve_writes. intros c a c'. unfold handle_Update. destruct (r_table c !! object_key s) as [x|] eqn:Ek; [|done]. intros [= <- <-]. by exists x.
  - intros s. apply serve_writes. intros c a c'. unfold handle_Update. destruct (r_table c !! object_key s) as [x|] eqn:Ek; [|done]. intros [= <- <-]. by exists x.
  - intros A R before after. apply serve_writes. intros c a c'. unfold handle_Patch. destruct (r_table c !! object_key after) as [x|] eqn:Ek; [|done]. intros [= <- <-]. by exists x.
  - intros before after. apply serve_writes. intros c a c'. unfold handle_StatusPatch. destruct (trafficbindings c !! object_key after) as [x|] eqn:Ek; [|done].
    case_bool_decide as Hkey; cbn [negb]; [|done]. intros [= <- <-]. by exists x.
  - intros A R a. apply serve_writes. intros c u c'. unfold handle_Delete. destruct (r_table c !! object_key a) as [x|] eqn:Ek; [|done]. intros [= <- <-]. by exists x.
Qed.

Lemma sample_reads A (R : Resource A) : CurrentReads (W := Server) A others.
Proof. split; [exact (sample_Get A R)|exact (sample_List A R)]. Qed.

Lemma sample_laws : KubeLaws (W := Server) others.
Proof. split; [exact sample_writes|exact sample_reads]. Qed.
End laws.

(** * The operator at work

    A Service that is exchanged, with calls that fail, and restored; and what
    happens to it when the relay of an active binding is taken away. *)


(** ** What the environment provides *)

(** A condition of the same type is replaced. *)
#[export] Instance sample_meta : MetaPackage := {|
  SetStatusCondition := fun c l =>
    if bool_decide (Exists (fun d => cd_Type d = cd_Type c) l)
    then map (fun d => if bool_decide (cd_Type d = cd_Type c) then c else d) l else l ++ [c];
  FindStatusCondition := fun l t => List.find (fun d => bool_decide (cd_Type d = t)) l |}.
#[export] Instance sample_owner : OwnerPackage := {|
  SetControllerReference := fun b m =>
    inr (set_owner_references [mkOwnerReference "TrafficBinding" (om_Name (tb_Meta b)) (om_UID (tb_Meta b)) true true] m);
  SetOwnerReference := fun owner m =>
    inr (set_owner_references (om_OwnerReferences m ++ [mkOwnerReference "Service" (om_Name owner) (om_UID owner) false false]) m);
  IsControlledBy := fun m b => bool_decide (Exists (fun r => or_Controller r = true /\ or_UID r = om_UID (tb_Meta b)) (om_OwnerReferences m)) |}.
#[export] Instance sample_names : NameValidation := {|
  IsDNS1123Label := fun s => if bool_decide (s = "") then ["empty"] else [];
  IsDNS1123Subdomain := fun s => if bool_decide (s = "") then ["empty"] else [] |}.
#[export] Instance sample_lower : UnicodePackage := {| strings_ToLower := ToLower |}.
#[export] Instance sample_upper : UpperPackage := {|
  strings_ToUpper := fun s => if bool_decide (s = "tcp") then "TCP" else if bool_decide (s = "udp") then "UDP" else s |}.
#[export] Instance sample_sha1 : Sha1Uuids := {| uuid_NewSHA1 := fun _ l => bytes_to_string (take 36 l) |}.
#[export] Instance sample_label_values : LabelValidation := {| IsValidLabelValue := fun _ => [] |}.

(** ** The objects *)

Definition web_selector : StringMap := {["app" := "web"]}.
Definition web : Service :=
  mkService (mkObjectMeta "shop" "web" "uid-web" 1 None None [] [] false) "ClusterIP" "10.96.0.7" (Some web_selector)
    [mkServicePort "http" "TCP" 80 (FromInt32 8080) ""] "".
Definition web_slice : EndpointSlice :=
  mkEndpointSlice (mkObjectMeta "shop" "web-abc" "uid-slice" 1 (Some {[serviceNameLabel := "web"]}) None [] [] false) "IPv4"
    [mkEndpoint ["10.0.0.3"] (Some true) None ""] [mkEndpointPort (Some "http") (Some "TCP") (Some 8080) ""].

Definition task_id : string := "7f9619ff-8b86-4d11-b42d-00c04fc964ff".
Definition exchange_spec : TrafficBindingSpec :=
  mkTrafficBindingSpec DesiredStateActive ModeExchange "dev" "6f9619ff-8b86-4d11-b42d-00c04fc964ff" task_id 1 "" ""
    (Some (mkTrafficTarget TargetKindService "web")) (Some "10.1.2.3") None
    [mkTrafficPort "http" 80 (Some 40001) "127.0.0.1" (Some 3000) "TCP"].
Definition exchange_name : string := bindingNamePrefix +:+ task_id.
Definition sample_manager : Manager := mkManager defaultPoll "kubeloop".
Definition exchange : TrafficBinding :=
  setLabels sample_manager
    (mkTrafficBinding (mkObjectMeta "shop" exchange_name "uid-binding" 1 None None [] [] false) exchange_spec
       (set_relay_owner "relay-a" None "" no_status)).

Definition exchange_key : NamespacedName := ("shop", exchange_name).
Definition shop : Cluster :=
  mkCluster ∅ {[("shop", "web") := web]} {[("shop", "web-abc") := web_slice]} ∅ {[exchange_key := exchange]}.

(** ** Running *)

Definition stored_exchange (w : Server) : TrafficBinding := default exchange (trafficbindings (sv_cluster w) !! exchange_key).

Definition reconcile_once (w : Server) : Server := lc_world (Reconcile exchange_key (mkRState exchange [] w)).2.
Definition reconcile (n : nat) (w : Server) : Server := Nat.iter n reconcile_once w.
Definition request_of (r : request) (w : Server) : Server := perform sample_manager r w.

(** The next calls fail as listed. *)
Definition with_faults (faults : list fault) (w : Server) : Server := mkServer (sv_cluster w) faults.

Definition phase_of (w : Server) : string := st_Phase (tb_Status (stored_exchange w)).
Definition shop_server : Server := mkServer shop [].

Definition relay_finishes (w : Server) : Server := request_of (FinishTask (stored_exchange w) "relay-a" "") w.
Definition user_resumes (w : Server) : Server := request_of (ResetTask (stored_exchange w)) w.
Definition user_pauses (w : Server) : Server := request_of (RequestPauseTask "shop" task_id) w.
Definition user_deletes (w : Server) : Server := request_of (DeleteTask 0 "shop" task_id) w.

(** The Service as it is stored. *)
Definition web_of (w : Server) : Service := default web (services (sv_cluster w) !! ("shop", "web")).
Definition binding_gone (w : Server) : bool := bool_decide (trafficbindings (sv_cluster w) !! exchange_key = None).
Definition intercepts (w : Server) : bool :=
  bool_decide (owner_of (svc_Meta (web_of w)) = "uid-binding") && bool_decide (entries (svc_Selector (web_of w)) = ∅).

(** ** A pause in spite of failures *)

Definition unreliable : Server := mkServer shop [Works; Works; Lost; Works; Works; Refused].
Definition exchanged : Server := reconcile 8 unreliable.
Definition paused : Server := reconcile 3 (relay_finishes exchanged).

(** The user resumes the paused exchange, and a relay takes it up again. *)
Definition resumed : Server := user_resumes paused.
Definition claimed_again : Server := request_of (ClaimTask 0 (stored_exchange resumed) "relay-b") resumed.
Definition attached_again : Server :=
  request_of (AttachTask (stored_exchange claimed_again) "relay-b" "10.1.2.4" {["TCP/80" := 40002]}) claimed_again.
Definition exchanged_again : Server := reconcile 8 attached_again.
Definition deleted_again : Server := reconcile 4 (user_deletes exchanged).

Example exchange_runs :
  (phase_of exchanged, intercepts exchanged, phase_of paused, intercepts paused, binding_gone deleted_again, intercepts deleted_again) =
  ("Ready", true, "Paused", false, true, false) /\
  (phase_of exchanged_again, intercepts exchanged_again) = ("Ready", true).
Proof. vm_compute. by split. Qed.

Lemma shop_fresh : fresh exchange_key "uid-binding" "web" "uid-web" web_selector shop.
Proof.
  split.
  - intros b Hb. assert (He : Some exchange = Some b); [rewrite <- Hb; vm_compute; reflexivity|]. injection He as <-.
    split; [|reflexivity]. split; [reflexivity|]. split; [reflexivity|]. split; [|reflexivity]. apply (bool_decide_unpack _). vm_compute. exact I.
  - intros s Hs. assert (He : Some web = Some s); [rewrite <- Hs; vm_compute; reflexivity|]. injection He as <-. split; [reflexivity|].
    intros _. split; reflexivity.
Qed.

#[local] Instance sample_server_laws : KubeLaws (W := Server) eq := sample_laws eq (fun c => eq_refl).

#[local] Abbreviation step := (system_step (W := Server) exchange_key sample_manager eq).

Lemma reconcile_steps n w : rtc step w (reconcile n w).
Proof.
  revert w. induction n as [|n IH]; intros w; [apply rtc_refl|].
  eapply rtc_r; [apply IH|]. change (reconcile (S n) w) with (reconcile_once (reconcile n w)). set (w1 := reconcile n w). unfold reconcile_once.
  destruct (Reconcile exchange_key (mkRState exchange [] w1)) as [r s'] eqn:Hr. exact (operator_step _ _ _ _ _ _ Hr).
Qed.

Lemma request_steps r w : permitted exchange_key r (sv_cluster w) -> rtc step w (request_of r w).
Proof. intros Hp. by apply rtc_once, request_step. Qed.

Lemma exchanged_steps : rtc step unreliable exchanged.
Proof. apply reconcile_steps. Qed.
Lemma paused_steps : rtc step unreliable paused.
Proof. etransitivity; [apply exchanged_steps|]. etransitivity; [|apply reconcile_steps]. by apply request_steps. Qed.

#[local] Opaque exchanged paused.

Lemma paused_at_rest : permitted exchange_key (ResetTask (stored_exchange paused)) (sv_cluster paused).
Proof.
  right. intros b Hb. assert (Hs : stored_exchange paused = b) by (unfold stored_exchange; by rewrite Hb).
  rewrite <- Hs. apply (bool_decide_unpack _). vm_compute. exact I.
Qed.

Lemma exchanged_again_steps : rtc step unreliable exchanged_again.
Proof.
  transitivity paused; [exact paused_steps|].
  transitivity resumed; [exact (request_steps _ paused paused_at_rest)|].
  transitivity claimed_again; [exact (request_steps (ClaimTask 0 (stored_exchange resumed) "relay-b") resumed I)|].
  transitivity attached_again; [|exact (reconcile_steps 8 attached_again)].
  exact (request_steps (AttachTask (stored_exchange claimed_again) "relay-b" "10.1.2.4" {["TCP/80" := 40002]}) claimed_again I).
Qed.

#[local] Opaque exchanged_again web_of.

(** After a pause and a resumption the binding of the exchange holds the selector. *)
Lemma service_never_lost_witness :
  (owner_of (svc_Meta (web_of exchanged_again)) = "" /\ entries (svc_Selector (web_of exchanged_again)) = web_selector) \/
  (owner_of (svc_Meta (web_of exchanged_again)) = "uid-binding" /\ entries (svc_Selector (web_of exchanged_again)) = ∅ /\
   exists b snap, trafficbindings (kc_cluster exchanged_again) !! exchange_key = Some b /\ om_UID (tb_Meta b) = "uid-binding" /\
     ContainsFinalizer b = true /\ st_Snapshot (tb_Status b) = Some snap /\ ss_ServiceUID snap = "uid-web" /\
     entries (ss_Selector snap) = web_selector).
Proof.
  apply (service_never_lost exchange_key "uid-binding" "web" "uid-web" web_selector sample_manager eq unreliable exchanged_again).
  - discriminate.
  - intros c c' ->. reflexivity.
  - exact shop_fresh.
  - exact exchanged_again_steps.
  - vm_compute. reflexivity.
  - vm_compute. reflexivity.
Defined.

Lemma settled_binding_left_nothing_witness :
  owner_of (svc_Meta (web_of paused)) = "" /\ entries (svc_Selector (web_of paused)) = web_selector.
Proof.
  apply (settled_binding_left_nothing exchange_key "uid-binding" "web" "uid-web" web_selector sample_manager eq unreliable paused).
  - discriminate.
  - intros c c' ->. reflexivity.
  - exact shop_fresh.
  - exact paused_steps.
  - vm_compute. reflexivity.
  - vm_compute. reflexivity.
  - intros b Hb. left. assert (Hs : stored_exchange paused = b). { unfold stored_exchange. change (trafficbindings (sv_cluster paused)) with (trafficbindings (kc_cluster paused)). by rewrite Hb. }
    rewrite <- Hs. apply (bool_decide_unpack _). vm_compute. exact I.
Defined.

Lemma control_plane_respects_bindings_witness :
  respectful exchange_key "uid-binding" "web" "uid-web" (kc_cluster paused)
    (kc_cluster (perform sample_manager (ResetTask (stored_exchange paused)) paused)).
Proof.
  apply (control_plane_respects_bindings exchange_key "uid-binding" "web" "uid-web" eq sample_manager).
  - intros c c' ->. reflexivity.
  - exact paused_at_rest.
Defined.

(** ** Resuming before the pause has happened

    The relay of an exchange finishes, which asks for a pause, and the user resumes
    before the operator acts.  The binding then waits for a relay with its Service
    still intercepted; a pause from there discards the snapshot, and the deletion of
    the paused binding restores nothing. *)

Definition resumed_early : Server := reconcile 1 (user_resumes (relay_finishes exchanged)).
Definition paused_again : Server := reconcile 1 (user_pauses resumed_early).
Definition deleted_then : Server := reconcile 4 (user_deletes paused_again).

(** Resetting the relay of a binding whose pause the operator has not
    yet carried out loses the Service: the binding waits for a relay while the
    Service is intercepted, reports that it is paused while the Service is
    intercepted and the snapshot is gone, and is deleted without restoring it. *)
Theorem early_resume_loses_service :
  (phase_of resumed_early = PhasePending /\ intercepts resumed_early = true) /\
  (phase_of paused_again = PhasePaused /\ intercepts paused_again = true /\ st_Snapshot (tb_Status (stored_exchange paused_again)) = None) /\
  (binding_gone deleted_then = true /\ intercepts deleted_then = true).
Proof. vm_compute. by repeat split. Qed.

(** ** A cache that lags

    The operator's client reads from a cache.  Here what it holds of the Services is
    behind the server; bindings and the rest are read as they are stored, and every
    write is the server's. *)

Record Cached := mkCached { ca_server : Server; ca_services : gmap NamespacedName Service }.

Definition cached_view (w : Cached) : Server :=
  let c := sv_cluster (ca_server w) in
  mkServer (mkCluster (pods c) (ca_services w) (endpointslices c) (endpoints c) (trafficbindings c)) (sv_faults (ca_server w)).

Definition reading {R} (call : Server -> R * Server) (w : Cached) : R * Cached :=
  let (r, view) := call (cached_view w) in (r, mkCached (mkServer (sv_cluster (ca_server w)) (sv_faults view)) (ca_services w)).
Definition writing {R} (call : Server -> R * Server) (w : Cached) : R * Cached :=
  let (r, s) := call (ca_server w) in (r, mkCached s (ca_services w)).

#[export] Instance cached_client : KubeClient Cached := {|
  kc_cluster := fun w => sv_cluster (ca_server w);
  kc_Get := fun A _ k => reading (kc_Get k);
  kc_List := fun A _ namespace labels => reading (kc_List namespace labels);
  kc_Create := fun A _ a => writing (kc_Create a);
  kc_Update := fun A _ a => writing (kc_Update a);
  kc_Patch := fun A _ before after => writing (kc_Patch before after);
  kc_StatusPatch := fun before after => writing (kc_StatusPatch before after);
  kc_Delete := fun A _ a => writing (kc_Delete a)
|}.

Lemma reading_quiet {R} (call : Server -> (kube_error + R) * Server) : reads (W := Cached) eq (reading call) (fun _ _ => True).
Proof. intros w r w' Hr. unfold reading in Hr. destruct (call _) as [x view]. by injection Hr as <- <-. Qed.

Lemma writing_writes {R} (call : Server -> (kube_error + R) * Server) effect :
  writes eq call effect -> writes (W := Cached) eq (writing call) effect.
Proof.
  intros Hc w r w' Hr. unfold writing in Hr. destruct (call (ca_server w)) as [x s] eqn:Ec. injection Hr as <- <-. exact (Hc _ _ _ Ec).
Qed.

Lemma cached_writes : KubeWrites (W := Cached) eq.
Proof.
  destruct (sample_writes eq (fun c => eq_refl)) as [_ _ H1 H2 H3 H4 H5 H6 H7 H8 H9].
  split; intros; first [apply reading_quiet|apply writing_writes]; auto.
Qed.

Lemma cached_bindings : CurrentReads (W := Cached) TrafficBinding eq.
Proof.
  split.
  - intros k w r w' Hr. cbn [kc_Get cached_client] in Hr. unfold reading in Hr. destruct (kc_Get k (cached_view w)) as [x view] eqn:Ec. injection Hr as <- <-.
    split; [done|]. destruct (sample_Get eq (fun c => eq_refl) _ _ _ _ _ _ Ec) as [Hv Hf].
    cbn [kc_cluster sample_server] in Hv, Hf. rewrite <- Hv in Hf. exact Hf.
  - intros ns labels w r w' Hr. cbn [kc_List cached_client] in Hr. unfold reading in Hr.
    destruct (kc_List ns labels (cached_view w)) as [x view] eqn:Ec. injection Hr as <- <-.
    split; [done|]. destruct (sample_List eq (fun c => eq_refl) _ _ _ _ _ _ _ Ec) as [Hv Hf].
    cbn [kc_cluster sample_server] in Hv, Hf. rewrite <- Hv in Hf. exact Hf.
Qed.

(** The cache still shows the Service as it was before the exchange. *)
Definition lagging : Cached := mkCached (relay_finishes exchanged) (services shop).
Definition reconcile_cached (w : Cached) : Cached := lc_world (Reconcile exchange_key (mkRState exchange [] w)).2.
Definition paused_blindly : Server := ca_server (Nat.iter 3 reconcile_cached lagging).
Definition deleted_blindly : Server := reconcile 4 (user_deletes paused_blindly).

(** With a cache that lags, a pause finds nothing to restore in the Service it reads,
    and so sends an empty merge patch: the binding reports that it is paused while
    the Service is intercepted and the snapshot is gone, and the deletion restores
    nothing.  The bindings were read as they are stored, and every write obeys its
    law. *)
Theorem stale_read_loses_service :
  KubeWrites (W := Cached) eq /\ CurrentReads (W := Cached) TrafficBinding eq /\
  (phase_of paused_blindly = PhasePaused /\ intercepts paused_blindly = true /\
   st_Snapshot (tb_Status (stored_exchange paused_blindly)) = None) /\
  (binding_gone deleted_blindly = true /\ intercepts deleted_blindly = true).
Proof. split; [exact cached_writes|]. split; [exact cached_bindings|]. vm_compute. by repeat split. Qed.
