(* ===== verification/TrafficTasks.v ===== *)
(** * Traffic tasks: requests and projections
    ([controlplane/trafficapi], [controlplane/trafficsession],
    [controlplane/previewapi/service_validation.go])

    What a client may ask for, in its normal form, and how a binding is shown. *)

From S2P Require Import Prelude GoLib GoSort External RemoteTask Netip IdentityStore TrafficBinding KubeClient.
From S2P Require Import TrafficControl ServiceBackends TrafficBindingStatus TrafficBindingClient TaskAPI.
From S2P Require Import GoText.

(** ** A binding as a task ([trafficsession/projection.go]) *)

Module trafficsession.
Section projection.
Context `{UnicodePackage}.

Definition State (binding : option TrafficBinding) : RemoteTask.State :=
  match binding with
  | None => Deleted
  | Some b =>
      if om_Deleting (tb_Meta b) then Deleted
      else if negb (bool_decide (TrimSpace (st_RelayError (tb_Status b)) = "")) then RemoteTask.Failed
      else
        let phase := st_Phase (tb_Status b) in
        if bool_decide (phase ∈ [""; PhasePending]) then Pending
        else if bool_decide (phase = PhaseReconciling) then Starting
        else if bool_decide (phase = PhaseReady) then Running
        else if bool_decide (phase ∈ [PhasePausing; PhaseRestoring]) then Stopping
        else if bool_decide (phase ∈ [PhasePaused; PhaseRestored]) then Stopped
        else if bool_decide (phase = PhaseDegraded) then RemoteTask.Failed
        else Pending
  end.

Definition Owned (b : TrafficBinding) (identityID sessionID namespace : string) : bool :=
  bool_decide (ts_IdentityID (tb_Spec b) = identityID) && bool_decide (ts_SessionID (tb_Spec b) = sessionID) &&
  bool_decide (om_Namespace (tb_Meta b) = namespace).

Definition Ports (b : TrafficBinding) : list servicemodel.Port :=
  map (fun p => servicemodel.mkPort (tp_Name p) (tp_TargetPort p) (strings_ToLower (tp_Protocol p))) (ts_Ports (tb_Spec b)).

Definition LocalTargets (b : TrafficBinding) : list servicemodel.LocalTarget :=
  omap (fun p => (fun localPort => servicemodel.mkLocalTarget (strings_ToLower (tp_Protocol p)) (tp_TargetPort p) (tp_LocalHost p)
                                     (uint16 localPort)) <$> tp_LocalPort p) (ts_Ports (tb_Spec b)).
End projection.
End trafficsession.

Definition invalid_field (field message : string) : apiError := mkApiError CodeInvalidArgument field message.

(** ** Requests ([trafficapi.go], [service_validation.go]) *)

Module trafficapi.

(** *** Errors *)

Record Errors := mkErrors { Name : string }.

Definition Target (reporter : Errors) (err : kube_error) : apiError :=
  if IsForbidden err then mkApiError CodeForbidden "" ("Kubernetes " +:+ Name reporter +:+ " access is not permitted")
  else if IsNotFound err then NotFound
  else invalid_field "service" (Error_text err).

Definition Internal (reporter : Errors) : apiError := mkApiError CodeInternal "" (Name reporter +:+ " operation failed").

(** No error of the bindings' client is one of [storage]. *)
Definition Storage (reporter : Errors) (err : client_error) : apiError :=
  match err with
  | ErrTrafficBindingConflict _ => mkApiError CodeConflict "" (Name reporter +:+ " Task conflicts with existing state")
  | _ => Internal reporter
  end.

(** *** Ports and local targets *)

Section normalize.
Context `{UnicodePackage, NameValidation, NetipPackage}.

Definition ComparePorts (left right : servicemodel.Port) : Z :=
  lex_cmp (fun a b => int32 (servicemodel.ServicePort a - servicemodel.ServicePort b))
    (fun a b => compareString (servicemodel.Protocol a) (servicemodel.Protocol b)) left right.
Definition CompareLocalTargets (left right : servicemodel.LocalTarget) : Z :=
  lex_cmp (fun a b => int32 (servicemodel.lt_ServicePort a - servicemodel.lt_ServicePort b))
    (fun a b => compareString (servicemodel.lt_Protocol a) (servicemodel.lt_Protocol b)) left right.

Definition normal_protocol (protocol : string) : string := strings_ToLower (TrimSpace protocol).
Definition localTargetKey (port : Z) (protocol : string) : string := number port +:+ "/" +:+ normal_protocol protocol.

Definition valid_port (port : Z) (protocol : string) : bool :=
  (1 <=? port) && (port <=? 65535) && bool_decide (protocol ∈ ["tcp"; "udp"]).

(** A host on the client's side: not a name, or an address that means another. *)
Definition invalidHost (host : string) : bool :=
  match net_ParseIP host with
  | Some a => addr_IsUnspecified (addr_Unmap a) || addr_IsMulticast (addr_Unmap a)
  | None => negb (bool_decide (IsDNS1123Subdomain host = []))
  end.

Definition normal_target (t : servicemodel.LocalTarget) : servicemodel.LocalTarget :=
  let host := TrimSpace (servicemodel.lt_LocalHost t) in
  servicemodel.mkLocalTarget (normal_protocol (servicemodel.lt_Protocol t)) (servicemodel.lt_ServicePort t)
    (if bool_decide (host = "") then "127.0.0.1" else host) (servicemodel.lt_LocalPort t).

Fixpoint normalize_targets (expected seen : gset string) (targets : list servicemodel.LocalTarget)
    : apiError + list servicemodel.LocalTarget :=
  match targets with
  | [] => inr []
  | t :: rest =>
      let t := normal_target t in
      let key := localTargetKey (servicemodel.lt_ServicePort t) (servicemodel.lt_Protocol t) in
      if negb (valid_port (servicemodel.lt_ServicePort t) (servicemodel.lt_Protocol t)) || (servicemodel.lt_LocalPort t <? 1)
         || invalidHost (servicemodel.lt_LocalHost t) || negb (bool_decide (key ∈ expected)) || bool_decide (key ∈ seen)
      then inl (invalid_field "localTargets" "local target is invalid")
      else match normalize_targets expected ({[key]} ∪ seen) rest with inl e => inl e | inr l => inr (t :: l) end
  end.

Definition port_keys (ports : list servicemodel.Port) : gset string :=
  list_to_set (map (fun p => localTargetKey (servicemodel.ServicePort p) (servicemodel.Protocol p)) ports).

Definition NormalizeLocalTargets (targets : list servicemodel.LocalTarget) (ports : list servicemodel.Port)
    : apiError + list servicemodel.LocalTarget :=
  if bool_decide (targets = []) then inr []
  else if negb (len targets =? len ports) then inl (invalid_field "localTargets" "local targets must match Service ports")
  else match normalize_targets (port_keys ports) ∅ targets with
       | inl e => inl e
       | inr l => inr (SortFunc CompareLocalTargets l)
       end.

Definition normal_port (p : servicemodel.Port) : servicemodel.Port :=
  servicemodel.mkPort (TrimSpace (servicemodel.Name p)) (servicemodel.ServicePort p) (normal_protocol (servicemodel.Protocol p)).

(** [fmt.Sprintf("%s/%d", port.Protocol, port.ServicePort)] *)
Definition port_key (p : servicemodel.Port) : string := servicemodel.Protocol p +:+ "/" +:+ number (servicemodel.ServicePort p).

Fixpoint normalize_ports (seen : gset string) (ports : list servicemodel.Port) : apiError + list servicemodel.Port :=
  match ports with
  | [] => inr []
  | p :: rest =>
      let p := normal_port p in
      if negb (valid_port (servicemodel.ServicePort p) (servicemodel.Protocol p))
      then inl (invalid_field "ports" "Service port and protocol are invalid")
      else if bool_decide (port_key p ∈ seen) then inl (invalid_field "ports" "Service ports must be unique")
      else match normalize_ports ({[port_key p]} ∪ seen) rest with inl e => inl e | inr l => inr (p :: l) end
  end.

Definition NormalizeServicePorts (service : string) (ports : list servicemodel.Port) : apiError + (string * list servicemodel.Port) :=
  let service := TrimSpace service in
  if negb (bool_decide (IsDNS1123Subdomain service = [])) then inl (invalid_field "service" "Service name is invalid")
  else if bool_decide (ports = []) || (64 <? len ports) then inl (invalid_field "ports" "one to 64 Service ports are required")
  else match normalize_ports ∅ ports with
       | inl e => inl e
       | inr l => inr (service, SortFunc ComparePorts l)
       end.
End normalize.

(** *** Listeners of the gateway *)

Section listeners.
Context `{UnicodePackage, UpperPackage}.

Definition listenerKey (protocol : string) (servicePort : Z) : string := strings_ToLower protocol +:+ "/" +:+ number servicePort.

(** The listeners by key: the last one wins. *)
Definition listeners_by_key (listeners : list trafficcontrol.ListenerPort) : gmap string trafficcontrol.ListenerPort :=
  fold_left (fun m p => <[listenerKey (trafficcontrol.ls_Protocol p) (trafficcontrol.ls_ServicePort p) := p]> m) listeners ∅.

Fixpoint pair_ports (byKey : gmap string trafficcontrol.ListenerPort) (expected : list servicemodel.Port) : option (list InterceptPort) :=
  match expected with
  | [] => Some []
  | port :: rest =>
      listener ← byKey !! listenerKey (servicemodel.Protocol port) (servicemodel.ServicePort port);
      if negb (bool_decide (trafficcontrol.ls_Name listener = servicemodel.Name port)) then None
      else
        l ← pair_ports byKey rest;
        Some (mkInterceptPort (servicemodel.Name port) (strings_ToUpper (servicemodel.Protocol port)) (servicemodel.ServicePort port)
                (trafficcontrol.ls_ListenPort listener) :: l)
  end.

Definition InterceptPorts (name : string) (expected : list servicemodel.Port) (listeners : list trafficcontrol.ListenerPort)
    : string + list InterceptPort :=
  let mismatch := "gateway listener ports do not match the " +:+ name +:+ " Task" in
  if negb (len expected =? len listeners) then inl mismatch
  else match pair_ports (listeners_by_key listeners) expected with None => inl mismatch | Some l => inr l end.

(** The listeners by the keys that the binding's ports have. *)
Definition ListenerPorts (ports : list trafficcontrol.ListenerPort) : gmap string Z :=
  fold_left (fun m p => <[portKey (trafficcontrol.ls_Protocol p) (trafficcontrol.ls_ServicePort p) := trafficcontrol.ls_ListenPort p]> m)
    ports ∅.
End listeners.
End trafficapi.

(** ** The three APIs *)

(** The requests of [exchangeapi] and [mirrorapi] name a Service, those of
    [previewapi] the Service to create. *)
Record TaskSpec := mkTaskSpec {
  sp_Service : string;
  sp_Ports : list servicemodel.Port;
  sp_LocalTargets : list servicemodel.LocalTarget
}.

Section specs.
Context `{UnicodePackage, NameValidation, NetipPackage}.

Definition with_targets (service : string) (ports : list servicemodel.Port) (targets : list servicemodel.LocalTarget) : apiError + TaskSpec :=
  match trafficapi.NormalizeLocalTargets targets ports with
  | inl e => inl e
  | inr targets => inr (mkTaskSpec service ports targets)
  end.

(** [exchangeapi] and [mirrorapi] *)
Definition intercept_normalizeRequest (spec : TaskSpec) : apiError + TaskSpec :=
  match trafficapi.NormalizeServicePorts (sp_Service spec) (sp_Ports spec) with
  | inl e => inl e
  | inr (service, ports) => with_targets service ports (sp_LocalTargets spec)
  end.

(** [previewapi] *)
Definition named_port (p : servicemodel.Port) : servicemodel.Port :=
  let p := trafficapi.normal_port p in
  if bool_decide (servicemodel.Name p = "")
  then servicemodel.mkPort (servicemodel.Protocol p +:+ "-" +:+ number (servicemodel.ServicePort p)) (servicemodel.ServicePort p)
         (servicemodel.Protocol p)
  else p.

Fixpoint normalize_preview_ports (seenPorts seenNames : gset string) (ports : list servicemodel.Port) : apiError + list servicemodel.Port :=
  match ports with
  | [] => inr []
  | p :: rest =>
      let p := named_port p in
      if negb (trafficapi.valid_port (servicemodel.ServicePort p) (servicemodel.Protocol p))
      then inl (invalid_field "ports" "Service port and protocol are invalid")
      else if negb (bool_decide (IsDNS1123Label (servicemodel.Name p) = [])) then inl (invalid_field "ports" "Service port name is invalid")
      else if bool_decide (trafficapi.port_key p ∈ seenPorts) then inl (invalid_field "ports" "Service ports must be unique")
      else if bool_decide (servicemodel.Name p ∈ seenNames) then inl (invalid_field "ports" "Service port names must be unique")
      else match normalize_preview_ports ({[trafficapi.port_key p]} ∪ seenPorts) ({[servicemodel.Name p]} ∪ seenNames) rest with
           | inl e => inl e
           | inr l => inr (p :: l)
           end
  end.

Definition preview_normalizeRequest (spec : TaskSpec) : apiError + TaskSpec :=
  let name := TrimSpace (sp_Service spec) in
  if negb (bool_decide (IsDNS1123Label name = [])) then inl (invalid_field "name" "Service name is invalid")
  else if bool_decide (sp_Ports spec = []) || (64 <? len (sp_Ports spec))
  then inl (invalid_field "ports" "one to 64 Service ports are required")
  else match normalize_preview_ports ∅ ∅ (sp_Ports spec) with
       | inl e => inl e
       | inr l => with_targets name (SortFunc trafficapi.ComparePorts l) (sp_LocalTargets spec)
       end.
End specs.

(** * What the control plane creates, the operator accepts

    The bindings of the traffic task APIs pass the validation of the operator: when
    they are created, and when a gateway has given them a relay. *)


(** ** Lists *)

Lemma NoDup_map_weaken {A B C} (f : A -> B) (g : A -> C) l :
  (forall x y, x ∈ l -> y ∈ l -> g x = g y -> f x = f y) -> NoDup (map f l) -> NoDup (map g l).
Proof.
  induction l as [|x l IH]; intros Hfg Hn; [constructor|]. inversion Hn as [|? ? Hx Hl]; subst. cbn. constructor.
  - intros Hin. apply Hx. apply list_elem_of_fmap in Hin as (y & Hg & Hy). apply list_elem_of_fmap. exists y.
    split; [|done]. apply Hfg; [by left|by right|done].
  - apply IH; [|done]. intros y z Hy Hz. by apply Hfg; right.
Qed.

(** ** Ports the operator accepts *)

Section accepted.
Context `{KN : NameValidation, KT : NetipPackage, KU : UnicodePackage}.

Definition in_range (port : Z) : Prop := 1 <= port <= 65535.
Definition optional_in_range (port : option Z) : Prop := match port with Some p => in_range p | None => True end.

Definition ok_port (p : TrafficPort) : Prop :=
  in_range (tp_TargetPort p) /\ tp_Protocol p ∈ [TransportProtocolTCP; TransportProtocolUDP] /\ optional_in_range (tp_RelayPort p) /\
  optional_in_range (tp_LocalPort p) /\ (tp_Name p <> "" -> IsDNS1123Label (tp_Name p) = []).

(** The names that are given. *)
Definition named (l : list string) : list string := filter (fun n => n <> "") l.

Lemma validatePort_ok port field : in_range port -> validatePort port field = inr tt.
Proof. intros [H1 H2]. unfold validatePort. by rewrite (proj2 (Z.ltb_ge port 1) H1), (proj2 (Z.ltb_ge 65535 port) H2). Qed.

Lemma validate_ports_ok index ports seenPorts seenNames :
  Forall ok_port ports -> NoDup (map port_target ports) -> (forall p, p ∈ ports -> port_target p ∉ seenPorts) ->
  NoDup (named (map tp_Name ports)) -> (forall n, n ∈ named (map tp_Name ports) -> n ∉ seenNames) ->
  validate_ports index ports seenPorts seenNames = inr tt.
Proof.
  revert index seenPorts seenNames. induction ports as [|p ports IH]; intros index seenPorts seenNames Hok Hnd Hseen Hnn Hnames; [done|].
  apply Forall_cons in Hok as [(Ht & Hp & Hr & Hl & Hn) Hok]. inversion Hnd as [|? ? Hpt Hnd']; subst.
  cbn [validate_ports]. rewrite (validatePort_ok _ _ Ht). cbn [and_then].
  assert (Hv : validateProtocol (tp_Protocol p) = inr tt).
  { unfold validateProtocol. rewrite bool_decide_eq_true_2; [done|]. by right. }
  rewrite Hv. cbn [and_then]. rewrite (bool_decide_eq_false_2 (tp_Protocol p = "")) by (intros He; rewrite He in Hp; by apply (bool_decide_pack _) in Hp).
  assert (Hvr : forall o f, optional_in_range o -> validate_optional_port o f = inr tt).
  { intros [o|] f Ho; [by apply validatePort_ok|done]. }
  rewrite (Hvr _ _ Hr), (Hvr _ _ Hl). cbn [and_then].
  assert (Hrest : forall seen', (forall n, n ∈ named (map tp_Name ports) -> n ∉ seen') -> NoDup (named (map tp_Name ports)) ->
     (if bool_decide (port_target p ∈ seenPorts)
      then permanentf ("spec.ports contains duplicate target " +:+ port_target p)
      else validate_ports (index + 1) ports ({[port_target p]} ∪ seenPorts) seen') = inr tt).
  { intros seen' Hs' Hnn'. rewrite bool_decide_eq_false_2 by (apply Hseen; by left). apply IH; try done.
    intros q Hq. apply not_elem_of_union. split; [|apply Hseen; by right].
    intros Heq%elem_of_singleton. apply Hpt. rewrite <- Heq. by apply list_elem_of_fmap_2. }
  unfold named in *. cbn [map] in Hnn, Hnames. destruct (decide (tp_Name p = "")) as [He|Hne].
  - rewrite (bool_decide_eq_true_2 _ He). cbn [and_then]. rewrite filter_cons_False in Hnn, Hnames by tauto. by apply Hrest.
  - rewrite (bool_decide_eq_false_2 _ Hne), (Hn Hne). rewrite filter_cons_True in Hnn, Hnames by done.
    inversion Hnn as [|? ? Hnotin Hnn']; subst.
    rewrite (bool_decide_eq_false_2 (tp_Name p ∈ seenNames)) by (apply Hnames; by left). cbn [and_then]. apply Hrest; [|done].
    intros n Hin. apply not_elem_of_union. split; [|apply Hnames; by right]. by intros ->%elem_of_singleton.
Qed.

Lemma check_ports_ok ok message index ports : Forall (fun p => ok p = true) ports -> check_ports ok message index ports = inr tt.
Proof. revert index. induction ports as [|p ports IH]; intros index; [done|]. intros [Hp Hps]%Forall_cons. cbn. by rewrite Hp, IH. Qed.

(** The identity of a binding. *)
Definition ok_owner (s : TrafficBindingSpec) : Prop :=
  uuidPattern (strings_ToLower (ts_SessionID s)) = true /\ uuidPattern (strings_ToLower (ts_TaskID s)) = true /\
  TrimSpace (ts_IdentityID s) <> "" /\ slen (ts_IdentityID s) <= 256 /\ 1 <= ts_SessionGeneration s.

(** What is exposed: a Service that exists, or one that is created. *)
Definition ok_mode (s : TrafficBindingSpec) : Prop :=
  match ts_Target s, ts_Preview s with
  | Some t, None => ts_Mode s ∈ [ModeExchange; ModeMirror] /\ tt_Kind t = TargetKindService /\ IsDNS1123Subdomain (tt_Name t) = []
  | None, Some name => ts_Mode s = ModePreview /\ IsDNS1123Label name = []
  | _, _ => False
  end.

(** The relay: none, and no port has a listener; or an address, and all have. *)
Definition ok_relay (s : TrafficBindingSpec) : Prop :=
  match ts_Relay s with
  | None => Forall (fun p => tp_RelayPort p = None) (ts_Ports s)
  | Some address => is_Some (net_ParseIP (TrimSpace address)) /\ Forall (fun p => is_Some (tp_RelayPort p)) (ts_Ports s)
  end.

Definition ok_ports (ports : list TrafficPort) : Prop :=
  1 <= len ports <= 64 /\ Forall ok_port ports /\ NoDup (map port_target ports) /\ NoDup (named (map tp_Name ports)).

Lemma mode_ok s : ok_mode s -> ts_Mode s <> ModePortForward /\ validate_mode s = inr tt.
Proof.
  unfold ok_mode, validate_mode. destruct (ts_Target s) as [t|], (ts_Preview s) as [name|]; try done.
  - intros (Hm & Hk & _). assert (Hne : ts_Mode s <> ModePortForward /\ ts_Mode s <> ModePreview).
    { split; intros He; rewrite He in Hm; by apply (bool_decide_pack _) in Hm. }
    destruct Hne as [H1 H2]. split; [done|].
    rewrite (bool_decide_eq_false_2 _ H1), (bool_decide_eq_false_2 _ H2), (bool_decide_eq_true_2 _ Hm), (bool_decide_eq_true_2 _ Hk).
    done.
  - intros [Hm Hl]. rewrite Hm. split; [done|]. by rewrite Hl.
Qed.

(** The operator's validation in terms of the parts. *)
Lemma validateBinding_ok b :
  ok_owner (tb_Spec b) -> ts_DesiredState (tb_Spec b) ∈ [""; DesiredStateActive; DesiredStatePaused] -> ok_ports (ts_Ports (tb_Spec b)) ->
  ok_mode (tb_Spec b) -> ok_relay (tb_Spec b) -> validateBinding b = inr tt.
Proof.
  intros (Hs & Ht & Hi & Hl & Hg) Hd ((Hp1 & Hp2) & Hok & Hnd & Hnn) Hmode Hrelay. unfold validateBinding.
  assert (H1 : validateBindingIdentity b = inr tt).
  { unfold validateBindingIdentity. rewrite Hs, Ht, (bool_decide_eq_false_2 _ Hi). cbn [negb orb].
    by rewrite (proj2 (Z.ltb_ge 256 _) Hl), (proj2 (Z.ltb_ge _ 1) Hg), (proj2 (Z.ltb_ge _ 1) Hp1), (proj2 (Z.ltb_ge 64 _) Hp2). }
  assert (H2 : validateDesiredState (ts_DesiredState (tb_Spec b)) = inr tt). { unfold validateDesiredState. by rewrite bool_decide_eq_true_2. }
  assert (H3 : validateBindingPorts b = inr tt). { apply validate_ports_ok; [done|done|set_solver|done|set_solver]. }
  destruct (mode_ok _ Hmode) as [Hnpf Hvm].
  assert (H4 : validateBindingMode b = inr tt).
  { unfold validateBindingMode. rewrite Hvm. cbn [and_then]. rewrite (bool_decide_eq_false_2 _ Hnpf). unfold ok_relay in Hrelay.
    destruct (ts_Relay (tb_Spec b)) as [address|]; apply check_ports_ok; [destruct Hrelay as [_ Hrelay]|];
      (eapply Forall_impl; [exact Hrelay|]); intros p Hp; unfold has_relay_port; [by rewrite bool_decide_eq_true_2|by rewrite Hp]. }
  assert (H5 : validateBindingTarget b = inr tt).
  { unfold validateBindingTarget. unfold ok_mode in Hmode. destruct (ts_Target (tb_Spec b)) as [t|]; [|done].
    destruct (ts_Preview (tb_Spec b)); [done|]. destruct Hmode as (_ & -> & ->). done. }
  assert (H6 : validateBindingRelay b = inr tt).
  { unfold validateBindingRelay, ok_relay in *. destruct (ts_Relay (tb_Spec b)) as [address|]; [|done].
    destruct Hrelay as [Hr _]. by destruct (net_ParseIP _); [|destruct Hr]. }
  by rewrite H1, H2, H3, H4, H5, H6.
Qed.

(** ** The ports of a new task *)

Context `{KP : UpperPackage}.
(** [strings.ToUpper] of the two protocols. *)
Hypothesis upper_tcp : strings_ToUpper "tcp" = TransportProtocolTCP.
Hypothesis upper_udp : strings_ToUpper "udp" = TransportProtocolUDP.

Definition ok_target (t : servicemodel.LocalTarget) : Prop := in_range (servicemodel.lt_LocalPort t).

Lemma target_map_lookup targets k t : target_map targets !! k = Some t -> t ∈ targets.
Proof.
  unfold target_map. assert (Hgen : forall m : gmap string servicemodel.LocalTarget, fold_left (fun m t => <[portKey (servicemodel.lt_Protocol t) (servicemodel.lt_ServicePort t) := t]> m)
     targets m !! k = Some t -> t ∈ targets \/ m !! k = Some t).
  { induction targets as [|x targets IH]; intros m; cbn; [by right|]. intros [Hin|Hl]%IH; [left; by right|].
    rewrite lookup_insert in Hl. case_decide; [injection Hl as ->; left; by left|by right]. }
  intros [?|Hl]%Hgen; [done|]. by rewrite lookup_empty in Hl.
Qed.

(** A request's ports in normal form. *)
Definition normal_ports (ports : list servicemodel.Port) : Prop :=
  1 <= len ports <= 64 /\
  Forall (fun p => trafficapi.valid_port (servicemodel.ServicePort p) (servicemodel.Protocol p) = true /\
                   (servicemodel.Name p <> "" -> IsDNS1123Label (servicemodel.Name p) = [])) ports /\
  NoDup (map trafficapi.port_key ports) /\ NoDup (named (map servicemodel.Name ports)).

Lemma valid_port_spec port protocol : trafficapi.valid_port port protocol = true ->
  in_range port /\ (protocol = "tcp" \/ protocol = "udp").
Proof.
  unfold trafficapi.valid_port. rewrite !andb_true_iff, !Z.leb_le, bool_decide_eq_true, !elem_of_cons, elem_of_nil.
  intros [[? ?] [?|[?|[]]]]; (split; [done|]); auto.
Qed.

(** The protocols are told apart after as before. *)
Lemma pending_target_inj targets p q :
  trafficapi.valid_port (servicemodel.ServicePort p) (servicemodel.Protocol p) = true ->
  trafficapi.valid_port (servicemodel.ServicePort q) (servicemodel.Protocol q) = true ->
  port_target (pending_port targets p) = port_target (pending_port targets q) -> trafficapi.port_key p = trafficapi.port_key q.
Proof.
  intros [_ Hp]%valid_port_spec [_ Hq]%valid_port_spec. unfold port_target, trafficapi.port_key, pending_port. cbn [tp_Protocol tp_TargetPort].
  destruct Hp as [-> | ->], Hq as [-> | ->]; rewrite ?upper_tcp, ?upper_udp; unfold TransportProtocolTCP, TransportProtocolUDP;
    generalize (number (servicemodel.ServicePort p)) (number (servicemodel.ServicePort q)); intros a b E;
    first [discriminate E|by apply (inj _), (inj _) in E as ->].
Qed.

Lemma pending_ports_ok targets ports : Forall ok_target targets -> normal_ports ports -> ok_ports (map (pending_port (target_map targets)) ports).
Proof.
  intros Ht (Hlen & Hall & Hnd & Hnn). split; [unfold len; by rewrite length_map|]. rewrite Forall_forall in Hall. rewrite Forall_forall in Ht. split; [|split].
  - apply Forall_forall. intros x Hx. apply list_elem_of_fmap in Hx as (p & -> & Hp). destruct (Hall p Hp) as [Hv Hname].
    destruct (valid_port_spec _ _ Hv) as [Hr Hpr]. split; [done|]. split.
    { cbn. destruct Hpr as [-> | ->]; rewrite ?upper_tcp, ?upper_udp; [by left|by right; left]. }
    split; [done|]. split; [|done]. cbn. destruct (target_map targets !! _) as [t|] eqn:El; [|done]. cbn.
    by apply Ht, (target_map_lookup _ _ _ El).
  - rewrite map_map. revert Hnd. apply NoDup_map_weaken. intros p q Hp Hq. apply pending_target_inj; by apply Hall.
  - rewrite map_map. exact Hnn.
Qed.

(** The listeners of a gateway in their place. *)
Lemma assigned_ports_ok assigned ports ports' :
  assign_relay_ports assigned ports = inr ports' -> map_Forall (fun _ => in_range) assigned -> ok_ports ports ->
  ok_ports ports' /\ Forall (fun p => is_Some (tp_RelayPort p)) ports'.
Proof.
  intros Ha Hrange (Hlen & Hok & Hnd & Hnn).
  assert (H : Forall2 (fun p p' => exists n, in_range n /\ p' = set_relay_port (Some n) p) ports ports').
  { clear Hlen Hok Hnd Hnn. revert ports' Ha. induction ports as [|p ports IH]; intros ports'; cbn; [by intros [= <-]; constructor|].
    destruct (assigned !! _) as [n|] eqn:El; [|done]. destruct (assign_relay_ports assigned ports) as [e|l]; [done|].
    intros [= <-]. constructor; [exists n; split; [by apply (Hrange _ _ El)|done]|by apply IH]. }
  assert (Hmaps : map port_target ports' = map port_target ports /\ map tp_Name ports' = map tp_Name ports /\ length ports' = length ports).
  { clear - H. induction H as [|p p' l l' (n & _ & ->) _ (IH1 & IH2 & IH3)]; [done|]. cbn. by rewrite IH1, IH2, IH3. }
  destruct Hmaps as (Hm1 & Hm2 & Hm3). split.
  - split; [unfold len in *; by rewrite Hm3|]. rewrite Hm1, Hm2. split; [|done]. clear - H Hok.
    induction H as [|p p' l l' (n & Hn & ->) _ IH]; [constructor|]. apply Forall_cons in Hok as [(H1 & H2 & H3 & H4 & H5) Hok].
    constructor; [|by apply IH]. by split_and!.
  - clear - H. induction H as [|p p' l l' (n & _ & ->) _ IH]; constructor; [by eexists|done].
Qed.

(** ** Requests in normal form *)

Lemma named_all l : "" ∉ l -> named l = l.
Proof.
  unfold named. induction l as [|x l IH]; [done|]. intros [Hx Hl]%not_elem_of_cons.
  rewrite filter_cons_True by congruence. by rewrite IH.
Qed.

Lemma normal_ports_perm l l' : Permutation l l' -> normal_ports l -> normal_ports l'.
Proof.
  intros Hp ([Hl1 Hl2] & Hall & Hnd & Hnn). unfold normal_ports, len, named in *. rewrite <- Hp. done.
Qed.

Lemma normalize_targets_ok expected seen targets l :
  trafficapi.normalize_targets expected seen targets = inr l -> Forall (fun t => servicemodel.lt_LocalPort t <= 65535) targets -> Forall ok_target l.
Proof.
  revert seen l. induction targets as [|t targets IH]; intros seen l; cbn [trafficapi.normalize_targets]; [by intros [= <-] _; constructor|].
  cbn zeta. destruct (negb (trafficapi.valid_port _ _) || _ || _ || _ || _) eqn:Hc; [done|].
  destruct (trafficapi.normalize_targets _ _ _) as [e|rest] eqn:Hr; [done|]. intros [= <-] [Ht Hts]%Forall_cons.
  constructor; [|by apply (IH _ _ Hr)]. rewrite !orb_false_iff in Hc. destruct Hc as ((((_ & Hc) & _) & _) & _).
  apply Z.ltb_ge in Hc. by split.
Qed.

Lemma with_targets_ok service ports targets spec : with_targets service ports targets = inr spec ->
  Forall (fun t => servicemodel.lt_LocalPort t <= 65535) targets ->
  sp_Service spec = service /\ sp_Ports spec = ports /\ Forall ok_target (sp_LocalTargets spec).
Proof.
  unfold with_targets, trafficapi.NormalizeLocalTargets. case_bool_decide; [intros [= <-] _; split_and!; by try constructor|].
  destruct (negb _); [done|]. destruct (trafficapi.normalize_targets _ _ _) as [e|l] eqn:Hl; [done|]. intros [= <-] Ht.
  split_and!; [done|done|]. cbn. eapply Forall_Permutation; [|apply SortFunc_perm|by apply (normalize_targets_ok _ _ _ _ Hl)]. done.
Qed.

Lemma normalize_preview_ports_ok seenP seenN ports l : IsDNS1123Label "" <> [] ->
  normalize_preview_ports seenP seenN ports = inr l ->
  length l = length ports /\
  Forall (fun p => trafficapi.valid_port (servicemodel.ServicePort p) (servicemodel.Protocol p) = true /\ servicemodel.Name p <> "" /\
                   IsDNS1123Label (servicemodel.Name p) = [] /\ trafficapi.port_key p ∉ seenP /\ servicemodel.Name p ∉ seenN) l /\
  NoDup (map trafficapi.port_key l) /\ NoDup (map servicemodel.Name l).
Proof.
  intros Hempty. revert seenP seenN l. induction ports as [|p ports IH]; intros seenP seenN l; cbn [normalize_preview_ports].
  { intros [= <-]. split_and!; constructor. }
  cbn zeta. set (q := named_port p). destruct (trafficapi.valid_port _ _) eqn:Hv; [|done]. cbn [negb].
  case_bool_decide as Hl; [|done]. cbn [negb]. case_bool_decide as Hk; [done|]. case_bool_decide as Hn; [done|].
  destruct (normalize_preview_ports _ _ _) as [e|rest] eqn:Hr; [done|]. intros [= <-].
  destruct (IH _ _ _ Hr) as (Hlen & Hall & Hnk & Hnn). rewrite Forall_forall in Hall.
  split; [cbn; by rewrite Hlen|]. split; [|split].
  - constructor; [split_and!; try done; intros He; by rewrite He in Hl|]. apply Forall_forall. intros x Hx.
    destruct (Hall x Hx) as (? & ? & ? & Hxk & Hxn). apply not_elem_of_union in Hxk as [_ ?], Hxn as [_ ?]. by split_and!.
  - constructor; [|done]. intros Hin. apply list_elem_of_fmap in Hin as (x & Hx & Hin). destruct (Hall x Hin) as (_ & _ & _ & Hxk & _).
    apply Hxk. rewrite <- Hx. set_solver.
  - constructor; [|done]. intros Hin. apply list_elem_of_fmap in Hin as (x & Hx & Hin). destruct (Hall x Hin) as (_ & _ & _ & _ & Hxn).
    apply Hxn. rewrite <- Hx. set_solver.
Qed.

(** ** Both stages of a binding *)

(** The binding as it is created, and as [AttachRelay] leaves it. *)
Definition accepted_throughout (b : TrafficBinding) : Prop :=
  validateBinding b = inr tt /\
  forall assigned address ports, assign_relay_ports assigned (ts_Ports (tb_Spec b)) = inr ports ->
    map_Forall (fun _ => in_range) assigned -> is_Some (net_ParseIP (TrimSpace address)) ->
    validateBinding (set_spec (set_desired DesiredStateActive (set_relay (Some address) ports (tb_Spec b))) b) = inr tt.

Lemma stages_accepted b :
  ok_owner (tb_Spec b) -> ts_DesiredState (tb_Spec b) = DesiredStateActive -> ok_ports (ts_Ports (tb_Spec b)) -> ok_mode (tb_Spec b) ->
  ts_Relay (tb_Spec b) = None -> Forall (fun p => tp_RelayPort p = None) (ts_Ports (tb_Spec b)) -> accepted_throughout b.
Proof.
  intros Ho Hd Hp Hm Hr Hrp. split.
  - apply validateBinding_ok; try done; [rewrite Hd; by right; left|]. unfold ok_relay. by rewrite Hr.
  - intros assigned address ports Ha Hrange Hip. destruct (assigned_ports_ok _ _ _ Ha Hrange Hp) as [Hok Hrel].
    apply validateBinding_ok; try done. by right; left.
Qed.

Definition ok_task_owner (o : Owner) : Prop :=
  uuidPattern (strings_ToLower (ow_SessionID o)) = true /\ uuidPattern (strings_ToLower (ow_TaskID o)) = true /\
  TrimSpace (ow_IdentityID o) <> "" /\ slen (ow_IdentityID o) <= 256 /\ 1 <= ow_SessionGeneration o.

(** The port numbers of a request fit their type. *)
Definition local_ports_fit (spec : TaskSpec) : Prop := Forall (fun t => servicemodel.lt_LocalPort t <= 65535) (sp_LocalTargets spec).

Lemma preview_normal spec spec' : IsDNS1123Label "" <> [] -> local_ports_fit spec -> preview_normalizeRequest spec = inr spec' ->
  IsDNS1123Label (sp_Service spec') = [] /\ normal_ports (sp_Ports spec') /\ Forall ok_target (sp_LocalTargets spec').
Proof.
  intros Hempty Hfit. unfold preview_normalizeRequest. cbn zeta. case_bool_decide as Hl; [|done]. cbn [negb].
  case_bool_decide as Hne; [done|]. destruct (64 <? len (sp_Ports spec)) eqn:Hmax; [done|]. cbn [orb]. apply Z.ltb_ge in Hmax.
  destruct (normalize_preview_ports _ _ _) as [e|l] eqn:Hp; [done|]. intros Hw. destruct (with_targets_ok _ _ _ _ Hw Hfit) as (-> & -> & Ht).
  split; [done|]. split; [|done]. destruct (normalize_preview_ports_ok _ _ _ _ Hempty Hp) as (Hlen & Hall & Hnk & Hnn).
  apply (normal_ports_perm l); [symmetry; apply SortFunc_perm|]. split; [|split; [|split; [done|]]].
  - unfold len in *. rewrite Hlen. destruct (sp_Ports spec); [done|]. cbn in *. lia.
  - eapply Forall_impl; [exact Hall|]. cbn. by intros x (? & ? & ? & _).
  - rewrite named_all; [done|]. intros Hin. apply list_elem_of_fmap in Hin as (x & Hx & Hin).
    rewrite Forall_forall in Hall. destruct (Hall x Hin) as (_ & Hnx & _). congruence.
Qed.

(** The operator accepts every preview: the binding the control
    plane stores for a request that passed its checks is valid for the operator,
    and so is that binding once a gateway has attached a relay with an address and
    a listener for each port. *)
Theorem preview_task_accepted owner namespace spec spec' :
  IsDNS1123Label "" <> [] -> local_ports_fit spec -> ok_task_owner owner -> preview_normalizeRequest spec = inr spec' ->
  accepted_throughout (NewPendingPreviewBinding owner namespace (sp_Service spec') (sp_Ports spec') (sp_LocalTargets spec')).
Proof.
  intros Hempty Hfit Ho Hn. destruct (preview_normal _ _ Hempty Hfit Hn) as (Hl & Hp & Ht).
  apply stages_accepted; try done; [by apply pending_ports_ok|].
  apply Forall_forall. intros x Hx. by apply list_elem_of_fmap in Hx as (p & -> & _).
Qed.
End accepted.
