(* ===== verification/TrafficAPI.v ===== *)
(** * The traffic task APIs ([controlplane/trafficapi], [exchangeapi], [mirrorapi],
    [previewapi], [trafficcontrolapi])

    Users create, show, pause, resume and delete exchanges, mirrors and previews;
    gateways claim them, prepare the Service, keep the claim alive and finish it.
    The bindings are their only record. *)

From S2P Require Import Prelude GoLib GoSort External RemoteTask Netip IdentityStore TrafficBinding KubeClient.
From S2P Require Import TrafficBindingStatus TrafficControl ServiceBackends TrafficBindingClient TaskAPI SessionAPI TrafficTasks.

(** A handler answers with an error or panics. *)
Inductive handler_stop := Rejects (e : apiError) | HandlerPanics.

(** [sessionapi.Service.RequireActive] *)
Class SessionValidator (W : Type) := {
  sessions_RequireActive : Identity -> string -> string -> W -> (apiError + ActiveSession) * W
}.
(** [KubernetesMutationProvider]: a client that acts for the user, or an error. *)
Class ClientProvider := { provider_ClientFor : Identity -> option kube_error }.

Section api.
Context {W : Type} `{KubeClient W, HashPackage, UuidPackage, Sha1Uuids, UnicodePackage, UpperPackage, LabelValidation, MetaPackage}.
Context `{NameValidation, NetipPackage, SessionValidator W, ClientProvider}.

#[local] Abbreviation Handler := (M W handler_stop).

Definition rejects {A} (e : apiError) : Handler A := fails (Rejects e).
Definition api {A} (r : apiError + A) : Handler A := checked (match r with inl e => inl (Rejects e) | inr a => inr a end).
(** An operation on the bindings, with its error mapped. *)
Definition or_else {E A} (f : E -> apiError) (m : M W E A) : Handler A := failing_as (fun e => Rejects (f e)) m.
(** The error of an operation as a value. *)
Definition outcome {E A} (m : M W E A) : Handler (E + A) := fun w => let '(r, w') := m w in (inr r, w').

(** ** Tasks ([task.go]) *)

Record Task := mkTask { tk_Name : string; tk_Mode : string; tk_ClaimMode : string }.

Definition task_errors (task : Task) : trafficapi.Errors := trafficapi.mkErrors (tk_Name task).
Definition internal {E} (task : Task) (_ : E) : apiError := trafficapi.Internal (task_errors task).
Definition task_conflict (message : string) : apiError := mkApiError CodeConflict "" message.
Definition OwnershipMessage (task : Task) : string := tk_Name task +:+ " Task is not owned by this Gateway".

Definition Owns (task : Task) (b : TrafficBinding) (identity : Identity) (session : ActiveSession) : bool :=
  trafficsession.Owned b (Subject identity) (as_ID session) (as_Namespace session) && bool_decide (ts_Mode (tb_Spec b) = tk_Mode task).

Definition ServiceNameFromTarget (b : TrafficBinding) : string := default "" (tt_Name <$> ts_Target (tb_Spec b)).
Definition ServiceNameFromPreview (b : TrafficBinding) : string := default "" (ts_Preview (tb_Spec b)).

(** What an API is made of: [relay_Release] gives back the resources of a task. *)
Record Relay := mkRelay {
  relay_Task : Task;
  relay_Bindings : Manager;
  relay_ServiceName : TrafficBinding -> string;
  relay_Release : string -> string -> M W client_error unit
}.

(** The user and the session that a ticket of the gateway names. *)
Definition TrafficSession (ticketIdentity : trafficcontrol.Identity) : Handler (Identity * ActiveSession) :=
  let identity := TaskAPI.mkIdentity (trafficcontrol.ti_IdentityID ticketIdentity) "" "" "" (trafficcontrol.ti_Groups ticketIdentity)
                    (trafficcontrol.ti_DeviceID ticketIdentity) "" 0 in
  session ← or_else id (sessions_RequireActive identity (trafficcontrol.ti_Namespace ticketIdentity) (trafficcontrol.ti_SessionID ticketIdentity));
  if negb (AcceptsStreamGeneration (as_Generation session) (trafficcontrol.ti_SessionGeneration ticketIdentity))
  then rejects (task_conflict "Session generation changed")
  else mret (identity, session).

Section relay.
Context (relay : Relay).

Definition OwnedBinding (identity : Identity) (session : ActiveSession) (taskID : string) : Handler TrafficBinding :=
  if bool_decide (uuid_Parse taskID = None) then rejects NotFound
  else
  r ← outcome (GetSession (relay_Bindings relay) (as_Namespace session) taskID);
  match r with
  | inl ErrTrafficBindingNotFound => rejects NotFound
  | inl e => rejects (internal (relay_Task relay) e)
  | inr b => if negb (Owns (relay_Task relay) b identity session) then rejects NotFound else mret b
  end.

Definition relayBinding (relayID taskID : string) : Handler TrafficBinding :=
  r ← outcome (FindSession (relay_Bindings relay) taskID);
  match r with
  | inl _ => rejects NotFound
  | inr b =>
      if negb (bool_decide (ts_Mode (tb_Spec b) = tk_Mode (relay_Task relay))) then rejects NotFound
      else if negb (bool_decide (st_RelayOwnerID (tb_Status b) = relayID))
      then rejects (task_conflict (OwnershipMessage (relay_Task relay)))
      else mret b
  end.

Definition Claim (now : time) (relayID : string) (request : trafficcontrol.ClaimRequest) : Handler trafficcontrol.ClaimResponse :=
  '(identity, session) ← TrafficSession (trafficcontrol.cr_Identity request);
  binding ← OwnedBinding identity session (trafficcontrol.cr_TaskID request);
  if negb (bool_decide (ts_DesiredState (tb_Spec binding) = DesiredStateActive)) || bool_decide (is_Some (ts_Relay (tb_Spec binding)))
     || negb (bool_decide (st_RelayOwnerID (tb_Status binding) = ""))
  then rejects (task_conflict (tk_Name (relay_Task relay) +:+ " Session was already claimed"))
  else
    binding ← or_else (trafficapi.Storage (task_errors (relay_Task relay))) (ClaimRelay now binding relayID);
    mret (trafficcontrol.mkClaimResponse (tk_ClaimMode (relay_Task relay)) (ts_TaskID (tb_Spec binding))
            (relay_ServiceName relay binding) (trafficsession.Ports binding)).

Definition PrepareBinding (relayID : string) (request : trafficcontrol.PrepareRequest)
    : Handler (Identity * ActiveSession * TrafficBinding) :=
  '(identity, session) ← TrafficSession (trafficcontrol.pr_Identity request);
  binding ← OwnedBinding identity session (trafficcontrol.pr_TaskID request);
  if negb (bool_decide (st_RelayOwnerID (tb_Status binding) = relayID)) || bool_decide (is_Some (ts_Relay (tb_Spec binding)))
  then rejects (task_conflict (OwnershipMessage (relay_Task relay)))
  else mret (identity, session, binding).

Definition Heartbeat (now : time) (relayID : string) (request : trafficcontrol.HeartbeatRequest) : Handler trafficcontrol.HeartbeatResponse :=
  binding ← relayBinding relayID (trafficcontrol.hr_TaskID request);
  if bool_decide (ts_DesiredState (tb_Spec binding) = DesiredStatePaused) || om_Deleting (tb_Meta binding)
  then mret (trafficcontrol.mkHeartbeatResponse true)
  else
    or_else (internal (relay_Task relay)) (RelayHeartbeat now binding relayID);;
    mret (trafficcontrol.mkHeartbeatResponse false).

(** [errors.Join(errors.New(reason), releaseErr).Error()] *)
Definition newline : string := String (Ascii.ascii_of_nat 10) "".
Definition joined_reason (reason : string) (releaseErr : client_error) : string := reason +:+ newline +:+ client_error_text releaseErr.

Definition Finish (relayID : string) (request : trafficcontrol.FinishRequest) : Handler trafficcontrol.FinishResponse :=
  binding ← relayBinding relayID (trafficcontrol.fr_TaskID request);
  let reason :=
    if trafficcontrol.fr_Failed request then
      let reason := TrimSpace (trafficcontrol.fr_Reason request) in
      if bool_decide (reason = "") then strings_ToLower (tk_Name (relay_Task relay)) +:+ " relay failed" else reason
    else "" in
  released ← outcome (relay_Release relay (om_Namespace (tb_Meta binding)) (ts_TaskID (tb_Spec binding)));
  let reason := match released with inl e => joined_reason reason e | inr _ => reason end in
  current ← outcome (FindSession (relay_Bindings relay) (trafficcontrol.fr_TaskID request));
  match current, released with
  | inl reloadErr, inr _ => rejects (internal (relay_Task relay) reloadErr)
  | _, _ =>
      let binding := match current with inr b => b | inl _ => binding end in
      or_else (internal (relay_Task relay)) (FinishRelay binding relayID reason);;
      let failed := trafficcontrol.fr_Failed request || bool_decide (is_Some (match released with inl e => Some e | inr _ => None end)) in
      mret (trafficcontrol.mkFinishResponse (if failed then RemoteTask.Failed else Stopped))
  end.
End relay.

(** ** The REST surface ([handlers.go]) *)

(** [Document] shows a binding; the documents of the three APIs read the fields of the
    binding, so that there is none of a nil binding. *)
Record Handlers (D : Type) := mkHandlers {
  h_Relay : Relay;
  h_TaskType : string;
  h_PathSegment : string;
  h_Normalize : TaskSpec -> apiError + TaskSpec;
  h_NewBinding : Identity -> ActiveSession -> Owner -> TaskSpec -> M W apiError TrafficBinding;
  h_Document : TrafficBinding -> ActiveSession -> D;
  h_DeleteBinding : string -> string -> M W client_error unit
}.
#[local] Arguments h_Relay {D}.
#[local] Arguments h_TaskType {D}.
#[local] Arguments h_PathSegment {D}.
#[local] Arguments h_Normalize {D}.
#[local] Arguments h_NewBinding {D}.
#[local] Arguments h_Document {D}.
#[local] Arguments h_DeleteBinding {D}.

(** A status, the headers that a creation sets, and the body. *)
Record Response (D : Type) := mkResponse { rp_Status : Z; rp_Location : string; rp_Replayed : bool; rp_Body : D }.
#[local] Arguments mkResponse {D}.

Definition APIPathPrefix : string := "/api".
Definition StatusOK : Z := 200.
Definition StatusCreated : Z := 201.
Definition StatusAccepted : Z := 202.

Section handlers.
Context {D : Type} (handlers : Handlers D).

#[local] Abbreviation relay := (h_Relay handlers).
#[local] Abbreviation task := (relay_Task (h_Relay handlers)).

Definition document (status : Z) (b : TrafficBinding) (session : ActiveSession) : Response D :=
  mkResponse status "" false (h_Document handlers b session).

(** [body] is the decoded request, [keys] the values of the header. *)
Definition Create (body : apiError + TaskSpec) (keys : list string) (identity : Identity) (session : ActiveSession) : Handler (Response D) :=
  spec ← api body;
  spec ← api (h_Normalize handlers spec);
  key ← api (IdempotencyKey keys);
  if max_int64 <? as_Generation session then rejects (internal task tt)
  else
  let owner := mkOwner (Subject identity) (as_ID session)
                 (TaskIDForIdempotency (as_ID session) (h_TaskType handlers) (Subject identity) key) (as_Generation session) in
  binding ← or_else id (h_NewBinding handlers identity session owner spec);
  '(current, created) ← or_else (trafficapi.Storage (task_errors task)) (EnsureSession (relay_Bindings relay) binding);
  mret (mkResponse (if created : bool then StatusCreated else StatusOK)
          (APIPathPrefix +:+ "/sessions/" +:+ as_ID session +:+ "/" +:+ h_PathSegment handlers +:+ "/" +:+ ow_TaskID owner
           +:+ "?namespace=" +:+ as_Namespace session)
          (negb created) (h_Document handlers current session)).

Definition Get (identity : Identity) (session : ActiveSession) (taskID : string) : Handler (Response D) :=
  binding ← OwnedBinding relay identity session taskID;
  mret (document StatusOK binding session).

Definition List (identity : Identity) (session : ActiveSession) : Handler (list D) :=
  stored ← or_else (internal task) (ListSessions (relay_Bindings relay) (as_Namespace session) (as_ID session));
  mret (map (fun b => h_Document handlers b session) (List.filter (fun b => Owns task b identity session) stored)).

Definition Pause (identity : Identity) (session : ActiveSession) (taskID : string) : Handler (Response D) :=
  OwnedBinding relay identity session taskID;;
  or_else (internal task) (relay_Release relay (as_Namespace session) taskID);;
  binding ← or_else (internal task) (GetSession (relay_Bindings relay) (as_Namespace session) taskID);
  mret (document StatusOK binding session).

(** The binding is read again for the answer, and its error is ignored. *)
Definition Resume (identity : Identity) (session : ActiveSession) (taskID : string) : Handler (Response D) :=
  binding ← OwnedBinding relay identity session taskID;
  if negb (bool_decide (ts_DesiredState (tb_Spec binding) = DesiredStatePaused)) then rejects (internal task tt)
  else
  or_else (internal task) (ResetRelay binding);;
  r ← outcome (GetSession (relay_Bindings relay) (as_Namespace session) taskID);
  match r with
  | inl _ => fails HandlerPanics
  | inr binding => mret (document StatusAccepted binding session)
  end.

Definition Delete (identity : Identity) (session : ActiveSession) (taskID : string) : Handler (Response D) :=
  binding ← OwnedBinding relay identity session taskID;
  or_else (internal task) (h_DeleteBinding handlers (as_Namespace session) taskID);;
  mret (document StatusOK binding session).
End handlers.

(** ** Exchange and mirror ([exchangeapi], [mirrorapi], [intercept.go]) *)

Definition exchange_task : Task := mkTask "Exchange" ModeExchange trafficcontrol.ModeExchange.
Definition mirror_task : Task := mkTask "Mirror" ModeMirror trafficcontrol.ModeMirror.
Definition preview_task : Task := mkTask "Preview" ModePreview trafficcontrol.ModePreview.

(** [kubernetes/service_resolver.go]; the protocols that are asked for fold to
    nothing outside ASCII. *)
Definition matches_port (requested : servicemodel.Port) (p : ServicePort) : bool :=
  (sp_Port p =? servicemodel.ServicePort requested) &&
  bool_decide (ToLower (backends.normalizedProtocol (sp_Protocol p)) = ToLower (servicemodel.Protocol requested)).
Fixpoint resolve_service_ports (service : TrafficBinding.Service) (requested : list servicemodel.Port) : option (list servicemodel.Port) :=
  match requested with
  | [] => Some []
  | r :: rest =>
      p ← List.find (matches_port r) (svc_Ports service);
      l ← resolve_service_ports service rest;
      Some (servicemodel.mkPort (sp_Name p) (sp_Port p) (strings_ToLower (backends.normalizedProtocol (sp_Protocol p))) :: l)
  end.

Definition ResolveService (identity : Identity) (namespace serviceName : string) (requested : list servicemodel.Port)
    : M W kube_error servicemodel.ResolvedService :=
  match provider_ClientFor identity with
  | Some e => fails e
  | None =>
      service ← (kc_Get (A := TrafficBinding.Service) (namespace, serviceName) : M W kube_error TrafficBinding.Service);
      if bool_decide (svc_Type service = "ExternalName") || bool_decide (svc_ClusterIP service ∈ [""; "None"])
      then fails (ApiError ("service " +:+ namespace +:+ "/" +:+ serviceName +:+ " cannot be resolved"))
      else match resolve_service_ports service requested with
           | None => fails (ApiError "requested port does not match the authoritative Service")
           | Some ports => mret (servicemodel.mkResolvedService (om_Name (svc_Meta service)) (svc_ClusterIP service)
                                   (SortFunc trafficapi.ComparePorts ports))
           end
  end.

Section intercept.
Context (manager : Manager) (ticks : nat).

(** [TrafficBindingInterceptResources] *)
Definition Capture (identity : Identity) (snapshot : ServiceInterceptSnapshot) : M W capture_error ServiceInterceptSnapshot :=
  match provider_ClientFor identity with Some e => fails (CaptureFailed "" e) | None => CaptureServiceIntercept snapshot end.

Definition Apply (snapshot : ServiceInterceptSnapshot) (interceptID : string) : M W client_error unit :=
  binding ← GetSession manager (si_Namespace snapshot) interceptID;
  failing_as snd (Activate manager ticks binding);;
  mret tt.

Definition Restore (namespace interceptID : string) : M W client_error unit := TrafficBindingClient.Pause manager ticks namespace interceptID.

Definition intercept_newBinding (task : Task) (identity : Identity) (session : ActiveSession) (owner : Owner) (spec : TaskSpec)
    : M W apiError TrafficBinding :=
  resolved ← failing_as (trafficapi.Target (task_errors task))
               (ResolveService identity (as_Namespace session) (sp_Service spec) (sp_Ports spec));
  checked (match NewPendingInterceptBinding (tk_Mode task) owner (as_Namespace session) (servicemodel.rs_Name resolved)
                   (servicemodel.rs_ClusterIP resolved) (servicemodel.rs_Ports resolved) (sp_LocalTargets spec) with
           | inl _ => inl (trafficapi.Internal (task_errors task))
           | inr b => inr b
           end).

Definition intercept_relay (task : Task) : Relay := mkRelay task manager ServiceNameFromTarget Restore.
Definition intercept_handlers {D} (task : Task) (taskType pathSegment : string) (document : TrafficBinding -> ActiveSession -> D) : Handlers D :=
  mkHandlers D (intercept_relay task) taskType pathSegment intercept_normalizeRequest (intercept_newBinding task) document
    (TrafficBindingClient.Delete manager ticks).

Definition invalid_ports (message : string) : apiError := mkApiError CodeInvalidArgument "" message.

Definition originalBackends (sets : list backends.BackendSet) : list trafficcontrol.BackendSet :=
  map (fun s => trafficcontrol.mkBackendSet (backends.Name s) (backends.ServicePort s) (strings_ToLower (backends.Protocol s))
         (map (fun t => trafficcontrol.mkBackendTarget (backends.Address t) (backends.Port t)) (backends.Targets s))) sets.

(** The steps that the two share; a mirror resolves the backends that its gateway
    goes on serving. *)
Definition intercept_Prepare (task : Task) (resolve : ServiceInterceptSnapshot -> string + list trafficcontrol.BackendSet)
    (relayID : string) (request : trafficcontrol.PrepareRequest) : Handler trafficcontrol.PrepareResponse :=
  '(identity, session, binding) ← PrepareBinding (intercept_relay task) relayID request;
  ports ← api (match trafficapi.InterceptPorts (tk_Name task) (trafficsession.Ports binding) (trafficcontrol.pr_Ports request) with
               | inl message => inl (invalid_ports message) | inr l => inr l end);
  let snapshot := mkServiceInterceptSnapshot (as_Namespace session) (ServiceNameFromTarget binding) None ports
                    (trafficcontrol.pr_GatewayIP request) [] false [] false in
  snapshot ← or_else (internal task) (Capture identity snapshot);
  backends ← api (match resolve snapshot with inl _ => inl (internal task tt) | inr l => inr l end);
  attached ← or_else (internal task)
               (AttachRelay binding relayID (trafficcontrol.pr_GatewayIP request) (trafficapi.ListenerPorts (trafficcontrol.pr_Ports request)));
  or_else (internal task) (Apply snapshot (ts_TaskID (tb_Spec attached)));;
  mret (trafficcontrol.mkPrepareResponse "" backends).

Definition exchange_Prepare : string -> trafficcontrol.PrepareRequest -> Handler trafficcontrol.PrepareResponse :=
  intercept_Prepare exchange_task (fun _ => inr []).
Definition mirror_Prepare : string -> trafficcontrol.PrepareRequest -> Handler trafficcontrol.PrepareResponse :=
  intercept_Prepare mirror_task
    (fun snapshot => match backends.ResolveSnapshotBackends snapshot with inl e => inl e | inr sets => inr (originalBackends sets) end).

(** ** Previews ([previewapi]) *)

(** [TrafficBindingResourceManager]: the name and the address of the Service. *)
Definition preview_Create (snapshot : PreviewServiceSnapshot) (previewID : string) : M W client_error string :=
  binding ← GetSession manager (ps_Namespace snapshot) previewID;
  active ← failing_as snd (Activate manager ticks binding);
  if negb (bool_decide (st_ServiceName (tb_Status active) = ps_Service snapshot)) || bool_decide (st_ServiceClusterIP (tb_Status active) = "")
  then fails (TrafficBindingClient.Rejected "ready TrafficBinding returned invalid Preview Service status")
  else mret (st_ServiceClusterIP (tb_Status active)).

Definition preview_relay : Relay := mkRelay preview_task manager ServiceNameFromPreview Restore.

Definition preview_newBinding (_ : Identity) (session : ActiveSession) (owner : Owner) (spec : TaskSpec) : M W apiError TrafficBinding :=
  mret (NewPendingPreviewBinding owner (as_Namespace session) (sp_Service spec) (sp_Ports spec) (sp_LocalTargets spec)).

Definition preview_handlers {D} (document : TrafficBinding -> ActiveSession -> D) : Handlers D :=
  mkHandlers D preview_relay "preview" "previews" preview_normalizeRequest preview_newBinding document
    (TrafficBindingClient.Delete manager ticks).

Definition preview_Prepare (relayID : string) (request : trafficcontrol.PrepareRequest) : Handler trafficcontrol.PrepareResponse :=
  '(_, session, binding) ← PrepareBinding preview_relay relayID request;
  ports ← api (match trafficapi.InterceptPorts (tk_Name preview_task) (trafficsession.Ports binding) (trafficcontrol.pr_Ports request) with
               | inl message => inl (invalid_ports message) | inr l => inr l end);
  let snapshot := mkPreviewServiceSnapshot (as_Namespace session) (ServiceNameFromPreview binding) ports (trafficcontrol.pr_GatewayIP request) in
  attached ← or_else (internal preview_task)
               (AttachRelay binding relayID (trafficcontrol.pr_GatewayIP request) (trafficapi.ListenerPorts (trafficcontrol.pr_Ports request)));
  clusterIP ← or_else (internal preview_task) (preview_Create snapshot (ts_TaskID (tb_Spec attached)));
  if bool_decide (clusterIP = "") then rejects (internal preview_task tt)
  else mret (trafficcontrol.mkPrepareResponse clusterIP []).
End intercept.

(** ** The gateway's API ([trafficcontrolapi]) *)

(** The coordinator of a mode. *)
Record Coordinator := mkCoordinator {
  co_Claim : string -> trafficcontrol.ClaimRequest -> Handler trafficcontrol.ClaimResponse;
  co_Prepare : string -> trafficcontrol.PrepareRequest -> Handler trafficcontrol.PrepareResponse;
  co_Heartbeat : string -> trafficcontrol.HeartbeatRequest -> Handler trafficcontrol.HeartbeatResponse;
  co_Finish : string -> trafficcontrol.FinishRequest -> Handler trafficcontrol.FinishResponse
}.

Definition invalid (message : string) : apiError := mkApiError CodeInvalidArgument "" message.

(** What an API offers the gateway. *)
Definition relay_coordinator (relay : Relay) (now : time)
    (prepare : string -> trafficcontrol.PrepareRequest -> Handler trafficcontrol.PrepareResponse) : Coordinator :=
  mkCoordinator (Claim relay now) prepare (Heartbeat relay now) (Finish relay).

(** [Dispatcher.modes] *)
Record Dispatcher := mkDispatcher { dp_exchange : Coordinator; dp_mirror : Coordinator; dp_preview : Coordinator }.
Definition coordinator_of (d : Dispatcher) (mode : string) : option Coordinator :=
  if bool_decide (mode = trafficcontrol.ModeExchange) then Some (dp_exchange d)
  else if bool_decide (mode = trafficcontrol.ModeMirror) then Some (dp_mirror d)
  else if bool_decide (mode = trafficcontrol.ModePreview) then Some (dp_preview d)
  else None.
Definition dispatched {A} (d : Dispatcher) (mode : string) (next : Coordinator -> Handler A) : Handler A :=
  match coordinator_of d mode with None => rejects (invalid "traffic mode is unsupported") | Some c => next c end.

Definition Dispatcher_coordinator (d : Dispatcher) : Coordinator := {|
  co_Claim := fun relayID request => dispatched d (trafficcontrol.cr_Mode request) (fun c => co_Claim c relayID request);
  co_Prepare := fun relayID request => dispatched d (trafficcontrol.pr_Mode request) (fun c => co_Prepare c relayID request);
  co_Heartbeat := fun relayID request => dispatched d (trafficcontrol.hr_Mode request) (fun c => co_Heartbeat c relayID request);
  co_Finish := fun relayID request => dispatched d (trafficcontrol.fr_Mode request) (fun c => co_Finish c relayID request) |}.

(** A request: the relay that the connection authenticates, and the decoded body. *)
Section requests.
Context (coordinator : Coordinator).

Definition authenticate (relay : option string) : Handler string :=
  match relay with
  | None => rejects (mkApiError CodeUnauthenticated "" "Relay workload identity is invalid")
  | Some relayID => mret relayID
  end.
Definition bound {R} (body : option R) (valid : R -> bool) (message : string) : Handler R :=
  match body with
  | Some request => if valid request then mret request else rejects (invalid message)
  | None => rejects (invalid message)
  end.

Definition claim (relay : option string) (body : option trafficcontrol.ClaimRequest) : Handler trafficcontrol.ClaimResponse :=
  relayID ← authenticate relay;
  request ← bound body (fun r => trafficcontrol.accepts (trafficcontrol.ClaimRequest_Validate r)) "traffic claim request is invalid";
  co_Claim coordinator relayID request.
Definition prepare (relay : option string) (body : option trafficcontrol.PrepareRequest) : Handler trafficcontrol.PrepareResponse :=
  relayID ← authenticate relay;
  request ← bound body (fun r => trafficcontrol.accepts (trafficcontrol.PrepareRequest_Validate r) && bool_decide (trafficcontrol.pr_RelayID r = relayID))
              "traffic prepare request is invalid";
  co_Prepare coordinator relayID request.
Definition heartbeat (relay : option string) (body : option trafficcontrol.HeartbeatRequest) : Handler trafficcontrol.HeartbeatResponse :=
  relayID ← authenticate relay;
  request ← bound body (fun r => trafficcontrol.accepts (trafficcontrol.HeartbeatRequest_Validate r) && bool_decide (trafficcontrol.hr_RelayID r = relayID))
              "traffic heartbeat request is invalid";
  co_Heartbeat coordinator relayID request.
Definition finish (relay : option string) (body : option trafficcontrol.FinishRequest) : Handler trafficcontrol.FinishResponse :=
  relayID ← authenticate relay;
  request ← bound body (fun r => trafficcontrol.accepts (trafficcontrol.FinishRequest_Validate r) && bool_decide (trafficcontrol.fr_RelayID r = relayID))
              "traffic finish request is invalid";
  co_Finish coordinator relayID request.
End requests.

(** [writeError] *)
Definition error_status (e : apiError) : Z :=
  match ae_Code e with
  | CodeUnauthenticated => 401
  | CodeForbidden => 403
  | CodeNotFound => 404
  | CodeConflict => 409
  | CodeInvalidArgument => 400
  | CodeUnavailable => 503
  | CodeVersionMismatch => 426
  | CodeRateLimited => 429
  | CodeInternal => 500
  end.
End api.
