(* ===== verification/TrafficAPIFacts.v ===== *)
(** * Properties of the traffic task APIs *)

From S2P Require Import ConcreteEnv ConcreteNetip TrafficBindingRuns.
From S2P Require Import Prelude GoLib GoText GoSort External RemoteTask Netip IdentityStore TrafficBinding KubeClient.
From S2P Require Import TrafficBindingStatus TrafficBindingReconciler KubeLogic TrafficBindingFacts TrafficControl ServiceBackends TrafficBindingClient.
From S2P Require Import TaskAPI SessionAPI TrafficTasks TrafficAPI.

(** ** Tasks of others *)

Section ownership.
Context {W : Type} `{KC : KubeClient W} `{KH : HashPackage} `{KI : UuidPackage} `{KS : Sha1Uuids} `{KU : UnicodePackage}
  `{KP : UpperPackage} `{KV : LabelValidation} `{KM : MetaPackage} `{KN : NameValidation} `{KT : NetipPackage}.
Context `{KL : !KubeLaws (W := W) eq}.

Lemma bind_inv {E A B} (m : M W E A) (f : A -> M W E B) w r w' : (m ≫= f) w = (r, w') ->
  (exists e, m w = (inl e, w') /\ r = inl e) \/ (exists a w1, m w = (inr a, w1) /\ f a w1 = (r, w')).
Proof. unfold mbind, M_bind. destruct (m w) as [[e|a] w1]; [intros [= <- <-]; left; eauto|right; eauto]. Qed.

Lemma quiet_get {A} `{Resource A} k w r w' : kc_Get (A := A) k w = (r, w') -> kc_cluster w' = kc_cluster w /\ found_as k r (kc_cluster w).
Proof. intros Hr. destruct (law_Get (A := A) (others := eq) k _ _ _ Hr) as [Hc Hf]. by rewrite <- Hc in *. Qed.

(** A session that is read is stored, under the name of the task. *)
Lemma quiet_GetSession manager namespace taskID w r w' : GetSession manager namespace taskID w = (r, w') ->
  kc_cluster w' = kc_cluster w /\
  (forall b, r = inr b -> exists name, NameForTask taskID = inr name /\
     trafficbindings (kc_cluster w) !! (TrimSpace namespace, name) = Some b /\ ts_TaskID (tb_Spec b) = taskID).
Proof.
  unfold GetSession, mbind, M_bind, checked, tried. destruct (NameForTask taskID) as [e|name]; [by intros [= <- <-]|].
  destruct (kc_Get _ w) as [x w1] eqn:Eg. destruct (quiet_get _ _ _ _ Eg) as [Hc Hf]. destruct x as [e|b].
  - destruct (IsNotFound e); by intros [= <- <-].
  - case_bool_decide as Ht; cbn; [|by intros [= <- <-]].
    case_bool_decide; cbn; intros [= <- <-]; (split; [done|]); [|done]. intros b0 [= <-]. by exists name.
Qed.

(** The binding of the task does not belong to the user's session, or is of another
    kind. *)
Definition not_owned (task : Task) (identity : Identity) (session : ActiveSession) (taskID : string) (c : Cluster) : Prop :=
  forall name b, NameForTask taskID = inr name -> trafficbindings c !! (TrimSpace (as_Namespace session), name) = Some b ->
  ts_IdentityID (tb_Spec b) <> Subject identity \/ ts_SessionID (tb_Spec b) <> as_ID session \/ ts_Mode (tb_Spec b) <> tk_Mode task.

Lemma not_owned_rejected relay identity session taskID w :
  not_owned (relay_Task relay) identity session taskID (kc_cluster w) ->
  exists e w', OwnedBinding relay identity session taskID w = (inl (Rejects e), w') /\ kc_cluster w' = kc_cluster w.
Proof.
  intros Hn. unfold OwnedBinding. case_bool_decide as Hu; [by eexists _, w|].
  unfold mbind, M_bind, outcome. destruct (GetSession _ _ _ w) as [r w1] eqn:Eg. destruct (quiet_GetSession _ _ _ _ _ _ Eg) as [Hc Hb].
  destruct r as [[]|b]; try by eexists _, w1. destruct (Hb b eq_refl) as (name & Hname & Hk & _).
  assert (Ho : Owns (relay_Task relay) b identity session = false).
  { unfold Owns, trafficsession.Owned. destruct (Hn name b Hname Hk) as [Hx|[Hx|Hx]];
      rewrite (bool_decide_eq_false_2 _ Hx); [done|by rewrite andb_false_r|by rewrite andb_false_r]. }
  rewrite Ho. by eexists _, w1.
Qed.

(** What users and gateways ask about one task in the name of a user. *)
Inductive task_request := GetTask | PauseTask | ResumeTask | DeleteTask.

Definition serve {D} (handlers : Handlers D) (request : task_request) (identity : Identity) (session : ActiveSession) (taskID : string)
    : M W handler_stop (Response D) :=
  match request with
  | GetTask => Get handlers identity session taskID
  | PauseTask => Pause handlers identity session taskID
  | ResumeTask => Resume handlers identity session taskID
  | DeleteTask => TrafficAPI.Delete handlers identity session taskID
  end.

(** C20 (safety). Nobody touches the task of somebody else: a request to show, pause,
    resume or delete a task that belongs to another user, another session or
    another kind of task is refused, and changes nothing in the cluster, whatever
    calls fail. *)
Theorem foreign_task_untouched {D} (handlers : Handlers D) request identity session taskID w r w' :
  not_owned (relay_Task (h_Relay D handlers)) identity session taskID (kc_cluster w) ->
  serve handlers request identity session taskID w = (r, w') ->
  kc_cluster w' = kc_cluster w /\ exists e, r = inl (Rejects e).
Proof.
  intros Hn. destruct (not_owned_rejected _ _ _ _ _ Hn) as (e & w1 & Hw & Hc).
  destruct request; cbn [serve]; unfold Get, Pause, Resume, TrafficAPI.Delete, mbind, M_bind; rewrite Hw; intros [= <- <-]; eauto.
Qed.

(** ** Repeated creations *)

(** A creation that finds its key taken changes nothing. *)
Lemma create_taken desired b w r w' : trafficbindings (kc_cluster w) !! object_key desired = Some b ->
  kc_Create desired w = (r, w') -> kc_cluster w' = kc_cluster w /\ exists e, r = inl e.
Proof.
  intros Hk Hr. destruct (law_Create_binding desired _ _ _ Hr) as (c & <- & Hcase).
  assert (Hno : forall a c', ~ created desired (kc_cluster w) a c'). { intros a c' (Hn & _). cbn in Hn. congruence. }
  destruct r as [e|a]; [|by destruct (Hno _ _ Hcase)]. destruct Hcase as [Hc|[a Ha]]; [by eauto|by destruct (Hno _ _ Ha)].
Qed.

(** New labels keep the spec and the status. *)
Lemma label_patch k l b w r w' : trafficbindings (kc_cluster w) !! k = Some b -> object_key b = k -> om_Deleting (tb_Meta b) = false ->
  kc_Patch b (with_labels l b) w = (r, w') ->
  (exists b', trafficbindings (kc_cluster w') !! k = Some b' /\ tb_Spec b' = tb_Spec b /\ tb_Status b' = tb_Status b) /\
  (forall b', r = inr b' -> tb_Spec b' = tb_Spec b /\ tb_Status b' = tb_Status b).
Proof.
  intros Hk Hkey Hd Hr. destruct (law_Patch TrafficBinding _ _ _ _ _ _ Hr) as (c & <- & Hcase).
  assert (Heff : forall a c', patched b (with_labels l b) (kc_cluster w) a c' ->
    (exists b', trafficbindings c' !! k = Some b' /\ tb_Spec b' = tb_Spec b /\ tb_Status b' = tb_Status b) /\
    tb_Spec a = tb_Spec b /\ tb_Status a = tb_Status b).
  { intros a c' (current & Hcur & -> & ->). change (object_key (with_labels l b)) with (object_key b) in *. rewrite Hkey in *.
    assert (current = b) as -> by (cbn in Hcur; congruence).
    assert (Hs : tb_Spec (r_merge b (with_labels l b) b) = tb_Spec b) by (cbn; apply merge_spec_same).
    split; [|done]. exists (r_merge b (with_labels l b) b). split; [|done]. unfold put, gone. cbn. rewrite Hd. cbn.
    by rewrite lookup_insert_eq. }
  destruct r as [e|a]; [destruct Hcase as [->|[a Ha]]|]; (split; [|try done]); eauto.
  - by destruct (Heff _ _ Ha).
  - by destruct (Heff _ _ Hcase).
  - intros b' [= <-]. by destruct (Heff _ _ Hcase).
Qed.

(** What the control plane asks to store for a binding. *)
Definition wanted (binding : TrafficBinding) : TrafficBindingSpec :=
  if bool_decide (ts_DesiredState (tb_Spec binding) = "") then set_desired DesiredStateActive (tb_Spec binding) else tb_Spec binding.

(** C23 (functional). A task is created once.  When a binding of that task is stored,
    whatever it looks like, a creation stores no other: it ends in an error, or
    answers with the stored binding, which then has the workload that was asked for,
    and reports that it is not new; the spec and the status of the stored binding
    are as before. *)
Theorem stored_task_not_replaced manager binding name b w r w' :
  NameForTask (ts_TaskID (tb_Spec binding)) = inr name ->
  trafficbindings (kc_cluster w) !! (TrimSpace (om_Namespace (tb_Meta binding)), name) = Some b ->
  om_Deleting (tb_Meta b) = false -> object_key b = (TrimSpace (om_Namespace (tb_Meta binding)), name) ->
  EnsureSession manager binding w = (r, w') ->
  (exists b', trafficbindings (kc_cluster w') !! (TrimSpace (om_Namespace (tb_Meta binding)), name) = Some b' /\
     tb_Spec b' = tb_Spec b /\ tb_Status b' = tb_Status b) /\
  (forall b' created, r = inr (b', created) ->
     created = false /\ tb_Spec b' = tb_Spec b /\ tb_Status b' = tb_Status b /\ sameBindingWorkload (tb_Spec b) (wanted binding) = true).
Proof.
  intros Hname Hk Hd Hkey. unfold EnsureSession. case_bool_decide; [intros [= <- <-]; split; [by exists b|done]|].
  intros [(e & Hc & _)|(name' & w0 & Hc & Hr)]%bind_inv; unfold checked in Hc; rewrite Hname in Hc; [discriminate|]. injection Hc as <- <-.
  cbn zeta in Hr.
  set (desired := setLabels manager (if bool_decide _ then _ else _)) in Hr.
  assert (Hspec : tb_Spec desired = wanted binding). { unfold desired, wanted. cbn. by case_bool_decide. }
  assert (Htask : ts_TaskID (tb_Spec desired) = ts_TaskID (tb_Spec binding)). { rewrite Hspec. unfold wanted. by case_bool_decide. }
  assert (Hkd : object_key desired = (TrimSpace (om_Namespace (tb_Meta binding)), name)). { unfold desired. by case_bool_decide. }
  clearbody desired. apply bind_inv in Hr as [(e & Hc & _)|(x & w1 & Hc & Hr)].
  { unfold tried in Hc. by destruct (kc_Create _ w). }
  unfold tried in Hc. destruct (kc_Create _ w) as [x1 w1'] eqn:Ec. injection Hc as -> ->.
  rewrite <- Hkd in *. destruct (create_taken _ b _ _ _ Hk Ec) as [Hc [e ->]]. rewrite <- Hc in Hk.
  destruct (negb (IsAlreadyExists e)); [injection Hr as <- <-; split; [by exists b|done]|].
  rewrite Htask in Hr. apply bind_inv in Hr as [(e1 & Hg & ->)|(b1 & w2 & Hg & Hr)]; destruct (quiet_GetSession _ _ _ _ _ _ Hg) as [Hc2 Hb].
  { split; [exists b; by rewrite Hc2|done]. }
  rewrite <- Hc2 in Hk. destruct (Hb b1 eq_refl) as (name1 & Hname1 & Hk1 & _). rewrite TrimSpace_idem in Hk1.
  assert (name1 = name) as -> by congruence. rewrite <- Hkd, <- Hc2 in Hk1. assert (b1 = b) as -> by congruence.
  rewrite Hspec in Hr. destruct (sameBindingWorkload _ _) eqn:Hsame; [|injection Hr as <- <-; split; [by exists b|done]].
  cbn [negb orb] in Hr. case_bool_decide; cbn [negb] in Hr; [|injection Hr as <- <-; split; [by exists b|done]].
  case_bool_decide; cbn [negb] in Hr; [injection Hr as <- <-; split; [by exists b|by intros ? ? [= <- <-]]|].
  unfold patch in Hr. apply bind_inv in Hr as [(e1 & Hp & ->)|(b2 & w3 & Hp & Hr)]; unfold wrapping in Hp;
    destruct (kc_Patch _ _ w2) as [x2 w2'] eqn:Ep; destruct (label_patch _ _ _ _ _ _ Hk Hkey Hd Ep) as [Hstored Hret];
    destruct x2 as [e2|b3]; try discriminate; injection Hp as <- ->.
  - by split.
  - injection Hr as <- <-. split; [done|]. intros b' created [= <- <-]. destruct (Hret _ eq_refl). by split_and!.
Qed.
End ownership.

(** ** Exchanges and mirrors of existing Services *)

Section intercepts.
Context `{KN : NameValidation, KT : NetipPackage, KU : UnicodePackage, KP : UpperPackage}.
Hypothesis upper_tcp : strings_ToUpper "tcp" = TransportProtocolTCP.
Hypothesis upper_udp : strings_ToUpper "udp" = TransportProtocolUDP.
(** [strings.ToLower] of a protocol, which is ASCII. *)
Hypothesis lower_protocol : forall s, ToLower s ∈ ["tcp"; "udp"] -> strings_ToLower s = ToLower s.

Lemma named_inj {A} (f : A -> string) l p q : NoDup (named (map f l)) -> p ∈ l -> q ∈ l -> f p = f q -> f p <> "" -> p = q.
Proof.
  unfold named. induction l as [|x l IH]; [by intros _ ?%elem_of_nil|]. cbn [map]. intros Hn Hp Hq Heq Hne.
  assert (Hin : forall y, y ∈ l -> f y = f p -> f p ∈ filter (fun n => n <> "") (map f l)).
  { intros y Hy Hf. apply list_elem_of_filter. split; [done|]. rewrite <- Hf. by apply list_elem_of_fmap_2. }
  destruct (decide (f x = "")) as [He|Hx].
  - rewrite filter_cons_False in Hn by tauto. apply elem_of_cons in Hp as [->|Hp]; [done|]. apply elem_of_cons in Hq as [->|Hq]; [congruence|].
    by apply IH.
  - rewrite filter_cons_True in Hn by done. inversion Hn as [|? ? Hnot Hn']; subst.
    apply elem_of_cons in Hp as [->|Hp], Hq as [->|Hq]; [done| | |by apply IH].
    + exfalso. apply Hnot. by apply (Hin q).
    + exfalso. apply Hnot. rewrite <- Heq. by apply (Hin p).
Qed.

Lemma normalize_ports_ok seen ports l : trafficapi.normalize_ports seen ports = inr l ->
  length l = length ports /\
  Forall (fun p => trafficapi.valid_port (servicemodel.ServicePort p) (servicemodel.Protocol p) = true /\ trafficapi.port_key p ∉ seen) l /\
  NoDup (map trafficapi.port_key l).
Proof.
  revert seen l. induction ports as [|p ports IH]; intros seen l; cbn [trafficapi.normalize_ports]; [intros [= <-]; by split_and!; constructor|].
  cbn zeta. destruct (trafficapi.valid_port _ _) eqn:Hv; [|done]. cbn [negb]. case_bool_decide as Hk; [done|].
  destruct (trafficapi.normalize_ports _ _) as [e|rest] eqn:Hr; [done|]. intros [= <-]. destruct (IH _ _ Hr) as (Hlen & Hall & Hnk).
  rewrite Forall_forall in Hall. split; [cbn; by rewrite Hlen|]. split.
  - constructor; [done|]. apply Forall_forall. intros x Hx. destruct (Hall x Hx) as [? Hxk]. apply not_elem_of_union in Hxk as [_ ?]. done.
  - constructor; [|done]. intros Hin. apply list_elem_of_fmap in Hin as (x & Hx & Hin). destruct (Hall x Hin) as [_ Hxk].
    apply Hxk. rewrite <- Hx. set_solver.
Qed.

(** What a Service has to be: its ports are named apart, with names that are labels. *)
Definition named_apart (service : TrafficBinding.Service) : Prop :=
  NoDup (named (map sp_Name (svc_Ports service))) /\
  Forall (fun p => sp_Name p <> "" -> IsDNS1123Label (sp_Name p) = []) (svc_Ports service).

(** The port of the Service that answers a request. *)
Definition answers (service : TrafficBinding.Service) (r x : servicemodel.Port) : Prop :=
  exists p, p ∈ svc_Ports service /\ servicemodel.Name x = sp_Name p /\ sp_Port p = servicemodel.ServicePort r /\
  ToLower (backends.normalizedProtocol (sp_Protocol p)) = servicemodel.Protocol r /\
  servicemodel.ServicePort x = servicemodel.ServicePort r /\ servicemodel.Protocol x = servicemodel.Protocol r.

Lemma resolve_service_ports_ok service requested l :
  Forall (fun r => trafficapi.valid_port (servicemodel.ServicePort r) (servicemodel.Protocol r) = true) requested ->
  resolve_service_ports service requested = Some l -> Forall2 (answers service) requested l.
Proof.
  revert l. induction requested as [|r requested IH]; intros l Hv; cbn [resolve_service_ports]; [by intros [= <-]; constructor|].
  apply Forall_cons in Hv as [Hr Hv]. destruct (List.find (matches_port r) (svc_Ports service)) as [p|] eqn:Hf; [|done]. cbn.
  destruct (resolve_service_ports service requested) as [rest|]; [|done]. cbn. intros [= <-]. constructor; [|by apply IH].
  apply find_some in Hf as [Hin Hm]. unfold matches_port in Hm. apply andb_true_iff in Hm as [Hn%Z.eqb_eq Hp%bool_decide_eq_true].
  destruct (valid_port_spec _ _ Hr) as [_ Hpr].
  assert (Hl : ToLower (backends.normalizedProtocol (sp_Protocol p)) = servicemodel.Protocol r). { rewrite Hp. by destruct Hpr as [-> | ->]. }
  exists p. split; [by apply list_elem_of_In|]. split_and!; try done. cbn. rewrite lower_protocol; [done|]. rewrite Hl.
  destruct Hpr as [-> | ->]; set_solver.
Qed.

Lemma answered_ports_normal service requested l :
  1 <= len requested <= 64 -> named_apart service ->
  Forall (fun r => trafficapi.valid_port (servicemodel.ServicePort r) (servicemodel.Protocol r) = true) requested ->
  NoDup (map trafficapi.port_key requested) -> Forall2 (answers service) requested l -> normal_ports l.
Proof.
  intros Hlen [Hnames Hlabels] Hv Hnd H. pose proof (Forall2_length _ _ _ H) as Hl. split; [unfold len in *; by rewrite <- Hl|].
  rewrite Forall_forall in Hlabels. clear Hlen Hl. induction H as [|r x requested l (p & Hin & Hn & Hp & Hpr & H1 & H2) H IH]; [by split_and!; constructor|].
  apply Forall_cons in Hv as [Hr Hv]. cbn [map] in Hnd. inversion Hnd as [|? ? Hnot Hnd']; subst.
  destruct (IH Hv Hnd') as (Hall & Hk & Hnn).
  assert (Hkey : forall y, y ∈ l -> exists r', r' ∈ requested /\ answers service r' y).
  { intros y (i & Hy)%list_elem_of_lookup. destruct (Forall2_lookup_r _ _ _ _ _ H Hy) as (r' & Hr' & Ha). exists r'.
    split; [by apply (list_elem_of_lookup_2 _ i)|done]. }
  split; [|split].
  - constructor; [|done]. rewrite H1, H2, Hn. split; [done|]. by apply Hlabels.
  - cbn [map]. constructor; [|done]. intros Hi. apply list_elem_of_fmap in Hi as (y & Hy & Hi). destruct (Hkey y Hi) as (r' & Hr' & (q & _ & _ & _ & _ & Hq1 & Hq2)).
    apply Hnot. apply list_elem_of_fmap. exists r'. split; [|done]. revert Hy. unfold trafficapi.port_key. by rewrite H1, H2, Hq1, Hq2.
  - unfold named in *. cbn [map]. destruct (decide (servicemodel.Name x = "")) as [He|Hne]; [by rewrite filter_cons_False by tauto|].
    rewrite filter_cons_True by done. constructor; [|done]. intros Hi. apply list_elem_of_filter in Hi as [_ Hi].
    apply list_elem_of_fmap in Hi as (y & Hy & Hi). destruct (Hkey y Hi) as (r' & Hr' & (q & Hqin & Hq & Hq1 & Hq2 & _)).
    assert (p = q) as <-. { apply (named_inj sp_Name (svc_Ports service)); [done|done|done|congruence|congruence]. }
    apply Hnot. apply list_elem_of_fmap. exists r'. split; [|done]. unfold trafficapi.port_key. congruence.
Qed.

(** C32 (refinement). The operator accepts every exchange and every mirror: the
    binding the control plane stores for a request that passed its checks and that
    it could resolve against the Service is valid for the operator, and so is that
    binding once a gateway has attached a relay. *)
Theorem intercept_task_accepted mode owner namespace spec spec' service ports :
  mode ∈ [ModeExchange; ModeMirror] -> named_apart service -> local_ports_fit spec -> ok_task_owner owner ->
  intercept_normalizeRequest spec = inr spec' -> resolve_service_ports service (sp_Ports spec') = Some ports ->
  exists b, NewPendingInterceptBinding mode owner namespace (sp_Service spec') (svc_ClusterIP service)
              (SortFunc trafficapi.ComparePorts ports) (sp_LocalTargets spec') = inr b /\ accepted_throughout b.
Proof.
  intros Hmode Hnamed Hfit Ho. unfold intercept_normalizeRequest, trafficapi.NormalizeServicePorts. cbn zeta.
  case_bool_decide as Hl; [|done]. cbn [negb]. case_bool_decide as Hne; [done|].
  destruct (64 <? len (sp_Ports spec)) eqn:Hmax; [done|]. cbn [orb]. apply Z.ltb_ge in Hmax.
  destruct (trafficapi.normalize_ports _ _) as [e|l] eqn:Hp; [done|]. intros Hw Hres.
  destruct (with_targets_ok _ _ _ _ Hw Hfit) as (Hs & Hps & Ht). rewrite Hps in Hres. rewrite Hs.
  destruct (normalize_ports_ok _ _ _ Hp) as (Hlen & Hall & Hnd). pose proof (SortFunc_perm trafficapi.ComparePorts l) as Hperm.
  assert (Hv : Forall (fun r => trafficapi.valid_port (servicemodel.ServicePort r) (servicemodel.Protocol r) = true) (SortFunc trafficapi.ComparePorts l)).
  { rewrite Hperm. eapply Forall_impl; [exact Hall|]. by intros x []. }
  assert (Hnormal : normal_ports ports).
  { apply (answered_ports_normal service (SortFunc trafficapi.ComparePorts l)); try done.
    - unfold len in *. rewrite Hperm, Hlen. destruct (sp_Ports spec); [done|]. cbn in *. lia.
    - by rewrite Hperm.
    - by apply resolve_service_ports_ok. }
  unfold NewPendingInterceptBinding. rewrite bool_decide_eq_true_2 by done. cbn [negb]. eexists. split; [done|].
  apply stages_accepted; try done.
  - apply pending_ports_ok; [done|done|done|]. eapply normal_ports_perm; [symmetry; apply SortFunc_perm|done].
  - apply Forall_forall. intros x Hx. by apply list_elem_of_fmap in Hx as (p & -> & _).
Qed.
End intercepts.

(** * The traffic task APIs at work

    Witnesses of their properties, and two ways in which they go wrong. *)


#[local] Instance quiet_server : KubeLaws (W := Server) eq := sample_laws eq (fun c => eq_refl).

(** ** A session and its tasks *)

Definition dev_session : ActiveSession := mkActiveSession "6f9619ff-8b86-4d11-b42d-00c04fc964ff" "shop" 1 0 "".
Definition dev : Identity := mkIdentity "dev" "oidc" "" "" [] "device" "" 0.
Definition stranger : Identity := mkIdentity "stranger" "oidc" "" "" [] "device" "" 0.

#[local] Instance sample_clients : ClientProvider := {| provider_ClientFor := fun _ => None |}.

Definition exchanges : Handlers (W := Server) string :=
  intercept_handlers sample_manager 0 exchange_task "exchange" "exchanges" (fun b _ => ts_TaskID (tb_Spec b)).

(** ** Tasks of others, repeated creations *)

#[local] Opaque exchanged paused stored_exchange.

(** The exchange belongs to another. *)
Lemma stranger_owns_nothing : not_owned exchange_task stranger dev_session task_id (kc_cluster exchanged).
Proof.
  intros name b Hn Hb. left.
  assert (He : Some (stored_exchange exchanged) = Some b).
  { rewrite <- Hb. assert (name = exchange_name) as ->; [|vm_compute; reflexivity].
    assert (Hx : NameForTask task_id = inr exchange_name) by (vm_compute; reflexivity). congruence. }
  rewrite <- (Some_inj _ _ He). apply (bool_decide_unpack _). vm_compute. exact I.
Qed.

Lemma foreign_task_untouched_witness :
  kc_cluster (serve exchanges PauseTask stranger dev_session task_id exchanged).2 = kc_cluster exchanged /\
  exists e, (serve exchanges PauseTask stranger dev_session task_id exchanged).1 = inl (Rejects e).
Proof.
  exact (foreign_task_untouched exchanges PauseTask stranger dev_session task_id exchanged _ _ stranger_owns_nothing
           (surjective_pairing (serve exchanges PauseTask stranger dev_session task_id exchanged))).
Defined.

Definition same_exchange : TrafficBinding := mkTrafficBinding (mkObjectMeta "shop" "" "" 0 None None [] [] false) exchange_spec no_status.

Lemma exchange_name_is : NameForTask task_id = inr exchange_name.
Proof. vm_compute. reflexivity. Qed.
Lemma exchange_is_stored :
  trafficbindings (kc_cluster exchanged) !! (TrimSpace "shop", exchange_name) = Some (stored_exchange exchanged) /\
  om_Deleting (tb_Meta (stored_exchange exchanged)) = false /\ object_key (stored_exchange exchanged) = (TrimSpace "shop", exchange_name).
Proof. vm_compute. by repeat split. Qed.

Lemma stored_task_not_replaced_witness :
  exists b', trafficbindings (kc_cluster (EnsureSession sample_manager same_exchange exchanged).2) !! (TrimSpace "shop", exchange_name) = Some b' /\
    tb_Spec b' = tb_Spec (stored_exchange exchanged) /\ tb_Status b' = tb_Status (stored_exchange exchanged).
Proof.
  exact (proj1 (stored_task_not_replaced sample_manager same_exchange exchange_name (stored_exchange exchanged) exchanged _ _
           exchange_name_is (proj1 exchange_is_stored) (proj1 (proj2 exchange_is_stored)) (proj2 (proj2 exchange_is_stored))
           (surjective_pairing (EnsureSession sample_manager same_exchange exchanged)))).
Defined.

(** ** Requests that are accepted *)

Definition sample_owner_of_task : Owner := mkOwner "dev" "6f9619ff-8b86-4d11-b42d-00c04fc964ff" task_id 1.
Definition web_request : TaskSpec :=
  mkTaskSpec " web" [servicemodel.mkPort "" 80 "TCP"] [servicemodel.mkLocalTarget "tcp" 80 "" 3000].

Definition web_binding : TrafficBinding :=
  NewPendingPreviewBinding sample_owner_of_task "shop" "web" [servicemodel.mkPort "tcp-80" 80 "tcp"]
    [servicemodel.mkLocalTarget "tcp" 80 "127.0.0.1" 3000].

Lemma upper_tcp_is : strings_ToUpper "tcp" = TransportProtocolTCP.
Proof. vm_compute. reflexivity. Qed.
Lemma lower_is s : ToLower s ∈ ["tcp"; "udp"] -> strings_ToLower s = ToLower s.
Proof. reflexivity. Qed.
Lemma upper_udp_is : strings_ToUpper "udp" = TransportProtocolUDP.
Proof. vm_compute. reflexivity. Qed.

Lemma preview_task_accepted_witness : accepted_throughout web_binding.
Proof.
  apply (preview_task_accepted upper_tcp_is upper_udp_is sample_owner_of_task "shop" web_request
           (mkTaskSpec "web" [servicemodel.mkPort "tcp-80" 80 "tcp"] [servicemodel.mkLocalTarget "tcp" 80 "127.0.0.1" 3000])).
  - discriminate.
  - constructor; [|constructor]. cbn. lia.
  - split; [vm_compute; reflexivity|]. split; [vm_compute; reflexivity|]. split; [vm_compute; discriminate|].
    split; vm_compute; discriminate.
  - vm_compute. reflexivity.
Defined.

Lemma intercept_task_accepted_witness :
  exists b, NewPendingInterceptBinding ModeExchange sample_owner_of_task "shop" "web" "10.96.0.7"
              (SortFunc trafficapi.ComparePorts [servicemodel.mkPort "http" 80 "tcp"])
              [servicemodel.mkLocalTarget "tcp" 80 "127.0.0.1" 3000] = inr b /\ accepted_throughout b.
Proof.
  apply (intercept_task_accepted upper_tcp_is upper_udp_is lower_is ModeExchange sample_owner_of_task "shop" web_request
           (mkTaskSpec "web" [servicemodel.mkPort "" 80 "tcp"] [servicemodel.mkLocalTarget "tcp" 80 "127.0.0.1" 3000]) web).
  - apply (bool_decide_unpack _). vm_compute. exact I.
  - split; [apply (bool_decide_unpack _); vm_compute; exact I|]. constructor; [|constructor]. intros _. reflexivity.
  - constructor; [|constructor]. cbn. lia.
  - split; [vm_compute; reflexivity|]. split; [vm_compute; reflexivity|]. split; [vm_compute; discriminate|].
    split; vm_compute; discriminate.
  - vm_compute. reflexivity.
  - vm_compute. reflexivity.
Defined.

(** ** Backends *)

Definition mirrored : ServiceInterceptSnapshot :=
  mkServiceInterceptSnapshot "shop" "web" None [mkInterceptPort "http" "TCP" 80 40001] "10.1.2.3" [web_slice] true [] false.

Lemma backends_from_snapshot_witness :
  exists l, Permutation [backends.mkBackendSet "http" 80 "TCP" [backends.mkBackendTarget "10.0.0.3" 8080]] l /\
    Forall2 (serves mirrored) (si_Ports mirrored) l.
Proof. apply backends_from_snapshot. vm_compute. reflexivity. Defined.

(** ** Two relays *)

(** The exchange before a relay has claimed it. *)
Definition pending_exchange : TrafficBinding :=
  set_status no_status (set_spec (set_relay None [mkTrafficPort "http" 80 None "127.0.0.1" (Some 3000) "TCP"] (tb_Spec exchange)) exchange).
Definition waiting : Server := mkServer (mkCluster ∅ {[("shop", "web") := web]} ∅ ∅ {[exchange_key := pending_exchange]}) [].

Definition claim_by (relay : string) (b : TrafficBinding) (w : Server) := ClaimRelay 0 b relay w.
Definition listeners : gmap string Z := {[portKey "TCP" 80 := 40001]}.

Definition first_claim := claim_by "relay-a" pending_exchange waiting.
Definition second_claim := claim_by "relay-b" pending_exchange first_claim.2.
(** The first relay attaches what it read after its claim. *)
Definition attached_exchange := AttachRelay (stored_exchange first_claim.2) "relay-a" "10.1.2.3" listeners second_claim.2.

Definition succeeded {E A} (r : E + A) : bool := match r with inr _ => true | inl _ => false end.

(** A task can be claimed twice: the patch of a claim does not depend on
    the version that was read, so that two relays which both read the task before
    either has claimed it both succeed; the binding then belongs to the second, has
    the relay address of the first, and the first can neither keep the claim alive
    nor finish it. *)
Theorem task_claimed_twice :
  (succeeded first_claim.1, succeeded second_claim.1, succeeded attached_exchange.1) = (true, true, true) /\
  (st_RelayOwnerID (tb_Status (stored_exchange attached_exchange.2)), ts_Relay (tb_Spec (stored_exchange attached_exchange.2)))
    = ("relay-b", Some "10.1.2.3") /\
  RelayHeartbeat 0 (stored_exchange attached_exchange.2) "relay-a" attached_exchange.2 = (inl not_owner, attached_exchange.2) /\
  FinishRelay (stored_exchange attached_exchange.2) "relay-a" "" attached_exchange.2 = (inl not_owner, attached_exchange.2).
Proof. vm_compute. by repeat split. Qed.

(** ** A resumption whose answer cannot be read *)

(** A resumption that has succeeded can end in a panic: the error of
    reading the task for the answer is ignored, and the missing task is shown. *)
Theorem resume_panics :
  match Resume exchanges dev dev_session task_id (with_faults [Works; Works; Works; Refused] paused) with
  | (inl HandlerPanics, w) =>
      ts_DesiredState (tb_Spec (stored_exchange w)) = DesiredStateActive /\ ts_Relay (tb_Spec (stored_exchange w)) = None
  | _ => False
  end.
Proof. vm_compute. by split. Qed.
