(* ===== verification/GatewayServer.v ===== *)
(** * Logical connections of the Gateway ([internal/gateway/gateway.go], [traffic.go])

    A logical stream of an authenticated WebSocket either keeps the network of a
    Session registered (a control stream) or carries a traffic task.  The
    goroutines of the streams share the tables of the server; each access under
    its mutex is a step, and the steps of different streams interleave. *)

From S2P Require Import StorageEngine.
From S2P Require Import Prelude GoLib GoText External Utils ConcreteEnv RelayTicket Netip ConcreteNetip NetworkSpec NetworkSpecFacts.
From S2P Require Import TrafficControl WireReader Tunnel.

(** ** Data *)

Record SessionAuthorization := mkSessionAuthorization {
  sa_RequestID : string;
  sa_IdentityID : string;
  sa_Groups : list string;
  sa_DeviceID : string;
  sa_SessionID : string;
  sa_Generation : Z;
  sa_TicketID : string;
  sa_Namespace : string;
  sa_NetworkSpecHash : string
}.

Record requiredAuthorization := mkRequired {
  requestID : string;
  ticketID : string;
  token : SessionToken;
  namespace : string;
  networkSpecHash : string;
  ra_identity : trafficcontrol.Identity
}.

Record tenantNetwork := mkTenantNetwork { hash : string; tn_namespace : string }.

#[export] Instance tenantNetwork_eq_dec : EqDecision tenantNetwork. Proof. solve_decision. Defined.

(** [traffic] and [forward] say whether a traffic handler and a forward runtime
    are set; the latter does not change.  Connections are numbered. *)
Record Server := mkServer {
  tenants : gmap SessionToken Z;
  networks : gmap SessionToken tenantNetwork;
  tracked : gset nat;
  traffic : bool;
  draining : bool;
  forward : bool
}.

Definition NewServer (forward : bool) : Server := mkServer ∅ ∅ ∅ false false forward.

Definition set_tracked (s : Server) (c : gset nat) : Server :=
  mkServer (tenants s) (networks s) c (traffic s) (draining s) (forward s).
Definition set_tables (s : Server) (t : gmap SessionToken Z) (n : gmap SessionToken tenantNetwork) : Server :=
  mkServer t n (tracked s) (traffic s) (draining s) (forward s).
Definition SetTrafficHandler (s : Server) (set : bool) : Server :=
  mkServer (tenants s) (networks s) (tracked s) set (draining s) (forward s).
Definition BeginDrain (s : Server) : Server :=
  mkServer (tenants s) (networks s) (tracked s) (traffic s) true (forward s).
Definition Draining (s : Server) : bool := draining s.
Definition ActiveConnections (s : Server) : Z := Z.of_nat (size (tracked s)).

(** ** Steps on the shared tables *)

Definition trackConnection (s : Server) (connection : nat) : bool * Server :=
  if draining s then (false, s) else (true, set_tracked s ({[connection]} ∪ tracked s)).

Definition untrackConnection (s : Server) (connection : nat) : Server :=
  if bool_decide (connection ∈ tracked s) then set_tracked s (tracked s ∖ {[connection]}) else s.

Definition tenant_count (s : Server) (t : SessionToken) : Z := default 0 (tenants s !! t).

(** The locked part of [handleControl]. *)
Definition register_network (s : Server) (t : SessionToken) (h ns : string) : result unit * Server :=
  let conflict := match networks s !! t with
                  | Some existing => negb (bool_decide (hash existing = h)) || negb (bool_decide (tn_namespace existing = ns))
                  | None => false
                  end in
  if conflict then (Err (NewError "session NetworkSpec changed"), s)
  else (Ok tt, set_tables s (<[t := tenant_count s t + 1]> (tenants s)) (<[t := mkTenantNetwork h ns]> (networks s))).

Definition removeControl (s : Server) (t : SessionToken) : Server :=
  if tenant_count s t <=? 1 then set_tables s (delete t (tenants s)) (delete t (networks s))
  else set_tables s (<[t := tenant_count s t - 1]> (tenants s)) (networks s).

(** The caller's authorization is never nil. *)
Definition authorizedNetwork (s : Server) (t : SessionToken) (required : requiredAuthorization) : result unit :=
  if tenant_count s t <=? 0 then Err (NewError "gateway session is not active")
  else match networks s !! t with
       | Some network =>
           require (bool_decide (hash network = networkSpecHash required) && bool_decide (tn_namespace network = namespace required))
             (NewError "gateway NetworkSpec authorization is not active")
       | None => Err (NewError "gateway NetworkSpec authorization is not active")
       end.

(** ** What a connection asks for *)

Definition validNetworkSpecHash (value : string) : bool :=
  (slen value =? 64) && all_bytes (fun b => is_digit b || byte_in x61 x66 b) value.

(** How the first message of a stream ends: with a status written, or not, and
    the connection closed; in a panic; or with what is to be done. *)
Inductive opening :=
| OpenClosed (status : option string)
| OpenPanics
| OpenControl (spec : Spec) (hash : string)
| OpenTraffic (request : TrafficOpenRequest).

Section requests.
Context `{UP : UuidPackage} `{HP : HashPackage} `{NP : NetipPackage} `{JS : JsonCodec Spec} `{JU : JsonCodec unit}.

Definition identity_of (a : SessionAuthorization) : trafficcontrol.Identity :=
  trafficcontrol.mkIdentity (sa_IdentityID a) (sa_Groups a) (sa_DeviceID a) (sa_SessionID a) (sa_Generation a) (sa_Namespace a).

(** [ServeConnForAuthorizationContext] before the connection is tracked; the
    reason it is rejected with is only logged. *)
Definition required_authorization (a : SessionAuthorization) : string + requiredAuthorization :=
  match RelaySessionToken (sa_SessionID a) (sa_Generation a) with
  | Err _ => inl "invalid_session"
  | Ok t =>
      if negb (validNetworkSpecHash (sa_NetworkSpecHash a)) then inl "invalid_network_spec"
      else if negb (ValidLabel (sa_Namespace a)) then inl "invalid_namespace"
      else inr (mkRequired (sa_RequestID a) (sa_TicketID a) t (sa_Namespace a) (sa_NetworkSpecHash a) (identity_of a))
  end.

(** [handle] up to the point where it looks at the shared tables. *)
Definition read_opening (required : requiredAuthorization) (client : Reader) : opening :=
  match ReadSessionHeader client with
  | (Err _, _) => OpenClosed None
  | (Ok header, client) =>
      if negb (bool_decide (Token header = token required)) then OpenClosed (Some "gateway session does not match RelayTicket")
      else if bool_decide (Command header = CommandControl) then
        match ReadAuthorizedControlSpec client with
        | (Ok None, _) => OpenPanics
        | (Ok (Some (Ok spec)), _) =>
            match Hash spec with
            | None => OpenPanics
            | Some (Ok h) =>
                if bool_decide (h = networkSpecHash required) then OpenControl spec h
                else OpenClosed (Some "NetworkSpec does not match RelayTicket")
            | Some (Err _) => OpenClosed (Some "NetworkSpec does not match RelayTicket")
            end
        | (Err _, _) | (Ok (Some (Err _)), _) => OpenClosed (Some "authorized NetworkSpec is invalid")
        end
      else if bool_decide (Command header = CommandTraffic) then
        match ReadTrafficOpenBody client with
        | (Err _, _) => OpenClosed (Some "traffic request is invalid")
        | (Ok request, _) => OpenTraffic request
        end
      else OpenClosed (Some ("unsupported command " +:+ pretty (Z_of_byte (Command header))))
  end.

(** ** A connection

    The connection holds its place in [tracked] from [Tracked] to [Leaving], and
    the network of its token while it is [Active]. *)
Inductive phase :=
| Arrived
| Accepted (r : requiredAuthorization)
| Tracked (r : requiredAuthorization)
| Control (r : requiredAuthorization) (spec : Spec) (h : string)
| Registered (r : requiredAuthorization) (h : string)   (* the forward runtime knows the Session *)
| Active (r : requiredAuthorization) (h : string)
| Releasing (r : requiredAuthorization)                 (* the forward runtime is still to be told *)
| Traffic (r : requiredAuthorization) (request : TrafficOpenRequest)
| Authorized (r : requiredAuthorization) (request : TrafficOpenRequest)
| Serving (identity : trafficcontrol.Identity) (request : TrafficOpenRequest)
| Leaving
| Done.

Inductive event :=
| EvAuthorized (a : SessionAuthorization)
| EvOpening (client : Reader)
| EvForward (ok : bool)       (* [Forward.Register] *)
| EvEnds                      (* the status could not be written, or the client went away; the handler returned *)
| EvGo.

(** [None] when the connection does not wait for the event, and when it
    panics. *)
Definition next (s : Server) (id : nat) (p : phase) (e : event) : option (Server * phase) :=
  match p, e with
  | Arrived, EvAuthorized a =>
      match required_authorization a with
      | inl _ => Some (s, Done)
      | inr r => Some (s, Accepted r)
      end
  | Accepted r, EvGo => let '(ok, s') := trackConnection s id in Some (s', if ok : bool then Tracked r else Done)
  | Tracked r, EvOpening client =>
      match read_opening r client with
      | OpenClosed _ => Some (s, Leaving)
      | OpenPanics => None
      | OpenControl spec h => Some (s, Control r spec h)
      | OpenTraffic request => Some (s, Traffic r request)
      end
  | Control r spec h, EvForward ok => if forward s then Some (s, if ok : bool then Registered r h else Leaving) else None
  | Control r spec h, EvGo => if forward s then None else Some (s, Registered r h)
  | Registered r h, EvGo =>
      match register_network s (token r) h (namespace r) with
      | (Ok _, s') => Some (s', Active r h)
      | (Err _, s') => Some (s', Releasing r)
      end
  | Active r h, EvEnds => Some (removeControl s (token r), Releasing r)
  | Releasing r, EvGo => Some (s, Leaving)
  | Traffic r request, EvGo =>
      match authorizedNetwork s (token r) r with
      | Ok _ => Some (s, Authorized r request)
      | Err _ => Some (s, Leaving)
      end
  | Authorized r request, EvGo =>
      if negb (trafficcontrol.accepts (trafficcontrol.Identity_Validate (ra_identity r))) then Some (s, Leaving)
      else if traffic s then Some (s, Serving (ra_identity r) request) else Some (s, Leaving)
  | Serving _ _, EvEnds => Some (s, Leaving)
  | Leaving, EvGo => Some (untrackConnection s id, Done)
  | _, _ => None
  end.

(** ** The system *)

Record System := mkSystem { server : Server; connections : gmap nat phase }.

Inductive system_event :=
| Opens (id : nat)
| Meets (id : nat) (e : event)
| Drains
| SetsHandler (set : bool).

Definition run_event (s : System) (e : system_event) : option System :=
  match e with
  | Opens id =>
      match connections s !! id with
      | None => Some (mkSystem (server s) (<[id := Arrived]> (connections s)))
      | Some _ => None
      end
  | Meets id e =>
      p ← connections s !! id;
      '(v, p') ← next (server s) id p e;
      Some (mkSystem v (<[id := p']> (connections s)))
  | Drains => Some (mkSystem (BeginDrain (server s)) (connections s))
  | SetsHandler set => Some (mkSystem (SetTrafficHandler (server s) set) (connections s))
  end.

Fixpoint run_events (s : System) (es : list system_event) : option System :=
  match es with
  | [] => Some s
  | e :: rest => s' ← run_event s e; run_events s' rest
  end.

Inductive reachable (forward : bool) : System -> Prop :=
| reachable_new : reachable forward (mkSystem (NewServer forward) ∅)
| reachable_step s e s' : reachable forward s -> run_event s e = Some s' -> reachable forward s'.

(** ** What a connection holds *)

Definition active_token (p : phase) : option SessionToken := match p with Active r _ => Some (token r) | _ => None end.
Definition controls (t : SessionToken) (p : phase) : bool := bool_decide (active_token p = Some t).
Definition is_tracked (p : phase) : bool := match p with Arrived | Accepted _ | Done => false | _ => true end.

(** The authorization behind a phase was made from claims; the hash of a network
    is that of the claims. *)
Definition phase_ok (p : phase) : Prop :=
  match p with
  | Accepted r | Tracked r | Releasing r | Traffic r _ | Authorized r _ => exists a, required_authorization a = inr r
  | Control r _ h | Registered r h | Active r h => h = networkSpecHash r /\ exists a, required_authorization a = inr r
  | _ => True
  end.

(** A network is registered exactly while a control stream of its token is
    active, with the number of these streams, and it is the network of each. *)
Record registered (s : System) : Prop := {
  reg_count : forall t, tenant_count (server s) t = map_count (controls t) (connections s) /\
    (forall n, tenants (server s) !! t = Some n -> 0 < n) /\
    (is_Some (networks (server s) !! t) <-> is_Some (tenants (server s) !! t));
  reg_network : forall id r h, connections s !! id = Some (Active r h) ->
    networks (server s) !! token r = Some (mkTenantNetwork h (namespace r));
  reg_tracked : forall id, id ∈ tracked (server s) <-> exists p, connections s !! id = Some p /\ is_tracked p = true;
  reg_phases : map_Forall (fun _ p => phase_ok p) (connections s)
}.
End requests.

(** ** The tables are exact *)

Section invariant.
Context `{UP : UuidPackage} `{HP : HashPackage} `{NP : NetipPackage} `{JS : JsonCodec Spec} `{JU : JsonCodec unit}.

Definition one (b : bool) : Z := if b then 1 else 0.

Definition counts_ok (v v' : Server) (p p' : phase) : Prop :=
  forall t, tenant_count v' t = tenant_count v t - one (controls t p) + one (controls t p') /\
    (forall n, tenants v' !! t = Some n -> 0 < n) /\ (is_Some (networks v' !! t) <-> is_Some (tenants v' !! t)).

Definition tracked_ok (v v' : Server) (id : nat) (p' : phase) : Prop :=
  forall k, k ∈ tracked v' <-> (k <> id /\ k ∈ tracked v) \/ (k = id /\ is_tracked p' = true).

Lemma registered_move s id p v' p' :
  registered s -> connections s !! id = Some p -> counts_ok (server s) v' p p' ->
  (forall k r h, k <> id -> connections s !! k = Some (Active r h) -> networks v' !! token r = Some (mkTenantNetwork h (namespace r))) ->
  (forall r h, p' = Active r h -> networks v' !! token r = Some (mkTenantNetwork h (namespace r))) ->
  tracked_ok (server s) v' id p' -> phase_ok p' -> registered (mkSystem v' (<[id := p']> (connections s))).
Proof.
  intros [RC RN RT RP] Hp HC HO HA HT HP'. split; cbn [server connections].
  - intros t. rewrite (map_count_insert_Some _ _ _ _ _ Hp). destruct (HC t) as (E & Hn & Hs), (RC t) as (E' & _). unfold one in E. split_and!; [lia|done|done].
  - intros k r h. rewrite lookup_insert_Some. intros [[<- E]|[Hk E]]; [by apply HA|by apply (HO k)].
  - intros k. rewrite (HT k), (RT k). split.
    + intros [[Hk (q & Hq & Ht)]|[-> Ht]]; [exists q; by rewrite lookup_insert_ne|exists p'; by rewrite lookup_insert_eq].
    + intros (q & Hq & Ht). apply lookup_insert_Some in Hq as [[<- ->]|[Hk Hq]]; [by right|left; split; [done|by exists q]].
  - by apply map_Forall_insert_2.
Qed.

Lemma counts_same s v' p p' :
  registered s -> tenants v' = tenants (server s) -> networks v' = networks (server s) -> active_token p' = active_token p -> counts_ok (server s) v' p p'.
Proof.
  intros HR Ht Hn Ha t. destruct (reg_count s HR t) as (_ & Hpos & Hdom). unfold tenant_count, controls. rewrite Ht, Hn, Ha. split_and!; [lia|done|done].
Qed.

Lemma tracked_same s v' id p p' :
  registered s -> connections s !! id = Some p -> tracked v' = tracked (server s) -> is_tracked p' = is_tracked p -> tracked_ok (server s) v' id p'.
Proof.
  intros HR Hp Ht He k. rewrite Ht, He. destruct (decide (k = id)) as [->|Hk]; [|naive_solver].
  rewrite (reg_tracked s HR id). split; [intros (q & Hq & Hi); right; split; [done|congruence]|intros [[? _]|[_ ?]]; [done|by exists p]].
Qed.

(** Only the phase changes, between phases that hold the same. *)
Lemma registered_quiet s id p p' :
  registered s -> connections s !! id = Some p -> active_token p = None -> active_token p' = None -> is_tracked p' = is_tracked p -> phase_ok p' ->
  registered (mkSystem (server s) (<[id := p']> (connections s))).
Proof.
  intros HR Hp Ha Ha' Ht HP'. apply (registered_move s id p); try done.
  - apply counts_same; [done..|congruence].
  - intros k r h _ Hk. by apply (reg_network s HR k).
  - intros r h ->. discriminate Ha'.
  - by apply (tracked_same s _ id p).
Qed.

Lemma registered_tracking s id r v' :
  registered s -> connections s !! id = Some (Accepted r) -> trackConnection (server s) id = (true, v') -> (exists a, required_authorization a = inr r) ->
  registered (mkSystem v' (<[id := Tracked r]> (connections s))).
Proof.
  intros HR Hp. unfold trackConnection. destruct (draining (server s)); [discriminate|]. intros [= <-] Ha.
  apply (registered_move s id (Accepted r)); try done.
  - by apply counts_same.
  - intros k q h _ Hk. by apply (reg_network s HR k).
  - intros k. cbn [set_tracked tracked is_tracked]. rewrite elem_of_union, elem_of_singleton. destruct (decide (k = id)); tauto.
Qed.

Lemma registered_untracking s id :
  registered s -> connections s !! id = Some Leaving -> registered (mkSystem (untrackConnection (server s) id) (<[id := Done]> (connections s))).
Proof.
  intros HR Hp. assert (id ∈ tracked (server s)) as Hin by (apply (reg_tracked s HR); by exists Leaving).
  unfold untrackConnection. rewrite bool_decide_true by done. apply (registered_move s id Leaving); try done.
  - by apply counts_same.
  - intros k q h _ Hk. by apply (reg_network s HR k).
  - intros k. cbn [set_tracked tracked is_tracked]. rewrite elem_of_difference, elem_of_singleton.
    split; [intros []; by left|by intros [[]|[]]].
Qed.

Lemma registered_registering s id r h v' :
  registered s -> connections s !! id = Some (Registered r h) -> register_network (server s) (token r) h (namespace r) = (Ok tt, v') ->
  registered (mkSystem v' (<[id := Active r h]> (connections s))).
Proof.
  intros HR Hp. unfold register_network.
  destruct (match networks (server s) !! token r with Some existing => _ | None => false end) eqn:Ec; [discriminate|]. intros [= <-].
  pose proof (reg_phases s HR id _ Hp) as Hok. apply (registered_move s id (Registered r h)); try done.
  - intros t. destruct (reg_count s HR t) as (Ht & Hpos & Hdom). unfold tenant_count, controls in *. cbn [set_tables tenants networks active_token].
    rewrite (bool_decide_false (None = Some t)) by done. cbn [one]. destruct (decide (t = token r)) as [->|Hne].
    + rewrite bool_decide_true, !lookup_insert_eq by done. cbn [default one]. split_and!; [cbn; lia| |done].
      intros n [= <-]. pose proof (map_count_nonneg (controls (token r)) (connections s)). unfold controls in *. rewrite Ht. lia.
    + rewrite bool_decide_false, !lookup_insert_ne by congruence. cbn [one]. split_and!; [lia|done|done].
  - intros k q h' Hk Hq. pose proof (reg_network s HR k q h' Hq) as Hn. cbn [set_tables networks].
    destruct (decide (token q = token r)) as [E|Hne]; [|by rewrite lookup_insert_ne].
    rewrite E in *. rewrite lookup_insert_eq. rewrite Hn in Ec. cbn [hash tn_namespace] in Ec. bool_hyps. congruence.
  - intros q h' [= <- <-]. apply lookup_insert_eq.
  - by apply (tracked_same s _ id (Registered r h)).
Qed.

Lemma registered_removing s id r h :
  registered s -> connections s !! id = Some (Active r h) ->
  registered (mkSystem (removeControl (server s) (token r)) (<[id := Releasing r]> (connections s))).
Proof.
  intros HR Hp. pose proof (reg_phases s HR id _ Hp) as [_ Hok]. destruct (reg_count s HR (token r)) as (Hcount & Hpos & Hdom).
  assert (controls (token r) (Active r h) = true) as Hc by (by apply bool_decide_eq_true).
  pose proof (map_count_pos _ _ id _ Hp Hc) as H1.
  assert (forall t, t <> token r -> controls t (Active r h) = false) as Hother by (intros t Ht; apply bool_decide_eq_false; cbn; congruence).
  assert (forall k q h', k <> id -> connections s !! k = Some (Active q h') -> token q = token r -> 1 < tenant_count (server s) (token r)) as Htwo.
  { intros k q h' Hk Hq Ht. pose proof (map_count_insert_Some (controls (token r)) _ id Done _ Hp) as E. rewrite Hc in E.
    assert (1 <= map_count (controls (token r)) (<[id := Done]> (connections s))); [|change (controls (token r) Done) with false in E; cbv iota in E; lia].
    apply (map_count_pos _ _ k (Active q h')); [by rewrite lookup_insert_ne|]. apply bool_decide_eq_true. cbn. congruence. }
  assert (forall t, controls t (Releasing r) = false) as Hrel by (intros t; by apply bool_decide_eq_false).
  unfold removeControl. destruct (Z.leb_spec (tenant_count (server s) (token r)) 1) as [Hle|Hgt]; apply (registered_move s id (Active r h)); try done.
  - intros t. destruct (reg_count s HR t) as (Ht & Hp' & Hd). unfold tenant_count in *. cbn [set_tables tenants networks]. rewrite Hrel.
    destruct (decide (t = token r)) as [->|Hne].
    + rewrite Hc, !lookup_delete_eq. cbn [one default]. split_and!; [lia|done|done].
    + rewrite (Hother t Hne), !lookup_delete_ne by done. cbn [one]. split_and!; [lia|done|done].
  - intros k q h' Hk Hq. cbn [set_tables networks]. destruct (decide (token q = token r)) as [E|Hne]; [pose proof (Htwo k q h' Hk Hq E); lia|].
    rewrite lookup_delete_ne by done. by apply (reg_network s HR k).
  - by apply (tracked_same s _ id (Active r h)).
  - intros t. destruct (reg_count s HR t) as (Ht & Hp' & Hd). unfold tenant_count in *. cbn [set_tables tenants networks]. rewrite Hrel.
    destruct (decide (t = token r)) as [->|Hne].
    + rewrite Hc, !lookup_insert_eq. cbn [one default from_option]. unfold Datatypes.id. split_and!; [lia|intros n Hn; apply (inj Some) in Hn; subst n; exact (proj2 (Z.lt_0_sub 1 _) Hgt)|].
      split; [done|]. intros _. apply Hd. destruct (tenants (server s) !! token r); [done|cbn in Hgt; lia].
    + rewrite (Hother t Hne), !lookup_insert_ne by done. cbn [one]. split_and!; [lia|done|done].
  - intros k q h' Hk Hq. by apply (reg_network s HR k).
  - by apply (tracked_same s _ id (Active r h)).
Qed.

Lemma registered_next s id p e v' p' :
  registered s -> connections s !! id = Some p -> next (server s) id p e = Some (v', p') -> registered (mkSystem v' (<[id := p']> (connections s))).
Proof.
  intros HR Hp. pose proof (reg_phases s HR id p Hp) as Hok.
  destruct p as [|r|r|r spec h|r h|r h|r|r request|r request|identity request| |]; destruct e as [a|client|ok| |]; cbn [next]; try discriminate; cbn [phase_ok] in Hok.
  - destruct (required_authorization a) as [?|r] eqn:Er; intros [= <- <-]; apply (registered_quiet s id Arrived); try done. by exists a.
  - destruct (trackConnection (server s) id) as [[|] v1] eqn:E; intros [= <- <-]; [by apply (registered_tracking s id r)|].
    unfold trackConnection in E. destruct (draining (server s)); [|discriminate]. injection E as <-. by apply (registered_quiet s id (Accepted r)).
  - destruct (read_opening r client) as [status| |spec h|request] eqn:Eo; [| discriminate| |]; intros [= <- <-]; apply (registered_quiet s id (Tracked r)); try done.
    cbn [phase_ok]. split; [|done]. unfold read_opening in Eo. repeat case_match; simplify_eq; try discriminate. by bool_hyps.
  - destruct (forward (server s)); [|discriminate]. destruct ok; intros [= <- <-]; by apply (registered_quiet s id (Control r spec h)).
  - destruct (forward (server s)); [discriminate|]. intros [= <- <-]; by apply (registered_quiet s id (Control r spec h)).
  - destruct (register_network (server s) (token r) h (namespace r)) as [[[]|e] v1] eqn:E; intros [= <- <-]; [by apply (registered_registering s id r h)|].
    unfold register_network in E. destruct (match networks (server s) !! token r with Some _ => _ | None => _ end); [|discriminate]. injection E as _ <-.
    destruct Hok. by apply (registered_quiet s id (Registered r h)).
  - intros [= <- <-]. by apply registered_removing with h.
  - intros [= <- <-]. by apply (registered_quiet s id (Releasing r)).
  - destruct (authorizedNetwork _ _ _); intros [= <- <-]; by apply (registered_quiet s id (Traffic r request)).
  - destruct (negb _); [|destruct (traffic (server s))]; intros [= <- <-]; by apply (registered_quiet s id (Authorized r request)).
  - intros [= <- <-]. by apply (registered_quiet s id (Serving identity request)).
  - intros [= <- <-]. by apply registered_untracking.
Qed.

Lemma reachable_registered fwd s : reachable fwd s -> registered s.
Proof.
  induction 1 as [|s e s' Hr IH E].
  - split; cbn [server connections].
    + intros t. rewrite map_count_empty. unfold tenant_count. cbn [NewServer tenants networks]. rewrite !lookup_empty.
      split_and!; [done|done|]. by rewrite !is_Some_alt.
    + intros id r h E. by rewrite lookup_empty in E.
    + intros id. cbn. split; [set_solver|]. intros (p & Hp & _). by rewrite lookup_empty in Hp.
    + apply map_Forall_empty.
  - destruct e as [id|id e| |b]; cbn [run_event] in E.
    + destruct (connections s !! id) eqn:Hid; [discriminate|]. injection E as <-. destruct IH as [RC RN RT RP]. split; cbn [server connections].
      * intros t. rewrite map_count_insert_None by done. destruct (RC t) as (E & ? & ?). replace (controls t Arrived) with false by (symmetry; by apply bool_decide_eq_false). split_and!; [lia|done|done].
      * intros k r h. rewrite lookup_insert_Some. intros [[_ [=]]|[_ Hk]]. by apply (RN k).
      * intros k. rewrite RT. split.
        -- intros (q & Hq & Ht). exists q. rewrite lookup_insert_ne; [done|]. intros ->. congruence.
        -- intros (q & Hq & Ht). apply lookup_insert_Some in Hq as [[_ <-]|[_ Hq]]; [done|by exists q].
      * by apply map_Forall_insert_2.
    + destruct (connections s !! id) as [p|] eqn:Hid; [|discriminate]. cbn [mbind option_bind] in E.
      destruct (next (server s) id p e) as [[v p']|] eqn:En; [|discriminate]. cbn in E. injection E as <-. by apply (registered_next s id p e).
    + injection E as <-. destruct IH. by split.
    + injection E as <-. destruct IH. by split.
Qed.
End invariant.

(** ** Properties *)

Lemma map_count_exists {K V} `{Countable K} (f : V -> bool) (m : gmap K V) : 0 < map_count f m -> exists k v, m !! k = Some v /\ f v = true.
Proof.
  unfold map_count. intros Hc. destruct (decide (filter (fun kv => f kv.2 = true) m = ∅)) as [E|E].
  - rewrite E, map_size_empty in Hc. lia.
  - apply map_choose in E as (k & v & E). apply map_lookup_filter_Some in E as [E1 E2]. by exists k, v.
Qed.

Lemma count_all_done (f : phase -> bool) (conns : gmap nat phase) :
  f Done = false -> map_Forall (fun _ p => p = Done) conns -> map_count f conns = 0.
Proof.
  intros Hf HF. pose proof (map_count_nonneg f conns). destruct (decide (0 < map_count f conns)) as [Hc|]; [|lia].
  apply map_count_exists in Hc as (k & p & Hk & Hp). apply HF in Hk. congruence.
Qed.

Section properties.
Context `{UP : UuidPackage} `{HP : HashPackage} `{NP : NetipPackage} `{JS : JsonCodec Spec} `{JU : JsonCodec unit}.

Lemma draining_step s e s' :
  draining (server s) = true -> run_event s e = Some s' -> draining (server s') = true /\ tracked (server s') ⊆ tracked (server s).
Proof.
  intros Hd. destruct e as [id|id e| |b]; cbn [run_event].
  - destruct (connections s !! id); [discriminate|]. by intros [= <-].
  - destruct (connections s !! id) as [p|]; [|discriminate]. cbn [mbind option_bind].
    destruct (next (server s) id p e) as [[v p']|] eqn:En; [|discriminate]. cbn. intros [= <-]. cbn [server].
    assert (v = server s \/ v = untrackConnection (server s) id \/ exists t n, v = set_tables (server s) t n) as [->|[->|(t & n & ->)]]; [|done| |done].
    + destruct p, e; cbn [next] in En; try discriminate; unfold trackConnection, register_network, removeControl in En; rewrite ?Hd in En;
        repeat case_match; simplify_eq; eauto.
    + unfold untrackConnection. case_bool_decide; [|done]. split; [done|]. cbn [set_tracked tracked]. set_solver.
  - by intros [= <-].
  - by intros [= <-].
Qed.

(** Whatever the streams of a Gateway do and in whatever order, a
    network is registered for a token exactly while control streams of that
    token are active, it is counted once for each of them and is the network
    each of them brought; the tracked connections are those that are being
    served.  When all have ended nothing is left in the tables, and once the
    Gateway drains no connection is added. *)
Theorem gateway_tables (fwd : bool) (s : System) (Hreach : reachable fwd s) :
  registered s /\
  (map_Forall (fun _ p => p = Done) (connections s) -> tenants (server s) = ∅ /\ networks (server s) = ∅ /\ tracked (server s) = ∅) /\
  (draining (server s) = true -> forall e s', run_event s e = Some s' -> draining (server s') = true /\ tracked (server s') ⊆ tracked (server s)).
Proof.
  pose proof (reachable_registered fwd s Hreach) as HR. split_and!; [done| |intros Hd e s'; by apply draining_step]. intros HF.
  assert (tenants (server s) = ∅) as Ht.
  { apply map_empty. intros t. destruct (tenants (server s) !! t) as [n|] eqn:E; [|done]. destruct (reg_count s HR t) as (Hc & Hpos & _).
    specialize (Hpos n E). unfold tenant_count in Hc. rewrite E, count_all_done in Hc by (done || by apply bool_decide_eq_false).
    change (n = 0) in Hc. lia. }
  split_and!; [done| |].
  - apply map_empty. intros t. destruct (reg_count s HR t) as (_ & _ & Hdom). apply eq_None_not_Some. rewrite Hdom, Ht, lookup_empty. by intros [? ?].
  - apply set_eq. intros k. rewrite (reg_tracked s HR k). split; [|set_solver]. intros (p & Hp & Htr). apply HF in Hp as ->. discriminate Htr.
Qed.

Lemma required_ok a r :
  required_authorization a = inr r ->
  RelaySessionToken (sa_SessionID a) (sa_Generation a) = Ok (token r) /\ networkSpecHash r = sa_NetworkSpecHash a /\
  namespace r = sa_Namespace a /\ ra_identity r = identity_of a.
Proof.
  unfold required_authorization. destruct (RelaySessionToken _ _) as [t|]; [|discriminate]. destruct (negb (validNetworkSpecHash _)); [discriminate|].
  destruct (negb (ValidLabel _)); [discriminate|]. by intros [= <-].
Qed.

(** C12 (safety). A traffic stream passes the authorization only under the control
    of its own Session: at that moment another stream holds the network of the
    same Session and generation registered (or SHA-256 collides on the two
    Sessions), with the network hash and the namespace of the ticket; and the task
    is then handed on for the identity of the ticket, which is valid, whether the
    control stream is still there or not. *)
Theorem traffic_under_control {UT : UuidText} (fwd : bool) (s : System) (id : nat) (r : requiredAuthorization) (request : TrafficOpenRequest) (v' : Server)
    (Hreach : reachable fwd s) (Hat : connections s !! id = Some (Traffic r request))
    (Hnext : next (server s) id (Traffic r request) EvGo = Some (v', Authorized r request)) :
  (exists a id2 r2 h2 a2,
    required_authorization a = inr r /\ connections s !! id2 = Some (Active r2 h2) /\ required_authorization a2 = inr r2 /\
    sa_NetworkSpecHash a2 = sa_NetworkSpecHash a /\ h2 = sa_NetworkSpecHash a /\ sa_Namespace a2 = sa_Namespace a /\
    (TrimSpace (sa_SessionID a2) = TrimSpace (sa_SessionID a) /\ sa_Generation a2 = sa_Generation a \/
     collides (session_contents (TrimSpace (sa_SessionID a2)) (sa_Generation a2)) (session_contents (TrimSpace (sa_SessionID a)) (sa_Generation a)))) /\
  (forall w w' identity, next w id (Authorized r request) EvGo = Some (w', Serving identity request) ->
    traffic w = true /\ identity = ra_identity r /\ trafficcontrol.accepts (trafficcontrol.Identity_Validate identity) = true).
Proof.
  pose proof (reachable_registered fwd s Hreach) as HR. split.
  2:{ intros w w' identity. cbn [next]. destruct (negb _) eqn:En; [discriminate|]. destruct (traffic w) eqn:Et; [|discriminate]. intros [= <- <-].
      by bool_hyps. }
  cbn [next] in Hnext. unfold authorizedNetwork in Hnext. destruct (Z.leb_spec (tenant_count (server s) (token r)) 0) as [|Hc]; [discriminate|].
  destruct (networks (server s) !! token r) as [network|] eqn:En; [|discriminate]. unfold require in Hnext.
  destruct (bool_decide (hash network = _) && _) eqn:Eh; [|discriminate]. bool_hyps.
  destruct (reg_count s HR (token r)) as (Hcount & _). rewrite Hcount in Hc. apply map_count_exists in Hc as (id2 & p2 & H2 & Ha2).
  apply bool_decide_eq_true in Ha2. destruct p2 as [| | | | |r2 h2| | | | | |]; try discriminate Ha2. injection Ha2 as Htok.
  pose proof (reg_network s HR id2 r2 h2 H2) as Hn2. rewrite Htok, En in Hn2. injection Hn2 as ->. cbn [hash tn_namespace] in *.
  destruct (reg_phases s HR id _ Hat) as [a Ha]. destruct (reg_phases s HR id2 _ H2) as [Eh2 [a2 Ha2]].
  destruct (required_ok a r Ha) as (T1 & N1 & S1 & _), (required_ok a2 r2 Ha2) as (T2 & N2 & S2 & _).
  exists a, id2, r2, h2, a2. split_and!; [done|done|done|congruence|congruence|congruence|].
  apply RelaySessionToken_ok in T1 as (U1 & _ & E1), T2 as (U2 & _ & E2). rewrite Htok, E1 in E2.
  destruct (decide (session_contents (TrimSpace (sa_SessionID a2)) (sa_Generation a2) = session_contents (TrimSpace (sa_SessionID a)) (sa_Generation a))) as [E|E].
  - left. apply session_contents_inj; [|done]. by rewrite !canonical_length.
  - right. split; [done|]. congruence.
Qed.
End properties.

(** ** What a client writes is what the Gateway does *)

Section openings.
Context `{UP : UuidPackage} `{HP : HashPackage} `{NP : NetipPackage} `{JS : JsonCodec Spec} `{JU : JsonCodec unit} {UT : UuidText} {NL : NetipLaws}.

(** [opens required b o]: of a connection that delivers [b] first, the Gateway makes [o]. *)
Definition opens (required : requiredAuthorization) (b : bytes) (o : opening) : Prop :=
  forall r tail, contents r = b ++ tail -> read_opening required r = o.

Lemma control_opens required token spec spec' h value :
  spec_json -> spec_text spec' = true -> json_Decode (A:=unit) [] = None ->
  json_Marshal spec' <> [] -> List.length token = tokenSize -> Normalize spec = Some (Ok spec') -> item_count spec' <= MaximumItems ->
  Hash spec = Some (Ok h) -> control_message token spec = Some (Ok value) ->
  opens required value
    (if bool_decide (token = GatewayServer.token required) then
       if bool_decide (h = networkSpecHash required) then OpenControl spec' h else OpenClosed (Some "NetworkSpec does not match RelayTicket")
     else OpenClosed (Some "gateway session does not match RelayTicket")).
Proof.
  intros Hrt Htext He Hs Hl Hn Hcount Hh Hm r tail Hc.
  destruct (control_takes token spec spec' value Hrt Htext He Hs Hl Hn Hcount Hm) as [Ht Hhash].
  destruct (Ht r tail Hc) as (r' & E & _). unfold read_control in E. unfold read_opening.
  unfold mbind, reads_bind in E. destruct (ReadSessionHeader r) as [[header|e] r1]; [|discriminate E]. destruct (ReadAuthorizedControlSpec r1) as [[o|e] r2] eqn:E2; [|discriminate E].
  injection E as -> -> _. cbn [Token Command]. rewrite (bool_decide_true (CommandControl = _)) by done. cbv iota beta. rewrite Hhash, Hh.
  destruct (decide (token = GatewayServer.token required)); [rewrite !(bool_decide_true (token = _)) by done|rewrite !(bool_decide_false (token = _)) by done]; cbn [negb]; done.
Qed.

Lemma traffic_opens required request token value :
  List.length token = tokenSize -> traffic_open_message request token = Ok value ->
  opens required value
    (if bool_decide (token = GatewayServer.token required) then OpenTraffic request
     else OpenClosed (Some "gateway session does not match RelayTicket")).
Proof.
  intros Hl Hm r tail Hc. destruct (traffic_open_takes request token value Hl Hm r tail Hc) as (r' & E & _). unfold read_opening.
  unfold ReadTrafficOpen, mbind, reads_bind in E. apply traffic_open_message_ok in Hm as (mode & _ & _ & Hz & ->).
  rewrite <- app_assoc in Hc. destruct (header_takes CommandTraffic token Hl Hz r _ Hc) as (r1 & E1 & _). rewrite E1 in *. cbn [Token Command] in *.
  rewrite (bool_decide_false (CommandTraffic = CommandControl)), !(bool_decide_true (CommandTraffic = CommandTraffic)) by done.
  rewrite bool_decide_true in E by done. cbn [negb] in *. rewrite E.
  destruct (decide (token = GatewayServer.token required)); [rewrite !(bool_decide_true (token = _)) by done|rewrite !(bool_decide_false (token = _)) by done]; cbn [negb]; done.
Qed.
End openings.

(** C15 (roundtrip). Client and Gateway agree on the first message of a stream:
    when the client, with the token of its Session, has written the snapshot its
    ticket names, the Gateway registers that network, normalized, and refuses
    it when the ticket names another; when it has written a traffic request, the
    Gateway serves that request; and the same messages under the token of
    another Session are refused, however the bytes arrive.  The normalized
    snapshot is one of UTF-8 strings (JSON changes others: a zone of a Pod address
    may hold any byte). *)
Theorem gateway_opens_what_was_written {W} `{UP : UuidPackage} `{HP : HashPackage} `{NP : NetipPackage} `{JS : JsonCodec Spec} `{JU : JsonCodec unit}
    {UT : UuidText} {NL : NetipLaws} (write : W -> bytes -> W * Z * option error) (sent : W -> bytes)
    (a mine : SessionAuthorization) (required own : requiredAuthorization) (spec spec' : Spec) (h : string) (request : TrafficOpenRequest) (w w1 w2 : W)
    (Hroundtrip : spec_json) (Htext : spec_text spec' = true) (Hempty : json_Decode (A:=unit) [] = None)
    (Hsome : json_Marshal spec' <> []) (Hdigest : forall l, List.length (sha256_Sum256 l) = tokenSize) (Hwriter : writer_ok write sent)
    (Hrequired : required_authorization a = inr required) (Hown : required_authorization mine = inr own)
    (Hnormal : Normalize spec = Some (Ok spec')) (Hcount : item_count spec' <= MaximumItems) (Hhash : Hash spec = Some (Ok h))
    (Hcontrol : WriteAuthorizedControlSession write (token own) spec w = Some (w1, None))
    (Htraffic : WriteTrafficOpen write request (token own) w = Some (w2, None)) :
  exists control traffic, sent w1 = sent w ++ control /\ sent w2 = sent w ++ traffic /\
    (token own = token required ->
       opens required control (if bool_decide (h = sa_NetworkSpecHash a) then OpenControl spec' h
                               else OpenClosed (Some "NetworkSpec does not match RelayTicket")) /\
       opens required traffic (OpenTraffic request)) /\
    (token own <> token required ->
       opens required control (OpenClosed (Some "gateway session does not match RelayTicket")) /\
       opens required traffic (OpenClosed (Some "gateway session does not match RelayTicket"))) /\
    (TrimSpace (sa_SessionID mine) = TrimSpace (sa_SessionID a) -> sa_Generation mine = sa_Generation a -> token own = token required).
Proof.
  destruct (required_ok a required Hrequired) as (T1%RelaySessionToken_ok & N1 & _), (required_ok mine own Hown) as (T2%RelaySessionToken_ok & _).
  destruct T1 as (_ & _ & T1), T2 as (_ & _ & T2). assert (List.length (token own) = tokenSize) as Hl by (rewrite T2; apply Hdigest).
  unfold WriteAuthorizedControlSession in Hcontrol. destruct (control_message (token own) spec) as [m|] eqn:Hm; [|discriminate].
  cbn [mbind option_bind] in Hcontrol. destruct (send_complete _ _ _ _ _ Hwriter Hcontrol) as (control & -> & S1).
  destruct (send_complete _ _ _ _ _ Hwriter Htraffic) as (tr & Hv & S2). exists control, tr.
  pose proof (control_opens required (token own) spec spec' h control Hroundtrip Htext Hempty Hsome Hl Hnormal Hcount Hhash Hm) as O1.
  pose proof (traffic_opens required request (token own) tr Hl Hv) as O2. split_and!; [done|done| | |].
  - intros E. rewrite bool_decide_true in O1, O2 by done. by rewrite N1 in O1.
  - intros E. by rewrite bool_decide_false in O1, O2 by done.
  - intros E1 E2. rewrite T1, T2. by rewrite E1, E2.
Qed.

(** ** Concrete streams *)

Lemma reachable_run_events `{UP : UuidPackage} `{HP : HashPackage} `{NP : NetipPackage} `{JS : JsonCodec Spec} `{JU : JsonCodec unit} fwd s es s' :
  reachable fwd s -> run_events s es = Some s' -> reachable fwd s'.
Proof.
  revert s. induction es as [|e es IH]; intros s Hr E; cbn [run_events] in E; [by injection E as <-|].
  destruct (run_event s e) as [s1|] eqn:E1; [|discriminate]. cbn [mbind option_bind] in E. apply (IH s1); [|done]. by apply (reachable_step fwd s e).
Qed.

Definition ticket_authorization (session : string) : SessionAuthorization :=
  mkSessionAuthorization "request-1" "alice" [] "device-1" (simple_id session) 7 "ticket-1" "shop"
    (match Hash sample_network with Some (Ok h) => h | _ => "" end).
Definition session_required : requiredAuthorization :=
  match required_authorization (ticket_authorization "1") with inr r => r | inl _ => mkRequired "" "" [] "" "" (identity_of (ticket_authorization "1")) end.
Definition sample_hash : string := sa_NetworkSpecHash (ticket_authorization "1").

Definition control_bytes : bytes :=
  match WriteAuthorizedControlSession trickle_write (token session_required) sample_network [] with Some (b, None) => b | _ => [] end.
Definition traffic_bytes : bytes :=
  match WriteTrafficOpen trickle_write sample_open (token session_required) [] with Some (b, None) => b | _ => [] end.

Definition open_stream (id : nat) (b : bytes) : list system_event :=
  [Opens id; Meets id (EvAuthorized (ticket_authorization "1")); Meets id EvGo; Meets id (EvOpening (mkReader [take 7 b; drop 7 b] EOF))].

Definition gateway_new : System := mkSystem (NewServer true) ∅.
Definition with_traffic : System :=
  default gateway_new (run_events gateway_new
    (SetsHandler true :: open_stream 0 control_bytes ++ [Meets 0 (EvForward true); Meets 0 EvGo] ++ open_stream 1 traffic_bytes)).

Lemma with_traffic_reachable : reachable true with_traffic.
Proof.
  apply (reachable_run_events true gateway_new
    (SetsHandler true :: open_stream 0 control_bytes ++ [Meets 0 (EvForward true); Meets 0 EvGo] ++ open_stream 1 traffic_bytes)).
  - apply reachable_new.
  - vm_compute. reflexivity.
Qed.

Example with_traffic_phases :
  connections with_traffic !! 0%nat = Some (Active session_required sample_hash) /\
  connections with_traffic !! 1%nat = Some (Traffic session_required sample_open).
Proof. split; by vm_compute. Qed.

(** Without its control stream the traffic request is refused; a stream after
    [BeginDrain] is not tracked. *)
Example control_gone :
  (s ← run_events with_traffic [Meets 0 EvEnds; Meets 1 EvGo]; connections s !! 1%nat) = Some Leaving /\
  (s ← run_events with_traffic (Drains :: firstn 3 (open_stream 2 control_bytes)); connections s !! 2%nat) = Some Done.
Proof. split; by vm_compute. Qed.

Lemma gateway_tables_witness :
  registered with_traffic /\ (draining (server with_traffic) = true -> forall e s', run_event with_traffic e = Some s' ->
    draining (server s') = true /\ tracked (server s') ⊆ tracked (server with_traffic)).
Proof. destruct (gateway_tables true with_traffic with_traffic_reachable) as (R & _ & D). exact (conj R D). Defined.

Lemma with_traffic_authorized :
  next (server with_traffic) 1 (Traffic session_required sample_open) EvGo = Some (server with_traffic, Authorized session_required sample_open).
Proof. vm_compute. reflexivity. Qed.

Lemma traffic_under_control_witness :
  exists id2 r2 h2, connections with_traffic !! id2 = Some (Active r2 h2) /\ h2 = sample_hash.
Proof.
  destruct (traffic_under_control true with_traffic 1 session_required sample_open (server with_traffic) with_traffic_reachable
              (proj2 with_traffic_phases) with_traffic_authorized) as ((a & id2 & r2 & h2 & a2 & Ha & H2 & _ & _ & Hh & _) & _).
  exists id2, r2, h2. split; [exact H2|]. rewrite Hh. destruct (required_ok a session_required Ha) as (_ & E & _). rewrite <- E. by vm_compute.
Defined.

Lemma gateway_opens_what_was_written_witness :
  opens session_required control_bytes (OpenControl sample_normalized sample_hash) /\ opens session_required traffic_bytes (OpenTraffic sample_open).
Proof.
  destruct (gateway_opens_what_was_written (NL := simple_netip_laws) trickle_write id (ticket_authorization "1") (ticket_authorization "1")
    session_required session_required sample_network sample_normalized sample_hash sample_open [] control_bytes traffic_bytes)
    as (control & tr & E1 & E2 & Heq & _ & _).
  - intros s _. exact (ser_codec_roundtrip ser_spec s).
  - by vm_compute.
  - reflexivity.
  - by vm_compute.
  - intros l. cbn [sha256_Sum256 simple_hash]. rewrite length_take, length_app, repeat_length. unfold tokenSize. lia.
  - exact trickle_writer.
  - by vm_compute.
  - by vm_compute.
  - exact normalize_sample.
  - by vm_compute.
  - by vm_compute.
  - by vm_compute.
  - by vm_compute.
  - change (control_bytes = control) in E1. change (traffic_bytes = tr) in E2. rewrite E1, E2. exact (Heq eq_refl).
Defined.
