(* ===== verification/TicketIssue.v ===== *)
(** * Issuing relay tickets ([internal/controlplane/ticketapi])

    A client with an active Session asks for a ticket: the service lets the
    registry assign a relay, and signs claims that bind the Session to it.  The
    last section is what a Gateway makes of a verified ticket
    ([internal/gateway/run.go]); the theorem that ends the file says that the
    relay named in an issued ticket lets the client in. *)

From S2P Require Import GatewaySessions GatewayServer StorageFacts TaskStoreFacts TaskAPI SessionAPIFacts StorageRuns.
From S2P Require Import Prelude GoLib GoText External Utils WssHandshake ConcreteEnv RemoteTask StorageEngine Netip ConcreteNetip NetworkSpec TaskStore StoragePages.
From S2P Require Import NetworkSpecFacts Tunnel TrafficControl RelayControl RelayRegistry RelayRegistryFacts SessionAPI.
From S2P Require Import RelayTicket RelayTicketFacts RelayBearer.

(** ** Data ([service/service.go], [entity/ticket.go]) *)

Definition OperationTunnel : string := "tunnel".
Definition DefaultLifetime : Duration := Minute.

Record Ticket := mkTicket {
  TokenType : string;
  Value : string;
  tk_ExpiresAt : time;
  tk_DeviceID : string;
  tk_RelayID : string;
  tk_Endpoint : string;
  tk_TrafficEncryption : option bool;
  tk_NoisePublicKey : string
}.

Record IssueInput := mkIssueInput {
  in_IdentityID : string;
  in_Groups : list string;
  in_DeviceID : string;
  in_SessionID : string;
  in_Generation : Z;   (* uint64 *)
  in_Namespace : string;
  in_NetworkSpecHash : string;
  SessionExpiresAt : time
}.

(** [errors.Join] of one of the three errors of the package and a cause. *)
Inductive issue_error :=
| SessionExpiresSoon
| NoReadyDataPlane (cause : error)
| SigningFailed (cause : error).

(** [t.Truncate(d)] *)
Definition Truncate (t : time) (d : Duration) : time := t - t mod d.

(** ** The service

    The allocator acts on a state [R]; the clock reading and the identifier that
    [uuid.NewString] returns are arguments. *)
Section service.
Context {R : Type} `{Ed25519Package, JsonCodec header, JsonCodec Claims}.

Definition RelayAllocator : Type := AllocationRequest -> R -> result AllocationResponse * R.

Record TicketConfig := mkTicketConfig {
  cf_Issuer : string;
  cf_TTL : Duration;
  cf_Signer : option Signer;
  cf_Allocator : option RelayAllocator;
  cf_Topology : gmap string string;
  cf_TrafficEncryption : option bool
}.

Record TicketService := mkTicketService {
  sv_issuer : string;
  ttl : Duration;
  signer : Signer;
  allocator : RelayAllocator;
  topology : gmap string string;
  sv_trafficEncryption : bool
}.

Definition NewTicketService (config : TicketConfig) : result TicketService :=
  let issuer := TrimSpace (cf_Issuer config) in
  match cf_Signer config, cf_Allocator config with
  | Some signer, Some allocator =>
      if bool_decide (issuer = "") || (512 <? slen issuer) then Err (NewError "relay ticket service configuration is invalid")
      else
        let ttl := if cf_TTL config =? 0 then DefaultLifetime else cf_TTL config in
        if (ttl <? 15 * Second) || (MaximumLifetime <? ttl)
        then Err (NewError "relay ticket TTL must be between 15 seconds and 1 minute")
        else Ok (mkTicketService issuer ttl signer allocator (cf_Topology config) (default true (cf_TrafficEncryption config)))
  | _, _ => Err (NewError "relay ticket service configuration is invalid")
  end.

(** When a ticket issued at [now] expires. *)
Definition expiry (service : TicketService) (now : time) (input : IssueInput) : time :=
  if Before (SessionExpiresAt input) (now + ttl service) then Truncate (SessionExpiresAt input) Second else now + ttl service.

Definition allocation_request (service : TicketService) (input : IssueInput) : AllocationRequest :=
  mkAllocationRequest (mkEnvelope APIVersion KindAllocationRequest) (in_SessionID input) (in_Generation input)
    (in_NetworkSpecHash input) (topology service) (Some (sv_trafficEncryption service)).

Definition assignment_matches (service : TicketService) (assignment : AllocationResponse) : bool :=
  negb (negb (Bool.eqb (ap_TrafficEncryption assignment) (sv_trafficEncryption service))
        || (sv_trafficEncryption service && bool_decide (ap_NoisePublicKey assignment = ""))
        || (negb (sv_trafficEncryption service) && negb (bool_decide (ap_NoisePublicKey assignment = "")))).

Definition issued_claims (service : TicketService) (now expiresAt : time) (ticketID : string) (input : IssueInput)
    (assignment : AllocationResponse) : Claims :=
  mkClaims Version (sv_issuer service) (ap_RelayID assignment) (in_IdentityID input) (in_Groups input) (in_DeviceID input)
    (in_SessionID input) (in_Generation input) (in_Namespace input) [OperationTunnel] (in_NetworkSpecHash input) ticketID
    (time_Unix now) (time_Unix now) (time_Unix expiresAt)
    (if sv_trafficEncryption service then Some true else None)
    (if sv_trafficEncryption service then ap_NoisePublicKey assignment else "").

Definition Issue (service : TicketService) (clock : time) (ticketID : string) (input : IssueInput) (r : R)
    : (issue_error + Ticket) * R :=
  let now := Truncate clock Second in
  let expiresAt := expiry service now input in
  if negb (After expiresAt (now + 5 * Second)) then (inl SessionExpiresSoon, r)
  else
    match allocator service (allocation_request service input) r with
    | (Err e, r) => (inl (NoReadyDataPlane e), r)
    | (Ok assignment, r) =>
        if negb (assignment_matches service assignment)
        then (inl (NoReadyDataPlane (NewError "data plane traffic encryption capability does not match policy")), r)
        else
          let claims := issued_claims service now expiresAt ticketID input assignment in
          match Sign (signer service) claims with
          | Err e => (inl (SigningFailed e), r)
          | Ok ticket =>
              (inr (mkTicket Type_ ticket expiresAt (in_DeviceID input) (ap_RelayID assignment) (ap_Endpoint assignment)
                      (TrafficEncryption claims) (cl_NoisePublicKey claims)), r)
          end
    end.
End service.
Arguments mkTicketConfig {R} _ _ _ _ _ _.
Arguments mkTicketService {R} _ _ _ _ _ _.
Arguments RelayAllocator R : clear implicits.
Arguments TicketConfig R : clear implicits.
Arguments TicketService R : clear implicits.

(** ** The handler ([api.go]) *)

Definition issue_api_error (e : issue_error) : apiError :=
  match e with
  | SessionExpiresSoon => mkApiError CodeConflict "" "session expires too soon to issue a RelayTicket"
  | NoReadyDataPlane _ => mkApiError CodeUnavailable "" "No ready Data Plane is available"
  | SigningFailed _ => mkApiError CodeInternal "" "RelayTicket issuance failed"
  end.

Definition issue_input (identity : TaskAPI.Identity) (session : ActiveSession) : IssueInput :=
  mkIssueInput (Subject identity) (TaskAPI.Groups identity) (TaskAPI.DeviceID identity) (as_ID session) (as_Generation session)
    (as_Namespace session) (as_NetworkSpecHash session) (as_ExpiresAt session).

Section handler.
Context {E : Type} `{Engine E} `{UuidPackage} `{NetipPackage} `{JsonCodec Spec} `{JsonCodec unit} `{HashPackage}.
Context `{JsonValidity} `{JsonCodec transitionMetadata} `{JsonCodec Document} (store : Store).
Context `{Ed25519Package, JsonCodec header, JsonCodec Claims} (ValidNamespace : string -> bool).
Context {B : Type} (sessions : Service E B) (service : TicketService E).

(** [bound] is what binding the body to an empty struct gives; the ticket is the
    body of the answer. *)
Definition issue (request : HttpRequest) (bound : apiError + unit) (identity : TaskAPI.Identity) : M (E:=E) (apiError + Ticket) :=
  if negb (bool_decide (is_Some (uuid_Parse (rq_SessionID request)))) then reject NotFound
  else
    api_bind (mret (SessionAPI.Namespace ValidNamespace (rq_Query request))) (fun namespace =>
    api_bind (mret bound) (fun _ =>
    api_bind (RequireActive store sessions (rq_RequestID request) identity namespace (rq_SessionID request)) (fun session =>
      now ← time_Now;
      ticketID ← uuid_NewString;
      issued ← outside (Issue service now ticketID (issue_input identity session));
      match issued with
      | inl e => reject (issue_api_error e)
      | inr ticket => answer ticket
      end))).
End handler.

(** ** What a Gateway makes of a ticket ([gateway/run.go]) *)

(** [newGatewayAuthenticator]; [verified] is the answer of the authenticator of
    the relay agent. *)
Definition newGatewayAuthenticator (verified : result Claims) : result GatewaySessions.Identity :=
  claims ← verified;
  if negb (slen (NetworkSpecHash claims) =? 64) then Err (NewError "RelayTicket NetworkSpec binding is required")
  else Ok (GatewaySessions.mkIdentity "" (IdentityID claims) (Groups claims) (DeviceID claims) (SessionID claims)
             (SessionGeneration claims) (TicketID claims) (Namespace claims) (NetworkSpecHash claims)
             (Unix_time (ExpiresAt claims)) (TrafficEncryption claims) (cl_NoisePublicKey claims)).

(** The handler that [Run] gives to the WebSocket sessions. *)
Definition stream_authorization (identity : GatewaySessions.Identity) : SessionAuthorization :=
  mkSessionAuthorization (GatewaySessions.RequestID identity) (GatewaySessions.IdentityID identity) (GatewaySessions.Groups identity)
    (GatewaySessions.DeviceID identity) (GatewaySessions.SessionID identity) (GatewaySessions.SessionGeneration identity)
    (GatewaySessions.TicketID identity) (GatewaySessions.Namespace identity) (GatewaySessions.NetworkSpecHash identity).

(** ** How long a ticket lives *)

Lemma Truncate_spec t : Truncate t Second <= t < Truncate t Second + Second /\ Truncate t Second mod Second = 0.
Proof.
  unfold Truncate. pose proof (Z.mod_pos_bound t Second eq_refl). split; [lia|].
  rewrite Zminus_mod, Z.mod_mod, Z.sub_diag by done. done.
Qed.

Lemma Unix_time_floor t : Unix_time (time_Unix t) <= t < Unix_time (time_Unix t) + Second.
Proof.
  unfold Unix_time, time_Unix. pose proof (Z.mod_pos_bound t Second eq_refl). pose proof (Z_div_mod_eq_full t Second).
  rewrite Z.sub_add. lia.
Qed.

Lemma Unix_time_whole t : t mod Second = 0 -> Unix_time (time_Unix t) = t.
Proof. unfold Unix_time, time_Unix. intros Hm. pose proof (Z_div_mod_eq_full t Second). rewrite Z.sub_add. lia. Qed.

Lemma whole_add t n : t mod Second = 0 -> (t + n * Second) mod Second = 0.
Proof. intros Ht. by rewrite Z.mod_add. Qed.

(** A whole number of seconds is at most a truncated time when it is at most the
    time. *)
Lemma whole_le_Truncate t u : u mod Second = 0 -> u <= Truncate t Second <-> u <= t.
Proof.
  intros Hu. destruct (Truncate_spec t) as [Ht Hm]. split; [lia|]. intros Hle.
  pose proof (Z_div_mod_eq_full u Second). pose proof (Z_div_mod_eq_full (Truncate t Second) Second).
  assert (u / Second < Truncate t Second / Second + 1) by (apply Z.mul_lt_mono_pos_l with Second; [done|lia]).
  assert (Second * (u / Second) <= Second * (Truncate t Second / Second)) by (apply Z.mul_le_mono_nonneg_l; [done|lia]). lia.
Qed.

Section issuing.
Context {R : Type} `{ED : Ed25519Package, JH : JsonCodec header, JC : JsonCodec Claims}.
Implicit Types (service : TicketService R) (r : R).

Lemma NewTicketService_ok config service :
  NewTicketService config = Ok service ->
  15 * Second <= ttl service <= MaximumLifetime /\ sv_issuer service <> "" /\ slen (sv_issuer service) <= 512.
Proof.
  unfold NewTicketService. destruct (cf_Signer config), (cf_Allocator config); try discriminate.
  destruct (_ || _) eqn:E1; [discriminate|]. cbv zeta.
  destruct ((_ <? _) || _) eqn:E2; [discriminate|]. intros [= <-]. cbn [ttl sv_issuer]. bool_hyps. done.
Qed.

Lemma expiry_bounds service now input :
  expiry service now input <= now + ttl service /\ expiry service now input <= SessionExpiresAt input \/
  expiry service now input = now + ttl service /\ now + ttl service <= SessionExpiresAt input.
Proof.
  unfold expiry, Before. destruct (Z.ltb_spec (SessionExpiresAt input) (now + ttl service)); [left|right; lia].
  destruct (Truncate_spec (SessionExpiresAt input)) as [? _]. lia.
Qed.

Lemma expiry_session service now input : expiry service now input <= SessionExpiresAt input.
Proof. pose proof (expiry_bounds service now input). lia. Qed.

Lemma expires_soon service now input :
  15 * Second <= ttl service -> now mod Second = 0 ->
  After (expiry service now input) (now + 5 * Second) = false <-> SessionExpiresAt input < now + 6 * Second.
Proof.
  intros Ht Hm. unfold After, expiry, Before. destruct (Z.ltb_spec (SessionExpiresAt input) (now + ttl service)).
  - rewrite Z.ltb_ge. pose proof (whole_le_Truncate (SessionExpiresAt input) (now + 6 * Second) (whole_add now 6 Hm)).
    destruct (Truncate_spec (SessionExpiresAt input)) as [Hb Hw].
    pose proof (whole_le_Truncate (now + 5 * Second) (Truncate (SessionExpiresAt input) Second) Hw).
    split; [intros; lia|]. intros Hs. apply Z.nlt_ge. intros Hlt.
    assert (now + 6 * Second <= Truncate (SessionExpiresAt input) Second); [|lia].
    pose proof (Z_div_mod_eq_full now Second). pose proof (Z_div_mod_eq_full (Truncate (SessionExpiresAt input) Second) Second).
    assert (now / Second + 5 < Truncate (SessionExpiresAt input) Second / Second) by (apply Z.mul_lt_mono_pos_l with Second; [done|lia]).
    assert (Second * (now / Second + 6) <= Second * (Truncate (SessionExpiresAt input) Second / Second)) by (apply Z.mul_le_mono_nonneg_l; [done|lia]). lia.
  - rewrite Z.ltb_ge. unfold Second in *. lia.
Qed.

(** What was done when a ticket was issued. *)
Lemma Issue_ok service clock ticketID input r ticket r' :
  Issue service clock ticketID input r = (inr ticket, r') ->
  let now := Truncate clock Second in
  let expiresAt := expiry service now input in
  exists assignment,
    After expiresAt (now + 5 * Second) = true /\
    allocator service (allocation_request service input) r = (Ok assignment, r') /\ assignment_matches service assignment = true /\
    Sign (signer service) (issued_claims service now expiresAt ticketID input assignment) = Ok (Value ticket) /\
    tk_ExpiresAt ticket = expiresAt /\ tk_RelayID ticket = ap_RelayID assignment /\ tk_Endpoint ticket = ap_Endpoint assignment /\
    tk_DeviceID ticket = in_DeviceID input.
Proof.
  unfold Issue. cbv zeta. destruct (After _ _) eqn:Ea; [|discriminate]. cbn [negb].
  destruct (allocator service _ r) as [[assignment|e] r1] eqn:El; [|discriminate].
  destruct (assignment_matches service assignment) eqn:Em; [|discriminate]. cbn [negb].
  destruct (Sign _ _) as [t|] eqn:Es; [|discriminate]. intros [= <- <-]. by exists assignment.
Qed.
End issuing.

(** C40 (bounds). A ticket lives more than five seconds and at most a minute, and
    not longer than its Session; its claims expire with it, to the second.  A
    Session is refused as expiring too soon exactly when less than six seconds
    are left, counted from the second of the request, and no relay is assigned
    then. *)
Theorem ticket_within_session {R} `{Ed25519Package, JsonCodec header, JsonCodec Claims} (config : TicketConfig R) (service : TicketService R)
    (clock : time) (ticketID : string) (input : IssueInput) (r : R)
    (Hnew : NewTicketService config = Ok service) :
  let now := Truncate clock Second in
  (forall ticket r', Issue service clock ticketID input r = (inr ticket, r') ->
     now + 5 * Second < tk_ExpiresAt ticket <= now + Minute /\ tk_ExpiresAt ticket <= SessionExpiresAt input /\
     exists claims, Sign (signer service) claims = Ok (Value ticket) /\ Unix_time (IssuedAt claims) = now /\
       Unix_time (ExpiresAt claims) <= tk_ExpiresAt ticket < Unix_time (ExpiresAt claims) + Second /\
       SessionID claims = in_SessionID input /\ SessionGeneration claims = in_Generation input /\ DeviceID claims = in_DeviceID input) /\
  (forall r', Issue service clock ticketID input r = (inl SessionExpiresSoon, r') -> r' = r) /\
  ((Issue service clock ticketID input r).1 = inl SessionExpiresSoon <-> SessionExpiresAt input < now + 6 * Second).
Proof.
  cbv zeta. destruct (NewTicketService_ok config service Hnew) as [[T1 T2] _]. destruct (Truncate_spec clock) as [_ Hw]. split_and!.
  - intros ticket r' Hi. apply Issue_ok in Hi as (assignment & Ha & _ & _ & Hs & He & _). rewrite He.
    unfold After in Ha. apply Z.ltb_lt in Ha. pose proof (expiry_bounds service (Truncate clock Second) input) as Hb.
    change MaximumLifetime with Minute in T2. split; [lia|]. split; [lia|]. eexists. split; [exact Hs|]. cbn [IssuedAt ExpiresAt issued_claims].
    split; [by apply Unix_time_whole|]. split; [apply Unix_time_floor|done].
  - intros r'. unfold Issue. cbv zeta. destruct (negb (After _ _)); [by intros [= <-]|].
    destruct (allocator service _ r) as [[assignment|e] r1]; [|discriminate]. destruct (negb (assignment_matches _ _)); [discriminate|].
    by destruct (Sign _ _).
  - rewrite <- (expires_soon service _ input T1 Hw). unfold Issue. cbv zeta. destruct (After _ _); cbn [negb]; [|by split].
    split; [|discriminate]. destruct (allocator service _ r) as [[assignment|e] r1]; [|discriminate].
    destruct (negb (assignment_matches _ _)); [discriminate|]. by destruct (Sign _ _).
Qed.

(** ** An issued ticket is admitted *)

Section admission.
Context `{ED : Ed25519Package, JH : JsonCodec header, JC : JsonCodec Claims}.

(** The verifier of a relay holds the key of the service, and expects its
    tickets. *)
Record trusts {R} (v : Verifier) (service : TicketService R) (relay : string) (public : bytes) : Prop := {
  trusts_pair : key_pair (signer_key (signer service)) public;
  trusts_id : ValidIdentifier (keyID (signer service)) 128 = true;
  trusts_key : keys v !! keyID (signer service) = Some public;
  trusts_issuer : issuer v = sv_issuer service;
  trusts_audience : audience v = relay;
  trusts_operation : requiredOperation v = OperationTunnel;
  trusts_skew : 0 <= clockSkew v <= Minute
}.

(** The relay has not seen the ticket nor a newer generation of the Session, and
    has room for them. *)
Record unseen (rv : RequestVerifier) (ticketID session : string) (gen : Z) : Prop := {
  unseen_revocations : revocations rv = None;
  unseen_ticket : Replay.expires (replay rv) !! ticketID = None;
  unseen_room : Replay.full (Replay.maxEntries (replay rv)) (Replay.expires (replay rv)) = false;
  unseen_generation : forall e, Generations.entries (generations rv) !! session = Some e -> Generations.generation e <= gen;
  unseen_sessions : Replay.full (Generations.maxEntries (generations rv)) (Generations.entries (generations rv)) = false
}.

Lemma Consume_fresh guard nowTime id expTime :
  ValidIdentifier id 128 = true -> time_Unix nowTime < time_Unix expTime -> Replay.expires guard !! id = None ->
  Replay.full (Replay.maxEntries guard) (Replay.expires guard) = false -> (Replay.Consume guard nowTime id expTime).1 = true.
Proof.
  intros Hid Ht Hn Hf. unfold Replay.Consume. rewrite Hid, Hn, Hf. cbn [negb]. rewrite (proj2 (Z.leb_gt _ _)) by done. by rewrite Hf.
Qed.

Lemma Accept_newest guard nowTime sid gen expTime :
  ValidIdentifier sid 128 = true -> gen <> 0 -> time_Unix nowTime < time_Unix expTime ->
  (forall e, Generations.entries guard !! sid = Some e -> Generations.generation e <= gen) ->
  Replay.full (Generations.maxEntries guard) (Generations.entries guard) = false -> (Generations.Accept guard nowTime sid gen expTime).1 = true.
Proof.
  intros Hid Hg Ht Hgen Hf. unfold Generations.Accept. rewrite Hid. cbn [negb orb]. rewrite (proj2 (Z.eqb_neq _ _)), (proj2 (Z.leb_gt _ _)) by done.
  unfold Generations.admit_session. destruct (Generations.entries guard !! sid) as [current|] eqn:E; [|by rewrite !Hf].
  destruct (_ <=? _).
  - assert (Replay.full (Generations.maxEntries guard) (delete sid (Generations.entries guard)) = false) as Hd; [|by rewrite !Hd].
    apply full_false in Hf. apply full_false.
    pose proof (map_subseteq_size (delete sid (Generations.entries guard)) (Generations.entries guard) (delete_subseteq _ _)). lia.
  - rewrite (proj2 (Z.ltb_ge _ _)) by (by apply Hgen). done.
Qed.

Lemma validateClaims_identifiers claims :
  validateClaims claims = Ok tt ->
  ValidIdentifier (IdentityID claims) 256 = true /\ ValidIdentifier (DeviceID claims) 256 = true /\
  ValidIdentifier (SessionID claims) 128 = true /\ ValidIdentifier (TicketID claims) 128 = true /\
  ValidIdentifier (Audience claims) 128 = true /\ ValidIdentifier (Namespace claims) 253 = true /\
  SessionGeneration claims <> 0 /\ validLowerHex (NetworkSpecHash claims) 64 = true.
Proof. unfold validateClaims, claims_shape. intros Hv. inv_ok. bool_hyps. done. Qed.

Lemma lower_hex_utf8 s n : validLowerHex s n = true -> utf8_ValidString s = true.
Proof.
  unfold validLowerHex. intros [_ Hb]%andb_true_iff. apply utf8_valid_ascii. revert Hb. apply all_bytes_impl.
  apply (byte_impl (fun b => is_digit b || byte_in x61 x66 b) is_ascii). by vm_compute.
Qed.

Lemma validateClaims_text claims :
  validateClaims claims = Ok tt -> utf8_ValidString (Issuer claims) = true -> forallb utf8_ValidString (Groups claims) = true ->
  Operations claims = [OperationTunnel] -> utf8_ValidString (cl_NoisePublicKey claims) = true -> claims_text claims = true.
Proof.
  intros Hv Hi Hg Ho Hn. apply validateClaims_identifiers in Hv as (I1 & I2 & I3 & I4 & I5 & I6 & _ & Hx). unfold claims_text.
  by rewrite Hi, Hg, Ho, Hn, (ValidIdentifier_utf8 _ _ I1), (ValidIdentifier_utf8 _ _ I2), (ValidIdentifier_utf8 _ _ I3),
    (ValidIdentifier_utf8 _ _ I4), (ValidIdentifier_utf8 _ _ I5), (ValidIdentifier_utf8 _ _ I6), (lower_hex_utf8 _ _ Hx).
Qed.

Lemma Sign_valid s claims ticket : Sign s claims = Ok ticket -> validateClaims claims = Ok tt.
Proof. unfold Sign. intros Hs. inv_ok. done. Qed.

(** The claims are current from their issue to their expiry. *)
Lemma claims_current v now claims :
  0 <= clockSkew v <= Minute -> 0 < IssuedAt claims -> cl_NotBefore claims = IssuedAt claims -> ExpiresAt claims <= 2 ^ 62 ->
  IssuedAt claims <= time_Unix now < ExpiresAt claims ->
  Issuer claims = issuer v -> Audience claims = audience v -> requiredOperation v ∈ Operations claims -> claims_accepted v now claims = true.
Proof.
  intros Hs Hi Hn Hx Ht H1 H2 H3. unfold claims_accepted. cbv zeta. rewrite !bool_decide_eq_true_2, Hn by done.
  assert (0 <= Z.quot (clockSkew v) Second <= 60) as Hq.
  { rewrite Z.quot_div_nonneg by (unfold Second; lia). split; [apply Z.div_pos; unfold Second; lia|].
    apply Z.div_le_upper_bound; [done|]. unfold Minute, Second in *. lia. }
  rewrite !int64_small by (unfold i64; lia). cbn [andb]. rewrite (proj2 (Z.leb_le _ _)), (proj2 (Z.ltb_lt _ _)) by lia. done.
Qed.

(** A verifier that trusts the service accepts its ticket once. *)
Lemma fresh_ticket_verified {R} rv (service : TicketService R) relay public clock headers claims ticket :
  json_laws -> trusts (verifier rv) service relay public -> unseen rv (TicketID claims) (SessionID claims) (SessionGeneration claims) ->
  bearer_ticket headers = Some ticket -> Sign (signer service) claims = Ok ticket -> claims_text claims = true ->
  outside_window (verifier rv) (at_verify clock) (keyID (signer service)) = false ->
  Issuer claims = sv_issuer service -> Audience claims = relay -> Operations claims = [OperationTunnel] ->
  cl_NotBefore claims = IssuedAt claims -> ExpiresAt claims <= 2 ^ 62 ->
  IssuedAt claims <= time_Unix (at_verify clock) < ExpiresAt claims ->
  time_Unix (at_consume clock) < ExpiresAt claims -> time_Unix (at_accept clock) < ExpiresAt claims ->
  (verify rv clock headers true).1 = Ok claims.
Proof.
  intros Hj [] [] Hb Hs Htext Hw Hi Ha Ho Hnb Hx Ht1 Ht2 Ht3. pose proof (Sign_valid _ _ _ Hs) as Hv.
  destruct (validateClaims_identifiers claims Hv) as (_ & _ & I3 & I4 & _ & _ & Hg & _). destruct (validateClaims_times claims Hv) as ((Hpos & _) & _).
  unfold verify. rewrite Hb.
  rewrite (signed_ticket_verifies (signer service) (verifier rv) public (at_verify clock) claims ticket); try done.
  2: { apply claims_current; [done|done|done|done|done|congruence|congruence|]. rewrite trusts_operation0, Ho. by left. }
  unfold revoked. rewrite unseen_revocations0. unfold admit_claims.
  pose proof (Consume_fresh (replay rv) (at_consume clock) (TicketID claims) (Unix_time (ExpiresAt claims)) I4) as Hc.
  rewrite time_Unix_of in Hc. specialize (Hc Ht2 unseen_ticket0 unseen_room0). destruct (Replay.Consume _ _ _ _) as [fresh replay']. cbn [fst] in Hc. subst fresh.
  pose proof (Accept_newest (generations rv) (at_accept clock) (SessionID claims) (SessionGeneration claims) (Unix_time (ExpiresAt claims)) I3 Hg) as Hc.
  rewrite time_Unix_of in Hc. specialize (Hc Ht3 unseen_generation0 unseen_sessions0). destruct (Generations.Accept _ _ _ _ _) as [accepted generations']. cbn [fst] in Hc. subst accepted.
  done.
Qed.
End admission.

(** ** What the Gateway makes of it *)

Lemma identifier_nonempty s n : ValidIdentifier s n = true -> s <> "".
Proof. intros Hv. by destruct (ValidIdentifier_inv _ _ Hv). Qed.

Lemma admission_ok h claims now :
  GatewaySessions.draining h = false -> validateClaims claims = Ok tt -> now < Unix_time (ExpiresAt claims) ->
  exists identity, newGatewayAuthenticator (Ok claims) = Ok identity /\ admission h "GET" (Ok identity) now = inr identity /\
    GatewaySessions.DeviceID identity = DeviceID claims /\ GatewaySessions.TrafficEncryption identity = TrafficEncryption claims /\
    GatewaySessions.NoisePublicKey identity = cl_NoisePublicKey claims /\
    stream_authorization identity = mkSessionAuthorization "" (IdentityID claims) (Groups claims) (DeviceID claims) (SessionID claims)
      (SessionGeneration claims) (TicketID claims) (Namespace claims) (NetworkSpecHash claims).
Proof.
  intros Hd Hv Ht. apply validateClaims_identifiers in Hv as (I1 & I2 & I3 & _ & _ & _ & Hg & Hx).
  unfold newGatewayAuthenticator. cbn [mbind result_bind]. unfold validLowerHex in Hx. apply andb_true_iff in Hx as [Hx _]. rewrite Hx. cbn [negb].
  eexists. split; [reflexivity|]. unfold admission. rewrite Hd. rewrite bool_decide_eq_true_2 by done. cbn [negb GatewaySessions.IdentityID
    GatewaySessions.DeviceID GatewaySessions.SessionID GatewaySessions.SessionGeneration GatewaySessions.ExpiresAt].
  rewrite !bool_decide_eq_false_2 by (eapply identifier_nonempty; eassumption). rewrite (proj2 (Z.eqb_neq _ _)) by done.
  unfold After. rewrite (proj2 (Z.ltb_lt _ _)) by done. done.
Qed.

(** A client that speaks the version and was told of the policy in its ticket is
    greeted. *)
Lemma handshake_greets `{VersionPackage} h identity cc :
  cfg_SupportedVersions (GatewaySessions.config h) = [WssHandshake.Version] -> WssHandshake.Version ∈ cc_SupportedVersions cc ->
  validUniqueIdentifiers (cc_SupportedVersions cc) 8 16 = true ->
  CheckClientVersion (ClientVersion (client_hello cc)) (MinClientVersion (GatewaySessions.config h)) = Ok tt ->
  cc_DeviceID cc = GatewaySessions.DeviceID identity -> legacyUnpinnedEncryption h = false ->
  encryption_enabled cc = enabled (cfg_TrafficEncryption (GatewaySessions.config h)) ->
  enabled (GatewaySessions.TrafficEncryption identity) = enabled (cfg_TrafficEncryption (GatewaySessions.config h)) ->
  (enabled (cfg_TrafficEncryption (GatewaySessions.config h)) = true ->
     GatewaySessions.NoisePublicKey identity = cfg_NoisePublicKey (GatewaySessions.config h)) ->
  exists hello, handshake h identity (Ok (message_of (OutClientHello (client_hello cc)))) = inr hello.
Proof.
  intros Hsv Hin Hu Hc Hd Hl He Ht Hk. unfold handshake. cbn [message_of]. rewrite Hsv.
  assert (Negotiate (WssHandshake.ProtocolVersions (client_hello cc)) [WssHandshake.Version] = Ok WssHandshake.Version) as ->.
  { unfold Negotiate, client_hello. cbn [WssHandshake.ProtocolVersions]. rewrite Hu. cbn [first_supported]. by rewrite bool_decide_eq_true_2. }
  rewrite Hc. rewrite bool_decide_eq_true_2 by (unfold client_hello; cbn [ch_DeviceID NewClientHello]; exact Hd). cbn [negb].
  unfold trafficEncryptionMatches. rewrite client_encryption, Hl, He, Ht. cbn [andb]. rewrite !eqb_reflx. cbn [andb].
  replace (negb _ || false || _) with true.
  2: { symmetry. destruct (enabled _) eqn:E; [|done]. cbn [negb orb]. apply bool_decide_eq_true_2. by apply Hk. }
  cbn [negb]. unfold requiredCapabilitiesPresent.
  rewrite !bool_decide_eq_true_2; first (cbn; by eexists); apply client_capability; (discriminate || by apply (bool_decide_unpack _)).
Qed.

Lemma matched_encryption {R} (service : TicketService R) assignment :
  assignment_matches service assignment = true ->
  ap_TrafficEncryption assignment = sv_trafficEncryption service /\
  (sv_trafficEncryption service = false -> ap_NoisePublicKey assignment = "").
Proof.
  unfold assignment_matches. destruct (Bool.eqb _ _) eqn:E; [|discriminate]. apply eqb_prop in E. intros Hm. split; [done|].
  intros Hs. rewrite Hs in Hm. cbn in Hm. rewrite negb_involutive in Hm. by apply bool_decide_eq_true in Hm.
Qed.

(** C9 (refinement). An issued ticket lets its client in: the relay it names,
    which holds the key of the service and has not seen the ticket, accepts it
    until it expires; the Gateway then admits the request as the identity,
    device, Session and generation that the ticket was issued for, greets a
    client on that device that follows the encryption policy of the assigned
    relay, and its streams are authorized for the namespace and the network
    snapshot of the Session. *)
Theorem issued_ticket_admitted {R} `{Ed25519Package, JsonCodec header, JsonCodec Claims} `{VersionPackage} `{UuidPackage} `{HashPackage}
    (service : TicketService R) (clock : time) (ticketID : string) (input : IssueInput) (r r' : R) (ticket : Ticket)
    (assignment : AllocationResponse) (public : bytes) (rv : RequestVerifier) (reading : readings) (headers : list string)
    (c : GatewaySessions.ServerConfig) (gateway : GatewaySessions.System) (now : time)
    (Hjson : json_laws) (Hissue : Issue service clock ticketID input r = (inr ticket, r'))
    (Hassigned : allocator service (allocation_request service input) r = (Ok assignment, r'))
    (Hissuer : utf8_ValidString (sv_issuer service) = true) (Hgroups : forallb utf8_ValidString (in_Groups input) = true)
    (Hnoise : utf8_ValidString (ap_NoisePublicKey assignment) = true)
    (Htrusts : trusts (verifier rv) service (tk_RelayID ticket) public)
    (Hunseen : unseen rv ticketID (in_SessionID input) (in_Generation input)) (Hheaders : bearer_ticket headers = Some (Value ticket))
    (Hwindow : outside_window (verifier rv) (at_verify reading) (keyID (signer service)) = false)
    (Hfuture : tk_ExpiresAt ticket <= Unix_time (2 ^ 62)) (Hfrom : Truncate clock Second <= at_verify reading)
    (Huntil : Forall (fun t => t < Unix_time (time_Unix (tk_ExpiresAt ticket))) [at_verify reading; at_consume reading; at_accept reading; now])
    (Hgateway : GatewaySessions.reachable c gateway) (Hdraining : GatewaySessions.draining (handler gateway) = false)
    (Hpinned : legacyUnpinnedEncryption (handler gateway) = false)
    (Hpolicy : cfg_TrafficEncryption (GatewaySessions.config (handler gateway)) = Some (ap_TrafficEncryption assignment))
    (Hkey : cfg_NoisePublicKey (GatewaySessions.config (handler gateway)) = ap_NoisePublicKey assignment) :
  exists identity, newGatewayAuthenticator (verify rv reading headers true).1 = Ok identity /\
    admission (handler gateway) "GET" (Ok identity) now = inr identity /\
    (forall requestID cc, cc_DeviceID cc = in_DeviceID input -> encryption_enabled cc = ap_TrafficEncryption assignment ->
       WssHandshake.Version ∈ cc_SupportedVersions cc -> validUniqueIdentifiers (cc_SupportedVersions cc) 8 16 = true ->
       CheckClientVersion (ClientVersion (client_hello cc)) (MinClientVersion (GatewaySessions.config (handler gateway))) = Ok tt ->
       exists hello, handshake (handler gateway) (set_RequestID identity requestID) (Ok (message_of (OutClientHello (client_hello cc)))) = inr hello) /\
    (canonicalUUID (in_SessionID input) = true -> ValidLabel (in_Namespace input) = true ->
       exists required, required_authorization (stream_authorization identity) = inr required /\
         RelaySessionToken (in_SessionID input) (in_Generation input) = Ok (token required) /\
         GatewayServer.networkSpecHash required = in_NetworkSpecHash input /\ GatewayServer.namespace required = in_Namespace input).
Proof.
  apply Issue_ok in Hissue as (a & Ha & Hal & Hm & Hs & He & Hr & _). rewrite Hassigned in Hal. injection Hal as <-.
  apply matched_encryption in Hm as [Hm1 Hm2]. set (claims := issued_claims _ _ _ _ _ _) in *. rewrite He in *.
  pose proof (Sign_valid _ _ _ Hs) as Hv. destruct (Truncate_spec clock) as [_ Hw].
  assert (forall t, t < Unix_time (ExpiresAt claims) -> time_Unix t < ExpiresAt claims) as Hlt.
  { intros t Ht. pose proof (Unix_time_floor t). unfold Unix_time in *. assert (time_Unix t + unix_epoch < ExpiresAt claims + unix_epoch); [|lia].
    apply Z.mul_lt_mono_pos_r with Second; [done|lia]. }
  rewrite !Forall_cons in Huntil. destruct Huntil as (U1 & U2 & U3 & U4 & _).
  assert ((verify rv reading headers true).1 = Ok claims) as Hok.
  { apply (fresh_ticket_verified rv service (tk_RelayID ticket) public reading headers claims (Value ticket)); try done.
    - apply validateClaims_text; [done|done|done|done|]. cbn [cl_NoisePublicKey claims issued_claims]. by destruct (sv_trafficEncryption service).
    - change (time_Unix (expiry service (Truncate clock Second) input) <= 2 ^ 62). rewrite <- (time_Unix_of (2 ^ 62)). by apply time_Unix_mono.
    - split; [|by apply Hlt]. by apply time_Unix_mono.
    - by apply Hlt.
    - by apply Hlt. }
  rewrite Hok. destruct (admission_ok (handler gateway) claims now Hdraining Hv U4) as (identity & Hi & Hadm & Hdev & Hte & Hnk & Hauth).
  exists identity. split_and!; [done|done| |].
  - intros requestID cc Hcd Hce Hin Hu Hcv.
    destruct (reachable_config c gateway Hgateway) as (h0 & Hnew & Hcfg). apply NewHandler_ok in Hnew as (_ & _ & _ & _ & _ & _ & _ & _ & _ & Hsv).
    apply handshake_greets; rewrite ?Hpolicy; try done.
    + by rewrite <- Hcfg in Hsv.
    + cbn. by rewrite Hdev, Hcd.
    + cbn [set_RequestID GatewaySessions.TrafficEncryption]. rewrite Hte. cbn [TrafficEncryption claims issued_claims]. rewrite Hm1. by destruct (sv_trafficEncryption service).
    + cbn [enabled default]. intros Hon. cbn [set_RequestID GatewaySessions.NoisePublicKey]. rewrite Hnk, Hkey. cbn [cl_NoisePublicKey claims issued_claims].
      change (ap_TrafficEncryption assignment = true) in Hon. rewrite <- Hm1, Hon. done.
  - intros Hc Hl. rewrite Hauth. apply validateClaims_identifiers in Hv as (_ & _ & I3 & _ & _ & _ & Hg & Hx).
    apply ValidIdentifier_inv in I3 as (_ & _ & Htrim & _). cbn [claims issued_claims SessionID SessionGeneration NetworkSpecHash] in Htrim, Hg, Hx.
    unfold required_authorization. cbn [sa_SessionID sa_Generation sa_NetworkSpecHash sa_Namespace claims issued_claims SessionID SessionGeneration NetworkSpecHash Namespace].
    unfold RelaySessionToken. rewrite Htrim, Hc, (proj2 (Z.eqb_neq _ _)) by done. cbn [require negb mbind result_bind].
    change (validNetworkSpecHash (in_NetworkSpecHash input)) with (validLowerHex (in_NetworkSpecHash input) 64). rewrite Hx, Hl. cbn [negb].
    eexists. split; [reflexivity|]. done.
Qed.

(** ** Who gets a ticket *)

Section owner.
Context {E : Type} `{EN : Engine E} `{UP : UuidPackage} `{NP : NetipPackage} `{JS : JsonCodec Spec} `{JU : JsonCodec unit}
  `{HP : HashPackage} `{JV : JsonValidity} `{JT : JsonCodec transitionMetadata} `{JD : JsonCodec Document} {UL : UuidLaws} {MS : MetadataStored}.
Context `{ED : Ed25519Package, JH : JsonCodec header, JC : JsonCodec Claims} (ValidNamespace : string -> bool).
Context (store : Store) {B : Type} (sessions : Service E B) (service : TicketService E).
Context (Hothers : others_api (maxLifetime sessions)).

(** A ticket that answers for an identity, a namespace and a session. *)
Definition issued_for (identity : TaskAPI.Identity) (namespace id : string) (ticket : Ticket) (db : Database) : Prop :=
  exists s clock ticketID e e' issuedAt, loaded sessions identity namespace id s db /\ s_State s = sessionStateActive /\
    reading (E:=E) clock /\ reading (E:=E) issuedAt /\ clock < s_ExpiresAt s /\
    Issue service issuedAt ticketID
      (issue_input identity (mkActiveSession (s_ID s) (s_Namespace s) (s_Generation s) (s_ExpiresAt s) (s_NetworkSpecHash s))) e = (inr ticket, e').

Lemma issue_spec request bound identity :
  handles sessions Hothers (fun _ => True) (issue store ValidNamespace sessions service request bound identity)
    (fun ticket db => exists namespace, SessionAPI.Namespace ValidNamespace (rq_Query request) = inr namespace /\
       issued_for identity namespace (rq_SessionID request) ticket db).
Proof.
  unfold issue. destruct (negb _); [apply handles_reject|].
  eapply handles_bind; [apply handles_value|]. intros namespace. apply handles_pure. intros Hns.
  eapply handles_bind; [apply handles_value|]. intros []. apply handles_pure. intros _.
  eapply handles_bind; [apply RequireActive_spec|]. intros a. apply handles_now. intros issuedAt Hat.
  set (P := fun db : Database => _) in |- *.
  apply (proves_bind (fun _ => P)).
  { intros w r w' Hr Hw Hi Hp. unfold uuid_NewString in Hr. destruct (engine_NewUUID (w_engine w)). injection Hr as <- <-.
    split; [done|]. split; [apply rtc_refl|]. by intros ? [= <-]. }
  intros ticketID. apply (proves_bind _ (outside_spec _ Hothers P _)). intros [e|ticket]; [apply handles_reject|].
  eapply handles_pre; [apply (handles_answer _ _ ticket (fun ticket db => _))|].
  intros db _ [(s & now & e & Hl & Hact & Hnow & Hexp & _ & ->) [e1 He1]].
  exists namespace. split; [done|]. destruct (Issue _ _ _ _ e1) as [x e'] eqn:Ei. cbn [fst] in He1. subst x.
  exists s, now, ticketID, e1, e', issuedAt. split_and!; done.
Qed.
End owner.

(** C14 (safety). Only the owner of an active Session gets a ticket for it: when
    the handler answers with one, the Session of the request is in the database,
    belongs to the identity, its device and the namespace of the request, and
    the claims signed name exactly this identity, device and Session, with the
    generation and network snapshot that its row had while it was active, and
    expire no later than that row. *)
Theorem ticket_issued_to_owner {E} `{EN : Engine E} `{UP : UuidPackage} `{NP : NetipPackage} `{JS : JsonCodec Spec} `{JU : JsonCodec unit}
    `{HP : HashPackage} `{JV : JsonValidity} `{JT : JsonCodec transitionMetadata} `{JD : JsonCodec Document} {UL : UuidLaws} {MS : MetadataStored}
    `{ED : Ed25519Package, JH : JsonCodec header, JC : JsonCodec Claims} (ValidNamespace : string -> bool)
    (store : Store) {B : Type} (sessions : Service E B) (Hothers : others_api (maxLifetime sessions)) (config : TicketConfig E) (service : TicketService E)
    (request : HttpRequest) (bound : apiError + unit) (identity : TaskAPI.Identity) (w w' : World E) (ticket : Ticket)
    (Hnew : NewTicketService config = Ok service) (Hw : w_tx w = false) (Hok : api_inv (w_db w))
    (Hrun : issue store ValidNamespace sessions service request bound identity w = (inr (inr ticket), w')) :
  exists namespace row row' claims,
    SessionAPI.Namespace ValidNamespace (rq_Query request) = inr namespace /\
    StorageEngine.sessions (w_db w') !! rq_SessionID request = Some row' /\ rtc (session_step (maxLifetime sessions)) row row' /\
    s_State row = "active" /\
    s_IdentityID row' = Subject identity /\ s_DeviceID row' = TaskAPI.DeviceID identity /\ s_Namespace row' = namespace /\
    Sign (signer service) claims = Ok (Value ticket) /\ tk_ExpiresAt ticket <= s_ExpiresAt row /\
    IdentityID claims = Subject identity /\ Groups claims = TaskAPI.Groups identity /\ DeviceID claims = TaskAPI.DeviceID identity /\
    SessionID claims = rq_SessionID request /\ SessionGeneration claims = uint64 (s_Generation row) /\
    Namespace claims = namespace /\ NetworkSpecHash claims = s_NetworkSpecHash row.
Proof.
  destruct (issue_spec ValidNamespace store sessions service Hothers request bound identity w _ w' Hrun Hw Hok I) as (_ & _ & HQ).
  destruct (HQ _ eq_refl _ eq_refl) as (namespace & Hns & s & now & ticketID & e & e' & issuedAt & [Ho Hread] & Hact & _ & _ & _ & Hi).
  pose proof (read_id _ _ _ _ _ Hread) as Hid. destruct Hread as (db0 & row & _ & Hrow & Hrid & Hd & row' & Hrow' & Hst).
  apply sessionFromRow_fields in Hd as ((_ & H1 & H2 & _ & H3 & _) & Hstate & Hg & _ & Hex & Hh).
  destruct (steps_history _ _ _ Hst) as [(_ & H1' & H2' & _ & H3' & _) _]. unfold ownedBy in Ho. bool_hyps.
  apply Issue_ok in Hi as (assignment & _ & _ & _ & Hs & He & _). rewrite Hrid in Hrow'.
  exists namespace, row, row'. eexists. split; [done|]. split; [done|]. split; [done|]. split; [unfold sessionStateActive in Hact; congruence|].
  split; [congruence|]. split; [congruence|]. split; [congruence|]. split; [exact Hs|].
  split. { rewrite He, <- Hex. apply (expiry_session service). }
  cbn. split_and!; congruence.
Qed.

(** ** A ticket for a Session of the sample registry *)

Section sample.
#[local] Existing Instances simple_uuid simple_hash simple_ed25519 codec_header codec_claims simple_version.

Definition sample_allocator : RelayAllocator Registry := fun request r => Allocate t0 request r.
Definition ticket_config : TicketConfig Registry :=
  mkTicketConfig " https://cp.example" 0 (Some sample_signer) (Some sample_allocator) ∅ (Some false).
Definition ticket_service : TicketService Registry :=
  mkTicketService "https://cp.example" DefaultLifetime sample_signer sample_allocator ∅ false.
Definition ticket_input : IssueInput :=
  mkIssueInput "identity-1" ["developers"] "device-1" (simple_id "2") 1 "development" simple_digest (t0 + 40 * Second).

Lemma ticket_service_new : NewTicketService ticket_config = Ok ticket_service.
Proof.
  unfold NewTicketService. cbn [ticket_config cf_Issuer cf_Signer cf_Allocator cf_TTL cf_Topology cf_TrafficEncryption].
  replace (TrimSpace " https://cp.example") with "https://cp.example" by (vm_compute; reflexivity). reflexivity.
Qed.

Definition issued_ticket : Ticket :=
  match (Issue ticket_service t0 "ticket-1" ticket_input RelayRegistryFacts.sample_registry).1 with
  | inr ticket => ticket
  | inl _ => mkTicket "" "" 0 "" "" "" None ""
  end.
Definition issued_registry : Registry := (Issue ticket_service t0 "ticket-1" ticket_input RelayRegistryFacts.sample_registry).2.
Definition issued_assignment : AllocationResponse :=
  match (sample_allocator (allocation_request ticket_service ticket_input) RelayRegistryFacts.sample_registry).1 with
  | Ok a => a
  | Err _ => mkAllocationResponse (mkEnvelope "" "") "" "" "" 0 false ""
  end.

Lemma ticket_issued : Issue ticket_service t0 "ticket-1" ticket_input RelayRegistryFacts.sample_registry = (inr issued_ticket, issued_registry).
Proof. unfold issued_ticket, issued_registry. destruct (Issue _ _ _ _ _) as [[e|t] r] eqn:E; [|done].
  assert (is_ok (match (Issue ticket_service t0 "ticket-1" ticket_input RelayRegistryFacts.sample_registry).1 with inr _ => Ok tt | inl _ => Err (NewError "") end) = true) as Hs by (by vm_compute).
  by rewrite E in Hs.
Qed.

Lemma ticket_within_session_witness : tk_ExpiresAt issued_ticket <= t0 + 40 * Second.
Proof.
  exact (proj1 (proj2 (proj1 (ticket_within_session ticket_config ticket_service t0 "ticket-1" ticket_input RelayRegistryFacts.sample_registry
    ticket_service_new) issued_ticket issued_registry ticket_issued))).
Defined.

Definition relay_verifier : RequestVerifier :=
  mkRequestVerifier (mkVerifier {["key-1" := sample_public]} ∅ "https://cp.example" (tk_RelayID issued_ticket) "tunnel" DefaultClockSkew)
    sample_replay (Generations.mkGuard ∅ 2) None.
Definition readings_at (t : time) : readings := mkReadings t t t t.
Definition ticket_headers : list string := ["Bearer " +:+ Value issued_ticket].

Lemma ticket_trusted : trusts (verifier relay_verifier) ticket_service (tk_RelayID issued_ticket) sample_public.
Proof.
  split; [exact sample_key_pair|vm_compute; reflexivity|vm_compute; reflexivity|reflexivity|reflexivity|reflexivity|].
  split; vm_compute; discriminate.
Qed.

Lemma ticket_unseen : unseen relay_verifier "ticket-1" (in_SessionID ticket_input) (in_Generation ticket_input).
Proof. split; [reflexivity|reflexivity|vm_compute; reflexivity| |vm_compute; reflexivity]. intros e He. vm_compute in He. discriminate. Qed.

Lemma ticket_times : Forall (fun t => t < Unix_time (time_Unix (tk_ExpiresAt issued_ticket)))
  [at_verify (readings_at t0); at_consume (readings_at t0); at_accept (readings_at t0); t0 + 30 * Second].
Proof. apply (bool_decide_unpack _). vm_compute. exact I. Qed.

Lemma issued_ticket_admitted_witness :
  exists identity, newGatewayAuthenticator (verify relay_verifier (readings_at t0) ticket_headers true).1 = Ok identity /\
    admission (handler GatewaySessions.sample_start) "GET" (Ok identity) (t0 + 30 * Second) = inr identity /\
    exists required, required_authorization (stream_authorization identity) = inr required /\ GatewayServer.namespace required = "development".
Proof.
  destruct (issued_ticket_admitted ticket_service t0 "ticket-1" ticket_input RelayRegistryFacts.sample_registry issued_registry issued_ticket
    issued_assignment sample_public relay_verifier (readings_at t0) ticket_headers GatewaySessions.sample_config GatewaySessions.sample_start
    (t0 + 30 * Second) codec_laws ticket_issued) as (identity & Hi & Ha & _ & Ho).
  - unfold issued_assignment, issued_registry. vm_compute. reflexivity.
  - vm_compute. reflexivity.
  - vm_compute. reflexivity.
  - vm_compute. reflexivity.
  - exact ticket_trusted.
  - exact ticket_unseen.
  - vm_compute. reflexivity.
  - vm_compute. reflexivity.
  - vm_compute. discriminate.
  - vm_compute. discriminate.
  - exact ticket_times.
  - apply GatewaySessions.reachable_new. reflexivity.
  - reflexivity.
  - reflexivity.
  - vm_compute. reflexivity.
  - vm_compute. reflexivity.
  - exists identity. split; [exact Hi|]. split; [exact Ha|].
    destruct Ho as (required & Hr & _ & _ & Hn); [vm_compute; reflexivity|vm_compute; reflexivity|].
    exists required. split; [exact Hr|exact Hn].
Defined.
End sample.

(** ** The owner of a Session in the database asks for a ticket *)

Section owner_sample.
#[local] Existing Instances sample_uuid simple_hash simple_ed25519 codec_header codec_claims document_codec.

Definition owner_engine : Engine nat := {|
  engine_backend := BackendSQLite;
  engine_jsonb := id;
  engine_Statement := fun e => (None, e);
  engine_Begin := fun e => (None, e);
  engine_Commit := fun e => (None, e);
  engine_Others := fun db e => (db, e);
  engine_Wait := fun _ e => (false, e);
  engine_Err := fun e => (false, e);
  engine_NewUUID := fun e => (sample_id e, S e);
  engine_Now := fun e => (Unix_time 1000 + Z.of_nat e, S e)
|}.
#[local] Existing Instance owner_engine.

Definition owner_session : StorageEngine.Session :=
  mkSession session_id identity_id "device" "cluster" "development" "active" 1 StorageRuns.sample_network StorageRuns.sample_hash
    (Unix_time 900) (Unix_time 900) (Unix_time 900) (Unix_time 1030).
Definition owner_database : Database :=
  mkDatabase {[identity_id := sample_identity]} {[session_id := owner_session]} ∅ ∅ [] empty_directory.
Definition owner_world : World nat := mkWorld owner_database 10%nat false.
Definition owner_config : TicketConfig nat :=
  mkTicketConfig "https://cp.example" 0 (Some sample_signer) (Some (fun _ e => (Ok issued_assignment, e))) ∅ (Some false).
Definition owner_service : TicketService nat :=
  mkTicketService "https://cp.example" DefaultLifetime sample_signer (fun _ e => (Ok issued_assignment, e)) ∅ false.
Definition owner_request : HttpRequest := mkHttpRequest [("namespace", ["development"])] None session_id "" [] [] "request".

Lemma owner_tables : rtc (change (EN := owner_engine)) empty_database owner_database.
Proof.
  eapply rtc_l; [exact (change_identities empty_database {[identity_id := sample_identity]})|].
  apply rtc_once. exact (change_sessions _ {[session_id := owner_session]}).
Qed.

Lemma owner_api_inv : api_inv owner_database.
Proof. split; [exact (changes_trails _ _ owner_tables empty_trails_ok)|]. unfold sessions_keyed. by apply map_Forall_singleton. Qed.

Lemma owner_api lifetime : others_api (EN := owner_engine) lifetime.
Proof. intros db e. apply rtc_refl. Qed.

Lemma owner_metadata : MetadataStored (EN := owner_engine).
Proof. by apply sample_metadata_stored. Qed.
#[local] Existing Instance owner_metadata.

Definition owner_run : M (E:=nat) (apiError + Ticket) :=
  issue sample_store label_only (calm_service nat) owner_service owner_request (inr tt) api_user.

Lemma ticket_issued_to_owner_witness :
  exists ticket, (owner_run owner_world).1 = inr (inr ticket) /\ tk_ExpiresAt ticket = Unix_time 1030 /\
  exists claims, Sign sample_signer claims = Ok (Value ticket) /\ SessionID claims = session_id /\ IdentityID claims = identity_id.
Proof.
  destruct (owner_run owner_world) as [x w'] eqn:Hrun.
  assert (match x with inr (inr t) => Some (tk_ExpiresAt t) | _ => None end = Some (Unix_time 1030)) as Hx.
  { transitivity (match (owner_run owner_world).1 with inr (inr t) => Some (tk_ExpiresAt t) | _ => None end); [by rewrite Hrun|vm_compute; reflexivity]. }
  destruct x as [|[|ticket]]; [discriminate..|]. injection Hx as Hx. exists ticket. split; [reflexivity|]. split; [exact Hx|].
  destruct (ticket_issued_to_owner label_only sample_store (calm_service nat) (owner_api _) owner_config owner_service owner_request (inr tt) api_user
    owner_world w' ticket eq_refl eq_refl owner_api_inv Hrun) as
    (namespace & row & row' & claims & _ & _ & _ & _ & _ & _ & _ & Hs & _ & Hid & _ & _ & Hsid & _).
  exists claims. split; [exact Hs|]. split; [exact Hsid|exact Hid].
Defined.
End owner_sample.
