(* ===== verification/Threads.v ===== *)
(** * Threads that share a state

    Programs of the client managers: sections under a mutex, calls to the
    outside, channels and new goroutines.  The steps of all threads interleave.
    A rely-guarantee logic with tokens proves what holds in every interleaving;
    a program that runs alone has a simpler one. *)

From S2P Require Import Prelude.

(** ** Programs *)

Section programs.
(** The state, the goroutines that can be started, the calls and their answers. *)
Context {W C Q R : Type}.

Inductive prog (A : Type) :=
| Return (a : A)
| Crash                                        (* a panic *)
| Step (f : W -> option (W * prog A))          (* one atomic step; [None]: it has to wait *)
| Ask (q : Q) (k : R -> prog A)                (* a call, which other threads can overtake *)
| Select (ready : W -> bool) (k : bool -> prog A) (* a channel, or the end of the context *)
| Fork (c : C) (k : prog A).

#[global] Arguments Return {A} _.
#[global] Arguments Crash {A}.
#[global] Arguments Step {A} _.
#[global] Arguments Ask {A} _ _.
#[global] Arguments Select {A} _ _.
#[global] Arguments Fork {A} _ _.

#[export] Instance prog_ret : MRet prog := fun A a => Return a.

#[export] Instance prog_bind : MBind prog := fun A B k =>
  fix bind p :=
    match p with
    | Return a => k a
    | Crash => Crash
    | Step f => Step (fun w => match f w with Some (w', p') => Some (w', bind p') | None => None end)
    | Ask q k' => Ask q (fun r => bind (k' r))
    | Select ready k' => Select ready (fun b => bind (k' b))
    | Fork c p' => Fork c (bind p')
    end.

(** A section under the mutex. *)
Definition locked {A} (f : W -> W * A) : prog A := Step (fun w => let '(w', a) := f w in Some (w', Return a)).
Definition reading {A} (f : W -> A) : prog A := locked (fun w => (w, f w)).
Definition ask (q : Q) : prog R := Ask q Return.

(** ** Systems *)

Context (code : C -> prog unit) (fits : Q -> R -> bool).

Record system := mkSystem { world : W; threads : list (prog unit) }.

(** What the scheduler chooses: which thread runs, with which answer, or which
    side of a select. *)
Inductive event := Runs (tid : nat) | Answered (tid : nat) (r : R) | Selected (tid : nat) (ready : bool).

Definition with_thread (s : system) (tid : nat) (w : W) (p : prog unit) : system := mkSystem w (<[tid := p]> (threads s)).

Definition schedule (s : system) (e : event) : option system :=
  match e with
  | Runs tid =>
      match threads s !! tid with
      | Some (Step f) => match f (world s) with Some (w, p) => Some (with_thread s tid w p) | None => None end
      | Some (Fork c p) => Some (mkSystem (world s) (<[tid := p]> (threads s) ++ [code c]))
      | _ => None
      end
  | Answered tid r =>
      match threads s !! tid with
      | Some (Ask q k) => if fits q r then Some (with_thread s tid (world s) (k r)) else None
      | _ => None
      end
  | Selected tid b =>
      match threads s !! tid with
      | Some (Select ready k) => if negb b || ready (world s) then Some (with_thread s tid (world s) (k b)) else None
      | _ => None
      end
  end.

Fixpoint run_schedule (s : system) (es : list event) : option system :=
  match es with
  | [] => Some s
  | e :: es => match schedule s e with Some s' => run_schedule s' es | None => None end
  end.

(** No select is left by the end of its context. *)
Definition patient (e : event) : bool := match e with Selected _ b => b | _ => true end.

(** A thread runs as far as it can with the given answers. *)
Fixpoint drive (fuel : nat) (tid : nat) (answers : list R) (s : system) : list event * system :=
  match fuel with
  | O => ([], s)
  | S fuel =>
      let go e answers := match schedule s e with
                          | Some s' => let '(es, s'') := drive fuel tid answers s' in (e :: es, s'')
                          | None => ([], s)
                          end in
      match threads s !! tid, answers with
      | Some (Step _ | Fork _ _), _ => go (Runs tid) answers
      | Some (Ask _ _), r :: answers => go (Answered tid r) answers
      | Some (Select _ _), _ => go (Selected tid true) answers
      | _, _ => ([], s)
      end
  end.

Fixpoint drive_all (fuel : nat) (turns : list (nat * list R)) (s : system) : list event * system :=
  match turns with
  | [] => ([], s)
  | (tid, answers) :: turns =>
      let '(es, s) := drive fuel tid answers s in
      let '(es', s) := drive_all fuel turns s in (es ++ es', s)
  end.

Lemma run_schedule_app es es' s s1 : run_schedule s es = Some s1 -> run_schedule s (es ++ es') = run_schedule s1 es'.
Proof.
  revert s. induction es as [|e es IH]; intros s; cbn [app run_schedule]; [by intros [= ->]|]. destruct (schedule s e); [apply IH|done].
Qed.

Lemma drive_runs fuel tid answers s : run_schedule s (drive fuel tid answers s).1 = Some (drive fuel tid answers s).2.
Proof.
  revert answers s. induction fuel as [|fuel IH]; intros answers s; cbn [drive]; [done|].
  assert (forall e answers', let r := match schedule s e with
    | Some s' => let '(es, s'') := drive fuel tid answers' s' in (e :: es, s'') | None => ([], s) end in run_schedule s r.1 = Some r.2) as Hgo.
  { intros e answers'. destruct (schedule s e) as [s'|] eqn:E; [|done]. specialize (IH answers' s').
    destruct (drive fuel tid answers' s') as [es s'']. cbn in *. by rewrite E. }
  destruct (threads s !! tid) as [[]|]; try done; try apply Hgo; destruct answers; try done; apply Hgo.
Qed.

Lemma drive_all_runs fuel turns s : run_schedule s (drive_all fuel turns s).1 = Some (drive_all fuel turns s).2.
Proof.
  revert s. induction turns as [|[tid answers] turns IH]; intros s; cbn [drive_all]; [done|].
  pose proof (drive_runs fuel tid answers s) as Hd. destruct (drive fuel tid answers s) as [es s1]. cbn [fst snd] in Hd.
  specialize (IH s1). destruct (drive_all fuel turns s1) as [es' s2]. cbn [fst snd] in *. by rewrite (run_schedule_app es es' s s1 Hd).
Qed.

Definition returned (s : system) (tid : nat) : bool := match threads s !! tid with Some (Return _) => true | _ => false end.
Definition crashed (s : system) : bool := existsb (fun p => match p with Crash => true | _ => false end) (threads s).

Lemma returned_spec s tid : returned s tid = true -> threads s !! tid = Some (Return tt).
Proof. unfold returned. by destruct (threads s !! tid) as [[[]| | | | |]|]. Qed.

Lemma crashed_spec s : crashed s = true -> Crash ∈ threads s.
Proof. unfold crashed. intros (p & Hin & Hp)%existsb_exists. apply list_elem_of_In in Hin. by destruct p. Qed.

(** ** The logic *)

Context {T : Type} `{Countable T}.
(** What holds between steps, what a token stands for, what the holder of some
    tokens can rely on and has to guarantee, and what a goroutine starts from. *)
Context (I : W -> Prop) (holds : W -> T -> Prop) (R_ G_ : gset T -> W -> W -> Prop) (entry : C -> gset T -> W -> Prop).
(** What holds when the first thread has ended. *)
Context (Final : gset T -> W -> Prop).

Definition rely (ts : gset T) (w w' : W) : Prop := I w' /\ R_ ts w w' /\ (forall t, t ∈ ts -> holds w' t).
Definition guar (ts : gset T) (w w' : W) (ts' : gset T) : Prop :=
  I w' /\ G_ ts w w' /\ (forall t, t ∉ ts -> holds w t -> holds w' t) /\
  (forall t, t ∈ ts' -> holds w' t /\ (t ∈ ts \/ ~ holds w t)).

Section wp.
Context {A : Type} (Q_ : A -> gset T -> W -> Prop).

(** A program with some tokens, started when the state was [w]. *)
Fixpoint wp (p : prog A) (ts : gset T) (w : W) : Prop :=
  match p with
  | Return a => Q_ a ts w
  | Crash => False
  | Step f => forall w1, rely ts w w1 ->
      match f w1 with
      | None => True
      | Some (w2, p') => exists ts', guar ts w1 w2 ts' /\ wp p' ts' w2
      end
  | Ask q k => forall r, fits q r = true -> wp (k r) ts w
  | Select ready k => forall w1, rely ts w w1 -> ready w1 = true -> wp (k true) ts w1
  | Fork c p' => exists given kept, given ## kept /\ given ∪ kept ⊆ ts /\ entry c given w /\ wp p' kept w
  end.
End wp.

Lemma wp_bind {A B} (p : prog A) (k : A -> prog B) Q_ ts w :
  wp (fun a ts' w' => wp Q_ (k a) ts' w') p ts w -> wp Q_ (p ≫= k) ts w.
Proof.
  revert ts w. change (p ≫= k) with (prog_bind A B k p). revert p. fix IH 1. intros p ts w. destruct p as [a| |f|q k'|ready k'|c p']; cbn [wp prog_bind].
  - done.
  - done.
  - intros Hw w1 Hr. specialize (Hw w1 Hr). destruct (f w1) as [[w2 p']|]; [|done].
    destruct Hw as (ts' & Hg & Hp). exists ts'. split; [done|]. by apply IH.
  - intros Hw r Hf. by apply IH, Hw.
  - intros Hw w1 Hr Hd. by apply IH, Hw.
  - intros (given & kept & Hd & Hs & He & Hp). exists given, kept. do 3 (split; [done|]). by apply IH.
Qed.

Lemma wp_mono {A} (p : prog A) (Q_ Q' : A -> gset T -> W -> Prop) ts w :
  (forall a ts w, Q_ a ts w -> Q' a ts w) -> wp Q_ p ts w -> wp Q' p ts w.
Proof.
  intros HQ. revert p ts w. fix IH 1. intros p ts w. destruct p as [a| |f|q k|ready k|c p']; cbn [wp].
  - apply HQ.
  - done.
  - intros Hw w1 Hr. specialize (Hw w1 Hr). destruct (f w1) as [[w2 p']|]; [|done].
    destruct Hw as (ts' & Hg & Hp). exists ts'. split; [done|]. by apply IH.
  - intros Hw r Hf. by apply IH, Hw.
  - intros Hw w1 Hr Hd. by apply IH, Hw.
  - intros (given & kept & Hd & Hs & He & Hp). exists given, kept. do 3 (split; [done|]). by apply IH.
Qed.

Lemma wp_locked {A} (f : W -> W * A) (Q_ : A -> gset T -> W -> Prop) ts w :
  (forall w1, rely ts w w1 -> exists ts', guar ts w1 (f w1).1 ts' /\ Q_ (f w1).2 ts' (f w1).1) -> wp Q_ (locked f) ts w.
Proof. intros HQ w1 Hr. destruct (HQ w1 Hr) as (ts' & Hg & HQ'). destruct (f w1) as [w2 a]. by exists ts'. Qed.

(** An answer of the outside. *)
Lemma wp_answer {A} q (f : R -> A) (Q_ : A -> gset T -> W -> Prop) ts w :
  (forall x, fits q x = true -> Q_ (f x) ts w) -> wp Q_ (a ← ask q; mret (f a)) ts w.
Proof. intros HQ. apply wp_bind. intros r Hr. by apply HQ. Qed.

Lemma rely_holds ts w w' t : rely ts w w' -> t ∈ ts -> holds w' t.
Proof. intros (_ & _ & Hh). apply Hh. Qed.

(** *** Soundness *)

Record laws : Prop := {
  rely_refl : forall ts w, R_ ts w w;
  guar_refl : forall ts w, G_ ts w w;
  rely_trans : forall ts w1 w2 w3, R_ ts w1 w2 -> R_ ts w2 w3 -> R_ ts w1 w3;
  rely_fewer : forall ts ts' w w', ts' ⊆ ts -> R_ ts w w' -> R_ ts' w w';
  guar_rely : forall ts ts' w w', ts ## ts' -> G_ ts w w' -> R_ ts' w w';
  entry_stable : forall c ts w w', entry c ts w -> rely ts w w' -> entry c ts w';
  entry_code : forall c ts w, entry c ts w -> wp (fun _ _ _ => True) (code c) ts w;
  final_stable : forall ts w w', Final ts w -> rely ts w w' -> Final ts w'
}.
Context (L : laws).

Lemma rely_compose ts w1 w2 w3 : rely ts w1 w2 -> rely ts w2 w3 -> rely ts w1 w3.
Proof. intros (_ & H1 & _) (Hi & H2 & Hh). split; [done|]. split; [|done]. by eapply rely_trans. Qed.

Lemma rely_part ts ts' w w' : ts' ⊆ ts -> rely ts w w' -> rely ts' w w'.
Proof. intros Hs (Hi & Hr & Hh). split; [done|]. split; [by eapply rely_fewer|]. intros t Ht. apply Hh. set_solver. Qed.

(** What a program needs is not disturbed by the other threads. *)
Lemma wp_stable {A} (p : prog A) (Q_ : A -> gset T -> W -> Prop) ts w w' :
  (forall a ts w w', Q_ a ts w -> rely ts w w' -> Q_ a ts w') -> wp Q_ p ts w -> rely ts w w' -> wp Q_ p ts w'.
Proof.
  intros HQ. revert p ts w w'. fix IH 1. intros p ts w w' Hp Hr. destruct p as [a| |f|q k|ready k|c p']; cbn [wp] in *.
  - by eapply HQ.
  - done.
  - intros w1 Hr1. apply Hp. by eapply rely_compose.
  - intros r Hf. eapply IH; [by apply Hp|done].
  - intros w1 Hr1 Hd. apply Hp; [by eapply rely_compose|done].
  - destruct Hp as (given & kept & Hd & Hs & He & Hp). exists given, kept. split; [done|]. split; [done|].
    split; [eapply entry_stable; [done|done|apply (rely_part ts); [set_solver|done]]|].
    eapply IH; [done|]. apply (rely_part ts); [set_solver|done].
Qed.

Definition safe (tid : nat) (p : prog unit) (ts : gset T) (w : W) : Prop := wp (fun _ ts w => tid = 0%nat -> Final ts w) p ts w.

(** The tokens of the threads. *)
Definition sound_with (s : system) (tss : list (gset T)) : Prop :=
  I (world s) /\ List.length tss = List.length (threads s) /\
  (forall i j ts ts', i <> j -> tss !! i = Some ts -> tss !! j = Some ts' -> ts ## ts') /\
  (forall i p ts, threads s !! i = Some p -> tss !! i = Some ts -> (forall t, t ∈ ts -> holds (world s) t) /\ safe i p ts (world s)).
Definition sound (s : system) : Prop := exists tss, sound_with s tss.

Lemma safe_stable tid p ts w w' : safe tid p ts w -> rely ts w w' -> safe tid p ts w'.
Proof. apply wp_stable. intros _ ts1 w1 w2 HF Hr Ht. eapply final_stable; [exact L|by apply HF|done]. Qed.

(** One thread takes a step, from the state of [s] to [w]. *)
Lemma sound_update s tss (tid : nat) p ts ts' w p' :
  sound_with s tss -> threads s !! tid = Some p -> tss !! tid = Some ts -> guar ts (world s) w ts' -> safe tid p' ts' w ->
  sound_with (with_thread s tid w p') (<[tid := ts']> tss).
Proof.
  intros (Hi & Hl & Hd & Hs) Hp Ht (Hi' & HG & Hk & Hn) Hp'.
  pose proof (lookup_lt_Some _ _ _ Hp) as Hlt. pose proof (lookup_lt_Some _ _ _ Ht) as Hlt'.
  assert (forall j tj, j <> tid -> tss !! j = Some tj -> ts ## tj /\ ts' ## tj /\ rely tj (world s) w) as Hothers.
  { intros j tj Hj Htj. assert (is_Some (threads s !! j)) as [pj Hpj].
    { apply lookup_lt_is_Some. rewrite <- Hl. by eapply lookup_lt_Some. }
    assert (ts ## tj) as Hdj by (eapply Hd; [|done|done]; done). destruct (Hs j pj tj Hpj Htj) as [Hh _].
    split; [done|]. split.
    - intros t Ha Hb. destruct (Hn t Ha) as [_ [Hin|Hnot]]; [by apply (Hdj t)|]. by apply Hnot, Hh.
    - split; [done|]. split; [by eapply guar_rely|]. intros t Hin. apply Hk; [|by apply Hh]. intros Hin'. by apply (Hdj t). }
  unfold sound_with, with_thread. cbn [world threads]. split; [done|]. split; [by rewrite !length_insert|]. split.
  - intros i j t1 t2 Hij H1 H2. destruct (decide (i = tid)) as [->|Hi1]; [|destruct (decide (j = tid)) as [->|Hj1]].
    + rewrite list_lookup_insert_eq in H1 by done. injection H1 as <-. rewrite list_lookup_insert_ne in H2 by done. by apply (Hothers j).
    + rewrite list_lookup_insert_eq in H2 by done. injection H2 as <-. rewrite list_lookup_insert_ne in H1 by done. symmetry. by apply (Hothers i).
    + rewrite list_lookup_insert_ne in H1 by done. rewrite list_lookup_insert_ne in H2 by done. by apply (Hd i j).
  - intros i q t Hq Ht'. destruct (decide (i = tid)) as [->|Hi1].
    + rewrite list_lookup_insert_eq in Hq by done. rewrite list_lookup_insert_eq in Ht' by done. injection Hq as <-. injection Ht' as <-.
      split; [|done]. intros t Hin. by apply Hn.
    + rewrite list_lookup_insert_ne in Hq by done. rewrite list_lookup_insert_ne in Ht' by done. destruct (Hothers i t Hi1 Ht') as (_ & _ & Hr).
      split; [apply Hr|]. eapply safe_stable; [by apply (Hs i)|done].
Qed.

Lemma sound_threads s tss tid p : sound_with s tss -> threads s !! tid = Some p -> exists ts, tss !! tid = Some ts.
Proof. intros (_ & Hl & _) Hp. apply lookup_lt_is_Some. rewrite Hl. by eapply lookup_lt_Some. Qed.

(** A thread goes on in the same state. *)
Lemma sound_continue s tss (tid : nat) p ts ts' p' :
  sound_with s tss -> threads s !! tid = Some p -> tss !! tid = Some ts -> ts' ⊆ ts -> safe tid p' ts' (world s) ->
  sound_with (with_thread s tid (world s) p') (<[tid := ts']> tss).
Proof.
  intros Hs Hp Ht Hsub Hp'. eapply sound_update; [done|done|done| |done]. destruct Hs as (Hi & _ & _ & Hs). destruct (Hs tid p ts Hp Ht) as [Hh _].
  split; [done|]. split; [apply guar_refl; exact L|]. split; [done|]. intros t Hin. split; [apply Hh; set_solver|left; set_solver].
Qed.

Lemma sound_fork s tss (tid : nat) p ts c given kept p' :
  sound_with s tss -> threads s !! tid = Some p -> tss !! tid = Some ts -> given ## kept -> given ∪ kept ⊆ ts -> entry c given (world s) ->
  safe tid p' kept (world s) ->
  sound_with (mkSystem (world s) (<[tid := p']> (threads s) ++ [code c])) (<[tid := kept]> tss ++ [given]).
Proof.
  intros Hs Hp Ht Hgk Hsub He Hp'. pose proof (lookup_lt_Some _ _ _ Ht) as Hlt.
  assert (sound_with (with_thread s tid (world s) p') (<[tid := kept]> tss)) as (Hi & Hl & Hd & Hall) by (eapply sound_continue; [done|done|done|set_solver|done]).
  destruct Hs as (_ & Hl0 & Hd0 & Hall0). cbn [world threads with_thread] in *.
  assert (forall j tj, <[tid := kept]> tss !! j = Some tj -> given ## tj) as Hg.
  { intros j tj Hj. destruct (decide (j = tid)) as [->|Hne].
    - rewrite list_lookup_insert_eq in Hj by done. by injection Hj as <-.
    - rewrite list_lookup_insert_ne in Hj by done. pose proof (Hd0 tid j ts tj (not_eq_sym Hne) Ht Hj). set_solver. }
  split; [done|]. split; [cbn [threads]; rewrite !length_app; cbn; lia|]. split.
  - intros i j t1 t2 Hij [H1|[Hi1 H1]]%lookup_app_Some [H2|[Hj1 H2]]%lookup_app_Some.
    + by apply (Hd i j).
    + apply list_lookup_singleton_Some in H2 as [_ <-]. symmetry. by apply (Hg i).
    + apply list_lookup_singleton_Some in H1 as [_ <-]. by apply (Hg j).
    + apply list_lookup_singleton_Some in H1 as [? _], H2 as [? _]. lia.
  - cbn [threads]. intros i q t [Hq|[Hi1 Hq]]%lookup_app_Some Htt.
    + rewrite lookup_app_l in Htt by (rewrite Hl; by eapply lookup_lt_Some). by apply (Hall i).
    + apply list_lookup_singleton_Some in Hq as [Hz <-]. rewrite lookup_app_r in Htt by (rewrite Hl; lia).
      apply list_lookup_singleton_Some in Htt as [_ <-]. destruct (Hall0 tid p ts Hp Ht) as [Hh _].
      split; [intros x Hx; apply Hh; set_solver|]. eapply wp_mono; [|by apply entry_code].
      intros _ ts1 w1 _ ->. rewrite length_insert in Hi1. pose proof (lookup_lt_Some _ _ _ Hp). lia.
Qed.

(** Every step of a patient schedule keeps the invariant. *)
Theorem schedule_sound s e s' : sound s -> patient e = true -> schedule s e = Some s' -> sound s'.
Proof.
  intros [tss Hs] He Hr. destruct e as [tid|tid r|tid b]; cbn [schedule] in Hr; destruct (threads s !! tid) as [p|] eqn:Hp; try discriminate;
    destruct (sound_threads s tss tid p Hs Hp) as [ts Ht]; pose proof Hs as (Hi & Hl & Hd & Hall);
    destruct (Hall tid p ts Hp Ht) as [Hh Hw]; destruct p as [a| |f|q k|ready k|c p']; try discriminate; cbn [safe wp] in Hw.
  - assert (rely ts (world s) (world s)) as Hrel by (split; [done|]; split; [by apply rely_refl|done]). specialize (Hw _ Hrel).
    destruct (f (world s)) as [[w' p']|]; [|discriminate]. injection Hr as <-. destruct Hw as (ts' & Hg & Hp').
    eexists. by eapply sound_update.
  - injection Hr as <-. destruct Hw as (given & kept & Hgk & Hsub & Hc & Hp'). eexists. by eapply sound_fork.
  - destruct (fits q r) eqn:Hf; [|discriminate]. injection Hr as <-. eexists. by eapply sound_continue; [done|done|done| |apply Hw].
  - cbn in He. subst b. cbn [negb orb] in Hr. destruct (ready (world s)) eqn:Hrd; [|discriminate]. injection Hr as <-.
    eexists. eapply sound_continue; [done|done|done|reflexivity|]. apply Hw; [|done]. split; [done|]. split; [by apply rely_refl|done].
Qed.

Lemma run_schedule_sound es s s' : sound s -> forallb patient es = true -> run_schedule s es = Some s' -> sound s'.
Proof.
  revert s. induction es as [|e es IH]; intros s Hs; cbn [forallb run_schedule]; [by intros _ [= <-]|].
  intros [He Hes]%andb_true_iff. destruct (schedule s e) as [s1|] eqn:E; [|discriminate]. apply IH; [|done]. by eapply schedule_sound.
Qed.

(** In a sound system no thread panics. *)
Lemma sound_no_crash s : sound s -> Crash ∉ threads s.
Proof.
  intros [tss Hs] Hin. apply list_elem_of_lookup in Hin as [tid Hp]. destruct (sound_threads s tss tid _ Hs Hp) as [ts Ht].
  destruct Hs as (_ & _ & _ & Hall). by destruct (Hall tid _ ts Hp Ht).
Qed.

Lemma sound_final s a : sound s -> threads s !! 0%nat = Some (Return a) -> exists ts, Final ts (world s).
Proof.
  intros [tss Hs] Hp. destruct (sound_threads s tss 0 _ Hs Hp) as [ts Ht]. destruct Hs as (_ & _ & _ & Hall).
  destruct (Hall 0%nat _ ts Hp Ht) as [_ Hf]. exists ts. by apply Hf.
Qed.

Lemma sound_invariant s : sound s -> I (world s).
Proof. by intros [tss [Hi _]]. Qed.
End programs.

Arguments rely_holds {_ _ _ _ _ _ _} ts w w' t _ _.

(** ** A single caller

    A program that is alone runs through, with the answers it is given; waiting
    for a lock would be a deadlock. *)

Section alone.
Context {W C Q R : Type} (fits : Q -> R -> bool).

Inductive outcome (A : Type) :=
| Ended (a : A) (rest : list R) (w : W)
| Unanswered          (* no answer is left, or one that does not fit *)
| Stuck.              (* a panic or a deadlock *)
#[global] Arguments Ended {A} _ _ _.
#[global] Arguments Unanswered {A}.
#[global] Arguments Stuck {A}.

Fixpoint alone {A} (p : prog (W:=W) (C:=C) (Q:=Q) (R:=R) A) (answers : list R) (w : W) : outcome A :=
  match p with
  | Return a => Ended a answers w
  | Step f => match f w with Some (w', p') => alone p' answers w' | None => Stuck end
  | Ask q k =>
      match answers with
      | r :: rest => if fits q r then alone (k r) rest w else Unanswered
      | [] => Unanswered
      end
  | Crash | Select _ _ | Fork _ _ => Stuck
  end.

(** What the scheduler does with the only thread of a system. *)
Lemma alone_scheduled (code : C -> prog unit) (p : prog unit) : forall answers w a rest w', alone p answers w = Ended a rest w' ->
  exists es, run_schedule code fits (mkSystem w [p]) es = Some (mkSystem w' [Return a]).
Proof.
  revert p. fix IH 1. intros p answers w a rest w'. destruct p as [x| |f|q k|ready k|c p']; cbn [alone].
  - intros [= <- _ <-]. by exists [].
  - done.
  - destruct (f w) as [[w1 p1]|] eqn:E; [|done]. intros [es Hes]%IH. exists (Runs 0 :: es). cbn [run_schedule schedule threads lookup list_lookup world].
    by rewrite E.
  - destruct answers as [|r answers]; [done|]. destruct (fits q r) eqn:E; [|done]. intros [es Hes]%IH. exists (Answered 0 r :: es).
    cbn [run_schedule schedule threads lookup list_lookup world]. by rewrite E.
  - done.
  - done.
Qed.

(** Total correctness: [n] is the number of answers that are left. *)
Fixpoint twp {A} (post : A -> nat -> W -> Prop) (p : prog (W:=W) (C:=C) (Q:=Q) (R:=R) A) (n : nat) (w : W) : Prop :=
  match p with
  | Return a => post a n w
  | Step f => match f w with Some (w', p') => twp post p' n w' | None => False end
  | Ask q k => forall r, fits q r = true -> match n with O => True | S n => twp post (k r) n w end
  | Crash | Select _ _ | Fork _ _ => False
  end.

Lemma twp_alone {A} (post : A -> nat -> W -> Prop) (p : prog A) : forall answers w, twp post p (List.length answers) w ->
  match alone p answers w with Ended a rest w' => post a (List.length rest) w' | Unanswered => True | Stuck => False end.
Proof.
  revert p. fix IH 1. intros p answers w. destruct p as [x| |f|q k|ready k|c p']; cbn [alone twp]; try done.
  - destruct (f w) as [[w1 p1]|]; [apply IH|done].
  - intros Hp. destruct answers as [|r answers]; [done|]. destruct (fits q r) eqn:E; [|done]. by apply IH, (Hp r).
Qed.

Lemma twp_mono {A} (post post' : A -> nat -> W -> Prop) (p : prog A) : forall n w,
  (forall a n' w', (n' <= n)%nat -> post a n' w' -> post' a n' w') -> twp post p n w -> twp post' p n w.
Proof.
  revert p. fix IH 1. intros p n w Hpost. destruct p as [x| |f|q k|ready k|c p']; cbn [twp]; try done.
  - by apply Hpost.
  - destruct (f w) as [[w1 p1]|]; [by apply IH|done].
  - intros Hp r Hr. specialize (Hp r Hr). destruct n as [|n]; [done|]. revert Hp. apply IH. intros a n' w' Hn. apply Hpost. lia.
Qed.

Lemma twp_bind {A B} (post : B -> nat -> W -> Prop) (p : prog A) (k : A -> prog B) : forall n w,
  twp (fun a n w => twp post (k a) n w) p n w -> twp post (p ≫= k) n w.
Proof.
  change (p ≫= k) with (prog_bind A B k p). revert p. fix IH 1. intros p n w. destruct p as [x| |f|q k'|ready k'|c p']; cbn [twp prog_bind]; try done.
  - destruct (f w) as [[w1 p1]|]; [apply IH|done].
  - intros Hp r Hr. specialize (Hp r Hr). destruct n as [|n]; [done|]. by apply IH.
Qed.

Lemma twp_locked {A} (post : A -> nat -> W -> Prop) (f : W -> W * A) n w : post (f w).2 n (f w).1 -> twp post (locked f) n w.
Proof. unfold locked. cbn [twp]. by destruct (f w). Qed.

Lemma twp_ask (post : R -> nat -> W -> Prop) q n w :
  (forall r n', n = S n' -> fits q r = true -> post r n' w) -> twp post (ask q) n w.
Proof. intros Hp r Hr. destruct n as [|n]; [done|]. by apply Hp. Qed.
End alone.
