(* ===== verification/TaskRelay.v ===== *)
(** * Relayed tasks of the desktop client ([client/taskrelay])

    The manager that Exchange, Mirror and Preview share: it tracks the traffic
    tasks that this desktop relays, pauses and resumes them, and reconciles them
    with the Gateway.  Its callers and the goroutines of its relays interleave; a
    section under [mu] is one step, a call to the Gateway or a relay lets the
    others in. *)

From S2P Require Import Prelude GoLib GoText GoSort Threads.

(** ** Data *)

Definition StateRunning : string := "running".
Definition StatePausing : string := "pausing".
Definition StatePaused : string := "paused".

(** Errors that [errors.Join] joins; no error is the empty list. *)
Inductive failure :=
| ClosedErr (* [io.EOF], [io.ErrClosedPipe] or [net.ErrClosed] *)
| ContextEnded
| NotManagedLocally
| Failed (message : string).
#[export] Instance failure_eq_dec : EqDecision failure.
Proof. solve_decision. Defined.
Definition errs : Type := list failure.
Definition Join (left right : errs) : errs := left ++ right.
Definition is_nil (e : errs) : bool := match e with [] => true | _ => false end.

Definition ClosedStream (e : errs) : bool := bool_decide (ClosedErr ∈ e).

(** Of a profile and a session, what this code reads. *)
Record Profile := mkProfile { pf_ID : string }.
Record Session := mkSession { ss_ID : string; ss_Namespace : string; ss_State : string }.

Record Target := mkTarget { ServicePort : Z; Protocol : string; LocalHost : string; LocalPort : Z }.

Record Task := mkTask {
  ID : string;
  SessionID : string;
  Namespace : string;
  Service_ : string;
  ClusterIP : string;
  Running : bool;
  Targets : list Target
}.
Definition set_Running (b : bool) (t : Task) : Task :=
  mkTask (ID t) (SessionID t) (Namespace t) (Service_ t) (ClusterIP t) b (Targets t).

(** What [Confirm] changes of the task it is given. *)
Definition confirmed (clusterIP : string) (t : Task) : Task :=
  mkTask (ID t) (SessionID t) (Namespace t) (Service_ t) clusterIP true (Targets t).

(** A task as the Gateway creates it, with its ports. *)
Record ServiceTask := mkServiceTask {
  st_ID : string;
  st_Service : string;
  st_ClusterIP : string;
  st_Running : bool;
  st_Ports : list (string * Z)
}.

Record Entry := mkEntry { en_ProfileID : string; en_Task : Task; en_State : string }.

Inductive Reason := Resumed | Restored.

(** An entry; a relay, a run context and a channel are known by number. *)
Record active := mkActive {
  ac_profileID : string;
  ac_profile : Profile;
  ac_session : Session;
  ac_task : Task;
  ac_relay : option nat;
  ac_cancel : option nat;
  ac_done : option nat;
  ac_state : string
}.
Definition set_state (state : string) (a : active) : active :=
  mkActive (ac_profileID a) (ac_profile a) (ac_session a) (ac_task a) (ac_relay a) (ac_cancel a) (ac_done a) state.
Definition set_released (a : active) : active :=
  mkActive (ac_profileID a) (ac_profile a) (ac_session a) (ac_task a) None None None StatePaused.
Definition set_view (p : Profile) (s : Session) (running : bool) (a : active) : active :=
  mkActive (ac_profileID a) p s (set_Running running (ac_task a)) (ac_relay a) (ac_cancel a) (ac_done a) (ac_state a).

Definition snapshot (a : active) : Entry := mkEntry (ac_profileID a) (ac_task a) (ac_state a).

(** The manager and the objects it points to: entries by address, run contexts
    (whether they are cancelled) and closed channels, both by the address of
    their entry.  [lifecycle] is a lock for readers or one writer. *)
Record Manager := mkManager {
  readers : nat;
  writer : bool;
  closed : bool;
  entries : gmap string nat;
  objects : gmap nat active;
  contexts : gmap nat bool;
  done : gset nat;
  next : nat
}.
Definition set_lifecycle (m : Manager) (r : nat) (w : bool) : Manager :=
  mkManager r w (closed m) (entries m) (objects m) (contexts m) (done m) (next m).
Definition set_closed (m : Manager) : Manager :=
  mkManager (readers m) (writer m) true (entries m) (objects m) (contexts m) (done m) (next m).
Definition set_entries (m : Manager) (es : gmap string nat) : Manager :=
  mkManager (readers m) (writer m) (closed m) es (objects m) (contexts m) (done m) (next m).
Definition set_object (m : Manager) (o : nat) (f : active -> active) : Manager :=
  mkManager (readers m) (writer m) (closed m) (entries m) (alter f o (objects m)) (contexts m) (done m) (next m).
Definition set_cancelled (m : Manager) (c : nat) : Manager :=
  mkManager (readers m) (writer m) (closed m) (entries m) (objects m) (<[c := true]> (contexts m)) (done m) (next m).
Definition set_done (m : Manager) (d : nat) : Manager :=
  mkManager (readers m) (writer m) (closed m) (entries m) (objects m) (contexts m) ({[d]} ∪ done m) (next m).

Definition New : Manager := mkManager 0 false false ∅ ∅ ∅ ∅ 0.

Definition object_at (m : Manager) (id : string) : option (nat * active) :=
  o ← entries m !! id; a ← objects m !! o; Some (o, a).

(** ** The outside: the Gateway, the data plane and relays *)

Inductive question :=
| GatewayPause (p : Profile) (s : Session) (id : string)
| GatewayResume (p : Profile) (s : Session) (id : string)
| GatewayDelete (p : Profile) (s : Session) (id : string)
| GatewayList (p : Profile) (s : Session)
| GatewayCreate (p : Profile) (s : Session) (targets : list Target)
| Open (p : Profile) (t : Task)
| CloseStream (relay : nat)
| ReadReady (relay : nat)
| RelayRun (relay ctx : nat)
| RelayStop (relay : nat)
| Confirm (p : Profile) (s : Session) (stored current : Task) (reason : Reason)
| Order (l : list nat). (* the order in which a map is ranged over *)

Inductive answer :=
| AnErr (e : errs)
| ATask (t : errs + Task)
| ATasks (l : errs + list Task)
| ACreated (t : errs + ServiceTask)
| ARelay (r : errs + nat)
| AnAddress (clusterIP : errs + string)
| AnOrder (l : list nat).

Definition fits (q : question) (a : answer) : bool :=
  match q, a with
  | (GatewayPause _ _ _ | GatewayDelete _ _ _ | CloseStream _ | ReadReady _ | RelayRun _ _ | RelayStop _), AnErr _ => true
  | GatewayResume _ _ _, ATask _ => true
  | GatewayCreate _ _ _, ACreated _ => true
  | GatewayList _ _, ATasks _ => true
  | Open _ _, ARelay _ => true
  | Confirm _ _ _ _ _, AnAddress _ => true
  | Order l, AnOrder l' => bool_decide (l' ≡ₚ l)
  | _, _ => false
  end.

Notation prog := (Threads.prog (W:=Manager) (C:=nat) (Q:=question) (R:=answer)).

Definition ask_err (q : question) : prog errs := a ← ask q; mret match a with AnErr e => e | _ => [] end.
Definition ask_task (q : question) : prog (errs + Task) := a ← ask q; mret match a with ATask t => t | _ => inl [] end.
Definition ask_tasks (q : question) : prog (errs + list Task) := a ← ask q; mret match a with ATasks l => l | _ => inl [] end.
Definition ask_created (q : question) : prog (errs + ServiceTask) := a ← ask q; mret match a with ACreated t => t | _ => inl [] end.
Definition ask_relay (q : question) : prog (errs + nat) := a ← ask q; mret match a with ARelay r => r | _ => inl [] end.
Definition ask_address (q : question) : prog (errs + string) := a ← ask q; mret match a with AnAddress c => c | _ => inl [] end.
Definition ask_order (l : list nat) : prog (list nat) := a ← ask (Order l); mret match a with AnOrder l' => l' | _ => l end.

(** ** Relays *)

(** A pointer that is followed outside the mutex. *)
Definition deref {A} (get : active -> option A) (o : nat) : prog A :=
  Step (fun m => match objects m !! o ≫= get with Some x => Some (m, Return x) | None => Some (m, Crash) end).

(** [entry.cancel()] *)
Definition cancel (o : nat) : prog unit :=
  Step (fun m => match objects m !! o ≫= ac_cancel with
                 | Some c => Some (set_cancelled m c, Return tt)
                 | None => Some (m, Crash)
                 end).

(** The goroutine of a relay; the deferred [close(entry.done)] has read the
    field at the start. *)
Definition run (o : nat) : prog unit :=
  d ← reading (fun m => objects m !! o ≫= ac_done);
  relay ← deref ac_relay o;
  _ ← ask_err (RelayRun relay o);
  _ ← cancel o;
  _ ← locked (fun m =>
        match objects m !! o with
        | Some a => if bool_decide (entries m !! ID (ac_task a) = Some o) && bool_decide (ac_state a = StateRunning)
                    then (set_entries m (delete (ID (ac_task a)) (entries m)), tt) else (m, tt)
        | None => (m, tt)
        end);
  match d with Some d => locked (fun m => (set_done m d, tt)) | None => Crash end.

(** [release]: the local relay is stopped and its goroutine awaited. *)
Definition release (o : nat) : prog errs :=
  relay ← deref ac_relay o;
  stopped ← ask_err (RelayStop relay);
  _ ← cancel o;
  d ← reading (fun m => objects m !! o ≫= ac_done);
  ended ← Select (fun m => match d with Some d => bool_decide (d ∈ done m) | None => false end) Return;
  let streamErr := if (ended : bool) then stopped else Join stopped [ContextEnded] in
  _ ← locked (fun m =>
        match objects m !! o with
        | Some a => if bool_decide (entries m !! ID (ac_task a) = Some o) then (set_object m o set_released, tt) else (m, tt)
        | None => (m, tt)
        end);
  mret streamErr.

(** ** Starting, pausing and resuming *)

Section manager.
Context (name : string) (hasConfirm : bool) {D : Type} (describe : Entry -> D).

Definition errorf (format : string) : errs := [Failed (name +:+ " " +:+ format)].

Definition new_object (m : Manager) (a : active) : Manager * nat :=
  (mkManager (readers m) (writer m) (closed m) (<[ID (ac_task a) := next m]> (entries m)) (<[next m := a]> (objects m))
     (contexts m) (done m) (S (next m)), next m).

(** A running entry with its run context. *)
Definition new_running (m : Manager) (profileID : string) (p : Profile) (s : Session) (t : Task) (relay : nat) : Manager * (nat * D) :=
  let o := next m in
  let a := mkActive profileID p s t (Some relay) (Some o) (Some o) StateRunning in
  let '(m, o) := new_object m a in
  (mkManager (readers m) (writer m) (closed m) (entries m) (objects m) (<[o := false]> (contexts m)) (done m) (next m),
   (o, describe (snapshot a))).

Definition Adopt (p : Profile) (s : Session) (t : Task) (relay : nat) : prog (errs + D) :=
  added ← locked (fun m =>
            if bool_decide (is_Some (entries m !! ID t)) then (m, None)
            else let '(m, x) := new_running m (pf_ID p) p s t relay in (m, Some x));
  match added with
  | None => mret (inl (errorf "Task is already active locally"))
  | Some (o, document) => Fork o (Return (inr document))
  end.

Definition pausable (profileID : string) (a : active) : bool :=
  negb (negb (bool_decide (ac_profileID a = profileID))
        || (negb (bool_decide (ac_state a = "")) && negb (bool_decide (ac_state a = StateRunning)))).

(** [ctx] says whether the context is not nil. *)
Definition Pause (ctx : bool) (profileID taskID : string) : prog errs :=
  if negb ctx then mret (errorf "pause context is required")
  else
    found ← locked (fun m =>
              match object_at m taskID with
              | Some (o, a) => if pausable profileID a then (set_object m o (set_state StatePausing), Some o) else (m, None)
              | None => (m, None)
              end);
    match found with
    | None => mret (errorf "is not active locally")
    | Some o =>
        a ← deref Some o;
        remoteErr ← ask_err (GatewayPause (ac_profile a) (ac_session a) (ID (ac_task a)));
        streamErr ← release o;
        mret (Join remoteErr (if is_nil remoteErr && ClosedStream streamErr then [] else streamErr))
    end.

Definition stopLocal (o : nat) : prog errs :=
  stopping ← locked (fun m =>
               match objects m !! o with
               | Some a => if negb (bool_decide (entries m !! ID (ac_task a) = Some o)) || negb (bool_decide (ac_state a = StateRunning))
                           then (m, false) else (set_object m o (set_state StatePausing), true)
               | None => (m, false)
               end);
  if negb (stopping : bool) then mret []
  else
    streamErr ← release o;
    mret (if ClosedStream streamErr then [] else streamErr).

(** [fail]: a resumption that fails here is undone at the Gateway. *)
Definition fail (paused : nat) (reason : Reason) (e : errs) : prog (errs + D) :=
  match reason with
  | Restored => mret (inl e)
  | Resumed =>
      a ← deref Some paused;
      e' ← ask_err (GatewayPause (ac_profile a) (ac_session a) (ID (ac_task a)));
      mret (inl (Join e e'))
  end.

Definition startLocal (paused : nat) (current : Task) (reason : Reason) : prog (errs + D) :=
  a ← deref Some paused;
  let task := set_Running true (ac_task a) in
  opened ← ask_relay (Open (ac_profile a) task);
  match opened with
  | inl e => fail paused reason e
  | inr relay =>
      notReady ← ask_err (ReadReady relay);
      if negb (is_nil notReady) then _ ← ask_err (CloseStream relay); fail paused reason notReady
      else
        a ← deref Some paused;
        address ← (if hasConfirm then ask_address (Confirm (ac_profile a) (ac_session a) task current reason) else mret (inr ""));
        match address with
        | inl e =>
            _ ← ask_err (RelayStop relay);
            _ ← ask_err (CloseStream relay);
            fail paused reason e
        | inr clusterIP =>
            let task := if hasConfirm then confirmed clusterIP task else task in
            a ← deref Some paused;
            '(o, document) ← locked (fun m => new_running m (ac_profileID a) (ac_profile a) (ac_session a) task relay);
            Fork o (Return (inr document))
        end
  end.

Definition Resume (ctx : bool) (profileID taskID : string) : prog (errs + D) :=
  if negb ctx then mret (inl (errorf "resume context is required"))
  else
    paused ← reading (fun m =>
               match object_at m taskID with
               | Some (o, a) => if negb (bool_decide (ac_profileID a = profileID)) || negb (bool_decide (ac_state a = StatePaused))
                                then None else Some o
               | None => None
               end);
    match paused with
    | None => mret (inl (errorf "is not paused locally"))
    | Some o =>
        a ← deref Some o;
        resumed ← ask_task (GatewayResume (ac_profile a) (ac_session a) (ID (ac_task a)));
        match resumed with
        | inl e => mret (inl e)
        | inr current => startLocal o current Resumed
        end
    end.

Definition delete_entry (taskID : string) : prog unit := locked (fun m => (set_entries m (delete taskID (entries m)), tt)).

Definition Delete (ctx : bool) (profileID taskID : string) : prog errs :=
  if negb ctx then mret (errorf "delete context is required")
  else
    entry ← reading (fun m => object_at m taskID);
    match entry with
    | None => mret [NotManagedLocally]
    | Some (o, a) =>
        if negb (bool_decide (ac_profileID a = profileID)) then mret [NotManagedLocally]
        else
          a ← deref Some o;
          pauseErr ← (if bool_decide (ac_state a = StateRunning) then Pause ctx profileID taskID else mret []);
          a ← deref Some o;
          deleteErr ← ask_err (GatewayDelete (ac_profile a) (ac_session a) (ID (ac_task a)));
          _ ← (if is_nil deleteErr then delete_entry taskID else mret tt);
          mret (Join pauseErr deleteErr)
    end.

Definition Stop (ctx : bool) (profileID taskID : string) : prog errs :=
  e ← Pause ctx profileID taskID;
  _ ← (if is_nil e then delete_entry taskID else mret tt);
  mret e.

(** ** Whole profiles *)

Definition RLock : prog unit := Step (fun m => if writer m then None else Some (set_lifecycle m (S (readers m)) false, Return tt)).
Definition RUnlock : prog unit := locked (fun m => (set_lifecycle m (readers m - 1) (writer m), tt)).
Definition Lock : prog unit :=
  Step (fun m => if writer m || negb (bool_decide (readers m = 0%nat)) then None else Some (set_lifecycle m 0 true, Return tt)).
Definition Unlock : prog unit := locked (fun m => (set_lifecycle m (readers m) false, tt)).

Fixpoint for_each {X} (l : list X) (body : X -> prog errs) (result : errs) : prog errs :=
  match l with
  | [] => mret result
  | x :: l => e ← body x; for_each l body (Join result e)
  end.

Definition with_lifecycle (body : prog errs) : prog errs :=
  _ ← Lock;
  result ← body;
  _ ← Unlock;
  mret result.

Definition running_in (profileID : string) (a : active) : bool :=
  bool_decide (ac_profileID a = profileID) && (bool_decide (ac_state a = "") || bool_decide (ac_state a = StateRunning)).

Definition listed (m : Manager) : list (string * (nat * active)) :=
  omap (fun '(id, o) => a ← objects m !! o; Some (id, (o, a))) (map_to_list (entries m)).

Definition Sort (ids : list string) : list string := SortFunc compareString ids.

Definition runningIDs (m : Manager) (profileID : string) : list string :=
  Sort (map fst (filter (fun e => running_in profileID e.2.2) (listed m))).

Definition StopProfile (ctx : bool) (profileID : string) : prog errs :=
  if negb ctx then mret (errorf "stop Profile context is required")
  else with_lifecycle (ids ← reading (fun m => runningIDs m profileID); for_each ids (Stop ctx profileID) []).

Definition is_running (m : Manager) (id : string) : bool :=
  match object_at m id with Some (_, a) => bool_decide (ac_state a = StateRunning) | None => false end.

Definition PauseProfile (ctx : bool) (profileID : string) : prog errs :=
  if negb ctx then mret (errorf "pause Profile context is required")
  else with_lifecycle (
    ids ← reading (fun m => runningIDs m profileID);
    for_each ids (fun id =>
      running ← reading (fun m => is_running m id);
      if (running : bool) then Pause ctx profileID id else mret []) []).

Definition ReleaseProfile (ctx : bool) (profileID : string) : prog errs :=
  if negb ctx then mret (errorf "release Profile context is required")
  else with_lifecycle (
    found ← reading (fun m => map (fun e => e.2.1) (filter (fun e => running_in profileID e.2.2) (listed m)));
    found ← ask_order found;
    for_each found stopLocal []).

Definition Shutdown (ctx : bool) : prog errs :=
  if negb ctx then mret (errorf "shutdown context is required")
  else with_lifecycle (
    _ ← locked (fun m => (set_closed m, tt));
    found ← reading (fun m => (Sort (map fst (listed m)), list_to_map (M:=gmap string string) (map (fun e => (e.1, ac_profileID e.2.2)) (listed m))));
    let '(ids, profiles) := found : list string * gmap string string in
    for_each ids (fun id =>
      running ← reading (fun m => is_running m id);
      if (running : bool) then Stop ctx (default "" (profiles !! id)) id else mret []) []).

Definition Closed : prog bool := _ ← RLock; b ← reading closed; _ ← RUnlock; mret b.

(** [Hold]; when it answers [false], the lock is held until the caller releases
    it. *)
Definition Hold : prog bool :=
  _ ← RLock;
  b ← reading closed;
  if b : bool then _ ← RUnlock; mret true else mret false.

Definition List_ (m : Manager) (profileID : string) : list D :=
  let snapshots := map (fun e => snapshot e.2.2)
    (filter (fun e => bool_decide (profileID = "") || bool_decide (ac_profileID e.2.2 = profileID)) (listed m)) in
  map describe (SortFunc (fun left right => compareString (ID (en_Task left)) (ID (en_Task right))) snapshots).

(** ** Reconciling with the Gateway *)

Definition track (p : Profile) (s : Session) (t : Task) : prog nat :=
  locked (fun m => new_object m (mkActive (pf_ID p) p s t None None None StatePaused)).

Definition Track (p : Profile) (s : Session) (t : Task) : prog D :=
  o ← track p s t;
  a ← deref Some o;
  mret (describe (snapshot a)).

(** Entries of older Sessions of the profile are cancelled and dropped. *)
Definition stale (profileID sessionID : string) (a : active) : bool :=
  bool_decide (ac_profileID a = profileID) && negb (bool_decide (ss_ID (ac_session a) = sessionID)).

Definition drop_one (profileID sessionID : string) (m : Manager) (e : string * (nat * active)) : Manager :=
  let '(id, (o, a)) := e in
  if stale profileID sessionID a
  then set_entries (match ac_cancel a with Some c => set_cancelled m c | None => m end) (delete id (entries m))
  else m.

Definition drop_stale (profileID sessionID : string) (m : Manager) : Manager := foldl (drop_one profileID sessionID) m (listed m).

Definition dropStaleSessions (profileID sessionID : string) : prog unit := locked (fun m => (drop_stale profileID sessionID m, tt)).

Definition ignore_document (r : errs + D) : errs := match r with inl e => e | inr _ => [] end.

Definition reconcile (p : Profile) (s : Session) (t : Task) : prog errs :=
  found ← locked (fun m =>
            match object_at m (ID t) with
            | Some (o, a) => (set_object m o (set_view p s (Running t)), Some (o, ac_state a))
            | None => (m, None)
            end);
  match found with
  | Some (o, state) =>
      if Running t && bool_decide (state = StatePaused) then r ← startLocal o t Restored; mret (ignore_document r)
      else if negb (Running t) && bool_decide (state = StateRunning) then stopLocal o
      else mret []
  | None =>
      o ← track p s t;
      if negb (Running t) then mret []
      else
        r ← startLocal o t Restored;
        match r with
        | inr _ => mret []
        | inl e =>
            _ ← locked (fun m => if bool_decide (entries m !! ID t = Some o) then (set_entries m (delete (ID t) (entries m)), tt) else (m, tt));
            mret e
        end
  end.

Fixpoint reconcile_all (p : Profile) (s : Session) (tasks : list Task) : prog errs :=
  match tasks with
  | [] => mret []
  | t :: tasks => e ← reconcile p s t; if is_nil e then reconcile_all p s tasks else mret e
  end.

Definition Restore (p : Profile) (s : Session) : prog errs :=
  tasks ← ask_tasks (GatewayList p s);
  match tasks with
  | inl e => mret e
  | inr tasks => _ ← dropStaleSessions (pf_ID p) (ss_ID s); reconcile_all p s tasks
  end.

(** ** Starting a task ([exchange/manager.go], [mirror/manager.go]) *)

Definition relayTask (t : ServiceTask) (s : Session) : Task :=
  mkTask (st_ID t) (ss_ID s) (ss_Namespace s) (st_Service t) (st_ClusterIP t) (st_Running t) [].
Definition with_targets (targets : list Target) (t : Task) : Task :=
  mkTask (ID t) (SessionID t) (Namespace t) (Service_ t) (ClusterIP t) true targets.

Definition TargetKey (protocol : string) (port : Z) : string := ToLower protocol +:+ "/" +:+ pretty port.

Fixpoint match_ports (want : gset string) (ports : list (string * Z)) : bool :=
  match ports with
  | [] => true
  | (protocol, port) :: ports =>
      let key := TargetKey protocol port in
      if bool_decide (key ∈ want) then match_ports (want ∖ {[key]}) ports else false
  end.

Definition matchTaskTargets (t : ServiceTask) (targets : list Target) : errs :=
  if negb (List.length (st_Ports t) =? List.length targets)%nat then [Failed "gateway changed the requested ports"]
  else if match_ports (list_to_set (map (fun x => TargetKey (Protocol x) (ServicePort x)) targets)) (st_Ports t) then []
  else [Failed "gateway changed the requested ports"].

Definition sessionActive : string := "active".

(** [targets] is what normalizing the targets of the request gives. *)
Definition start_held (ctx : bool) (p : Profile) (s : Session) (requestProfileID : string) (targets : errs + list Target) : prog (errs + D) :=
  if negb ctx || negb (bool_decide (TrimSpace requestProfileID = pf_ID p)) || negb (bool_decide (ss_State s = sessionActive))
  then mret (inl [Failed "active Server Profile Session is required"])
  else
    match targets with
    | inl e => mret (inl e)
    | inr targets =>
        created ← ask_created (GatewayCreate p s targets);
        match created with
        | inl e => mret (inl e)
        | inr task =>
            let discard cause : prog (errs + D) := e ← ask_err (GatewayDelete p s (st_ID task)); mret (inl (Join cause e)) in
            let mismatch := matchTaskTargets task targets in
            if negb (is_nil mismatch) then discard mismatch
            else
              let relayed := with_targets targets (relayTask task s) in
              opened ← ask_relay (Open p relayed);
              match opened with
              | inl e => discard e
              | inr relay =>
                  notReady ← ask_err (ReadReady relay);
                  if negb (is_nil notReady) then _ ← ask_err (CloseStream relay); discard notReady
                  else
                    adopted ← Adopt p s relayed relay;
                    match adopted with
                    | inl e => _ ← ask_err (CloseStream relay); discard e
                    | inr info => mret (inr info)
                    end
              end
        end
    end.

Definition Start (ctx : bool) (p : Profile) (s : Session) (requestProfileID : string) (targets : errs + list Target) : prog (errs + D) :=
  refused ← Hold;
  if (refused : bool) then mret (inl [Failed "manager is closed"])
  else
    r ← start_held ctx p s requestProfileID targets;
    _ ← RUnlock;
    mret r.

(** ** Clients of the manager *)

Inductive call :=
| CStart (ctx : bool) (p : Profile) (s : Session) (requestProfileID : string) (targets : errs + list Target)
| CPause (ctx : bool) (profileID taskID : string)
| CResume (ctx : bool) (profileID taskID : string)
| CDelete (ctx : bool) (profileID taskID : string)
| CStop (ctx : bool) (profileID taskID : string)
| CStopProfile (ctx : bool) (profileID : string)
| CPauseProfile (ctx : bool) (profileID : string)
| CReleaseProfile (ctx : bool) (profileID : string)
| CRestore (p : Profile) (s : Session)
| CShutdown (ctx : bool)
| CClosed
| CTrack (p : Profile) (s : Session) (t : Task).

Definition ignore {A} (p : prog A) : prog unit := _ ← p; mret tt.

Definition run_call (c : call) : prog unit :=
  match c with
  | CStart ctx p s id targets => ignore (Start ctx p s id targets)
  | CPause ctx p t => ignore (Pause ctx p t)
  | CResume ctx p t => ignore (Resume ctx p t)
  | CDelete ctx p t => ignore (Delete ctx p t)
  | CStop ctx p t => ignore (Stop ctx p t)
  | CStopProfile ctx p => ignore (StopProfile ctx p)
  | CPauseProfile ctx p => ignore (PauseProfile ctx p)
  | CReleaseProfile ctx p => ignore (ReleaseProfile ctx p)
  | CRestore p s => ignore (Restore p s)
  | CShutdown ctx => ignore (Shutdown ctx)
  | CClosed => ignore Closed
  | CTrack p s t => ignore (Track p s t)
  end.

Fixpoint client (calls : list call) : prog unit :=
  match calls with
  | [] => mret tt
  | c :: calls => _ ← run_call c; client calls
  end.

(** The manager with its clients. *)
Definition start (clients : list (list call)) : system := mkSystem New (map client clients).
End manager.

(** ** What holds between steps *)

(** An entry has its relay, run context and channel until its goroutine has
    ended and it was released. *)
Definition held (o : nat) (a : active) : Prop :=
  is_Some (ac_relay a) /\ ac_cancel a = Some o /\ ac_done a = Some o /\ (ac_state a = StateRunning \/ ac_state a = StatePausing).
Definition freed (a : active) : Prop :=
  ac_relay a = None /\ ac_cancel a = None /\ ac_done a = None /\ ac_state a = StatePaused.

(** It is not shown as running. *)
Definition settled (m : Manager) (o : nat) : Prop :=
  forall a, objects m !! o = Some a -> entries m !! ID (ac_task a) = Some o -> ac_state a <> StateRunning.

Record wf (m : Manager) : Prop := {
  wf_entries : forall id o, entries m !! id = Some o -> exists a, objects m !! o = Some a /\ ID (ac_task a) = id;
  wf_next : forall o a, objects m !! o = Some a -> (o < next m)%nat;
  wf_contexts : forall c, is_Some (contexts m !! c) -> is_Some (objects m !! c);
  wf_objects : forall o a, objects m !! o = Some a ->
    (held o a /\ is_Some (contexts m !! o)) \/ (freed a /\ (contexts m !! o = None \/ o ∈ done m));
  wf_done : forall o, o ∈ done m -> contexts m !! o = Some true /\ settled m o
}.

(** Every relay that is not cancelled is listed. *)
Definition managed (m : Manager) : Prop :=
  forall o, contexts m !! o = Some false -> exists a, objects m !! o = Some a /\ entries m !! ID (ac_task a) = Some o.

(** What never changes, whoever steps. *)
Record evolves (m m' : Manager) : Prop := {
  ev_next : (next m <= next m')%nat;
  ev_object : forall o a, objects m !! o = Some a -> exists a', objects m' !! o = Some a' /\ ID (ac_task a') = ID (ac_task a) /\
    ac_profileID a' = ac_profileID a /\ (ac_state a <> StateRunning -> ac_state a' <> StateRunning);
  ev_done : done m ⊆ done m';
  ev_context : forall c, is_Some (contexts m !! c) -> is_Some (contexts m' !! c);
  ev_cancelled : forall c, contexts m !! c = Some true -> contexts m' !! c = Some true;
  ev_listed : forall id o, entries m' !! id = Some o -> (o < next m)%nat -> entries m !! id = Some o
}.

(** What the goroutines of relays do. *)
Record relay_step (m m' : Manager) : Prop := {
  rs_objects : objects m' = objects m;
  rs_next : next m' = next m;
  rs_entries : entries m' ⊆ entries m;
  rs_contexts : forall c, contexts m' !! c = Some false -> contexts m !! c = Some false
}.

Lemma evolves_refl m : evolves m m.
Proof. split; eauto. Qed.

Lemma evolves_trans m1 m2 m3 : evolves m1 m2 -> evolves m2 m3 -> evolves m1 m3.
Proof.
  intros [A1 A2 A3 A6 A4 A5] [B1 B2 B3 B6 B4 B5]. split; [lia| |set_solver|eauto|eauto|].
  - intros o a Ha. destruct (A2 o a Ha) as (a2 & Ha2 & I2 & P2 & S2). destruct (B2 o a2 Ha2) as (a3 & Ha3 & I3 & P3 & S3).
    exists a3. split; [done|]. split; [congruence|]. split; [congruence|]. auto.
  - intros id o Ho Hlt. apply A5; [|done]. apply B5; [done|lia].
Qed.

Lemma relay_step_refl m : relay_step m m.
Proof. split; eauto. Qed.

Lemma relay_step_trans m1 m2 m3 : relay_step m1 m2 -> relay_step m2 m3 -> relay_step m1 m3.
Proof. intros [A1 A2 A3 A4] [B1 B2 B3 B4]. split; [congruence|congruence|by etrans|eauto]. Qed.

(** ** Tokens *)

(** The right to release an entry that is being paused, the duty to close the
    channel of a relay, and being the only client. *)
Inductive token := Releasing (o : nat) | Relaying (o : nat) | Driver.
#[export] Instance token_eq_dec : EqDecision token.
Proof. solve_decision. Defined.
#[export] Instance token_countable : Countable token.
Proof.
  apply (inj_countable' (fun t => match t with Releasing o => inl (inl o) | Relaying o => inl (inr o) | Driver => inr tt end)
    (fun x => match x with inl (inl o) => Releasing o | inl (inr o) => Relaying o | inr _ => Driver end)).
  by intros [].
Defined.

Definition holds (m : Manager) (t : token) : Prop :=
  match t with
  | Releasing o => exists a, objects m !! o = Some a /\ ac_state a = StatePausing
  | Relaying o => is_Some (contexts m !! o) /\ o ∉ done m
  | Driver => True
  end.


(** ** Changes of the manager *)

Section logic.
(** With [alone] there is a single client, which holds [Driver]. *)
Context (alone : bool).

(** A change that keeps the invariants. *)
Record change (m m' : Manager) : Prop := {
  ch_wf : wf m';
  ch_evolves : evolves m m';
  ch_managed : alone = true -> managed m -> managed m'
}.

Lemma settled_evolves m m' o : is_Some (objects m !! o) -> wf m -> evolves m m' -> settled m o -> settled m' o.
Proof.
  intros [a Ha] Hw He Hs a' Ha' Hl. destruct (ev_object _ _ He o a Ha) as (a2 & Ha2 & Hid & _ & Hst).
  rewrite Ha' in Ha2. injection Ha2 as <-. rewrite Hid in Hl. apply Hst, Hs; [done|].
  apply (ev_listed _ _ He); [done|]. by eapply wf_next.
Qed.

Lemma done_evolves m m' : wf m -> evolves m m' -> forall o, o ∈ done m -> contexts m' !! o = Some true /\ settled m' o.
Proof.
  intros Hw He o Ho. destruct (wf_done m Hw o Ho) as [Hc Hs]. split; [by apply (ev_cancelled _ _ He)|].
  eapply settled_evolves; [|done|done|done]. apply (wf_contexts m Hw). by rewrite Hc.
Qed.

Lemma lookup_cancelled m o c : is_Some (contexts m !! o) ->
  (contexts (set_cancelled m o) !! c = Some false -> contexts m !! c = Some false) /\
  (contexts m !! c = Some true -> contexts (set_cancelled m o) !! c = Some true) /\
  (contexts (set_cancelled m o) !! c = None <-> contexts m !! c = None).
Proof.
  intros [b Hb]. cbn. destruct (decide (c = o)) as [->|Hne].
  - rewrite lookup_insert_eq, Hb. done.
  - by rewrite lookup_insert_ne.
Qed.

Lemma change_cancel m o : wf m -> is_Some (contexts m !! o) -> change m (set_cancelled m o) /\ relay_step m (set_cancelled m o).
Proof.
  intros Hw Ho. pose proof (lookup_cancelled m o) as Hl.
  assert (evolves m (set_cancelled m o)) as He by (split; [cbn; lia|cbn; eauto|done| |intros c; by apply Hl|done]; intros c Hc; apply not_eq_None_Some; intros Hn%(Hl c Ho); rewrite Hn in Hc; by destruct Hc).
  split; [split|split]; try done.
  - split; [exact (wf_entries m Hw)|exact (wf_next m Hw)| | |exact (done_evolves m _ Hw He)].
    + intros c Hc. apply (wf_contexts m Hw). apply not_eq_None_Some. intros Hn. apply (Hl c Ho) in Hn. rewrite Hn in Hc. by destruct Hc.
    + intros c a Ha. destruct (wf_objects m Hw c a Ha) as [[Hh Hc]|[Hf Hc]]; [left|right]; (split; [done|]).
      * apply not_eq_None_Some. intros Hn%(Hl c Ho). rewrite Hn in Hc. by destruct Hc.
      * destruct Hc as [Hc|Hc]; [left; by apply Hl|by right].
  - intros _ Hm c Hc. apply Hm. by apply (Hl c Ho).
  - intros c. by apply Hl.
Qed.

(** An entry changes. *)
Lemma change_object m o a f :
  wf m -> objects m !! o = Some a -> ID (ac_task (f a)) = ID (ac_task a) -> ac_profileID (f a) = ac_profileID a ->
  (ac_state a <> StateRunning -> ac_state (f a) <> StateRunning) ->
  (held o a -> is_Some (contexts m !! o) -> (held o (f a) \/ freed (f a) /\ o ∈ done m)) -> (freed a -> freed (f a)) ->
  change m (set_object m o f).
Proof.
  intros Hw Ha Hid Hp Hst Hheld Hfreed.
  assert (forall x ax, objects m !! x = Some ax -> exists ax', objects (set_object m o f) !! x = Some ax' /\ (ax' = ax \/ x = o /\ ax' = f a)) as Hlk.
  { intros x ax Hx. cbn. destruct (decide (x = o)) as [->|Hne].
    - rewrite lookup_alter_eq, Ha. eexists. split; [done|]. by right.
    - rewrite lookup_alter_ne by done. eexists. split; [done|by left]. }
  assert (forall x ax', objects (set_object m o f) !! x = Some ax' -> x = o /\ ax' = f a \/ x <> o /\ objects m !! x = Some ax') as Hinv.
  { intros x ax'. cbn. destruct (decide (x = o)) as [->|Hne].
    - rewrite lookup_alter_eq, Ha. intros [= <-]. by left.
    - rewrite lookup_alter_ne by done. by right. }
  assert (evolves m (set_object m o f)) as He.
  { split; [done| |done|done|done|done]. intros x ax Hx. destruct (Hlk x ax Hx) as (ax' & Hx' & [->|[-> ->]]); [by exists ax|].
    rewrite Ha in Hx. injection Hx as <-. by exists (f a). }
  split; [split|done|].
  - intros id x Hx. destruct (wf_entries m Hw id x Hx) as (ax & Hax & Hidx). destruct (Hlk x ax Hax) as (ax' & Hx' & [->|[-> ->]]); [by exists ax|].
    rewrite Ha in Hax. injection Hax as <-. exists (f a). by rewrite Hid.
  - intros x ax' [[-> _]|[_ Hx]]%Hinv; [by apply (wf_next m Hw o a)|by apply (wf_next m Hw x ax')].
  - intros c Hc. destruct (wf_contexts m Hw c Hc) as [ax Hx]. destruct (Hlk c ax Hx) as (ax' & Hx' & _). by exists ax'.
  - intros x ax' [[-> ->]|[_ Hx]]%Hinv; [|by apply (wf_objects m Hw)].
    destruct (wf_objects m Hw o a Ha) as [[Hh Hc]|[Hf Hc]].
    + destruct (Hheld Hh Hc) as [Hh'|[Hf' Hd]]; [by left|right]. split; [done|by right].
    + right. by split; [apply Hfreed|].
  - exact (done_evolves m _ Hw He).
  - intros _ Hm c Hc. destruct (Hm c Hc) as (ax & Hax & Hl). destruct (Hlk c ax Hax) as (ax' & Hx' & [->|[-> ->]]); [by exists ax|].
    rewrite Ha in Hax. injection Hax as <-. exists (f a). by rewrite Hid.
Qed.

Lemma change_pausing m o a : wf m -> objects m !! o = Some a -> ac_state a = StateRunning -> change m (set_object m o (set_state StatePausing)).
Proof.
  intros Hw Ha Hr. apply (change_object m o a); try done.
  - intros (H1 & H2 & H3 & _) _. left. split; [done|]. split; [done|]. split; [done|by right].
  - intros (_ & _ & _ & Hp). rewrite Hr in Hp. discriminate.
Qed.

Lemma change_released m o a :
  wf m -> objects m !! o = Some a -> o ∈ done m -> change m (set_object m o set_released).
Proof. intros Hw Ha Hd. apply (change_object m o a); try done. intros _ _. right. done. Qed.

Lemma change_view m o a p s b : wf m -> objects m !! o = Some a -> change m (set_object m o (set_view p s b)).
Proof. intros Hw Ha. apply (change_object m o a); try done. intros (H1 & H2 & H3 & H4) _. by left. Qed.

(** An entry is dropped from the list. *)
Lemma change_delete m id :
  wf m -> (alone = true -> forall o, entries m !! id = Some o -> contexts m !! o <> Some false) ->
  change m (set_entries m (delete id (entries m))) /\ relay_step m (set_entries m (delete id (entries m))).
Proof.
  intros Hw Hid. assert (forall x o, delete id (entries m) !! x = Some o -> entries m !! x = Some o) as Hsub.
  { intros x o. by intros [_ Hx]%lookup_delete_Some. }
  assert (evolves m (set_entries m (delete id (entries m)))) as He by (split; cbn; eauto).
  split; [split|]; [split|done| |].
  - intros x o Hx. by apply (wf_entries m Hw), Hsub.
  - exact (wf_next m Hw).
  - exact (wf_contexts m Hw).
  - exact (wf_objects m Hw).
  - exact (done_evolves m _ Hw He).
  - intros Hal Hm c Hc. destruct (Hm c Hc) as (a & Ha & Hl). exists a. split; [done|]. cbn. rewrite lookup_delete_ne; [done|].
    intros ->. by apply (Hid Hal c).
  - split; [done|done|apply delete_subseteq|done].
Qed.

(** A relay has ended. *)
Lemma change_done m o :
  wf m -> contexts m !! o = Some true -> settled m o -> change m (set_done m o) /\ relay_step m (set_done m o).
Proof.
  intros Hw Hc Hs. assert (evolves m (set_done m o)) as He by (split; cbn; [lia|eauto|set_solver|done|done|done]).
  split; [split|]; [split|done|done|by split].
  - exact (wf_entries m Hw).
  - exact (wf_next m Hw).
  - exact (wf_contexts m Hw).
  - intros x a Ha. destruct (wf_objects m Hw x a Ha) as [?|[Hf Hx]]; [by left|right]. split; [done|]. destruct Hx; [by left|right]. cbn. set_solver.
  - intros x. cbn. intros [->%elem_of_singleton|Hx]%elem_of_union; [done|]. by apply (done_evolves m _ Hw He).
Qed.

(** The lock and the flag. *)
Lemma change_flags m m' :
  entries m' = entries m -> objects m' = objects m -> contexts m' = contexts m -> done m' = done m -> next m' = next m -> wf m ->
  change m m' /\ relay_step m m'.
Proof.
  destruct m, m'. cbn. intros -> -> -> -> -> Hw. split; [split|]; [by destruct Hw|by split; cbn; eauto|done|by split].
Qed.

Lemma change_refl m : wf m -> change m m.
Proof. intros Hw. split; [done|apply evolves_refl|done]. Qed.

Lemma change_trans m1 m2 m3 : change m1 m2 -> change m2 m3 -> change m1 m3.
Proof. intros [A1 A2 A3] [B1 B2 B3]. split; [done|by eapply evolves_trans|auto]. Qed.

Lemma fresh_object m : wf m -> objects m !! next m = None /\ contexts m !! next m = None /\ next m ∉ done m.
Proof.
  intros Hw. assert (objects m !! next m = None) as Ho.
  { destruct (objects m !! next m) eqn:E; [|done]. apply (wf_next m Hw) in E. lia. }
  assert (contexts m !! next m = None) as Hc.
  { destruct (contexts m !! next m) eqn:E; [|done]. destruct (wf_contexts m Hw (next m)) as [a Ha]; [by eexists|]. congruence. }
  split; [done|]. split; [done|]. intros Hd. destruct (wf_done m Hw _ Hd). congruence.
Qed.

(** A new entry takes the place of one that is not running under a relay. *)
Lemma change_new m a ctx :
  wf m -> (alone = true -> forall o, entries m !! ID (ac_task a) = Some o -> contexts m !! o <> Some false) ->
  (if ctx : bool then held (next m) a else freed a) ->
  change m (let m' := (new_object m a).1 in
            mkManager (readers m') (writer m') (closed m') (entries m') (objects m')
              (if ctx then <[next m := false]> (contexts m') else contexts m') (done m') (next m')).
Proof.
  intros Hw Hold Ha. destruct (fresh_object m Hw) as (Ho & Hc & Hd). cbn [new_object fst readers writer closed entries objects contexts done next].
  set (m' := mkManager _ _ _ _ _ _ _ _).
  assert (forall c, c <> next m -> contexts m' !! c = contexts m !! c) as Hcne by (intros c Hne; cbn; destruct ctx; [by rewrite lookup_insert_ne|done]).
  assert (forall x ax, objects m' !! x = Some ax -> x = next m /\ ax = a \/ x <> next m /\ objects m !! x = Some ax) as Hinv.
  { intros x ax. cbn. destruct (decide (x = next m)) as [->|Hne]; [rewrite lookup_insert_eq; intros [= <-]; by left|].
    rewrite lookup_insert_ne by done. by right. }
  assert (forall x ax, objects m !! x = Some ax -> x <> next m /\ objects m' !! x = Some ax) as Hlk.
  { intros x ax Hx. assert (x <> next m) as Hne by congruence. split; [done|]. cbn. by rewrite lookup_insert_ne. }
  assert (evolves m m') as He.
  { split; [cbn; lia| |done| | |].
    - intros x ax Hx. exists ax. split; [by apply Hlk|done].
    - intros c [v Hv]. rewrite Hcne; [by exists v|]. congruence.
    - intros c Htrue. rewrite Hcne; [done|]. congruence.
    - intros id x. cbn. destruct (decide (ID (ac_task a) = id)) as [->|Hne]; [rewrite lookup_insert_eq; intros [= <-]; lia|by rewrite lookup_insert_ne]. }
  split; [split|done|].
  - intros id x. cbn. destruct (decide (ID (ac_task a) = id)) as [<-|Hne].
    + rewrite lookup_insert_eq. intros [= <-]. exists a. by rewrite lookup_insert_eq.
    + rewrite lookup_insert_ne by done. intros Hx. destruct (wf_entries m Hw id x Hx) as (ax & Hax & Hid). exists ax. split; [by apply Hlk|done].
  - intros x ax [[-> _]|[_ Hx]]%Hinv; cbn; [lia|]. apply (wf_next m Hw) in Hx. lia.
  - intros c Hcs. destruct (decide (c = next m)) as [->|Hne]; [cbn; rewrite lookup_insert_eq; by eexists|].
    rewrite Hcne in Hcs by done. destruct (wf_contexts m Hw c Hcs) as [ax Hax]. exists ax. by apply Hlk.
  - intros x ax [[-> ->]|[Hne Hx]]%Hinv.
    + destruct ctx; [left|right]; (split; [done|]); cbn; [by rewrite lookup_insert_eq|by left].
    + rewrite Hcne by done. by apply (wf_objects m Hw).
  - exact (done_evolves m _ Hw He).
  - intros Hal Hm c Hcf. destruct (decide (c = next m)) as [->|Hne].
    + exists a. cbn. by rewrite !lookup_insert_eq.
    + rewrite Hcne in Hcf by done. destruct (Hm c Hcf) as (ax & Hax & Hl). exists ax. split; [by apply Hlk|]. cbn.
      rewrite lookup_insert_ne; [done|]. intros He'. rewrite <- He' in Hl. by apply (Hold Hal c Hl).
Qed.

(** *** Dropping the entries of older Sessions *)

Lemma listed_spec m id o a : (id, (o, a)) ∈ listed m <-> entries m !! id = Some o /\ objects m !! o = Some a.
Proof.
  unfold listed. rewrite list_elem_of_omap. split.
  - intros ([id' o'] & Hin & Hx). apply elem_of_map_to_list in Hin. destruct (objects m !! o') as [a'|] eqn:E; [|done]. injection Hx as -> -> ->. done.
  - intros [He Ho]. exists (id, o). split; [by apply elem_of_map_to_list|]. by rewrite Ho.
Qed.

(** An entry without a run context that is not cancelled. *)
Lemma freed_context m o a : wf m -> objects m !! o = Some a -> ac_state a = StatePaused -> contexts m !! o <> Some false.
Proof.
  intros Hw Ha Hs. destruct (wf_objects m Hw o a Ha) as [[(_ & _ & _ & [Hr|Hr]) _]|[_ [Hc|Hd]]]; [by rewrite Hs in Hr|by rewrite Hs in Hr|congruence|].
  destruct (wf_done m Hw o Hd). congruence.
Qed.

Lemma change_drop_one p s m e :
  wf m -> (entries m !! e.1 = None \/ entries m !! e.1 = Some e.2.1) -> objects m !! e.2.1 = Some e.2.2 ->
  change m (drop_one p s m e) /\ objects (drop_one p s m e) = objects m /\ entries (drop_one p s m e) ⊆ entries m /\ done (drop_one p s m e) = done m.
Proof.
  destruct e as [id [o a]]. cbn [fst snd]. intros Hw Hl Ha. unfold drop_one. destruct (stale p s a); [|by split; [apply change_refl|]].
  destruct (wf_objects m Hw o a Ha) as [[(_ & Hc & _) Hctx]|[Hf _]].
  - rewrite Hc. destruct (change_cancel m o Hw Hctx) as [Hch _].
    destruct (change_delete (set_cancelled m o) id (ch_wf _ _ Hch)) as [Hch' Hrs].
    + intros _ o' Ho'. cbn in Ho'. destruct Hl as [Hl|Hl]; [congruence|]. assert (o' = o) as -> by congruence. cbn. by rewrite lookup_insert_eq.
    + split; [by eapply change_trans|]. split; [done|]. split; [|done]. exact (rs_entries _ _ Hrs).
  - destruct Hf as (_ & Hc & _ & Hs). rewrite Hc. destruct (change_delete m id Hw) as [Hch Hrs].
    + intros _ o' Ho'. destruct Hl as [Hl|Hl]; [congruence|]. assert (o' = o) as -> by congruence. by eapply freed_context.
    + split; [done|]. split; [done|]. split; [exact (rs_entries _ _ Hrs)|done].
Qed.

Lemma change_drop_stale p s m :
  wf m -> change m (drop_stale p s m) /\ objects (drop_stale p s m) = objects m /\ entries (drop_stale p s m) ⊆ entries m /\ done (drop_stale p s m) = done m.
Proof.
  intros Hw. unfold drop_stale.
  assert (forall l m0, change m m0 -> objects m0 = objects m -> entries m0 ⊆ entries m -> done m0 = done m -> Forall (fun e => e ∈ listed m) l ->
    change m (foldl (drop_one p s) m0 l) /\ objects (foldl (drop_one p s) m0 l) = objects m /\ entries (foldl (drop_one p s) m0 l) ⊆ entries m /\
    done (foldl (drop_one p s) m0 l) = done m) as Hgen.
  { induction l as [|e l IH]; intros m0 Hch Ho Hsub Hn Hall; [done|]. apply Forall_cons in Hall as [He Hall]. cbn [foldl].
    destruct e as [id [o a]]. apply listed_spec in He as [Hid Ha].
    destruct (change_drop_one p s m0 (id, (o, a)) (ch_wf _ _ Hch)) as (Hch' & Ho' & Hsub' & Hn').
    - cbn. destruct (entries m0 !! id) as [o'|] eqn:E; [right|by left]. apply (lookup_weaken _ _ _ _ E) in Hsub. congruence.
    - cbn. by rewrite Ho.
    - apply IH; [by eapply change_trans|congruence|by etrans|congruence|done]. }
  apply Hgen; [by apply change_refl|done|done|done|]. by apply Forall_forall.
Qed.
Definition inv (m : Manager) : Prop := wf m /\ (alone = true -> managed m).
Definition others (ts : gset token) (m m' : Manager) : Prop := evolves m m' /\ (alone = true -> Driver ∈ ts -> relay_step m m').
Definition keeps (ts : gset token) (m m' : Manager) : Prop := evolves m m' /\ (alone = true -> Driver ∉ ts -> relay_step m m').
Definition relay_entry (o : nat) (ts : gset token) (m : Manager) : Prop := ts = {[Relaying o]}.
Definition all_stopped (m : Manager) : Prop := forall c, contexts m !! c <> Some false.

Notation wp := (Threads.wp fits inv holds others keeps relay_entry).
Notation rely := (Threads.rely inv holds others).
Notation guar := (Threads.guar inv holds keeps).

(** The tokens of a client between calls. *)
Definition idle : gset token := if alone then {[Driver]} else ∅.

(** *** Rules for steps *)

Lemma rely_here ts m : inv m -> (forall t, t ∈ ts -> holds m t) -> rely ts m m.
Proof. intros Hi Hh. split; [done|]. split; [|done]. split; [apply evolves_refl|]. intros. apply relay_step_refl. Qed.

Lemma rely_wf ts m m' : rely ts m m' -> wf m'.
Proof. intros ([Hw _] & _). done. Qed.

Lemma rely_evolves ts m m' : rely ts m m' -> evolves m m'.
Proof. intros (_ & [He _] & _). done. Qed.

Lemma rely_alone ts m m' : rely ts m m' -> alone = true -> Driver ∈ ts -> relay_step m m'.
Proof. intros (_ & [_ Hr] & _). done. Qed.

Lemma others_trans ts m1 m2 m3 : others ts m1 m2 -> others ts m2 m3 -> others ts m1 m3.
Proof. intros [A1 A2] [B1 B2]. split; [by eapply evolves_trans|]. intros Hal Hd. eapply relay_step_trans; auto. Qed.

Lemma rely_then ts m1 m2 m3 : rely ts m1 m2 -> rely ts m2 m3 -> rely ts m1 m3.
Proof. intros (_ & H1 & _) (Hi & H2 & Hh). split; [done|]. split; [by eapply others_trans|done]. Qed.

(** A step that changes nothing. *)
Lemma guar_same ts m m0 : rely ts m0 m -> guar ts m m ts.
Proof.
  intros Hr. split; [apply Hr|]. split; [split; [apply evolves_refl|intros; apply relay_step_refl]|]. split; [done|].
  intros t Ht. split; [by eapply rely_holds|by left].
Qed.

Lemma wp_reading {A} (f : Manager -> A) (Q : A -> gset token -> Manager -> Prop) ts m :
  (forall m1, rely ts m m1 -> Q (f m1) ts m1) -> wp Q (reading f) ts m.
Proof. intros HQ m1 Hr. exists ts. split; [by eapply guar_same|]. by apply HQ. Qed.

Lemma wp_deref {A} (get : active -> option A) (Q : A -> gset token -> Manager -> Prop) ts m o :
  (forall m1, rely ts m m1 -> exists a x, objects m1 !! o = Some a /\ get a = Some x /\ Q x ts m1) -> wp Q (deref get o) ts m.
Proof.
  intros HQ m1 Hr. destruct (HQ m1 Hr) as (a & x & Ha & Hx & HQx). rewrite Ha. cbn [mbind option_bind]. rewrite Hx.
  exists ts. split; [by eapply guar_same|done].
Qed.

Lemma wp_reply {A} q (f : answer -> A) (Q : A -> gset token -> Manager -> Prop) ts m :
  (forall x, Q x ts m) -> wp Q (a ← ask q; mret (f a)) ts m.
Proof. intros HQ. apply wp_answer. auto. Qed.

(** *** Rules for changes *)

Lemma guar_change ts ts' m0 m m' :
  rely ts m0 m -> change m m' -> (alone = true -> Driver ∉ ts -> relay_step m m') -> (forall t, t ∉ ts -> holds m t -> holds m' t) ->
  (forall t, t ∈ ts' -> holds m' t /\ (t ∈ ts \/ ~ holds m t)) -> guar ts m m' ts'.
Proof.
  intros ([_ Hm] & _) [Hw He Hm'] Hr Ht Hn. split; [split; [done|auto]|]. split; [by split|]. by split.
Qed.

Lemma holds_kept m m' t :
  evolves m m' -> done m' ⊆ done m ->
  (forall o a, t = Releasing o -> objects m !! o = Some a -> ac_state a = StatePausing -> holds m' (Releasing o)) -> holds m t -> holds m' t.
Proof.
  intros He Hd Hr. destruct t as [o|o|]; cbn [holds].
  - intros (a & Ha & Hs). by eapply Hr.
  - intros [Hc Hnd]. split; [by apply (ev_context _ _ He)|set_solver].
  - done.
Qed.

Lemma holds_same m m' t : evolves m m' -> done m' ⊆ done m -> objects m' = objects m -> holds m t -> holds m' t.
Proof. intros He Hd Ho. apply holds_kept; [done|done|]. intros o a _ Ha Hs. exists a. by rewrite Ho. Qed.

(** A step after which the thread has the same tokens. *)
Lemma guar_tokens ts m0 m m' :
  rely ts m0 m -> change m m' -> (alone = true -> Driver ∉ ts -> relay_step m m') -> (forall t, holds m t -> holds m' t) -> guar ts m m' ts.
Proof.
  intros Hr Hc Hrs Ht. eapply guar_change; [done|done|done|auto|]. intros t Hin. split; [apply Ht; by eapply rely_holds|by left].
Qed.

(** *** The goroutine of a relay *)

Lemma relaying_held m o : wf m -> holds m (Relaying o) -> exists a, objects m !! o = Some a /\ held o a.
Proof.
  intros Hw [Hc Hd]. destruct (wf_contexts m Hw o Hc) as [a Ha]. exists a. split; [done|].
  destruct (wf_objects m Hw o a Ha) as [[Hh _]|[_ [Hn|Hn]]]; [done|by rewrite Hn in Hc; destruct Hc|done].
Qed.

Lemma releasing_held m o : wf m -> holds m (Releasing o) -> exists a, objects m !! o = Some a /\ held o a /\ is_Some (contexts m !! o).
Proof.
  intros Hw (a & Ha & Hs). exists a. split; [done|]. destruct (wf_objects m Hw o a Ha) as [[Hh Hc]|[(_ & _ & _ & Hp) _]]; [done|].
  rewrite Hs in Hp. discriminate.
Qed.

Lemma cancel_spec o (Q : unit -> gset token -> Manager -> Prop) ts m :
  (Releasing o ∈ ts \/ Relaying o ∈ ts) -> (forall m', evolves m m' -> contexts m' !! o = Some true -> (alone = true -> Driver ∈ ts -> relay_step m m') -> Q tt ts m') ->
  wp Q (cancel o) ts m.
Proof.
  intros Ht HQ m1 Hr. pose proof (rely_wf _ _ _ Hr) as Hw.
  assert (exists a, objects m1 !! o = Some a /\ held o a /\ is_Some (contexts m1 !! o)) as (a & Ha & (_ & Hc & _) & Hctx).
  { destruct Ht as [Ht|Ht]; pose proof (rely_holds _ _ _ _ Hr Ht) as Hh; [by apply releasing_held|].
    destruct (relaying_held m1 o Hw Hh) as (a & Ha & Hheld). exists a. split; [done|]. split; [done|]. by destruct Hh. }
  rewrite Ha. cbn [mbind option_bind]. rewrite Hc. destruct (change_cancel m1 o Hw Hctx) as [Hch Hrs].
  exists ts. split; [eapply guar_tokens; [done|done|done|]; intros t; by apply holds_same; [apply Hch| |]|].
  cbn [wp]. apply HQ.
  - eapply evolves_trans; [by eapply rely_evolves|apply Hch].
  - cbn. by rewrite lookup_insert_eq.
  - intros Hal Hd. eapply relay_step_trans; [by eapply rely_alone|done].
Qed.

Lemma run_spec o ts m : relay_entry o ts m -> wp (fun _ _ _ => True) (run o) ts m.
Proof.
  intros ->. unfold run. apply wp_bind, wp_reading. intros m1 Hr1.
  destruct (relaying_held m1 o (rely_wf _ _ _ Hr1)) as (a & Ha & Hh); [eapply rely_holds; [done|set_solver]|].
  rewrite Ha. cbn [mbind option_bind]. destruct Hh as (_ & _ & Hd & _). rewrite Hd.
  apply wp_bind, wp_deref. intros m2 Hr2.
  destruct (relaying_held m2 o (rely_wf _ _ _ Hr2)) as (a2 & Ha2 & [r Hr] & _); [eapply rely_holds; [done|set_solver]|].
  exists a2, r. split; [done|]. split; [done|]. apply wp_bind, wp_reply. intros _. apply wp_bind, cancel_spec; [right; set_solver|].
  intros m3 _ Hc3 _. apply wp_bind, wp_locked. intros m4 Hr4. pose proof (rely_wf _ _ _ Hr4) as Hw4.
  assert (contexts m4 !! o = Some true) as Hc4 by (by eapply ev_cancelled; [eapply rely_evolves|]).
  destruct (relaying_held m4 o Hw4) as (a4 & Ha4 & _); [eapply rely_holds; [done|set_solver]|]. rewrite Ha4.
  assert (exists m5, (if bool_decide (entries m4 !! ID (ac_task a4) = Some o) && bool_decide (ac_state a4 = StateRunning)
     then (set_entries m4 (delete (ID (ac_task a4)) (entries m4)), tt) else (m4, tt)) = (m5, tt) /\
     change m4 m5 /\ relay_step m4 m5 /\ objects m5 = objects m4 /\ done m5 = done m4 /\ contexts m5 = contexts m4 /\ settled m5 o) as (m5 & -> & Hch & Hrs & Ho5 & Hd5 & Hc5 & Hs5).
  { destruct (bool_decide _ && bool_decide _) eqn:E.
    - apply andb_true_iff in E as [E1%bool_decide_eq_true _]. destruct (change_delete m4 (ID (ac_task a4)) Hw4) as [Hch Hrs]; [intros _ o' Ho'; congruence|].
      eexists. split; [done|]. split; [done|]. split; [done|]. split; [done|]. split; [done|]. split; [done|].
      intros a5 Ha5. cbn in Ha5 |- *. assert (a5 = a4) as -> by congruence. by rewrite lookup_delete_eq.
    - exists m4. split; [done|]. split; [by apply change_refl|]. split; [apply relay_step_refl|]. split; [done|]. split; [done|]. split; [done|].
      intros a5 Ha5 Hl. assert (a5 = a4) as -> by congruence. apply andb_false_iff in E as [E|E]; by apply bool_decide_eq_false in E. }
  cbn [fst snd]. exists {[Relaying o]}. split.
  { eapply guar_tokens; [done|done|done|]. intros t. apply holds_same; [apply Hch|by rewrite Hd5|done]. }
  apply wp_locked. intros m6 Hr6. pose proof (rely_wf _ _ _ Hr6) as Hw6. pose proof (rely_evolves _ _ _ Hr6) as He6.
  assert (contexts m6 !! o = Some true) as Hc6 by (by eapply ev_cancelled; [done|congruence]).
  assert (settled m6 o) as Hs6 by (eapply settled_evolves; [rewrite Ho5; by eexists|apply Hch|done|done]).
  destruct (change_done m6 o Hw6 Hc6 Hs6) as [Hch6 Hrs6]. exists ∅. split; [|done]. cbn [fst].
  eapply guar_change; [done|done|done| |set_solver]. intros t Hne Hh. destruct t as [x|x|]; [exact Hh| |done].
  destruct Hh as [Hx Hnd]. split; [done|]. cbn. set_solver.
Qed.

(** *** Releasing an entry *)

Definition releasing (o : nat) : gset token := {[Releasing o]} ∪ idle.

Lemma idle_driver : alone = true -> Driver ∈ idle.
Proof. unfold idle. intros ->. set_solver. Qed.

Lemma idle_driver_only t : t ∈ idle -> t = Driver.
Proof. unfold idle. destruct alone; set_solver. Qed.

Lemma releasing_driver o : alone = true -> Driver ∈ releasing o.
Proof. intros Ha. apply elem_of_union_r. by apply idle_driver. Qed.

(** No listed entry is being paused, but for [except]. *)
Definition quiet_but (except : option nat) (m : Manager) : Prop :=
  forall id o a, entries m !! id = Some o -> objects m !! o = Some a -> Some o <> except -> ac_state a <> StatePausing.
Notation quiet := (quiet_but None).

(** Only [o] has changed, and nothing was listed. *)
Definition only (o : nat) (m m' : Manager) : Prop :=
  entries m' ⊆ entries m /\ forall x, x <> o -> objects m' !! x = objects m !! x.

(** An entry that is listed under an identifier is paused. *)
Definition paused_at (m : Manager) (id : string) : Prop :=
  forall o a, entries m !! id = Some o -> objects m !! o = Some a -> ac_state a = StatePaused.

Lemma only_refl o m : only o m m.
Proof. done. Qed.
Lemma only_trans o m1 m2 m3 : only o m1 m2 -> only o m2 m3 -> only o m1 m3.
Proof. intros [A1 A2] [B1 B2]. split; [by etrans|]. intros x Hx. rewrite B2, A2; done. Qed.
Lemma relay_only o m m' : relay_step m m' -> only o m m'.
Proof. intros [H1 _ H2 _]. split; [done|]. intros x _. by rewrite H1. Qed.

Lemma quiet_shrinks x m m' : entries m' ⊆ entries m -> (forall o, Some o <> x -> objects m' !! o = objects m !! o) -> quiet_but x m -> quiet_but x m'.
Proof. intros Hs Ho Hq id o a Hl Ha Hne. rewrite Ho in Ha by done. apply (Hq id o a); [by eapply lookup_weaken|done|done]. Qed.

Lemma quiet_relay x m m' : relay_step m m' -> quiet_but x m -> quiet_but x m'.
Proof. intros [H1 _ H2 _]. apply quiet_shrinks; [done|]. intros o _. by rewrite H1. Qed.

Lemma paused_relay m m' id : relay_step m m' -> paused_at m id -> paused_at m' id.
Proof. intros [H1 _ H2 _] Hp o a Hl Ha. rewrite H1 in Ha. apply (Hp o a); [by eapply lookup_weaken|done]. Qed.

Lemma release_spec o ts m (Q : errs -> gset token -> Manager -> Prop) :
  ts = releasing o ->
  (alone = true -> quiet_but (Some o) m) ->
  (forall e m', evolves m m' -> (alone = true -> only o m m' /\ quiet m' /\
     forall a, objects m' !! o = Some a -> entries m' !! ID (ac_task a) = Some o -> ac_state a = StatePaused) -> Q e idle m') ->
  wp Q (release o) ts m.
Proof.
  intros -> Hq HQ. unfold release. apply wp_bind, wp_deref. intros m1 Hr1. pose proof (rely_wf _ _ _ Hr1) as Hw1.
  assert (Releasing o ∈ releasing o) as Hin by (unfold releasing; set_solver).
  destruct (releasing_held m1 o Hw1) as (a1 & Ha1 & ([r Hrl] & _) & _); [by eapply rely_holds|].
  exists a1, r. split; [done|]. split; [done|]. apply wp_bind, wp_reply. intros stopped. apply wp_bind, cancel_spec; [by left|].
  intros m2 He2 _ Hrs2. apply wp_bind, wp_reading. intros m3 Hr3.
  destruct (releasing_held m3 o (rely_wf _ _ _ Hr3)) as (a3 & Ha3 & (_ & _ & Hd3 & _) & _); [by eapply rely_holds|].
  rewrite Ha3. cbn [mbind option_bind]. rewrite Hd3. apply wp_bind. intros m4 Hr4 Hdone. apply bool_decide_eq_true in Hdone. cbn [wp].
  apply wp_bind, wp_locked. intros m5 Hr5. pose proof (rely_wf _ _ _ Hr5) as Hw5.
  assert (o ∈ done m5) as Hd5 by (by apply (ev_done _ _ (rely_evolves _ _ _ Hr5))).
  destruct (releasing_held m5 o Hw5) as (a5 & Ha5 & _); [by eapply rely_holds|]. rewrite Ha5.
  assert (evolves m m5) as He5.
  { eapply evolves_trans; [by eapply rely_evolves|]. eapply evolves_trans; [done|]. eapply evolves_trans; [by eapply rely_evolves|].
    eapply evolves_trans; by eapply rely_evolves. }
  assert (alone = true -> relay_step m m5) as Hrs5.
  { intros Hal. pose proof (releasing_driver o Hal) as Hdr. eapply relay_step_trans; [by eapply rely_alone|]. eapply relay_step_trans; [by apply Hrs2|].
    eapply relay_step_trans; [by eapply rely_alone|]. eapply relay_step_trans; by eapply rely_alone. }
  exists idle. destruct (bool_decide (entries m5 !! ID (ac_task a5) = Some o)) eqn:El; cbn [fst snd].
  - pose proof (change_released m5 o a5 Hw5 Ha5 Hd5) as Hch. split.
    + eapply guar_change; [done|done| | |].
      * intros Hal Hnd. destruct (Hnd (releasing_driver o Hal)).
      * intros t Ht. apply holds_kept; [apply Hch|done|]. intros x a -> Hx Hs. exists a. cbn. rewrite lookup_alter_ne; [done|]. intros ->. done.
      * intros t Ht. rewrite (idle_driver_only t Ht). split; [done|]. left. by rewrite (idle_driver_only t Ht) in Ht; apply elem_of_union_r.
    + cbn [wp]. apply HQ; [eapply evolves_trans; [done|apply Hch]|]. intros Hal. split; [|split].
      * eapply only_trans; [by apply relay_only, Hrs5|]. split; [done|]. intros x Hx. cbn. by rewrite lookup_alter_ne.
      * intros id x a Hl Ha _. cbn in Hl, Ha. destruct (decide (x = o)) as [->|Hne].
        -- rewrite lookup_alter_eq, Ha5 in Ha. by injection Ha as <-.
        -- rewrite lookup_alter_ne in Ha by done. eapply (quiet_relay (Some o) m m5); [by apply Hrs5|by apply Hq|done|done|congruence].
      * intros a Ha _. cbn in Ha. rewrite lookup_alter_eq, Ha5 in Ha. by injection Ha as <-.
  - split.
    + eapply guar_change; [done|by apply change_refl| |done|].
      * intros Hal Hnd. destruct (Hnd (releasing_driver o Hal)).
      * intros t Ht. rewrite (idle_driver_only t Ht). split; [done|]. left. by rewrite (idle_driver_only t Ht) in Ht; apply elem_of_union_r.
    + cbn [wp]. apply bool_decide_eq_false in El. apply HQ; [done|]. intros Hal. split; [by apply relay_only, Hrs5|]. split.
      * intros id x a Hl Ha _. eapply (quiet_relay (Some o) m m5); [by apply Hrs5|by apply Hq|done|done|]. intros [= ->].
        destruct (wf_entries m5 Hw5 id o Hl) as (a' & Ha' & Hid). assert (a' = a5) as -> by congruence. congruence.
      * intros a Ha Hl. assert (a = a5) as -> by congruence. done.
Qed.

(** *** Pausing *)

Lemma object_at_spec m id o a : object_at m id = Some (o, a) <-> entries m !! id = Some o /\ objects m !! o = Some a.
Proof.
  unfold object_at. destruct (entries m !! id) as [o'|]; cbn [mbind option_bind]; [|by split; [|intros [? _]]].
  destruct (objects m !! o') as [a'|] eqn:E; cbn [mbind option_bind]; split; try (by intros [= <- <-]); intros [[= <-] Ha]; congruence.
Qed.

Lemma pausable_running m o a profileID : wf m -> objects m !! o = Some a -> pausable profileID a = true -> ac_state a = StateRunning.
Proof.
  intros Hw Ha Hp. unfold pausable in Hp. bool_hyps.
  destruct (wf_objects m Hw o a Ha) as [[(_ & _ & _ & [Hs|Hs]) _]|[(_ & _ & _ & Hs) _]]; [done|rewrite Hs in *; done|rewrite Hs in *; done].
Qed.

Lemma state_cases m o a : wf m -> objects m !! o = Some a ->
  ac_state a = StateRunning \/ ac_state a = StatePausing \/ ac_state a = StatePaused.
Proof.
  intros Hw Ha. destruct (wf_objects m Hw o a Ha) as [[(_ & _ & _ & [H|H]) _]|[(_ & _ & _ & H) _]]; [by left|by right; left|by right; right].
Qed.

(** An entry of the profile that cannot be paused is paused. *)
Lemma not_pausable m o a profileID id :
  wf m -> quiet m -> entries m !! id = Some o -> objects m !! o = Some a -> ac_profileID a = profileID -> pausable profileID a = false -> ac_state a = StatePaused.
Proof.
  intros Hw Hq Hl Ha Hp Hn. destruct (state_cases m o a Hw Ha) as [Hs|[Hs|Hs]]; [|by destruct (Hq id o a Hl Ha)|done].
  unfold pausable in Hn. rewrite Hs, Hp, !bool_decide_eq_true_2 in Hn by done. by rewrite andb_false_r in Hn.
Qed.

(** An entry goes to be released. *)
Lemma guar_pausing m0 m o a :
  rely idle m0 m -> objects m !! o = Some a -> ac_state a = StateRunning -> guar idle m (set_object m o (set_state StatePausing)) (releasing o).
Proof.
  intros Hr Ha Hs. pose proof (change_pausing m o a (rely_wf _ _ _ Hr) Ha Hs) as Hch. eapply guar_change; [done|done| | |].
  - intros Hal Hd. destruct (Hd (idle_driver Hal)).
  - intros t _. apply holds_kept; [apply Hch|done|]. intros x ax -> Hx Hp. exists ax. cbn. rewrite lookup_alter_ne; [done|]. intros ->.
    assert (ax = a) as -> by congruence. rewrite Hs in Hp. discriminate.
  - intros t [->%elem_of_singleton|Ht]%elem_of_union.
    + split; [|right].
      * exists (set_state StatePausing a). split; [|done]. cbn. by rewrite lookup_alter_eq, Ha.
      * intros (a' & Ha' & Hs'). assert (a' = a) as -> by congruence. rewrite Hs in Hs'. discriminate.
    + rewrite (idle_driver_only t Ht) in Ht |- *. split; [done|by left].
Qed.

Lemma rely_relay m m' : rely idle m m' -> alone = true -> relay_step m m'.
Proof. intros Hr Hal. eapply rely_alone; [done|done|by apply idle_driver]. Qed.

(** What pausing the entry of an identifier leaves when there is one client. *)
Record paused_result (id : string) (m m' : Manager) : Prop := {
  pr_quiet : quiet m';
  pr_entries : entries m' ⊆ entries m;
  pr_objects : forall x, entries m !! id <> Some x -> objects m' !! x = objects m !! x
}.

Lemma pausing_only m o : only o m (set_object m o (set_state StatePausing)).
Proof. split; [done|]. intros x Hx. cbn. by rewrite lookup_alter_ne. Qed.

Lemma pausing_quiet m o : quiet m -> quiet_but (Some o) (set_object m o (set_state StatePausing)).
Proof.
  intros Hq id x a Hl Ha Hne. cbn in Hl, Ha. rewrite lookup_alter_ne in Ha by congruence. by apply (Hq id x a).
Qed.

Lemma Pause_spec name ctx profileID id m (Q : errs -> gset token -> Manager -> Prop) :
  (alone = true -> quiet m) ->
  (forall e m', evolves m m' -> (alone = true -> paused_result id m m' /\
     (ctx = true -> forall o a, entries m' !! id = Some o -> objects m' !! o = Some a -> ac_profileID a = profileID -> ac_state a = StatePaused) /\
     (e = [] -> paused_at m' id)) -> Q e idle m') ->
  wp Q (Pause name ctx profileID id) idle m.
Proof.
  intros Hq HQ. unfold Pause. destruct ctx; cbn [negb]; [|cbn [wp]; apply HQ; [apply evolves_refl|]; intros Hal; by split; [split; [apply Hq| |]|]].
  apply wp_bind, wp_locked. intros m1 Hr1. pose proof (rely_wf _ _ _ Hr1) as Hw1.
  assert (forall (o : nat) (a : active), object_at m1 id = Some (o, a) -> pausable profileID a = true ->
    guar idle m1 (set_object m1 o (set_state StatePausing)) (releasing o)) as Hg.
  { intros o a [_ Ha]%object_at_spec Hp. eapply guar_pausing; [done|done|by eapply pausable_running]. }
  assert (match object_at m1 id with
          | Some (o, a) => if pausable profileID a then (set_object m1 o (set_state StatePausing), Some o) else (m1, None)
          | None => (m1, None)
          end = (m1, None) /\ (forall o a, object_at m1 id = Some (o, a) -> pausable profileID a = false) \/
          exists o a, object_at m1 id = Some (o, a) /\ pausable profileID a = true /\
          match object_at m1 id with
          | Some (o, a) => if pausable profileID a then (set_object m1 o (set_state StatePausing), Some o) else (m1, None)
          | None => (m1, None)
          end = (set_object m1 o (set_state StatePausing), Some o)) as [[-> Hno]|(o & a & Hat & Hp & ->)].
  { destruct (object_at m1 id) as [[o a]|] eqn:E; [|by left]. destruct (pausable profileID a) eqn:Ep; [right; by exists o, a|left].
    split; [done|]. by intros ? ? [= <- <-]. }
  - exists idle. split; [by eapply guar_same|]. cbn [fst snd wp]. apply HQ; [by eapply rely_evolves|]. intros Hal.
    pose proof (rely_relay _ _ Hr1 Hal) as Hrs. split; [split|split; [|done]].
    + eapply quiet_relay; [done|auto].
    + apply Hrs.
    + intros x _. by rewrite (rs_objects _ _ Hrs).
    + intros _ o a Hl Ha Hpid. eapply (not_pausable m1 o a profileID id); [done| |done|done|done|apply (Hno o a); by apply object_at_spec].
      eapply quiet_relay; [done|auto].
  - exists (releasing o). split; [by eapply Hg|]. apply object_at_spec in Hat as [Hl Ha]. cbn [fst snd].
    pose proof (pausable_running m1 o a profileID Hw1 Ha Hp) as Hs. pose proof (ch_evolves _ _ (change_pausing m1 o a Hw1 Ha Hs)) as He1.
    set (m2 := set_object m1 o (set_state StatePausing)) in *.
    assert (exists a2, objects m2 !! o = Some a2) as [a2 Ha2] by (destruct (ev_object _ _ He1 o a Ha) as (a2 & ? & _); by exists a2).
    apply wp_bind, wp_deref. intros m3 Hr3. destruct (ev_object _ _ (rely_evolves _ _ _ Hr3) o a2 Ha2) as (a3 & Ha3 & _).
    exists a3, a3. split; [done|]. split; [done|]. apply wp_bind, wp_reply. intros remoteErr. apply wp_bind. eapply release_spec; [done| |].
    + intros Hal. eapply quiet_relay; [eapply rely_alone; [done|done|by apply releasing_driver]|]. apply pausing_quiet.
      eapply quiet_relay; [by apply (rely_relay _ _ Hr1)|auto].
    + intros streamErr m' He' Hx. cbn [wp]. assert (evolves m1 m') as He1' by (eapply evolves_trans; [done|]; eapply evolves_trans; [by eapply rely_evolves|done]).
      apply HQ; [eapply evolves_trans; [by eapply rely_evolves|done]|]. intros Hal. destruct (Hx Hal) as (Hon & Hqu & Hpa).
      assert (only o m m') as Honly.
      { eapply only_trans; [by apply relay_only, (rely_relay _ _ Hr1)|]. eapply only_trans; [by apply pausing_only|].
        eapply only_trans; [apply relay_only; eapply rely_alone; [done|done|by apply releasing_driver]|done]. }
      assert (paused_at m' id) as Hpaused.
      { intros o' a' Hl' Ha'. assert (entries m1 !! id = Some o') as Hl1.
        { assert (only o m1 m') as Honly1.
          { eapply only_trans; [by apply pausing_only|]. eapply only_trans; [apply relay_only; eapply rely_alone; [done|done|by apply releasing_driver]|done]. }
          eapply lookup_weaken; [done|apply Honly1]. }
        assert (o' = o) as -> by congruence. apply (Hpa a' Ha'). destruct (ev_object _ _ He1' o a Ha) as (a'' & Ha'' & Hid & _).
        assert (a'' = a') as -> by congruence. rewrite Hid. destruct (wf_entries m1 Hw1 id o Hl) as (a4 & Ha4 & <-). by assert (a4 = a) as -> by congruence. }
      split; [split; [done|apply Honly|]|split; [|done]].
      * intros x Hx'. apply Honly. intros ->. apply Hx'. eapply lookup_weaken; [done|]. by apply (rely_relay _ _ Hr1).
      * intros _ o' a' Hl' Ha' _. by apply (Hpaused o' a').
Qed.

Lemma stopLocal_spec o m (Q : errs -> gset token -> Manager -> Prop) :
  is_Some (objects m !! o) -> (alone = true -> quiet m) ->
  (forall e m', evolves m m' -> (alone = true -> only o m m' /\ quiet m') -> Q e idle m') -> wp Q (stopLocal o) idle m.
Proof.
  intros [a0 Ha0] Hq HQ. unfold stopLocal. apply wp_bind, wp_locked. intros m1 Hr1. pose proof (rely_wf _ _ _ Hr1) as Hw1.
  destruct (ev_object _ _ (rely_evolves _ _ _ Hr1) o a0 Ha0) as (a & Ha & _). rewrite Ha.
  destruct (_ || _) eqn:E; cbn [fst snd].
  - exists idle. split; [by eapply guar_same|]. cbn [negb wp]. apply HQ; [by eapply rely_evolves|]. intros Hal.
    pose proof (rely_relay _ _ Hr1 Hal). split; [by apply relay_only|]. eapply quiet_relay; [done|auto].
  - apply orb_false_iff in E as [_ Hs]. apply negb_false_iff, bool_decide_eq_true in Hs.
    exists (releasing o). split; [by eapply guar_pausing|]. cbn [negb].
    pose proof (ch_evolves _ _ (change_pausing m1 o a Hw1 Ha Hs)) as He1. apply wp_bind. eapply release_spec; [done| |].
    + intros Hal. apply pausing_quiet. eapply quiet_relay; [by apply (rely_relay _ _ Hr1)|auto].
    + intros e m' He' Hx. cbn [wp]. apply HQ; [eapply evolves_trans; [by eapply rely_evolves|]; by eapply evolves_trans|].
      intros Hal. destruct (Hx Hal) as (Hon & Hqu & _). split; [|done].
      eapply only_trans; [by apply relay_only, (rely_relay _ _ Hr1)|]. eapply only_trans; [apply pausing_only|done].
Qed.

(** *** Starting *)

Lemma guar_new m0 m a (ctx : bool) m' ts' :
  rely idle m0 m -> (alone = true -> paused_at m (ID (ac_task a))) -> (if ctx then held (next m) a else freed a) ->
  m' = (let m' := (new_object m a).1 in
        mkManager (readers m') (writer m') (closed m') (entries m') (objects m')
          (if ctx then <[next m := false]> (contexts m') else contexts m') (done m') (next m')) ->
  ts' = (if ctx then {[Relaying (next m)]} ∪ idle else idle) -> guar idle m m' ts' /\ change m m'.
Proof.
  intros Hr Hp Ha -> ->. pose proof (rely_wf _ _ _ Hr) as Hw. destruct (fresh_object m Hw) as (Ho & Hc & Hd).
  assert (alone = true -> forall o, entries m !! ID (ac_task a) = Some o -> contexts m !! o <> Some false) as Hold.
  { intros Hal o Hl. destruct (wf_entries m Hw _ o Hl) as (a' & Ha' & _). eapply freed_context; [done|done|]. by apply (Hp Hal o). }
  pose proof (change_new m a ctx Hw Hold Ha) as Hch. split; [|done]. eapply guar_change; [done|done| | |].
  - intros Hal Hnd. destruct (Hnd (idle_driver Hal)).
  - intros t _. apply holds_kept; [apply Hch|done|]. intros x ax -> Hx Hs. exists ax. split; [|done]. cbn. rewrite lookup_insert_ne; [done|congruence].
  - assert (forall t, t ∈ idle -> holds m t /\ t = Driver) as Hid by (intros t Ht; by rewrite (idle_driver_only t Ht)).
    destruct ctx; [intros t [->%elem_of_singleton|Ht]%elem_of_union|intros t Ht].
    + split; [|right; intros [Hn _]; rewrite Hc in Hn; by destruct Hn]. split; [|done]. cbn. rewrite lookup_insert_eq. by eexists.
    + destruct (Hid t Ht) as [_ ->]. split; [done|by left].
    + destruct (Hid t Ht) as [_ ->]. split; [done|by left].
Qed.

Lemma fork_spec {A} (x : A) o m (Q : A -> gset token -> Manager -> Prop) :
  Q x idle m -> wp Q (Fork o (Return x)) ({[Relaying o]} ∪ idle) m.
Proof.
  intros HQ. cbn [wp]. exists {[Relaying o]}, idle. split; [|done]. intros t ->%elem_of_singleton Ht. by apply idle_driver_only in Ht.
Qed.

Lemma new_quiet m a : wf m -> ac_state a <> StatePausing -> quiet m -> forall m', entries m' = <[ID (ac_task a) := next m]> (entries m) ->
  objects m' = <[next m := a]> (objects m) -> quiet m'.
Proof.
  intros Hw Hs Hq m' He Ho id o x Hl Hx _. rewrite He in Hl. rewrite Ho in Hx. destruct (fresh_object m Hw) as (Hf & _ & _).
  destruct (decide (o = next m)) as [->|Hne]; [rewrite lookup_insert_eq in Hx; by injection Hx as <-|].
  rewrite lookup_insert_ne in Hx by done. apply lookup_insert_Some in Hl as [[_ <-]|[_ Hl]]; [done|]. by apply (Hq id o x).
Qed.

Lemma new_running_spec {D} (describe : Entry -> D) m0 m profileID p s t relay :
  rely idle m0 m -> (alone = true -> paused_at m (ID t)) ->
  let r := new_running describe m profileID p s t relay in
  guar idle m r.1 ({[Relaying (next m)]} ∪ idle) /\ r.2.1 = next m /\ evolves m r.1 /\ (quiet m -> quiet r.1).
Proof.
  intros Hr Hp r. set (a := mkActive profileID p s t (Some relay) (Some (next m)) (Some (next m)) StateRunning).
  destruct (guar_new m0 m a true r.1 ({[Relaying (next m)]} ∪ idle)) as [Hg Hch]; [done|done| |done|done|].
  { split; [by eexists|]. split; [done|]. split; [done|by left]. }
  split; [done|]. split; [done|]. split; [apply Hch|]. intros Hq. by eapply (new_quiet m a); [by eapply rely_wf| | | |].
Qed.

Lemma track_spec p s t m (Q : nat -> gset token -> Manager -> Prop) :
  (alone = true -> paused_at m (ID t) /\ quiet m) ->
  (forall o m', evolves m m' -> is_Some (objects m' !! o) ->
     (exists a, objects m' !! o = Some a /\ ID (ac_task a) = ID t) -> (alone = true -> paused_at m' (ID t) /\ quiet m') -> Q o idle m') ->
  wp Q (track p s t) idle m.
Proof.
  intros Hp HQ. apply wp_locked. intros m1 Hr1. set (a := mkActive (pf_ID p) p s t None None None StatePaused).
  exists idle. destruct (guar_new m m1 a false (new_object m1 a).1 idle) as [Hg Hch]; [done| |done|done|done|].
  { intros Hal. eapply paused_relay; [by apply (rely_relay _ _ Hr1)|by apply Hp]. }
  split; [done|]. assert (objects (new_object m1 a).1 !! next m1 = Some a) as Ha by (cbn; by rewrite lookup_insert_eq).
  apply HQ; [eapply evolves_trans; [by eapply rely_evolves|apply Hch]|by eexists|by exists a|]. intros Hal.
  split.
  - intros o x Hl Hx. cbn in Hl. rewrite lookup_insert_eq in Hl. injection Hl as <-. cbn in Hx. rewrite lookup_insert_eq in Hx. by injection Hx as <-.
  - eapply (new_quiet m1 a); [by eapply rely_wf|done| |done|done]. eapply quiet_relay; [by apply (rely_relay _ _ Hr1)|by apply Hp].
Qed.

Lemma Adopt_spec {D} name (describe : Entry -> D) p s t relay m (Q : errs + D -> gset token -> Manager -> Prop) :
  (alone = true -> quiet m) -> (forall r m', evolves m m' -> (alone = true -> quiet m') -> Q r idle m') ->
  wp Q (Adopt name describe p s t relay) idle m.
Proof.
  intros Hq HQ. unfold Adopt. apply wp_bind, wp_locked. intros m1 Hr1.
  destruct (bool_decide (is_Some (entries m1 !! ID t))) eqn:E.
  - exists idle. split; [by eapply guar_same|]. cbn [fst snd wp]. apply HQ; [by eapply rely_evolves|]. intros Hal.
    eapply quiet_relay; [by apply (rely_relay _ _ Hr1)|auto].
  - apply bool_decide_eq_false, eq_None_not_Some in E.
    destruct (new_running_spec describe m m1 (pf_ID p) p s t relay Hr1) as (Hg & Hn & He & Hqu); [intros _ o a Hl; congruence|].
    destruct (new_running describe m1 (pf_ID p) p s t relay) as [m2 [o document]]. cbn [fst snd] in *. subst o.
    eexists. split; [exact Hg|]. apply fork_spec, HQ; [eapply evolves_trans; [by eapply rely_evolves|done]|].
    intros Hal. apply Hqu. eapply quiet_relay; [by apply (rely_relay _ _ Hr1)|auto].
Qed.

(** The relay of a paused entry is opened again. *)
Lemma startLocal_spec {D} hasConfirm (describe : Entry -> D) o a0 current reason m (Q : errs + D -> gset token -> Manager -> Prop) :
  objects m !! o = Some a0 -> (alone = true -> paused_at m (ID (ac_task a0)) /\ quiet m) ->
  (forall r m', evolves m m' -> (alone = true -> quiet m' /\ forall e, r = inl e -> relay_step m m') -> Q r idle m') ->
  wp Q (startLocal hasConfirm describe o current reason) idle m.
Proof.
  intros Ha0 Hp HQ.
  assert (forall m1, rely idle m m1 -> exists a, objects m1 !! o = Some a /\ ID (ac_task a) = ID (ac_task a0)) as Hobj.
  { intros m1 Hr. destruct (ev_object _ _ (rely_evolves _ _ _ Hr) o a0 Ha0) as (a & Ha & Hid & _). by exists a. }
  assert (forall e m1, rely idle m m1 -> Q (inl e) idle m1) as Hend.
  { intros e m1 Hr. apply HQ; [by eapply rely_evolves|]. intros Hal. pose proof (rely_relay _ _ Hr Hal) as Hrs.
    split; [eapply quiet_relay; [done|by apply Hp]|done]. }
  assert (forall e m1, rely idle m m1 -> wp Q (fail o reason e) idle m1) as Hfail.
  { intros e m1 Hr. unfold fail. destruct reason; [|cbn [wp]; by apply Hend].
    apply wp_bind, wp_deref. intros m2 Hr2. pose proof (rely_then _ _ _ _ Hr Hr2) as Hr'. destruct (Hobj m2 Hr') as (a & Ha & _).
    exists a, a. split; [done|]. split; [done|]. apply wp_bind, wp_reply. intros e'. cbn [wp]. by apply Hend. }
  unfold startLocal. apply wp_bind, wp_deref. intros m1 Hr1. destruct (Hobj m1 Hr1) as (a1 & Ha1 & Hid1). exists a1, a1. split; [done|]. split; [done|].
  apply wp_bind, wp_reply. intros [e|relay]; [by apply Hfail|].
  apply wp_bind, wp_reply. intros notReady. destruct (negb _).
  { apply wp_bind, wp_reply. intros _. by apply Hfail. }
  apply wp_bind, wp_deref. intros m2 Hr2. pose proof (rely_then _ _ _ _ Hr1 Hr2) as Hr02. destruct (Hobj m2 Hr02) as (a2 & Ha2 & _).
  exists a2, a2. split; [done|]. split; [done|]. apply wp_bind.
  assert (forall x, wp Q
      match x : errs + string with
      | inl e => _ ← ask_err (RelayStop relay); _ ← ask_err (CloseStream relay); fail o reason e
      | inr clusterIP =>
          let task := if hasConfirm then confirmed clusterIP (set_Running true (ac_task a1)) else set_Running true (ac_task a1) in
          a ← deref Some o;
          '(o', document) ← locked (fun m => new_running describe m (ac_profileID a) (ac_profile a) (ac_session a) task relay);
          Fork o' (Return (inr document))
      end idle m2) as Hrest.
  { intros [e|clusterIP].
    { apply wp_bind, wp_reply. intros _. apply wp_bind, wp_reply. intros _. by apply Hfail. }
    cbv beta iota zeta. set (task := if hasConfirm then confirmed clusterIP (set_Running true (ac_task a1)) else set_Running true (ac_task a1)).
    assert (ID task = ID (ac_task a0)) as Htask by (unfold task; by destruct hasConfirm).
    apply wp_bind, wp_deref. intros m3 Hr3. pose proof (rely_then _ _ _ _ Hr02 Hr3) as Hr03. destruct (Hobj m3 Hr03) as (a3 & Ha3 & _).
    exists a3, a3. split; [done|]. split; [done|]. apply wp_bind, wp_locked. intros m4 Hr4. pose proof (rely_then _ _ _ _ Hr03 Hr4) as Hr04.
    destruct (new_running_spec describe m3 m4 (ac_profileID a3) (ac_profile a3) (ac_session a3) task relay Hr4) as (Hg & Hn & He & Hqu).
    { intros Hal. rewrite Htask. eapply paused_relay; [by apply (rely_relay _ _ Hr04)|by apply Hp]. }
    destruct (new_running describe m4 _ _ _ task relay) as [m5 [o' document]]. cbn [fst snd] in *. subst o'.
    eexists. split; [exact Hg|]. apply fork_spec, HQ; [eapply evolves_trans; [by eapply rely_evolves|done]|].
    intros Hal. split; [|done]. apply Hqu. eapply quiet_relay; [by apply (rely_relay _ _ Hr04)|by apply Hp]. }
  match goal with |- Threads.wp _ _ _ _ _ _ ?Q' _ _ _ => assert (forall x, Q' x idle m2) as HQ' by exact Hrest end.
  clear - HQ'. destruct hasConfirm; [by apply wp_reply|apply HQ'].
Qed.

(** *** The other calls *)

Lemma Resume_spec {D} name hasConfirm (describe : Entry -> D) ctx profileID id m (Q : errs + D -> gset token -> Manager -> Prop) :
  (alone = true -> quiet m) -> (forall r m', evolves m m' -> (alone = true -> quiet m') -> Q r idle m') ->
  wp Q (Resume name hasConfirm describe ctx profileID id) idle m.
Proof.
  intros Hq HQ. unfold Resume. destruct ctx; cbn [negb]; [|cbn [wp]; by apply HQ; [apply evolves_refl|]].
  apply wp_bind, wp_reading. intros m1 Hr1. pose proof (rely_wf _ _ _ Hr1) as Hw1.
  assert (alone = true -> quiet m1) as Hq1 by (intros Hal; eapply quiet_relay; [by apply (rely_relay _ _ Hr1)|auto]).
  assert (forall x, (forall o, x = Some o -> exists a, entries m1 !! id = Some o /\ objects m1 !! o = Some a /\ ac_state a = StatePaused) ->
    wp Q match x with
         | None => mret (inl (errorf name "is not paused locally"))
         | Some o =>
             a ← deref Some o;
             resumed ← ask_task (GatewayResume (ac_profile a) (ac_session a) (ID (ac_task a)));
             match resumed with inl e => mret (inl e) | inr current => startLocal hasConfirm describe o current Resumed end
         end idle m1) as Hx.
  { intros [o|] Ho; [|cbn [wp]; by apply HQ; [eapply rely_evolves|]]. destruct (Ho o eq_refl) as (a & Hl & Ha & Hs).
    apply wp_bind, wp_deref. intros m2 Hr2. destruct (ev_object _ _ (rely_evolves _ _ _ Hr2) o a Ha) as (a2 & Ha2 & Hid & _).
    assert (alone = true -> quiet m2) as Hq2 by (intros Hal; eapply quiet_relay; [by apply (rely_relay _ _ Hr2)|auto]).
    assert (evolves m m2) as He2 by (eapply evolves_trans; by eapply rely_evolves).
    exists a2, a2. split; [done|]. split; [done|]. apply wp_bind, wp_reply. intros [e|current]; [cbn [wp]; by apply HQ|].
    apply (startLocal_spec hasConfirm describe o a2); [done| |].
    - intros Hal. split; [|auto]. rewrite Hid. destruct (wf_entries m1 Hw1 id o Hl) as (a' & Ha' & Hid'). assert (a' = a) as -> by congruence. rewrite Hid'.
      eapply paused_relay; [by apply (rely_relay _ _ Hr2)|]. intros o' x Hl' Hx. assert (o' = o) as -> by congruence. by assert (x = a) as -> by congruence.
    - intros r m' He' Hal. apply HQ; [by eapply evolves_trans|]. intros Ha'. by apply Hal. }
  apply Hx. intros o Ho. destruct (object_at m1 id) as [[o' a]|] eqn:E; [|done].
  destruct (_ || _) eqn:Ep; [done|]. injection Ho as ->. apply object_at_spec in E as [Hl Ha]. exists a. split; [done|]. split; [done|].
  by apply orb_false_iff in Ep as [_ Hs%negb_false_iff%bool_decide_eq_true].
Qed.

Lemma delete_entry_spec id m (Q : unit -> gset token -> Manager -> Prop) :
  (alone = true -> paused_at m id) ->
  (forall m', evolves m m' -> (alone = true -> entries m' ⊆ entries m /\ objects m' = objects m) -> Q tt idle m') -> wp Q (delete_entry id) idle m.
Proof.
  intros Hp HQ. apply wp_locked. intros m1 Hr1. pose proof (rely_wf _ _ _ Hr1) as Hw1. cbn [fst snd].
  destruct (change_delete m1 id Hw1) as [Hch Hrs].
  { intros Hal o Hl. destruct (wf_entries m1 Hw1 id o Hl) as (a & Ha & _). eapply freed_context; [done|done|].
    apply (paused_relay m m1 id (rely_relay _ _ Hr1 Hal) (Hp Hal) o); done. }
  exists idle. split; [eapply guar_tokens; [done|done|done|]; intros t; by apply holds_same; [apply Hch| |]|].
  apply HQ; [eapply evolves_trans; [by eapply rely_evolves|apply Hch]|]. intros Hal. pose proof (rely_relay _ _ Hr1 Hal) as Hrs1.
  pose proof (relay_step_trans _ _ _ Hrs1 Hrs) as [H1 _ H2 _]. by split.
Qed.

Lemma paused_result_relay id m m' : relay_step m m' -> quiet m -> paused_result id m m'.
Proof. intros Hrs Hq. split; [by eapply quiet_relay|apply Hrs|]. intros x _. by rewrite (rs_objects _ _ Hrs). Qed.

Lemma paused_result_shrinks id m m1 m2 :
  paused_result id m m1 -> entries m2 ⊆ entries m1 -> objects m2 = objects m1 -> paused_result id m m2.
Proof.
  intros [H1 H2 H3] He Ho. split; [|by etrans|intros x Hx; rewrite Ho; by apply H3].
  eapply quiet_shrinks; [done| |done]. intros o _. by rewrite Ho.
Qed.

(** A call that pauses and then drops: in the end the identifier shows no
    running entry of the profile. *)
Lemma Stop_entry_spec name ctx profileID id m (Q : errs -> gset token -> Manager -> Prop) :
  (alone = true -> quiet m) ->
  (forall e m', evolves m m' -> (alone = true -> paused_result id m m' /\
     (ctx = true -> forall o a, entries m' !! id = Some o -> objects m' !! o = Some a -> ac_profileID a = profileID -> ac_state a = StatePaused)) -> Q e idle m') ->
  wp Q (Stop name ctx profileID id) idle m.
Proof.
  intros Hq HQ. unfold Stop. apply wp_bind, Pause_spec; [done|]. intros e m1 He1 Hx. apply wp_bind. destruct (is_nil e) eqn:En.
  - apply delete_entry_spec; [intros Hal; apply Hx; [done|by destruct e]|]. intros m2 He2 Hy. cbn [wp].
    apply HQ; [by eapply evolves_trans|]. intros Hal. destruct (Hx Hal) as (Hr & Hp & _). destruct (Hy Hal) as [Hs Ho].
    split; [by eapply paused_result_shrinks|]. intros Hc o a Hl Ha. rewrite Ho in Ha. apply (Hp Hc o a); [by eapply lookup_weaken|done].
  - cbn [wp mret prog_ret]. apply HQ; [done|]. intros Hal. destruct (Hx Hal) as (Hr & Hp & _). done.
Qed.

Lemma Delete_spec name ctx profileID id m (Q : errs -> gset token -> Manager -> Prop) :
  (alone = true -> quiet m) -> (forall e m', evolves m m' -> (alone = true -> quiet m') -> Q e idle m') ->
  wp Q (Delete name ctx profileID id) idle m.
Proof.
  intros Hq HQ. unfold Delete. destruct ctx; cbn [negb]; [|cbn [wp]; by apply HQ; [apply evolves_refl|]].
  apply wp_bind, wp_reading. intros m1 Hr1. pose proof (rely_wf _ _ _ Hr1) as Hw1.
  assert (alone = true -> quiet m1) as Hq1 by (intros Hal; eapply quiet_relay; [by apply (rely_relay _ _ Hr1)|auto]).
  destruct (object_at m1 id) as [[o a]|] eqn:E; [|cbn [wp]; by apply HQ; [eapply rely_evolves|]].
  apply object_at_spec in E as [Hl Ha]. destruct (negb _) eqn:Ep; [cbn [wp]; by apply HQ; [eapply rely_evolves|]|].
  apply negb_false_iff, bool_decide_eq_true in Ep. apply wp_bind, wp_deref. intros m2 Hr2. pose proof (rely_wf _ _ _ Hr2) as Hw2.
  destruct (ev_object _ _ (rely_evolves _ _ _ Hr2) o a Ha) as (a2 & Ha2 & _ & Hp2 & _). exists a2, a2. split; [done|]. split; [done|].
  assert (alone = true -> quiet m2) as Hq2 by (intros Hal; eapply quiet_relay; [by apply (rely_relay _ _ Hr2)|auto]).
  assert (evolves m m2) as He2 by (eapply evolves_trans; by eapply rely_evolves).
  assert (alone = true -> forall o', entries m2 !! id = Some o' -> o' = o) as Hone.
  { intros Hal o' Hl'. assert (entries m1 !! id = Some o') by (eapply lookup_weaken; [done|by apply (rely_relay _ _ Hr2)]). congruence. }
  assert (forall e m3, evolves m2 m3 -> (alone = true -> quiet m3 /\ paused_at m3 id) ->
    wp Q (a ← deref Some o;
          deleteErr ← ask_err (GatewayDelete (ac_profile a) (ac_session a) (ID (ac_task a)));
          _ ← (if is_nil deleteErr then delete_entry id else mret tt);
          mret (Join e deleteErr)) idle m3) as Hrest.
  { intros e m3 He3 Hx. apply wp_bind, wp_deref. intros m4 Hr4. assert (evolves m2 m4) as He4 by (eapply evolves_trans; [done|by eapply rely_evolves]).
    destruct (ev_object _ _ He4 o a2 Ha2) as (a4 & Ha4 & _). exists a4, a4. split; [done|]. split; [done|].
    assert (evolves m m4) as Hem4 by (by eapply evolves_trans).
    assert (alone = true -> quiet m4 /\ paused_at m4 id) as Hx4.
    { intros Hal. pose proof (rely_relay _ _ Hr4 Hal). destruct (Hx Hal). split; [by eapply quiet_relay|by eapply paused_relay]. }
    apply wp_bind, wp_reply. intros deleteErr. apply wp_bind. destruct (is_nil deleteErr).
    - apply delete_entry_spec; [intros Hal; by apply Hx4|]. intros m5 He5 Hy. cbn [wp]. apply HQ; [by eapply evolves_trans|]. intros Hal.
      destruct (Hx4 Hal) as [Hq4 _]. destruct (Hy Hal) as [Hs Ho]. eapply quiet_shrinks; [done| |done]. intros x _. by rewrite Ho.
    - cbn [wp mret prog_ret]. apply HQ; [done|]. intros Hal. by apply Hx4. }
  apply wp_bind. destruct (bool_decide (ac_state a2 = StateRunning)) eqn:Es.
  - apply Pause_spec; [done|]. intros e m3 He3 Hx. apply Hrest; [done|]. intros Hal. destruct (Hx Hal) as ([Hq3 Hsub Hobj] & Hpa & _). split; [done|].
    intros o' x Hl' Hx'. assert (o' = o) as -> by (apply (Hone Hal); by eapply lookup_weaken).
    destruct (ev_object _ _ He3 o a2 Ha2) as (a3 & Ha3 & _ & Hp3 & Hst3). assert (x = a3) as -> by congruence.
    apply (Hpa eq_refl o a3); [done|done|congruence].
  - apply bool_decide_eq_false in Es. cbn [wp mret prog_ret]. apply Hrest; [apply evolves_refl|]. intros Hal. split; [auto|].
    intros o' x Hl' Hx'. assert (o' = o) as -> by (by apply (Hone Hal)). assert (x = a2) as -> by congruence.
    destruct (state_cases m2 o a2 Hw2 Ha2) as [Hs|[Hs|Hs]]; [done|by destruct (Hq2 Hal id o a2 Hl' Ha2)|done].
Qed.

(** *** Whole profiles *)

(** A body run for each element keeps what [J] says about those that are done. *)
Lemma for_each_spec {X} (body : X -> prog errs) (J : list X -> Manager -> Prop) l past result m (Q : errs -> gset token -> Manager -> Prop) :
  (forall x past m (Q : errs -> gset token -> Manager -> Prop), x ∈ l -> J past m ->
     (forall e m', evolves m m' -> J (x :: past) m' -> Q e idle m') -> wp Q (body x) idle m) ->
  J past m -> (forall e m', evolves m m' -> J (rev l ++ past) m' -> Q e idle m') -> wp Q (for_each l body result) idle m.
Proof.
  revert past result m Q. induction l as [|x l IH]; intros past result m Q Hb HJ HQ; cbn [for_each].
  - cbn [wp]. by apply HQ; [apply evolves_refl|].
  - apply wp_bind. apply (Hb x past); [by left|done|]. intros e m' He HJ'. apply (IH (x :: past)); [|done|].
    + intros y ps m0 Q0 Hy. apply Hb. by right.
    + intros e' m'' He' HJ''. apply HQ; [by eapply evolves_trans|]. cbn [rev]. by rewrite <- app_assoc.
Qed.

(** Changes of the lock and the flag. *)
Lemma flags_spec f m (Q : unit -> gset token -> Manager -> Prop) :
  (forall m, entries (f m) = entries m /\ objects (f m) = objects m /\ contexts (f m) = contexts m /\ done (f m) = done m /\ next (f m) = next m) ->
  (forall m', evolves m m' -> (alone = true -> relay_step m m') -> Q tt idle m') -> wp Q (locked (fun m => (f m, tt))) idle m.
Proof.
  intros Hf HQ. apply wp_locked. intros m1 Hr1. destruct (Hf m1) as (H1 & H2 & H3 & H4 & H5).
  destruct (change_flags m1 (f m1) H1 H2 H3 H4 H5 (rely_wf _ _ _ Hr1)) as [Hch Hrs]. exists idle. cbn [fst snd].
  split; [eapply guar_tokens; [done|done|done|]; intros t; apply holds_same; [apply Hch|by rewrite H4|done]|].
  apply HQ; [eapply evolves_trans; [by eapply rely_evolves|apply Hch]|]. intros Hal. eapply relay_step_trans; [by apply (rely_relay _ _ Hr1)|done].
Qed.

Lemma lock_spec (enabled : Manager -> bool) f m (Q : unit -> gset token -> Manager -> Prop) :
  (forall m, entries (f m) = entries m /\ objects (f m) = objects m /\ contexts (f m) = contexts m /\ done (f m) = done m /\ next (f m) = next m) ->
  (forall m', evolves m m' -> (alone = true -> relay_step m m') -> Q tt idle m') ->
  wp Q (Step (fun m => if enabled m then None else Some (f m, Return tt))) idle m.
Proof.
  intros Hf HQ m1 Hr1. destruct (enabled m1); [done|]. by apply (flags_spec f m Q Hf HQ m1 Hr1).
Qed.

Ltac flags := by intros []; cbn.

Lemma with_lifecycle_spec body m (Q : errs -> gset token -> Manager -> Prop) :
  (forall m1, evolves m m1 -> (alone = true -> relay_step m m1) ->
     wp (fun e ts m2 => ts = idle /\ forall m', evolves m2 m' -> (alone = true -> relay_step m2 m') -> Q e idle m') body idle m1) ->
  wp Q (with_lifecycle body) idle m.
Proof.
  intros Hb. unfold with_lifecycle. apply wp_bind.
  apply (lock_spec (fun m => writer m || negb (bool_decide (readers m = 0%nat))) (fun m => set_lifecycle m 0 true)); [flags|].
  intros m1 He1 Hrs1. apply wp_bind. eapply wp_mono; [|by apply Hb]. intros e ts m2 [-> HQ].
  apply wp_bind, (flags_spec (fun m => set_lifecycle m (readers m) false)); [flags|]. intros m3 He3 Hrs3. cbn [wp]. by apply HQ.
Qed.

(** A loop of calls that pause entries. *)
Lemma quiet_loop {X} (body : X -> prog errs) l result m (Q : errs -> gset token -> Manager -> Prop) :
  (forall x m (Q : errs -> gset token -> Manager -> Prop), x ∈ l -> (alone = true -> quiet m) -> 
     (forall e m', evolves m m' -> (alone = true -> quiet m') -> Q e idle m') -> wp Q (body x) idle m) ->
  (alone = true -> quiet m) -> (forall e m', evolves m m' -> (alone = true -> quiet m') -> Q e idle m') -> wp Q (for_each l body result) idle m.
Proof.
  intros Hb Hq HQ. apply (for_each_spec body (fun _ m => alone = true -> quiet m) l []); [|done|done].
  intros x _ m' Q' Hin Hq' HQ'. by apply Hb.
Qed.

Lemma StopProfile_spec name ctx profileID m (Q : errs -> gset token -> Manager -> Prop) :
  (alone = true -> quiet m) -> (forall e m', evolves m m' -> (alone = true -> quiet m') -> Q e idle m') ->
  wp Q (StopProfile name ctx profileID) idle m.
Proof.
  intros Hq HQ. unfold StopProfile. destruct ctx; cbn [negb]; [|cbn [wp]; by apply HQ; [apply evolves_refl|]].
  apply with_lifecycle_spec. intros m1 He1 Hrs1. apply wp_bind, wp_reading. intros m2 Hr2.
  assert (alone = true -> quiet m2) as Hq2 by (intros Hal; eapply quiet_relay; [by apply (rely_relay _ _ Hr2)|]; eapply quiet_relay; auto).
  apply quiet_loop; [|done|].
  - intros id m3 Q3 _ Hq3 HQ3. apply Stop_entry_spec; [done|]. intros e m4 He4 Hx. apply HQ3; [done|]. intros Hal. by apply Hx.
  - intros e m3 He3 Hq3. split; [done|]. intros m4 He4 Hrs4. apply HQ; [|intros Hal; eapply quiet_relay; auto].
    eapply evolves_trans; [done|]. eapply evolves_trans; [by eapply rely_evolves|]. by eapply evolves_trans.
Qed.

Lemma PauseProfile_spec name ctx profileID m (Q : errs -> gset token -> Manager -> Prop) :
  (alone = true -> quiet m) -> (forall e m', evolves m m' -> (alone = true -> quiet m') -> Q e idle m') ->
  wp Q (PauseProfile name ctx profileID) idle m.
Proof.
  intros Hq HQ. unfold PauseProfile. destruct ctx; cbn [negb]; [|cbn [wp]; by apply HQ; [apply evolves_refl|]].
  apply with_lifecycle_spec. intros m1 He1 Hrs1. apply wp_bind, wp_reading. intros m2 Hr2.
  assert (alone = true -> quiet m2) as Hq2 by (intros Hal; eapply quiet_relay; [by apply (rely_relay _ _ Hr2)|]; eapply quiet_relay; auto).
  apply quiet_loop; [|done|].
  - intros id m3 Q3 _ Hq3 HQ3. apply wp_bind, wp_reading. intros m4 Hr4.
    assert (alone = true -> quiet m4) as Hq4 by (intros Hal; eapply quiet_relay; [by apply (rely_relay _ _ Hr4)|auto]).
    destruct (is_running m4 id).
    + apply Pause_spec; [done|]. intros e m5 He5 Hx. apply HQ3; [eapply evolves_trans; [by eapply rely_evolves|done]|]. intros Hal. by apply Hx.
    + cbn [wp mret prog_ret]. apply HQ3; [by eapply rely_evolves|done].
  - intros e m3 He3 Hq3. split; [done|]. intros m4 He4 Hrs4. apply HQ; [|intros Hal; eapply quiet_relay; auto].
    eapply evolves_trans; [done|]. eapply evolves_trans; [by eapply rely_evolves|]. by eapply evolves_trans.
Qed.

Lemma ReleaseProfile_spec name ctx profileID m (Q : errs -> gset token -> Manager -> Prop) :
  (alone = true -> quiet m) -> (forall e m', evolves m m' -> (alone = true -> quiet m') -> Q e idle m') ->
  wp Q (ReleaseProfile name ctx profileID) idle m.
Proof.
  intros Hq HQ. unfold ReleaseProfile. destruct ctx; cbn [negb]; [|cbn [wp]; by apply HQ; [apply evolves_refl|]].
  apply with_lifecycle_spec. intros m1 He1 Hrs1. apply wp_bind, wp_reading. intros m2 Hr2.
  assert (alone = true -> quiet m2) as Hq2 by (intros Hal; eapply quiet_relay; [by apply (rely_relay _ _ Hr2)|]; eapply quiet_relay; auto).
  set (found := map _ _). assert (forall o, o ∈ found -> is_Some (objects m2 !! o)) as Hfound.
  { intros o ([id [o' a]] & -> & Hin)%list_elem_of_fmap. apply list_elem_of_filter in Hin as [_ Hin]. apply listed_spec in Hin as [_ Ha]. by exists a. }
  apply wp_bind, wp_bind. intros r Hf. cbn [wp mret prog_ret].
  set (order := match r with AnOrder l => l | _ => found end).
  assert (forall o, o ∈ order -> is_Some (objects m2 !! o)) as Horder.
  { intros o Ho. apply Hfound. unfold order in Ho. destruct r; try discriminate. cbn in Hf. apply bool_decide_eq_true in Hf. by rewrite <- Hf. }
  apply (for_each_spec stopLocal (fun _ m => (alone = true -> quiet m) /\ forall o, o ∈ order -> is_Some (objects m !! o)) order []); [|done|].
  - intros o _ m3 Q3 Hin [Hq3 Ho3] HQ3. apply stopLocal_spec; [by apply Ho3|done|]. intros e m4 He4 Hx. apply HQ3; [done|]. split.
    + intros Hal. by apply Hx.
    + intros x Hx'. destruct (Ho3 x Hx') as [a Ha]. destruct (ev_object _ _ He4 x a Ha) as (a' & Ha' & _). by exists a'.
  - intros e m3 He3 [Hq3 _]. split; [done|]. intros m4 He4 Hrs4. apply HQ; [|intros Hal; eapply quiet_relay; auto].
    eapply evolves_trans; [done|]. eapply evolves_trans; [by eapply rely_evolves|]. by eapply evolves_trans.
Qed.

(** All that is listed is paused. *)
Definition all_paused (m : Manager) : Prop := forall id, paused_at m id.

Lemma profiles_lookup m id o a : entries m !! id = Some o -> objects m !! o = Some a ->
  (list_to_map (map (fun e => (e.1, ac_profileID e.2.2)) (listed m)) : gmap string string) !! id = Some (ac_profileID a).
Proof.
  intros Hl Ha. set (l := map _ _). destruct ((list_to_map l : gmap string string) !! id) as [p|] eqn:E.
  - apply elem_of_list_to_map_2, list_elem_of_fmap in E as ([id' [o' a']] & [= -> ->] & Hin).
    apply listed_spec in Hin as [Hl' Ha']. cbn. congruence.
  - apply not_elem_of_list_to_map_2 in E. destruct E. apply list_elem_of_fmap. exists (id, ac_profileID a). split; [done|].
    apply list_elem_of_fmap. exists (id, (o, a)). split; [done|]. by apply listed_spec.
Qed.

Lemma Sort_in ids id : id ∈ Sort ids <-> id ∈ ids.
Proof. unfold Sort. by rewrite SortFunc_perm. Qed.

Lemma Shutdown_spec name m (Q : errs -> gset token -> Manager -> Prop) :
  (alone = true -> quiet m) -> (forall e m', evolves m m' -> (alone = true -> quiet m' /\ all_paused m') -> Q e idle m') ->
  wp Q (Shutdown name true) idle m.
Proof.
  intros Hq HQ. unfold Shutdown. cbn [negb]. apply with_lifecycle_spec. intros m1 He1 Hrs1.
  apply wp_bind, (flags_spec set_closed); [flags|]. intros m2 He2 Hrs2. apply wp_bind, wp_reading. intros m3 Hr3.
  set (ids := Sort _). set (profiles := list_to_map _ : gmap string string).
  assert (alone = true -> quiet m3) as Hq3.
  { intros Hal. eapply quiet_relay; [by apply (rely_relay _ _ Hr3)|]. eapply quiet_relay; [by apply Hrs2|]. eapply quiet_relay; auto. }
  set (J := fun (past : list string) (m : Manager) => alone = true -> quiet m /\ (forall id, id ∈ past -> paused_at m id) /\
    (forall id o a, entries m !! id = Some o -> objects m !! o = Some a -> id ∈ ids /\ profiles !! id = Some (ac_profileID a))).
  apply (for_each_spec _ J ids []).
  - intros id past m4 Q4 Hin HJ HQ4. apply wp_bind, wp_reading. intros m5 Hr5. pose proof (rely_wf _ _ _ Hr5) as Hw5.
    assert (J past m5) as HJ5.
    { intros Hal. pose proof (rely_relay _ _ Hr5 Hal) as Hrs. destruct (HJ Hal) as (H1 & H2 & H3). split; [by eapply quiet_relay|]. split.
      - intros x Hx. eapply paused_relay; [done|auto].
      - intros x o a Hl Ha. rewrite (rs_objects _ _ Hrs) in Ha. apply (H3 x o a); [by eapply lookup_weaken; [|apply Hrs]|done]. }
    destruct (is_running m5 id) eqn:Er.
    + apply Stop_entry_spec; [intros Hal; by apply HJ5|]. intros e m6 He6 Hx. apply HQ4; [eapply evolves_trans; [by eapply rely_evolves|done]|].
      intros Hal. destruct (HJ5 Hal) as (H1 & H2 & H3). destruct (Hx Hal) as ([P1 P2 P3] & Hp).
      assert (forall x o a, entries m6 !! x = Some o -> objects m6 !! o = Some a -> exists a5, entries m5 !! x = Some o /\ objects m5 !! o = Some a5 /\ ac_profileID a = ac_profileID a5 /\
        (x <> id -> a = a5)) as Hback.
      { intros x o a Hl Ha. assert (entries m5 !! x = Some o) as Hl5 by (by eapply lookup_weaken).
        destruct (wf_entries m5 Hw5 x o Hl5) as (a5 & Ha5 & Hid5). destruct (ev_object _ _ He6 o a5 Ha5) as (a6 & Ha6 & _ & Hp6 & _).
        exists a5. split; [done|]. split; [done|]. split; [congruence|]. intros Hne. rewrite P3 in Ha; [congruence|].
        intros Hl'. destruct (wf_entries m5 Hw5 id o Hl') as (a' & Ha' & Hid'). congruence. }
      split; [done|]. split.
      * intros x Hx'. destruct (decide (x = id)) as [->|Hne].
        -- intros o a Hl Ha. destruct (Hback id o a Hl Ha) as (a5 & Hl5 & Ha5 & Hpr & _). destruct (H3 id o a5 Hl5 Ha5) as [_ Hprof].
           apply (Hp eq_refl o a Hl Ha). rewrite Hprof. cbn. congruence.
        -- apply elem_of_cons in Hx' as [->|Hx']; [done|]. intros o a Hl Ha. destruct (Hback x o a Hl Ha) as (a5 & Hl5 & Ha5 & _ & Heq).
           rewrite (Heq Hne). by apply (H2 x Hx' o a5).
      * intros x o a Hl Ha. destruct (Hback x o a Hl Ha) as (a5 & Hl5 & Ha5 & Hpr & _). destruct (H3 x o a5 Hl5 Ha5) as [? Hprof]. split; [done|]. congruence.
    + cbn [wp mret prog_ret]. apply HQ4; [by eapply rely_evolves|]. intros Hal. destruct (HJ5 Hal) as (H1 & H2 & H3). split; [done|]. split; [|done].
      intros x [->|Hx]%elem_of_cons; [|by apply H2]. intros o a Hl Ha. unfold is_running in Er.
      rewrite (proj2 (object_at_spec m5 id o a)) in Er by done. apply bool_decide_eq_false in Er.
      destruct (state_cases m5 o a Hw5 Ha) as [Hs|[Hs|Hs]]; [done|by destruct (H1 id o a Hl Ha)|done].
  - intros Hal. split; [auto|]. split; [by intros ? ?%elem_of_nil|]. intros id o a Hl Ha. split.
    + unfold ids. rewrite Sort_in, list_elem_of_fmap. exists (id, (o, a)). split; [done|]. by apply listed_spec.
    + by eapply profiles_lookup.
  - intros e m4 He4 HJ. split; [done|]. intros m5 He5 Hrs5. apply HQ.
    + eapply evolves_trans; [done|]. eapply evolves_trans; [done|]. eapply evolves_trans; [by eapply rely_evolves|]. by eapply evolves_trans.
    + intros Hal. destruct (HJ Hal) as (H1 & H2 & H3). split; [eapply quiet_relay; auto|]. intros id. apply (paused_relay m4 m5 id (Hrs5 Hal)).
      intros o a Hl Ha. destruct (H3 id o a Hl Ha) as [Hin _]. refine (H2 id _ o a Hl Ha). rewrite app_nil_r. apply list_elem_of_In. rewrite <- in_rev. by apply list_elem_of_In.
Qed.

(** *** Starting and reconciling *)

Lemma start_held_spec {D} name (describe : Entry -> D) ctx p s requestID targets m (Q : errs + D -> gset token -> Manager -> Prop) :
  (alone = true -> quiet m) -> (forall r m', evolves m m' -> (alone = true -> quiet m') -> Q r idle m') ->
  wp Q (start_held name describe ctx p s requestID targets) idle m.
Proof.
  intros Hq HQ. assert (forall r, Q r idle m) as HQ0 by (intros r; by apply HQ; [apply evolves_refl|]).
  unfold start_held. destruct (_ || _ || _); [apply HQ0|]. destruct targets as [e|targets]; [apply HQ0|].
  apply wp_bind, wp_reply. intros [e|task]; [apply HQ0|]. cbv zeta. destruct (negb (is_nil (matchTaskTargets _ _))).
  { apply wp_bind, wp_reply. intros e. apply HQ0. }
  apply wp_bind, wp_reply. intros [e|relay]; [apply wp_bind, wp_reply; intros e'; apply HQ0|].
  apply wp_bind, wp_reply. intros notReady. destruct (negb _).
  { apply wp_bind, wp_reply. intros _. apply wp_bind, wp_reply. intros e'. apply HQ0. }
  apply wp_bind, Adopt_spec; [done|]. intros [e|info] m1 He1 Hq1; [|cbn [wp mret prog_ret]; by apply HQ].
  apply wp_bind, wp_reply. intros _. apply wp_bind, wp_reply. intros e'. cbn [wp mret prog_ret]. by apply HQ.
Qed.

Lemma rlock_spec m (Q : unit -> gset token -> Manager -> Prop) :
  (forall m', evolves m m' -> (alone = true -> relay_step m m') -> Q tt idle m') -> wp Q RLock idle m.
Proof. apply (lock_spec writer (fun m => set_lifecycle m (S (readers m)) false)). flags. Qed.

Lemma runlock_spec m (Q : unit -> gset token -> Manager -> Prop) :
  (forall m', evolves m m' -> (alone = true -> relay_step m m') -> Q tt idle m') -> wp Q RUnlock idle m.
Proof. apply (flags_spec (fun m => set_lifecycle m (readers m - 1) (writer m))). flags. Qed.

Lemma Start_spec {D} name (describe : Entry -> D) ctx p s requestID targets m (Q : errs + D -> gset token -> Manager -> Prop) :
  (alone = true -> quiet m) -> (forall r m', evolves m m' -> (alone = true -> quiet m') -> Q r idle m') ->
  wp Q (Start name describe ctx p s requestID targets) idle m.
Proof.
  intros Hq HQ. unfold Start, Hold. apply wp_bind, wp_bind, rlock_spec. intros m1 He1 Hrs1. apply wp_bind, wp_reading. intros m2 Hr2.
  assert (evolves m m2) as He2 by (eapply evolves_trans; [done|by eapply rely_evolves]).
  assert (alone = true -> quiet m2) as Hq2 by (intros Hal; eapply quiet_relay; [by apply (rely_relay _ _ Hr2)|]; eapply quiet_relay; auto).
  destruct (closed m2).
  - apply wp_bind, runlock_spec. intros m3 He3 Hrs3. cbn [wp mret prog_ret]. apply HQ; [by eapply evolves_trans|]. intros Hal. eapply quiet_relay; auto.
  - cbn [wp mret prog_ret]. apply wp_bind, start_held_spec; [done|]. intros r m3 He3 Hq3. apply wp_bind, runlock_spec. intros m4 He4 Hrs4.
    cbn [wp mret prog_ret]. apply HQ; [eapply evolves_trans; [done|by eapply evolves_trans]|]. intros Hal. eapply quiet_relay; auto.
Qed.

Lemma Closed_spec m (Q : bool -> gset token -> Manager -> Prop) :
  (alone = true -> quiet m) -> (forall r m', evolves m m' -> (alone = true -> quiet m') -> Q r idle m') -> wp Q Closed idle m.
Proof.
  intros Hq HQ. unfold Closed. apply wp_bind, rlock_spec. intros m1 He1 Hrs1. apply wp_bind, wp_reading. intros m2 Hr2. apply wp_bind, runlock_spec.
  intros m3 He3 Hrs3. cbn [wp mret prog_ret]. apply HQ; [eapply evolves_trans; [done|]; eapply evolves_trans; [by eapply rely_evolves|done]|].
  intros Hal. eapply quiet_relay; [auto|]. eapply quiet_relay; [by apply (rely_relay _ _ Hr2)|]. eapply quiet_relay; auto.
Qed.

Lemma reconcile_spec {D} hasConfirm (describe : Entry -> D) p s t m (Q : errs -> gset token -> Manager -> Prop) :
  (alone = true -> quiet m) -> (forall e m', evolves m m' -> (alone = true -> quiet m') -> Q e idle m') ->
  wp Q (reconcile hasConfirm describe p s t) idle m.
Proof.
  intros Hq HQ. unfold reconcile. apply wp_bind, wp_locked. intros m1 Hr1. pose proof (rely_wf _ _ _ Hr1) as Hw1.
  assert (alone = true -> quiet m1) as Hq1 by (intros Hal; eapply quiet_relay; [by apply (rely_relay _ _ Hr1)|auto]).
  destruct (object_at m1 (ID t)) as [[o a]|] eqn:E; cbn [fst snd]; exists idle.
  - apply object_at_spec in E as [Hl Ha]. pose proof (change_view m1 o a p s (Running t) Hw1 Ha) as Hch.
    set (m2 := set_object m1 o (set_view p s (Running t))) in *.
    assert (objects m2 !! o = Some (set_view p s (Running t) a)) as Ha2 by (cbn; by rewrite lookup_alter_eq, Ha).
    assert (alone = true -> quiet m2) as Hq2.
    { intros Hal id x ax Hlx Hx _. destruct (decide (x = o)) as [->|Hne].
      - assert (ax = set_view p s (Running t) a) as -> by congruence. exact (Hq1 Hal id o a Hlx Ha ltac:(done)).
      - cbn in Hx. rewrite lookup_alter_ne in Hx by done. exact (Hq1 Hal id x ax Hlx Hx ltac:(done)). }
    split.
    { eapply guar_change; [done|done| | |].
      - intros Hal Hd. destruct (Hd (idle_driver Hal)).
      - intros x _. apply holds_kept; [apply Hch|done|]. intros y ay -> Hy Hs. destruct (decide (y = o)) as [->|Hne].
        + exists (set_view p s (Running t) a). split; [done|]. cbn. by assert (ay = a) as -> by congruence.
        + exists ay. split; [|done]. cbn. by rewrite lookup_alter_ne.
      - intros x Hx. rewrite (idle_driver_only x Hx) in Hx |- *. split; [done|by left]. }
    assert (evolves m m2) as He2 by (eapply evolves_trans; [by eapply rely_evolves|apply Hch]).
    destruct (Running t && bool_decide (ac_state a = StatePaused)) eqn:E1.
    + apply andb_true_iff in E1 as [_ Hs%bool_decide_eq_true]. apply wp_bind. eapply startLocal_spec; [done| |].
      * intros Hal. split; [|auto]. cbn. destruct (wf_entries m1 Hw1 _ o Hl) as (a' & Ha' & Hid). assert (a' = a) as -> by congruence. rewrite Hid.
        intros x ax Hlx Hx. cbn in Hlx. assert (x = o) as -> by congruence. by assert (ax = set_view p s (Running t) a) as -> by congruence.
      * intros r m3 He3 Hx. cbn [wp mret prog_ret]. apply HQ; [by eapply evolves_trans|]. intros Hal. by apply Hx.
    + destruct (negb (Running t) && _).
      * apply stopLocal_spec; [by eexists|done|]. intros e m3 He3 Hx. apply HQ; [by eapply evolves_trans|]. intros Hal. by apply Hx.
      * cbn [wp mret prog_ret]. by apply HQ.
  - split; [by eapply guar_same|]. apply wp_bind, track_spec.
    { intros Hal. split; [|auto]. intros o a Hl Ha. rewrite (proj2 (object_at_spec m1 (ID t) o a)) in E; done. }
    intros o m2 He2 _ (a & Ha & Hid) Hx2. assert (evolves m m2) as Hem2 by (eapply evolves_trans; [by eapply rely_evolves|done]).
    destruct (negb (Running t)); [cbn [wp mret prog_ret]; apply HQ; [done|]; intros Hal; by apply Hx2|].
    apply wp_bind. eapply startLocal_spec; [done| |].
    + intros Hal. rewrite Hid. by apply Hx2.
    + intros [e|d] m3 He3 Hx3; [|cbn [wp mret prog_ret]; apply HQ; [by eapply evolves_trans|]; intros Hal; by apply Hx3].
      apply wp_bind, wp_locked. intros m4 Hr4. pose proof (rely_wf _ _ _ Hr4) as Hw4.
      assert (alone = true -> quiet m4 /\ paused_at m4 (ID t)) as Hx4.
      { intros Hal. destruct (Hx3 Hal) as [Hq3 Hrs3]. specialize (Hrs3 e eq_refl). pose proof (rely_relay _ _ Hr4 Hal) as Hrs4.
        split; [by eapply quiet_relay|]. eapply paused_relay; [done|]. eapply paused_relay; [done|]. by apply Hx2. }
      assert (evolves m m4) as Hem4 by (eapply evolves_trans; [done|]; eapply evolves_trans; [done|by eapply rely_evolves]).
      destruct (bool_decide _); cbn [fst snd]; exists idle.
      * destruct (change_delete m4 (ID t) Hw4) as [Hch Hrs].
        { intros Hal x Hl. destruct (wf_entries m4 Hw4 _ x Hl) as (ax & Hax & _). eapply freed_context; [done|done|]. by apply (proj2 (Hx4 Hal) x). }
        split; [eapply guar_tokens; [done|done|done|]; intros x; by apply holds_same; [apply Hch| |]|]. cbn [wp mret prog_ret].
        apply HQ; [eapply evolves_trans; [done|apply Hch]|]. intros Hal. eapply quiet_relay; [done|by apply Hx4].
      * split; [by eapply guar_same|]. cbn [wp mret prog_ret]. apply HQ; [done|]. intros Hal. by apply Hx4.
Qed.

Lemma reconcile_all_spec {D} hasConfirm (describe : Entry -> D) p s tasks m (Q : errs -> gset token -> Manager -> Prop) :
  (alone = true -> quiet m) -> (forall e m', evolves m m' -> (alone = true -> quiet m') -> Q e idle m') ->
  wp Q (reconcile_all hasConfirm describe p s tasks) idle m.
Proof.
  revert m Q. induction tasks as [|t tasks IH]; intros m Q Hq HQ; cbn [reconcile_all]; [cbn [wp mret prog_ret]; by apply HQ; [apply evolves_refl|]|].
  apply wp_bind, reconcile_spec; [done|]. intros e m1 He1 Hq1. destruct (is_nil e).
  - apply IH; [done|]. intros e' m2 He2 Hq2. apply HQ; [by eapply evolves_trans|done].
  - cbn [wp mret prog_ret]. by apply HQ.
Qed.

Lemma Restore_spec {D} hasConfirm (describe : Entry -> D) p s m (Q : errs -> gset token -> Manager -> Prop) :
  (alone = true -> quiet m) -> (forall e m', evolves m m' -> (alone = true -> quiet m') -> Q e idle m') ->
  wp Q (Restore hasConfirm describe p s) idle m.
Proof.
  intros Hq HQ. unfold Restore. apply wp_bind, wp_reply. intros [e|tasks]; [cbn [wp mret prog_ret]; by apply HQ; [apply evolves_refl|]|].
  apply wp_bind, wp_locked. intros m1 Hr1. cbn [fst snd]. destruct (change_drop_stale (pf_ID p) (ss_ID s) m1 (rely_wf _ _ _ Hr1)) as (Hch & Ho & Hsub & Hd).
  exists idle. split.
  { eapply guar_change; [done|done| | |].
    - intros Hal Hn. destruct (Hn (idle_driver Hal)).
    - intros t _. apply holds_same; [apply Hch|by rewrite Hd|done].
    - intros t Ht. rewrite (idle_driver_only t Ht) in Ht |- *. split; [done|by left]. }
  apply reconcile_all_spec.
  - intros Hal. eapply quiet_shrinks; [done| |eapply quiet_relay; [by apply (rely_relay _ _ Hr1)|auto]]. intros x _. by rewrite Ho.
  - intros e m2 He2 Hq2. apply HQ; [|done]. eapply evolves_trans; [by eapply rely_evolves|]. eapply evolves_trans; [apply Hch|done].
Qed.

(** *** Clients *)

(** [Track] may replace an entry that runs; a single client is followed only
    when it does not use it. *)
Definition tracks (c : call) : bool := match c with CTrack _ _ _ => true | _ => false end.

Section clients.
Context (name : string) (hasConfirm : bool) {D : Type} (describe : Entry -> D).
Notation run_call := (run_call name hasConfirm describe).
Notation client := (client name hasConfirm describe).

Lemma run_call_spec c m (Q : unit -> gset token -> Manager -> Prop) :
  (alone = true -> quiet m /\ tracks c = false) -> (forall m', evolves m m' -> (alone = true -> quiet m') -> Q tt idle m') ->
  wp Q (run_call c) idle m.
Proof.
  intros Hq HQ. assert (alone = true -> quiet m) as Hq0 by (intros Hal; by apply Hq).
  destruct c; apply wp_bind; cbn [run_call].
  - apply Start_spec; [done|]. intros r m' He Hx. by apply HQ.
  - apply Pause_spec; [done|]. intros r m' He Hx. apply HQ; [done|]. intros Hal. by apply Hx.
  - apply Resume_spec; [done|]. intros r m' He Hx. by apply HQ.
  - apply Delete_spec; [done|]. intros r m' He Hx. by apply HQ.
  - apply Stop_entry_spec; [done|]. intros r m' He Hx. apply HQ; [done|]. intros Hal. by apply Hx.
  - apply StopProfile_spec; [done|]. intros r m' He Hx. by apply HQ.
  - apply PauseProfile_spec; [done|]. intros r m' He Hx. by apply HQ.
  - apply ReleaseProfile_spec; [done|]. intros r m' He Hx. by apply HQ.
  - apply Restore_spec; [done|]. intros r m' He Hx. by apply HQ.
  - destruct ctx; [|cbn [wp mret prog_ret]; apply HQ; [apply evolves_refl|done]].
    apply Shutdown_spec; [done|]. intros r m' He Hx. apply HQ; [done|]. intros Hal. by apply Hx.
  - apply Closed_spec; [done|]. intros r m' He Hx. by apply HQ.
  - unfold Track. apply wp_bind, track_spec; [intros Hal; by destruct (Hq Hal)|]. intros o m1 He1 [a Ha] _ _.
    apply wp_bind, wp_deref. intros m2 Hr2. destruct (ev_object _ _ (rely_evolves _ _ _ Hr2) o a Ha) as (a2 & Ha2 & _).
    exists a2, a2. split; [done|]. split; [done|]. cbn [wp mret prog_ret]. apply HQ; [eapply evolves_trans; [done|by eapply rely_evolves]|].
    intros Hal. by destruct (Hq Hal).
Qed.

Lemma client_spec calls m (Q : unit -> gset token -> Manager -> Prop) :
  (alone = true -> quiet m /\ existsb tracks calls = false) -> (forall m', evolves m m' -> (alone = true -> quiet m') -> Q tt idle m') ->
  wp Q (client calls) idle m.
Proof.
  revert m. induction calls as [|c calls IH]; intros m Hq HQ; cbn [client].
  - cbn [wp mret prog_ret]. apply HQ; [apply evolves_refl|]. intros Hal. by apply Hq.
  - apply wp_bind, run_call_spec.
    + intros Hal. destruct (Hq Hal) as [? Ht]. cbn [existsb] in Ht. by apply orb_false_iff in Ht as [? _].
    + intros m1 He1 Hq1. apply IH.
      * intros Hal. destruct (Hq Hal) as [_ Ht]. cbn [existsb] in Ht. apply orb_false_iff in Ht as [_ ?]. auto.
      * intros m2 He2 Hq2. apply HQ; [by eapply evolves_trans|done].
Qed.

(** A client that ends with a shutdown. *)
Lemma shutdown_client_spec calls m (Q : unit -> gset token -> Manager -> Prop) :
  (alone = true -> quiet m /\ existsb tracks calls = false) -> (forall m', evolves m m' -> (alone = true -> all_paused m') -> Q tt idle m') ->
  wp Q (client (calls ++ [CShutdown true])) idle m.
Proof.
  revert m. induction calls as [|c calls IH]; intros m Hq HQ; cbn [app client].
  - apply wp_bind. cbn [run_call]. apply wp_bind, Shutdown_spec; [intros Hal; by apply Hq|]. intros e m' He Hx. cbn [wp mret prog_ret].
    apply HQ; [done|]. intros Hal. by apply Hx.
  - apply wp_bind, run_call_spec.
    + intros Hal. destruct (Hq Hal) as [? Ht]. cbn [existsb] in Ht. by apply orb_false_iff in Ht as [? _].
    + intros m1 He1 Hq1. apply IH.
      * intros Hal. destruct (Hq Hal) as [_ Ht]. cbn [existsb] in Ht. apply orb_false_iff in Ht as [_ ?]. auto.
      * intros m2 He2 Hq2. apply HQ; [by eapply evolves_trans|done].
Qed.
End clients.

(** *** The laws of the logic *)

Definition stopped_client (ts : gset token) (m : Manager) : Prop := alone = true -> Driver ∈ ts /\ all_paused m.

Lemma relay_laws : Threads.laws run fits inv holds others keeps relay_entry stopped_client.
Proof.
  split.
  - intros ts m. split; [apply evolves_refl|intros; apply relay_step_refl].
  - intros ts m. split; [apply evolves_refl|intros; apply relay_step_refl].
  - apply others_trans.
  - intros ts ts' m m' Hs [He Hr]. split; [done|]. intros Hal Hd. apply Hr; [done|set_solver].
  - intros ts ts' m m' Hd [He Hr]. split; [done|]. intros Hal Hin. apply Hr; [done|set_solver].
  - done.
  - intros o ts m He. by apply run_spec.
  - intros ts m m' Hs Hr Hal. destruct (Hs Hal) as [Hd Hp]. split; [done|]. intros id. eapply paused_relay; [by eapply rely_alone|done].
Qed.

Lemma wf_New : wf New.
Proof. split; cbn; try done; intros c Hc; rewrite lookup_empty in Hc; by destruct Hc. Qed.

Lemma inv_New : inv New.
Proof. split; [exact wf_New|]. intros _ o Ho. cbn in Ho. by rewrite lookup_empty in Ho. Qed.

Lemma quiet_New x : quiet_but x New.
Proof. intros id o a Hl. cbn in Hl. by rewrite lookup_empty in Hl. Qed.
End logic.

(** ** Theorems *)

Section theorems.
Context (name : string) (hasConfirm : bool) {D : Type} (describe : Entry -> D).
Notation start := (start name hasConfirm describe).

Lemma start_sound (clients : list (list call)) : sound fits (inv false) holds (others false) (keeps false) relay_entry (stopped_client false) (start clients).
Proof.
  exists (map (fun _ => ∅) clients). split; [apply inv_New|]. split; [unfold start; cbn; by rewrite !length_map|]. split.
  - intros i j ts ts' _ Hi%list_lookup_fmap_Some Hj. destruct Hi as (? & -> & _). set_solver.
  - intros i p ts Hp Ht. apply list_lookup_fmap_Some in Hp as (calls & -> & _), Ht as (? & -> & _). split; [set_solver|].
    apply (client_spec false name hasConfirm describe calls New); [done|]. intros m' _ _ _. done.
Qed.

Lemma start_alone_sound (calls : list call) : existsb tracks calls = false ->
  sound fits (inv true) holds (others true) (keeps true) relay_entry (stopped_client true) (start [calls ++ [CShutdown true]]).
Proof.
  intros Ht. exists [{[Driver]}]. split; [apply inv_New|]. split; [done|]. split.
  - intros i j ts ts' Hij Hi%list_lookup_singleton_Some Hj%list_lookup_singleton_Some. lia.
  - intros i p ts Hp%list_lookup_singleton_Some Hts%list_lookup_singleton_Some. destruct Hp as [-> <-], Hts as [_ <-].
    split; [by intros t ->%elem_of_singleton|]. apply (shutdown_client_spec true name hasConfirm describe calls New); [intros _; split; [apply quiet_New|done]|].
    intros m' _ Hp _ _. split; [unfold idle; set_solver|auto].
Qed.
End theorems.

(** C11 (safety). Whatever clients call the manager, whatever the Gateway and the
    relays answer and however the steps interleave, as long as no caller gives up
    its wait for a relay, no thread follows a nil pointer, closes a nil channel or
    calls a nil function; and an entry that is shown as running has its relay,
    whose goroutine has not ended. *)
Theorem no_nil_relay (name : string) (hasConfirm : bool) {D} (describe : Entry -> D) (clients : list (list call)) (es : list event)
    (s : system) (Hpatient : forallb patient es = true) (Hrun : run_schedule run fits (start name hasConfirm describe clients) es = Some s) :
  Crash ∉ threads s /\
  forall id o a, entries (world s) !! id = Some o -> objects (world s) !! o = Some a -> ac_state a = StateRunning ->
    ID (ac_task a) = id /\ is_Some (ac_relay a) /\ o ∉ done (world s).
Proof.
  assert (sound fits (inv false) holds (others false) (keeps false) relay_entry (stopped_client false) s) as Hs.
  { eapply run_schedule_sound; [apply relay_laws|apply start_sound|done|done]. }
  split; [by eapply sound_no_crash|]. intros id o a Hl Ha Hr. destruct (sound_invariant _ _ _ _ _ _ _ s Hs) as [Hw _].
  destruct (wf_entries _ Hw id o Hl) as (a' & Ha' & Hid). assert (a' = a) as -> by congruence. split; [done|].
  destruct (wf_objects _ Hw o a Ha) as [[(Hrel & _) _]|[(_ & _ & _ & Hp) _]]; [|rewrite Hr in Hp; discriminate].
  split; [done|]. intros Hd. destruct (wf_done _ Hw o Hd) as [_ Hset]. apply (Hset a Ha); [by rewrite Hid|done].
Qed.

(** C10 (invariant). A single client that neither tracks tasks by hand nor gives up a
    wait loses no relay: at any time every relay that was not cancelled is listed
    under its task, and when it has shut the manager down, every relay is
    cancelled. *)
Theorem no_relay_lost (name : string) (hasConfirm : bool) {D} (describe : Entry -> D) (calls : list call) (es : list event) (s : system)
    (Htrack : existsb tracks calls = false) (Hpatient : forallb patient es = true)
    (Hrun : run_schedule run fits (start name hasConfirm describe [calls ++ [CShutdown true]]) es = Some s) :
  (forall o, contexts (world s) !! o = Some false ->
     exists a, objects (world s) !! o = Some a /\ entries (world s) !! ID (ac_task a) = Some o) /\
  (threads s !! 0%nat = Some (Return tt) -> forall o, contexts (world s) !! o <> Some false).
Proof.
  assert (sound fits (inv true) holds (others true) (keeps true) relay_entry (stopped_client true) s) as Hs.
  { eapply run_schedule_sound; [apply relay_laws|by apply start_alone_sound|done|done]. }
  destruct (sound_invariant _ _ _ _ _ _ _ s Hs) as [Hw Hm]. specialize (Hm eq_refl). split; [exact Hm|]. intros Hret o Hc.
  destruct (sound_final _ _ _ _ _ _ _ s tt Hs Hret) as [ts Hf]. destruct (Hf eq_refl) as [_ Hp].
  destruct (Hm o Hc) as (a & Ha & Hl). eapply freed_context; [done|done| |done]. by apply (Hp (ID (ac_task a)) o).
Qed.

(** ** Runs *)

Definition sample_profile : Profile := mkProfile "profile".
Definition sample_session : Session := mkSession "session" "development" "active".
Definition sample_target : Target := mkTarget 80 "tcp" "127.0.0.1" 8080.
Definition sample_created : ServiceTask := mkServiceTask "task" "web" "10.0.0.1" false [("TCP", 80)].
Definition sample_task : Task := mkTask "task" "session" "development" "web" "10.0.0.1" false [sample_target].
Definition sample_start : call := CStart true sample_profile sample_session " profile " (inr [sample_target]).
Definition started : list answer := [ACreated (inr sample_created); ARelay (inr 7%nat); AnErr []].
Definition quietly : answer := AnErr [].

Definition ends (calls : list call) : system := start "exchange" false id [calls ++ [CShutdown true]].
Definition play (s : system) (turns : list (nat * list answer)) : list event * system := drive_all run fits 100 turns s.

(** A task is started, paused, resumed and left to the shutdown. *)
Definition life : list event * system :=
  play (ends [sample_start; CPause true "profile" "task"; CResume true "profile" "task"])
    [(0%nat, started ++ [quietly; quietly]); (1%nat, [quietly]);
     (0%nat, [ATask (inr sample_task); ARelay (inr 8%nat); quietly; quietly; quietly]); (2%nat, [quietly]); (0%nat, [])].

Lemma no_relay_lost_witness : threads life.2 !! 0%nat = Some (Return tt) /\ forall o, contexts (world life.2) !! o <> Some false.
Proof.
  assert (threads life.2 !! 0%nat = Some (Return tt)) as Hret by (apply returned_spec; vm_compute; reflexivity). split; [exact Hret|].
  refine (proj2 (no_relay_lost "exchange" false id [sample_start; CPause true "profile" "task"; CResume true "profile" "task"] life.1 life.2 _ _ _) Hret).
  - reflexivity.
  - vm_compute. reflexivity.
  - apply drive_all_runs.
Defined.

(** Two clients use the manager of a third. *)
Definition shared : system :=
  start "exchange" false id [[CRestore sample_profile sample_session]; [CResume true "profile" "task"]; [CPause true "profile" "task"]].
Definition shared_life : list event * system :=
  play shared [(0%nat, [ATasks (inr [sample_task])]); (1%nat, [ATask (inr sample_task); ARelay (inr 7%nat); quietly]); (2%nat, [quietly; quietly])].

Lemma no_nil_relay_witness : Crash ∉ threads shared_life.2 /\ forallb patient shared_life.1 = true.
Proof.
  assert (forallb patient shared_life.1 = true) as Hp by (vm_compute; reflexivity). split; [|exact Hp].
  refine (proj1 (no_nil_relay "exchange" false id _ shared_life.1 shared_life.2 Hp _)). apply drive_all_runs.
Defined.

(** A caller that gives up its wait clears the fields that the goroutine of the
    relay is about to use: the goroutine panics. *)
Theorem abandoned_pause_panics :
  exists es s, run_schedule run fits (start "exchange" false id [[sample_start; CPause true "profile" "task"]]) es = Some s /\
    Crash ∈ threads s /\ forallb (fun e => match e with Selected _ b => negb b | _ => true end) es = true.
Proof.
  set (s0 := start "exchange" false id [[sample_start; CPause true "profile" "task"]]).
  set (before := play s0 [(0%nat, started ++ [quietly; quietly])]). set (after := [Selected 0 false; Runs 0; Runs 1; Runs 1] : list (event (R:=answer))).
  destruct (run_schedule run fits before.2 after) as [s|] eqn:E.
  - exists (before.1 ++ after), s. split; [rewrite (run_schedule_app run fits before.1 after s0 before.2 (drive_all_runs run fits 100 _ s0)); exact E|]. split; [|vm_compute; reflexivity].
    apply crashed_spec. transitivity (match run_schedule run fits before.2 after with Some s => crashed s | None => false end); [by rewrite E|vm_compute; reflexivity].
  - assert (match run_schedule run fits before.2 after with Some _ => true | None => false end = true) as Hsome by (vm_compute; reflexivity). by rewrite E in Hsome.
Qed.

(** Tracking a task by hand while its relay runs replaces the entry: the relay is
    neither listed nor cancelled when the manager has been shut down. *)
Theorem tracked_task_loses_relay :
  exists es s, forallb patient es = true /\
    run_schedule run fits (ends [sample_start; CTrack sample_profile sample_session sample_task]) es = Some s /\
    threads s !! 0%nat = Some (Return tt) /\ closed (world s) = true /\
    exists o, contexts (world s) !! o = Some false /\ bool_decide (o ∈ map snd (map_to_list (entries (world s)))) = false.
Proof.
  set (s0 := ends [sample_start; CTrack sample_profile sample_session sample_task]).
  set (turns := [(0%nat, started ++ [quietly; quietly])]).
  exists (play s0 turns).1, (play s0 turns).2.
  split; [vm_compute; reflexivity|]. split; [apply drive_all_runs|]. split; [apply returned_spec; vm_compute; reflexivity|]. split; [vm_compute; reflexivity|].
  exists 0%nat. split; vm_compute; reflexivity.
Qed.

(** Two clients resume the same task: the entry of the first is overwritten, and
    its relay is neither listed nor cancelled when the manager has been shut
    down. *)
Theorem concurrent_resumes_lose_relay :
  let resume := CResume true "profile" "task" in
  let clients := [[CRestore sample_profile sample_session]; [resume]; [resume]; [CShutdown true]] in
  exists es s, forallb patient es = true /\ run_schedule run fits (start "exchange" false id clients) es = Some s /\
    threads s !! 3%nat = Some (Return tt) /\ closed (world s) = true /\
    exists o, contexts (world s) !! o = Some false /\ bool_decide (o ∈ map snd (map_to_list (entries (world s)))) = false.
Proof.
  intros resume clients. set (resumed n := [ATask (inr sample_task); ARelay (inr n); quietly]).
  set (turns := [(0%nat, [ATasks (inr [sample_task])]); (1%nat, []); (2%nat, []); (1%nat, resumed 7%nat); (2%nat, resumed 8%nat);
                 (3%nat, [quietly; quietly]); (5%nat, [quietly]); (3%nat, [])]).
  exists (play (start "exchange" false id clients) turns).1, (play (start "exchange" false id clients) turns).2.
  split; [vm_compute; reflexivity|]. split; [apply drive_all_runs|]. split; [apply returned_spec; vm_compute; reflexivity|]. split; [vm_compute; reflexivity|].
  exists 1%nat. split; vm_compute; reflexivity.
Qed.
