(* ===== verification/TrafficStream.v ===== *)
(** * Encrypted frames of traffic tasks ([internal/transport/trafficstream])

    The frames of a traffic task travel as WebSocket messages, encrypted with the
    keys of a Noise handshake in which the client pins the key of the Gateway that
    its ticket names.  Contexts, deadlines and the gates that serialize readers
    and writers have no effect on the messages and are left out. *)

From S2P Require Import Prelude GoLib GoText WireReader.

(** ** Libraries: [gorilla/websocket] and [github.com/flynn/noise] *)

(** A WebSocket on a stream of the multiplexer: opening it at the client, the
    method and path of the request and accepting it at the server, and its binary
    (or other) messages. *)
Class WebSocketPackage := {
  NetConn : Type;
  Conn : Type;
  DialWebSocket : NetConn -> list string -> string -> result Conn; (* subprotocols, URL *)
  NextRequest : NetConn -> result (string * string);
  Upgrade : NetConn -> list string -> result Conn;
  Conn_Subprotocol : Conn -> string;
  SetReadLimit : Z -> Conn -> Conn;
  ReadMessage : Conn -> result (bool * bytes) * Conn; (* whether it is binary *)
  WriteMessage : bytes -> Conn -> result unit * Conn;
  Close : Conn -> Conn
}.

(** The states of a handshake and of a cipher; the randomness of a handshake is
    in [seed].  [noise_Public] is the public key of a private one (X25519 with the
    base point), as [GenerateKeypair] computes it.  [noise_New] is
    [NewHandshakeState] for the suite and the pattern of the program, which checks
    nothing of the keys; the last message gives two ciphers, the first for what
    the initiator sends. *)
Class NoisePackage := {
  HandshakeState : Type;
  CipherState : Type;
  noise_Public : bytes -> bytes;
  noise_New : bytes -> bool -> bytes -> bytes -> bytes -> option HandshakeState; (* seed, initiator, prologue, private and public key *)
  noise_WriteMessage : HandshakeState -> option (bytes * option (CipherState * CipherState) * HandshakeState);
  noise_ReadMessage : HandshakeState -> bytes -> option (option (CipherState * CipherState) * HandshakeState);
  noise_PeerStatic : HandshakeState -> bytes;
  noise_Encrypt : CipherState -> bytes -> bytes -> option (bytes * CipherState); (* associated data, plaintext *)
  noise_Decrypt : CipherState -> bytes -> bytes -> option (bytes * CipherState)
}.
Definition noise_MaxMsgLen : Z := 65535.

Section stream.
Context `{WebSocketPackage} `{NoisePackage}.

(** ** Constants and keys ([noise.go], [framing.go]) *)

Definition MaximumFrameBytes : Z := 14 + Z.shiftl 256 10.
Definition noiseOverhead : Z := 16.
Definition maximumCiphertext : Z := MaximumFrameBytes + noiseOverhead.
Definition NoisePublicKeyBytes : Z := 32.
Definition noiseHandshakeName : string := "kubeloop.traffic.noise.v1".
Definition frameAssociatedData : bytes := string_to_bytes "kubeloop.traffic.v1/frame".

Record NoiseStaticKeypair := mkNoiseStaticKeypair { Private : bytes; Public : bytes }.

Definition EncodeNoisePublicKey (key : bytes) : result string :=
  if negb (len key =? NoisePublicKeyBytes) then Err (NewError "noise public key is invalid") else Ok (b64_EncodeToString key).

Definition DecodeNoisePublicKey (encoded : string) : result bytes :=
  match b64_DecodeString encoded with
  | Some key => if negb (len key =? NoisePublicKeyBytes) || negb (bool_decide (b64_EncodeToString key = encoded))
                then Err (NewError "noise public key is invalid") else Ok key
  | None => Err (NewError "noise public key is invalid")
  end.

(** ** The handshake *)

(** The pair that each end gets: what it writes with, and what it reads with. *)
Definition handshake_write (message : bytes) (c : Conn) : result unit * Conn :=
  if (len message =? 0) || (noise_MaxMsgLen <? len message) then (Err (NewError "noise handshake message size is invalid"), c)
  else WriteMessage message c.

Definition handshake_read (c : Conn) : result bytes * Conn :=
  match ReadMessage c with
  | (Err e, c) => (Err e, c)
  | (Ok (binary, message), c) =>
      if negb binary || (len message =? 0) || (noise_MaxMsgLen <? len message)
      then (Err (NewError "noise handshake message is invalid"), c) else (Ok message, c)
  end.

Definition noiseInitiatorHandshake (h : HandshakeState) (expectedPeerStatic : option bytes) (c : Conn)
    : result (CipherState * CipherState) * Conn :=
  match noise_WriteMessage h with
  | None => (Err (NewError "write Noise handshake message 1"), c)
  | Some (message, _, h) =>
      match handshake_write message c with
      | (Err e, c) => (Err e, c)
      | (Ok _, c) =>
          match handshake_read c with
          | (Err e, c) => (Err e, c)
          | (Ok message, c) =>
              match noise_ReadMessage h message with
              | None => (Err (NewError "process Noise handshake message 2"), c)
              | Some (_, h) =>
                  if match expectedPeerStatic with
                     | Some key => negb (len key =? NoisePublicKeyBytes) || negb (bool_decide (noise_PeerStatic h = key))
                     | None => false
                     end
                  then (Err (NewError "gateway Noise static key does not match RelayTicket"), c)
                  else
                    match noise_WriteMessage h with
                    | Some (message, Some (writeState, readState), _) =>
                        match handshake_write message c with
                        | (Err e, c) => (Err e, c)
                        | (Ok _, c) => (Ok (writeState, readState), c)
                        end
                    | _ => (Err (NewError "write Noise handshake message 3"), c)
                    end
              end
          end
      end
  end.

Definition noiseResponderHandshake (h : HandshakeState) (c : Conn) : result (CipherState * CipherState) * Conn :=
  match handshake_read c with
  | (Err e, c) => (Err e, c)
  | (Ok message, c) =>
      match noise_ReadMessage h message with
      | None => (Err (NewError "process Noise handshake message 1"), c)
      | Some (_, h) =>
          match noise_WriteMessage h with
          | None => (Err (NewError "write Noise handshake message 2"), c)
          | Some (message, _, h) =>
              match handshake_write message c with
              | (Err e, c) => (Err e, c)
              | (Ok _, c) =>
                  match handshake_read c with
                  | (Err e, c) => (Err e, c)
                  | (Ok message, c) =>
                      match noise_ReadMessage h message with
                      | Some (Some (readState, writeState), _) => (Ok (writeState, readState), c)
                      | _ => (Err (NewError "process Noise handshake message 3"), c)
                      end
                  end
              end
          end
      end
  end.

(** [generated] is what generating a keypair gives when there is none. *)
Definition noiseHandshake (seed : bytes) (generated : result NoiseStaticKeypair) (initiator : bool) (staticKey : option NoiseStaticKeypair)
    (expectedPeerStatic : option bytes) (prologue : bytes) (c : Conn) : result (CipherState * CipherState) * Conn :=
  match match staticKey with Some key => Ok key | None => generated end with
  | Err e => (Err e, c)
  | Ok key =>
      if negb (len (Private key) =? NoisePublicKeyBytes) || negb (len (Public key) =? NoisePublicKeyBytes)
      then (Err (NewError "noise static keypair is invalid"), c)
      else
        match noise_New seed initiator (string_to_bytes (noiseHandshakeName +:+ "/") ++ prologue) (Private key) (Public key) with
        | None => (Err (NewError "create Noise handshake"), c)
        | Some h => if initiator then noiseInitiatorHandshake h expectedPeerStatic c else noiseResponderHandshake h c
        end
  end.

(** ** Frames *)

Record FrameConn := mkFrameConn { fc_conn : Conn; writeState : option CipherState; readState : option CipherState }.

Definition newFrameConn (c : Conn) : FrameConn := mkFrameConn (SetReadLimit MaximumFrameBytes c) None None.

Definition newSecureFrameConn (seed : bytes) (generated : result NoiseStaticKeypair) (c : Conn) (initiator enabled : bool)
    (staticKey : option NoiseStaticKeypair) (expectedPeerStatic : option bytes) (prologue : bytes) : result FrameConn * Conn :=
  if enabled then
    match noiseHandshake seed generated initiator staticKey expectedPeerStatic prologue (SetReadLimit noise_MaxMsgLen c) with
    | (Err e, c) => (Err e, Close c)
    | (Ok (w, r), c) => (Ok (mkFrameConn (SetReadLimit maximumCiphertext c) (Some w) (Some r)), c)
    end
  else (Ok (newFrameConn c), c).

Definition close_frames (f : FrameConn) : FrameConn := mkFrameConn (Close (fc_conn f)) (writeState f) (readState f).
Definition frame_size_error (n : Z) : error := NewError ("traffic frame size " +:+ pretty n +:+ " is outside 1..262158").

Definition ReadFrame (f : FrameConn) : result bytes * FrameConn :=
  match ReadMessage (fc_conn f) with
  | (Err e, c) => (Err e, mkFrameConn c (writeState f) (readState f))
  | (Ok (binary, frame), c) =>
      let f := mkFrameConn c (writeState f) (readState f) in
      if negb binary then (Err (NewError "traffic WebSocket message must be binary"), close_frames f)
      else
        let maximumFrame := match readState f with Some _ => maximumCiphertext | None => MaximumFrameBytes end in
        if (len frame =? 0) || (maximumFrame <? len frame) then (Err (frame_size_error (len frame)), close_frames f)
        else
          match readState f with
          | None => (Ok frame, f)
          | Some cipher =>
              match noise_Decrypt cipher frameAssociatedData frame with
              | None => (Err (NewError "decrypt Traffic WebSocket message"), close_frames f)
              | Some (frame, cipher) =>
                  let f := mkFrameConn (fc_conn f) (writeState f) (Some cipher) in
                  if (len frame =? 0) || (MaximumFrameBytes <? len frame)
                  then (Err (NewError ("decrypted traffic frame size " +:+ pretty (len frame) +:+ " is invalid")), close_frames f)
                  else (Ok frame, f)
              end
          end
  end.

Definition WriteFrame (frame : bytes) (f : FrameConn) : result unit * FrameConn :=
  if (len frame =? 0) || (MaximumFrameBytes <? len frame) then (Err (frame_size_error (len frame)), f)
  else
    match writeState f with
    | None => let '(r, c) := WriteMessage frame (fc_conn f) in (r, mkFrameConn c (writeState f) (readState f))
    | Some cipher =>
        match noise_Encrypt cipher frameAssociatedData frame with
        | None => (Err (NewError "encrypt Traffic WebSocket message"), f)
        | Some (frame, cipher) =>
            let '(r, c) := WriteMessage frame (fc_conn f) in (r, mkFrameConn c (Some cipher) (readState f))
        end
    end.

(** ** Both ends ([handshake.go], [client/dataplane], [gateway/api/relay.go]) *)

Definition MethodGet : string := "GET".
Definition Subprotocol : string := "kubeloop.traffic.v1".
Definition webSocketURL : string := "ws://traffic.kubeloop.internal/v1".

(** A failed attempt comes with the WebSocket it leaves, if it got that far. *)
Definition dialWithEncryptionPrologue (seed : bytes) (generated : result NoiseStaticKeypair) (connection : NetConn) (encryptionEnabled : bool)
    (expectedPeerStatic : option bytes) (prologue : bytes) : result FrameConn * option Conn :=
  match DialWebSocket connection [Subprotocol] webSocketURL with
  | Err e => (Err (WrapError "dial Traffic WebSocket" e), None)
  | Ok webSocket =>
      if negb (bool_decide (Conn_Subprotocol webSocket = Subprotocol))
      then (Err (NewError "traffic WebSocket subprotocol was not negotiated"), Some (Close webSocket))
      else
        match newSecureFrameConn seed generated webSocket true encryptionEnabled None expectedPeerStatic prologue with
        | (Err e, c) => (Err (WrapError "establish encrypted Traffic WebSocket" e), Some c)
        | (Ok f, c) => (Ok f, None)
        end
  end.

Definition DialWithEncryption (seed : bytes) (generated : result NoiseStaticKeypair) (connection : NetConn) (encryptionEnabled : bool) :=
  dialWithEncryptionPrologue seed generated connection encryptionEnabled None [].

Definition DialWithEncryptionPeer (seed : bytes) (generated : result NoiseStaticKeypair) (connection : NetConn) (encryptionEnabled : bool)
    (expectedPeerStatic : bytes) : result FrameConn * option Conn :=
  if encryptionEnabled && negb (len expectedPeerStatic =? NoisePublicKeyBytes) then (Err (NewError "gateway Noise public key is required"), None)
  else dialWithEncryptionPrologue seed generated connection encryptionEnabled (Some expectedPeerStatic) [].

(** The handler of the one request. *)
Definition accept_request (connection : NetConn) : result Conn * option Conn :=
  match NextRequest connection with
  | Err e => (Err e, None)
  | Ok (method, path) =>
      if negb (bool_decide (method = MethodGet)) || negb (bool_decide (path = "/v1"))
      then (Err (NewError "traffic WebSocket request is invalid"), None)
      else
        match Upgrade connection [Subprotocol] with
        | Err e => (Err e, None)
        | Ok webSocket =>
            if negb (bool_decide (Conn_Subprotocol webSocket = Subprotocol))
            then (Err (NewError "traffic WebSocket subprotocol was not negotiated"), Some (Close webSocket))
            else (Ok webSocket, None)
        end
  end.

Definition acceptWithEncryptionPrologue (seed : bytes) (generated : result NoiseStaticKeypair) (connection : NetConn) (encryptionEnabled : bool)
    (staticKey : option NoiseStaticKeypair) (prologue : bytes) : result FrameConn * option Conn :=
  match accept_request connection with
  | (Err e, open) => (Err (WrapError "accept Traffic WebSocket" e), open)
  | (Ok webSocket, _) =>
      match newSecureFrameConn seed generated webSocket false encryptionEnabled staticKey None prologue with
      | (Err e, c) => (Err (WrapError "establish encrypted Traffic WebSocket" e), Some c)
      | (Ok f, c) => (Ok f, None)
      end
  end.

Definition AcceptWithEncryptionStatic (seed : bytes) (generated : result NoiseStaticKeypair) (connection : NetConn) (encryptionEnabled : bool)
    (staticKey : NoiseStaticKeypair) : result FrameConn * option Conn :=
  if encryptionEnabled && (negb (len (Private staticKey) =? NoisePublicKeyBytes) || negb (len (Public staticKey) =? NoisePublicKeyBytes))
  then (Err (NewError "gateway Noise static keypair is required"), None)
  else acceptWithEncryptionPrologue seed generated connection encryptionEnabled (Some staticKey) [].

(** Of [openTransport]: whether traffic is encrypted and with which key, from the
    ticket and the configuration. *)
Definition traffic_key (ticketEncryption : option bool) (ticketKey : string) (configured : option bool) : result (bool * bytes) :=
  let clientEncryption := match ticketEncryption with Some b => b | None => false end in
  if match configured with Some b => negb (Bool.eqb b clientEncryption) | None => false end
  then Err (NewError "client and Control Plane traffic encryption settings do not match")
  else if clientEncryption then
    match DecodeNoisePublicKey ticketKey with
    | Ok key => Ok (true, key)
    | Err _ => Err (NewError "control plane returned an invalid Gateway Noise public key")
    end
  else if negb (bool_decide (ticketKey = "")) then Err (NewError "control plane returned a Noise key for plaintext traffic")
  else Ok (false, []).

(** The end of [OpenTrafficStream]. *)
Definition dial_traffic (seed : bytes) (generated : result NoiseStaticKeypair) (connection : NetConn) (encryptionEnabled : bool) (noisePublicKey : bytes)
    : result FrameConn * option Conn :=
  match (if encryptionEnabled && (len noisePublicKey =? 0) then DialWithEncryption seed generated connection true
         else DialWithEncryptionPeer seed generated connection encryptionEnabled noisePublicKey) with
  | (Err e, open) => (Err (WrapError "upgrade Traffic Task stream to WebSocket" e), open)
  | framed => framed
  end.

(** ** Several frames *)

Fixpoint write_frames (frames : list bytes) (f : FrameConn) : result FrameConn :=
  match frames with
  | [] => Ok f
  | frame :: frames => match WriteFrame frame f with (Ok _, f) => write_frames frames f | (Err e, _) => Err e end
  end.

(** What a reader gets before its first error, of at most [n] frames. *)
Fixpoint read_frames (n : nat) (f : FrameConn) : list bytes * FrameConn :=
  match n with
  | O => ([], f)
  | S n =>
      match ReadFrame f with
      | (Ok frame, f) => let '(frames, f) := read_frames n f in (frame :: frames, f)
      | (Err _, f) => ([], f)
      end
  end.

Definition frame_ok (frame : bytes) : Prop := 0 < len frame <= MaximumFrameBytes.

(** ** What the libraries promise

    [live limit messages sent c]: the network delivers [messages] to [c] and has
    taken [sent] from it.  [deliver] is the network. *)

Context (live : Z -> list (bool * bytes) -> list bytes -> Conn -> Prop) (deliver : list (bool * bytes) -> Conn -> Conn).

Record WebSocketLaws : Prop := {
  ws_limit : forall l l' ms s c, live l ms s c -> live l' ms s (SetReadLimit l' c);
  ws_read : forall l m ms s c, live l (m :: ms) s c -> len m.2 <= l -> exists c', ReadMessage c = (Ok m, c') /\ live l ms s c';
  ws_write : forall l ms s m c, live l ms s c -> exists c', WriteMessage m c = (Ok tt, c') /\ live l ms (s ++ [m]) c';
  ws_deliver : forall l ms ms' s c, live l ms s c -> live l (ms ++ ms') s (deliver ms' c)
}.

(** What [GenerateKeypair] returns: 32 bytes and their public key. *)
Definition genuine (key : NoiseStaticKeypair) : Prop :=
  len (Private key) = NoisePublicKeyBytes /\ len (Public key) = NoisePublicKeyBytes /\ Public key = noise_Public (Private key).

(** The ephemeral key of a handshake takes 32 bytes of randomness. *)
Definition seed_ok (seed : bytes) : Prop := 32 <= len seed.

(** Both ends of a handshake with one prologue complete it when each has a
    generated pair of keys (with a public key that belongs to another private key,
    or a point of low order, it fails); the initiator then knows the key of the
    responder, and their ciphers agree for as many messages as the counter of the
    cipher allows. *)
Context (synced : nat -> CipherState -> CipherState -> Prop).

Record NoiseLaws (budget : nat) : Prop := {
  xx_handshake : forall seed seed' prologue i r hi hr, genuine i -> genuine r -> seed_ok seed -> seed_ok seed' ->
    noise_New seed true prologue (Private i) (Public i) = Some hi -> noise_New seed' false prologue (Private r) (Public r) = Some hr ->
    exists m1 hi1 hr1 m2 hr2 hi2 m3 c1 c2 d1 d2 hi3 hr3,
      noise_WriteMessage hi = Some (m1, None, hi1) /\ noise_ReadMessage hr m1 = Some (None, hr1) /\
      noise_WriteMessage hr1 = Some (m2, None, hr2) /\ noise_ReadMessage hi1 m2 = Some (None, hi2) /\ noise_PeerStatic hi2 = Public r /\
      noise_WriteMessage hi2 = Some (m3, Some (c1, c2), hi3) /\ noise_ReadMessage hr2 m3 = Some (Some (d1, d2), hr3) /\
      synced budget c1 d1 /\ synced budget d2 c2 /\ Forall (fun m => 0 < len m <= noise_MaxMsgLen) [m1; m2; m3];
  aead : forall n w r ad m, synced (S n) w r -> exists ct w' r', noise_Encrypt w ad m = Some (ct, w') /\ noise_Decrypt r ad ct = Some (m, r') /\
    synced n w' r' /\ len ct = len m + noiseOverhead
}.

(** ** Frames in transit *)

Lemma size_ok n max : 0 < n <= max -> (n =? 0) || (max <? n) = false.
Proof. intros Hn. apply orb_false_iff. split; [apply Z.eqb_neq; lia|apply Z.ltb_ge; lia]. Qed.

Lemma WriteFrame_encrypted budget n w r frame f l ms s :
  WebSocketLaws -> NoiseLaws budget -> synced (S n) w r -> writeState f = Some w -> live l ms s (fc_conn f) -> frame_ok frame ->
  exists ct w' r' c', WriteFrame frame f = (Ok tt, mkFrameConn c' (Some w') (readState f)) /\ live l ms (s ++ [ct]) c' /\
    noise_Decrypt r frameAssociatedData ct = Some (frame, r') /\ synced n w' r' /\ len ct = len frame + noiseOverhead.
Proof.
  intros W L Hs Hw Hc Hf. destruct (aead budget L n w r frameAssociatedData frame Hs) as (ct & w' & r' & He & Hd & Hs' & Hl).
  destruct (ws_write W _ _ _ ct _ Hc) as (c' & Hwrite & Hc').
  exists ct, w', r', c'. split; [|done]. unfold WriteFrame. rewrite size_ok by exact Hf. by rewrite Hw, He, Hwrite.
Qed.

Lemma ReadFrame_encrypted r r' frame ct rest f s :
  WebSocketLaws -> readState f = Some r -> live maximumCiphertext ((true, ct) :: rest) s (fc_conn f) ->
  noise_Decrypt r frameAssociatedData ct = Some (frame, r') -> len ct = len frame + noiseOverhead -> frame_ok frame ->
  exists c', ReadFrame f = (Ok frame, mkFrameConn c' (writeState f) (Some r')) /\ live maximumCiphertext rest s c'.
Proof.
  intros W Hr Hl Hd Hct Hf. unfold frame_ok in Hf.
  destruct (ws_read W _ _ _ _ _ Hl) as (c' & Hread & Hc'); [cbn; unfold maximumCiphertext; lia|].
  exists c'. split; [|done]. unfold ReadFrame. rewrite Hread, Hr. cbn [negb readState].
  rewrite (size_ok (len ct) maximumCiphertext) by (unfold maximumCiphertext, noiseOverhead in *; lia).
  rewrite Hd. by rewrite (size_ok (len frame) MaximumFrameBytes).
Qed.

Definition deliver_to (ms : list (bool * bytes)) (f : FrameConn) : FrameConn := mkFrameConn (deliver ms (fc_conn f)) (writeState f) (readState f).

(** What is written at one end is read at the other, once the network has
    delivered what it took. *)
Definition delivers (f g : FrameConn) (frames : list bytes) : Prop :=
  exists f' l s cts, write_frames frames f = Ok f' /\ live l [] (s ++ cts) (fc_conn f') /\ live l [] s (fc_conn f) /\
    (read_frames (List.length frames) (deliver_to (map (pair true) cts) g)).1 = frames.

Lemma frames_read budget frames : WebSocketLaws -> NoiseLaws budget -> forall n w r f l ms s,
  synced n w r -> (List.length frames <= n)%nat -> Forall frame_ok frames -> writeState f = Some w -> live l ms s (fc_conn f) ->
  exists f' cts, write_frames frames f = Ok f' /\ live l ms (s ++ cts) (fc_conn f') /\
    forall g s', readState g = Some r -> live maximumCiphertext (map (pair true) cts) s' (fc_conn g) -> (read_frames (List.length frames) g).1 = frames.
Proof.
  intros W L. induction frames as [|frame frames IH]; intros n w r f l ms s Hs Hn Hall Hw Hf.
  - exists f, []. rewrite app_nil_r. done.
  - apply Forall_cons in Hall as [Hok Hall]. destruct n as [|n]; [cbn in Hn; lia|].
    destruct (WriteFrame_encrypted budget n w r frame f l ms s W L Hs Hw Hf Hok) as (ct & w' & r' & c1 & Hwrite & Hc1 & Hdec & Hs' & Hct).
    destruct (IH n w' r' (mkFrameConn c1 (Some w') (readState f)) l ms (s ++ [ct])) as (f' & cts & Hf' & Hsent & Hread); try done; [cbn in Hn; lia|].
    exists f', (ct :: cts). cbn [write_frames]. rewrite Hwrite. split; [done|]. split; [by rewrite <- app_assoc in Hsent|].
    intros g s' Hr Hg. cbn [map] in Hg. destruct (ReadFrame_encrypted r r' frame ct _ g s' W Hr Hg Hdec Hct Hok) as (c' & Hrg & Hc').
    cbn [List.length read_frames]. rewrite Hrg. specialize (Hread (mkFrameConn c' (writeState g) (Some r')) s' eq_refl Hc').
    destruct (read_frames _ _) as [fs g']. cbn in Hread |- *. by rewrite Hread.
Qed.

Lemma frames_delivered budget frames w r f g l s s' : WebSocketLaws -> NoiseLaws budget ->
  synced budget w r -> (List.length frames <= budget)%nat -> Forall frame_ok frames ->
  writeState f = Some w -> live l [] s (fc_conn f) -> readState g = Some r -> live maximumCiphertext [] s' (fc_conn g) -> delivers f g frames.
Proof.
  intros W L Hs Hn Hall Hw Hf Hr Hg. destruct (frames_read budget frames W L budget w r f l [] s) as (f' & cts & H1 & H2 & Hread); try done.
  exists f', l, s, cts. repeat split; [done..|]. apply (Hread _ s'); [done|]. apply (ws_deliver W _ [] _ _ _ Hg).
Qed.

(** ** Keys *)

Lemma noise_key_roundtrip key : len key = NoisePublicKeyBytes ->
  exists s, EncodeNoisePublicKey key = Ok s /\ DecodeNoisePublicKey s = Ok key.
Proof.
  intros Hl. exists (b64_EncodeToString key). unfold EncodeNoisePublicKey, DecodeNoisePublicKey.
  rewrite b64_decode_encode, Hl, bool_decide_eq_true_2 by done. done.
Qed.

Lemma DecodeNoisePublicKey_ok s key : DecodeNoisePublicKey s = Ok key -> EncodeNoisePublicKey key = Ok s /\ len key = NoisePublicKeyBytes.
Proof.
  unfold DecodeNoisePublicKey, EncodeNoisePublicKey. destruct (b64_DecodeString s) as [k|]; [|done].
  destruct (_ || _) eqn:E; [done|]. intros [= ->]. apply orb_false_iff in E as [E1 E2%negb_false_iff%bool_decide_eq_true].
  rewrite E1, E2. split; [done|]. by apply negb_false_iff, Z.eqb_eq in E1.
Qed.

(** An encrypted transport always has a key to pin, that of the ticket. *)
Lemma traffic_key_decodes ticketEncryption ticketKey configured key :
  traffic_key ticketEncryption ticketKey configured = Ok (true, key) -> EncodeNoisePublicKey key = Ok ticketKey /\ len key = NoisePublicKeyBytes.
Proof.
  unfold traffic_key. destruct (match configured with Some _ => _ | None => _ end); [done|].
  destruct (match ticketEncryption with Some _ => _ | None => _ end).
  - destruct (DecodeNoisePublicKey ticketKey) as [k|] eqn:E; [|done]. intros [= <-]. by apply DecodeNoisePublicKey_ok in E.
  - by destruct (negb _).
Qed.

(** ** The handshake *)

Definition prologue_of (prologue : bytes) : bytes := string_to_bytes (noiseHandshakeName +:+ "/") ++ prologue.

Definition message_ok (m : bytes) : Prop := 0 < len m <= noise_MaxMsgLen.

Lemma handshake_read_ok m rest s c : WebSocketLaws -> live noise_MaxMsgLen ((true, m) :: rest) s c -> message_ok m ->
  exists c', handshake_read c = (Ok m, c') /\ live noise_MaxMsgLen rest s c'.
Proof.
  intros W Hc Hm. destruct (ws_read W _ _ _ _ _ Hc) as (c' & Hread & Hc'); [apply Hm|]. exists c'. split; [|done].
  unfold handshake_read. rewrite Hread. cbn [negb orb]. by rewrite size_ok.
Qed.

Lemma handshake_write_ok l ms s m c : WebSocketLaws -> live l ms s c -> message_ok m ->
  exists c', handshake_write m c = (Ok tt, c') /\ live l ms (s ++ [m]) c'.
Proof.
  intros W Hc Hm. destruct (ws_write W _ _ _ m _ Hc) as (c' & Hw & Hc'). exists c'. split; [|done].
  unfold handshake_write. by rewrite size_ok.
Qed.

Definition keypair_ok (key : NoiseStaticKeypair) : Prop := len (Private key) = NoisePublicKeyBytes /\ len (Public key) = NoisePublicKeyBytes.

Lemma genuine_keypair_ok key : genuine key -> keypair_ok key.
Proof. by intros (H1 & H2 & _). Qed.

(** The stream is a WebSocket of the right kind. *)
Definition opens_client (n : NetConn) (c : Conn) : Prop := DialWebSocket n [Subprotocol] webSocketURL = Ok c /\ Conn_Subprotocol c = Subprotocol.
Definition opens_server (n : NetConn) (c : Conn) : Prop :=
  NextRequest n = Ok (MethodGet, "/v1") /\ Upgrade n [Subprotocol] = Ok c /\ Conn_Subprotocol c = Subprotocol.

(** The attempts are the handshake that follows. *)
Lemma dial_traffic_eq seed client n c key h :
  opens_client n c -> keypair_ok client -> len key = NoisePublicKeyBytes -> noise_New seed true (prologue_of []) (Private client) (Public client) = Some h ->
  dial_traffic seed (Ok client) n true key =
    match noiseInitiatorHandshake h (Some key) (SetReadLimit noise_MaxMsgLen c) with
    | (Ok (w, r), c) => (Ok (mkFrameConn (SetReadLimit maximumCiphertext c) (Some w) (Some r)), None)
    | (Err e, c) => (Err (WrapError "upgrade Traffic Task stream to WebSocket" (WrapError "establish encrypted Traffic WebSocket" e)), Some (Close c))
    end.
Proof.
  intros [Hd Hs] [Hc1 Hc2] Hk Hn. unfold dial_traffic, DialWithEncryptionPeer, dialWithEncryptionPrologue, newSecureFrameConn, noiseHandshake.
  rewrite Hk, Hd, Hs, Hc1, Hc2. cbn [andb orb negb Z.eqb NoisePublicKeyBytes Pos.eqb]. rewrite bool_decide_eq_true_2 by done. cbn [negb].
  unfold prologue_of in Hn. rewrite Hn. by destruct (noiseInitiatorHandshake _ _ _) as [[[w r]|e] c'].
Qed.

Lemma accept_eq seed generated gateway n c h :
  opens_server n c -> keypair_ok gateway -> noise_New seed false (prologue_of []) (Private gateway) (Public gateway) = Some h ->
  AcceptWithEncryptionStatic seed generated n true gateway =
    match noiseResponderHandshake h (SetReadLimit noise_MaxMsgLen c) with
    | (Ok (w, r), c) => (Ok (mkFrameConn (SetReadLimit maximumCiphertext c) (Some w) (Some r)), None)
    | (Err e, c) => (Err (WrapError "establish encrypted Traffic WebSocket" e), Some (Close c))
    end.
Proof.
  intros (Hr & Hu & Hs) [Hc1 Hc2] Hn. unfold AcceptWithEncryptionStatic, acceptWithEncryptionPrologue, accept_request, newSecureFrameConn, noiseHandshake.
  rewrite Hr, Hu, Hs, Hc1, Hc2. rewrite !bool_decide_eq_true_2 by done. cbn [andb orb negb Z.eqb NoisePublicKeyBytes Pos.eqb].
  unfold prologue_of in Hn. rewrite Hn. by destruct (noiseResponderHandshake _ _) as [[[w r]|e] c'].
Qed.

(** The initiator up to the answer. *)
Lemma initiator_answered h h1 h2 m1 x1 x2 answer key l rest s c :
  WebSocketLaws -> live l ((true, answer) :: rest) s c -> noise_WriteMessage h = Some (m1, x1, h1) -> message_ok m1 ->
  noise_ReadMessage h1 answer = Some (x2, h2) -> message_ok answer -> len key = NoisePublicKeyBytes ->
  exists c', live noise_MaxMsgLen rest (s ++ [m1]) c' /\
    noiseInitiatorHandshake h (Some key) (SetReadLimit noise_MaxMsgLen c) =
      (if bool_decide (noise_PeerStatic h2 = key) then
         match noise_WriteMessage h2 with
         | Some (message, Some (writeState, readState), _) =>
             match handshake_write message c' with (Err e, c) => (Err e, c) | (Ok _, c) => (Ok (writeState, readState), c) end
         | _ => (Err (NewError "write Noise handshake message 3"), c')
         end
       else (Err (NewError "gateway Noise static key does not match RelayTicket"), c')).
Proof.
  intros W Hc Hw Hm1 Hr Ha Hk. apply (ws_limit W _ noise_MaxMsgLen) in Hc.
  destruct (handshake_write_ok _ _ _ m1 _ W Hc Hm1) as (c1 & Hw1 & Hc1).
  destruct (handshake_read_ok answer rest _ _ W Hc1 Ha) as (c2 & Hr2 & Hc2).
  exists c2. split; [done|]. unfold noiseInitiatorHandshake. rewrite Hw, Hw1, Hr2, Hr, Hk. cbn [negb orb Z.eqb NoisePublicKeyBytes Pos.eqb].
  by destruct (bool_decide _).
Qed.

Lemma initiator_ok h h1 h2 h3 m1 m2 m3 x1 x2 w r l key c :
  WebSocketLaws -> live l [(true, m2)] [] c -> noise_WriteMessage h = Some (m1, x1, h1) -> noise_ReadMessage h1 m2 = Some (x2, h2) ->
  noise_PeerStatic h2 = key -> len key = NoisePublicKeyBytes -> noise_WriteMessage h2 = Some (m3, Some (w, r), h3) ->
  message_ok m1 -> message_ok m2 -> message_ok m3 ->
  exists c', noiseInitiatorHandshake h (Some key) (SetReadLimit noise_MaxMsgLen c) = (Ok (w, r), c') /\ live noise_MaxMsgLen [] [m1; m3] c'.
Proof.
  intros W Hc Hw1 Hr2 Hp Hk Hw3 L1 L2 L3.
  destruct (initiator_answered h h1 h2 m1 x1 x2 m2 key l [] [] c W Hc Hw1 L1 Hr2 L2 Hk) as (c2 & Hc2 & ->).
  rewrite bool_decide_eq_true_2, Hw3 by done. destruct (handshake_write_ok _ _ _ m3 _ W Hc2 L3) as (c3 & -> & Hc3). by exists c3.
Qed.

Lemma responder_ok h h1 h2 h3 m1 m2 m3 x1 x2 w r l c :
  WebSocketLaws -> live l [(true, m1); (true, m3)] [] c -> noise_ReadMessage h m1 = Some (x1, h1) -> noise_WriteMessage h1 = Some (m2, x2, h2) ->
  noise_ReadMessage h2 m3 = Some (Some (r, w), h3) -> message_ok m1 -> message_ok m2 -> message_ok m3 ->
  exists c', noiseResponderHandshake h (SetReadLimit noise_MaxMsgLen c) = (Ok (w, r), c') /\ live noise_MaxMsgLen [] [m2] c'.
Proof.
  intros W Hc Hr1 Hw2 Hr3 L1 L2 L3. apply (ws_limit W _ noise_MaxMsgLen) in Hc. unfold noiseResponderHandshake.
  destruct (handshake_read_ok m1 _ _ _ W Hc L1) as (c1 & -> & Hc1). rewrite Hr1, Hw2.
  destruct (handshake_write_ok _ _ _ m2 _ W Hc1 L2) as (c2 & -> & Hc2).
  destruct (handshake_read_ok m3 _ _ _ W Hc2 L3) as (c3 & -> & Hc3). rewrite Hr3. by exists c3.
Qed.
End stream.

(** C8 (refinement). With the key that the ticket carries, a client and the Gateway
    that holds it, each with a generated pair of keys, complete the handshake, and
    then a traffic stream carries every frame of a legal size, in both directions
    and in order, as long as the counters of the ciphers last. *)
Theorem traffic_stream_delivers `{WebSocketPackage} `{NoisePackage} (live : Z -> list (bool * bytes) -> list bytes -> Conn -> Prop)
    (deliver : list (bool * bytes) -> Conn -> Conn) (W : WebSocketLaws live deliver)
    (synced : nat -> CipherState -> CipherState -> Prop) (budget : nat) (L : NoiseLaws synced budget)
    (client gateway : NoiseStaticKeypair) (seed seed' : bytes) (hi hr : HandshakeState) (ticketKey : string) (configured : option bool)
    (generated : result NoiseStaticKeypair) (Hclient : genuine client) (Hgateway : genuine gateway)
    (Hseed : seed_ok seed) (Hseed' : seed_ok seed')
    (Hi : noise_New seed true (prologue_of []) (Private client) (Public client) = Some hi)
    (Hr : noise_New seed' false (prologue_of []) (Private gateway) (Public gateway) = Some hr)
    (Hticket : EncodeNoisePublicKey (Public gateway) = Ok ticketKey) (Hconfigured : default true configured = true) :
  traffic_key (Some true) ticketKey configured = Ok (true, Public gateway) /\
  exists m1 m2 m3, forall n c n' c' l l',
    opens_client n c -> live l [(true, m2)] [] c -> opens_server n' c' -> live l' [(true, m1); (true, m3)] [] c' ->
    exists f g,
      dial_traffic seed (Ok client) n true (Public gateway) = (Ok f, None) /\ live maximumCiphertext [] [m1; m3] (fc_conn f) /\
      AcceptWithEncryptionStatic seed' generated n' true gateway = (Ok g, None) /\ live maximumCiphertext [] [m2] (fc_conn g) /\
      forall frames, (List.length frames <= budget)%nat -> Forall frame_ok frames -> delivers live deliver f g frames /\ delivers live deliver g f frames.
Proof.
  pose proof (genuine_keypair_ok _ Hclient) as Hc. pose proof (genuine_keypair_ok _ Hgateway) as Hg. pose proof (proj2 Hg) as Hg2. split.
  { unfold traffic_key. destruct (noise_key_roundtrip (Public gateway) Hg2) as (s & He & Hd). rewrite Hticket in He. injection He as <-. rewrite Hd.
    destruct configured as [[|]|]; [done|discriminate|done]. }
  destruct (xx_handshake synced budget L seed seed' _ _ _ hi hr Hclient Hgateway Hseed Hseed' Hi Hr) as
    (m1 & hi1 & hr1 & m2 & hr2 & hi2 & m3 & c1 & c2 & d1 & d2 & hi3 & hr3 & W1 & R1 & W2 & R2 & Hpeer & W3 & R3 & S1 & S2 & Hall).
  rewrite !Forall_cons in Hall. destruct Hall as (L1 & L2 & L3 & _).
  exists m1, m2, m3. intros n c n' c' l l' Hn Hlive Hn' Hlive'.
  destruct (initiator_ok live deliver hi hi1 hi2 hi3 m1 m2 m3 None None c1 c2 l (Public gateway) c W Hlive W1 R2 Hpeer Hg2 W3 L1 L2 L3) as (e & He & Hle).
  destruct (responder_ok live deliver hr hr1 hr2 hr3 m1 m2 m3 None None d2 d1 l' c' W Hlive' R1 W2 R3 L1 L2 L3) as (e' & He' & Hle').
  apply (ws_limit live deliver W _ maximumCiphertext) in Hle, Hle'.
  eexists (mkFrameConn _ (Some c1) (Some c2)), (mkFrameConn _ (Some d2) (Some d1)).
  rewrite (dial_traffic_eq seed client n c _ hi Hn Hc Hg2 Hi), He. rewrite (accept_eq seed' generated gateway n' c' hr Hn' Hg Hr), He'.
  split; [done|]. split; [exact Hle|]. split; [done|]. split; [exact Hle'|].
  intros frames Hlen Hok. split.
  - exact (frames_delivered live deliver synced budget frames c1 d1 (mkFrameConn _ _ _) (mkFrameConn _ _ _) _ _ _ W L S1 Hlen Hok eq_refl Hle eq_refl Hle').
  - exact (frames_delivered live deliver synced budget frames d2 c2 (mkFrameConn _ _ _) (mkFrameConn _ _ _) _ _ _ W L S2 Hlen Hok eq_refl Hle' eq_refl Hle).
Qed.

(** C7 (safety). A client only ends up with a connection to the Gateway of its
    ticket: whatever the ticket and the configuration, an encrypted connection has
    ciphers of a handshake in which the peer showed the key of the ticket; a
    Gateway that shows another key is left after the first message, with the
    WebSocket closed, before the client has shown anything of its own. *)
Theorem other_gateway_refused `{WebSocketPackage} `{NoisePackage} (live : Z -> list (bool * bytes) -> list bytes -> Conn -> Prop)
    (deliver : list (bool * bytes) -> Conn -> Conn) (W : WebSocketLaws live deliver)
    (ticketEncryption configured : option bool) (ticketKey : string) (key : bytes)
    (seed : bytes) (client : NoiseStaticKeypair) (n : NetConn) (c : Conn) (l : Z) (s : list bytes)
    (h h1 h2 : HandshakeState) (m1 : bytes) (x1 x2 : option (CipherState * CipherState)) (answer : bytes) (rest : list (bool * bytes))
    (Hkey : traffic_key ticketEncryption ticketKey configured = Ok (true, key)) (Hclient : keypair_ok client)
    (Hopens : opens_client n c) (Hlive : live l ((true, answer) :: rest) s c)
    (Hnew : noise_New seed true (prologue_of []) (Private client) (Public client) = Some h)
    (Hfirst : noise_WriteMessage h = Some (m1, x1, h1)) (Hsize : message_ok m1) (Hanswer : message_ok answer)
    (Hsecond : noise_ReadMessage h1 answer = Some (x2, h2)) :
  (forall f left, dial_traffic seed (Ok client) n true key = (Ok f, left) -> EncodeNoisePublicKey (noise_PeerStatic h2) = Ok ticketKey) /\
  (noise_PeerStatic h2 <> key ->
   exists e c', dial_traffic seed (Ok client) n true key = (Err e, Some (Close c')) /\ live noise_MaxMsgLen rest (s ++ [m1]) c').
Proof.
  destruct (traffic_key_decodes _ _ _ _ Hkey) as [Hencoded Hl]. rewrite (dial_traffic_eq seed client n c key h Hopens Hclient Hl Hnew).
  destruct (initiator_answered live deliver h h1 h2 m1 x1 x2 answer key l rest s c W Hlive Hfirst Hsize Hsecond Hanswer Hl) as (c' & Hc' & ->).
  split; [|intros Hne; rewrite bool_decide_eq_false_2 by done; by eexists _, c'].
  intros f left. case_bool_decide as Hpeer; [|done]. intros _. by rewrite Hpeer.
Qed.

(** ** An adversary on the network *)

Section adversary.
Context `{WebSocketPackage} `{NoisePackage}.

(** What a writer makes of its frames: the cipher it used, the frame and the
    message. *)
Fixpoint written (w : CipherState) (frames : list bytes) : list (CipherState * bytes * bytes) :=
  match frames with
  | [] => []
  | frame :: frames =>
      match noise_Encrypt w frameAssociatedData frame with
      | Some (x, w') => (w, frame, x) :: written w' frames
      | None => []
      end
  end.

(** The ciphers that a reader goes through. *)
Inductive reader_of (r0 : CipherState) : CipherState -> Prop :=
| reader_of_first : reader_of r0 r0
| reader_of_next r x m r' : reader_of r0 r -> noise_Decrypt r frameAssociatedData x = Some (m, r') -> reader_of r0 r'.

(** Both directions count, and no message is a forgery: what a reader accepts was
    made by the writer, with the same count. *)
Record Authentic (nonce : CipherState -> nat) (w r : CipherState) (frames messages : list bytes) : Prop := {
  same_start : nonce w = nonce r;
  encrypt_counts : forall w x m w', noise_Encrypt w frameAssociatedData m = Some (x, w') -> nonce w' = S (nonce w);
  decrypt_counts : forall r x m r', noise_Decrypt r frameAssociatedData x = Some (m, r') -> nonce r' = S (nonce r);
  unforged : forall r1 x m r2, reader_of r r1 -> x ∈ messages -> noise_Decrypt r1 frameAssociatedData x = Some (m, r2) ->
    exists w1 frame, (w1, frame, x) ∈ written w frames /\ nonce w1 = nonce r1
}.

Lemma written_later nonce (Hcounts : forall w x m w', noise_Encrypt w frameAssociatedData m = Some (x, w') -> nonce w' = S (nonce w)) frames :
  forall w w1 frame x, (w1, frame, x) ∈ written w frames -> (nonce w <= nonce w1)%nat.
Proof.
  induction frames as [|f frames IH]; intros w w1 frame x Hin; [by apply elem_of_nil in Hin|]. cbn [written] in Hin.
  destruct (noise_Encrypt w frameAssociatedData f) as [[y w']|] eqn:He; [|by apply elem_of_nil in Hin].
  apply elem_of_cons in Hin as [[= -> -> ->]|Hin]; [done|]. apply IH in Hin. rewrite (Hcounts _ _ _ _ He) in Hin. lia.
Qed.

Lemma ReadFrame_inv (incoming : Conn -> list (bool * bytes)) f frame f' r :
  (forall c m c', ReadMessage c = (Ok m, c') -> incoming c = m :: incoming c') ->
  ReadFrame f = (Ok frame, f') -> readState f = Some r ->
  exists x r', incoming (fc_conn f) = (true, x) :: incoming (fc_conn f') /\ noise_Decrypt r frameAssociatedData x = Some (frame, r') /\ readState f' = Some r'.
Proof.
  unfold ReadFrame. intros Hin Hread Hr. destruct (ReadMessage (fc_conn f)) as [[[b x]|e] c] eqn:Em; [|done]. cbn [readState] in Hread. rewrite Hr in Hread.
  apply Hin in Em. destruct b; [|done]. cbn [negb] in Hread. destruct (_ || _); [done|].
  destruct (noise_Decrypt r frameAssociatedData x) as [[m r']|] eqn:Ed; [|done]. destruct (_ || _); [done|]. injection Hread as <- <-. by exists x, r'.
Qed.
End adversary.

(** C5 (safety). Whatever the network delivers (messages it saw, in any order and
    any number of times, left out or changed, or others, as long as none is a
    forgery), a reader gets the frames that were written, from the first on, in
    order and without gaps: a message out of place ends the reading. *)
Theorem read_what_was_written `{WebSocketPackage} `{NoisePackage} (incoming : Conn -> list (bool * bytes))
    (Hincoming : forall c m c', ReadMessage c = (Ok m, c') -> incoming c = m :: incoming c')
    (synced : nat -> CipherState -> CipherState -> Prop) (budget n k : nat) (L : NoiseLaws synced budget) (nonce : CipherState -> nat)
    (frames : list bytes) (w r : CipherState) (g : FrameConn)
    (Hsynced : synced n w r) (Hbudget : (List.length frames <= n)%nat) (Hreader : readState g = Some r)
    (Hauthentic : Authentic nonce w r frames (map snd (incoming (fc_conn g)))) :
  (read_frames k g).1 `prefix_of` frames.
Proof.
  destruct Hauthentic as [Hstart Henc Hdec Hun]. set (messages := map snd (incoming (fc_conn g))) in Hun.
  assert (exists before, written w frames = before ++ written w frames /\ forall w1 f x, (w1, f, x) ∈ before -> (nonce w1 < nonce w)%nat) as Hall.
  { exists []. split; [done|]. intros ??? Hx. by apply elem_of_nil in Hx. }
  assert (forall x, x ∈ map snd (incoming (fc_conn g)) -> x ∈ messages) as Hsub by done.
  pose proof (reader_of_first r) as Hof. clearbody messages. revert Hun Hall Hof. generalize (written w frames) at 1 2 as all. generalize r at 1 2 as r0.
  intros r0 all Hun Hall Hof. revert n frames w r g Hsynced Hbudget Hreader Hstart Hall Hof Hsub.
  induction k as [|k IH]; intros n frames w r g Hs Hn Hr Hstart (before & Hall & Hbefore) Hof Hsub; cbn [read_frames]; [apply prefix_nil|].
  destruct (ReadFrame g) as [[frame|e] g'] eqn:E; [|apply prefix_nil].
  destruct (ReadFrame_inv incoming g frame g' r Hincoming E Hr) as (x & r' & Hin & Hd & Hr').
  destruct (Hun r x frame r' Hof) as (w1 & f1 & Hx & Hnonce); [apply Hsub; rewrite Hin; left|done|].
  rewrite Hall in Hx. apply elem_of_app in Hx as [Hx|Hx]; [apply Hbefore in Hx; lia|].
  destruct frames as [|first frames]; cbn [written] in Hx, Hall; [by apply elem_of_nil in Hx|]. destruct n as [|n]; [cbn in Hn; lia|].
  destruct (aead synced budget L n w r frameAssociatedData first Hs) as (ct & w2 & r2 & He & Hd' & Hs' & _). rewrite He in Hx, Hall.
  apply elem_of_cons in Hx as [[= -> -> ->]|Hx]; [|apply (written_later nonce Henc) in Hx; rewrite (Henc _ _ _ _ He) in Hx; lia].
  rewrite Hd in Hd'. injection Hd' as <- <-.
  specialize (IH n frames w2 r' g' Hs' ltac:(cbn in Hn; lia) Hr'). destruct (read_frames k g') as [fs g'']. cbn [fst] in IH |- *.
  apply prefix_cons, IH.
  - by rewrite (Henc _ _ _ _ He), (Hdec _ _ _ _ Hd), Hstart.
  - exists (before ++ [(w, frame, ct)]). rewrite <- app_assoc. split; [done|]. intros w3 f3 y [Hy|Hy]%elem_of_app; rewrite (Henc _ _ _ _ He).
    + apply Hbefore in Hy. lia.
    + apply list_elem_of_singleton in Hy. injection Hy as -> -> ->. lia.
  - by eapply reader_of_next.
  - intros y Hy. apply Hsub. rewrite Hin. cbn. by right.
Qed.

(** ** A network and a handshake for the witnesses

    The toy ciphers put the direction and the count of a message in front of it. *)

Module Toy.
Record Socket := mkSocket { limit : Z; incoming : list (bool * bytes); sent : list bytes; protocol : string; closed : bool }.

#[export] Instance Sockets : WebSocketPackage := {
  NetConn := Socket;
  Conn := Socket;
  DialWebSocket n protocols _ := Ok (mkSocket (limit n) (incoming n) (sent n) (hd "" protocols) false);
  NextRequest _ := Ok ("GET", "/v1");
  Upgrade n protocols := Ok (mkSocket (limit n) (incoming n) (sent n) (hd "" protocols) false);
  Conn_Subprotocol := protocol;
  SetReadLimit l c := mkSocket l (incoming c) (sent c) (protocol c) (closed c);
  ReadMessage c :=
    match closed c, incoming c with
    | false, m :: rest => if limit c <? len m.2 then (Err (NewError "websocket: read limit exceeded"), c)
                          else (Ok m, mkSocket (limit c) rest (sent c) (protocol c) false)
    | _, _ => (Err EOF, c)
    end;
  WriteMessage m c := if closed c then (Err EOF, c) else (Ok tt, mkSocket (limit c) (incoming c) (sent c ++ [m]) (protocol c) false);
  Close c := mkSocket (limit c) (incoming c) (sent c) (protocol c) true
}.

Definition live (l : Z) (ms : list (bool * bytes)) (s : list bytes) (c : Socket) : Prop :=
  limit c = l /\ incoming c = ms /\ sent c = s /\ closed c = false.
Definition deliver (ms : list (bool * bytes)) (c : Socket) : Socket := mkSocket (limit c) (incoming c ++ ms) (sent c) (protocol c) (closed c).

Lemma sockets_ok : WebSocketLaws live deliver.
Proof.
  split.
  - intros l l' ms s c (<- & <- & <- & H). by repeat split.
  - intros l m ms s c (<- & Hi & <- & H) Hm. cbn. rewrite H, Hi. rewrite (proj2 (Z.ltb_ge _ _)) by done. eexists. split; [done|]. by repeat split.
  - intros l ms s m c (<- & <- & <- & H). cbn. rewrite H. eexists. split; [done|]. by repeat split.
  - intros l ms ms' s c (<- & <- & <- & H). by repeat split.
Qed.

Lemma sockets_incoming (c : Socket) m (c' : Socket) : ReadMessage c = (Ok m, c') -> incoming c = m :: incoming c'.
Proof. cbn. destruct (closed c); [done|]. destruct (incoming c) as [|x rest]; [done|]. destruct (_ <? _); [done|]. by intros [= -> <-]. Qed.

Record Cipher := mkCipher { direction : byte; count : nat }.
Record Handshake := mkHandshake { initiator : bool; done_ : nat; public : bytes; peer : bytes }.

Definition count_max : nat := 1000.
Definition tag (c : Cipher) : bytes := direction c :: be_put 8 (Z.of_nat (count c)) ++ replicate 7 x00.
Definition next (c : Cipher) : Cipher := mkCipher (direction c) (S (count c)).

#[export] Instance Noise : NoisePackage := {
  HandshakeState := Handshake;
  CipherState := Cipher;
  noise_Public private := private;
  noise_New _ i _ private public := if (len private =? 32) && (len public =? 32) then Some (mkHandshake i 0 public []) else None;
  noise_WriteMessage h :=
    match initiator h, done_ h with
    | true, 0%nat => Some ([x01], None, mkHandshake true 1 (public h) (peer h))
    | false, 1%nat => Some (x02 :: public h, None, mkHandshake false 2 (public h) (peer h))
    | true, 2%nat => Some (x03 :: public h, Some (mkCipher x0a 0, mkCipher x0b 0), mkHandshake true 3 (public h) (peer h))
    | _, _ => None
    end;
  noise_ReadMessage h m :=
    match initiator h, done_ h, m with
    | false, 0%nat, [x01] => Some (None, mkHandshake false 1 (public h) (peer h))
    | true, 1%nat, x02 :: key => Some (None, mkHandshake true 2 (public h) key)
    | false, 2%nat, x03 :: key => Some (Some (mkCipher x0a 0, mkCipher x0b 0), mkHandshake false 3 (public h) key)
    | _, _, _ => None
    end;
  noise_PeerStatic := peer;
  noise_Encrypt c _ m := if (count c <? count_max)%nat then Some (tag c ++ m, next c) else None;
  noise_Decrypt c _ x := if (count c <? count_max)%nat && bool_decide (take 16 x = tag c) then Some (drop 16 x, next c) else None
}.

Definition synced (n : nat) (w r : Cipher) : Prop := w = r /\ (n + count w <= count_max)%nat.

Lemma tag_length c : List.length (tag c) = 16%nat.
Proof. unfold tag. cbn [List.length]. by rewrite length_app, be_put_length, length_replicate. Qed.

Lemma take_tag c m : take 16 (tag c ++ m) = tag c. Proof. apply take_app_length'. by rewrite tag_length. Qed.
Lemma drop_tag c m : drop 16 (tag c ++ m) = m. Proof. apply drop_app_length'. by rewrite tag_length. Qed.

Lemma small_message b (key : bytes) : len key = 32 -> message_ok (b :: key).
Proof. unfold message_ok, len, noise_MaxMsgLen. cbn [List.length]. lia. Qed.

Lemma noise_ok : NoiseLaws synced count_max.
Proof.
  split.
  - intros seed seed' prologue i r hi hr (Ei & E & _) (Er & E' & _) _ _. cbn. unfold NoisePublicKeyBytes in *.
    rewrite Ei, E, Er, E'. cbn [Z.eqb Pos.eqb andb]. intros [= <-] [= <-].
    do 13 eexists. repeat (split; [reflexivity|]). split; [split; [done|cbn [count]; lia]|]. split; [split; [done|cbn [count]; lia]|].
    rewrite !Forall_cons. split; [done|]. split; [by apply small_message|]. split; [by apply small_message|]. apply Forall_nil_2.
  - intros n w r ad m [<- Hn]. exists (tag w ++ m), (next w), (next w). cbn [noise_Encrypt noise_Decrypt Noise].
    rewrite (proj2 (Nat.ltb_lt _ _)) by lia. rewrite take_tag, drop_tag, bool_decide_eq_true_2 by done. cbn [andb].
    split; [done|]. split; [done|]. split; [split; [done|cbn [count next]; lia]|]. unfold len. rewrite length_app, tag_length. unfold noiseOverhead. lia.
Qed.

Definition key_of (b : byte) : NoiseStaticKeypair := mkNoiseStaticKeypair (replicate 32 b) (replicate 32 b).
Definition randomness : bytes := replicate 32 x00.
Definition net (messages : list bytes) : Socket := mkSocket 0 (map (pair true) messages) [] "" false.
Definition open (messages : list bytes) : Socket := mkSocket 0 (map (pair true) messages) [] Subprotocol false.

(** An encrypted frame of the first direction. *)
Definition message (n : nat) (frame : bytes) : bytes := tag (mkCipher x0a n) ++ frame.

Lemma counted (r : Cipher) (x m : bytes) (r' : Cipher) : noise_Decrypt r frameAssociatedData x = Some (m, r') ->
  r' = next r /\ (count r < count_max)%nat /\ take 16 x = tag r.
Proof.
  cbn [noise_Decrypt Noise]. destruct (Nat.ltb_spec (count r) count_max); [|done]. case_bool_decide; [|done]. by intros [= <- <-].
Qed.

Lemma reader_direction (r r' : Cipher) : reader_of r r' -> direction r' = direction r.
Proof. induction 1 as [|r1 x m r2 _ IH Hd]; [done|]. by apply counted in Hd as (-> & _). Qed.

Lemma tag_inj c c' : (count c < count_max)%nat -> (count c' < count_max)%nat -> tag c = tag c' -> c = c'.
Proof.
  destruct c as [d n], c' as [d' n']. unfold tag, count_max. cbn [direction count]. intros Hn Hn' H.
  pose proof (f_equal (hd x00) H) as Hd. apply (f_equal (@tl byte)) in H. cbn [hd tl] in Hd, H. subst d'.
  apply app_inj_2 in H as [H _]; [|done]. apply (f_equal be_get) in H. rewrite !be_get_put in H.
  rewrite !Z.mod_small in H by lia. f_equal. lia.
Qed.

(** The first two messages and nothing else. *)
Lemma authentic frame1 frame2 messages : Forall (fun x => x = message 0 frame1 \/ x = message 1 frame2) messages ->
  Authentic count (mkCipher x0a 0) (mkCipher x0a 0) [frame1; frame2] messages.
Proof.
  intros Hall. split; [done| | |].
  - intros w x m w'. cbn [noise_Encrypt Noise]. destruct (_ <? _)%nat; [|done]. by intros [= _ <-].
  - intros r x m r' Hd. by apply counted in Hd as (-> & _).
  - intros r1 x m r2 Hof Hx Hd. apply counted in Hd as (_ & Hc & Htag). rewrite Forall_forall in Hall.
    change (written _ _) with [(mkCipher x0a 0, frame1, message 0 frame1); (mkCipher x0a 1, frame2, message 1 frame2)].
    destruct (Hall x Hx) as [-> | ->]; unfold message in Htag; rewrite take_tag in Htag; (apply tag_inj in Htag as <-; [|first [done|cbn; unfold count_max; lia]..]).
    + exists (mkCipher x0a 0), frame1. split; [left|done].
    + exists (mkCipher x0a 1), frame2. split; [right; left|done].
Qed.
End Toy.

Lemma traffic_stream_delivers_witness :
  exists ticketKey m1 m2 m3 (f g : @FrameConn Toy.Sockets Toy.Noise),
    traffic_key (Some true) ticketKey None = Ok (true, Public (Toy.key_of x0c)) /\
    @dial_traffic Toy.Sockets Toy.Noise Toy.randomness (Ok (Toy.key_of x0d)) (Toy.net [m2]) true (Public (Toy.key_of x0c)) = (Ok f, None) /\
    @AcceptWithEncryptionStatic Toy.Sockets Toy.Noise Toy.randomness (Err EOF) (Toy.net [m1; m3]) true (Toy.key_of x0c) = (Ok g, None) /\
    @delivers Toy.Sockets Toy.Noise Toy.live Toy.deliver f g [[x01]; [x02; x03]] /\ @delivers Toy.Sockets Toy.Noise Toy.live Toy.deliver g f [[x04]].
Proof.
  destruct (noise_key_roundtrip (Public (Toy.key_of x0c)) eq_refl) as (ticketKey & Hticket & _).
  destruct (@traffic_stream_delivers Toy.Sockets Toy.Noise Toy.live Toy.deliver Toy.sockets_ok Toy.synced Toy.count_max Toy.noise_ok (Toy.key_of x0d) (Toy.key_of x0c) Toy.randomness Toy.randomness
    _ _ ticketKey None (Err EOF) (conj eq_refl (conj eq_refl eq_refl)) (conj eq_refl (conj eq_refl eq_refl)) (Z.le_refl 32) (Z.le_refl 32) eq_refl eq_refl Hticket eq_refl) as (Hkey & m1 & m2 & m3 & Hall).
  destruct (Hall (Toy.net [m2]) (Toy.open [m2]) (Toy.net [m1; m3]) (Toy.open [m1; m3]) 0 0) as (f & g & Hf & _ & Hg & _ & Hframes); try (by repeat split).
  exists ticketKey, m1, m2, m3, f, g. split; [exact Hkey|]. split; [exact Hf|]. split; [exact Hg|].
  split; [apply (Hframes [[x01]; [x02; x03]])|apply (Hframes [[x04]])].
  - cbn [List.length]. unfold Toy.count_max. lia.
  - rewrite !Forall_cons. done.
  - cbn [List.length]. unfold Toy.count_max. lia.
  - rewrite !Forall_cons. done.
Defined.

(** A Gateway with another key than the one of the ticket gets one message. *)
Lemma other_gateway_refused_witness :
  exists ticketKey key e (c : Toy.Socket),
    traffic_key (Some true) ticketKey (Some true) = Ok (true, key) /\
    @dial_traffic Toy.Sockets Toy.Noise [] (Ok (Toy.key_of x0d)) (Toy.net [x02 :: replicate 32 x0e]) true key = (Err e, Some (@Close Toy.Sockets c)) /\
    Toy.sent c = [[x01]].
Proof.
  destruct (noise_key_roundtrip (Public (Toy.key_of x0c)) eq_refl) as (ticketKey & Hticket & Hdecode).
  assert (traffic_key (Some true) ticketKey (Some true) = Ok (true, Public (Toy.key_of x0c))) as Hkey by (unfold traffic_key; cbn [Bool.eqb negb]; by rewrite Hdecode).
  destruct (@other_gateway_refused Toy.Sockets Toy.Noise Toy.live Toy.deliver Toy.sockets_ok (Some true) (Some true) ticketKey (Public (Toy.key_of x0c)) [] (Toy.key_of x0d)
    (Toy.net [x02 :: replicate 32 x0e]) (Toy.open [x02 :: replicate 32 x0e]) 0 []
    (Toy.mkHandshake true 0 (replicate 32 x0d) []) (Toy.mkHandshake true 1 (replicate 32 x0d) []) (Toy.mkHandshake true 2 (replicate 32 x0d) (replicate 32 x0e))
    [x01] None None (x02 :: replicate 32 x0e) []
    Hkey (conj eq_refl eq_refl) (conj eq_refl eq_refl) (conj eq_refl (conj eq_refl (conj eq_refl eq_refl))) eq_refl eq_refl) as [_ Hrefused];
    [by vm_compute|by vm_compute|reflexivity|].
  destruct Hrefused as (e & c & Hd & (_ & _ & Hs & _)); [by vm_compute|]. by exists ticketKey, (Public (Toy.key_of x0c)), e, c.
Defined.

(** The second message comes twice and in front of the first. *)
Lemma read_what_was_written_witness :
  (read_frames 4 (@mkFrameConn Toy.Sockets Toy.Noise (Toy.mkSocket maximumCiphertext
     (map (pair true) [Toy.message 0 [x01]; Toy.message 0 [x01]; Toy.message 1 [x02; x03]]) [] Subprotocol false)
     None (Some (Toy.mkCipher x0a 0)))).1 `prefix_of` [[x01]; [x02; x03]].
Proof.
  apply (@read_what_was_written Toy.Sockets Toy.Noise Toy.incoming Toy.sockets_incoming Toy.synced Toy.count_max 2 4 Toy.noise_ok Toy.count [[x01]; [x02; x03]]
    (Toy.mkCipher x0a 0) (Toy.mkCipher x0a 0)); [by vm_compute; split; [|lia]|cbn; lia|done|].
  apply Toy.authentic. change (map snd _) with [Toy.message 0 [x01]; Toy.message 0 [x01]; Toy.message 1 [x02; x03]].
  rewrite !Forall_cons. split; [by left|]. split; [by left|]. split; [by right|]. apply Forall_nil_2.
Defined.
