(* ===== verification/PortForward.v ===== *)
(** * Port forwards of the desktop client ([client/portforward])

    The manager of port forwards and the local listeners that it starts
    ([client/portforward/listener]).  Its callers interleave: the mutex [mu] and
    the lock [lifecycle] are explicit, and a call to the Gateway, the data plane
    or the network lets the others in.  What a listener does with its connections
    is not part of the model.  [StopAll] of the listeners has no caller. *)

From S2P Require Import Prelude GoLib GoText GoSort RemoteTask Threads.

Definition errs : Type := list error.
Definition Join (left right : errs) : errs := left ++ right.
Definition is_nil (e : errs) : bool := match e with [] => true | _ => false end.
Definition failed (message : string) : errs := [NewError message].

(** ** Addresses of Go's [net] and [strconv] *)

Definition is_byte (c : byte) (b : byte) : bool := bool_decide (b = c).

Fixpoint IndexByte (c : byte) (l : bytes) : option nat :=
  match l with
  | [] => None
  | b :: l => if is_byte c b then Some 0%nat else option_map S (IndexByte c l)
  end.

Definition LastIndexByte (c : byte) (l : bytes) : option nat :=
  match IndexByte c (rev l) with Some i => Some (List.length l - 1 - i)%nat | None => None end.

Definition colon : byte := x3a.
Definition open_bracket : byte := x5b.
Definition close_bracket : byte := x5d.
Definition has (c : byte) (l : bytes) : bool := match IndexByte c l with Some _ => true | None => false end.

(** [net.SplitHostPort] *)
Definition SplitHostPort (hostport : string) : option (string * string) :=
  let l := string_to_bytes hostport in
  let finish (host : bytes) (j k i : nat) :=
    if has open_bracket (drop j l) || has close_bracket (drop k l) then None
    else Some (bytes_to_string host, bytes_to_string (drop (S i) l)) in
  match LastIndexByte colon l with
  | None => None
  | Some i =>
      if is_byte open_bracket (nth 0 l x00) then
        match IndexByte close_bracket l with
        | None => None
        | Some last => if Nat.eqb (S last) i then finish (take (last - 1) (drop 1 l)) 1%nat (S last) i else None
        end
      else if has colon (take i l) then None else finish (take i l) 0%nat 0%nat i
  end.

(** [net.JoinHostPort] for a host without colons, and [strconv.Itoa]. *)
Definition loopback (port : Z) : string := "127.0.0.1:" +:+ pretty port.

Definition ParsePort (s : string) : option Z :=
  match ParseUint (string_to_bytes s) with Some n => if 2 ^ 16 <=? n then None else Some n | None => None end.

(** ** Data *)

Record Profile := mkProfile { pf_ID : string }.
Record Session := mkSession { ss_ID : string; ss_Namespace : string; ss_State : string }.

(** [remote.PortForwardTask] *)
Record PortForwardTask := mkTask {
  ID : string;
  State_ : State;
  Kind : string;
  Name : string;
  Protocol : string;
  RemotePort : Z;   (* uint16 *)
  LocalPort : Z;    (* uint16 *)
  DialAddress : string
}.

Record Request := mkRequest {
  rq_ProfileID : string;
  rq_Kind : string;
  rq_Name : string;
  rq_Protocol : string;
  rq_RemotePort : Z;
  rq_LocalPort : Z
}.

Record Info := mkInfo {
  in_ID : string;
  in_ProfileID : string;
  in_SessionID : string;
  in_Namespace : string;
  in_Kind : string;
  in_Name : string;
  in_Protocol : string;
  in_RemotePort : Z;
  in_LocalPort : Z;
  in_Address : string;
  in_DialAddress : string;
  in_State : string
}.
Definition set_State (state : string) (i : Info) : Info :=
  mkInfo (in_ID i) (in_ProfileID i) (in_SessionID i) (in_Namespace i) (in_Kind i) (in_Name i) (in_Protocol i) (in_RemotePort i)
    (in_LocalPort i) (in_Address i) (in_DialAddress i) state.
Definition set_running (port : Z) (address dialAddress state : string) (i : Info) : Info :=
  mkInfo (in_ID i) (in_ProfileID i) (in_SessionID i) (in_Namespace i) (in_Kind i) (in_Name i) (in_Protocol i) (in_RemotePort i)
    port address dialAddress state.

Definition portForwardSessionActive : string := "active".
Definition portForwardStatePaused : string := "paused".
Definition portForwardStateResuming : string := "resuming".

Record activeForward := mkForward {
  af_profile : Profile;
  af_session : Session;
  af_task : PortForwardTask;
  localID : string;
  info : Info
}.
Definition set_state (state : string) (a : activeForward) : activeForward :=
  mkForward (af_profile a) (af_session a) (af_task a) (localID a) (set_State state (info a)).
Definition set_paused (a : activeForward) : activeForward :=
  mkForward (af_profile a) (af_session a) (af_task a) "" (set_State portForwardStatePaused (info a)).
Definition set_view (p : Profile) (s : Session) (t : PortForwardTask) (a : activeForward) : activeForward :=
  mkForward p s t (localID a) (info a).

(** [listener.Request] and [listener.Info] *)
Record ListenerRequest := mkListenerRequest {
  lr_Context : string;
  lr_Namespace : string;
  lr_Kind : string;
  lr_Name : string;
  lr_Protocol : string;
  lr_RemotePort : Z;
  lr_LocalPort : Z
}.
Record ListenerInfo := mkListenerInfo { li_ID : string; li_Request : ListenerRequest; li_LocalPort : Z; li_Address : string }.

(** The managers: [active] has the addresses of the entries, [listening] the
    listeners of [locals] with their forwarders. *)
Record Manager := mkManager {
  readers : nat;
  writer : bool;
  closed : bool;
  mu : bool;
  active : gmap string nat;
  objects : gmap nat activeForward;
  next : nat;
  nextID : Z;        (* uint64 *)
  listening : gmap string (ListenerInfo * nat)
}.
Definition set_lifecycle (m : Manager) (r : nat) (w : bool) : Manager :=
  mkManager r w (closed m) (mu m) (active m) (objects m) (next m) (nextID m) (listening m).
Definition set_closed (m : Manager) : Manager :=
  mkManager (readers m) (writer m) true (mu m) (active m) (objects m) (next m) (nextID m) (listening m).
Definition set_mu (m : Manager) (b : bool) : Manager :=
  mkManager (readers m) (writer m) (closed m) b (active m) (objects m) (next m) (nextID m) (listening m).
Definition set_active (m : Manager) (es : gmap string nat) : Manager :=
  mkManager (readers m) (writer m) (closed m) (mu m) es (objects m) (next m) (nextID m) (listening m).
Definition set_object (m : Manager) (o : nat) (f : activeForward -> activeForward) : Manager :=
  mkManager (readers m) (writer m) (closed m) (mu m) (active m) (alter f o (objects m)) (next m) (nextID m) (listening m).
Definition new_object (m : Manager) (a : activeForward) : Manager * nat :=
  (mkManager (readers m) (writer m) (closed m) (mu m) (<[ID (af_task a) := next m]> (active m)) (<[next m := a]> (objects m))
     (S (next m)) (nextID m) (listening m), next m).
Definition set_listening (m : Manager) (ls : gmap string (ListenerInfo * nat)) : Manager :=
  mkManager (readers m) (writer m) (closed m) (mu m) (active m) (objects m) (next m) (nextID m) ls.

Definition New : Manager := mkManager 0 false false false ∅ ∅ 0 0 ∅.

Definition object_at (m : Manager) (id : string) : option (nat * activeForward) :=
  o ← active m !! id; a ← objects m !! o; Some (o, a).

(** ** The outside: the Gateway, the data plane and the network *)

Inductive question :=
| GatewayCreate (p : Profile) (s : Session) (r : Request) (idempotencyKey : string)
| GatewayPause (p : Profile) (s : Session) (id : string)
| GatewayResume (p : Profile) (s : Session) (id : string)
| GatewayDelete (p : Profile) (s : Session) (id : string)
| GatewayStop (p : Profile) (s : Session) (id : string)
| GatewayList (p : Profile) (s : Session)
| Dialer (profileID : string)
| Listen (protocol address : string)      (* a forwarder and its address *)
| ForwarderClose (forwarder : nat)
| NewUUID
| Order (l : list string).                (* the order in which a map is ranged over *)

Inductive answer :=
| AnErr (e : errs)
| ATask (t : errs + PortForwardTask)
| ATasks (l : errs + list PortForwardTask)
| ADialer (d : errs + option nat)
| AListener (l : errs + (nat * string))
| AUUID (id : string)
| AnOrder (l : list string).

(** An error is not nil. *)
Definition sensible {A} (r : errs + A) : bool := match r with inl e => negb (is_nil e) | inr _ => true end.

Definition fits (q : question) (a : answer) : bool :=
  match q, a with
  | (GatewayPause _ _ _ | GatewayDelete _ _ _ | GatewayStop _ _ _ | ForwarderClose _), AnErr _ => true
  | (GatewayCreate _ _ _ _ | GatewayResume _ _ _), ATask t => sensible t
  | GatewayList _ _, ATasks l => sensible l
  | Dialer _, ADialer d => sensible d
  | Listen _ _, AListener l => sensible l
  | NewUUID, AUUID _ => true
  | Order l, AnOrder l' => bool_decide (l' ≡ₚ l)
  | _, _ => false
  end.

Notation prog := (Threads.prog (W:=Manager) (C:=unit) (Q:=question) (R:=answer)).

Definition ask_err (q : question) : prog errs := a ← ask q; mret match a with AnErr e => e | _ => [] end.
Definition ask_task (q : question) : prog (errs + PortForwardTask) := a ← ask q; mret match a with ATask t => t | _ => inl [] end.
Definition ask_tasks (q : question) : prog (errs + list PortForwardTask) := a ← ask q; mret match a with ATasks l => l | _ => inl [] end.
Definition ask_dialer (profileID : string) : prog (errs + option nat) :=
  a ← ask (Dialer profileID); mret match a with ADialer d => d | _ => inl [] end.
Definition ask_listener (protocol address : string) : prog (errs + (nat * string)) :=
  a ← ask (Listen protocol address); mret match a with AListener l => l | _ => inl [] end.
Definition ask_order (l : list string) : prog (list string) := a ← ask (Order l); mret match a with AnOrder l' => l' | _ => l end.

(** ** Locks and pointers *)

Definition section {A} (f : Manager -> Manager * A) : prog A :=
  Step (fun m => if mu m then None else let '(m, a) := f m in Some (m, Return a)).
Definition mu_Lock : prog unit := Step (fun m => if mu m then None else Some (set_mu m true, Return tt)).
Definition mu_Unlock : prog unit := locked (fun m => (set_mu m false, tt)).

Definition RLock : prog unit := Step (fun m => if writer m then None else Some (set_lifecycle m (S (readers m)) false, Return tt)).
Definition RUnlock : prog unit := locked (fun m => (set_lifecycle m (readers m - 1) (writer m), tt)).
Definition Lock : prog unit :=
  Step (fun m => if writer m || negb (bool_decide (readers m = 0%nat)) then None else Some (set_lifecycle m 0 true, Return tt)).
Definition Unlock : prog unit := locked (fun m => (set_lifecycle m (readers m) false, tt)).

(** The fields of an entry, read outside the mutex. *)
Definition deref (o : nat) : prog activeForward :=
  Step (fun m => match objects m !! o with Some a => Some (m, Return a) | None => Some (m, Crash) end).

(** ** Local listeners ([listener/manager.go]) *)

Definition KindPod : string := "pod".
Definition KindService : string := "service".

Definition localPortFromAddress (address : string) : errs + Z :=
  match SplitHostPort address with
  | None => inl (failed "parse forward address")
  | Some (_, portText) =>
      match ParsePort portText with
      | Some port => if port =? 0 then inl (failed "invalid local port") else inr port
      | None => inl (failed "invalid local port")
      end
  end.

Definition startRouted (r : ListenerRequest) : prog (errs + ListenerInfo) :=
  opened ← ask_listener (if bool_decide (lr_Protocol r = "udp") then "udp" else "tcp") (loopback (lr_LocalPort r));
  match opened with
  | inl e => mret (inl e)
  | inr (forwarder, address) =>
      match localPortFromAddress address with
      | inl e => _ ← ask_err (ForwarderClose forwarder); mret (inl e)
      | inr localPort =>
          id ← locked (fun m =>
                 let n := uint64 (nextID m + 1) in
                 (mkManager (readers m) (writer m) (closed m) (mu m) (active m) (objects m) (next m) n (listening m), "pf-" +:+ pretty n));
          let i := mkListenerInfo id r localPort address in
          locked (fun m => (set_listening m (<[id := (i, forwarder)]> (listening m)), inr i))
      end
  end.

Definition normalized (r : ListenerRequest) : ListenerRequest :=
  let protocol := ToLower (TrimSpace (lr_Protocol r)) in
  mkListenerRequest (lr_Context r) (lr_Namespace r) (ToLower (TrimSpace (lr_Kind r))) (lr_Name r)
    (if bool_decide (protocol = "") then "tcp" else protocol) (lr_RemotePort r) (lr_LocalPort r).

(** The checks of [StartResolved] in their order. *)
Definition refused (r : ListenerRequest) (target : string) (dialer : option nat) : option errs :=
  let n := normalized r in
  if match dialer with None => true | Some _ => false end then Some (failed "port Forward traffic dialer is required")
  else if bool_decide (lr_Context r = "") then Some (failed "context is required")
  else if bool_decide (lr_Namespace r = "") then Some (failed "namespace is required")
  else if bool_decide (lr_Name r = "") then Some (failed "target name is required")
  else if lr_RemotePort r =? 0 then Some (failed "remote port is required")
  else if negb (bool_decide (lr_Kind n = KindPod)) && negb (bool_decide (lr_Kind n = KindService)) then Some (failed "unsupported kind")
  else if negb (bool_decide (lr_Protocol n = "tcp")) && negb (bool_decide (lr_Protocol n = "udp")) then Some (failed "unsupported protocol")
  else
    match SplitHostPort (TrimSpace target) with
    | Some (host, rawPort) => if bool_decide (host = "") || bool_decide (rawPort = "") then Some (failed "resolved Port Forward target is invalid") else None
    | None => Some (failed "resolved Port Forward target is invalid")
    end.

Definition StartResolved (r : ListenerRequest) (target : string) (dialer : option nat) : prog (errs + ListenerInfo) :=
  match refused r target dialer with
  | Some e => mret (inl e)
  | None => startRouted (normalized r)
  end.

Definition locals_Stop (id : string) : prog errs :=
  forwarder ← locked (fun m => (set_listening m (delete id (listening m)), option_map snd (listening m !! id)));
  match forwarder with
  | None => mret (failed "port-forward not found")
  | Some forwarder => ask_err (ForwarderClose forwarder)
  end.

(** ** The manager ([manager.go], [manager_restore.go])

    Which optional methods the client of the Gateway has. *)

Definition ErrClosed : error := VarError "portforward.ErrClosed".
Definition ErrNotManagedLocally : error := VarError "portforward.ErrNotManagedLocally".

Section manager.
Context (canResume canPause canDelete canList : bool).

Definition resumePortForward (p : Profile) (s : Session) (taskID : string) : prog (errs + PortForwardTask) :=
  if canResume then ask_task (GatewayResume p s taskID) else mret (inl (failed "port Forward resume is unavailable")).
Definition pausePortForward (p : Profile) (s : Session) (taskID : string) : prog errs :=
  ask_err (if canPause then GatewayPause p s taskID else GatewayStop p s taskID).
Definition deletePortForward (p : Profile) (s : Session) (taskID : string) : prog errs :=
  ask_err (if canDelete then GatewayDelete p s taskID else GatewayStop p s taskID).

Definition listener_request (p : Profile) (s : Session) (t : PortForwardTask) (localPort : Z) : ListenerRequest :=
  mkListenerRequest (pf_ID p) (ss_Namespace s) (Kind t) (Name t) (Protocol t) (RemotePort t) localPort.

Definition start_held (ctx : bool) (p : Profile) (s : Session) (r : Request) : prog (errs + Info) :=
  if negb ctx || negb (bool_decide (TrimSpace (rq_ProfileID r) = pf_ID p)) || negb (bool_decide (ss_State s = portForwardSessionActive))
  then mret (inl (failed "active Server Profile Session is required"))
  else
    dialer ← ask_dialer (pf_ID p);
    match dialer with
    | inl e => mret (inl e)
    | inr dialer =>
        uuid ← ask NewUUID;
        created ← ask_task (GatewayCreate p s r ("port-forward:" +:+ match uuid with AUUID id => id | _ => "" end));
        match created with
        | inl e => mret (inl e)
        | inr task =>
            local ← StartResolved (listener_request p s task (rq_LocalPort r)) (DialAddress task) dialer;
            match local with
            | inl e => stopErr ← deletePortForward p s (ID task); mret (inl (Join (map (WrapError "start local Port Forward listener") e) stopErr))
            | inr local =>
                let i := mkInfo (ID task) (pf_ID p) (ss_ID s) (ss_Namespace s) (Kind task) (Name task) (Protocol task) (RemotePort task)
                           (li_LocalPort local) (li_Address local) (DialAddress task) portForwardSessionActive in
                added ← section (fun m =>
                          if bool_decide (is_Some (active m !! ID task)) then (m, false)
                          else ((new_object m (mkForward p s task (li_ID local) i)).1, true));
                if added : bool then mret (inr i)
                else
                  _ ← locals_Stop (li_ID local);
                  stopErr ← deletePortForward p s (ID task);
                  mret (inl (Join (failed "port Forward Task is already active locally") stopErr))
            end
        end
    end.

Definition Start (ctx : bool) (p : Profile) (s : Session) (r : Request) : prog (errs + Info) :=
  _ ← RLock;
  isClosed ← reading closed;
  result ← (if isClosed : bool then mret (inl [ErrClosed]) else start_held ctx p s r);
  _ ← RUnlock;
  mret result.

Definition pausable (profileID : string) (a : activeForward) : bool :=
  bool_decide (pf_ID (af_profile a) = profileID)
  && (bool_decide (in_State (info a) = "") || bool_decide (in_State (info a) = portForwardSessionActive)).

Definition find_entry (taskID : string) (ok : activeForward -> bool) (m : Manager) : option nat :=
  match object_at m taskID with Some (o, a) => if ok a then Some o else None | None => None end.

(** The entry is paused if it is still the one of the task. *)
Definition release_entry (taskID : string) (o : nat) : prog unit :=
  section (fun m => if bool_decide (active m !! taskID = Some o) then (set_object m o set_paused, tt) else (m, tt)).

Definition Pause (ctx : bool) (profileID taskID : string) : prog errs :=
  if negb ctx then mret (failed "port Forward pause context is required")
  else
    entry ← section (fun m => (m, find_entry taskID (pausable profileID) m));
    match entry with
    | None => mret (failed "port Forward is not active locally")
    | Some o =>
        a ← deref o;
        remoteErr ← pausePortForward (af_profile a) (af_session a) (ID (af_task a));
        a ← deref o;
        localErr ← locals_Stop (localID a);
        _ ← release_entry taskID o;
        mret (Join localErr remoteErr)
    end.

Definition startLocal (o : nat) (task : PortForwardTask) (compensateRemote : bool) : prog (errs + Info) :=
  a ← deref o;
  dialer ← ask_dialer (pf_ID (af_profile a));
  match dialer with
  | inl e => mret (inl e)
  | inr dialer =>
      a ← deref o;
      local ← StartResolved (listener_request (af_profile a) (af_session a) task (in_LocalPort (info a))) (DialAddress task) dialer;
      match local with
      | inl e =>
          if negb compensateRemote then mret (inl e)
          else
            a ← deref o;
            remoteErr ← pausePortForward (af_profile a) (af_session a) (ID task);
            mret (inl (Join e remoteErr))
      | inr local =>
          taken ← section (fun m =>
                    if negb (bool_decide (active m !! ID task = Some o)) then (m, None)
                    else
                      let m := set_object m o (fun a => mkForward (af_profile a) (af_session a) task (li_ID local)
                                 (set_running (li_LocalPort local) (li_Address local) (DialAddress task) portForwardSessionActive (info a))) in
                      (m, option_map info (objects m !! o)));
          match taken with
          | Some i => mret (inr i)
          | None =>
              _ ← locals_Stop (li_ID local);
              if negb compensateRemote then mret (inl (failed "port Forward changed while reconciling"))
              else
                a ← deref o;
                remoteErr ← pausePortForward (af_profile a) (af_session a) (ID task);
                mret (inl (Join (failed "port Forward changed while resuming") remoteErr))
          end
      end
  end.

(** The deferred function of [Resume]. *)
Definition unresume (taskID : string) (o : nat) : prog unit :=
  section (fun m =>
    match objects m !! o with
    | Some a => if bool_decide (active m !! taskID = Some o) && bool_decide (in_State (info a) = portForwardStateResuming)
                then (set_object m o (set_state portForwardStatePaused), tt) else (m, tt)
    | None => (m, tt)
    end).

Definition resumable (profileID : string) (a : activeForward) : bool :=
  bool_decide (pf_ID (af_profile a) = profileID) && bool_decide (in_State (info a) = portForwardStatePaused).

Definition Resume (ctx : bool) (profileID taskID : string) : prog (errs + Info) :=
  if negb ctx then mret (inl (failed "port Forward resume context is required"))
  else
    entry ← section (fun m => match find_entry taskID (resumable profileID) m with
                              | Some o => (set_object m o (set_state portForwardStateResuming), Some o)
                              | None => (m, None)
                              end);
    match entry with
    | None => mret (inl (failed "port Forward is not paused locally"))
    | Some o =>
        a ← deref o;
        task ← resumePortForward (af_profile a) (af_session a) (ID (af_task a));
        result ← match task with inl e => mret (inl e) | inr task => startLocal o task true end;
        match result with
        | inr i => mret (inr i)
        | inl e => _ ← unresume taskID o; mret (inl e)
        end
    end.

Definition delete_active (taskID : string) : prog unit := section (fun m => (set_active m (delete taskID (active m)), tt)).

Definition Delete (ctx : bool) (profileID taskID : string) : prog errs :=
  if negb ctx then mret (failed "port Forward delete context is required")
  else
    entry ← section (fun m => (m, active m !! taskID));
    match entry with
    | None => mret [ErrNotManagedLocally]
    | Some o =>
        a ← deref o;
        if negb (bool_decide (pf_ID (af_profile a) = profileID)) then mret [ErrNotManagedLocally]
        else
          a ← deref o;
          pauseErr ← (if bool_decide (in_State (info a) = portForwardSessionActive) then Pause ctx profileID taskID else mret []);
          a ← deref o;
          deleteErr ← deletePortForward (af_profile a) (af_session a) (ID (af_task a));
          _ ← (if is_nil deleteErr then delete_active taskID else mret tt);
          mret (Join pauseErr deleteErr)
    end.

Definition Stop (ctx : bool) (profileID taskID : string) : prog errs :=
  err ← Pause ctx profileID taskID;
  _ ← (if is_nil err then delete_active taskID else mret tt);
  mret err.

(** ** Whole profiles *)

Fixpoint for_each {X} (l : list X) (body : X -> prog errs) (result : errs) : prog errs :=
  match l with
  | [] => mret result
  | x :: l => e ← body x; for_each l body (Join result e)
  end.

Definition with_lifecycle (body : prog errs) : prog errs :=
  _ ← Lock;
  result ← body;
  _ ← Unlock;
  mret result.

Definition listed (m : Manager) : list (string * activeForward) :=
  omap (fun '(id, o) => a ← objects m !! o; Some (id, a)) (map_to_list (active m)).

(** The active entries of a profile, in the order of the map. *)
Definition active_ids (profileID : string) : prog (list string) :=
  ids ← section (fun m => (m, map fst (filter (fun e => pausable profileID e.2) (listed m))));
  ask_order ids.

Definition StopProfile (ctx : bool) (profileID : string) : prog errs :=
  if negb ctx then mret (failed "port Forward stop Profile context is required")
  else with_lifecycle (ids ← active_ids profileID; for_each ids (Stop ctx profileID) []).

Definition PauseProfile (ctx : bool) (profileID : string) : prog errs :=
  if negb ctx then mret (failed "port Forward pause Profile context is required")
  else with_lifecycle (ids ← active_ids profileID; for_each ids (Pause ctx profileID) []).

Definition releaseLocal (profileID taskID : string) : prog errs :=
  entry ← section (fun m => (m, find_entry taskID (pausable profileID) m));
  match entry with
  | None => mret []
  | Some o =>
      a ← deref o;
      localErr ← locals_Stop (localID a);
      _ ← release_entry taskID o;
      mret localErr
  end.

Definition ReleaseProfile (ctx : bool) (profileID : string) : prog errs :=
  if negb ctx then mret (failed "port Forward release Profile context is required")
  else with_lifecycle (ids ← active_ids profileID; for_each ids (releaseLocal profileID) []).

Definition Sort (ids : list string) : list string := SortFunc compareString ids.

Definition Shutdown (ctx : bool) : prog errs :=
  if negb ctx then mret (failed "port Forward shutdown context is required")
  else with_lifecycle (
    _ ← locked (fun m => (set_closed m, tt));
    ids ← section (fun m => (m, map fst (listed m)));
    for_each (Sort ids) (fun id =>
      entry ← section (fun m => (m, active m !! id));
      match entry with
      | None => mret []
      | Some o =>
          a ← deref o;
          if bool_decide (in_State (info a) = "") || bool_decide (in_State (info a) = portForwardSessionActive)
          then Stop ctx (pf_ID (af_profile a)) id else mret []
      end) []).

Definition List_ (m : Manager) (profileID : string) : list Info :=
  SortFunc (fun left right => compareString (in_ID left) (in_ID right))
    (map (fun e => info e.2)
       (filter (fun e => bool_decide (profileID = "") || bool_decide (pf_ID (af_profile e.2) = profileID)) (listed m))).

(** ** Reconciling with the Gateway *)

Definition stale (p : Profile) (s : Session) (a : activeForward) : bool :=
  bool_decide (pf_ID (af_profile a) = pf_ID p) && negb (bool_decide (ss_ID (af_session a) = ss_ID s)).

(** The loop over the map, under [mu]. *)
Fixpoint drop_stale (p : Profile) (s : Session) (ids : list string) : prog unit :=
  match ids with
  | [] => mret tt
  | id :: ids =>
      entry ← reading (fun m => object_at m id);
      _ ← match entry with
          | Some (o, a) =>
              if stale p s a then
                _ ← (if negb (bool_decide (localID a = "")) then _ ← locals_Stop (localID a); mret tt else mret tt);
                locked (fun m => (set_active m (delete id (active m)), tt))
              else mret tt
          | None => mret tt
          end;
      drop_stale p s ids
  end.

Definition portForwardAddress (port : Z) : string := if port =? 0 then "" else loopback port.

Definition tracked (p : Profile) (s : Session) (t : PortForwardTask) : activeForward :=
  mkForward p s t ""
    (mkInfo (ID t) (pf_ID p) (ss_ID s) (ss_Namespace s) (Kind t) (Name t) (Protocol t) (RemotePort t) (LocalPort t)
       (portForwardAddress (LocalPort t)) (DialAddress t) portForwardStatePaused).

Inductive reconciling := Started (o : nat) | Listening (localID : string) | Settled | Tracked (o : nat).

Definition reconcile (p : Profile) (s : Session) (task : PortForwardTask) : prog errs :=
  if negb (bool_decide (State_ task = Stopped)) && negb (bool_decide (State_ task = Pending)) && negb (bool_decide (State_ task = Running))
  then mret []
  else
    found ← section (fun m =>
              match object_at m (ID task) with
              | Some (o, a) =>
                  let m := set_object m o (set_view p s task) in
                  if bool_decide (State_ task = Running) && bool_decide (localID a = "") then (m, Started o)
                  else if negb (bool_decide (State_ task = Running)) && negb (bool_decide (localID a = ""))
                  then (set_object m o set_paused, Listening (localID a))
                  else (m, Settled)
              | None => let '(m, o) := new_object m (tracked p s task) in (m, Tracked o)
              end);
    match found with
    | Started o => r ← startLocal o task false; mret match r with inl e => e | inr _ => [] end
    | Listening localID => locals_Stop localID
    | Settled => mret []
    | Tracked o =>
        if bool_decide (State_ task = Running) && negb (LocalPort task =? 0) then
          r ← startLocal o task false;
          match r with
          | inr _ => mret []
          | inl e =>
              _ ← section (fun m => if bool_decide (active m !! ID task = Some o) then (set_active m (delete (ID task) (active m)), tt) else (m, tt));
              mret e
          end
        else mret []
    end.

Fixpoint reconcile_all (p : Profile) (s : Session) (tasks : list PortForwardTask) : prog errs :=
  match tasks with
  | [] => mret []
  | task :: tasks => e ← reconcile p s task; if is_nil e then reconcile_all p s tasks else mret e
  end.

Definition Restore (p : Profile) (s : Session) : prog errs :=
  if negb canList then mret (failed "port Forward restore is unavailable")
  else
    tasks ← ask_tasks (GatewayList p s);
    match tasks with
    | inl e => mret e
    | inr tasks =>
        _ ← mu_Lock;
        ids ← reading (fun m => map fst (listed m));
        ids ← ask_order ids;
        _ ← drop_stale p s ids;
        _ ← mu_Unlock;
        reconcile_all p s tasks
    end.

(** ** Clients of the manager *)

Inductive call :=
| CStart (ctx : bool) (p : Profile) (s : Session) (r : Request)
| CPause (ctx : bool) (profileID taskID : string)
| CResume (ctx : bool) (profileID taskID : string)
| CDelete (ctx : bool) (profileID taskID : string)
| CStop (ctx : bool) (profileID taskID : string)
| CStopProfile (ctx : bool) (profileID : string)
| CPauseProfile (ctx : bool) (profileID : string)
| CReleaseProfile (ctx : bool) (profileID : string)
| CShutdown (ctx : bool)
| CRestore (p : Profile) (s : Session).

Definition ignore {A} (p : prog A) : prog unit := _ ← p; mret tt.

Definition perform (c : call) : prog unit :=
  match c with
  | CStart ctx p s r => ignore (Start ctx p s r)
  | CPause ctx profileID taskID => ignore (Pause ctx profileID taskID)
  | CResume ctx profileID taskID => ignore (Resume ctx profileID taskID)
  | CDelete ctx profileID taskID => ignore (Delete ctx profileID taskID)
  | CStop ctx profileID taskID => ignore (Stop ctx profileID taskID)
  | CStopProfile ctx profileID => ignore (StopProfile ctx profileID)
  | CPauseProfile ctx profileID => ignore (PauseProfile ctx profileID)
  | CReleaseProfile ctx profileID => ignore (ReleaseProfile ctx profileID)
  | CShutdown ctx => ignore (Shutdown ctx)
  | CRestore p s => ignore (Restore p s)
  end.

Fixpoint client (calls : list call) : prog unit :=
  match calls with
  | [] => mret tt
  | c :: calls => _ ← perform c; client calls
  end.
End manager.

(** ** What the managers keep

    In terms of the listener and the state of each entry ([v]), the listeners
    that run and those that were numbered; [n] answers are left. *)

Definition named (k : Z) (l : string) : Prop := exists j, 0 < j <= k /\ l = "pf-" +:+ pretty j.

Lemma named_not_empty k l : named k l -> l <> "".
Proof. by intros (j & _ & ->). Qed.

Lemma named_mono k k' l : k <= k' -> named k l -> named k' l.
Proof. intros Hk (j & Hj & ->). exists j. split; [lia|done]. Qed.

Lemma named_next k l : named k l -> l <> "pf-" +:+ pretty (k + 1).
Proof. intros (j & Hj & ->) H. apply (inj (String.append "pf-")) in H. apply (inj pretty) in H. lia. Qed.

Notation Active := portForwardSessionActive.
Notation Paused := portForwardStatePaused.

(** [hand]: listeners that the caller holds; [off]: entries whose listener it has
    stopped or not yet started. *)
Record core (hand off : gset string) (n : nat) (k : Z) (v : gmap string (string * string)) (run : gset string) : Prop := {
  c_budget : 0 <= k /\ k + Z.of_nat n < 2 ^ 64;
  c_run : forall l, l ∈ run -> named k l;
  c_names : forall id l s, v !! id = Some (l, s) -> l = "" \/ named k l;
  c_on : forall id l s, v !! id = Some (l, s) -> id ∉ off -> (s = Active /\ l ∈ run) \/ (s = Paused /\ l = "");
  c_off : forall id l s, v !! id = Some (l, s) -> id ∈ off -> l ∉ run;
  c_hand : hand ⊆ run;
  c_free : forall l id s, l ∈ hand -> v !! id = Some (l, s) -> False;
  c_cover : forall l, l ∈ run -> l ∈ hand \/ exists id s, v !! id = Some (l, s);
  c_unique : forall id id' l s s', v !! id = Some (l, s) -> v !! id' = Some (l, s') -> l <> "" -> id = id'
}.

Lemma core_no_empty hand off n k v run : core hand off n k v run -> "" ∉ run.
Proof. intros [_ Hr _ _ _ _ _ _ _] Hin. by apply Hr, named_not_empty in Hin. Qed.

Section core_lemmas.
Context (hand off : gset string) (n : nat) (k : Z) (v : gmap string (string * string)) (run : gset string).

Lemma core_budget n' : core hand off n k v run -> (n' <= n)%nat -> core hand off n' k v run.
Proof. intros [] Hn. split; try done. lia. Qed.

Lemma core_start : core hand off (S n) k v run ->
  core ({["pf-" +:+ pretty (k + 1)]} ∪ hand) off n (k + 1) v ({["pf-" +:+ pretty (k + 1)]} ∪ run) /\ uint64 (k + 1) = k + 1 /\ "pf-" +:+ pretty (k + 1) ∉ hand.
Proof.
  set (l := "pf-" +:+ pretty (k + 1)). intros [Hb Hr Hn Hon Hoff Hh Hf Hc Hu].
  assert (l ∉ run) as Hlrun by (intros Hin; by apply Hr, named_next in Hin).
  assert (forall id s, v !! id = Some (l, s) -> False) as Hlv.
  { intros id s Hv. apply Hn in Hv as [Hv|Hv]; [done|]. by apply named_next in Hv. }
  split; [|split; [unfold uint64; rewrite Z.mod_small; lia|set_solver]]. split.
  - lia.
  - intros l' [->%elem_of_singleton|Hin]%elem_of_union; [exists (k + 1); split; [lia|done]|]. eapply named_mono; [|by apply Hr]. lia.
  - intros id l' s Hv. apply Hn in Hv as [Hv|Hv]; [by left|right]. eapply named_mono; [|done]. lia.
  - intros id l' s Hv Ho. destruct (Hon id l' s Hv Ho) as [[? ?]|?]; [left; set_solver|by right].
  - intros id l' s Hv Ho. pose proof (Hoff id l' s Hv Ho). intros [->%elem_of_singleton|]%elem_of_union; [by apply (Hlv id s)|done].
  - set_solver.
  - intros l' id s [->%elem_of_singleton|Hin]%elem_of_union Hv; [by apply (Hlv id s)|by apply (Hf l' id s)].
  - intros l' [->%elem_of_singleton|Hin]%elem_of_union; [left; set_solver|]. destruct (Hc l' Hin) as [|]; [left; set_solver|by right].
  - exact Hu.
Qed.

(** A listener in hand is stopped. *)
Lemma core_drop l : l ∉ hand -> core ({[l]} ∪ hand) off n k v run -> core hand off n k v (run ∖ {[l]}).
Proof.
  intros Hl [Hb Hr Hn Hon Hoff Hh Hf Hc Hu]. split.
  - done.
  - set_solver.
  - done.
  - intros id l' s Hv Ho. destruct (Hon id l' s Hv Ho) as [[-> Hin]|?]; [|by right]. left. split; [done|].
    apply elem_of_difference. split; [done|]. intros ->%elem_of_singleton. apply (Hf l id Active); [set_solver|done].
  - intros id l' s Hv Ho. pose proof (Hoff id l' s Hv Ho). set_solver.
  - set_solver.
  - intros l' id s Hin Hv. apply (Hf l' id s); [set_solver|done].
  - intros l' [Hin Hne]%elem_of_difference. destruct (Hc l' Hin) as [|]; [left; set_solver|by right].
  - exact Hu.
Qed.

(** The listener of an entry is stopped. *)
Lemma core_stop id l s : v !! id = Some (l, s) -> core hand off n k v run -> l ∈ run -> core hand ({[id]} ∪ off) n k v (run ∖ {[l]}).
Proof.
  intros Hid [Hb Hr Hn Hon Hoff Hh Hf Hc Hu] Hl. split.
  - done.
  - set_solver.
  - done.
  - intros id' l' s' Hv Ho. destruct (Hon id' l' s' Hv) as [[-> Hin]|?]; [set_solver| |by right]. left. split; [done|].
    apply elem_of_difference. split; [done|]. intros ->%elem_of_singleton. apply Ho, elem_of_union. left. apply elem_of_singleton.
    apply (Hu id' id l Active s); [done|done|]. by eapply named_not_empty, Hr.
  - intros id' l' s' Hv [->%elem_of_singleton|Ho]%elem_of_union.
    + rewrite Hid in Hv. injection Hv as <- <-. set_solver.
    + pose proof (Hoff id' l' s' Hv Ho). set_solver.
  - intros l' Hin. apply elem_of_difference. split; [by apply Hh|]. intros ->%elem_of_singleton. by apply (Hf l id s).
  - exact Hf.
  - intros l' [Hin Hne]%elem_of_difference. by apply Hc.
  - exact Hu.
Qed.

(** An entry is off while it has no listener. *)
Lemma core_mark id s s' : v !! id = Some ("", s) -> core hand off n k v run -> core hand ({[id]} ∪ off) n k (<[id := ("", s')]> v) run.
Proof.
  intros Hid C. pose proof (core_no_empty _ _ _ _ _ _ C) as Hempty. destruct C as [Hb Hr Hn Hon Hoff Hh Hf Hc Hu].
  assert (forall id' l t, <[id := ("", s')]> v !! id' = Some (l, t) -> (id' = id /\ l = "" /\ t = s') \/ (id' <> id /\ v !! id' = Some (l, t))) as Hv.
  { intros id' l t. rewrite lookup_insert_Some. naive_solver. }
  split; try done.
  - intros id' l t [(-> & -> & _)|[_ H]]%Hv; [by left|by eapply Hn].
  - intros id' l t [(-> & -> & _)|[Hne H]]%Hv Ho; [set_solver|]. eapply Hon; [done|set_solver].
  - intros id' l t [(-> & -> & _)|[Hne H]]%Hv Ho; [done|]. eapply Hoff; [done|set_solver].
  - intros l id' t Hin [(-> & -> & _)|[_ H]]%Hv; [apply Hempty; set_solver|by eapply Hf].
  - intros l Hin. destruct (Hc l Hin) as [|(id' & t & Hv')]; [by left|right]. destruct (decide (id' = id)) as [->|Hne].
    + rewrite Hid in Hv'. injection Hv' as <- <-. done.
    + exists id', t. by rewrite lookup_insert_ne.
  - intros id1 id2 l t t' [(-> & -> & _)|[Hn1 H1]]%Hv [(-> & He & _)|[Hn2 H2]]%Hv Hl; try done. by eapply Hu.
Qed.

(** An entry without a listener is paused. *)
Lemma core_pause id x : v !! id = Some x -> core hand ({[id]} ∪ off) n k v run -> core hand off n k (<[id := ("", Paused)]> v) run.
Proof.
  intros Hid C. pose proof (core_no_empty _ _ _ _ _ _ C) as Hempty. destruct C as [Hb Hr Hn Hon Hoff Hh Hf Hc Hu]. destruct x as [l0 s0].
  assert (forall id' l t, <[id := ("", Paused)]> v !! id' = Some (l, t) -> (id' = id /\ l = "" /\ t = Paused) \/ (id' <> id /\ v !! id' = Some (l, t))) as Hv.
  { intros id' l t. rewrite lookup_insert_Some. naive_solver. }
  split; try done.
  - intros id' l t [(-> & -> & _)|[_ H]]%Hv; [by left|by eapply Hn].
  - intros id' l t [(-> & -> & ->)|[Hne H]]%Hv Ho; [by right|]. eapply Hon; [done|set_solver].
  - intros id' l t [(-> & -> & _)|[Hne H]]%Hv Ho; [done|]. eapply Hoff; [done|set_solver].
  - intros l id' t Hin [(-> & -> & _)|[_ H]]%Hv; [apply Hempty; set_solver|by eapply Hf].
  - intros l Hin. destruct (Hc l Hin) as [|(id' & t & Hv')]; [by left|right]. destruct (decide (id' = id)) as [->|Hne].
    + rewrite Hid in Hv'. injection Hv' as -> ->. exfalso. apply (Hoff id l t Hid); [set_solver|done].
    + exists id', t. by rewrite lookup_insert_ne.
  - intros id1 id2 l t t' [(-> & -> & _)|[Hn1 H1]]%Hv [(-> & He & _)|[Hn2 H2]]%Hv Hl; try done. by eapply Hu.
Qed.

(** An entry gets a listener: one that was off, or a new one. *)
Lemma core_take id l : l ∉ hand -> (forall x, v !! id = Some x -> id ∈ off) ->
  core ({[l]} ∪ hand) off n k v run -> core hand (off ∖ {[id]}) n k (<[id := (l, Active)]> v) run.
Proof.
  intros Hl Hid [Hb Hr Hn Hon Hoff Hh Hf Hc Hu].
  assert (l ∈ run) as Hlr by set_solver.
  assert (forall id' l' t, <[id := (l, Active)]> v !! id' = Some (l', t) -> (id' = id /\ l' = l /\ t = Active) \/ (id' <> id /\ v !! id' = Some (l', t))) as Hv.
  { intros id' l' t. rewrite lookup_insert_Some. naive_solver. }
  assert (forall id' t, v !! id' = Some (l, t) -> False) as Hfree by (intros id' t; apply Hf; set_solver).
  split; try done.
  - intros id' l' t [(-> & -> & _)|[_ H]]%Hv; [right; by apply Hr|by eapply Hn].
  - intros id' l' t [(-> & -> & ->)|[Hne H]]%Hv Ho; [by left|]. eapply Hon; [done|set_solver].
  - intros id' l' t [(-> & -> & ->)|[Hne H]]%Hv Ho; [set_solver|]. eapply Hoff; [done|set_solver].
  - set_solver.
  - intros l' id' t Hin [(-> & -> & _)|[_ H]]%Hv; [done|]. eapply Hf; [|done]. set_solver.
  - intros l' Hin. destruct (Hc l' Hin) as [[->%elem_of_singleton|Hh']%elem_of_union|(id' & t & Hv')].
    + right. exists id, Active. by rewrite lookup_insert_eq.
    + by left.
    + right. destruct (decide (id' = id)) as [->|Hne].
      * exfalso. apply (Hoff id l' t Hv'); [by eapply Hid|done].
      * exists id', t. by rewrite lookup_insert_ne.
  - intros id1 id2 l' t t' [(-> & -> & _)|[Hn1 H1]]%Hv [(-> & He & _)|[Hn2 H2]]%Hv Hne; try done; try (by exfalso; eapply Hfree).
    + subst l'. by exfalso; eapply Hfree.
    + by eapply Hu.
Qed.

(** An entry gives its listener to the caller. *)
Lemma core_release id l s : v !! id = Some (l, s) -> l ∈ run -> core hand off n k v run -> core ({[l]} ∪ hand) off n k (<[id := ("", Paused)]> v) run.
Proof.
  intros Hid Hl C. pose proof (core_no_empty _ _ _ _ _ _ C) as Hempty. destruct C as [Hb Hr Hn Hon Hoff Hh Hf Hc Hu].
  assert (forall id' l t, <[id := ("", Paused)]> v !! id' = Some (l, t) -> (id' = id /\ l = "" /\ t = Paused) \/ (id' <> id /\ v !! id' = Some (l, t))) as Hv.
  { intros id' l' t. rewrite lookup_insert_Some. naive_solver. }
  split; try done.
  - intros id' l' t [(-> & -> & _)|[_ H]]%Hv; [by left|by eapply Hn].
  - intros id' l' t [(-> & -> & ->)|[Hne H]]%Hv Ho; [by right|by eapply Hon].
  - intros id' l' t [(-> & -> & _)|[Hne H]]%Hv Ho; [done|by eapply Hoff].
  - set_solver.
  - intros l' id' t [->%elem_of_singleton|Hin]%elem_of_union [(-> & -> & _)|[Hne H]]%Hv.
    + done.
    + apply Hne. apply (Hu id' id l t s); [done|done|]. intros ->. done.
    + apply Hempty. by apply Hh.
    + by eapply Hf.
  - intros l' Hin. destruct (Hc l' Hin) as [|(id' & t & Hv')]; [left; set_solver|]. destruct (decide (id' = id)) as [->|Hne].
    + rewrite Hid in Hv'. injection Hv' as -> ->. left. set_solver.
    + right. exists id', t. by rewrite lookup_insert_ne.
  - intros id1 id2 l' t t' [(-> & -> & _)|[Hn1 H1]]%Hv [(-> & He & _)|[Hn2 H2]]%Hv Hne; try done. by eapply Hu.
Qed.

(** A new entry without a listener. *)
Lemma core_track id : v !! id = None -> id ∉ off -> core hand off n k v run -> core hand off n k (<[id := ("", Paused)]> v) run.
Proof.
  intros Hid Hoffid C. pose proof (core_no_empty _ _ _ _ _ _ C) as Hempty. destruct C as [Hb Hr Hn Hon Hoff Hh Hf Hc Hu].
  assert (forall id' l t, <[id := ("", Paused)]> v !! id' = Some (l, t) -> (id' = id /\ l = "" /\ t = Paused) \/ (id' <> id /\ v !! id' = Some (l, t))) as Hv.
  { intros id' l t. rewrite lookup_insert_Some. naive_solver. }
  split; try done.
  - intros id' l t [(-> & -> & _)|[_ H]]%Hv; [by left|by eapply Hn].
  - intros id' l t [(-> & -> & ->)|[Hne H]]%Hv Ho; [by right|by eapply Hon].
  - intros id' l t [(-> & -> & _)|[Hne H]]%Hv Ho; [done|by eapply Hoff].
  - intros l id' t Hin [(-> & -> & _)|[_ H]]%Hv; [apply Hempty; set_solver|by eapply Hf].
  - intros l Hin. destruct (Hc l Hin) as [|(id' & t & Hv')]; [by left|right]. exists id', t. rewrite lookup_insert_ne; [done|]. intros ->. by rewrite Hid in Hv'.
  - intros id1 id2 l t t' [(-> & -> & _)|[Hn1 H1]]%Hv [(-> & He & _)|[Hn2 H2]]%Hv Hl; try done. by eapply Hu.
Qed.

(** An entry whose listener does not run is dropped. *)
Lemma core_delete id : (forall l s, v !! id = Some (l, s) -> l ∉ run) -> core hand off n k v run -> core hand (off ∖ {[id]}) n k (delete id v) run.
Proof.
  intros Hid [Hb Hr Hn Hon Hoff Hh Hf Hc Hu].
  assert (forall id' l t, delete id v !! id' = Some (l, t) -> id' <> id /\ v !! id' = Some (l, t)) as Hv.
  { intros id' l t. rewrite lookup_delete_Some. naive_solver. }
  split; try done.
  - intros id' l t [_ H]%Hv. by eapply Hn.
  - intros id' l t [Hne H]%Hv Ho. eapply Hon; [done|set_solver].
  - intros id' l t [Hne H]%Hv Ho. eapply Hoff; [done|set_solver].
  - intros l id' t Hin [_ H]%Hv. by eapply Hf.
  - intros l Hin. destruct (Hc l Hin) as [|(id' & t & Hv')]; [by left|right]. exists id', t. rewrite lookup_delete_ne; [done|].
    intros ->. by apply (Hid l t).
  - intros id1 id2 l t t' [_ H1]%Hv [_ H2]%Hv. by eapply Hu.
Qed.
End core_lemmas.

(** ** The invariant of the managers *)

Definition view_of (a : activeForward) : string * string := (localID a, in_State (info a)).
Definition views (m : Manager) : gmap string (string * string) := omap (fun o => view_of <$> objects m !! o) (active m).
Definition running (m : Manager) : gset string := dom (listening m).

Record wf (m : Manager) : Prop := {
  wf_entries : forall id o, active m !! id = Some o -> exists a, objects m !! o = Some a /\ ID (af_task a) = id;
  wf_fresh : forall o a, objects m !! o = Some a -> (o < next m)%nat
}.

(** Who holds [lifecycle] and [mu]. *)
Definition locks (m : Manager) : nat * bool * bool := (readers m, writer m, mu m).
Definition good (lk : nat * bool * bool) (hand off : gset string) (n : nat) (m : Manager) : Prop :=
  wf m /\ locks m = lk /\ core hand off n (nextID m) (views m) (running m).

Lemma views_object m id : views m !! id = (fun '(o, a) => view_of a) <$> object_at m id.
Proof.
  unfold views, object_at. rewrite lookup_omap. destruct (active m !! id) as [o|]; cbn; [|done]. by destruct (objects m !! o).
Qed.

Lemma object_at_Some m id o a : object_at m id = Some (o, a) <-> active m !! id = Some o /\ objects m !! o = Some a.
Proof.
  unfold object_at. destruct (active m !! id) as [o'|]; cbn; [|naive_solver]. destruct (objects m !! o') as [a'|] eqn:E; cbn; naive_solver.
Qed.

Lemma wf_object m id o : wf m -> active m !! id = Some o -> exists a, object_at m id = Some (o, a) /\ objects m !! o = Some a /\ ID (af_task a) = id.
Proof. intros W H. destruct (wf_entries m W id o H) as (a & Ha & Hid). exists a. split; [by apply object_at_Some|done]. Qed.

Lemma wf_key m id id' o : wf m -> active m !! id = Some o -> active m !! id' = Some o -> id = id'.
Proof.
  intros W H H'. destruct (wf_entries m W id o H) as (a & Ha & <-), (wf_entries m W id' o H') as (a' & Ha' & <-). congruence.
Qed.

Lemma view_at m id o a : object_at m id = Some (o, a) -> views m !! id = Some (view_of a).
Proof. intros H. by rewrite views_object, H. Qed.

Lemma view_inv m id x : wf m -> views m !! id = Some x -> exists o a, object_at m id = Some (o, a) /\ x = view_of a.
Proof. intros W. rewrite views_object. destruct (object_at m id) as [[o a]|]; [|done]. intros [= <-]. by exists o, a. Qed.

Lemma view_none m id : wf m -> active m !! id = None -> views m !! id = None.
Proof. intros W H. rewrite views_object. unfold object_at. by rewrite H. Qed.

Lemma object_at_insert m o f id a : object_at m id = Some (o, a) -> object_at (set_object m o f) id = Some (o, f a).
Proof. rewrite !object_at_Some. intros [H1 H2]. split; [done|]. cbn. by rewrite lookup_alter_eq, H2. Qed.

Lemma views_set m id o a f : wf m -> object_at m id = Some (o, a) -> views (set_object m o f) = <[id := view_of (f a)]> (views m).
Proof.
  intros W Ho. apply map_eq. intros id'. rewrite views_object. destruct (decide (id' = id)) as [->|Hne].
  - rewrite lookup_insert_eq. by rewrite (object_at_insert m o f id a Ho).
  - rewrite lookup_insert_ne by done. rewrite views_object. f_equal. unfold object_at. cbn [active set_object objects].
    apply object_at_Some in Ho as [Ho _]. destruct (active m !! id') as [o'|] eqn:E; [|done]. cbn.
    rewrite lookup_alter_ne; [done|]. intros ->. apply Hne. by eapply wf_key.
Qed.

Lemma wf_set m o f : wf m -> (forall a, ID (af_task (f a)) = ID (af_task a)) -> wf (set_object m o f).
Proof.
  intros [W1 W2] Hf. split; cbn [active objects next set_object].
  - intros id o' H. destruct (W1 id o' H) as (a & Ha & Hid). destruct (decide (o' = o)) as [->|Hne].
    + exists (f a). by rewrite lookup_alter_eq, Ha, Hf.
    + exists a. by rewrite lookup_alter_ne.
  - intros o' a [[-> (a' & H & _)]|[_ H]]%lookup_alter_Some; by eapply W2.
Qed.

(** The same for an entry that is given another task. *)
Lemma wf_set_at m id o a f : wf m -> object_at m id = Some (o, a) -> ID (af_task (f a)) = id -> wf (set_object m o f).
Proof.
  intros [W1 W2] [Ho Ha]%object_at_Some Hf. split; cbn [active objects next set_object].
  - intros id' o' H. destruct (W1 id' o' H) as (a' & Ha' & Hid). destruct (decide (o' = o)) as [->|Hne].
    + exists (f a). rewrite lookup_alter_eq, Ha. split; [done|]. rewrite Hf. by eapply wf_key.
    + exists a'. by rewrite lookup_alter_ne.
  - intros o' a' [[-> (a1 & H & _)]|[_ H]]%lookup_alter_Some; by eapply W2.
Qed.

Lemma wf_new m a : wf m -> wf (new_object m a).1.
Proof.
  intros [W1 W2]. split; cbn [new_object fst active objects next].
  - intros id o [[<- <-]|[Hne H]]%lookup_insert_Some; [exists a; by rewrite lookup_insert_eq|].
    destruct (W1 id o H) as (a' & Ha & Hid). exists a'. rewrite lookup_insert_ne; [done|]. intros Heq. apply W2 in Ha. lia.
  - intros o a' [[<- <-]|[_ H]]%lookup_insert_Some; [lia|]. apply W2 in H. lia.
Qed.

Lemma views_new m a : wf m -> views (new_object m a).1 = <[ID (af_task a) := view_of a]> (views m).
Proof.
  intros [W1 W2]. apply map_eq. intros id. rewrite views_object. unfold object_at. cbn [new_object fst active objects].
  destruct (decide (id = ID (af_task a))) as [->|Hne].
  - rewrite !lookup_insert_eq. cbn. by rewrite lookup_insert_eq.
  - rewrite !(lookup_insert_ne _ (ID (af_task a))) by done. rewrite views_object. unfold object_at.
    destruct (active m !! id) as [o|] eqn:E; [|done]. cbn. rewrite lookup_insert_ne; [done|]. intros <-.
    destruct (W1 id (next m) E) as (a' & Ha & _). apply W2 in Ha. lia.
Qed.

Lemma object_at_new m a : object_at (new_object m a).1 (ID (af_task a)) = Some (next m, a).
Proof. apply object_at_Some. cbn. by rewrite !lookup_insert_eq. Qed.

Lemma wf_delete m id : wf m -> wf (set_active m (delete id (active m))).
Proof. intros [W1 W2]. split; [|done]. cbn. intros id' o [_ H]%lookup_delete_Some. by apply W1. Qed.

Lemma views_delete m id : views (set_active m (delete id (active m))) = delete id (views m).
Proof. unfold views. cbn [active objects set_active]. by rewrite omap_delete. Qed.

(** *** Steps *)

Notation twp := (Threads.twp (C:=unit) fits).

Lemma good_budget lk hand off n n' m : good lk hand off n m -> (n' <= n)%nat -> good lk hand off n' m.
Proof. intros (W & L & C) Hn. split; [done|]. split; [done|]. by eapply core_budget. Qed.

Lemma good_mark lk hand off n m id o a state : good lk hand off n m -> object_at m id = Some (o, a) -> localID a = "" ->
  good lk hand ({[id]} ∪ off) n (set_object m o (set_state state)).
Proof.
  intros (W & L & C) Ho Hl. split; [by apply wf_set|]. split; [done|]. rewrite (views_set m id o a) by done.
  unfold view_of at 1. cbn [localID set_state info set_State in_State]. rewrite Hl. eapply core_mark; [|done]. rewrite (view_at m id o a) by done.
  unfold view_of. by rewrite Hl.
Qed.

Lemma good_pause lk hand off n m id o a f : good lk hand ({[id]} ∪ off) n m -> object_at m id = Some (o, a) -> view_of (f a) = ("", Paused) ->
  (forall a, ID (af_task (f a)) = ID (af_task a)) -> good lk hand off n (set_object m o f).
Proof.
  intros (W & L & C) Ho Hv Hf. split; [by apply wf_set|]. split; [done|]. rewrite (views_set m id o a), Hv by done.
  eapply core_pause; [by eapply view_at|done].
Qed.

Lemma good_same lk hand off n m id o a f : good lk hand off n m -> object_at m id = Some (o, a) -> view_of (f a) = view_of a ->
  ID (af_task (f a)) = id -> good lk hand off n (set_object m o f).
Proof.
  intros (W & L & C) Ho Hv Hf. split; [by eapply wf_set_at|]. split; [done|]. rewrite (views_set m id o a), Hv by done.
  rewrite insert_id; [done|]. by eapply view_at.
Qed.

Lemma good_take lk hand off n m id o a l f : good lk ({[l]} ∪ hand) ({[id]} ∪ off) n m -> l ∉ hand -> id ∉ off -> object_at m id = Some (o, a) ->
  view_of (f a) = (l, Active) -> ID (af_task (f a)) = id -> good lk hand off n (set_object m o f).
Proof.
  intros (W & L & C) Hl Hid Ho Hv Hf. split; [by eapply wf_set_at|]. split; [done|]. rewrite (views_set m id o a), Hv by done.
  replace off with (({[id]} ∪ off) ∖ {[id]}) by set_solver. apply core_take; [done|set_solver|done].
Qed.

Lemma good_add lk hand off n m l a : good lk ({[l]} ∪ hand) off n m -> l ∉ hand -> ID (af_task a) ∉ off -> active m !! ID (af_task a) = None ->
  view_of a = (l, Active) -> good lk hand off n (new_object m a).1.
Proof.
  intros (W & L & C) Hl Hid Hn Hv. split; [by apply wf_new|]. split; [done|]. rewrite views_new, Hv by done.
  replace off with (off ∖ {[ID (af_task a)]}) by set_solver. apply core_take; [done| |done]. intros x. by rewrite view_none.
Qed.

Lemma good_track lk hand off n m a : good lk hand off n m -> ID (af_task a) ∉ off -> active m !! ID (af_task a) = None ->
  view_of a = ("", Paused) -> good lk hand off n (new_object m a).1.
Proof.
  intros (W & L & C) Hid Hn Hv. split; [by apply wf_new|]. split; [done|]. rewrite views_new, Hv by done. apply core_track; [by apply view_none|done|done].
Qed.

Lemma good_delete lk hand off n m id : good lk hand off n m -> (forall o a, object_at m id = Some (o, a) -> localID a ∉ running m) ->
  good lk hand (off ∖ {[id]}) n (set_active m (delete id (active m))).
Proof.
  intros (W & L & C) Hid. split; [by apply wf_delete|]. split; [done|]. rewrite views_delete. apply core_delete; [|done].
  intros l s Hv. apply view_inv in Hv as (o & a & Ho & Hv); [|done]. injection Hv as -> _. by eapply Hid.
Qed.

Lemma running_delete m l : running (set_listening m (delete l (listening m))) = running m ∖ {[l]}.
Proof. unfold running. cbn. by rewrite dom_delete_L. Qed.

Lemma good_stop lk hand off n m id o a : good lk hand off n m -> object_at m id = Some (o, a) -> localID a ∈ running m ->
  good lk hand ({[id]} ∪ off) n (set_listening m (delete (localID a) (listening m))).
Proof.
  intros (W & L & C) Ho Hr. split; [by destruct W|]. split; [done|]. rewrite running_delete. eapply core_stop; [by apply (view_at m id o a)|done|done].
Qed.

Lemma good_drop lk hand off n m l : good lk ({[l]} ∪ hand) off n m -> l ∉ hand -> good lk hand off n (set_listening m (delete l (listening m))).
Proof. intros (W & L & C) Hl. split; [by destruct W|]. split; [done|]. rewrite running_delete. by apply core_drop. Qed.

Lemma good_release lk hand off n m id o a f : good lk hand off n m -> object_at m id = Some (o, a) -> localID a ∈ running m -> view_of (f a) = ("", Paused) ->
  ID (af_task (f a)) = id -> good lk ({[localID a]} ∪ hand) off n (set_object m o f).
Proof.
  intros (W & L & C) Ho Hr Hv Hf. split; [by eapply wf_set_at|]. split; [done|]. rewrite (views_set m id o a), Hv by done.
  eapply core_release; [by apply (view_at m id o a)|done|done].
Qed.

(** The caller is about to start the listener of an entry, or gives up. *)
Lemma good_off lk hand off n m id o a : good lk hand off n m -> object_at m id = Some (o, a) -> localID a = "" -> good lk hand ({[id]} ∪ off) n m.
Proof.
  intros (W & L & C) Ho Hl. split; [done|]. split; [done|]. pose proof (view_at m id o a Ho) as Hv. unfold view_of in Hv. rewrite Hl in Hv.
  rewrite <- (insert_id (views m) id _ Hv). by eapply core_mark.
Qed.

Lemma good_back lk hand off n m id o a : good lk hand ({[id]} ∪ off) n m -> object_at m id = Some (o, a) -> view_of a = ("", Paused) -> good lk hand off n m.
Proof.
  intros (W & L & C) Ho Hl. split; [done|]. split; [done|]. pose proof (view_at m id o a Ho) as Hv. rewrite Hl in Hv.
  rewrite <- (insert_id (views m) id _ Hv). by eapply core_pause.
Qed.

Lemma good_lifecycle lk hand off n m r w : good lk hand off n m -> good (r, w, lk.2) hand off n (set_lifecycle m r w).
Proof. intros (W & <- & C). split; [by destruct W|]. done. Qed.

Lemma good_set_mu lk hand off n m b : good lk hand off n m -> good (lk.1, b) hand off n (set_mu m b).
Proof. intros (W & <- & C). split; [by destruct W|]. done. Qed.

Lemma good_closed lk hand off n m : good lk hand off n m -> good lk hand off n (set_closed m).
Proof. intros (W & <- & C). split; [by destruct W|]. done. Qed.

Lemma good_on lk hand off n m id o a : good lk hand off n m -> object_at m id = Some (o, a) -> id ∉ off ->
  (in_State (info a) = Active /\ localID a ∈ running m) \/ (in_State (info a) = Paused /\ localID a = "").
Proof. intros (W & L & C) Ho Hid. eapply c_on; [done|by apply (view_at m id o a)|done]. Qed.

Lemma good_empty lk hand off n m : good lk hand off n m -> "" ∉ running m.
Proof. intros (_ & _ & C). by eapply core_no_empty. Qed.

Lemma good_entry lk hand off n m id o : good lk hand off n m -> active m !! id = Some o -> exists a, object_at m id = Some (o, a) /\ objects m !! o = Some a /\ ID (af_task a) = id.
Proof. intros (W & _ & _). by apply wf_object. Qed.

Lemma good_delete_paused lk n m id o a : good lk ∅ ∅ n m -> object_at m id = Some (o, a) -> localID a = "" ->
  good lk ∅ ∅ n (set_active m (delete id (active m))).
Proof.
  intros Hg Ho Hl. replace (∅ : gset string) with (∅ ∖ {[id]} : gset string) at 2 by set_solver. apply good_delete; [done|].
  intros o' a'. rewrite Ho. intros [= <- <-]. rewrite Hl. by eapply good_empty.
Qed.

(** *** Programs *)

Lemma twp_section {A} post (f : Manager -> Manager * A) n m : mu m = false -> post (f m).2 n (f m).1 -> twp post (section f) n m.
Proof. intros Hm Hp. unfold section. cbn [Threads.twp]. rewrite Hm. by destruct (f m). Qed.

Lemma twp_deref post o a n m : objects m !! o = Some a -> post a n m -> twp post (deref o) n m.
Proof. intros Ho Hp. unfold deref. cbn [Threads.twp]. by rewrite Ho. Qed.

Lemma twp_reading {A} post (f : Manager -> A) n m : post (f m) n m -> twp post (reading f) n m.
Proof. intros Hp. by apply (twp_locked (C:=unit) fits post (fun m => (m, f m))). Qed.

(** The answers of [ask_err] and the others. *)
Lemma twp_answer {A} (post : A -> nat -> Manager -> Prop) (g : answer -> A) q n m : (forall x n', (n' <= n)%nat -> post x n' m) ->
  twp post (a ← ask q; mret (g a)) n m.
Proof. intros Hp. apply twp_bind, twp_ask. intros r n' -> _. apply Hp. lia. Qed.

Lemma twp_pause_remote post canPause p s id n m : (forall e n', (n' <= n)%nat -> post e n' m) -> twp post (pausePortForward canPause p s id) n m.
Proof. intros Hp. unfold pausePortForward. destruct canPause; by apply twp_answer. Qed.

Lemma twp_delete_remote post canDelete p s id n m : (forall e n', (n' <= n)%nat -> post e n' m) -> twp post (deletePortForward canDelete p s id) n m.
Proof. intros Hp. unfold deletePortForward. destruct canDelete; by apply twp_answer. Qed.

Lemma twp_locals_Stop post id n m :
  (forall e n', (n' <= n)%nat -> post e n' (set_listening m (delete id (listening m)))) -> twp post (locals_Stop id) n m.
Proof.
  intros Hp. unfold locals_Stop. apply twp_bind, twp_locked. cbn [fst snd]. destruct (option_map _ _); [by apply twp_answer|].
  by apply Hp.
Qed.

Lemma startRouted_spec post lk hand off n m r : good lk hand off n m ->
  (forall e n', (n' <= n)%nat -> post (inl e) n' m) ->
  (forall i n' m', (n' <= n)%nat -> li_ID i ∉ hand -> good lk ({[li_ID i]} ∪ hand) off n' m' -> active m' = active m -> objects m' = objects m ->
     post (inr i) n' m') ->
  twp post (startRouted r) n m.
Proof.
  intros (W & L & C) He Hi. unfold startRouted. apply twp_bind. unfold ask_listener. apply twp_bind, twp_ask. intros a n1 -> _.
  cbn [mret prog_ret Threads.twp]. destruct (match a with AListener l => l | _ => inl [] end) as [e|[forwarder address]]; [apply He; lia|].
  destruct (localPortFromAddress address) as [e|localPort].
  - apply twp_bind, twp_answer. intros _ n' Hn. apply He. lia.
  - destruct (core_start _ _ _ _ _ _ C) as (C' & Hnext & Hfresh).
    apply twp_bind, twp_locked. cbn [fst snd nextID]. rewrite Hnext. apply twp_locked. cbn [fst snd listening set_listening].
    apply Hi; cbn [li_ID]; [lia|done| |done|done]. split; [by destruct W|]. split; [done|].
    unfold running. cbn [listening set_listening nextID]. rewrite dom_insert_L. exact C'.
Qed.

Lemma StartResolved_spec post lk hand off n m r target dialer : good lk hand off n m ->
  (forall e n', (n' <= n)%nat -> post (inl e) n' m) ->
  (forall i n' m', (n' <= n)%nat -> li_ID i ∉ hand -> good lk ({[li_ID i]} ∪ hand) off n' m' -> active m' = active m -> objects m' = objects m ->
     post (inr i) n' m') ->
  twp post (StartResolved r target dialer) n m.
Proof.
  intros Hg He Hi. unfold StartResolved. destruct (refused r target dialer) as [e|]; [by apply He|]. by eapply startRouted_spec.
Qed.

Lemma good_mu lk hand off n m : good lk hand off n m -> mu m = lk.2.
Proof. by intros (_ & <- & _). Qed.

Lemma same_object m m' id : active m' = active m -> objects m' = objects m -> object_at m' id = object_at m id.
Proof. unfold object_at. by intros -> ->. Qed.

Lemma same_views m m' : active m' = active m -> objects m' = objects m -> views m' = views m.
Proof. unfold views. by intros -> ->. Qed.

Section specs.
Context (canResume canPause canDelete canList : bool) (readers_ : nat) (writer_ : bool).
Notation lk := (readers_, writer_, false).

Lemma start_held_alone ctx p s r n m : good lk ∅ ∅ n m -> twp (fun _ n m => good lk ∅ ∅ n m) (start_held canDelete ctx p s r) n m.
Proof.
  intros Hg. unfold start_held. destruct (_ || _); [exact Hg|]. apply twp_bind, twp_answer. intros [e|dialer] n1 Hn1; [by eapply good_budget|].
  apply (good_budget _ _ _ _ n1) in Hg; [|done]. apply twp_bind, twp_ask. intros uuid n2 -> _.
  apply twp_bind, twp_answer. intros [e|task] n3 Hn3; [eapply good_budget; [exact Hg|lia]|].
  apply (good_budget _ _ _ _ n3) in Hg; [|lia]. apply twp_bind. eapply StartResolved_spec; [exact Hg| |].
  - intros e n4 Hn4. apply twp_bind, twp_delete_remote. intros e' n5 Hn5. eapply good_budget; [done|lia].
  - intros i n4 m4 Hn4 _ Hg4 Ha Ho. apply twp_bind, twp_section; [by rewrite (good_mu _ _ _ _ _ Hg4)|].
    case_bool_decide as Hin; cbn [fst snd].
    + apply twp_bind, twp_locals_Stop. intros e n5 Hn5. apply twp_bind, twp_delete_remote. intros e' n6 Hn6.
      apply good_drop; [|done]. eapply good_budget; [done|lia].
    + eapply good_add; [exact Hg4|done|done| |done]. cbn [ID af_task]. by apply eq_None_not_Some.
Qed.

Lemma Pause_alone post ctx profileID id n m : good lk ∅ ∅ n m ->
  ((ctx = false \/ find_entry id (pausable profileID) m = None) -> forall e, is_nil e = false -> post e n m) ->
  (forall o a e n' m', find_entry id (pausable profileID) m = Some o -> object_at m id = Some (o, a) -> (n' <= n)%nat ->
     good lk ∅ ∅ n' m' -> object_at m' id = Some (o, set_paused a) -> views m' = <[id := ("", Paused)]> (views m) -> post e n' m') ->
  twp post (Pause canPause ctx profileID id) n m.
Proof.
  intros Hg Hno Hyes. unfold Pause. destruct ctx; cbn [negb]; [|apply Hno; [by left|done]].
  apply twp_bind, twp_section; [by rewrite (good_mu _ _ _ _ _ Hg)|]. cbn [fst snd].
  destruct (find_entry id (pausable profileID) m) as [o|] eqn:E; [|apply Hno; [by right|done]].
  unfold find_entry in E. destruct (object_at m id) as [[o' a]|] eqn:Ho; [|done]. destruct (pausable profileID a) eqn:Hp; [|done]. injection E as ->.
  pose proof Ho as [Hact Hobj]%object_at_Some. pose proof Hg as (W & _ & _).
  assert (in_State (info a) = Active /\ localID a ∈ running m) as [Hs Hr].
  { destruct (good_on _ _ _ _ _ _ _ _ Hg Ho) as [|[Hs _]]; [set_solver|done|]. exfalso. revert Hp. unfold pausable. rewrite Hs.
    by rewrite andb_false_r. }
  apply twp_bind. eapply twp_deref; [done|]. apply twp_bind, twp_pause_remote. intros remoteErr n1 Hn1. apply twp_bind. eapply twp_deref; [done|].
  apply twp_bind, twp_locals_Stop. intros localErr n2 Hn2.
  assert (good lk ∅ ({[id]} ∪ ∅) n2 (set_listening m (delete (localID a) (listening m)))) as Hg2.
  { eapply good_stop; [|done|done]. eapply good_budget; [done|lia]. }
  apply twp_bind, twp_section; [by rewrite (good_mu _ _ _ _ _ Hg2)|]. rewrite bool_decide_eq_true_2 by done. cbn [fst snd].
  assert (object_at (set_listening m (delete (localID a) (listening m))) id = Some (o, a)) as Ho2 by done.
  cbn [mret prog_ret Threads.twp]. apply (Hyes o a); [done|done|lia| | |].
  - by eapply (good_pause _ ∅ ∅); [exact Hg2|done| |].
  - by apply object_at_insert.
  - rewrite (views_set _ id o a); [done| |done]. by destruct W.
Qed.

Lemma Stop_alone (post : errs -> nat -> Manager -> Prop) ctx profileID id n m : good lk ∅ ∅ n m ->
  ((ctx = false \/ find_entry id (pausable profileID) m = None) -> forall e, post e n m) ->
  (forall e n' m', good lk ∅ ∅ n' m' -> (views m' = <[id := ("", Paused)]> (views m) \/ views m' = delete id (views m)) -> post e n' m') ->
  twp post (Stop canPause ctx profileID id) n m.
Proof.
  intros Hg Hno Hyes. unfold Stop. apply twp_bind. apply Pause_alone; [exact Hg| |].
  - intros Hcase e He. rewrite He. by apply Hno.
  - intros o a e n' m' _ _ _ Hg' Ho' Hv'. destruct (is_nil e); [|by apply Hyes; [|left]].
    apply twp_bind. unfold delete_active. apply twp_section; [by rewrite (good_mu _ _ _ _ _ Hg')|]. cbn [fst snd]. apply Hyes.
    + by eapply good_delete_paused.
    + right. rewrite views_delete, Hv'. apply delete_insert_eq.
Qed.

(** *** Listeners of entries *)

Lemma startLocal_alone post o task compensate id a n m : good lk ∅ {[id]} n m -> object_at m id = Some (o, a) ->
  (forall e n' m', good lk ∅ {[id]} n' m' -> active m' = active m -> objects m' = objects m -> post (inl e) n' m') ->
  (forall i n' m', good lk ∅ ∅ n' m' -> post (inr i) n' m') ->
  twp post (startLocal canPause o task compensate) n m.
Proof.
  intros Hg Ho He Hi. pose proof Ho as [Hact Hobj]%object_at_Some. unfold startLocal. apply twp_bind. eapply twp_deref; [done|].
  apply twp_bind, twp_answer. intros [e|dialer] n1 Hn1; [apply He; [by eapply good_budget|done|done]|].
  apply twp_bind. eapply twp_deref; [done|]. apply (good_budget _ _ _ _ n1) in Hg; [|done]. apply twp_bind. eapply StartResolved_spec; [exact Hg| |].
  - intros e n2 Hn2. apply (good_budget _ _ _ _ n2) in Hg; [|done]. destruct (negb compensate); [by apply He|].
    apply twp_bind. eapply twp_deref; [done|]. apply twp_bind, twp_pause_remote. intros e' n3 Hn3. apply He; [by eapply good_budget|done|done].
  - intros local n2 m2 Hn2 _ Hg2 Ha2 Hob2. apply twp_bind, twp_section; [by rewrite (good_mu _ _ _ _ _ Hg2)|].
    case_bool_decide as Htaken; cbn [negb fst snd].
    + cbn [objects set_object]. rewrite Hob2, lookup_alter_eq, Hobj. cbn [option_map mret prog_ret Threads.twp]. apply Hi.
      assert (ID task = id) as Hid by (rewrite Ha2 in Htaken; destruct Hg as (W & _); by eapply wf_key).
      assert (object_at m2 id = Some (o, a)) as Ho2 by (by rewrite (same_object m m2)).
      eapply (good_take _ ∅ ∅); [|done|done|exact Ho2|done|exact Hid]. replace ({[id]} ∪ ∅ : gset string) with ({[id]} : gset string) by set_solver. done.
    + apply twp_bind, twp_locals_Stop. intros e n3 Hn3.
      assert (good lk ∅ {[id]} n3 (set_listening m2 (delete (li_ID local) (listening m2)))) as Hg3.
      { apply good_drop; [|done]. eapply good_budget; [done|lia]. }
      destruct (negb compensate); [by apply He|]. apply twp_bind. apply (twp_deref _ o a); [by cbn; rewrite Hob2|].
      apply twp_bind, twp_pause_remote. intros e' n4 Hn4. apply He; [by eapply good_budget|done|done].
Qed.

Lemma Resume_alone ctx profileID id n m : good lk ∅ ∅ n m -> twp (fun _ n m => good lk ∅ ∅ n m) (Resume canResume canPause ctx profileID id) n m.
Proof.
  intros Hg. unfold Resume. destruct ctx; cbn [negb]; [|done]. apply twp_bind, twp_section; [by rewrite (good_mu _ _ _ _ _ Hg)|].
  unfold find_entry. destruct (object_at m id) as [[o a]|] eqn:Ho; [|done]. destruct (resumable profileID a) eqn:Hr; [|done]. cbn [fst snd].
  assert (localID a = "") as Hl.
  { apply andb_true_iff in Hr as [_ Hs%bool_decide_eq_true]. destruct (good_on _ _ _ _ _ _ _ _ Hg Ho) as [[Hs' _]|[_ ?]]; [set_solver| |done].
    rewrite Hs in Hs'. discriminate. }
  pose proof Hg as (W & _ & _). pose proof (good_mark _ _ _ _ _ _ _ _ portForwardStateResuming Hg Ho Hl) as Hg1.
  replace ({[id]} ∪ ∅ : gset string) with ({[id]} : gset string) in Hg1 by set_solver.
  set (m1 := set_object m o (set_state portForwardStateResuming)) in *. set (a1 := set_state portForwardStateResuming a).
  assert (object_at m1 id = Some (o, a1)) as Ho1 by by apply object_at_insert. pose proof Ho1 as [Hact1 Hobj1]%object_at_Some.
  assert (forall e n' m', good lk ∅ {[id]} n' m' -> active m' = active m1 -> objects m' = objects m1 ->
    twp (fun _ n m => good lk ∅ ∅ n m) (_ ← unresume id o; mret (inl e : errs + Info)) n' m') as Hfail.
  { intros e n' m' Hg' Ha' Hob'. apply twp_bind. unfold unresume. apply twp_section; [by rewrite (good_mu _ _ _ _ _ Hg')|].
    rewrite Hob', Hobj1, Ha', Hact1, !bool_decide_eq_true_2 by done. cbn [andb fst snd mret prog_ret Threads.twp].
    apply (good_pause _ ∅ ∅ _ _ id o a1); [|by rewrite (same_object m1 m')|unfold view_of; cbn [localID set_state a1]; by rewrite Hl|done].
    by replace ({[id]} ∪ ∅ : gset string) with ({[id]} : gset string) by set_solver. }
  apply twp_bind. eapply twp_deref; [done|]. apply twp_bind. unfold resumePortForward. destruct canResume.
  - apply twp_answer. intros [e|task] n1 Hn1; cbn [mret prog_ret].
    + apply twp_bind. cbn [Threads.twp]. apply Hfail; [by eapply good_budget|done|done].
    + apply twp_bind. eapply (startLocal_alone _ o task true id a1); [eapply good_budget; [exact Hg1|done]|done| |].
      * intros e n' m' Hg' Ha' Hob'. by apply Hfail.
      * done.
  - cbn [mret prog_ret Threads.twp]. apply twp_bind. cbn [Threads.twp]. by apply Hfail.
Qed.

Lemma Delete_alone ctx profileID id n m : good lk ∅ ∅ n m -> twp (fun _ n m => good lk ∅ ∅ n m) (Delete canPause canDelete ctx profileID id) n m.
Proof.
  intros Hg. unfold Delete. destruct ctx; cbn [negb]; [|done]. apply twp_bind, twp_section; [by rewrite (good_mu _ _ _ _ _ Hg)|]. cbn [fst snd].
  destruct (active m !! id) as [o|] eqn:Hact; [|done]. destruct (good_entry _ _ _ _ _ _ _ Hg Hact) as (a & Ho & Hobj & _).
  apply twp_bind. eapply twp_deref; [done|]. case_bool_decide as Hprofile; cbn [negb]; [|done].
  apply twp_bind. eapply twp_deref; [done|]. apply twp_bind.
  assert (forall pauseErr n' m' a', good lk ∅ ∅ n' m' -> object_at m' id = Some (o, a') -> localID a' = "" ->
    twp (fun _ n m => good lk ∅ ∅ n m) (a ← deref o; deleteErr ← deletePortForward canDelete (af_profile a) (af_session a) (ID (af_task a));
      _ ← (if is_nil deleteErr then delete_active id else mret tt); mret (Join pauseErr deleteErr)) n' m') as Hrest.
  { intros pauseErr n' m' a' Hg' Ho' Hl'. pose proof Ho' as [_ Hobj']%object_at_Some. apply twp_bind. eapply twp_deref; [done|].
    apply twp_bind, twp_delete_remote. intros e n'' Hn. apply (good_budget _ _ _ _ n'') in Hg'; [|done]. apply twp_bind.
    destruct (is_nil e); [|done]. unfold delete_active. apply twp_section; [by rewrite (good_mu _ _ _ _ _ Hg')|]. cbn [fst snd mret prog_ret Threads.twp].
    by eapply good_delete_paused. }
  case_bool_decide as Hs.
  - apply Pause_alone; [exact Hg| |].
    + intros [Hc|Hf] e _; [done|]. exfalso. revert Hf. unfold find_entry. rewrite Ho. unfold pausable. by rewrite (bool_decide_eq_true_2 _ Hprofile), (bool_decide_eq_true_2 _ Hs), orb_true_r.
    + intros o' a' e n' m' _ Ho' _ Hg' Ho'' _. rewrite Ho in Ho'. injection Ho' as <- <-. by eapply Hrest.
  - cbn [mret prog_ret Threads.twp]. apply (Hrest _ _ _ a); [done|done|].
    destruct (good_on _ _ _ _ _ _ _ _ Hg Ho) as [[? _]|[_ ?]]; [set_solver|done|done].
Qed.
End specs.

(** *** Whole profiles *)

Section profiles.
Context (canResume canPause canDelete canList : bool).

Lemma for_each_alone lk {X} (l : list X) (body : X -> prog errs) : (forall x n m, good lk ∅ ∅ n m -> twp (fun _ n m => good lk ∅ ∅ n m) (body x) n m) ->
  forall result n m, good lk ∅ ∅ n m -> twp (fun _ n m => good lk ∅ ∅ n m) (for_each l body result) n m.
Proof.
  intros Hb. induction l as [|x l IH]; intros result n m Hg; cbn [for_each]; [done|]. apply twp_bind.
  eapply twp_mono; [|by apply Hb]. intros e n' m' _ Hg'. by apply IH.
Qed.

Lemma with_lifecycle_alone (post : Manager -> Prop) body n m : good (0%nat, false, false) ∅ ∅ n m ->
  (forall n m, good (0%nat, true, false) ∅ ∅ n m -> twp (fun _ n m => good (0%nat, true, false) ∅ ∅ n m /\ post m) body n m) ->
  (forall m, post m -> post (set_lifecycle m (readers m) false)) ->
  twp (fun _ n m => good (0%nat, false, false) ∅ ∅ n m /\ post m) (with_lifecycle body) n m.
Proof.
  intros Hg Hbody Hpost. unfold with_lifecycle. apply twp_bind. unfold Lock. cbn [Threads.twp]. pose proof Hg as (_ & HL & _). injection HL as Hr Hw Hm.
  rewrite Hw, Hr. cbn [orb negb Threads.twp]. apply twp_bind. eapply twp_mono; [|by apply Hbody, (good_lifecycle _ _ _ _ _ 0 true Hg)].
  intros e n' m' _ [Hg' Hp]. apply twp_bind. unfold Unlock. apply twp_locked. cbn [fst snd mret prog_ret Threads.twp].
  split; [|by apply Hpost]. pose proof Hg' as (_ & HL & _). injection HL as Hr' _ _. rewrite Hr'. apply (good_lifecycle _ _ _ _ _ 0 false Hg').
Qed.

Lemma active_ids_spec lk profileID (post : list string -> nat -> Manager -> Prop) n m : lk.2 = false -> good lk ∅ ∅ n m ->
  (forall ids n', (n' <= n)%nat -> post ids n' m) -> twp post (active_ids profileID) n m.
Proof.
  intros Hlk Hg Hp. unfold active_ids. apply twp_bind, twp_section; [by rewrite (good_mu _ _ _ _ _ Hg)|]. cbn [fst snd]. by apply twp_answer.
Qed.

Lemma profile_spec profileID (body : string -> prog errs) n m : good (0%nat, false, false) ∅ ∅ n m ->
  (forall id n m, good (0%nat, true, false) ∅ ∅ n m -> twp (fun _ n m => good (0%nat, true, false) ∅ ∅ n m) (body id) n m) ->
  twp (fun _ n m => good (0%nat, false, false) ∅ ∅ n m) (with_lifecycle (ids ← active_ids profileID; for_each ids body [])) n m.
Proof.
  intros Hg Hbody. eapply twp_mono; [|apply (with_lifecycle_alone (fun _ => True)); [exact Hg| |done]]; [intros ? ? ? _ [? _]; done|].
  intros n' m' Hg'. apply twp_bind. eapply active_ids_spec; [|exact Hg'|]; [done|]. intros ids n'' Hn.
  eapply twp_mono; [|apply for_each_alone; [exact Hbody|by eapply good_budget]]. done.
Qed.

Lemma releaseLocal_spec r w profileID id n m : good (r, w, false) ∅ ∅ n m -> twp (fun _ n m => good (r, w, false) ∅ ∅ n m) (releaseLocal profileID id) n m.
Proof.
  intros Hg. unfold releaseLocal. apply twp_bind, twp_section; [by rewrite (good_mu _ _ _ _ _ Hg)|]. cbn [fst snd].
  destruct (find_entry id (pausable profileID) m) as [o|] eqn:E; [|done].
  unfold find_entry in E. destruct (object_at m id) as [[o' a]|] eqn:Ho; [|done]. destruct (pausable profileID a) eqn:Hp; [|done]. injection E as ->.
  pose proof Ho as [Hact Hobj]%object_at_Some.
  assert (localID a ∈ running m) as Hr.
  { destruct (good_on _ _ _ _ _ _ _ _ Hg Ho) as [[_ ?]|[Hs _]]; [set_solver|done|]. exfalso. revert Hp. unfold pausable. by rewrite Hs, andb_false_r. }
  apply twp_bind. eapply twp_deref; [done|]. apply twp_bind, twp_locals_Stop. intros localErr n2 Hn2.
  assert (good (r, w, false) ∅ ({[id]} ∪ ∅) n2 (set_listening m (delete (localID a) (listening m)))) as Hg2.
  { eapply good_stop; [|done|done]. by eapply good_budget. }
  apply twp_bind, twp_section; [by rewrite (good_mu _ _ _ _ _ Hg2)|]. rewrite bool_decide_eq_true_2 by done. cbn [fst snd mret prog_ret Threads.twp].
  by eapply (good_pause _ ∅ ∅); [exact Hg2|done| |].
Qed.

Lemma Stop_good r w ctx profileID id n m : good (r, w, false) ∅ ∅ n m -> twp (fun _ n m => good (r, w, false) ∅ ∅ n m) (Stop canPause ctx profileID id) n m.
Proof. intros Hg. by apply (Stop_alone canPause r w). Qed.

Lemma Pause_good r w ctx profileID id n m : good (r, w, false) ∅ ∅ n m -> twp (fun _ n m => good (r, w, false) ∅ ∅ n m) (Pause canPause ctx profileID id) n m.
Proof. intros Hg. by apply (Pause_alone canPause r w). Qed.

(** *** The end *)

Definition active_within (ids : list string) (m : Manager) : Prop := forall id l, views m !! id = Some (l, Active) -> id ∈ ids.

Definition shutdown_one (ctx : bool) (id : string) : prog errs :=
  entry ← section (fun m => (m, active m !! id));
  match entry with
  | None => mret []
  | Some o =>
      a ← deref o;
      if bool_decide (in_State (info a) = "") || bool_decide (in_State (info a) = portForwardSessionActive)
      then Stop canPause ctx (pf_ID (af_profile a)) id else mret []
  end.

Lemma shutdown_one_spec r w id ids n m : good (r, w, false) ∅ ∅ n m -> active_within (id :: ids) m ->
  twp (fun _ n m => good (r, w, false) ∅ ∅ n m /\ active_within ids m) (shutdown_one true id) n m.
Proof.
  intros Hg Hact. unfold shutdown_one. apply twp_bind, twp_section; [by rewrite (good_mu _ _ _ _ _ Hg)|]. cbn [fst snd]. pose proof Hg as (W & _ & _).
  destruct (active m !! id) as [o|] eqn:E; cbn [mret prog_ret Threads.twp].
  - destruct (wf_object _ _ _ W E) as (a & Ho & Hobj & _). apply twp_bind. eapply twp_deref; [done|].
    destruct (good_on _ _ _ _ _ _ _ _ Hg Ho) as [[Hs _]|[Hs _]]; [set_solver| |]; rewrite Hs.
    + rewrite (bool_decide_eq_true_2 (Active = Active)), orb_true_r by done. apply (Stop_alone canPause r w); [exact Hg| |].
      * intros [|Hf]; [done|]. exfalso. revert Hf. unfold find_entry. rewrite Ho. unfold pausable. rewrite Hs.
        by rewrite (bool_decide_eq_true_2 (pf_ID _ = pf_ID _)), (bool_decide_eq_true_2 (Active = Active)), orb_true_r.
      * intros e n' m' Hg' Hv. split; [done|]. intros id' l Hl. destruct Hv as [Hv|Hv]; rewrite Hv in Hl.
        -- apply lookup_insert_Some in Hl as [[_ [=]]|[Hne Hl]]. apply Hact in Hl. set_solver.
        -- apply lookup_delete_Some in Hl as [Hne Hl]. apply Hact in Hl. set_solver.
    + cbn [mret prog_ret Threads.twp]. split; [done|]. intros id' l Hl. pose proof (Hact id' l Hl) as [->|]%elem_of_cons; [|done].
      rewrite (view_at m id o a Ho) in Hl. unfold view_of in Hl. rewrite Hs in Hl. discriminate.
  - split; [done|]. intros id' l Hl. pose proof (Hact id' l Hl) as [->|]%elem_of_cons; [|done]. by rewrite view_none in Hl.
Qed.

Lemma shutdown_loop r w ids : forall result n m, good (r, w, false) ∅ ∅ n m -> active_within ids m ->
  twp (fun _ n m => good (r, w, false) ∅ ∅ n m /\ active_within [] m) (for_each ids (shutdown_one true) result) n m.
Proof.
  induction ids as [|id ids IH]; intros result n m Hg Hact; cbn [for_each]; [done|]. apply twp_bind.
  eapply twp_mono; [|by eapply shutdown_one_spec]. intros e n' m' _ [Hg' Hact']. by apply IH.
Qed.

Lemma listed_ids m id : wf m -> is_Some (active m !! id) -> id ∈ map fst (listed m).
Proof.
  intros W [o Ho]. destruct (wf_object _ _ _ W Ho) as (a & _ & Ha & _). apply list_elem_of_fmap. exists (id, a). split; [done|].
  unfold listed. apply list_elem_of_omap. exists (id, o). split; [by apply elem_of_map_to_list|]. by rewrite Ha.
Qed.

Lemma Shutdown_alone n m : good (0%nat, false, false) ∅ ∅ n m ->
  twp (fun _ n m => good (0%nat, false, false) ∅ ∅ n m /\ active_within [] m) (Shutdown canPause true) n m.
Proof.
  intros Hg. unfold Shutdown. cbn [negb]. apply with_lifecycle_alone; [exact Hg| |done]. clear n m Hg. intros n m Hg.
  apply twp_bind, twp_locked. cbn [fst snd]. apply good_closed in Hg. set (m1 := set_closed m) in *.
  apply twp_bind, twp_section; [by rewrite (good_mu _ _ _ _ _ Hg)|]. cbn [fst snd]. apply shutdown_loop; [exact Hg|].
  intros id l Hv. pose proof Hg as (W & _ & _). unfold Sort. rewrite (SortFunc_perm _ _).
  apply listed_ids; [done|]. destruct (view_inv _ _ _ W Hv) as (o & a & Ho & _). apply object_at_Some in Ho as [Ho _]. by exists o.
Qed.
End profiles.

(** *** Reconciling *)

Section restoring.
Context (canResume canPause canDelete canList : bool).

Lemma drop_stale_spec lk p s ids : forall n m, good lk ∅ ∅ n m -> twp (fun _ n m => good lk ∅ ∅ n m) (drop_stale p s ids) n m.
Proof.
  induction ids as [|id ids IH]; intros n m Hg; cbn [drop_stale]; [done|].
  apply twp_bind, twp_reading, twp_bind.
  assert (forall n m, good lk ∅ ∅ n m -> twp (fun _ n m => twp (fun _ n m => good lk ∅ ∅ n m) (drop_stale p s ids) n m) (mret tt : prog unit) n m) as Hnext by (intros; by apply IH).
  destruct (object_at m id) as [[o a]|] eqn:Ho; [|by apply Hnext]. destruct (stale p s a); [|by apply Hnext].
  apply twp_bind. case_bool_decide as Hl; cbn [negb mret prog_ret Threads.twp].
  - apply twp_locked. cbn [fst snd]. apply IH. by eapply good_delete_paused.
  - apply twp_bind, twp_locals_Stop. intros e n1 Hn1. cbn [mret prog_ret Threads.twp].
    assert (localID a ∈ running m) as Hr by (destruct (good_on _ _ _ _ _ _ _ _ Hg Ho) as [[_ ?]|[_ ?]]; [set_solver|done|done]).
    apply twp_locked. cbn [fst snd]. apply IH.
    replace (∅ : gset string) with (({[id]} ∪ ∅) ∖ {[id]} : gset string) at 2 by set_solver.
    apply (good_delete _ _ _ _ (set_listening m (delete (localID a) (listening m)))).
    + eapply good_stop; [by eapply good_budget|done|done].
    + intros o' a' Ho'. assert (object_at m id = Some (o', a')) as Ho'' by exact Ho'. rewrite Ho in Ho''. injection Ho'' as <- <-.
      rewrite running_delete. set_solver.
Qed.

Lemma reconcile_alone r w p s task n m : good (r, w, false) ∅ ∅ n m -> twp (fun _ n m => good (r, w, false) ∅ ∅ n m) (reconcile canPause p s task) n m.
Proof.
  intros Hg. unfold reconcile. destruct (_ && _); [done|]. apply twp_bind, twp_section; [by rewrite (good_mu _ _ _ _ _ Hg)|].
  assert (forall id, ({[id]} ∪ ∅ : gset string) = {[id]}) as Hset by set_solver.
  destruct (object_at m (ID task)) as [[o a]|] eqn:Ho.
  - pose proof (good_same _ _ _ _ _ _ _ _ (set_view p s task) Hg Ho eq_refl eq_refl) as Hg1. set (m1 := set_object m o (set_view p s task)) in *.
    assert (object_at m1 (ID task) = Some (o, set_view p s task a)) as Ho1 by by apply object_at_insert.
    destruct (bool_decide (State_ task = Running) && bool_decide (localID a = "")) eqn:E1; cbn [fst snd].
    + apply andb_true_iff in E1 as [_ Hl%bool_decide_eq_true].
      assert (in_State (info a) = Paused) as Hs.
      { destruct (good_on _ _ _ _ _ _ _ _ Hg Ho) as [[_ Hr]|[? _]]; [set_solver| |done]. rewrite Hl in Hr. by apply (good_empty _ _ _ _ _ Hg) in Hr. }
      apply twp_bind. eapply startLocal_alone; [|exact Ho1| |].
      * rewrite <- Hset. by eapply good_off.
      * intros e n' m' Hg' Ha' Hob'. cbn [mret prog_ret Threads.twp]. rewrite <- Hset in Hg'. eapply good_back; [done| |].
        -- by rewrite (same_object m1 m').
        -- unfold view_of. cbn [localID set_view info]. by rewrite Hl, Hs.
      * done.
    + destruct (negb (bool_decide (State_ task = Running)) && negb (bool_decide (localID a = ""))) eqn:E2; cbn [fst snd].
      * apply andb_true_iff in E2 as [_ Hl%negb_true_iff%bool_decide_eq_false].
        assert (localID a ∈ running m1) as Hr by (destruct (good_on _ _ _ _ _ _ _ _ Hg Ho) as [[_ ?]|[_ ?]]; [set_solver|done|done]).
        apply twp_locals_Stop. intros e n' Hn'. eapply good_budget; [|done]. apply (good_drop _ ∅ ∅); [|set_solver].
        by apply (good_release _ _ _ _ _ (ID task) o (set_view p s task a)).
      * done.
  - assert (active m !! ID task = None) as Hnone.
    { destruct (active m !! ID task) as [o|] eqn:E; [|done]. destruct (good_entry _ _ _ _ _ _ _ Hg E) as (a & Ho' & _). by rewrite Ho in Ho'. }
    assert (good (r, w, false) ∅ ∅ n (new_object m (tracked p s task)).1) as Hg1 by (by apply good_track).
    pose proof (object_at_new m (tracked p s task)) as Ho1. cbn [ID af_task tracked] in Ho1. cbn [fst snd new_object].
    destruct (_ && _); [|done]. apply twp_bind.
    eapply (startLocal_alone canPause r w _ _ task false (ID task) (tracked p s task)); [|exact Ho1| |].
    + rewrite <- Hset. by eapply good_off.
    + intros e n' m' Hg' Ha' Hob'. apply twp_bind, twp_section; [by rewrite (good_mu _ _ _ _ _ Hg')|]. assert (active m' !! ID task = Some (next m)) as Hact by (rewrite Ha'; apply lookup_insert_eq).
      rewrite bool_decide_eq_true_2 by exact Hact. cbn [fst snd mret prog_ret Threads.twp].
      replace (∅ : gset string) with ({[ID task]} ∖ {[ID task]} : gset string) at 2 by set_solver.
      apply good_delete; [done|].
      intros o' a' Ho'. rewrite (same_object (new_object m (tracked p s task)).1 m') in Ho' by done. rewrite Ho1 in Ho'. injection Ho' as <- <-.
      by eapply good_empty.
    + done.
Qed.

Lemma reconcile_all_alone r w p s tasks : forall n m, good (r, w, false) ∅ ∅ n m ->
  twp (fun _ n m => good (r, w, false) ∅ ∅ n m) (reconcile_all canPause p s tasks) n m.
Proof.
  induction tasks as [|task tasks IH]; intros n m Hg; cbn [reconcile_all]; [done|]. apply twp_bind.
  eapply twp_mono; [|by apply reconcile_alone]. intros e n' m' _ Hg'. destruct (is_nil e); [by apply IH|done].
Qed.

Lemma Restore_alone r w p s n m : good (r, w, false) ∅ ∅ n m -> twp (fun _ n m => good (r, w, false) ∅ ∅ n m) (Restore canPause canList p s) n m.
Proof.
  intros Hg. unfold Restore. destruct canList; cbn [negb]; [|done]. apply twp_bind, twp_answer. intros [e|tasks] n1 Hn1; [by eapply good_budget|].
  apply (good_budget _ _ _ _ n1) in Hg; [|done]. apply twp_bind. unfold mu_Lock. cbn [Threads.twp]. rewrite (good_mu _ _ _ _ _ Hg).
  cbn [snd Threads.twp]. apply (good_set_mu _ _ _ _ _ true) in Hg. apply twp_bind, twp_reading, twp_bind, twp_answer. intros ids n2 Hn2.
  apply twp_bind. eapply twp_mono; [|apply drop_stale_spec; by eapply good_budget]. intros u n3 m3 _ Hg3.
  apply twp_bind. unfold mu_Unlock. apply twp_locked. cbn [fst snd]. apply (good_set_mu _ _ _ _ _ false) in Hg3. by apply reconcile_all_alone.
Qed.

Lemma Start_alone ctx p s q n m : good (0%nat, false, false) ∅ ∅ n m -> twp (fun _ n m => good (0%nat, false, false) ∅ ∅ n m) (Start canDelete ctx p s q) n m.
Proof.
  intros Hg. unfold Start. apply twp_bind. unfold RLock. cbn [Threads.twp]. pose proof Hg as (_ & HL & _). injection HL as Hr Hw Hm. rewrite Hw, Hr.
  cbn [Threads.twp]. apply (good_lifecycle _ _ _ _ _ 1 false) in Hg. apply twp_bind, twp_reading, twp_bind.
  assert (forall (x : errs + Info) n' m', good (1%nat, false, false) ∅ ∅ n' m' ->
    twp (fun _ n m => good (0%nat, false, false) ∅ ∅ n m) (_ ← RUnlock; mret x) n' m') as Hunlock.
  { intros x n' m' Hg'. apply twp_bind. unfold RUnlock. apply twp_locked. cbn [fst snd mret prog_ret Threads.twp].
    pose proof Hg' as (_ & HL & _). injection HL as -> -> _. apply (good_lifecycle _ _ _ _ _ 0 false Hg'). }
  destruct (closed _); [by apply Hunlock|]. eapply twp_mono; [|by apply start_held_alone]. intros x n' m' _ Hg'. by apply Hunlock.
Qed.

Lemma perform_spec c n m : good (0%nat, false, false) ∅ ∅ n m ->
  twp (fun _ n m => good (0%nat, false, false) ∅ ∅ n m) (perform canResume canPause canDelete canList c) n m.
Proof.
  intros Hg. destruct c; cbn [perform]; unfold ignore; apply twp_bind; cbn [mret prog_ret Threads.twp].
  - by apply Start_alone.
  - by apply Pause_good.
  - by apply Resume_alone.
  - by apply Delete_alone.
  - by apply Stop_good.
  - unfold StopProfile. destruct ctx; cbn [negb]; [|done]. apply profile_spec; [exact Hg|]. intros. by apply Stop_good.
  - unfold PauseProfile. destruct ctx; cbn [negb]; [|done]. apply profile_spec; [exact Hg|]. intros. by apply Pause_good.
  - unfold ReleaseProfile. destruct ctx; cbn [negb]; [|done]. apply profile_spec; [exact Hg|]. intros. by apply releaseLocal_spec.
  - destruct ctx; [|done]. eapply twp_mono; [|by apply Shutdown_alone]. by intros e n' m' _ [Hg' _].
  - by apply Restore_alone.
Qed.

Lemma client_alone calls : forall n m, good (0%nat, false, false) ∅ ∅ n m ->
  twp (fun _ n m => good (0%nat, false, false) ∅ ∅ n m) (client canResume canPause canDelete canList calls) n m.
Proof.
  induction calls as [|c calls IH]; intros n m Hg; cbn [client]; [done|]. apply twp_bind.
  eapply twp_mono; [|by apply perform_spec]. intros u n' m' _ Hg'. by apply IH.
Qed.

Lemma client_shutdown_spec calls : forall n m, good (0%nat, false, false) ∅ ∅ n m ->
  twp (fun _ n m => good (0%nat, false, false) ∅ ∅ n m /\ active_within [] m) (client canResume canPause canDelete canList (calls ++ [CShutdown true])) n m.
Proof.
  induction calls as [|c calls IH]; intros n m Hg; cbn [client app]; apply twp_bind.
  - cbn [perform]. unfold ignore. apply twp_bind. eapply twp_mono; [|by apply Shutdown_alone]. done.
  - eapply twp_mono; [|by apply perform_spec]. intros u n' m' _ Hg'. by apply IH.
Qed.
End restoring.

Lemma good_New n : Z.of_nat n < 2 ^ 64 -> good (0%nat, false, false) ∅ ∅ n New.
Proof.
  intros Hn. split; [split; cbn; intros ??; by rewrite lookup_empty|]. split; [done|]. unfold views, running. cbn. split; cbn; try (intros; set_solver); try done.
Qed.

(** ** What a caller relies on *)

(** C6 (invariant). A caller that has the manager to itself loses no listener and
    never waits for itself: whatever it calls and whatever the Gateway, the data
    plane and the network answer, the calls come back without a panic or a
    deadlock; then the listeners that run are those of the active entries, one for
    each, a paused entry has none, and after a last shutdown none is left, even
    when the Gateway could not be reached. *)
Theorem no_listener_lost (canResume canPause canDelete canList : bool) (calls : list call) (answers : list answer)
    (Hbound : Z.of_nat (List.length answers) < 2 ^ 64) :
  match alone fits (client canResume canPause canDelete canList calls) answers New with
  | Ended _ _ m =>
      (forall l, is_Some (listening m !! l) <-> exists id o a, object_at m id = Some (o, a) /\ in_State (info a) = Active /\ localID a = l) /\
      (forall id id' o o' a a', object_at m id = Some (o, a) -> object_at m id' = Some (o', a') -> localID a = localID a' -> localID a <> "" -> id = id') /\
      (forall id o a, object_at m id = Some (o, a) -> in_State (info a) <> Active -> in_State (info a) = Paused /\ localID a = "")
  | Unanswered => True
  | Stuck => False
  end /\
  match alone fits (client canResume canPause canDelete canList (calls ++ [CShutdown true])) answers New with
  | Ended _ _ m => listening m = ∅
  | Unanswered => True
  | Stuck => False
  end.
Proof.
  split.
  - pose proof (twp_alone (C:=unit) fits _ _ answers New (client_alone canResume canPause canDelete canList calls _ _ (good_New _ Hbound))) as H.
    destruct (alone _ _ _ _) as [u rest m| |]; [|done|done]. pose proof H as (W & _ & C). split; [|split].
    + intros l. rewrite <- elem_of_dom. split.
      * intros Hl. destruct (c_cover _ _ _ _ _ _ C l Hl) as [Hin|(id & s & Hv)]; [set_solver|].
        destruct (view_inv _ _ _ W Hv) as (o & a & Ho & [= -> ->]). exists id, o, a. split; [done|]. split; [|done].
        destruct (good_on _ _ _ _ _ _ _ _ H Ho) as [[? _]|[_ He]]; [set_solver|done|]. rewrite He in Hl. by apply (good_empty _ _ _ _ _ H) in Hl.
      * intros (id & o & a & Ho & Hs & <-). destruct (good_on _ _ _ _ _ _ _ _ H Ho) as [[_ ?]|[Hp _]]; [set_solver|done|]. rewrite Hs in Hp. discriminate.
    + intros id id' o o' a a' Ho Ho' Hl Hne. eapply (c_unique _ _ _ _ _ _ C); [by eapply view_at| |done]. rewrite Hl. by eapply view_at.
    + intros id o a Ho Hs. destruct (good_on _ _ _ _ _ _ _ _ H Ho) as [[? _]|?]; [set_solver|done|done].
  - pose proof (twp_alone (C:=unit) fits _ _ answers New (client_shutdown_spec canResume canPause canDelete canList calls _ _ (good_New _ Hbound))) as H.
    destruct (alone _ _ _ _) as [u rest m| |]; [|done|done]. destruct H as [H Hact]. pose proof H as (W & _ & C).
    apply dom_empty_inv_L. apply set_eq. intros l. split; [|set_solver]. intros Hl. exfalso.
    destruct (c_cover _ _ _ _ _ _ C l Hl) as [Hin|(id & s & Hv)]; [set_solver|].
    destruct (c_on _ _ _ _ _ _ C id l s Hv) as [[-> _]|[_ ->]]; [set_solver|by apply Hact, elem_of_nil in Hv|by apply (good_empty _ _ _ _ _ H) in Hl].
Qed.

(** ** Runs *)

Definition sample_profile : Profile := mkProfile "profile".
Definition sample_session : Session := mkSession "session" "development" "active".
Definition sample_task : PortForwardTask := mkTask "task" Running "service" "web" "" 80 8080 "10.0.0.1:80".
Definition sample_start : call := CStart true sample_profile sample_session (mkRequest " profile " "service" "web" "" 80 8080).
Definition opens (forwarder : nat) : list answer := [ADialer (inr (Some 0%nat)); AListener (inr (forwarder, "127.0.0.1:8080"))].
Definition started : list answer := [ADialer (inr (Some 0%nat)); AUUID "uuid"; ATask (inr sample_task); AListener (inr (7%nat, "127.0.0.1:8080"))].
Definition quietly : answer := AnErr [].
Definition manager_client (calls : list call) : prog unit := client true true true true calls.

(** A port forward is started, paused, resumed and shut down while the Gateway
    does not answer. *)
Definition life_calls : list call := [sample_start; CPause true "profile" "task"; CResume true "profile" "task"].
Definition life_answers : list answer := started ++ [quietly; quietly] ++ [ATask (inr sample_task)] ++ opens 8 ++ [AnErr [NewError "unavailable"]; quietly].

Definition observed (r : outcome unit (W:=Manager) (R:=answer)) : option (list string * list string) :=
  match r with Ended _ _ m => Some (map fst (map_to_list (listening m)), map (fun e => in_State (info e.2)) (listed m)) | _ => None end.

Lemma no_listener_lost_witness :
  observed (alone fits (manager_client life_calls) life_answers New) = Some (["pf-2"], ["active"]) /\
  match alone fits (client true true true true (life_calls ++ [CShutdown true])) life_answers New with Ended _ _ m => listening m = ∅ | Unanswered => True | Stuck => False end /\
  observed (alone fits (manager_client (life_calls ++ [CShutdown true])) life_answers New) = Some ([], ["paused"]).
Proof.
  split; [vm_compute; reflexivity|]. split; [|vm_compute; reflexivity].
  assert (Z.of_nat (List.length life_answers) < 2 ^ 64) as Hbound by (vm_compute; reflexivity).
  apply (no_listener_lost true true true true life_calls life_answers Hbound).
Defined.

(** A paused entry is resumed after the shutdown, which only [Start] looks for:
    a listener is started that no shutdown will stop. *)
Theorem resume_after_shutdown_listens :
  exists m, alone fits (manager_client [sample_start; CPause true "profile" "task"; CShutdown true; CResume true "profile" "task"])
              (started ++ [quietly; quietly; ATask (inr sample_task)] ++ opens 8) New = Ended tt [] m /\
    closed m = true /\ is_Some (listening m !! "pf-2").
Proof. eexists. split; [vm_compute; reflexivity|]. split; [reflexivity|]. vm_compute. by eexists. Qed.

(** An entry is resumed while its deletion waits for the Gateway: the entry is
    dropped with its new listener. *)
Definition deletion : list event * system :=
  drive_all (fun _ : unit => mret tt) fits 100
    [(0%nat, started); (1%nat, [quietly; quietly]); (2%nat, [ATask (inr sample_task)] ++ opens 8); (1%nat, [quietly])]
    (mkSystem New [manager_client [sample_start]; manager_client [CDelete true "profile" "task"]; manager_client [CResume true "profile" "task"]]).

Theorem resumed_while_deleted_leaks :
  run_schedule (fun _ : unit => mret tt) fits
    (mkSystem New [manager_client [sample_start]; manager_client [CDelete true "profile" "task"]; manager_client [CResume true "profile" "task"]]) deletion.1
    = Some deletion.2 /\
  (returned deletion.2 0 && returned deletion.2 1 && returned deletion.2 2) = true /\
  active (world deletion.2) = ∅ /\ is_Some (listening (world deletion.2) !! "pf-2").
Proof. split; [apply drive_all_runs|]. split; [vm_compute; reflexivity|]. split; [vm_compute; reflexivity|]. vm_compute. by eexists. Qed.
