(* ===== verification/FileTransfer.v ===== *)
(** * File transfers of the desktop client ([client/filetransfer])

    The manager of uploads and downloads: every change of its tasks is written to
    a state file before it shows, transfers run in goroutines of their own, and a
    restart reads the file.  Its callers and goroutines interleave; a section
    under [mu] is one step, and the locks [lifecycle] and [persistMu] are explicit.
    What is written is the list of tasks as their JSON keeps them; a transfer with
    its local files is a call that reports progress.  Paths are those of Unix. *)

From S2P Require Import Prelude GoLib GoText GoSort External ConcreteEnv FileStream Threads.

Definition errs : Type := list error.
Definition is_nil (e : errs) : bool := match e with [] => true | _ => false end.
Definition failed (message : string) : errs := [NewError message].

Fixpoint error_text (e : error) : string :=
  match e with
  | NewError m | VarError m => m
  | WrapError m e => m +:+ ": " +:+ error_text e
  end.
(** [Error()] of a joined error. *)
Definition newline : string := bytes_to_string [x0a].
Definition Error_ (e : errs) : string := String.concat newline (map error_text e).

(** [fmt.Errorf] with [%w]: the text of a joined error follows the message. *)
Definition wrap (message : string) (e : errs) : errs := match e with [] => [] | x :: rest => WrapError message x :: rest end.

Definition Canceled : error := VarError "context.Canceled".
Definition is_canceled (e : errs) : bool := existsb (fun x => errors_Is x "context.Canceled") e.

(** ** Paths ([path.Clean] and, on Unix, [path/filepath]) *)

Definition slash : byte := x2f.
Definition dot : bytes := [x2e].
Definition dotdot : bytes := [x2e; x2e].

(** The elements of a rooted path after those in [done], last first. *)
Fixpoint clean_elements (elements : list bytes) (done : list bytes) : list bytes :=
  match elements with
  | [] => rev done
  | e :: rest =>
      if bool_decide (e = []) || bool_decide (e = dot) then clean_elements rest done
      else if bool_decide (e = dotdot) then clean_elements rest (tl done)
      else clean_elements rest (e :: done)
  end.

Definition join_elements (elements : list bytes) : bytes :=
  match elements with [] => [slash] | _ => List.concat (map (cons slash) elements) end.

(** [Clean] of a path that starts with a slash. *)
Definition Clean (value : string) : string := bytes_to_string (join_elements (clean_elements (split_bytes slash (string_to_bytes value)) [])).

Definition IsAbs (value : string) : bool := bool_decide (hd x00 (string_to_bytes value) = slash).

Definition control (b : byte) : bool := (Z_of_byte b <? 32) || bool_decide (b = x7f).

Definition validateManagerRemotePath (value : string) : errs :=
  if bool_decide (value = "") || (4096 <? slen value) || negb (IsAbs value) || bool_decide (value = "/")
     || existsb (fun b => bool_decide (b = x5c)) (string_to_bytes value) || negb (bool_decide (Clean value = value))
  then failed "file transfer remote path is invalid"
  else if existsb control (string_to_bytes value) then failed "file transfer remote path is invalid"
  else [].

Definition cleanLocalPath (value : string) : errs + string :=
  let value := TrimSpace value in
  if bool_decide (value = "") || existsb (fun b => bool_decide (b = x00)) (string_to_bytes value) || negb (IsAbs value)
  then inl (failed "local file transfer path is required")
  else
    let absolute := Clean value in
    if bool_decide (absolute = "/") then inl (failed "local file transfer path is invalid") else inr absolute.

(** [filepath.Join(filepath.Dir(destination), name)] for a clean destination. *)
Definition beside (destination name : string) : string :=
  bytes_to_string (join_elements (removelast (clean_elements (split_bytes slash (string_to_bytes destination)) []) ++ [string_to_bytes name])).
Definition downloadTemporaryPath (destination taskID : string) : string := beside destination (".kubeloop-download-" +:+ taskID +:+ ".part").

(** ** Data *)

Definition fileTransferDirectionUpload : string := "upload".
Definition fileTransferDirectionDownload : string := "download".
Definition fileTransferKindFile : string := "file".
Definition fileTransferKindDirectory : string := "directory".
Definition fileTransferSessionActive : string := "active".

Definition StatusQueued : string := "queued".
Definition StatusPreparing : string := "preparing".
Definition StatusRunning : string := "running".
Definition StatusCompleted : string := "completed".
Definition StatusFailed : string := "failed".
Definition StatusCancelled : string := "cancelled".
Definition StatusInterrupted : string := "interrupted".

Record Profile := mkProfile { pf_ID : string }.
Record Session := mkSession { ss_ID : string; ss_Namespace : string; ss_State : string }.

Record Request := mkRequest {
  rq_ProfileID : string;
  rq_Direction : string;
  rq_Kind : string;
  rq_Pod : string;
  rq_Container : string;
  rq_LocalPath : string;
  rq_RemotePath : string;
  rq_Overwrite : bool
}.

(** Times are nanoseconds since the zero time. *)
Record Task := mkTask {
  ID : string;
  ProfileID : string;
  SessionID : string;
  Namespace : string;
  Direction : string;
  Kind : string;
  Pod : string;
  Container : string;
  LocalPath : string;
  RemotePath : string;
  Overwrite : bool;
  Status : string;
  TotalBytes : Z;   (* uint64 *)
  DoneBytes : Z;    (* uint64 *)
  Checksum : string;
  ResumeID : string;
  TemporaryPath : string;
  Err_ : string;
  CreatedAt : Z;
  UpdatedAt : Z;
  CompletedAt : option Z
}.
#[export] Instance Task_eq_dec : EqDecision Task.
Proof. solve_decision. Defined.

(** The fields that a transfer changes. *)
Definition with_progress (status : string) (total transferred : Z) (checksum error_ : string) (updated : Z) (completed : option Z) (t : Task) : Task :=
  mkTask (ID t) (ProfileID t) (SessionID t) (Namespace t) (Direction t) (Kind t) (Pod t) (Container t) (LocalPath t) (RemotePath t) (Overwrite t)
    status total transferred checksum (ResumeID t) (TemporaryPath t) error_ (CreatedAt t) updated completed.
Definition set_Status (status : string) (t : Task) : Task := with_progress status (TotalBytes t) (DoneBytes t) (Checksum t) (Err_ t) (UpdatedAt t) (CompletedAt t) t.
Definition set_UpdatedAt (now : Z) (t : Task) : Task := with_progress (Status t) (TotalBytes t) (DoneBytes t) (Checksum t) (Err_ t) now (CompletedAt t) t.
Definition set_bytes (total transferred : Z) (checksum : string) (t : Task) : Task :=
  with_progress (Status t) total transferred checksum (Err_ t) (UpdatedAt t) (CompletedAt t) t.
Definition set_end (status error_ : string) (t : Task) : Task :=
  with_progress status (TotalBytes t) (DoneBytes t) (Checksum t) error_ (UpdatedAt t) (CompletedAt t) t.
Definition set_resumed (session : Session) (now : Z) (resumeID temporaryPath : string) (t : Task) : Task :=
  mkTask (ID t) (ProfileID t) (ss_ID session) (ss_Namespace session) (Direction t) (Kind t) (Pod t) (Container t) (LocalPath t) (RemotePath t) (Overwrite t)
    StatusQueued (TotalBytes t) (DoneBytes t) (Checksum t) resumeID temporaryPath "" (CreatedAt t) now None.
Definition set_places (resumeID temporaryPath : string) (t : Task) : Task :=
  mkTask (ID t) (ProfileID t) (SessionID t) (Namespace t) (Direction t) (Kind t) (Pod t) (Container t) (LocalPath t) (RemotePath t) (Overwrite t)
    (Status t) (TotalBytes t) (DoneBytes t) (Checksum t) resumeID temporaryPath (Err_ t) (CreatedAt t) (UpdatedAt t) (CompletedAt t).

Definition is_upload (t : Task) : bool := bool_decide (Kind t = fileTransferKindFile) && bool_decide (Direction t = fileTransferDirectionUpload).
Definition is_download (t : Task) : bool := bool_decide (Kind t = fileTransferKindFile) && bool_decide (Direction t = fileTransferDirectionDownload).
Definition in_flight (status : string) : bool :=
  bool_decide (status = StatusQueued) || bool_decide (status = StatusPreparing) || bool_decide (status = StatusRunning).
Definition known_status (status : string) : bool :=
  in_flight status || bool_decide (status = StatusCompleted) || bool_decide (status = StatusFailed)
  || bool_decide (status = StatusCancelled) || bool_decide (status = StatusInterrupted).

(** ** The state file ([manager_state.go]) *)

Definition applicationStopped : string := "application stopped before the transfer completed".

Definition normalizePersistedResume (t : Task) : errs + Task :=
  if is_upload t then
    let resumeID := if bool_decide (ResumeID t = "") then ID t else ResumeID t in
    if negb (bool_decide (resumeID = ID t)) then inl (failed "file upload Resume ID is invalid") else inr (set_places resumeID (TemporaryPath t) t)
  else if negb (bool_decide (ResumeID t = "")) then inl (failed "file transfer Task has an unexpected Resume ID") else inr t.

Definition normalizePersistedTemporaryPath (t : Task) : errs + Task :=
  if is_download t then
    let expected := downloadTemporaryPath (LocalPath t) (ID t) in
    let path := if bool_decide (TemporaryPath t = "") then expected else TemporaryPath t in
    if negb (bool_decide (path = expected)) then inl (failed "file download temporary path is invalid") else inr (set_places (ResumeID t) path t)
  else if negb (bool_decide (TemporaryPath t = "")) then inl (failed "file transfer Task has an unexpected temporary path") else inr t.

Definition normalizePersistedTask `{UuidPackage} (t : Task) : errs + Task :=
  if match uuid_Parse (ID t) with Some _ => false | None => true end || bool_decide (TrimSpace (ProfileID t) = "") || (CreatedAt t =? 0) || (UpdatedAt t =? 0)
  then inl (failed "file transfer Task identity is invalid")
  else if negb (bool_decide (Direction t = fileTransferDirectionUpload)) && negb (bool_decide (Direction t = fileTransferDirectionDownload))
  then inl (failed "file transfer Task direction is invalid")
  else if (negb (bool_decide (Kind t = fileTransferKindFile)) && negb (bool_decide (Kind t = fileTransferKindDirectory))) || bool_decide (TrimSpace (Pod t) = "")
  then inl (failed "file transfer Task target is invalid")
  else if match cleanLocalPath (LocalPath t) with inr p => negb (bool_decide (p = LocalPath t)) | inl _ => true end
          || negb (is_nil (validateManagerRemotePath (RemotePath t)))
  then inl (failed "file transfer Task path is invalid")
  else if negb (known_status (Status t)) then inl (failed "file transfer Task status is invalid")
  else match normalizePersistedResume t with inl e => inl e | inr t => normalizePersistedTemporaryPath t end.

(** A task that was under way when the application ended. *)
Definition interrupted (now : Z) (t : Task) : Task :=
  if in_flight (Status t) then with_progress StatusInterrupted (TotalBytes t) (DoneBytes t) (Checksum t) applicationStopped now (Some now) t else t.

Fixpoint load `{UuidPackage} (now : Z) (stored : list Task) (tasks : gmap string Task) : gmap string Task :=
  match stored with
  | [] => tasks
  | t :: stored =>
      match normalizePersistedTask t with
      | inl _ => load now stored tasks
      | inr t => load now stored (<[ID t := interrupted now t]> tasks)
      end
  end.

Definition persisted (tasks : gmap string Task) : list Task :=
  SortFunc (fun left right => compareString (ID left) (ID right)) (map snd (map_to_list tasks)).

(** What [json.MarshalIndent] and a decoder keep of a task: of its strings, the
    UTF-8. *)
Definition json_task (t : Task) : Task :=
  mkTask (json_utf8 (ID t)) (json_utf8 (ProfileID t)) (json_utf8 (SessionID t)) (json_utf8 (Namespace t)) (json_utf8 (Direction t)) (json_utf8 (Kind t))
    (json_utf8 (Pod t)) (json_utf8 (Container t)) (json_utf8 (LocalPath t)) (json_utf8 (RemotePath t)) (Overwrite t) (json_utf8 (Status t))
    (TotalBytes t) (DoneBytes t) (json_utf8 (Checksum t)) (json_utf8 (ResumeID t)) (json_utf8 (TemporaryPath t)) (json_utf8 (Err_ t))
    (CreatedAt t) (UpdatedAt t) (CompletedAt t).

Definition encoded (tasks : gmap string Task) : list Task := map json_task (persisted tasks).

(** A time after the year 9999 has no JSON. *)
Definition year_10000 : Z := 3652059 * 86400 * 1000000000.
Definition encodable_time (t : Z) : bool := (0 <=? t) && (t <? year_10000).
Definition encodable (t : Task) : bool :=
  encodable_time (CreatedAt t) && encodable_time (UpdatedAt t) && match CompletedAt t with Some c => encodable_time c | None => true end.

(** ** The manager ([manager.go], [manager_operations.go], [manager_run.go]) *)

(** A transfer under way, with its task and the number of the read lock under
    which it was started. *)
Record activeTransfer := mkTransfer {
  at_task : string;
  at_reader : nat;
  at_profile : Profile;
  at_session : Session;
  at_request : Request;
  resumeID : string;
  temporaryPath : string;
  cancelled : bool;
  done : bool
}.
Definition set_cancelled (a : activeTransfer) : activeTransfer :=
  mkTransfer (at_task a) (at_reader a) (at_profile a) (at_session a) (at_request a) (resumeID a) (temporaryPath a) true (done a).
Definition set_done (a : activeTransfer) : activeTransfer :=
  mkTransfer (at_task a) (at_reader a) (at_profile a) (at_session a) (at_request a) (resumeID a) (temporaryPath a) (cancelled a) true.

(** [active] and [wg] have the addresses of transfers: of those that are listed and
    of those whose goroutine has not returned.  [stopped]: the context of the
    manager has ended.  [disk] is the state file at [statePath], decoded.  [issued]: identifiers that
    exist; a UUID is not issued twice. *)
Record Manager := mkManager {
  readers : gset nat;
  next_reader : nat;
  writer : bool;
  stopped : bool;
  persistMu : bool;
  tasks : gmap string Task;
  active : gmap string nat;
  transfers : gmap nat activeTransfer;
  next : nat;
  wg : gset nat;
  disk : list Task;
  issued : gset string;
  statePath : string
}.
Definition set_lifecycle (m : Manager) (r : gset nat) (n : nat) (w : bool) : Manager :=
  mkManager r n w (stopped m) (persistMu m) (tasks m) (active m) (transfers m) (next m) (wg m) (disk m) (issued m) (statePath m).
Definition set_stopped (m : Manager) : Manager :=
  mkManager (readers m) (next_reader m) (writer m) true (persistMu m) (tasks m) (active m) (transfers m) (next m) (wg m) (disk m) (issued m) (statePath m).
Definition set_persistMu (m : Manager) (b : bool) : Manager :=
  mkManager (readers m) (next_reader m) (writer m) (stopped m) b (tasks m) (active m) (transfers m) (next m) (wg m) (disk m) (issued m) (statePath m).
Definition set_tasks (m : Manager) (ts : gmap string Task) (ac : gmap string nat) : Manager :=
  mkManager (readers m) (next_reader m) (writer m) (stopped m) (persistMu m) ts ac (transfers m) (next m) (wg m) (disk m) (issued m) (statePath m).
Definition set_transfer (m : Manager) (o : nat) (f : activeTransfer -> activeTransfer) : Manager :=
  mkManager (readers m) (next_reader m) (writer m) (stopped m) (persistMu m) (tasks m) (active m) (alter f o (transfers m)) (next m) (wg m) (disk m) (issued m) (statePath m).
Definition add_transfer (m : Manager) (a : activeTransfer) : Manager :=
  mkManager (readers m) (next_reader m) (writer m) (stopped m) (persistMu m) (tasks m) (active m) (<[next m := a]> (transfers m)) (S (next m)) (wg m) (disk m) (issued m) (statePath m).
Definition set_wg (m : Manager) (g : gset nat) : Manager :=
  mkManager (readers m) (next_reader m) (writer m) (stopped m) (persistMu m) (tasks m) (active m) (transfers m) (next m) g (disk m) (issued m) (statePath m).
Definition set_disk (m : Manager) (d : list Task) : Manager :=
  mkManager (readers m) (next_reader m) (writer m) (stopped m) (persistMu m) (tasks m) (active m) (transfers m) (next m) (wg m) d (issued m) (statePath m).
Definition set_issued (m : Manager) (i : gset string) : Manager :=
  mkManager (readers m) (next_reader m) (writer m) (stopped m) (persistMu m) (tasks m) (active m) (transfers m) (next m) (wg m) (disk m) i (statePath m).

(** [NewManager] with a state file whose decoded contents are [stored]; its first
    write has succeeded.  Without a path there is no file. *)
Definition NewManager `{UuidPackage} (path : string) (now : Z) (stored : list Task) : Manager :=
  let path := TrimSpace path in
  let file := negb (bool_decide (path = "")) in
  let ts := if file then load now (map json_task stored) ∅ else ∅ in
  mkManager ∅ 0 false false false ts ∅ ∅ 0 ∅ (if file then encoded ts else stored) (dom ts) path.

(** *** The outside: the clock, the state file and transfers *)

Inductive question :=
| Now
| NewUUID
| WriteState (l : list Task)
| OnEvent (t : Task)
| RemoveFile (path : string)
| PrepareUpload (r : Request)                     (* size and checksum of what is sent *)
| PrepareDownload (r : Request)
| SyncFile (path : string)                        (* [Sync] and [Close] *)
| HashFile (path : string)                        (* size and checksum of what is there *)
| OpenPartial (path : string)                     (* the bytes that are there *)
| Stream (a : activeTransfer) (total : Z) (checksum : string) (offset : Z) (* the progress reported, the result and its error *)
| Publish (a : activeTransfer) (r : TransferResult)
| Order (l : list nat).                           (* the order in which a map is ranged over *)

Inductive answer :=
| ATime (t : Z)
| AUUID (id : string)
| AnErr (e : errs)
| AnUpload (r : errs + Z * bytes)
| AnOffset (r : errs + Z)
| AStream (l : list ProgressStatus) (r : TransferResult) (e : errs)
| AnOrder (l : list nat).

Section manager.
Context `{UuidPackage, UnicodePackage}.

(** The clock is past the zero time and a new UUID is one. *)
Definition fits (q : question) (a : answer) : bool :=
  match q, a with
  | Now, ATime t => 0 <? t
  | NewUUID, AUUID id => match uuid_Parse id with Some _ => true | None => false end
  | (WriteState _ | OnEvent _ | RemoveFile _ | PrepareDownload _ | SyncFile _ | Publish _ _), AnErr _ => true
  | (PrepareUpload _ | HashFile _), AnUpload _ => true
  | OpenPartial _, AnOffset _ => true
  | Stream _ _ _ _, AStream _ _ _ => true
  | Order l, AnOrder l' => bool_decide (l' ≡ₚ l)
  | _, _ => false
  end.

(** [uuid.NewString] gives ASCII. *)
Definition fits_text (q : question) (a : answer) : bool :=
  fits q a && match a with AUUID id => utf8_ValidString id | _ => true end.

Notation prog := (Threads.prog (W:=Manager) (C:=nat) (Q:=question) (R:=answer)).

Definition ask_now : prog Z := a ← ask Now; mret match a with ATime t => t | _ => 1 end.
Definition ask_err (q : question) : prog errs := a ← ask q; mret match a with AnErr e => e | _ => [] end.
Definition ask_order (l : list nat) : prog (list nat) := a ← ask (Order l); mret match a with AnOrder l' => l' | _ => l end.

(** [uuid.NewString]; the thread does not go on with an identifier that exists. *)
Definition NewString : prog string :=
  a ← ask NewUUID;
  let id := match a with AUUID id => id | _ => "" end in
  Step (fun m => if bool_decide (id ∈ issued m) then None else Some (set_issued m ({[id]} ∪ issued m), Return id)).

Definition RLock : prog nat :=
  Step (fun m => if writer m then None
                 else Some (set_lifecycle m ({[next_reader m]} ∪ readers m) (S (next_reader m)) false, Return (next_reader m))).
Definition RUnlock (r : nat) : prog unit := locked (fun m => (set_lifecycle m (readers m ∖ {[r]}) (next_reader m) (writer m), tt)).
Definition Lock : prog unit :=
  Step (fun m => if writer m || negb (bool_decide (readers m = ∅)) then None else Some (set_lifecycle m ∅ (next_reader m) true, Return tt)).
Definition Unlock : prog unit := locked (fun m => (set_lifecycle m (readers m) (next_reader m) false, tt)).
Definition lock_persist : prog unit := Step (fun m => if persistMu m then None else Some (set_persistMu m true, Return tt)).
Definition unlock_persist : prog unit := locked (fun m => (set_persistMu m false, tt)).

(** [persist]: the file is replaced as a whole or not at all. *)
Definition persist (ts : gmap string Task) : prog errs :=
  path ← reading statePath;
  if bool_decide (path = "") then mret []
  else if negb (forallb encodable (persisted ts)) then mret (failed "encode file transfer state")
  else
    e ← ask_err (WriteState (encoded ts));
    if is_nil e then _ ← locked (fun m => (set_disk m (encoded ts), tt)); mret [] else mret e.

Definition cancel (o : nat) : prog unit := locked (fun m => (set_transfer m o set_cancelled, tt)).

(** The context of a transfer has ended. *)
Definition ended (m : Manager) (o : nat) : bool := stopped m || match transfers m !! o with Some a => cancelled a | None => true end.

(** *** Changes of a task *)

Definition update (taskID : string) (mutate : Task -> Task) : prog errs :=
  _ ← lock_persist;
  found ← reading (fun m => t ← tasks m !! taskID; Some (t, tasks m));
  match found with
  | None => _ ← unlock_persist; mret []
  | Some (t, nextTasks) =>
      now ← ask_now;
      let t := set_UpdatedAt now (mutate t) in
      let nextTasks := <[taskID := t]> nextTasks in
      e ← persist nextTasks;
      if is_nil e then
        _ ← locked (fun m => (set_tasks m nextTasks (active m), tt));
        _ ← unlock_persist;
        _ ← ask_err (OnEvent t);
        mret []
      else _ ← unlock_persist; mret e
  end.

Definition progress (taskID : string) (status : ProgressStatus) : prog unit :=
  _ ← update taskID (fun t => set_Status StatusRunning
        (set_bytes (if Total status =? 0 then TotalBytes t else Total status) (prg_Transferred status) (Checksum t) t));
  mret tt.

Definition finished_task (now : Z) (result : TransferResult) (transferErr : errs) (cancelled stopped : bool) (t : Task) : Task * string :=
  let transferred := if DoneBytes t <? Transferred result then Transferred result else DoneBytes t in
  let checksum := if HasChecksum result then FormatChecksum (FileStream.Checksum result) else Checksum t in
  let t := with_progress (Status t) (TotalBytes t) transferred checksum (Err_ t) now (Some now) t in
  if cancelled && stopped then (set_end StatusInterrupted applicationStopped t, "")
  else if cancelled || is_canceled transferErr then (set_end StatusCancelled "" t, TemporaryPath t)
  else if negb (is_nil transferErr) then (set_end StatusFailed (Error_ transferErr) t, "")
  else (set_end StatusCompleted "" t, "").

(** The task when its last state could not be written. *)
Definition unwritten (e : errs) (t : Task) : Task :=
  let persistErr := wrap "persist terminal file transfer state" e in
  set_end StatusFailed (Error_ (if bool_decide (Err_ t = "") then persistErr else NewError (Err_ t) :: persistErr)) t.

Definition finish (taskID : string) (result : TransferResult) (transferErr : errs) (cancelled : bool) : prog unit :=
  _ ← lock_persist;
  found ← reading (fun m => t ← tasks m !! taskID; Some (t, tasks m));
  match found with
  | None => unlock_persist
  | Some (t, nextTasks) =>
      now ← ask_now;
      stopped ← reading stopped;
      let '(t, cleanup) := finished_task now result transferErr cancelled stopped t in
      e ← persist (<[taskID := t]> nextTasks);
      let t := if is_nil e then t else unwritten e t in
      _ ← locked (fun m => (set_tasks m (<[taskID := t]> nextTasks) (delete taskID (active m)), tt));
      _ ← unlock_persist;
      _ ← (if bool_decide (cleanup = "") then mret tt else _ ← ask_err (RemoveFile cleanup); mret tt);
      _ ← ask_err (OnEvent t);
      mret tt
  end.

(** *** A transfer *)

Definition emptyResult : TransferResult := mkTransferResult x00 0 zeroChecksum false "".

Fixpoint report (taskID : string) (l : list ProgressStatus) : prog unit :=
  match l with
  | [] => mret tt
  | status :: l => _ ← progress taskID status; report taskID l
  end.

Definition stream (a : activeTransfer) (total : Z) (checksum : string) (offset : Z) : prog (TransferResult * errs) :=
  x ← ask (Stream a total checksum offset);
  match x with
  | AStream l result e => _ ← report (at_task a) l; mret (result, e)
  | _ => mret (emptyResult, [])
  end.

Definition source_changed (size : Z) (checksum : string) (previous : Task) : bool :=
  (negb (TotalBytes previous =? 0) && negb (TotalBytes previous =? size))
  || (negb (bool_decide (Checksum previous = "")) && negb (bool_decide (Checksum previous = checksum))).

(** [manager.task]: the zero task when there is none. *)
Definition noTask : Task := mkTask "" "" "" "" "" "" "" "" "" "" false "" 0 0 "" "" "" "" 0 0 None.

Definition runUpload (a : activeTransfer) : prog (TransferResult * errs) :=
  x ← ask (PrepareUpload (at_request a));
  match x with
  | AnUpload (inr (size, checksum)) =>
      previous ← reading (fun m => default noTask (tasks m !! at_task a));
      let formattedChecksum := FormatChecksum checksum in
      if source_changed size formattedChecksum previous then mret (emptyResult, failed "local upload source changed since the transfer started")
      else
        e ← update (at_task a) (fun t => set_bytes size (DoneBytes t) formattedChecksum t);
        if is_nil e then stream a size formattedChecksum 0 else mret (emptyResult, wrap "checkpoint upload metadata" e)
  | AnUpload (inl e) => mret (emptyResult, e)
  | _ => mret (emptyResult, [])
  end.

Definition publish (a : activeTransfer) (result : TransferResult) : prog (TransferResult * errs) := e ← ask_err (Publish a result); mret (result, e).

(** What was downloaded, in one or several runs, has to be what the Gateway sent. *)
Definition verifyDownload (a : activeTransfer) (result : TransferResult) : prog (TransferResult * errs) :=
  e ← ask_err (SyncFile (temporaryPath a));
  if negb (is_nil e) then mret (result, e)
  else
    x ← ask (HashFile (temporaryPath a));
    match x with
    | AnUpload (inr (size, checksum)) =>
        if negb (size =? Transferred result) || negb (HasChecksum result) || negb (bool_decide (checksum = FileStream.Checksum result))
        then _ ← ask_err (RemoveFile (temporaryPath a)); mret (result, failed "resumed local download checksum does not match the Gateway result")
        else publish a result
    | AnUpload (inl e) => _ ← ask_err (RemoveFile (temporaryPath a)); mret (result, wrap "verify resumed local download" e)
    | _ => mret (result, [])
    end.

Definition runFileDownload (a : activeTransfer) : prog (TransferResult * errs) :=
  x ← ask (OpenPartial (temporaryPath a));
  match x with
  | AnOffset (inr offset) =>
      e ← update (at_task a) (fun t => set_bytes (if TotalBytes t <? offset then offset else TotalBytes t) offset (Checksum t) t);
      if is_nil e then
        '(result, e) ← stream a 0 "" offset;
        if is_nil e then verifyDownload a result else mret (result, e)
      else mret (emptyResult, wrap "checkpoint download metadata" e)
  | AnOffset (inl e) => mret (emptyResult, e)
  | _ => mret (emptyResult, [])
  end.

(** A directory comes as an archive in a temporary file; [Publish] unpacks it. *)
Definition runDownload (a : activeTransfer) : prog (TransferResult * errs) :=
  e ← ask_err (PrepareDownload (at_request a));
  if negb (is_nil e) then mret (emptyResult, e)
  else if bool_decide (rq_Kind (at_request a) = fileTransferKindFile) then runFileDownload a
  else
    '(result, e) ← stream a 0 "" 0;
    if is_nil e then publish a result else mret (result, e).

(** The goroutine of a transfer, with the deferred [close(entry.done)] and the
    end that [wg] waits for. *)
Definition run (o : nat) : prog unit :=
  a ← Step (fun m => match transfers m !! o with Some a => Some (m, Return a) | None => Some (m, Crash) end);
  e ← update (at_task a) (set_Status StatusPreparing);
  _ ← (if negb (is_nil e) then finish (at_task a) emptyResult (wrap "checkpoint file transfer state" e) false
       else
         '(result, e) ← (if bool_decide (rq_Direction (at_request a) = fileTransferDirectionUpload) then runUpload a else runDownload a);
         c ← reading (fun m => ended m o);
         finish (at_task a) result e c);
  _ ← locked (fun m => (set_transfer m o set_done, tt));
  locked (fun m => (set_wg m (wg m ∖ {[o]}), tt)).

(** The caller holds [persistMu]. *)
Definition launchPrepared (t : Task) (o : nat) (nextTasks : gmap string Task) : prog errs :=
  let nextTasks := <[ID t := t]> nextTasks in
  e ← persist nextTasks;
  if is_nil e then
    _ ← locked (fun m => (set_tasks m nextTasks (<[ID t := o]> (active m)), tt));
    _ ← unlock_persist;
    _ ← ask_err (OnEvent t);
    _ ← locked (fun m => (set_wg m ({[o]} ∪ wg m), tt));
    Fork o (Return [])
  else _ ← unlock_persist; _ ← cancel o; mret e.

(** *** Operations *)

Definition new_transfer (t : Task) (reader : nat) (p : Profile) (s : Session) (r : Request) : prog nat :=
  locked (fun m => (add_transfer m (mkTransfer (ID t) reader p s r (ResumeID t) (TemporaryPath t) false false), next m)).

Definition trimmed (r : Request) : Request :=
  mkRequest (TrimSpace (rq_ProfileID r)) (strings_ToLower (TrimSpace (rq_Direction r))) (strings_ToLower (TrimSpace (rq_Kind r))) (TrimSpace (rq_Pod r))
    (TrimSpace (rq_Container r)) (rq_LocalPath r) (TrimSpace (rq_RemotePath r)) (rq_Overwrite r).

Definition with_local (path : string) (r : Request) : Request :=
  mkRequest (rq_ProfileID r) (rq_Direction r) (rq_Kind r) (rq_Pod r) (rq_Container r) path (rq_RemotePath r) (rq_Overwrite r).

(** The checks of [Start] on a trimmed request. *)
Definition check_request (p : Profile) (s : Session) (r : Request) : errs + Request :=
  if bool_decide (rq_ProfileID r = "") || negb (bool_decide (rq_ProfileID r = pf_ID p)) || negb (bool_decide (ss_State s = fileTransferSessionActive))
     || bool_decide (ss_ID s = "") || bool_decide (ss_Namespace s = "")
  then inl (failed "active Profile Session is required for file transfer")
  else if negb (bool_decide (rq_Direction r = fileTransferDirectionUpload)) && negb (bool_decide (rq_Direction r = fileTransferDirectionDownload))
  then inl (failed "file transfer direction must be upload or download")
  else if negb (bool_decide (rq_Kind r = fileTransferKindFile)) && negb (bool_decide (rq_Kind r = fileTransferKindDirectory))
  then inl (failed "file transfer kind must be file or directory")
  else if bool_decide (rq_Pod r = "") then inl (failed "file transfer Pod is required")
  else if negb (is_nil (validateManagerRemotePath (rq_RemotePath r))) then inl (validateManagerRemotePath (rq_RemotePath r))
  else match cleanLocalPath (rq_LocalPath r) with inl e => inl e | inr path => inr (with_local path r) end.

Definition new_task (id : string) (now : Z) (p : Profile) (s : Session) (r : Request) : Task :=
  let file := bool_decide (rq_Kind r = fileTransferKindFile) in
  let upload := bool_decide (rq_Direction r = fileTransferDirectionUpload) in
  mkTask id (pf_ID p) (ss_ID s) (ss_Namespace s) (rq_Direction r) (rq_Kind r) (rq_Pod r) (rq_Container r) (rq_LocalPath r) (rq_RemotePath r)
    (rq_Overwrite r) StatusQueued 0 0 "" (if file && upload then id else "")
    (if file && negb upload then downloadTemporaryPath (rq_LocalPath r) id else "") "" now now None.

Definition with_reader {A} (body : nat -> prog A) : prog A :=
  r ← RLock;
  result ← body r;
  _ ← RUnlock r;
  mret result.

Definition shutDown : errs := failed "file transfer manager is shut down".

Definition Start (p : Profile) (s : Session) (request : Request) : prog (errs + Task) :=
  with_reader (fun reader =>
    isStopped ← reading stopped;
    if isStopped : bool then mret (inl shutDown)
    else
      match check_request p s (trimmed request) with
      | inl e => mret (inl e)
      | inr r =>
          now ← ask_now;
          id ← NewString;
          let t := new_task id now p s r in
          o ← new_transfer t reader p s r;
          _ ← lock_persist;
          nextTasks ← reading tasks;
          e ← launchPrepared t o nextTasks;
          mret (if is_nil e then inr t else inl e)
      end).

Definition resumable (m : Manager) (profileID taskID : string) : option Task :=
  match tasks m !! taskID with
  | Some t => if negb (bool_decide (ProfileID t = profileID)) || bool_decide (is_Some (active m !! taskID))
                 || (negb (bool_decide (Status t = StatusInterrupted)) && negb (bool_decide (Status t = StatusFailed)))
              then None else Some t
  | None => None
  end.

Definition request_of (profileID : string) (t : Task) : Request :=
  mkRequest profileID (Direction t) (Kind t) (Pod t) (Container t) (LocalPath t) (RemotePath t) (Overwrite t).

Definition Resume (p : Profile) (s : Session) (profileID taskID : string) : prog (errs + Task) :=
  with_reader (fun reader =>
    isStopped ← reading stopped;
    if isStopped : bool then mret (inl shutDown)
    else
      let profileID := TrimSpace profileID in
      let taskID := TrimSpace taskID in
      if negb (negb (bool_decide (profileID = "")) && bool_decide (profileID = pf_ID p))
         || negb (bool_decide (ss_State s = fileTransferSessionActive) && negb (bool_decide (ss_ID s = "")) && negb (bool_decide (ss_Namespace s = "")))
      then mret (inl (failed "active Profile Session is required to resume file transfer"))
      else
        _ ← lock_persist;
        found ← reading (fun m => t ← resumable m profileID taskID; Some (t, tasks m));
        match found with
        | None => _ ← unlock_persist; mret (inl (failed "file transfer is not resumable"))
        | Some (t, nextTasks) =>
            now ← ask_now;
            let r := request_of profileID t in
            let resumeID := if is_upload t && bool_decide (ResumeID t = "") then ID t else ResumeID t in
            let path := if is_download t && bool_decide (TemporaryPath t = "") then downloadTemporaryPath (LocalPath t) (ID t) else TemporaryPath t in
            let t := set_resumed s now resumeID path t in
            o ← new_transfer t reader p s r;
            e ← launchPrepared t o nextTasks;
            mret (if is_nil e then inr t else inl e)
        end).

Definition Cancel (profileID taskID : string) : prog errs :=
  found ← reading (fun m =>
            match active m !! taskID, tasks m !! taskID with
            | Some o, Some t => if bool_decide (ProfileID t = profileID) then Some o else None
            | _, _ => None
            end);
  match found with
  | None => mret (failed "file transfer is not active")
  | Some o => _ ← cancel o; mret []
  end.

Fixpoint each {X} (l : list X) (body : X -> prog unit) : prog unit :=
  match l with [] => mret tt | x :: l => _ ← body x; each l body end.

(** [<-entry.done] *)
Definition wait_done (o : nat) : prog unit :=
  Step (fun m => match transfers m !! o with
                 | Some a => if done a then Some (m, Return tt) else None
                 | None => Some (m, Crash)
                 end).

Definition transfers_of (m : Manager) (profileID : string) : list nat :=
  omap (fun '(id, o) => t ← tasks m !! id; if bool_decide (ProfileID t = profileID) then Some o else None) (map_to_list (active m)).

Definition StopProfile (profileID : string) : prog errs :=
  _ ← Lock;
  found ← reading (fun m => transfers_of m profileID);
  found ← ask_order found;
  _ ← each found cancel;
  _ ← each found wait_done;
  _ ← Unlock;
  mret [].

Definition cleared (profileID : string) (m : Manager) (id : string) (t : Task) : bool :=
  (bool_decide (profileID = "") || bool_decide (ProfileID t = profileID)) && negb (bool_decide (is_Some (active m !! id))).

Definition ClearHistory (profileID : string) : prog errs :=
  _ ← lock_persist;
  found ← reading (fun m =>
            (filter (fun '(id, t) => cleared profileID m id t = false) (tasks m),
             omap (fun '(id, t) => if cleared profileID m id t && negb (bool_decide (TemporaryPath t = "")) then Some (TemporaryPath t) else None)
               (map_to_list (tasks m))));
  let '(nextTasks, removed) := found : gmap string Task * list string in
  e ← persist nextTasks;
  if is_nil e then
    _ ← locked (fun m => (set_tasks m nextTasks (active m), tt));
    _ ← each removed (fun path => _ ← ask_err (RemoveFile path); mret tt);
    _ ← unlock_persist;
    mret []
  else _ ← unlock_persist; mret e.

Definition wait_group : prog unit := Step (fun m => if bool_decide (wg m = ∅) then Some (m, Return tt) else None).

Definition Shutdown : prog errs :=
  _ ← Lock;
  _ ← locked (fun m => (set_stopped m, tt));
  _ ← wait_group;
  _ ← lock_persist;
  ts ← reading tasks;
  e ← persist ts;
  _ ← unlock_persist;
  _ ← Unlock;
  mret e.

Definition List_ (m : Manager) (profileID : string) : list Task :=
  SortFunc (fun left right => if CreatedAt right <? CreatedAt left then -1 else if CreatedAt left <? CreatedAt right then 1 else compareString (ID left) (ID right))
    (filter (fun t => bool_decide (profileID = "") || bool_decide (ProfileID t = profileID) = true) (map snd (map_to_list (tasks m)))).

(** *** Clients *)

Inductive call :=
| CStart (p : Profile) (s : Session) (r : Request)
| CResume (p : Profile) (s : Session) (profileID taskID : string)
| CCancel (profileID taskID : string)
| CStopProfile (profileID : string)
| CClearHistory (profileID : string)
| CShutdown.

Definition ignore {A} (p : prog A) : prog unit := _ ← p; mret tt.

Definition perform (c : call) : prog unit :=
  match c with
  | CStart p s r => ignore (Start p s r)
  | CResume p s profileID taskID => ignore (Resume p s profileID taskID)
  | CCancel profileID taskID => ignore (Cancel profileID taskID)
  | CStopProfile profileID => ignore (StopProfile profileID)
  | CClearHistory profileID => ignore (ClearHistory profileID)
  | CShutdown => ignore Shutdown
  end.

Fixpoint client (calls : list call) : prog unit :=
  match calls with
  | [] => mret tt
  | c :: calls => _ ← perform c; client calls
  end.

(** A manager that has read [stored], with its clients. *)
Definition start (path : string) (now : Z) (stored : list Task) (clients : list (list call)) : system :=
  mkSystem (NewManager path now stored) (map client clients).
End manager.

(** ** Tasks in the state file *)

Section normalized.
Context `{UuidPackage}.

(** The same transfer, in another state of its progress. *)
Definition same_task (t d : Task) : Prop :=
  t = with_progress (Status t) (TotalBytes t) (DoneBytes t) (Checksum t) (Err_ t) (UpdatedAt t) (CompletedAt t) d.

Lemma same_task_refl t : same_task t t.
Proof. by destruct t. Qed.

Lemma same_task_progress s a b c e u x t d : same_task t d -> same_task (with_progress s a b c e u x t) d.
Proof. unfold same_task. intros ->. done. Qed.

(** A restart keeps the task as it is. *)
Definition task_ok (t : Task) : Prop := normalizePersistedTask t = inr t.

Definition base (t : Task) : bool :=
  negb (match uuid_Parse (ID t) with Some _ => false | None => true end || bool_decide (TrimSpace (ProfileID t) = "") || (CreatedAt t =? 0))
  && negb (negb (bool_decide (Direction t = fileTransferDirectionUpload)) && negb (bool_decide (Direction t = fileTransferDirectionDownload)))
  && negb ((negb (bool_decide (Kind t = fileTransferKindFile)) && negb (bool_decide (Kind t = fileTransferKindDirectory))) || bool_decide (TrimSpace (Pod t) = ""))
  && negb (match cleanLocalPath (LocalPath t) with inr p => negb (bool_decide (p = LocalPath t)) | inl _ => true end
           || negb (is_nil (validateManagerRemotePath (RemotePath t)))).

Definition places (t : Task) : errs + Task :=
  match normalizePersistedResume t with inl e => inl e | inr t => normalizePersistedTemporaryPath t end.

Definition checked (t : Task) : bool := base t && negb (UpdatedAt t =? 0) && known_status (Status t).

Lemma normalize_checked t : checked t = true -> normalizePersistedTask t = places t.
Proof.
  unfold checked, base, normalizePersistedTask, places.
  destruct (match uuid_Parse (ID t) with Some _ => false | None => true end || bool_decide (TrimSpace (ProfileID t) = "") || (CreatedAt t =? 0)); [done|].
  destruct (UpdatedAt t =? 0); [by rewrite andb_false_r|]. cbn [orb negb andb].
  destruct (negb (bool_decide (Direction t = _)) && _); [done|]. cbn [negb andb].
  destruct ((negb (bool_decide (Kind t = _)) && _) || _); [done|]. cbn [negb andb].
  destruct (_ || negb (is_nil _)); [done|]. cbn [negb andb]. by intros ->.
Qed.

Lemma normalize_inr t t' : normalizePersistedTask t = inr t' -> checked t = true.
Proof.
  unfold checked, base, normalizePersistedTask.
  destruct (match uuid_Parse (ID t) with Some _ => false | None => true end || bool_decide (TrimSpace (ProfileID t) = "") || (CreatedAt t =? 0)); [done|].
  destruct (UpdatedAt t =? 0); [done|]. cbn [orb negb andb].
  destruct (negb (bool_decide (Direction t = _)) && _); [done|]. cbn [negb andb].
  destruct ((negb (bool_decide (Kind t = _)) && _) || _); [done|]. cbn [negb andb].
  destruct (_ || negb (is_nil _)); [done|]. cbn [negb andb]. by destruct (known_status (Status t)).
Qed.

Lemma task_ok_iff t : task_ok t <-> checked t = true /\ places t = inr t.
Proof.
  unfold task_ok. split.
  - intros Hn. pose proof (normalize_inr t t Hn) as Hc. by rewrite <- (normalize_checked t Hc).
  - intros [Hc Hp]. by rewrite (normalize_checked t Hc).
Qed.

Lemma places_progress s a b c e u x t :
  places (with_progress s a b c e u x t) = match places t with inl er => inl er | inr t => inr (with_progress s a b c e u x t) end.
Proof.
  unfold places, normalizePersistedResume. change (is_upload (with_progress s a b c e u x t)) with (is_upload t).
  change (ResumeID (with_progress s a b c e u x t)) with (ResumeID t). change (ID (with_progress s a b c e u x t)) with (ID t).
  assert (forall r p t1, set_places r p (with_progress s a b c e u x t1) = with_progress s a b c e u x (set_places r p t1)) as Hset by done.
  assert (forall t1, normalizePersistedTemporaryPath (with_progress s a b c e u x t1) =
    match normalizePersistedTemporaryPath t1 with inl er => inl er | inr t => inr (with_progress s a b c e u x t) end) as Htemp.
  { intros t1. unfold normalizePersistedTemporaryPath. change (is_download (with_progress s a b c e u x t1)) with (is_download t1).
    cbn [LocalPath ID TemporaryPath ResumeID with_progress]. destruct (is_download t1); [by destruct (negb _)|by destruct (negb _)]. }
  destruct (is_upload t).
  - destruct (negb _); [done|]. cbn [TemporaryPath with_progress]. rewrite Hset. apply Htemp.
  - destruct (negb _); [done|]. apply Htemp.
Qed.

Lemma task_ok_progress s a b c e u x t : task_ok t -> known_status s = true -> u <> 0 -> task_ok (with_progress s a b c e u x t).
Proof.
  rewrite !task_ok_iff. intros [Hc Hp] Hs Hu. split.
  - unfold checked in *. apply andb_true_iff in Hc as [[Hb _]%andb_true_iff _]. change (base (with_progress s a b c e u x t)) with (base t).
    rewrite Hb. cbn [UpdatedAt with_progress Status]. rewrite Hs. by destruct (Z.eqb_spec u 0).
  - by rewrite places_progress, Hp.
Qed.

Lemma places_eq t : places t =
  if is_upload t then
    (if bool_decide (ResumeID t = "") || bool_decide (ResumeID t = ID t) then
       if is_download t then
         (if bool_decide (TemporaryPath t = "") || bool_decide (TemporaryPath t = downloadTemporaryPath (LocalPath t) (ID t))
          then inr (set_places (ID t) (downloadTemporaryPath (LocalPath t) (ID t)) t) else inl (failed "file download temporary path is invalid"))
       else if bool_decide (TemporaryPath t = "") then inr (set_places (ID t) "" t) else inl (failed "file transfer Task has an unexpected temporary path")
     else inl (failed "file upload Resume ID is invalid"))
  else if bool_decide (ResumeID t = "") then
    (if is_download t then
       (if bool_decide (TemporaryPath t = "") || bool_decide (TemporaryPath t = downloadTemporaryPath (LocalPath t) (ID t))
        then inr (set_places "" (downloadTemporaryPath (LocalPath t) (ID t)) t) else inl (failed "file download temporary path is invalid"))
     else if bool_decide (TemporaryPath t = "") then inr (set_places "" "" t) else inl (failed "file transfer Task has an unexpected temporary path"))
  else inl (failed "file transfer Task has an unexpected Resume ID").
Proof.
  assert (forall r p, is_download (set_places r p t) = is_download t) as Hd by done.
  assert (forall t1 r, is_download t1 = is_download t -> LocalPath t1 = LocalPath t -> ID t1 = ID t -> TemporaryPath t1 = TemporaryPath t -> ResumeID t1 = r ->
    t1 = set_places r (TemporaryPath t) t ->
    normalizePersistedTemporaryPath t1 =
      if is_download t then
         (if bool_decide (TemporaryPath t = "") || bool_decide (TemporaryPath t = downloadTemporaryPath (LocalPath t) (ID t))
          then inr (set_places r (downloadTemporaryPath (LocalPath t) (ID t)) t) else inl (failed "file download temporary path is invalid"))
       else if bool_decide (TemporaryPath t = "") then inr (set_places r "" t) else inl (failed "file transfer Task has an unexpected temporary path")) as Htemp.
  { intros t1 r E1 E2 E3 E4 E5 E6. unfold normalizePersistedTemporaryPath. rewrite E1, E2, E3, E4, E5. destruct (is_download t).
    - destruct (bool_decide_reflect (TemporaryPath t = "")) as [He|He]; cbn [orb].
      + rewrite bool_decide_eq_true_2 by done. cbn [negb]. by rewrite E6.
      + destruct (bool_decide_reflect (TemporaryPath t = downloadTemporaryPath (LocalPath t) (ID t))) as [Hp|Hp]; cbn [negb]; [|done]. rewrite E6, Hp. done.
    - destruct (bool_decide_reflect (TemporaryPath t = "")) as [He|He]; cbn [negb]; [|done]. rewrite E6, He. done. }
  unfold places, normalizePersistedResume. destruct (is_upload t).
  - destruct (bool_decide_reflect (ResumeID t = "")) as [He|He]; cbn [orb].
    + rewrite bool_decide_eq_true_2 by done. cbn [negb]. by apply Htemp.
    + destruct (bool_decide_reflect (ResumeID t = ID t)) as [Hr|Hr]; cbn [negb]; [|done]. apply Htemp; try done. by rewrite Hr.
  - destruct (bool_decide_reflect (ResumeID t = "")) as [He|He]; cbn [negb]; [|done]. apply Htemp; try done. destruct t; cbn in *. by rewrite He.
Qed.

Lemma places_inr t t' : places t = inr t' ->
  t' = set_places (if is_upload t then ID t else "") (if is_download t then downloadTemporaryPath (LocalPath t) (ID t) else "") t.
Proof.
  rewrite (places_eq t). intros Hp.
  destruct (is_upload t), (is_download t); repeat (destruct (_ || _); try done); repeat (destruct (bool_decide _); try done); by injection Hp as <-.
Qed.

Lemma places_idem t t' : places t = inr t' -> checked t' = checked t /\ ID t' = ID t /\ places t' = inr t'.
Proof.
  intros ->%places_inr. set (r := if is_upload t then _ else _). set (p := if is_download t then _ else _).
  split; [done|]. split; [done|]. rewrite places_eq. change (is_upload (set_places r p t)) with (is_upload t). change (is_download (set_places r p t)) with (is_download t).
  cbn [ResumeID TemporaryPath ID LocalPath set_places]. unfold r, p.
  destruct (is_upload t), (is_download t); 
    rewrite ?(bool_decide_eq_true_2 (ID t = ID t)), ?(bool_decide_eq_true_2 (downloadTemporaryPath (LocalPath t) (ID t) = downloadTemporaryPath (LocalPath t) (ID t))),
      ?(bool_decide_eq_true_2 (("" : string) = "")), ?orb_true_r by done; done.
Qed.

Lemma normalize_ok t t' : normalizePersistedTask t = inr t' -> task_ok t'.
Proof.
  intros Hn. pose proof (normalize_inr t t' Hn) as Hc. rewrite (normalize_checked t Hc) in Hn.
  destruct (places_idem t t' Hn) as (Hc' & _ & Hp'). apply task_ok_iff. by rewrite Hc'.
Qed.

Lemma task_ok_places t : task_ok t ->
  ResumeID t = (if is_upload t then ID t else "") /\ TemporaryPath t = (if is_download t then downloadTemporaryPath (LocalPath t) (ID t) else "").
Proof.
  intros [_ Hp]%task_ok_iff. rewrite places_eq in Hp.
  destruct (is_upload t), (is_download t); repeat (destruct (_ || _); try done); repeat (destruct (bool_decide _); try done); injection Hp as Hp;
    (split; [apply (f_equal ResumeID) in Hp; by rewrite <- Hp|apply (f_equal TemporaryPath) in Hp; by rewrite <- Hp]).
Qed.

Lemma checked_parts t : checked t = true <-> base t = true /\ UpdatedAt t <> 0 /\ known_status (Status t) = true.
Proof.
  unfold checked. rewrite !andb_true_iff, negb_true_iff, Z.eqb_neq. tauto.
Qed.

Lemma task_ok_status t : task_ok t -> known_status (Status t) = true /\ UpdatedAt t <> 0.
Proof. intros [(_ & ? & ?)%checked_parts _]%task_ok_iff. done. Qed.

(** ** The tasks of a restart *)

Lemma interrupted_ok now t : task_ok t -> now <> 0 -> task_ok (interrupted now t).
Proof. intros Ht Hn. unfold interrupted. destruct (in_flight (Status t)); [|done]. by apply task_ok_progress. Qed.

Lemma interrupted_ID now t : ID (interrupted now t) = ID t.
Proof. unfold interrupted. by destruct (in_flight _). Qed.

Lemma interrupted_rests now t : in_flight (Status (interrupted now t)) = false.
Proof. unfold interrupted. by destruct (in_flight (Status t)) eqn:E. Qed.
End normalized.

(** ** What JSON keeps of a task *)

Section text.
Context `{UuidPackage}.

#[local] Arguments utf8_ValidString : simpl never.

(** All its strings but the text of its error are UTF-8. *)
Definition clean (t : Task) : Prop :=
  Forall (fun s => utf8_ValidString s = true)
    [ID t; ProfileID t; SessionID t; Namespace t; Direction t; Kind t; Pod t; Container t; LocalPath t; RemotePath t; Status t; Checksum t; ResumeID t; TemporaryPath t].

(** A restart keeps the task but for the text of its error. *)
Definition good (t : Task) : Prop := task_ok t /\ clean t.

Definition json_error (t : Task) : Task := set_end (Status t) (json_utf8 (Err_ t)) t.

Lemma clean_json t : clean t -> json_task t = json_error t.
Proof.
  unfold clean. rewrite !Forall_cons. intros (H1 & H2 & H3 & H4 & H5 & H6 & H7 & H8 & H9 & H10 & H11 & H12 & H13 & H14 & _).
  unfold json_task. by rewrite !json_utf8_text by done.
Qed.

Lemma json_clean t : clean (json_task t).
Proof. unfold clean. repeat (apply Forall_cons; split; [apply json_utf8_valid|]). by constructor. Qed.

Lemma json_idem t : json_task (json_task t) = json_task t.
Proof. unfold json_task. cbn. by rewrite !(json_utf8_text (json_utf8 _)) by apply json_utf8_valid. Qed.

Lemma clean_progress s a b c e u x t : clean t -> utf8_ValidString s = true -> utf8_ValidString c = true -> clean (with_progress s a b c e u x t).
Proof. unfold clean. cbn. rewrite !Forall_cons. tauto. Qed.

Lemma good_progress s a b c e u x t :
  good t -> known_status s = true -> u <> 0 -> utf8_ValidString c = true -> good (with_progress s a b c e u x t).
Proof.
  intros [Ho Hc] Hs Hu Ht. split; [by apply task_ok_progress|]. apply clean_progress; [done| |done]. unfold known_status, in_flight in Hs.
  rewrite !orb_true_iff, !bool_decide_eq_true in Hs. by destruct Hs as [[[[[[->| ->]| ->]| ->]| ->]| ->]| ->].
Qed.

Lemma clean_checksum t : clean t -> utf8_ValidString (Checksum t) = true.
Proof. unfold clean. rewrite !Forall_cons. tauto. Qed.

Lemma good_json t : good t -> good (json_task t) /\ json_task t = json_error t /\ ID (json_task t) = ID t.
Proof.
  intros Hg. pose proof Hg as [Ho Hc]. rewrite (clean_json t Hc). split; [|done]. destruct (task_ok_status t Ho).
  apply good_progress; [done|done|done|by apply clean_checksum].
Qed.

Lemma checksum_ascii l : utf8_ValidString (FormatChecksum l) = true.
Proof. apply utf8_valid_ascii. unfold all_bytes, FormatChecksum, hex_EncodeToString. rewrite string_to_of_bytes. apply hex_encode_ascii. Qed.

(** *** Paths *)

Lemma clean_elements_text elements : forall done_,
  Forall (fun e => utf8_valid_bytes e = true) elements -> Forall (fun e => utf8_valid_bytes e = true) done_ ->
  Forall (fun e => utf8_valid_bytes e = true) (clean_elements elements done_).
Proof.
  induction elements as [|e elements IH]; intros done_ He Hd; cbn [clean_elements]; [by apply Forall_rev|].
  apply Forall_cons in He as [He Hes]. destruct (_ || _); [by apply IH|]. destruct (bool_decide _); apply IH; try done; [|by constructor].
  destruct done_; [done|]. by apply Forall_cons in Hd as [_ ?].
Qed.

Lemma join_elements_text elements : Forall (fun e => utf8_valid_bytes e = true) elements -> utf8_valid_bytes (join_elements elements) = true.
Proof.
  intros He. assert (utf8_valid_bytes (List.concat (map (cons slash) elements)) = true) as Hc; [|by destruct elements].
  induction He as [|e elements He _ IH]; [done|]. cbn [map List.concat app]. change (utf8_valid_bytes (e ++ List.concat (map (cons slash) elements)) = true).
  by rewrite utf8_valid_app.
Qed.

Lemma beside_text destination name :
  utf8_ValidString destination = true -> utf8_ValidString name = true -> utf8_ValidString (beside destination name) = true.
Proof.
  unfold utf8_ValidString, beside. intros Hd Hn. rewrite string_to_of_bytes. apply join_elements_text, Forall_app. split; [|by constructor].
  apply Forall_forall. intros e He. assert (Forall (fun e => utf8_valid_bytes e = true) (clean_elements (split_bytes slash (string_to_bytes destination)) [])) as Hall
    by (apply clean_elements_text; [by apply utf8_split|constructor]).
  rewrite Forall_forall in Hall. apply Hall. revert He. generalize (clean_elements (split_bytes slash (string_to_bytes destination)) []). intros l.
  rewrite !list_elem_of_In. induction l as [|x l IH]; cbn; [done|]. destruct l as [|y l]; [done|]. intros [->|Hin]; [by left|right; by apply IH].
Qed.

Lemma temporary_text path id : utf8_ValidString path = true -> utf8_ValidString id = true -> utf8_ValidString (downloadTemporaryPath path id) = true.
Proof.
  intros Hp Hi. apply beside_text; [done|]. unfold utf8_ValidString in *. rewrite !string_to_bytes_app.
  rewrite utf8_valid_app by done. by rewrite utf8_valid_app.
Qed.

Lemma clean_places t : clean t -> clean (set_places (if is_upload t then ID t else "") (if is_download t then downloadTemporaryPath (LocalPath t) (ID t) else "") t).
Proof.
  unfold clean. cbn. rewrite !Forall_cons. intros (H1 & H2 & H3 & H4 & H5 & H6 & H7 & H8 & H9 & H10 & H11 & H12 & H13 & H14 & _).
  split_and!; try done; [by destruct (is_upload t)|]. destruct (is_download t); [by apply temporary_text|done].
Qed.

Lemma normalize_good t t' : clean t -> normalizePersistedTask t = inr t' -> good t'.
Proof.
  intros Hc Hn. split; [by eapply normalize_ok|]. pose proof (normalize_inr t t' Hn) as Hk. rewrite (normalize_checked t Hk) in Hn.
  apply places_inr in Hn as ->. by apply clean_places.
Qed.

Lemma interrupted_good now t : good t -> now <> 0 -> good (interrupted now t).
Proof.
  intros Ht Hn. unfold interrupted. destruct (in_flight (Status t)); [|done]. apply good_progress; [done|done|done|by apply clean_checksum, Ht].
Qed.
End text.

Section loading.
Context `{UuidPackage}.

Definition keyed (ts : gmap string Task) : Prop := forall id t, ts !! id = Some t -> ID t = id.

(** Whatever the file holds, what comes back is well formed and at rest. *)
Lemma load_rests now stored : now <> 0 -> Forall clean stored -> forall ts,
  (forall id t, ts !! id = Some t -> ID t = id /\ good t /\ in_flight (Status t) = false) ->
  forall id t, load now stored ts !! id = Some t -> ID t = id /\ good t /\ in_flight (Status t) = false.
Proof.
  intros Hnow. induction stored as [|x stored IH]; intros Hall ts Hts; cbn [load]; [done|]. apply Forall_cons in Hall as [Hx Hall].
  destruct (normalizePersistedTask x) as [e|x'] eqn:E; [by apply IH|]. apply IH; [done|]. intros id t [[<- <-]|[_ Ht]]%lookup_insert_Some; [|by apply Hts].
  split; [apply interrupted_ID|]. split; [|apply interrupted_rests]. apply interrupted_good; [|done]. by eapply normalize_good.
Qed.

Lemma load_ok now stored : Forall task_ok stored -> NoDup (map ID stored) -> forall ts,
  (forall t, t ∈ stored -> load now stored ts !! ID t = Some (interrupted now t)) /\
  (forall id, id ∉ map ID stored -> load now stored ts !! id = ts !! id).
Proof.
  induction stored as [|x stored IH]; intros Hok Hnd ts; cbn [load]; [split; [intros t Ht; by apply elem_of_nil in Ht|done]|].
  apply Forall_cons in Hok as [Hx Hok]. apply NoDup_cons in Hnd as [Hfresh Hnd]. rewrite Hx.
  destruct (IH Hok Hnd (<[ID x := interrupted now x]> ts)) as [H1 H2]. split.
  - intros t [->|Ht]%elem_of_cons; [|by apply H1]. rewrite H2 by done. apply lookup_insert_eq.
  - intros id Hid. rewrite H2 by (intros Hin; apply Hid; by right). apply lookup_insert_ne. intros <-. apply Hid. left.
Qed.

Lemma elem_of_persisted ts t : t ∈ persisted ts <-> exists id, ts !! id = Some t.
Proof.
  unfold persisted. rewrite (SortFunc_perm _ _), list_elem_of_fmap. split.
  - intros ([id t'] & -> & Hin). exists id. by apply elem_of_map_to_list.
  - intros [id Ht]. exists (id, t). split; [done|]. by apply elem_of_map_to_list.
Qed.

Lemma persisted_IDs ts : keyed ts -> NoDup (map ID (persisted ts)) /\ forall id, id ∈ map ID (persisted ts) <-> is_Some (ts !! id).
Proof.
  intros Hk.
  assert (map ID (persisted ts) ≡ₚ map fst (map_to_list ts)) as Hp.
  { unfold persisted. rewrite (SortFunc_perm _ _). rewrite map_map. rewrite (map_ext_in (fun x => ID (snd x)) fst); [done|]. intros [id t] Hin%list_elem_of_In.
    apply elem_of_map_to_list in Hin. cbn. by apply Hk. }
  split; [rewrite Hp; apply NoDup_fst_map_to_list|]. intros id. rewrite Hp, list_elem_of_fmap. split.
  - intros ([id' t] & -> & Hin%elem_of_map_to_list). by exists t.
  - intros [t Ht]. exists (id, t). split; [done|]. by apply elem_of_map_to_list.
Qed.

Lemma encoded_again ts : map json_task (encoded ts) = encoded ts.
Proof. unfold encoded. rewrite map_map. apply map_ext. apply json_idem. Qed.

(** A restart gives back what was written, with the transfers under way interrupted. *)
Lemma load_persisted now ts : keyed ts -> (forall id t, ts !! id = Some t -> good t) ->
  forall id, load now (encoded ts) ∅ !! id = (fun t => interrupted now (json_error t)) <$> ts !! id.
Proof.
  intros Hk Hgood id. destruct (persisted_IDs ts Hk) as [Hnd Hids].
  assert (forall t, t ∈ persisted ts -> good t) as Hall by (intros t [id' Ht]%elem_of_persisted; by eapply Hgood).
  assert (map ID (encoded ts) = map ID (persisted ts)) as HID.
  { unfold encoded. rewrite map_map. apply map_ext_in. intros t Ht. by apply good_json, Hall, list_elem_of_In. }
  destruct (load_ok now (encoded ts)) with (ts := (∅ : gmap string Task)) as [H1 H2]; [|by rewrite HID|].
  { apply Forall_forall. intros t Ht. unfold encoded in Ht. apply list_elem_of_fmap in Ht as (t0 & -> & Ht0). by apply good_json, Hall. }
  destruct (ts !! id) as [t|] eqn:Ht; cbn.
  - destruct (good_json t (Hgood id t Ht)) as (_ & <- & Hid). rewrite <- (Hk id t Ht), <- Hid. apply H1. unfold encoded. apply list_elem_of_fmap. exists t.
    split; [done|]. apply elem_of_persisted. by exists id.
  - rewrite H2, lookup_empty; [done|]. rewrite HID, Hids, Ht. by intros [].
Qed.
End loading.

(** ** What holds between steps *)

Section invariant.
Context `{UuidPackage}.
(** With [strict], requests are such that a restart knows their tasks again. *)
Context (strict : bool) (path : string).

(** What the file says of a task: the task, or an earlier state of it when its end
    could not be written. *)
Definition written (t d : Task) : Prop := d = t \/ (Status t = StatusFailed /\ in_flight (Status d) = true /\ same_task t d).

Definition disk_ok (m : Manager) : Prop :=
  path <> "" -> exists stored, disk m = encoded stored /\ (forall id, is_Some (stored !! id) <-> is_Some (tasks m !! id)) /\
    forall id t d, tasks m !! id = Some t -> stored !! id = Some d -> written t d /\ (strict = true -> good d) /\ ID d = id.

Record inv (m : Manager) : Prop := {
  v_key : keyed (tasks m);
  v_issued : forall id, is_Some (tasks m !! id) -> id ∈ issued m;
  v_flight : forall id t, tasks m !! id = Some t -> in_flight (Status t) = true <-> is_Some (active m !! id);
  v_active : forall id o, active m !! id = Some o -> is_Some (tasks m !! id) /\
    exists a, transfers m !! o = Some a /\ at_task a = id /\ (o ∈ wg m \/ at_reader a ∈ readers m);
  v_fresh : forall o a, transfers m !! o = Some a -> (o < next m)%nat /\ (at_reader a < next_reader m)%nat;
  v_readers : forall r, r ∈ readers m -> (r < next_reader m)%nat;
  v_wg : forall o, o ∈ wg m -> is_Some (transfers m !! o);
  v_lock : writer m = true -> readers m = ∅;
  v_ok : strict = true -> forall id t, tasks m !! id = Some t -> good t;
  v_disk : persistMu m = false -> disk_ok m;
  v_path : statePath m = path
}.

Inductive token := Persisting | Reading (r : nat) | Writing | Owning (o : nat) | Naming (id : string).
#[export] Instance token_eq_dec : EqDecision token.
Proof. solve_decision. Defined.
#[export] Instance token_countable : Countable token.
Proof.
  apply (inj_countable' (fun t => match t with Persisting => inl None | Writing => inl (Some (inl tt)) | Reading r => inl (Some (inr r))
                                  | Owning o => inr (inl o) | Naming id => inr (inr id) end)
    (fun x => match x with inl None => Persisting | inl (Some (inl _)) => Writing | inl (Some (inr r)) => Reading r
              | inr (inl o) => Owning o | inr (inr id) => Naming id end)).
  by intros [].
Defined.

Definition holds (m : Manager) (t : token) : Prop :=
  match t with
  | Persisting => persistMu m = true
  | Reading r => r ∈ readers m
  | Writing => writer m = true
  | Owning o => (o < next m)%nat
  | Naming id => id ∈ issued m
  end.

Definition same_transfer (a a' : activeTransfer) : Prop :=
  at_task a' = at_task a /\ at_reader a' = at_reader a /\ at_request a' = at_request a /\ temporaryPath a' = temporaryPath a.

(** A change that respects the tokens of [P]. *)
Record rel (P : token -> Prop) (m m' : Manager) : Prop := {
  r_next : (next m <= next m')%nat;
  r_transfer : forall o a, transfers m !! o = Some a -> exists a', transfers m' !! o = Some a' /\ same_transfer a a';
  r_stopped : stopped m = true -> stopped m' = true;
  r_settled : stopped m = true -> active m' ⊆ active m /\ wg m' ⊆ wg m;
  r_persist : P Persisting -> tasks m' = tasks m /\ active m' = active m /\ disk m' = disk m;
  r_owner : forall o, P (Owning o) -> (forall id, active m' !! id = Some o <-> active m !! id = Some o) /\ (o ∈ wg m' <-> o ∈ wg m);
  r_reader : forall r, P (Reading r) -> r ∈ readers m -> r ∈ readers m' /\ stopped m' = stopped m /\
    (forall o a, transfers m' !! o = Some a -> at_reader a = r -> is_Some (transfers m !! o)) /\
    (forall o a id, transfers m !! o = Some a -> at_reader a = r -> active m' !! id = Some o -> active m !! id = Some o /\ (o ∈ wg m -> o ∈ wg m'));
  r_writer : P Writing -> writer m = true -> writer m' = true /\ wg m' ⊆ wg m;
  r_name : forall id, P (Naming id) -> tasks m !! id = None -> tasks m' !! id = None
}.

Lemma same_transfer_trans a b c : same_transfer a b -> same_transfer b c -> same_transfer a c.
Proof. unfold same_transfer. intros (-> & -> & -> & ->) (-> & -> & -> & ->). done. Qed.

Lemma rel_refl P m : rel P m m.
Proof.
  split; try done.
  intros o a Ha. by exists a.
Qed.

Lemma rel_mono (P Q : token -> Prop) m m' : (forall t, Q t -> P t) -> rel P m m' -> rel Q m m'.
Proof. intros HPQ []. split; eauto. Qed.

Lemma rel_trans P m1 m2 m3 : rel P m1 m2 -> rel P m2 m3 -> rel P m1 m3.
Proof.
  intros [A1 A2 A3 A4 A5 A6 A7 A8 A9] [B1 B2 B3 B4 B5 B6 B7 B8 B9]. split.
  - lia.
  - intros o a Ha. destruct (A2 o a Ha) as (a2 & Ha2 & S2). destruct (B2 o a2 Ha2) as (a3 & Ha3 & S3). exists a3. split; [done|by eapply same_transfer_trans].
  - auto.
  - intros Hs. destruct (A4 Hs) as [C1 C2], (B4 (A3 Hs)) as [D1 D2]. split; [by transitivity (active m2)|set_solver].
  - intros HP. destruct (B5 HP) as (-> & -> & ->). by apply A5.
  - intros o HP. destruct (A6 o HP) as [H1 H2], (B6 o HP) as [H3 H4]. split; [intros id; by rewrite H3, H1|by rewrite H4, H2].
  - intros r HP Hr. destruct (A7 r HP Hr) as (Hr2 & Hs2 & N2 & C2). destruct (B7 r HP Hr2) as (Hr3 & Hs3 & N3 & C3).
    split; [done|]. split; [congruence|]. split.
    + intros o a Ho Hra. destruct (N3 o a Ho Hra) as [a2 Ha2]. apply (N2 o a2 Ha2).
      destruct (B2 o a2 Ha2) as (a' & Ha' & (_ & Hreader & _)). rewrite Ho in Ha'. injection Ha' as <-. congruence.
    + intros o a id Ho Hra Hact. destruct (A2 o a Ho) as (a2 & Ha2 & (_ & Hreader & _)).
      destruct (C3 o a2 id Ha2) as [Hact2 Hw3]; [congruence|done|]. destruct (C2 o a id Ho Hra Hact2) as [Hact1 Hw2]. auto.
  - intros HP Hw. destruct (A8 HP Hw) as [Hw2 S2]. destruct (B8 HP Hw2) as [Hw3 S3]. split; [done|]. set_solver.
  - intros id HP Hn. by apply B9, A9.
Qed.

Definition others (ts : gset token) : Manager -> Manager -> Prop := rel (fun t => t ∈ ts).
Definition keeps (ts : gset token) : Manager -> Manager -> Prop := rel (fun t => t ∉ ts).
Definition evolves : Manager -> Manager -> Prop := rel (fun _ => False).

Lemma rel_evolves P m m' : rel P m m' -> evolves m m'.
Proof. by apply rel_mono. Qed.

(** *** Steps *)

(** A step that respects the tokens but those of [ts]. *)
Definition change (ts : gset token) (m m' : Manager) : Prop := inv m' /\ keeps ts m m'.

Lemma step_refl ts m : inv m -> change ts m m.
Proof. intros Hi. split; [done|apply rel_refl]. Qed.

Lemma change_persistMu ts m b : inv m -> (b = false -> disk_ok m) -> change ts m (set_persistMu m b).
Proof.
  intros [] Hd. split; [split; cbn; try done; intros ->; exact (Hd eq_refl)|]. split; try done. intros o a Ha. by exists a.
Qed.

Lemma change_disk ts m d : inv m -> persistMu m = true -> Persisting ∈ ts -> change ts m (set_disk m d).
Proof.
  intros [] Hp Ht. split; [split; cbn; try done; by rewrite Hp|]. split; try done. intros o a Ha. by exists a.
Qed.

Lemma change_issued ts m id : inv m -> change ts m (set_issued m ({[id]} ∪ issued m)).
Proof.
  intros []. split; [split; cbn; try done; intros; set_solver|]. split; try done. intros o a Ha. by exists a.
Qed.

Lemma change_stopped ts m : inv m -> readers m = ∅ -> change ts m (set_stopped m).
Proof.
  intros [] Hr. split; [by split|]. split; try done.
  - intros o a Ha. by exists a.
  - intros r _ Hin. set_solver.
Qed.

Lemma change_RLock ts m : inv m -> writer m = false -> change ts m (set_lifecycle m ({[next_reader m]} ∪ readers m) (S (next_reader m)) false).
Proof.
  intros [K1 K2 K3 K4 K5 K6 K7 K8 K9 K10 K11] Hw. split.
  - split; cbn; try done.
    + intros id o Ho. destruct (K4 id o Ho) as (? & a & ? & ? & H3). split; [done|]. exists a. split; [done|]. split; [done|]. set_solver.
    + intros o a Ha. destruct (K5 o a Ha). lia.
    + intros r [->%elem_of_singleton|Hr]%elem_of_union; [lia|]. pose proof (K6 r Hr). lia.
  - split; try done.
    + intros o a Ha. by exists a.
    + intros r _ Hr. cbn. split; [set_solver|done].
    + by rewrite Hw.
Qed.

Definition covered (r : nat) (m : Manager) : Prop :=
  forall id o a, active m !! id = Some o -> transfers m !! o = Some a -> at_reader a = r -> o ∈ wg m.

Lemma change_RUnlock ts m r : inv m -> covered r m -> Reading r ∈ ts -> change ts m (set_lifecycle m (readers m ∖ {[r]}) (next_reader m) (writer m)).
Proof.
  intros [K1 K2 K3 K4 K5 K6 K7 K8 K9 K10 K11] Hc Ht. split.
  - split; cbn; try done.
    + intros id o Ho. destruct (K4 id o Ho) as (? & a & Ha & ? & [H3|H3]); (split; [done|]); exists a; (split; [done|]); (split; [done|]); [by left|].
      destruct (decide (at_reader a = r)) as [He|He]; [left; by eapply Hc|right; set_solver].
    + intros r' Hr. apply K6. set_solver.
    + intros Hw. rewrite (K8 Hw). set_solver.
  - split; try done.
    + intros o a Ha. by exists a.
    + intros r' Hr' Hin. cbn. split; [|done]. assert (r' <> r) by (intros ->; done). set_solver.
Qed.

Lemma change_Lock ts m : inv m -> readers m = ∅ -> change ts m (set_lifecycle m ∅ (next_reader m) true).
Proof.
  intros [K1 K2 K3 K4 K5 K6 K7 K8 K9 K10 K11] Hr. split.
  - split; cbn; try done. intros id o Ho. destruct (K4 id o Ho) as (? & a & ? & ? & H3). split; [done|]. exists a. split; [done|]. split; [done|]. by rewrite Hr in H3.
  - split; try done.
    + intros o a Ha. by exists a.
    + intros r _ Hin. set_solver.
Qed.

Lemma change_Unlock ts m : inv m -> Writing ∈ ts -> change ts m (set_lifecycle m (readers m) (next_reader m) false).
Proof.
  intros [K1 K2 K3 K4 K5 K6 K7 K8 K9 K10 K11] Ht. split; [by split|]. split; try done. intros o a Ha. by exists a.
Qed.

Lemma change_transfer ts m o f : inv m -> (forall a, same_transfer a (f a)) -> change ts m (set_transfer m o f).
Proof.
  intros [K1 K2 K3 K4 K5 K6 K7 K8 K9 K10 K11] Hf.
  assert (forall x a, alter f o (transfers m) !! x = Some a -> exists a0, transfers m !! x = Some a0 /\ same_transfer a0 a) as Hback.
  { intros x a Ha. destruct (decide (x = o)) as [->|Hne].
    - rewrite lookup_alter_eq in Ha. apply fmap_Some in Ha as (a0 & Ha0 & ->). by exists a0.
    - rewrite lookup_alter_ne in Ha by done. exists a. split; [done|]. by split_and!. }
  assert (forall x a, transfers m !! x = Some a -> exists a', alter f o (transfers m) !! x = Some a' /\ same_transfer a a') as Hforth.
  { intros x a Ha. destruct (decide (x = o)) as [->|Hne].
    - exists (f a). by rewrite lookup_alter_eq, Ha.
    - exists a. rewrite lookup_alter_ne by done. split; [done|]. by split_and!. }
  split.
  - split; cbn; try done.
    + intros id x Hx. destruct (K4 id x Hx) as (? & a & Ha & Hid & H3). split; [done|]. destruct (Hforth x a Ha) as (a' & Ha' & (E1 & E2 & _)).
      exists a'. split; [done|]. rewrite E1, E2. done.
    + intros x a Ha. destruct (Hback x a Ha) as (a0 & Ha0 & (_ & -> & _)). by apply (K5 x a0).
    + intros x Hx. destruct (K7 x Hx) as [a Ha]. destruct (Hforth x a Ha) as (a' & Ha' & _). by exists a'.
  - split; try done. intros r _ Hr. cbn. split; [done|]. split; [done|]. split; [|done].
    intros x a Ha _. destruct (Hback x a Ha) as (a0 & Ha0 & _). by exists a0.
Qed.

Lemma fresh_transfer m : inv m -> transfers m !! next m = None /\ (forall id, active m !! id <> Some (next m)) /\ next m ∉ wg m.
Proof.
  intros Hi. assert (transfers m !! next m = None) as Hn.
  { destruct (transfers m !! next m) as [a|] eqn:E; [|done]. destruct (v_fresh m Hi _ a E). lia. }
  split; [done|]. split.
  - intros id Hid. destruct (v_active m Hi id _ Hid) as (_ & a & Ha & _). congruence.
  - intros Hw. destruct (v_wg m Hi _ Hw). congruence.
Qed.

Lemma change_add ts m a : inv m -> at_reader a ∈ readers m -> Reading (at_reader a) ∈ ts -> change ts m (add_transfer m a).
Proof.
  intros Hi Hr Ht. destruct (fresh_transfer m Hi) as (Hn & Hna & Hnw). pose proof Hi as [K1 K2 K3 K4 K5 K6 K7 K8 K9 K10 K11]. split.
  - split; cbn; try done.
    + intros id o Ho. destruct (K4 id o Ho) as (? & b & Hb & Hid & H3). split; [done|]. exists b. split; [|done].
      rewrite lookup_insert_ne; [done|]. intros <-. congruence.
    + intros o b [[<- <-]|[_ Hb]]%lookup_insert_Some; [pose proof (K6 _ Hr); lia|]. destruct (K5 o b Hb). lia.
    + intros o Ho. destruct (decide (o = next m)) as [->|Hne]; [by rewrite lookup_insert_eq|]. rewrite lookup_insert_ne by done. by apply K7.
  - split; cbn; try done.
    + lia.
    + intros o b Hb. exists b. split; [|by split_and!]. rewrite lookup_insert_ne; [done|]. intros <-. congruence.
    + intros r Hnr Hin. split; [done|]. split; [done|]. split; [|done].
      intros o b [[<- <-]|[_ Hb]]%lookup_insert_Some Hbr; [by rewrite Hbr in Ht|by exists b].
Qed.

Lemma change_wg_add ts m o a r : inv m -> transfers m !! o = Some a -> stopped m = false -> r ∈ readers m -> Owning o ∈ ts -> change ts m (set_wg m ({[o]} ∪ wg m)).
Proof.
  intros Hi Ha Hs Hr Ht. pose proof Hi as [K1 K2 K3 K4 K5 K6 K7 K8 K9 K10 K11]. split.
  - split; cbn; try done.
    + intros id x Hx. destruct (K4 id x Hx) as (? & b & ? & ? & H3). split; [done|]. exists b. split; [done|]. split; [done|]. set_solver.
    + intros x [->%elem_of_singleton|Hx]%elem_of_union; [by exists a|by apply K7].
  - split; cbn; try done.
    + intros x b Hb. by exists b.
    + congruence.
    + intros x Hx. assert (x <> o) by (intros ->; done). split; [done|]. set_solver.
    + intros r' _ Hr'. split; [done|]. split; [done|]. split; [intros x b Hb _; by exists b|]. set_solver.
    + intros _ Hw. rewrite (K8 Hw) in Hr. set_solver.
Qed.

Lemma change_wg_done ts m o : inv m -> (forall id, active m !! id <> Some o) -> Owning o ∈ ts -> change ts m (set_wg m (wg m ∖ {[o]})).
Proof.
  intros Hi Hn Ht. pose proof Hi as [K1 K2 K3 K4 K5 K6 K7 K8 K9 K10 K11]. split.
  - split; cbn; try done.
    + intros id x Hx. destruct (K4 id x Hx) as (? & b & ? & ? & H3). split; [done|]. exists b. split; [done|]. split; [done|].
      assert (x <> o) by (intros ->; by apply (Hn id)). set_solver.
    + intros x Hx. apply K7. set_solver.
  - split; cbn; try done.
    + intros x b Hb. by exists b.
    + intros _. split; [done|set_solver].
    + intros x Hx. assert (x <> o) by (intros ->; done). split; [done|]. set_solver.
    + intros r' _ Hr'. split; [done|]. split; [done|]. split; [intros x b Hb _; by exists b|].
      intros x b id Hb _ Hx. assert (x <> o) by (intros ->; by apply (Hn id)). split; [done|]. set_solver.
    + intros _ Hw. split; [done|set_solver].
Qed.

(** The task of a transfer changes. *)
Lemma change_task ts m id t t' :
  inv m -> persistMu m = true -> Persisting ∈ ts -> tasks m !! id = Some t -> ID t' = id -> in_flight (Status t') = in_flight (Status t) ->
  (strict = true -> good t') -> change ts m (set_tasks m (<[id := t']> (tasks m)) (active m)).
Proof.
  intros Hi Hp Ht Hid Ht' Hf Hok. pose proof Hi as [K1 K2 K3 K4 K5 K6 K7 K8 K9 K10 K11]. split.
  - split; cbn; try done.
    + intros x tx [[<- <-]|[_ Hx]]%lookup_insert_Some; [done|by apply K1].
    + intros x [tx [[<- <-]|[_ Hx]]%lookup_insert_Some]; [apply K2; by exists t|apply K2; by exists tx].
    + intros x tx [[<- <-]|[_ Hx]]%lookup_insert_Some; [rewrite Hf|]; by apply K3.
    + intros x o Ho. destruct (K4 x o Ho) as [Hx Hrest]. split; [|done]. destruct (decide (x = id)) as [->|Hne]; [by rewrite lookup_insert_eq|by rewrite lookup_insert_ne].
    + intros Hst x tx [[<- <-]|[_ Hx]]%lookup_insert_Some; [by apply Hok|by eapply K9].
    + by rewrite Hp.
  - split; cbn; try done.
    + intros x b Hb. by exists b.
    + intros x _ Hx. rewrite lookup_insert_ne; [done|]. intros <-. congruence.
Qed.

(** A transfer ends. *)
Lemma change_end ts m id t t' o :
  inv m -> persistMu m = true -> Persisting ∈ ts -> Owning o ∈ ts -> active m !! id = Some o -> tasks m !! id = Some t -> ID t' = id -> in_flight (Status t') = false ->
  (strict = true -> good t') -> change ts m (set_tasks m (<[id := t']> (tasks m)) (delete id (active m))).
Proof.
  intros Hi Hp Ht Hto Ha Hid Ht' Hf Hok. pose proof Hi as [K1 K2 K3 K4 K5 K6 K7 K8 K9 K10 K11].
  assert (forall x y, active m !! x = Some y -> y = o -> x = id) as Hinj.
  { intros x y Hx ->. destruct (K4 x o Hx) as (_ & a & Ho & Hax & _), (K4 id o Ha) as (_ & a' & Ho' & Haid & _). congruence. }
  split.
  - split; cbn; try done.
    + intros x tx [[<- <-]|[_ Hx]]%lookup_insert_Some; [done|by apply K1].
    + intros x [tx [[<- <-]|[_ Hx]]%lookup_insert_Some]; [apply K2; by exists t|apply K2; by exists tx].
    + intros x tx [[<- <-]|[Hne Hx]]%lookup_insert_Some; [rewrite Hf, lookup_delete_eq; split; [done|by intros []]|rewrite lookup_delete_ne by done; by apply K3].
    + intros x y [Hne Hy]%lookup_delete_Some. destruct (K4 x y Hy) as [Hx Hrest]. split; [|done]. by rewrite lookup_insert_ne.
    + intros Hst x tx [[<- <-]|[_ Hx]]%lookup_insert_Some; [by apply Hok|by eapply K9].
    + by rewrite Hp.
  - split; cbn; try done.
    + intros x b Hb. by exists b.
    + intros _. split; [apply delete_subseteq|done].
    + intros x Hx. assert (x <> o) by (intros ->; done). split; [|done]. intros y. destruct (decide (y = id)) as [->|Hne].
      * rewrite lookup_delete_eq. split; [done|congruence].
      * by rewrite lookup_delete_ne.
    + intros r _ Hr. split; [done|]. split; [done|]. split; [intros x b Hb _; by exists b|]. by intros x b y Hb _ [_ Hy]%lookup_delete_Some.
    + intros x _ Hx. rewrite lookup_insert_ne; [done|]. intros <-. congruence.
Qed.

(** A transfer starts. *)
Lemma change_launch ts m t o a :
  inv m -> persistMu m = true -> Persisting ∈ ts -> Owning o ∈ ts -> transfers m !! o = Some a -> at_task a = ID t -> at_reader a ∈ readers m ->
  Reading (at_reader a) ∈ ts -> stopped m = false -> in_flight (Status t) = true -> (forall id, active m !! id <> Some o) -> active m !! ID t = None ->
  ID t ∈ issued m -> (is_Some (tasks m !! ID t) \/ Naming (ID t) ∈ ts) -> (strict = true -> good t) ->
  change ts m (set_tasks m (<[ID t := t]> (tasks m)) (<[ID t := o]> (active m))).
Proof.
  intros Hi Hp Ht Hto Ha Hid Har Htr Hs Hf Hno Hfree Hiss Hname Hok. pose proof Hi as [K1 K2 K3 K4 K5 K6 K7 K8 K9 K10 K11]. split.
  - split; cbn; try done.
    + intros x tx [[<- <-]|[_ Hx]]%lookup_insert_Some; [done|by apply K1].
    + intros x [tx [[<- <-]|[_ Hx]]%lookup_insert_Some]; [done|apply K2; by exists tx].
    + intros x tx [[<- <-]|[Hne Hx]]%lookup_insert_Some; [by rewrite Hf, lookup_insert_eq|rewrite lookup_insert_ne by done; by apply K3].
    + intros x y [[<- <-]|[Hne Hy]]%lookup_insert_Some.
      * rewrite lookup_insert_eq. split; [done|]. exists a. split; [done|]. split; [done|by right].
      * destruct (K4 x y Hy) as [Hx Hrest]. split; [by rewrite lookup_insert_ne|done].
    + intros Hst x tx [[<- <-]|[_ Hx]]%lookup_insert_Some; [by apply Hok|by eapply K9].
    + by rewrite Hp.
  - split; cbn; try done.
    + intros x b Hb. by exists b.
    + congruence.
    + intros x Hx. assert (x <> o) by (intros ->; done). split; [|done]. intros y. destruct (decide (y = ID t)) as [->|Hne].
      * rewrite lookup_insert_eq, Hfree. split; congruence.
      * by rewrite lookup_insert_ne.
    + intros r Hnr Hr. split; [done|]. split; [done|]. split; [intros x b Hb _; by exists b|].
      intros x b y Hb Hbr [[<- <-]|[_ Hy]]%lookup_insert_Some; [|done]. assert (b = a) as -> by congruence. congruence.
    + intros x Hnx Hx. rewrite lookup_insert_ne; [done|]. intros <-. destruct Hname as [[? ?]|?]; [congruence|done].
Qed.

(** Tasks are forgotten. *)
Lemma change_forget ts m (kept : gmap string Task) :
  inv m -> persistMu m = true -> Persisting ∈ ts -> kept ⊆ tasks m -> (forall id, is_Some (active m !! id) -> kept !! id = tasks m !! id) ->
  change ts m (set_tasks m kept (active m)).
Proof.
  intros Hi Hp Ht Hsub Hact. pose proof Hi as [K1 K2 K3 K4 K5 K6 K7 K8 K9 K10 K11].
  assert (forall id t, kept !! id = Some t -> tasks m !! id = Some t) as Hin by (intros id t Hk; by apply (lookup_weaken _ _ _ _ Hk)). split.
  - split; cbn; try done.
    + intros x tx Hx. by apply K1, Hin.
    + intros x [tx Hx]. apply K2. exists tx. by apply Hin.
    + intros x tx Hx. by apply K3, Hin.
    + intros x o Ho. destruct (K4 x o Ho) as [Hx Hrest]. split; [|done]. rewrite Hact; [done|by exists o].
    + intros Hst x tx Hx. eapply K9; [done|by apply Hin].
    + by rewrite Hp.
  - split; cbn; try done.
    + intros x b Hb. by exists b.
    + intros x _ Hx. destruct (kept !! x) as [t|] eqn:E; [|done]. apply Hin in E. congruence.
Qed.

(** What is written is what is there. *)
Lemma disk_current m : inv m -> (path <> "" -> disk m = encoded (tasks m)) -> disk_ok m.
Proof.
  intros Hi Hd Hp. exists (tasks m). split; [by apply Hd|]. split; [done|]. intros id t d Ht Hd'. assert (d = t) as -> by congruence.
  split; [by left|]. split; [intros Hs; by eapply v_ok|by eapply v_key].
Qed.

Lemma disk_ok_same m m' : tasks m' = tasks m -> disk m' = disk m -> disk_ok m -> disk_ok m'.
Proof. unfold disk_ok. by intros -> ->. Qed.

(** The end of a transfer is not written. *)
Lemma disk_failed m id t t' ac :
  disk_ok m -> tasks m !! id = Some t -> in_flight (Status t) = true -> same_task t' t -> Status t' = StatusFailed ->
  disk_ok (set_tasks m (<[id := t']> (tasks m)) ac).
Proof.
  intros Hdisk Ht Hf Hs He Hp. destruct (Hdisk Hp) as (stored & Hd & Hdom & Hw). exists stored. split; [done|]. cbn. split.
  - intros x. rewrite Hdom. destruct (decide (x = id)) as [->|Hne]; [by rewrite lookup_insert_eq, Ht|by rewrite lookup_insert_ne].
  - intros x tx d [[<- <-]|[_ Hx]]%lookup_insert_Some Hdx; [|by apply Hw].
    destruct (Hw id t d Ht Hdx) as ([->|(Hfail & _)] & Hok & Hid); [|by rewrite Hfail in Hf]. split; [|done]. by right.
Qed.
End invariant.

(** ** What the programs do *)

Section logic.
Context `{UuidPackage, UnicodePackage}.
(** With [ends], the first client shuts the manager down. *)
Context (strict ends : bool) (path : string).

(** What the outside may answer. *)
Definition answers : question -> answer -> bool := if strict then fits_text else fits.

Lemma answers_fit q a : answers q a = true -> fits q a = true.
Proof. unfold answers. destruct strict; [|done]. by intros [? _]%andb_true_iff. Qed.

Lemma answers_text id : strict = true -> answers NewUUID (AUUID id) = true -> utf8_ValidString id = true.
Proof. unfold answers. intros ->. by intros [_ ?]%andb_true_iff. Qed.

Notation inv := (inv strict path).
Notation change := (change strict path).
Notation disk_ok := (disk_ok strict path).

Definition transfer_entry (o : nat) (ts : gset token) (m : Manager) : Prop :=
  ts = {[Owning o]} /\ exists a, transfers m !! o = Some a /\ active m !! at_task a = Some o.
Definition at_rest (m : Manager) : Prop := stopped m = true /\ active m = ∅ /\ wg m = ∅.
Definition shut (ts : gset token) (m : Manager) : Prop := ends = true -> at_rest m.

Notation wp := (Threads.wp answers inv holds others keeps transfer_entry).
Notation rely := (Threads.rely inv holds others).
Notation guar := (Threads.guar inv holds keeps).

(** *** Rules *)

Lemma rely_refl_ ts m : inv m -> (forall t, t ∈ ts -> holds m t) -> rely ts m m.
Proof. intros Hi Hh. split; [done|]. split; [apply rel_refl|done]. Qed.

Lemma rely_inv ts m m' : rely ts m m' -> inv m'.
Proof. by intros (? & _). Qed.

Lemma rely_rel ts m m' : rely ts m m' -> rel (fun t => t ∈ ts) m m'.
Proof. by intros (_ & ? & _). Qed.

Lemma evolves_rely ts m m' : rely ts m m' -> evolves m m'.
Proof. intros Hr. eapply rel_evolves. by apply rely_rel. Qed.

Lemma rely_next ts m1 m2 m3 : rely ts m1 m2 -> rely ts m2 m3 -> rely ts m1 m3.
Proof. intros (_ & H1 & _) (Hi & H2 & Hh). split; [done|]. split; [by eapply rel_trans|done]. Qed.

Lemma rely_sub ts ts' m m' : ts' ⊆ ts -> rely ts m m' -> rely ts' m m'.
Proof.
  intros Hs (Hi & Hr & Hh). split; [done|]. split; [|intros t Ht; apply Hh; set_solver]. eapply rel_mono; [|done]. cbn. set_solver.
Qed.

Lemma evolves_then m1 m2 m3 : evolves m1 m2 -> evolves m2 m3 -> evolves m1 m3.
Proof. apply rel_trans. Qed.

(** A step of the thread itself, which has the tokens [own] as well. *)
Lemma rely_step ts own m0 m m' :
  rely ts m0 m -> change own m m' -> own ## ts -> (forall t, t ∈ ts -> holds m t -> holds m' t) -> rely ts m0 m'.
Proof.
  intros Hr [Hi Hk] Hd Hh. split; [done|]. split; [|intros t Ht; apply Hh; [done|by eapply rely_holds]].
  eapply rel_trans; [by apply rely_rel|]. eapply rel_mono; [|done]. cbn. set_solver.
Qed.

Lemma change_more ts ts' m m' : ts ⊆ ts' -> change ts m m' -> change ts' m m'.
Proof. intros Hs [Hi Hk]. split; [done|]. eapply rel_mono; [|done]. cbn. set_solver. Qed.

Lemma change_evolves ts m m' : change ts m m' -> evolves m m'.
Proof. intros [_ Hk]. by eapply rel_evolves. Qed.

(** A step after which the thread has some of its tokens. *)
Lemma guar_keep ts ts' m0 m m' :
  rely ts m0 m -> change ts m m' -> (forall t, holds m t -> holds m' t) -> ts' ⊆ ts -> guar ts m m' ts'.
Proof.
  intros Hr [Hi Hk] Hh Hs. split; [done|]. split; [done|]. split; [auto|]. intros t Ht.
  split; [apply Hh; eapply rely_holds; [done|set_solver]|left; set_solver].
Qed.

Lemma guar_unchanged ts m0 m : rely ts m0 m -> guar ts m m ts.
Proof. intros Hr. eapply guar_keep; [done|apply step_refl; by eapply rely_inv|done|done]. Qed.

Lemma guar_take ts m0 m m' k :
  rely ts m0 m -> change ts m m' -> (forall t, holds m t -> holds m' t) -> ~ holds m k -> holds m' k -> guar ts m m' ({[k]} ∪ ts).
Proof.
  intros Hr [Hi Hk] Hh Hn Hy. split; [done|]. split; [done|]. split; [auto|]. intros t [->%elem_of_singleton|Ht]%elem_of_union.
  - split; [done|by right].
  - split; [apply Hh; by eapply rely_holds|by left].
Qed.

Lemma guar_drop ts m0 m m' k :
  rely ({[k]} ∪ ts) m0 m -> change ({[k]} ∪ ts) m m' -> k ∉ ts -> (forall t, t <> k -> holds m t -> holds m' t) -> guar ({[k]} ∪ ts) m m' ts.
Proof.
  intros Hr [Hi Hk] Hn Hh. split; [done|]. split; [done|]. split.
  - intros t Ht. apply Hh. set_solver.
  - intros t Ht. split; [|left; set_solver]. apply Hh; [set_solver|]. eapply rely_holds; [done|set_solver].
Qed.

Lemma wp_return {A} (a : A) (Q : A -> gset token -> Manager -> Prop) ts m : Q a ts m -> wp Q (mret a) ts m.
Proof. done. Qed.

Lemma wp_look {A} (f : Manager -> A) (Q : A -> gset token -> Manager -> Prop) ts m :
  (forall m1, rely ts m m1 -> Q (f m1) ts m1) -> wp Q (reading f) ts m.
Proof. intros HQ m1 Hr. exists ts. split; [by eapply guar_unchanged|]. by apply HQ. Qed.

Lemma ask_err_spec q (Q : errs -> gset token -> Manager -> Prop) ts m : (forall e, Q e ts m) -> wp Q (ask_err q) ts m.
Proof. intros HQ. apply wp_answer. intros. apply HQ. Qed.

Lemma ask_now_spec (Q : Z -> gset token -> Manager -> Prop) ts m : (forall t, t <> 0 -> Q t ts m) -> wp Q ask_now ts m.
Proof. intros HQ. apply wp_answer. intros [] Hf%answers_fit; try discriminate. apply HQ. cbn in Hf. lia. Qed.

(** *** The lock of the state file *)

Lemma lock_persist_spec (Q : unit -> gset token -> Manager -> Prop) ts m :
  Persisting ∉ ts -> (forall m1, rely ts m m1 -> disk_ok m1 -> rely ({[Persisting]} ∪ ts) m1 m1 -> Q tt ({[Persisting]} ∪ ts) m1) -> wp Q lock_persist ts m.
Proof.
  intros Hn HQ m1 Hr. destruct (persistMu m1) eqn:Hp; [done|]. pose proof (rely_inv _ _ _ Hr) as Hi.
  assert (forall t, holds m1 t -> holds (set_persistMu m1 true) t) as Hh by (intros []; cbn; congruence).
  assert (change ∅ m1 (set_persistMu m1 true)) as Hc by (by apply change_persistMu). exists ({[Persisting]} ∪ ts). split.
  - eapply guar_take; [done|eapply change_more; [|done]; set_solver|done|by cbn; rewrite Hp|done].
  - apply HQ.
    + eapply rely_step; [done|done|set_solver|auto].
    + by apply (v_disk strict path m1 Hi).
    + apply rely_refl_; [apply Hc|]. intros t [->%elem_of_singleton|Ht]%elem_of_union; [done|]. by eapply Hh, rely_holds.
Qed.

Lemma disk_ok_stable ts m m' : Persisting ∈ ts -> rely ts m m' -> disk_ok m -> disk_ok m'.
Proof. intros Ht Hr%rely_rel. destruct (r_persist _ _ _ Hr Ht) as (E1 & _ & E2). by apply disk_ok_same. Qed.

Lemma persisting ts m m' : rely ({[Persisting]} ∪ ts) m m' ->
  inv m' /\ persistMu m' = true /\ tasks m' = tasks m /\ active m' = active m /\ disk m' = disk m /\ rely ts m m'.
Proof.
  intros Hr. pose proof (rely_rel _ _ _ Hr) as Hl. destruct (r_persist _ _ _ Hl) as (? & ? & ?); [set_solver|].
  split; [by eapply rely_inv|]. split; [|split_and!; [done|done|done|]].
  - apply (rely_holds _ _ _ Persisting Hr). set_solver.
  - eapply rely_sub; [|done]. set_solver.
Qed.

Lemma unlock_persist_spec (Q : unit -> gset token -> Manager -> Prop) ts m :
  Persisting ∉ ts -> disk_ok m -> (forall m1, rely ts m m1 -> Q tt ts m1) -> wp Q unlock_persist ({[Persisting]} ∪ ts) m.
Proof.
  intros Hn Hd HQ. apply wp_locked. intros m1 Hr. destruct (persisting ts m m1 Hr) as (Hi & Hp & Ht & Ha & Hk & Hr').
  assert (change ∅ m1 (set_persistMu m1 false)) as Hc.
  { apply change_persistMu; [done|]. intros _. by apply (disk_ok_same strict path m). }
  assert (forall t, t <> Persisting -> holds m1 t -> holds (set_persistMu m1 false) t) as Hh by (by intros []).
  exists ts. split; [eapply guar_drop; [done|eapply change_more; [|done]; set_solver|done|done]|]. apply HQ.
  eapply rely_step; [done|done|set_solver|]. intros t Ht'. apply Hh. by intros ->.
Qed.

(** The file is replaced by [ts0], if there is one, or left as it is. *)
Lemma persist_spec (ts0 : gmap string Task) (Q : errs -> gset token -> Manager -> Prop) ts m :
  Persisting ∉ ts ->
  (forall m1, rely ts m m1 -> tasks m1 = tasks m -> active m1 = active m -> (path <> "" -> disk m1 = encoded ts0) -> Q [] ({[Persisting]} ∪ ts) m1) ->
  (forall e m1, is_nil e = false -> rely ts m m1 -> tasks m1 = tasks m -> active m1 = active m -> disk m1 = disk m -> Q e ({[Persisting]} ∪ ts) m1) ->
  wp Q (persist ts0) ({[Persisting]} ∪ ts) m.
Proof.
  intros Hn HQ He. unfold persist. apply wp_bind, wp_look. intros m0 Hr0. destruct (persisting ts m m0 Hr0) as (Hi0 & Hp0 & Ht0 & Ha0 & Hk0 & Hr0').
  rewrite (v_path strict path m0 Hi0). destruct (bool_decide_reflect (path = "")) as [Hpath|Hpath].
  { apply wp_return, HQ; [done|done|done|]. by intros []. }
  destruct (negb (forallb encodable (persisted ts0))); [by apply wp_return, He|].
  apply wp_bind, ask_err_spec. intros e. destruct (is_nil e) eqn:E; [|by apply wp_return, He].
  apply wp_bind, wp_locked. intros m1 Hr. destruct (persisting ts m0 m1 Hr) as (Hi & Hp & Ht & Ha & Hk & Hr').
  assert (change {[Persisting]} m1 (set_disk m1 (encoded ts0))) as Hc by (apply change_disk; [done|done|set_solver]).
  assert (forall t, holds m1 t -> holds (set_disk m1 (encoded ts0)) t) as Hh by (by intros []).
  exists ({[Persisting]} ∪ ts). split; [eapply guar_keep; [done|eapply change_more; [|done]; set_solver|done|done]|].
  apply wp_return, HQ; [|by cbn; rewrite Ht|by cbn; rewrite Ha|done]. eapply rely_step; [by eapply rely_next|done|set_solver|auto].
Qed.

(** A step with the lock. *)
Lemma commit_spec f (Q : unit -> gset token -> Manager -> Prop) ts m :
  Persisting ∉ ts ->
  (forall m1, inv m1 -> persistMu m1 = true -> tasks m1 = tasks m -> active m1 = active m -> disk m1 = disk m -> rely ts m m1 ->
     change ({[Persisting]} ∪ ts) m1 (f m1) /\ (forall t, holds m1 t -> holds (f m1) t) /\ Q tt ({[Persisting]} ∪ ts) (f m1)) ->
  wp Q (locked (fun m => (f m, tt))) ({[Persisting]} ∪ ts) m.
Proof.
  intros Hn HQ. apply wp_locked. intros m1 Hr. destruct (persisting ts m m1 Hr) as (Hi & Hp & Ht & Ha & Hk & Hr').
  destruct (HQ m1 Hi Hp Ht Ha Hk Hr') as (Hc & Hh & HQ'). exists ({[Persisting]} ∪ ts). split; [by eapply guar_keep|done].
Qed.

(** *** Changes of a task *)

Definition steady (mutate : Task -> Task) : Prop :=
  forall t, same_task (mutate t) t /\ (in_flight (Status t) = true -> in_flight (Status (mutate t)) = true) /\
    (utf8_ValidString (Checksum t) = true -> utf8_ValidString (Checksum (mutate t)) = true).

Lemma in_flight_known s : in_flight s = true -> known_status s = true.
Proof. intros Hf. unfold known_status. by rewrite Hf. Qed.

Lemma same_task_ID t d : same_task t d -> ID t = ID d.
Proof. by intros ->. Qed.

Lemma same_task_good t d : same_task t d -> good d -> known_status (Status t) = true -> UpdatedAt t <> 0 -> utf8_ValidString (Checksum t) = true -> good t.
Proof. intros Hs Hd Hk Hu Hc. rewrite Hs. by apply good_progress. Qed.

Lemma owned ts m m' o id : Owning o ∈ ts -> rely ts m m' -> active m !! id = Some o -> active m' !! id = Some o.
Proof. intros Ho Hr%rely_rel Ha. destruct (r_owner _ _ _ Hr o Ho) as [Hiff _]. by apply Hiff. Qed.

Lemma owned_task m o id : inv m -> active m !! id = Some o -> exists t, tasks m !! id = Some t /\ ID t = id /\ in_flight (Status t) = true.
Proof.
  intros Hi Ha. destruct (v_active strict path m Hi id o Ha) as [[t Ht] _]. exists t. split; [done|]. split; [by eapply (v_key strict path)|].
  apply (v_flight strict path m Hi id t Ht). by exists o.
Qed.

Lemma update_task_spec id mutate o (Q : errs -> gset token -> Manager -> Prop) ts m :
  Persisting ∉ ts -> Owning o ∈ ts -> active m !! id = Some o -> steady mutate -> (forall e m', rely ts m m' -> Q e ts m') -> wp Q (update id mutate) ts m.
Proof.
  intros Hn Ho Ha Hm HQ. unfold update. apply wp_bind, lock_persist_spec; [done|]. intros m1 Hr1 Hd1 _.
  apply wp_bind, wp_look. intros m2 Hr2. destruct (persisting ts m1 m2 Hr2) as (Hi2 & Hp2 & Ht2 & Ha2 & Hk2 & Hr2').
  pose proof (rely_next _ _ _ _ Hr1 Hr2') as Hr. pose proof (disk_ok_same strict path m1 m2 Ht2 Hk2 Hd1) as Hd2. clear Hr1 Hd1 Hr2 Ht2 Ha2 Hk2 Hr2'.
  destruct (owned_task m2 o id Hi2 (owned _ _ _ _ _ Ho Hr Ha)) as (t & Ht & Hid & Hf). rewrite Ht. cbn [mbind option_bind].
  apply wp_bind, ask_now_spec. intros now Hnow. destruct (Hm t) as (Hsame & Hflight & Hsum). specialize (Hflight Hf).
  set (t' := set_UpdatedAt now (mutate t)). assert (same_task t' t) as Hsame' by (by apply same_task_progress).
  apply wp_bind, persist_spec; [done| |].
  - intros m3 Hr3 Ht3 Ha3 Hk3. cbn [is_nil]. apply wp_bind, commit_spec; [done|]. intros m4 Hi4 Hp4 Ht4 Ha4 Hk4 Hr4.
    assert (change {[Persisting]} m4 (set_tasks m4 (<[id := t']> (tasks m2)) (active m4))) as Hc.
    { rewrite <- Ht3, <- Ht4. eapply change_task; [done|done|set_solver|by rewrite Ht4, Ht3|by rewrite (same_task_ID _ _ Hsame')|by cbn; rewrite Hf, Hflight|].
      intros Hs. pose proof (v_ok strict path m2 Hi2 Hs id t Ht) as Hg. eapply same_task_good; [done|exact Hg|by apply in_flight_known|done|by apply Hsum, clean_checksum, Hg]. }
    split; [eapply change_more; [|done]; set_solver|]. split; [by intros []|]. apply wp_bind, unlock_persist_spec; [done|apply disk_current; [apply Hc|intros Hpath; cbn; by rewrite Hk4, Hk3]|].
    intros m5 Hr5. apply wp_bind, ask_err_spec. intros _. apply wp_return, HQ. eapply rely_next; [|done].
    eapply rely_step; [by eapply rely_next; [|eapply rely_next]|done|set_solver|by intros []].
  - intros e m3 He Hr3 Et3 Ea3 Ek3. rewrite He. apply wp_bind, unlock_persist_spec; [done|by apply (disk_ok_same strict path m2)|].
    intros m4 Hr4. apply wp_return, HQ. eapply rely_next; [done|by eapply rely_next].
Qed.

Lemma steady_status s : in_flight s = true -> steady (set_Status s).
Proof. intros Hs t. split; [by apply same_task_progress, same_task_refl|done]. Qed.

Lemma steady_bytes (f : Task -> Z * Z * string) :
  (forall t, utf8_ValidString (Checksum t) = true -> utf8_ValidString (f t).2 = true) -> steady (fun t => set_bytes (f t).1.1 (f t).1.2 (f t).2 t).
Proof. intros Hf t. split; [by apply same_task_progress, same_task_refl|]. split; [done|apply Hf]. Qed.

Lemma report_spec id l o (Q : unit -> gset token -> Manager -> Prop) ts m :
  Persisting ∉ ts -> Owning o ∈ ts -> inv m -> (forall t, t ∈ ts -> holds m t) -> active m !! id = Some o ->
  (forall m', rely ts m m' -> Q tt ts m') -> wp Q (report id l) ts m.
Proof.
  intros Hn Ho. revert m. induction l as [|st l IH]; intros m Hi Hh Ha HQ; cbn [report].
  - apply wp_return, HQ. by apply rely_refl_.
  - apply wp_bind. unfold progress. apply wp_bind, (update_task_spec id _ o); [done|done|done| |].
    { intros t. split; [apply same_task_progress, same_task_progress, same_task_refl|done]. }
    intros e m1 Hr1. apply wp_return, IH; [by eapply rely_inv|by apply Hr1|by eapply owned|]. intros m2 Hr2. apply HQ. by eapply rely_next.
Qed.

(** *** The end of a transfer *)

Lemma finished_same now result e c st t : same_task (finished_task now result e c st t).1 t.
Proof.
  unfold finished_task. repeat match goal with |- context [if ?b then _ else _] => destruct b end; cbn [fst];
    by repeat apply same_task_progress; apply same_task_refl.
Qed.

Lemma finished_ends now result e c st t :
  let t' := (finished_task now result e c st t).1 in
  known_status (Status t') = true /\ in_flight (Status t') = false /\ UpdatedAt t' = now /\
  (utf8_ValidString (Checksum t) = true -> utf8_ValidString (Checksum t') = true).
Proof.
  assert (forall b : bool, utf8_ValidString (Checksum t) = true -> utf8_ValidString (if b then FormatChecksum (FileStream.Checksum result) else Checksum t) = true) as Hc.
  { intros b Ht. destruct b; [apply checksum_ascii|done]. }
  unfold finished_task. cbv zeta.
  destruct (c && st); [|destruct (c || is_canceled e); [|destruct (negb (is_nil e))]]; cbn [fst]; split_and!; (reflexivity || exact (Hc (HasChecksum result))).
Qed.

(** What is left to do when the task has been changed. *)
Lemma finish_rest o cleanup t (Q : unit -> gset token -> Manager -> Prop) ts m :
  Persisting ∉ ts -> Owning o ∈ ts -> disk_ok m -> (forall x, active m !! x <> Some o) ->
  (forall m', inv m' -> evolves m m' -> (forall k, k ∈ ts -> holds m' k) -> (forall x, active m' !! x <> Some o) -> Q tt ts m') ->
  wp Q (_ ← unlock_persist; _ ← (if bool_decide (cleanup = "") then mret tt else _ ← ask_err (RemoveFile cleanup); mret tt); _ ← ask_err (OnEvent t); mret tt)
    ({[Persisting]} ∪ ts) m.
Proof.
  intros Hn Ho Hd Hun HQ. apply wp_bind, unlock_persist_spec; [done|done|]. intros m1 Hr1.
  assert (Q tt ts m1) as HQ1.
  { apply HQ; [by eapply rely_inv|by eapply evolves_rely|by apply Hr1|]. intros x. pose proof (rely_rel _ _ _ Hr1) as Hrel.
    destruct (r_owner _ _ _ Hrel o Ho) as [Hiff _]. by rewrite Hiff. }
  apply wp_bind. destruct (bool_decide (cleanup = "")); [apply wp_return|apply wp_bind, ask_err_spec; intros _; apply wp_return];
    (apply wp_bind, ask_err_spec; intros _; by apply wp_return).
Qed.

(** The task of the transfer [o] becomes [t']. *)
Lemma finish_commit id o t t' ts m0 m (f := fun m => set_tasks m (<[id := t']> (tasks m0)) (delete id (active m))) :
  Persisting ∉ ts -> Owning o ∈ ts -> active m0 !! id = Some o -> tasks m0 !! id = Some t -> ID t = id -> inv m0 ->
  same_task t' t -> known_status (Status t') = true -> in_flight (Status t') = false -> UpdatedAt t' <> 0 ->
  (utf8_ValidString (Checksum t) = true -> utf8_ValidString (Checksum t') = true) ->
  inv m -> persistMu m = true -> tasks m = tasks m0 -> active m = active m0 ->
  change ({[Persisting]} ∪ ts) m (f m) /\ forall x, active (f m) !! x <> Some o.
Proof.
  intros Hn Ho Ha0 Ht0 Hid Hi0 Hs Hk He Hu Hsum Hi Hp Et Ea. split.
  - unfold f. rewrite <- Et. eapply (change_end strict path _ m id t t' o); [done|done|set_solver|set_solver|by rewrite Ea|by rewrite Et|by rewrite (same_task_ID _ _ Hs)|done|].
    intros Hst. pose proof (v_ok strict path m0 Hi0 Hst id t Ht0) as Hg. eapply same_task_good; [done|exact Hg|done|done|by apply Hsum, clean_checksum, Hg].
  - intros x. unfold f. cbn. rewrite Ea. intros [Hne Hx]%lookup_delete_Some.
    destruct (v_active strict path m0 Hi0 x o Hx) as (_ & a & Ho1 & E1 & _), (v_active strict path m0 Hi0 id o Ha0) as (_ & a' & Ho2 & E2 & _). congruence.
Qed.

Lemma finish_spec id result e c o (Q : unit -> gset token -> Manager -> Prop) ts m :
  Persisting ∉ ts -> Owning o ∈ ts -> active m !! id = Some o ->
  (forall m', inv m' -> evolves m m' -> (forall t, t ∈ ts -> holds m' t) -> (forall x, active m' !! x <> Some o) -> Q tt ts m') ->
  wp Q (finish id result e c) ts m.
Proof.
  intros Hn Ho Ha HQ. unfold finish. apply wp_bind, lock_persist_spec; [done|]. intros m1 Hr1 Hd1 _.
  apply wp_bind, wp_look. intros m2 Hr2. destruct (persisting ts m1 m2 Hr2) as (Hi2 & Hp2 & Et2 & Ea2 & Ek2 & Hr2').
  pose proof (rely_next _ _ _ _ Hr1 Hr2') as Hr. pose proof (disk_ok_same strict path m1 m2 Et2 Ek2 Hd1) as Hd2. pose proof (owned _ _ _ _ _ Ho Hr Ha) as Ha2.
  destruct (owned_task m2 o id Hi2 Ha2) as (t & Ht & Hid & Hf). rewrite Ht. cbn [mbind option_bind].
  apply wp_bind, ask_now_spec. intros now Hnow. apply wp_bind, wp_look. intros m3 Hr3'. destruct (persisting ts m2 m3 Hr3') as (_ & _ & Et3 & Ea3 & Ek3 & Hr3).
  pose proof (finished_same now result e c (stopped m3) t) as Hsame. pose proof (finished_ends now result e c (stopped m3) t) as (Hknown & Hend & Hu & Hsum).
  destruct (finished_task now result e c (stopped m3) t) as [t' cleanup]. cbn [fst] in *. assert (UpdatedAt t' <> 0) as Hu' by (by rewrite Hu).
  apply wp_bind, persist_spec; [done| |].
  - intros m4 Hr4 Et4 Ea4 Ek4. cbn [is_nil]. apply wp_bind, commit_spec; [done|]. intros m5 Hi5 Hp5 Et5 Ea5 Ek5 Hr5.
    destruct (finish_commit id o t t' ts m2 m5) as [Hch Hun]; try done; [congruence|congruence|]. split; [done|]. split; [by intros []|].
    apply (finish_rest o); [done|done|apply disk_current; [apply Hch|intros Hpath; cbn; by rewrite Ek5, Ek4]|done|]. intros m6 Hi6 He6. apply HQ; [done|].
    eapply evolves_then; [|done]. eapply evolves_then; [by eapply evolves_rely|]. eapply evolves_then; [by eapply evolves_rely|].
    eapply evolves_then; [by eapply evolves_rely|]. eapply evolves_then; [by eapply evolves_rely|by eapply change_evolves].
  - intros e' m4 He Hr4 Et4 Ea4 Ek4. rewrite He. apply wp_bind, commit_spec; [done|]. intros m5 Hi5 Hp5 Et5 Ea5 Ek5 Hr5.
    assert (same_task (unwritten e' t') t) as Hs by (by apply same_task_progress).
    destruct (finish_commit id o t (unwritten e' t') ts m2 m5) as [Hch Hun]; try done; [congruence|congruence|]. split; [done|]. split; [by intros []|].
    apply (finish_rest o); [done|done| |done|].
    + rewrite <- Et3, <- Et4, <- Et5. eapply disk_failed; [|by rewrite Et5, Et4, Et3|done|done|done]. apply (disk_ok_same strict path m2); [congruence|congruence|done].
    + intros m6 Hi6 He6. apply HQ; [done|]. eapply evolves_then; [|done]. eapply evolves_then; [by eapply evolves_rely|]. eapply evolves_then; [by eapply evolves_rely|].
      eapply evolves_then; [by eapply evolves_rely|]. eapply evolves_then; [by eapply evolves_rely|by eapply change_evolves].
Qed.

(** *** The goroutine of a transfer *)

Section transferring.
(** A goroutine that has the transfer [o] of the task [id]. *)
Context (o : nat) (id : string).

Notation own := ({[Owning o]} : gset token).

Lemma own_owning : Owning o ∈ own.
Proof. set_solver. Qed.

Lemma own_not_persisting : Persisting ∉ own.
Proof. set_solver. Qed.

(** What it does while the transfer is under way. *)
Definition running (m : Manager) : Prop := inv m /\ holds m (Owning o) /\ active m !! id = Some o.

Lemma running_rely m m' : running m -> rely own m m' -> running m'.
Proof.
  intros (Hi & Hh & Ha) Hr. split; [by eapply rely_inv|]. split; [by eapply rely_holds, own_owning|]. eapply owned; [apply own_owning|done|done].
Qed.

Lemma running_refl m : running m -> rely own m m.
Proof. intros (Hi & Hh & _). apply rely_refl_; [done|]. by intros t ->%elem_of_singleton. Qed.

Lemma running_update mutate (Q : errs -> gset token -> Manager -> Prop) m :
  running m -> steady mutate -> (forall e m', running m' -> rely own m m' -> Q e own m') -> wp Q (update id mutate) own m.
Proof.
  intros Hr Hm HQ. apply (update_task_spec id mutate o); [apply own_not_persisting|apply own_owning|apply Hr|done|].
  intros e m' Hrely. apply HQ; [by eapply running_rely|done].
Qed.

Lemma running_reading {A} (f : Manager -> A) (Q : A -> gset token -> Manager -> Prop) m :
  running m -> (forall m', running m' -> rely own m m' -> Q (f m') own m') -> wp Q (reading f) own m.
Proof. intros Hr HQ. apply wp_look. intros m' Hrely. apply HQ; [by eapply running_rely|done]. Qed.

(** [body] leaves the transfer under way. *)
Definition transfers_on (body : prog (C:=nat) (TransferResult * errs)) : Prop :=
  forall (Q : TransferResult * errs -> gset token -> Manager -> Prop) m,
    running m -> (forall r m', running m' -> rely own m m' -> Q r own m') -> wp Q body own m.

Lemma transfers_return r : transfers_on (mret r).
Proof. intros Q m Hr HQ. apply wp_return, HQ; [done|by apply running_refl]. Qed.

Lemma transfers_after {A} (first : prog A) (rest : A -> prog (TransferResult * errs)) :
  (forall (Q : A -> gset token -> Manager -> Prop) m, running m -> (forall x m', running m' -> rely own m m' -> Q x own m') -> wp Q first own m) ->
  (forall x, transfers_on (rest x)) -> transfers_on (first ≫= rest).
Proof.
  intros Hf Hrest Q m Hr HQ. apply wp_bind, Hf; [done|]. intros x m1 Hr1 Hrely. apply Hrest; [done|]. intros r m2 Hr2 Hrely2. apply HQ; [done|by eapply rely_next].
Qed.

Lemma transfers_ask q (rest : answer -> prog (TransferResult * errs)) : (forall x, transfers_on (rest x)) -> transfers_on (ask q ≫= rest).
Proof. intros Hrest Q m Hr HQ. apply wp_bind. intros x Hx. by apply Hrest. Qed.

Lemma transfers_err q (rest : errs -> prog (TransferResult * errs)) : (forall e, transfers_on (rest e)) -> transfers_on (ask_err q ≫= rest).
Proof. intros Hrest Q m Hr HQ. apply wp_bind, ask_err_spec. intros e. by apply Hrest. Qed.

Lemma transfers_if (b : bool) p q : transfers_on p -> transfers_on q -> transfers_on (if b then p else q).
Proof. by destruct b. Qed.

Lemma transfers_update mutate (rest : errs -> prog (TransferResult * errs)) : steady mutate -> (forall e, transfers_on (rest e)) -> transfers_on (update id mutate ≫= rest).
Proof. intros Hm. apply transfers_after. intros Q m Hr. by apply running_update. Qed.

Lemma stream_on a total checksum offset : at_task a = id -> transfers_on (stream a total checksum offset).
Proof.
  intros Hid. apply transfers_ask. intros [| | | | |l result e|]; try apply transfers_return. apply transfers_after; [|intros; apply transfers_return].
  intros Q m Hr HQ. rewrite Hid. apply (report_spec id l o); [apply own_not_persisting|apply own_owning|apply Hr| |apply Hr|].
  - intros t ->%elem_of_singleton. apply Hr.
  - intros m' Hrely. apply HQ; [by eapply running_rely|done].
Qed.

Lemma publish_on a result : transfers_on (publish a result).
Proof. apply transfers_err. intros e. apply transfers_return. Qed.

Lemma verifyDownload_on a result : transfers_on (verifyDownload a result).
Proof.
  apply transfers_err. intros e. apply transfers_if; [apply transfers_return|]. apply transfers_ask.
  intros [| | |[e'|[size checksum]]| | |]; try apply transfers_return; [|apply transfers_if; [|apply publish_on]];
    apply transfers_err; intros _; apply transfers_return.
Qed.

Lemma stream_then a total checksum offset (next : TransferResult -> prog (TransferResult * errs)) :
  at_task a = id -> (forall result, transfers_on (next result)) ->
  transfers_on ('(result, e) ← stream a total checksum offset; if is_nil e then next result else mret (result, e)).
Proof.
  intros Hid Hn. apply transfers_after; [by apply stream_on|]. intros [result e]. apply transfers_if; [apply Hn|apply transfers_return].
Qed.

Lemma runUpload_on a : at_task a = id -> transfers_on (runUpload a).
Proof.
  intros Hid. apply transfers_ask. intros [| | |[e|[size checksum]]| | |]; try apply transfers_return.
  apply transfers_after; [intros Q m Hr HQ; apply running_reading; [done|intros m'; apply HQ]|]. intros previous. cbv zeta. apply transfers_if; [apply transfers_return|].
  rewrite Hid. apply transfers_update; [apply (steady_bytes (fun t => (size, DoneBytes t, FormatChecksum checksum))); intros t _; apply checksum_ascii|].
  intros e. apply transfers_if; [by apply stream_on|apply transfers_return].
Qed.

Lemma runDownload_on a : at_task a = id -> transfers_on (runDownload a).
Proof.
  intros Hid. apply transfers_err. intros e. apply transfers_if; [apply transfers_return|]. apply transfers_if; [|apply (stream_then a 0 "" 0 (publish a)); [done|apply publish_on]].
  apply transfers_ask. intros [| | | |[e'|offset]| |]; try apply transfers_return.
  rewrite Hid. apply transfers_update; [by apply (steady_bytes (fun t => (if TotalBytes t <? offset then offset else TotalBytes t, offset, Checksum t)))|].
  intros e'. apply transfers_if; [|apply transfers_return]. apply (stream_then a 0 "" offset (verifyDownload a)); [done|apply verifyDownload_on].
Qed.
End transferring.

Lemma finish_own o id result e c (Q : unit -> gset token -> Manager -> Prop) m :
  running o id m -> (forall m', inv m' -> holds m' (Owning o) -> (forall x, active m' !! x <> Some o) -> Q tt {[Owning o]} m') ->
  wp Q (finish id result e c) {[Owning o]} m.
Proof.
  intros Hr HQ. apply (finish_spec id result e c o); [apply own_not_persisting|apply own_owning|apply Hr|].
  intros m' Hi _ Hh Hn. apply HQ; [done|apply Hh, own_owning|done].
Qed.

Lemma goroutine_spec o ts m : transfer_entry o ts m -> wp (fun _ _ _ => True) (run o) ts m.
Proof.
  intros (-> & a0 & Ha0 & Hact0). unfold run. apply wp_bind. intros m1 Hr1.
  destruct (r_transfer _ _ _ (rely_rel _ _ _ Hr1) o a0 Ha0) as (a & Ha & (Hid & _)). rewrite Ha.
  assert (running o (at_task a) m1) as Hrun.
  { split; [by eapply rely_inv|]. split; [eapply rely_holds; [done|apply own_owning]|]. rewrite Hid. eapply owned; [apply own_owning|done|done]. }
  exists {[Owning o]}. split; [by eapply guar_unchanged|]. apply wp_bind, (running_update o); [done|by apply steady_status|]. intros e m2 Hrun2 _.
  assert (forall m, inv m -> holds m (Owning o) -> (forall x, active m !! x <> Some o) ->
    wp (fun _ _ _ => True) (_ ← locked (fun m => (set_transfer m o set_done, tt)); locked (fun m => (set_wg m (wg m ∖ {[o]}), tt))) {[Owning o]} m) as Hend.
  { intros m3 Hi3 Hh3 Hn3. apply wp_bind, wp_locked. intros m4 Hr4. assert (change ∅ m4 (set_transfer m4 o set_done)) as Hc4 by (by apply change_transfer; [eapply rely_inv|]).
    exists {[Owning o]}. split; [eapply guar_keep; [done|by eapply change_more; [|done]|by intros []|done]|]. apply wp_locked. intros m5 Hr5.
    exists ∅. split; [|done]. eapply guar_keep; [done|apply change_wg_done; [by eapply rely_inv| |apply own_owning]|by intros []|done].
    intros x Hx. apply (Hn3 x). pose proof (rely_rel _ _ _ Hr5) as [_ _ _ _ _ Ho5 _ _ _]. apply (Ho5 o (own_owning o)) in Hx. cbn in Hx.
    pose proof (rely_rel _ _ _ Hr4) as [_ _ _ _ _ Ho4 _ _ _]. by apply (Ho4 o (own_owning o)). }
  apply wp_bind. destruct (is_nil e); cbn [negb]; [|by apply (finish_own o)].
  apply wp_bind. assert (transfers_on o (at_task a) (if bool_decide (rq_Direction (at_request a) = fileTransferDirectionUpload) then runUpload a else runDownload a)) as Hon.
  { apply transfers_if; [by apply runUpload_on|by apply runDownload_on]. }
  apply Hon; [done|]. intros [result e'] m3 Hrun3 _. apply wp_bind, (running_reading o (at_task a)); [done|]. intros m4 Hrun4 _. by apply (finish_own o).
Qed.

(** *** The lock of the operations *)

Definition covered_but (P : nat -> Prop) (r : nat) (m : Manager) : Prop :=
  forall id o a, active m !! id = Some o -> transfers m !! o = Some a -> at_reader a = r -> o ∈ wg m \/ P o.

Lemma covered_but_none r m : covered_but (fun _ => False) r m <-> covered r m.
Proof. split; intros Hc id o a H1 H2 H3; [by destruct (Hc id o a H1 H2 H3)|left; by eapply Hc]. Qed.

Lemma covered_but_rely P ts r m m' : Reading r ∈ ts -> r ∈ readers m -> rely ts m m' -> covered_but P r m -> covered_but P r m'.
Proof.
  intros Ht Hin Hr%rely_rel Hc id o a Hact Ha Har. destruct (r_reader _ _ _ Hr r Ht Hin) as (_ & _ & Hnew & Hold).
  destruct (Hnew o a Ha Har) as [a0 Ha0]. destruct (r_transfer _ _ _ Hr o a0 Ha0) as (a' & Ha' & (_ & Heq & _)). assert (at_reader a0 = r) as Har0 by congruence.
  destruct (Hold o a0 id Ha0 Har0 Hact) as [Hact0 Hw]. destruct (Hc id o a0 Hact0 Ha0 Har0) as [Hin0|HP]; [left; by apply Hw|by right].
Qed.

(** The thread has the read lock [r], and the transfers that it started run. *)
Definition in_read (r : nat) (m : Manager) : Prop := inv m /\ r ∈ readers m /\ covered r m.

Lemma in_read_rely ts r m m' : Reading r ∈ ts -> in_read r m -> rely ts m m' -> in_read r m'.
Proof.
  intros Ht (Hi & Hin & Hc) Hr. split; [by eapply rely_inv|]. split; [by apply (rely_holds _ _ _ (Reading r) Hr)|].
  apply covered_but_none. eapply covered_but_rely; [done|done|done|]. by apply covered_but_none.
Qed.

Lemma stopped_rely ts r m m' : Reading r ∈ ts -> r ∈ readers m -> rely ts m m' -> stopped m' = stopped m.
Proof. intros Ht Hin Hr%rely_rel. by destruct (r_reader _ _ _ Hr r Ht Hin) as (_ & ? & _). Qed.

Lemma RLock_spec (Q : nat -> gset token -> Manager -> Prop) m :
  (forall r m', in_read r m' -> evolves m m' -> Q r {[Reading r]} m') -> wp Q RLock ∅ m.
Proof.
  intros HQ m1 Hr. destruct (writer m1) eqn:Hw; [done|]. pose proof (rely_inv _ _ _ Hr) as Hi. set (r := next_reader m1).
  assert (change ∅ m1 (set_lifecycle m1 ({[r]} ∪ readers m1) (S r) false)) as Hc by (by apply change_RLock).
  assert (r ∉ readers m1) as Hn. { intros Hin. pose proof (v_readers strict path m1 Hi r Hin). unfold r in *. lia. }
  exists {[Reading r]}. split.
  - replace ({[Reading r]} : gset token) with ({[Reading r]} ∪ ∅ : gset token) by set_solver. eapply guar_take; [done|done| |done|cbn; set_solver].
    intros []; cbn; try done; [set_solver|by rewrite Hw].
  - apply HQ; [|eapply evolves_then; [by eapply evolves_rely|by eapply change_evolves]]. split; [apply Hc|]. split; [cbn; set_solver|].
    intros id o a _ Ha Har. cbn in Ha. destruct (v_fresh strict path m1 Hi o a Ha) as [_ Hlt]. unfold r in *. lia.
Qed.

Lemma with_reader_spec {A} (body : nat -> prog A) (Q : A -> gset token -> Manager -> Prop) m :
  (forall r m1, in_read r m1 -> evolves m m1 -> wp (fun x ts m' => ts = {[Reading r]} /\ in_read r m' /\ evolves m m') (body r) {[Reading r]} m1) ->
  (forall x m', inv m' -> evolves m m' -> Q x ∅ m') -> wp Q (with_reader body) ∅ m.
Proof.
  intros Hbody HQ. unfold with_reader. apply wp_bind, RLock_spec. intros r m1 Hin He. apply wp_bind. eapply wp_mono; [|by apply Hbody].
  intros x ts m2 (-> & Hin2 & He2). apply wp_bind, wp_locked. intros m3 Hr3. pose proof (in_read_rely {[Reading r]} r m2 m3 ltac:(set_solver) Hin2 Hr3) as (Hi3 & Hin3 & Hc3).
  exists ∅. assert (change {[Reading r]} m3 (set_lifecycle m3 (readers m3 ∖ {[r]}) (next_reader m3) (writer m3))) as Hc by (apply change_RUnlock; [done|done|set_solver]). split.
  - replace ({[Reading r]} : gset token) with ({[Reading r]} ∪ ∅ : gset token) in Hr3, Hc |- * by set_solver. eapply guar_drop; [done|done|set_solver|].
    intros [] Hne; cbn; try done. set_solver.
  - apply wp_return, HQ; [apply Hc|]. eapply evolves_then; [done|]. eapply evolves_then; [by eapply evolves_rely|by eapply change_evolves].
Qed.

(** *** New transfers *)

Lemma NewString_spec (Q : string -> gset token -> Manager -> Prop) ts m :
  (forall id m1 m', rely ts m m1 -> change ∅ m1 m' -> rely ({[Naming id]} ∪ ts) m' m' -> tasks m' !! id = None -> is_Some (uuid_Parse id) -> (strict = true -> utf8_ValidString id = true) ->
     rely ts m m' -> Q id ({[Naming id]} ∪ ts) m') -> wp Q NewString ts m.
Proof.
  intros HQ. unfold NewString. apply wp_bind. intros x Hx. cbn [wp]. intros m1 Hr. pose proof (answers_fit _ _ Hx) as Hf. destruct x as [|id| | | | |]; cbn in Hf; try discriminate.
  destruct (uuid_Parse id) as [u|] eqn:Hu; [|done]. destruct (bool_decide_reflect (id ∈ issued m1)) as [Hin|Hn]; [done|]. pose proof (rely_inv _ _ _ Hr) as Hi.
  assert (change ∅ m1 (set_issued m1 ({[id]} ∪ issued m1))) as Hc by (by apply change_issued).
  assert (forall t, holds m1 t -> holds (set_issued m1 ({[id]} ∪ issued m1)) t) as Hh by (intros []; cbn; try done; set_solver).
  assert (rely ts m (set_issued m1 ({[id]} ∪ issued m1))) as Hr' by (eapply rely_step; [done|done|set_solver|auto]).
  exists ({[Naming id]} ∪ ts). split; [eapply guar_take; [done|eapply change_more; [|done]; set_solver|done|done|cbn; set_solver]|].
  eapply HQ; [exact Hr|exact Hc| | |by exists u|intros Hs; by apply (answers_text id Hs)|done].
  - apply rely_refl_; [apply Hc|]. intros t [->%elem_of_singleton|Ht]%elem_of_union; [cbn; set_solver|]. by eapply rely_holds.
  - cbn. destruct (tasks m1 !! id) as [t|] eqn:E; [|done]. destruct Hn. apply (v_issued strict path m1 Hi). by exists t.
Qed.

(** The task [t] can be launched with the transfer [o]. *)
Record launchable (ts : gset token) (r o : nat) (t : Task) (m : Manager) : Prop := {
  l_tokens : Reading r ∈ ts /\ Owning o ∈ ts /\ Persisting ∉ ts;
  l_read : in_read r m;
  l_stopped : stopped m = false;
  l_transfer : exists a, transfers m !! o = Some a /\ at_task a = ID t /\ at_reader a = r;
  l_unused : forall id, active m !! id <> Some o;
  l_idle : active m !! ID t = None;
  l_name : is_Some (tasks m !! ID t) \/ Naming (ID t) ∈ ts
}.

Lemma launchable_rely ts r o t m m' :
  launchable ts r o t m -> tasks m' = tasks m -> active m' = active m -> rely ts m m' -> launchable ts r o t m'.
Proof.
  intros [(K1 & K1' & K1'') K2 K3 (a & Ha & Hid & Har) K5 K6 K7] Ht Hact Hr. split; try done; rewrite ?Ht, ?Hact; try done.
  - by eapply in_read_rely.
  - rewrite (stopped_rely ts r m m'); [done|done|apply K2|done].
  - destruct (r_transfer _ _ _ (rely_rel _ _ _ Hr) o a Ha) as (a' & Ha' & (E1 & E2 & _)). exists a'. split; [done|]. by rewrite E1, E2.
Qed.

Lemma launch_commit ts r o t m m1 :
  launchable ts r o t m -> rely ts m m -> in_flight (Status t) = true -> (strict = true -> good t) -> inv m1 -> persistMu m1 = true ->
  tasks m1 = tasks m -> active m1 = active m -> rely ts m m1 ->
  change ({[Persisting]} ∪ ts) m1 (set_tasks m1 (<[ID t := t]> (tasks m1)) (<[ID t := o]> (active m1))) /\ launchable ts r o t m1.
Proof.
  intros Hl Hm Hf Hok Hi Hp Ht Ha Hr. assert (launchable ts r o t m1) as Hl1 by (by eapply launchable_rely). split; [|done].
  destruct Hl1 as [(K1 & K1' & K1'') K2 K3 (a & Haa & Hid & Har) K5 K6 K7]. eapply change_launch; [done|done|set_solver|set_solver|done|done| | |done|done|done|done| | |done].
  - rewrite Har. apply K2.
  - rewrite Har. set_solver.
  - destruct K7 as [Hs|Hn]; [by apply (v_issued strict path m1 Hi)|]. exact (rely_holds _ _ _ _ Hr Hn).
  - destruct K7; [by left|right; set_solver].
Qed.

Lemma launchPrepared_spec ts r o t (Q : errs -> gset token -> Manager -> Prop) m :
  launchable ts r o t m -> rely ts m m -> in_flight (Status t) = true -> (strict = true -> good t) -> disk_ok m ->
  (forall e m', in_read r m' -> evolves m m' -> Q e {[Reading r]} m') -> wp Q (launchPrepared t o (tasks m)) ({[Persisting]} ∪ ts) m.
Proof.
  intros Hl Hm Hf Hok Hd HQ. destruct (l_tokens _ _ _ _ _ Hl) as (Ht1 & Ht2 & Ht3). unfold launchPrepared. apply wp_bind, persist_spec; [done| |].
  - intros m1 Hr1 Et1 Ea1 Ek1. cbn [is_nil]. apply wp_bind, commit_spec; [done|]. intros m2 Hi2 Hp2 Et2 Ea2 Ek2 Hr2.
    destruct (launch_commit ts r o t m m2) as [Hc Hl2]; try done; [congruence|congruence|by eapply rely_next|]. rewrite <- Et1, <- Et2.
    split; [done|]. split; [by intros []|]. set (m3 := set_tasks m2 _ _) in *.
    assert (covered_but (fun x => x = o) r m3) as Hcb.
    { intros id x a. unfold m3. cbn. intros [[<- <-]|[_ Hx]]%lookup_insert_Some Ha Har; [by right|left]. by eapply (l_read _ _ _ _ _ Hl2). }
    assert (rely ts m3 m3) as Hr33.
    { apply rely_refl_; [apply Hc|]. intros x Hx. pose proof (rely_holds _ _ _ x Hr2 Hx) as Hh. by destruct x. }
    apply wp_bind, unlock_persist_spec; [done|by apply disk_current; [apply Hc|intros Hpath; unfold m3; cbn; rewrite Ek2, (Ek1 Hpath), Et2, Et1]|].
    intros m4 Hr4. apply wp_bind, ask_err_spec. intros _. apply wp_bind, wp_locked. intros m5 Hr5.
    pose proof (rely_next _ _ _ _ Hr4 Hr5) as Hr35. destruct (l_read _ _ _ _ _ Hl2) as (_ & Hin2 & _). assert (r ∈ readers m3) as Hin3 by done.
    pose proof (covered_but_rely _ _ _ _ _ Ht1 Hin3 Hr35 Hcb) as Hcb5. assert (r ∈ readers m5) as Hin5 by (by apply (rely_holds _ _ _ (Reading r) Hr35)).
    destruct (l_transfer _ _ _ _ _ Hl2) as (a & Ha & Hid & Har). destruct (r_transfer _ _ _ (rely_rel _ _ _ Hr35) o a Ha) as (a5 & Ha5 & (Hid5 & _)).
    assert (active m3 !! ID t = Some o) as Hact3 by (unfold m3; cbn; by rewrite lookup_insert_eq). pose proof (owned _ _ _ _ _ Ht2 Hr35 Hact3) as Hact5.
    assert (change ts m5 (set_wg m5 ({[o]} ∪ wg m5))) as Hc5.
    { eapply (change_wg_add strict path ts m5 o a5 r); [by eapply rely_inv|done| |done|done]. rewrite (stopped_rely ts r m3 m5); [by apply (l_stopped _ _ _ _ _ Hl2)|done|done|done]. }
    exists ts. split; [eapply guar_keep; [done|done|by intros []|done]|]. cbn [fst snd wp]. exists {[Owning o]}, {[Reading r]}.
    split; [set_solver|]. split; [set_solver|]. split.
    + split; [done|]. exists a5. split; [done|]. cbn. by rewrite Hid5, Hid.
    + apply HQ.
      * split; [apply Hc5|]. split; [done|]. intros id x b Hx Hb Hbr. destruct (Hcb5 id x b Hx Hb Hbr) as [Hw| ->]; cbn; set_solver.
      * eapply evolves_then; [by eapply evolves_rely|]. eapply evolves_then; [by eapply evolves_rely|]. eapply evolves_then; [by eapply change_evolves|].
        eapply evolves_then; [by eapply evolves_rely|]. by eapply change_evolves.
  - intros e m0 He Hr0 Et0 Ea0 Ek0. rewrite He. apply wp_bind, unlock_persist_spec; [done|by apply (disk_ok_same strict path m)|].
    intros m1 Hr1'. pose proof (rely_next _ _ _ _ Hr0 Hr1') as Hr1. apply wp_bind, wp_locked. intros m2 Hr2.
    assert (change ∅ m2 (set_transfer m2 o set_cancelled)) as Hc by (by apply change_transfer; [eapply rely_inv|]). exists {[Reading r]}. split.
    + eapply guar_keep; [done|eapply change_more; [|done]; set_solver|by intros []|set_solver].
    + apply wp_return, HQ.
      * assert (rely ts m (set_transfer m2 o set_cancelled)) as Hr3 by (eapply rely_step; [by eapply rely_next|done|set_solver|by intros []]).
        eapply in_read_rely; [|by apply Hl|done]. done.
      * eapply evolves_then; [by eapply evolves_rely|]. eapply evolves_then; [by eapply evolves_rely|]. by eapply change_evolves.
Qed.

Lemma launchable_fresh ts r o t m m' :
  launchable ts r o t m -> Naming (ID t) ∈ ts -> tasks m !! ID t = None -> rely ts m m' -> launchable ts r o t m' /\ tasks m' !! ID t = None.
Proof.
  intros [(K1 & K1' & K1'') K2 K3 (a & Ha & Hid & Har) K5 K6 K7] Hn Ht Hr. pose proof (rely_rel _ _ _ Hr) as Hrel.
  assert (tasks m' !! ID t = None) as Ht' by (by apply (r_name _ _ _ Hrel)). split; [|done]. split; [done|by eapply in_read_rely| | | | |by right].
  - rewrite (stopped_rely ts r m m'); [done|done|apply K2|done].
  - destruct (r_transfer _ _ _ Hrel o a Ha) as (a' & Ha' & (E1 & E2 & _)). exists a'. split; [done|]. by rewrite E1, E2.
  - intros id Hid'. destruct (r_owner _ _ _ Hrel o K1') as [Hiff _]. by apply (K5 id), Hiff.
  - destruct (active m' !! ID t) as [x|] eqn:E; [|done]. destruct (v_active strict path m' (rely_inv _ _ _ Hr) _ x E) as [[? ?] _]. congruence.
Qed.

(** The transfer has an owner now. *)
Lemma add_transfer_change ts r a m0 m :
  Reading r ∈ ts -> at_reader a = r -> rely ts m0 m -> in_read r m ->
  guar ts m (add_transfer m a) ({[Owning (next m)]} ∪ ts) /\ evolves m (add_transfer m a) /\ in_read r (add_transfer m a) /\
  rely ({[Owning (next m)]} ∪ ts) (add_transfer m a) (add_transfer m a) /\ forall id, active (add_transfer m a) !! id <> Some (next m).
Proof.
  intros Ht Har Hr (Hi & Hin & Hc). destruct (fresh_transfer strict path m Hi) as (Hn & Hna & Hnw).
  assert (change ts m (add_transfer m a)) as Hch by (by apply change_add; rewrite ?Har).
  assert (forall t, holds m t -> holds (add_transfer m a) t) as Hh by (intros []; cbn; try done; lia).
  split; [eapply guar_take; [done|done|done|cbn; lia|cbn; lia]|]. split; [by eapply change_evolves|]. split; [|split; [|done]].
  - split; [apply Hch|]. split; [done|]. intros id o b Ho Hb Hbr. cbn in *. rewrite lookup_insert_ne in Hb; [by eapply Hc|]. intros <-. by apply (Hna id).
  - apply rely_refl_; [apply Hch|]. intros t [->%elem_of_singleton|Hin']%elem_of_union; [cbn; lia|]. by apply Hh, (rely_holds _ _ _ _ Hr).
Qed.

(** *** Tasks of requests *)

(** A restart knows the local path again, and the strings are UTF-8. *)
Definition durable (q : Request) : bool :=
  match cleanLocalPath (rq_LocalPath q) with
  | inr path => bool_decide (cleanLocalPath path = inr path) && utf8_ValidString path
                && forallb utf8_ValidString [rq_ProfileID (trimmed q); rq_Pod (trimmed q); rq_Container (trimmed q); rq_RemotePath (trimmed q)]
  | inl _ => true
  end.
Definition session_text (s : Session) : bool := utf8_ValidString (ss_ID s) && utf8_ValidString (ss_Namespace s).

Lemma set_places_same t : set_places (ResumeID t) (TemporaryPath t) t = t.
Proof. by destruct t. Qed.

Lemma places_new t : ResumeID t = (if is_upload t then ID t else "") ->
  TemporaryPath t = (if is_download t then downloadTemporaryPath (LocalPath t) (ID t) else "") -> places t = inr t.
Proof.
  intros Hr Hp. rewrite places_eq. transitivity (inr (set_places (ResumeID t) (TemporaryPath t) t) : errs + Task); [|by rewrite set_places_same].
  destruct (is_upload t), (is_download t); rewrite Hr, Hp, ?(bool_decide_eq_true_2 (ID t = ID t)), ?(bool_decide_eq_true_2 (("" : string) = "")),
    ?(bool_decide_eq_true_2 (downloadTemporaryPath (LocalPath t) (ID t) = downloadTemporaryPath (LocalPath t) (ID t))), ?orb_true_r by done; done.
Qed.

Lemma resumed_ok now s t : good t -> session_text s = true -> now <> 0 ->
  let resumeID := if is_upload t && bool_decide (ResumeID t = "") then ID t else ResumeID t in
  let temporary := if is_download t && bool_decide (TemporaryPath t = "") then downloadTemporaryPath (LocalPath t) (ID t) else TemporaryPath t in
  good (set_resumed s now resumeID temporary t).
Proof.
  intros [Ht Hclean] [Hs1 Hs2]%andb_true_iff Hnow resumeID temporary. destruct (task_ok_places t Ht) as [Hr Hp]. apply task_ok_iff in Ht as [Hc _].
  assert (resumeID = if is_upload t then ID t else "") as Hr'.
  { unfold resumeID. destruct (is_upload t); cbn [andb]; [|done]. by destruct (bool_decide (ResumeID t = "")). }
  assert (temporary = if is_download t then downloadTemporaryPath (LocalPath t) (ID t) else "") as Hp'.
  { unfold temporary. destruct (is_download t); cbn [andb]; [|done]. by destruct (bool_decide (TemporaryPath t = "")). }
  split.
  - apply task_ok_iff. split; [|apply places_new; [exact Hr'|exact Hp']]. apply checked_parts in Hc as (Hb & _). apply checked_parts. done.
  - rewrite Hr', Hp'. revert Hclean. unfold clean. cbn. rewrite !Forall_cons. intros (H1 & H2 & H3 & H4 & H5 & H6 & H7 & H8 & H9 & H10 & H11 & H12 & H13 & H14 & _).
    split_and!; try done; [by destruct (is_upload t)|]. destruct (is_download t); [by apply temporary_text|done].
Qed.

Lemma check_request_inr p s q r : check_request p s (trimmed q) = inr r ->
  exists local, cleanLocalPath (rq_LocalPath q) = inr local /\ r = with_local local (trimmed q) /\
    rq_ProfileID (trimmed q) = pf_ID p /\ rq_ProfileID (trimmed q) <> "" /\
    (rq_Direction (trimmed q) = fileTransferDirectionUpload \/ rq_Direction (trimmed q) = fileTransferDirectionDownload) /\
    (rq_Kind (trimmed q) = fileTransferKindFile \/ rq_Kind (trimmed q) = fileTransferKindDirectory) /\
    rq_Pod (trimmed q) <> "" /\ is_nil (validateManagerRemotePath (rq_RemotePath (trimmed q))) = true.
Proof.
  unfold check_request. intros Hq.
  destruct (_ || _ || _ || _ || _) eqn:E1 in Hq; [done|]. destruct (negb _ && negb _) eqn:E2 in Hq; [done|]. destruct (negb _ && negb _) eqn:E3 in Hq; [done|].
  destruct (bool_decide (rq_Pod (trimmed q) = "")) eqn:E4; [done|]. destruct (is_nil _) eqn:E5 in Hq; [cbn [negb] in Hq|done].
  cbn [rq_LocalPath trimmed] in Hq. destruct (cleanLocalPath (rq_LocalPath q)) as [e|local] eqn:E6; [done|]. injection Hq as <-. exists local.
  apply orb_false_iff in E1 as [[[[E1 Eb]%orb_false_iff _]%orb_false_iff _]%orb_false_iff _]. apply bool_decide_eq_false in E1, E4.
  apply negb_false_iff, bool_decide_eq_true in Eb. apply andb_false_iff in E2, E3. rewrite !negb_false_iff, !bool_decide_eq_true in E2, E3. done.
Qed.

Lemma new_task_ok id now p s q r : is_Some (uuid_Parse id) -> now <> 0 -> check_request p s (trimmed q) = inr r -> durable q = true -> task_ok (new_task id now p s r).
Proof.
  intros [u Hu] Hnow (local & E6 & -> & Hp & Hne & Hdir & Hkind & Hpod & Hremote)%check_request_inr Hd.
  unfold durable in Hd. rewrite E6 in Hd. apply andb_true_iff in Hd as [[Hd%bool_decide_eq_true _]%andb_true_iff _]. apply task_ok_iff. split.
  - apply checked_parts. split; [|done]. unfold base, new_task. rewrite <- Hp.
    cbn [ID ProfileID CreatedAt Direction Kind Pod LocalPath RemotePath with_local trimmed rq_Direction rq_Kind rq_Pod rq_RemotePath rq_LocalPath rq_ProfileID] in *.
    rewrite Hu, Hd, Hremote, (bool_decide_eq_true_2 (local = local)) by done. destruct (Z.eqb_spec now 0); [done|]. rewrite !TrimSpace_idem.
    rewrite (bool_decide_eq_false_2 _ Hne), (bool_decide_eq_false_2 _ Hpod). by destruct Hdir as [-> | ->], Hkind as [-> | ->].
  - apply places_new; unfold new_task, is_upload, is_download; cbn [ResumeID TemporaryPath Kind Direction ID LocalPath with_local rq_Direction rq_Kind] in *;
      by destruct Hdir as [-> | ->], Hkind as [-> | ->].
Qed.

Lemma new_task_good id now p s q r :
  is_Some (uuid_Parse id) -> utf8_ValidString id = true -> now <> 0 -> check_request p s (trimmed q) = inr r ->
  durable q = true -> session_text s = true -> good (new_task id now p s r).
Proof.
  intros Hu Hi Hnow Hq Hd Hs. split; [by eapply new_task_ok|]. apply check_request_inr in Hq as (local & E6 & -> & Hp & _ & Hdir & Hkind & _).
  unfold durable in Hd. rewrite E6 in Hd. apply andb_true_iff in Hd as [[_ Hl]%andb_true_iff Hd]. apply andb_true_iff in Hs as [Hs1 Hs2].
  cbn [forallb] in Hd. apply andb_true_iff in Hd as [D1 [D2 [D3 [D4 _]%andb_true_iff]%andb_true_iff]%andb_true_iff].
  unfold clean, new_task. rewrite !Forall_cons. rewrite <- Hp. cbn [ID ProfileID SessionID Namespace Direction Kind Pod Container LocalPath RemotePath Status Checksum ResumeID TemporaryPath
    with_local rq_ProfileID rq_Direction rq_Kind rq_Pod rq_Container rq_RemotePath rq_LocalPath].
  pose proof (temporary_text local id Hl Hi) as Ht. destruct Hdir as [-> | ->], Hkind as [-> | ->]; split_and!; try done; by constructor.
Qed.

(** *** Operations *)

Lemma reading_in r {A} (f : Manager -> A) (Q : A -> gset token -> Manager -> Prop) ts m :
  Reading r ∈ ts -> in_read r m -> (forall m1, in_read r m1 -> evolves m m1 -> rely ts m m1 -> Q (f m1) ts m1) -> wp Q (reading f) ts m.
Proof.
  intros Ht Hin HQ. apply wp_look. intros m1 Hr. apply HQ; [by eapply in_read_rely|by eapply evolves_rely|done].
Qed.

Lemma start_transfer_spec p s q (Q : errs + Task -> gset token -> Manager -> Prop) m :
  (strict = true -> durable q = true /\ session_text s = true) -> (forall x m', inv m' -> evolves m m' -> Q x ∅ m') -> wp Q (Start p s q) ∅ m.
Proof.
  intros Hd HQ. unfold Start. apply with_reader_spec; [|done]. intros r m1 Hin1 He1. set (ts := {[Reading r]} : gset token). assert (Reading r ∈ ts) as Ht by (unfold ts; set_solver).
  apply wp_bind, (reading_in r); [done|done|]. intros m2 Hin2 He2 Hr2. assert (evolves m m2) as Hem2 by (by eapply evolves_then).
  destruct (stopped m2) eqn:Hs; [by apply wp_return|]. destruct (check_request p s (trimmed q)) as [e|req] eqn:Hq; [by apply wp_return|].
  apply wp_bind, ask_now_spec. intros now Hnow. apply wp_bind, NewString_spec. intros id m3' m3 Hr3' Hc3 Hr33 Htask3 Huuid Htext Hr3.
  set (ts1 := {[Naming id]} ∪ ts) in *. assert (in_read r m3) as Hin3 by (by eapply in_read_rely). assert (stopped m3 = false) as Hs3 by (rewrite (stopped_rely ts r m2 m3); [done|done|apply Hin2|done]).
  set (t := new_task id now p s req). apply wp_bind. unfold new_transfer. set (a := mkTransfer (ID t) r p s req (ResumeID t) (TemporaryPath t) false false).
  apply wp_locked. intros m4 Hr4. assert (in_read r m4) as Hin4 by (eapply in_read_rely; [|done|done]; unfold ts1; set_solver).
  destruct (add_transfer_change ts1 r a m3 m4) as (Hg & He4 & Hin5 & Hr5 & Hun); [unfold ts1; set_solver|done|done|done|]. cbn [fst snd].
  set (m5 := add_transfer m4 a) in *. set (o := next m4) in *. set (ts2 := {[Owning o]} ∪ ts1) in *. exists ts2. split; [done|].
  assert (tasks m5 !! ID t = None) as Htask5. { unfold m5. cbn. apply (r_name _ _ _ (rely_rel _ _ _ Hr4)); [unfold ts1; set_solver|done]. }
  assert (Naming (ID t) ∈ ts2) as Hname by (unfold ts2, ts1, t; cbn; set_solver).
  assert (launchable ts2 r o t m5) as Hl5.
  { split; [unfold ts2, ts1, ts; set_solver|done| | |done| |by right].
    - unfold m5. cbn. rewrite (stopped_rely ts1 r m3 m4); [done|unfold ts1; set_solver|apply Hin3|done].
    - exists a. split; [unfold m5, o; cbn; by rewrite lookup_insert_eq|done].
    - destruct (active m5 !! ID t) as [x|] eqn:E; [|done]. destruct Hin5 as (Hi5 & _). destruct (v_active strict path m5 Hi5 _ x E) as [[? ?] _]. congruence. }
  apply wp_bind, lock_persist_spec; [apply Hl5|]. intros m6 Hr6 Hd6 _. destruct (launchable_fresh _ _ _ _ _ _ Hl5 Hname Htask5 Hr6) as [Hl6 Htask6].
  apply wp_bind, wp_look. intros m7 Hr7. destruct (persisting ts2 m6 m7 Hr7) as (Hi7 & Hp7 & Et7 & Ea7 & Ek7 & Hr7').
  destruct (launchable_fresh _ _ _ _ _ _ Hl6 Hname Htask6 Hr7') as [Hl7 _]. apply wp_bind, (launchPrepared_spec ts2 r o t); [done| |done| |by apply (disk_ok_same strict path m6)|].
  - apply rely_refl_; [done|]. apply Hr7'.
  - intros Hst. unfold t. destruct (Hd Hst). eapply new_task_good; [done|by apply Htext|done|done|done|done].
  - intros e m8 Hin8 He8. apply wp_return. split; [done|]. split; [done|]. eapply evolves_then; [exact Hem2|]. eapply evolves_then; [by eapply evolves_rely|].
    eapply evolves_then; [by eapply evolves_rely|]. eapply evolves_then; [done|]. eapply evolves_then; [by eapply evolves_rely|]. eapply evolves_then; [by eapply evolves_rely|done].
Qed.

Lemma resumable_spec m profileID id t : resumable m profileID id = Some t ->
  tasks m !! id = Some t /\ active m !! id = None.
Proof.
  unfold resumable. destruct (tasks m !! id) as [t0|] eqn:Et; [|done]. destruct (_ || _ || _) eqn:E; [done|]. intros [= ->]. split; [done|].
  apply orb_false_iff in E as [[_ E]%orb_false_iff _]. apply bool_decide_eq_false in E. destruct (active m !! id); [by destruct E|done].
Qed.

Lemma resume_transfer_spec p s profileID id (Q : errs + Task -> gset token -> Manager -> Prop) m :
  (strict = true -> session_text s = true) -> (forall x m', inv m' -> evolves m m' -> Q x ∅ m') -> wp Q (Resume p s profileID id) ∅ m.
Proof.
  intros Hsession HQ. unfold Resume. apply with_reader_spec; [|done]. intros r m1 Hin1 He1. set (ts := {[Reading r]} : gset token). assert (Reading r ∈ ts) as Ht by (unfold ts; set_solver).
  apply wp_bind, (reading_in r); [done|done|]. intros m2 Hin2 He2 Hr2. assert (evolves m m2) as Hem2 by (by eapply evolves_then).
  destruct (stopped m2) eqn:Hs; [by apply wp_return|]. cbv zeta. destruct (negb _ || negb _); [by apply wp_return|].
  apply wp_bind, lock_persist_spec; [unfold ts; set_solver|]. intros m3 Hr3 Hd3 _. apply wp_bind, wp_look. intros m4 Hr4'.
  destruct (persisting ts m3 m4 Hr4') as (Hi4 & Hp4 & Et4 & Ea4 & Ek4 & Hr4''). pose proof (rely_next _ _ _ _ Hr3 Hr4'') as Hr4. pose proof (disk_ok_same strict path m3 m4 Et4 Ek4 Hd3) as Hd4.
  assert (in_read r m4) as Hin4 by (by eapply in_read_rely). assert (stopped m4 = false) as Hs4 by (rewrite (stopped_rely ts r m2 m4); [done|done|apply Hin2|done]).
  assert (evolves m m4) as Hem4 by (eapply evolves_then; [done|by eapply evolves_rely]). clear Hr4' Hr4'' Hr3 Hd3 Et4 Ea4 Ek4.
  destruct (resumable m4 (TrimSpace profileID) (TrimSpace id)) as [t0|] eqn:Hres; cbn [mbind option_bind].
  2:{ apply wp_bind, unlock_persist_spec; [unfold ts; set_solver|done|]. intros m5 Hr5. apply wp_return. split; [done|]. split; [by eapply in_read_rely|].
      eapply evolves_then; [done|by eapply evolves_rely]. }
  destruct (resumable_spec _ _ _ _ Hres) as [Ht0 Ha0]. pose proof (v_key strict path m4 Hi4 _ _ Ht0) as Hid0.
  apply wp_bind, ask_now_spec. intros now Hnow. cbv zeta. match goal with |- context [set_resumed s now ?a ?b t0] => set (t := set_resumed s now a b t0) end.
  apply wp_bind. unfold new_transfer. match goal with |- context [add_transfer _ ?x] => set (a := x) end.
  apply wp_locked. intros m5 Hr5'. destruct (persisting ts m4 m5 Hr5') as (Hi5 & Hp5 & Et5 & Ea5 & Ek5 & Hr5). assert (in_read r m5) as Hin5 by (by eapply in_read_rely).
  destruct (add_transfer_change ({[Persisting]} ∪ ts) r a m4 m5) as (Hg & He6 & Hin6 & Hr6 & Hun); [unfold ts; set_solver|done|done|done|]. cbn [fst snd].
  set (m6 := add_transfer m5 a) in *. set (o := next m5) in *. set (ts2 := {[Owning o]} ∪ ts).
  assert ({[Owning o]} ∪ ({[Persisting]} ∪ ts) = {[Persisting]} ∪ ts2) as Hts by (unfold ts2; set_solver). rewrite Hts in Hg, Hr6. exists ({[Persisting]} ∪ ts2). split; [done|].
  assert (launchable ts2 r o t m6) as Hl6.
  { split; [unfold ts2, ts; set_solver|done| | |done| |left].
    - unfold m6. cbn. rewrite (stopped_rely ts r m4 m5); [done|done|apply Hin4|done].
    - exists a. split; [unfold m6, o; cbn; by rewrite lookup_insert_eq|done].
    - unfold m6, t. cbn. by rewrite Ea5, Hid0.
    - unfold m6, t. cbn. rewrite Et5, Hid0. by exists t0. }
  replace (tasks m4) with (tasks m6) by done. apply wp_bind, (launchPrepared_spec ts2 r o t); [done| |done| | |].
  - eapply rely_sub; [|exact Hr6]. set_solver.
  - intros Hst. unfold t. apply resumed_ok; [by apply (v_ok strict path m4 Hi4 Hst _ _ Ht0)|by apply Hsession|done].
  - by apply (disk_ok_same strict path m4).
  - intros e m7 Hin7 He7. apply wp_return. split; [done|]. split; [done|]. eapply evolves_then; [exact Hem4|]. eapply evolves_then; [by eapply evolves_rely|]. by eapply evolves_then.
Qed.

Lemma inv_rely_none m m' : rely ∅ m m' -> inv m' /\ evolves m m'.
Proof. intros Hr. split; [by eapply rely_inv|by eapply evolves_rely]. Qed.

Lemma cancel_transfer_spec o (Q : unit -> gset token -> Manager -> Prop) ts m :
  (forall m', rely ts m m' -> Q tt ts m') -> wp Q (cancel o) ts m.
Proof.
  intros HQ. apply wp_locked. intros m1 Hr. assert (change ∅ m1 (set_transfer m1 o set_cancelled)) as Hc by (by apply change_transfer; [eapply rely_inv|]).
  exists ts. split; [eapply guar_keep; [done|eapply change_more; [|done]; set_solver|by intros []|done]|]. apply HQ. eapply rely_step; [done|done|set_solver|by intros []].
Qed.

Lemma Cancel_spec profileID id (Q : errs -> gset token -> Manager -> Prop) m :
  (forall x m', inv m' -> evolves m m' -> Q x ∅ m') -> wp Q (Cancel profileID id) ∅ m.
Proof.
  intros HQ. unfold Cancel. apply wp_bind, wp_look. intros m1 Hr1. destruct (inv_rely_none _ _ Hr1) as [Hi1 He1].
  destruct (match active m1 !! id with Some o => _ | None => None end) as [o|]; [|by apply wp_return, HQ].
  apply wp_bind, cancel_transfer_spec. intros m2 Hr2. destruct (inv_rely_none _ _ Hr2) as [Hi2 He2]. apply wp_return, HQ; [done|by eapply evolves_then].
Qed.

Lemma each_spec {X} (l : list X) body (J : Manager -> Prop) (Q : unit -> gset token -> Manager -> Prop) ts m :
  J m -> (forall x (K : unit -> gset token -> Manager -> Prop) m, x ∈ l -> J m -> (forall m', J m' -> K tt ts m') -> wp K (body x) ts m) ->
  (forall m', J m' -> Q tt ts m') -> wp Q (each l body) ts m.
Proof.
  intros HJ Hbody HQ. revert m HJ. induction l as [|x l IH]; intros m HJ; cbn [each]; [by apply wp_return, HQ|].
  apply wp_bind, Hbody; [left|done|]. intros m' HJ'. apply IH; [|done]. intros y K m0 Hy. apply Hbody. by right.
Qed.

Lemma Lock_spec (Q : unit -> gset token -> Manager -> Prop) m :
  (forall m', rely {[Writing]} m' m' -> evolves m m' -> Q tt {[Writing]} m') -> wp Q Lock ∅ m.
Proof.
  intros HQ m1 Hr. destruct (writer m1) eqn:Hw; cbn [orb]; [done|]. destruct (bool_decide_reflect (readers m1 = ∅)) as [Hn|Hn]; cbn [negb]; [|done].
  assert (change ∅ m1 (set_lifecycle m1 ∅ (next_reader m1) true)) as Hc by (by apply change_Lock; [eapply rely_inv|]). exists {[Writing]}. split.
  - replace ({[Writing]} : gset token) with ({[Writing]} ∪ ∅ : gset token) by set_solver. eapply guar_take; [done|done| |by cbn; rewrite Hw|done].
    intros []; cbn; try done; [set_solver].
  - apply HQ; [|eapply evolves_then; [by eapply evolves_rely|by eapply change_evolves]]. apply rely_refl_; [apply Hc|]. by intros t ->%elem_of_singleton.
Qed.

Lemma Unlock_spec (Q : unit -> gset token -> Manager -> Prop) m :
  (forall m', inv m' -> evolves m m' -> Q tt ∅ m') -> wp Q Unlock {[Writing]} m.
Proof.
  intros HQ. apply wp_locked. intros m1 Hr. assert (change {[Writing]} m1 (set_lifecycle m1 (readers m1) (next_reader m1) false)) as Hc by (apply change_Unlock; [by eapply rely_inv|set_solver]).
  exists ∅. split.
  - replace ({[Writing]} : gset token) with ({[Writing]} ∪ ∅ : gset token) in Hr, Hc |- * by set_solver. eapply guar_drop; [done|done|set_solver|]. by intros [].
  - apply HQ; [apply Hc|]. eapply evolves_then; [by eapply evolves_rely|by eapply change_evolves].
Qed.

Lemma transfers_of_spec m profileID o : inv m -> o ∈ transfers_of m profileID -> is_Some (transfers m !! o).
Proof.
  intros Hi. unfold transfers_of. rewrite list_elem_of_omap. intros ([id x] & Hin & Hx). apply elem_of_map_to_list in Hin.
  destruct (tasks m !! id) as [t|]; [|done]. cbn in Hx. destruct (bool_decide _); [|done]. injection Hx as ->.
  destruct (v_active strict path m Hi id o Hin) as (_ & a & Ha & _). by exists a.
Qed.

Lemma stop_transfers_spec profileID (Q : errs -> gset token -> Manager -> Prop) m :
  (forall x m', inv m' -> evolves m m' -> Q x ∅ m') -> wp Q (StopProfile profileID) ∅ m.
Proof.
  intros HQ. unfold StopProfile. apply wp_bind, Lock_spec. intros m1 Hr1 He1. apply wp_bind, wp_look. intros m2 Hr2.
  apply wp_bind. unfold ask_order. apply wp_answer. intros x Hf%answers_fit. destruct x as [| | | | | |l]; try discriminate. cbn in Hf. apply bool_decide_eq_true in Hf as Hperm.
  set (J := fun m' => rely {[Writing]} m2 m'). assert (J m2) as HJ by (eapply rely_refl_; [by eapply rely_inv|intros t Ht; by eapply rely_holds]).
  apply wp_bind, (each_spec _ _ J); [done| |].
  { intros o K m3 _ HJ3 HK. apply cancel_transfer_spec. intros m4 Hr4. apply HK. by eapply rely_next. }
  intros m3 HJ3. apply wp_bind, (each_spec _ _ J); [done| |].
  { intros o K m4 Ho HJ4 HK m5 Hr5. assert (J m5) as HJ5 by (by eapply rely_next). rewrite Hperm in Ho.
    destruct (transfers_of_spec m2 profileID o) as [a Ha]; [by eapply rely_inv|done|].
    destruct (r_transfer _ _ _ (rely_rel _ _ _ HJ5) o a Ha) as (a5 & -> & _). destruct (done a5); [|done]. exists {[Writing]}. split; [by eapply guar_unchanged|by apply HK]. }
  intros m4 HJ4. apply wp_bind, Unlock_spec. intros m5 Hi5 He5. apply wp_return, HQ; [done|]. eapply evolves_then; [exact He1|].
  eapply evolves_then; [by eapply evolves_rely|]. eapply evolves_then; [by eapply evolves_rely|done].
Qed.

Lemma ClearHistory_spec profileID (Q : errs -> gset token -> Manager -> Prop) m :
  (forall x m', inv m' -> evolves m m' -> Q x ∅ m') -> wp Q (ClearHistory profileID) ∅ m.
Proof.
  intros HQ. assert (forall x m', rely ∅ m m' -> Q x ∅ m') as HQ' by (intros x m' [? ?]%inv_rely_none; by apply HQ).
  unfold ClearHistory. apply wp_bind, lock_persist_spec; [set_solver|]. intros m1 Hr1 Hd1 _.
  apply wp_bind, wp_look. intros m2 Hr2'. destruct (persisting ∅ m1 m2 Hr2') as (Hi2 & Hp2 & Et2 & Ea2 & Ek2 & Hr2). pose proof (disk_ok_same strict path m1 m2 Et2 Ek2 Hd1) as Hd2.
  pose proof (rely_next _ _ _ _ Hr1 Hr2) as Hr. set (kept := filter _ (tasks m2)). set (removed := omap _ _). clearbody removed.
  apply wp_bind, persist_spec; [set_solver| |].
  - intros m3 Hr3 Et3 Ea3 Ek3. cbn [is_nil]. apply wp_bind, commit_spec; [set_solver|]. intros m4 Hi4 Hp4 Et4 Ea4 Ek4 Hr4.
    assert (change {[Persisting]} m4 (set_tasks m4 kept (active m4))) as Hc.
    { apply change_forget; [done|done|set_solver| |].
      - rewrite Et4, Et3. apply map_filter_subseteq.
      - intros id Ha. rewrite Et4, Et3. unfold kept. destruct (tasks m2 !! id) as [t|] eqn:Et; [|by apply map_lookup_filter_None; left].
        apply map_lookup_filter_Some. split; [done|]. unfold cleared. rewrite <- Ea3, <- Ea4, (bool_decide_eq_true_2 (is_Some (active m4 !! id))) by done. apply andb_false_r. }
    split; [eapply change_more; [|done]; set_solver|]. split; [by intros []|]. set (m5 := set_tasks m4 kept (active m4)) in *.
    assert (rely ∅ m m5) as Hr5 by (eapply rely_step; [by eapply rely_next; [|eapply rely_next]|done|set_solver|by intros []]).
    assert (disk_ok m5) as Hd5 by (apply disk_current; [apply Hc|intros Hpath; unfold m5; cbn; by rewrite Ek4, Ek3]).
    apply wp_bind, (each_spec _ _ (fun m' => m' = m5)); [done| |].
    { intros removed_path K m6 _ -> HK. apply wp_bind, ask_err_spec. intros _. by apply wp_return, HK. }
    intros m6 ->. apply wp_bind, unlock_persist_spec; [set_solver|done|]. intros m7 Hr7. apply wp_return, HQ'. by eapply rely_next.
  - intros e m3 He Hr3 Et3 Ea3 Ek3. rewrite He. apply wp_bind, unlock_persist_spec; [set_solver|by apply (disk_ok_same strict path m2)|].
    intros m4 Hr4. apply wp_return, HQ'. by eapply rely_next; [|eapply rely_next].
Qed.

Lemma at_rest_evolves m m' : at_rest m -> evolves m m' -> at_rest m'.
Proof.
  intros (Hs & Ha & Hw) [_ _ K3 K4 _ _ _ _ _]. destruct (K4 Hs) as [Ka Kw]. split; [by apply K3|]. split; [|set_solver].
  rewrite Ha in Ka. apply map_empty. intros id. destruct (active m' !! id) as [o|] eqn:E; [|done]. by apply (lookup_weaken _ _ _ _ E) in Ka.
Qed.

Lemma shutdown_transfers_spec (Q : errs -> gset token -> Manager -> Prop) m :
  (forall x m', inv m' -> evolves m m' -> at_rest m' -> Q x ∅ m') -> wp Q Shutdown ∅ m.
Proof.
  intros HQ. unfold Shutdown. apply wp_bind, Lock_spec. intros m1 Hr1 He1. apply wp_bind, wp_locked. intros m2 Hr2.
  assert (writer m2 = true) as Hw2 by (apply (rely_holds _ _ _ Writing Hr2); set_solver). pose proof (v_lock strict path m2 (rely_inv _ _ _ Hr2) Hw2) as Hn2.
  assert (change ∅ m2 (set_stopped m2)) as Hc2 by (by apply change_stopped; [eapply rely_inv|]). exists {[Writing]}.
  split; [eapply guar_keep; [done|eapply change_more; [|done]; set_solver|by intros []|done]|]. apply wp_bind. intros m3 Hr3.
  destruct (bool_decide_reflect (wg m3 = ∅)) as [Hwg|]; [|done]. exists {[Writing]}. split; [by eapply guar_unchanged|]. cbn [snd].
  assert (at_rest m3) as Hrest.
  { assert (writer m3 = true) as Hw3 by (apply (rely_holds _ _ _ Writing Hr3); set_solver). pose proof (v_lock strict path m3 (rely_inv _ _ _ Hr3) Hw3) as Hn3.
    split; [by apply (r_stopped _ _ _ (rely_rel _ _ _ Hr3))|]. split; [|done]. apply map_empty. intros id. destruct (active m3 !! id) as [o|] eqn:E; [|done].
    destruct (v_active strict path m3 (rely_inv _ _ _ Hr3) id o E) as (_ & a & _ & _ & [Hin|Hin]); [rewrite Hwg in Hin|rewrite Hn3 in Hin]; set_solver. }
  assert (evolves m m3) as He3.
  { eapply evolves_then; [exact He1|]. eapply evolves_then; [by eapply evolves_rely|]. eapply evolves_then; [by eapply change_evolves|by eapply evolves_rely]. }
  apply wp_bind, lock_persist_spec; [set_solver|]. intros m4 Hr4 Hd4 _. apply wp_bind, wp_look. intros m5 Hr5'.
  destruct (persisting _ _ _ Hr5') as (Hi5 & Hp5 & Et5 & Ea5 & Ek5 & Hr5). pose proof (disk_ok_same strict path m4 m5 Et5 Ek5 Hd4) as Hd5.
  assert (forall e m', rely {[Writing]} m5 m' -> wp Q (_ ← Unlock; mret e) {[Writing]} m') as Hend.
  { intros e m' Hr'. apply wp_bind, Unlock_spec. intros m8 Hi8 He8. assert (evolves m3 m8) as He38.
    { eapply evolves_then; [by eapply evolves_rely|]. eapply evolves_then; [by eapply evolves_rely|]. eapply evolves_then; [by eapply evolves_rely|done]. }
    apply wp_return, HQ; [done|by eapply evolves_then|by eapply at_rest_evolves]. }
  apply wp_bind, persist_spec; [set_solver| |].
  - intros m6 Hr6 Et6 Ea6 Ek6. apply wp_bind, unlock_persist_spec; [set_solver|apply disk_current; [by eapply rely_inv|by rewrite Et6]|].
    intros m7 Hr7. apply Hend. by eapply rely_next.
  - intros e m6 He Hr6 Et6 Ea6 Ek6. apply wp_bind, unlock_persist_spec; [set_solver|by apply (disk_ok_same strict path m5)|].
    intros m7 Hr7. apply Hend. by eapply rely_next.
Qed.

(** *** Clients *)

Definition durable_call (c : call) : bool :=
  match c with CStart _ s q => durable q && session_text s | CResume _ s _ _ => session_text s | _ => true end.
Definition shuts (c : call) : bool := match c with CShutdown => true | _ => false end.

Lemma call_spec c (Q : unit -> gset token -> Manager -> Prop) m :
  (strict = true -> durable_call c = true) -> (forall m', inv m' -> evolves m m' -> (shuts c = true -> at_rest m') -> Q tt ∅ m') -> wp Q (perform c) ∅ m.
Proof.
  intros Hd HQ. destruct c; apply wp_bind;
    [apply start_transfer_spec; [intros Hs; specialize (Hd Hs); by apply andb_true_iff in Hd|]|apply resume_transfer_spec; [done|]|apply Cancel_spec|apply stop_transfers_spec|apply ClearHistory_spec|apply shutdown_transfers_spec]; intros; by apply wp_return, HQ.
Qed.

Lemma transfer_client_spec calls (Q : unit -> gset token -> Manager -> Prop) m :
  inv m -> (strict = true -> forallb durable_call calls = true) ->
  (forall m', inv m' -> (existsb shuts calls = true \/ at_rest m -> at_rest m') -> Q tt ∅ m') -> wp Q (client calls) ∅ m.
Proof.
  revert m. induction calls as [|c calls IH]; intros m Hi Hd HQ; cbn [client].
  - apply wp_return, HQ; [done|]. by intros [].
  - cbn [forallb] in Hd. apply wp_bind, call_spec; [intros Hs; by apply andb_true_iff in Hd as [? _]|]. intros m1 Hi1 He1 Hr1. apply IH; [done| |].
    + intros Hs. by apply andb_true_iff in Hd as [_ ?].
    + intros m2 Hi2 Hr2. apply HQ; [done|]. intros Hor. apply Hr2. cbn [existsb] in Hor. rewrite orb_true_iff in Hor.
      destruct Hor as [[Hc|Hc]|Hr]; [right; auto|by left|right; by eapply at_rest_evolves].
Qed.

(** *** The laws of the logic *)

Lemma transfer_laws : Threads.laws run answers inv holds others keeps transfer_entry shut.
Proof.
  split.
  - intros ts m. apply rel_refl.
  - intros ts m. apply rel_refl.
  - intros ts m1 m2 m3. apply rel_trans.
  - intros ts ts' m m' Hs. apply rel_mono. cbn. set_solver.
  - intros ts ts' m m' Hd. apply rel_mono. cbn. set_solver.
  - intros o ts m m' (-> & a & Ha & Hact) Hr. split; [done|]. destruct (r_transfer _ _ _ (rely_rel _ _ _ Hr) o a Ha) as (a' & Ha' & (Hid & _)).
    exists a'. split; [done|]. rewrite Hid. eapply owned; [apply own_owning|done|done].
  - apply goroutine_spec.
  - intros ts m m' Hs Hr He. eapply at_rest_evolves; [by apply Hs|by eapply evolves_rely].
Qed.

Lemma inv_NewManager source now stored : TrimSpace source = path -> now <> 0 -> inv (NewManager source now stored).
Proof.
  intros Hsource Hnow. unfold NewManager. rewrite Hsource. destruct (bool_decide_reflect (path = "")) as [Hp|Hp]; cbn [negb].
  { split; cbn; try done; [intros id; by rewrite elem_of_dom|]. intros _. by intros []. }
  assert (forall id t, load now (map json_task stored) ∅ !! id = Some t -> ID t = id /\ good t /\ in_flight (Status t) = false) as Hload.
  { apply load_rests; [done| |done]. apply Forall_forall. intros t (t0 & -> & _)%list_elem_of_fmap. apply json_clean. }
  split; cbn; try done.
  - intros id t Ht. by apply Hload.
  - intros id. by rewrite elem_of_dom.
  - intros id t Ht. rewrite lookup_empty. destruct (Hload id t Ht) as (_ & _ & ->). split; [done|by intros []].
  - intros _ id t Ht. by apply (Hload id t Ht).
  - intros _ _. exists (load now (map json_task stored) ∅). split; [done|]. split; [done|]. cbn. intros id t d Ht Hd. assert (d = t) as -> by congruence.
    split; [by left|]. destruct (Hload id t Ht) as (? & ? & _). done.
Qed.

Lemma transfers_sound source now stored (clients : list (list call)) :
  TrimSpace source = path -> now <> 0 -> (strict = true -> forallb (forallb durable_call) clients = true) ->
  (ends = true -> match clients with calls :: _ => existsb shuts calls = true | [] => True end) ->
  sound answers inv holds others keeps transfer_entry shut (start source now stored clients).
Proof.
  intros Hsource Hnow Hd He. exists (map (fun _ => ∅) clients). split; [by apply inv_NewManager|]. split; [unfold start; cbn; by rewrite !length_map|]. split.
  - intros i j ts ts' _ Hi%list_lookup_fmap_Some Hj. destruct Hi as (? & -> & _). set_solver.
  - intros i p ts Hp Ht. apply list_lookup_fmap_Some in Hp as (calls & -> & Hc), Ht as (? & -> & _). split; [set_solver|].
    apply transfer_client_spec; [by apply inv_NewManager| |].
    + intros Hs. specialize (Hd Hs). rewrite forallb_forall in Hd. apply Hd, list_elem_of_In. by eapply list_elem_of_lookup_2.
    + intros m' _ Hr -> Hends. destruct clients as [|calls0 clients]; [done|]. injection Hc as <-. apply Hr. left. by apply He.
Qed.
End logic.

(** ** Theorems *)

Section theorems.
Context `{UuidPackage, UnicodePackage}.

(** C4 (invariant). However the calls of the clients, the goroutines of transfers
    and the answers of the outside interleave, no goroutine panics, a task is shown
    as queued, preparing or running exactly while a transfer of it is under way,
    and when a client has shut the manager down, no task is and no goroutine of a
    transfer is left. *)
Theorem transfers_settle (path : string) (now : Z) (stored : list Task) (shutting : list call) (clients : list (list call)) (es : list event) (s : system)
    (Hnow : now <> 0) (Hshut : existsb shuts shutting = true) (Hpatient : forallb patient es = true)
    (Hrun : run_schedule run fits (start path now stored (shutting :: clients)) es = Some s) :
  Crash ∉ threads s /\
  (forall id t, tasks (world s) !! id = Some t -> in_flight (Status t) = true <->
     exists o a, active (world s) !! id = Some o /\ transfers (world s) !! o = Some a /\ at_task a = id) /\
  (threads s !! 0%nat = Some (Return tt) ->
     (forall id t, tasks (world s) !! id = Some t -> in_flight (Status t) = false) /\ active (world s) = ∅ /\ wg (world s) = ∅).
Proof.
  assert (sound fits (inv false (TrimSpace path)) holds others keeps transfer_entry (shut true) s) as Hs.
  { eapply run_schedule_sound; [apply (transfer_laws false)|apply (transfers_sound false true _ path now stored (shutting :: clients)); [done|done|done|by intros _]|done|done]. }
  pose proof (sound_invariant _ _ _ _ _ _ _ s Hs) as Hi. split; [by eapply sound_no_crash|]. split.
  - intros id t Ht. rewrite (v_flight false _ _ Hi id t Ht). split; [|by intros (o & a & ? & _); exists o].
    intros [o Ho]. destruct (v_active false _ _ Hi id o Ho) as (_ & a & Ha & Hid & _). by exists o, a.
  - intros Hret. destruct (sound_final _ _ _ _ _ _ _ s tt Hs Hret) as [ts Hf]. destruct (Hf eq_refl) as (_ & Hact & Hwg). split; [|done].
    intros id t Ht. destruct (in_flight (Status t)) eqn:E; [|done]. apply (v_flight false _ _ Hi id t Ht) in E as [o Ho]. by rewrite Hact, lookup_empty in Ho.
Qed.

(** C3 (refinement). When there is a state file and nobody is writing it, a restart
    knows the tasks of the manager and no others: each as it was, or interrupted
    when it was under way; a transfer whose end could not be written comes back
    interrupted too; of the text of an error the UTF-8 is kept.  The local paths of
    requests are such that they are accepted again, and the strings of requests,
    Sessions and identifiers are UTF-8: JSON keeps no others. *)
Theorem restart_keeps_tasks (path : string) (now later : Z) (stored : list Task) (clients : list (list call)) (es : list event) (s : system)
    (Hpath : TrimSpace path <> "") (Hnow : now <> 0) (Hdurable : forallb (forallb durable_call) clients = true) (Hpatient : forallb patient es = true)
    (Hrun : run_schedule run fits_text (start path now stored clients) es = Some s) (Hquiet : persistMu (world s) = false) :
  forall id,
    match tasks (world s) !! id with
    | None => tasks (NewManager path later (disk (world s))) !! id = None
    | Some t => exists d, tasks (NewManager path later (disk (world s))) !! id = Some (interrupted later (json_error d)) /\
                  (d = t \/ (Status t = StatusFailed /\ in_flight (Status d) = true /\ same_task t d))
    end.
Proof.
  assert (sound fits_text (inv true (TrimSpace path)) holds others keeps transfer_entry (shut false) s) as Hs.
  { eapply run_schedule_sound; [apply (transfer_laws true)|apply (transfers_sound true false _ path now stored clients); [done|done|by intros _|done]|done|done]. }
  pose proof (sound_invariant _ _ _ _ _ _ _ s Hs) as Hi. destruct (v_disk true _ _ Hi Hquiet Hpath) as (file & Hd & Hdom & Hw). intros id.
  assert (forall x d, file !! x = Some d -> ID d = x /\ good d) as Hfile.
  { intros x d Hx. destruct (proj1 (Hdom x) ltac:(by exists d)) as [t Ht]. destruct (Hw x t d Ht Hx) as (_ & Hok & Hid). auto. }
  assert (tasks (NewManager path later (disk (world s))) !! id = (fun d => interrupted later (json_error d)) <$> file !! id) as ->.
  { unfold NewManager. rewrite bool_decide_eq_false_2 by done. cbn. rewrite Hd, encoded_again.
    apply load_persisted; [intros x d Hx; by apply Hfile|]. intros x d Hx. by apply (Hfile x d). }
  destruct (tasks (world s) !! id) as [t|] eqn:Ht.
  - destruct (proj2 (Hdom id) ltac:(by exists t)) as [d Hd']. exists d. rewrite Hd'. split; [done|]. by destruct (Hw id t d Ht Hd') as (? & _).
  - destruct (file !! id) as [d|] eqn:E; [|done]. destruct (proj1 (Hdom id) ltac:(by exists d)). congruence.
Qed.
End theorems.

(** ** Runs *)

#[local] Instance ascii_lower : UnicodePackage := {| strings_ToLower := ToLower |}.
Definition sample_id : string := "3f2c8a4e-1b7d-4c60-9e5a-7d1f0b2c3a4d".
Definition sample_profile : Profile := mkProfile "profile".
Definition sample_session : Session := mkSession "session" "development" "active".
Definition sample_request (path : string) : Request := mkRequest "profile" " Upload" "file" "web" "" path "/srv/data.bin" false.
Definition sample_start (path : string) : call := CStart sample_profile sample_session (sample_request path).
Definition written_well : answer := AnErr [].
Definition started : list answer := [ATime 5; AUUID sample_id; written_well; written_well].
Definition changed (now : Z) : list answer := [ATime now; written_well; written_well].
(** The goroutine of an upload of 8 bytes up to its end. *)
Definition uploading : list answer :=
  changed 6 ++ [AnUpload (inr (8, zeroChecksum))] ++ changed 7 ++ [AStream [mkProgressStatus 4 8] (mkTransferResult x00 8 zeroChecksum true "") []] ++ changed 8.

Definition sample_path : string := "/home/user/transfers.json".
Definition play (clients : list (list call)) (turns : list (nat * list answer)) : list event * system :=
  drive_all run fits_text 100 turns (start sample_path 1 [] clients).
Definition statuses (tasks : gmap string Task) : list (string * string * Z) := map (fun '(id, t) => (id, Status t, DoneBytes t)) (map_to_list tasks).

(** One client starts an upload and another shuts the manager down. *)
Definition life : list event * system :=
  drive_all run fits 100 [(1%nat, started); (2%nat, uploading ++ changed 9); (0%nat, [written_well])]
    (start sample_path 1 [] [[CShutdown]; [sample_start "/tmp/data.bin"]]).

Lemma transfers_settle_witness : statuses (tasks (world life.2)) = [(sample_id, "completed", 8)] /\ threads life.2 !! 0%nat = Some (Return tt) /\ wg (world life.2) = ∅.
Proof.
  assert (threads life.2 !! 0%nat = Some (Return tt)) as Hret by (apply returned_spec; vm_compute; reflexivity).
  split; [vm_compute; reflexivity|]. split; [exact Hret|].
  assert (forallb patient life.1 = true) as Hp by (vm_compute; reflexivity).
  refine (proj2 (proj2 (proj2 (proj2 (transfers_settle sample_path 1 [] [CShutdown] [[sample_start "/tmp/data.bin"]] life.1 life.2 _ _ Hp _)) Hret))); [lia|reflexivity|apply drive_all_runs].
Defined.

(** The end of the upload cannot be written. *)
Definition cut : list event * system :=
  play [[sample_start "/tmp/data.bin"]] [(0%nat, started); (1%nat, uploading ++ [ATime 9; AnErr [NewError "disk full"]; written_well])].

Lemma restart_keeps_tasks_witness :
  statuses (tasks (world cut.2)) = [(sample_id, "failed", 8)] /\ statuses (tasks (NewManager sample_path 20 (disk (world cut.2)))) = [(sample_id, "interrupted", 4)] /\
  match tasks (world cut.2) !! sample_id with
  | None => tasks (NewManager sample_path 20 (disk (world cut.2))) !! sample_id = None
  | Some t => exists d, tasks (NewManager sample_path 20 (disk (world cut.2))) !! sample_id = Some (interrupted 20 (json_error d)) /\
                (d = t \/ (Status t = StatusFailed /\ in_flight (Status d) = true /\ same_task t d))
  end.
Proof.
  split; [vm_compute; reflexivity|]. split; [vm_compute; reflexivity|].
  assert (forallb patient cut.1 = true) as Hp by (vm_compute; reflexivity). assert (persistMu (world cut.2) = false) as Hq by (vm_compute; reflexivity).
  refine (restart_keeps_tasks sample_path 1 20 [] [[sample_start "/tmp/data.bin"]] cut.1 cut.2 _ _ _ Hp _ Hq sample_id);
    [by vm_compute|lia|vm_compute; reflexivity|apply drive_all_runs].
Defined.

(** A local path that ends in a blank once it is clean is accepted, and its task is
    shown and written; but the file's reader trims it, and drops the task. *)
Definition blank : list event * system := play [[sample_start "/tmp/data /"]] [(0%nat, started); (1%nat, uploading ++ changed 9)].

Theorem blank_path_forgotten :
  run_schedule run fits_text (start sample_path 1 [] [[sample_start "/tmp/data /"]]) blank.1 = Some blank.2 /\ persistMu (world blank.2) = false /\
  statuses (tasks (world blank.2)) = [(sample_id, "completed", 8)] /\ map ID (disk (world blank.2)) = [sample_id] /\
  statuses (tasks (NewManager sample_path 20 (disk (world blank.2)))) = [].
Proof. split; [apply drive_all_runs|]. split; [|split; [|split]]; vm_compute; reflexivity. Qed.

(** A local path whose bytes are not UTF-8 is accepted too; the task that a restart
    shows has another path. *)
Definition raw_path : string := bytes_to_string [x2f; x74; x6d; x70; x2f; xff].
Definition raw : list event * system := play [[sample_start raw_path]] [(0%nat, started); (1%nat, uploading ++ changed 9)].

Theorem raw_path_changed :
  run_schedule run fits_text (start sample_path 1 [] [[sample_start raw_path]]) raw.1 = Some raw.2 /\ persistMu (world raw.2) = false /\
  (LocalPath <$> tasks (world raw.2) !! sample_id) = Some raw_path /\
  (LocalPath <$> tasks (NewManager sample_path 20 (disk (world raw.2))) !! sample_id)
    = Some (bytes_to_string [x2f; x74; x6d; x70; x2f; xef; xbf; xbd]).
Proof. split; [apply drive_all_runs|]. split; [|split]; vm_compute; reflexivity. Qed.
